(* ===== verification/_CoqProject ===== *)
-Q . S2P
Prelude.v
Intervals.v
IntervalTree.v
IntervalUpdate.v
MaapPacket.v
MaapTime.v
MaapNet.v
Maap.v
MaapInv.v
MaapSafety.v
MaapConflict.v
MaapHandle.v
MaapTimer.v
MaapClient.v
MaapProps.v
MaapExamples.v
Text.v
Parse.v
MaapParse.v
MaapText.v
MaapServer.v
MaapServerProps.v
MaapServerExamples.v
MaapLogQueue.v
Mrp.v
MrpProps.v
MrpExamples.v
Mvrp.v
MvrpWire.v
MvrpDecode.v
MrpWorld.v
MvrpInv.v
MvrpEvent.v
MvrpTable.v
MvrpRecv.v
MvrpProps.v
MvrpList.v
MvrpExamples.v
Mmrp.v
MmrpInv.v
MmrpWire.v
MmrpEvent.v
MmrpRecv.v
MmrpProps.v
MmrpFaults.v
Eui64set.v
Msrp.v
MsrpEmit.v
MsrpDaemon.v
MsrpRx.v
MsrpCmd.v
MsrpInv.v
MsrpWire.v
MsrpTable.v
MsrpEvent.v
MsrpRecv.v
MsrpClient.v
MsrpProps.v
MsrpFaults.v
MsrpExamples.v
MrpLocal.v
Mrpd.v
MrpdInv.v
MrpdProps.v
Shaper.v
ShaperInv.v
ShaperParse.v
ShaperProps.v
ShaperExamples.v
GptpTime.v
GptpMsg.v
GptpCodec.v
Gptp.v
GptpClock.v
GptpPort.v
GptpRx.v
GptpEvent.v
GptpInv.v
GptpProps.v
GptpExamples.v
