(* ===== verification/Prelude.v ===== *)
(** * A verification development for avb4linux

    avb4linux is a set of Linux daemons for Audio Video Bridging.  This library models
    the daemons: MAAP, which acquires multicast addresses, mrpd, which registers VLANs,
    addresses and streams, the traffic shaper, and gPTP, which synchronises clocks; and it
    proves the properties that make them correct.

    ** The program and its parts

    - [daemons/maap]: the Multicast Address Acquisition Protocol.  Clients reserve blocks
      of multicast addresses; the daemon picks a block, probes for it, announces and
      defends it.  [intervals.c] keeps the reserved blocks in a binary tree,
      [maap_packet.c] packs and unpacks the 42-byte PDU, [maap_net.c] holds outgoing
      frames, [maap_timer_linux.c] does the time arithmetic, and [maap.c] is the engine
      that uses all of them.  [maap_parse.c] reads the commands of clients,
      [maap_daemon.c] is the loop that serves the network and the clients, and
      [maap_log_queue.c] the ring of its log messages.
    - [daemons/mrpd]: the Multiple Registration Protocol.  [mrp.c] has the per-attribute
      applicant and registrar state machines, the leave-all and periodic machines, the
      timers and the list of clients; [mvrp.c] (VLANs), [mmrp.c] (MAC addresses) and
      [msrp.c] (streams) each keep a database of attributes on top of it, encode and
      decode MRPDUs, notify clients and obey their commands; [mrpd.c] owns the sockets,
      the timers and the event loop.
    - [daemons/shaper]: [shaper_daemon.c] reserves bandwidth for streams in two traffic
      classes and configures the kernel with the [tc] command.
    - [daemons/gptp]: the generalised Precision Time Protocol, in C++.  [ptp_message.cpp]
      builds, decodes and processes the messages, [ieee1588clock.cpp] is the clock with
      its control loop and its timers, [common_port.cpp] and [ether_port.cpp] the port:
      the choice of the master, the measurement of the link and the reactions to timers.
    - [daemons/common]: [parse.c], the parser of command parameters shared by the daemons,
      and [eui64set.c], the sorted set of stream identifiers of [msrp.c].

    ** How the code is modelled

    C functions are Rocq functions of the same name.  Code that only computes returns
    [outcome]: [Done] a result, or the [Fault] at which the C program has no meaning (a
    NULL or dangling pointer, an access outside a buffer, a failed assertion) or leaves
    ([Exited]).  Code that changes state is a computation [stM S A] from states to
    outcomes; [wp m Q s] says that [m] run from [s] ends without a fault in a state that
    satisfies [Q].  Integers are [Z], cut to their width ([u8] .. [u64]) wherever the C
    expression is; buffers are lists of bytes; [float], [double] and [long double] are the
    IEEE 754 numbers of the Standard Library's [SpecFloat].  Answers of the world (system
    calls, [random], [malloc], the clock, timestamps) come from a type class ([MrpEnv],
    [GptpEnv]) or an oracle in the state (MAAP) and are drawn in order, so every theorem
    holds for all of them; hypotheses on them are documented behaviour
    ([timerfd_settime] succeeds, [random] is not negative) or, where a theorem says so,
    that memory, a timer, a lock or a socket is available.

    MAAP searches for a free block with up to a thousand random draws, and a success on the
    last of them is taken for a failure ([assign_interval_late_success]): a block stays in
    the tree that no range owns.  To say which runs that happens in, the model can watch for
    it: with [late_draw_watched] set, which it never is for the program itself, such a run
    stops with the fault [LateDraw] instead.  No hypothesis excludes it.  What survives it is
    proved of all runs; the theorems on complete handlers name the watched run that stops
    as the exception.

    Loops of unbounded length carry fuel.  The fuel is what the loop can use: the number
    of nodes of the tree or list, or of the bytes of the buffer (every iteration of the
    decoders consumes at least one byte); the theorems show that [OutOfFuel] is never the
    result.

    ** Files

    MAAP:
    - [Intervals] is intervals.c on a heap of nodes with parent pointers; [IntervalTree]
      and [IntervalUpdate] relate the heap to a sorted list of disjoint intervals.
    - [MaapPacket] is maap_packet.c and .h, [MaapTime] maap_timer_linux.c, [MaapNet]
      maap_net.c, with their theorems.
    - [Maap] is maap.c: the record [Maap_Client], the heap of ranges, the timer queue,
      and every handler.  [MaapInv] states the client invariant, [MaapSafety],
      [MaapConflict], [MaapHandle], [MaapTimer] and [MaapClient] prove that the handlers
      keep it and what they do, [MaapProps] has the theorems and [MaapExamples] concrete
      runs.
    - [MaapParse] is maap_parse.c, [MaapText] the texts the daemon prints and their line
      breaking, [MaapServer] the loop of maap_daemon.c with its buffers and clients;
      [MaapServerProps] has the theorems, [MaapServerExamples] concrete runs.
      [MaapLogQueue] is maap_log_queue.c.

    MRP:
    - [Text] is the part of printf and scanf the daemons use, [Parse] is parse.c.
    - [Mrp] is mrp.c and the timer and control-socket helpers of mrpd.c; an application
      embeds its own state beside the shared [mrp_database].  [MrpProps] has the theorems
      on the state machines, timers and clients, [MrpExamples] concrete runs.
    - [Mvrp] is mvrp.c.  [MvrpWire] specifies the encoder by the frames it writes,
      [MvrpDecode] shows that the decoder reads them back.  [MvrpInv] and [MvrpEvent]
      characterise every event by a function on the attribute list and state the
      invariant [mvrp_inv]; [MvrpTable] is the abstract table of VLANs and the refinement;
      [MvrpRecv] treats arbitrary frames and commands; [MvrpProps] has the theorems,
      [MvrpExamples] concrete runs.  [MvrpList] is the doubly linked list in memory that
      the other files see as a list.
    - [Mmrp] is mmrp.c.  [MmrpInv] states the order of the attribute list, [MmrpWire]
      shows where the encoders write, [MmrpEvent] has the abstract table of addresses and
      service requirements, the invariant [mm_inv] and the refinement, [MmrpRecv] treats
      arbitrary frames and commands; [MmrpProps] has the theorems, [MmrpFaults] the runs
      in which the encoders go wrong and concrete instances.
    - [Eui64set] is eui64set.c, with its theorems; the C library's [qsort] and [bsearch]
      are a type class with the laws of the C standard, and [plain_libc] an instance.
    - msrp.c is [Msrp] (data, attribute list, notifications), [MsrpEmit] (encoders),
      [MsrpDaemon] (events), [MsrpRx] (reception) and [MsrpCmd] (commands, start-up).
      [MsrpInv] has the invariant of the list, [MsrpWire] where the encoders write,
      [MsrpTable] the abstract table of streams, [MsrpEvent] the refinement, [MsrpRecv] and
      [MsrpClient] arbitrary frames and commands; [MsrpProps] has the theorems,
      [MsrpFaults] the limits, [MsrpExamples] concrete runs.
    - [MrpWorld] and [MrpLocal] say what an application leaves alone of what it shares with
      the others.  [Mrpd] is the part of mrpd.c that puts the three together, [MrpdInv]
      their common invariant, [MrpdProps] the theorems with a concrete daemon.

    Shaper:
    - [Shaper] is shaper_daemon.c.  [ShaperInv] relates the classes to the streams and to
      what the kernel was asked for, [ShaperParse] treats the parser, [ShaperProps] has the
      theorems, [ShaperExamples] concrete runs.

    gPTP:
    - [GptpTime] is the class [Timestamp] of ieee1588.hpp with its arithmetic, [GptpMsg]
      the messages and their encoding, [GptpCodec] the theorems on it.
    - [Gptp] is the state: clock, port, peer, timers, and what the daemon has done; and
      the real numbers.  [GptpClock] is ieee1588clock.cpp, [GptpPort] what the port does on
      its own, [GptpRx] the processing of messages, [GptpEvent] the processing of events,
      and the daemon as a machine: a timer expires, a frame arrives, the link changes.
    - [GptpInv] states the invariant and shows that every handler keeps it, [GptpProps] has
      the theorems, [GptpExamples] concrete runs.

    ** What the theorems show

    - MAAP: reserved blocks never overlap and stay in the pool, in every reachable state
      and for all random numbers; every operation within its contract ends without an
      invalid access, unless its search succeeds on the last draw; the tree implements
      an ordered set; what each handler does, branch by branch; the packet codec is a
      bijection on well-formed packets; which of two stations wins a conflict.  The daemon
      goes on whatever arrives within the contract of the commands (with the same exception),
      and delivers every notification, in order and complete; commands are read back from the text written
      for them; the ring of log messages is a first-in first-out queue.
    - MRP: what an applicant declares as a function of the requests it got, how often it
      confirms a declaration after a LeaveAll, which message it sends and that it comes to
      rest; the registrar's state, timer and notifications as a function of the events
      received; when a LeaveAll is sent.
    - MVRP: the invariant of the database in every reachable state, and that every input
      is processed without a fault (except frames of more than 1996 bytes and dumps of
      fifty attributes or more); frames survive the wire; an event changes the table of
      VLANs as the standard's tables say, which [MvrpTable] writes out row by row;
      transmission of up to 394 attributes loses no declaration; clients are told of
      registrations; the linked list implements the list.
    - MMRP: the attributes stay grouped by type and sorted in every reachable state, and
      the inputs the buffers are made for are processed without a fault; an event changes
      the table of registrations as the standard's tables say; any frame of at most 1992
      bytes is decoded safely.
    - MSRP: one attribute for each stream and role in every reachable state; an event
      changes the table of streams as the standard's tables, merging and pruning say; any
      frame of at most 1963 bytes is decoded safely, at most 49 attributes are transmitted
      and 11 dumped safely.
    - mrpd: the three applications keep their invariants together although they share
      sockets and timers, through rounds whose frames, tables and dumps are within these
      bounds; the work of one changes nothing of the others; the daemon's own timers are
      always armed.
    - The EUI-64 set implements a finite map, whatever conforming C library it runs on, but
      for a removal beside the largest identifier.
    - Shaper: in every reachable state, whatever [system] and [malloc] answer, the bandwidth
      of each class is the sum of its streams' and is what the kernel was asked for, unless
      a client was told that a filter could not be deleted; every command that can be read
      changes the table of reservations as its specification says, or leaves it and tells of
      a failure, or exits for want of memory; a reservation is read back from the text of the
      usage message, and its bandwidth is exact for intervals of 125 and 250 microseconds.
    - gPTP: from power-up the daemon goes on without a fault, whatever expires and arrives
      and whatever the system answers, but for one call of [abort()] and for Announces with
      more than seven path identities, which are read past the buffer; the timers its state
      needs are running when the system gives them; a port that hears nothing becomes master; an Announce makes the better of two clocks grandmaster and
      the port master or slave accordingly; an exchange with the peer gives the delay of
      the link, exactly for the rate one; messages survive the wire up to the fields the
      decoder is shown to lose; decoding stays in its buffer but for long path traces;
      arithmetic on timestamps is that of nanoseconds.  The theorems on the whole daemon
      are for a port without the automotive profile, with a timestamper, on a clock that
      may be grandmaster; that timers run is for configured and signalled intervals of
      2^-19 to 2^25 seconds: a shorter one makes a timer of zero, which never expires (the
      run [announces_stop]).
    - Limits of the code, as theorems: the table dump overflows at fifty attributes, a
      frame that fills the receive buffer is read past its end, a reservation of length
      zero aborts, a conflict below the pool is missed, MMRP's leave-all timer can write
      one byte past its frame, its service requirements are misread by the receiver and
      its Joins encoded from the wrong registrar, MSRP loses what did not fit into a frame,
      a full receive buffer of the MAAP daemon is overrun by one byte, and others.

    ** Not modelled

    - Input and output around the cores: opening sockets, the command line, daemonisation
      and the log of maap_daemon.c, mrpd.c and shaper_daemon.c; mrpw.c and que.c, which are
      mrpd for Windows.  What the loops receive are the inputs of the modelled machines.
    - Of gptp: the wireless port, [serializeState] and its counterpart, the configuration
      file, the hardware timestampers and sockets of each system (their answers are
      [GptpEnv]), shared memory, and the interleaving of threads: the program serialises
      its handlers with locks, and they run to their end here.
    - kernel-module/igb (Intel's driver: registers of the hardware and interfaces of the
      kernel) and tools (example clients). *)

From Stdlib Require Import SpecFloat.
From stdpp Require Import base gmap list strings numbers sorting.
From Stdlib Require Import ZArith Lia.

#[local] Open Scope Z_scope.

(** ** Outcomes of C code

    [Done a] is a normal return; [Fault w] is the point where the C program has no
    meaning any more or stops: a NULL or dangling dereference, a failed [assert], a
    division by zero, an access outside a buffer, a call of [exit].  [OutOfFuel] marks a loop whose
    iteration budget was too small; the theorems show it is never produced.  [LateDraw] is no
    behaviour of the code: only an observed run of the MAAP client ([Maap.watched]) ends with it. *)
Inductive fault :=
  | NullDeref
  | Dangling
  | AssertFail
  | DivByZero
  | OutOfBounds
  | Exited
  | OutOfFuel
  | LateDraw.

Inductive outcome (A : Type) : Type :=
  | Done (a : A)
  | Fault (w : fault).
Arguments Done {A} a.
Arguments Fault {A} w.

#[global] Instance fault_eq_dec : EqDecision fault.
Proof. solve_decision. Defined.

#[global] Instance outcome_ret : MRet outcome := fun A a => Done a.
#[global] Instance outcome_bind : MBind outcome :=
  fun A B f m => match m with Done a => f a | Fault w => Fault w end.
#[global] Instance outcome_map : FMap outcome :=
  fun A B f m => match m with Done a => Done (f a) | Fault w => Fault w end.

(** Reduce the binds of [outcome], and nothing else. *)
Ltac obind := cbn [mbind outcome_bind fmap outcome_map mret outcome_ret].

(** [assert(b)] *)
Definition c_assert (b : bool) : outcome unit := if b then Done tt else Fault AssertFail.

(** Turning an optional value into an outcome, with the fault NULL stands for. *)
Definition or_fault {A} (w : fault) (o : option A) : outcome A :=
  match o with Some a => Done a | None => Fault w end.

(** ** State-passing computations that can fault *)
Definition stM (S A : Type) : Type := S -> outcome (A * S).

Definition st_ret {S A} (a : A) : stM S A := fun s => Done (a, s).
Definition st_bind {S A B} (m : stM S A) (k : A -> stM S B) : stM S B :=
  fun s => match m s with Done (a, s') => k a s' | Fault w => Fault w end.
Definition st_get {S} : stM S S := fun s => Done (s, s).
Definition st_put {S} (s : S) : stM S unit := fun _ => Done (tt, s).
Definition st_modify {S} (f : S -> S) : stM S unit := fun s => Done (tt, f s).
Definition st_lift {S A} (o : outcome A) : stM S A :=
  fun s => match o with Done a => Done (a, s) | Fault w => Fault w end.
Definition st_assert {S} (b : bool) : stM S unit := st_lift (c_assert b).

Declare Scope st_scope.
Delimit Scope st_scope with st.
Notation "'let!' x := m 'in' k" := (st_bind m (fun x => k))
  (at level 10, x pattern, m at level 100, k at level 200) : st_scope.
Notation "m ;! k" := (st_bind m (fun _ => k))
  (at level 100, k at level 200, right associativity) : st_scope.
Notation "'when' b 'do' m" := (if b then m else st_ret tt)
  (at level 10, b at level 99, m at level 99) : st_scope.

(** What a computation guarantees: [wp m Q s] says that [m] run from [s] returns
    without a fault, in a result and a state that satisfy [Q]. *)
Definition wp {S A} (m : stM S A) (Q : A -> S -> Prop) (s : S) : Prop :=
  match m s with Done (a, s') => Q a s' | Fault _ => False end.

Section wp.
Context {S A B : Type}.
  Implicit Types (m : stM S A) (Q : A -> S -> Prop).
Lemma wp_ret (a : A) Q s : Q a s -> wp (st_ret a) Q s.
  Proof. done. Qed.
Lemma wp_bind m (k : A -> stM S B) (Q : B -> S -> Prop) s :
    wp m (fun a => wp (k a) Q) s -> wp (st_bind m k) Q s.
  Proof. unfold wp, st_bind. destruct (m s) as [[a s']|]; done. Qed.
Lemma wp_mono m Q1 Q2 s : wp m Q1 s -> (forall a s', Q1 a s' -> Q2 a s') -> wp m Q2 s.
  Proof. unfold wp. destruct (m s) as [[a s']|]; auto. Qed.
Lemma wp_lift (o : outcome A) a Q s : o = Done a -> Q a s -> wp (st_lift o) Q s.
  Proof. intros ->. done. Qed.
Lemma wp_done m Q s : wp m Q s -> exists a s', m s = Done (a, s') /\ Q a s'.
  Proof. unfold wp. destruct (m s) as [[a s']|]; [eauto|done]. Qed.
Lemma wp_intro m Q s a s' : m s = Done (a, s') -> Q a s' -> wp m Q s.
  Proof. unfold wp. by intros ->. Qed.
End wp.

(** A computation that stops at a failed assertion. *)
Definition aborts {S A} (m : stM S A) (s : S) : Prop := m s = Fault AssertFail.

Lemma aborts_bind {S A B} (m : stM S A) (k : A -> stM S B) s :
  wp m (fun a => aborts (k a)) s -> aborts (st_bind m k) s.
Proof. unfold wp, aborts, st_bind. destruct (m s) as [[a s']|]; done. Qed.
Lemma aborts_left {S A B} (m : stM S A) (k : A -> stM S B) s : aborts m s -> aborts (st_bind m k) s.
Proof. unfold aborts, st_bind. by intros ->. Qed.

Lemma wp_get {S} (Q : S -> S -> Prop) s : Q s s -> wp st_get Q s.
Proof. done. Qed.
Lemma wp_modify {S} (f : S -> S) (Q : unit -> S -> Prop) s : Q tt (f s) -> wp (st_modify f) Q s.
Proof. done. Qed.
Lemma wp_assert {S} b (Q : unit -> S -> Prop) s : b = true -> Q tt s -> wp (st_assert b) Q s.
Proof. by intros ->. Qed.

(** ** Machine-width integers *)
Definition U8 : Z := 2 ^ 8.
Definition U16 : Z := 2 ^ 16.
Definition U32 : Z := 2 ^ 32.
Definition U64 : Z := 2 ^ 64.

Definition u8 (z : Z) : Z := z mod U8.
Definition u16 (z : Z) : Z := z mod U16.
Definition u32 (z : Z) : Z := z mod U32.
Definition u64 (z : Z) : Z := z mod U64.

(** Conversion to a 32-bit two's complement [int] (what gcc and clang do). *)
Definition i32 (z : Z) : Z := (z + 2 ^ 31) mod U32 - 2 ^ 31.

Create HintDb width.
#[export] Hint Unfold U8 U16 U32 U64 u8 u16 u32 u64 i32 : width.

(** Unfold every width and normalise the constants, so that [lia] sees numbers. *)
Ltac unfold_width :=
  repeat autounfold with width in *;
  change (2 ^ 8) with 256 in *; change (2 ^ 16) with 65536 in *;
  change (2 ^ 31) with 2147483648 in *;
  change (2 ^ 32) with 4294967296 in *;
  change (2 ^ 48) with 281474976710656 in *;
  change (2 ^ 64) with 18446744073709551616 in *.

(** Evaluate the powers of two in the goal. *)
Ltac norm_pow2 :=
  repeat match goal with
  | |- context [2 ^ Zpos ?p] =>
    let v := eval vm_compute in (2 ^ Zpos p) in change (2 ^ Zpos p) with v
  end.

(** Linear arithmetic with [/] and [mod] by constants. *)
Ltac zdiv_lia := unfold_width; norm_pow2; Z.div_mod_to_equations; lia.

Lemma u8_small z : 0 <= z < 256 -> u8 z = z.
Proof. intros. unfold_width. by apply Z.mod_small. Qed.
Lemma u16_small z : 0 <= z < 65536 -> u16 z = z.
Proof. intros. unfold_width. by apply Z.mod_small. Qed.
Lemma u32_small z : 0 <= z < 4294967296 -> u32 z = z.
Proof. intros. unfold_width. by apply Z.mod_small. Qed.
Lemma u64_small z : 0 <= z < 18446744073709551616 -> u64 z = z.
Proof. intros. unfold_width. by apply Z.mod_small. Qed.
Lemma i32_small z : -2147483648 <= z < 2147483648 -> i32 z = z.
Proof. intros. zdiv_lia. Qed.

Lemma u8_range z : 0 <= u8 z < 256.
Proof. zdiv_lia. Qed.
Lemma u16_range z : 0 <= u16 z < 65536.
Proof. zdiv_lia. Qed.
Lemma u32_range z : 0 <= u32 z < 4294967296.
Proof. zdiv_lia. Qed.
Lemma u64_range z : 0 <= u64 z < 18446744073709551616.
Proof. zdiv_lia. Qed.

Create HintDb width_db.
#[export] Hint Resolve u8_range u16_range u32_range u64_range : width_db.

(** ** Byte strings

    A byte is a [Z] in [0, 256); a buffer is a list of bytes. *)
Definition is_byte (b : Z) : Prop := 0 <= b < 256.

(** [n] bytes of [v], most significant first (network order). *)
Fixpoint be_bytes (n : nat) (v : Z) : list Z :=
  match n with
  | O => []
  | S n' => u8 (Z.shiftr v (8 * Z.of_nat n')) :: be_bytes n' v
  end.

(** The number a network-order byte string stands for. *)
Definition be_val (l : list Z) : Z := foldl (fun acc b => acc * 256 + b) 0 l.

Lemma length_be_bytes n v : length (be_bytes n v) = n.
Proof. induction n; simpl; congruence. Qed.

Lemma be_bytes_is_byte n v : Forall is_byte (be_bytes n v).
Proof. induction n; constructor; [apply u8_range | done]. Qed.

Lemma foldl_be_acc l acc :
  foldl (fun acc b => acc * 256 + b) acc l = acc * 256 ^ Z.of_nat (length l) + be_val l.
Proof.
  unfold be_val. revert acc.
  induction l as [|b l IH]; intros acc; cbn [foldl length].
  - change (Z.of_nat 0) with 0. rewrite Z.pow_0_r. lia.
  - rewrite IH, (IH (0 * 256 + b)).
    rewrite Nat2Z.inj_succ, Z.pow_succ_r by lia. ring.
Qed.

Lemma be_val_cons b l : be_val (b :: l) = b * 256 ^ Z.of_nat (length l) + be_val l.
Proof. unfold be_val at 1. cbn [foldl]. rewrite foldl_be_acc. f_equal. Qed.

Lemma be_val_bytes n v : be_val (be_bytes n v) = v mod 2 ^ (8 * Z.of_nat n).
Proof.
  induction n as [|n IH].
  - simpl. by rewrite Z.mod_1_r.
  - cbn [be_bytes]. rewrite be_val_cons, length_be_bytes, IH.
    rewrite Z.shiftr_div_pow2 by lia.
    replace (256 ^ Z.of_nat n) with (2 ^ (8 * Z.of_nat n)) by (rewrite Z.pow_mul_r by lia; done).
    replace (2 ^ (8 * Z.of_nat (S n))) with (2 ^ (8 * Z.of_nat n) * 256)
      by (rewrite Nat2Z.inj_succ, Z.mul_succ_r, Z.pow_add_r by lia; done).
    unfold_width. rewrite Z.rem_mul_r by lia. lia.
Qed.

Lemma be_val_bytes_small n v : 0 <= v < 2 ^ (8 * Z.of_nat n) -> be_val (be_bytes n v) = v.
Proof. intros. rewrite be_val_bytes. by apply Z.mod_small. Qed.

Lemma be_val_range l : Forall is_byte l -> 0 <= be_val l < 256 ^ Z.of_nat (length l).
Proof.
  unfold is_byte. induction 1 as [|b l Hb _ IH].
  - cbn. lia.
  - rewrite be_val_cons. cbn [length]. rewrite Nat2Z.inj_succ, Z.pow_succ_r by lia. nia.
Qed.

Lemma be_bytes_app n m v :
  be_bytes (n + m) v = be_bytes n (Z.shiftr v (8 * Z.of_nat m)) ++ be_bytes m v.
Proof.
  induction n as [|n IH]; [done|]. simpl. rewrite IH. f_equal.
  rewrite Z.shiftr_shiftr by lia. do 2 f_equal. lia.
Qed.

Lemma be_val_app l1 l2 : be_val (l1 ++ l2) = be_val l1 * 256 ^ Z.of_nat (length l2) + be_val l2.
Proof. unfold be_val at 1. rewrite foldl_app. fold (be_val l1). apply foldl_be_acc. Qed.

Lemma be_bytes_add n k c x :
  (n <= k)%nat -> be_bytes n (c * 2 ^ (8 * Z.of_nat k) + x) = be_bytes n x.
Proof.
  induction n as [|n IH]; intros Hk; [done|]. cbn [be_bytes]. rewrite IH by lia. f_equal.
  rewrite !Z.shiftr_div_pow2 by lia.
  replace (c * 2 ^ (8 * Z.of_nat k) + x)
    with ((c * 2 ^ (8 * (Z.of_nat k - Z.of_nat n - 1)) * 256) * 2 ^ (8 * Z.of_nat n) + x).
  - rewrite Z.div_add_l by (apply Z.pow_nonzero; lia).
    unfold_width. rewrite Z.add_comm, Z.mod_add by lia. done.
  - change 256 with (2 ^ 8). rewrite <- !Z.mul_assoc, <- !Z.pow_add_r by lia.
    do 3 f_equal. lia.
Qed.

(** [be_bytes] and [be_val] are inverse on byte strings. *)
Lemma be_bytes_val l : Forall is_byte l -> be_bytes (length l) (be_val l) = l.
Proof.
  induction 1 as [|b l Hb Hl IH]; [done|]. cbn [length be_bytes]. rewrite be_val_cons.
  pose proof (be_val_range l Hl) as Hr. unfold is_byte in Hb.
  replace (256 ^ Z.of_nat (length l)) with (2 ^ (8 * Z.of_nat (length l))) in *
    by (rewrite Z.pow_mul_r by lia; done).
  rewrite be_bytes_add, IH by lia. f_equal.
  rewrite Z.shiftr_div_pow2, Z.div_add_l by (try apply Z.pow_nonzero; lia).
  rewrite (Z.div_small (be_val l)) by lia. rewrite Z.add_0_r. apply u8_small. lia.
Qed.

(** Disjoint bit fields: [lor] of a shifted field and a smaller one is a sum. *)
Lemma lor_shiftl_small a b n :
  0 <= n -> 0 <= b < 2 ^ n -> Z.lor (Z.shiftl a n) b = a * 2 ^ n + b.
Proof.
  intros Hn Hb. assert (Z.land (Z.shiftl a n) b = 0) as Hl.
  { apply Z.bits_inj'. intros i Hi. rewrite Z.land_spec, Z.bits_0.
    destruct (Z.lt_ge_cases i n) as [Hlt|Hge].
    - by rewrite Z.shiftl_spec_low.
    - rewrite <- (Z.mod_small b (2 ^ n)) by lia. rewrite Z.mod_pow2_bits_high by lia.
      apply andb_false_r. }
  rewrite <- Z.lxor_lor by done. rewrite <- Z.add_nocarry_lxor by done.
  by rewrite Z.shiftl_mul_pow2.
Qed.

(** [(b & (ones << k)) >> k] is a division and a remainder. *)
Lemma mask_shift b k w :
  0 <= k -> 0 <= w -> Z.shiftr (Z.land b (Z.shiftl (Z.ones w) k)) k = (b / 2 ^ k) mod 2 ^ w.
Proof.
  intros. rewrite Z.shiftr_land, Z.shiftr_shiftl_l, Z.sub_diag, Z.shiftl_0_r by lia.
  by rewrite Z.land_ones, Z.shiftr_div_pow2.
Qed.

(** ** Lists *)
Lemma StronglySorted_app_iff {A} (R : A -> A -> Prop) l1 l2 :
  StronglySorted R (l1 ++ l2) <->
  StronglySorted R l1 /\ StronglySorted R l2 /\ (forall x y, x ∈ l1 -> y ∈ l2 -> R x y).
Proof.
  induction l1 as [|a l1 IH]; simpl.
  - split; [intros H; repeat split; [constructor|done|] | naive_solver].
    intros x y Hx. set_solver.
  - split.
    + intros H. apply StronglySorted_inv in H as [H1 H2]. apply IH in H1 as (?&?&?).
      rewrite Forall_app in H2. destruct H2 as [H2 H3]. rewrite Forall_forall in H3.
      repeat split; [by constructor | done |]. intros x y Hx Hy.
      rewrite elem_of_cons in Hx. naive_solver.
    + intros (H1 & H2 & H3). apply StronglySorted_inv in H1 as [H0 H1].
      constructor.
      * apply IH. repeat split; auto. intros x y ??. apply H3; [by right | done].
      * apply Forall_app; split; [done|]. apply Forall_forall. intros y Hy.
        apply H3; [by left | done].
Qed.

(** The first element of a list that satisfies a test. *)
Definition find_first {A} (P : A -> bool) (l : list A) : option A :=
  head (base.filter (fun x => P x = true) l).

Lemma find_first_nil {A} (P : A -> bool) : find_first P [] = None.
Proof. done. Qed.
Lemma find_first_cons {A} (P : A -> bool) a l :
  find_first P (a :: l) = if P a then Some a else find_first P l.
Proof. unfold find_first. rewrite filter_cons. by destruct (P a). Qed.
Lemma find_first_app {A} (P : A -> bool) l1 l2 :
  find_first P (l1 ++ l2) = match find_first P l1 with Some a => Some a | None => find_first P l2 end.
Proof. induction l1 as [|a l1 IH]; [done|]. simpl. rewrite !find_first_cons. by destruct (P a). Qed.
Lemma find_first_None {A} (P : A -> bool) l :
  find_first P l = None <-> (forall x, x ∈ l -> P x = false).
Proof.
  induction l as [|a l IH]; [rewrite find_first_nil; set_solver|].
  rewrite find_first_cons. destruct (P a) eqn:E; split.
  - done.
  - intros H. rewrite H in E; [done|by left].
  - intros H x Hx. rewrite elem_of_cons in Hx. destruct Hx as [->|Hx]; [done|]. by apply IH.
  - intros H. apply IH. intros x Hx. apply H. by right.
Qed.
Lemma find_first_Some {A} (P : A -> bool) l a :
  find_first P l = Some a -> a ∈ l /\ P a = true.
Proof.
  induction l as [|b l IH]; [done|].
  rewrite find_first_cons. destruct (P b) eqn:E.
  - intros [= ->]. split; [by left|done].
  - intros H. apply IH in H as [??]. split; [by right|done].
Qed.

(** Where an element of a concatenation falls. *)
Lemma app_split_at {A} (l1 l2 xs : list A) a ys :
  l1 ++ l2 = xs ++ a :: ys ->
  (exists zs, l1 = xs ++ a :: zs /\ ys = zs ++ l2) \/
  (exists zs, xs = l1 ++ zs /\ l2 = zs ++ a :: ys).
Proof.
  revert xs. induction l1 as [|b l1 IH]; intros xs H; simpl in *.
  - right. by exists xs.
  - destruct xs as [|x xs]; simplify_eq/=.
    + left. by exists l1.
    + match goal with Heq : l1 ++ l2 = _ |- _ => apply IH in Heq end.
      destruct_or?; destruct_and?; naive_solver.
Qed.

(** ** Floating point

    IEEE 754 arithmetic with [prec] bits, as [SpecFloat] defines it.  An integer of up to
    [prec] bits is represented as it is, and rounding drops the zeros behind the mantissa of
    an exact result. *)
Lemma digits_log2 p : Zpos (digits2_pos p) = Z.log2 (Zpos p) + 1.
Proof. induction p as [p IH|p IH|]; cbn [digits2_pos]; [..|done]; rewrite Pos2Z.inj_succ, IH; destruct p; cbn; lia. Qed.

(** Shifting out zeros. *)
Lemma iter_pos_iter {A} (f : A -> A) n x : SpecFloat.iter_pos f n x = Pos.iter f x n.
Proof.
  revert x. induction n as [n IH|n IH|]; intros x; cbn; [..|done]; rewrite !IH; [|done].
  by rewrite <-!Pos.iter_swap.
Qed.
Lemma shr_zeros m n : SpecFloat.iter_pos shr_1 n (Build_shr_record (Zpos (shift_pos n m)) false false) = Build_shr_record (Zpos m) false false.
Proof.
  rewrite iter_pos_iter. induction n as [|n IH] using Pos.peano_ind; [done|].
  unfold shift_pos in *. by rewrite Pos.iter_succ_r, Pos.iter_succ.
Qed.
Lemma shift_pos_pow n m : Zpos (shift_pos n m) = Zpos m * 2 ^ Zpos n.
Proof. rewrite shift_pos_correct, Z.pow_pos_fold. lia. Qed.

Section floats.
Context (prec emax : Z) (Hprec : 0 < prec) (Hemax : prec + 3 <= emax).

Lemma shr_normal m e : Z.log2 (Zpos m) = prec - 1 -> emin prec emax <= e ->
  shr_fexp prec emax (Zpos m) e loc_Exact = (Build_shr_record (Zpos m) false false, e).
Proof.
  intros Hm He. unfold shr_fexp. cbn [shr_record_of_loc Zdigits2]. rewrite digits_log2, Hm. unfold fexp.
  by replace (Z.max _ _ - e) with 0 by lia.
Qed.

Lemma shr_shifted m n e : Z.log2 (Zpos m) = prec - 1 -> emin prec emax <= e + Zpos n ->
  shr_fexp prec emax (Zpos (shift_pos n m)) e loc_Exact = (Build_shr_record (Zpos m) false false, e + Zpos n).
Proof.
  intros Hm He. assert (Z.log2 (Zpos (shift_pos n m)) = prec - 1 + Zpos n) as Hs
    by (rewrite shift_pos_pow, Z.log2_mul_pow2, Hm; lia).
  unfold shr_fexp. cbn [shr_record_of_loc Zdigits2]. rewrite digits_log2, Hs. unfold fexp.
  replace (Z.max _ _ - e) with (Zpos n) by lia. cbn [shr]. f_equal. apply shr_zeros.
Qed.

Lemma round_normal s m e :
  Z.log2 (Zpos m) = prec - 1 -> emin prec emax <= e <= emax - prec ->
  binary_round_aux prec emax s (Zpos m) e loc_Exact = S754_finite s m e.
Proof.
  intros Hm He. unfold binary_round_aux. rewrite shr_normal by lia. cbn [shr_m loc_of_shr_record round_nearest_even].
  rewrite shr_normal by lia. cbn [shr_m]. by rewrite (proj2 (Z.leb_le _ _)) by lia.
Qed.

(** A mantissa with zeros behind its [prec] bits loses them. *)
Lemma round_shifted s m n e :
  Z.log2 (Zpos m) = prec - 1 -> emin prec emax <= e + Zpos n <= emax - prec ->
  binary_round_aux prec emax s (Zpos (shift_pos n m)) e loc_Exact = S754_finite s m (e + Zpos n).
Proof.
  intros Hm He. unfold binary_round_aux. rewrite shr_shifted by lia. cbn [shr_m loc_of_shr_record round_nearest_even].
  rewrite shr_normal by lia. cbn [shr_m]. by rewrite (proj2 (Z.leb_le _ _)) by lia.
Qed.

(** [x] is the integer [p]: a mantissa of [prec] bits, of which the lowest are zero. *)
Definition float_is (x : spec_float) (p : positive) : Prop :=
  exists m k, x = S754_finite false m (- k) /\ 0 <= k < prec /\ Zpos m = Zpos p * 2 ^ k /\ Z.log2 (Zpos m) = prec - 1.

Lemma log2_width p : Zpos p < 2 ^ prec -> 0 <= Z.log2 (Zpos p) < prec.
Proof. intros Hp. split; [apply Z.log2_nonneg|apply Z.log2_lt_pow2; lia]. Qed.

Lemma float_of_int p : Zpos p < 2 ^ prec -> float_is (binary_normalize prec emax (Zpos p) 0 false) p.
Proof.
  intros Hp. pose proof (log2_width p Hp) as Hl. unfold float_is, binary_normalize, binary_round. rewrite digits_log2.
  unfold fexp, emin, shl_align.
  replace (Z.max _ _ - 0) with (- (prec - 1 - Z.log2 (Zpos p))) by lia.
  replace (Z.max _ _) with (- (prec - 1 - Z.log2 (Zpos p))) by lia.
  destruct (prec - 1 - Z.log2 (Zpos p)) as [|d|d] eqn:Hd; [..|lia].
  - exists p, 0. change (- 0) with 0. cbv beta iota. rewrite round_normal by (unfold emin; lia). split_and!; try done; lia.
  - exists (shift_pos d p), (Zpos d). change (- Zpos d) with (Zneg d). cbv beta iota.
    change (PosDef.Pos.iter xO p d) with (shift_pos d p). pose proof (shift_pos_pow d p) as E.
    assert (Z.log2 (Zpos (shift_pos d p)) = prec - 1) as E' by (rewrite E, Z.log2_mul_pow2; lia).
    rewrite round_normal by (unfold emin; lia). split_and!; try done; lia.
Qed.

(** A product that fits is exact. *)
Lemma float_mul x y p q :
  float_is x p -> float_is y q -> Zpos (p * q) < 2 ^ prec -> float_is (SFmul prec emax x y) (p * q).
Proof.
  intros (m1 & k1 & -> & Hk1 & E1 & L1) (m2 & k2 & -> & Hk2 & E2 & L2) Hpq. pose proof (log2_width _ Hpq) as Hl.
  assert (Z.log2 (Zpos p) + k1 = prec - 1) as D1 by (rewrite <- L1, E1, Z.log2_mul_pow2; lia).
  assert (Z.log2 (Zpos q) + k2 = prec - 1) as D2 by (rewrite <- L2, E2, Z.log2_mul_pow2; lia).
  pose proof (Z.log2_mul_below (Zpos p) (Zpos q) ltac:(lia) ltac:(lia)) as Hb. rewrite <- Pos2Z.inj_mul in Hb.
  set (k := prec - 1 - Z.log2 (Zpos (p * q))). assert (0 <= k) as Hk by lia.
  assert (exists m, Zpos m = Zpos (p * q) * 2 ^ k) as [m Hm].
  { exists (Z.to_pos (Zpos (p * q) * 2 ^ k)). apply Z2Pos.id. pose proof (Z.pow_pos_nonneg 2 k). lia. }
  assert (Z.log2 (Zpos m) = prec - 1) as Lm by (rewrite Hm, Z.log2_mul_pow2; lia).
  exists m, k. split_and!; try done; try lia. cbn [SFmul xorb].
  destruct (k1 + k2 - k) as [|n|n] eqn:En.
  - assert (Zpos (m1 * m2) = Zpos m) as ->.
    { rewrite Hm, !Pos2Z.inj_mul, E1, E2. replace k with (k1 + k2) by lia. rewrite Z.pow_add_r by lia. ring. }
    replace (- k1 + - k2) with (- k) by lia. apply round_normal; unfold emin; lia.
  - replace (m1 * m2)%positive with (shift_pos n m); [|apply Pos2Z.inj].
    2:{ rewrite shift_pos_pow, Hm, !Pos2Z.inj_mul, E1, E2, <- En. rewrite <- Z.mul_assoc, <- Z.pow_add_r by lia.
        replace (k + (k1 + k2 - k)) with (k1 + k2) by lia. rewrite Z.pow_add_r by lia. ring. }
    replace (- k) with (- k1 + - k2 + Zpos n) by lia. apply round_shifted; unfold emin; lia.
  - lia.
Qed.
End floats.
