(* ===== verification/Intervals.v ===== *)
(** * The interval tree of daemons/maap/common/intervals.c

    A binary search tree of non-overlapping [uint32_t] intervals with parent
    pointers, updated in place.  The nodes live in a heap from addresses to node
    contents; every pointer field is an optional address ([None] is NULL).  The
    definitions follow the C code statement by statement; every [while] loop takes
    a fuel argument, which the entry points instantiate with one more than the
    number of allocated nodes. *)
From S2P Require Import Prelude.
From stdpp Require Import base gmap list numbers.
#[local] Open Scope Z_scope.

Abbreviation iptr := positive.
Abbreviation rptr := positive.

(** [struct interval_node] (intervals.h).  [data] is a [void *] that the MAAP code
    always uses for a [Range *]. *)
Record Interval := mkInterval {
  low : Z;
  high : Z;
  data : option rptr;
  parent : option iptr;
  left_child : option iptr;
  right_child : option iptr
}.

#[global] Instance Interval_eq_dec : EqDecision Interval.
Proof. solve_decision. Defined.

Abbreviation iheap := (gmap iptr Interval).

(** Assignments to single fields. *)
Definition set_data (d : option rptr) (n : Interval) : Interval :=
  mkInterval (low n) (high n) d (parent n) (left_child n) (right_child n).
Definition set_parent (p : option iptr) (n : Interval) : Interval :=
  mkInterval (low n) (high n) (data n) p (left_child n) (right_child n).
Definition set_left (p : option iptr) (n : Interval) : Interval :=
  mkInterval (low n) (high n) (data n) (parent n) p (right_child n).
Definition set_right (p : option iptr) (n : Interval) : Interval :=
  mkInterval (low n) (high n) (data n) (parent n) (left_child n) p.
Definition set_contents (lo hi : Z) (d : option rptr) (n : Interval) : Interval :=
  mkInterval lo hi d (parent n) (left_child n) (right_child n).

Definition INTERVAL_SUCCESS : Z := 0.
Definition INTERVAL_OVERLAP : Z := -1.

(** Reading the node at an address: a dangling address is a fault. *)
Definition load (h : iheap) (a : iptr) : outcome Interval := or_fault Dangling (h !! a).

(** Iteration budget of every loop below. *)
Definition loop_fuel (h : iheap) : nat := S (size h).

Definition check_overlap (a b : Interval) : bool :=
  (low a <=? high b) && (low b <=? high a).

(** The [interval_check_overlap] macro of intervals.h; [start] is a [uint32_t]. *)
Definition interval_check_overlap (inter : Interval) (start count : Z) : bool :=
  (low inter <=? u32 (start + count - 1)) && (start <=? high inter).

(** The local [Interval i] that [search_interval] builds, and what [alloc_interval]
    stores: [high] is computed modulo 2^32. *)
Definition fresh_interval (start count : Z) : Interval :=
  mkInterval start (u32 (start + count - 1)) None None None None.

(** [alloc_interval]: [p] is what [calloc] returned. *)
Definition alloc_interval (p : option iptr) (start count : Z) (h : iheap)
  : option iptr * iheap :=
  match p with
  | Some a => (Some a, <[a := fresh_interval start count]> h)
  | None => (None, h)
  end.

Definition free_interval (a : iptr) (h : iheap) : iheap := delete a h.

(** The [while (1)] loop of [insert_interval]. *)
Fixpoint insert_loop (fuel : nat) (h : iheap) (current node : iptr) : outcome (Z * iheap) :=
  match fuel with
  | O => Fault OutOfFuel
  | S fuel =>
    c ← load h current;
    n ← load h node;
    if check_overlap c n then Done (INTERVAL_OVERLAP, h)
    else if low n <? low c then
      match left_child c with
      | None =>
        Done (INTERVAL_SUCCESS,
              alter (set_parent (Some current)) node (alter (set_left (Some node)) current h))
      | Some l => insert_loop fuel h l node
      end
    else
      match right_child c with
      | None =>
        Done (INTERVAL_SUCCESS,
              alter (set_parent (Some current)) node (alter (set_right (Some node)) current h))
      | Some r => insert_loop fuel h r node
      end
  end.

(** [insert_interval]: the return code, the new root pointer and the new heap. *)
Definition insert_interval (h : iheap) (root : option iptr) (node : iptr)
  : outcome (Z * option iptr * iheap) :=
  match root with
  | None => Done (INTERVAL_SUCCESS, Some node, h)
  | Some current =>
    '(rv, h') ← insert_loop (loop_fuel h) h current node;
    Done (rv, root, h')
  end.

Fixpoint minimum_loop (fuel : nat) (h : iheap) (current : option iptr) : outcome (option iptr) :=
  match fuel with
  | O => Fault OutOfFuel
  | S fuel =>
    match current with
    | None => Done None
    | Some c =>
      n ← load h c;
      match left_child n with
      | Some l => minimum_loop fuel h (Some l)
      | None => Done current
      end
    end
  end.

Definition minimum_interval (h : iheap) (root : option iptr) : outcome (option iptr) :=
  minimum_loop (loop_fuel h) h root.

Fixpoint maximum_loop (fuel : nat) (h : iheap) (current : option iptr) : outcome (option iptr) :=
  match fuel with
  | O => Fault OutOfFuel
  | S fuel =>
    match current with
    | None => Done None
    | Some c =>
      n ← load h c;
      match right_child n with
      | Some r => maximum_loop fuel h (Some r)
      | None => Done current
      end
    end
  end.

Definition maximum_interval (h : iheap) (root : option iptr) : outcome (option iptr) :=
  maximum_loop (loop_fuel h) h root.

(** The loop that climbs while [child] is the right child of its parent. *)
Fixpoint next_up (fuel : nat) (h : iheap) (child : iptr) (par : option iptr)
  : outcome (option iptr) :=
  match fuel with
  | O => Fault OutOfFuel
  | S fuel =>
    match par with
    | None => Done None
    | Some p =>
      pn ← load h p;
      if decide (right_child pn = Some child) then next_up fuel h p (parent pn)
      else Done (Some p)
    end
  end.

Definition next_interval (h : iheap) (node : iptr) : outcome (option iptr) :=
  n ← load h node;
  match right_child n with
  | Some r => minimum_interval h (Some r)
  | None => next_up (loop_fuel h) h node (parent n)
  end.

(** The mirror image: climb while [child] is the left child of its parent. *)
Fixpoint prev_up (fuel : nat) (h : iheap) (child : iptr) (par : option iptr)
  : outcome (option iptr) :=
  match fuel with
  | O => Fault OutOfFuel
  | S fuel =>
    match par with
    | None => Done None
    | Some p =>
      pn ← load h p;
      if decide (left_child pn = Some child) then prev_up fuel h p (parent pn)
      else Done (Some p)
    end
  end.

Definition prev_interval (h : iheap) (node : iptr) : outcome (option iptr) :=
  n ← load h node;
  match left_child n with
  | Some l => maximum_interval h (Some l)
  | None => prev_up (loop_fuel h) h node (parent n)
  end.

(** The link of the snipped node's parent (or the root pointer) is redirected to
    the snipped node's child. *)
Definition relink (h : iheap) (root : option iptr) (snip : iptr) (par child : option iptr)
  : outcome (option iptr * iheap) :=
  match par with
  | None => Done (child, h)
  | Some p =>
    pn ← load h p;
    if decide (left_child pn = Some snip)
    then Done (root, alter (set_left child) p h)
    else Done (root, alter (set_right child) p h)
  end.

(** [remove_interval]: the node to free, the new root pointer and the new heap. *)
Definition remove_interval (h : iheap) (root : option iptr) (node : iptr)
  : outcome (iptr * option iptr * iheap) :=
  n ← load h node;
  snip ← match left_child n, right_child n with
         | Some _, Some _ => nx ← next_interval h node; or_fault NullDeref nx
         | _, _ => Done node
         end;
  s ← load h snip;
  let child := match left_child s with Some l => Some l | None => right_child s end in
  let h1 := match child with Some c => alter (set_parent (parent s)) c h | None => h end in
  '(root', h2) ← relink h1 root snip (parent s) child;
  if decide (snip = node) then Done (snip, root', h2)
  else
    n2 ← load h2 node;
    s2 ← load h2 snip;
    let old_data := data n2 in
    Done (snip, root',
          alter (set_data old_data) snip
            (alter (set_contents (low s2) (high s2) (data s2)) node h2)).

(** The descent of [search_interval]. *)
Fixpoint search_down (fuel : nat) (h : iheap) (i : Interval) (current : option iptr)
  : outcome (option iptr) :=
  match fuel with
  | O => Fault OutOfFuel
  | S fuel =>
    match current with
    | None => Done None
    | Some c =>
      n ← load h c;
      if check_overlap n i then Done current
      else if low n >? low i then search_down fuel h i (left_child n)
      else search_down fuel h i (right_child n)
    end
  end.

(** The [for] loop that backs up to the first overlapping interval. *)
Fixpoint search_back (fuel : nat) (h : iheap) (i : Interval) (current : iptr)
  : outcome (option iptr) :=
  match fuel with
  | O => Fault OutOfFuel
  | S fuel =>
    test ← prev_interval h current;
    match test with
    | None => Done (Some current)
    | Some t =>
      n ← load h t;
      if check_overlap n i then search_back fuel h i t else Done (Some current)
    end
  end.

Definition search_interval (h : iheap) (root : option iptr) (start count : Z)
  : outcome (option iptr) :=
  let i := fresh_interval start count in
  current ← search_down (loop_fuel h) h i root;
  match current with
  | None => Done None
  | Some c => search_back (loop_fuel h) h i c
  end.

(** [traverse_interval]: [action] transforms the state the visitor works on. *)
Fixpoint traverse_loop {S : Type} (fuel : nat) (h : iheap) (action : iptr -> S -> S)
  (root : option iptr) (s : S) : outcome S :=
  match fuel with
  | O => Fault OutOfFuel
  | S fuel =>
    match root with
    | None => Done s
    | Some a =>
      n ← load h a;
      s1 ← traverse_loop fuel h action (left_child n) s;
      traverse_loop fuel h action (right_child n) (action a s1)
    end
  end.

Definition traverse_interval {S : Type} (h : iheap) (root : option iptr)
  (action : iptr -> S -> S) (s : S) : outcome S :=
  traverse_loop (loop_fuel h) h action root s.
