(* ===== verification/IntervalTree.v ===== *)
(** * Representation and lookups of the interval tree

    [rep h par t] says that the nodes of the abstract shape [t] are linked in the
    heap [h] exactly as [t] is drawn, parent pointers included; [iset h root t] adds
    that the root pointer is the root of [t] and that the intervals, in traversal
    order, are non-empty, disjoint and increasing.  The theorems state what each
    read-only operation of [Intervals] returns in terms of the traversal order. *)
From S2P Require Import Prelude Intervals.
From stdpp Require Import base gmap list numbers sorting.
#[local] Open Scope Z_scope.

(** ** Shapes *)
Inductive tree :=
  | Leaf
  | Node (l : tree) (a : iptr) (r : tree).

Fixpoint inorder (t : tree) : list iptr :=
  match t with Leaf => [] | Node l a r => inorder l ++ a :: inorder r end.

Fixpoint height (t : tree) : nat :=
  match t with Leaf => O | Node l _ r => S (Nat.max (height l) (height r)) end.

Definition root_of (t : tree) : option iptr :=
  match t with Leaf => None | Node _ a _ => Some a end.

Definition links (n : Interval) : option iptr * option iptr * option iptr :=
  (parent n, left_child n, right_child n).

Fixpoint rep (h : iheap) (par : option iptr) (t : tree) : Prop :=
  match t with
  | Leaf => True
  | Node l a r =>
    links <$> h !! a = Some (par, root_of l, root_of r) /\
    rep h (Some a) l /\ rep h (Some a) r
  end.

(** The node stored at an address (a dummy for a dangling one). *)
Definition node (h : iheap) (a : iptr) : Interval :=
  default (mkInterval 0 0 None None None None) (h !! a).

Definition before (h : iheap) (a b : iptr) : Prop := high (node h a) < low (node h b).
Definition nonempty (h : iheap) (a : iptr) : Prop := low (node h a) <= high (node h a).

(** The intervals at the addresses [l] are non-empty, disjoint and increasing. *)
Definition ordered (h : iheap) (l : list iptr) : Prop :=
  StronglySorted (before h) l /\ Forall (nonempty h) l.

Record iset (h : iheap) (root : option iptr) (t : tree) : Prop := mkIset {
  iset_root : root = root_of t;
  iset_rep : rep h None t;
  iset_ordered : ordered h (inorder t)
}.

(** What a node stores besides its links. *)
Definition contents (n : Interval) : Z * Z * option rptr := (low n, high n, data n).

(** The stored intervals, in traversal order. *)
Definition keys (h : iheap) (l : list iptr) : list (Z * Z * option rptr) :=
  (fun a => contents (node h a)) <$> l.

(** ** Basic facts *)
Lemma rep_lookup h par t a :
  rep h par t -> a ∈ inorder t -> exists n, h !! a = Some n.
Proof.
  revert par. induction t as [|l IHl b r IHr]; intros par; simpl; [set_solver|].
  intros (Hb & Hl & Hr). rewrite elem_of_app, elem_of_cons.
  intros [H|[->|H]]; [eauto| |eauto].
  destruct (h !! b); [eauto|done].
Qed.

Lemma rep_frame h h' par t :
  rep h par t ->
  (forall a, a ∈ inorder t -> links <$> h' !! a = links <$> h !! a) ->
  rep h' par t.
Proof.
  revert par. induction t as [|l IHl a r IHr]; intros par; simpl; [done|].
  intros (Ha & Hl & Hr) Heq. repeat split.
  - rewrite Heq; [done|]. set_solver.
  - apply IHl; [done|]. set_solver.
  - apply IHr; [done|]. set_solver.
Qed.

Lemma node_lookup h a n : h !! a = Some n -> node h a = n.
Proof. unfold node. by intros ->. Qed.

Lemma load_node h a : is_Some (h !! a) -> load h a = Done (node h a).
Proof. intros [n Hn]. unfold load, node. by rewrite Hn. Qed.

Lemma rep_load h par t a :
  rep h par t -> a ∈ inorder t -> load h a = Done (node h a).
Proof. intros H Ha. apply load_node. by eapply rep_lookup. Qed.

(** The loads and the three links at the root of a represented tree. *)
Lemma rep_root h par l a r :
  rep h par (Node l a r) ->
  load h a = Done (node h a) /\
  parent (node h a) = par /\ left_child (node h a) = root_of l /\
  right_child (node h a) = root_of r.
Proof.
  intros (Ha & _ & _). unfold load, node. destruct (h !! a) as [n|]; [|done].
  simpl in *. unfold links in Ha. naive_solver.
Qed.

Lemma height_le_size t : (height t <= length (inorder t))%nat.
Proof. induction t; simpl; [lia|]. rewrite length_app. simpl. lia. Qed.

Lemma rep_size h par t :
  rep h par t -> NoDup (inorder t) -> (length (inorder t) <= size h)%nat.
Proof.
  intros Hrep Hnd.
  rewrite <- (size_dom h), <- (size_list_to_set (C := gset iptr)) by done.
  apply subseteq_size. intros a Ha. apply elem_of_list_to_set in Ha.
  apply elem_of_dom. by eapply rep_lookup.
Qed.

Lemma height_fuel h par t :
  rep h par t -> NoDup (inorder t) -> (height t < loop_fuel h)%nat.
Proof.
  intros Hrep Hnd. unfold loop_fuel. pose proof (height_le_size t).
  pose proof (rep_size h par t Hrep Hnd). lia.
Qed.

Lemma ordered_NoDup h l : ordered h l -> NoDup l.
Proof.
  intros [Hs Hne]. induction Hs as [|a l Hs IH Ha]; constructor.
  - intros Hin. rewrite Forall_forall in Ha. apply Ha in Hin.
    rewrite Forall_cons in Hne. unfold before, nonempty in *. lia.
  - apply IH. by apply Forall_cons in Hne as [_ Hne].
Qed.

Lemma ordered_app h l1 l2 :
  ordered h (l1 ++ l2) <->
  ordered h l1 /\ ordered h l2 /\ (forall a b, a ∈ l1 -> b ∈ l2 -> before h a b).
Proof. unfold ordered. rewrite StronglySorted_app_iff, Forall_app. naive_solver. Qed.

Lemma ordered_cons h a l :
  ordered h (a :: l) <->
  nonempty h a /\ ordered h l /\ (forall b, b ∈ l -> before h a b).
Proof.
  rewrite (ordered_app h [a] l). split.
  - intros ([_ H1] & H2 & H3). rewrite Forall_singleton in H1. set_solver.
  - intros (H1 & H2 & H3). repeat split; try done.
    + by repeat constructor.
    + by repeat constructor.
    + apply H2.
    + apply H2.
    + set_solver.
Qed.

Lemma before_trans h a b c : before h a b -> nonempty h b -> before h b c -> before h a c.
Proof. unfold before, nonempty. lia. Qed.

(** Ordering and stored data depend only on the contents of the nodes. *)
Definition same_contents (h h' : iheap) (l : list iptr) : Prop :=
  forall a, a ∈ l -> contents (node h' a) = contents (node h a).

Lemma ordered_same h h' l : same_contents h h' l -> ordered h l -> ordered h' l.
Proof.
  intros Hsame. induction l as [|a l IH]; [by repeat constructor|].
  rewrite !ordered_cons. intros (Hne & Ho & Hb).
  assert (forall b, b ∈ a :: l -> low (node h' b) = low (node h b) /\ high (node h' b) = high (node h b)) as Heq.
  { intros b Hin. specialize (Hsame b Hin). unfold contents in Hsame. naive_solver. }
  destruct (Heq a ltac:(by left)) as [Hl Hh].
  repeat split.
  - unfold nonempty. by rewrite Hl, Hh.
  - apply IH; [|done]. intros b Hin. apply Hsame. by right.
  - apply IH; [|done]. intros b Hin. apply Hsame. by right.
  - intros b Hin. destruct (Heq b ltac:(by right)) as [Hl' _].
    unfold before. rewrite Hh, Hl'. by apply Hb.
Qed.

Lemma keys_same h h' l : same_contents h h' l -> keys h' l = keys h l.
Proof. intros H. apply list_fmap_ext. intros i x Hx. apply H. by eapply list_elem_of_lookup_2. Qed.

(** ** minimum, maximum, next, prev *)
Lemma minimum_loop_spec h par t fuel :
  rep h par t -> (height t < fuel)%nat ->
  minimum_loop fuel h (root_of t) = Done (head (inorder t)).
Proof.
  revert par fuel. induction t as [|l IHl a r _]; intros par fuel Hrep Hf.
  - by destruct fuel; [lia|].
  - destruct fuel as [|fuel]; [lia|]. simpl in *.
    destruct (rep_root _ _ _ _ _ Hrep) as (-> & _ & Hl & _). simpl. rewrite Hl.
    destruct l as [|ll b lr] eqn:E; [done|].
    cbn [root_of]. specialize (IHl (Some a) fuel). rewrite <- E in *.
    replace (Some b) with (root_of l) by (by subst l).
    rewrite IHl; [|apply Hrep|lia]. f_equal.
    destruct (inorder l) eqn:E2; [|done].
    subst l. simpl in E2. by destruct (inorder ll).
Qed.

Lemma maximum_loop_spec h par t fuel :
  rep h par t -> (height t < fuel)%nat ->
  maximum_loop fuel h (root_of t) = Done (last (inorder t)).
Proof.
  revert par fuel. induction t as [|l _ a r IHr]; intros par fuel Hrep Hf.
  - by destruct fuel; [lia|].
  - destruct fuel as [|fuel]; [lia|]. simpl in *.
    destruct (rep_root _ _ _ _ _ Hrep) as (-> & _ & _ & Hr). simpl. rewrite Hr.
    destruct r as [|rl b rr] eqn:E.
    { simpl. by rewrite last_snoc. }
    cbn [root_of]. specialize (IHr (Some a) fuel). rewrite <- E in *.
    replace (Some b) with (root_of r) by (by subst r).
    rewrite IHr; [|apply Hrep|lia]. f_equal.
    rewrite last_app_cons. destruct (inorder r) eqn:E2; [|done].
    subst r. simpl in E2. by destruct (inorder rl).
Qed.

(** [next_interval] with the fuel of its climbing loop made explicit. *)
Definition next_walk (fuel : nat) (h : iheap) (a : iptr) : outcome (option iptr) :=
  match right_child (node h a) with
  | Some r => minimum_interval h (Some r)
  | None => next_up fuel h a (parent (node h a))
  end.
Definition prev_walk (fuel : nat) (h : iheap) (a : iptr) : outcome (option iptr) :=
  match left_child (node h a) with
  | Some l => maximum_interval h (Some l)
  | None => prev_up fuel h a (parent (node h a))
  end.

(** One step of the climb out of a subtree. *)
Lemma next_up_left h par l a r fuel b :
  rep h par (Node l a r) -> NoDup (inorder (Node l a r)) -> root_of l = Some b ->
  (0 < fuel)%nat -> next_up fuel h b (Some a) = Done (Some a).
Proof.
  intros Hrep Hnd Hb Hf. destruct fuel as [|fuel]; [lia|]. cbn [next_up].
  destruct (rep_root _ _ _ _ _ Hrep) as (-> & _ & _ & Hr). simpl. rewrite Hr.
  case_decide as Heq; [|done]. exfalso.
  destruct l as [|ll b' lr]; [done|]. destruct r as [|rl c rr]; [done|]. simplify_eq/=.
  rewrite NoDup_app in Hnd. destruct Hnd as (_ & Hnd & _). apply (Hnd b); set_solver.
Qed.

Lemma next_up_right h par l a r fuel b :
  rep h par (Node l a r) -> root_of r = Some b ->
  next_up (S fuel) h b (Some a) = next_up fuel h a par.
Proof.
  intros Hrep Hb. cbn [next_up].
  destruct (rep_root _ _ _ _ _ Hrep) as (-> & Hp & _ & Hr). simpl. rewrite Hr, Hp.
  by rewrite decide_True by done.
Qed.

Lemma prev_up_right h par l a r fuel b :
  rep h par (Node l a r) -> NoDup (inorder (Node l a r)) -> root_of r = Some b ->
  (0 < fuel)%nat -> prev_up fuel h b (Some a) = Done (Some a).
Proof.
  intros Hrep Hnd Hb Hf. destruct fuel as [|fuel]; [lia|]. cbn [prev_up].
  destruct (rep_root _ _ _ _ _ Hrep) as (-> & _ & Hl & _). simpl. rewrite Hl.
  case_decide as Heq; [|done]. exfalso.
  destruct l as [|ll b' lr]; [done|]. destruct r as [|rl c rr]; [done|]. simplify_eq/=.
  rewrite NoDup_app in Hnd. destruct Hnd as (_ & Hnd & _). apply (Hnd b); set_solver.
Qed.

Lemma prev_up_left h par l a r fuel b :
  rep h par (Node l a r) -> root_of l = Some b ->
  prev_up (S fuel) h b (Some a) = prev_up fuel h a par.
Proof.
  intros Hrep Hb. cbn [prev_up].
  destruct (rep_root _ _ _ _ _ Hrep) as (-> & Hp & Hl & _). simpl. rewrite Hl, Hp.
  by rewrite decide_True by done.
Qed.

Lemma NoDup_node l a r :
  NoDup (inorder (Node l a r)) -> NoDup (inorder l) /\ NoDup (inorder r).
Proof.
  simpl. rewrite NoDup_app, NoDup_cons. naive_solver.
Qed.

Lemma inorder_nonempty t a : a ∈ inorder t -> exists b, root_of t = Some b.
Proof. destruct t; [set_solver|]. simpl. eauto. Qed.

(** Starting at [a], the walk reaches the next address of the traversal, or leaves
    the subtree through its root when [a] is the last one. *)
Lemma next_walk_spec h t : forall par xs a ys fuel,
  rep h par t -> NoDup (inorder t) -> inorder t = xs ++ a :: ys ->
  (height t < fuel)%nat ->
  exists fuel', (fuel - height t <= fuel')%nat /\
    next_walk fuel h a =
      match ys with
      | b :: _ => Done (Some b)
      | [] => match root_of t with Some b => next_up fuel' h b par | None => Done None end
      end.
Proof.
  induction t as [|l IHl c r IHr]; intros par xs a ys fuel Hrep Hnd Heq Hf.
  { by destruct xs. }
  pose proof (NoDup_node _ _ _ Hnd) as [Hndl Hndr].
  destruct Hrep as (Hc & Hl & Hr) eqn:HE. clear HE.
  simpl in Heq. apply app_split_at in Heq as [(zs & Hin & ->)|(zs & -> & Hin)].
  - (* in the left subtree *)
    simpl in Hf.
    destruct (IHl (Some c) xs a zs fuel Hl Hndl Hin ltac:(lia)) as (f' & Hf' & ->).
    destruct zs as [|z zs]; [|exists fuel; split; [lia|done]].
    destruct (inorder_nonempty l a) as [b Hb]; [rewrite Hin; set_solver|]. rewrite Hb.
    exists fuel. split; [lia|]. simpl. eapply next_up_left; [done|done|done|lia].
  - destruct zs as [|z zs]; simplify_eq/=.
    + (* at the root *)
      destruct (rep_root _ _ _ _ _ Hrep) as (_ & Hp & _ & Hrc).
      unfold next_walk. rewrite Hrc, Hp.
      destruct r as [|rl b rr] eqn:Er; simpl.
      * exists fuel. split; [lia|done].
      * rewrite <- Er in *. replace (Some b) with (root_of r) by (by subst r).
        exists fuel. split; [lia|]. unfold minimum_interval.
        rewrite (minimum_loop_spec h (Some a)); [|apply Hrep|eapply height_fuel; [apply Hrep|done]].
        replace (inorder rl ++ b :: inorder rr) with (inorder r) by (by subst r).
        destruct (inorder r) eqn:E2; [|done]. subst r. simpl in E2. by destruct (inorder rl).
    + (* in the right subtree *)
      destruct (IHr (Some z) zs a ys fuel Hr Hndr ltac:(done) ltac:(lia)) as (f' & Hf' & ->).
      destruct ys as [|y ys]; [|exists fuel; split; [lia|done]].
      destruct (inorder_nonempty r a) as [b Hb].
      { match goal with E : inorder r = _ |- _ => rewrite E end. set_solver. }
      rewrite Hb. destruct f' as [|f']; [lia|]. exists f'. split; [lia|].
      eapply next_up_right; done.
Qed.

Lemma prev_walk_spec h t : forall par xs a ys fuel,
  rep h par t -> NoDup (inorder t) -> inorder t = xs ++ a :: ys ->
  (height t < fuel)%nat ->
  exists fuel', (fuel - height t <= fuel')%nat /\
    prev_walk fuel h a =
      match last xs with
      | Some b => Done (Some b)
      | None => match root_of t with Some b => prev_up fuel' h b par | None => Done None end
      end.
Proof.
  induction t as [|l IHl c r IHr]; intros par xs a ys fuel Hrep Hnd Heq Hf.
  { by destruct xs. }
  pose proof (NoDup_node _ _ _ Hnd) as [Hndl Hndr].
  destruct Hrep as (Hc & Hl & Hr) eqn:HE. clear HE.
  simpl in Heq. apply app_split_at in Heq as [(zs & Hin & ->)|(zs & -> & Hin)].
  - (* in the left subtree *)
    simpl in Hf.
    destruct (IHl (Some c) xs a zs fuel Hl Hndl Hin ltac:(lia)) as (f' & Hf' & ->).
    destruct (last xs) as [x|]; [exists fuel; split; [simpl; lia|done]|].
    destruct (inorder_nonempty l a) as [b Hb]; [rewrite Hin; set_solver|]. rewrite Hb.
    destruct f' as [|f']; [lia|]. exists f'. split; [simpl; lia|]. eapply prev_up_left; done.
  - destruct zs as [|z zs]; simplify_eq/=.
    + (* at the root *)
      destruct (rep_root _ _ _ _ _ Hrep) as (_ & Hp & Hlc & _).
      unfold prev_walk. rewrite Hlc, Hp, app_nil_r.
      destruct l as [|ll b lr] eqn:El; simpl.
      * exists fuel. split; [lia|done].
      * rewrite <- El in *. replace (Some b) with (root_of l) by (by subst l).
        exists fuel. split; [lia|]. unfold maximum_interval.
        rewrite (maximum_loop_spec h (Some a)); [|apply Hrep|eapply height_fuel; [apply Hrep|done]].
        replace (inorder ll ++ b :: inorder lr) with (inorder l) by (by subst l).
        destruct (last (inorder l)) eqn:E2; [done|]. apply last_None in E2.
        subst l. simpl in E2. by destruct (inorder ll).
    + (* in the right subtree *)
      destruct (IHr (Some z) zs a ys fuel Hr Hndr ltac:(done) ltac:(lia)) as (f' & Hf' & ->).
      exists fuel. split; [lia|]. rewrite last_app_cons, last_cons.
      destruct (last zs) as [x|]; [done|].
      destruct (inorder_nonempty r a) as [b Hb].
      { match goal with E : inorder r = _ |- _ => rewrite E end. set_solver. }
      rewrite Hb. eapply prev_up_right; [done|done|done|lia].
Qed.

Lemma next_interval_inorder h t xs a ys :
  rep h None t -> NoDup (inorder t) -> inorder t = xs ++ a :: ys ->
  next_interval h a = Done (head ys).
Proof.
  intros Hrep Hnd Heq. unfold next_interval.
  rewrite (rep_load h None t a) by (done || (rewrite Heq; set_solver)).
  pose proof (height_fuel _ _ _ Hrep Hnd) as Hf.
  destruct (next_walk_spec h t None xs a ys (loop_fuel h) Hrep Hnd Heq Hf) as (f' & Hf' & Hw).
  unfold next_walk in Hw. obind. rewrite Hw.
  destruct ys as [|y ys]; [|done]. destruct (root_of t); [|done].
  destruct f'; [lia|done].
Qed.

Lemma prev_interval_inorder h t xs a ys :
  rep h None t -> NoDup (inorder t) -> inorder t = xs ++ a :: ys ->
  prev_interval h a = Done (last xs).
Proof.
  intros Hrep Hnd Heq. unfold prev_interval.
  rewrite (rep_load h None t a) by (done || (rewrite Heq; set_solver)).
  pose proof (height_fuel _ _ _ Hrep Hnd) as Hf.
  destruct (prev_walk_spec h t None xs a ys (loop_fuel h) Hrep Hnd Heq Hf) as (f' & Hf' & Hw).
  unfold prev_walk in Hw. obind. rewrite Hw.
  destruct (last xs) as [y|]; [done|]. destruct (root_of t); [|done].
  destruct f'; [lia|done].
Qed.

(** ** search *)
Definition overlaps (h : iheap) (i : Interval) (a : iptr) : bool := check_overlap (node h a) i.

Lemma overlaps_true h i a :
  overlaps h i a = true <-> low (node h a) <= high i /\ low i <= high (node h a).
Proof. unfold overlaps, check_overlap. rewrite andb_true_iff, !Z.leb_le. done. Qed.
Lemma overlaps_false h i a :
  overlaps h i a = false <-> high i < low (node h a) \/ high (node h a) < low i.
Proof. unfold overlaps, check_overlap. rewrite andb_false_iff, !Z.leb_gt. lia. Qed.

Lemma ordered_node h l a r :
  ordered h (inorder (Node l a r)) ->
  ordered h (inorder l) /\ ordered h (inorder r) /\ nonempty h a /\
  (forall b, b ∈ inorder l -> before h b a /\ nonempty h b) /\
  (forall b, b ∈ inorder r -> before h a b /\ nonempty h b).
Proof.
  simpl. rewrite ordered_app, ordered_cons. intros (Hl & (Ha & Hr & Har) & Hlr).
  repeat split; try done; try apply Hl; try apply Hr.
  - apply Hlr; [done|by left].
  - destruct Hl as [_ Hl]. rewrite Forall_forall in Hl. by apply Hl.
  - by apply Har.
  - destruct Hr as [_ Hr]. rewrite Forall_forall in Hr. by apply Hr.
Qed.

Lemma search_down_spec h i t : forall par fuel,
  rep h par t -> ordered h (inorder t) -> (height t < fuel)%nat ->
  exists o, search_down fuel h i (root_of t) = Done o /\
    match o with
    | Some a => a ∈ inorder t /\ overlaps h i a = true
    | None => forall a, a ∈ inorder t -> overlaps h i a = false
    end.
Proof.
  induction t as [|l IHl a r IHr]; intros par fuel Hrep Hord Hf.
  { destruct fuel; [lia|]. exists None. split; [done|]. simpl. set_solver. }
  destruct fuel as [|fuel]; [lia|]. simpl in Hf.
  destruct (rep_root _ _ _ _ _ Hrep) as (Hload & _ & Hl & Hr).
  destruct (ordered_node _ _ _ _ Hord) as (Hol & Hor & Hne & Hbl & Hbr).
  cbn [search_down root_of]. rewrite Hload. obind. rewrite Hl, Hr.
  fold (overlaps h i a). destruct (overlaps h i a) eqn:Hov.
  { exists (Some a). split; [done|]. split; [simpl; set_solver|done]. }
  pose proof Hov as Hov'. apply overlaps_false in Hov'.
  rewrite Z.gtb_ltb. destruct (Z.ltb_spec (low i) (low (node h a))) as [Hlt|Hge].
  - destruct (IHl (Some a) fuel) as (o & -> & Ho); [apply Hrep|done|lia|].
    exists o. split; [done|]. destruct o as [b|]; [simpl; set_solver|].
    intros b Hb. simpl in Hb. rewrite elem_of_app, elem_of_cons in Hb.
    destruct Hb as [Hb|[->|Hb]]; [by apply Ho|done|].
    apply Hbr in Hb as [Hb Hb']. apply overlaps_false. unfold before, nonempty in *. lia.
  - destruct (IHr (Some a) fuel) as (o & -> & Ho); [apply Hrep|done|lia|].
    exists o. split; [done|]. destruct o as [b|]; [simpl; set_solver|].
    intros b Hb. simpl in Hb. rewrite elem_of_app, elem_of_cons in Hb.
    destruct Hb as [Hb|[->|Hb]]; [|done|by apply Ho].
    apply Hbl in Hb as [Hb Hb']. apply overlaps_false. unfold before, nonempty in *. lia.
Qed.

(** Overlapping intervals are contiguous in traversal order. *)
Lemma overlaps_contiguous h i xs b c ys :
  ordered h (xs ++ b :: c :: ys) -> overlaps h i c = true -> overlaps h i b = false ->
  forall a, a ∈ xs -> overlaps h i a = false.
Proof.
  rewrite ordered_app, ordered_cons. intros (Hxs & (Hb & Hc & Hbc) & Hx) Hoc Hob a Ha.
  apply overlaps_true in Hoc. apply overlaps_false in Hob. apply overlaps_false.
  specialize (Hbc c ltac:(by left)). specialize (Hx a b Ha ltac:(by left)).
  unfold before, nonempty in *. lia.
Qed.

Lemma search_back_spec h i t : forall xs c ys fuel,
  rep h None t -> ordered h (inorder t) -> inorder t = xs ++ c :: ys ->
  overlaps h i c = true -> (length xs < fuel)%nat ->
  search_back fuel h i c = Done (find_first (overlaps h i) (inorder t)).
Proof.
  intros xs. induction xs as [|b xs IH] using rev_ind;
    intros c ys fuel Hrep Hord Heq Hov Hf; (destruct fuel as [|fuel]; [simpl in *; lia|]);
    cbn [search_back]; pose proof (ordered_NoDup _ _ Hord) as Hnd;
    rewrite (prev_interval_inorder h t _ c ys Hrep Hnd Heq); obind.
  - simpl. by rewrite Heq, find_first_app, find_first_cons, Hov.
  - rewrite last_snoc. rewrite (rep_load h None t b) by (done || (rewrite Heq; set_solver)).
    obind. fold (overlaps h i b). destruct (overlaps h i b) eqn:Hb.
    + eapply IH; [done|done|by rewrite Heq, <- app_assoc|done|].
      rewrite length_app in Hf. simpl in Hf. lia.
    + rewrite Heq in Hord |- *. rewrite <- app_assoc in Hord |- *. simpl in *.
      rewrite find_first_app, !find_first_cons, Hb, Hov.
      destruct (find_first (overlaps h i) xs) as [x|] eqn:Hx; [|done].
      apply find_first_Some in Hx as [Hx Hx'].
      by rewrite (overlaps_contiguous h i xs b c ys Hord Hov Hb x Hx) in Hx'.
Qed.

Lemma search_interval_spec h root t start count :
  iset h root t ->
  search_interval h root start count =
    Done (find_first (overlaps h (fresh_interval start count)) (inorder t)).
Proof.
  intros [-> Hrep Hord]. unfold search_interval.
  pose proof (ordered_NoDup _ _ Hord) as Hnd.
  destruct (search_down_spec h (fresh_interval start count) t None (loop_fuel h))
    as (o & -> & Ho); [done|done|by eapply height_fuel|].
  obind. destruct o as [c|].
  - destruct Ho as [Hin Hov]. apply list_elem_of_split in Hin as (xs & ys & Heq).
    eapply search_back_spec; [done|done|done|done|].
    pose proof (rep_size _ _ _ Hrep Hnd) as Hs. rewrite Heq, length_app in Hs.
    unfold loop_fuel. lia.
  - f_equal. symmetry. by apply find_first_None.
Qed.

Lemma traverse_loop_spec {S} h (action : iptr -> S -> S) t : forall par fuel s,
  rep h par t -> (height t < fuel)%nat ->
  traverse_loop fuel h action (root_of t) s = Done (foldl (fun s a => action a s) s (inorder t)).
Proof.
  induction t as [|l IHl a r IHr]; intros par fuel s Hrep Hf.
  { by destruct fuel; [lia|]. }
  destruct fuel as [|fuel]; [lia|]. simpl in Hf.
  destruct (rep_root _ _ _ _ _ Hrep) as (Hload & _ & Hl & Hr).
  cbn [traverse_loop root_of]. rewrite Hload. obind. rewrite Hl, Hr.
  rewrite (IHl (Some a)); [|apply Hrep|lia]. obind.
  rewrite (IHr (Some a)); [|apply Hrep|lia]. simpl. by rewrite foldl_app.
Qed.

(** ** Statements about whole interval sets *)

Lemma minimum_interval_spec h root t :
  iset h root t -> minimum_interval h root = Done (head (inorder t)).
Proof.
  intros [-> Hrep Hord]. eapply minimum_loop_spec; [done|].
  eapply height_fuel; [done|by eapply ordered_NoDup].
Qed.

Lemma next_interval_spec h root t xs a ys :
  iset h root t -> inorder t = xs ++ a :: ys -> next_interval h a = Done (head ys).
Proof.
  intros [_ Hrep Hord]. apply next_interval_inorder; [done|by eapply ordered_NoDup].
Qed.

(** [search_interval] returns the first (lowest) stored interval that overlaps
    the [count] addresses from [start] (with the end computed modulo 2^32, as the C
    code does), and NULL exactly when there is none.  It never faults. *)
Theorem search_interval_first h root t start count :
  iset h root t ->
  exists o, search_interval h root start count = Done o /\
    match o with
    | None => forall a, a ∈ inorder t -> overlaps h (fresh_interval start count) a = false
    | Some a =>
      exists xs ys, inorder t = xs ++ a :: ys /\
        overlaps h (fresh_interval start count) a = true /\
        forall b, b ∈ xs -> overlaps h (fresh_interval start count) b = false
    end.
Proof.
  intros Hset. rewrite (search_interval_spec h root t) by done. eexists. split; [done|].
  induction (inorder t) as [|b l IH]; [set_solver|]. rewrite find_first_cons.
  destruct (overlaps h (fresh_interval start count) b) eqn:Hb.
  - exists [], l. split; [done|]. split; [done|]. set_solver.
  - destruct (find_first _ l) as [a|]; [|set_solver].
    destruct IH as (xs & ys & -> & Ha & Hxs). exists (b :: xs), ys.
    split; [done|]. split; [done|]. intros c Hc. rewrite elem_of_cons in Hc. naive_solver.
Qed.

(** [minimum_interval], [next_interval], [prev_interval], [maximum_interval] and
    [traverse_interval] all walk the one traversal order: the minimum is its first
    node, the maximum its last, next and prev are inverse steps along it, and the
    traversal visits exactly its nodes in turn. *)
Theorem interval_walk h root t :
  iset h root t ->
  minimum_interval h root = Done (inorder t !! 0%nat) /\
  maximum_interval h root = Done (last (inorder t)) /\
  (forall i a, inorder t !! i = Some a -> next_interval h a = Done (inorder t !! S i)) /\
  (forall i a, inorder t !! S i = Some a -> prev_interval h a = Done (inorder t !! i)) /\
  (forall a, inorder t !! 0%nat = Some a -> prev_interval h a = Done None) /\
  traverse_interval h root (fun a seen => seen ++ [a]) [] = Done (inorder t).
Proof.
  intros [-> Hrep Hord]. pose proof (ordered_NoDup _ _ Hord) as Hnd.
  pose proof (height_fuel _ _ _ Hrep Hnd) as Hf. split; [|split; [|split; [|split; [|split]]]].
  - unfold minimum_interval. by erewrite minimum_loop_spec, head_lookup.
  - by eapply maximum_loop_spec.
  - intros i a Hi. apply list_elem_of_split_length in Hi as (xs & ys & Heq & ->).
    rewrite (next_interval_inorder h t xs a ys), Heq by done.
    replace (S (length xs)) with (length xs + 1)%nat by lia.
    rewrite lookup_app_r by lia. replace (length xs + 1 - length xs)%nat with 1%nat by lia.
    by destruct ys.
  - intros i a Hi. apply list_elem_of_split_length in Hi as (xs & ys & Heq & Hlen).
    rewrite (prev_interval_inorder h t xs a ys), Heq by done.
    rewrite last_lookup, <- Hlen, lookup_app_l by lia. done.
  - intros a Ha. apply list_elem_of_split_length in Ha as (xs & ys & Heq & Hlen).
    destruct xs; [|done]. by rewrite (prev_interval_inorder h t [] a ys).
  - unfold traverse_interval. erewrite traverse_loop_spec by done. f_equal. clear.
    assert (forall (l acc : list iptr), foldl (fun s a => s ++ [a]) acc l = acc ++ l) as H;
      [|apply H].
    induction l as [|a l IH]; intros acc; simpl; [by rewrite app_nil_r|].
    by rewrite IH, <- app_assoc.
Qed.

(** ** A concrete tree *)
Module Example.
  (** Four intervals: 10-19 at the root, 0-4 to its left, 30-39 to its right with
      20-24 below it; node 5 (25-29) is allocated but not linked. *)
Definition heap : iheap := list_to_map
    [ (1%positive, mkInterval 0 4 (Some 11%positive) (Some 2%positive) None None);
      (2%positive, mkInterval 10 19 (Some 12%positive) None (Some 1%positive) (Some 3%positive));
      (3%positive, mkInterval 30 39 (Some 13%positive) (Some 2%positive) (Some 4%positive) None);
      (4%positive, mkInterval 20 24 (Some 14%positive) (Some 3%positive) None None);
      (5%positive, mkInterval 25 29 None None None None) ].
Definition shape : tree :=
    Node (Node Leaf 1%positive Leaf) 2%positive (Node (Node Leaf 4%positive Leaf) 3%positive Leaf).
Definition root : option iptr := Some 2%positive.
End Example.

Lemma example_iset : iset Example.heap Example.root Example.shape.
Proof.
  split; [done|by repeat split|]. split; repeat constructor; vm_compute; congruence.
Defined.

Lemma search_interval_first_witness :
  search_interval Example.heap Example.root 18 10 = Done (Some 2%positive) /\
  exists o, search_interval Example.heap Example.root 18 10 = Done o /\
    match o with
    | None => forall a, a ∈ inorder Example.shape ->
        overlaps Example.heap (fresh_interval 18 10) a = false
    | Some a =>
      exists xs ys, inorder Example.shape = xs ++ a :: ys /\
        overlaps Example.heap (fresh_interval 18 10) a = true /\
        forall b, b ∈ xs -> overlaps Example.heap (fresh_interval 18 10) b = false
    end.
Proof.
  split; [vm_compute; reflexivity|].
  exact (search_interval_first _ _ _ 18 10 example_iset).
Defined.

Lemma interval_walk_witness :
  maximum_interval Example.heap Example.root = Done (Some 3%positive) /\
  traverse_interval Example.heap Example.root (fun a seen => seen ++ [a]) [] =
    Done [1; 2; 4; 3]%positive.
Proof.
  destruct (interval_walk _ _ _ example_iset) as (_ & Hmax & _ & _ & _ & Htr).
  split; [exact Hmax | exact Htr].
Defined.
