(* ===== verification/IntervalUpdate.v ===== *)
(** * Insertion into and removal from the interval tree

    [insert_interval] and [remove_interval] of [Intervals] refine insertion into and
    deletion from the ordered list of stored intervals, keep every link of the tree
    (parent pointers included) consistent and touch nothing outside the tree. *)
From S2P Require Import Prelude Intervals IntervalTree.
From stdpp Require Import base gmap list numbers sorting.
#[local] Open Scope Z_scope.

(** ** Link updates *)
Lemma links_set_data d n : links (set_data d n) = links n.
Proof. done. Qed.
Lemma links_set_contents lo hi d n : links (set_contents lo hi d n) = links n.
Proof. done. Qed.
Lemma contents_set_parent p n : contents (set_parent p n) = contents n.
Proof. done. Qed.
Lemma contents_set_left p n : contents (set_left p n) = contents n.
Proof. done. Qed.
Lemma contents_set_right p n : contents (set_right p n) = contents n.
Proof. done. Qed.

(** The stored intervals of a heap, without the links. *)
Definition same_store (h h' : iheap) : Prop :=
  forall a, contents <$> h' !! a = contents <$> h !! a.

Lemma same_store_refl h : same_store h h.
Proof. done. Qed.
Lemma same_store_trans h1 h2 h3 : same_store h1 h2 -> same_store h2 h3 -> same_store h1 h3.
Proof. intros H1 H2 a. by rewrite H2, H1. Qed.

Lemma same_store_alter f a h :
  (forall n, contents (f n) = contents n) -> same_store h (alter f a h).
Proof.
  intros Hf b. rewrite lookup_alter. case_decide; [subst|done].
  destruct (h !! b); [|done]. simpl. by rewrite Hf.
Qed.

Lemma same_store_node h h' a : same_store h h' -> contents (node h' a) = contents (node h a).
Proof.
  intros H. specialize (H a). unfold node.
  destruct (h !! a), (h' !! a); simpl in *; congruence.
Qed.

Lemma same_store_contents h h' l : same_store h h' -> same_contents h h' l.
Proof. intros H a _. by apply same_store_node. Qed.

Create HintDb store.
#[export] Hint Resolve same_store_refl same_store_trans same_store_alter same_store_contents : store.

Lemma same_store_low h h' a : same_store h h' -> low (node h' a) = low (node h a).
Proof. intros H. apply (same_store_node _ _ a) in H. unfold contents in H. naive_solver. Qed.
Lemma same_store_high h h' a : same_store h h' -> high (node h' a) = high (node h a).
Proof. intros H. apply (same_store_node _ _ a) in H. unfold contents in H. naive_solver. Qed.

(** ** Insertion *)

(** Where the loop hangs the new node. *)
Fixpoint tins (h : iheap) (x : iptr) (t : tree) : tree :=
  match t with
  | Leaf => Node Leaf x Leaf
  | Node l a r =>
    if low (node h x) <? low (node h a) then Node (tins h x l) a r else Node l a (tins h x r)
  end.

Lemma tins_inorder h x t :
  ordered h (inorder t) -> nonempty h x ->
  (forall b, b ∈ inorder t -> overlaps h (node h x) b = false) ->
  exists l1 l2, inorder t = l1 ++ l2 /\ inorder (tins h x t) = l1 ++ x :: l2 /\
    (forall b, b ∈ l1 -> before h b x) /\ (forall b, b ∈ l2 -> before h x b).
Proof.
  intros Ho Hx Hno. induction t as [|l IHl a r IHr].
  { exists [], []. repeat split; set_solver. }
  destruct (ordered_node _ _ _ _ Ho) as (Hol & Hor & Hne & Hbl & Hbr).
  assert (overlaps h (node h x) a = false) as Ha by (apply Hno; simpl; set_solver).
  apply overlaps_false in Ha. simpl. unfold nonempty, before in *.
  destruct (Z.ltb_spec (low (node h x)) (low (node h a))) as [Hlt|Hge]; simpl.
  - destruct IHl as (l1 & l2 & E1 & E2 & H1 & H2); [done|intros; apply Hno; simpl; set_solver|].
    exists l1, (l2 ++ a :: inorder r). rewrite E1, E2, <- !app_assoc.
    repeat split; [done|]. intros b. rewrite elem_of_app, elem_of_cons.
    intros [Hb|[->|Hb]]; [by apply H2|lia|]. apply Hbr in Hb. lia.
  - destruct IHr as (l1 & l2 & E1 & E2 & H1 & H2); [done|intros; apply Hno; simpl; set_solver|].
    exists (inorder l ++ a :: l1), l2. rewrite E1, E2, <- !app_assoc.
    repeat split; [|done]. intros b. rewrite elem_of_app, elem_of_cons.
    intros [Hb|[->|Hb]]; [|lia|by apply H1]. apply Hbl in Hb. lia.
Qed.

Lemma ordered_insert h l1 x l2 :
  ordered h (l1 ++ l2) -> nonempty h x ->
  (forall b, b ∈ l1 -> before h b x) -> (forall b, b ∈ l2 -> before h x b) ->
  ordered h (l1 ++ x :: l2).
Proof.
  rewrite !ordered_app, ordered_cons. intros (H1 & H2 & H12) Hx Hb1 Hb2.
  repeat split; try apply H1; try apply H2; try done.
  intros a b Ha Hb. rewrite elem_of_cons in Hb. destruct Hb as [->|Hb]; auto.
Qed.

Lemma root_of_tins h x l a r : root_of (tins h x (Node l a r)) = Some a.
Proof. simpl. by destruct (low (node h x) <? low (node h a)). Qed.

(** A node that is not linked anywhere yet. *)
Definition unlinked (h : iheap) (x : iptr) : Prop :=
  links <$> h !! x = Some (None, None, None).

(** Hanging [x] below [a] changes only the links of [x] and of [a]. *)
Lemma hang_spec (f : Interval -> Interval) h a x :
  (forall n, contents (f n) = contents n) -> a <> x ->
  let h' := alter (set_parent (Some a)) x (alter f a h) in
  same_store h h' /\
  (forall b, b <> a -> b <> x -> h' !! b = h !! b) /\
  h' !! a = f <$> h !! a /\ h' !! x = set_parent (Some a) <$> h !! x.
Proof.
  intros Hf Hax h'. unfold h'. repeat split.
  - eapply same_store_trans; apply same_store_alter; [done|]. intros. apply contents_set_parent.
  - intros b ??. by rewrite !lookup_alter_ne by done.
  - rewrite lookup_alter_ne, lookup_alter_eq by done. done.
  - rewrite lookup_alter_eq, lookup_alter_ne by done. done.
Qed.

Lemma rep_frame_eq h h' par t :
  rep h par t -> (forall a, a ∈ inorder t -> h' !! a = h !! a) -> rep h' par t.
Proof. intros H Heq. eapply rep_frame; [done|]. intros a Ha. by rewrite Heq. Qed.

Lemma rep_single h par x :
  links <$> h !! x = Some (par, None, None) -> rep h par (Node Leaf x Leaf).
Proof. by repeat split. Qed.

Lemma links_after_parent h x a n :
  unlinked h x -> n = set_parent (Some a) <$> h !! x -> links <$> n = Some (Some a, None, None).
Proof.
  unfold unlinked. intros Hu ->. destruct (h !! x) as [m|]; [|done].
  destruct m; unfold links in *; simpl in *. by simplify_eq.
Qed.

Lemma NoDup_node_elem l a r :
  NoDup (inorder (Node l a r)) ->
  a ∉ inorder l /\ a ∉ inorder r /\ (forall b, b ∈ inorder l -> b ∉ inorder r).
Proof.
  simpl. rewrite NoDup_app, NoDup_cons. intros (_ & H & Ha & _).
  split; [|split]; [|done|]; intros; set_solver.
Qed.

(** What the insertion loop achieves below a node, as a postcondition on its result. *)
Definition insert_post (h : iheap) (x : iptr) (par : option iptr) (t : tree)
  (res : outcome (Z * iheap)) : Prop :=
  ((exists b, b ∈ inorder t /\ overlaps h (node h x) b = true) /\
   res = Done (INTERVAL_OVERLAP, h)) \/
  ((forall b, b ∈ inorder t -> overlaps h (node h x) b = false) /\
   exists h', res = Done (INTERVAL_SUCCESS, h') /\
     same_store h h' /\ rep h' par (tins h x t) /\
     (forall a, a ∉ x :: inorder t -> h' !! a = h !! a)).

Lemma insert_fresh_facts h x l c r :
  ordered h (inorder (Node l c r)) -> x ∉ inorder (Node l c r) ->
  c <> x /\ x ∉ inorder l /\ x ∉ inorder r /\
  c ∉ inorder l /\ c ∉ inorder r /\ (forall b, b ∈ inorder l -> b ∉ inorder r).
Proof.
  intros Hord Hx. destruct (NoDup_node_elem _ _ _ (ordered_NoDup _ _ Hord)) as (? & ? & ?).
  simpl in Hx. set_solver.
Qed.

Section insert_cases.
Context (h : iheap) (x : iptr) (par : option iptr) (l : tree) (c : iptr) (r : tree).
Context (Hrep : rep h par (Node l c r)) (Hord : ordered h (inorder (Node l c r))).
Context (Hx : x ∉ inorder (Node l c r)) (Hu : unlinked h x) (Hne : nonempty h x).
Context (Hov : overlaps h (node h x) c = false).

  (** The subtree the loop does not enter has no overlapping interval. *)
Lemma no_overlap_right : low (node h x) < low (node h c) ->
    forall b, b ∈ inorder r -> overlaps h (node h x) b = false.
  Proof.
    intros Hlt b Hb. destruct (ordered_node _ _ _ _ Hord) as (_ & _ & Hna & _ & Hbr).
    apply Hbr in Hb as [??]. apply overlaps_false in Hov. apply overlaps_false.
    unfold before, nonempty in *. lia.
  Qed.
Lemma no_overlap_left : low (node h c) <= low (node h x) ->
    forall b, b ∈ inorder l -> overlaps h (node h x) b = false.
  Proof.
    intros Hlt b Hb. destruct (ordered_node _ _ _ _ Hord) as (_ & _ & Hna & Hbl & _).
    apply Hbl in Hb as [??]. apply overlaps_false in Hov. apply overlaps_false.
    unfold before, nonempty in *. lia.
  Qed.

Lemma insert_leaf_left : l = Leaf -> low (node h x) < low (node h c) ->
    insert_post h x par (Node l c r)
      (Done (INTERVAL_SUCCESS, alter (set_parent (Some c)) x (alter (set_left (Some x)) c h))).
  Proof.
    intros El Hlt. destruct (insert_fresh_facts h x l c r Hord Hx) as (Hcx & _ & Hxr & _ & Hcr & _).
    destruct (hang_spec (set_left (Some x)) h c x) as (Hs & Ho & Hc & Hxn);
      [intros; apply contents_set_left|done|].
    right. pose proof (no_overlap_right Hlt). destruct Hrep as (Hlc & _ & Hrr). subst l.
    split; [simpl; set_solver|]. eexists. split; [done|]. split; [done|]. split.
    - cbn [tins]. rewrite (proj2 (Z.ltb_lt _ _) Hlt). split; [|split].
      + rewrite Hc. destruct (h !! c) as [n|]; [|done]. destruct n; unfold links in *.
        simpl in *. by simplify_eq.
      + apply rep_single. by eapply links_after_parent.
      + eapply rep_frame_eq; [done|]. intros b Hb. apply Ho; set_solver.
    - intros b Hb. apply Ho; simpl in Hb; set_solver.
  Qed.

Lemma insert_leaf_right : r = Leaf -> low (node h c) <= low (node h x) ->
    insert_post h x par (Node l c r)
      (Done (INTERVAL_SUCCESS, alter (set_parent (Some c)) x (alter (set_right (Some x)) c h))).
  Proof.
    intros Er Hge. destruct (insert_fresh_facts h x l c r Hord Hx) as (Hcx & Hxl & _ & Hcl & _).
    destruct (hang_spec (set_right (Some x)) h c x) as (Hs & Ho & Hc & Hxn);
      [intros; apply contents_set_right|done|].
    right. pose proof (no_overlap_left Hge). destruct Hrep as (Hlc & Hrl & _). subst r.
    split; [simpl; set_solver|]. eexists. split; [done|]. split; [done|]. split.
    - cbn [tins]. rewrite (proj2 (Z.ltb_ge _ _) Hge). split; [|split].
      + rewrite Hc. destruct (h !! c) as [n|]; [|done]. destruct n; unfold links in *.
        simpl in *. by simplify_eq.
      + eapply rep_frame_eq; [done|]. intros b Hb. apply Ho; set_solver.
      + apply rep_single. by eapply links_after_parent.
    - intros b Hb. apply Ho; simpl in Hb; set_solver.
  Qed.

Lemma insert_below_left res : l <> Leaf -> low (node h x) < low (node h c) ->
    insert_post h x (Some c) l res -> insert_post h x par (Node l c r) res.
  Proof.
    intros Hl Hlt. pose proof (no_overlap_right Hlt) as Hnr.
    destruct (insert_fresh_facts h x l c r Hord Hx) as (Hcx & _ & Hxr & Hcl & _ & Hlr).
    intros [[(d & Hd & Hd') ->]|(Hno & h' & -> & Hs & Hrep' & Hfr)].
    { left. split; [|done]. exists d. split; [simpl; set_solver|done]. }
    right. split; [simpl; set_solver|]. exists h'. split; [done|]. split; [done|].
    destruct Hrep as (Hlc & _ & Hrr). split.
    - cbn [tins]. rewrite (proj2 (Z.ltb_lt _ _) Hlt). split; [|split; [done|]].
      + rewrite Hfr by set_solver. destruct l; [done|]. by rewrite root_of_tins.
      + eapply rep_frame_eq; [done|]. intros e He. apply Hfr. set_solver.
    - intros e He. apply Hfr. simpl in He. set_solver.
  Qed.

Lemma insert_below_right res : r <> Leaf -> low (node h c) <= low (node h x) ->
    insert_post h x (Some c) r res -> insert_post h x par (Node l c r) res.
  Proof.
    intros Hl Hge. pose proof (no_overlap_left Hge) as Hnl.
    destruct (insert_fresh_facts h x l c r Hord Hx) as (Hcx & Hxl & _ & _ & Hcr & Hlr).
    intros [[(d & Hd & Hd') ->]|(Hno & h' & -> & Hs & Hrep' & Hfr)].
    { left. split; [|done]. exists d. split; [simpl; set_solver|done]. }
    right. split; [simpl; set_solver|]. exists h'. split; [done|]. split; [done|].
    destruct Hrep as (Hlc & Hrl & _). split.
    - cbn [tins]. rewrite (proj2 (Z.ltb_ge _ _) Hge). split; [|split; [|done]].
      + rewrite Hfr by set_solver. destruct r; [done|]. by rewrite root_of_tins.
      + eapply rep_frame_eq; [done|]. intros e He. apply Hfr. set_solver.
    - intros e He. apply Hfr. simpl in He. set_solver.
  Qed.
End insert_cases.

Lemma insert_loop_spec h x t : forall par fuel c,
  root_of t = Some c -> rep h par t -> ordered h (inorder t) -> x ∉ inorder t ->
  unlinked h x -> nonempty h x -> (height t < fuel)%nat ->
  insert_post h x par t (insert_loop fuel h c x).
Proof.
  induction t as [|l IHl a r IHr]; intros par fuel c Hc Hrep Hord Hx Hu Hne Hf; [done|].
  injection Hc as ->. destruct fuel as [|fuel]; [lia|]. simpl in Hf.
  destruct (rep_root _ _ _ _ _ Hrep) as (Hload & _ & Hl & Hr).
  destruct (ordered_node _ _ _ _ Hord) as (Hol & Hor & _).
  destruct (insert_fresh_facts h x l c r Hord Hx) as (_ & Hxl & Hxr & _).
  assert (load h x = Done (node h x)) as Hloadx.
  { apply load_node. unfold unlinked in Hu. destruct (h !! x); [by eexists|done]. }
  cbn [insert_loop]. rewrite Hload, Hloadx. obind. fold (overlaps h (node h x) c).
  destruct (overlaps h (node h x) c) eqn:Hov.
  { left. split; [|done]. exists c. split; [simpl; set_solver|done]. }
  rewrite Hl, Hr. destruct (Z.ltb_spec (low (node h x)) (low (node h c))) as [Hlt|Hge].
  - destruct (root_of l) as [b|] eqn:El; [|destruct l; [by apply insert_leaf_left|done]].
    apply insert_below_left; try done; [by intros ->|].
    apply IHl; try done; [apply Hrep|lia].
  - destruct (root_of r) as [b|] eqn:Er; [|destruct r; [by apply insert_leaf_right|done]].
    apply insert_below_right; try done; [by intros ->|].
    apply IHr; try done; [apply Hrep|lia].
Qed.

(** [insert_interval] adds the new interval at its place in the order, or changes
    nothing when it overlaps a stored one. *)
Lemma insert_interval_spec h root t x :
  iset h root t -> x ∉ inorder t -> unlinked h x -> nonempty h x ->
  ((exists b, b ∈ inorder t /\ overlaps h (node h x) b = true) /\
   insert_interval h root x = Done (INTERVAL_OVERLAP, root, h)) \/
  ((forall b, b ∈ inorder t -> overlaps h (node h x) b = false) /\
   exists root' h' t' l1 l2,
     insert_interval h root x = Done (INTERVAL_SUCCESS, root', h') /\
     iset h' root' t' /\ inorder t = l1 ++ l2 /\ inorder t' = l1 ++ x :: l2 /\
     same_store h h' /\ (forall a, a ∉ x :: inorder t -> h' !! a = h !! a)).
Proof.
  intros [-> Hrep Hord] Hx Hu Hne. unfold insert_interval.
  destruct (root_of t) as [c|] eqn:Hc.
  - pose proof (height_fuel _ _ _ Hrep (ordered_NoDup _ _ Hord)) as Hf.
    destruct (insert_loop_spec h x t None (loop_fuel h) c Hc Hrep Hord Hx Hu Hne Hf)
      as [[Hov ->]|(Hno & h' & -> & Hs & Hrep' & Hfr)]; [by left|right].
    split; [done|]. destruct (tins_inorder h x t Hord Hne Hno) as (l1 & l2 & E1 & E2 & H1 & H2).
    exists (Some c), h', (tins h x t), l1, l2. split; [done|]. split; [|done]. split.
    + destruct t; [done|]. by rewrite root_of_tins.
    + done.
    + eapply ordered_same; [by apply same_store_contents|]. rewrite E2.
      apply ordered_insert; [by rewrite <- E1|done..].
  - right. destruct t; [|done]. split; [simpl; set_solver|].
    exists (Some x), h, (Node Leaf x Leaf), [], []. split; [done|]. split; [|done].
    split; [done|by apply rep_single|]. simpl. rewrite ordered_cons.
    split; [done|]. split; [by repeat constructor|set_solver].
Qed.

(** ** Removal *)

(** The child that takes the place of a node with at most one child. *)
Definition only_child (n : Interval) : option iptr :=
  match left_child n with Some l => Some l | None => right_child n end.
Definition thin (h : iheap) (s : iptr) : Prop :=
  left_child (node h s) = None \/ right_child (node h s) = None.

(** Taking such a node out of a shape. *)
Fixpoint tsnip (s : iptr) (t : tree) : tree :=
  match t with
  | Leaf => Leaf
  | Node l a r =>
    if decide (a = s) then match l with Leaf => r | _ => l end
    else Node (tsnip s l) a (tsnip s r)
  end.

Lemma tsnip_notin s t : s ∉ inorder t -> tsnip s t = t.
Proof.
  induction t as [|l IHl a r IHr]; [done|]. simpl.
  rewrite elem_of_app, elem_of_cons. intros H.
  rewrite decide_False by naive_solver. rewrite IHl, IHr; naive_solver.
Qed.

Lemma root_of_None t : root_of t = None -> t = Leaf.
Proof. by destruct t. Qed.

Lemma tsnip_inorder h s t : forall par xs ys,
  rep h par t -> NoDup (inorder t) -> thin h s -> inorder t = xs ++ s :: ys ->
  inorder (tsnip s t) = xs ++ ys.
Proof.
  induction t as [|l IHl a r IHr]; intros par xs ys Hrep Hnd Hthin Heq.
  { by destruct xs. }
  destruct (NoDup_node _ _ _ Hnd) as [Hndl Hndr].
  destruct (NoDup_node_elem _ _ _ Hnd) as (Hal & Har & Hlr).
  destruct (rep_root _ _ _ _ _ Hrep) as (_ & _ & Hl & Hr).
  destruct Hrep as (_ & Hrl & Hrr). cbn [inorder tsnip] in *.
  apply app_split_at in Heq as [(zs & Hin & ->)|(zs & -> & Hin)].
  - assert (s ∈ inorder l) by (rewrite Hin; set_solver).
    rewrite decide_False by (intros ->; done). simpl.
    rewrite (tsnip_notin s r) by (by apply Hlr).
    rewrite (IHl _ _ _ Hrl Hndl Hthin Hin). by rewrite <- app_assoc.
  - destruct zs as [|z zs]; simplify_eq/=.
    + rewrite decide_True by done. rewrite app_nil_r. destruct Hthin as [H|H].
      * rewrite Hl in H. apply root_of_None in H. by subst.
      * rewrite Hr in H. apply root_of_None in H. subst. destruct l; [done|].
        by rewrite app_nil_r.
    + assert (s ∈ inorder r) by (match goal with E : inorder r = _ |- _ => rewrite E end; set_solver).
      rewrite decide_False by (intros ->; done). simpl.
      rewrite (tsnip_notin s l) by (intros ?; by apply (Hlr s)).
      rewrite (IHr (Some z) zs ys); [by rewrite <- app_assoc|done..].
Qed.

(** Where the links of a represented node lead. *)
Lemma rep_parent h t s : forall par,
  rep h par t -> NoDup (inorder t) -> s ∈ inorder t ->
  (root_of t = Some s /\ parent (node h s) = par) \/
  (root_of t <> Some s /\ exists p, p ∈ inorder t /\ parent (node h s) = Some p).
Proof.
  induction t as [|l IHl a r IHr]; intros par Hrep Hnd Hs; [simpl in Hs; set_solver|].
  destruct (rep_root _ _ _ _ _ Hrep) as (_ & Hp & _ & _).
  destruct (NoDup_node _ _ _ Hnd) as [Hndl Hndr].
  destruct (NoDup_node_elem _ _ _ Hnd) as (Hal & Har & _).
  destruct Hrep as (_ & Hrl & Hrr). cbn [inorder root_of] in *.
  rewrite elem_of_app, elem_of_cons in Hs. destruct Hs as [Hs|[->|Hs]]; [right|by left|right].
  - split; [intros [= ->]; done|].
    destruct (IHl _ Hrl Hndl Hs) as [[_ H]|[_ (p & Hin & H)]]; [exists a|exists p]; set_solver.
  - split; [intros [= ->]; done|].
    destruct (IHr _ Hrr Hndr Hs) as [[_ H]|[_ (p & Hin & H)]]; [exists a|exists p]; set_solver.
Qed.

Lemma rep_child h t s c : forall par,
  rep h par t -> s ∈ inorder t ->
  left_child (node h s) = Some c \/ right_child (node h s) = Some c -> c ∈ inorder t.
Proof.
  induction t as [|l IHl a r IHr]; intros par Hrep Hs Hc; [simpl in Hs; set_solver|].
  destruct (rep_root _ _ _ _ _ Hrep) as (_ & _ & Hl & Hr).
  destruct Hrep as (_ & Hrl & Hrr). cbn [inorder] in *.
  rewrite elem_of_app, elem_of_cons in Hs |- *. destruct Hs as [Hs|[->|Hs]].
  - left. by eapply IHl.
  - rewrite Hl, Hr in Hc. destruct Hc as [Hc|Hc].
    + destruct l; [done|]. simpl in *. set_solver.
    + destruct r; [done|]. simpl in *. set_solver.
  - right; right. by eapply IHr.
Qed.

(** The effect on the links of taking out [s], for every node [b]. *)
Definition unhook_links (s : iptr) (n : Interval) (b : iptr)
  (ln : option iptr * option iptr * option iptr) : option iptr * option iptr * option iptr :=
  let '(lp, ll, lr) := ln in
  (if decide (only_child n = Some b) then parent n else lp,
   if decide (parent n = Some b /\ ll = Some s) then only_child n else ll,
   if decide (parent n = Some b /\ ll <> Some s) then only_child n else lr).

Definition unhooked (h h' : iheap) (s : iptr) : Prop :=
  forall b, links <$> h' !! b = unhook_links s (node h s) b <$> (links <$> h !! b).

Lemma unhook_links_other s n b ln :
  only_child n <> Some b -> parent n <> Some b -> unhook_links s n b ln = ln.
Proof.
  intros H1 H2. destruct ln as [[lp ll] lr]. unfold unhook_links.
  rewrite decide_False by done. rewrite !decide_False by naive_solver. done.
Qed.

Lemma unhook_links_left s n b lp lr :
  only_child n <> Some b -> parent n = Some b ->
  unhook_links s n b (lp, Some s, lr) = (lp, only_child n, lr).
Proof.
  intros H1 H2. unfold unhook_links. rewrite decide_False by done.
  rewrite decide_True by done. by rewrite decide_False by naive_solver.
Qed.
Lemma unhook_links_right s n b lp ll lr :
  only_child n <> Some b -> parent n = Some b -> ll <> Some s ->
  unhook_links s n b (lp, ll, lr) = (lp, ll, only_child n).
Proof.
  intros H1 H2 H3. unfold unhook_links. rewrite decide_False by done.
  rewrite decide_False by naive_solver. by rewrite decide_True by done.
Qed.

Lemma unhooked_other h h' s par t :
  unhooked h h' s -> rep h par t ->
  (forall b, b ∈ inorder t -> only_child (node h s) <> Some b /\ parent (node h s) <> Some b) ->
  rep h' par t.
Proof.
  intros Hun Hrep Hb. eapply rep_frame; [done|]. intros b Hin. rewrite Hun.
  destruct (Hb b Hin). destruct (links <$> h !! b); [|done]. simpl.
  by rewrite unhook_links_other.
Qed.

Lemma only_child_in h t s c par :
  rep h par t -> s ∈ inorder t -> only_child (node h s) = Some c -> c ∈ inorder t.
Proof.
  intros Hrep Hs Hc. eapply rep_child; [done|done|].
  unfold only_child in Hc. destruct (left_child (node h s)); [by left|by right].
Qed.

(** The subtree below the removed node moves up to its parent. *)
Lemma unhook_here h h' s par l r :
  rep h par (Node l s r) -> NoDup (inorder (Node l s r)) ->
  thin h s -> unhooked h h' s -> (forall p, par = Some p -> p ∉ inorder (Node l s r)) ->
  rep h' par (tsnip s (Node l s r)) /\
  root_of (tsnip s (Node l s r)) = only_child (node h s).
Proof.
  intros Hrep Hnd Hthin Hun Hpar.
  destruct (rep_root _ _ _ _ _ Hrep) as (_ & Hp & Hl & Hr).
  destruct Hrep as (_ & Hrl & Hrr).
  assert (exists u, tsnip s (Node l s r) = u /\ root_of u = only_child (node h s) /\
            rep h (Some s) u /\ NoDup (inorder u) /\ (forall b, b ∈ inorder u -> b ∈ inorder (Node l s r)))
    as (u & -> & Hroot & Hu & Hndu & Hin).
  { destruct (NoDup_node _ _ _ Hnd) as [Hndl Hndr]. cbn [tsnip]. rewrite decide_True by done.
    unfold only_child. rewrite Hl, Hr. unfold thin in Hthin. rewrite Hl, Hr in Hthin.
    destruct l as [|ll a lr].
    - exists r. repeat split; try done. simpl. set_solver.
    - destruct Hthin as [?|Hthin]; [done|]. apply root_of_None in Hthin. subst r.
      exists (Node ll a lr). split; [done|]. split; [done|]. split; [done|]. split; [done|].
      intros b Hb. cbn [inorder] in *. set_solver. }
  split; [|done]. destruct u as [|ul c ur]; [done|]. simpl in Hroot.
  destruct (NoDup_node_elem _ _ _ Hndu) as (Hcl & Hcr & _).
  assert (forall b, b ∈ inorder (Node ul c ur) -> parent (node h s) <> Some b) as Hnp.
  { intros b Hb Heq. rewrite Hp in Heq. by apply (Hpar b), Hin. }
  destruct Hu as (Huc & Hul & Hur). repeat split.
  - rewrite Hun, Huc. simpl. rewrite <- Hroot, decide_True by done.
    assert (parent (node h s) <> Some c) by (apply Hnp; simpl; set_solver).
    rewrite !decide_False by naive_solver. by rewrite Hp.
  - eapply unhooked_other; [done|done|]. intros b Hb.
    split; [|apply Hnp; simpl; set_solver]. rewrite <- Hroot. by intros [= ->].
  - eapply unhooked_other; [done|done|]. intros b Hb.
    split; [|apply Hnp; simpl; set_solver]. rewrite <- Hroot. by intros [= ->].
Qed.

Lemma unhook_rep h h' s t : forall par,
  rep h par t -> NoDup (inorder t) -> s ∈ inorder t -> thin h s -> unhooked h h' s ->
  (forall p, par = Some p -> p ∉ inorder t) ->
  rep h' par (tsnip s t) /\
  root_of (tsnip s t) = (if decide (root_of t = Some s) then only_child (node h s) else root_of t).
Proof.
  induction t as [|l IHl a r IHr]; intros par Hrep Hnd Hs Hthin Hun Hpar; [simpl in Hs; set_solver|].
  destruct (decide (a = s)) as [->|Has].
  { rewrite (decide_True (P := root_of (Node l s r) = Some s)) by done. by apply unhook_here. }
  destruct (NoDup_node _ _ _ Hnd) as [Hndl Hndr].
  destruct (NoDup_node_elem _ _ _ Hnd) as (Hal & Har & Hlr).
  cbn [tsnip root_of]. rewrite decide_False by done.
  rewrite (decide_False (P := Some a = Some s)) by (by intros [= ->]).
  split; [|done]. destruct Hrep as (Hla & Hrl & Hrr). cbn [inorder] in Hs.
  rewrite elem_of_app, elem_of_cons in Hs. destruct Hs as [Hs|[->|Hs]]; [|done|].
  - rewrite (tsnip_notin s r) by (by apply Hlr).
    destruct (IHl (Some a) Hrl Hndl Hs Hthin Hun) as [Hrep' Hroot]; [naive_solver|].
    assert (only_child (node h s) <> Some a) as Hca.
    { intros H. by pose proof (only_child_in h l s a _ Hrl Hs H). }
    pose proof (rep_parent h l s _ Hrl Hndl Hs) as Hpp. repeat split; [|done|].
    + rewrite Hun, Hla, Hroot. cbn [fmap option_fmap option_map].
      destruct Hpp as [[Hr Hp]|[Hr (p & Hin & Hp)]].
      * by rewrite Hr, unhook_links_left, decide_True by done.
      * rewrite unhook_links_other, decide_False; [done|done|done|].
        rewrite Hp. by intros [= ->].
    + eapply unhooked_other; [done|done|]. intros b Hb. split.
      * intros H. pose proof (only_child_in h l s b _ Hrl Hs H). by apply (Hlr b).
      * destruct Hpp as [[_ ->]|[_ (p & Hin & ->)]]; intros [= ->]; [done|by apply (Hlr b)].
  - rewrite (tsnip_notin s l) by (intros ?; by apply (Hlr s)).
    destruct (IHr (Some a) Hrr Hndr Hs Hthin Hun) as [Hrep' Hroot]; [naive_solver|].
    assert (only_child (node h s) <> Some a) as Hca.
    { intros H. by pose proof (only_child_in h r s a _ Hrr Hs H). }
    assert (root_of l <> Some s) as Hls.
    { intros H. destruct l; simplify_eq/=. apply (Hlr s); set_solver. }
    pose proof (rep_parent h r s _ Hrr Hndr Hs) as Hpp. repeat split; [| |done].
    + rewrite Hun, Hla, Hroot. cbn [fmap option_fmap option_map].
      destruct Hpp as [[Hr Hp]|[Hr (p & Hin & Hp)]].
      * by rewrite Hr, unhook_links_right, decide_True by done.
      * rewrite unhook_links_other, decide_False; [done|done|done|].
        rewrite Hp. by intros [= ->].
    + eapply unhooked_other; [done|done|]. intros b Hb. split.
      * intros H. pose proof (only_child_in h r s b _ Hrr Hs H). by apply (Hlr b).
      * destruct Hpp as [[_ ->]|[_ (p & Hin & ->)]]; intros [= ->]; [done|by apply (Hlr b)].
Qed.

(** The two link updates of [remove_interval]. *)
Definition lift_child (h : iheap) (s : iptr) : iheap :=
  match only_child (node h s) with
  | Some c => alter (set_parent (parent (node h s))) c h
  | None => h
  end.

Lemma lift_child_lookup h s b :
  lift_child h s !! b =
    (if decide (only_child (node h s) = Some b) then set_parent (parent (node h s)) <$> h !! b
     else h !! b).
Proof.
  unfold lift_child. destruct (only_child (node h s)) as [c|]; [|by rewrite decide_False].
  rewrite lookup_alter. destruct (decide (c = b)) as [->|].
  - by rewrite decide_True.
  - by rewrite decide_False by congruence.
Qed.

(** Case analysis on the tests of a link update at address [b]. *)
Ltac links_cases h b :=
  let nb := fresh "nb" in let Eb := fresh "Eb" in
  destruct (h !! b) as [nb|] eqn:Eb; [|repeat case_decide; simpl; congruence];
  unfold links; simpl; repeat case_decide; simpl; destruct_and?; subst;
  simplify_eq/=;
  repeat match goal with E : ?m !! ?k = _ |- context [?m !! ?k] => rewrite E; simpl end;
  (done || (exfalso; naive_solver)).

Lemma relink_spec h root s :
  (forall p, parent (node h s) = Some p -> is_Some (h !! p)) ->
  exists h2,
    relink (lift_child h s) root s (parent (node h s)) (only_child (node h s)) =
      Done (match parent (node h s) with None => only_child (node h s) | Some _ => root end, h2) /\
    unhooked h h2 s /\ same_store h h2 /\
    (forall b, only_child (node h s) <> Some b -> parent (node h s) <> Some b -> h2 !! b = h !! b).
Proof.
  intros Hp. assert (same_store h (lift_child h s)) as Hs1.
  { unfold lift_child. destruct (only_child (node h s)); [|done].
    apply same_store_alter. intros. apply contents_set_parent. }
  destruct (parent (node h s)) as [p|] eqn:Epar; cbn [relink].
  - destruct (Hp p eq_refl) as [pn Hpn].
    assert (exists pn1, lift_child h s !! p = Some pn1 /\ left_child pn1 = left_child pn) as (pn1 & Hpn1 & Hleft).
    { rewrite lift_child_lookup, Hpn. case_decide; eexists; split; done. }
    unfold load. rewrite Hpn1. cbn [or_fault]. obind. rewrite Hleft.
    case_decide as Hd; eexists; (split; [done|]); repeat split.
    + intros b. rewrite lookup_alter, !lift_child_lookup. unfold unhook_links. rewrite Epar.
      links_cases h b.
    + eapply same_store_trans; [done|]. apply same_store_alter. intros; apply contents_set_left.
    + intros b Hb1 Hb2. rewrite lookup_alter_ne by congruence. rewrite lift_child_lookup.
      by rewrite decide_False.
    + intros b. rewrite lookup_alter, !lift_child_lookup. unfold unhook_links. rewrite Epar.
      links_cases h b.
    + eapply same_store_trans; [done|]. apply same_store_alter. intros; apply contents_set_right.
    + intros b Hb1 Hb2. rewrite lookup_alter_ne by congruence. rewrite lift_child_lookup.
      by rewrite decide_False.
  - eexists. split; [done|]. repeat split; [|done|].
    + intros b. rewrite lift_child_lookup. unfold unhook_links. rewrite Epar.
      links_cases h b.
    + intros b Hb1 _. rewrite lift_child_lookup. by rewrite decide_False.
Qed.

(** Two neighbours in traversal order cannot both have a child between them. *)
Lemma head_no_left h t b par :
  rep h par t -> head (inorder t) = Some b -> left_child (node h b) = None.
Proof.
  revert par. induction t as [|l IHl a r _]; intros par Hrep Hb; [done|].
  destruct (rep_root _ _ _ _ _ Hrep) as (_ & _ & Hl & _). destruct Hrep as (_ & Hrl & _).
  simpl in Hb. destruct (inorder l) as [|x xs] eqn:E; simplify_eq/=.
  - rewrite Hl. destruct l; [done|]. simpl in E. by destruct (inorder l1).
  - by eapply IHl.
Qed.

Lemma last_no_right h t b par :
  rep h par t -> last (inorder t) = Some b -> right_child (node h b) = None.
Proof.
  revert par. induction t as [|l _ a r IHr]; intros par Hrep Hb; [done|].
  destruct (rep_root _ _ _ _ _ Hrep) as (_ & _ & _ & Hr). destruct Hrep as (_ & _ & Hrr).
  simpl in Hb. rewrite last_app_cons, last_cons in Hb.
  destruct (last (inorder r)) as [x|] eqn:E; simplify_eq/=.
  - by eapply IHr.
  - rewrite Hr. apply last_None in E. destruct r; [done|]. simpl in E. by destruct (inorder r1).
Qed.

Lemma neighbours_thin h t a b : forall par xs ys,
  rep h par t -> inorder t = xs ++ a :: b :: ys ->
  right_child (node h a) = None \/ left_child (node h b) = None.
Proof.
  induction t as [|l IHl c r IHr]; intros par xs ys Hrep Heq; [by destruct xs|].
  destruct Hrep as (_ & Hrl & Hrr). simpl in Heq.
  apply app_split_at in Heq as [(zs & Hin & Hys)|(zs & -> & Hin)].
  - destruct zs as [|z zs]; simplify_eq/=; [|by eapply IHl].
    left. eapply (last_no_right h l); [done|]. by rewrite Hin, last_snoc.
  - destruct zs as [|z zs]; simplify_eq/=; [|by eapply IHr].
    right. eapply (head_no_left h r); [done|].
    match goal with E : inorder r = _ |- _ => by rewrite E end.
Qed.

(** The swap of contents that follows when the snipped node is the successor. *)
Definition swap_contents (h : iheap) (a s : iptr) : iheap :=
  alter (set_data (data (node h a))) s
    (alter (set_contents (low (node h s)) (high (node h s)) (data (node h s))) a h).

Lemma swap_contents_links h a s b : links <$> swap_contents h a s !! b = links <$> h !! b.
Proof.
  unfold swap_contents. rewrite !lookup_alter.
  repeat case_decide; subst; by destruct (h !! _).
Qed.

Lemma swap_contents_other h a s b : b <> a -> b <> s -> swap_contents h a s !! b = h !! b.
Proof. intros. unfold swap_contents. by rewrite !lookup_alter_ne. Qed.

Lemma swap_contents_at h a s :
  a <> s -> is_Some (h !! a) -> contents (node (swap_contents h a s) a) = contents (node h s).
Proof.
  intros Has [n Hn]. unfold swap_contents, node at 1.
  rewrite lookup_alter_ne, lookup_alter_eq by done. rewrite Hn. done.
Qed.

Lemma swap_contents_freed h a s :
  a <> s -> is_Some (h !! s) -> data (node (swap_contents h a s) s) = data (node h a).
Proof.
  intros Has [n Hn]. unfold swap_contents, node at 1.
  rewrite lookup_alter_eq, lookup_alter_ne by done. rewrite Hn. done.
Qed.

(** The result of taking a node out of the tree without the content swap. *)
Lemma unhook_spec h root t s xs ys :
  iset h root t -> inorder t = xs ++ s :: ys -> thin h s ->
  exists root' h2,
    relink (lift_child h s) root s (parent (node h s)) (only_child (node h s)) = Done (root', h2) /\
    rep h2 None (tsnip s t) /\ root' = root_of (tsnip s t) /\
    inorder (tsnip s t) = xs ++ ys /\ same_store h h2 /\
    (forall b, b ∉ inorder t -> h2 !! b = h !! b).
Proof.
  intros [-> Hrep Hord] Heq Hthin. pose proof (ordered_NoDup _ _ Hord) as Hnd.
  assert (s ∈ inorder t) as Hs by (rewrite Heq; set_solver).
  pose proof (rep_parent h t s None Hrep Hnd Hs) as Hpp.
  destruct (relink_spec h (root_of t) s) as (h2 & Hrel & Hun & Hst & Hfr).
  { intros p Hp. destruct Hpp as [[_ ?]|[_ (q & Hq & ?)]]; [congruence|].
    replace p with q by congruence. by eapply rep_lookup. }
  destruct (unhook_rep h h2 s t None Hrep Hnd Hs Hthin Hun) as [Hrep' Hroot]; [done|].
  eexists _, h2. split; [done|]. split; [done|]. split.
  { rewrite Hroot. destruct Hpp as [[Hr Hp]|[Hr (p & _ & Hp)]]; rewrite Hp.
    - by rewrite decide_True.
    - by rewrite decide_False. }
  split; [by eapply tsnip_inorder|]. split; [done|]. intros b Hb. apply Hfr.
  - intros H. by apply Hb, (only_child_in h t s b None).
  - destruct Hpp as [[_ ->]|[_ (p & Hp & ->)]]; [done|]. by intros [= ->].
Qed.

(** Being ordered is a property of the stored intervals only. *)
Lemma ordered_keys h h' l l' : keys h' l' = keys h l -> ordered h l -> ordered h' l'.
Proof.
  revert l'. induction l as [|a l IH]; intros l' Hk.
  { destruct l'; [|done]. intros _. by repeat constructor. }
  destruct l' as [|a' l']; [done|]. cbn [keys fmap list_fmap] in Hk.
  injection Hk as Hl Hh _ Hk. rewrite !ordered_cons. intros (Hne & Ho & Hb).
  split; [unfold nonempty in *; lia|]. split; [by apply IH|].
  intros b Hb'. assert (contents (node h' b) ∈ keys h l) as Hin.
  { fold (keys h l) in Hk. rewrite <- Hk. apply list_elem_of_fmap. by exists b. }
  apply list_elem_of_fmap in Hin as (c & Hc & Hin). apply Hb in Hin.
  unfold contents in Hc. injection Hc as ???. unfold before in *. lia.
Qed.

Lemma keys_app h l1 l2 : keys h (l1 ++ l2) = keys h l1 ++ keys h l2.
Proof. apply fmap_app. Qed.

Lemma ordered_remove h xs a ys : ordered h (xs ++ a :: ys) -> ordered h (xs ++ ys).
Proof.
  rewrite !ordered_app, ordered_cons. intros (H1 & (_ & H2 & _) & H3).
  repeat split; try apply H1; try apply H2. intros b c Hb Hc. apply H3; [done|by right].
Qed.

Definition same_links (h h' : iheap) : Prop := forall b, links <$> h' !! b = links <$> h !! b.

(** A node with at most one child is itself taken out. *)
Lemma remove_thin h root t a xs ys :
  iset h root t -> inorder t = xs ++ a :: ys -> thin h a ->
  exists root' h' t',
    remove_interval h root a = Done (a, root', h') /\ iset h' root' t' /\
    inorder t' = xs ++ ys /\ same_store h h' /\
    (forall b, b ∉ inorder t -> h' !! b = h !! b).
Proof.
  intros Hset Heq Hthin. pose proof Hset as [Hr Hrep Hord].
  assert (a ∈ inorder t) as Ha by (rewrite Heq; set_solver).
  destruct (unhook_spec h root t a xs ys Hset Heq Hthin)
    as (root' & h2 & Hrel & Hrep2 & Hroot & Hin & Hst & Hfr).
  exists root', h2, (tsnip a t). split; [|split; [|done]].
  - unfold remove_interval. rewrite (rep_load _ _ _ _ Hrep Ha). obind.
    replace (match left_child (node h a), right_child (node h a) with
             | Some _, Some _ => nx ← next_interval h a; or_fault NullDeref nx
             | _, _ => Done a end) with (Done a).
    2: { unfold thin in Hthin. destruct (left_child (node h a)), (right_child (node h a)); naive_solver. }
    obind. rewrite (rep_load _ _ _ _ Hrep Ha). obind.
    unfold lift_child, only_child in Hrel. rewrite Hrel. obind. by rewrite decide_True.
  - split; [done|done|]. eapply ordered_same; [by apply same_store_contents|].
    rewrite Hin. rewrite Heq in Hord. by eapply ordered_remove.
Qed.

(** A node with two children gives way to its successor, which is thin. *)
Lemma successor_thin h root t a xs ys :
  iset h root t -> inorder t = xs ++ a :: ys -> ~ thin h a ->
  exists s zs, ys = s :: zs /\ thin h s /\ a <> s.
Proof.
  intros [_ Hrep Hord] Heq Hfat. pose proof (ordered_NoDup _ _ Hord) as Hnd.
  destruct ys as [|s zs].
  - destruct Hfat. right. eapply last_no_right; [done|]. by rewrite Heq, last_snoc.
  - exists s, zs. split; [done|]. split.
    + destruct (neighbours_thin h t a s None xs zs Hrep Heq); [|by left].
      destruct Hfat. by right.
    + rewrite Heq, NoDup_app, NoDup_cons in Hnd. set_solver.
Qed.

Lemma remove_unfold_fat h root t a s xs zs root' h2 :
  iset h root t -> inorder t = xs ++ a :: s :: zs -> ~ thin h a -> a <> s ->
  relink (lift_child h s) root s (parent (node h s)) (only_child (node h s)) = Done (root', h2) ->
  (forall b, b ∈ inorder t -> is_Some (h2 !! b)) ->
  remove_interval h root a = Done (s, root', swap_contents h2 a s).
Proof.
  intros [_ Hrep Hord] Heq Hfat Has Hrel Hlk.
  assert (a ∈ inorder t /\ s ∈ inorder t) as [Ha Hs] by (rewrite Heq; set_solver).
  unfold remove_interval. rewrite (rep_load _ _ _ _ Hrep Ha). obind.
  unfold thin in Hfat. destruct (left_child (node h a)) eqn:El; [|naive_solver].
  destruct (right_child (node h a)) eqn:Er; [|naive_solver].
  rewrite (next_interval_inorder h t xs a (s :: zs) Hrep (ordered_NoDup _ _ Hord) Heq).
  obind. cbn [head or_fault]. obind. rewrite (rep_load _ _ _ _ Hrep Hs). obind.
  unfold lift_child, only_child in Hrel. rewrite Hrel. obind. rewrite decide_False by done.
  by rewrite (load_node h2 a), (load_node h2 s) by (by apply Hlk).
Qed.

Lemma same_store_is_Some h h' b : same_store h h' -> is_Some (h !! b) -> is_Some (h' !! b).
Proof. intros Hst [n Hn]. specialize (Hst b). rewrite Hn in Hst. by destruct (h' !! b); [eexists|]. Qed.

Lemma node_contents h h' b :
  contents <$> h' !! b = contents <$> h !! b -> contents (node h' b) = contents (node h b).
Proof. unfold node. destruct (h !! b), (h' !! b); simpl; congruence. Qed.

Lemma remove_fat h root t a xs ys :
  iset h root t -> inorder t = xs ++ a :: ys -> ~ thin h a ->
  exists s zs root' h' t',
    ys = s :: zs /\ remove_interval h root a = Done (s, root', h') /\ iset h' root' t' /\
    inorder t' = xs ++ a :: zs /\
    contents (node h' a) = contents (node h s) /\ data (node h' s) = data (node h a) /\
    (forall b, b <> a -> b <> s -> contents <$> h' !! b = contents <$> h !! b) /\
    (forall b, b ∉ inorder t -> h' !! b = h !! b) /\ (forall b, is_Some (h' !! b) <-> is_Some (h !! b)).
Proof.
  intros Hset Heq Hfat. pose proof Hset as [_ Hrep Hord].
  destruct (successor_thin _ _ _ _ _ _ Hset Heq Hfat) as (s & zs & -> & Hthin & Has).
  destruct (unhook_spec h root t s (xs ++ [a]) zs Hset ltac:(by rewrite Heq, <- app_assoc) Hthin)
    as (root' & h2 & Hrel & Hrep2 & Hroot & Hin & Hst & Hfr).
  rewrite <- app_assoc in Hin. simpl in Hin.
  assert (forall b, b ∈ inorder t -> is_Some (h2 !! b)) as Hlk.
  { intros b Hb. eapply same_store_is_Some; [done|]. by eapply rep_lookup. }
  assert (a ∈ inorder t /\ s ∈ inorder t) as [Ha Hs] by (rewrite Heq; set_solver).
  assert (contents (node (swap_contents h2 a s) a) = contents (node h s)) as Hca.
  { rewrite swap_contents_at by (done || by apply Hlk). by apply same_store_node. }
  assert (forall b, b <> a -> b <> s ->
    contents <$> swap_contents h2 a s !! b = contents <$> h !! b) as Hoth.
  { intros b Hb1 Hb2. by rewrite swap_contents_other. }
  exists s, zs, root', (swap_contents h2 a s), (tsnip s t).
  split; [done|]. split; [by eapply remove_unfold_fat|]. split; [split; [done| |]|].
  - eapply rep_frame; [exact Hrep2|]. intros. apply swap_contents_links.
  - rewrite Hin. eapply (ordered_keys h _ (xs ++ s :: zs)).
    + rewrite !keys_app. cbn [keys fmap list_fmap]. rewrite Hca.
      assert (forall l, a ∉ l -> s ∉ l -> keys (swap_contents h2 a s) l = keys h l) as Hk.
      { intros l Hal Hsl. apply keys_same. intros b Hb. apply node_contents, Hoth; congruence. }
      apply ordered_NoDup in Hord. rewrite Heq, NoDup_app, !NoDup_cons in Hord.
      f_equal; [|f_equal]; apply Hk; set_solver.
    + rewrite Heq in Hord. replace (xs ++ a :: s :: zs) with ((xs ++ [a]) ++ s :: zs) in Hord
        by (by rewrite <- app_assoc).
      rewrite <- app_assoc in Hord. by eapply ordered_remove.
  - split; [done|]. split; [done|]. split.
    { rewrite swap_contents_freed by (done || by apply Hlk).
      apply (same_store_node _ _ a) in Hst. unfold contents in Hst. naive_solver. }
    split; [done|]. split.
    + intros b Hb. rewrite swap_contents_other by congruence. by apply Hfr.
    + intros b. specialize (Hst b). pose proof (swap_contents_links h2 a s b) as Hl.
      destruct (h !! b), (h2 !! b), (swap_contents h2 a s !! b); try done; split; intros; by eexists.
Qed.

(** ** Refinement of an ordered list of intervals *)

Definition key_low (k : Z * Z * option rptr) : Z := k.1.1.
Definition key_high (k : Z * Z * option rptr) : Z := k.1.2.
Definition key_overlap (k k' : Z * Z * option rptr) : bool :=
  (key_low k <=? key_high k') && (key_low k' <=? key_high k).

(** Insertion before the first interval that starts later. *)
Fixpoint key_place (k : Z * Z * option rptr) (l : list (Z * Z * option rptr)) :=
  match l with
  | [] => [k]
  | x :: l' => if key_low k <? key_low x then k :: x :: l' else x :: key_place k l'
  end.

(** The set-of-intervals view of [insert_interval]: refuse an overlap, else place. *)
Definition key_insert (k : Z * Z * option rptr) (l : list (Z * Z * option rptr))
  : option (list (Z * Z * option rptr)) :=
  if existsb (fun k' => key_overlap k' k) l then None else Some (key_place k l).

Lemma key_overlap_node h x b :
  key_overlap (contents (node h b)) (contents (node h x)) = overlaps h (node h x) b.
Proof. done. Qed.

Lemma key_place_split h x l1 l2 :
  nonempty h x -> (forall b, b ∈ l1 -> before h b x /\ nonempty h b) ->
  (forall b, b ∈ l2 -> before h x b) ->
  key_place (contents (node h x)) (keys h (l1 ++ l2)) = keys h (l1 ++ x :: l2).
Proof.
  intros Hx H1 H2. induction l1 as [|b l1 IH]; simpl.
  - destruct l2 as [|c l2]; [done|]. simpl. unfold key_low. simpl.
    specialize (H2 c ltac:(by left)). unfold before, nonempty in *.
    by rewrite (proj2 (Z.ltb_lt _ _)) by lia.
  - destruct (H1 b ltac:(by left)) as [Hb Hb']. unfold key_low at 1 2. simpl.
    unfold before, nonempty in *. rewrite (proj2 (Z.ltb_ge _ _)) by lia.
    f_equal. apply IH. intros c Hc. apply H1. by right.
Qed.

Lemma existsb_keys h x l :
  existsb (fun k' => key_overlap k' (contents (node h x))) (keys h l) =
  existsb (overlaps h (node h x)) l.
Proof. induction l as [|b l IH]; [done|]. simpl. by rewrite <- IH. Qed.

Lemma existsb_false_iff {A} (f : A -> bool) l :
  existsb f l = false <-> (forall x, x ∈ l -> f x = false).
Proof.
  induction l as [|a l IH]; [simpl; set_solver|]. simpl. rewrite orb_false_iff, IH.
  split; [intros [? ?] x Hx; rewrite elem_of_cons in Hx; naive_solver|set_solver].
Qed.

Lemma tree_order_unique h root t l1 x l2 b :
  iset h root t -> inorder t = l1 ++ x :: l2 -> b ∈ l1 -> before h b x /\ nonempty h b.
Proof.
  intros [_ _ Ho] Heq Hb. rewrite Heq, ordered_app in Ho.
  destruct Ho as ([_ Hne] & _ & H). rewrite Forall_forall in Hne. split; [|by apply Hne].
  apply H; [done|by left].
Qed.

(** C7. [insert_interval] refines insertion into an ordered list of disjoint
    intervals: on every well-formed tree and every unlinked non-empty node it
    returns [INTERVAL_OVERLAP] and changes nothing exactly when some stored
    interval overlaps the new one, and otherwise returns [INTERVAL_SUCCESS] with a
    well-formed tree (links and parent pointers included) whose intervals are the
    old ones with the new one at its place; nodes outside the tree are untouched,
    and the loop never runs out of fuel or dereferences a bad pointer. *)
Theorem insert_interval_refines h root t x :
  iset h root t -> x ∉ inorder t -> unlinked h x -> nonempty h x ->
  match key_insert (contents (node h x)) (keys h (inorder t)) with
  | None => insert_interval h root x = Done (INTERVAL_OVERLAP, root, h)
  | Some l' =>
    exists root' h' t',
      insert_interval h root x = Done (INTERVAL_SUCCESS, root', h') /\
      iset h' root' t' /\ keys h' (inorder t') = l' /\
      (forall a, a ∈ inorder t' <-> a = x \/ a ∈ inorder t) /\
      (forall a, a ∉ x :: inorder t -> h' !! a = h !! a)
  end.
Proof.
  intros Hset Hx Hu Hne. unfold key_insert. rewrite existsb_keys.
  destruct (insert_interval_spec h root t x Hset Hx Hu Hne)
    as [[(b & Hb & Hov) ->]|(Hno & root' & h' & t' & l1 & l2 & -> & Hset' & E1 & E2 & Hst & Hfr)].
  - destruct (existsb _ _) eqn:E; [done|]. rewrite existsb_false_iff in E. by rewrite E in Hov.
  - rewrite (proj2 (existsb_false_iff _ _) Hno). exists root', h', t'.
    assert (keys h' (inorder t') = keys h (inorder t')) as Hk by (apply keys_same; auto with store).
    pose proof Hset' as [_ _ Ho']. apply (ordered_same h' h) in Ho'.
    2: { intros a _. symmetry. by apply same_store_node. }
    rewrite E2, ordered_app, ordered_cons in Ho'. destruct Ho' as (H1 & (_ & H2 & H3) & H4).
    split; [done|]. split; [done|]. split; [|split; [rewrite E1, E2; set_solver|done]].
    rewrite Hk, E1, E2. symmetry. apply key_place_split; [done| |done].
    intros b Hb. split; [apply H4; [done|by left]|].
    destruct H1 as [_ H1]. rewrite Forall_forall in H1. by apply H1.
Qed.

(** Removal in both cases: the node to free, and the tree that remains. *)
Lemma remove_interval_spec h root t a xs ys :
  iset h root t -> inorder t = xs ++ a :: ys ->
  exists s root' h' t',
    remove_interval h root a = Done (s, root', h') /\
    iset h' root' t' /\ keys h' (inorder t') = keys h xs ++ keys h ys /\
    s ∈ inorder t /\ (forall b, b ∈ inorder t' <-> b ∈ inorder t /\ b <> s) /\
    data (node h' s) = data (node h a) /\
    (forall b, b ∉ inorder t -> h' !! b = h !! b) /\ (forall b, is_Some (h' !! b) <-> is_Some (h !! b)).
Proof.
  intros Hset Heq. pose proof (ordered_NoDup _ _ (iset_ordered _ _ _ Hset)) as Hnd.
  rewrite Heq in Hnd. apply NoDup_app in Hnd as (_ & Hd & Hnd).
  destruct (decide (thin h a)) as [Hthin|Hfat].
  - destruct (remove_thin _ _ _ _ _ _ Hset Heq Hthin) as (root' & h' & t' & -> & Hset' & Hin & Hst & Hfr).
    exists a, root', h', t'. split; [done|]. split; [done|]. rewrite Hin, Heq.
    split; [rewrite (keys_same h h'), keys_app by auto with store; done|].
    split; [set_solver|]. apply NoDup_cons in Hnd as [Hna _]. split; [set_solver|]. split.
    + apply (same_store_node _ _ a) in Hst. unfold contents in Hst. naive_solver.
    + split; [by rewrite <- Heq|]. intros b. specialize (Hst b). by destruct (h' !! b), (h !! b); simplify_eq/=.
  - destruct (remove_fat _ _ _ _ _ _ Hset Heq Hfat)
      as (s & zs & root' & h' & t' & -> & -> & Hset' & Hin & Hca & Hda & Hoth & Hfr & Hsome).
    exists s, root', h', t'. split; [done|]. split; [done|].
    rewrite !NoDup_cons in Hnd. rewrite Hin. split.
    + rewrite keys_app. cbn [keys fmap list_fmap]. rewrite Hca.
      assert (forall l, a ∉ l -> s ∉ l -> keys h' l = keys h l) as Hk.
      { intros l Hal Hsl. apply keys_same. intros b Hb. apply node_contents, Hoth; congruence. }
      f_equal; [|f_equal]; apply Hk; set_solver.
    + rewrite Heq. split; [set_solver|]. split; [set_solver|]. split; [done|]. split; [by rewrite <- Heq|done].
Qed.

(** C8. [remove_interval] refines deletion: for every node [a] of a well-formed tree
    it returns the one node to free, which holds the [data] pointer of the removed
    interval; the remaining tree is well-formed, stores exactly the other intervals
    in the same order, consists of the old nodes minus the returned one, and nothing
    outside the tree is touched. *)
Theorem remove_interval_refines h root t a xs ys :
  iset h root t -> inorder t = xs ++ a :: ys ->
  exists s root' h' t',
    remove_interval h root a = Done (s, root', h') /\
    iset h' root' t' /\ keys h' (inorder t') = keys h xs ++ keys h ys /\
    s ∈ inorder t /\ (forall b, b ∈ inorder t' <-> b ∈ inorder t /\ b <> s) /\
    data (node h' s) = data (node h a) /\
    (forall b, b ∉ inorder t -> h' !! b = h !! b).
Proof.
  intros Hset Heq. destruct (remove_interval_spec h root t a xs ys Hset Heq)
    as (s & root' & h' & t' & H1 & H2 & H3 & H4 & H5 & H6 & H7 & _).
  by exists s, root', h', t'.
Qed.

(** ** Witnesses on the concrete tree *)
Lemma insert_interval_refines_witness :
  exists root' h' t',
    insert_interval Example.heap Example.root 5%positive = Done (INTERVAL_SUCCESS, root', h') /\
    iset h' root' t' /\
    keys h' (inorder t') =
      [(0, 4, Some 11%positive); (10, 19, Some 12%positive); (20, 24, Some 14%positive);
       (25, 29, None); (30, 39, Some 13%positive)].
Proof.
  assert (5%positive ∉ inorder Example.shape) as Hx by (vm_compute; set_solver).
  assert (unlinked Example.heap 5%positive) as Hu by reflexivity.
  assert (nonempty Example.heap 5%positive) as Hn by (vm_compute; congruence).
  destruct (insert_interval_refines _ _ _ 5%positive example_iset Hx Hu Hn)
    as (root' & h' & t' & H1 & H2 & H3 & _).
  exists root', h', t'. split; [exact H1|]. split; [exact H2|]. exact H3.
Defined.

Lemma remove_interval_refines_witness :
  exists s root' h' t',
    remove_interval Example.heap Example.root 2%positive = Done (s, root', h') /\
    iset h' root' t' /\
    keys h' (inorder t') =
      [(0, 4, Some 11%positive); (20, 24, Some 14%positive); (30, 39, Some 13%positive)].
Proof.
  destruct (remove_interval_refines _ _ _ 2%positive [1%positive] [4%positive; 3%positive]
              example_iset eq_refl) as (s & root' & h' & t' & H1 & H2 & H3 & _).
  exists s, root', h', t'. split; [exact H1|]. split; [exact H2|]. exact H3.
Defined.
