(* ===== verification/MaapPacket.v ===== *)
(** * MAAP packets: daemons/maap/common/maap_packet.c

    The 42-byte MAAP PDU: field record, packing, unpacking, initialisation and the
    MAC address comparison that decides who wins a conflict. *)
From S2P Require Import Prelude.
From stdpp Require Import base list numbers.
#[local] Open Scope Z_scope.

(** Constants of maap.h and maap_packet.h. *)
Definition MAAP_TYPE : Z := 0x22F0.
Definition MAAP_SUBTYPE : Z := 0xFE.
Definition MAAP_PKT_SIZE : Z := 42.
Definition MAAP_PROBE : Z := 1.
Definition MAAP_DEFEND : Z := 2.
Definition MAAP_ANNOUNCE : Z := 3.
Definition MAAP_NET_BUFFER_SIZE : Z := 64.

Record MAAP_Packet := mkPacket {
  DA : Z;                       (* uint64_t *)
  SA : Z;                       (* uint64_t *)
  Ethertype : Z;                (* uint16_t *)
  subtype : Z;                  (* uint16_t *)
  SV : Z;                       (* uint8_t *)
  version : Z;                  (* uint8_t *)
  message_type : Z;             (* uint8_t *)
  maap_version : Z;             (* uint8_t *)
  control_data_length : Z;      (* uint16_t *)
  stream_id : Z;                (* uint64_t *)
  requested_start_address : Z;  (* uint64_t *)
  requested_count : Z;          (* uint16_t *)
  conflict_start_address : Z;   (* uint64_t *)
  conflict_count : Z            (* uint16_t *)
}.

#[global] Instance MAAP_Packet_eq_dec : EqDecision MAAP_Packet.
Proof. solve_decision. Defined.

(** [tmp64 = HTOBE64(v << 16); memcpy(stream, &tmp64, 6)]: the bytes written. *)
Definition put48 (v : Z) : list Z := take 6 (be_bytes 8 (u64 (Z.shiftl v 16))).
Definition put64 (v : Z) : list Z := be_bytes 8 (u64 v).
Definition put16 (v : Z) : list Z := be_bytes 2 (u16 v).

(** [pack_maap]: the bytes written from the start of [stream]. *)
Definition pack_maap (packet : MAAP_Packet) : list Z :=
  put48 (DA packet) ++
  put48 (SA packet) ++
  put16 (Ethertype packet) ++
  [u8 (subtype packet)] ++
  [u8 (Z.lor (Z.lor (Z.shiftl (SV packet) 7)
                    (Z.shiftl (Z.land (version packet) 0x07) 4))
             (Z.land (message_type packet) 0x0f))] ++
  put16 (Z.lor (Z.shiftl (Z.land (maap_version packet) 0x001f) 11)
               (Z.land (control_data_length packet) 0x07ff)) ++
  put64 (stream_id packet) ++
  put48 (requested_start_address packet) ++
  put16 (requested_count packet) ++
  put48 (conflict_start_address packet) ++
  put16 (conflict_count packet).

(** [memcpy(&tmp, stream, n)] from a buffer with that many readable bytes left. *)
Definition fetch (n : nat) (stream : list Z) : outcome (list Z) :=
  if (n <=? length stream)%nat then Done (take n stream) else Fault OutOfBounds.

(** [memcpy(&tmp64, stream, 6); BE64TOH(tmp64) >> 16]: the two low-order bytes keep
    whatever [tmp64] held before.  Returns the value and the new [tmp64]. *)
Definition get48 (tmp64 stream : list Z) : outcome (Z * list Z) :=
  b ← fetch 6 stream;
  let tmp64' := b ++ drop 6 tmp64 in
  Done (Z.shiftr (be_val tmp64') 16, tmp64').

(** [unpack_maap]: [tmp64] is the indeterminate initial value of the local. *)
Definition unpack_maap (tmp64 : list Z) (stream : list Z) : outcome MAAP_Packet :=
  '(da, tmp64) ← get48 tmp64 stream;
  let stream := drop 6 stream in
  '(sa, tmp64) ← get48 tmp64 stream;
  let stream := drop 6 stream in
  et ← fetch 2 stream;
  let stream := drop 2 stream in
  st ← fetch 1 stream;
  let stream := drop 1 stream in
  b ← fetch 1 stream;
  let tmp8 := be_val b in
  let sv := Z.shiftr (Z.land tmp8 0x80) 7 in
  let ver := Z.shiftr (Z.land tmp8 0x70) 4 in
  let mt := Z.land tmp8 0x0f in
  let stream := drop 1 stream in
  b1 ← fetch 1 stream;
  let mv := Z.shiftr (Z.land (be_val b1) 0xf8) 3 in
  b2 ← fetch 2 stream;
  let cdl := Z.land (be_val b2) 0x07ff in
  let stream := drop 2 stream in
  tmp64 ← fetch 8 stream;
  let sid := be_val tmp64 in
  let stream := drop 8 stream in
  '(rsa, tmp64) ← get48 tmp64 stream;
  let stream := drop 6 stream in
  rc ← fetch 2 stream;
  let stream := drop 2 stream in
  '(csa, tmp64) ← get48 tmp64 stream;
  let stream := drop 6 stream in
  cc ← fetch 2 stream;
  Done (mkPacket da sa (be_val et) (be_val st) sv ver mt mv cdl sid rsa (be_val rc) csa (be_val cc)).

(** [init_packet]; the two asserts come first. *)
Definition init_packet (dest_mac src_mac : Z) : outcome MAAP_Packet :=
  _ ← c_assert (negb (dest_mac =? 0));
  _ ← c_assert (negb (src_mac =? 0));
  Done (mkPacket dest_mac src_mac MAAP_TYPE MAAP_SUBTYPE 0 0 0 1 16 0 0 0 0 0).

(** [convert_mac_address]: dereferences a [uint64_t] at [macaddr]. *)
Definition convert_mac_address (macaddr : list Z) : outcome Z :=
  b ← fetch 8 macaddr;
  Done (Z.shiftr (be_val b) 16).

(** The byte loop of [compare_mac_addresses]; [n] iterations are left. *)
Fixpoint compare_loop (n : nat) (local_mac remote_mac : Z) : Z :=
  match n with
  | O => 1
  | S n =>
    let local_byte := u8 (Z.land local_mac 0xFF) in
    let remote_byte := u8 (Z.land remote_mac 0xFF) in
    if local_byte <? remote_byte then 1
    else if local_byte >? remote_byte then 0
    else compare_loop n (Z.shiftr local_mac 8) (Z.shiftr remote_mac 8)
  end.

Definition compare_mac_addresses (local_mac remote_mac : Z) : Z :=
  compare_loop 6 local_mac remote_mac.

(** ** Packing and unpacking *)

(** The values the fields can carry on the wire. *)
Definition packet_wf (p : MAAP_Packet) : Prop :=
  0 <= DA p < 2 ^ 48 /\ 0 <= SA p < 2 ^ 48 /\ 0 <= Ethertype p < 2 ^ 16 /\
  0 <= subtype p < 2 ^ 8 /\ 0 <= SV p < 2 /\ 0 <= version p < 8 /\
  0 <= message_type p < 16 /\ 0 <= maap_version p < 32 /\
  0 <= control_data_length p < 2048 /\ 0 <= stream_id p < 2 ^ 64 /\
  0 <= requested_start_address p < 2 ^ 48 /\ 0 <= requested_count p < 2 ^ 16 /\
  0 <= conflict_start_address p < 2 ^ 48 /\ 0 <= conflict_count p < 2 ^ 16.

Lemma put48_val v : 0 <= v < 2 ^ 48 -> be_val (put48 v) = v.
Proof.
  intros Hv. unfold put48. change 8%nat with (6 + 2)%nat.
  rewrite be_bytes_app, take_app_length' by (by rewrite length_be_bytes).
  rewrite be_val_bytes, Z.shiftl_mul_pow2, Z.shiftr_div_pow2 by lia.
  change (8 * Z.of_nat 2) with 16. change (8 * Z.of_nat 6) with 48.
  rewrite u64_small by (unfold_width; lia). rewrite Z.div_mul by lia. by apply Z.mod_small.
Qed.
Lemma put64_val v : 0 <= v < 2 ^ 64 -> be_val (put64 v) = v.
Proof. intros. unfold put64. rewrite u64_small by (unfold_width; lia). by apply be_val_bytes_small. Qed.
Lemma put16_val v : 0 <= v < 2 ^ 16 -> be_val (put16 v) = v.
Proof. intros. unfold put16. rewrite u16_small by (unfold_width; lia). by apply be_val_bytes_small. Qed.

Lemma length_put48 v : length (put48 v) = 6%nat.
Proof. unfold put48. by rewrite length_take, length_be_bytes. Qed.
Lemma length_put64 v : length (put64 v) = 8%nat.
Proof. apply length_be_bytes. Qed.
Lemma length_put16 v : length (put16 v) = 2%nat.
Proof. apply length_be_bytes. Qed.
Lemma put48_bytes v : Forall is_byte (put48 v).
Proof. unfold put48. apply Forall_take, be_bytes_is_byte. Qed.
Lemma put64_bytes v : Forall is_byte (put64 v).
Proof. apply be_bytes_is_byte. Qed.
Lemma put16_bytes v : Forall is_byte (put16 v).
Proof. apply be_bytes_is_byte. Qed.

#[export] Hint Rewrite length_put48 length_put64 length_put16 : put.

Lemma fetch_app n b rest : length b = n -> fetch n (b ++ rest) = Done b.
Proof.
  intros <-. unfold fetch. rewrite (proj2 (Nat.leb_le _ _)) by (rewrite length_app; lia).
  by rewrite take_app_length.
Qed.

(** What [get48] reads does not depend on the indeterminate bytes of [tmp64]. *)
Lemma get48_app tmp b rest :
  length tmp = 8%nat -> Forall is_byte tmp -> length b = 6%nat ->
  exists tmp', get48 tmp (b ++ rest) = Done (be_val b, tmp') /\
    (Forall is_byte b -> length tmp' = 8%nat /\ Forall is_byte tmp').
Proof.
  intros Ht Hb Hl. unfold get48. rewrite fetch_app by done. obind.
  eexists. split.
  - do 2 f_equal. rewrite be_val_app, length_drop, Ht.
    assert (0 <= be_val (drop 6 tmp) < 65536) as Hr.
    { pose proof (be_val_range (drop 6 tmp) ltac:(by apply Forall_drop)) as H.
      rewrite length_drop, Ht in H. done. }
    rewrite Z.shiftr_div_pow2 by lia. change (256 ^ Z.of_nat (8 - 6)) with 65536.
    change (2 ^ 16) with 65536. rewrite Z.div_add_l by lia. rewrite Z.div_small by lia. lia.
  - intros Hb'. split; [rewrite length_app, length_drop; lia|].
    apply Forall_app. split; [done|by apply Forall_drop].
Qed.

(** The packed flag byte and length word, field by field. *)
Definition flag_byte (sv v m : Z) : Z :=
  u8 (Z.lor (Z.lor (Z.shiftl sv 7) (Z.shiftl (Z.land v 0x07) 4)) (Z.land m 0x0f)).
Definition length_word (mv cdl : Z) : Z :=
  Z.lor (Z.shiftl (Z.land mv 0x001f) 11) (Z.land cdl 0x07ff).

Lemma flag_byte_arith sv v m :
  0 <= sv < 2 -> flag_byte sv v m = sv * 128 + (v mod 8) * 16 + m mod 16.
Proof.
  intros Hs. unfold flag_byte. change (Z.land v 0x07) with (Z.land v (Z.ones 3)).
  change 0x0f with (Z.ones 4).
  rewrite !Z.land_ones by lia. rewrite <- Z.lor_assoc.
  rewrite (lor_shiftl_small (v mod 2 ^ 3)) by zdiv_lia.
  rewrite lor_shiftl_small by zdiv_lia. zdiv_lia.
Qed.

Lemma length_word_arith mv cdl : length_word mv cdl = (mv mod 32) * 2048 + cdl mod 2048.
Proof.
  unfold length_word. change 0x001f with (Z.ones 5). change 0x07ff with (Z.ones 11).
  rewrite !Z.land_ones by lia. rewrite lor_shiftl_small by zdiv_lia. done.
Qed.

Lemma mask_80 b : Z.shiftr (Z.land b 0x80) 7 = (b / 128) mod 2.
Proof. exact (mask_shift b 7 1 ltac:(lia) ltac:(lia)). Qed.
Lemma mask_70 b : Z.shiftr (Z.land b 0x70) 4 = (b / 16) mod 8.
Proof. exact (mask_shift b 4 3 ltac:(lia) ltac:(lia)). Qed.
Lemma mask_0f b : Z.land b 0x0f = b mod 16.
Proof. change 0x0f with (Z.ones 4). by rewrite Z.land_ones. Qed.
Lemma mask_f8 b : Z.shiftr (Z.land b 0xf8) 3 = (b / 8) mod 32.
Proof. exact (mask_shift b 3 5 ltac:(lia) ltac:(lia)). Qed.
Lemma mask_7ff b : Z.land b 0x07ff = b mod 2048.
Proof. change 0x07ff with (Z.ones 11). by rewrite Z.land_ones. Qed.

#[export] Hint Rewrite mask_80 mask_70 mask_0f mask_f8 mask_7ff length_word_arith : mask.

Lemma put16_split w : 0 <= w < 65536 -> put16 w = [w / 256] ++ [w mod 256].
Proof.
  intros Hw. unfold put16. rewrite u16_small by lia. cbn [be_bytes].
  rewrite !Z.shiftr_div_pow2 by lia. change (8 * Z.of_nat 1) with 8. change (8 * Z.of_nat 0) with 0.
  rewrite Z.pow_0_r, Z.div_1_r. cbn [app]. f_equal. apply u8_small. zdiv_lia.
Qed.

Lemma pack_maap_length p : length (pack_maap p) = 42%nat.
Proof. unfold pack_maap. rewrite !length_app. autorewrite with put. done. Qed.

Lemma pack_maap_bytes p : Forall is_byte (pack_maap p).
Proof.
  unfold pack_maap. rewrite !Forall_app, !Forall_singleton. unfold is_byte.
  repeat split; auto using put48_bytes, put64_bytes, put16_bytes; apply u8_range.
Qed.

(** What [unpack_maap] reads from a stream that starts with the ten fields. *)
Lemma unpack_fields tmp da sa et st fl lw sid rsa rc csa cc rest :
  length tmp = 8%nat -> Forall is_byte tmp ->
  length da = 6%nat -> length sa = 6%nat -> length et = 2%nat -> length lw = 1%nat ->
  length sid = 8%nat -> length rsa = 6%nat -> length rc = 2%nat -> length csa = 6%nat ->
  length cc = 2%nat ->
  Forall is_byte da -> Forall is_byte sa -> Forall is_byte sid -> Forall is_byte rsa ->
  forall lo,
  unpack_maap tmp (da ++ sa ++ et ++ [st] ++ [fl] ++ (lw ++ [lo]) ++ sid ++ rsa ++ rc ++ csa ++ cc ++ rest) =
  Done (mkPacket (be_val da) (be_val sa) (be_val et) st
          (Z.shiftr (Z.land fl 0x80) 7) (Z.shiftr (Z.land fl 0x70) 4) (Z.land fl 0x0f)
          (Z.shiftr (Z.land (be_val lw) 0xf8) 3) (Z.land (be_val (lw ++ [lo])) 0x07ff)
          (be_val sid) (be_val rsa) (be_val rc) (be_val csa) (be_val cc)).
Proof.
  intros Ht Hbt Hda Hsa Het Hlw Hsid Hrsa Hrc Hcsa Hcc Bda Bsa Bsid Brsa lo. unfold unpack_maap.
  destruct (get48_app tmp da (sa ++ et ++ [st] ++ [fl] ++ (lw ++ [lo]) ++ sid ++ rsa ++ rc ++ csa ++ cc ++ rest)
              Ht Hbt Hda) as (t1 & -> & H1). obind. destruct (H1 Bda) as [L1 F1].
  rewrite drop_app_length' by done.
  destruct (get48_app t1 sa (et ++ [st] ++ [fl] ++ (lw ++ [lo]) ++ sid ++ rsa ++ rc ++ csa ++ cc ++ rest)
              L1 F1 Hsa) as (t2 & -> & _). obind.
  rewrite drop_app_length', fetch_app by done. obind.
  rewrite drop_app_length' by done. rewrite (fetch_app 1 [st]) by done. obind.
  rewrite (drop_app_length' [st]) by done. rewrite (fetch_app 1 [fl]) by done. obind.
  rewrite (drop_app_length' [fl]) by done. rewrite <- (app_assoc lw), (fetch_app 1 lw) by done. obind.
  rewrite (app_assoc lw), (fetch_app 2 (lw ++ [lo])) by (rewrite length_app; simpl; lia). obind.
  rewrite (drop_app_length' (lw ++ [lo])) by (rewrite length_app; simpl; lia).
  rewrite fetch_app by done. obind. rewrite drop_app_length' by done.
  destruct (get48_app sid rsa (rc ++ csa ++ cc ++ rest) Hsid Bsid Hrsa) as (t3 & -> & H3). obind.
  destruct (H3 Brsa) as [L3 F3]. rewrite drop_app_length', fetch_app by done. obind.
  rewrite drop_app_length' by done.
  destruct (get48_app t3 csa (cc ++ rest) L3 F3 Hcsa) as (t4 & -> & _). obind.
  by rewrite drop_app_length', fetch_app by done.
Qed.

(** Unpacking what [pack_maap] wrote. *)
Lemma unpack_packed tmp p rest :
  length tmp = 8%nat -> Forall is_byte tmp -> packet_wf p ->
  unpack_maap tmp (pack_maap p ++ rest) = Done p.
Proof.
  intros Ht Hb (H1 & H2 & H3 & H4 & H5 & H6 & H7 & H8 & H9 & H10 & H11 & H12 & H13 & H14).
  unfold pack_maap. fold (flag_byte (SV p) (version p) (message_type p)).
  fold (length_word (maap_version p) (control_data_length p)). rewrite <- !app_assoc.
  assert (0 <= length_word (maap_version p) (control_data_length p) < 65536) as Hw
    by (rewrite length_word_arith; zdiv_lia).
  rewrite (put16_split (length_word _ _)) by done.
  rewrite (unpack_fields tmp (put48 (DA p)) (put48 (SA p)) (put16 (Ethertype p))
    (u8 (subtype p)) (flag_byte (SV p) (version p) (message_type p))
    [length_word (maap_version p) (control_data_length p) / 256] (put64 (stream_id p))
    (put48 (requested_start_address p)) (put16 (requested_count p))
    (put48 (conflict_start_address p)) (put16 (conflict_count p)) rest);
    auto using length_put48, length_put16, length_put64, put48_bytes, put64_bytes.
  rewrite !put48_val, !put16_val, put64_val by done.
  rewrite u8_small by (unfold_width; lia). autorewrite with mask.
  rewrite flag_byte_arith by done. unfold be_val. cbn [foldl app].
  destruct p; cbn [DA SA Ethertype subtype SV version message_type maap_version
    control_data_length stream_id requested_start_address requested_count
    conflict_start_address conflict_count] in *. do 2 f_equal; zdiv_lia.
Qed.

(** C40. Unpacking a packed packet gives the packet back, whatever follows it in the
    buffer and whatever the uninitialised local held: every field that fits its
    wire width survives the round trip. *)
Theorem unpack_pack tmp p rest :
  length tmp = 8%nat -> Forall is_byte tmp -> packet_wf p ->
  unpack_maap tmp (pack_maap p ++ rest) = Done p.
Proof. apply unpack_packed. Qed.

Lemma put48_of_val l : length l = 6%nat -> Forall is_byte l -> put48 (be_val l) = l.
Proof.
  intros Hl Hb. pose proof (be_val_range l Hb) as Hr. rewrite Hl in Hr.
  change (256 ^ Z.of_nat 6) with (2 ^ 48) in Hr.
  unfold put48. change 8%nat with (6 + 2)%nat.
  rewrite be_bytes_app, take_app_length' by (by rewrite length_be_bytes).
  change (8 * Z.of_nat 2) with 16. rewrite Z.shiftl_mul_pow2, Z.shiftr_div_pow2 by lia.
  rewrite u64_small by (unfold_width; lia). rewrite Z.div_mul by lia.
  rewrite <- Hl. by apply be_bytes_val.
Qed.
Lemma put64_of_val l : length l = 8%nat -> Forall is_byte l -> put64 (be_val l) = l.
Proof.
  intros Hl Hb. pose proof (be_val_range l Hb) as Hr. rewrite Hl in Hr.
  change (256 ^ Z.of_nat 8) with (2 ^ 64) in Hr.
  unfold put64. rewrite u64_small by (unfold_width; lia). rewrite <- Hl. by apply be_bytes_val.
Qed.
Lemma put16_of_val l : length l = 2%nat -> Forall is_byte l -> put16 (be_val l) = l.
Proof.
  intros Hl Hb. pose proof (be_val_range l Hb) as Hr. rewrite Hl in Hr.
  change (256 ^ Z.of_nat 2) with (2 ^ 16) in Hr.
  unfold put16. rewrite u16_small by (unfold_width; lia). rewrite <- Hl. by apply be_bytes_val.
Qed.

Lemma split_front {A} n (l : list A) :
  (n <= length l)%nat -> exists a b, l = a ++ b /\ length a = n.
Proof.
  intros H. exists (take n l), (drop n l). rewrite take_drop, length_take. split; [done|lia].
Qed.

(** A byte string of known length is a number of known range. *)
Ltac byte_range l Hl Hb :=
  let H := fresh "Hrange" in pose proof (be_val_range l Hb) as H; rewrite Hl in H; norm_pow256 H
with norm_pow256 H :=
  change (256 ^ Z.of_nat 6) with (2 ^ 48) in H; change (256 ^ Z.of_nat 8) with (2 ^ 64) in H;
  change (256 ^ Z.of_nat 2) with (2 ^ 16) in H.

(** Every stream of at least 42 bytes splits into the eleven fields of the PDU. *)
Lemma split_stream s :
  (42 <= length s)%nat -> Forall is_byte s ->
  exists da sa et st fl hi lo sid rsa rc csa cc rest,
    s = da ++ sa ++ et ++ [st] ++ [fl] ++ ([hi] ++ [lo]) ++ sid ++ rsa ++ rc ++ csa ++ cc ++ rest /\
    length da = 6%nat /\ length sa = 6%nat /\ length et = 2%nat /\ length sid = 8%nat /\
    length rsa = 6%nat /\ length rc = 2%nat /\ length csa = 6%nat /\ length cc = 2%nat.
Proof.
  intros Hlen _.
  destruct (split_front 6 s) as (da & s1 & -> & L1); [lia|]. rewrite length_app in Hlen.
  destruct (split_front 6 s1) as (sa & s2 & -> & L2); [lia|]. rewrite length_app in Hlen.
  destruct (split_front 2 s2) as (et & s3 & -> & L3); [lia|]. rewrite length_app in Hlen.
  destruct s3 as [|st [|fl [|hi [|lo s4]]]]; simpl in Hlen; try lia.
  destruct (split_front 8 s4) as (sid & s5 & -> & L4); [lia|]. rewrite length_app in Hlen.
  destruct (split_front 6 s5) as (rsa & s6 & -> & L5); [lia|]. rewrite length_app in Hlen.
  destruct (split_front 2 s6) as (rc & s7 & -> & L6); [lia|]. rewrite length_app in Hlen.
  destruct (split_front 6 s7) as (csa & s8 & -> & L7); [lia|]. rewrite length_app in Hlen.
  destruct (split_front 2 s8) as (cc & rest & -> & L8); [lia|].
  by exists da, sa, et, st, fl, hi, lo, sid, rsa, rc, csa, cc, rest.
Qed.

(** Unpacking any stream that is long enough. *)
Lemma unpack_stream s :
  (42 <= length s)%nat -> Forall is_byte s ->
  exists p, packet_wf p /\ pack_maap p = take 42 s /\
    forall tmp, length tmp = 8%nat -> Forall is_byte tmp -> unpack_maap tmp s = Done p.
Proof.
  intros Hlen Hb. destruct (split_stream s Hlen Hb)
    as (da & sa & et & st & fl & hi & lo & sid & rsa & rc & csa & cc & rest & -> & L1 & L2 & L3 & L4 & L5 & L6 & L7 & L8).
  rewrite !Forall_app, !Forall_singleton in Hb.
  destruct Hb as (B1 & B2 & B3 & Bst & Bfl & [Bhi Blo] & B4 & B5 & B6 & B7 & B8 & _).
  byte_range da L1 B1. byte_range sa L2 B2. byte_range et L3 B3. byte_range sid L4 B4.
  byte_range rsa L5 B5. byte_range rc L6 B6. byte_range csa L7 B7. byte_range cc L8 B8.
  unfold is_byte in Bst, Bfl, Bhi, Blo.
  eexists. split; [|split].
  3: { intros tmp Ht Htb. by rewrite (unpack_fields tmp da sa et st fl [hi] sid rsa rc csa cc rest). }
  - unfold packet_wf. cbn [DA SA Ethertype subtype SV version message_type maap_version
      control_data_length stream_id requested_start_address requested_count
      conflict_start_address conflict_count]. autorewrite with mask.
    repeat split; try lia; zdiv_lia.
  - unfold pack_maap. cbn [DA SA Ethertype subtype SV version message_type maap_version
      control_data_length stream_id requested_start_address requested_count
      conflict_start_address conflict_count].
    rewrite !put48_of_val, put64_of_val, (put16_of_val et), (put16_of_val rc), (put16_of_val cc) by done.
    fold (flag_byte (Z.shiftr (Z.land fl 0x80) 7) (Z.shiftr (Z.land fl 0x70) 4) (Z.land fl 0x0f)).
    fold (length_word (Z.shiftr (Z.land (be_val [hi]) 0xf8) 3) (Z.land (be_val ([hi] ++ [lo])) 0x07ff)).
    rewrite u8_small by lia. rewrite flag_byte_arith by (autorewrite with mask; zdiv_lia).
    rewrite put16_split by (autorewrite with mask; zdiv_lia). autorewrite with mask.
    unfold be_val at 1 2 3 4. cbn [app foldl].
    replace ((fl / 128) mod 2 * 128 + ((fl / 16) mod 8) mod 8 * 16 + fl mod 16 mod 16) with fl by zdiv_lia.
    match goal with |- context [?a :: ?b :: sid ++ _] => replace a with hi by zdiv_lia; replace b with lo by zdiv_lia end.
    transitivity (take 42 ((da ++ sa ++ et ++ [st; fl; hi; lo] ++ sid ++ rsa ++ rc ++ csa ++ cc) ++ rest)).
    + rewrite take_app_length'; [done|]. rewrite !length_app. simpl. lia.
    + f_equal. by rewrite <- !app_assoc.
Qed.

(** [unpack_maap] accepts every stream of at least 42 bytes without reading
    outside it, yields a packet whose fields fit their wire widths, does not depend
    on the uninitialised local, and packing the result restores the first 42 bytes:
    no bit of the PDU is lost. *)
Theorem pack_unpack s :
  (42 <= length s)%nat -> Forall is_byte s ->
  exists p, packet_wf p /\ pack_maap p = take 42 s /\
    forall tmp, length tmp = 8%nat -> Forall is_byte tmp -> unpack_maap tmp s = Done p.
Proof. apply unpack_stream. Qed.

(** ** Comparing MAC addresses *)

(** The order in which the bytes are compared, least significant first. *)
Fixpoint lsb_key (n : nat) (x : Z) : Z :=
  match n with O => 0 | S n => u8 x * 256 ^ Z.of_nat n + lsb_key n (Z.shiftr x 8) end.

Lemma lsb_key_range n x : 0 <= lsb_key n x < 256 ^ Z.of_nat n.
Proof.
  revert x. induction n as [|n IH]; intros x; [simpl; lia|]. cbn [lsb_key].
  specialize (IH (Z.shiftr x 8)). pose proof (u8_range x).
  rewrite Nat2Z.inj_succ, Z.pow_succ_r by lia. nia.
Qed.

Lemma compare_loop_key n l r :
  compare_loop n l r = if lsb_key n l <=? lsb_key n r then 1 else 0.
Proof.
  revert l r. induction n as [|n IH]; intros l r; [done|]. cbn [compare_loop lsb_key].
  assert (forall x, u8 (Z.land x 0xFF) = u8 x) as Hb.
  { intros x. change 0xFF with (Z.ones 8). rewrite Z.land_ones by lia. zdiv_lia. }
  rewrite !Hb, IH. pose proof (lsb_key_range n (Z.shiftr l 8)). pose proof (lsb_key_range n (Z.shiftr r 8)).
  set (kl := lsb_key n (Z.shiftr l 8)) in *. set (kr := lsb_key n (Z.shiftr r 8)) in *.
  rewrite Z.gtb_ltb. destruct (Z.ltb_spec (u8 l) (u8 r)); [|destruct (Z.ltb_spec (u8 r) (u8 l))].
  - rewrite (proj2 (Z.leb_le _ _)); [done|nia].
  - rewrite (proj2 (Z.leb_gt _ _)); [done|nia].
  - replace (u8 r) with (u8 l) by lia. destruct (Z.leb_spec kl kr);
      [rewrite (proj2 (Z.leb_le _ _)) by lia | rewrite (proj2 (Z.leb_gt _ _)) by lia]; done.
Qed.

Lemma lsb_key_inj n x y :
  0 <= x < 256 ^ Z.of_nat n -> 0 <= y < 256 ^ Z.of_nat n -> lsb_key n x = lsb_key n y -> x = y.
Proof.
  revert x y. induction n as [|n IH]; intros x y Hx Hy Heq; [simpl in *; lia|].
  cbn [lsb_key] in Heq. rewrite Nat2Z.inj_succ, Z.pow_succ_r in Hx, Hy by lia.
  pose proof (lsb_key_range n (Z.shiftr x 8)). pose proof (lsb_key_range n (Z.shiftr y 8)).
  assert (u8 x = u8 y) as Hu by nia.
  assert (Z.shiftr x 8 = Z.shiftr y 8) as Hs.
  { rewrite !Z.shiftr_div_pow2 in * by lia. change (2 ^ 8) with 256 in *. apply IH.
    - split; [apply Z.div_pos; lia|apply Z.div_lt_upper_bound; lia].
    - split; [apply Z.div_pos; lia|apply Z.div_lt_upper_bound; lia].
    - nia. }
  rewrite !Z.shiftr_div_pow2 in Hs by lia. zdiv_lia.
Qed.

(** Every station loses to the address the yield command uses. *)
Lemma compare_mac_yield a :
  0 < a < 2 ^ 48 -> a <> 0x010000000000 -> compare_mac_addresses a 0x010000000000 = 0.
Proof.
  intros Ha Hne. unfold compare_mac_addresses. rewrite compare_loop_key.
  change (lsb_key 6 0x010000000000) with 1. destruct (Z.leb_spec (lsb_key 6 a) 1) as [H|H]; [|done].
  pose proof (lsb_key_range 6 a) as Hr. exfalso.
  assert (lsb_key 6 a = lsb_key 6 0 \/ lsb_key 6 a = lsb_key 6 0x010000000000) as [E|E].
  { change (lsb_key 6 0) with 0. change (lsb_key 6 0x010000000000) with 1. lia. }
  - apply (lsb_key_inj 6) in E; change (256 ^ Z.of_nat 6) with (2 ^ 48) in *; lia.
  - apply (lsb_key_inj 6) in E; change (256 ^ Z.of_nat 6) with (2 ^ 48) in *; lia.
Qed.

(** In a conflict between two stations exactly one side wins: for distinct
    48-bit addresses [compare_mac_addresses] returns 1 in exactly one of the two
    directions, and it returns 1 when a station meets its own address. *)
Theorem compare_mac_one_winner a b :
  0 <= a < 2 ^ 48 -> 0 <= b < 2 ^ 48 ->
  (a <> b -> compare_mac_addresses a b + compare_mac_addresses b a = 1) /\
  (a = b -> compare_mac_addresses a b = 1).
Proof.
  intros Ha Hb. unfold compare_mac_addresses. rewrite !compare_loop_key. split.
  - intros Hne. assert (lsb_key 6 a <> lsb_key 6 b) by (intros H; apply Hne; by eapply (lsb_key_inj 6)).
    destruct (Z.leb_spec (lsb_key 6 a) (lsb_key 6 b)), (Z.leb_spec (lsb_key 6 b) (lsb_key 6 a)); lia.
  - intros ->. by rewrite Z.leb_refl.
Qed.

(** [convert_mac_address] needs eight readable bytes: on the six-byte arrays the
    daemon passes it reads past their end; on a longer buffer it returns the number
    of the first six bytes. *)
Theorem convert_mac_address_bounds macaddr :
  Forall is_byte macaddr ->
  ((length macaddr < 8)%nat -> convert_mac_address macaddr = Fault OutOfBounds) /\
  ((8 <= length macaddr)%nat -> convert_mac_address macaddr = Done (be_val (take 6 macaddr))).
Proof.
  intros Hb. unfold convert_mac_address, fetch. split; intros Hl.
  - by rewrite (proj2 (Nat.leb_gt _ _)).
  - rewrite (proj2 (Nat.leb_le _ _)) by done. obind. f_equal.
    rewrite <- (take_drop 6 (take 8 macaddr)), take_take, be_val_app.
    replace (6 `min` 8)%nat with 6%nat by lia.
    assert (length (drop 6 (take 8 macaddr)) = 2%nat) as Hl2
      by (rewrite length_drop, length_take; lia).
    pose proof (be_val_range (drop 6 (take 8 macaddr)) ltac:(by apply Forall_drop, Forall_take)) as Hr.
    rewrite Hl2 in *. change (256 ^ Z.of_nat 2) with 65536 in *.
    rewrite Z.shiftr_div_pow2 by lia. change (2 ^ 16) with 65536.
    rewrite Z.div_add_l, Z.div_small by lia. lia.
Qed.

(** ** Witnesses *)
Module PacketExample.
Definition packet : MAAP_Packet :=
    mkPacket 0x91E0F000FF00 0x001122334455 MAAP_TYPE MAAP_SUBTYPE 0 0 MAAP_DEFEND 1 16 0
      0x91E0F0000010 8 0x91E0F0000012 4.
Definition junk : list Z := replicate 8 0xA5.
End PacketExample.

Lemma example_packet_wf : packet_wf PacketExample.packet.
Proof. vm_compute. repeat split; congruence. Qed.

Lemma unpack_pack_witness :
  unpack_maap PacketExample.junk (pack_maap PacketExample.packet ++ replicate 22 0) =
    Done PacketExample.packet.
Proof.
  apply unpack_pack; [reflexivity| |exact example_packet_wf].
  repeat constructor; vm_compute; congruence.
Defined.

Lemma pack_unpack_witness :
  exists p, packet_wf p /\ pack_maap p = replicate 42 0x5A /\
    unpack_maap PacketExample.junk (replicate 42 0x5A) = Done p.
Proof.
  destruct (pack_unpack (replicate 42 0x5A)) as (p & H1 & H2 & H3).
  - vm_compute. repeat constructor.
  - repeat constructor; vm_compute; congruence.
  - exists p. split; [exact H1|]. split; [exact H2|]. apply H3; [reflexivity|].
    repeat constructor; vm_compute; congruence.
Defined.

Lemma compare_mac_one_winner_witness :
  compare_mac_addresses 0x001122334455 0x001122334456 +
  compare_mac_addresses 0x001122334456 0x001122334455 = 1.
Proof.
  destruct (compare_mac_one_winner 0x001122334455 0x001122334456) as [H _];
    [split; vm_compute; congruence|split; vm_compute; congruence|].
  apply H. congruence.
Defined.

Lemma convert_mac_address_bounds_witness :
  convert_mac_address [0x91; 0xE0; 0xF0; 0x00; 0xFF; 0x00] = Fault OutOfBounds.
Proof.
  apply (convert_mac_address_bounds [0x91; 0xE0; 0xF0; 0x00; 0xFF; 0x00]).
  - repeat constructor; vm_compute; congruence.
  - vm_compute. repeat constructor.
Defined.
