(* ===== verification/MaapTime.v ===== *)
(** * Times: daemons/maap/linux/src/maap_timer_linux.c

    The arithmetic on [struct timespec] values, and the one-shot POSIX timer the
    daemon waits on.  The kernel's part of the timer calls is written out as POSIX
    documents it: [timer_settime] refuses a [tv_nsec] outside [0, 999999999] and
    keeps the old setting, a zero time disarms, [timer_gettime] reports the time left
    or zero. *)
From S2P Require Import Prelude.
From stdpp Require Import base list numbers.
#[local] Open Scope Z_scope.

Record Time := mkTime { tv_sec : Z; tv_nsec : Z }.

#[global] Instance Time_eq_dec : EqDecision Time.
Proof. solve_decision. Defined.

Definition Time_add (a b : Time) : Time :=
  let s := tv_sec a + tv_sec b in
  let n := tv_nsec a + tv_nsec b in
  if n >? 1000000000 then mkTime (s + 1) (n - 1000000000) else mkTime s n.

Definition Time_diff (a b : Time) : Z :=
  let a_ns := tv_sec a * 1000000000 + tv_nsec a in
  let b_ns := tv_sec b * 1000000000 + tv_nsec b in
  b_ns - a_ns.

Definition Time_cmp (a b : Time) : Z :=
  if tv_sec a <? tv_sec b then -1
  else if tv_sec a >? tv_sec b then 1
  else if tv_nsec a <? tv_nsec b then -1
  else if tv_nsec a >? tv_nsec b then 1
  else 0.

Definition Time_passed (current target : Time) : bool :=
  if tv_sec current <? tv_sec target then false
  else if (tv_sec current =? tv_sec target) && (tv_nsec current <? tv_nsec target) then false
  else true.

Definition Time_setFromNanos (nsec : Z) : Time :=
  let s := nsec / 1000000000 in mkTime s (nsec - s * 1000000000).

(** ** The timer *)
Record Timer := mkTimer {
  timer_id_ok : bool;        (* false: [timer_create] failed and [timer_id] is -1 *)
  expiry : option Time       (* the armed absolute time, if any *)
}.

(** [Time_newTimer]: [mem] and [created] are the results of [malloc] and [timer_create]. *)
Definition Time_newTimer (mem created : bool) : option Timer :=
  if mem then Some (mkTimer created None) else None.

Definition Time_setTimer (timer : Timer) (t : Time) : Timer :=
  if timer_id_ok timer && (0 <=? tv_nsec t) && (tv_nsec t <=? 999999999) then
    mkTimer true (if decide (t = mkTime 0 0) then None else Some t)
  else timer.

(** [now] is the time at which the kernel answers. *)
Definition Time_remaining (now : Time) (timer : Timer) : Z :=
  if timer_id_ok timer then
    match expiry timer with
    | None => 0
    | Some e => if Time_passed now e then 0 else Time_diff now e
    end
  else -1.

(** ** Meaning *)
Definition nanos (t : Time) : Z := tv_sec t * 1000000000 + tv_nsec t.
Definition normalized (t : Time) : Prop := 0 <= tv_nsec t < 1000000000.

(** A weaker range that [Time_add] does keep. *)
Definition nsec_ok (t : Time) : Prop := 0 <= tv_nsec t <= 1000000000.

Lemma Time_cmp_refl a : Time_cmp a a = 0.
Proof. unfold Time_cmp. by rewrite !Z.gtb_ltb, !Z.ltb_irrefl. Qed.

(** [Time_cmp] is the lexicographic order. *)
Definition time_le (a b : Time) : Prop :=
  tv_sec a < tv_sec b \/ (tv_sec a = tv_sec b /\ tv_nsec a <= tv_nsec b).

Lemma Time_cmp_le a b : Time_cmp a b <= 0 <-> time_le a b.
Proof.
  unfold Time_cmp, time_le. rewrite !Z.gtb_ltb.
  destruct (Z.ltb_spec (tv_sec a) (tv_sec b)), (Z.ltb_spec (tv_sec b) (tv_sec a)),
    (Z.ltb_spec (tv_nsec a) (tv_nsec b)), (Z.ltb_spec (tv_nsec b) (tv_nsec a)); lia.
Qed.
Lemma Time_cmp_lt a b : Time_cmp a b < 0 <-> ~ time_le b a.
Proof.
  unfold Time_cmp, time_le. rewrite !Z.gtb_ltb.
  destruct (Z.ltb_spec (tv_sec a) (tv_sec b)), (Z.ltb_spec (tv_sec b) (tv_sec a)),
    (Z.ltb_spec (tv_nsec a) (tv_nsec b)), (Z.ltb_spec (tv_nsec b) (tv_nsec a)); lia.
Qed.
Lemma Time_passed_le c t : Time_passed c t = true <-> time_le t c.
Proof.
  unfold Time_passed, time_le.
  destruct (Z.ltb_spec (tv_sec c) (tv_sec t)), (Z.eqb_spec (tv_sec c) (tv_sec t)),
    (Z.ltb_spec (tv_nsec c) (tv_nsec t)); simpl; split; intros; (discriminate || lia || reflexivity).
Qed.

#[global] Instance time_le_dec a b : Decision (time_le a b).
Proof. unfold time_le. apply _. Defined.
#[global] Instance time_le_refl : Reflexive time_le.
Proof. intros a. unfold time_le. lia. Qed.
#[global] Instance time_le_trans : Transitive time_le.
Proof. intros a b c. unfold time_le. lia. Qed.
#[global] Instance time_le_total : Total time_le.
Proof. intros a b. unfold time_le. lia. Qed.

(** [Time_add] of two normalised times denotes the sum of their nanosecond
    counts; the result is again normalised exactly when the nanosecond parts do not
    sum to one second: in that case the code leaves [tv_nsec = 1000000000]. *)
Theorem Time_add_nanos a b :
  normalized a -> normalized b ->
  nanos (Time_add a b) = nanos a + nanos b /\
  (normalized (Time_add a b) <-> tv_nsec a + tv_nsec b <> 1000000000) /\
  (tv_nsec a + tv_nsec b = 1000000000 -> tv_nsec (Time_add a b) = 1000000000).
Proof.
  unfold normalized, nanos, Time_add. rewrite Z.gtb_ltb.
  destruct (Z.ltb_spec 1000000000 (tv_nsec a + tv_nsec b)); simpl; lia.
Qed.

(** On normalised times [Time_cmp], [Time_passed] and [Time_diff] agree with the
    nanosecond counts, and [Time_setFromNanos] is the normalised time of a count. *)
Theorem Time_order_nanos a b n :
  normalized a -> normalized b -> 0 <= n ->
  Time_cmp a b = (match nanos a ?= nanos b with Lt => -1 | Eq => 0 | Gt => 1 end) /\
  (Time_passed a b = true <-> nanos b <= nanos a) /\
  Time_diff a b = nanos b - nanos a /\
  normalized (Time_setFromNanos n) /\ nanos (Time_setFromNanos n) = n.
Proof.
  intros Ha Hb Hn. split; [|split; [|split; [done|]]].
  - unfold Time_cmp, nanos, normalized in *. rewrite !Z.gtb_ltb.
    destruct (Z.compare_spec (tv_sec a * 1000000000 + tv_nsec a) (tv_sec b * 1000000000 + tv_nsec b)),
      (Z.ltb_spec (tv_sec a) (tv_sec b)), (Z.ltb_spec (tv_sec b) (tv_sec a)),
      (Z.ltb_spec (tv_nsec a) (tv_nsec b)), (Z.ltb_spec (tv_nsec b) (tv_nsec a)); lia.
  - rewrite Time_passed_le. unfold time_le, nanos, normalized in *. lia.
  - unfold normalized, nanos, Time_setFromNanos. simpl. zdiv_lia.
Qed.

Lemma Time_add_nanos_witness :
  let a := mkTime 5 999999999 in let b := mkTime 0 1 in
  nanos (Time_add a b) = nanos a + nanos b /\ tv_nsec (Time_add a b) = 1000000000.
Proof.
  intros a b. destruct (Time_add_nanos a b) as (H1 & _ & H3).
  - split; vm_compute; congruence.
  - split; vm_compute; congruence.
  - split; [exact H1|]. apply H3. reflexivity.
Defined.

Lemma Time_order_nanos_witness :
  Time_passed (mkTime 7 0) (mkTime 6 999999999) = true /\
  nanos (Time_setFromNanos 31500000000) = 31500000000.
Proof.
  destruct (Time_order_nanos (mkTime 7 0) (mkTime 6 999999999) 31500000000)
    as (_ & H2 & _ & _ & H5).
  - split; vm_compute; congruence.
  - split; vm_compute; congruence.
  - vm_compute; congruence.
  - split; [apply H2; vm_compute; congruence|exact H5].
Defined.
