(* ===== verification/MaapNet.v ===== *)
(** * Packet buffers: daemons/maap/common/maap_net.c

    Four preallocated buffers and a linked list of overflow buffers, each in one of
    four states.  A buffer is named by its index in the array or by the address of
    its list node. *)
From S2P Require Import Prelude.
From stdpp Require Import base gmap list numbers.
#[local] Open Scope Z_scope.

Inductive Buffer_State := BUFFER_FREE | BUFFER_SUPPLIED | BUFFER_QUEUED | BUFFER_SENDING.

#[global] Instance Buffer_State_eq_dec : EqDecision Buffer_State.
Proof. solve_decision. Defined.

Record maap_buffer := mkBuffer { buffer : list Z; bstate : Buffer_State }.

Definition set_bstate (s : Buffer_State) (b : maap_buffer) : maap_buffer := mkBuffer (buffer b) s.

(** [struct maap_net]; the overflow list keeps the address of each node. *)
Record maap_net := mkNet { net_buffer : list maap_buffer; pFirst : list (positive * maap_buffer) }.

(** A [void *] into one of the buffers. *)
Inductive bufptr := PreBuf (i : nat) | OvfBuf (a : positive).

#[global] Instance bufptr_eq_dec : EqDecision bufptr.
Proof. solve_decision. Defined.

Definition NUM_BUFFERS : nat := 4.

(** A buffer cleared by [memset]; MAAP_NET_BUFFER_SIZE is 64. *)
Definition zero_buffer (s : Buffer_State) : maap_buffer := mkBuffer (replicate 64 0) s.

(** [Net_newNet]: [ok] says whether [malloc] succeeded. *)
Definition Net_newNet (ok : bool) : option maap_net :=
  if ok then Some (mkNet (replicate NUM_BUFFERS (zero_buffer BUFFER_FREE)) []) else None.

(** The scans of the two containers: the first buffer in state [from] is moved to
    state [to]. *)
Fixpoint claim_pre (from to : Buffer_State) (i : nat) (l : list maap_buffer)
  : option (nat * list maap_buffer) :=
  match l with
  | [] => None
  | b :: l' =>
    if decide (bstate b = from) then Some (i, set_bstate to b :: l')
    else match claim_pre from to (S i) l' with
         | Some (j, l'') => Some (j, b :: l'')
         | None => None
         end
  end.

Fixpoint claim_ovf (from to : Buffer_State) (l : list (positive * maap_buffer))
  : option (positive * list (positive * maap_buffer)) :=
  match l with
  | [] => None
  | (a, b) :: l' =>
    if decide (bstate b = from) then Some (a, (a, set_bstate to b) :: l')
    else match claim_ovf from to l' with
         | Some (c, l'') => Some (c, (a, b) :: l'')
         | None => None
         end
  end.

(** [Net_getPacketBuffer]: [p] is what [malloc] returns for an overflow buffer. *)
Definition Net_getPacketBuffer (net : maap_net) (p : option positive) : outcome (bufptr * maap_net) :=
  match claim_pre BUFFER_FREE BUFFER_SUPPLIED 0 (net_buffer net) with
  | Some (i, l) => Done (PreBuf i, mkNet l (pFirst net))
  | None =>
    match p with
    | Some a => Done (OvfBuf a, mkNet (net_buffer net) (pFirst net ++ [(a, zero_buffer BUFFER_SUPPLIED)]))
    | None => Fault AssertFail
    end
  end.

(** Walking the overflow list for the node that holds [a]. *)
Fixpoint find_ovf (a : positive) (l : list (positive * maap_buffer)) : option maap_buffer :=
  match l with
  | [] => None
  | (c, b) :: l' => if decide (c = a) then Some b else find_ovf a l'
  end.
Fixpoint update_ovf (a : positive) (f : maap_buffer -> maap_buffer) (l : list (positive * maap_buffer)) :=
  match l with
  | [] => []
  | (c, b) :: l' => if decide (c = a) then (c, f b) :: l' else (c, b) :: update_ovf a f l'
  end.
Fixpoint remove_ovf (a : positive) (l : list (positive * maap_buffer)) :=
  match l with
  | [] => []
  | (c, b) :: l' => if decide (c = a) then l' else (c, b) :: remove_ovf a l'
  end.

Definition Net_queuePacket (net : maap_net) (buf : bufptr) : outcome (Z * maap_net) :=
  match buf with
  | PreBuf i =>
    b ← or_fault AssertFail (net_buffer net !! i);
    _ ← c_assert (bool_decide (bstate b = BUFFER_SUPPLIED));
    Done (0, mkNet (<[i := set_bstate BUFFER_QUEUED b]> (net_buffer net)) (pFirst net))
  | OvfBuf a =>
    b ← or_fault AssertFail (find_ovf a (pFirst net));
    _ ← c_assert (bool_decide (bstate b = BUFFER_SUPPLIED));
    Done (0, mkNet (net_buffer net) (update_ovf a (set_bstate BUFFER_QUEUED) (pFirst net)))
  end.

Definition Net_getNextQueuedPacket (net : maap_net) : option bufptr * maap_net :=
  match claim_pre BUFFER_QUEUED BUFFER_SENDING 0 (net_buffer net) with
  | Some (i, l) => (Some (PreBuf i), mkNet l (pFirst net))
  | None =>
    match claim_ovf BUFFER_QUEUED BUFFER_SENDING (pFirst net) with
    | Some (a, l) => (Some (OvfBuf a), mkNet (net_buffer net) l)
    | None => (None, net)
    end
  end.

Definition Net_freeQueuedPacket (net : maap_net) (buf : bufptr) : outcome (Z * maap_net) :=
  match buf with
  | PreBuf i =>
    b ← or_fault AssertFail (net_buffer net !! i);
    _ ← c_assert (bool_decide (bstate b = BUFFER_SENDING));
    Done (0, mkNet (<[i := set_bstate BUFFER_FREE b]> (net_buffer net)) (pFirst net))
  | OvfBuf a =>
    b ← or_fault AssertFail (find_ovf a (pFirst net));
    _ ← c_assert (bool_decide (bstate b = BUFFER_SENDING));
    Done (0, mkNet (net_buffer net) (remove_ovf a (pFirst net)))
  end.

(** Reading and writing the bytes a [bufptr] points to (writes start at offset 0). *)
Definition buf_read (net : maap_net) (buf : bufptr) : option (list Z) :=
  match buf with
  | PreBuf i => buffer <$> net_buffer net !! i
  | OvfBuf a => buffer <$> find_ovf a (pFirst net)
  end.
Definition overwrite (bytes : list Z) (b : maap_buffer) : maap_buffer :=
  mkBuffer (bytes ++ drop (length bytes) (buffer b)) (bstate b).
Definition buf_write (net : maap_net) (buf : bufptr) (bytes : list Z) : maap_net :=
  match buf with
  | PreBuf i => mkNet (alter (overwrite bytes) i (net_buffer net)) (pFirst net)
  | OvfBuf a => mkNet (net_buffer net) (update_ovf a (overwrite bytes) (pFirst net))
  end.

(** ** Invariant and abstraction *)

(** Every buffer, in the order the scans visit them. *)
Definition buffers (net : maap_net) : list maap_buffer := net_buffer net ++ (snd <$> pFirst net).

(** The packets waiting to be sent. *)
Definition queued (net : maap_net) : list (list Z) :=
  buffer <$> base.filter (fun b => bstate b = BUFFER_QUEUED) (buffers net).

Record net_wf (net : maap_net) : Prop := mkNetWf {
  net_len : length (net_buffer net) = NUM_BUFFERS;
  net_addrs : NoDup (pFirst net).*1;
  net_sizes : Forall (fun b => length (buffer b) = 64%nat) (buffers net);
  net_ovf_busy : Forall (fun ab => bstate ab.2 <> BUFFER_FREE) (pFirst net)
}.

Definition queued_bufs (l : list maap_buffer) : list (list Z) :=
  buffer <$> base.filter (fun b => bstate b = BUFFER_QUEUED) l.

Lemma queued_bufs_app l1 l2 : queued_bufs (l1 ++ l2) = queued_bufs l1 ++ queued_bufs l2.
Proof. unfold queued_bufs. by rewrite list.filter_app, fmap_app. Qed.
Lemma queued_bufs_cons b l :
  queued_bufs (b :: l) = (if decide (bstate b = BUFFER_QUEUED) then [buffer b] else []) ++ queued_bufs l.
Proof. unfold queued_bufs. rewrite list.filter_cons. by case_decide. Qed.
Lemma queued_split net :
  queued net = queued_bufs (net_buffer net) ++ queued_bufs (snd <$> pFirst net).
Proof. apply queued_bufs_app. Qed.

(** ** The scans *)
Lemma claim_pre_Some from to l : forall i j l',
  claim_pre from to i l = Some (j, l') ->
  exists l1 b l2, l = l1 ++ b :: l2 /\ l' = l1 ++ set_bstate to b :: l2 /\
    j = (i + length l1)%nat /\ bstate b = from /\ Forall (fun b => bstate b <> from) l1.
Proof.
  induction l as [|b l IH]; intros i j l' H; [done|]. simpl in H. case_decide as Hd.
  - simplify_eq. exists [], b, l. repeat split; [simpl; lia|constructor].
  - destruct (claim_pre from to (S i) l) as [[k l'']|] eqn:E; [|done]. simplify_eq.
    apply IH in E as (l1 & b' & l2 & -> & -> & -> & Hb & Hl). exists (b :: l1), b', l2.
    repeat split; [simpl; lia|done|by constructor].
Qed.
Lemma claim_pre_None from to l : forall i,
  claim_pre from to i l = None -> Forall (fun b => bstate b <> from) l.
Proof.
  induction l as [|b l IH]; intros i H; [constructor|]. simpl in H. case_decide; [done|].
  destruct (claim_pre from to (S i) l) as [[]|] eqn:E; [done|]. constructor; [done|by eapply IH].
Qed.
Lemma claim_ovf_Some from to l : forall a l',
  claim_ovf from to l = Some (a, l') ->
  exists l1 b l2, l = l1 ++ (a, b) :: l2 /\ l' = l1 ++ (a, set_bstate to b) :: l2 /\
    bstate b = from /\ Forall (fun ab => bstate ab.2 <> from) l1.
Proof.
  induction l as [|[c b] l IH]; intros a l' H; [done|]. simpl in H. case_decide as Hd.
  - simplify_eq. exists [], b, l. repeat split; constructor.
  - destruct (claim_ovf from to l) as [[k l'']|] eqn:E; [|done]. simplify_eq.
    destruct (IH _ _ eq_refl) as (l1 & b' & l2 & -> & -> & Hb & Hl). exists ((c, b) :: l1), b', l2.
    repeat split; [done|by constructor].
Qed.
Lemma claim_ovf_None from to l :
  claim_ovf from to l = None -> Forall (fun ab => bstate ab.2 <> from) l.
Proof.
  induction l as [|[c b] l IH]; intros H; [constructor|]. simpl in H. case_decide; [done|].
  destruct (claim_ovf from to l) as [[]|] eqn:E; [done|]. constructor; [done|by apply IH].
Qed.

Lemma ovf_split a b l1 l2 :
  a ∉ l1.*1 ->
  find_ovf a (l1 ++ (a, b) :: l2) = Some b /\
  (forall f, update_ovf a f (l1 ++ (a, b) :: l2) = l1 ++ (a, f b) :: l2) /\
  remove_ovf a (l1 ++ (a, b) :: l2) = l1 ++ l2.
Proof.
  induction l1 as [|[c d] l1 IH]; intros H; simpl.
  - by destruct (decide (a = a)).
  - assert (c <> a) by set_solver. destruct (decide (c = a)); [done|].
    destruct IH as (-> & IH2 & ->); [set_solver|]. split; [done|]. split; [|done].
    intros f. by rewrite IH2.
Qed.

Lemma pre_split (b : maap_buffer) l1 l2 :
  (l1 ++ b :: l2) !! length l1 = Some b /\
  (forall c, <[length l1 := c]> (l1 ++ b :: l2) = l1 ++ c :: l2) /\
  (forall f, alter f (length l1) (l1 ++ b :: l2) = l1 ++ f b :: l2).
Proof.
  split; [by apply list_lookup_middle|]. split.
  - intros c. rewrite <- (Nat.add_0_r (length l1)). by rewrite insert_app_r.
  - intros f. rewrite <- (Nat.add_0_r (length l1)). by rewrite alter_app_r.
Qed.

(** What [net_wf] asks of one container after a buffer changed. *)
Lemma sizes_update (b c : maap_buffer) l1 l2 :
  Forall (fun b => length (buffer b) = 64%nat) (l1 ++ b :: l2) ->
  length (buffer c) = 64%nat ->
  Forall (fun b => length (buffer b) = 64%nat) (l1 ++ c :: l2).
Proof. intros [? [? ?]%Forall_cons_1]%Forall_app ?. apply Forall_app. by repeat constructor. Qed.

Lemma overwrite_size bytes b :
  length (buffer b) = 64%nat -> (length bytes <= 64)%nat -> length (buffer (overwrite bytes b)) = 64%nat.
Proof. intros. simpl. rewrite length_app, length_drop. lia. Qed.

Lemma buffers_pre l1 b l2 ovf : buffers (mkNet (l1 ++ b :: l2) ovf) = l1 ++ b :: l2 ++ (snd <$> ovf).
Proof. unfold buffers. simpl. by rewrite <- app_assoc. Qed.
Lemma buffers_ovf pre l1 a b l2 :
  buffers (mkNet pre (l1 ++ (a, b) :: l2)) = (pre ++ (snd <$> l1)) ++ b :: (snd <$> l2).
Proof. unfold buffers. simpl. by rewrite fmap_app, app_assoc. Qed.

(** Changing one buffer keeps the invariant. *)
Lemma net_wf_pre l1 b c l2 ovf :
  net_wf (mkNet (l1 ++ b :: l2) ovf) -> length (buffer c) = 64%nat -> net_wf (mkNet (l1 ++ c :: l2) ovf).
Proof.
  intros [Hl Ha Hs Ho] Hc. constructor; simpl in *; try done.
  - rewrite length_app in *. done.
  - rewrite buffers_pre in *. by eapply sizes_update.
Qed.
Lemma net_wf_ovf pre l1 a b c l2 :
  net_wf (mkNet pre (l1 ++ (a, b) :: l2)) -> length (buffer c) = 64%nat -> bstate c <> BUFFER_FREE ->
  net_wf (mkNet pre (l1 ++ (a, c) :: l2)).
Proof.
  intros [Hl Ha Hs Ho] Hc Hb. constructor; simpl in *; try done.
  - rewrite fmap_app in *. done.
  - rewrite buffers_ovf in *. by eapply sizes_update.
  - rewrite !Forall_app, !Forall_cons_iff in *. naive_solver.
Qed.

(** The queued packets of a net where one buffer is singled out. *)
Lemma queued_pre l1 b l2 ovf :
  queued (mkNet (l1 ++ b :: l2) ovf) =
  queued_bufs l1 ++ (if decide (bstate b = BUFFER_QUEUED) then [buffer b] else []) ++
  queued_bufs (l2 ++ (snd <$> ovf)).
Proof.
  unfold queued. rewrite buffers_pre. fold (queued_bufs (l1 ++ b :: l2 ++ (snd <$> ovf))).
  by rewrite queued_bufs_app, queued_bufs_cons.
Qed.
Lemma queued_ovf pre l1 a b l2 :
  queued (mkNet pre (l1 ++ (a, b) :: l2)) =
  queued_bufs (pre ++ (snd <$> l1)) ++ (if decide (bstate b = BUFFER_QUEUED) then [buffer b] else []) ++
  queued_bufs (snd <$> l2).
Proof.
  unfold queued. rewrite buffers_ovf. fold (queued_bufs ((pre ++ (snd <$> l1)) ++ b :: (snd <$> l2))).
  by rewrite queued_bufs_app, queued_bufs_cons.
Qed.

Lemma queued_bufs_none l : Forall (fun b => bstate b <> BUFFER_QUEUED) l -> queued_bufs l = [].
Proof.
  induction 1 as [|b l Hb _ IH]; [done|]. by rewrite queued_bufs_cons, IH, decide_False.
Qed.

(** ** The protocol of a buffer: supplied, written, queued, sent, freed *)

(** Asking for a buffer, writing it and queueing it. *)
Lemma Net_send_spec net p bytes :
  net_wf net -> p ∉ (pFirst net).*1 -> (length bytes <= 64)%nat ->
  exists buf net1 net2 pad,
    Net_getPacketBuffer net (Some p) = Done (buf, net1) /\
    Net_queuePacket (buf_write net1 buf bytes) buf = Done (0, net2) /\
    net_wf net2 /\ length (bytes ++ pad) = 64%nat /\ queued net2 ≡ₚ (bytes ++ pad) :: queued net.
Proof.
  destruct net as [pre ovf]. simpl. intros Hwf Hp Hlen. unfold Net_getPacketBuffer. simpl.
  destruct (claim_pre BUFFER_FREE BUFFER_SUPPLIED 0 pre) as [[i l]|] eqn:E.
  - apply claim_pre_Some in E as (l1 & b & l2 & -> & -> & -> & Hb & _). rewrite Nat.add_0_l.
    assert (length (buffer b) = 64%nat) as Hsz.
    { pose proof (net_sizes _ Hwf) as H. rewrite buffers_pre, Forall_app, Forall_cons_iff in H. by destruct_and!. }
    eexists _, _, _, (drop (length bytes) (buffer b)). split; [done|]. simpl.
    destruct (pre_split (set_bstate BUFFER_SUPPLIED b) l1 l2) as (_ & _ & ->). simpl.
    destruct (pre_split (overwrite bytes (set_bstate BUFFER_SUPPLIED b)) l1 l2) as (E1 & E2 & _).
    split; [rewrite E1; simpl; by rewrite E2|]. pose proof (overwrite_size bytes b Hsz Hlen) as Ho. split; [|split].
    + eapply net_wf_pre; [exact Hwf|done].
    + done.
    + rewrite !queued_pre, Hb. simpl. rewrite <- Permutation_middle. done.
  - eexists _, _, _, (drop (length bytes) (replicate 64 0)). split; [done|]. cbn [buf_write net_buffer pFirst].
    destruct (ovf_split p (zero_buffer BUFFER_SUPPLIED) ovf [] Hp) as (_ & -> & _).
    cbn [Net_queuePacket pFirst].
    destruct (ovf_split p (overwrite bytes (zero_buffer BUFFER_SUPPLIED)) ovf [] Hp) as (E1 & E2 & _).
    split; [rewrite E1; cbn -[replicate]; by rewrite E2|]. pose proof (overwrite_size bytes (zero_buffer BUFFER_FREE) eq_refl Hlen) as Ho.
    split; [|split; [done|]].
    + destruct Hwf as [Hl Ha Hs Hf]. constructor; simpl in *; try done.
      * rewrite fmap_app. apply list.NoDup_app. split; [done|]. split; [set_solver|]. apply NoDup_singleton.
      * rewrite buffers_ovf. unfold buffers in Hs. simpl in Hs. rewrite Forall_app. split; [done|]. by repeat constructor.
      * rewrite Forall_app. split; [done|]. by repeat constructor.
    + rewrite queued_ovf, decide_True by done. cbn -[replicate drop].
      by rewrite Permutation_app_comm.
Qed.

(** Sending: on a well-formed [Net], asking for a buffer (with a fresh address
    from [malloc] should an overflow buffer be needed), writing at most 64 bytes into
    it and queueing it passes every assertion, keeps the [Net] well formed, and adds
    exactly one packet to the queued ones, a 64-byte packet that starts with the bytes
    written. *)
Theorem Net_send_queued net p bytes :
  net_wf net -> p ∉ (pFirst net).*1 -> (length bytes <= 64)%nat ->
  exists buf net1 net2 pad,
    Net_getPacketBuffer net (Some p) = Done (buf, net1) /\
    Net_queuePacket (buf_write net1 buf bytes) buf = Done (0, net2) /\
    net_wf net2 /\ length (bytes ++ pad) = 64%nat /\ queued net2 ≡ₚ (bytes ++ pad) :: queued net.
Proof. apply Net_send_spec. Qed.

(** Receiving side of the queue: [Net_getNextQueuedPacket] returns NULL and changes
    nothing exactly when no packet is queued; otherwise it returns a buffer that holds
    one of the queued packets and takes that packet off the queue, and the following
    [Net_freeQueuedPacket] passes its assertions, keeps the remaining queued packets and
    leaves a well-formed [Net]. *)
Theorem Net_next_free net :
  net_wf net ->
  match Net_getNextQueuedPacket net with
  | (None, net') => net' = net /\ queued net = []
  | (Some buf, net1) =>
    exists pkt net2, buf_read net1 buf = Some pkt /\ queued net ≡ₚ pkt :: queued net1 /\
      Net_freeQueuedPacket net1 buf = Done (0, net2) /\ queued net2 = queued net1 /\ net_wf net2
  end.
Proof.
  destruct net as [pre ovf]. intros Hwf. unfold Net_getNextQueuedPacket. simpl.
  destruct (claim_pre BUFFER_QUEUED BUFFER_SENDING 0 pre) as [[i l]|] eqn:E.
  - apply claim_pre_Some in E as (l1 & b & l2 & -> & -> & -> & Hb & _). rewrite Nat.add_0_l. simpl.
    destruct (pre_split (set_bstate BUFFER_SENDING b) l1 l2) as (E1 & E2 & _).
    rewrite E1. simpl. rewrite E2. exists (buffer b), (mkNet (l1 ++ set_bstate BUFFER_FREE b :: l2) ovf).
    split; [done|]. rewrite !queued_pre, Hb. simpl.
    split; [by rewrite <- Permutation_middle|]. split; [done|]. split; [done|].
    eapply net_wf_pre; [exact Hwf|]. simpl.
    pose proof (net_sizes _ Hwf) as H. rewrite buffers_pre, Forall_app, Forall_cons_iff in H. by destruct_and!.
  - apply claim_pre_None in E. destruct (claim_ovf BUFFER_QUEUED BUFFER_SENDING ovf) as [[a l]|] eqn:Eo.
    + apply claim_ovf_Some in Eo as (l1 & b & l2 & -> & -> & Hb & _). simpl.
      destruct Hwf as [Hl Ha Hs Hf]. simpl in *.
      assert (a ∉ l1.*1) as Hn. { rewrite fmap_app in Ha. apply list.NoDup_app in Ha. simpl in Ha. set_solver. }
      destruct (ovf_split a (set_bstate BUFFER_SENDING b) l1 l2 Hn) as (-> & _ & ->).
      exists (buffer b), (mkNet pre (l1 ++ l2)). split; [done|]. rewrite !queued_ovf, Hb. simpl.
      split; [by rewrite <- Permutation_middle|]. split; [done|]. split.
      * unfold queued, buffers. simpl. rewrite fmap_app, app_assoc.
        fold (queued_bufs ((pre ++ l1.*2) ++ l2.*2)). by rewrite queued_bufs_app.
      * constructor; simpl; [done| | |].
        -- rewrite fmap_app in *. apply list.NoDup_app in Ha. simpl in Ha. rewrite list.NoDup_cons in Ha.
           apply list.NoDup_app. set_solver.
        -- rewrite buffers_ovf in Hs. unfold buffers. simpl. rewrite fmap_app, app_assoc.
           rewrite !Forall_app, !Forall_cons_iff in *. naive_solver.
        -- rewrite !Forall_app, !Forall_cons_iff in *. naive_solver.
    + apply claim_ovf_None in Eo. split; [done|]. rewrite queued_split. simpl.
      rewrite !queued_bufs_none; [done| |done]. by rewrite Forall_fmap.
Qed.

(** A new [Net] is well formed. *)
Lemma Net_newNet_wf net : Net_newNet true = Some net -> net_wf net /\ queued net = [].
Proof. intros [= <-]. split; [|done]. constructor; repeat constructor. Qed.

(** A [Net] with every preallocated buffer queued, so that the next is an overflow one. *)
Definition busy_net : maap_net := mkNet (replicate 4 (zero_buffer BUFFER_QUEUED)) [].

Lemma busy_net_wf : net_wf busy_net.
Proof. constructor; repeat constructor. Qed.

Lemma Net_send_queued_witness :
  exists buf net1 net2 pad,
    Net_getPacketBuffer busy_net (Some 9%positive) = Done (buf, net1) /\
    Net_queuePacket (buf_write net1 buf [1; 2; 3]) buf = Done (0, net2) /\
    net_wf net2 /\ length ([1; 2; 3] ++ pad) = 64%nat /\ queued net2 ≡ₚ ([1; 2; 3] ++ pad) :: queued busy_net.
Proof.
  apply (Net_send_queued busy_net 9%positive [1; 2; 3]); [exact busy_net_wf|set_solver|simpl; lia].
Defined.

Lemma Net_next_free_witness :
  match Net_getNextQueuedPacket busy_net with
  | (None, net') => net' = busy_net /\ queued busy_net = []
  | (Some buf, net1) =>
    exists pkt net2, buf_read net1 buf = Some pkt /\ queued busy_net ≡ₚ pkt :: queued net1 /\
      Net_freeQueuedPacket net1 buf = Done (0, net2) /\ queued net2 = queued net1 /\ net_wf net2
  end.
Proof. apply (Net_next_free busy_net). exact busy_net_wf. Defined.
