(* ===== verification/Maap.v ===== *)
(** * The MAAP client: daemons/maap/common/maap.c

    The state of a [Maap_Client] with the heaps it points into, and one definition
    per function of maap.c, in the state monad of [Prelude].  The linked lists of
    the client ([timer_queue] chained by [next_timer], [notifies] chained by [next])
    are lists; the ranges and the interval nodes are heap objects, so that the
    pointers between them ([Range.interval], [Interval.data]) alias as in C and a
    freed object is a fault to touch.

    What the C library supplies, [random], [malloc]/[calloc], the monotonic clock and
    the values of uninitialised locals, is an [Environment]: a stream indexed by the
    number of such calls made so far. *)
From S2P Require Import Prelude Intervals MaapPacket MaapTime MaapNet.
From stdpp Require Import base gmap list numbers.
#[local] Open Scope Z_scope.
#[local] Open Scope st_scope.

(** ** Data of maap.h and maap_iface.h *)
Inductive Maap_State :=
  MAAP_STATE_INVALID | MAAP_STATE_PROBING | MAAP_STATE_DEFENDING | MAAP_STATE_RELEASED.

Inductive Maap_Notify_Tag :=
  | MAAP_NOTIFY_INVALID | MAAP_NOTIFY_INITIALIZED | MAAP_NOTIFY_ACQUIRING | MAAP_NOTIFY_ACQUIRED
  | MAAP_NOTIFY_RELEASED | MAAP_NOTIFY_STATUS | MAAP_NOTIFY_YIELDED.

Inductive Maap_Notify_Error :=
  | MAAP_NOTIFY_ERROR_NONE | MAAP_NOTIFY_ERROR_REQUIRES_INITIALIZATION
  | MAAP_NOTIFY_ERROR_ALREADY_INITIALIZED | MAAP_NOTIFY_ERROR_RESERVE_NOT_AVAILABLE
  | MAAP_NOTIFY_ERROR_RELEASE_INVALID_ID | MAAP_NOTIFY_ERROR_OUT_OF_MEMORY
  | MAAP_NOTIFY_ERROR_INTERNAL.

#[global] Instance Maap_State_eq_dec : EqDecision Maap_State.
Proof. solve_decision. Defined.
#[global] Instance Maap_Notify_Tag_eq_dec : EqDecision Maap_Notify_Tag.
Proof. solve_decision. Defined.
#[global] Instance Maap_Notify_Error_eq_dec : EqDecision Maap_Notify_Error.
Proof. solve_decision. Defined.

Record Maap_Notify := mkNotify {
  kind : Maap_Notify_Tag;
  note_id : Z;
  note_start : Z;
  note_count : Z;
  result : Maap_Notify_Error
}.

(** [struct range]; [sender] is an opaque pointer, [next_timer] is the order of
    [timer_queue]. *)
Record Range := mkRange {
  id : Z;
  state : Maap_State;
  counter : Z;
  overlapping : bool;
  next_act_time : Time;
  interval : option iptr;
  sender : Z
}.

Record Maap_Client := mkClient {
  dest_mac : Z;
  src_mac : Z;
  address_base : Z;
  range_len : Z;
  ranges : option iptr;
  timer_queue : list rptr;
  timer : option Timer;
  net : option maap_net;
  maxid : Z;
  notifies : list (Z * Maap_Notify);
  initialized : bool
}.

#[global] Instance Maap_Notify_eq_dec : EqDecision Maap_Notify.
Proof. solve_decision. Defined.
#[global] Instance Range_eq_dec : EqDecision Range.
Proof. solve_decision. Defined.

Definition MAAP_PROBE_RETRANSMITS : Z := 3.
Definition MAAP_PROBE_INTERVAL_BASE : Z := 500.
Definition MAAP_PROBE_INTERVAL_VARIATION : Z := 100.
Definition MAAP_ANNOUNCE_INTERVAL_BASE : Z := 30000.
Definition MAAP_ANNOUNCE_INTERVAL_VARIATION : Z := 2000.

(** The client and everything it can reach; [tick] counts the calls into the C library. *)
Record World := mkWorld {
  mc : Maap_Client;
  ih : iheap;
  rh : gmap rptr Range;
  tick : nat
}.

(** What the C library and the platform supply.  [malloc_at n X] is the result of the
    [n]-th call when the addresses [X] are in use. *)
Class Environment := {
  random_at : nat -> Z;
  random_at_range : forall n, 0 <= random_at n < 2 ^ 31;
  clock_at : nat -> Time;
  clock_at_normalized : forall n, normalized (clock_at n);
  clock_at_monotone : forall n m, (n <= m)%nat -> time_le (clock_at n) (clock_at m);
  malloc_at : nat -> gset positive -> option positive;
  malloc_at_fresh : forall n X a, malloc_at n X = Some a -> a ∉ X;
  timer_create_at : nat -> bool;
  uninit_tmp64 : list Z;
  uninit_tmp64_ok : length uninit_tmp64 = 8%nat /\ Forall is_byte uninit_tmp64;
  uninit_buffer : list Z;
  uninit_buffer_ok : length uninit_buffer = 64%nat /\ Forall is_byte uninit_buffer;
  late_draw_watched : bool
}.

(** [late_draw_watched] is no part of the C library: it is [false] for the program as it
    is.  When it is set, a run stops with the fault [LateDraw] at the point where
    [assign_interval] takes a success on its last draw for a failure, which tells the runs
    in which that happens from the others.  [watched env] sets it. *)
Definition watched (env : Environment) : Environment := {|
  random_at := @random_at env;
  random_at_range := @random_at_range env;
  clock_at := @clock_at env;
  clock_at_normalized := @clock_at_normalized env;
  clock_at_monotone := @clock_at_monotone env;
  malloc_at := @malloc_at env;
  malloc_at_fresh := @malloc_at_fresh env;
  timer_create_at := @timer_create_at env;
  uninit_tmp64 := @uninit_tmp64 env;
  uninit_tmp64_ok := @uninit_tmp64_ok env;
  uninit_buffer := @uninit_buffer env;
  uninit_buffer_ok := @uninit_buffer_ok env;
  late_draw_watched := true
|}.

(** ** Assignments to single fields *)
Definition set_ranges (x : option iptr) (c : Maap_Client) : Maap_Client :=
  mkClient (dest_mac c) (src_mac c) (address_base c) (range_len c) x (timer_queue c) (timer c) (net c)
    (maxid c) (notifies c) (initialized c).
Definition set_timer_queue (x : list rptr) (c : Maap_Client) : Maap_Client :=
  mkClient (dest_mac c) (src_mac c) (address_base c) (range_len c) (ranges c) x (timer c) (net c)
    (maxid c) (notifies c) (initialized c).
Definition set_timer (x : option Timer) (c : Maap_Client) : Maap_Client :=
  mkClient (dest_mac c) (src_mac c) (address_base c) (range_len c) (ranges c) (timer_queue c) x (net c)
    (maxid c) (notifies c) (initialized c).
Definition set_net (x : option maap_net) (c : Maap_Client) : Maap_Client :=
  mkClient (dest_mac c) (src_mac c) (address_base c) (range_len c) (ranges c) (timer_queue c) (timer c) x
    (maxid c) (notifies c) (initialized c).
Definition set_maxid (x : Z) (c : Maap_Client) : Maap_Client :=
  mkClient (dest_mac c) (src_mac c) (address_base c) (range_len c) (ranges c) (timer_queue c) (timer c) (net c)
    x (notifies c) (initialized c).
Definition set_notifies (x : list (Z * Maap_Notify)) (c : Maap_Client) : Maap_Client :=
  mkClient (dest_mac c) (src_mac c) (address_base c) (range_len c) (ranges c) (timer_queue c) (timer c) (net c)
    (maxid c) x (initialized c).
Definition set_initialized (x : bool) (c : Maap_Client) : Maap_Client :=
  mkClient (dest_mac c) (src_mac c) (address_base c) (range_len c) (ranges c) (timer_queue c) (timer c) (net c)
    (maxid c) (notifies c) x.

Definition set_state (x : Maap_State) (r : Range) : Range :=
  mkRange (id r) x (counter r) (overlapping r) (next_act_time r) (interval r) (sender r).
Definition set_counter (x : Z) (r : Range) : Range :=
  mkRange (id r) (state r) x (overlapping r) (next_act_time r) (interval r) (sender r).
Definition set_overlapping (x : bool) (r : Range) : Range :=
  mkRange (id r) (state r) (counter r) x (next_act_time r) (interval r) (sender r).
Definition set_next_act_time (x : Time) (r : Range) : Range :=
  mkRange (id r) (state r) (counter r) (overlapping r) x (interval r) (sender r).
Definition set_interval (x : option iptr) (r : Range) : Range :=
  mkRange (id r) (state r) (counter r) (overlapping r) (next_act_time r) x (sender r).

Definition upd_mc (f : Maap_Client -> Maap_Client) (w : World) : World :=
  mkWorld (f (mc w)) (ih w) (rh w) (tick w).
Definition upd_ih (f : iheap -> iheap) (w : World) : World := mkWorld (mc w) (f (ih w)) (rh w) (tick w).
Definition upd_rh (f : gmap rptr Range -> gmap rptr Range) (w : World) : World :=
  mkWorld (mc w) (ih w) (f (rh w)) (tick w).
Definition upd_tick (w : World) : World := mkWorld (mc w) (ih w) (rh w) (S (tick w)).

(** Loads and stores through a [Range *] and an [Interval *]. *)
Definition get_mc : stM World Maap_Client := let! w := st_get in st_ret (mc w).
Definition load_range (r : rptr) : stM World Range :=
  let! w := st_get in st_lift (or_fault Dangling (rh w !! r)).
Definition store_range (r : rptr) (f : Range -> Range) : stM World unit :=
  load_range r ;! st_modify (upd_rh (alter f r)).
Definition free_range (r : rptr) : stM World unit :=
  load_range r ;! st_modify (upd_rh (delete r)).
Definition load_interval (a : iptr) : stM World Interval :=
  let! w := st_get in st_lift (load (ih w) a).
Definition store_interval (a : iptr) (f : Interval -> Interval) : stM World unit :=
  load_interval a ;! st_modify (upd_ih (alter f a)).

(** [range->interval->...]: the interval of a range. *)
Definition range_interval (r : rptr) : stM World Interval :=
  let! R := load_range r in
  let! a := st_lift (or_fault NullDeref (interval R)) in
  load_interval a.

Section client.
Context {env : Environment}.

(** ** Calls into the C library *)
Definition c_random : stM World Z := fun w => Done (random_at (tick w), upd_tick w).
Definition c_clock : stM World Time := fun w => Done (clock_at (tick w), upd_tick w).
Definition c_malloc (used : World -> gset positive) : stM World (option positive) :=
  fun w => Done (malloc_at (tick w) (used w), upd_tick w).

Definition used_ranges (w : World) : gset positive := dom (rh w).
Definition used_intervals (w : World) : gset positive := dom (ih w).
Definition used_buffers (w : World) : gset positive :=
  match net (mc w) with Some n => list_to_set (pFirst n).*1 | None => ∅ end.
Definition no_addresses (w : World) : gset positive := ∅.

(** ** Addresses and packets *)
Definition get_count (range : rptr) : stM World Z :=
  let! i := range_interval range in st_ret (i32 (u32 (high i - low i + 1))).
Definition get_start_address (range : rptr) : stM World Z :=
  let! i := range_interval range in
  let! c := get_mc in st_ret (u64 (address_base c + low i)).
Definition get_end_address (range : rptr) : stM World Z :=
  let! i := range_interval range in
  let! c := get_mc in st_ret (u64 (address_base c + high i)).

Definition send_packet (p : MAAP_Packet) : stM World Z :=
  let! c := get_mc in
  let! n := st_lift (or_fault AssertFail (net c)) in
  let! a := c_malloc used_buffers in
  let! bn := st_lift (Net_getPacketBuffer n a) in
  let! rn := st_lift (Net_queuePacket (buf_write (snd bn) (fst bn) (pack_maap p)) (fst bn)) in
  st_modify (upd_mc (set_net (Some (snd rn)))) ;!
  st_ret (fst rn).

Definition send_probe (range : rptr) : stM World Z :=
  let! c := get_mc in
  let! p := st_lift (init_packet (dest_mac c) (src_mac c)) in
  let! start := get_start_address range in
  let! count := get_count range in
  send_packet (mkPacket (DA p) (SA p) (Ethertype p) (subtype p) (SV p) (version p) MAAP_PROBE
    (maap_version p) (control_data_length p) (stream_id p) start (u16 count)
    (conflict_start_address p) (conflict_count p)).

Definition send_announce (range : rptr) : stM World Z :=
  let! c := get_mc in
  let! p := st_lift (init_packet (dest_mac c) (src_mac c)) in
  let! start := get_start_address range in
  let! count := get_count range in
  send_packet (mkPacket (DA p) (SA p) (Ethertype p) (subtype p) (SV p) (version p) MAAP_ANNOUNCE
    (maap_version p) (control_data_length p) (stream_id p) start (u16 count)
    (conflict_start_address p) (conflict_count p)).

Definition send_defend (range : rptr) (start count destination : Z) : stM World Z :=
  let! c := get_mc in
  let! p := st_lift (init_packet (dest_mac c) (src_mac c)) in
  let! own_start := get_start_address range in
  let conflict_start := if own_start <? start then start else own_start in
  let! own_end := get_end_address range in
  let last := u64 (start + count - 1) in
  let conflict_end := if own_end >? last then last else own_end in
  send_packet (mkPacket destination (SA p) (Ethertype p) (subtype p) (SV p) (version p) MAAP_DEFEND
    (maap_version p) (control_data_length p) (stream_id p) start count
    conflict_start (u16 (conflict_end - conflict_start + 1))).

(** ** Notifications *)
Definition add_notify (sndr : Z) (mn : Maap_Notify) : stM World unit :=
  let! p := c_malloc no_addresses in
  st_lift (or_fault NullDeref p) ;!
  st_modify (upd_mc (fun c => set_notifies (notifies c ++ [(sndr, mn)]) c)).

Definition get_notify : stM World (option (Z * Maap_Notify)) :=
  let! c := get_mc in
  match notifies c with
  | n :: rest => st_modify (upd_mc (set_notifies rest)) ;! st_ret (Some n)
  | [] => st_ret None
  end.

Definition inform_initialized (sndr : Z) (res : Maap_Notify_Error) : stM World Z :=
  let! c := get_mc in
  add_notify sndr (mkNotify MAAP_NOTIFY_INITIALIZED (-1) (address_base c) (range_len c) res) ;! st_ret 0.

Definition inform_acquiring (range : rptr) : stM World Z :=
  let! R := load_range range in
  let! start := get_start_address range in
  let! count := get_count range in
  add_notify (sender R) (mkNotify MAAP_NOTIFY_ACQUIRING (id R) start (u32 count) MAAP_NOTIFY_ERROR_NONE) ;!
  st_ret 0.

Definition inform_acquired (range : rptr) (res : Maap_Notify_Error) : stM World Z :=
  let! R := load_range range in
  let! start := get_start_address range in
  let! count := get_count range in
  add_notify (sender R) (mkNotify MAAP_NOTIFY_ACQUIRED (id R) start (u32 count) res) ;! st_ret 0.

Definition inform_not_acquired (sndr rid range_size : Z) (res : Maap_Notify_Error) : stM World Z :=
  add_notify sndr (mkNotify MAAP_NOTIFY_ACQUIRED rid 0 (u32 range_size) res) ;! st_ret 0.

(** [(range ? get_start_address(mc, range) : 0)] and the same for the count. *)
Definition start_or_0 (range : option rptr) : stM World Z :=
  match range with Some r => get_start_address r | None => st_ret 0 end.
Definition count_or_0 (range : option rptr) : stM World Z :=
  match range with Some r => get_count r | None => st_ret 0 end.

Definition inform_released (sndr rid : Z) (range : option rptr) (res : Maap_Notify_Error) : stM World Z :=
  let! start := start_or_0 range in
  let! count := count_or_0 range in
  add_notify sndr (mkNotify MAAP_NOTIFY_RELEASED rid start (u32 count) res) ;! st_ret 0.
Definition inform_status (sndr rid : Z) (range : option rptr) (res : Maap_Notify_Error) : stM World Z :=
  let! start := start_or_0 range in
  let! count := count_or_0 range in
  add_notify sndr (mkNotify MAAP_NOTIFY_STATUS rid start (u32 count) res) ;! st_ret 0.
Definition inform_yielded (sndr rid : Z) (range : option rptr) (res : Maap_Notify_Error) : stM World Z :=
  let! start := start_or_0 range in
  let! count := count_or_0 range in
  add_notify sndr (mkNotify MAAP_NOTIFY_YIELDED rid start (u32 count) res) ;! st_ret 0.

(** ** Timers and the interval tree *)
Definition start_timer : stM World unit :=
  let! c := get_mc in
  match timer_queue c with
  | [] => st_ret tt
  | range :: _ =>
    let! tm := st_lift (or_fault NullDeref (timer c)) in
    let! R := load_range range in
    st_modify (upd_mc (set_timer (Some (Time_setTimer tm (next_act_time R)))))
  end.

(** The [for] loop of [remove_range_interval] that redirects the ranges to the nodes
    that now hold them. *)
Fixpoint redirect_loop (fuel : nat) (test_inter : option iptr) (old_range : option rptr) : stM World unit :=
  match fuel with
  | O => st_lift (Fault OutOfFuel)
  | S fuel =>
    match test_inter with
    | None => st_ret tt
    | Some a =>
      let! i := load_interval a in
      st_assert (bool_decide (data i <> None)) ;!
      st_assert (bool_decide (data i <> old_range)) ;!
      let! range := st_lift (or_fault NullDeref (data i)) in
      let! R := load_range range in
      when (bool_decide (interval R <> Some a)) do (store_range range (set_interval (Some a))) ;!
      let! w := st_get in
      let! nx := st_lift (next_interval (ih w) a) in
      redirect_loop fuel nx old_range
    end
  end.

Definition remove_range_interval (nd : iptr) : stM World unit :=
  let! i := load_interval nd in
  let old_range := data i in
  match old_range with
  | None => st_ret tt
  | Some r => let! R := load_range r in st_assert (bool_decide (interval R = Some nd))
  end ;!
  let! w := st_get in
  let! fr := st_lift (remove_interval (ih w) (ranges (mc w)) nd) in
  let '(free_inter, root', h') := fr in
  st_modify (fun w => mkWorld (set_ranges root' (mc w)) h' (rh w) (tick w)) ;!
  let! f := load_interval free_inter in
  st_assert (bool_decide (data f = old_range)) ;!
  st_modify (upd_ih (free_interval free_inter)) ;!
  let! w := st_get in
  let! first := st_lift (minimum_interval (ih w) (ranges (mc w))) in
  redirect_loop (loop_fuel (ih w)) first old_range.

(** ** Initialisation *)
Definition maap_init_client (sndr range_address_base len : Z) : stM World Z :=
  let! c := get_mc in
  if initialized c then
    let matches := (range_address_base =? address_base c) && (len =? range_len c) in
    inform_initialized sndr
      (if matches then MAAP_NOTIFY_ERROR_NONE else MAAP_NOTIFY_ERROR_ALREADY_INITIALIZED) ;!
    st_ret (if matches then 0 else -1)
  else
    let! w := st_get in
    let! p := c_malloc no_addresses in
    match Time_newTimer (bool_decide (is_Some p)) (timer_create_at (tick w)) with
    | None => st_modify (upd_mc (set_timer None)) ;! st_ret (-1)
    | Some tm =>
      let! p := c_malloc no_addresses in
      match Net_newNet (bool_decide (is_Some p)) with
      | None => (* [Time_delTimer]: [mc->timer] is left dangling *)
        st_modify (upd_mc (fun c => set_net None (set_timer (Some tm) c))) ;! st_ret (-1)
      | Some n =>
        st_modify (upd_mc (fun c =>
          mkClient (dest_mac c) (src_mac c) range_address_base len None [] (Some tm) (Some n) 0 [] true)) ;!
        inform_initialized sndr MAAP_NOTIFY_ERROR_NONE ;!
        st_ret 0
      end
    end.

(** The three loops of [maap_deinit_client]. *)
Fixpoint drain_timer_queue (q : list rptr) : stM World unit :=
  match q with
  | [] => st_ret tt
  | pDel :: rest =>
    st_modify (upd_mc (set_timer_queue rest)) ;!
    let! R := load_range pDel in
    when (bool_decide (state R = MAAP_STATE_RELEASED)) do (free_range pDel) ;!
    drain_timer_queue rest
  end.
Fixpoint drain_ranges (fuel : nat) : stM World unit :=
  match fuel with
  | O => st_lift (Fault OutOfFuel)
  | S fuel =>
    let! c := get_mc in
    match ranges c with
    | None => st_ret tt
    | Some root =>
      let! i := load_interval root in
      remove_range_interval root ;!
      match data i with Some range => free_range range | None => st_ret tt end ;!
      drain_ranges fuel
    end
  end.
Fixpoint drain_notifies (n : nat) : stM World unit :=
  match n with
  | O => st_ret tt
  | S n => let! _ := get_notify in drain_notifies n
  end.

Definition maap_deinit_client : stM World unit :=
  let! c := get_mc in
  if initialized c then
    drain_timer_queue (timer_queue c) ;!
    let! w := st_get in
    drain_ranges (loop_fuel (ih w)) ;!
    st_modify (upd_mc (set_timer None)) ;!
    st_modify (upd_mc (set_net None)) ;!
    let! c := get_mc in
    drain_notifies (S (length (notifies c))) ;!
    st_modify (upd_mc (set_initialized false))
  else st_ret tt.

(** ** The timer queue *)
Definition rand_ms (variation : Z) : stM World Z :=
  let! x := c_random in st_ret (Z.rem x (variation - 1) + 1).

Definition act_time (r : rptr) : stM World Time := let! R := load_range r in st_ret (next_act_time R).

(** Unlinking [range] if it is queued: at the front, or found by the search. *)
Fixpoint queue_remove (range : rptr) (q : list rptr) : list rptr :=
  match q with
  | [] => []
  | rp :: rest => if decide (rp = range) then rest else rp :: queue_remove range rest
  end.

(** The [while] loop that advances [rp] while the next entry is not later. *)
Fixpoint queue_insert_after (t : Time) (range : rptr) (q : list rptr) : stM World (list rptr) :=
  match q with
  | [] => st_ret [range]
  | next :: rest =>
    let! tn := act_time next in
    if Time_cmp tn t <=? 0 then
      let! rest' := queue_insert_after t range rest in st_ret (next :: rest')
    else st_ret (range :: next :: rest)
  end.

Definition queue_insert (t : Time) (range : rptr) (q : list rptr) : stM World (list rptr) :=
  match q with
  | [] => st_ret [range]
  | first :: rest =>
    let! tf := act_time first in
    if Time_cmp t tf <? 0 then st_ret (range :: first :: rest)
    else let! rest' := queue_insert_after t range rest in st_ret (first :: rest')
  end.

(** The sanity test (DEBUG_TIMER_MSG is defined in maap.c). *)
Fixpoint queue_sanity (i : Z) (q : list rptr) : stM World unit :=
  match q with
  | [] => st_ret tt
  | test :: rest =>
    if i <? 100000 then
      match rest with
      | [] => st_ret tt
      | next :: _ =>
        st_assert (bool_decide (next <> test)) ;!
        let! t1 := act_time test in
        let! t2 := act_time next in
        st_assert (Time_cmp t1 t2 <=? 0)
      end ;!
      queue_sanity (i + 1) rest
    else st_assert false
  end.

(** [ns = (base + rand_ms(variation)) * 1000000], then [next_act_time] is now plus that. *)
Definition set_deadline (range : rptr) (base variation : Z) : stM World unit :=
  let! ms := rand_ms variation in
  let ns := u64 (u64 (base + ms) * 1000000) in
  let! now := c_clock in
  store_range range (set_next_act_time (Time_add now (Time_setFromNanos ns))).

Definition schedule_timer (range : rptr) : stM World Z :=
  let! R := load_range range in
  match state R with
  | MAAP_STATE_PROBING => set_deadline range MAAP_PROBE_INTERVAL_BASE MAAP_PROBE_INTERVAL_VARIATION
  | MAAP_STATE_DEFENDING => set_deadline range MAAP_ANNOUNCE_INTERVAL_BASE MAAP_ANNOUNCE_INTERVAL_VARIATION
  | _ => st_ret tt
  end ;!
  let! c := get_mc in
  let! t := act_time range in
  let! q := queue_insert t range (queue_remove range (timer_queue c)) in
  st_modify (upd_mc (set_timer_queue q)) ;!
  queue_sanity 0 q ;!
  st_ret 0.

(** ** Choosing an interval *)

(** One attempt: allocate, check the bound, insert, free again on overlap. *)
Definition try_interval (start len range_max : Z) : stM World (Z * iptr) :=
  let! p := c_malloc used_intervals in
  let! w := st_get in
  let '(iv, h1) := alloc_interval p start len (ih w) in
  let! a := st_lift (or_fault NullDeref iv) in
  st_modify (upd_ih (fun _ => h1)) ;!
  let! i := load_interval a in
  st_assert (high i <=? range_max) ;!
  let! w := st_get in
  let! res := st_lift (insert_interval (ih w) (ranges (mc w)) a) in
  let '(rv, root', h2) := res in
  st_modify (fun w => mkWorld (set_ranges root' (mc w)) h2 (rh w) (tick w)) ;!
  when (rv =? INTERVAL_OVERLAP) do (st_modify (upd_ih (free_interval a))) ;!
  st_ret (rv, a).

(** The loop of random attempts; [n] is [1000 - i].  The result is [n], [rv] and the
    interval at the exit. *)
Fixpoint assign_loop (n : nat) (rv : Z) (iv : option iptr) (len range_max : Z)
  : stM World (nat * Z * option iptr) :=
  match n with
  | O => st_ret (O, rv, iv)
  | S n' =>
    if rv =? INTERVAL_OVERLAP then
      let! x := c_random in
      let! c := get_mc in
      let modulus := u32 (range_len c + 1 - len) in
      st_lift (if modulus =? 0 then Fault DivByZero else Done tt) ;!
      let! ra := try_interval (u32 (Z.rem x modulus)) len range_max in
      assign_loop n' (fst ra) (Some (snd ra)) len range_max
    else st_ret (n, rv, iv)
  end.

Definition ASSIGN_ATTEMPTS : nat := 1000.

(** The observer of [late_draw_watched]; it changes nothing. *)
Definition watch_draw (rv : Z) : outcome unit :=
  if late_draw_watched && negb (rv =? INTERVAL_OVERLAP) then Fault LateDraw else Done tt.

Definition assign_interval (range : rptr) (attempt_base len : Z) : stM World Z :=
  let! c := get_mc in
  if len >? range_len c then st_ret (-1)
  else
    let range_max := u32 (range_len c - 1) in
    let! first :=
      if (attempt_base >=? address_base c) &&
         (u64 (attempt_base + len - 1) <=? u64 (address_base c + range_len c - 1)) then
        let! ra := try_interval (u32 (attempt_base - address_base c)) len range_max in
        st_ret (fst ra, Some (snd ra))
      else st_ret (INTERVAL_OVERLAP, None) in
    let! ni := assign_loop ASSIGN_ATTEMPTS (fst first) (snd first) len range_max in
    match fst (fst ni) with
    | O => st_lift (watch_draw (snd (fst ni))) ;! st_ret (-1)
    | S _ =>
      let! iv := st_lift (or_fault NullDeref (snd ni)) in
      store_interval iv (set_data (Some range)) ;!
      store_range range (set_interval (Some iv)) ;!
      st_ret 0
    end.

(** ** Commands *)

(** Filling in a new range. *)
Definition new_range (rid : Z) (sndr : Z) (now : Time) : Range :=
  mkRange rid MAAP_STATE_PROBING MAAP_PROBE_RETRANSMITS false now None sndr.

Definition maap_reserve_range (sndr attempt_base length : Z) : stM World Z :=
  let! c := get_mc in
  if negb (initialized c) then
    inform_not_acquired sndr (-1) (i32 length) MAAP_NOTIFY_ERROR_REQUIRES_INITIALIZATION ;! st_ret (-1)
  else if (length >? 0xFFFF) || (length >? range_len c) then
    inform_not_acquired sndr (-1) (i32 length) MAAP_NOTIFY_ERROR_RESERVE_NOT_AVAILABLE ;! st_ret (-1)
  else
    let! p := c_malloc used_ranges in
    match p with
    | None =>
      inform_not_acquired sndr (-1) (i32 length) MAAP_NOTIFY_ERROR_OUT_OF_MEMORY ;! st_ret (-1)
    | Some range =>
      let rid := i32 (maxid c + 1) in
      st_modify (upd_mc (set_maxid rid)) ;!
      let! now := c_clock in
      st_modify (upd_rh (insert range (new_range rid sndr now))) ;!
      let! rv := assign_interval range attempt_base (u16 length) in
      if rv <? 0 then
        inform_not_acquired sndr (-1) (i32 length) MAAP_NOTIFY_ERROR_RESERVE_NOT_AVAILABLE ;!
        free_range range ;!
        st_ret (-1)
      else
        let! _ := inform_acquiring range in
        let! _ := schedule_timer range in
        start_timer ;!
        let! _ := send_probe range in
        st_ret rid
    end.

(** The [while (range)] searches of the timer queue. *)
Fixpoint find_range (test : Range -> bool) (q : list rptr) : stM World (option rptr) :=
  match q with
  | [] => st_ret None
  | range :: rest =>
    let! R := load_range range in
    if test R then st_ret (Some range) else find_range test rest
  end.

Definition maap_release_range (sndr rid : Z) : stM World Z :=
  let! c := get_mc in
  if negb (initialized c) then
    inform_released sndr rid None MAAP_NOTIFY_ERROR_REQUIRES_INITIALIZATION ;! st_ret (-1)
  else
    let! found := find_range (fun R => (id R =? rid) && bool_decide (state R <> MAAP_STATE_RELEASED))
                    (timer_queue c) in
    match found with
    | Some range =>
      let! _ := inform_released sndr rid (Some range) MAAP_NOTIFY_ERROR_NONE in
      let! R := load_range range in
      when (negb (sndr =? sender R)) do
        (let! _ := inform_released (sender R) rid (Some range) MAAP_NOTIFY_ERROR_NONE in st_ret tt) ;!
      let! R := load_range range in
      let! iv := st_lift (or_fault NullDeref (interval R)) in
      remove_range_interval iv ;!
      store_range range (set_state MAAP_STATE_RELEASED) ;!
      st_ret 0
    | None =>
      inform_released sndr rid None MAAP_NOTIFY_ERROR_RELEASE_INVALID_ID ;! st_ret (-1)
    end.

Definition maap_range_status (sndr rid : Z) : stM World unit :=
  let! c := get_mc in
  if negb (initialized c) then
    inform_status sndr rid None MAAP_NOTIFY_ERROR_REQUIRES_INITIALIZATION ;! st_ret tt
  else
    let! found := find_range (fun R => (id R =? rid) && bool_decide (state R = MAAP_STATE_DEFENDING))
                    (timer_queue c) in
    match found with
    | Some range => inform_status sndr rid (Some range) MAAP_NOTIFY_ERROR_NONE ;! st_ret tt
    | None => inform_status sndr rid None MAAP_NOTIFY_ERROR_RELEASE_INVALID_ID ;! st_ret tt
    end.

(** ** Packets *)

(** The [for] loop that flags the overlapping ranges and counts them. *)
Fixpoint flag_loop (fuel : nat) (iv : option iptr) (start count : Z) (num : nat) : stM World nat :=
  match fuel with
  | O => st_lift (Fault OutOfFuel)
  | S fuel =>
    match iv with
    | None => st_ret num
    | Some a =>
      let! i := load_interval a in
      if interval_check_overlap i start count then
        let! range := st_lift (or_fault NullDeref (data i)) in
        store_range range (set_overlapping true) ;!
        let! w := st_get in
        let! nx := st_lift (next_interval (ih w) a) in
        flag_loop fuel nx start count (S num)
      else st_ret num
    end
  end.

(** The inner [for] loop: the first node from [iv] on whose range is flagged. *)
Fixpoint find_flagged (fuel : nat) (iv : option iptr) : stM World (option (iptr * rptr)) :=
  match fuel with
  | O => st_lift (Fault OutOfFuel)
  | S fuel =>
    match iv with
    | None => st_ret None
    | Some a =>
      let! i := load_interval a in
      let! range := st_lift (or_fault NullDeref (data i)) in
      let! R := load_range range in
      if overlapping R then st_ret (Some (a, range))
      else
        let! w := st_get in
        let! nx := st_lift (next_interval (ih w) a) in
        find_flagged fuel nx
    end
  end.

(** Conflict with a range that is still probing. *)
Definition conflict_probing (p : MAAP_Packet) (iv : iptr) (range : rptr) : stM World unit :=
  let! c := get_mc in
  if (message_type p =? MAAP_PROBE) && negb (compare_mac_addresses (src_mac c) (SA p) =? 0) then st_ret tt
  else
    let! i := load_interval iv in
    let range_size := i32 (u32 (high i - low i + 1)) in
    store_interval iv (set_data None) ;!
    let! rv := assign_interval range 0 (u16 range_size) in
    if rv <? 0 then
      let! R := load_range range in
      let! _ := inform_not_acquired (sender R) (id R) range_size MAAP_NOTIFY_ERROR_RESERVE_NOT_AVAILABLE in
      remove_range_interval iv ;!
      store_range range (set_state MAAP_STATE_RELEASED)
    else
      let! _ := inform_acquiring range in
      remove_range_interval iv ;!
      store_range range (set_counter MAAP_PROBE_RETRANSMITS) ;!
      let! _ := schedule_timer range in
      let! _ := send_probe range in
      st_ret tt.

(** The replacement request of a yielded range. *)
Definition replace_range (iv : iptr) (range : rptr) : stM World unit :=
  let! i := load_interval iv in
  let range_size := i32 (u32 (high i - low i + 1)) in
  let! q := c_malloc used_ranges in
  let! R := load_range range in
  match q with
  | None =>
    let! _ := inform_yielded (sender R) (id R) (Some range) MAAP_NOTIFY_ERROR_OUT_OF_MEMORY in st_ret tt
  | Some fresh_range =>
    let! now := c_clock in
    st_modify (upd_rh (insert fresh_range (new_range (id R) (sender R) now))) ;!
    let! rv := assign_interval fresh_range 0 (u16 range_size) in
    if rv <? 0 then
      let! _ := inform_yielded (sender R) (id R) (Some range) MAAP_NOTIFY_ERROR_RESERVE_NOT_AVAILABLE in
      free_range fresh_range
    else
      let! _ := schedule_timer fresh_range in
      let! _ := send_probe fresh_range in
      let! _ := inform_yielded (sender R) (id R) (Some range) MAAP_NOTIFY_ERROR_NONE in
      let! _ := inform_acquiring fresh_range in
      st_ret tt
  end.

(** Conflict with a range that is in use. *)
Definition conflict_defending (p : MAAP_Packet) (iv : iptr) (range : rptr) : stM World unit :=
  let! c := get_mc in
  if message_type p =? MAAP_PROBE then
    let! _ := send_defend range (requested_start_address p) (requested_count p) (SA p) in st_ret tt
  else if negb (compare_mac_addresses (src_mac c) (SA p) =? 0) then st_ret tt
  else
    replace_range iv range ;!
    remove_range_interval iv ;!
    store_range range (set_state MAAP_STATE_RELEASED).

(** One iteration of [while (num_overlaps-- > 0)]. *)
Definition handle_overlap (p : MAAP_Packet) (start : Z) : stM World unit :=
  let! w := st_get in
  let! iv := st_lift (search_interval (ih w) (ranges (mc w)) start (requested_count p)) in
  let! found := find_flagged (loop_fuel (ih w)) iv in
  match found with
  | None => st_assert false
  | Some (iv, range) =>
    store_range range (set_overlapping false) ;!
    let! R := load_range range in
    match state R with
    | MAAP_STATE_PROBING => conflict_probing p iv range
    | MAAP_STATE_DEFENDING => conflict_defending p iv range
    | _ => st_ret tt
    end
  end.

Fixpoint overlap_loop (num_overlaps : nat) (p : MAAP_Packet) (start : Z) : stM World unit :=
  match num_overlaps with
  | O => st_ret tt
  | S n => handle_overlap p start ;! overlap_loop n p start
  end.

(** The checks that make a received packet count. *)
Definition is_maap_packet (p : MAAP_Packet) : bool :=
  (Ethertype p =? MAAP_TYPE) && (subtype p =? MAAP_SUBTYPE) && (control_data_length p =? 16) &&
  (version p =? 0) && (MAAP_PROBE <=? message_type p) && (message_type p <=? MAAP_ANNOUNCE).

Definition maap_handle_packet (stream : list Z) (len : Z) : stM World Z :=
  if len <? MAAP_PKT_SIZE then st_ret (-1)
  else
    let! p := st_lift (unpack_maap uninit_tmp64 stream) in
    if negb (is_maap_packet p) then st_ret (-1)
    else
      let! c := get_mc in
      let own_base := address_base c in
      let own_max := u64 (address_base c + range_len c - 1) in
      let incoming_base := requested_start_address p in
      let incoming_max := u64 (requested_start_address p + requested_count p - 1) in
      if (incoming_max <? own_base) || (own_max <? incoming_base) then st_ret 0
      else
        let start := u32 (requested_start_address p - address_base c) in
        let! w := st_get in
        let! iv := st_lift (search_interval (ih w) (ranges (mc w)) start (requested_count p)) in
        let! num_overlaps := flag_loop (loop_fuel (ih w)) iv start (requested_count p) 0 in
        overlap_loop num_overlaps p start ;!
        start_timer ;!
        st_ret 0.

Definition maap_yield_range (sndr rid : Z) : stM World Z :=
  let! c := get_mc in
  if negb (initialized c) then
    inform_yielded sndr rid None MAAP_NOTIFY_ERROR_REQUIRES_INITIALIZATION ;! st_ret (-1)
  else
    let! found := find_range (fun R => (id R =? rid) && bool_decide (state R = MAAP_STATE_DEFENDING))
                    (timer_queue c) in
    match found with
    | Some range =>
      let! p := st_lift (init_packet 0x010000000000 0x010000000000) in
      let! start := get_start_address range in
      let! count := get_count range in
      let packet := mkPacket (DA p) (SA p) (Ethertype p) (subtype p) (SV p) (version p) MAAP_ANNOUNCE
        (maap_version p) (control_data_length p) (stream_id p) start (u16 count)
        (conflict_start_address p) (conflict_count p) in
      let announce_buffer := pack_maap packet ++ drop 42 uninit_buffer in
      let! _ := maap_handle_packet announce_buffer MAAP_NET_BUFFER_SIZE in
      st_ret 0
    | None =>
      inform_yielded sndr rid None MAAP_NOTIFY_ERROR_RELEASE_INVALID_ID ;! st_ret (-1)
    end.

(** ** Timer expiry *)
Definition handle_probe_timer (range : rptr) : stM World Z :=
  let! R := load_range range in
  if counter R =? 0 then
    let! _ := inform_acquired range MAAP_NOTIFY_ERROR_NONE in
    store_range range (set_state MAAP_STATE_DEFENDING) ;!
    let! _ := schedule_timer range in
    let! _ := send_announce range in
    st_ret 0
  else
    store_range range (set_counter (counter R - 1)) ;!
    let! _ := schedule_timer range in
    let! _ := send_probe range in
    st_ret 0.

Definition handle_defend_timer (range : rptr) : stM World Z :=
  let! _ := schedule_timer range in
  let! _ := send_announce range in
  st_ret 0.

(** The [while] loop of [maap_handle_timer]. *)
Fixpoint timer_loop (fuel : nat) (currenttime : Time) : stM World unit :=
  match fuel with
  | O => st_lift (Fault OutOfFuel)
  | S fuel =>
    let! c := get_mc in
    match timer_queue c with
    | [] => st_ret tt
    | range :: rest =>
      let! R := load_range range in
      if Time_passed currenttime (next_act_time R) then
        st_modify (upd_mc (set_timer_queue rest)) ;!
        match state R with
        | MAAP_STATE_PROBING => let! _ := handle_probe_timer range in st_ret tt
        | MAAP_STATE_DEFENDING => let! _ := handle_defend_timer range in st_ret tt
        | MAAP_STATE_RELEASED => free_range range
        | MAAP_STATE_INVALID => st_ret tt
        end ;!
        timer_loop fuel currenttime
      else st_ret tt
    end
  end.

Definition maap_handle_timer : stM World Z :=
  let! currenttime := c_clock in
  let! c := get_mc in
  timer_loop (S (length (timer_queue c))) currenttime ;!
  start_timer ;!
  st_ret 0.

Definition maap_get_delay_to_next_timer : stM World Z :=
  let! c := get_mc in
  match timer c, timer_queue c with
  | Some tm, _ :: _ => let! now := c_clock in st_ret (Time_remaining now tm)
  | _, _ => st_ret (60 * 60 * 1000000000)
  end.

End client.
