(* ===== verification/MaapInv.v ===== *)
(** * The invariant of the MAAP client and the operations that carry it

    The invariant says that the interval tree, the ranges and the timer queue describe
    one another: every tree node belongs to exactly one live range of the pool and
    back, the timer queue holds every range once, ordered by expiry.  The lemmas here
    are about the building blocks of maap.c; [MaapSafety] puts them together.

    [assign_interval] can leave a node in the tree that no range owns, an orphan: when
    the last of its 1000 draws is the first that fits.  Later code reads through the NULL
    [data] of such a node.  Every lemma is therefore proved for a mode: whether the tree
    may hold orphans, and which faults a run may end with. *)
From S2P Require Import Prelude Intervals IntervalTree IntervalUpdate MaapPacket MaapTime MaapNet Maap.
From stdpp Require Import base gmap list numbers sorting.
#[local] Open Scope Z_scope.
#[local] Open Scope st_scope.

(** ** Modes *)

(** Whether nodes without a range are allowed, and the faults that a run may end with:
    any of them when orphans are allowed. *)
Class Orphans := orphans : Prop.
Class Stops := stops : fault -> Prop.
Class Tolerant (O : Orphans) (T : Stops) := tolerant : orphans -> forall e, stops e.

(** By default there are no orphans and no faults. *)
#[global] Instance no_orphans : Orphans | 100 := False.
#[global] Instance no_stops : Stops | 100 := fun _ => False.
(** A watched run that may be stopped. *)
Definition late_stops : Stops := fun e => e = LateDraw.
(** A run in which orphans come about, and what they lead to. *)
Definition any_orphans : Orphans := True.
Definition any_stops : Stops := fun _ => True.

#[global] Instance no_orphans_tolerant T : Tolerant no_orphans T.
Proof. by intros []. Qed.
#[global] Instance any_stops_tolerant O : Tolerant O any_stops.
Proof. done. Qed.

(** ** Weakest preconditions in a mode

    [wp m Q s]: from [s] the computation [m] returns a result and a state that satisfy
    [Q], or ends with a fault of the mode. *)
Section wp.
Context {T : Stops} {S A B : Type}.
  Implicit Types (m : stM S A) (Q : A -> S -> Prop).

Definition wp {A} (m : stM S A) (Q : A -> S -> Prop) (s : S) : Prop :=
  match m s with Done (a, s') => Q a s' | Fault e => stops e end.

Lemma wps_ret (a : A) Q s : Q a s -> wp (st_ret a) Q s.
Proof. done. Qed.
Lemma wps_bind m (k : A -> stM S B) (Q : B -> S -> Prop) s :
  wp m (fun a => wp (k a) Q) s -> wp (st_bind m k) Q s.
Proof. unfold wp, st_bind. destruct (m s) as [[a s']|]; done. Qed.
Lemma wps_mono m Q1 Q2 s : wp m Q1 s -> (forall a s', Q1 a s' -> Q2 a s') -> wp m Q2 s.
Proof. unfold wp. destruct (m s) as [[a s']|]; auto. Qed.
Lemma wps_lift (o : outcome A) a Q s : o = Done a -> Q a s -> wp (st_lift o) Q s.
Proof. by intros ->. Qed.
Lemma wp_stop (o : outcome A) e Q s : o = Fault e -> stops e -> wp (st_lift o) Q s.
Proof. by intros ->. Qed.
Lemma wps_intro m Q s a s' : m s = Done (a, s') -> Q a s' -> wp m Q s.
Proof. unfold wp. by intros ->. Qed.
Lemma wp_return m Q s a s' : wp m Q s -> m s = Done (a, s') -> Q a s'.
Proof. unfold wp. intros H E. by rewrite E in H. Qed.
Lemma wps_get (Q : S -> S -> Prop) s : Q s s -> wp st_get Q s.
Proof. done. Qed.
Lemma wps_modify (f : S -> S) (Q : unit -> S -> Prop) s : Q tt (f s) -> wp (st_modify f) Q s.
Proof. done. Qed.
Lemma wps_assert b (Q : unit -> S -> Prop) s : b = true -> Q tt s -> wp (st_assert b) Q s.
Proof. by intros ->. Qed.
End wp.

(** A computation that may not end with a fault returns, a watched one returns or is
    stopped. *)
Lemma wps_done {S A} (m : stM S A) Q s : wp (T := no_stops) m Q s -> exists a s', m s = Done (a, s') /\ Q a s'.
Proof. unfold wp. destruct (m s) as [[a s']|]; [eauto|done]. Qed.
Lemma wp_exact {T : Stops} {S A} (m : stM S A) Q s : wp (T := no_stops) m Q s -> wp m Q s.
Proof. unfold wp. by destruct (m s) as [[a s']|]. Qed.
Lemma wp_late {S A} (m : stM S A) Q s :
  wp (T := late_stops) m Q s -> m s = Fault LateDraw \/ exists a s', m s = Done (a, s') /\ Q a s'.
Proof. unfold wp. destruct (m s) as [[a s']|e]; [eauto|]. intros ->. by left. Qed.
(** Under orphans only the runs that return matter. *)
Lemma wp_tolerate {Oph : Orphans} {T : Stops} {OT : Tolerant Oph T} {S A} (m : stM S A) Q s :
  orphans -> (forall a s', m s = Done (a, s') -> Q a s') -> wp m Q s.
Proof. intros Ho H. unfold wp. destruct (m s) as [[a s']|e] eqn:E; [by apply H|by apply OT]. Qed.

(** ** The invariant *)
Section mode.
Context {Oph : Orphans} {T : Stops} {OT : Tolerant Oph T}.

Definition live (R : Range) : Prop := state R = MAAP_STATE_PROBING \/ state R = MAAP_STATE_DEFENDING.

#[global] Instance live_dec R : Decision (live R).
Proof. unfold live. apply _. Defined.

(** The tree and the ranges.  While a function moves a range, the node [X] is detached
    from its range and the range [Y] has no node yet. *)
Record tree_inv (X : option iptr) (Y : option rptr) (h : iheap) (rm : gmap rptr Range)
  (root : option iptr) (len : Z) (t : tree) : Prop := mkTreeInv {
  ti_set : iset h root t;
  ti_dom : forall a, is_Some (h !! a) <-> a ∈ inorder t;
  ti_pool : forall a, a ∈ inorder t ->
    0 <= low (node h a) /\ high (node h a) < len /\ high (node h a) - low (node h a) < 65535;
  ti_link : forall a, a ∈ inorder t -> Some a <> X ->
    (orphans /\ data (node h a) = None) \/
    exists r R, data (node h a) = Some r /\ rm !! r = Some R /\ interval R = Some a /\ live R /\ Some r <> Y;
  ti_range : forall r R, rm !! r = Some R -> live R -> Some r <> Y ->
    exists a, interval R = Some a /\ a ∈ inorder t /\ Some a <> X /\ data (node h a) = Some r
}.

(** The timer queue; [Z] is the range that is in neither while it is being handled. *)
Definition due (rm : gmap rptr Range) (r : rptr) : Time :=
  default (mkTime 0 0) (next_act_time <$> rm !! r).
Definition not_later (rm : gmap rptr Range) (r1 r2 : rptr) : Prop := time_le (due rm r1) (due rm r2).

Record queue_inv (Z : option rptr) (rm : gmap rptr Range) (q : list rptr) : Prop := mkQueueInv {
  qi_mem : forall r, r ∈ q <-> is_Some (rm !! r) /\ Some r <> Z;
  qi_nodup : NoDup q;
  qi_sorted : StronglySorted (not_later rm) q
}.

(** The ranges themselves; [F] are those flagged by the packet being handled. *)
Definition range_wf (F : gset rptr) (r : rptr) (R : Range) : Prop :=
  state R <> MAAP_STATE_INVALID /\ (overlapping R = true <-> r ∈ F) /\ 0 <= counter R <= 3.
Definition ranges_wf (F : gset rptr) (rm : gmap rptr Range) : Prop :=
  forall r R, rm !! r = Some R -> range_wf F r R.

(** The parts of the client that the operations rely on. *)
Record client_wf (c : Maap_Client) : Prop := mkClientWf {
  cw_init : initialized c = true;
  cw_dest : dest_mac c <> 0;
  cw_src : src_mac c <> 0;
  cw_base : 0 <= address_base c;
  cw_len : 1 <= range_len c < 2 ^ 32;
  cw_top : address_base c + range_len c <= 2 ^ 48;
  cw_timer : is_Some (timer c);
  cw_net : exists n, net c = Some n /\ net_wf n
}.

Record client_inv (F : gset rptr) (w : World) (t : tree) : Prop := mkClientInv {
  ci_tree : tree_inv None None (ih w) (rh w) (ranges (mc w)) (range_len (mc w)) t;
  ci_queue : queue_inv None (rh w) (timer_queue (mc w));
  ci_wf : ranges_wf F (rh w);
  ci_client : client_wf (mc w)
}.

(** ** Weakest preconditions of the memory operations *)
Lemma wp_get_mc (Q : Maap_Client -> World -> Prop) w : Q (mc w) w -> wp get_mc Q w.
Proof. done. Qed.
Lemma wp_load_range r R (Q : Range -> World -> Prop) w :
  rh w !! r = Some R -> Q R w -> wp (load_range r) Q w.
Proof. intros H HQ. unfold load_range. apply wps_bind, wps_get. by eapply wps_lift; [rewrite H|]. Qed.
Lemma wp_store_range r f (Q : unit -> World -> Prop) w :
  is_Some (rh w !! r) -> Q tt (upd_rh (alter f r) w) -> wp (store_range r f) Q w.
Proof. intros [R H] HQ. apply wps_bind. eapply wp_load_range; [done|]. by apply wps_modify. Qed.
Lemma wp_free_range r (Q : unit -> World -> Prop) w :
  is_Some (rh w !! r) -> Q tt (upd_rh (delete r) w) -> wp (free_range r) Q w.
Proof. intros [R H] HQ. apply wps_bind. eapply wp_load_range; [done|]. by apply wps_modify. Qed.
Lemma wp_load_interval a (Q : Interval -> World -> Prop) w :
  is_Some (ih w !! a) -> Q (node (ih w) a) w -> wp (load_interval a) Q w.
Proof. intros H HQ. apply wps_bind, wps_get. eapply wps_lift; [by apply load_node|done]. Qed.
Lemma wp_store_interval a f (Q : unit -> World -> Prop) w :
  is_Some (ih w !! a) -> Q tt (upd_ih (alter f a) w) -> wp (store_interval a f) Q w.
Proof. intros H HQ. apply wps_bind, wp_load_interval; [done|]. by apply wps_modify. Qed.
Lemma wp_range_interval r R a (Q : Interval -> World -> Prop) w :
  rh w !! r = Some R -> interval R = Some a -> is_Some (ih w !! a) -> Q (node (ih w) a) w ->
  wp (range_interval r) Q w.
Proof.
  intros H Hi Ha HQ. apply wps_bind. eapply wp_load_range; [done|]. apply wps_bind.
  eapply wps_lift; [by rewrite Hi|]. by apply wp_load_interval.
Qed.

(** ** Lists of nodes *)
Lemma node_alter_ne f h a b : a <> b -> node (alter f a h) b = node h b.
Proof. intros. unfold node. by rewrite lookup_alter_ne. Qed.
Lemma node_alter_eq f h a : is_Some (h !! a) -> node (alter f a h) a = f (node h a).
Proof. intros [n H]. unfold node. by rewrite lookup_alter_eq, H. Qed.
Lemma node_insert_ne h a b n : a <> b -> node (<[a := n]> h) b = node h b.
Proof. intros. unfold node. by rewrite lookup_insert_ne. Qed.
Lemma node_insert_eq h a n : node (<[a := n]> h) a = n.
Proof. unfold node. by rewrite lookup_insert_eq. Qed.
Lemma node_delete_ne h a b : a <> b -> node (delete a h) b = node h b.
Proof. intros. unfold node. by rewrite lookup_delete_ne. Qed.

(** A heap change outside the tree leaves it alone. *)
Lemma iset_frame h h' root t :
  (forall a, a ∈ inorder t -> h' !! a = h !! a) -> iset h root t -> iset h' root t.
Proof.
  intros Hsame [Hr Hrep Hord]. split; [done| |].
  - by eapply rep_frame_eq.
  - eapply ordered_same; [|exact Hord]. intros a Ha. unfold node. by rewrite Hsame.
Qed.

(** Changing [data] fields keeps the tree. *)
Lemma iset_set_data h root t a d : iset h root t -> iset (alter (set_data d) a h) root t.
Proof.
  intros [Hr Hrep Hord].
  assert (forall b, links <$> alter (set_data d) a h !! b = links <$> h !! b) as Hl.
  { intros b. destruct (decide (a = b)) as [<-|].
    - rewrite lookup_alter_eq. by destruct (h !! a).
    - by rewrite lookup_alter_ne. }
  split; [done| |].
  - eapply rep_frame; [exact Hrep|]. intros b _. apply Hl.
  - assert (forall b, low (node (alter (set_data d) a h) b) = low (node h b) /\
                      high (node (alter (set_data d) a h) b) = high (node h b)) as Hk.
    { intros b. destruct (decide (a = b)) as [<-|]; [|by rewrite node_alter_ne].
      unfold node. rewrite lookup_alter_eq. by destruct (h !! a). }
    unfold ordered in *. destruct Hord as [H1 H2]. split.
    + clear H2. induction H1 as [|b l H1 IH H3]; constructor; [done|].
      eapply Forall_impl; [exact H3|]. intros c. unfold before.
      destruct (Hk b) as [_ ->], (Hk c) as [-> _]. done.
    + eapply Forall_impl; [exact H2|]. intros c. unfold nonempty. by destruct (Hk c) as [-> ->].
Qed.

(** ** What the environment must provide *)

(** Allocation succeeds. *)
Definition memory_available (env : Environment) : Prop := forall n X, is_Some (malloc_at n X).

(** [assign_interval] treats a success on the last of its 1000 random attempts as a
    failure and leaves an orphan: either the mode allows orphans, or the run is watched
    and may stop there. *)
Definition late_tolerated (env : Environment) : Prop := orphans \/ late_draw_watched = true /\ stops LateDraw.

Section blocks.
Context {env : Environment} (Hmem : memory_available env).

Lemma wp_malloc used (Q : option positive -> World -> Prop) w :
  (forall a, a ∉ used w -> Q (Some a) (upd_tick w)) -> wp (c_malloc used) Q w.
Proof.
  intros HQ. unfold wp, c_malloc. destruct (Hmem (tick w) (used w)) as [a Ha]. rewrite Ha.
  by apply HQ, malloc_at_fresh with (n := tick w).
Qed.

(** [inserted h t x k h' root' t']: the tree [t'] is [t] with the new node [x] that
    stores [k]. *)
Record inserted (h : iheap) (t : tree) (x : iptr) (k : Z * Z * option rptr)
  (h' : iheap) (root' : option iptr) (t' : tree) : Prop := mkInserted {
  ins_fresh : h !! x = None;
  ins_set : iset h' root' t';
  ins_order : exists l1 l2, inorder t = l1 ++ l2 /\ inorder t' = l1 ++ x :: l2;
  ins_key : contents (node h' x) = k;
  ins_other : forall b, b <> x -> contents (node h' b) = contents (node h b);
  ins_dom : forall b, is_Some (h' !! b) <-> b = x \/ is_Some (h !! b)
}.

(** One attempt either finds an overlap and changes nothing but the call count, or
    inserts the interval. *)
Lemma try_interval_spec start len range_max t (Q : Z * iptr -> World -> Prop) w :
  iset (ih w) (ranges (mc w)) t -> (forall a, is_Some (ih w !! a) <-> a ∈ inorder t) ->
  0 <= start -> 1 <= len -> start + len - 1 <= range_max < 2 ^ 32 ->
  ((exists b, b ∈ inorder t /\ overlaps (ih w) (fresh_interval start len) b = true) ->
   forall x, Q (INTERVAL_OVERLAP, x) (upd_tick w)) ->
  ((forall b, b ∈ inorder t -> overlaps (ih w) (fresh_interval start len) b = false) ->
   forall x h' root' t', inserted (ih w) t x (start, start + len - 1, None) h' root' t' ->
   Q (INTERVAL_SUCCESS, x) (mkWorld (set_ranges root' (mc w)) h' (rh w) (S (tick w)))) ->
  wp (try_interval start len range_max) Q w.
Proof.
  intros Hset Hdom Hs Hl Hmax Hov Hok. unfold try_interval.
  apply wps_bind, wp_malloc. intros x Hx. unfold used_intervals in Hx. rewrite not_elem_of_dom in Hx.
  apply wps_bind, wps_get. simpl. set (h1 := <[x := fresh_interval start len]> (ih w)).
  assert (x ∉ inorder t) as Hxt. { intros H. apply Hdom in H. rewrite Hx in H. by destruct H. }
  assert (high (fresh_interval start len) = start + len - 1) as Hh.
  { simpl. apply u32_small. change (2 ^ 32) with 4294967296 in Hmax. lia. }
  apply wps_bind. eapply wps_lift; [done|]. apply wps_bind, wps_modify. apply wps_bind.
  apply wp_load_interval; [simpl; unfold h1; rewrite lookup_insert_eq; done|]. simpl.
  unfold h1 at 1. rewrite node_insert_eq. apply wps_bind.
  apply wps_assert; [rewrite Hh; apply Z.leb_le; lia|]. apply wps_bind, wps_get. simpl.
  assert (iset h1 (ranges (mc w)) t) as Hset1.
  { eapply iset_frame; [|exact Hset]. intros a Ha. unfold h1. rewrite lookup_insert_ne; [done|congruence]. }
  assert (node h1 x = fresh_interval start len) as Hn by (unfold h1; by rewrite node_insert_eq).
  assert (forall b, b ∈ inorder t -> overlaps h1 (node h1 x) b = overlaps (ih w) (fresh_interval start len) b) as Ho.
  { intros b Hb. rewrite Hn. unfold overlaps, h1. rewrite node_insert_ne; [done|congruence]. }
  destruct (insert_interval_spec h1 (ranges (mc w)) t x Hset1 Hxt)
    as [[(b & Hb & Hbo) Hins]|(Hno & root' & h' & t' & l1 & l2 & Hins & Hset' & E1 & E2 & Hst & Hfr)].
  - unfold unlinked, h1. by rewrite lookup_insert_eq.
  - unfold nonempty. rewrite Hn, Hh. simpl. lia.
  - apply wps_bind. eapply wps_lift; [exact Hins|]. simpl. apply wps_bind, wps_modify. simpl.
    apply wps_bind, wps_modify. apply wps_ret. rewrite Ho in Hbo by done.
    assert (upd_tick w = upd_ih (free_interval x)
      (mkWorld (set_ranges (ranges (mc w)) (mc w)) h1 (rh w) (S (tick w)))) as <-; [|by apply Hov; eauto].
    unfold upd_tick, upd_ih, free_interval, h1. simpl. rewrite delete_insert_id by done. by destruct w as [[]].
  - apply wps_bind. eapply wps_lift; [exact Hins|]. simpl. apply wps_bind, wps_modify. simpl.
    apply wps_bind, wps_ret, wps_ret. apply (Hok ltac:(intros b Hb; rewrite <- Ho; auto) x h' root' t').
    pose proof (fun b => same_store_node h1 h' b Hst) as Hc. constructor; [done|done|eauto| | |].
    + rewrite Hc, Hn. unfold contents. by rewrite Hh.
    + intros b Hb. rewrite Hc. unfold h1. by rewrite node_insert_ne.
    + intros b. specialize (Hst b). unfold h1 in Hst. destruct (decide (b = x)) as [->|Hbx].
      * rewrite lookup_insert_eq in Hst. destruct (h' !! x); naive_solver.
      * rewrite lookup_insert_ne in Hst by done.
        destruct (h' !! b), (ih w !! b); try done; split; naive_solver.
Qed.

(** The world after library calls that touched nothing. *)
Definition at_tick (w : World) (n : nat) : World := mkWorld (mc w) (ih w) (rh w) n.
Definition with_tree (w : World) (root' : option iptr) (h' : iheap) (n : nat) : World :=
  mkWorld (set_ranges root' (mc w)) h' (rh w) n.

(** The [j]-th random start offset of an [assign_loop] that began at call [t0]. *)
Definition draw (t0 : nat) (m : Z) (j : nat) : Z := Z.rem (random_at (t0 + 2 * j)) m.

Lemma draw_range t0 m j : 0 < m -> 0 <= draw t0 m j < m.
Proof. intros Hm. unfold draw. pose proof (random_at_range (t0 + 2 * j)). apply Z.rem_bound_pos; lia. Qed.

Lemma assign_loop_spec len t n : forall iv (Q : nat * Z * option iptr -> World -> Prop) w,
  iset (ih w) (ranges (mc w)) t -> (forall a, is_Some (ih w !! a) <-> a ∈ inorder t) ->
  1 <= len <= range_len (mc w) -> range_len (mc w) < 2 ^ 32 ->
  (forall iv' tk, Q (O, INTERVAL_OVERLAP, iv') (at_tick w tk)) ->
  (forall n' x start h' root' t' tk,
     inserted (ih w) t x (start, start + len - 1, None) h' root' t' ->
     0 <= start -> start + len <= range_len (mc w) ->
     Q (n', INTERVAL_SUCCESS, Some x) (with_tree w root' h' tk)) ->
  wp (assign_loop n INTERVAL_OVERLAP iv len (range_len (mc w) - 1)) Q w.
Proof.
  induction n as [|n IH]; intros iv Q w Hset Hdom Hlen Hmax Hfail Hok.
  - apply wps_ret. specialize (Hfail iv (tick w)). by destruct w.
  - cbn [assign_loop]. simpl (_ =? _). cbv iota. apply wps_bind. unfold c_random, wp at 1.
    apply wps_bind, wp_get_mc. cbn [mc upd_tick].
    set (m := range_len (mc w) + 1 - len) in *. change (2 ^ 32) with 4294967296 in Hmax.
    assert (0 < m < 4294967296) as Hm by lia. rewrite (u32_small m) by lia.
    apply wps_bind. rewrite (proj2 (Z.eqb_neq m 0)) by lia. eapply wps_lift; [done|].
    assert (0 <= Z.rem (random_at (tick w)) m < m) as Hd.
    { pose proof (random_at_range (tick w)). apply Z.rem_bound_pos; lia. }
    rewrite u32_small by lia. apply wps_bind. eapply (try_interval_spec _ _ _ t); simpl; try done; try lia.
    + intros Hov x. by apply (IH (Some x) Q (upd_tick (upd_tick w))).
    + intros Hno x h' root' t' Hi. specialize (Hok n x _ h' root' t' (S (S (tick w))) Hi ltac:(lia) ltac:(lia)).
      destruct n; by apply wps_ret.
Qed.

End blocks.

Lemma contents_eq n lo hi d : contents n = (lo, hi, d) -> low n = lo /\ high n = hi /\ data n = d.
Proof. unfold contents. intros [= <- <- <-]. done. Qed.
Lemma contents_fields n n' :
  contents n = contents n' -> low n = low n' /\ high n = high n' /\ data n = data n'.
Proof. unfold contents. intros [= -> -> ->]. done. Qed.

Lemma inserted_elem h t x k h' root' t' b :
  inserted h t x k h' root' t' -> b ∈ inorder t' <-> b = x \/ b ∈ inorder t.
Proof. intros H. destruct (ins_order _ _ _ _ _ _ _ H) as (l1 & l2 & -> & ->). set_solver. Qed.

Lemma inserted_set_data h t x s e d h' root' t' :
  inserted h t x (s, e, None) h' root' t' ->
  inserted h t x (s, e, Some d) (alter (set_data (Some d)) x h') root' t'.
Proof.
  intros [Hf Hs Ho Hk Hoth Hd]. assert (is_Some (h' !! x)) as Hx by (apply Hd; by left).
  constructor; [done|by apply iset_set_data|done| | |].
  - rewrite node_alter_eq by done. apply contents_eq in Hk as (<- & <- & _). done.
  - intros b Hb. rewrite node_alter_ne by done. by apply Hoth.
  - intros b. by rewrite lookup_alter_is_Some.
Qed.

Lemma live_set_interval a R : live (set_interval a R) <-> live R.
Proof. done. Qed.

(** Giving the range [r] its new node [x]. *)
Lemma tree_inv_insert X r R h rm root len t x s e h' root' t' :
  tree_inv X (Some r) h rm root len t -> rm !! r = Some R -> live R ->
  inserted h t x (s, e, Some r) h' root' t' -> (forall a, X = Some a -> a ∈ inorder t) ->
  0 <= s -> e < len -> e - s < 65535 ->
  tree_inv X None h' (alter (set_interval (Some x)) r rm) root' len t'.
Proof.
  intros [Hset Hdom Hpool Hlink Hrange] HR Hlive Hins HX Hs He Hes.
  assert (x ∉ inorder t) as Hx.
  { intros H. apply Hdom in H. rewrite (ins_fresh _ _ _ _ _ _ _ Hins) in H. by destruct H. }
  pose proof (fun b => inserted_elem _ _ _ _ _ _ _ b Hins) as Hel.
  destruct (contents_eq _ _ _ _ (ins_key _ _ _ _ _ _ _ Hins)) as (Hlo & Hhi & Hda).
  assert (forall b, b ∈ inorder t -> low (node h' b) = low (node h b) /\ high (node h' b) = high (node h b) /\
    data (node h' b) = data (node h b)) as Hold.
  { intros b Hb. apply contents_fields, (ins_other _ _ _ _ _ _ _ Hins). congruence. }
  constructor.
  - apply (ins_set _ _ _ _ _ _ _ Hins).
  - intros a. rewrite (ins_dom _ _ _ _ _ _ _ Hins), Hel, Hdom. done.
  - intros a [->|Ha]%Hel; [lia|]. destruct (Hold a Ha) as (-> & -> & _). by apply Hpool.
  - intros a [->|Ha]%Hel HaX.
    + right. exists r, (set_interval (Some x) R). rewrite lookup_alter_eq, HR. done.
    + destruct (Hlink a Ha HaX) as [[Ho Hn]|(r' & R' & H1 & H2 & H3 & H4 & H5)].
      { left. destruct (Hold a Ha) as (_ & _ & ->). done. }
      right. exists r', R'. destruct (Hold a Ha) as (_ & _ & ->). rewrite lookup_alter_ne by congruence. done.
  - intros r' R' Hr' Hl' _. destruct (decide (r' = r)) as [->|Hne].
    + rewrite lookup_alter_eq, HR in Hr'. injection Hr' as <-. exists x. split; [done|].
      split; [apply Hel; by left|]. split; [|done]. intros HX'. by apply Hx, HX.
    + rewrite lookup_alter_ne in Hr' by done.
      destruct (Hrange r' R' Hr' Hl' ltac:(congruence)) as (a & H1 & H2 & H3 & H4). exists a.
      split; [done|]. split; [apply Hel; by right|]. split; [done|]. by destruct (Hold a H2) as (_ & _ & ->).
Qed.

(** A node without a range in the tree. *)
Lemma tree_inv_orphan X Y h rm root len t x s e h' root' t' :
  orphans -> tree_inv X Y h rm root len t -> inserted h t x (s, e, None) h' root' t' ->
  (forall a, X = Some a -> a ∈ inorder t) -> 0 <= s -> e < len -> e - s < 65535 ->
  tree_inv X Y h' rm root' len t'.
Proof.
  intros Ho [Hset Hdom Hpool Hlink Hrange] Hins HX Hs He Hes.
  pose proof (fun b => inserted_elem _ _ _ _ _ _ _ b Hins) as Hel.
  assert (x ∉ inorder t) as Hx.
  { intros H. apply Hdom in H. rewrite (ins_fresh _ _ _ _ _ _ _ Hins) in H. by destruct H. }
  destruct (contents_eq _ _ _ _ (ins_key _ _ _ _ _ _ _ Hins)) as (Hlo & Hhi & Hda).
  assert (forall b, b ∈ inorder t -> low (node h' b) = low (node h b) /\ high (node h' b) = high (node h b) /\
    data (node h' b) = data (node h b)) as Hold.
  { intros b Hb. apply contents_fields, (ins_other _ _ _ _ _ _ _ Hins). congruence. }
  constructor.
  - apply (ins_set _ _ _ _ _ _ _ Hins).
  - intros a. rewrite (ins_dom _ _ _ _ _ _ _ Hins), Hel, Hdom. done.
  - intros a [->|Ha]%Hel; [lia|]. destruct (Hold a Ha) as (-> & -> & _). by apply Hpool.
  - intros a [->|Ha]%Hel HaX; [by left|]. destruct (Hold a Ha) as (_ & _ & ->). by apply Hlink.
  - intros r R HR Hl HY. destruct (Hrange r R HR Hl HY) as (a & H1 & H2 & H3 & H4). exists a.
    destruct (Hold a H2) as (_ & _ & ->). split; [done|]. split; [apply Hel; by right|done].
Qed.

Section assign.
Context {env : Environment} (Hmem : memory_available env) (Hlate : late_tolerated env).

(** The preferred start address lies in the pool and is free. *)
Definition attempt_free (w : World) (t : tree) (base len : Z) : Prop :=
  address_base (mc w) <= base /\ base + len <= address_base (mc w) + range_len (mc w) /\
  forall b, b ∈ inorder t -> overlaps (ih w) (fresh_interval (base - address_base (mc w)) len) b = false.

Lemma assign_interval_spec X r R base len t (Q : Z -> World -> Prop) w :
  tree_inv X (Some r) (ih w) (rh w) (ranges (mc w)) (range_len (mc w)) t ->
  (forall a, X = Some a -> a ∈ inorder t) -> rh w !! r = Some R -> live R -> client_wf (mc w) ->
  1 <= len <= range_len (mc w) -> len <= 65535 -> 0 <= base < 2 ^ 48 ->
  (~ attempt_free w t base len -> forall tk, Q (-1) (at_tick w tk)) ->
  (orphans -> ~ attempt_free w t base len -> forall x start h' root' t' tk,
     inserted (ih w) t x (start, start + len - 1, None) h' root' t' ->
     tree_inv X (Some r) h' (rh w) root' (range_len (mc w)) t' ->
     Q (-1) (with_tree w root' h' tk)) ->
  (forall x start h' root' t' tk,
     inserted (ih w) t x (start, start + len - 1, Some r) h' root' t' ->
     0 <= start -> start + len <= range_len (mc w) ->
     (attempt_free w t base len -> start = base - address_base (mc w)) ->
     tree_inv X None h' (alter (set_interval (Some x)) r (rh w)) root' (range_len (mc w)) t' ->
     Q 0 (mkWorld (set_ranges root' (mc w)) h' (alter (set_interval (Some x)) r (rh w)) tk)) ->
  wp (assign_interval r base len) Q w.
Proof.
  intros Hti HX HR Hlive Hcw Hlen Hl16 Hbase Hfail Horph Hok. pose proof Hti as [Hset Hdom _ _ _].
  destruct Hcw as [_ _ _ Hab Hrl Htop _ _]. unfold assign_interval. apply wps_bind, wp_get_mc.
  change (2 ^ 32) with 4294967296 in Hrl. change (2 ^ 48) with 281474976710656 in *.
  rewrite Z.gtb_ltb, (proj2 (Z.ltb_ge _ _)) by lia. rewrite (u32_small (range_len (mc w) - 1)) by lia.
  rewrite !u64_small by lia. rewrite Z.geb_leb.
  set (rest := fun ni : nat * Z * option iptr =>
    match fst (fst ni) with
    | O => st_lift (watch_draw (snd (fst ni))) ;! st_ret (-1)
    | S _ =>
      let! iv := st_lift (or_fault NullDeref (snd ni)) in
      store_interval iv (set_data (Some r)) ;! store_range r (set_interval (Some iv)) ;! st_ret 0
    end).
  change (fun ni : nat * Z * option iptr => match fst (fst ni) with O => _ | S _ => _ end) with rest.
  assert (forall n x start h' root' t' tk, inserted (ih w) t x (start, start + len - 1, None) h' root' t' ->
     0 <= start -> start + len <= range_len (mc w) ->
     (attempt_free w t base len -> start = base - address_base (mc w)) ->
     wp (rest (S n, INTERVAL_SUCCESS, Some x)) Q (with_tree w root' h' tk)) as Hsucc.
  { intros n x start h' root' t' tk Hi H1 H2 H3. cbn. apply wps_bind. eapply wps_lift; [done|].
    apply wps_bind, wp_store_interval; [apply (ins_dom _ _ _ _ _ _ _ Hi); by left|].
    apply wps_bind, wp_store_range; [simpl; by rewrite HR|]. apply wps_ret. apply inserted_set_data with (d := r) in Hi.
    eapply (Hok x start); try done. eapply tree_inv_insert; try done; lia. }
  assert (~ attempt_free w t base len -> forall iv tk,
     wp (rest (O, INTERVAL_OVERLAP, iv)) Q (at_tick w tk)) as Hnone.
  { intros Hna iv tk. cbn. apply wps_bind. eapply wps_lift; [unfold watch_draw; by rewrite andb_false_r|]. by apply wps_ret, Hfail. }
  assert (~ attempt_free w t base len -> forall n x start h' root' t' tk,
     inserted (ih w) t x (start, start + len - 1, None) h' root' t' -> 0 <= start -> start + len <= range_len (mc w) ->
     wp (rest (n, INTERVAL_SUCCESS, Some x)) Q (with_tree w root' h' tk)) as Hdraw.
  { intros Hna [|n] x start h' root' t' tk Hi H1 H2; [|by eapply Hsucc]. cbn. apply wps_bind. unfold watch_draw.
    destruct late_draw_watched eqn:Ew; simpl (_ && _); cbv iota.
    - eapply wp_stop; [done|]. destruct Hlate as [Ho|[_ Hs]]; [by apply OT|done].
    - eapply wps_lift; [done|]. apply wps_ret. destruct Hlate as [Ho|[Hw _]]; [|congruence].
      eapply (Horph Ho Hna x start); [done|]. eapply tree_inv_orphan; try done; lia. }
  apply wps_bind. destruct ((address_base (mc w) <=? base) && _) eqn:E.
  - apply andb_true_iff in E as [E1%Z.leb_le E2%Z.leb_le]. rewrite u32_small by lia.
    apply wps_bind. apply (try_interval_spec Hmem _ _ _ t); try done; try lia.
    + intros Hov x. apply wps_ret. simpl. apply wps_bind.
      assert (~ attempt_free w t base len) as Hna.
      { intros (_ & _ & Hno). destruct Hov as (b & Hb & Hb'). by rewrite Hno in Hb'. }
      apply (assign_loop_spec Hmem len t 1000 (Some x) _ (upd_tick w)); [done|done|done|simpl; lia|apply (Hnone Hna)|apply (Hdraw Hna)].
    + intros Hno x h' root' t' Hi. apply wps_ret. simpl. apply wps_bind, wps_ret.
      apply (Hsucc 999%nat x _ h' root' t' _ Hi); lia.
  - apply wps_ret. simpl. apply wps_bind.
    assert (~ attempt_free w t base len) as Hna.
    { intros (H1 & H2 & _). rewrite (proj2 (Z.leb_le _ _) H1) in E. simpl in E. apply Z.leb_gt in E. lia. }
    apply (assign_loop_spec Hmem len t 1000 None _ w); [done|done|done|lia|apply (Hnone Hna)|apply (Hdraw Hna)].
Qed.
End assign.

(** ** Removing a node *)

(** Two range heaps that differ in [interval] fields only. *)
Definition same_ranges (rm rm' : gmap rptr Range) : Prop :=
  forall r, set_interval None <$> rm' !! r = set_interval None <$> rm !! r.

Lemma same_ranges_Some rm rm' r R' :
  same_ranges rm rm' -> rm' !! r = Some R' ->
  exists R, rm !! r = Some R /\ set_interval None R' = set_interval None R.
Proof. intros H HR. specialize (H r). rewrite HR in H. destruct (rm !! r) as [R|]; [|done]. apply (inj Some) in H. eauto. Qed.
#[global] Instance same_ranges_equiv : Equivalence same_ranges.
Proof.
  split; [done|intros ? ? H r; by rewrite H|intros ? ? ? H1 H2 r; by rewrite H2, H1].
Qed.
Lemma same_ranges_alter rm r a : same_ranges rm (alter (set_interval a) r rm).
Proof.
  intros r'. destruct (decide (r = r')) as [<-|]; [|by rewrite lookup_alter_ne].
  rewrite lookup_alter_eq. by destruct (rm !! r).
Qed.
Lemma same_ranges_fields R R' :
  set_interval None R' = set_interval None R ->
  id R' = id R /\ state R' = state R /\ counter R' = counter R /\ overlapping R' = overlapping R /\
  next_act_time R' = next_act_time R /\ sender R' = sender R.
Proof. unfold set_interval. intros [=]. done. Qed.

Definition node_data (h : iheap) (a : iptr) : option rptr := data (node h a).

(** What the redirecting loop does to the range heap. *)
Fixpoint redirect_all (h : iheap) (l : list iptr) (rm : gmap rptr Range) : gmap rptr Range :=
  match l with
  | [] => rm
  | a :: l' =>
    redirect_all h l' (match node_data h a with Some r => alter (set_interval (Some a)) r rm | None => rm end)
  end.

Lemma redirect_all_same h l : forall rm, same_ranges rm (redirect_all h l rm).
Proof.
  induction l as [|a l IH]; intros rm; simpl; [done|]. etrans; [|apply IH].
  destruct (node_data h a); [apply same_ranges_alter|done].
Qed.
Lemma redirect_all_other h l r : forall rm,
  Some r ∉ node_data h <$> l -> redirect_all h l rm !! r = rm !! r.
Proof.
  induction l as [|a l IH]; intros rm Hr; simpl; [done|]. rewrite fmap_cons, not_elem_of_cons in Hr.
  rewrite IH by naive_solver. destruct (node_data h a); [|done]. rewrite lookup_alter_ne; naive_solver.
Qed.
Lemma redirect_all_hit h l a r R : forall rm,
  NoDup (node_data h <$> l) -> a ∈ l -> node_data h a = Some r -> rm !! r = Some R ->
  redirect_all h l rm !! r = Some (set_interval (Some a) R).
Proof.
  induction l as [|b l IH]; intros rm Hnd Ha Hd HR; [set_solver|].
  rewrite fmap_cons, list.NoDup_cons in Hnd. destruct Hnd as [Hb Hnd]. cbn [redirect_all].
  rewrite elem_of_cons in Ha. destruct Ha as [->|Ha].
  - rewrite Hd in *. rewrite redirect_all_other by done. by rewrite lookup_alter_eq, HR.
  - apply IH; try done. destruct (node_data h b) as [rb|] eqn:E; [|done].
    rewrite lookup_alter_ne; [done|]. intros ->. apply Hb. rewrite <- Hd. by apply list_elem_of_fmap_2.
Qed.

Lemma alter_id_Some {A} (f : A -> A) (m : gmap positive A) k x :
  m !! k = Some x -> f x = x -> alter f k m = m.
Proof.
  intros H Hf. apply map_eq. intros j. destruct (decide (k = j)) as [<-|]; [|by rewrite lookup_alter_ne].
  by rewrite lookup_alter_eq, H; simpl; rewrite Hf.
Qed.

(** [redirect_loop] computes [redirect_all] when every node left has its own range. *)
Lemma redirect_loop_spec t old ys : forall fuel xs (Q : unit -> World -> Prop) w,
  iset (ih w) (ranges (mc w)) t -> inorder t = xs ++ ys -> (length ys < fuel)%nat ->
  (forall a, a ∈ ys -> exists r, node_data (ih w) a = Some r /\ is_Some (rh w !! r) /\ Some r <> old) ->
  Q tt (upd_rh (redirect_all (ih w) ys) w) ->
  wp (redirect_loop fuel (head ys) old) Q w.
Proof.
  induction ys as [|a ys IH]; intros fuel xs Q w Hset Heq Hfuel Hall HQ;
    (destruct fuel as [|fuel]; [simpl in Hfuel; lia|]); cbn [redirect_loop head].
  - apply wps_ret. by destruct w.
  - destruct (Hall a ltac:(by left)) as (r & Hd & [R HR] & Hold). simpl in Hfuel.
    assert (is_Some (ih w !! a)) as Ha.
    { destruct Hset as [_ Hrep _]. eapply rep_lookup; [exact Hrep|]. rewrite Heq. set_solver. }
    apply wps_bind, wp_load_interval; [done|]. fold (node_data (ih w) a). rewrite Hd.
    apply wps_bind, wps_assert; [by apply bool_decide_eq_true_2|].
    apply wps_bind, wps_assert; [by apply bool_decide_eq_true_2|].
    apply wps_bind. eapply wps_lift; [done|]. apply wps_bind. eapply wp_load_range; [done|].
    set (w1 := upd_rh (alter (set_interval (Some a)) r) w).
    assert (wp (let! w := st_get in let! nx := st_lift (next_interval (ih w) a) in redirect_loop fuel nx old) Q w1)
      as Hrest.
    { apply wps_bind, wps_get. apply wps_bind. eapply wps_lift; [eapply next_interval_spec; [exact Hset|exact Heq]|].
      apply (IH fuel (xs ++ [a])); simpl; [done|by rewrite <- app_assoc|lia| |].
      - intros b Hb. destruct (Hall b ltac:(by right)) as (rb & H1 & H2 & H3). exists rb.
        by rewrite lookup_alter_is_Some.
      - cbn [redirect_all] in HQ. rewrite Hd in HQ. done. }
    apply wps_bind. case_bool_decide as Hi.
    + by apply wp_store_range; [rewrite HR|].
    + apply wps_ret.
      replace w with w1; [done|]. unfold w1, upd_rh.
      rewrite (alter_id_Some _ _ _ R HR); [by destruct w|]. destruct R; simpl in *. by subst.
Qed.

(** With an orphan ahead [redirect_loop] does not get through. *)
Lemma redirect_loop_stuck t old ys : forall fuel xs w u w',
  iset (ih w) (ranges (mc w)) t -> inorder t = xs ++ ys -> (exists a, a ∈ ys /\ node_data (ih w) a = None) ->
  redirect_loop fuel (head ys) old w <> Done (u, w').
Proof.
  induction ys as [|a ys IH]; intros fuel xs w u w' Hset Heq (b & Hb & Hd); [set_solver|].
  destruct fuel as [|fuel]; [done|]. cbn [redirect_loop head]. unfold load_interval, st_get, st_bind at 1 2, load.
  assert (is_Some (ih w !! a)) as [i Hi].
  { destruct Hset as [_ Hrep _]. eapply rep_lookup; [exact Hrep|]. rewrite Heq. set_solver. }
  rewrite Hi. cbn. unfold node_data, node in Hd. unfold st_bind at 1, st_assert, c_assert.
  destruct (data i) as [r|] eqn:Er; [|by rewrite bool_decide_eq_false_2 by naive_solver].
  rewrite bool_decide_eq_true_2 by done. cbn. unfold st_bind at 1.
  destruct (bool_decide (Some r <> old)); [|done]. cbn. unfold load_range, st_get, st_bind at 1 2.
  unfold st_bind at 1 2. unfold st_lift at 1. cbn. destruct (rh w !! r) as [R|] eqn:ER; [|done]. cbn.
  assert (exists w1, (when bool_decide (interval R <> Some a) do store_range r (set_interval (Some a))) w = Done (tt, w1) /\
    ih w1 = ih w /\ mc w1 = mc w) as (w1 & -> & E1 & E2).
  { destruct (bool_decide _); [|by eexists]. unfold store_range, load_range, st_bind, st_get, st_lift. rewrite ER. by eexists. }
  rewrite <- E1, <- E2 in Hset. unfold st_bind at 1, st_lift.
  rewrite (next_interval_spec _ _ _ _ _ _ Hset Heq). cbn. apply (IH fuel (xs ++ [a])); [done|by rewrite <- app_assoc|].
  exists b. rewrite E1. split; [|done]. rewrite elem_of_cons in Hb. destruct Hb as [->|Hb]; [|done].
  rewrite Hi in Hd. cbn in Hd. congruence.
Qed.

(** The range bookkeeping survives any change of [interval] fields. *)
Lemma due_same rm rm' r : same_ranges rm rm' -> due rm' r = due rm r.
Proof. intros H. specialize (H r). unfold due. destruct (rm !! r), (rm' !! r); simplify_eq/=; done. Qed.
Lemma same_ranges_is_Some rm rm' r : same_ranges rm rm' -> is_Some (rm' !! r) <-> is_Some (rm !! r).
Proof. intros H. specialize (H r). destruct (rm !! r), (rm' !! r); simplify_eq/=; done. Qed.
Lemma sorted_due rm rm' q :
  (forall r, r ∈ q -> due rm' r = due rm r) -> StronglySorted (not_later rm) q -> StronglySorted (not_later rm') q.
Proof.
  intros H Hs. induction Hs as [|r q Hs IH Hf]; constructor.
  - apply IH. intros r' Hr'. apply H. by right.
  - rewrite Forall_forall in *. intros r' Hr'. unfold not_later. rewrite !H by set_solver. by apply Hf.
Qed.
Lemma queue_inv_same Z rm rm' q : same_ranges rm rm' -> queue_inv Z rm q -> queue_inv Z rm' q.
Proof.
  intros H [H1 H2 H3]. split; [|done|].
  - intros r. by rewrite (same_ranges_is_Some _ _ _ H).
  - eapply sorted_due; [|exact H3]. intros r _. by apply due_same.
Qed.
Lemma ranges_wf_same F rm rm' : same_ranges rm rm' -> ranges_wf F rm -> ranges_wf F rm'.
Proof.
  intros H Hwf r R' HR'. destruct (same_ranges_Some _ _ _ _ H HR') as (R & HR & E).
  apply same_ranges_fields in E as (_ & E1 & E2 & E3 & _). unfold range_wf. rewrite E1, E2, E3. by apply Hwf.
Qed.

(** Every key of the tree belongs to one of its nodes. *)
Lemma keys_elem h l h' l' b :
  keys h' l' = keys h l -> b ∈ l' -> exists c, c ∈ l /\ contents (node h' b) = contents (node h c).
Proof.
  intros Hk Hb. assert (contents (node h' b) ∈ keys h l) as H.
  { rewrite <- Hk. by apply (list_elem_of_fmap_2 (fun a => contents (node h' a))). }
  apply list_elem_of_fmap in H as (c & -> & Hc). eauto.
Qed.
Lemma keys_data h l h' l' : keys h' l' = keys h l -> node_data h' <$> l' = node_data h <$> l.
Proof.
  intros Hk. assert (snd <$> keys h' l' = snd <$> keys h l) as H by congruence.
  unfold keys in H. rewrite <- !list_fmap_compose in H. exact H.
Qed.

(** In a linked tree the nodes carry distinct ranges. *)
Lemma linked_nodup h (rm : gmap rptr Range) l :
  NoDup l ->
  (forall a, a ∈ l -> exists r R, node_data h a = Some r /\ rm !! r = Some R /\ interval R = Some a) ->
  NoDup (node_data h <$> l).
Proof.
  intros Hnd Hl. apply NoDup_fmap_2_strong; [|done]. intros a b Ha Hb E.
  destruct (Hl a Ha) as (r & R & H1 & H2 & H3), (Hl b Hb) as (r' & R' & H1' & H2' & H3'). congruence.
Qed.

(** Taking the detached node [a] out of the tree, whatever it held. *)
Lemma tree_inv_remove a Y h rm root len t xs ys h' root' t' :
  tree_inv (Some a) Y h rm root len t -> inorder t = xs ++ a :: ys ->
  (forall c, c ∈ xs ++ ys -> node_data h c <> None) ->
  iset h' root' t' -> keys h' (inorder t') = keys h (xs ++ ys) ->
  (forall b, is_Some (h' !! b) <-> b ∈ inorder t') ->
  tree_inv None Y h' (redirect_all h' (inorder t') rm) root' len t'.
Proof.
  intros [Hset Hdom Hpool Hlink Hrange] Heq Hall Hset' Hk Hdom'.
  pose proof (ordered_NoDup _ _ (iset_ordered _ _ _ Hset)) as Hnd. rewrite Heq in Hnd.
  assert (a ∉ xs ++ ys /\ NoDup (xs ++ ys)) as [Ha Hnd'].
  { apply list.NoDup_app in Hnd as (H1 & H2 & [H3 H4]%list.NoDup_cons). split; [set_solver|].
    apply list.NoDup_app. set_solver. }
  assert (forall c, c ∈ xs ++ ys -> c ∈ inorder t /\ Some c <> Some a) as Hin.
  { intros c Hc. rewrite Heq. split; [set_solver|congruence]. }
  assert (NoDup (node_data h' <$> inorder t')) as Hnd2.
  { rewrite (keys_data _ _ _ _ Hk). eapply (linked_nodup _ rm); [done|]. intros c Hc.
    destruct (Hlink c) as [[_ H]|(r & R & H1 & H2 & H3 & _)]; [by apply Hin..|by apply Hall in H|]. eauto. }
  constructor; [done|done| | |].
  - intros b Hb. destruct (keys_elem _ _ _ _ b Hk Hb) as (c & Hc & E).
    apply contents_fields in E as (-> & -> & _). by apply Hpool, Hin.
  - intros b Hb _. destruct (keys_elem _ _ _ _ b Hk Hb) as (c & Hc & E).
    apply contents_fields in E as (_ & _ & Ed).
    destruct (Hlink c) as [[_ H]|(r & R & H1 & H2 & H3 & H4 & H5)]; [by apply Hin..|by apply Hall in H|].
    right. exists r, (set_interval (Some b) R). split; [congruence|]. split; [|done].
    eapply redirect_all_hit; [done|done|unfold node_data; congruence|done].
  - intros r R' HR' Hl' HY.
    destruct (same_ranges_Some _ _ _ _ (redirect_all_same h' (inorder t') rm) HR') as (R & HR & E).
    apply same_ranges_fields in E as (_ & E1 & _).
    destruct (Hrange r R HR) as (c & H1 & H2 & H3 & H4); [unfold live in *; congruence|done|].
    assert (Some r ∈ node_data h' <$> inorder t') as Hr.
    { rewrite (keys_data _ _ _ _ Hk). rewrite <- H4. apply (list_elem_of_fmap_2 (node_data h)).
      rewrite Heq in H2. rewrite elem_of_app, elem_of_cons in H2. set_solver. }
    apply list_elem_of_fmap in Hr as (b & Hbd & Hb). exists b.
    assert (R' = set_interval (Some b) R) as ->.
    { rewrite (redirect_all_hit h' _ b r R rm Hnd2 Hb) in HR' by done. congruence. }
    done.
Qed.

Lemma remove_range_interval_spec a Y t xs ys (Q : unit -> World -> Prop) w :
  tree_inv (Some a) Y (ih w) (rh w) (ranges (mc w)) (range_len (mc w)) t -> inorder t = xs ++ a :: ys ->
  match node_data (ih w) a with
  | None => True
  | Some r => Y = Some r /\ exists R, rh w !! r = Some R /\ interval R = Some a
  end ->
  (forall h' rm' root' t',
     tree_inv None Y h' rm' root' (range_len (mc w)) t' -> same_ranges (rh w) rm' ->
     keys h' (inorder t') = keys (ih w) (xs ++ ys) ->
     (forall c, c ∈ xs ++ ys -> node_data (ih w) c <> None) ->
     Q tt (mkWorld (set_ranges root' (mc w)) h' rm' (tick w))) ->
  wp (remove_range_interval a) Q w.
Proof.
  intros Hti Heq Hold HQ. pose proof Hti as [Hset Hdom Hpool Hlink Hrange].
  assert (is_Some (ih w !! a)) as Ha by (apply Hdom; rewrite Heq; set_solver).
  unfold remove_range_interval. apply wps_bind, wp_load_interval; [done|]. fold (node_data (ih w) a).
  set (old := node_data (ih w) a) in *. apply wps_bind.
  assert (forall (Q' : unit -> World -> Prop), Q' tt w ->
    wp (match old with None => st_ret tt
        | Some r => let! R := load_range r in st_assert (bool_decide (interval R = Some a)) end) Q' w) as Hfirst.
  { intros Q' HQ'. destruct old as [r|]; [|by apply wps_ret]. destruct Hold as (_ & R & HR & Hi).
    apply wps_bind. eapply wp_load_range; [done|]. apply wps_assert; [by apply bool_decide_eq_true_2|done]. }
  apply Hfirst. clear Hfirst. apply wps_bind, wps_get.
  destruct (remove_interval_spec _ _ _ _ _ _ Hset Heq)
    as (s & root' & h' & t' & Hrem & Hset' & Hk & Hs & Hmem' & Hds & Hfr & Hsome).
  apply wps_bind. eapply wps_lift; [exact Hrem|]. apply wps_bind, wps_modify. cbn [fst snd].
  assert (is_Some (h' !! s)) as Hs' by (by apply Hsome, Hdom).
  apply wps_bind, wp_load_interval; [done|]. simpl. rewrite Hds. fold (node_data (ih w) a). fold old.
  apply wps_bind, wps_assert; [by apply bool_decide_eq_true_2|]. apply wps_bind, wps_modify. apply wps_bind, wps_get.
  cbn [ih mc rh upd_ih ranges set_ranges]. unfold free_interval. set (h2 := delete s h').
  assert (s ∉ inorder t') as Hst' by (intros H; apply Hmem' in H as [_ H]; done).
  assert (iset h2 root' t') as Hset2.
  { eapply iset_frame; [|exact Hset']. intros b Hb. unfold h2. rewrite lookup_delete_ne; [done|congruence]. }
  assert (keys h2 (inorder t') = keys (ih w) (xs ++ ys)) as Hk2.
  { rewrite keys_app, <- Hk. apply keys_same. intros b Hb. unfold h2. rewrite node_delete_ne; [done|congruence]. }
  assert (forall b, is_Some (h2 !! b) <-> b ∈ inorder t') as Hdom2.
  { intros b. unfold h2. rewrite lookup_delete_is_Some, Hsome, Hdom, Hmem'. naive_solver. }
  apply wps_bind. eapply wps_lift; [eapply minimum_interval_spec; exact Hset2|].
  assert (forall c, c ∈ xs ++ ys -> c ∈ inorder t /\ c <> a) as Hca.
  { intros c Hc. pose proof (ordered_NoDup _ _ (iset_ordered _ _ _ Hset)) as Hnd. rewrite Heq in Hnd |- *.
    apply list.NoDup_app in Hnd as (H1 & H2 & [H3 H4]%list.NoDup_cons). set_solver. }
  destruct (decide (Exists (fun c => node_data (ih w) c = None) (xs ++ ys))) as [Hex|Hnex].
  { apply Exists_exists in Hex as (c & Hc & Hd). destruct (Hca c Hc) as [Hct Hne].
    destruct (Hlink c Hct ltac:(congruence)) as [[Ho _]|(r & R & H1 & _)]; [|unfold node_data in Hd; congruence].
    apply wp_tolerate; [done|]. intros u w' Hrun. exfalso.
    apply (redirect_loop_stuck t' old (inorder t') (loop_fuel h2) []
      (mkWorld (set_ranges root' (mc w)) h2 (rh w) (tick w)) u w'); [exact Hset2|done| |exact Hrun].
    assert (contents (node (ih w) c) ∈ keys h2 (inorder t')) as Hin
      by (rewrite Hk2; by apply (list_elem_of_fmap_2 (fun a => contents (node (ih w) a)))).
    apply list_elem_of_fmap in Hin as (b & Eb & Hb). exists b. split; [done|].
    apply contents_fields in Eb as (_ & _ & Eb). unfold node_data in *. cbn [ih]. congruence. }
  assert (forall c, c ∈ xs ++ ys -> node_data (ih w) c <> None) as Hall.
  { intros c Hc Hd. apply Hnex, Exists_exists. eauto. }
  apply (redirect_loop_spec t' old (inorder t') (loop_fuel h2) [] Q
    (mkWorld (set_ranges root' (mc w)) h2 (rh w) (tick w))); cbn [ih rh mc ranges set_ranges]; [done|done| | |].
  - destruct Hset2 as [_ Hrep2 Hord2]. unfold loop_fuel.
    pose proof (rep_size _ _ _ Hrep2 (ordered_NoDup _ _ Hord2)). lia.
  - intros b Hb. destruct (keys_elem _ _ _ _ b Hk2 Hb) as (c & Hc & E).
    apply contents_fields in E as (_ & _ & Ed).
    destruct (Hca c Hc) as [Hct Hne].
    destruct (Hlink c Hct ltac:(congruence)) as [[_ H]|(r & R & H1 & H2 & H3 & H4 & H5)]; [by apply Hall in H|].
    exists r. split; [unfold node_data; congruence|]. split; [by rewrite H2|].
    destruct old as [ro|]; [|done]. destruct Hold as [-> _]. congruence.
  - apply (HQ h2 (redirect_all h2 (inorder t') (rh w)) root' t'); [|apply redirect_all_same|done|done].
    eapply tree_inv_remove; try done.
Qed.

(** ** The timer queue *)
Lemma wp_act_time r (Q : Time -> World -> Prop) w :
  is_Some (rh w !! r) -> Q (due (rh w) r) w -> wp (act_time r) Q w.
Proof.
  intros [R HR] HQ. apply wps_bind. eapply wp_load_range; [done|]. apply wps_ret.
  unfold due in HQ. by rewrite HR in HQ.
Qed.

Lemma queue_remove_split r q :
  (r ∉ q /\ queue_remove r q = q) \/
  (exists l1 l2, q = l1 ++ r :: l2 /\ queue_remove r q = l1 ++ l2).
Proof.
  induction q as [|x q IH]; [left; set_solver|]. simpl. destruct (decide (x = r)) as [->|Hne].
  - right. by exists [], q.
  - destruct IH as [[H1 ->]|(l1 & l2 & -> & ->)]; [left; set_solver|right]. by exists (x :: l1), l2.
Qed.

Lemma sorted_remove {A} (R : A -> A -> Prop) l1 x l2 :
  StronglySorted R (l1 ++ x :: l2) -> StronglySorted R (l1 ++ l2).
Proof.
  rewrite !StronglySorted_app_iff. intros (H1 & H2 & H3). apply StronglySorted_inv in H2 as [H2 _].
  split; [done|]. split; [done|]. intros a b Ha Hb. apply H3; set_solver.
Qed.

Lemma queue_remove_inv Z r rm q :
  queue_inv Z rm q -> Z = None \/ Z = Some r ->
  queue_inv (Some r) (rm) (queue_remove r q).
Proof.
  intros [Hm Hn Hs] HZ. destruct (queue_remove_split r q) as [[Hr ->]|(l1 & l2 & -> & ->)].
  - split; [|done|done]. intros x. rewrite Hm. split; [|naive_solver].
    intros [Hx HxZ]. split; [done|]. intros [= ->]. apply Hr, Hm. by split.
  - apply list.NoDup_app in Hn as (Hn1 & Hn2 & [Hn3 Hn4]%list.NoDup_cons). split.
    + intros x. specialize (Hm x). rewrite elem_of_app, elem_of_cons in Hm. rewrite elem_of_app.
      split; [|set_solver]. intros Hx. split; [apply Hm; naive_solver|]. intros [= ->]. set_solver.
    + apply list.NoDup_app. set_solver.
    + by eapply sorted_remove.
Qed.

Lemma queue_insert_after_spec t r q : forall (Q : list rptr -> World -> Prop) w,
  (forall x, x ∈ q -> is_Some (rh w !! x)) ->
  (forall l1 l2, q = l1 ++ l2 -> (forall x, x ∈ l1 -> time_le (due (rh w) x) t) ->
     (forall x, head l2 = Some x -> time_le t (due (rh w) x)) -> Q (l1 ++ r :: l2) w) ->
  wp (queue_insert_after t r q) Q w.
Proof.
  induction q as [|y q IH]; intros Q w Hall HQ; cbn [queue_insert_after].
  - apply wps_ret. apply (HQ [] []); [done|set_solver|done].
  - apply wps_bind, wp_act_time; [apply Hall; by left|].
    destruct (Z.leb_spec (Time_cmp (due (rh w) y) t) 0) as [Hle|Hgt].
    + apply Time_cmp_le in Hle. apply wps_bind, IH; [intros x Hx; apply Hall; by right|].
      intros l1 l2 -> H1 H2. apply wps_ret. apply (HQ (y :: l1) l2); [done| |done].
      intros x Hx. rewrite elem_of_cons in Hx. naive_solver.
    + apply wps_ret. apply (HQ [] (y :: q)); [done|set_solver|]. intros x [= ->].
      destruct (total time_le t (due (rh w) x)) as [H|H]; [done|]. apply Time_cmp_le in H. lia.
Qed.

Lemma queue_insert_spec t r q (Q : list rptr -> World -> Prop) w :
  (forall x, x ∈ q -> is_Some (rh w !! x)) ->
  (forall l1 l2, q = l1 ++ l2 -> (forall x, x ∈ l1 -> time_le (due (rh w) x) t) ->
     (forall x, head l2 = Some x -> time_le t (due (rh w) x)) -> Q (l1 ++ r :: l2) w) ->
  wp (queue_insert t r q) Q w.
Proof.
  intros Hall HQ. destruct q as [|y q]; cbn [queue_insert].
  - apply wps_ret. apply (HQ [] []); [done|set_solver|done].
  - apply wps_bind, wp_act_time; [apply Hall; by left|].
    destruct (Z.ltb_spec (Time_cmp t (due (rh w) y)) 0) as [Hlt|Hge].
    + apply wps_ret. apply (HQ [] (y :: q)); [done|set_solver|]. intros x [= <-]. apply Time_cmp_le. lia.
    + apply wps_bind, queue_insert_after_spec; [intros x Hx; apply Hall; by right|].
      intros l1 l2 -> H1 H2. apply wps_ret. apply (HQ (y :: l1) l2); [done| |done].
      intros x Hx. rewrite elem_of_cons in Hx. destruct Hx as [->|Hx]; [|by apply H1].
      destruct (decide (time_le (due (rh w) y) t)) as [|Hn]; [done|]. apply Time_cmp_lt in Hn. lia.
Qed.

(** Placing [r] where the scan stops keeps the order. *)
Lemma queue_insert_inv r rm l1 l2 :
  queue_inv (Some r) rm (l1 ++ l2) -> is_Some (rm !! r) ->
  (forall x, x ∈ l1 -> time_le (due rm x) (due rm r)) ->
  (forall x, head l2 = Some x -> time_le (due rm r) (due rm x)) ->
  queue_inv None rm (l1 ++ r :: l2).
Proof.
  intros [Hm Hn Hs] Hr H1 H2. assert (r ∉ l1 ++ l2) as Hnr by (intros H; apply Hm in H as [_ H]; done). split.
  - intros x. specialize (Hm x). rewrite elem_of_app in *. rewrite elem_of_cons.
    destruct (decide (x = r)) as [->|]; [naive_solver|]. split; naive_solver.
  - apply list.NoDup_app in Hn as (Hn1 & Hn2 & Hn3). apply list.NoDup_app. split; [done|].
    split; [set_solver|]. apply list.NoDup_cons. set_solver.
  - apply StronglySorted_app_iff in Hs as (Hs1 & Hs2 & Hs3). apply StronglySorted_app_iff.
    assert (forall x, x ∈ l2 -> not_later rm r x) as Hafter.
    { destruct l2 as [|y l2]; [set_solver|]. apply StronglySorted_inv in Hs2 as [_ Hf].
      rewrite Forall_forall in Hf. intros x Hx. rewrite elem_of_cons in Hx. destruct Hx as [->|Hx]; [by apply H2|].
      unfold not_later. transitivity (due rm y); [by apply H2|by apply Hf]. }
    split; [done|]. split; [constructor; [done|by apply Forall_forall]|].
    intros x y Hx Hy. rewrite elem_of_cons in Hy. destruct Hy as [->|Hy]; [by apply H1|by apply Hs3].
Qed.

Lemma queue_sanity_spec q : forall i (Q : unit -> World -> Prop) w,
  (forall x, x ∈ q -> is_Some (rh w !! x)) -> NoDup q -> StronglySorted (not_later (rh w)) q ->
  0 <= i -> i + Z.of_nat (length q) <= 100000 -> Q tt w -> wp (queue_sanity i q) Q w.
Proof.
  induction q as [|x q IH]; intros i Q w Hall Hn Hs Hi Hlen HQ; cbn [queue_sanity]; [by apply wps_ret|].
  cbn [length] in Hlen. rewrite (proj2 (Z.ltb_lt _ _)) by lia.
  apply list.NoDup_cons in Hn as [Hx Hn]. apply StronglySorted_inv in Hs as [Hs Hf]. apply wps_bind.
  assert (wp (queue_sanity (i + 1) q) Q w) as Hrest.
  { apply IH; try done; try lia. intros y Hy. apply Hall. by right. }
  destruct q as [|y q]; [by apply wps_ret|].
  apply wps_bind, wps_assert; [apply bool_decide_eq_true_2; set_solver|].
  apply wps_bind, wp_act_time; [apply Hall; by left|]. apply wps_bind, wp_act_time; [apply Hall; set_solver|].
  apply wps_assert; [|done]. apply Z.leb_le, Time_cmp_le. rewrite Forall_forall in Hf. apply Hf. by left.
Qed.

(** ** Scheduling *)
Lemma nanos_Time_add a b : nanos (Time_add a b) = nanos a + nanos b.
Proof. unfold nanos, Time_add. rewrite Z.gtb_ltb. destruct (Z.ltb_spec 1000000000 (tv_nsec a + tv_nsec b)); simpl; lia. Qed.
Lemma nanos_setFromNanos n : nanos (Time_setFromNanos n) = n.
Proof. unfold nanos, Time_setFromNanos. simpl. lia. Qed.

(** Adding a positive delay gives a later time. *)
Lemma Time_add_later now n : normalized now -> 0 < n -> ~ time_le (Time_add now (Time_setFromNanos n)) now.
Proof.
  unfold normalized, time_le, Time_add, Time_setFromNanos. simpl. intros H Hn. rewrite Z.gtb_ltb.
  assert (0 <= n / 1000000000 /\ 0 <= n - n / 1000000000 * 1000000000 < 1000000000) as [H1 H2]
    by (Z.div_mod_to_equations; lia).
  assert (0 < n / 1000000000 \/ 0 < n - n / 1000000000 * 1000000000) as H3 by lia.
  destruct (Z.ltb_spec 1000000000 (tv_nsec now + (n - n / 1000000000 * 1000000000))); simpl; lia.
Qed.

(** The delay in milliseconds a range in a given state is scheduled with. *)
Definition delay_bounds (s : Maap_State) : Z * Z :=
  match s with MAAP_STATE_PROBING => (501, 599) | _ => (30001, 31999) end.

(** [tm] is a deadline set at time [now] for a range in state [s]. *)
Definition deadline (s : Maap_State) (now tm : Time) : Prop :=
  nanos now + fst (delay_bounds s) * 1000000 <= nanos tm <= nanos now + snd (delay_bounds s) * 1000000 /\
  ~ time_le tm now.

Section schedule.
Context {env : Environment}.

Lemma set_deadline_spec s r base variation (Q : unit -> World -> Prop) w :
  is_Some (rh w !! r) -> delay_bounds s = (base + 1, base + variation - 1) ->
  2 <= variation <= 10000 -> 0 <= base <= 100000 ->
  (forall tm, deadline s (clock_at (S (tick w))) tm ->
     Q tt (mkWorld (mc w) (ih w) (alter (set_next_act_time tm) r (rh w)) (2 + tick w))) ->
  wp (set_deadline r base variation) Q w.
Proof.
  intros Hr Hb Hv Hbase HQ. unfold set_deadline, rand_ms. apply wps_bind, wps_bind. unfold c_random, wp at 1.
  apply wps_ret. apply wps_bind. unfold c_clock, wp at 1.
  pose proof (random_at_range (tick w)) as Hx. set (x := random_at (tick w)) in *.
  pose proof (Z.rem_bound_pos x (variation - 1) ltac:(lia) ltac:(lia)) as Hrem.
  set (ms := Z.rem x (variation - 1) + 1) in *. rewrite (u64_small (base + ms)) by lia. rewrite u64_small by lia.
  apply wp_store_range; [done|]. cbn [upd_rh upd_tick tick].
  apply (HQ (Time_add (clock_at (S (tick w))) (Time_setFromNanos ((base + ms) * 1000000)))).
  split; [|apply Time_add_later; [apply clock_at_normalized|lia]].
  rewrite nanos_Time_add, nanos_setFromNanos, Hb. simpl. lia.
Qed.

Lemma due_alter_ne rm r x f : r <> x -> due (alter f r rm) x = due rm x.
Proof. intros. unfold due. by rewrite lookup_alter_ne. Qed.
Lemma due_alter_eq rm r R tm : rm !! r = Some R -> due (alter (set_next_act_time tm) r rm) r = tm.
Proof. intros H. unfold due. by rewrite lookup_alter_eq, H. Qed.

Lemma queue_inv_set_time r rm q f : queue_inv (Some r) rm q -> queue_inv (Some r) (alter f r rm) q.
Proof.
  intros [H1 H2 H3]. split; [|done|].
  - intros x. rewrite lookup_alter_is_Some. apply H1.
  - eapply sorted_due; [|exact H3]. intros x Hx. apply due_alter_ne. intros ->. by apply H1 in Hx as [_ ?].
Qed.

(** [schedule_timer] gives a live range a deadline of its state's delay from now and
    puts it in its place in the queue, once. *)
Lemma schedule_timer_spec Ex r R (Q : Z -> World -> Prop) w :
  rh w !! r = Some R -> live R -> queue_inv Ex (rh w) (timer_queue (mc w)) -> Ex = None \/ Ex = Some r ->
  Z.of_nat (length (queue_remove r (timer_queue (mc w)))) < 100000 ->
  (forall tm q, deadline (state R) (clock_at (S (tick w))) tm ->
     queue_inv None (alter (set_next_act_time tm) r (rh w)) q ->
     length q = S (length (queue_remove r (timer_queue (mc w)))) ->
     Q 0 (mkWorld (set_timer_queue q (mc w)) (ih w) (alter (set_next_act_time tm) r (rh w)) (2 + tick w))) ->
  wp (schedule_timer r) Q w.
Proof.
  intros HR Hlive Hq HZ Hlen HQ. unfold schedule_timer. apply wps_bind. eapply wp_load_range; [done|]. apply wps_bind.
  assert (forall tm, deadline (state R) (clock_at (S (tick w))) tm ->
    wp (let! c := get_mc in
        let! t := act_time r in
        let! q := queue_insert t r (queue_remove r (timer_queue c)) in
        st_modify (upd_mc (set_timer_queue q)) ;! queue_sanity 0 q ;! st_ret 0)
      Q (mkWorld (mc w) (ih w) (alter (set_next_act_time tm) r (rh w)) (2 + tick w))) as Hrest.
  { intros tm Htm. apply wps_bind, wp_get_mc. apply wps_bind.
    assert (is_Some (alter (set_next_act_time tm) r (rh w) !! r)) as Hr by (rewrite lookup_alter_is_Some; by rewrite HR).
    apply wp_act_time; [done|]. cbn [mc rh].
    pose proof (queue_inv_set_time r _ _ (set_next_act_time tm) (queue_remove_inv _ _ _ _ Hq HZ)) as Hq1.
    apply wps_bind, queue_insert_spec; [intros x Hx; by apply (qi_mem _ _ _ Hq1) in Hx as [? _]|].
    intros l1 l2 Heq H1 H2. rewrite Heq in Hq1. cbn [rh] in *.
    pose proof (queue_insert_inv r _ l1 l2 Hq1 Hr H1 H2) as Hq2.
    assert (length (l1 ++ r :: l2) = S (length (queue_remove r (timer_queue (mc w))))) as Hl
      by (rewrite Heq, !length_app; simpl; lia).
    apply wps_bind, wps_modify. apply wps_bind. apply queue_sanity_spec; cbn [rh upd_mc].
    - intros x Hx. by apply (qi_mem _ _ _ Hq2) in Hx as [? _].
    - apply (qi_nodup _ _ _ Hq2).
    - apply (qi_sorted _ _ _ Hq2).
    - lia.
    - lia.
    - apply wps_ret. by apply HQ. }
  destruct Hlive as [Hs|Hs]; rewrite Hs in *.
  - eapply (set_deadline_spec MAAP_STATE_PROBING); [by rewrite HR|done|unfold MAAP_PROBE_INTERVAL_VARIATION; lia| |exact Hrest].
    unfold MAAP_PROBE_INTERVAL_BASE; lia.
  - eapply (set_deadline_spec MAAP_STATE_DEFENDING); [by rewrite HR|done|unfold MAAP_ANNOUNCE_INTERVAL_VARIATION; lia| |exact Hrest].
    unfold MAAP_ANNOUNCE_INTERVAL_BASE; lia.
Qed.
End schedule.

End mode.
