(* ===== verification/MaapSafety.v ===== *)
(** * Every operation of the MAAP client keeps its invariant and never faults

    Built on the blocks of [MaapInv]: what the notifications and the packets of an
    operation are, and the invariant after each command, packet and timer expiry. *)
From S2P Require Import Prelude Intervals IntervalTree IntervalUpdate MaapPacket MaapTime MaapNet Maap.
From S2P Require Import MaapInv.
From stdpp Require Import base gmap list numbers sorting.
#[local] Open Scope Z_scope.
#[local] Open Scope st_scope.

(** ** Observable effects: packets queued and notifications added *)

(** The MAAP PDUs waiting to be sent (a buffer holds 64 bytes, a PDU 42). *)
Definition packets (c : Maap_Client) : list (list Z) :=
  match net c with Some n => take 42 <$> queued n | None => [] end.

Record effect (ps : list (list Z)) (ns : list (Z * Maap_Notify)) (c c' : Maap_Client) : Prop := mkEffect {
  ef_dest : dest_mac c' = dest_mac c;
  ef_src : src_mac c' = src_mac c;
  ef_base : address_base c' = address_base c;
  ef_len : range_len c' = range_len c;
  ef_init : initialized c' = initialized c;
  ef_notes : notifies c' = notifies c ++ ns;
  ef_packets : packets c' ≡ₚ ps ++ packets c;
  ef_wf : client_wf c -> client_wf c'
}.

(** The links of the client into the heaps are untouched. *)
Definition links_kept (c c' : Maap_Client) : Prop :=
  ranges c' = ranges c /\ timer_queue c' = timer_queue c /\ maxid c' = maxid c.

Lemma effect_refl c : effect [] [] c c.
Proof. constructor; try done. by rewrite app_nil_r. Qed.
Lemma effect_trans ps1 ps2 ns1 ns2 c1 c2 c3 :
  effect ps1 ns1 c1 c2 -> effect ps2 ns2 c2 c3 -> effect (ps2 ++ ps1) (ns1 ++ ns2) c1 c3.
Proof.
  intros [? ? ? ? ? H6 H7 ?] [? ? ? ? ? H6' H7' ?]. constructor; try congruence; auto.
  - by rewrite H6', H6, app_assoc.
  - by rewrite H7', H7, app_assoc.
Qed.
Lemma effect_then ps1 ps2 ns1 ns2 ps ns c1 c2 c3 :
  effect ps1 ns1 c1 c2 -> effect ps2 ns2 c2 c3 -> ps = ps2 ++ ps1 -> ns = ns1 ++ ns2 -> effect ps ns c1 c3.
Proof. intros H1 H2 -> ->. by eapply effect_trans. Qed.
Lemma effect_links_only (f : Maap_Client -> Maap_Client) c :
  dest_mac (f c) = dest_mac c -> src_mac (f c) = src_mac c -> address_base (f c) = address_base c ->
  range_len (f c) = range_len c -> initialized (f c) = initialized c -> notifies (f c) = notifies c ->
  net (f c) = net c -> timer (f c) = timer c -> effect [] [] c (f c).
Proof.
  intros H1 H2 H3 H4 H5 H6 H7 H8. constructor; try done.
  - by rewrite app_nil_r.
  - unfold packets. by rewrite H7.
  - intros []. constructor; rewrite ?H1, ?H2, ?H3, ?H4, ?H5, ?H7, ?H8; done.
Qed.
Lemma effect_set_ranges x c : effect [] [] c (set_ranges x c).
Proof. by apply effect_links_only. Qed.
Lemma effect_set_timer_queue x c : effect [] [] c (set_timer_queue x c).
Proof. by apply effect_links_only. Qed.
Lemma effect_set_maxid x c : effect [] [] c (set_maxid x c).
Proof. by apply effect_links_only. Qed.

Create HintDb effects.
#[export] Hint Resolve effect_refl effect_set_ranges effect_set_timer_queue effect_set_maxid : effects.

(** Rewriting with what an effect keeps. *)
Ltac keep H :=
  rewrite ?(ef_dest _ _ _ _ H), ?(ef_src _ _ _ _ H), ?(ef_base _ _ _ _ H), ?(ef_len _ _ _ _ H), ?(ef_init _ _ _ _ H).

(** The notifications and packets of maap.c about a range stored at [lo, hi]. *)
Definition span_count (lo hi : Z) : Z := i32 (u32 (hi - lo + 1)).
Definition note_of (k : Maap_Notify_Tag) (rid base lo hi : Z) (res : Maap_Notify_Error) : Maap_Notify :=
  mkNotify k rid (u64 (base + lo)) (u32 (span_count lo hi)) res.
Definition announcement (mt : Z) (c : Maap_Client) (lo hi : Z) : MAAP_Packet :=
  mkPacket (dest_mac c) (src_mac c) MAAP_TYPE MAAP_SUBTYPE 0 0 mt 1 16 0
    (u64 (address_base c + lo)) (u16 (span_count lo hi)) 0 0.
Definition defence (c : Maap_Client) (lo hi start count destination : Z) : MAAP_Packet :=
  let own_start := u64 (address_base c + lo) in
  let own_end := u64 (address_base c + hi) in
  let conflict_start := if own_start <? start then start else own_start in
  let conflict_end := if own_end >? u64 (start + count - 1) then u64 (start + count - 1) else own_end in
  mkPacket destination (src_mac c) MAAP_TYPE MAAP_SUBTYPE 0 0 MAAP_DEFEND 1 16 0 start count
    conflict_start (u16 (conflict_end - conflict_start + 1)).

(** The range [r] is stored in the node [a] of the heap. *)
Definition placed (w : World) (r : rptr) (R : Range) (a : iptr) : Prop :=
  rh w !! r = Some R /\ interval R = Some a /\ is_Some (ih w !! a).
Abbreviation lo_of w a := (low (node (ih w) a)).
Abbreviation hi_of w a := (high (node (ih w) a)).

Section mode.
Context {Oph : Orphans} {T : Stops} {OT : Tolerant Oph T}.

Section io.
Context {env : Environment} (Hmem : memory_available env).

Lemma wp_get_start_address r R a (Q : Z -> World -> Prop) w :
  placed w r R a -> Q (u64 (address_base (mc w) + lo_of w a)) w -> wp (get_start_address r) Q w.
Proof.
  intros (H1 & H2 & H3) HQ. apply wps_bind. eapply wp_range_interval; [done..|].
  apply wps_bind, wp_get_mc. by apply wps_ret.
Qed.
Lemma wp_get_end_address r R a (Q : Z -> World -> Prop) w :
  placed w r R a -> Q (u64 (address_base (mc w) + hi_of w a)) w -> wp (get_end_address r) Q w.
Proof.
  intros (H1 & H2 & H3) HQ. apply wps_bind. eapply wp_range_interval; [done..|].
  apply wps_bind, wp_get_mc. by apply wps_ret.
Qed.
Lemma wp_get_count r R a (Q : Z -> World -> Prop) w :
  placed w r R a -> Q (span_count (lo_of w a) (hi_of w a)) w -> wp (get_count r) Q w.
Proof. intros (H1 & H2 & H3) HQ. apply wps_bind. eapply wp_range_interval; [done..|]. by apply wps_ret. Qed.

Lemma wp_add_notify s n (Q : unit -> World -> Prop) w :
  (forall c', effect [] [(s, n)] (mc w) c' -> links_kept (mc w) c' ->
     Q tt (mkWorld c' (ih w) (rh w) (S (tick w)))) ->
  wp (add_notify s n) Q w.
Proof.
  intros HQ. apply wps_bind, (wp_malloc Hmem). intros a _. apply wps_bind. eapply wps_lift; [done|].
  apply wps_modify. apply HQ; [|done]. constructor; try done. intros []. by constructor.
Qed.

Lemma wp_inform_not_acquired s rid size res (Q : Z -> World -> Prop) w :
  (forall c', effect [] [(s, mkNotify MAAP_NOTIFY_ACQUIRED rid 0 (u32 size) res)] (mc w) c' ->
     links_kept (mc w) c' -> Q 0 (mkWorld c' (ih w) (rh w) (S (tick w)))) ->
  wp (inform_not_acquired s rid size res) Q w.
Proof. intros HQ. apply wps_bind, wp_add_notify. intros c' He Hl. by apply wps_ret, HQ. Qed.

Lemma wp_inform_acquiring r R a (Q : Z -> World -> Prop) w :
  placed w r R a ->
  (forall c', effect [] [(sender R, note_of MAAP_NOTIFY_ACQUIRING (id R) (address_base (mc w)) (lo_of w a) (hi_of w a)
       MAAP_NOTIFY_ERROR_NONE)] (mc w) c' ->
     links_kept (mc w) c' -> Q 0 (mkWorld c' (ih w) (rh w) (S (tick w)))) ->
  wp (inform_acquiring r) Q w.
Proof.
  intros Hp HQ. pose proof Hp as (HR & _). apply wps_bind. eapply wp_load_range; [done|].
  apply wps_bind. eapply wp_get_start_address; [done|]. apply wps_bind. eapply wp_get_count; [done|].
  apply wps_bind, wp_add_notify. intros c' He Hl. by apply wps_ret, HQ.
Qed.
Lemma wp_inform_acquired r R a res (Q : Z -> World -> Prop) w :
  placed w r R a ->
  (forall c', effect [] [(sender R, note_of MAAP_NOTIFY_ACQUIRED (id R) (address_base (mc w)) (lo_of w a) (hi_of w a) res)]
       (mc w) c' ->
     links_kept (mc w) c' -> Q 0 (mkWorld c' (ih w) (rh w) (S (tick w)))) ->
  wp (inform_acquired r res) Q w.
Proof.
  intros Hp HQ. pose proof Hp as (HR & _). apply wps_bind. eapply wp_load_range; [done|].
  apply wps_bind. eapply wp_get_start_address; [done|]. apply wps_bind. eapply wp_get_count; [done|].
  apply wps_bind, wp_add_notify. intros c' He Hl. by apply wps_ret, HQ.
Qed.

(** [inform_released], [inform_status] and [inform_yielded] with and without a range. *)
Lemma wp_inform_range s rid r R a res k (Q : Z -> World -> Prop) w :
  placed w r R a ->
  (forall c', effect [] [(s, note_of k rid (address_base (mc w)) (lo_of w a) (hi_of w a) res)] (mc w) c' ->
     links_kept (mc w) c' -> Q 0 (mkWorld c' (ih w) (rh w) (S (tick w)))) ->
  wp (let! start := start_or_0 (Some r) in let! count := count_or_0 (Some r) in
      add_notify s (mkNotify k rid start (u32 count) res) ;! st_ret 0) Q w.
Proof.
  intros Hp HQ. apply wps_bind. eapply wp_get_start_address; [done|]. apply wps_bind.
  eapply wp_get_count; [done|]. apply wps_bind, wp_add_notify. intros c' He Hl. by apply wps_ret, HQ.
Qed.
Lemma wp_inform_none s rid res k (Q : Z -> World -> Prop) w :
  (forall c', effect [] [(s, mkNotify k rid 0 0 res)] (mc w) c' ->
     links_kept (mc w) c' -> Q 0 (mkWorld c' (ih w) (rh w) (S (tick w)))) ->
  wp (let! start := start_or_0 None in let! count := count_or_0 None in
      add_notify s (mkNotify k rid start (u32 count) res) ;! st_ret 0) Q w.
Proof.
  intros HQ. apply wps_bind, wps_ret. apply wps_bind, wps_ret. apply wps_bind, wp_add_notify.
  intros c' He Hl. by apply wps_ret, HQ.
Qed.

Lemma wp_send_packet p (Q : Z -> World -> Prop) w :
  client_wf (mc w) ->
  (forall c', effect [pack_maap p] [] (mc w) c' -> links_kept (mc w) c' ->
     Q 0 (mkWorld c' (ih w) (rh w) (S (tick w)))) ->
  wp (send_packet p) Q w.
Proof.
  intros Hcw HQ. destruct (cw_net _ Hcw) as (n & Hn & Hwf). apply wps_bind, wp_get_mc.
  apply wps_bind. eapply wps_lift; [by rewrite Hn|]. apply wps_bind, (wp_malloc Hmem). intros a Ha.
  unfold used_buffers in Ha. rewrite Hn, elem_of_list_to_set in Ha.
  destruct (Net_send_spec n a (pack_maap p) Hwf Ha) as (buf & n1 & n2 & pad & H1 & H2 & H3 & H4 & H5);
    [rewrite pack_maap_length; lia|].
  apply wps_bind. eapply wps_lift; [exact H1|]. apply wps_bind. eapply wps_lift; [exact H2|].
  apply wps_bind, wps_modify, wps_ret. apply HQ; [|done]. constructor; try done.
  - simpl. by rewrite app_nil_r.
  - unfold packets. cbn [mc upd_mc net set_net snd]. rewrite Hn, H5, fmap_cons.
    rewrite take_app_le, take_ge by (rewrite pack_maap_length; lia). done.
  - intros []. constructor; try done. by exists n2.
Qed.

Lemma wp_send_range mt r R a (Q : Z -> World -> Prop) w :
  client_wf (mc w) -> placed w r R a ->
  (forall c', effect [pack_maap (announcement mt (mc w) (lo_of w a) (hi_of w a))] [] (mc w) c' ->
     links_kept (mc w) c' -> Q 0 (mkWorld c' (ih w) (rh w) (S (tick w)))) ->
  wp (let! c := get_mc in
      let! p := st_lift (init_packet (dest_mac c) (src_mac c)) in
      let! start := get_start_address r in
      let! count := get_count r in
      send_packet (mkPacket (DA p) (SA p) (Ethertype p) (subtype p) (SV p) (version p) mt
        (maap_version p) (control_data_length p) (stream_id p) start (u16 count)
        (conflict_start_address p) (conflict_count p))) Q w.
Proof.
  intros Hcw Hp HQ. apply wps_bind, wp_get_mc. apply wps_bind. eapply wps_lift.
  { unfold init_packet. rewrite (proj2 (Z.eqb_neq _ _) (cw_dest _ Hcw)), (proj2 (Z.eqb_neq _ _) (cw_src _ Hcw)). done. }
  apply wps_bind. eapply wp_get_start_address; [done|]. apply wps_bind. eapply wp_get_count; [done|].
  apply wp_send_packet; [done|]. exact HQ.
Qed.

Lemma wp_send_defend r R a start count dst (Q : Z -> World -> Prop) w :
  client_wf (mc w) -> placed w r R a ->
  (forall c', effect [pack_maap (defence (mc w) (lo_of w a) (hi_of w a) start count dst)] [] (mc w) c' ->
     links_kept (mc w) c' -> Q 0 (mkWorld c' (ih w) (rh w) (S (tick w)))) ->
  wp (send_defend r start count dst) Q w.
Proof.
  intros Hcw Hp HQ. apply wps_bind, wp_get_mc. apply wps_bind. eapply wps_lift.
  { unfold init_packet. rewrite (proj2 (Z.eqb_neq _ _) (cw_dest _ Hcw)), (proj2 (Z.eqb_neq _ _) (cw_src _ Hcw)). done. }
  apply wps_bind. eapply wp_get_start_address; [done|]. apply wps_bind. eapply wp_get_end_address; [done|].
  apply wp_send_packet; [done|]. exact HQ.
Qed.

Lemma wp_start_timer rm q (Q : unit -> World -> Prop) w :
  client_wf (mc w) -> queue_inv None rm q -> rh w = rm -> timer_queue (mc w) = q ->
  (forall c', effect [] [] (mc w) c' -> links_kept (mc w) c' ->
     Q tt (mkWorld c' (ih w) (rh w) (tick w))) ->
  wp start_timer Q w.
Proof.
  intros Hcw Hq <- <- HQ. apply wps_bind, wp_get_mc. destruct (timer_queue (mc w)) as [|r q] eqn:E.
  - apply wps_ret. specialize (HQ (mc w) (effect_refl _)). destruct w. by apply HQ.
  - destruct (cw_timer _ Hcw) as [tm Htm]. apply wps_bind. eapply wps_lift; [by rewrite Htm|].
    destruct (proj1 (qi_mem _ _ _ Hq r) ltac:(by left)) as [[R HR] _].
    apply wps_bind. eapply wp_load_range; [done|]. apply wps_modify. apply HQ; [|done].
    constructor; try done; [simpl; by rewrite app_nil_r|]. intros []. by constructor.
Qed.
End io.

(** ** Changes of the range heap *)
Definition place_of (R : Range) : option iptr * Maap_State := (interval R, state R).

Lemma place_of_live R R' : place_of R' = place_of R -> interval R' = interval R /\ (live R' <-> live R).
Proof. unfold place_of, live. intros [= -> ->]. done. Qed.

Lemma tree_inv_same_place X Y h rm rm' root len t :
  (forall r, place_of <$> rm' !! r = place_of <$> rm !! r) ->
  tree_inv X Y h rm root len t -> tree_inv X Y h rm' root len t.
Proof.
  intros Hsame [H1 H2 H3 H4 H5]. constructor; [done|done|done| |].
  - intros a Ha HX. destruct (H4 a Ha HX) as [Ho|(r & R & E1 & E2 & E3 & E4 & E5)]; [by left|]. right. specialize (Hsame r).
    rewrite E2 in Hsame. destruct (rm' !! r) as [R'|] eqn:ER'; [|done]. apply (inj Some) in Hsame.
    apply place_of_live in Hsame as [Hi Hl]. exists r, R'. rewrite Hi, Hl. done.
  - intros r R' HR' Hl HY. specialize (Hsame r). rewrite HR' in Hsame.
    destruct (rm !! r) as [R|] eqn:ER; [|done]. apply (inj Some) in Hsame.
    apply place_of_live in Hsame as [Hi Hl']. rewrite Hi. eapply H5; [done|by apply Hl'|done].
Qed.
Lemma place_alter f rm r r' :
  (forall R, place_of (f R) = place_of R) ->
  place_of <$> (alter f r rm : gmap rptr Range) !! r' = place_of <$> rm !! r'.
Proof.
  intros Hf. destruct (decide (r = r')) as [<-|]; [|by rewrite lookup_alter_ne].
  rewrite lookup_alter_eq. destruct (rm !! r); [|done]. simpl. by rewrite Hf.
Qed.

Lemma tree_inv_new h rm root len t r R :
  tree_inv None None h rm root len t -> rm !! r = None -> tree_inv None (Some r) h (<[r := R]> rm) root len t.
Proof.
  intros [H1 H2 H3 H4 H5] Hr. constructor; [done|done|done| |].
  - intros a Ha HX. destruct (H4 a Ha HX) as [Ho|(r' & R' & E1 & E2 & E3 & E4 & E5)]; [by left|]. right. exists r', R'.
    rewrite lookup_insert_ne by congruence. split; [done|]. split; [done|]. split; [done|]. split; [done|]. congruence.
  - intros r' R' HR' Hl HY. rewrite lookup_insert_ne in HR' by congruence. by eapply H5.
Qed.
Lemma tree_inv_delete_exempt h rm root len t r :
  tree_inv None (Some r) h rm root len t -> tree_inv None None h (delete r rm) root len t.
Proof.
  intros [H1 H2 H3 H4 H5]. constructor; [done|done|done| |].
  - intros a Ha HX. destruct (H4 a Ha HX) as [Ho|(r' & R' & E1 & E2 & E3 & E4 & E5)]; [by left|]. right. exists r', R'.
    rewrite lookup_delete_ne by congruence. done.
  - intros r' R' HR' Hl _. rewrite lookup_delete_Some in HR'. destruct HR' as [Hne HR']. apply H5; [done|done|congruence].
Qed.
Lemma queue_inv_new rm q r R :
  queue_inv None rm q -> rm !! r = None -> queue_inv (Some r) (<[r := R]> rm) q.
Proof.
  intros [H1 H2 H3] Hr. split; [|done|].
  - intros x. rewrite H1. destruct (decide (x = r)) as [->|].
    + rewrite Hr. split; [intros [[? ?] _]; done|naive_solver].
    + rewrite lookup_insert_ne by done. naive_solver.
  - eapply sorted_due; [|exact H3]. intros x Hx. unfold due. rewrite lookup_insert_ne; [done|].
    intros ->. apply H1 in Hx as [[? ?] _]. congruence.
Qed.
Lemma ranges_wf_insert F rm r R : ranges_wf F rm -> range_wf F r R -> ranges_wf F (<[r := R]> rm).
Proof.
  intros H HR r' R'. destruct (decide (r = r')) as [<-|].
  - rewrite lookup_insert_eq. by intros [= <-].
  - rewrite lookup_insert_ne by done. apply H.
Qed.
Lemma ranges_wf_alter F rm r f :
  ranges_wf F rm -> (forall R, rm !! r = Some R -> range_wf F r (f R)) -> ranges_wf F (alter f r rm).
Proof.
  intros H HR r' R'. destruct (decide (r = r')) as [<-|].
  - rewrite lookup_alter_eq. destruct (rm !! r) as [R|]; [|done]. intros [= <-]. by apply HR.
  - rewrite lookup_alter_ne by done. apply H.
Qed.
Lemma range_wf_time F r tm R : range_wf F r R -> range_wf F r (set_next_act_time tm R).
Proof. done. Qed.

(** The keys of a tree with one more node. *)
Lemma inserted_keys h t x k h' root' t' :
  inserted h t x k h' root' t' -> keys h' (inorder t') ≡ₚ k :: keys h (inorder t).
Proof.
  intros Hi. destruct (ins_order _ _ _ _ _ _ _ Hi) as (l1 & l2 & E1 & E2).
  assert (x ∉ l1 ++ l2) as Hx.
  { pose proof (ordered_NoDup _ _ (iset_ordered _ _ _ (ins_set _ _ _ _ _ _ _ Hi))) as Hn. rewrite E2 in Hn.
    apply list.NoDup_app in Hn as (H1 & H2 & [H3 H4]%list.NoDup_cons). set_solver. }
  assert (keys h' (l1 ++ l2) = keys h (l1 ++ l2)) as Hk.
  { apply keys_same. intros b Hb. apply (ins_other _ _ _ _ _ _ _ Hi). set_solver. }
  rewrite E1, <- Hk, E2, !keys_app. unfold keys at 2. rewrite fmap_cons, (ins_key _ _ _ _ _ _ _ Hi).
  fold (keys h' l2). by rewrite <- Permutation_middle.
Qed.

(** The stored intervals with their ranges, in order. *)
Definition view (w : World) (t : tree) : list (Z * Z * option rptr) := keys (ih w) (inorder t).

(** Where a live range is stored. *)
Lemma inv_placed X Y w t r R :
  tree_inv X Y (ih w) (rh w) (ranges (mc w)) (range_len (mc w)) t -> rh w !! r = Some R -> live R -> Some r <> Y ->
  exists a, placed w r R a /\ a ∈ inorder t /\ Some a <> X /\ node_data (ih w) a = Some r.
Proof.
  intros Ht HR Hl HY. destruct (ti_range _ _ _ _ _ _ _ Ht r R HR Hl HY) as (a & H1 & H2 & H3 & H4).
  exists a. split; [|done]. split; [done|]. split; [done|]. by apply (ti_dom _ _ _ _ _ _ _ Ht).
Qed.

(** A new reservation that was started. *)
Record started (w w' : World) (t t' : tree) (s base n rid : Z) : Prop := mkStarted {
  sd_inv : client_inv ∅ w' t';
  sd_view : exists r start R,
    rh w !! r = None /\ rh w' !! r = Some R /\
    id R = rid /\ state R = MAAP_STATE_PROBING /\ counter R = MAAP_PROBE_RETRANSMITS /\ sender R = s /\
    0 <= start /\ start + n <= range_len (mc w) /\
    (attempt_free w t base n -> start = base - address_base (mc w)) /\
    view w' t' ≡ₚ (start, start + n - 1, Some r) :: view w t /\
    (forall r', r' <> r -> rh w' !! r' = rh w !! r') /\
    effect [pack_maap (announcement MAAP_PROBE (mc w) start (start + n - 1))]
      [(s, note_of MAAP_NOTIFY_ACQUIRING rid (address_base (mc w)) start (start + n - 1) MAAP_NOTIFY_ERROR_NONE)]
      (mc w) (mc w')
}.

(** A refused one: nothing but the notification. *)
Record refused (w w' : World) (t : tree) (n : Maap_Notify) (s : Z) : Prop := mkRefused {
  rf_inv : client_inv ∅ w' t;
  rf_ih : ih w' = ih w;
  rf_rh : rh w' = rh w;
  rf_effect : effect [] [(s, n)] (mc w) (mc w')
}.

(** A block was found on the last draw and refused all the same: it stays in the tree
    and no range owns it. *)
Record leaked (w w' : World) (t t' : tree) (n : Z) (mn : Maap_Notify) (s : Z) : Prop := mkLeaked {
  lk_inv : client_inv ∅ w' t';
  lk_view : exists start, view w' t' ≡ₚ (start, start + n - 1, None) :: view w t;
  lk_rh : rh w' = rh w;
  lk_effect : effect [] [(s, mn)] (mc w) (mc w')
}.

Lemma client_inv_transport F w t c' tk :
  client_inv F w t -> ranges c' = ranges (mc w) -> timer_queue c' = timer_queue (mc w) ->
  range_len c' = range_len (mc w) -> client_wf c' -> client_inv F (mkWorld c' (ih w) (rh w) tk) t.
Proof. intros [H1 H2 H3 H4] E1 E2 E3 Hw. constructor; simpl; rewrite ?E1, ?E2, ?E3; done. Qed.

Section reserve.
Context {env : Environment} (Hmem : memory_available env) (Hlate : late_tolerated env).

Lemma u16_i32_small n : 1 <= n <= 65535 -> u16 n = n /\ i32 n = n /\ u32 n = n.
Proof. intros. split; [apply u16_small; lia|]. split; [apply i32_small; lia|apply u32_small; lia]. Qed.

(** The part of [maap_reserve_range] after the range got its interval. *)
Lemma reserve_started s base n rid w t r start x h' root' t' now c1 tk (Q : Z -> World -> Prop) :
  client_inv ∅ w t -> Z.of_nat (length (timer_queue (mc w))) < 100000 ->
  rh w !! r = None -> effect [] [] (mc w) c1 -> timer_queue c1 = timer_queue (mc w) -> range_len c1 = range_len (mc w) ->
  let R := set_interval (Some x) (new_range rid s now) in
  inserted (ih w) t x (start, start + n - 1, Some r) h' root' t' -> 0 <= start -> start + n <= range_len (mc w) ->
  (attempt_free w t base n -> start = base - address_base (mc w)) ->
  tree_inv None None h' (<[r := R]> (rh w)) root' (range_len (mc w)) t' ->
  (forall w', started w w' t t' s base n rid -> Q rid w') ->
  wp (let! _ := inform_acquiring r in let! _ := schedule_timer r in start_timer ;!
      let! _ := send_probe r in st_ret rid) Q
    (mkWorld (set_ranges root' c1) h' (<[r := R]> (rh w)) tk).
Proof.
  intros [Hti Hq Hrw Hcw] Hlen Hr He1 Hq1 Hl1 R Hins Hs0 Hs1 Hatt Hti' HQ.
  assert (is_Some (h' !! x)) as Hx by (apply (ins_dom _ _ _ _ _ _ _ Hins); by left).
  destruct (contents_eq _ _ _ _ (ins_key _ _ _ _ _ _ _ Hins)) as (Hlo & Hhi & _).
  assert (live R) as HlR by (by left).
  apply wps_bind. eapply (wp_inform_acquiring Hmem r R x).
  { split; [apply lookup_insert_eq|]. done. }
  cbn [ih mc rh tick]. rewrite Hlo, Hhi. intros c2 He2 (E1 & E2 & E3). cbn [ranges timer_queue set_ranges] in *.
  apply wps_bind. eapply (schedule_timer_spec (Some r) r R); cbn [rh mc ih tick].
  { apply lookup_insert_eq. } { done. } { rewrite E2, Hq1. by apply queue_inv_new. } { by right. }
  { rewrite E2, Hq1. destruct (queue_remove_split r (timer_queue (mc w))) as [[_ ->]|(l1 & l2 & E & _)]; [done|].
    exfalso. assert (r ∈ timer_queue (mc w)) as H by (rewrite E; set_solver).
    apply (qi_mem _ _ _ Hq) in H as [[? H] _]. congruence. }
  intros tm q Hd Hq' Hlq. set (rm' := alter (set_next_act_time tm) r (<[r := R]> (rh w))) in *.
  assert (effect [] [(s, note_of MAAP_NOTIFY_ACQUIRING rid (address_base (mc w)) start (start + n - 1)
    MAAP_NOTIFY_ERROR_NONE)] (mc w) c2) as He.
  { eapply effect_then; [exact He1|eapply effect_then; [apply effect_set_ranges|exact He2|done|done]|done|].
    simpl. by rewrite (ef_base _ _ _ _ He1). }
  apply wps_bind. eapply (wp_start_timer rm' q); cbn [rh mc timer_queue set_timer_queue ih tick].
  { apply (ef_wf _ _ _ _ (effect_set_timer_queue q c2)), (ef_wf _ _ _ _ He), Hcw. } { done. } { done. } { done. }
  intros c3 He3 (F1 & F2 & F3). cbn [ranges timer_queue maxid set_timer_queue] in *.
  assert (rm' !! r = Some (set_next_act_time tm R)) as Hr' by (unfold rm'; by rewrite lookup_alter_eq, lookup_insert_eq).
  assert (effect [] [(s, note_of MAAP_NOTIFY_ACQUIRING rid (address_base (mc w)) start (start + n - 1)
    MAAP_NOTIFY_ERROR_NONE)] (mc w) c3) as Hec3.
  { eapply effect_then; [exact He|eapply effect_then; [apply effect_set_timer_queue|exact He3|done|done]|done|done]. }
  apply wps_bind. eapply (wp_send_range Hmem MAAP_PROBE r _ x); cbn [rh mc ih tick].
  { apply (ef_wf _ _ _ _ Hec3), Hcw. } { split; [exact Hr'|]. done. }
  cbn [ih mc rh tick]. rewrite Hlo, Hhi. intros c4 He4 (G1 & G2 & G3). apply wps_ret, HQ.
  assert (effect [pack_maap (announcement MAAP_PROBE (mc w) start (start + n - 1))]
      [(s, note_of MAAP_NOTIFY_ACQUIRING rid (address_base (mc w)) start (start + n - 1) MAAP_NOTIFY_ERROR_NONE)]
      (mc w) c4) as Hec4.
  { eapply effect_then; [exact Hec3|exact He4| |done].
    unfold announcement. by keep Hec3. }
  constructor.
  - constructor; cbn [rh mc ih tick].
    + rewrite G1, F1, E1, (ef_len _ _ _ _ Hec4). eapply tree_inv_same_place; [|exact Hti'].
      intros r'. by apply place_alter.
    + by rewrite G2, F2.
    + apply ranges_wf_alter.
      * apply ranges_wf_insert; [done|]. split; [done|]. split; [set_solver|]. simpl. unfold MAAP_PROBE_RETRANSMITS. lia.
      * intros R'. rewrite lookup_insert_eq. intros [= <-]. split; [done|]. split; [set_solver|].
        simpl. unfold MAAP_PROBE_RETRANSMITS. lia.
    + apply (ef_wf _ _ _ _ Hec4), Hcw.
  - exists r, start, (set_next_act_time tm R). do 9 (split; [done|]). split; [by apply inserted_keys in Hins|].
    split; [|done]. intros r' Hne. cbn [rh]. unfold rm'. rewrite lookup_alter_ne, lookup_insert_ne by done. done.
Qed.

Lemma u32_i32 n : 0 <= n < 2 ^ 32 -> u32 (i32 n) = n.
Proof. intros H. zdiv_lia. Qed.

Lemma maap_reserve_range_spec s base n w t (Q : Z -> World -> Prop) :
  client_inv ∅ w t -> 1 <= n < 2 ^ 32 -> 0 <= base < 2 ^ 48 ->
  Z.of_nat (length (timer_queue (mc w))) < 100000 ->
  (forall w', refused w w' t (mkNotify MAAP_NOTIFY_ACQUIRED (-1) 0 n MAAP_NOTIFY_ERROR_RESERVE_NOT_AVAILABLE) s ->
     65535 < n \/ range_len (mc w) < n \/ ~ attempt_free w t base n -> Q (-1) w') ->
  (orphans -> forall w' t',
     leaked w w' t t' n (mkNotify MAAP_NOTIFY_ACQUIRED (-1) 0 n MAAP_NOTIFY_ERROR_RESERVE_NOT_AVAILABLE) s -> Q (-1) w') ->
  (forall w' t', started w w' t t' s base n (i32 (maxid (mc w) + 1)) -> Q (i32 (maxid (mc w) + 1)) w') ->
  wp (maap_reserve_range s base n) Q w.
Proof.
  intros Hi Hn Hbase Hlen Hfail Hleak Hok. pose proof Hi as [Hti Hq Hrw Hcw]. unfold maap_reserve_range.
  apply wps_bind, wp_get_mc. rewrite (cw_init _ Hcw). simpl negb. cbv iota. rewrite !Z.gtb_ltb.
  unfold inform_not_acquired. rewrite u32_i32 by lia.
  destruct ((65535 <? n) || (range_len (mc w) <? n)) eqn:E.
  { apply wps_bind. apply wps_bind, (wp_add_notify Hmem). intros c' He (E1 & E2 & E3). apply wps_ret, wps_ret.
    apply Hfail.
    - constructor; [|done|done|done]. eapply client_inv_transport; try done; [apply (ef_len _ _ _ _ He)|].
      apply (ef_wf _ _ _ _ He), Hcw.
    - apply orb_true_iff in E as [E%Z.ltb_lt|E%Z.ltb_lt]; auto. }
  apply orb_false_iff in E as [E1%Z.ltb_ge E2%Z.ltb_ge].
  apply wps_bind, (wp_malloc Hmem). intros r Hr. unfold used_ranges in Hr. rewrite not_elem_of_dom in Hr.
  apply wps_bind, wps_modify. apply wps_bind. unfold c_clock, wp at 1. apply wps_bind, wps_modify.
  set (rid := i32 (maxid (mc w) + 1)) in *. cbn [mc ih rh upd_mc upd_tick upd_rh tick].
  set (c1 := set_maxid rid (mc w)). set (R := new_range rid s _).
  rewrite (proj1 (u16_i32_small n ltac:(lia))). apply wps_bind.
  eapply (assign_interval_spec Hmem Hlate None r R base n t); cbn [mc ih rh tick ranges range_len set_maxid upd_rh upd_tick upd_mc].
  { by apply tree_inv_new. } { done. } { apply lookup_insert_eq. } { by left. }
  { apply (ef_wf _ _ _ _ (effect_set_maxid rid (mc w))), Hcw. } { lia. } { lia. } { done. }
  - intros Hna tk. simpl (_ <? _). cbv iota.
    apply wps_bind. apply wps_bind, (wp_add_notify Hmem). intros c' He (F1 & F2 & F3). apply wps_ret.
    apply wps_bind, wp_free_range; [simpl; by rewrite lookup_insert_eq|]. apply wps_ret.
    unfold upd_rh, at_tick. cbn [mc ih rh tick]. rewrite delete_insert_id by done.
    assert (effect [] [(s, mkNotify MAAP_NOTIFY_ACQUIRED (-1) 0 n MAAP_NOTIFY_ERROR_RESERVE_NOT_AVAILABLE)] (mc w) c')
      as He' by (eapply effect_then; [apply effect_set_maxid|exact He|done|done]).
    apply Hfail; [|right; right; exact Hna]. constructor; [|done|done|done].
    apply (client_inv_transport ∅ w); [exact Hi|exact F1|exact F2|apply (ef_len _ _ _ _ He')|].
    apply (ef_wf _ _ _ _ He'), Hcw.
  - intros Ho Hna x start h' root' t' tk Hins Hti'. simpl (_ <? _). cbv iota.
    apply wps_bind. apply wps_bind, (wp_add_notify Hmem). intros c' He (F1 & F2 & F3). apply wps_ret.
    apply wps_bind, wp_free_range; [simpl; by rewrite lookup_insert_eq|]. apply wps_ret.
    unfold upd_rh, with_tree in *. cbn [mc ih rh tick ranges timer_queue set_ranges set_maxid] in *. rewrite delete_insert_id by done.
    assert (effect [] [(s, mkNotify MAAP_NOTIFY_ACQUIRED (-1) 0 n MAAP_NOTIFY_ERROR_RESERVE_NOT_AVAILABLE)] (mc w) c')
      as He' by (eapply effect_then; [apply effect_set_maxid|eapply effect_then; [apply effect_set_ranges|exact He|done|done]|done|done]).
    apply (Hleak Ho _ t'). constructor; [|exists start; by apply inserted_keys in Hins|done|done].
    constructor; cbn [mc ih rh]; rewrite ?F1, ?F2, ?(ef_len _ _ _ _ He'); [|done|done|apply (ef_wf _ _ _ _ He'), Hcw].
    apply tree_inv_delete_exempt in Hti'. by rewrite delete_insert_id in Hti'.
  - intros x start h' root' t' tk Hins Hs0 Hs1 Hatt Hti'. simpl (_ <? _). cbv iota.
    replace (alter (set_interval (Some x)) r (<[r:=R]> (rh w)))
      with (<[r := set_interval (Some x) R]> (rh w)) in * by (by rewrite alter_insert_eq).
    eapply (reserve_started s base n rid w t r start x h' root' t' _ c1); try done.
    + apply effect_set_maxid.
    + intros w' Hw'. by eapply Hok.
Qed.

End reserve.

(** ** Releasing a range *)
Lemma tree_inv_detach h rm root len t a r :
  tree_inv None None h rm root len t -> a ∈ inorder t -> node_data h a = Some r ->
  tree_inv (Some a) (Some r) h rm root len t.
Proof.
  intros [H1 H2 H3 H4 H5] Ha Hr. constructor; [done|done|done| |].
  - intros b Hb Hne. destruct (H4 b Hb ltac:(done)) as [Ho|(r' & R' & E1 & E2 & E3 & E4 & E5)]; [by left|]. right. exists r', R'.
    do 4 (split; [done|]). intros [= ->]. unfold node_data in Hr.
    destruct (H4 a Ha ltac:(done)) as [[_ D]|(r2 & R2 & D1 & D2 & D3 & _)]; congruence.
  - intros r' R' HR' Hl HY. destruct (H5 r' R' HR' Hl ltac:(done)) as (b & E1 & E2 & E3 & E4). exists b.
    do 2 (split; [done|]). split; [|done]. unfold node_data in Hr. congruence.
Qed.
Lemma tree_inv_drop h rm root len t r :
  tree_inv None (Some r) h rm root len t ->
  tree_inv None None h (alter (set_state MAAP_STATE_RELEASED) r rm) root len t.
Proof.
  intros [H1 H2 H3 H4 H5]. constructor; [done|done|done| |].
  - intros b Hb Hne. destruct (H4 b Hb Hne) as [Ho|(r' & R' & E1 & E2 & E3 & E4 & E5)]; [by left|]. right. exists r', R'.
    rewrite lookup_alter_ne by congruence. done.
  - intros r' R' HR' Hl _. destruct (decide (r = r')) as [<-|Hne].
    + rewrite lookup_alter_eq in HR'. destruct (rm !! r); [|done]. simpl in HR'. injection HR' as <-.
      by destruct Hl.
    + rewrite lookup_alter_ne in HR' by done. apply H5; [done|done|congruence].
Qed.
Lemma queue_inv_alter Ex rm q r f :
  (forall R, next_act_time (f R) = next_act_time R) -> queue_inv Ex rm q -> queue_inv Ex (alter f r rm) q.
Proof.
  intros Hf [H1 H2 H3]. split; [|done|].
  - intros x. rewrite lookup_alter_is_Some. apply H1.
  - eapply sorted_due; [|exact H3]. intros x _. unfold due. destruct (decide (r = x)) as [<-|].
    + rewrite lookup_alter_eq. destruct (rm !! r); [|done]. simpl. by rewrite Hf.
    + by rewrite lookup_alter_ne.
Qed.

Lemma keys_middle h xs a ys : keys h (xs ++ a :: ys) ≡ₚ contents (node h a) :: keys h (xs ++ ys).
Proof. rewrite !keys_app. unfold keys at 2. rewrite fmap_cons. fold (keys h ys). by rewrite <- Permutation_middle. Qed.

(** [remove_range_interval] followed by the change to the released state. *)
Lemma release_node_spec a r R t (Q : unit -> World -> Prop) w :
  tree_inv (Some a) (Some r) (ih w) (rh w) (ranges (mc w)) (range_len (mc w)) t -> a ∈ inorder t ->
  rh w !! r = Some R ->
  match node_data (ih w) a with None => True | Some r' => r' = r /\ interval R = Some a end ->
  (forall h' rm' root' t',
     tree_inv None None h' (alter (set_state MAAP_STATE_RELEASED) r rm') root' (range_len (mc w)) t' ->
     same_ranges (rh w) rm' -> keys (ih w) (inorder t) ≡ₚ contents (node (ih w) a) :: keys h' (inorder t') ->
     Q tt (mkWorld (set_ranges root' (mc w)) h' (alter (set_state MAAP_STATE_RELEASED) r rm') (tick w))) ->
  wp (remove_range_interval a ;! store_range r (set_state MAAP_STATE_RELEASED)) Q w.
Proof.
  intros Hti Ha HR Hd HQ. apply list_elem_of_split in Ha as (xs & ys & Heq). apply wps_bind.
  eapply (remove_range_interval_spec a (Some r) t xs ys); [done|done| |].
  - destruct (node_data (ih w) a) as [r'|]; [|done]. destruct Hd as [-> Hd]. eauto.
  - intros h' rm' root' t' Hti' Hsame Hk _. apply wp_store_range.
    + cbn [rh]. apply (same_ranges_is_Some _ _ _ Hsame). by rewrite HR.
    + eapply HQ; [apply tree_inv_drop, Hti'|done|]. rewrite Heq, keys_middle. by rewrite <- Hk.
Qed.

Lemma find_range_spec test q : forall (Q : option rptr -> World -> Prop) w,
  (forall r, r ∈ q -> is_Some (rh w !! r)) ->
  (forall l1 r l2 R, q = l1 ++ r :: l2 -> rh w !! r = Some R -> test R = true ->
     (forall r' R', r' ∈ l1 -> rh w !! r' = Some R' -> test R' = false) -> Q (Some r) w) ->
  ((forall r R, r ∈ q -> rh w !! r = Some R -> test R = false) -> Q None w) ->
  wp (find_range test q) Q w.
Proof.
  induction q as [|r q IH]; intros Q w Hall Hsome Hnone; cbn [find_range].
  - apply wps_ret, Hnone. set_solver.
  - destruct (Hall r ltac:(by left)) as [R HR]. apply wps_bind. eapply wp_load_range; [done|].
    destruct (test R) eqn:E.
    + apply wps_ret. apply (Hsome [] r q R); try done. set_solver.
    + apply IH.
      * intros r' Hr'. apply Hall. by right.
      * intros l1 r' l2 R' -> HR' Ht Hl1. apply (Hsome (r :: l1) r' l2 R'); try done.
        intros r2 R2 Hr2 HR2. rewrite elem_of_cons in Hr2. destruct Hr2 as [->|Hr2]; [congruence|by eapply Hl1].
      * intros Hn. apply Hnone. intros r2 R2 Hr2 HR2. rewrite elem_of_cons in Hr2.
        destruct Hr2 as [->|Hr2]; [congruence|by eapply Hn].
Qed.

Lemma released_wf F rm r R : ranges_wf F rm -> rm !! r = Some R -> range_wf F r (set_state MAAP_STATE_RELEASED R).
Proof. intros H HR. destruct (H r R HR) as (_ & H2 & H3). by split. Qed.

(** The ranges other than [r] are the same up to the node that stores them. *)
Definition others_same (r : rptr) (w w' : World) : Prop :=
  forall r', r' <> r -> set_interval None <$> rh w' !! r' = set_interval None <$> rh w !! r'.

(** The range [r] was given up; it waits in the queue to be freed. *)
Record given_up (F : gset rptr) (w w' : World) (t' : tree) (r : rptr) (R : Range)
  (V : list (Z * Z * option rptr)) (ns : list (Z * Maap_Notify)) : Prop := mkGivenUp {
  gu_inv : client_inv F w' t';
  gu_view : view w' t' ≡ₚ V;
  gu_range : exists R', rh w' !! r = Some R' /\ id R' = id R /\ state R' = MAAP_STATE_RELEASED;
  gu_others : others_same r w w';
  gu_queue : (length (timer_queue (mc w')) <= length (timer_queue (mc w)))%nat;
  gu_effect : effect [] ns (mc w) (mc w')
}.

(** Releasing [r] from its node, at a world whose client has evolved to [c2]. *)
Lemma give_up_spec F w t h a r R lo hi V ns c2 tk (Q : unit -> World -> Prop) :
  client_inv F w t -> rh w !! r = Some R -> effect [] ns (mc w) c2 -> links_kept (mc w) c2 ->
  tree_inv (Some a) (Some r) h (rh w) (ranges (mc w)) (range_len (mc w)) t -> a ∈ inorder t ->
  match node_data h a with None => True | Some r' => r' = r /\ interval R = Some a end ->
  keys h (inorder t) ≡ₚ (lo, hi, node_data h a) :: V -> low (node h a) = lo -> high (node h a) = hi ->
  (forall w' t', given_up F w w' t' r R V ns -> Q tt w') ->
  wp (remove_range_interval a ;! store_range r (set_state MAAP_STATE_RELEASED)) Q (mkWorld c2 h (rh w) tk).
Proof.
  intros [Hti Hq Hrw Hcw] HR He2 (F1 & F2 & F3) Htd Ha Hd Hk Hlo Hhi HQ.
  eapply (release_node_spec a r R t); cbn [ih rh mc tick]; [|done|done|done|].
  { by rewrite F1, (ef_len _ _ _ _ He2). }
  intros h' rm' root' t' Hti' Hsame Hk'. rewrite (ef_len _ _ _ _ He2) in Hti'.
  destruct (proj2 (same_ranges_is_Some _ _ r Hsame) ltac:(by rewrite HR)) as [R1 HR1].
  destruct (same_ranges_Some _ _ _ _ Hsame HR1) as (R0 & HR0 & Ef). rewrite HR in HR0. injection HR0 as <-.
  apply same_ranges_fields in Ef as (D1 & D2 & D3 & D4 & D5 & D6).
  eapply (HQ _ t'). constructor; cbn [ih rh mc tick].
  - constructor; cbn [ih rh mc tick ranges range_len timer_queue set_ranges].
    + by rewrite (ef_len _ _ _ _ He2).
    + rewrite F2. apply queue_inv_alter; [done|]. by eapply queue_inv_same.
    + apply ranges_wf_alter; [by eapply ranges_wf_same|]. intros R' HR'.
      eapply released_wf; [by eapply ranges_wf_same|done].
    + apply (ef_wf _ _ _ _ (effect_set_ranges root' c2)), (ef_wf _ _ _ _ He2), Hcw.
  - unfold view. cbn [ih]. rewrite Hk in Hk'. unfold contents in Hk'. rewrite Hlo, Hhi in Hk'.
    symmetry. by eapply Permutation_cons_inv.
  - exists (set_state MAAP_STATE_RELEASED R1). rewrite lookup_alter_eq, HR1. done.
  - intros r' Hne. cbn [rh]. rewrite lookup_alter_ne by done. apply Hsame.
  - simpl. by rewrite F2.
  - eapply effect_then; [exact He2|apply effect_set_ranges|done|by rewrite app_nil_r].
Qed.

Section release.
Context {env : Environment} (Hmem : memory_available env) (Hlate : late_tolerated env).


(** The notifications of a release: to the caller, and to the owner if that is another. *)
Definition release_notes (s rid : Z) (c : Maap_Client) (R : Range) (lo hi : Z) : list (Z * Maap_Notify) :=
  let note := note_of MAAP_NOTIFY_RELEASED rid (address_base c) lo hi MAAP_NOTIFY_ERROR_NONE in
  (s, note) :: if s =? sender R then [] else [(sender R, note)].

(** The part of [maap_release_range] after the notifications. *)
Lemma release_tail_spec w t r R a ns c2 tk (Q : Z -> World -> Prop) :
  client_inv ∅ w t -> placed w r R a -> a ∈ inorder t -> node_data (ih w) a = Some r ->
  effect [] ns (mc w) c2 -> links_kept (mc w) c2 ->
  (forall w' t' V, view w t ≡ₚ (lo_of w a, hi_of w a, Some r) :: V -> given_up ∅ w w' t' r R V ns -> Q 0 w') ->
  wp (let! R := load_range r in let! iv := st_lift (or_fault NullDeref (interval R)) in
      remove_range_interval iv ;! store_range r (set_state MAAP_STATE_RELEASED) ;! st_ret 0) Q
    (mkWorld c2 (ih w) (rh w) tk).
Proof.
  intros Hi (HR & Hint & Hsome) Ha Hda He Hl HQ. apply wps_bind. eapply wp_load_range; [exact HR|].
  apply wps_bind. eapply wps_lift; [by rewrite Hint|].
  enough (wp (remove_range_interval a ;! store_range r (set_state MAAP_STATE_RELEASED)) (fun _ => Q 0)
    (mkWorld c2 (ih w) (rh w) tk)) as Hwp.
  { apply wps_bind. unfold wp, st_bind in Hwp |- *. destruct (remove_range_interval a _) as [[[] w1]|]; [|done].
    cbn in Hwp |- *. by destruct (store_range r _ w1) as [[[] w2]|]. }
  pose proof (ci_tree _ _ _ Hi) as Hti. pose proof (tree_inv_detach _ _ _ _ _ _ _ Hti Ha Hda) as Htd.
  destruct (list_elem_of_split _ _ Ha) as (xs & ys & Heq).
  assert (view w t ≡ₚ (lo_of w a, hi_of w a, node_data (ih w) a) :: keys (ih w) (xs ++ ys)) as Hv
    by (unfold view; rewrite Heq; apply keys_middle).
  eapply (give_up_spec ∅ w t (ih w) a r R); try done.
  - by rewrite Hda.
  - intros w' t' Hg. eapply HQ; [|exact Hg]. by rewrite <- Hda.
Qed.

Lemma maap_release_range_spec s rid w t (Q : Z -> World -> Prop) :
  client_inv ∅ w t ->
  (forall l1 r l2 R lo hi V w' t', timer_queue (mc w) = l1 ++ r :: l2 -> rh w !! r = Some R ->
     id R = rid -> state R <> MAAP_STATE_RELEASED ->
     (forall r' R', r' ∈ l1 -> rh w !! r' = Some R' -> id R' = rid -> state R' = MAAP_STATE_RELEASED) ->
     view w t ≡ₚ (lo, hi, Some r) :: V -> given_up ∅ w w' t' r R V (release_notes s rid (mc w) R lo hi) -> Q 0 w') ->
  (forall w', (forall r R, rh w !! r = Some R -> id R = rid -> state R = MAAP_STATE_RELEASED) ->
     refused w w' t (mkNotify MAAP_NOTIFY_RELEASED rid 0 0 MAAP_NOTIFY_ERROR_RELEASE_INVALID_ID) s -> Q (-1) w') ->
  wp (maap_release_range s rid) Q w.
Proof.
  intros Hi Hok Hbad. pose proof Hi as [Hti Hq Hrw Hcw]. unfold maap_release_range.
  apply wps_bind, wp_get_mc. rewrite (cw_init _ Hcw). simpl negb. cbv iota.
  assert (forall r R, rh w !! r = Some R ->
    (id R =? rid) && bool_decide (state R <> MAAP_STATE_RELEASED) = false ->
    id R = rid -> state R = MAAP_STATE_RELEASED) as Hskip.
  { intros r R _ H Hid. apply andb_false_iff in H as [H%Z.eqb_neq|H%bool_decide_eq_false_1]; [congruence|by apply dec_stable]. }
  apply wps_bind, find_range_spec.
  - intros r Hr. by apply (qi_mem _ _ _ Hq) in Hr as [? _].
  - intros l1 r l2 R Hq1 HR Htest Hl1. apply andb_true_iff in Htest as [Hid%Z.eqb_eq Hst%bool_decide_eq_true_1].
    assert (live R) as Hlive. { destruct (Hrw r R HR) as (Hs & _). unfold live. destruct (state R); naive_solver. }
    destruct (inv_placed _ _ _ _ r R Hti HR Hlive ltac:(done)) as (a & Hp & Ha & _ & Hda).
    apply wps_bind. eapply (wp_inform_range Hmem); [exact Hp|]. intros c1 He1 Hl. pose proof Hl as (E1 & E2 & E3).
    apply wps_bind. eapply wp_load_range; [exact HR|].
    assert (forall w' t' V, view w t ≡ₚ (lo_of w a, hi_of w a, Some r) :: V ->
      given_up ∅ w w' t' r R V (release_notes s rid (mc w) R (lo_of w a) (hi_of w a)) -> Q 0 w') as Hdone.
    { intros w' t' V HV Hg. eapply (Hok l1 r l2 R); try done. intros r' R' Hr' HR' Hid'. by eapply Hskip; eauto. }
    unfold release_notes in Hdone. apply wps_bind.
    destruct (Z.eqb_spec s (sender R)) as [Hsnd|Hsnd]; simpl negb; cbv iota.
    + apply wps_ret. eapply release_tail_spec; try done.
    + apply wps_bind. eapply (wp_inform_range Hmem); [exact Hp|]. intros c2 He2 (F1 & F2 & F3). apply wps_ret.
      cbn [ih rh tick]. eapply (release_tail_spec w t r R a); [done|done|done|done| | |exact Hdone].
      * eapply effect_then; [exact He1|exact He2|done|]. cbn [mc]. by rewrite (ef_base _ _ _ _ He1).
      * repeat split; cbn [mc] in *; congruence.
  - intros Hnone. apply wps_bind. eapply (wp_inform_none Hmem). intros c1 He1 (E1 & E2 & E3). apply wps_ret. apply Hbad.
    + intros r R HR Hid. assert (r ∈ timer_queue (mc w)) as Hr by (apply (qi_mem _ _ _ Hq); rewrite HR; done).
      by eapply Hskip; eauto.
    + constructor; [|done|done|done]. eapply client_inv_transport; try done; [apply (ef_len _ _ _ _ He1)|].
      apply (ef_wf _ _ _ _ He1), Hcw.
Qed.

(** ** Scheduling a range and sending its packet *)

(** The common body of [send_probe] and [send_announce]. *)
Definition send_range (mt : Z) (range : rptr) : stM World Z :=
  let! c := get_mc in
  let! p := st_lift (init_packet (dest_mac c) (src_mac c)) in
  let! start := get_start_address range in
  let! count := get_count range in
  send_packet (mkPacket (DA p) (SA p) (Ethertype p) (subtype p) (SV p) (version p) mt
    (maap_version p) (control_data_length p) (stream_id p) start (u16 count)
    (conflict_start_address p) (conflict_count p)).

Lemma schedule_send_spec mt Ex r R a t F (Q : World -> Prop) w :
  tree_inv None None (ih w) (rh w) (ranges (mc w)) (range_len (mc w)) t ->
  queue_inv Ex (rh w) (timer_queue (mc w)) -> Ex = None \/ Ex = Some r ->
  ranges_wf F (rh w) -> client_wf (mc w) -> placed w r R a -> live R ->
  Z.of_nat (length (queue_remove r (timer_queue (mc w)))) < 100000 ->
  (forall c' tm tk,
     let w' := mkWorld c' (ih w) (alter (set_next_act_time tm) r (rh w)) tk in
     client_inv F w' t -> deadline (state R) (clock_at (S (tick w))) tm ->
     length (timer_queue c') = S (length (queue_remove r (timer_queue (mc w)))) ->
     effect [pack_maap (announcement mt (mc w) (lo_of w a) (hi_of w a))] [] (mc w) c' ->
     maxid c' = maxid (mc w) -> (tick w <= tk)%nat -> Q w') ->
  wp (schedule_timer r) (fun _ => wp (send_range mt r) (fun _ => Q)) w.
Proof.
  intros Hti Hq HEx Hrw Hcw (HR & Hint & Ha) Hlive Hlen HQ.
  eapply (schedule_timer_spec Ex r R); [done..|]. intros tm q Hd Hq' Hlq.
  set (rm' := alter (set_next_act_time tm) r (rh w)) in *.
  assert (rm' !! r = Some (set_next_act_time tm R)) as Hr' by (unfold rm'; by rewrite lookup_alter_eq, HR).
  eapply (wp_send_range Hmem mt r _ a); cbn [rh mc ih tick].
  { apply (ef_wf _ _ _ _ (effect_set_timer_queue q (mc w))), Hcw. } { split; [exact Hr'|done]. }
  intros c' He (E1 & E2 & E3). cbn [ranges timer_queue set_timer_queue ih mc rh tick] in *.
  assert (effect [pack_maap (announcement mt (mc w) (lo_of w a) (hi_of w a))] [] (mc w) c') as He'
    by (eapply effect_then; [apply effect_set_timer_queue|exact He|done|done]).
  apply (HQ c' tm); [|done|by rewrite E2|done|done|lia]. constructor; cbn [rh mc ih tick].
  - rewrite E1, (ef_len _ _ _ _ He'). eapply tree_inv_same_place; [|exact Hti]. intros r'. by apply place_alter.
  - by rewrite E2.
  - apply ranges_wf_alter; [done|]. intros R' HR'. by apply range_wf_time, Hrw.
  - apply (ef_wf _ _ _ _ He'), Hcw.
Qed.

End release.

(** The node of a range whose key is known. *)
Lemma view_placed Y w t r R lo hi :
  tree_inv None Y (ih w) (rh w) (ranges (mc w)) (range_len (mc w)) t -> rh w !! r = Some R ->
  (lo, hi, Some r) ∈ view w t ->
  exists a, placed w r R a /\ a ∈ inorder t /\ node_data (ih w) a = Some r /\ lo_of w a = lo /\ hi_of w a = hi.
Proof.
  intros Hti HR Hin. apply list_elem_of_fmap in Hin as (a & E & Ha). symmetry in E.
  apply contents_eq in E as (E1 & E2 & E3).
  destruct (ti_link _ _ _ _ _ _ _ Hti a Ha ltac:(done)) as [[_ D]|(r' & R' & D1 & D2 & D3 & _)]; [congruence|].
  exists a. assert (r' = r) as -> by congruence. assert (R' = R) as -> by congruence.
  split; [|done]. split; [done|]. split; [done|]. by apply (ti_dom _ _ _ _ _ _ _ Hti).
Qed.
Lemma view_of_node w t a : a ∈ inorder t -> (lo_of w a, hi_of w a, node_data (ih w) a) ∈ view w t.
Proof. intros Ha. by apply (list_elem_of_fmap_2 (fun a => contents (node (ih w) a))). Qed.

(** ** Conflicts with a probing range *)
Lemma tree_inv_unset h rm root len t a r :
  tree_inv None None h rm root len t -> a ∈ inorder t -> node_data h a = Some r ->
  tree_inv (Some a) (Some r) (alter (set_data None) a h) rm root len t.
Proof.
  intros Hti Ha Hr. pose proof (tree_inv_detach _ _ _ _ _ _ _ Hti Ha Hr) as [H1 H2 H3 H4 H5].
  assert (forall b, b ∈ inorder t -> low (node (alter (set_data None) a h) b) = low (node h b) /\
    high (node (alter (set_data None) a h) b) = high (node h b)) as Hk.
  { intros b Hb. destruct (decide (a = b)) as [<-|]; [|by rewrite node_alter_ne].
    rewrite node_alter_eq; [done|]. by apply H2. }
  constructor.
  - by apply iset_set_data.
  - intros b. rewrite lookup_alter_is_Some. apply H2.
  - intros b Hb. destruct (Hk b Hb) as [-> ->]. by apply H3.
  - intros b Hb Hne. rewrite node_alter_ne by congruence. by apply H4.
  - intros r' R' HR' Hl HY. destruct (H5 r' R' HR' Hl HY) as (b & E1 & E2 & E3 & E4). exists b.
    rewrite node_alter_ne by congruence. done.
Qed.

Lemma keys_unset h t a lo hi r (V : list (Z * Z * option rptr)) :
  NoDup (inorder t) -> a ∈ inorder t -> is_Some (h !! a) -> contents (node h a) = (lo, hi, Some r) ->
  keys h (inorder t) ≡ₚ (lo, hi, Some r) :: V ->
  keys (alter (set_data None) a h) (inorder t) ≡ₚ (lo, hi, None) :: V.
Proof.
  intros Hn Ha Hsome Hc Hk. apply list_elem_of_split in Ha as (xs & ys & E). rewrite E in *.
  rewrite keys_middle in Hk |- *. rewrite Hc in Hk. apply Permutation_cons_inv in Hk. rewrite <- Hk.
  apply contents_eq in Hc as (<- & <- & _). rewrite node_alter_eq by done. unfold contents. simpl.
  rewrite (keys_same h); [done|]. intros b Hb. rewrite node_alter_ne; [done|]. intros ->.
  apply list.NoDup_app in Hn as (H1 & H2 & [H3 H4]%list.NoDup_cons). set_solver.
Qed.

End mode.
