(* ===== verification/MaapConflict.v ===== *)
(** * Conflicts: how maap_handle_packet resolves an overlap with one of our ranges

    The two branches of the conflict loop: a probing range that loses moves to another
    interval or is given up; a defended range answers with a DEFEND packet, ignores the
    sender, or is yielded to it. *)
From S2P Require Import Prelude Intervals IntervalTree IntervalUpdate MaapPacket MaapTime MaapNet Maap.
From S2P Require Import MaapInv MaapSafety.
From stdpp Require Import base gmap list numbers sorting.
#[local] Open Scope Z_scope.
#[local] Open Scope st_scope.

Section mode.
Context {Oph : Orphans} {T : Stops} {OT : Tolerant Oph T}.

Lemma span_count_small lo hi : lo <= hi -> hi - lo < 65535 -> span_count lo hi = hi - lo + 1.
Proof. intros. unfold span_count. rewrite u32_small by lia. apply i32_small. lia. Qed.

Lemma inv_span X Y h rm root len t a :
  tree_inv X Y h rm root len t -> a ∈ inorder t ->
  0 <= low (node h a) <= high (node h a) /\ high (node h a) < len /\ high (node h a) - low (node h a) < 65535.
Proof.
  intros Hti Ha. destruct (ti_pool _ _ _ _ _ _ _ Hti a Ha) as (H1 & H2 & H3).
  destruct (iset_ordered _ _ _ (ti_set _ _ _ _ _ _ _ Hti)) as [_ Hne]. rewrite Forall_forall in Hne.
  specialize (Hne a Ha). unfold nonempty in Hne. lia.
Qed.

Lemma queue_remove_length r q : (length (queue_remove r q) <= length q)%nat.
Proof. induction q as [|x q IH]; simpl; [lia|]. destruct (decide (x = r)); simpl; lia. Qed.
Lemma queue_remove_length_in r q : r ∈ q -> S (length (queue_remove r q)) = length q.
Proof.
  induction q as [|x q IH]; [set_solver|]. simpl. destruct (decide (x = r)) as [->|]; [done|].
  intros Hr. rewrite elem_of_cons in Hr. simpl. rewrite IH; [done|]. naive_solver.
Qed.

(** The probing range [r] moved to [s, e]: it probes again from the start. *)
Record moved (F : gset rptr) (w w' : World) (t' : tree) (r : rptr) (R : Range) (s e : Z)
  (V : list (Z * Z * option rptr)) : Prop := mkMoved {
  mv_inv : client_inv F w' t';
  mv_view : view w' t' ≡ₚ (s, e, Some r) :: V;
  mv_range : exists R', rh w' !! r = Some R' /\ id R' = id R /\ sender R' = sender R /\
    state R' = MAAP_STATE_PROBING /\ counter R' = MAAP_PROBE_RETRANSMITS;
  mv_others : others_same r w w';
  mv_queue : (length (timer_queue (mc w')) <= length (timer_queue (mc w)))%nat;
  mv_effect : effect [pack_maap (announcement MAAP_PROBE (mc w) s e)]
    [(sender R, note_of MAAP_NOTIFY_ACQUIRING (id R) (address_base (mc w)) s e MAAP_NOTIFY_ERROR_NONE)] (mc w) (mc w')
}.

Lemma same_ranges_Some' (o o' : option Range) R :
  set_interval None <$> o' = set_interval None <$> o -> o = Some R ->
  exists R', o' = Some R' /\ set_interval None R' = set_interval None R.
Proof. intros H ->. destruct o' as [R'|]; [|done]. apply (inj Some) in H. eauto. Qed.

Section conflicts.
Context {env : Environment} (Hmem : memory_available env) (Hlate : late_tolerated env).

(** No node can be removed beside an orphan. *)
Lemma remove_beside_orphan {A} a Y t h x s e h' root' t' (k : unit -> stM World A) (Q : A -> World -> Prop) w :
  tree_inv (Some a) Y (ih w) (rh w) (ranges (mc w)) (range_len (mc w)) t' ->
  inserted h t x (s, e, None) h' root' t' -> ih w = h' -> a ∈ inorder t -> is_Some (h !! a) ->
  match node_data (ih w) a with
  | None => True
  | Some r => Y = Some r /\ exists R, rh w !! r = Some R /\ interval R = Some a
  end ->
  wp (st_bind (remove_range_interval a) k) Q w.
Proof.
  intros Hti Hins <- Ha Hsa Hd. pose proof (fun b => inserted_elem _ _ _ _ _ _ _ b Hins) as Hel.
  assert (x <> a) as Hne. { intros ->. rewrite (ins_fresh _ _ _ _ _ _ _ Hins) in Hsa. by destruct Hsa. }
  assert (a ∈ inorder t') as (xs & ys & Heq)%list_elem_of_split by (apply Hel; by right).
  apply wps_bind. eapply (remove_range_interval_spec a Y t' xs ys); [done|done|done|].
  intros h2 rm2 root2 t2 _ _ _ Hall. exfalso. apply (Hall x).
  - assert (x ∈ inorder t') as Hx by (apply Hel; by left). rewrite Heq in Hx. set_solver.
  - by destruct (contents_eq _ _ _ _ (ins_key _ _ _ _ _ _ _ Hins)) as (_ & _ & ?).
Qed.

(** Moving a range to the node [x] that [assign_interval] made for it. *)
Lemma move_spec F w t h a r R lo hi x s e h2 root2 t2 V tk (Q : unit -> World -> Prop) :
  client_inv F w t -> rh w !! r = Some R -> state R = MAAP_STATE_PROBING -> a ∈ inorder t ->
  Z.of_nat (length (timer_queue (mc w))) <= 100000 ->
  keys h (inorder t) ≡ₚ (lo, hi, None) :: V -> contents (node h a) = (lo, hi, None) -> is_Some (h !! a) ->
  inserted h t x (s, e, Some r) h2 root2 t2 ->
  tree_inv (Some a) None h2 (alter (set_interval (Some x)) r (rh w)) root2 (range_len (mc w)) t2 ->
  (forall w' t', moved F w w' t' r R s e V -> Q tt w') ->
  wp (let! _ := inform_acquiring r in
      remove_range_interval a ;!
      store_range r (set_counter MAAP_PROBE_RETRANSMITS) ;!
      let! _ := schedule_timer r in
      let! _ := send_probe r in
      st_ret tt) Q
    (mkWorld (set_ranges root2 (mc w)) h2 (alter (set_interval (Some x)) r (rh w)) tk).
Proof.
  intros [Hti Hq Hrw Hcw] HR Hst Ha Hlen Hk Hca Hsa Hins Hti2 HQ.
  assert (is_Some (h2 !! x)) as Hx by (apply (ins_dom _ _ _ _ _ _ _ Hins); by left).
  destruct (contents_eq _ _ _ _ (ins_key _ _ _ _ _ _ _ Hins)) as (Hlo & Hhi & _).
  assert (a <> x) as Hax. { intros ->. rewrite (ins_fresh _ _ _ _ _ _ _ Hins) in Hsa. by destruct Hsa. }
  apply wps_bind. eapply (wp_inform_acquiring Hmem r (set_interval (Some x) R) x).
  { split; [cbn [rh]; by rewrite lookup_alter_eq, HR|done]. }
  cbn [ih mc rh tick]. rewrite Hlo, Hhi. intros c2 He2 (E1 & E2 & E3). cbn [ranges timer_queue set_ranges address_base] in *.
  assert (a ∈ inorder t2) as Ha2 by (apply (inserted_elem _ _ _ _ _ _ _ a Hins); by right).
  apply list_elem_of_split in Ha2 as (xs & ys & Heq2).
  assert (contents (node h2 a) = (lo, hi, None)) as Hca2 by (by rewrite (ins_other _ _ _ _ _ _ _ Hins a Hax)).
  apply wps_bind. eapply (remove_range_interval_spec a None t2 xs ys); cbn [ih rh mc tick].
  { by rewrite E1, (ef_len _ _ _ _ He2). } { done. }
  { unfold node_data. apply contents_eq in Hca2 as (_ & _ & ->). done. }
  intros h3 rm3 root3 t3 Hti3 Hsame Hk3 _. rewrite (ef_len _ _ _ _ He2) in Hti3. cbn [range_len set_ranges] in Hti3.
  assert (same_ranges (rh w) rm3) as Hsame3 by (etrans; [apply same_ranges_alter|exact Hsame]).
  destruct (proj2 (same_ranges_is_Some _ _ r Hsame3) ltac:(by rewrite HR)) as [R3 HR3].
  destruct (same_ranges_Some _ _ _ _ Hsame3 HR3) as (R0 & HR0 & Ef). rewrite HR in HR0. injection HR0 as <-.
  apply same_ranges_fields in Ef as (D1 & D2 & D3 & D4 & D5 & D6).
  assert (keys h3 (inorder t3) ≡ₚ (s, e, Some r) :: V) as HV.
  { pose proof (inserted_keys _ _ _ _ _ _ _ Hins) as Hki. rewrite Heq2, keys_middle, Hca2, <- Hk3, Hk in Hki.
    rewrite (Permutation_swap (lo, hi, None)) in Hki. by eapply Permutation_cons_inv. }
  apply wps_bind, wp_store_range; [cbn [rh]; by rewrite HR3|].
  set (rm4 := alter (set_counter MAAP_PROBE_RETRANSMITS) r rm3).
  set (w4 := upd_rh _ _).
  assert (tree_inv None None h3 rm4 root3 (range_len (mc w)) t3) as Hti4.
  { eapply tree_inv_same_place; [|exact Hti3]. intros r'. by apply place_alter. }
  assert (rm4 !! r = Some (set_counter MAAP_PROBE_RETRANSMITS R3)) as HR4 by (unfold rm4; by rewrite lookup_alter_eq, HR3).
  assert (tree_inv None None (ih w4) (rh w4) (ranges (mc w4)) (range_len (mc w4)) t3) as Hti4'.
  { cbn. by rewrite (ef_len _ _ _ _ He2). }
  destruct (view_placed _ w4 t3 r _ s e Hti4' HR4) as (a3 & Hp3 & Ha3 & Hd3 & Hlo3 & Hhi3).
  { unfold view, w4. cbn. rewrite HV. by left. }
  assert (r ∈ timer_queue (mc w)) as Hrq by (apply (qi_mem _ _ _ Hq); by rewrite HR).
  apply wps_bind. eapply wps_mono; [eapply (schedule_send_spec Hmem MAAP_PROBE None r _ a3 t3 F)|].
  - exact Hti4'.
  - cbn. rewrite E2. apply queue_inv_alter; [done|]. by eapply queue_inv_same.
  - by left.
  - apply ranges_wf_alter; [by eapply ranges_wf_same|]. intros R' HR'. cbn [rh] in HR'.
    destruct (ranges_wf_same _ _ _ Hsame3 Hrw r R' HR') as (W1 & W2 & _). split; [done|]. split; [done|].
    simpl. unfold MAAP_PROBE_RETRANSMITS. lia.
  - apply (ef_wf _ _ _ _ (effect_set_ranges root3 c2)), (ef_wf _ _ _ _ He2),
      (ef_wf _ _ _ _ (effect_set_ranges root2 (mc w))), Hcw.
  - exact Hp3.
  - left. simpl. congruence.
  - cbn. rewrite E2. pose proof (queue_remove_length_in r _ Hrq). lia.
  - rewrite Hlo3, Hhi3. intros c' tm tk' w' Hinv Hd Hlq He Hmax Htk.
    instantiate (1 := fun w' => Q tt w'). apply (HQ w' t3). constructor.
    + done.
    + done.
    + exists (set_next_act_time tm (set_counter MAAP_PROBE_RETRANSMITS R3)). cbn.
      rewrite lookup_alter_eq. fold rm4. rewrite HR4. simpl. repeat split; congruence.
    + intros r' Hne. cbn. rewrite !lookup_alter_ne by done. apply Hsame3.
    + cbn [w' mc]. rewrite Hlq. cbn. rewrite E2. pose proof (queue_remove_length_in r _ Hrq). lia.
    + assert (effect [pack_maap (announcement MAAP_PROBE (mc w) s e)] [] c2 c') as He'.
      { eapply effect_then; [apply (effect_set_ranges root3)|exact He| |done].
        unfold announcement. cbn. by keep He2. }
      eapply effect_then; [eapply effect_then; [apply (effect_set_ranges root2)|exact He2|done|done]|exact He'|done|done].
  - intros rv w5 H5. apply wps_bind. eapply wps_mono; [exact H5|]. intros rv2 w6 H6. by apply wps_ret.
Qed.

(** We hold the lower MAC address (compared from its last byte). *)
Definition we_win (c : Maap_Client) (p : MAAP_Packet) : bool := negb (compare_mac_addresses (src_mac c) (SA p) =? 0).

Lemma conflict_probing_spec F p w t a r R lo hi V (Q : unit -> World -> Prop) :
  client_inv F w t -> placed w r R a -> a ∈ inorder t -> node_data (ih w) a = Some r ->
  lo_of w a = lo -> hi_of w a = hi -> state R = MAAP_STATE_PROBING ->
  view w t ≡ₚ (lo, hi, Some r) :: V -> Z.of_nat (length (timer_queue (mc w))) <= 100000 ->
  (message_type p = MAAP_PROBE /\ we_win (mc w) p = true -> Q tt w) ->
  (~ (message_type p = MAAP_PROBE /\ we_win (mc w) p = true) ->
   forall s w' t', 0 <= s -> s + (hi - lo) < range_len (mc w) -> moved F w w' t' r R s (s + (hi - lo)) V -> Q tt w') ->
  (~ (message_type p = MAAP_PROBE /\ we_win (mc w) p = true) ->
   forall w' t', given_up F w w' t' r R V
     [(sender R, mkNotify MAAP_NOTIFY_ACQUIRED (id R) 0 (hi - lo + 1) MAAP_NOTIFY_ERROR_RESERVE_NOT_AVAILABLE)] -> Q tt w') ->
  wp (conflict_probing p a r) Q w.
Proof.
  intros Hi (HR & Hint & Hsome) Ha Hda Hlo Hhi Hst HV Hlen Hwin Hmove Hdrop. pose proof Hi as [Hti Hq Hrw Hcw].
  destruct (inv_span _ _ _ _ _ _ _ _ Hti Ha) as (Hs1 & Hs2 & Hs3). rewrite Hlo, Hhi in *.
  unfold conflict_probing. apply wps_bind, wp_get_mc. fold (we_win (mc w) p).
  destruct ((message_type p =? MAAP_PROBE) && we_win (mc w) p) eqn:E.
  { apply andb_true_iff in E as [E1%Z.eqb_eq E2]. by apply wps_ret, Hwin. }
  assert (~ (message_type p = MAAP_PROBE /\ we_win (mc w) p = true)) as Hlose.
  { intros [E1 E2]. rewrite E1, E2, Z.eqb_refl in E. done. }
  specialize (Hmove Hlose). specialize (Hdrop Hlose). clear Hwin E.
  apply wps_bind, wp_load_interval; [done|]. rewrite Hlo, Hhi. fold (span_count lo hi).
  rewrite span_count_small by lia. apply wps_bind, wp_store_interval; [done|].
  pose proof (tree_inv_unset _ _ _ _ _ _ _ Hti Ha Hda) as Htu.
  set (h1 := alter (set_data None) a (ih w)) in *.
  assert (contents (node h1 a) = (lo, hi, None)) as Hc1
    by (unfold h1; rewrite node_alter_eq by done; unfold contents; simpl; congruence).
  assert (keys h1 (inorder t) ≡ₚ (lo, hi, None) :: V) as Hk1.
  { eapply keys_unset; [|done|done| |exact HV].
    - by eapply ordered_NoDup, iset_ordered, ti_set.
    - unfold contents, node_data in *. congruence. }
  assert (is_Some (h1 !! a)) as Hsa by (unfold h1; by rewrite lookup_alter_is_Some).
  destruct (contents_eq _ _ _ _ Hc1) as (Hlo1 & Hhi1 & Hd1).
  apply wps_bind. rewrite u16_small by lia.
  eapply (assign_interval_spec Hmem Hlate (Some a) r R 0 (hi - lo + 1) t); cbn [ih rh mc upd_ih].
  { done. } { by intros b [= <-]. } { done. } { by left. } { done. } { lia. } { lia. } { lia. }
  - intros _ tk. simpl (_ <? _). cbv iota. unfold at_tick. cbn [ih rh mc upd_ih].
    apply wps_bind. eapply wp_load_range; [exact HR|].
    apply wps_bind. eapply (wp_inform_not_acquired Hmem). cbn [ih rh mc tick]. rewrite u32_small by lia. intros c2 He2 Hl2.
    eapply (give_up_spec F w t h1 a r R lo hi V); try done.
    + fold (node_data h1 a) in Hd1. by rewrite Hd1.
    + fold (node_data h1 a) in Hd1. by rewrite Hd1.
  - intros Ho _ x s h' root' t' tk Hins Hti'. simpl (_ <? _). cbv iota. unfold with_tree. cbn [ih rh mc upd_ih].
    apply wps_bind. eapply wp_load_range; [exact HR|].
    apply wps_bind. eapply (wp_inform_not_acquired Hmem). intros c2 He2 (E1 & _). cbn [ih rh mc tick ranges set_ranges] in *.
    eapply (remove_beside_orphan a (Some r) t h1 x); cbn [ih rh mc]; [by rewrite E1, (ef_len _ _ _ _ He2)|exact Hins|done|done|done|].
    assert (a <> x) as Hax. { intros E. destruct Hsa as [? Hsa]. pose proof (ins_fresh _ _ _ _ _ _ _ Hins : h1 !! x = None). congruence. }
    unfold node_data. apply (ins_other _ _ _ _ _ _ _ Hins) in Hax. apply contents_fields in Hax as (_ & _ & Hax).
    assert (data (node h' a) = None) as ->; [by etrans; [exact Hax|exact Hd1]|done].
  - intros x s h' root' t' tk Hins Hs0 Hse _ Hti'. simpl (_ <? _). cbv iota.
    replace (s + (hi - lo + 1) - 1) with (s + (hi - lo)) in * by lia.
    eapply (move_spec F w t h1 a r R lo hi x s (s + (hi - lo)) h' root' t' V); try done.
    intros w' t2 Hm. eapply (Hmove s); [done|lia|exact Hm].
Qed.

(** ** Conflicts with a range in use *)

(** A replacement request for the yielded range [r] was started at [s, e]. *)
Record replaced (F : gset rptr) (w w' : World) (t t' : tree) (r : rptr) (R : Range) (a : iptr) (lo hi s e : Z) : Prop :=
  mkReplaced {
  rp_inv : client_inv F w' t';
  rp_view : exists r2 R2, r2 <> r /\ rh w !! r2 = None /\ rh w' !! r2 = Some R2 /\ id R2 = id R /\ sender R2 = sender R /\
    state R2 = MAAP_STATE_PROBING /\ view w' t' ≡ₚ (s, e, Some r2) :: view w t /\
    (forall r', r' <> r2 -> rh w' !! r' = rh w !! r');
  rp_node : a ∈ inorder t' /\ contents (node (ih w') a) = contents (node (ih w) a);
  rp_queue : (length (timer_queue (mc w')) <= S (length (timer_queue (mc w))))%nat;
  rp_effect : effect [pack_maap (announcement MAAP_PROBE (mc w) s e)]
    [(sender R, note_of MAAP_NOTIFY_YIELDED (id R) (address_base (mc w)) lo hi MAAP_NOTIFY_ERROR_NONE);
     (sender R, note_of MAAP_NOTIFY_ACQUIRING (id R) (address_base (mc w)) s e MAAP_NOTIFY_ERROR_NONE)] (mc w) (mc w')
}.

Lemma replace_started_spec F w t a r R lo hi r2 now x s e h' root' t' tk (Q : unit -> World -> Prop) :
  client_inv F w t -> placed w r R a -> a ∈ inorder t -> lo_of w a = lo -> hi_of w a = hi ->
  Z.of_nat (length (timer_queue (mc w))) < 100000 -> rh w !! r2 = None -> r2 ∉ F ->
  let R2 := set_interval (Some x) (new_range (id R) (sender R) now) in
  inserted (ih w) t x (s, e, Some r2) h' root' t' ->
  tree_inv None None h' (<[r2 := R2]> (rh w)) root' (range_len (mc w)) t' ->
  (forall w', replaced F w w' t t' r R a lo hi s e -> Q tt w') ->
  wp (let! _ := schedule_timer r2 in
      let! _ := send_probe r2 in
      let! _ := inform_yielded (sender R) (id R) (Some r) MAAP_NOTIFY_ERROR_NONE in
      let! _ := inform_acquiring r2 in
      st_ret tt) Q (mkWorld (set_ranges root' (mc w)) h' (<[r2 := R2]> (rh w)) tk).
Proof.
  intros [Hti Hq Hrw Hcw] (HR & Hint & Hsome) Ha Hlo Hhi Hlen Hr2 HF R2 Hins Hti' HQ.
  assert (is_Some (h' !! x)) as Hx by (apply (ins_dom _ _ _ _ _ _ _ Hins); by left).
  destruct (contents_eq _ _ _ _ (ins_key _ _ _ _ _ _ _ Hins)) as (Hlox & Hhix & _).
  assert (a <> x) as Hax. { intros ->. rewrite (ins_fresh _ _ _ _ _ _ _ Hins) in Hsome. by destruct Hsome. }
  assert (r2 <> r) as Hne by congruence.
  pose proof (ins_other _ _ _ _ _ _ _ Hins a Hax) as Hca. destruct (contents_fields _ _ Hca) as (Hla & Hha & _).
  assert (is_Some (h' !! a)) as Hsa by (apply (ins_dom _ _ _ _ _ _ _ Hins); by right).
  apply wps_bind. eapply wps_mono; [eapply (schedule_send_spec Hmem MAAP_PROBE (Some r2) r2 R2 x t' F)|].
  - done.
  - by apply queue_inv_new.
  - by right.
  - apply ranges_wf_insert; [done|]. split; [done|]. split; [set_solver|]. simpl. unfold MAAP_PROBE_RETRANSMITS. lia.
  - apply (ef_wf _ _ _ _ (effect_set_ranges root' (mc w))), Hcw.
  - split; [apply lookup_insert_eq|]. done.
  - by left.
  - cbn. pose proof (queue_remove_length r2 (timer_queue (mc w))). lia.
  - intros c1 tm tk1 w1 Hi1 Hd Hlq He Hmax Htk. cbn [ih] in He. rewrite Hlox, Hhix in He.
    instantiate (1 := fun w1 => wp (let! _ := inform_yielded (sender R) (id R) (Some r) MAAP_NOTIFY_ERROR_NONE in
      let! _ := inform_acquiring r2 in st_ret tt) Q w1). unfold w1. cbn [mc ih rh tick].
    set (rm1 := alter (set_next_act_time tm) r2 (<[r2 := R2]> (rh w))).
    apply wps_bind. eapply (wp_inform_range Hmem); cbn [mc ih rh tick].
    { split; [cbn [rh]; unfold rm1; rewrite lookup_alter_ne, lookup_insert_ne by done; exact HR|done]. }
    cbn [ih]. rewrite Hla, Hha, Hlo, Hhi. intros c2 He2 (E1 & E2 & E3).
    apply wps_bind. eapply (wp_inform_acquiring Hmem r2 (set_next_act_time tm R2) x); cbn [mc ih rh tick].
    { split; [cbn [rh]; unfold rm1; by rewrite lookup_alter_eq, lookup_insert_eq|done]. }
    cbn [ih]. rewrite Hlox, Hhix. intros c3 He3 (G1 & G2 & G3). apply wps_ret. apply HQ.
    assert (effect [pack_maap (announcement MAAP_PROBE (mc w) s e)] [] (mc w) c1) as Hec1
      by (eapply effect_then; [apply (effect_set_ranges root')|exact He|done|done]).
    assert (effect [pack_maap (announcement MAAP_PROBE (mc w) s e)]
      [(sender R, note_of MAAP_NOTIFY_YIELDED (id R) (address_base (mc w)) lo hi MAAP_NOTIFY_ERROR_NONE);
       (sender R, note_of MAAP_NOTIFY_ACQUIRING (id R) (address_base (mc w)) s e MAAP_NOTIFY_ERROR_NONE)] (mc w) c3) as Hec3.
    { eapply effect_then; [exact Hec1|eapply effect_then; [exact He2|exact He3|done|done]|done|].
      simpl. rewrite (ef_base _ _ _ _ He2), (ef_base _ _ _ _ Hec1). done. }
    constructor.
    + apply (client_inv_transport F w1 t' c3); [exact Hi1| | | |]; cbn [mc w1].
      * by rewrite G1. * by rewrite G2. * rewrite (ef_len _ _ _ _ He3), (ef_len _ _ _ _ He2). done.
      * apply (ef_wf _ _ _ _ Hec3), Hcw.
    + exists r2, (set_next_act_time tm R2). split; [done|]. split; [done|].
      split; [cbn [rh]; unfold rm1; by rewrite lookup_alter_eq, lookup_insert_eq|]. do 3 (split; [done|]).
      split; [by apply inserted_keys in Hins|]. intros r' Hr'. cbn [rh]. unfold rm1.
      rewrite lookup_alter_ne, lookup_insert_ne by done. done.
    + split; [apply (inserted_elem _ _ _ _ _ _ _ a Hins); by right|]. done.
    + cbn [mc] in *. rewrite G2, E2, Hlq. cbn. pose proof (queue_remove_length r2 (timer_queue (mc w))). lia.
    + done.
  - intros rv w5 H5. apply wps_bind. eapply wps_mono; [exact H5|]. intros rv2 w6 H6. exact H6.
Qed.

(** The defended range [r] was yielded; [repl] is the start of the replacement, if one
    was found. *)
Record yielded (F : gset rptr) (w w' : World) (t' : tree) (r : rptr) (R : Range) (lo hi : Z)
  (V : list (Z * Z * option rptr)) (repl : option Z) : Prop := mkYielded {
  yd_inv : client_inv F w' t';
  yd_range : exists R', rh w' !! r = Some R' /\ id R' = id R /\ state R' = MAAP_STATE_RELEASED;
  yd_queue : (length (timer_queue (mc w')) <= S (length (timer_queue (mc w))))%nat;
  yd_result :
    match repl with
    | None => view w' t' ≡ₚ V /\ others_same r w w' /\
      effect [] [(sender R, note_of MAAP_NOTIFY_YIELDED (id R) (address_base (mc w)) lo hi
                    MAAP_NOTIFY_ERROR_RESERVE_NOT_AVAILABLE)] (mc w) (mc w')
    | Some s => exists r2 R2, r2 <> r /\ rh w !! r2 = None /\ rh w' !! r2 = Some R2 /\ id R2 = id R /\
      sender R2 = sender R /\ state R2 = MAAP_STATE_PROBING /\ view w' t' ≡ₚ (s, s + (hi - lo), Some r2) :: V /\
      (forall r', r' <> r -> r' <> r2 -> set_interval None <$> rh w' !! r' = set_interval None <$> rh w !! r') /\
      effect [pack_maap (announcement MAAP_PROBE (mc w) s (s + (hi - lo)))]
        [(sender R, note_of MAAP_NOTIFY_YIELDED (id R) (address_base (mc w)) lo hi MAAP_NOTIFY_ERROR_NONE);
         (sender R, note_of MAAP_NOTIFY_ACQUIRING (id R) (address_base (mc w)) s (s + (hi - lo)) MAAP_NOTIFY_ERROR_NONE)]
        (mc w) (mc w')
    end
}.

Lemma replace_range_spec F w t a r R lo hi (Q : unit -> World -> Prop) :
  client_inv F w t -> (forall r', r' ∈ F -> is_Some (rh w !! r')) ->
  placed w r R a -> a ∈ inorder t -> lo_of w a = lo -> hi_of w a = hi ->
  Z.of_nat (length (timer_queue (mc w))) < 100000 ->
  (forall s w' t', 0 <= s -> s + (hi - lo) < range_len (mc w) ->
     replaced F w w' t t' r R a lo hi s (s + (hi - lo)) -> Q tt w') ->
  (forall c' tk, effect [] [(sender R, note_of MAAP_NOTIFY_YIELDED (id R) (address_base (mc w)) lo hi
                              MAAP_NOTIFY_ERROR_RESERVE_NOT_AVAILABLE)] (mc w) c' ->
     links_kept (mc w) c' -> Q tt (mkWorld c' (ih w) (rh w) tk)) ->
  (orphans -> forall c' x s e h' root' t' tk, inserted (ih w) t x (s, e, None) h' root' t' ->
     tree_inv None None h' (rh w) (ranges c') (range_len c') t' -> Q tt (mkWorld c' h' (rh w) tk)) ->
  wp (replace_range a r) Q w.
Proof.
  intros Hi HF Hp Ha Hlo Hhi Hlen Hrep Hno Horph. pose proof Hi as [Hti Hq Hrw Hcw]. pose proof Hp as (HR & Hint & Hsome).
  destruct (inv_span _ _ _ _ _ _ _ _ Hti Ha) as (Hs1 & Hs2 & Hs3). rewrite Hlo, Hhi in *.
  unfold replace_range. apply wps_bind, wp_load_interval; [done|]. rewrite Hlo, Hhi. fold (span_count lo hi).
  rewrite span_count_small by lia.
  apply wps_bind, (wp_malloc Hmem). intros r2 Hr2. unfold used_ranges in Hr2. rewrite not_elem_of_dom in Hr2.
  apply wps_bind. eapply wp_load_range; [exact HR|]. apply wps_bind. unfold c_clock, wp at 1. apply wps_bind, wps_modify.
  set (R2 := new_range (id R) (sender R) _). apply wps_bind. rewrite u16_small by lia.
  assert (r2 ∉ F) as HnF. { intros H. apply HF in H as [? H]. congruence. }
  eapply (assign_interval_spec Hmem Hlate None r2 R2 0 (hi - lo + 1) t); cbn [mc ih rh tick upd_rh upd_tick].
  { by apply tree_inv_new. } { done. } { apply lookup_insert_eq. } { by left. } { done. } { lia. } { lia. } { lia. }
  - intros _ tk. simpl (_ <? _). cbv iota. unfold at_tick. cbn [mc ih rh upd_rh upd_tick].
    assert (r2 <> r) as Hne by congruence.
    apply wps_bind. eapply (wp_inform_range Hmem); cbn [mc ih rh tick].
    { split; [cbn [rh]; rewrite lookup_insert_ne by done; exact HR|done]. }
    cbn [ih]. rewrite Hlo, Hhi. intros c2 He2 Hl2.
    apply wp_free_range; [cbn [rh]; by rewrite lookup_insert_eq|].
    unfold upd_rh. cbn [mc ih rh tick]. rewrite delete_insert_id by done. by apply Hno.
  - intros Ho _ x s h' root' t' tk Hins Hti'. simpl (_ <? _). cbv iota. unfold with_tree in *. cbn [mc ih rh upd_rh upd_tick] in *.
    assert (r2 <> r) as Hne by congruence.
    apply wps_bind. eapply (wp_inform_range Hmem); cbn [mc ih rh tick].
    { split; [cbn [rh]; rewrite lookup_insert_ne by done; exact HR|]. split; [exact Hint|].
      apply (ins_dom _ _ _ _ _ _ _ Hins). by right. }
    intros c2 He2 (E1 & _). apply wp_free_range; [cbn [rh]; by rewrite lookup_insert_eq|].
    unfold upd_rh. cbn [mc ih rh tick ranges set_ranges] in *. rewrite delete_insert_id by done.
    eapply (Horph Ho c2 x); [exact Hins|]. rewrite E1, (ef_len _ _ _ _ He2).
    apply tree_inv_delete_exempt in Hti'. by rewrite delete_insert_id in Hti'.
  - intros x s h' root' t' tk Hins Hs0 Hse _ Hti'. simpl (_ <? _). cbv iota.
    replace (s + (hi - lo + 1) - 1) with (s + (hi - lo)) in * by lia.
    replace (alter (set_interval (Some x)) r2 (<[r2:=R2]> (rh w)))
      with (<[r2 := set_interval (Some x) R2]> (rh w)) in * by (by rewrite alter_insert_eq).
    eapply (replace_started_spec F w t a r R lo hi r2 _ x s (s + (hi - lo)) h' root' t'); try done.
    intros w' Hw'. eapply (Hrep s); [done|lia|exact Hw'].
Qed.

Lemma conflict_defending_spec F p w t a r R lo hi V (Q : unit -> World -> Prop) :
  client_inv F w t -> (forall r', r' ∈ F -> is_Some (rh w !! r')) ->
  placed w r R a -> a ∈ inorder t -> node_data (ih w) a = Some r ->
  lo_of w a = lo -> hi_of w a = hi -> state R = MAAP_STATE_DEFENDING ->
  view w t ≡ₚ (lo, hi, Some r) :: V -> Z.of_nat (length (timer_queue (mc w))) < 100000 ->
  (message_type p = MAAP_PROBE -> forall c' tk,
     effect [pack_maap (defence (mc w) lo hi (requested_start_address p) (requested_count p) (SA p))] [] (mc w) c' ->
     links_kept (mc w) c' -> Q tt (mkWorld c' (ih w) (rh w) tk)) ->
  (message_type p <> MAAP_PROBE -> we_win (mc w) p = true -> Q tt w) ->
  (message_type p <> MAAP_PROBE -> we_win (mc w) p = false ->
   forall repl w' t', match repl with Some s => 0 <= s /\ s + (hi - lo) < range_len (mc w) | None => True end ->
   yielded F w w' t' r R lo hi V repl -> Q tt w') ->
  wp (conflict_defending p a r) Q w.
Proof.
  intros Hi HF Hp Ha Hda Hlo Hhi Hst HV Hlen Hdef Hwin Hyield. pose proof Hi as [Hti Hq Hrw Hcw].
  pose proof Hp as (HR & Hint & Hsome).
  unfold conflict_defending. apply wps_bind, wp_get_mc. fold (we_win (mc w) p).
  destruct (Z.eqb_spec (message_type p) MAAP_PROBE) as [Hmt|Hmt].
  { apply wps_bind. eapply (wp_send_defend Hmem); [done|exact Hp|]. rewrite Hlo, Hhi. intros c' He Hl.
    apply wps_ret. by apply Hdef. }
  destruct (we_win (mc w) p) eqn:Hw; [by apply wps_ret, Hwin|].
  apply wps_bind. eapply (replace_range_spec F w t a r R lo hi); try done.
  - intros s w1 t1 Hs0 Hs1 [Hi1 (r2 & R2 & Hne & Hr2 & HR2 & D1 & D2 & D3 & Hv1 & Hoth) [Ha1 Hc1] Hq1 He1].
    assert (rh w1 !! r = Some R) as HR1 by (by rewrite Hoth).
    assert (node_data (ih w1) a = Some r) as Hda1.
    { unfold node_data in *. apply contents_fields in Hc1 as (_ & _ & ->). done. }
    apply contents_fields in Hc1 as (Hl1 & Hh1 & _).
    destruct w1 as [c1 h1 rm1 tk1]. cbn [mc ih rh] in *.
    eapply (give_up_spec F (mkWorld c1 h1 rm1 tk1) t1 h1 a r R lo hi ((s, s + (hi - lo), Some r2) :: V) []); cbn [mc ih rh];
      try done; try congruence.
    + apply effect_refl.
    + eapply tree_inv_detach; [apply (ci_tree _ _ _ Hi1)|done|done].
    + by rewrite Hda1.
    + unfold view in Hv1. cbn [ih] in Hv1. rewrite Hv1. unfold view in HV. rewrite HV, Hda1. apply Permutation_swap.
    + intros w' t' [G1 G2 G3 G4 G5 G6]. cbn [mc] in *. eapply (Hyield Hmt eq_refl (Some s) w' t'); [done|]. constructor.
      * done.
      * done.
      * lia.
      * destruct (same_ranges_Some' _ _ _ (G4 r2 Hne) HR2) as (R2' & HR2' & Ef).
        apply same_ranges_fields in Ef as (K1 & K2 & _ & _ & _ & K6).
        exists r2, R2'. split; [done|]. split; [done|]. split; [done|]. do 3 (split; [congruence|]). split; [done|].
        split; [|eapply effect_then; [exact He1|exact G6|done|done]].
        intros r' H1 H2. rewrite (G4 r' H1). cbn [rh]. by rewrite Hoth.
  - intros c' tk He Hl. destruct w as [c h rm tk0]. cbn [mc ih rh] in *.
    eapply (give_up_spec F (mkWorld c h rm tk0) t h a r R lo hi V); cbn [mc ih rh]; try done.
    + by eapply tree_inv_detach.
    + by rewrite Hda.
    + unfold view in HV. cbn [ih] in HV. by rewrite Hda.
    + intros w' t' [G1 G2 G3 G4 G5 G6]. cbn [mc] in *. eapply (Hyield Hmt eq_refl None w' t'); [done|].
      constructor; [done|done|cbn; lia|done].
  - intros Ho c' x s e h' root' t' tk Hins Hti'.
    assert (contents (node h' a) = contents (node (ih w) a)) as Hca.
    { apply (ins_other _ _ _ _ _ _ _ Hins). intros ->. rewrite (ins_fresh _ _ _ _ _ _ _ Hins) in Hsome. by destruct Hsome. }
    apply contents_fields in Hca as (_ & _ & Hca).
    assert (node_data h' a = Some r) as Hda' by (unfold node_data in *; congruence).
    assert (a ∈ inorder t') as Ha' by (apply (inserted_elem _ _ _ _ _ _ _ a Hins); by right).
    eapply (remove_beside_orphan a (Some r) t (ih w) x); cbn [ih rh mc]; [by eapply tree_inv_detach|exact Hins|done|done|done|].
    rewrite Hda'. split; [done|]. by exists R.
Qed.
End conflicts.

End mode.
