(* ===== verification/MaapHandle.v ===== *)
(** * Received packets: the whole of maap_handle_packet

    The ranges that overlap the packet are flagged, then resolved one at a time; each
    is resolved exactly once although resolving one rebuilds the tree. *)
From S2P Require Import Prelude Intervals IntervalTree IntervalUpdate MaapPacket MaapTime MaapNet Maap.
From S2P Require Import MaapInv MaapSafety MaapConflict.
From stdpp Require Import base gmap list numbers sorting.
#[local] Open Scope Z_scope.
#[local] Open Scope st_scope.

Section mode.
Context {Oph : Orphans} {T : Stops} {OT : Tolerant Oph T}.

(** The stored interval [lo, hi] overlaps the [count] addresses from offset [start]. *)
Definition hit (start count lo hi : Z) : bool := (lo <=? u32 (start + count - 1)) && (start <=? hi).
Definition hit_range (w : World) (t : tree) (start count : Z) (r : rptr) : Prop :=
  exists lo hi, (lo, hi, Some r) ∈ view w t /\ hit start count lo hi = true.

Lemma overlaps_hit h start count a :
  overlaps h (fresh_interval start count) a = hit start count (low (node h a)) (high (node h a)).
Proof. done. Qed.
Lemma check_overlap_hit h start count a :
  interval_check_overlap (node h a) start count = hit start count (low (node h a)) (high (node h a)).
Proof. done. Qed.

Definition unflag (r : rptr) (w : World) : World := upd_rh (alter (set_overlapping false) r) w.

(** What happens to one overlapping range [r], by its state and the packet. *)
Inductive resolution (p : MAAP_Packet) (F : gset rptr) (w : World) (t : tree) (r : rptr) : World -> tree -> Prop :=
  | res_ignore R :
    rh w !! r = Some R ->
    state R = MAAP_STATE_PROBING /\ message_type p = MAAP_PROBE \/
    state R = MAAP_STATE_DEFENDING /\ message_type p <> MAAP_PROBE ->
    we_win (mc w) p = true -> resolution p F w t r w t
  | res_move R lo hi V s w' t' :
    rh w !! r = Some R -> state R = MAAP_STATE_PROBING ->
    ~ (message_type p = MAAP_PROBE /\ we_win (mc w) p = true) ->
    view w t ≡ₚ (lo, hi, Some r) :: V -> 0 <= s -> s + (hi - lo) < range_len (mc w) ->
    moved F w w' t' r R s (s + (hi - lo)) V -> resolution p F w t r w' t'
  | res_give_up R lo hi V w' t' :
    rh w !! r = Some R -> state R = MAAP_STATE_PROBING ->
    ~ (message_type p = MAAP_PROBE /\ we_win (mc w) p = true) ->
    view w t ≡ₚ (lo, hi, Some r) :: V ->
    given_up F w w' t' r R V
      [(sender R, mkNotify MAAP_NOTIFY_ACQUIRED (id R) 0 (hi - lo + 1) MAAP_NOTIFY_ERROR_RESERVE_NOT_AVAILABLE)] ->
    resolution p F w t r w' t'
  | res_defend R lo hi V c' tk :
    rh w !! r = Some R -> state R = MAAP_STATE_DEFENDING -> message_type p = MAAP_PROBE ->
    view w t ≡ₚ (lo, hi, Some r) :: V ->
    effect [pack_maap (defence (mc w) lo hi (requested_start_address p) (requested_count p) (SA p))] [] (mc w) c' ->
    links_kept (mc w) c' -> resolution p F w t r (mkWorld c' (ih w) (rh w) tk) t
  | res_yield R lo hi V repl w' t' :
    rh w !! r = Some R -> state R = MAAP_STATE_DEFENDING -> message_type p <> MAAP_PROBE -> we_win (mc w) p = false ->
    view w t ≡ₚ (lo, hi, Some r) :: V ->
    match repl with Some s => 0 <= s /\ s + (hi - lo) < range_len (mc w) | None => True end ->
    yielded F w w' t' r R lo hi V repl -> resolution p F w t r w' t'.

(** The ranges of [rs] are resolved one after the other. *)
Inductive resolutions (p : MAAP_Packet) : list rptr -> World -> tree -> World -> tree -> Prop :=
  | resolutions_nil w t : resolutions p [] w t w t
  | resolutions_cons r rs w t w1 t1 w2 t2 :
    resolution p (list_to_set rs) (unflag r w) t r w1 t1 -> resolutions p rs w1 t1 w2 t2 ->
    resolutions p (r :: rs) w t w2 t2.

Lemma find_flagged_spec t ys : forall fuel xs (Q : option (iptr * rptr) -> World -> Prop) w,
  iset (ih w) (ranges (mc w)) t -> inorder t = xs ++ ys -> (length ys < fuel)%nat ->
  (forall a, a ∈ ys -> (orphans /\ node_data (ih w) a = None) \/
     exists r R, node_data (ih w) a = Some r /\ rh w !! r = Some R) ->
  (exists a r R, a ∈ ys /\ node_data (ih w) a = Some r /\ rh w !! r = Some R /\ overlapping R = true) ->
  (forall a r R, a ∈ ys -> node_data (ih w) a = Some r -> rh w !! r = Some R -> overlapping R = true ->
     Q (Some (a, r)) w) ->
  wp (find_flagged fuel (head ys)) Q w.
Proof.
  induction ys as [|a ys IH]; intros fuel xs Q w Hset Heq Hfuel Hall Hex HQ;
    (destruct fuel as [|fuel]; [simpl in Hfuel; lia|]); cbn [find_flagged head].
  - destruct Hex as (a & _ & _ & Ha & _). set_solver.
  - simpl in Hfuel. assert (is_Some (ih w !! a)) as Ha.
    { destruct Hset as [_ Hrep _]. eapply rep_lookup; [exact Hrep|]. rewrite Heq. set_solver. }
    apply wps_bind, wp_load_interval; [done|]. fold (node_data (ih w) a). apply wps_bind.
    destruct (Hall a ltac:(by left)) as [[Ho Hn]|(r & R & Hd & HR)]; [eapply wp_stop; [by rewrite Hn|by apply OT]|].
    eapply wps_lift; [by rewrite Hd|]. apply wps_bind. eapply wp_load_range; [done|].
    destruct (overlapping R) eqn:Ho; [apply wps_ret; eapply HQ; try done; by left|].
    apply wps_bind, wps_get. apply wps_bind. eapply wps_lift; [eapply next_interval_spec; [exact Hset|exact Heq]|].
    apply (IH fuel (xs ++ [a])); [done|by rewrite <- app_assoc|lia| | |].
    + intros b Hb. apply Hall. by right.
    + destruct Hex as (b & r' & R' & Hb & E1 & E2 & E3). rewrite elem_of_cons in Hb.
      destruct Hb as [->|Hb]; [congruence|]. eauto 10.
    + intros b r' R' Hb. apply HQ. by right.
Qed.

Lemma ranges_wf_unflag F rm r :
  ranges_wf F rm -> ranges_wf (F ∖ {[r]}) (alter (set_overlapping false) r rm).
Proof.
  intros H r' R' HR'. destruct (decide (r = r')) as [<-|Hne].
  - rewrite lookup_alter_eq in HR'. destruct (rm !! r) as [R|] eqn:E; [|done]. simpl in HR'. injection HR' as <-.
    destruct (H r R E) as (H1 & H2 & H3). split; [done|]. split; [set_solver|done].
  - rewrite lookup_alter_ne in HR' by done. destruct (H r' R' HR') as (H1 & H2 & H3).
    split; [done|]. split; [|done]. rewrite H2. set_solver.
Qed.
Lemma ranges_wf_flag F rm r :
  ranges_wf F rm -> ranges_wf ({[r]} ∪ F) (alter (set_overlapping true) r rm).
Proof.
  intros H r' R' HR'. destruct (decide (r = r')) as [<-|Hne].
  - rewrite lookup_alter_eq in HR'. destruct (rm !! r) as [R|] eqn:E; [|done]. simpl in HR'. injection HR' as <-.
    destruct (H r R E) as (H1 & H2 & H3). split; [done|]. split; [set_solver|done].
  - rewrite lookup_alter_ne in HR' by done. destruct (H r' R' HR') as (H1 & H2 & H3).
    split; [done|]. split; [|done]. rewrite H2. set_solver.
Qed.

Lemma client_inv_alter F F' w t r f :
  client_inv F w t -> (forall R, place_of (f R) = place_of R) -> (forall R, next_act_time (f R) = next_act_time R) ->
  ranges_wf F' (alter f r (rh w)) -> client_inv F' (upd_rh (alter f r) w) t.
Proof.
  intros [H1 H2 H3 H4] Hf Hn Hw. constructor; [|by apply queue_inv_alter|done|done].
  eapply tree_inv_same_place; [|exact H1]. intros r'. by apply place_alter.
Qed.

Lemma client_inv_unflag F w t r : client_inv F w t -> client_inv (F ∖ {[r]}) (unflag r w) t.
Proof.
  intros Hi. apply (client_inv_alter F _ w t r (set_overlapping false)); [done|done|done|].
  apply ranges_wf_unflag, Hi.
Qed.

(** The members of a flagged set that are still stored in the tree. *)
Definition flagged (w : World) (t : tree) (start count : Z) (F : gset rptr) : Prop :=
  forall r, r ∈ F -> hit_range w t start count r.

Lemma flagged_some w t start count F r :
  client_inv F w t -> flagged w t start count F -> r ∈ F -> is_Some (rh w !! r).
Proof.
  intros Hi HF Hr. destruct (HF r Hr) as (lo & hi & Hin & _). apply list_elem_of_fmap in Hin as (a & E & Ha).
  symmetry in E. apply contents_eq in E as (_ & _ & E).
  destruct (ti_link _ _ _ _ _ _ _ (ci_tree _ _ _ Hi) a Ha ltac:(done)) as [[_ D]|(r' & R' & D1 & D2 & _)]; [congruence|].
  rewrite D1 in E. injection E as ->. by rewrite D2.
Qed.

(** Resolving a range leaves the others where they are. *)
Lemma resolution_keeps p F w t r w' t' lo hi r' :
  resolution p F w t r w' t' -> r' <> r -> (lo, hi, Some r') ∈ view w t -> (lo, hi, Some r') ∈ view w' t'.
Proof.
  intros Hres Hne Hin.
  assert (forall l h V, view w t ≡ₚ (l, h, Some r) :: V -> (lo, hi, Some r') ∈ V) as HV.
  { intros l h V HV. rewrite HV, elem_of_cons in Hin. naive_solver. }
  destruct Hres as [| ? ? ? ? ? ? ? ? ? ? Hv ? ? Hm| ? ? ? ? ? ? ? ? ? Hv Hg| |? ? ? ? repl ? ? ? ? ? ? Hv ? Hy]; [done| | |done|].
  - rewrite (mv_view _ _ _ _ _ _ _ _ _ Hm). right. by eapply HV.
  - rewrite (gu_view _ _ _ _ _ _ _ _ Hg). by eapply HV.
  - pose proof (yd_result _ _ _ _ _ _ _ _ _ _ Hy) as Hr. destruct repl as [s|].
    + destruct Hr as (r2 & R2 & _ & _ & _ & _ & _ & _ & -> & _). right. by eapply HV.
    + destruct Hr as (-> & _). by eapply HV.
Qed.
Lemma resolution_inv p F w t r w' t' : resolution p F w t r w' t' -> client_inv F w t -> client_inv F w' t'.
Proof.
  intros Hres Hi.
  destruct Hres as [| ? ? ? ? ? ? ? ? ? ? Hv ? ? Hm| ? ? ? ? ? ? ? ? ? Hv Hg| ? ? ? ? ? ? ? ? ? ? He Hl|? ? ? ? repl ? ? ? ? ? ? Hv ? Hy].
  - done.
  - apply (mv_inv _ _ _ _ _ _ _ _ _ Hm).
  - apply (gu_inv _ _ _ _ _ _ _ _ Hg).
  - destruct Hl as (E1 & E2 & _). apply client_inv_transport; [done|done|done|apply (ef_len _ _ _ _ He)|].
    apply (ef_wf _ _ _ _ He), (ci_client _ _ _ Hi).
  - apply (yd_inv _ _ _ _ _ _ _ _ _ _ Hy).
Qed.
Lemma resolution_queue p F w t r w' t' :
  resolution p F w t r w' t' -> (length (timer_queue (mc w')) <= S (length (timer_queue (mc w))))%nat.
Proof.
  intros Hres.
  destruct Hres as [| ? ? ? ? ? ? ? ? ? ? Hv ? ? Hm| ? ? ? ? ? ? ? ? ? Hv Hg| ? ? ? ? ? ? ? ? ? ? He Hl|? ? ? ? repl ? ? ? ? ? ? Hv ? Hy].
  - lia.
  - pose proof (mv_queue _ _ _ _ _ _ _ _ _ Hm). lia.
  - pose proof (gu_queue _ _ _ _ _ _ _ _ Hg). lia.
  - destruct Hl as (_ & E & _). cbn [mc]. rewrite E. lia.
  - apply (yd_queue _ _ _ _ _ _ _ _ _ _ Hy).
Qed.

Lemma find_first_split {A} (P : A -> bool) l a :
  a ∈ l -> P a = true ->
  exists xs b ys, find_first P l = Some b /\ l = xs ++ b :: ys /\ P b = true /\ (forall x, x ∈ xs -> P x = false).
Proof.
  induction l as [|c l IH]; intros Ha HP; [set_solver|]. rewrite find_first_cons. destruct (P c) eqn:E.
  - exists [], c, l. split; [done|]. split; [done|]. split; [done|]. set_solver.
  - rewrite elem_of_cons in Ha. destruct Ha as [->|Ha]; [congruence|].
    destruct (IH Ha HP) as (xs & b & ys & -> & -> & Hb & Hxs). exists (c :: xs), b, ys.
    split; [done|]. split; [done|]. split; [done|]. intros x Hx. rewrite elem_of_cons in Hx. naive_solver.
Qed.

Lemma client_linked F w t a :
  client_inv F w t -> a ∈ inorder t ->
  (orphans /\ node_data (ih w) a = None) \/
  exists r R, node_data (ih w) a = Some r /\ rh w !! r = Some R /\ placed w r R a /\ live R.
Proof.
  intros Hi Ha. pose proof (ci_tree _ _ _ Hi) as Hti.
  destruct (ti_link _ _ _ _ _ _ _ Hti a Ha ltac:(done)) as [Ho|(r & R & H1 & H2 & H3 & H4 & _)]; [by left|]. right.
  exists r, R. do 2 (split; [done|]). split; [|done]. split; [done|]. split; [done|]. by apply (ti_dom _ _ _ _ _ _ _ Hti).
Qed.

(** ** Flagging *)
Definition same_but_flags (rm rm' : gmap rptr Range) : Prop :=
  forall r, set_overlapping false <$> rm' !! r = set_overlapping false <$> rm !! r.

Lemma same_but_flags_alter rm rm' r b :
  same_but_flags (alter (set_overlapping b) r rm) rm' -> same_but_flags rm rm'.
Proof.
  intros H r'. rewrite H. destruct (decide (r = r')) as [<-|]; [|by rewrite lookup_alter_ne].
  rewrite lookup_alter_eq. by destruct (rm !! r).
Qed.

Definition hit_node (w : World) (start count : Z) (a : iptr) : bool := hit start count (lo_of w a) (hi_of w a).

Lemma flag_loop_spec t start count ys : forall fuel xs F n (Q : nat -> World -> Prop) w,
  client_inv F w t -> inorder t = xs ++ ys -> (length ys < fuel)%nat ->
  (forall a r, a ∈ ys -> node_data (ih w) a = Some r -> r ∉ F) ->
  (forall ys1 ys2 F' rm', ys = ys1 ++ ys2 -> (forall a, a ∈ ys1 -> hit_node w start count a = true) ->
     (forall a, head ys2 = Some a -> hit_node w start count a = false) ->
     (forall r, r ∈ F' <-> r ∈ F \/ exists a, a ∈ ys1 /\ node_data (ih w) a = Some r) ->
     size F' = (size F + length ys1)%nat -> same_but_flags (rh w) rm' ->
     client_inv F' (mkWorld (mc w) (ih w) rm' (tick w)) t ->
     Q (n + length ys1)%nat (mkWorld (mc w) (ih w) rm' (tick w))) ->
  wp (flag_loop fuel (head ys) start count n) Q w.
Proof.
  induction ys as [|a ys IH]; intros fuel xs F n Q w Hi Heq Hfuel Hnew HQ;
    (destruct fuel as [|fuel]; [simpl in Hfuel; lia|]); cbn [flag_loop head].
  - apply wps_ret. specialize (HQ [] [] F (rh w)). cbn [length] in HQ. rewrite !Nat.add_0_r in HQ. destruct w. apply HQ; try done; set_solver.
  - assert (a ∈ inorder t) as Ha by (rewrite Heq; set_solver).
    pose proof (proj2 (ti_dom _ _ _ _ _ _ _ (ci_tree _ _ _ Hi) a) Ha) as Hsome.
    apply wps_bind, wp_load_interval; [done|]. rewrite check_overlap_hit. fold (hit_node w start count a).
    destruct (hit_node w start count a) eqn:Hh.
    2: { apply wps_ret. specialize (HQ [] (a :: ys) F (rh w)). cbn [length] in HQ. rewrite !Nat.add_0_r in HQ. destruct w.
         apply HQ; try done; try set_solver. }
    apply wps_bind. fold (node_data (ih w) a).
    destruct (client_linked F w t a Hi Ha) as [[Ho Hn]|(r & R & Hd & HR & Hp & Hlive)]; [eapply wp_stop; [by rewrite Hn|by apply OT]|].
    eapply wps_lift; [by rewrite Hd|].
    apply wps_bind, wp_store_range; [by rewrite HR|]. apply wps_bind, wps_get. apply wps_bind.
    pose proof (ti_set _ _ _ _ _ _ _ (ci_tree _ _ _ Hi)) as Hset.
    eapply wps_lift; [eapply next_interval_spec; [exact Hset|exact Heq]|].
    assert (r ∉ F) as HrF by (eapply Hnew; [by left|done]).
    apply (IH fuel (xs ++ [a]) ({[r]} ∪ F)).
    + apply (client_inv_alter F _ w t r (set_overlapping true)); [done|done|done|]. apply ranges_wf_flag, Hi.
    + by rewrite <- app_assoc.
    + simpl in Hfuel. lia.
    + intros b r' Hb Hdb. apply not_elem_of_union. split; [|eapply Hnew; [by right|done]].
      apply not_elem_of_singleton. intros ->.
      change (node_data (ih w) b = Some r) in Hdb.
      destruct (client_linked F w t b Hi ltac:(rewrite Heq; set_solver)) as [[_ Hn]|(rb & Rb & D1 & D2 & (_ & D3 & _) & _)]; [congruence|].
      assert (rb = r) as -> by congruence. destruct Hp as (_ & Hint & _). assert (a = b) as <- by congruence.
      pose proof (ordered_NoDup _ _ (iset_ordered _ _ _ Hset)) as Hnd. rewrite Heq in Hnd.
      by apply list.NoDup_app in Hnd as (_ & _ & [Hn _]%list.NoDup_cons).
    + intros ys1 ys2 F' rm' E Hall Hhead HF' Hsize Hflags Hi'. cbn [mc ih rh tick upd_rh] in *.
      specialize (HQ (a :: ys1) ys2 F' rm'). cbn [length] in HQ.
      replace (S n + length ys1)%nat with (n + S (length ys1))%nat by lia. apply HQ; try done.
      * by rewrite E.
      * intros b Hb. rewrite elem_of_cons in Hb. destruct Hb as [->|Hb]; [done|]. by apply Hall.
      * intros r'. rewrite HF'. split.
        -- intros [H|(b & Hb & Hdb)]; [|right; exists b; set_solver].
           apply elem_of_union in H as [H%elem_of_singleton|H]; [subst; right; exists a; set_solver|by left].
        -- intros [H|(b & Hb & Hdb)]; [set_solver|]. rewrite elem_of_cons in Hb. destruct Hb as [->|Hb]; [|by eauto].
           left. set_solver.
      * rewrite Hsize, size_union by set_solver. rewrite size_singleton. lia.
      * by eapply same_but_flags_alter.
Qed.

(** ** The handler *)

(** The packet's range meets the pool (as the code tests it, in 64-bit arithmetic). *)
Definition in_pool (c : Maap_Client) (p : MAAP_Packet) : bool :=
  negb ((u64 (requested_start_address p + requested_count p - 1) <? address_base c) ||
        (u64 (address_base c + range_len c - 1) <? requested_start_address p)).
(** The offset the code searches the tree for. *)
Definition packet_offset (c : Maap_Client) (p : MAAP_Packet) : Z := u32 (requested_start_address p - address_base c).

(** The outcome of a relevant packet: the ranges it overlaps, and only those, are
    resolved, each once; then the timer is rearmed. *)
Record handled (p : MAAP_Packet) (w : World) (t : tree) (rs : list rptr) (w' : World) (t' : tree) : Prop := mkHandled {
  hd_nodup : NoDup rs;
  hd_hits : forall r, r ∈ rs <-> hit_range w t (packet_offset (mc w) p) (requested_count p) r;
  hd_steps : exists rm w2, same_but_flags (rh w) rm /\
    resolutions p rs (mkWorld (mc w) (ih w) rm (tick w)) t w2 t' /\
    ih w' = ih w2 /\ rh w' = rh w2 /\ effect [] [] (mc w2) (mc w') /\ links_kept (mc w2) (mc w');
  hd_inv : client_inv ∅ w' t'
}.

(** After the first interval past the overlapping ones, none overlaps. *)
Lemma hits_contiguous w t start count xs ys1 b zs c :
  ordered (ih w) (inorder t) -> inorder t = xs ++ ys1 ++ b :: zs -> (exists a, a ∈ ys1 /\ hit_node w start count a = true) ->
  hit_node w start count b = false -> c ∈ b :: zs -> hit_node w start count c = false.
Proof.
  intros Hord Heq (a & Ha & Hha) Hb Hc. rewrite Heq, !ordered_app, ordered_cons in Hord.
  destruct Hord as (_ & (_ & (Hnb & [Hbz1 Hbz2] & Hbz) & Hab) & _). specialize (Hab a b Ha ltac:(by left)).
  rewrite elem_of_cons in Hc. destruct Hc as [->|Hc]; [done|]. specialize (Hbz c Hc).
  assert (nonempty (ih w) c) as Hnc by (rewrite Forall_forall in Hbz2; by apply Hbz2).
  unfold hit_node, hit, before, nonempty in *. apply andb_true_iff in Hha as [H1%Z.leb_le H2%Z.leb_le].
  apply andb_false_iff. apply andb_false_iff in Hb as [Hb%Z.leb_gt|Hb%Z.leb_gt]; [left|right]; apply Z.leb_gt; lia.
Qed.

Lemma queue_bounds_flags F w t : client_inv F w t -> (forall r, r ∈ F -> is_Some (rh w !! r)) ->
  (size F <= length (timer_queue (mc w)))%nat.
Proof.
  intros [_ Hq _ _] HF. rewrite <- (size_list_to_set (C := gset rptr) (timer_queue (mc w))) by apply Hq.
  apply subseteq_size. intros r Hr. apply elem_of_list_to_set, (qi_mem _ _ _ Hq). split; [by apply HF|done].
Qed.

(** ** Resolving *)
Section handle.
Context {env : Environment} (Hmem : memory_available env) (Hlate : late_tolerated env).

(** Resolving the range found, by its state. *)
Lemma resolve_spec p F w t a r R (Q : unit -> World -> Prop) :
  client_inv F w t -> (forall r', r' ∈ F -> is_Some (rh w !! r')) ->
  placed w r R a -> a ∈ inorder t -> node_data (ih w) a = Some r -> live R ->
  Z.of_nat (length (timer_queue (mc w))) < 100000 ->
  (forall w' t', resolution p F w t r w' t' -> Q tt w') ->
  wp (match state R with
      | MAAP_STATE_PROBING => conflict_probing p a r
      | MAAP_STATE_DEFENDING => conflict_defending p a r
      | _ => st_ret tt
      end) Q w.
Proof.
  intros Hi HF Hp Ha Hda Hlive Hlen HQ. pose proof Hp as (HR & _).
  destruct (list_elem_of_split _ _ Ha) as (xs & ys & Heq).
  assert (view w t ≡ₚ (lo_of w a, hi_of w a, Some r) :: keys (ih w) (xs ++ ys)) as Hv
    by (unfold view; rewrite Heq, keys_middle; unfold contents, node_data in *; by rewrite Hda).
  destruct Hlive as [Hst|Hst]; rewrite Hst.
  - eapply (conflict_probing_spec Hmem Hlate F p w t a r R); try done; [lia| | |].
    + intros [H1 H2]. apply (HQ w t). eapply res_ignore; eauto.
    + intros Hl s w' t' H1 H2 Hm. eapply HQ, res_move; try done.
    + intros Hl w' t' Hg. by eapply HQ, res_give_up.
  - eapply (conflict_defending_spec Hmem Hlate F p w t a r R); try done.
    + intros H1 c' tk He Hl. eapply HQ, res_defend; try done.
    + intros H1 H2. apply (HQ w t). eapply res_ignore; eauto.
    + intros H1 H2 repl w' t' Hs Hy. eapply HQ, res_yield; try done.
Qed.

(** One turn of the loop resolves one flagged range. *)
Lemma handle_overlap_spec p start F w t (Q : unit -> World -> Prop) :
  client_inv F w t -> flagged w t start (requested_count p) F -> F <> ∅ ->
  Z.of_nat (length (timer_queue (mc w))) < 100000 ->
  (forall r w' t', r ∈ F -> resolution p (F ∖ {[r]}) (unflag r w) t r w' t' -> Q tt w') ->
  wp (handle_overlap p start) Q w.
Proof.
  intros Hi HF Hne Hlen HQ. pose proof Hi as [Hti Hq Hrw Hcw]. pose proof (ti_set _ _ _ _ _ _ _ Hti) as Hset.
  apply set_choose_L in Hne as [r0 Hr0]. destruct (HF r0 Hr0) as (lo & hi & Hin & Hhit).
  destruct (flagged_some w t start (requested_count p) F r0 Hi HF Hr0) as [R0 HR0].
  destruct (view_placed _ w t r0 R0 lo hi Hti HR0 Hin) as (a0 & Hp0 & Ha0 & Hd0 & <- & <-).
  unfold handle_overlap. apply wps_bind, wps_get. apply wps_bind.
  eapply wps_lift; [eapply search_interval_spec; exact Hset|].
  destruct (find_first_split (overlaps (ih w) (fresh_interval start (requested_count p))) (inorder t) a0 Ha0 Hhit)
    as (xs & b & ys & -> & Heq & _ & Hxs). apply wps_bind.
  change (Some b) with (head (b :: ys)).
  assert (a0 ∈ b :: ys) as Ha0'.
  { rewrite Heq, elem_of_app in Ha0. destruct Ha0 as [H|H]; [|done]. apply Hxs in H. rewrite overlaps_hit in H. congruence. }
  eapply (find_flagged_spec t (b :: ys) _ xs); [done|done| | | |].
  - pose proof (rep_size _ _ _ (iset_rep _ _ _ Hset) (ordered_NoDup _ _ (iset_ordered _ _ _ Hset))) as Hs.
    rewrite Heq, length_app in Hs. unfold loop_fuel. lia.
  - intros c Hc. destruct (client_linked F w t c Hi) as [Ho|(r & R & H1 & H2 & _)]; [rewrite Heq; set_solver|by left|eauto].
  - exists a0, r0, R0. do 3 (split; [done|]). by apply (Hrw r0 R0 HR0).
  - intros a r R Hc Hd HR Hov. assert (a ∈ inorder t) as Ha by (rewrite Heq; set_solver).
    destruct (client_linked F w t a Hi Ha) as [[_ Hn]|(r' & R' & E1 & E2 & (_ & Hint & Hsome) & Hlive)]; [congruence|].
    assert (r' = r) as -> by congruence. assert (R' = R) as -> by congruence.
    apply wps_bind, wp_store_range; [by rewrite HR|]. fold (unflag r w).
    assert (rh (unflag r w) !! r = Some (set_overlapping false R)) as HR1
      by (unfold unflag, upd_rh; cbn [rh]; by rewrite lookup_alter_eq, HR).
    apply wps_bind. eapply wp_load_range; [exact HR1|].
    assert (r ∈ F) as HrF by (by apply (Hrw r R HR)).
    eapply (resolve_spec p (F ∖ {[r]}) (unflag r w) t a r); try done.
    + by apply client_inv_unflag.
    + intros r' Hr'. unfold unflag, upd_rh. cbn [rh]. rewrite lookup_alter_is_Some.
      eapply flagged_some; [exact Hi|exact HF|set_solver].
    + intros w' t' Hres. by eapply HQ.
Qed.

End handle.

Section handler.
Context {env : Environment} (Hmem : memory_available env).

(** The whole loop resolves every flagged range once. *)
Lemma overlap_loop_spec p start n : forall F w t (Q : unit -> World -> Prop),
  ((0 < n)%nat -> late_tolerated env) -> client_inv F w t -> flagged w t start (requested_count p) F -> size F = n ->
  Z.of_nat (length (timer_queue (mc w)) + n) <= 100000 ->
  (forall rs w' t', NoDup rs -> (forall r, r ∈ rs <-> r ∈ F) -> resolutions p rs w t w' t' -> client_inv ∅ w' t' -> Q tt w') ->
  wp (overlap_loop n p start) Q w.
Proof.
  induction n as [|n IH]; intros F w t Q Hlate Hi HF Hsize Hlen HQ; cbn [overlap_loop].
  - apply wps_ret. apply size_empty_inv in Hsize. fold_leibniz. subst F.
    apply (HQ [] w t); [constructor|set_solver|constructor|done].
  - assert (F <> ∅) as Hne by (intros ->; rewrite size_empty in Hsize; lia).
    apply wps_bind, (handle_overlap_spec Hmem (Hlate ltac:(lia)) p start F w t); [done|done|done|lia|].
    intros r w1 t1 Hr Hres.
    pose proof (client_inv_unflag F w t r Hi) as Hi1.
    apply (IH (F ∖ {[r]}) w1 t1).
    + intros _. apply Hlate. lia.
    + by eapply resolution_inv.
    + intros r' Hr'. destruct (HF r' ltac:(set_solver)) as (lo & hi & Hin & Hh). exists lo, hi. split; [|done].
      eapply resolution_keeps; [exact Hres|set_solver|done].
    + rewrite size_difference by set_solver. rewrite size_singleton. lia.
    + pose proof (resolution_queue _ _ _ _ _ _ _ Hres) as Hql. unfold unflag, upd_rh in Hql. cbn [mc] in Hql. lia.
    + intros rs w2 t2 Hnd Hrs Hress Hi2. apply (HQ (r :: rs) w2 t2).
      * constructor; [|done]. rewrite Hrs. set_solver.
      * intros r'. rewrite elem_of_cons, Hrs. destruct (decide (r' = r)); set_solver.
      * econstructor; [|exact Hress]. replace (list_to_set rs) with (F ∖ {[r]}); [exact Hres|].
        apply set_eq. intros r'. by rewrite elem_of_list_to_set, Hrs.
      * done.
Qed.

(** Flagging, resolving and rearming, for a packet that reaches the search. *)
Lemma handle_relevant_spec p w t (Q : Z -> World -> Prop) :
  ((exists r, hit_range w t (packet_offset (mc w) p) (requested_count p) r) -> late_tolerated env) ->
  client_inv ∅ w t -> 2 * Z.of_nat (length (timer_queue (mc w))) <= 100000 ->
  (forall rs w' t', handled p w t rs w' t' -> Q 0 w') ->
  wp (let start := packet_offset (mc w) p in
      let! w := st_get in
      let! iv := st_lift (search_interval (ih w) (ranges (mc w)) start (requested_count p)) in
      let! num_overlaps := flag_loop (loop_fuel (ih w)) iv start (requested_count p) 0 in
      overlap_loop num_overlaps p start ;! start_timer ;! st_ret 0) Q w.
Proof.
  intros Hlate Hi Hlen HQ. set (start := packet_offset (mc w) p). set (count := requested_count p) in *.
  pose proof (ti_set _ _ _ _ _ _ _ (ci_tree _ _ _ Hi)) as Hset.
  apply wps_bind, wps_get. apply wps_bind. eapply wps_lift; [eapply search_interval_spec; exact Hset|].
  assert (exists xs ys, inorder t = xs ++ ys /\
    find_first (overlaps (ih w) (fresh_interval start count)) (inorder t) = head ys /\
    (forall a, a ∈ xs -> hit_node w start count a = false) /\
    (forall a, head ys = Some a -> hit_node w start count a = true)) as (xs & ys & Heq & -> & Hxs & Hys).
  { destruct (find_first (overlaps (ih w) (fresh_interval start count)) (inorder t)) as [b|] eqn:E.
    - destruct (find_first_Some _ _ _ E) as [Hb Hov].
      destruct (find_first_split _ _ b Hb Hov) as (xs & b' & ys & E' & Heq & Hb' & Hxs).
      rewrite E in E'. injection E' as <-. exists xs, (b :: ys). do 3 (split; [done|]). by intros a [= <-].
    - exists (inorder t), []. rewrite app_nil_r. do 2 (split; [done|]). split; [|done].
      intros a Ha. rewrite find_first_None in E. by apply E. }
  apply wps_bind. eapply (flag_loop_spec t start count ys _ xs ∅); [done|done| |set_solver|].
  { pose proof (rep_size _ _ _ (iset_rep _ _ _ Hset) (ordered_NoDup _ _ (iset_ordered _ _ _ Hset))) as Hs.
    rewrite Heq, length_app in Hs. unfold loop_fuel. lia. }
  intros ys1 ys2 F rm E Hhit Hmiss HF Hsize Hflags Hi1. rewrite Nat.add_0_l.
  set (w1 := mkWorld (mc w) (ih w) rm (tick w)) in *.
  assert (forall r, r ∈ F <-> hit_range w t start count r) as Hhits.
  { intros r. rewrite HF. split.
    - intros [?|(a & Ha & Hd)]; [set_solver|]. exists (lo_of w a), (hi_of w a). split; [|by apply Hhit].
      rewrite <- Hd. apply view_of_node. rewrite Heq, E. set_solver.
    - intros (lo & hi & Hin & Hh). right. apply list_elem_of_fmap in Hin as (a & Ea & Ha). symmetry in Ea.
      apply contents_eq in Ea as (<- & <- & Hd). exists a. split; [|done]. fold (hit_node w start count a) in Hh.
      rewrite Heq, E, !elem_of_app in Ha. destruct Ha as [Ha|[Ha|Ha]]; [by rewrite Hxs in Hh|done|].
      exfalso. destruct ys2 as [|b zs]; [set_solver|]. specialize (Hmiss b eq_refl).
      destruct ys1 as [|c ys1]; [rewrite E in Hys; by rewrite (Hys b eq_refl) in Hmiss|].
      rewrite (hits_contiguous w t start count xs (c :: ys1) b zs a) in Hh; try done.
      + apply (iset_ordered _ _ _ Hset). + by rewrite Heq, E. + exists c. split; [by left|]. apply Hhit. by left. }
  assert (flagged w1 t start count F) as Hfl by (intros r Hr; by apply Hhits).
  apply wps_bind. apply (overlap_loop_spec p start (length ys1) F w1 t); [|done|done| | |].
  { intros Hn. apply Hlate. destruct (set_choose_L F) as [r Hr]; [|exists r; by apply Hhits].
    intros ->. rewrite !size_empty in Hsize. lia. }
  { rewrite Hsize, size_empty. done. }
  { pose proof (queue_bounds_flags F w1 t Hi1) as Hb. rewrite Hsize, size_empty in Hb. cbn [mc w1] in *.
    specialize (Hb ltac:(intros r Hr; eapply flagged_some; [exact Hi1|exact Hfl|done])). lia. }
  intros rs w2 t2 Hnd Hrs Hres Hi2. apply wps_bind.
  eapply (wp_start_timer (rh w2) (timer_queue (mc w2))); [apply Hi2|apply Hi2|done|done|].
  intros c3 He3 Hl3. apply wps_ret. apply (HQ rs _ t2). constructor.
  - done.
  - intros r. by rewrite Hrs.
  - exists rm, w2. by repeat split; try apply He3; try apply Hl3.
  - destruct Hl3 as (E1 & E2 & E3). apply client_inv_transport; [done|done|done|apply (ef_len _ _ _ _ He3)|].
    apply (ef_wf _ _ _ _ He3), Hi2.
Qed.

Lemma maap_handle_packet_spec stream w t (Q : Z -> World -> Prop) :
  (forall p, unpack_maap uninit_tmp64 stream = Done p -> is_maap_packet p = true -> in_pool (mc w) p = true ->
     (exists r, hit_range w t (packet_offset (mc w) p) (requested_count p) r) -> late_tolerated env) ->
  client_inv ∅ w t -> Forall is_byte stream -> 2 * Z.of_nat (length (timer_queue (mc w))) <= 100000 ->
  ((length stream < 42)%nat -> Q (-1) w) ->
  (forall p, (42 <= length stream)%nat -> unpack_maap uninit_tmp64 stream = Done p -> packet_wf p ->
     pack_maap p = take 42 stream -> is_maap_packet p = false -> Q (-1) w) ->
  (forall p, (42 <= length stream)%nat -> unpack_maap uninit_tmp64 stream = Done p -> packet_wf p ->
     pack_maap p = take 42 stream -> is_maap_packet p = true -> in_pool (mc w) p = false -> Q 0 w) ->
  (forall p rs w' t', (42 <= length stream)%nat -> unpack_maap uninit_tmp64 stream = Done p -> packet_wf p ->
     pack_maap p = take 42 stream -> is_maap_packet p = true -> in_pool (mc w) p = true ->
     handled p w t rs w' t' -> Q 0 w') ->
  wp (maap_handle_packet stream (Z.of_nat (length stream))) Q w.
Proof.
  intros Hlate Hi Hb Hlen Hshort Hbad Hout Hok. unfold maap_handle_packet, MAAP_PKT_SIZE.
  destruct (Z.ltb_spec (Z.of_nat (length stream)) 42) as [Hs|Hs]; [apply wps_ret, Hshort; lia|].
  assert (42 <= length stream)%nat as Hs' by lia.
  destruct (unpack_stream stream Hs' Hb) as (p & Hwf & Hpack & Hun).
  specialize (Hun uninit_tmp64 (proj1 uninit_tmp64_ok) (proj2 uninit_tmp64_ok)).
  apply wps_bind. eapply wps_lift; [exact Hun|].
  destruct (is_maap_packet p) eqn:Hm; simpl negb; cbv iota; [|by apply wps_ret, (Hbad p)].
  apply wps_bind, wp_get_mc.
  destruct ((u64 _ <? address_base (mc w)) || _) eqn:Ho.
  - apply wps_ret, (Hout p); try done. unfold in_pool. by rewrite Ho.
  - apply (handle_relevant_spec p w t); [|done|done|].
    { apply Hlate; [done|done|]. unfold in_pool. by rewrite Ho. }
    intros rs w' t' Hh. apply (Hok p rs w' t'); try done.
    unfold in_pool. by rewrite Ho.
Qed.
End handler.

End mode.
