(* ===== verification/MaapTimer.v ===== *)
(** * Timer expiry: maap_handle_timer

    Every due range is taken from the front of the timer queue and probes again, is
    acquired, announces itself, or is freed; the loop ends because each rescheduled
    range lies in the future. *)
From S2P Require Import Prelude Intervals IntervalTree IntervalUpdate MaapPacket MaapTime MaapNet Maap.
From S2P Require Import MaapInv MaapSafety MaapConflict.
From stdpp Require Import base gmap list numbers sorting.
#[local] Open Scope Z_scope.
#[local] Open Scope st_scope.

Section mode.
Context {Oph : Orphans} {T : Stops} {OT : Tolerant Oph T}.

Section timers.
Context {env : Environment}.

(** A deadline set at some call after the [n]-th. *)
Definition deadline_from (n : nat) (s : Maap_State) (tm : Time) : Prop :=
  exists k, (n <= k)%nat /\ deadline s (clock_at k) tm.

(** What the expiry of the range [r] does, by its state. *)
Inductive expired (w : World) (t : tree) (r : rptr) : World -> Prop :=
  | exp_probe R lo hi c' tm tk :
    rh w !! r = Some R -> state R = MAAP_STATE_PROBING -> counter R <> 0 -> (lo, hi, Some r) ∈ view w t ->
    deadline_from (tick w) MAAP_STATE_PROBING tm ->
    effect [pack_maap (announcement MAAP_PROBE (mc w) lo hi)] [] (mc w) c' -> (tick w <= tk)%nat ->
    expired w t r (mkWorld c' (ih w) (<[r := set_next_act_time tm (set_counter (counter R - 1) R)]> (rh w)) tk)
  | exp_acquire R lo hi c' tm tk :
    rh w !! r = Some R -> state R = MAAP_STATE_PROBING -> counter R = 0 -> (lo, hi, Some r) ∈ view w t ->
    deadline_from (tick w) MAAP_STATE_DEFENDING tm ->
    effect [pack_maap (announcement MAAP_ANNOUNCE (mc w) lo hi)]
      [(sender R, note_of MAAP_NOTIFY_ACQUIRED (id R) (address_base (mc w)) lo hi MAAP_NOTIFY_ERROR_NONE)] (mc w) c' ->
    (tick w <= tk)%nat ->
    expired w t r (mkWorld c' (ih w) (<[r := set_next_act_time tm (set_state MAAP_STATE_DEFENDING R)]> (rh w)) tk)
  | exp_announce R lo hi c' tm tk :
    rh w !! r = Some R -> state R = MAAP_STATE_DEFENDING -> (lo, hi, Some r) ∈ view w t ->
    deadline_from (tick w) MAAP_STATE_DEFENDING tm ->
    effect [pack_maap (announcement MAAP_ANNOUNCE (mc w) lo hi)] [] (mc w) c' -> (tick w <= tk)%nat ->
    expired w t r (mkWorld c' (ih w) (<[r := set_next_act_time tm R]> (rh w)) tk)
  | exp_free R c' :
    rh w !! r = Some R -> state R = MAAP_STATE_RELEASED -> effect [] [] (mc w) c' ->
    expired w t r (mkWorld c' (ih w) (delete r (rh w)) (tick w)).

Inductive expiries : list rptr -> World -> tree -> World -> Prop :=
  | expiries_nil w t : expiries [] w t w
  | expiries_cons r rs w t w1 w2 : expired w t r w1 -> expiries rs w1 t w2 -> expiries (r :: rs) w t w2.

(** The state after [r] was popped: in no queue. *)
Record popped_inv (w : World) (t : tree) (r : rptr) : Prop := mkPopped {
  pi_tree : tree_inv None None (ih w) (rh w) (ranges (mc w)) (range_len (mc w)) t;
  pi_queue : queue_inv (Some r) (rh w) (timer_queue (mc w));
  pi_wf : ranges_wf ∅ (rh w);
  pi_client : client_wf (mc w);
  pi_len : Z.of_nat (length (timer_queue (mc w))) < 100000
}.

Lemma popped_remove w t r : popped_inv w t r -> queue_remove r (timer_queue (mc w)) = timer_queue (mc w).
Proof.
  intros [_ Hq _ _ _]. destruct (queue_remove_split r (timer_queue (mc w))) as [[_ ->]|(l1 & l2 & E & _)]; [done|].
  exfalso. assert (r ∈ timer_queue (mc w)) as H by (rewrite E; set_solver). by apply (qi_mem _ _ _ Hq) in H as [_ ?].
Qed.

Context (Hmem : memory_available env).

(** Rescheduling a popped range and sending its packet. *)
Lemma popped_schedule_spec mt w t r R a (Q : World -> Prop) :
  popped_inv w t r -> placed w r R a -> live R ->
  (forall c' tm tk,
     let w' := mkWorld c' (ih w) (alter (set_next_act_time tm) r (rh w)) tk in
     client_inv ∅ w' t -> deadline_from (tick w) (state R) tm ->
     length (timer_queue c') = S (length (timer_queue (mc w))) ->
     effect [pack_maap (announcement mt (mc w) (lo_of w a) (hi_of w a))] [] (mc w) c' -> (tick w <= tk)%nat -> Q w') ->
  wp (schedule_timer r) (fun _ => wp (send_range mt r) (fun _ => Q)) w.
Proof.
  intros Hpi Hp Hlive HQ. pose proof Hpi as [Hti Hq Hrw Hcw Hlen].
  eapply (schedule_send_spec Hmem mt (Some r) r R a t ∅); try done; [by right|by rewrite (popped_remove w t r)|].
  intros c' tm tk w' Hi Hd Hl He _ Htk. rewrite (popped_remove w t r) in Hl by done.
  apply (HQ c' tm tk); try done. exists (S (tick w)). split; [lia|done].
Qed.

Lemma popped_alter w t r R f :
  popped_inv w t r -> rh w !! r = Some R -> (interval (f R) = interval R) -> (live (f R) <-> live R) ->
  range_wf ∅ r (f R) -> popped_inv (upd_rh (alter f r) w) t r.
Proof.
  intros [Hti Hq Hrw Hcw Hlen] HR Hint Hlive Hwf. constructor; cbn [rh mc ih upd_rh]; try done.
  - destruct Hti as [H1 H2 H3 H4 H5]. constructor; [done|done|done| |].
    + intros a Ha HX. destruct (H4 a Ha HX) as [Ho|(r' & R' & E1 & E2 & E3 & E4 & E5)]; [by left|]. right.
      destruct (decide (r = r')) as [<-|Hne].
      * exists r, (f R). rewrite lookup_alter_eq, HR. assert (R' = R) as -> by congruence.
        rewrite Hint, Hlive. done.
      * exists r', R'. by rewrite lookup_alter_ne.
    + intros r' R' HR' Hl' _. destruct (decide (r = r')) as [<-|Hne].
      * rewrite lookup_alter_eq, HR in HR'. simpl in HR'. injection HR' as <-. rewrite Hint.
        apply (H5 r R HR); [by apply Hlive|done].
      * rewrite lookup_alter_ne in HR' by done. by apply H5.
  - by apply queue_inv_set_time.
  - apply ranges_wf_alter; [done|]. intros R' HR'. assert (R' = R) as -> by congruence. done.
Qed.

Lemma alter_insert_Some {A} (f : A -> A) (m : gmap positive A) k x : m !! k = Some x -> alter f k m = <[k := f x]> m.
Proof.
  intros H. apply map_eq. intros j. destruct (decide (k = j)) as [<-|].
  - by rewrite lookup_alter_eq, lookup_insert_eq, H.
  - by rewrite lookup_alter_ne, lookup_insert_ne.
Qed.

Lemma handle_defend_timer_spec w t r R (Q : Z -> World -> Prop) :
  popped_inv w t r -> rh w !! r = Some R -> state R = MAAP_STATE_DEFENDING ->
  (forall w', expired w t r w' -> client_inv ∅ w' t ->
     length (timer_queue (mc w')) = S (length (timer_queue (mc w))) -> (tick w <= tick w')%nat -> Q 0 w') ->
  wp (handle_defend_timer r) Q w.
Proof.
  intros Hpi HR Hst HQ. assert (live R) as Hl by (by right).
  destruct (inv_placed _ _ _ _ r R (pi_tree _ _ _ Hpi) HR Hl ltac:(done)) as (a & Hp & Ha & _ & Hda).
  apply wps_bind. eapply wps_mono; [eapply (popped_schedule_spec MAAP_ANNOUNCE w t r R a); [done|done|done|]|].
  - intros c' tm tk w' Hi Hd Hlq He Htk. instantiate (1 := Q 0). apply HQ; try done.
    unfold w'. rewrite (alter_insert_Some _ _ _ R HR). rewrite Hst in Hd.
    eapply exp_announce; [done|done| |done|exact He|done]. rewrite <- Hda. by apply view_of_node.
  - intros rv w1 H1. apply wps_bind. eapply wps_mono; [exact H1|]. intros rv2 w2 H2. by apply wps_ret.
Qed.

Lemma handle_probe_timer_spec w t r R (Q : Z -> World -> Prop) :
  popped_inv w t r -> rh w !! r = Some R -> state R = MAAP_STATE_PROBING ->
  (forall w', expired w t r w' -> client_inv ∅ w' t ->
     length (timer_queue (mc w')) = S (length (timer_queue (mc w))) -> (tick w <= tick w')%nat -> Q 0 w') ->
  wp (handle_probe_timer r) Q w.
Proof.
  intros Hpi HR Hst HQ. assert (live R) as Hl by (by left).
  destruct (inv_placed _ _ _ _ r R (pi_tree _ _ _ Hpi) HR Hl ltac:(done)) as (a & Hp & Ha & _ & Hda).
  assert ((lo_of w a, hi_of w a, Some r) ∈ view w t) as Hv by (rewrite <- Hda; by apply view_of_node).
  destruct (pi_wf _ _ _ Hpi r R HR) as (W1 & W2 & W3). pose proof Hp as (_ & Hint & Hsome).
  apply wps_bind. eapply wp_load_range; [done|]. destruct (Z.eqb_spec (counter R) 0) as [Hc|Hc].
  - apply wps_bind. eapply (wp_inform_acquired Hmem); [exact Hp|]. intros c1 He1 (E1 & E2 & E3).
    apply wps_bind, wp_store_range; [cbn [rh]; by rewrite HR|].
    set (w1 := upd_rh _ _). set (R1 := set_state MAAP_STATE_DEFENDING R).
    assert (popped_inv w1 t r) as Hpi1.
    { apply (popped_alter (mkWorld c1 (ih w) (rh w) (S (tick w))) t r R); cbn [rh mc ih]; try done; [|split; intros; [by left|by right]].
      destruct Hpi as [P1 P2 P3 P4 P5]. constructor; cbn [rh mc ih]; rewrite ?E1, ?E2, ?(ef_len _ _ _ _ He1); try done.
      by apply (ef_wf _ _ _ _ He1). }
    assert (rh w1 !! r = Some R1) as HR1 by (cbn; by rewrite lookup_alter_eq, HR).
    apply wps_bind. eapply wps_mono; [eapply (popped_schedule_spec MAAP_ANNOUNCE w1 t r R1 a); [done| |by right|]|].
    + by split.
    + intros c' tm tk w' Hi Hd Hlq He Htk. instantiate (1 := Q 0). cbn in Hlq, Htk, He.
      apply HQ; [|done|cbn; by rewrite Hlq, E2|cbn; lia]. unfold w'. cbn [ih rh w1 upd_rh].
      rewrite (alter_insert_Some _ _ _ _ HR1). cbn [rh w1 upd_rh]. rewrite (alter_insert_Some _ _ _ _ HR).
      rewrite insert_insert_eq. destruct Hd as (k & Hk & Hd). cbn in Hk.
      eapply exp_acquire; [done|done|done|exact Hv|exists k; split; [lia|done]| |lia].
      eapply effect_then; [exact He1|exact He|unfold announcement; by keep He1|done].
    + intros rv w2 H2. apply wps_bind. eapply wps_mono; [exact H2|]. intros rv2 w3 H3. by apply wps_ret.
  - apply wps_bind, wp_store_range; [by rewrite HR|]. set (w1 := upd_rh _ _). set (R1 := set_counter (counter R - 1) R).
    assert (popped_inv w1 t r) as Hpi1.
    { apply (popped_alter w t r R); try done. split; [done|]. split; [done|]. simpl. lia. }
    assert (rh w1 !! r = Some R1) as HR1 by (cbn; by rewrite lookup_alter_eq, HR).
    apply wps_bind. eapply wps_mono; [eapply (popped_schedule_spec MAAP_PROBE w1 t r R1 a); [done| |by left|]|].
    + by split.
    + intros c' tm tk w' Hi Hd Hlq He Htk. instantiate (1 := Q 0).
      apply HQ; [|done|done|done]. unfold w'. cbn [ih rh w1 upd_rh].
      rewrite (alter_insert_Some _ _ _ _ HR1). cbn [rh w1 upd_rh]. rewrite (alter_insert_Some _ _ _ _ HR).
      rewrite insert_insert_eq. cbn in Hd. rewrite Hst in Hd. by eapply exp_probe.
    + intros rv w2 H2. apply wps_bind. eapply wps_mono; [exact H2|]. intros rv2 w3 H3. by apply wps_ret.
Qed.

(** ** Termination: the number of due ranges *)
Definition ndue (cur : Time) (rm : gmap rptr Range) : nat :=
  size (base.filter (fun p => time_le (next_act_time p.2) cur) rm).

Lemma ndue_delete cur rm r R :
  rm !! r = Some R -> time_le (next_act_time R) cur -> S (ndue cur (delete r rm)) = ndue cur rm.
Proof.
  intros HR Hd. unfold ndue. rewrite map_filter_delete.
  assert (base.filter (fun p => time_le (next_act_time p.2) cur) rm !! r = Some R) as Hf
    by (by apply map_lookup_filter_Some).
  rewrite map_size_delete_Some by eauto. apply Nat.succ_pred. intros H0. apply map_size_empty_inv in H0.
  by rewrite H0, lookup_empty in Hf.
Qed.
Lemma ndue_insert cur rm r R R' :
  rm !! r = Some R -> time_le (next_act_time R) cur -> ~ time_le (next_act_time R') cur ->
  S (ndue cur (<[r := R']> rm)) = ndue cur rm.
Proof.
  intros HR Hd Hn. rewrite <- (ndue_delete cur rm r R HR Hd). f_equal. unfold ndue.
  by rewrite map_filter_insert_False.
Qed.
Lemma ndue_queue w t cur : client_inv ∅ w t -> (ndue cur (rh w) <= length (timer_queue (mc w)))%nat.
Proof.
  intros [_ Hq _ _]. unfold ndue. etrans; [apply map_subseteq_size, map_filter_subseteq|].
  rewrite <- (size_list_to_set (C := gset rptr) (timer_queue (mc w))) by apply Hq. rewrite <- size_dom.
  apply subseteq_size. intros r Hr%elem_of_dom. apply elem_of_list_to_set, (qi_mem _ _ _ Hq). done.
Qed.

Lemma deadline_future cur n s tm : time_le cur (clock_at n) -> deadline_from n s tm -> ~ time_le tm cur.
Proof.
  intros Hc (k & Hk & _ & Hd) Hle. apply Hd. transitivity cur; [done|]. transitivity (clock_at n); [done|].
  by apply clock_at_monotone.
Qed.

Lemma expired_ndue w t r R w' cur :
  expired w t r w' -> rh w !! r = Some R -> time_le (next_act_time R) cur -> time_le cur (clock_at (tick w)) ->
  S (ndue cur (rh w')) = ndue cur (rh w).
Proof.
  intros He HR Hd Hc. destruct He; cbn [rh]; simplify_eq; [| | |by eapply ndue_delete];
    (eapply ndue_insert; [done|done|by eapply deadline_future]).
Qed.

(** Popping the front of the queue. *)
Lemma pop_inv w t r rest :
  client_inv ∅ w t -> timer_queue (mc w) = r :: rest -> Z.of_nat (length (timer_queue (mc w))) <= 100000 ->
  popped_inv (upd_mc (set_timer_queue rest) w) t r.
Proof.
  intros [Hti Hq Hrw Hcw] E Hlen. rewrite E in *. destruct Hq as [H1 H2 H3].
  apply list.NoDup_cons in H2 as [H2 H2']. apply StronglySorted_inv in H3 as [H3 _].
  constructor; cbn [mc ih rh upd_mc ranges range_len timer_queue set_timer_queue]; try done.
  - split; [|done|done]. intros x. specialize (H1 x). rewrite elem_of_cons in H1. split.
    + intros Hx. split; [apply H1; by right|]. congruence.
    + intros [Hx Hne]. destruct (proj2 H1) as [->|]; [by split|done|done].
  - apply (ef_wf _ _ _ _ (effect_set_timer_queue rest (mc w))), Hcw.
  - simpl in Hlen. lia.
Qed.
Lemma expired_pop w t r rest w' : expired (upd_mc (set_timer_queue rest) w) t r w' -> expired w t r w'.
Proof.
  intros He. pose proof (effect_set_timer_queue rest (mc w)) as E0.
  assert (forall ps ns c', effect ps ns (mc (upd_mc (set_timer_queue rest) w)) c' -> effect ps ns (mc w) c') as Heff.
  { intros ps ns c' Hc. eapply effect_then; [exact E0|exact Hc|by rewrite app_nil_r|done]. }
  destruct He as [R lo hi c' tm tk|R lo hi c' tm tk|R lo hi c' tm tk|R c'].
  - apply (exp_probe w t r R lo hi c' tm tk); try done. by apply Heff.
  - apply (exp_acquire w t r R lo hi c' tm tk); try done. by apply Heff.
  - apply (exp_announce w t r R lo hi c' tm tk); try done. by apply Heff.
  - apply (exp_free w t r R c'); try done. by apply Heff.
Qed.

Lemma free_popped w t r R :
  popped_inv w t r -> rh w !! r = Some R -> state R = MAAP_STATE_RELEASED ->
  client_inv ∅ (upd_rh (delete r) w) t.
Proof.
  intros [Hti Hq Hrw Hcw _] HR Hst. constructor; cbn [rh mc ih upd_rh]; [| | |done].
  - destruct Hti as [H1 H2 H3 H4 H5]. constructor; [done|done|done| |].
    + intros a Ha HX. destruct (H4 a Ha HX) as [Ho|(r' & R' & E1 & E2 & E3 & E4 & E5)]; [by left|]. right. exists r', R'.
      rewrite lookup_delete_ne; [done|]. intros ->. assert (R' = R) as -> by congruence. destruct E4; congruence.
    + intros r' R' HR' Hl _. rewrite lookup_delete_Some in HR'. destruct HR' as [Hne HR']. by apply H5.
  - destruct Hq as [H1 H2 H3]. split; [|done|].
    + intros x. rewrite lookup_delete_is_Some, H1. naive_solver.
    + eapply sorted_due; [|exact H3]. intros x Hx. unfold due. rewrite lookup_delete_ne; [done|].
      intros ->. by apply H1 in Hx as [_ ?].
  - intros r' R'. rewrite lookup_delete_Some. intros [_ H]. by apply Hrw.
Qed.

(** The front of the queue is the earliest. *)
Lemma front_earliest w t r rest R cur :
  client_inv ∅ w t -> timer_queue (mc w) = r :: rest -> rh w !! r = Some R -> ~ time_le (next_act_time R) cur ->
  forall r' R', rh w !! r' = Some R' -> ~ time_le (next_act_time R') cur.
Proof.
  intros [_ Hq _ _] E HR Hn r' R' HR' Hle. apply Hn.
  assert (r' ∈ r :: rest) as Hin by (rewrite <- E; apply (qi_mem _ _ _ Hq); by rewrite HR').
  rewrite elem_of_cons in Hin. destruct Hin as [->|Hin]; [congruence|].
  pose proof (qi_sorted _ _ _ Hq) as Hs. rewrite E in Hs. apply StronglySorted_inv in Hs as [_ Hf].
  rewrite Forall_forall in Hf. specialize (Hf r' Hin). unfold not_later, due in Hf. rewrite HR, HR' in Hf.
  by transitivity (next_act_time R').
Qed.

Lemma timer_loop_spec t cur fuel : forall w (Q : unit -> World -> Prop),
  client_inv ∅ w t -> (ndue cur (rh w) < fuel)%nat -> Z.of_nat (length (timer_queue (mc w))) <= 100000 ->
  time_le cur (clock_at (tick w)) ->
  (forall rs w', expiries rs w t w' -> client_inv ∅ w' t ->
     (forall r R, rh w' !! r = Some R -> ~ time_le (next_act_time R) cur) -> Q tt w') ->
  wp (timer_loop fuel cur) Q w.
Proof.
  induction fuel as [|fuel IH]; intros w Q Hi Hfuel Hlen Hcur HQ; [lia|]. cbn [timer_loop].
  apply wps_bind, wp_get_mc. destruct (timer_queue (mc w)) as [|r rest] eqn:E.
  - apply wps_ret. apply (HQ [] w); [constructor|done|]. intros r R HR.
    assert (r ∈ timer_queue (mc w)) as Hr by (apply (qi_mem _ _ _ (ci_queue _ _ _ Hi)); by rewrite HR).
    rewrite E in Hr. set_solver.
  - destruct (proj1 (qi_mem _ _ _ (ci_queue _ _ _ Hi) r) ltac:(rewrite E; by left)) as [[R HR] _].
    apply wps_bind. eapply wp_load_range; [done|]. destruct (Time_passed cur (next_act_time R)) eqn:Hp.
    2: { apply wps_ret. apply (HQ [] w); [constructor|done|]. eapply front_earliest; [done|exact E|done|].
         intros H. apply Time_passed_le in H. congruence. }
    apply Time_passed_le in Hp. apply wps_bind, wps_modify.
    rewrite <- E in Hlen. pose proof (pop_inv w t r rest Hi E Hlen) as Hpi. set (w0 := upd_mc _ w) in *.
    assert (forall w1, expired w0 t r w1 -> client_inv ∅ w1 t ->
      (length (timer_queue (mc w1)) <= S (length (timer_queue (mc w0))))%nat -> (tick w0 <= tick w1)%nat ->
      wp (timer_loop fuel cur) Q w1) as Hnext.
    { intros w1 He Hi1 Hl1 Ht1. apply expired_pop in He. apply IH.
      - done.
      - pose proof (expired_ndue w t r R w1 cur He HR Hp Hcur). lia.
      - cbn in Hl1. rewrite E in Hlen. simpl in Hlen. lia.
      - etrans; [exact Hcur|]. apply clock_at_monotone. exact Ht1.
      - intros rs w' Hex. apply (HQ (r :: rs) w'). by econstructor. }
    apply wps_bind. destruct (ci_wf _ _ _ Hi r R HR) as (Hinv & _).
    destruct (state R) eqn:Hst; [done| | |].
    + apply wps_bind. eapply (handle_probe_timer_spec w0 t r R); [done|done|done|].
      intros w1 He Hi1 Hl1 Ht1. apply wps_ret. apply Hnext; try done. lia.
    + apply wps_bind. eapply (handle_defend_timer_spec w0 t r R); [done|done|done|].
      intros w1 He Hi1 Hl1 Ht1. apply wps_ret. apply Hnext; try done. lia.
    + apply wp_free_range; [cbn [rh w0 upd_mc]; by rewrite HR|]. apply Hnext.
      * eapply exp_free; [exact HR|done|apply effect_refl].
      * by eapply free_popped.
      * cbn. lia.
      * done.
Qed.

(** Every due range is served, and none is due afterwards. *)
Record timer_handled (w : World) (t : tree) (rs : list rptr) (w' : World) : Prop := mkTimerHandled {
  th_steps : exists w2, expiries rs (upd_tick w) t w2 /\ ih w' = ih w2 /\ rh w' = rh w2 /\
    effect [] [] (mc w2) (mc w') /\ links_kept (mc w2) (mc w');
  th_due : forall r R, rh w' !! r = Some R -> ~ time_le (next_act_time R) (clock_at (tick w));
  th_inv : client_inv ∅ w' t
}.

Lemma maap_handle_timer_spec w t (Q : Z -> World -> Prop) :
  client_inv ∅ w t -> Z.of_nat (length (timer_queue (mc w))) <= 100000 ->
  (forall rs w', timer_handled w t rs w' -> Q 0 w') ->
  wp maap_handle_timer Q w.
Proof.
  intros Hi Hlen HQ. unfold maap_handle_timer. apply wps_bind. unfold c_clock, wp at 1. apply wps_bind, wp_get_mc.
  assert (client_inv ∅ (upd_tick w) t) as Hi1 by (by apply (client_inv_transport ∅ w t (mc w)); try apply Hi).
  apply wps_bind. apply (timer_loop_spec t (clock_at (tick w))).
  - done.
  - pose proof (ndue_queue (upd_tick w) t (clock_at (tick w)) Hi1). cbn in *. lia.
  - done.
  - apply clock_at_monotone. simpl. lia.
  - intros rs w2 Hex Hi2 Hdue. apply wps_bind.
    eapply (wp_start_timer (rh w2) (timer_queue (mc w2))); [apply Hi2|apply Hi2|done|done|].
    intros c3 He3 Hl3. apply wps_ret. apply (HQ rs). constructor; [exists w2; done|done|].
    destruct Hl3 as (E1 & E2 & E3). apply client_inv_transport; [done|done|done|apply (ef_len _ _ _ _ He3)|].
    apply (ef_wf _ _ _ _ He3), Hi2.
Qed.
End timers.

End mode.
