(* ===== verification/MaapClient.v ===== *)
(** * The MAAP client as a whole

    The properties of the public functions of maap.c: what each returns and does on
    every branch, that none of them faults on a well-formed client, and what every
    reachable client satisfies. *)
From S2P Require Import Prelude Intervals IntervalTree IntervalUpdate MaapPacket MaapTime MaapNet Maap.
From S2P Require Import MaapInv MaapSafety MaapConflict MaapHandle MaapTimer.
From stdpp Require Import base gmap list numbers sorting.
#[local] Open Scope Z_scope.
#[local] Open Scope st_scope.

(** ** Initialisation *)

(** A client before [maap_init_client]: the addresses are set, the rest is empty. *)
Record blank (w : World) : Prop := mkBlank {
  bl_init : initialized (mc w) = false;
  bl_dest : dest_mac (mc w) <> 0;
  bl_src : src_mac (mc w) <> 0;
  bl_ih : ih w = ∅;
  bl_rh : rh w = ∅
}.

Section mode.
Context {Oph : Orphans} {T : Stops} {OT : Tolerant Oph T}.

Section client.
Context {env : Environment} (Hmem : memory_available env).

Lemma tree_inv_empty len : tree_inv None None ∅ ∅ None len Leaf.
Proof.
  constructor; [|intros a; rewrite lookup_empty; split; [intros [? ?]; done|set_solver]|set_solver|set_solver|done].
  split; [done|done|]. split; constructor.
Qed.
Lemma queue_inv_empty : queue_inv None ∅ [].
Proof. split; [intros r; rewrite lookup_empty; split; [set_solver|intros [[? ?] _]; done]|constructor|constructor]. Qed.

Lemma maap_init_client_spec s base len w (Q : Z -> World -> Prop) :
  blank w -> 0 <= base -> 1 <= len < 2 ^ 32 -> base + len <= 2 ^ 48 ->
  (forall w', client_inv ∅ w' Leaf -> address_base (mc w') = base -> range_len (mc w') = len -> maxid (mc w') = 0 ->
     notifies (mc w') = [(s, mkNotify MAAP_NOTIFY_INITIALIZED (-1) base len MAAP_NOTIFY_ERROR_NONE)] ->
     packets (mc w') = [] -> timer_queue (mc w') = [] -> Q 0 w') ->
  wp (maap_init_client s base len) Q w.
Proof.
  intros [Hini Hdest Hsrc Hih Hrh] Hb Hl Ht HQ. unfold maap_init_client. apply wps_bind, wp_get_mc. rewrite Hini.
  apply wps_bind, wps_get. apply wps_bind, (wp_malloc Hmem). intros a _. rewrite bool_decide_eq_true_2 by done. cbn [Time_newTimer].
  apply wps_bind, (wp_malloc Hmem). intros a2 _. rewrite bool_decide_eq_true_2 by done. cbn [Net_newNet].
  apply wps_bind, wps_modify. unfold upd_mc, upd_tick. cbn [mc ih rh tick].
  match goal with |- context [mkWorld ?c _ _ _] => set (c1 := c) end.
  apply wps_bind, wps_bind, wp_get_mc. apply wps_bind, (wp_add_notify Hmem). intros c2 He (E1 & E2 & E3).
  apply wps_ret, wps_ret. cbn [mc ih rh tick] in *.
  assert (client_wf c1) as Hc1.
  { constructor; try done. eexists. split; [done|]. by eapply Net_newNet_wf. }
  apply HQ; cbn [mc].
  - constructor; cbn [mc ih rh]; rewrite ?E1, ?E2, ?Hih, ?Hrh; cbn.
    + apply tree_inv_empty.
    + apply queue_inv_empty.
    + intros r R. by rewrite lookup_empty.
    + by apply (ef_wf _ _ _ _ He).
  - apply (ef_base _ _ _ _ He).
  - apply (ef_len _ _ _ _ He).
  - done.
  - apply (ef_notes _ _ _ _ He).
  - pose proof (ef_packets _ _ _ _ He) as Hp. apply Permutation_nil. symmetry. exact Hp.
  - done.
Qed.

End client.

(** ** Deinitialisation *)
Definition only_live (rm : gmap rptr Range) : Prop := forall r R, rm !! r = Some R -> live R.

Lemma tree_inv_delete Y h rm root len t r R :
  tree_inv None Y h rm root len t -> rm !! r = Some R -> ~ live R -> tree_inv None Y h (delete r rm) root len t.
Proof.
  intros [H1 H2 H3 H4 H5] HR Hnl. constructor; [done|done|done| |].
  - intros a Ha HX. destruct (H4 a Ha HX) as [Ho|(r' & R' & E1 & E2 & E3 & E4 & E5)]; [by left|]. right. exists r', R'.
    rewrite lookup_delete_ne; [done|]. intros ->. by assert (R' = R) as -> by congruence.
  - intros r' R' HR' Hl HY. rewrite lookup_delete_Some in HR'. destruct HR' as [_ HR']. by apply H5.
Qed.
Lemma drain_timer_queue_spec t q : forall w (Q : unit -> World -> Prop),
  tree_inv None None (ih w) (rh w) (ranges (mc w)) (range_len (mc w)) t ->
  NoDup q -> (forall r, r ∈ q -> is_Some (rh w !! r)) ->
  (forall r R, rh w !! r = Some R -> live R \/ state R = MAAP_STATE_RELEASED) ->
  (forall r R, rh w !! r = Some R -> r ∉ q -> live R) ->
  timer_queue (mc w) = q ->
  (forall rm', tree_inv None None (ih w) rm' (ranges (mc w)) (range_len (mc w)) t -> only_live rm' ->
     Q tt (mkWorld (set_timer_queue [] (mc w)) (ih w) rm' (tick w))) ->
  wp (drain_timer_queue q) Q w.
Proof.
  induction q as [|r q IH]; intros w Q Hti Hnd Hall Hst Hout Hq HQ; cbn [drain_timer_queue].
  - apply wps_ret. replace w with (mkWorld (set_timer_queue [] (mc w)) (ih w) (rh w) (tick w)) at 1.
    + apply HQ; [done|]. intros r R HR. apply (Hout r R HR). set_solver.
    + destruct w as [[] ? ? ?]. cbn in *. by subst.
  - apply list.NoDup_cons in Hnd as [Hr Hnd]. destruct (Hall r ltac:(by left)) as [R HR].
    apply wps_bind, wps_modify. apply wps_bind. eapply wp_load_range; [exact HR|]. apply wps_bind.
    assert (forall rm', tree_inv None None (ih w) rm' (ranges (mc w)) (range_len (mc w)) t ->
      (forall x, x <> r -> rm' !! x = rh w !! x) -> (forall R', rm' !! r = Some R' -> live R') ->
      wp (drain_timer_queue q) Q (mkWorld (set_timer_queue q (mc w)) (ih w) rm' (tick w))) as Hnext.
    { intros rm' Hti' Hsame Hr'. apply IH; cbn [mc ih rh ranges range_len timer_queue set_timer_queue]; try done.
      - intros x Hx. rewrite Hsame by set_solver. apply Hall. by right.
      - intros x X HX. destruct (decide (x = r)) as [->|Hne]; [left; by apply Hr'|]. rewrite Hsame in HX by done. by eapply Hst.
      - intros x X HX Hnq. destruct (decide (x = r)) as [->|Hne]; [by apply Hr'|]. rewrite Hsame in HX by done.
        eapply Hout; [exact HX|set_solver]. }
    case_bool_decide as Hrel.
    + apply wp_free_range; [cbn [rh upd_mc]; by rewrite HR|]. apply Hnext.
      * eapply (tree_inv_delete None); [exact Hti|exact HR|]. intros [?|?]; congruence.
      * intros x Hx. by rewrite lookup_delete_ne.
      * intros R'. by rewrite lookup_delete_eq.
    + apply wps_ret. apply Hnext; [done|done|]. intros R' HR'. assert (R' = R) as -> by congruence.
      destruct (Hst r R HR) as [|]; [done|congruence].
Qed.

Lemma only_live_same rm rm' : same_ranges rm rm' -> only_live rm -> only_live rm'.
Proof.
  intros Hsame Hlive x X HX. destruct (same_ranges_Some _ _ _ _ Hsame HX) as (X0 & HX0 & Ef).
  apply same_ranges_fields in Ef as (_ & E2 & _). specialize (Hlive x X0 HX0). unfold live in *. congruence.
Qed.

Lemma tree_inv_detach_orphan h rm root len t a :
  tree_inv None None h rm root len t -> data (node h a) = None -> tree_inv (Some a) None h rm root len t.
Proof.
  intros [H1 H2 H3 H4 H5] Ha. constructor; [done|done|done| |].
  - intros b Hb _. by apply H4.
  - intros r R HR Hl HY. destruct (H5 r R HR Hl HY) as (b & E1 & E2 & E3 & E4). exists b.
    do 2 (split; [done|]). split; [congruence|done].
Qed.

Lemma keys_length h l : length (keys h l) = length l.
Proof. apply length_fmap. Qed.

Lemma drain_ranges_spec fuel : forall w t (Q : unit -> World -> Prop),
  tree_inv None None (ih w) (rh w) (ranges (mc w)) (range_len (mc w)) t -> only_live (rh w) ->
  (length (inorder t) < fuel)%nat ->
  (forall c', c' = set_ranges None (mc w) -> Q tt (mkWorld c' ∅ ∅ (tick w))) ->
  wp (drain_ranges fuel) Q w.
Proof.
  induction fuel as [|fuel IH]; intros w t Q Hti Hlive Hfuel HQ; [lia|]. cbn [drain_ranges].
  apply wps_bind, wp_get_mc. pose proof (ti_set _ _ _ _ _ _ _ Hti) as Hset.
  destruct (ranges (mc w)) as [a|] eqn:Er.
  - assert (a ∈ inorder t) as Ha.
    { pose proof (iset_root _ _ _ Hset) as Hr. destruct t as [|l b r]; [done|]. injection Hr as ->. simpl. set_solver. }
    pose proof (proj2 (ti_dom _ _ _ _ _ _ _ Hti a) Ha) as Hsome.
    apply wps_bind, wp_load_interval; [done|].
    destruct (list_elem_of_split _ _ Ha) as (xs & ys & Heq).
    assert (forall h' t', keys h' (inorder t') = keys (ih w) (xs ++ ys) -> (length (inorder t') < fuel)%nat) as Hshort.
    { intros h' t' Hk. assert (length (inorder t') = length (xs ++ ys)) as -> by (by rewrite <- (keys_length h'), Hk, keys_length).
      rewrite Heq, length_app in Hfuel. rewrite length_app. simpl in Hfuel. lia. }
    destruct (ti_link _ _ _ _ _ _ _ Hti a Ha ltac:(done)) as [[Ho Hn]|(r & R & Hd & HR & Hint & Hl & _)].
    { apply wps_bind. eapply (remove_range_interval_spec a None t xs ys).
      - rewrite Er. by apply tree_inv_detach_orphan.
      - done.
      - unfold node_data. by rewrite Hn.
      - intros h' rm' root' t' Hti' Hsame Hk _. rewrite Hn. apply wps_bind, wps_ret.
        eapply (IH _ t'); cbn [mc ih rh tick ranges range_len set_ranges]; [done| |by eapply Hshort|by intros c' ->; apply HQ].
        by eapply only_live_same. }
    rewrite Hd. apply wps_bind. eapply (remove_range_interval_spec a (Some r) t xs ys).
    + rewrite Er. by apply tree_inv_detach.
    + done.
    + unfold node_data. rewrite Hd. eauto.
    + intros h' rm' root' t' Hti' Hsame Hk _. apply wps_bind.
      apply wp_free_range; [cbn [rh]; apply (same_ranges_is_Some _ _ _ Hsame); by rewrite HR|].
      eapply (IH _ t'); unfold upd_rh; cbn [mc ih rh tick ranges range_len set_ranges].
      * by apply tree_inv_delete_exempt.
      * intros x X HX. rewrite lookup_delete_Some in HX. destruct HX as [_ HX].
        by eapply only_live_same.
      * by eapply Hshort.
      * intros c' ->. by apply HQ.
  - assert (t = Leaf) as ->. { pose proof (iset_root _ _ _ Hset) as Hr. by destruct t. }
    assert (ih w = ∅) as Hih.
    { apply map_empty. intros a. destruct (ih w !! a) eqn:E; [|done]. exfalso.
      assert (a ∈ inorder Leaf) by (apply (ti_dom _ _ _ _ _ _ _ Hti); by rewrite E). set_solver. }
    assert (rh w = ∅) as Hrh.
    { apply map_empty. intros r. destruct (rh w !! r) as [R|] eqn:E; [|done]. exfalso.
      destruct (ti_range _ _ _ _ _ _ _ Hti r R E (Hlive r R E) ltac:(done)) as (a & _ & Ha & _). simpl in Ha. set_solver. }
    apply wps_ret. specialize (HQ (mc w)). rewrite <- Hih, <- Hrh in HQ at 1.
    destruct w as [[] ? ? ?]. cbn in *. subst. by apply HQ.
Qed.

Lemma drain_notifies_spec n : forall w (Q : unit -> World -> Prop),
  (length (notifies (mc w)) <= n)%nat -> Q tt (upd_mc (set_notifies []) w) -> wp (drain_notifies n) Q w.
Proof.
  induction n as [|n IH]; intros w Q Hn HQ; cbn [drain_notifies].
  - apply wps_ret. destruct w as [[] ? ? ?]. cbn in *. by destruct notifies; [|simpl in Hn; lia].
  - apply wps_bind. unfold get_notify. apply wps_bind, wp_get_mc.
    destruct (notifies (mc w)) as [|x l] eqn:E.
    + apply wps_ret, IH; [rewrite E; simpl; lia|done].
    + apply wps_bind, wps_modify, wps_ret, IH; [cbn; simpl in Hn; lia|done].
Qed.

Lemma maap_deinit_client_spec w t (Q : unit -> World -> Prop) :
  client_inv ∅ w t ->
  (forall w', blank w' -> timer (mc w') = None -> net (mc w') = None -> notifies (mc w') = [] ->
     ranges (mc w') = None -> timer_queue (mc w') = [] -> Q tt w') ->
  wp maap_deinit_client Q w.
Proof.
  intros [Hti Hq Hrw Hcw] HQ. unfold maap_deinit_client. apply wps_bind, wp_get_mc. rewrite (cw_init _ Hcw).
  assert (forall r R, rh w !! r = Some R -> live R \/ state R = MAAP_STATE_RELEASED) as Hst.
  { intros r R HR. destruct (Hrw r R HR) as (H & _). unfold live. destruct (state R); naive_solver. }
  apply wps_bind. eapply (drain_timer_queue_spec t); [done|apply Hq| |done| |done|].
  - intros r Hr. by apply (qi_mem _ _ _ Hq) in Hr as [? _].
  - intros r R HR Hr. exfalso. apply Hr, (qi_mem _ _ _ Hq). by rewrite HR.
  - intros rm' Hti' Hlive. apply wps_bind, wps_get. apply wps_bind.
    eapply (drain_ranges_spec _ _ t); cbn [mc ih rh ranges range_len set_timer_queue]; [done|done| |].
    + pose proof (ti_set _ _ _ _ _ _ _ Hti') as Hset. unfold loop_fuel.
      pose proof (rep_size _ _ _ (iset_rep _ _ _ Hset) (ordered_NoDup _ _ (iset_ordered _ _ _ Hset))). lia.
    + intros c' ->. apply wps_bind, wps_modify. apply wps_bind, wps_modify. apply wps_bind, wp_get_mc. apply wps_bind.
      apply drain_notifies_spec; [cbn; lia|]. apply wps_modify. apply HQ; try done.
      constructor; cbn; try done; apply Hcw.
Qed.

Section commands.
Context {env : Environment} (Hmem : memory_available env).

(** ** Status *)
Lemma maap_range_status_spec s rid w t (Q : unit -> World -> Prop) :
  client_inv ∅ w t ->
  (forall n w', refused w w' t n s ->
     (exists r R lo hi, rh w !! r = Some R /\ id R = rid /\ state R = MAAP_STATE_DEFENDING /\ (lo, hi, Some r) ∈ view w t /\
        n = note_of MAAP_NOTIFY_STATUS rid (address_base (mc w)) lo hi MAAP_NOTIFY_ERROR_NONE) \/
     ((forall r R, rh w !! r = Some R -> id R = rid -> state R <> MAAP_STATE_DEFENDING) /\
        n = mkNotify MAAP_NOTIFY_STATUS rid 0 0 MAAP_NOTIFY_ERROR_RELEASE_INVALID_ID) -> Q tt w') ->
  wp (maap_range_status s rid) Q w.
Proof.
  intros Hi HQ. pose proof Hi as [Hti Hq Hrw Hcw]. unfold maap_range_status.
  apply wps_bind, wp_get_mc. rewrite (cw_init _ Hcw). simpl negb. cbv iota.
  assert (forall n c', effect [] [(s, n)] (mc w) c' -> links_kept (mc w) c' ->
    refused w (mkWorld c' (ih w) (rh w) (S (tick w))) t n s) as Href.
  { intros n c' He (E1 & E2 & E3). constructor; [|done|done|done].
    eapply client_inv_transport; try done; [apply (ef_len _ _ _ _ He)|]. by apply (ef_wf _ _ _ _ He). }
  apply wps_bind, find_range_spec.
  - intros r Hr. by apply (qi_mem _ _ _ Hq) in Hr as [? _].
  - intros l1 r l2 R Hq1 HR Htest _. apply andb_true_iff in Htest as [Hid%Z.eqb_eq Hst%bool_decide_eq_true_1].
    destruct (inv_placed _ _ _ _ r R Hti HR ltac:(by right) ltac:(done)) as (a & Hp & Ha & _ & Hda).
    apply wps_bind. eapply (wp_inform_range Hmem); [exact Hp|]. intros c1 He Hl. apply wps_ret.
    eapply HQ; [by apply Href|]. left. exists r, R, (lo_of w a), (hi_of w a). do 3 (split; [done|]).
    split; [|done]. rewrite <- Hda. by apply view_of_node.
  - intros Hnone. apply wps_bind. eapply (wp_inform_none Hmem). intros c1 He Hl. apply wps_ret.
    eapply HQ; [by apply Href|]. right. split; [|done]. intros r R HR Hid Hst.
    assert (r ∈ timer_queue (mc w)) as Hr by (apply (qi_mem _ _ _ Hq); rewrite HR; done).
    specialize (Hnone r R Hr HR). by rewrite Hid, Hst, Z.eqb_refl, bool_decide_eq_true_2 in Hnone.
Qed.

(** ** Yield *)
Lemma same_but_flags_Some rm rm' r R :
  same_but_flags rm rm' -> rm !! r = Some R ->
  exists R', rm' !! r = Some R' /\ set_overlapping false R' = set_overlapping false R.
Proof. intros H HR. specialize (H r). rewrite HR in H. destruct (rm' !! r) as [R'|]; [|done]. apply (inj Some) in H. eauto. Qed.

Lemma ordered_disjoint h l a b :
  ordered h l -> a ∈ l -> b ∈ l -> a <> b -> high (node h a) < low (node h b) \/ high (node h b) < low (node h a).
Proof.
  intros Ho Ha Hb Hne. apply list_elem_of_split in Ha as (xs & ys & ->).
  rewrite ordered_app, ordered_cons in Ho. destruct Ho as (_ & (_ & _ & H2) & H1).
  rewrite elem_of_app, elem_of_cons in Hb. destruct Hb as [Hb|[->|Hb]]; [right|done|left].
  - apply (H1 b a Hb). by left.
  - by apply H2.
Qed.

(** The announcement of a range hits that range alone. *)
Lemma own_hit w t r R a r' :
  client_inv ∅ w t -> placed w r R a -> a ∈ inorder t -> node_data (ih w) a = Some r ->
  hit_range w t (lo_of w a) (hi_of w a - lo_of w a + 1) r' <-> r' = r.
Proof.
  intros Hi Hp Ha Hda. pose proof (ci_tree _ _ _ Hi) as Hti.
  destruct (inv_span _ _ _ _ _ _ _ a Hti Ha) as (H1 & H2 & H3). pose proof (cw_len _ (ci_client _ _ _ Hi)) as Hl.
  unfold hit_range, hit. replace (lo_of w a + (hi_of w a - lo_of w a + 1) - 1) with (hi_of w a) by lia.
  rewrite u32_small by (change (2 ^ 32) with 4294967296 in Hl; lia). split.
  - intros (lo & hi & Hin & [Hh1%Z.leb_le Hh2%Z.leb_le]%andb_true_iff). apply list_elem_of_fmap in Hin as (b & E & Hb).
    symmetry in E. apply contents_eq in E as (<- & <- & Hdb). destruct (decide (a = b)) as [->|Hne].
    + unfold node_data in Hda. congruence.
    + destruct (ordered_disjoint (ih w) (inorder t) a b) as [H|H]; try done; [apply Hti|lia|lia].
  - intros ->. exists (lo_of w a), (hi_of w a). split; [rewrite <- Hda; by apply view_of_node|].
    apply andb_true_iff. split; apply Z.leb_le; lia.
Qed.

(** The packet [maap_yield_range] makes up. *)
Definition yield_packet (c : Maap_Client) (lo hi : Z) : MAAP_Packet :=
  mkPacket 0x010000000000 0x010000000000 MAAP_TYPE MAAP_SUBTYPE 0 0 MAAP_ANNOUNCE 1 16 0
    (u64 (address_base c + lo)) (u16 (span_count lo hi)) 0 0.

Lemma yield_packet_ok c lo hi :
  client_wf c -> 0 <= lo <= hi -> hi < range_len c -> hi - lo < 65535 ->
  packet_wf (yield_packet c lo hi) /\ is_maap_packet (yield_packet c lo hi) = true /\
  in_pool c (yield_packet c lo hi) = true /\ packet_offset c (yield_packet c lo hi) = lo /\
  requested_count (yield_packet c lo hi) = hi - lo + 1.
Proof.
  intros [_ _ _ Hb Hl Ht _ _] H1 H2 H3. change (2 ^ 32) with 4294967296 in Hl. change (2 ^ 48) with 281474976710656 in Ht.
  unfold yield_packet. rewrite span_count_small by lia. rewrite u16_small, u64_small by lia.
  split; [|split; [done|]].
  - unfold packet_wf. cbn [DA SA Ethertype subtype SV version message_type maap_version control_data_length stream_id
      requested_start_address requested_count conflict_start_address conflict_count MAAP_TYPE MAAP_SUBTYPE MAAP_ANNOUNCE].
    unfold MAAP_TYPE, MAAP_SUBTYPE, MAAP_ANNOUNCE. norm_pow2. lia.
  - split; [|split; [|done]].
    + unfold in_pool. cbn [requested_start_address requested_count]. rewrite !u64_small by lia.
      rewrite (proj2 (Z.ltb_ge _ _)), (proj2 (Z.ltb_ge _ _)) by lia. done.
    + unfold packet_offset. cbn [requested_start_address]. rewrite u32_small; lia.
Qed.

(** The range [r] was yielded: it is released, and its owner's id is on a replacement
    if the pool had room. *)
Record yield_done (w w' : World) (t' : tree) (r : rptr) (rid lo hi : Z) (V : list (Z * Z * option rptr)) : Prop :=
  mkYieldDone {
  ydn_inv : client_inv ∅ w' t';
  ydn_range : exists R', rh w' !! r = Some R' /\ id R' = rid /\ state R' = MAAP_STATE_RELEASED;
  ydn_view : view w' t' ≡ₚ V \/
    exists r2 R2 s, rh w !! r2 = None /\ rh w' !! r2 = Some R2 /\ id R2 = rid /\ state R2 = MAAP_STATE_PROBING /\
      0 <= s /\ s + (hi - lo) < range_len (mc w) /\ view w' t' ≡ₚ (s, s + (hi - lo), Some r2) :: V
}.

Lemma yield_handled w t r R lo hi V p rs w' t' :
  rh w !! r = Some R -> state R = MAAP_STATE_DEFENDING -> view w t ≡ₚ (lo, hi, Some r) :: V ->
  message_type p = MAAP_ANNOUNCE -> we_win (mc w) p = false -> (forall lo1 hi1, (lo1, hi1, Some r) ∉ V) ->
  handled p w t rs w' t' -> (forall x, x ∈ rs <-> x = r) -> yield_done w w' t' r (id R) lo hi V.
Proof.
  intros HR Hst HV Hmt Hw Hnd [Hnd1 _ (rm & w2 & Hfl & Hres & E1 & E2 & He & Hl) Hinv] Hrs.
  assert (rs = [r]) as ->.
  { destruct rs as [|x [|y l]].
    - by assert (r ∈ []) as H%elem_of_nil by (by apply Hrs).
    - f_equal. apply Hrs. by left.
    - exfalso. apply list.NoDup_cons in Hnd1 as [Hx _]. apply Hx.
      assert (x = r) as -> by (apply Hrs; by left). assert (y = r) as -> by (apply Hrs; right; by left). by left. }
  inversion Hres as [|? ? ? ? w1 t1 ? ? Hr Hnil]; subst. inversion Hnil; subst. clear Hres Hnil.
  set (wf := mkWorld (mc w) (ih w) rm (tick w)) in *.
  destruct (same_but_flags_Some _ _ r R Hfl HR) as (Rf & HRf & Ef).
  assert (rh (unflag r wf) !! r = Some (set_overlapping false R)) as HRu.
  { unfold unflag, upd_rh. cbn [rh wf]. rewrite lookup_alter_eq, HRf. simpl. by rewrite Ef. }
  assert (forall lo1 hi1 V1, view (unflag r wf) t ≡ₚ (lo1, hi1, Some r) :: V1 -> lo1 = lo /\ hi1 = hi /\ V1 ≡ₚ V) as Huniq.
  { intros lo1 hi1 V1 H1. change (view (unflag r wf) t) with (view w t) in H1.
    assert ((lo1, hi1, Some r) = (lo, hi, Some r)) as [= -> ->].
    { assert ((lo1, hi1, Some r) ∈ view w t) as Hi1 by (rewrite H1; by left).
      rewrite HV, elem_of_cons in Hi1. destruct Hi1 as [|Hi1]; [done|]. by apply Hnd in Hi1. }
    do 2 (split; [done|]). rewrite HV in H1. symmetry. by eapply Permutation_cons_inv. }
  inversion Hr as [R1 G1 G2 G3|R1 ? ? ? ? ? ? G1 G2|R1 ? ? ? ? ? G1 G2|R1 ? ? ? ? ? G1 G2 G3|R1 lo1 hi1 V1 repl ? ? G1 G2 G3 G4 G5 G6 G7]; subst.
  - change (mc (unflag r wf)) with (mc w) in G3. congruence.
  - rewrite HRu in G1. injection G1 as <-. cbn in G2. congruence.
  - rewrite HRu in G1. injection G1 as <-. cbn in G2. congruence.
  - rewrite Hmt in G3. done.
  - rewrite HRu in G1. injection G1 as <-. destruct (Huniq _ _ _ G5) as (-> & -> & HV1).
    destruct G7 as [Y1 (R' & Y2 & Y2' & Y2'') Y3 Y4]. constructor.
    + done.
    + exists R'. rewrite E2. done.
    + destruct repl as [s|].
      * right. destruct Y4 as (r2 & R2 & _ & D1 & D2 & D3 & D4 & D5 & D6 & _). exists r2, R2, s.
        assert (rh w !! r2 = None) as Hn.
        { unfold unflag, upd_rh in D1. cbn [rh wf] in D1. apply lookup_alter_None in D1.
          specialize (Hfl r2). rewrite D1 in Hfl. by destruct (rh w !! r2). }
        rewrite E2. do 4 (split; [done|]). cbn in G6. destruct G6. do 2 (split; [done|]).
        unfold view in *. rewrite E1, D6, HV1. done.
      * left. destruct Y4 as (D1 & _). unfold view in *. by rewrite E1, D1, HV1.
Qed.

Context (Hlate : late_tolerated env).

Lemma maap_yield_range_spec s rid w t (Q : Z -> World -> Prop) :
  client_inv ∅ w t -> 2 * Z.of_nat (length (timer_queue (mc w))) <= 100000 ->
  0 < src_mac (mc w) < 2 ^ 48 -> src_mac (mc w) <> 0x010000000000 ->
  (forall r R lo hi V w' t', rh w !! r = Some R -> id R = rid -> state R = MAAP_STATE_DEFENDING ->
     view w t ≡ₚ (lo, hi, Some r) :: V -> yield_done w w' t' r rid lo hi V -> Q 0 w') ->
  (forall w', (forall r R, rh w !! r = Some R -> id R = rid -> state R <> MAAP_STATE_DEFENDING) ->
     refused w w' t (mkNotify MAAP_NOTIFY_YIELDED rid 0 0 MAAP_NOTIFY_ERROR_RELEASE_INVALID_ID) s -> Q (-1) w') ->
  wp (maap_yield_range s rid) Q w.
Proof.
  intros Hi Hlen Hsrc Hne Hok Hbad. pose proof Hi as [Hti Hq Hrw Hcw]. unfold maap_yield_range.
  apply wps_bind, wp_get_mc. rewrite (cw_init _ Hcw). simpl negb. cbv iota. apply wps_bind, find_range_spec.
  - intros r Hr. by apply (qi_mem _ _ _ Hq) in Hr as [? _].
  - intros l1 r l2 R Hq1 HR Htest _. apply andb_true_iff in Htest as [Hid%Z.eqb_eq Hst%bool_decide_eq_true_1].
    destruct (inv_placed _ _ _ _ r R Hti HR ltac:(by right) ltac:(done)) as (a & Hp & Ha & _ & Hda).
    destruct (inv_span _ _ _ _ _ _ _ a Hti Ha) as (H1 & H2 & H3).
    apply wps_bind. eapply wps_lift; [done|]. apply wps_bind. eapply wp_get_start_address; [exact Hp|].
    apply wps_bind. eapply wp_get_count; [exact Hp|]. apply wps_bind.
    destruct (yield_packet_ok (mc w) (lo_of w a) (hi_of w a) Hcw H1 H2 H3) as (P1 & P2 & P3 & P4 & P5).
    set (p := yield_packet (mc w) (lo_of w a) (hi_of w a)) in *.
    set (stream := pack_maap p ++ drop 42 uninit_buffer).
    assert (length stream = 64%nat) as Hstr.
    { unfold stream. rewrite length_app, pack_maap_length, length_drop, (proj1 uninit_buffer_ok). done. }
    change MAAP_NET_BUFFER_SIZE with (Z.of_nat 64). rewrite <- Hstr.
    assert (forall p', unpack_maap uninit_tmp64 stream = Done p' -> p' = p) as Hp'.
    { intros p'. unfold stream. rewrite unpack_packed; [congruence|apply uninit_tmp64_ok|apply uninit_tmp64_ok|done]. }
    eapply (maap_handle_packet_spec Hmem stream w t); try done.
    + apply Forall_app. split; [apply pack_maap_bytes|]. apply Forall_drop, uninit_buffer_ok.
    + intros Hs. lia.
    + intros p' _ ->%Hp' _ _ Hf. congruence.
    + intros p' _ ->%Hp' _ _ _ Hf. congruence.
    + intros p' rs w' t' _ ->%Hp' _ _ _ _ Hh. apply wps_ret.
      destruct (list_elem_of_split _ _ Ha) as (xs & ys & Heq).
      assert (view w t ≡ₚ (lo_of w a, hi_of w a, Some r) :: keys (ih w) (xs ++ ys)) as Hv
        by (unfold view; rewrite Heq, keys_middle; unfold contents, node_data in *; by rewrite Hda).
      eapply (Hok r R (lo_of w a) (hi_of w a)); try done. rewrite <- Hid.
      eapply (yield_handled w t r R _ _ _ p rs); try done.
      * unfold we_win. cbn [SA p yield_packet]. by rewrite compare_mac_yield.
      * intros lo1 hi1 Hin. apply list_elem_of_fmap in Hin as (b & E & Hb). symmetry in E. apply contents_eq in E as (_ & _ & E).
        assert (b ∈ inorder t) as Hbt by (rewrite Heq; set_solver).
        destruct (client_linked ∅ w t b Hi Hbt) as [[_ Hn]|(rb & Rb & D1 & D2 & (_ & D3 & _) & _)]; unfold node_data in *; [congruence|].
        assert (rb = r) as -> by congruence. destruct Hp as (_ & Hint & _). assert (a = b) as <- by congruence.
        assert (NoDup (inorder t)) as Hno by (by eapply ordered_NoDup, iset_ordered, ti_set).
        rewrite Heq in Hno. apply list.NoDup_app in Hno as (_ & Hno & [Hn' _]%list.NoDup_cons). set_solver.
      * intros x. rewrite (hd_hits _ _ _ _ _ _ Hh), P4, P5. by apply own_hit with (R := R).
  - intros Hnone. apply wps_bind. eapply (wp_inform_none Hmem). intros c1 He (E1 & E2 & E3). apply wps_ret. apply Hbad.
    + intros r R HR Hid Hst. assert (r ∈ timer_queue (mc w)) as Hr by (apply (qi_mem _ _ _ Hq); rewrite HR; done).
      specialize (Hnone r R Hr HR). by rewrite Hid, Hst, Z.eqb_refl, bool_decide_eq_true_2 in Hnone.
    + constructor; [|done|done|done]. eapply client_inv_transport; try done; [apply (ef_len _ _ _ _ He)|].
      by apply (ef_wf _ _ _ _ He).
Qed.
End commands.

End mode.
