(* ===== verification/MaapProps.v ===== *)
(** * Properties of the MAAP client *)
From S2P Require Import Prelude Intervals IntervalTree IntervalUpdate MaapPacket MaapTime MaapNet Maap.
From S2P Require Import MaapInv MaapSafety MaapConflict MaapHandle MaapTimer MaapClient.
From stdpp Require Import base gmap list numbers sorting.
#[local] Open Scope Z_scope.
#[local] Open Scope st_scope.

(** ** The client as a state machine *)
Inductive maap_op :=
  | OpReserve (s base n : Z)
  | OpRelease (s rid : Z)
  | OpStatus (s rid : Z)
  | OpYield (s rid : Z)
  | OpPacket (stream : list Z)
  | OpTimer
  | OpNotify.

Section machine.
Context {env : Environment}.

Definition run_op (op : maap_op) : stM World Z :=
  match op with
  | OpReserve s base n => maap_reserve_range s base n
  | OpRelease s rid => maap_release_range s rid
  | OpStatus s rid => maap_range_status s rid ;! st_ret 0
  | OpYield s rid => maap_yield_range s rid
  | OpPacket stream => maap_handle_packet stream (Z.of_nat (length stream))
  | OpTimer => maap_handle_timer
  | OpNotify => let! n := get_notify in st_ret (match n with Some _ => 1 | None => 0 end)
  end.

(** What the caller must respect: the documented lengths, 48-bit addresses, bytes in
    buffers, and a timer queue that stays under the limit of the built-in sanity test. *)
Definition op_ok (w : World) (op : maap_op) : Prop :=
  2 * Z.of_nat (length (timer_queue (mc w))) < 100000 /\
  match op with
  | OpReserve _ base n => 1 <= n < 2 ^ 32 /\ 0 <= base < 2 ^ 48
  | OpYield _ _ => 0 < src_mac (mc w) < 2 ^ 48 /\ src_mac (mc w) <> 0x010000000000
  | OpPacket stream => Forall is_byte stream
  | _ => True
  end.

(** The states a client can be in after [maap_init_client]. *)
Inductive reachable (s base len : Z) (w0 : World) : World -> Prop :=
  | reach_init w : maap_init_client s base len w0 = Done (0, w) -> reachable s base len w0 w
  | reach_step op v w w' : reachable s base len w0 w -> op_ok w op -> run_op op w = Done (v, w') ->
    reachable s base len w0 w'.

End machine.

(** The operations that choose an address block at random. *)
Definition may_draw (op : maap_op) : bool :=
  match op with OpReserve _ _ _ | OpYield _ _ | OpPacket _ => true | _ => false end.

Section mode.
Context {Oph : Orphans} {T : Stops} {OT : Tolerant Oph T}.
Context {env : Environment} (Hmem : memory_available env).

(** Every operation within the contract keeps the invariant. *)
Lemma run_op_safe w t op :
  (may_draw op = true -> late_tolerated env) ->
  client_inv ∅ w t -> op_ok w op -> wp (run_op op) (fun _ w' => exists t', client_inv ∅ w' t') w.
Proof.
  intros Hlate Hi [Hlen Hop]. destruct op as [s base n|s rid|s rid|s rid|stream| |]; cbn [run_op].
  - destruct Hop as [Ho1 Ho2]. apply (maap_reserve_range_spec Hmem (Hlate eq_refl) s base n w t); try done; [lia| | |].
    + intros w' [H _ _ _] _. eauto.
    + intros _ w' t' [H _ _ _]. eauto.
    + intros w' t' [H _]. eauto.
  - apply (maap_release_range_spec Hmem s rid w t); [done| |].
    + intros l1 r l2 R lo hi V w' t' _ _ _ _ _ _ [H _ _ _ _ _]. eauto.
    + intros w' _ [H _ _ _]. eauto.
  - apply wps_bind, (maap_range_status_spec Hmem s rid w t); [done|]. intros n w' [H _ _ _] _. apply wps_ret. eauto.
  - destruct Hop as [Ho1 Ho2]. apply (maap_yield_range_spec Hmem (Hlate eq_refl) s rid w t); try done; [lia| |].
    + intros r R lo hi V w' t' _ _ _ _ [H _ _]. eauto.
    + intros w' _ [H _ _ _]. eauto.
  - apply (maap_handle_packet_spec Hmem stream w t); try done; [auto|lia|eauto|eauto|eauto|].
    intros p rs w' t' _ _ _ _ _ _ [_ _ _ H]. eauto.
  - apply (maap_handle_timer_spec Hmem w t); [done|lia|]. intros rs w' [_ _ H]. eauto.
  - apply wps_bind. unfold get_notify. apply wps_bind, wp_get_mc. destruct (notifies (mc w)) as [|x l] eqn:E.
    + apply wps_ret, wps_ret. eauto.
    + apply wps_bind, wps_modify, wps_ret, wps_ret. exists t. apply (client_inv_transport ∅ w); try done; try apply Hi.
      destruct (ci_client _ _ _ Hi). by constructor.
Qed.

Lemma reachable_inv s base len w0 w :
  late_tolerated env ->
  blank w0 -> 0 <= base -> 1 <= len < 2 ^ 32 -> base + len <= 2 ^ 48 -> reachable s base len w0 w ->
  exists t, client_inv ∅ w t.
Proof.
  intros Hlate Hb H1 H2 H3 Hr. induction Hr as [w Hw|op v w w' Hr [t IH] Hok Hrun].
  - exists Leaf. eapply (wp_return _ (fun _ w' => client_inv ∅ w' Leaf)); [|exact Hw]. by apply (maap_init_client_spec Hmem).
  - exact (wp_return _ _ _ _ _ (run_op_safe w t op (fun _ => Hlate) IH Hok) Hrun).
Qed.
End mode.

(** ** Observed runs

    A watched run stops at a draw that succeeds too late, and is the run of the program
    otherwise. *)
Definition stopped_or {S A} (m' m : stM S A) : Prop := forall s, m' s = Fault LateDraw \/ m' s = m s.

Lemma stopped_or_same {S A} (m' m : stM S A) : m' = m -> stopped_or m' m.
Proof. intros ->. by right. Qed.
Lemma stopped_or_bind {S A B} (m' m : stM S A) (k' k : A -> stM S B) :
  stopped_or m' m -> (forall a, stopped_or (k' a) (k a)) -> stopped_or (st_bind m' k') (st_bind m k).
Proof.
  intros Hm Hk s. unfold st_bind. destruct (Hm s) as [E|E]; rewrite E; [by left|]. destruct (m s) as [[a s']|]; [apply Hk|by right].
Qed.
Lemma stopped_or_if {S A} (b : bool) (m1' m1 m2' m2 : stM S A) :
  stopped_or m1' m1 -> stopped_or m2' m2 -> stopped_or (if b then m1' else m2') (if b then m1 else m2).
Proof. by destruct b. Qed.

(** Computations that differ in nothing but the observer. *)
Ltac same_run := by apply stopped_or_same.
Ltac stopped := first [apply stopped_or_bind; [|intros ?] | apply stopped_or_if].

Section observed.
Context (env : Environment).

Lemma watched_assign_interval r base len :
  stopped_or (@assign_interval (watched env) r base len) (@assign_interval env r base len).
Proof.
  unfold assign_interval. stopped; [same_run|]. stopped; [same_run|]. stopped; [same_run|]. stopped; [same_run|].
  match goal with ni : nat * Z * option iptr |- _ => destruct ni as [[n rv] iv] end. cbn [fst snd]. destruct n as [|n]; [|same_run].
  intros w. unfold st_bind, st_lift, watch_draw. cbn [late_draw_watched watched]. destruct (rv =? INTERVAL_OVERLAP); cbn [negb andb].
  - right. by rewrite andb_false_r.
  - by left.
Qed.
Lemma watched_reserve s base n : stopped_or (@maap_reserve_range (watched env) s base n) (@maap_reserve_range env s base n).
Proof.
  unfold maap_reserve_range. stopped; [same_run|]. stopped; [same_run|]. stopped; [same_run|]. stopped; [same_run|].
  match goal with p : option positive |- _ => destruct p as [range|] end; [|same_run].
  do 3 (stopped; [same_run|]). stopped; [apply watched_assign_interval|same_run].
Qed.
Lemma watched_probing p a r : stopped_or (@conflict_probing (watched env) p a r) (@conflict_probing env p a r).
Proof.
  unfold conflict_probing. stopped; [same_run|]. stopped; [same_run|]. do 2 (stopped; [same_run|]).
  stopped; [apply watched_assign_interval|same_run].
Qed.
Lemma watched_defending p a r : stopped_or (@conflict_defending (watched env) p a r) (@conflict_defending env p a r).
Proof.
  unfold conflict_defending. stopped; [same_run|]. stopped; [same_run|]. stopped; [same_run|]. stopped; [|same_run].
  unfold replace_range. do 3 (stopped; [same_run|]).
  match goal with q : option positive |- _ => destruct q as [fr|] end; [|same_run].
  do 2 (stopped; [same_run|]). stopped; [apply watched_assign_interval|same_run].
Qed.
Lemma watched_overlap_loop n p start : stopped_or (@overlap_loop (watched env) n p start) (@overlap_loop env n p start).
Proof.
  induction n as [|n IH]; cbn [overlap_loop]; [same_run|]. stopped; [|apply IH].
  unfold handle_overlap. do 3 (stopped; [same_run|]).
  match goal with f : option (iptr * rptr) |- _ => destruct f as [[iv range]|] end; [|same_run].
  do 2 (stopped; [same_run|]). match goal with R : Range |- _ => destruct (state R) end;
    [same_run|apply watched_probing|apply watched_defending|same_run].
Qed.
Lemma watched_packet stream len : stopped_or (@maap_handle_packet (watched env) stream len) (@maap_handle_packet env stream len).
Proof.
  unfold maap_handle_packet. stopped; [same_run|]. stopped; [same_run|]. stopped; [same_run|]. stopped; [same_run|].
  stopped; [same_run|]. do 3 (stopped; [same_run|]). stopped; [apply watched_overlap_loop|same_run].
Qed.
Lemma watched_yield s rid : stopped_or (@maap_yield_range (watched env) s rid) (@maap_yield_range env s rid).
Proof.
  unfold maap_yield_range. stopped; [same_run|]. stopped; [same_run|]. stopped; [same_run|].
  match goal with f : option rptr |- _ => destruct f as [range|] end; [|same_run].
  do 3 (stopped; [same_run|]). stopped; [apply watched_packet|same_run].
Qed.
Lemma watched_op op : stopped_or (@run_op (watched env) op) (@run_op env op).
Proof.
  destruct op; cbn [run_op]; [apply watched_reserve|same_run|same_run|apply watched_yield|apply watched_packet|same_run|same_run].
Qed.

Lemma watched_memory : memory_available env -> memory_available (watched env).
Proof. done. Qed.
Lemma watched_tolerated {Oph : Orphans} : late_tolerated (T := late_stops) (watched env).
Proof. by right. Qed.

(** What a watched run guarantees is guaranteed of the program, if the run is not stopped. *)
Lemma observed {S A} (m' m : stM S A) Q s :
  stopped_or m' m -> wp (T := late_stops) m' Q s -> m' s = Fault LateDraw \/ exists a s', m s = Done (a, s') /\ Q a s'.
Proof. intros Hs Hwp. destruct (wp_late _ _ _ Hwp) as [E|E]; [by left|]. destruct (Hs s) as [E'|E']; [by left|]. right. by rewrite <- E'. Qed.
End observed.

(** The addresses a live range holds. *)
Definition range_span (w : World) (r : rptr) (lo hi : Z) : Prop :=
  exists R a, rh w !! r = Some R /\ live R /\ interval R = Some a /\ is_Some (ih w !! a) /\
    lo = address_base (mc w) + lo_of w a /\ hi = address_base (mc w) + hi_of w a.

(** Two ranges of a client. *)
Lemma spans_disjoint {Oph : Orphans} w t r1 r2 lo1 hi1 lo2 hi2 :
  client_inv ∅ w t -> r1 <> r2 -> range_span w r1 lo1 hi1 -> range_span w r2 lo2 hi2 ->
  (hi1 < lo2 \/ hi2 < lo1) /\ address_base (mc w) <= lo1 <= hi1 /\ hi1 < address_base (mc w) + range_len (mc w).
Proof.
  intros Hi Hne (R1 & a1 & HR1 & Hl1 & Hi1 & _ & -> & ->) (R2 & a2 & HR2 & Hl2 & Hi2 & _ & -> & ->).
  pose proof (ci_tree _ _ _ Hi) as Hti.
  destruct (ti_range _ _ _ _ _ _ _ Hti r1 R1 HR1 Hl1 ltac:(done)) as (b1 & E1 & Hb1 & _ & Hd1).
  destruct (ti_range _ _ _ _ _ _ _ Hti r2 R2 HR2 Hl2 ltac:(done)) as (b2 & E2 & Hb2 & _ & Hd2).
  assert (b1 = a1) as -> by congruence. assert (b2 = a2) as -> by congruence.
  assert (a1 <> a2) as Hna by congruence.
  destruct (inv_span _ _ _ _ _ _ _ a1 Hti Hb1) as (S1 & S2 & S3).
  destruct (ordered_disjoint (ih w) (inorder t) a1 a2) as [H|H]; try done; [apply Hti|lia|lia].
Qed.

(** C1. No two reservations ever share an address: in every state reachable from an
    initialised client by commands, packets and timer expiries, any two different
    ranges that are probing or defending hold disjoint, non-empty address blocks
    inside the configured pool.  The operations respect their contract ([op_ok]) and memory
    does not run out; the random numbers are arbitrary, and the claim holds also after a draw
    that succeeded too late has left a block in the tree that no range owns. *)
Theorem maap_ranges_disjoint (env : Environment) s base len w0 w :
  memory_available env ->
  blank w0 -> 0 <= base -> 1 <= len < 2 ^ 32 -> base + len <= 2 ^ 48 -> reachable s base len w0 w ->
  forall r1 r2 lo1 hi1 lo2 hi2, r1 <> r2 -> range_span w r1 lo1 hi1 -> range_span w r2 lo2 hi2 ->
    (hi1 < lo2 \/ hi2 < lo1) /\
    address_base (mc w) <= lo1 <= hi1 /\ hi1 < address_base (mc w) + range_len (mc w).
Proof.
  intros Hmem Hb H1 H2 H3 Hr r1 r2 lo1 hi1 lo2 hi2 Hne Hr1 Hr2.
  destruct (reachable_inv (Oph := any_orphans) (T := any_stops) Hmem s base len w0 w ltac:(by left) Hb H1 H2 H3 Hr) as [t Hi].
  by eapply (spans_disjoint (Oph := any_orphans)).
Qed.

(** C2. Memory safety and progress: on a client that satisfies the invariant every
    public operation within its contract, and in particular any received byte string,
    runs to completion without a failed assertion, a NULL or dangling access, a
    division by zero or an exhausted loop bound, and re-establishes the invariant.  The
    one exception is a run of a reservation, a yield or a packet in which a search for
    a free block succeeds on its thousandth and last random draw; these are the runs
    that stop when they are watched for it. *)
Theorem maap_operations_safe (env : Environment) w t op :
  memory_available env -> client_inv ∅ w t -> op_ok w op ->
  (may_draw op = true /\ @run_op (watched env) op w = Fault LateDraw) \/
  exists v w' t', run_op op w = Done (v, w') /\ client_inv ∅ w' t'.
Proof.
  intros Hmem Hi Hop. destruct (may_draw op) eqn:Hd.
  - destruct (observed _ (run_op op) _ _ (watched_op env op) (run_op_safe (T := late_stops) (watched_memory env Hmem) w t op
      (fun _ => watched_tolerated env) Hi Hop)) as [E|(v & w' & E & t' & Ht')]; [by left|]. right. by exists v, w', t'.
  - right. destruct (wps_done _ _ _ (run_op_safe Hmem w t op ltac:(congruence) Hi Hop)) as (v & w' & E & t' & Ht').
    by exists v, w', t'.
Qed.

(** Initialisation: on a fresh client [maap_init_client] returns 0 and establishes
    the invariant with the pool it was given, no ranges, no timers, and exactly one
    notification to the caller. *)
Theorem maap_init_outcome (env : Environment) s base len w :
  memory_available env -> blank w -> 0 <= base -> 1 <= len < 2 ^ 32 -> base + len <= 2 ^ 48 ->
  exists w', maap_init_client s base len w = Done (0, w') /\ client_inv ∅ w' Leaf /\
    address_base (mc w') = base /\ range_len (mc w') = len /\
    notifies (mc w') = [(s, mkNotify MAAP_NOTIFY_INITIALIZED (-1) base len MAAP_NOTIFY_ERROR_NONE)] /\
    packets (mc w') = [] /\ timer_queue (mc w') = [].
Proof.
  intros Hmem Hb H1 H2 H3.
  assert (wp (maap_init_client s base len)
    (fun v w' => v = 0 /\ client_inv ∅ w' Leaf /\ address_base (mc w') = base /\ range_len (mc w') = len /\
      notifies (mc w') = [(s, mkNotify MAAP_NOTIFY_INITIALIZED (-1) base len MAAP_NOTIFY_ERROR_NONE)] /\
      packets (mc w') = [] /\ timer_queue (mc w') = []) w) as Hwp
    by (apply (maap_init_client_spec Hmem); auto 10).
  destruct (wps_done _ _ _ Hwp) as (v & w' & E & -> & H). by exists w'.
Qed.

(** Reservation: [maap_reserve_range] either returns -1, tells the caller that the
    block is not available and changes nothing else (this happens when the length
    exceeds 16 bits or the pool, or when neither the preferred address nor the random
    attempts found room), or returns the next id with a new probing range of exactly
    the requested length inside the pool, at the preferred address if that was free,
    leaving every other range and its addresses untouched, and sends one probe and
    one ACQUIRING notification for it; unless its search succeeds on the last draw. *)
Theorem maap_reserve_outcome (env : Environment) s base n w t :
  memory_available env -> client_inv ∅ w t -> op_ok w (OpReserve s base n) ->
  @maap_reserve_range (watched env) s base n w = Fault LateDraw \/
  (exists w', maap_reserve_range s base n w = Done (-1, w') /\
     refused w w' t (mkNotify MAAP_NOTIFY_ACQUIRED (-1) 0 n MAAP_NOTIFY_ERROR_RESERVE_NOT_AVAILABLE) s /\
     (65535 < n \/ range_len (mc w) < n \/ ~ attempt_free w t base n)) \/
  (exists w' t', let rid := i32 (maxid (mc w) + 1) in
     maap_reserve_range s base n w = Done (rid, w') /\ started w w' t t' s base n rid).
Proof.
  intros Hmem Hi [Hlen [Hn Hbase]].
  assert (wp (T := late_stops) (@maap_reserve_range (watched env) s base n) (fun v w' =>
    (v = -1 /\ refused w w' t (mkNotify MAAP_NOTIFY_ACQUIRED (-1) 0 n MAAP_NOTIFY_ERROR_RESERVE_NOT_AVAILABLE) s /\
     (65535 < n \/ range_len (mc w) < n \/ ~ attempt_free w t base n)) \/
    (exists t', v = i32 (maxid (mc w) + 1) /\ started w w' t t' s base n (i32 (maxid (mc w) + 1)))) w) as Hwp.
  { apply (maap_reserve_range_spec (watched_memory env Hmem) (watched_tolerated env) s base n w t); try done; [lia|auto|eauto]. }
  destruct (observed _ _ _ _ (watched_reserve env s base n) Hwp) as [E|(v & w' & E & [(-> & H1 & H2)|(t' & -> & H)])].
  - by left.
  - right. left. by exists w'.
  - right. right. by exists w', t'.
Qed.

(** Release: [maap_release_range] releases the first queued range with the given id
    that is not already released: its addresses leave the pool, every other range
    keeps its own, the caller (and the owner, if different) is notified, and the range
    stays queued until its timer frees it; with no such range it returns -1, reports an
    invalid id and changes nothing else. *)
Theorem maap_release_outcome (env : Environment) s rid w t :
  memory_available env -> client_inv ∅ w t ->
  (exists l1 r l2 R lo hi V w' t',
     maap_release_range s rid w = Done (0, w') /\
     timer_queue (mc w) = l1 ++ r :: l2 /\ rh w !! r = Some R /\ id R = rid /\ state R <> MAAP_STATE_RELEASED /\
     (forall r' R', r' ∈ l1 -> rh w !! r' = Some R' -> id R' = rid -> state R' = MAAP_STATE_RELEASED) /\
     view w t ≡ₚ (lo, hi, Some r) :: V /\ given_up ∅ w w' t' r R V (release_notes s rid (mc w) R lo hi)) \/
  (exists w', maap_release_range s rid w = Done (-1, w') /\
     (forall r R, rh w !! r = Some R -> id R = rid -> state R = MAAP_STATE_RELEASED) /\
     refused w w' t (mkNotify MAAP_NOTIFY_RELEASED rid 0 0 MAAP_NOTIFY_ERROR_RELEASE_INVALID_ID) s).
Proof.
  intros Hmem Hi. set (P := fun (v : Z) (w' : World) =>
    (exists l1 r l2 R lo hi V t', v = 0 /\ timer_queue (mc w) = l1 ++ r :: l2 /\ rh w !! r = Some R /\ id R = rid /\
       state R <> MAAP_STATE_RELEASED /\
       (forall r' R', r' ∈ l1 -> rh w !! r' = Some R' -> id R' = rid -> state R' = MAAP_STATE_RELEASED) /\
       view w t ≡ₚ (lo, hi, Some r) :: V /\ given_up ∅ w w' t' r R V (release_notes s rid (mc w) R lo hi)) \/
    (v = -1 /\ (forall r R, rh w !! r = Some R -> id R = rid -> state R = MAAP_STATE_RELEASED) /\
       refused w w' t (mkNotify MAAP_NOTIFY_RELEASED rid 0 0 MAAP_NOTIFY_ERROR_RELEASE_INVALID_ID) s)).
  assert (wp (maap_release_range s rid) P w) as Hwp.
  { apply (maap_release_range_spec Hmem s rid w t); [done| |].
    - intros l1 r l2 R lo hi V w' t' H1 H2 H3 H4 H5 H6 H7. left. by exists l1, r, l2, R, lo, hi, V, t'.
    - intros w' H1 H2. by right. }
  destruct (wps_done _ _ _ Hwp) as (v & w' & E & [(l1 & r & l2 & R & lo & hi & V & t' & -> & H)|(-> & H)]).
  - left. by exists l1, r, l2, R, lo, hi, V, w', t'.
  - right. by exists w'.
Qed.

(** C39. Packets that count: a MAAP packet whose range meets the pool makes
    [maap_handle_packet] return 0 after resolving exactly the ranges that overlap its
    offset and count, each exactly once and by its own state: a probing range ignores
    a losing probe and otherwise moves to another block or is given up; a defended one
    answers a probe with a DEFEND packet, ignores an announcement or defence it wins
    against, and otherwise is yielded and replaced when the pool has room.  Excepted is
    the run in which the search for a new block succeeds on its thousandth and last
    random draw, which only a packet that overlaps one of our ranges can cause. *)
Theorem maap_handle_packet_outcome (env : Environment) stream p w t :
  memory_available env -> client_inv ∅ w t -> op_ok w (OpPacket stream) ->
  (42 <= length stream)%nat -> unpack_maap uninit_tmp64 stream = Done p ->
  is_maap_packet p = true -> in_pool (mc w) p = true ->
  ((exists r, hit_range w t (packet_offset (mc w) p) (requested_count p) r) /\
   @maap_handle_packet (watched env) stream (Z.of_nat (length stream)) w = Fault LateDraw) \/
  exists rs w' t', maap_handle_packet stream (Z.of_nat (length stream)) w = Done (0, w') /\ handled p w t rs w' t'.
Proof.
  intros Hmem Hi [Hlen Hb] Hl Hun Hm Hp.
  assert (forall (T : Stops) env', memory_available env' -> unpack_maap (@uninit_tmp64 env') stream = Done p ->
    ((exists r, hit_range w t (packet_offset (mc w) p) (requested_count p) r) -> late_tolerated env') ->
    wp (@maap_handle_packet env' stream (Z.of_nat (length stream)))
      (fun v w' => v = 0 /\ exists rs t', handled p w t rs w' t') w) as Hwp.
  { intros T env' Hmem' Hun' Hlate. apply (maap_handle_packet_spec Hmem' stream w t); try done;
      [|lia|intros; lia|intros; congruence|intros; congruence|].
    - intros p' Hp' _ _. assert (p' = p) as -> by congruence. done.
    - intros p' rs w' t' _ Hp' _ _ _ _ Hh. assert (p' = p) as -> by congruence. eauto. }
  assert ((exists r, hit_range w t (packet_offset (mc w) p) (requested_count p) r) \/
    ~ exists r, hit_range w t (packet_offset (mc w) p) (requested_count p) r) as [Hex|Hnex].
  { destruct (decide (Exists (fun k : Z * Z * option rptr => hit (packet_offset (mc w) p) (requested_count p) k.1.1 k.1.2 = true /\ is_Some k.2)
      (view w t))) as [H|H]; rewrite Exists_exists in H.
    - left. destruct H as ([[lo hi] ?] & Hin & Hh & [r Hr]). cbn in *. subst. by exists r, lo, hi.
    - right. intros (r & lo & hi & Hin & Hh). apply H. by exists (lo, hi, Some r). }
  - destruct (observed _ _ _ _ (watched_packet env stream (Z.of_nat (length stream)))
      (Hwp late_stops (watched env) Hmem Hun (fun _ => watched_tolerated env))) as [E|(v & w' & E & -> & rs & t' & H)]; [by left|].
    right. by exists rs, w', t'.
  - right. destruct (wps_done _ _ _ (Hwp no_stops env Hmem Hun ltac:(done))) as (v & w' & E & -> & rs & t' & H). by exists rs, w', t'.
Qed.

(** Packets that do not count: a buffer shorter than 42 bytes, or one that is not a
    supported MAAP PDU, is refused with -1, and a MAAP PDU about addresses outside the
    pool is accepted with 0; in each case the client is left exactly as it was. *)
Theorem maap_handle_packet_rejects (env : Environment) stream w t :
  memory_available env -> client_inv ∅ w t -> op_ok w (OpPacket stream) ->
  (forall p, unpack_maap uninit_tmp64 stream = Done p -> is_maap_packet p = true -> in_pool (mc w) p = false) ->
  maap_handle_packet stream (Z.of_nat (length stream)) w =
    Done (match unpack_maap uninit_tmp64 stream with
          | Done p => if is_maap_packet p && (42 <=? Z.of_nat (length stream)) then 0 else -1
          | Fault _ => -1
          end, w).
Proof.
  intros Hmem Hi [Hlen Hb] Hout.
  assert (wp (maap_handle_packet stream (Z.of_nat (length stream))) (fun v w' => w' = w /\
    v = match unpack_maap uninit_tmp64 stream with
        | Done p => if is_maap_packet p && (42 <=? Z.of_nat (length stream)) then 0 else -1
        | Fault _ => -1 end) w) as Hwp.
  { apply (maap_handle_packet_spec Hmem stream w t); try done; [|lia| | | |].
    - intros p Hun Hm Hp. by rewrite (Hout p Hun Hm) in Hp.
    - intros Hs. split; [done|]. rewrite (proj2 (Z.leb_gt 42 (Z.of_nat (length stream)))) by lia.
      destruct (unpack_maap uninit_tmp64 stream); [|done]. by rewrite andb_false_r.
    - intros p Hs -> _ _ ->. done.
    - intros p Hs -> _ _ -> _. split; [done|]. by rewrite (proj2 (Z.leb_le 42 (Z.of_nat (length stream)))) by lia.
    - intros p rs w' t' Hs Hun _ _ Hm Hp _. rewrite (Hout p Hun Hm) in Hp. done. }
  destruct (wps_done _ _ _ Hwp) as (v & w' & E & -> & ->). exact E.
Qed.


(** Yield: for a defended range the made-up announcement always wins, so
    [maap_yield_range] returns 0 with the range released and, if the pool has room, a
    probing replacement of the same id and length; for any other id it returns -1 and
    only notifies; unless its search succeeds on the last draw. *)
Theorem maap_yield_outcome (env : Environment) s rid w t :
  memory_available env -> client_inv ∅ w t -> op_ok w (OpYield s rid) ->
  @maap_yield_range (watched env) s rid w = Fault LateDraw \/
  (exists r R lo hi V w' t', maap_yield_range s rid w = Done (0, w') /\
     rh w !! r = Some R /\ id R = rid /\ state R = MAAP_STATE_DEFENDING /\
     view w t ≡ₚ (lo, hi, Some r) :: V /\ yield_done w w' t' r rid lo hi V) \/
  (exists w', maap_yield_range s rid w = Done (-1, w') /\
     (forall r R, rh w !! r = Some R -> id R = rid -> state R <> MAAP_STATE_DEFENDING) /\
     refused w w' t (mkNotify MAAP_NOTIFY_YIELDED rid 0 0 MAAP_NOTIFY_ERROR_RELEASE_INVALID_ID) s).
Proof.
  intros Hmem Hi [Hlen [Hs1 Hs2]]. set (P := fun (v : Z) (w' : World) =>
    (exists r R lo hi V t', v = 0 /\ rh w !! r = Some R /\ id R = rid /\ state R = MAAP_STATE_DEFENDING /\
       view w t ≡ₚ (lo, hi, Some r) :: V /\ yield_done w w' t' r rid lo hi V) \/
    (v = -1 /\ (forall r R, rh w !! r = Some R -> id R = rid -> state R <> MAAP_STATE_DEFENDING) /\
       refused w w' t (mkNotify MAAP_NOTIFY_YIELDED rid 0 0 MAAP_NOTIFY_ERROR_RELEASE_INVALID_ID) s)).
  assert (wp (T := late_stops) (@maap_yield_range (watched env) s rid) P w) as Hwp.
  { apply (maap_yield_range_spec (watched_memory env Hmem) (watched_tolerated env) s rid w t); try done; [lia| |].
    - intros r R lo hi V w' t' H1 H2 H3 H4 H5. left. by exists r, R, lo, hi, V, t'.
    - intros w' H1 H2. by right. }
  destruct (observed _ _ _ _ (watched_yield env s rid) Hwp) as [E|(v & w' & E & [(r & R & lo & hi & V & t' & -> & H)|(-> & H)])].
  - by left.
  - right. left. by exists r, R, lo, hi, V, w', t'.
  - right. right. by exists w'.
Qed.

(** Deinitialisation: [maap_deinit_client] frees every range and every interval node
    (none leaks, none is freed twice) and leaves a blank client that can be
    initialised again. *)
Theorem maap_deinit_outcome (env : Environment) w t :
  client_inv ∅ w t ->
  exists w', maap_deinit_client w = Done (tt, w') /\ blank w' /\ timer (mc w') = None /\ net (mc w') = None /\
    notifies (mc w') = [] /\ ranges (mc w') = None /\ timer_queue (mc w') = [].
Proof.
  intros Hi. assert (wp maap_deinit_client (fun _ w' => blank w' /\ timer (mc w') = None /\ net (mc w') = None /\
    notifies (mc w') = [] /\ ranges (mc w') = None /\ timer_queue (mc w') = []) w) as Hwp.
  { apply (maap_deinit_client_spec w t); [done|]. auto 10. }
  destruct (wps_done _ _ _ Hwp) as ([] & w' & E & H). by exists w'.
Qed.

(** ** Corners of the implementation *)
Section corners.
Context {env : Environment} (Hmem : memory_available env).

(** When only the last draw is free the loop ends with its counter exhausted. *)
Lemma assign_loop_late len t t0 n : forall k iv (Q : nat * Z * option iptr -> World -> Prop) w,
  iset (ih w) (ranges (mc w)) t -> (forall a, is_Some (ih w !! a) <-> a ∈ inorder t) ->
  1 <= len <= range_len (mc w) -> range_len (mc w) < 2 ^ 32 ->
  (k + S n = 1000)%nat -> tick w = (t0 + 2 * k)%nat ->
  let d := draw t0 (range_len (mc w) + 1 - len) in
  (forall j, (k <= j < 999)%nat -> exists b, b ∈ inorder t /\ overlaps (ih w) (fresh_interval (d j) len) b = true) ->
  (forall b, b ∈ inorder t -> overlaps (ih w) (fresh_interval (d 999%nat) len) b = false) ->
  (forall x h' root' t' tk, inserted (ih w) t x (d 999%nat, d 999%nat + len - 1, None) h' root' t' ->
     Q (O, INTERVAL_SUCCESS, Some x) (with_tree w root' h' tk)) ->
  wp (assign_loop (S n) INTERVAL_OVERLAP iv len (range_len (mc w) - 1)) Q w.
Proof.
  induction n as [|n IH]; intros k iv Q w Hset Hdom Hlen Hmax Hkn Htick d Hov Hfree HQ;
    cbn [assign_loop]; simpl (_ =? _); cbv iota; apply wps_bind; unfold c_random, wp at 1;
    apply wps_bind, wp_get_mc; cbn [mc upd_tick]; set (m := range_len (mc w) + 1 - len) in *;
    change (2 ^ 32) with 4294967296 in Hmax; assert (0 < m < 4294967296) as Hm by lia;
    rewrite (u32_small m) by lia; apply wps_bind; rewrite (proj2 (Z.eqb_neq m 0)) by lia; (eapply wps_lift; [done|]);
    rewrite Htick; fold (draw t0 m k); fold (d k); pose proof (draw_range t0 m k ltac:(lia)) as Hd; fold (d k) in Hd;
    rewrite u32_small by lia; apply wps_bind; eapply (try_interval_spec Hmem _ _ _ t); simpl; try done; try lia.
  - intros (b & Hb & Hob) x. replace k with 999%nat in * by lia. by rewrite Hfree in Hob.
  - intros Hno x h' root' t' Hi. apply wps_ret. replace k with 999%nat in * by lia. by eapply HQ.
  - intros _ x. apply (IH (S k) (Some x) Q (upd_tick (upd_tick w))); simpl; try done; try lia.
    intros j Hj. apply Hov. lia.
  - intros Hno x h' root' t' Hi. destruct (Hov k) as (b & Hb & Hob); [lia|]. by rewrite Hno in Hob.
Qed.
End corners.

(** A success on the last attempt is taken for a failure: when 999 random draws
    overlap stored blocks and the thousandth does not, [assign_interval] inserts the
    interval and still returns -1, leaving a node in the tree whose [data] is NULL and
    that no range owns. *)
Theorem assign_interval_late_success (env : Environment) r base len w t :
  memory_available env -> late_draw_watched = false ->
  iset (ih w) (ranges (mc w)) t -> (forall a, is_Some (ih w !! a) <-> a ∈ inorder t) ->
  client_wf (mc w) -> 1 <= len <= range_len (mc w) -> 0 <= base < address_base (mc w) ->
  let d := draw (tick w) (range_len (mc w) + 1 - len) in
  (forall j, (j < 999)%nat -> exists b, b ∈ inorder t /\ overlaps (ih w) (fresh_interval (d j) len) b = true) ->
  (forall b, b ∈ inorder t -> overlaps (ih w) (fresh_interval (d 999%nat) len) b = false) ->
  exists w' t' x, assign_interval r base len w = Done (-1, w') /\ iset (ih w') (ranges (mc w')) t' /\
    x ∈ inorder t' /\ x ∉ inorder t /\ node_data (ih w') x = None /\ rh w' = rh w.
Proof.
  intros Hmem Hwatch Hset Hdom Hcw Hlen Hbase d Hov Hfree. destruct Hcw as [_ _ _ Hab Hrl Htop _ _].
  change (2 ^ 32) with 4294967296 in Hrl.
  assert (wp (assign_interval r base len) (fun v w' => v = -1 /\ exists t' x, iset (ih w') (ranges (mc w')) t' /\
    x ∈ inorder t' /\ x ∉ inorder t /\ node_data (ih w') x = None /\ rh w' = rh w) w) as Hwp.
  { unfold assign_interval. apply wps_bind, wp_get_mc. rewrite Z.gtb_ltb, (proj2 (Z.ltb_ge _ _)) by lia.
    rewrite (u32_small (range_len (mc w) - 1)) by lia. rewrite Z.geb_leb, (proj2 (Z.leb_gt _ _)) by lia. simpl (_ && _). cbv iota.
    apply wps_bind, wps_ret. simpl fst. simpl snd. apply wps_bind.
    apply (assign_loop_late Hmem len t (tick w) 999 0); try done; try lia.
    - intros j Hj. apply Hov. lia.
    - intros x h' root' t' tk Hi. apply wps_bind. eapply wps_lift; [unfold watch_draw; by rewrite Hwatch|].
      apply wps_ret. split; [done|]. exists t', x.
      split; [apply (ins_set _ _ _ _ _ _ _ Hi)|]. split; [apply (inserted_elem _ _ _ _ _ _ _ x Hi); by left|].
      split; [intros Hx; apply Hdom in Hx; rewrite (ins_fresh _ _ _ _ _ _ _ Hi) in Hx; by destruct Hx|].
      split; [|done]. by destruct (contents_eq _ _ _ _ (ins_key _ _ _ _ _ _ _ Hi)) as (_ & _ & ?). }
  destruct (wps_done _ _ _ Hwp) as (v & w' & E & -> & t' & x & H). by exists w', t', x.
Qed.

(** A reservation of length 0 at the pool's own base address (documented lengths
    start at 1, the code does not check) stops the daemon: the interval wraps to
    2^32 - 1 and the bound assertion of [assign_interval] fails. *)
Theorem maap_reserve_zero_aborts (env : Environment) s w t :
  memory_available env -> client_inv ∅ w t -> 1 <= address_base (mc w) ->
  maap_reserve_range s (address_base (mc w)) 0 w = Fault AssertFail.
Proof.
  intros Hmem Hi Hb. destruct (ci_client _ _ _ Hi) as [Hini _ _ Hab Hrl Htop _ _].
  change (2 ^ 32) with 4294967296 in Hrl. change (2 ^ 48) with 281474976710656 in Htop.
  apply aborts_bind, wp_get_mc. rewrite Hini. simpl negb. cbv iota.
  rewrite !Z.gtb_ltb, (proj2 (Z.ltb_ge (range_len (mc w)) 0)) by lia. simpl (_ || _). cbv iota.
  apply aborts_bind, (wp_malloc Hmem). intros r _. apply aborts_bind, wps_modify.
  apply aborts_bind. unfold c_clock, wp. apply aborts_bind, wps_modify. apply aborts_left.
  apply aborts_bind, wp_get_mc. unfold upd_rh, upd_mc, upd_tick. cbn [mc ih rh tick address_base range_len set_maxid].
  change (u16 0) with 0. rewrite !Z.gtb_ltb, (proj2 (Z.ltb_ge (range_len (mc w)) 0)) by lia.
  rewrite Z.geb_leb, Z.leb_refl, !u64_small by lia.
  rewrite (proj2 (Z.leb_le (address_base (mc w) + 0 - 1) _)) by lia. simpl (_ && _). cbv iota.
  rewrite Z.sub_diag. change (u32 0) with 0. rewrite (u32_small (range_len (mc w) - 1)) by lia.
  apply aborts_left, aborts_left. apply aborts_bind, (wp_malloc Hmem). intros a _. apply aborts_bind, wps_get.
  cbn [alloc_interval upd_tick ih]. apply aborts_bind. eapply wps_lift; [done|]. apply aborts_bind, wps_modify.
  apply aborts_bind, wp_load_interval; [cbn; by rewrite lookup_insert_eq|]. cbn [ih upd_ih]. rewrite node_insert_eq.
  apply aborts_left. cbn [high fresh_interval]. change (u32 (0 + 0 - 1)) with 4294967295.
  rewrite (proj2 (Z.leb_gt 4294967295 (range_len (mc w) - 1))) by lia. done.
Qed.

(** A conflicting probe that starts below the pool is missed: its offset is computed
    modulo 2^32, so for a pool of fewer than 2^32 - 65536 addresses no stored range is
    found to overlap it, and although it claims addresses of a range we defend no
    DEFEND packet is sent and nothing changes but the timer setting. *)
Theorem maap_low_conflict_missed (env : Environment) stream p w t r R lo hi :
  memory_available env -> client_inv ∅ w t -> op_ok w (OpPacket stream) ->
  (42 <= length stream)%nat -> unpack_maap uninit_tmp64 stream = Done p -> is_maap_packet p = true ->
  message_type p = MAAP_PROBE -> range_len (mc w) <= 2 ^ 32 - 2 ^ 16 ->
  requested_start_address p < address_base (mc w) ->
  rh w !! r = Some R -> state R = MAAP_STATE_DEFENDING -> (lo, hi, Some r) ∈ view w t ->
  address_base (mc w) + lo <= requested_start_address p + requested_count p - 1 ->
  exists w', maap_handle_packet stream (Z.of_nat (length stream)) w = Done (0, w') /\
    packets (mc w') ≡ₚ packets (mc w) /\ notifies (mc w') = notifies (mc w) /\ ih w' = ih w.
Proof.
  intros Hmem Hi [Hlen Hb] Hl Hun Hm Hmt Hpool Hlow HR Hst Hin Hover.
  destruct (unpack_stream stream Hl Hb) as (p' & Hwf & _ & Hun'). rewrite Hun' in Hun by apply uninit_tmp64_ok.
  injection Hun as ->. pose proof (ci_tree _ _ _ Hi) as Hti.
  destruct Hwf as (_ & _ & _ & _ & _ & _ & _ & _ & _ & _ & W1 & W2 & _ & _).
  destruct (cw_len _ (ci_client _ _ _ Hi)) as [L1 L2]. pose proof (cw_top _ (ci_client _ _ _ Hi)) as Ht.
  change (2 ^ 16) with 65536 in *. change (2 ^ 32) with 4294967296 in *. change (2 ^ 48) with 281474976710656 in *.
  destruct (view_placed _ w t r R lo hi Hti HR Hin) as (a & _ & Ha & _ & El & _).
  destruct (inv_span _ _ _ _ _ _ _ a Hti Ha) as (S1 & _ & _). rewrite El in S1.
  assert (packet_offset (mc w) p = requested_start_address p - address_base (mc w) + 4294967296) as Hoff
    by (unfold packet_offset; unfold_width; Z.div_mod_to_equations; lia).
  assert (~ exists x, hit_range w t (packet_offset (mc w) p) (requested_count p) x) as Hmiss.
  { intros (x & lo' & hi' & Hv & Hh).
    apply list_elem_of_fmap in Hv as (b & E & Hb'). symmetry in E. apply contents_eq in E as (El' & Eh' & _).
    destruct (inv_span _ _ _ _ _ _ _ b Hti Hb') as (_ & B2 & _). unfold hit in Hh. rewrite Hoff in Hh.
    apply andb_true_iff in Hh as [_ Hh%Z.leb_le]. lia. }
  assert (wp (maap_handle_packet stream (Z.of_nat (length stream))) (fun v w' => v = 0 /\
    packets (mc w') ≡ₚ packets (mc w) /\ notifies (mc w') = notifies (mc w) /\ ih w' = ih w) w) as Hwp.
  { apply (maap_handle_packet_spec Hmem stream w t); try done; [|lia|intros; lia| |].
    - intros p' Hu _ _. rewrite Hun' in Hu by apply uninit_tmp64_ok. injection Hu as <-. done.
    - intros p' _ Hu _ _ Hf. rewrite Hun' in Hu by apply uninit_tmp64_ok. congruence.
    - intros p' rs w' t' _ Hu _ _ _ _ [Hnd Hhits (rm & w2 & _ & Hres & E1 & E2 & He & _) _].
      rewrite Hun' in Hu by apply uninit_tmp64_ok. injection Hu as <-.
      destruct rs as [|x rs]; [|exfalso; apply Hmiss; exists x; apply Hhits; by left].
      inversion Hres; subst. cbn in *. split; [done|]. pose proof (ef_notes _ _ _ _ He) as Hn. rewrite app_nil_r in Hn.
      split; [apply (ef_packets _ _ _ _ He)|]. done. }
  destruct (wps_done _ _ _ Hwp) as (v & w' & E & -> & H). by exists w'.
Qed.
