(* ===== verification/MaapExamples.v ===== *)
(** * Concrete runs of the MAAP client

    An environment that meets every assumption, the states it leads to, and the
    properties of [MaapProps] applied to them. *)
From S2P Require Import Prelude Intervals IntervalTree IntervalUpdate MaapPacket MaapTime MaapNet Maap.
From S2P Require Import MaapInv MaapSafety MaapConflict MaapHandle MaapTimer MaapClient MaapProps.
From stdpp Require Import base gmap list numbers sorting.
#[local] Open Scope Z_scope.
#[local] Open Scope st_scope.

(** An address above all those in use. *)
Definition next_address (X : gset positive) : positive := Pos.succ (foldr Pos.max 1%positive (elements X)).

Lemma next_address_fresh X : next_address X ∉ X.
Proof.
  intros H. assert (forall l a, a ∈ l -> (a <= foldr Pos.max 1 l)%positive) as Hle.
  { induction l as [|b l IH]; intros a Ha; [set_solver|]. simpl. rewrite elem_of_cons in Ha.
    destruct Ha as [->|Ha]; [lia|]. specialize (IH a Ha). lia. }
  apply elem_of_elements, Hle in H. unfold next_address in H. lia.
Qed.

(** A random source of period 64, a clock that ticks with every call, memory without end. *)
Definition sample_random (n : nat) : Z := Z.of_nat (n `mod` 64) * 37.
Definition sample_clock (n : nat) : Time := mkTime (Z.of_nat n) 0.

#[global] Program Instance sample_env : Environment := {
  random_at := sample_random;
  clock_at := sample_clock;
  malloc_at := fun _ X => Some (next_address X);
  timer_create_at := fun _ => true;
  uninit_tmp64 := replicate 8 165;
  uninit_buffer := replicate 64 165;
  late_draw_watched := false
}.
Next Obligation.
  intros n. unfold sample_random. pose proof (Nat.mod_upper_bound n 64 ltac:(lia)).
  change (2 ^ 31) with 2147483648. lia.
Qed.
Next Obligation. intros n. split; simpl; lia. Qed.
Next Obligation. intros n m H. unfold time_le, sample_clock. simpl. lia. Qed.
Next Obligation. intros n X a [= <-]. apply next_address_fresh. Qed.
Next Obligation. split; [done|]. repeat constructor; unfold is_byte; lia. Qed.
Next Obligation. split; [done|]. repeat constructor; unfold is_byte; lia. Qed.

Lemma sample_memory : memory_available sample_env.
Proof. intros n X. by eexists. Qed.

Definition pool_base : Z := 0x91E0F0000000.
Definition pool_len : Z := 0xFE00.

Definition blank_world : World :=
  mkWorld (mkClient 0x91E0F000FF00 0x001122334455 0 0 None [] None None 0 [] false) ∅ ∅ 0.

Lemma blank_world_ok : blank blank_world.
Proof. by constructor. Qed.

Definition state_of {A} (o : outcome (A * World)) (w : World) : World := match o with Done (_, w') => w' | Fault _ => w end.
Definition after (op : maap_op) (w : World) : World := state_of (run_op op w) w.

(** Initialised; one block of 16 reserved at offset 100; the same block acquired. *)
Definition world_init : World := state_of (maap_init_client 7 pool_base pool_len blank_world) blank_world.
Definition world_probing : World := after (OpReserve 7 (pool_base + 100) 16) world_init.
Definition world_defending : World := after OpTimer (after OpTimer (after OpTimer (after OpTimer world_probing))).

(** ** The invariant along the runs *)
Lemma world_init_inv : client_inv ∅ world_init Leaf.
Proof.
  pose proof (maap_init_client_spec sample_memory 7 pool_base pool_len blank_world (fun _ w => client_inv ∅ w Leaf)
    blank_world_ok ltac:(done) ltac:(done) ltac:(done) ltac:(auto)) as H.
  unfold wp in H. unfold world_init, state_of. by destruct (maap_init_client _ _ _ _) as [[? ?]|].
Qed.

(** No draw of the operation succeeds too late. *)
Definition timely (op : maap_op) (w : World) : bool :=
  match @run_op (watched sample_env) op w with Fault LateDraw => false | _ => true end.

Lemma after_inv op w :
  (exists t, client_inv ∅ w t) -> op_ok w op -> timely op w = true -> exists t, client_inv ∅ (after op w) t.
Proof.
  intros [t Hi] Hop Ht.
  destruct (observed _ (run_op op) _ _ (watched_op sample_env op) (run_op_safe (T := late_stops)
    (watched_memory sample_env sample_memory) w t op (fun _ => watched_tolerated sample_env) Hi Hop)) as [E|(v & w' & E & H)].
  - unfold timely in Ht. by rewrite E in Ht.
  - unfold after, state_of. by rewrite E.
Qed.
Ltac op_ok_tac := split; [vm_compute; reflexivity|try done; try (split; [split|split]; vm_compute; congruence)].

Lemma world_probing_inv : exists t, client_inv ∅ world_probing t.
Proof. apply after_inv; [exists Leaf; apply world_init_inv|op_ok_tac|vm_compute; reflexivity]. Qed.
Lemma world_defending_inv : exists t, client_inv ∅ world_defending t.
Proof. do 4 (apply after_inv; [|op_ok_tac|vm_compute; reflexivity]). apply world_probing_inv. Qed.

(** ** Witnesses *)
Lemma world_init_run : maap_init_client 7 pool_base pool_len blank_world = Done (0, world_init).
Proof. vm_compute. reflexivity. Qed.

(** Two blocks at once: one defended, one probing. *)
Definition world_two : World := after (OpReserve 8 (pool_base + 200) 8) world_defending.

Lemma reach_after op w :
  reachable 7 pool_base pool_len blank_world w -> op_ok w op ->
  match run_op op w with Done _ => true | Fault _ => false end = true ->
  reachable 7 pool_base pool_len blank_world (after op w).
Proof.
  intros Hr Hop Hrun. unfold after, state_of. destruct (run_op op w) as [[v w']|] eqn:E; [|done].
  by eapply reach_step.
Qed.
Lemma reachable_defending : reachable 7 pool_base pool_len blank_world world_defending.
Proof.
  do 5 (apply reach_after; [|op_ok_tac|vm_compute; reflexivity]). apply reach_init, world_init_run.
Qed.
Lemma reachable_two : reachable 7 pool_base pool_len blank_world world_two.
Proof. apply reach_after; [apply reachable_defending|op_ok_tac|vm_compute; reflexivity]. Qed.

Lemma maap_ranges_disjoint_witness :
  exists lo1 hi1 lo2 hi2, range_span world_two 2%positive lo1 hi1 /\ range_span world_two 3%positive lo2 hi2 /\
    (hi1 < lo2 \/ hi2 < lo1).
Proof.
  assert (range_span world_two 2%positive (pool_base + 100) (pool_base + 115)) as H1.
  { eexists _, _. split; [vm_compute; reflexivity|]. split; [by right|]. split; [reflexivity|].
    split; [vm_compute; eexists; reflexivity|]. split; vm_compute; reflexivity. }
  assert (range_span world_two 3%positive (pool_base + 200) (pool_base + 207)) as H2.
  { eexists _, _. split; [vm_compute; reflexivity|]. split; [by left|]. split; [reflexivity|].
    split; [vm_compute; eexists; reflexivity|]. split; vm_compute; reflexivity. }
  exists (pool_base + 100), (pool_base + 115), (pool_base + 200), (pool_base + 207). split; [exact H1|]. split; [exact H2|].
  apply (maap_ranges_disjoint sample_env 7 pool_base pool_len blank_world world_two sample_memory
    blank_world_ok ltac:(done) ltac:(done) ltac:(done) reachable_two 2%positive 3%positive); [done|exact H1|exact H2].
Defined.

Lemma maap_operations_safe_witness :
  exists v w' t', run_op (OpReserve 8 (pool_base + 200) 8) world_defending = Done (v, w') /\ client_inv ∅ w' t'.
Proof.
  destruct world_defending_inv as [t Ht].
  destruct (maap_operations_safe sample_env world_defending t (OpReserve 8 (pool_base + 200) 8) sample_memory Ht) as [[_ E]|H].
  - op_ok_tac.
  - vm_compute in E. discriminate.
  - exact H.
Defined.

Lemma maap_init_outcome_witness :
  exists w', maap_init_client 7 pool_base pool_len blank_world = Done (0, w') /\ client_inv ∅ w' Leaf.
Proof.
  destruct (maap_init_outcome sample_env 7 pool_base pool_len blank_world sample_memory blank_world_ok
    ltac:(done) ltac:(done) ltac:(done)) as (w' & H1 & H2 & _). exists w'. split; [exact H1|exact H2].
Defined.

Lemma maap_reserve_outcome_witness :
  exists w' t', maap_reserve_range 7 (pool_base + 100) 16 world_init = Done (1, w') /\
    started world_init w' Leaf t' 7 (pool_base + 100) 16 1.
Proof.
  destruct (maap_reserve_outcome sample_env 7 (pool_base + 100) 16 world_init Leaf sample_memory
    world_init_inv ltac:(op_ok_tac)) as [E|[(w' & E & _)|(w' & t' & E & H)]].
  - exfalso. vm_compute in E. discriminate.
  - exfalso. vm_compute in E. discriminate.
  - exists w', t'. split; [exact E|exact H].
Defined.

Lemma maap_release_outcome_witness :
  exists w', maap_release_range 7 1 world_defending = Done (0, w').
Proof.
  destruct world_defending_inv as [t Ht].
  destruct (maap_release_outcome sample_env 7 1 world_defending t sample_memory Ht)
    as [(l1 & r & l2 & R & lo & hi & V & w' & t' & E & _)|(w' & E & _)].
  - exists w'. exact E.
  - exfalso. vm_compute in E. discriminate.
Defined.

(** A probe of another station for addresses of the defended block. *)
Definition foreign_probe : MAAP_Packet :=
  mkPacket 0x91E0F000FF00 0x0011223344FF MAAP_TYPE MAAP_SUBTYPE 0 0 MAAP_PROBE 1 16 0 (pool_base + 110) 4 0 0.

Lemma foreign_probe_bytes : Forall is_byte (pack_maap foreign_probe).
Proof. apply pack_maap_bytes. Qed.

Lemma maap_handle_packet_outcome_witness :
  exists rs w' t t', maap_handle_packet (pack_maap foreign_probe) 42 world_defending = Done (0, w') /\
    handled foreign_probe world_defending t rs w' t'.
Proof.
  destruct world_defending_inv as [t Ht].
  destruct (maap_handle_packet_outcome sample_env (pack_maap foreign_probe) foreign_probe world_defending t
    sample_memory Ht) as [[_ E]|(rs & w' & t' & E & H)].
  - split; [vm_compute; reflexivity|exact foreign_probe_bytes].
  - vm_compute. lia.
  - vm_compute. reflexivity.
  - reflexivity.
  - vm_compute. reflexivity.
  - exfalso. vm_compute in E. discriminate.
  - exists rs, w', t, t'. split; [exact E|exact H].
Defined.

Lemma maap_handle_packet_rejects_witness :
  maap_handle_packet (replicate 60 0) 60 world_defending = Done (-1, world_defending).
Proof.
  destruct world_defending_inv as [t Ht].
  apply (maap_handle_packet_rejects sample_env (replicate 60 0) world_defending t sample_memory Ht).
  - split; [vm_compute; reflexivity|]. apply Forall_replicate. unfold is_byte. lia.
  - intros p H. vm_compute in H. injection H as <-. discriminate.
Defined.


Lemma maap_yield_outcome_witness : exists w', maap_yield_range 7 1 world_defending = Done (0, w').
Proof.
  destruct world_defending_inv as [t Ht].
  destruct (maap_yield_outcome sample_env 7 1 world_defending t sample_memory Ht)
    as [E|[(r & R & lo & hi & V & w' & t' & E & _)|(w' & E & _)]].
  - split; [vm_compute; reflexivity|]. split; [split|]; vm_compute; congruence.
  - exfalso. vm_compute in E. discriminate.
  - exists w'. exact E.
  - exfalso. vm_compute in E. discriminate.
Defined.

Lemma maap_deinit_outcome_witness : exists w', maap_deinit_client world_defending = Done (tt, w') /\ blank w'.
Proof.
  destruct world_defending_inv as [t Ht].
  destruct (maap_deinit_outcome sample_env world_defending t Ht) as (w' & E & H & _). exists w'. split; [exact E|exact H].
Defined.

Lemma maap_reserve_zero_aborts_witness : maap_reserve_range 7 pool_base 0 world_init = Fault AssertFail.
Proof.
  apply (maap_reserve_zero_aborts sample_env 7 world_init Leaf sample_memory world_init_inv). vm_compute. congruence.
Defined.

(** A probe for eight addresses of which the last four are ours (the pool's first). *)
Definition world_first : World :=
  after OpTimer (after OpTimer (after OpTimer (after OpTimer (after (OpReserve 7 pool_base 16) world_init)))).
Definition low_probe : MAAP_Packet :=
  mkPacket 0x91E0F000FF00 0x0011223344FF MAAP_TYPE MAAP_SUBTYPE 0 0 MAAP_PROBE 1 16 0 (pool_base - 4) 8 0 0.

Lemma world_first_inv : exists t, client_inv ∅ world_first t.
Proof. do 5 (apply after_inv; [|op_ok_tac|vm_compute; reflexivity]). exists Leaf. apply world_init_inv. Qed.

Lemma maap_low_conflict_missed_witness :
  exists w', maap_handle_packet (pack_maap low_probe) 42 world_first = Done (0, w') /\
    packets (mc w') ≡ₚ packets (mc world_first).
Proof.
  destruct world_first_inv as [t Ht]. pose proof (ci_tree _ _ _ Ht) as Hti.
  assert (exists R, rh world_first !! 2%positive = Some R /\ state R = MAAP_STATE_DEFENDING) as (R & HR & Hst)
    by (eexists; split; vm_compute; reflexivity).
  destruct (inv_placed _ _ _ _ _ R Hti HR ltac:(by right) ltac:(done)) as (a & Hp & Ha & _ & Hd).
  pose proof (view_of_node world_first t a Ha) as Hv. rewrite Hd in Hv.
  assert (lo_of world_first a = 0) as Hlo.
  { destruct Hp as (HR' & Hi & _). assert (interval R = Some 2%positive) as Hi2.
    { vm_compute in HR. injection HR as <-. reflexivity. }
    rewrite Hi2 in Hi. injection Hi as <-. vm_compute. reflexivity. }
  destruct (maap_low_conflict_missed sample_env (pack_maap low_probe) low_probe world_first t 2%positive R
    (lo_of world_first a) (hi_of world_first a) sample_memory Ht) as (w' & E & H & _).
  - split; [vm_compute; reflexivity|]. apply pack_maap_bytes.
  - vm_compute. lia.
  - vm_compute. reflexivity.
  - reflexivity.
  - reflexivity.
  - vm_compute. congruence.
  - vm_compute. reflexivity.
  - exact HR.
  - exact Hst.
  - exact Hv.
  - rewrite Hlo. vm_compute. congruence.
  - exists w'. split; [exact E|exact H].
Defined.

(** A random source whose first 999 draws all hit the block at offset 0. *)
Definition late_random (n : nat) : Z := if (n =? 1998)%nat then 1 else 0.

Definition late_env : Environment := {|
  random_at := late_random;
  random_at_range := fun n => ltac:(unfold late_random; destruct (n =? 1998)%nat; split; vm_compute; congruence);
  clock_at := sample_clock;
  clock_at_normalized := @clock_at_normalized sample_env;
  clock_at_monotone := @clock_at_monotone sample_env;
  malloc_at := @malloc_at sample_env;
  malloc_at_fresh := @malloc_at_fresh sample_env;
  timer_create_at := fun _ => true;
  uninit_tmp64 := @uninit_tmp64 sample_env;
  uninit_tmp64_ok := @uninit_tmp64_ok sample_env;
  uninit_buffer := @uninit_buffer sample_env;
  uninit_buffer_ok := @uninit_buffer_ok sample_env;
  late_draw_watched := false
|}.

Definition world_late : World := at_tick (after (OpReserve 7 pool_base 1) world_init) 0.

Lemma world_late_inv : exists t, client_inv ∅ world_late t.
Proof.
  destruct (after_inv (OpReserve 7 pool_base 1) world_init) as [t Ht]; [exists Leaf; apply world_init_inv|op_ok_tac|vm_compute; reflexivity|].
  exists t. unfold world_late, at_tick. apply (client_inv_transport ∅ _ t _ 0 Ht); try done. apply Ht.
Qed.

(** The only node of [world_late] holds offset 0. *)
Lemma world_late_tree t : client_inv ∅ world_late t -> inorder t = [2%positive].
Proof.
  intros Hi. pose proof (ti_set _ _ _ _ _ _ _ (ci_tree _ _ _ Hi)) as [Hroot Hrep _].
  assert (ranges (mc world_late) = Some 2%positive) as E1 by (vm_compute; reflexivity).
  assert (links <$> ih world_late !! 2%positive = Some (None, None, None)) as E2 by (vm_compute; reflexivity).
  rewrite E1 in Hroot. destruct t as [|l a r]; [done|]. injection Hroot as <-. cbn [rep] in Hrep.
  destruct Hrep as (Hl & _ & _). rewrite E2 in Hl. injection Hl as Hl Hr.
  by destruct l, r.
Qed.

Lemma assign_interval_late_success_witness :
  exists w' t' x, @assign_interval late_env 9%positive 0 1 world_late = Done (-1, w') /\
    iset (ih w') (ranges (mc w')) t' /\ x ∈ inorder t' /\ node_data (ih w') x = None.
Proof.
  destruct world_late_inv as [t Ht]. pose proof (world_late_tree t Ht) as Hin. pose proof (ci_tree _ _ _ Ht) as Hti.
  destruct (assign_interval_late_success late_env 9%positive 0 1 world_late t) as (w' & t' & x & E & H1 & H2 & _ & H3 & _).
  - exact sample_memory.
  - reflexivity.
  - apply Hti.
  - apply Hti.
  - apply Ht.
  - split; vm_compute; congruence.
  - split; vm_compute; congruence.
  - intros j Hj. exists 2%positive. rewrite Hin. split; [by left|]. unfold draw. cbn [random_at late_env].
    change (tick world_late) with 0%nat. unfold late_random. rewrite (proj2 (Nat.eqb_neq _ 1998)) by lia.
    vm_compute. reflexivity.
  - intros b Hb. rewrite Hin in Hb. apply list_elem_of_singleton in Hb as ->. vm_compute. reflexivity.
  - exists w', t', x. split; [exact E|]. split; [exact H1|]. split; [exact H2|exact H3].
Defined.
