(* ===== verification/Text.v ===== *)
(** * Text: the part of [printf] and [scanf] the daemons use

    Formatting with [%0<w>x] and scanning with [%<w>x] and [%u], on strings for what is
    printed and on byte lists for what is scanned, as the C library documents them. *)
From stdpp Require Import base list strings numbers.
From S2P Require Import Prelude.
From Stdlib Require Import Ascii.
#[local] Open Scope Z_scope.

Definition char_byte (c : ascii) : Z := Z.of_N (N_of_ascii c).
Definition byte_char (b : Z) : ascii := ascii_of_N (Z.to_N b).

Fixpoint bytes_of_string (s : string) : list Z :=
  match s with
  | String.EmptyString => []
  | String.String c s' => char_byte c :: bytes_of_string s'
  end.

Definition newline : string := String.String (byte_char 10) String.EmptyString.

(** The lower-case hexadecimal digit of a number below 16. *)
Definition hex_digit (d : Z) : ascii := byte_char (if d <? 10 then 48 + d else 87 + d).

(** The last [w] hexadecimal digits of [v], most significant first: what [%0<w>x] prints
    for a value below [16 ^ w]. *)
Fixpoint fmt_x (w : nat) (v : Z) : string :=
  match w with
  | O => String.EmptyString
  | S w' => String.String (hex_digit (v / 16 ^ Z.of_nat w' mod 16)) (fmt_x w' v)
  end.

(** [%d]. *)
Fixpoint fmt_dec (digits : nat) (v : Z) : string :=
  match digits with
  | O => String.EmptyString
  | S n => (if v <? 10 then String.EmptyString else fmt_dec n (v / 10)) +:+
           String.String (byte_char (48 + v mod 10)) String.EmptyString
  end.
Definition fmt_int (v : Z) : string :=
  if i32 v <? 0 then "-" +:+ fmt_dec 10 (- i32 v) else fmt_dec 10 (i32 v).

(** [sprintf] into a buffer of [size] bytes from [pos] on: the text and its NUL must fit. *)
Definition sprintf_at (size : Z) (pos : Z) (text : string) : outcome unit :=
  if pos + Z.of_nat (String.length text) + 1 <=? size then Done tt else Fault OutOfBounds.

Definition string_of_bytes (l : list Z) : string :=
  foldr (fun b s => String.String (byte_char b) s) String.EmptyString l.

(** The value of a hexadecimal digit. *)
Definition digit_of (b : Z) : option Z :=
  if (48 <=? b) && (b <=? 57) then Some (b - 48)
  else if (97 <=? b) && (b <=? 102) then Some (b - 87)
  else if (65 <=? b) && (b <=? 70) then Some (b - 55)
  else None.

Definition is_space (b : Z) : bool := (b =? 32) || ((9 <=? b) && (b <=? 13)).

Fixpoint skip_space (s : list Z) : list Z :=
  match s with b :: s' => if is_space b then skip_space s' else s | [] => [] end.

(** Digits of base [base], at most [w] of them: their value after [acc], and how many. *)
Fixpoint scan_digits (base : Z) (w : nat) (acc : Z) (s : list Z) : Z * nat :=
  match w, s with
  | S w', b :: s' =>
      match digit_of b with
      | Some d => if d <? base then let '(v, k) := scan_digits base w' (acc * base + d) s' in (v, S k)
                  else (acc, O)
      | None => (acc, O)
      end
  | _, _ => (acc, O)
  end.

(** An optional sign, then for base 16 an optional [0x], then the digits; all of it
    within the width [w].  The result wraps at [2 ^ bits], as [strtoul] into a narrower
    object does for values in range. *)
Definition scan_sign (w : nat) (s : list Z) : bool * nat * list Z :=
  match s with
  | b :: s' => if b =? 45 then (true, pred w, s') else if b =? 43 then (false, pred w, s') else (false, w, s)
  | [] => (false, w, s)
  end.

Definition scan_prefix (base : Z) (w : nat) (s : list Z) : nat * list Z :=
  match s with
  | z :: x :: d :: s' =>
      if (base =? 16) && (3 <=? w)%nat && (z =? 48) && ((x =? 120) || (x =? 88)) && bool_decide (is_Some (digit_of d))
      then ((w - 2)%nat, d :: s') else (w, s)
  | _ => (w, s)
  end.

Definition scan_number (base : Z) (w : nat) (bits : Z) (s : list Z) : option Z :=
  let '(neg, w1, s1) := scan_sign w (skip_space s) in
  let '(w2, s2) := scan_prefix base w1 s1 in
  match scan_digits base w2 0 s2 with
  | (_, O) => None
  | (v, _) => Some ((if neg then - v else v) mod 2 ^ bits)
  end.

(** ** Printing and scanning are inverse *)
Lemma digit_of_hex d : 0 <= d < 16 -> digit_of (char_byte (hex_digit d)) = Some d.
Proof.
  intros Hd. assert (d = 0 \/ d = 1 \/ d = 2 \/ d = 3 \/ d = 4 \/ d = 5 \/ d = 6 \/ d = 7 \/ d = 8 \/
    d = 9 \/ d = 10 \/ d = 11 \/ d = 12 \/ d = 13 \/ d = 14 \/ d = 15) as Hc by lia.
  repeat (destruct Hc as [-> | Hc]; [reflexivity|]). by subst.
Qed.

Lemma hex_not_special d b :
  0 <= d < 16 -> b = char_byte (hex_digit d) ->
  is_space b = false /\ b <> 45 /\ b <> 43 /\ b <> 120 /\ b <> 88.
Proof.
  intros Hd ->. assert (d = 0 \/ d = 1 \/ d = 2 \/ d = 3 \/ d = 4 \/ d = 5 \/ d = 6 \/ d = 7 \/ d = 8 \/
    d = 9 \/ d = 10 \/ d = 11 \/ d = 12 \/ d = 13 \/ d = 14 \/ d = 15) as Hc by lia.
  repeat (destruct Hc as [-> | Hc]; [repeat split; vm_compute; congruence|]). subst. repeat split; vm_compute; congruence.
Qed.

Lemma length_fmt_x w v : String.length (fmt_x w v) = w.
Proof. induction w; simpl; congruence. Qed.

Lemma string_length_app s t : String.length (s +:+ t) = (String.length s + String.length t)%nat.
Proof. induction s as [|c s IH]; [done|]. exact (f_equal S IH). Qed.

(** [%02x] for each byte. *)
Lemma length_hex_bytes l : String.length (foldr (fun b s => fmt_x 2 b +:+ s) String.EmptyString l) = (2 * length l)%nat.
Proof. induction l as [|b l IH]; [done|]. cbn [foldr length]. rewrite string_length_app, length_fmt_x, IH. lia. Qed.

(** The lengths of decimal numbers. *)
Lemma length_fmt_dec k digits v :
  0 <= v < 10 ^ Z.of_nat (S k) -> (String.length (fmt_dec digits v) <= S k)%nat.
Proof.
  revert k v. induction digits as [|n IH]; intros k v Hv; cbn [fmt_dec]; [cbn; lia|]. rewrite string_length_app.
  destruct (Z.ltb_spec v 10); [cbn; lia|]. destruct k as [|k]; [cbn in Hv; lia|].
  assert (String.length (fmt_dec n (v / 10)) <= S k)%nat; [|cbn [String.length]; lia].
  apply IH. rewrite (Nat2Z.inj_succ (S k)), Z.pow_succ_r in Hv by lia. split; [apply Z.div_pos; lia|]. apply Z.div_lt_upper_bound; lia.
Qed.

Lemma i32_range v : - 2147483648 <= i32 v < 2147483648.
Proof. unfold i32, U32. pose proof (Z.mod_pos_bound (v + 2 ^ 31) (2 ^ 32) ltac:(lia)). lia. Qed.

Lemma length_fmt_int v : (String.length (fmt_int v) <= 11)%nat.
Proof.
  pose proof (i32_range v). unfold fmt_int. destruct (Z.ltb_spec (i32 v) 0).
  - rewrite string_length_app. pose proof (length_fmt_dec 9 10 (- i32 v) ltac:(simpl in *; lia)). cbn [String.length] in *. lia.
  - pose proof (length_fmt_dec 9 10 (i32 v) ltac:(simpl in *; lia)). lia.
Qed.

Lemma bytes_of_app s1 s2 : bytes_of_string (s1 +:+ s2) = bytes_of_string s1 ++ bytes_of_string s2.
Proof. induction s1 as [|c s1 IH]; [done|]. simpl. by rewrite <- IH. Qed.

Lemma length_bytes_of s : length (bytes_of_string s) = String.length s.
Proof. induction s; simpl; congruence. Qed.

Lemma scan_digits_fmt w v acc rest :
  0 <= v -> scan_digits 16 w acc (bytes_of_string (fmt_x w v) ++ rest) =
    (acc * 16 ^ Z.of_nat w + v mod 16 ^ Z.of_nat w, w).
Proof.
  intros Hv. revert acc. induction w as [|w IH]; intros acc.
  - simpl. rewrite Z.mod_1_r, Z.add_0_r, Z.mul_1_r. by destruct rest.
  - cbn [fmt_x bytes_of_string app scan_digits].
    set (d := v / 16 ^ Z.of_nat w mod 16). assert (0 <= d < 16) as Hd by (apply Z.mod_pos_bound; lia).
    rewrite digit_of_hex by done. destruct (Z.ltb_spec d 16); [|lia]. rewrite IH. f_equal.
    rewrite Nat2Z.inj_succ, Z.pow_succ_r by lia. rewrite (Z.mul_comm 16 (16 ^ _)).
    rewrite Z.rem_mul_r by lia. subst d. lia.
Qed.

Lemma scan_prefix_fmt w v rest :
  scan_prefix 16 (S w) (bytes_of_string (fmt_x (S w) v) ++ rest) =
    (S w, bytes_of_string (fmt_x (S w) v) ++ rest).
Proof.
  destruct w as [|w].
  - cbn [fmt_x bytes_of_string app]. unfold scan_prefix. by destruct rest as [|? [|? ?]].
  - cbn [fmt_x bytes_of_string app].
    set (d := v / 16 ^ Z.of_nat w mod 16). assert (0 <= d < 16) as Hd by (apply Z.mod_pos_bound; lia).
    destruct (hex_not_special d _ Hd eq_refl) as (_ & _ & _ & H1 & H2).
    unfold scan_prefix. destruct (_ ++ rest) as [|x s]; [done|].
    apply Z.eqb_neq in H1, H2. rewrite H1, H2. by rewrite andb_false_r.
Qed.

(** Scanning with the width that was printed gives the number back. *)
Lemma scan_fmt_x w v bits rest :
  (0 < w)%nat -> 0 <= v < 16 ^ Z.of_nat w -> v < 2 ^ bits ->
  scan_number 16 w bits (bytes_of_string (fmt_x w v) ++ rest) = Some v.
Proof.
  intros Hw Hv Hb. destruct w as [|w]; [lia|]. unfold scan_number.
  assert (scan_sign (S w) (skip_space (bytes_of_string (fmt_x (S w) v) ++ rest)) =
    (false, S w, bytes_of_string (fmt_x (S w) v) ++ rest)) as ->.
  { cbn [fmt_x bytes_of_string app].
    set (d := v / 16 ^ Z.of_nat w mod 16). assert (0 <= d < 16) as Hd by (apply Z.mod_pos_bound; lia).
    destruct (hex_not_special d _ Hd eq_refl) as (H1 & H2 & H3 & _). cbn [skip_space]. rewrite H1.
    unfold scan_sign. apply Z.eqb_neq in H2, H3. by rewrite H2, H3. }
  rewrite scan_prefix_fmt, scan_digits_fmt by lia.
  rewrite (Z.mod_small v (16 ^ _)) by lia. by rewrite Z.mul_0_l, Z.add_0_l, Z.mod_small by lia.
Qed.

(** ** Decimal numbers *)
Definition is_digit (b : Z) : Prop := 48 <= b <= 57.
Definition dec_value (acc : Z) (l : list Z) : Z := foldl (fun a b => a * 10 + (b - 48)) acc l.

Lemma byte_char_byte b : 0 <= b < 256 -> char_byte (byte_char b) = b.
Proof. intros Hb. unfold char_byte, byte_char. rewrite Ascii.N_ascii_embedding by lia. lia. Qed.

Lemma scan_dec w acc l : Forall is_digit l -> (length l <= w)%nat -> fst (scan_digits 10 w acc l) = dec_value acc l.
Proof.
  revert w acc. induction l as [|b l IH]; intros w acc Hl Hw; [by destruct w|]. inversion_clear Hl as [|? ? Hb Hl']. unfold is_digit in Hb.
  destruct w as [|w]; cbn in *; [lia|]. unfold digit_of. rewrite (proj2 (Z.leb_le 48 b)), (proj2 (Z.leb_le b 57)) by lia. cbn [andb].
  rewrite (proj2 (Z.ltb_lt (b - 48) 10)) by lia. specialize (IH w (acc * 10 + (b - 48)) Hl' ltac:(lia)).
  by destruct (scan_digits 10 w _ l).
Qed.

Lemma fmt_dec_digits n v : 0 <= v -> Forall is_digit (bytes_of_string (fmt_dec n v)).
Proof.
  revert v. induction n as [|n IH]; intros v Hv; [constructor|]. cbn [fmt_dec]. rewrite bytes_of_app. apply Forall_app. split.
  - destruct (v <? 10); [constructor|]. apply IH, Z.div_pos; lia.
  - pose proof (Z.mod_pos_bound v 10 ltac:(lia)). constructor; [|constructor]. unfold is_digit. rewrite byte_char_byte by lia. lia.
Qed.

Lemma fmt_dec_value n v : 0 <= v < 10 ^ Z.of_nat n -> dec_value 0 (bytes_of_string (fmt_dec n v)) = v.
Proof.
  revert v. induction n as [|n IH]; intros v Hv; [cbn in *; lia|]. cbn [fmt_dec]. rewrite bytes_of_app. unfold dec_value. rewrite foldl_app.
  pose proof (Z.mod_pos_bound v 10 ltac:(lia)). cbn. rewrite byte_char_byte by lia. fold (dec_value 0 (bytes_of_string (if v <? 10 then String.EmptyString else fmt_dec n (v / 10)))).
  pose proof (Z.div_mod v 10 ltac:(lia)). destruct (Z.ltb_spec v 10); [cbn; rewrite Z.mod_small; lia|].
  rewrite IH; [lia|]. rewrite Nat2Z.inj_succ, Z.pow_succ_r in Hv by lia. split; [apply Z.div_pos; lia|]. apply Z.div_lt_upper_bound; lia.
Qed.

(** [%s] of a byte string. *)
Lemma string_of_bytes_of s : string_of_bytes (bytes_of_string s) = s.
Proof.
  induction s as [|c s IH]; [done|]. cbn. f_equal; [|exact IH]. unfold byte_char, char_byte. rewrite N2Z.id. apply Ascii.ascii_N_embedding.
Qed.
