(* ===== verification/Parse.v ===== *)
(** * Parse: the parameter parser of the control protocol

    Model of [daemons/common/parse.c]: a command's parameters are "name=value" fields
    separated by commas; a table of specifications says which names to look for, in
    which order, and how to read their values. *)
From stdpp Require Import base sets list strings numbers.
From S2P Require Import Prelude Text.
#[local] Open Scope Z_scope.

Inductive parse_types :=
  | parse_null | parse_u8 | parse_u16 | parse_u16_04x | parse_u32 | parse_u64 | parse_h64
  | parse_c64 | parse_mac.

(** One row of the table; where the value goes is its position in the result. *)
Record parse_param := mkParam { pname : list Z; ptype : parse_types }.

(** A value written through [specs->v]: an integer object or an array of bytes. *)
Inductive parse_value := PInt (v : Z) | PBytes (l : list Z).

Definition PARSE_DELIMITER : Z := 44.

(** [strstr]: what follows the first occurrence of [name], and what precedes its end. *)
Fixpoint strip (name s : list Z) : option (list Z) :=
  match name, s with
  | [], _ => Some s
  | n :: name', b :: s' => if n =? b then strip name' s' else None
  | _ :: _, [] => None
  end.

Fixpoint strstr (name s : list Z) : option (list Z * list Z) :=
  match strip name s with
  | Some data => Some (name, data)
  | None =>
      match s with
      | [] => None
      | b :: s' => match strstr name s' with Some (pre, data) => Some (b :: pre, data) | None => None end
      end
  end.

(** The field up to the next delimiter, and the delimiter with what follows. *)
Fixpoint field (data : list Z) : list Z * list Z :=
  match data with
  | [] => ([], [])
  | b :: data' =>
      if b =? PARSE_DELIMITER then ([], data)
      else let '(f, rest) := field data' in (b :: f, rest)
  end.

(** The conversions of the inner [switch]; [None] when [sscanf] does not return 1. *)
Definition convert (t : parse_types) (data : list Z) : option parse_value :=
  match t with
  | parse_null => None
  | parse_u8 => v ← scan_number 10 (length data) 32 data; Some (PInt (u8 v))
  | parse_u16_04x => v ← scan_number 16 4 32 data; Some (PInt (u16 v))
  | parse_u16 => v ← scan_number 10 (length data) 32 data; Some (PInt (u16 v))
  | parse_u32 => v ← scan_number 10 (length data) 32 data; Some (PInt v)
  | parse_u64 => v ← scan_number 10 (length data) 64 data; Some (PInt v)
  | parse_h64 => v ← scan_number 16 (length data) 64 data; Some (PInt v)
  | parse_c64 => v ← scan_number 16 (length data) 64 data; Some (PBytes (be_bytes 8 v))
  | parse_mac => v ← scan_number 16 (length data) 64 data; Some (PBytes (be_bytes 6 v))
  end.

(** What [parse] leaves behind: the result, [*err_index] if it was written, the values
    written, and the text left in the caller's buffer (the delimiter after a value that
    does not convert stays overwritten by the terminator). *)
Record parse_result := mkParse {
  prc : Z; perr : option Z; pvalues : list parse_value; pleft : list Z }.

(** The loop over the specifications; [seen] is the text before [s]. *)
Fixpoint parse_loop (specs : list parse_param) (seen s : list Z) (count : Z) (acc : list parse_value)
    : parse_result :=
  match specs with
  | [] => mkParse 0 (Some 0) acc (seen ++ s)
  | spec :: specs' =>
      match strstr (pname spec) s with
      | None => mkParse (-1) (Some (count + 1)) acc (seen ++ s)
      | Some (pre, data) =>
          let '(f, rest) := field data in
          match convert (ptype spec) f with
          | None => mkParse (-1) (Some (count + 1)) acc (seen ++ pre ++ f)
          | Some v =>
              match rest with
              | d :: s' => parse_loop specs' (seen ++ pre ++ f ++ [d]) s' (count + 1) (acc ++ [v])
              | [] => parse_loop specs' seen s (count + 1) (acc ++ [v])
              end
          end
      end
  end.

(** The text of a NUL-terminated string inside a buffer. *)
Fixpoint c_string (buf : list Z) : list Z :=
  match buf with [] => [] | b :: buf' => if b =? 0 then [] else b :: c_string buf' end.

(** [s] is the buffer from the first parameter on; its first [len] bytes were received. *)
Definition parse (s : list Z) (len : Z) (specs : list parse_param) : parse_result :=
  if existsb (Z.eqb 0) (take (Z.to_nat len) s)
  then parse_loop specs [] (c_string s) 0 []
  else mkParse (-1) None [] (c_string s).

(** ** The values that are stored fit their fields *)
Definition typed (t : parse_types) (v : parse_value) : Prop :=
  match t, v with
  | parse_u8, PInt x => 0 <= x < 256
  | (parse_u16 | parse_u16_04x), PInt x => 0 <= x < 65536
  | parse_u32, PInt x => 0 <= x < 2 ^ 32
  | (parse_u64 | parse_h64), PInt x => 0 <= x < 2 ^ 64
  | parse_c64, PBytes l => length l = 8%nat /\ Forall is_byte l
  | parse_mac, PBytes l => length l = 6%nat /\ Forall is_byte l
  | _, _ => False
  end.

Lemma scan_number_range base w bits s v : 0 <= bits -> scan_number base w bits s = Some v -> 0 <= v < 2 ^ bits.
Proof.
  intros Hb. unfold scan_number. destruct (scan_sign _ _) as [[neg w1] s1]. destruct (scan_prefix _ _ _) as [w2 s2].
  destruct (scan_digits _ _ _ _) as [x [|k]]; [done|]. intros [= <-]. apply Z.mod_pos_bound. lia.
Qed.

Lemma convert_typed t data v : convert t data = Some v -> typed t v.
Proof.
  destruct t; cbn [convert typed]; [done|..]; intros (x & Hx & E)%bind_Some; simplify_eq; cbn [typed];
    first [apply u8_range | apply u16_range | split; [apply length_be_bytes|apply be_bytes_is_byte] |
           eapply scan_number_range; [|exact Hx]; lia].
Qed.

(** The values stored so far belong to the first rows of the table. *)
Definition all_typed (done : list parse_param) (vs : list parse_value) : Prop := Forall2 (fun s v => typed (ptype s) v) done vs.

Lemma parse_loop_typed specs done seen s count acc :
  all_typed done acc -> exists k, all_typed (done ++ take k specs) (pvalues (parse_loop specs seen s count acc)).
Proof.
  revert done seen s count acc. induction specs as [|spec specs IH]; intros done seen s count acc Ha; cbn [parse_loop].
  { exists O. by rewrite app_nil_r. }
  destruct (strstr _ _) as [[pre data]|]; [|exists O; by rewrite app_nil_r].
  destruct (field data) as [f rest]. destruct (convert _ _) as [v|] eqn:Ec; [|exists O; by rewrite app_nil_r].
  assert (all_typed (done ++ [spec]) (acc ++ [v])) as Hv
    by (apply Forall2_app; [done|]; constructor; [by eapply convert_typed|constructor]).
  destruct rest as [|d s']; edestruct IH as [k Hk]; try exact Hv; exists (S k); rewrite <- app_assoc in Hk; exact Hk.
Qed.

Lemma parse_typed s len specs : exists k, all_typed (take k specs) (pvalues (parse s len specs)).
Proof.
  unfold parse. destruct (existsb _ _); [|exists O; constructor]. apply (parse_loop_typed specs []). constructor.
Qed.

(** The value at a place of the table, if it was stored. *)
Lemma parse_value_typed s len specs i p v :
  specs !! i = Some p -> pvalues (parse s len specs) !! i = Some v -> typed (ptype p) v.
Proof.
  intros Hp Hv. destruct (parse_typed s len specs) as [k Hk]. destruct (Forall2_lookup_r _ _ _ _ _ Hk Hv) as (p' & Hp' & Ht).
  apply lookup_take_Some in Hp' as [Hp' _]. by simplify_eq.
Qed.

(** ** Printing parameters, and reading them back *)

(** A parameter with its value, for the types printed in hexadecimal. *)
Inductive hex_param := HexParam (name : list Z) (t : parse_types) (v : Z).

Definition hex_width (t : parse_types) : nat :=
  match t with parse_u16_04x => 4 | parse_mac => 12 | _ => 16 end.

Definition hex_type (t : parse_types) : Prop :=
  t = parse_u16_04x \/ t = parse_h64 \/ t = parse_c64 \/ t = parse_mac.

Definition hex_spec (p : hex_param) : parse_param := let '(HexParam n t _) := p in mkParam n t.

Definition hex_value (p : hex_param) : parse_value :=
  let '(HexParam _ t v) := p in
  match t with
  | parse_c64 => PBytes (be_bytes 8 v)
  | parse_mac => PBytes (be_bytes 6 v)
  | _ => PInt v
  end.

Definition hex_print (p : hex_param) : list Z :=
  let '(HexParam n t v) := p in n ++ bytes_of_string (fmt_x (hex_width t) v).

Definition hex_ok (p : hex_param) : Prop :=
  let '(HexParam n t v) := p in
  hex_type t /\ 0 <= v < 16 ^ Z.of_nat (hex_width t) /\ Forall (fun b => b <> 0) n.

(** The fields, separated by commas. *)
Fixpoint print_params (ps : list hex_param) : list Z :=
  match ps with
  | [] => []
  | [p] => hex_print p
  | p :: ps' => hex_print p ++ PARSE_DELIMITER :: print_params ps'
  end.

Lemma strip_app n s : strip n (n ++ s) = Some s.
Proof. induction n as [|b n IH]; [done|]. simpl. by rewrite Z.eqb_refl. Qed.

Lemma strstr_prefix n s : strstr n (n ++ s) = Some (n, s).
Proof.
  pose proof (strip_app n s) as H. destruct (n ++ s) eqn:E; simpl; by rewrite H.
Qed.

Lemma hex_bytes w v b : b ∈ bytes_of_string (fmt_x w v) -> b <> PARSE_DELIMITER /\ b <> 0.
Proof.
  induction w as [|w IH]; simpl; [set_solver|]. rewrite elem_of_cons. intros [->|H]; [|by apply IH].
  set (d := v / 16 ^ Z.of_nat w mod 16). assert (0 <= d < 16) as Hd by (apply Z.mod_pos_bound; lia).
  pose proof (digit_of_hex d Hd) as H. split; intros E; rewrite E in H; by vm_compute in H.
Qed.

Lemma field_stop f rest :
  (forall b, b ∈ f -> b <> PARSE_DELIMITER) ->
  field (f ++ rest) = (f, rest) <-> rest = [] \/ head rest = Some PARSE_DELIMITER.
Proof.
  induction f as [|b f IH]; intros Hf; simpl.
  - destruct rest as [|r rest]; simpl; [by split; auto|]. destruct (Z.eqb_spec r PARSE_DELIMITER) as [->|Hr].
    + split; auto.
    + destruct (field rest). split; [congruence|]. intros [?|[= ?]]; done.
  - destruct (Z.eqb_spec b PARSE_DELIMITER) as [->|Hb]; [by destruct (Hf PARSE_DELIMITER); [left|]|].
    rewrite <- IH by (intros; apply Hf; by right). destruct (field (f ++ rest)). split; congruence.
Qed.

Lemma convert_hex p :
  hex_ok p -> let '(HexParam n t v) := p in
  convert t (bytes_of_string (fmt_x (hex_width t) v)) = Some (hex_value p).
Proof.
  destruct p as [n t v]. intros (Ht & Hv & _).
  assert (forall w bits, (0 < w)%nat -> 0 <= v < 16 ^ Z.of_nat w -> v < 2 ^ bits ->
    scan_number 16 w bits (bytes_of_string (fmt_x w v)) = Some v) as Hs.
  { intros w bits H1 H2 H3. rewrite <- (app_nil_r (bytes_of_string _)). by apply scan_fmt_x. }
  destruct Ht as [-> | [-> | [-> | ->]]]; cbn [hex_width] in *; unfold convert;
    rewrite ?length_bytes_of, ?length_fmt_x, Hs by (norm_pow2; simpl in *; lia); simpl; try done.
  rewrite u16_small; [done|]. simpl in Hv. lia.
Qed.

Lemma parse_loop_print ps seen count acc :
  Forall hex_ok ps ->
  parse_loop (hex_spec <$> ps) seen (print_params ps) count acc =
    mkParse 0 (Some 0) (acc ++ (hex_value <$> ps)) (seen ++ print_params ps).
Proof.
  intros Hps. revert seen count acc.
  induction ps as [|[n t v] ps IH]; intros seen count acc.
  - simpl. by rewrite !app_nil_r.
  - apply Forall_cons_iff in Hps as [Hp Hps]. specialize (IH Hps). pose proof (convert_hex _ Hp) as Hc.
    assert (forall b, b ∈ bytes_of_string (fmt_x (hex_width t) v) -> b <> PARSE_DELIMITER) as Hb
      by (intros b Hb; by apply hex_bytes in Hb as [? _]).
    destruct ps as [|p ps].
    + cbn [print_params hex_print fmap list_fmap hex_spec parse_loop pname ptype].
      pose proof (proj2 (field_stop _ [] Hb) (or_introl eq_refl)) as Hf. rewrite app_nil_r in Hf.
      by rewrite strstr_prefix, Hf, Hc.
    + change (print_params (HexParam n t v :: p :: ps)) with
        ((n ++ bytes_of_string (fmt_x (hex_width t) v)) ++ PARSE_DELIMITER :: print_params (p :: ps)).
      rewrite <- app_assoc. set (tail := PARSE_DELIMITER :: print_params (p :: ps)).
      change (hex_spec <$> HexParam n t v :: p :: ps) with (mkParam n t :: (hex_spec <$> p :: ps)).
      cbn [parse_loop pname ptype]. rewrite strstr_prefix.
      rewrite (proj2 (field_stop _ tail Hb)) by (right; done). rewrite Hc. subst tail.
      cbv iota beta. rewrite IH. f_equal; [by rewrite <- app_assoc|]. by rewrite <- !app_assoc.
Qed.

Lemma c_string_full s : Forall (fun b => b <> 0) s -> c_string s = s.
Proof. induction 1 as [|b s Hb _ IH]; [done|]. cbn. apply Z.eqb_neq in Hb. by rewrite Hb, IH. Qed.

Lemma c_string_app s rest : Forall (fun b => b <> 0) s -> c_string (s ++ 0 :: rest) = s.
Proof.
  induction 1 as [|b s Hb Hs IH]; [done|]. simpl. destruct (Z.eqb_spec b 0); [done|]. by rewrite IH.
Qed.

Lemma print_params_nonzero ps : Forall hex_ok ps -> Forall (fun b => b <> 0) (print_params ps).
Proof.
  induction 1 as [|[n t v] ps Hp Hps IH]; [constructor|].
  assert (Forall (fun b => b <> 0) (hex_print (HexParam n t v))) as H1.
  { cbn [hex_print]. apply Forall_app. split; [apply Hp|]. apply list.Forall_forall. intros b Hb.
    by apply hex_bytes in Hb as [_ ?]. }
  destruct ps as [|p ps]; [exact H1|]. cbn [print_params]. apply Forall_app. split; [done|].
  constructor; [done|exact IH].
Qed.

(** Parameters survive the wire: when every parameter of a command is printed as
    name and fixed-width hexadecimal value and separated by commas, and the terminator
    was received, [parse] succeeds, reports no error index, stores exactly the values
    printed (as integers, or as the big-endian bytes of a stream id or MAC address), and
    leaves the caller's text as it was. *)
Theorem parse_print ps rest len :
  Forall hex_ok ps -> Z.of_nat (length (print_params ps)) < len ->
  parse (print_params ps ++ 0 :: rest) len (hex_spec <$> ps) =
    mkParse 0 (Some 0) (hex_value <$> ps) (print_params ps).
Proof.
  intros Hps Hlen. unfold parse. rewrite c_string_app by (by apply print_params_nonzero).
  replace (existsb _ _) with true; [by rewrite parse_loop_print|].
  symmetry. apply existsb_exists. exists 0. split; [|done].
  rewrite take_app_ge by lia. apply in_or_app. right.
  destruct (Z.to_nat len - length (print_params ps))%nat as [|k] eqn:E; [lia|]. simpl. by left.
Qed.

(** "I=0002" *)
Lemma parse_print_witness :
  parse (bytes_of_string "I=0002" ++ 0 :: []) 7 [mkParam (bytes_of_string "I=") parse_u16_04x] =
    mkParse 0 (Some 0) [PInt 2] (bytes_of_string "I=0002").
Proof.
  apply (parse_print [HexParam (bytes_of_string "I=") parse_u16_04x 2] [] 7).
  - constructor; [|constructor]. split; [by left|]. split; [vm_compute; split; congruence|].
    repeat constructor; vm_compute; congruence.
  - vm_compute. reflexivity.
Defined.
