(* ===== verification/MaapParse.v ===== *)
(** * MaapParse: the commands of the MAAP daemon

    Model of [daemons/maap/common/maap_parse.c]: a command is a binary [Maap_Cmd] or a line
    of text, which is told by the first four bytes of the buffer.  The layout of
    [Maap_Cmd] is that of a little-endian machine with 64-bit pointers. *)
From stdpp Require Import base gmap strings numbers list.
From S2P Require Import Prelude Text Parse Maap.
#[local] Open Scope Z_scope.
#[local] Open Scope st_scope.

(** ** [strtok] and [strtoull] *)

(** The delimiters: space, carriage return and line feed. *)
Definition is_delim (b : Z) : bool := (b =? 32) || (b =? 13) || (b =? 10).

(** The tokens of a string; [cur] is the one being read. *)
Fixpoint strtok_loop (cur s : list Z) : list (list Z) :=
  let emit := match cur with [] => [] | _ => [cur] end in
  match s with
  | [] => emit
  | b :: s' => if is_delim b then emit ++ strtok_loop [] s' else strtok_loop (cur ++ [b]) s'
  end.
Definition strtok (s : list Z) : list (list Z) := strtok_loop [] s.

(** The base that the prefix of a number gives, and the digits. *)
Definition number_base (base : Z) (s : list Z) : Z * list Z :=
  let hex := match s with
    | z :: x :: d :: s' =>
        if (z =? 48) && ((x =? 120) || (x =? 88)) && bool_decide (is_Some (digit_of d)) then Some (d :: s') else None
    | _ => None
    end in
  if base =? 16 then (16, default s hex)
  else if base =? 0 then
    match hex with
    | Some s' => (16, s')
    | None => match s with z :: _ => (if z =? 48 then 8 else 10, s) | [] => (10, s) end
    end
  else (base, s).

(** [strtoull], and [strtoul] where [long] has 64 bits. *)
Definition strtoull (s : list Z) (base : Z) : Z :=
  let '(neg, _, s1) := scan_sign (length s) (skip_space s) in
  let '(b, s2) := number_base base s1 in
  let v := fst (scan_digits b (length s2) 0 s2) in
  if 2 ^ 64 <=? v then 2 ^ 64 - 1 else if neg : bool then u64 (- v) else v.

(** ** Commands *)
Inductive Maap_Cmd_Tag :=
  | MAAP_CMD_INIT | MAAP_CMD_RESERVE | MAAP_CMD_RELEASE | MAAP_CMD_STATUS | MAAP_CMD_YIELD | MAAP_CMD_EXIT.

Record Maap_Cmd := mkMaapCmd {
  cmd_kind : Maap_Cmd_Tag;
  cmd_id : Z;
  cmd_start : Z;
  cmd_count : Z }.

#[global] Instance Maap_Cmd_Tag_eq_dec : EqDecision Maap_Cmd_Tag.
Proof. solve_decision. Defined.
#[global] Instance Maap_Cmd_eq_dec : EqDecision Maap_Cmd.
Proof. solve_decision. Defined.

Definition tag_of (v : Z) : option Maap_Cmd_Tag :=
  match v with
  | 1 => Some MAAP_CMD_INIT | 2 => Some MAAP_CMD_RESERVE | 3 => Some MAAP_CMD_RELEASE
  | 4 => Some MAAP_CMD_STATUS | 5 => Some MAAP_CMD_YIELD | 6 => Some MAAP_CMD_EXIT
  | _ => None
  end.

Definition MAAP_DYNAMIC_POOL_BASE : Z := 0x91E0F0000000.
Definition MAAP_DYNAMIC_POOL_SIZE : Z := 0xFE00.

(** [strncmp(arg, word, n) == 0]: a prefix of [n] bytes, or all of a shorter word. *)
Definition word_starts (arg : list Z) (word : string) : bool :=
  bool_decide (take (String.length word) arg = bytes_of_string word).
Definition word_is (arg : list Z) (word : string) : bool := bool_decide (arg = bytes_of_string word).

Definition parse_text_cmd (buf : list Z) : option Maap_Cmd :=
  match take 5 (strtok (c_string buf)) with
  | [] => None
  | arg0 :: args =>
      if (3 <? length (arg0 :: args))%nat then None
      else if word_starts arg0 "init" then
        match args with
        | [] => Some (mkMaapCmd MAAP_CMD_INIT (-1) MAAP_DYNAMIC_POOL_BASE MAAP_DYNAMIC_POOL_SIZE)
        | [a; n] => Some (mkMaapCmd MAAP_CMD_INIT (-1) (strtoull a 16) (u32 (strtoull n 0)))
        | _ => None
        end
      else if word_starts arg0 "reserve" then
        match args with
        | [n] => Some (mkMaapCmd MAAP_CMD_RESERVE (-1) 0 (u32 (strtoull n 0)))
        | [a; n] => Some (mkMaapCmd MAAP_CMD_RESERVE (-1) (strtoull a 16) (u32 (strtoull n 0)))
        | _ => None
        end
      else
        match args with
        | [n] =>
            if word_starts arg0 "release" then Some (mkMaapCmd MAAP_CMD_RELEASE (i32 (strtoull n 0)) 0 0)
            else if word_is arg0 "status" then Some (mkMaapCmd MAAP_CMD_STATUS (i32 (strtoull n 0)) 0 0)
            else if word_is arg0 "yield" then Some (mkMaapCmd MAAP_CMD_YIELD (i32 (strtoull n 0)) 0 0)
            else None
        | [] => if word_starts arg0 "exit" then Some (mkMaapCmd MAAP_CMD_EXIT (-1) 0 0) else None
        | _ => None
        end
  end.

(** The fields of the buffer taken as a [Maap_Cmd]. *)
Definition le_value (l : list Z) : Z := foldr (fun b n => b + 256 * n) 0 l.
Definition le_field (buf : list Z) (pos len : nat) : Z := le_value (take len (drop pos buf)).
Definition MAAP_CMD_SIZE : nat := 24.

Definition binary_cmd (buf : list Z) : option Maap_Cmd :=
  match tag_of (le_field buf 0 4) with
  | Some k => Some (mkMaapCmd k (i32 (le_field buf 4 4)) (le_field buf 8 8) (le_field buf 16 4))
  | None => None
  end.

(** The command of a buffer, and whether it is text. *)
Definition read_cmd (buf : list Z) : option Maap_Cmd * bool :=
  match binary_cmd buf with
  | Some cmd => (Some cmd, false)
  | None => (parse_text_cmd buf, true)
  end.

Section write.
Context {env : Environment}.

(** 1 to exit, -1 for what is no command, and whether it was text. *)
Definition run_cmd (sndr : Z) (cmd : Maap_Cmd) : stM World Z :=
  match cmd_kind cmd with
  | MAAP_CMD_INIT => maap_init_client sndr (cmd_start cmd) (cmd_count cmd) ;! st_ret 0
  | MAAP_CMD_RESERVE => maap_reserve_range sndr (cmd_start cmd) (cmd_count cmd) ;! st_ret 0
  | MAAP_CMD_RELEASE => maap_release_range sndr (cmd_id cmd) ;! st_ret 0
  | MAAP_CMD_STATUS => maap_range_status sndr (cmd_id cmd) ;! st_ret 0
  | MAAP_CMD_YIELD => maap_yield_range sndr (cmd_id cmd) ;! st_ret 0
  | MAAP_CMD_EXIT => st_ret 1
  end.

Definition parse_write (sndr : Z) (buf : list Z) : stM World (Z * bool) :=
  if (length buf <? MAAP_CMD_SIZE)%nat then st_lift (Fault OutOfBounds)
  else
    match read_cmd buf with
    | (Some cmd, text) => let! ret := run_cmd sndr cmd in st_ret (ret, text)
    | (None, text) => st_ret (-1, text)
    end.

End write.

(** ** Reading commands back *)

(** A command as a user writes it. *)
Definition hex_text (v : Z) : string := "0x" +:+ fmt_x 12 v.
Definition cmd_text (c : Maap_Cmd) : string :=
  match cmd_kind c with
  | MAAP_CMD_INIT => "init " +:+ hex_text (cmd_start c) +:+ " " +:+ fmt_dec 10 (cmd_count c)
  | MAAP_CMD_RESERVE =>
      if cmd_start c =? 0 then "reserve " +:+ fmt_dec 10 (cmd_count c)
      else "reserve " +:+ hex_text (cmd_start c) +:+ " " +:+ fmt_dec 10 (cmd_count c)
  | MAAP_CMD_RELEASE => "release " +:+ fmt_dec 10 (cmd_id c)
  | MAAP_CMD_STATUS => "status " +:+ fmt_dec 10 (cmd_id c)
  | MAAP_CMD_YIELD => "yield " +:+ fmt_dec 10 (cmd_id c)
  | MAAP_CMD_EXIT => "exit"
  end.

(** The fields a kind does not use have their default values. *)
Definition cmd_ok (c : Maap_Cmd) : Prop :=
  match cmd_kind c with
  | MAAP_CMD_INIT | MAAP_CMD_RESERVE => cmd_id c = -1 /\ 0 <= cmd_start c < 2 ^ 48 /\ 0 <= cmd_count c < 2 ^ 32
  | MAAP_CMD_RELEASE | MAAP_CMD_STATUS | MAAP_CMD_YIELD => 0 <= cmd_id c < 2 ^ 31 /\ cmd_start c = 0 /\ cmd_count c = 0
  | MAAP_CMD_EXIT => cmd_id c = -1 /\ cmd_start c = 0 /\ cmd_count c = 0
  end.

(** A word of a command: not empty, and without delimiters and zeros. *)
Definition cmd_word (l : list Z) : Prop := l <> [] /\ Forall (fun b => is_delim b = false /\ b <> 0) l.

Lemma strtok_word cur l : Forall (fun b => is_delim b = false /\ b <> 0) l -> strtok_loop cur l = match cur ++ l with [] => [] | t => [t] end.
Proof.
  intros Hl. revert cur. induction Hl as [|b l [Hb _] _ IH]; intros cur; cbn; [rewrite app_nil_r; by destruct cur|].
  rewrite Hb, IH, <- app_assoc. done.
Qed.

Lemma strtok_cons cur l rest : Forall (fun b => is_delim b = false /\ b <> 0) l -> cur ++ l <> [] ->
  strtok_loop cur (l ++ 32 :: rest) = (cur ++ l) :: strtok rest.
Proof.
  intros Hl. revert cur. induction Hl as [|b l [Hb _] _ IH]; intros cur Hne; cbn.
  - rewrite app_nil_r in *. by destruct cur.
  - rewrite Hb, IH by (by destruct cur). by rewrite <- app_assoc.
Qed.

(** The words of a line. *)
Fixpoint join_words (ws : list (list Z)) : list Z :=
  match ws with [] => [] | [w] => w | w :: ws' => w ++ 32 :: join_words ws' end.

Lemma strtok_join ws : Forall cmd_word ws -> strtok (join_words ws) = ws.
Proof.
  induction 1 as [|w ws [Hne Hw] _ IH]; [done|]. destruct ws as [|w' ws].
  - cbn. unfold strtok. rewrite strtok_word by done. by destruct w.
  - change (join_words (w :: w' :: ws)) with (w ++ 32 :: join_words (w' :: ws)). unfold strtok at 1. rewrite strtok_cons by done. by rewrite IH.
Qed.

Lemma join_nonzero ws : Forall cmd_word ws -> Forall (fun b => b <> 0) (join_words ws).
Proof.
  assert (forall w, cmd_word w -> Forall (fun b => b <> 0) w) as Hw.
  { intros w [_ H]. eapply Forall_impl; [exact H|]. cbn. tauto. }
  induction 1 as [|w ws H _ IH]; [constructor|]. destruct ws as [|w' ws]; [by apply Hw|].
  change (join_words (w :: w' :: ws)) with (w ++ 32 :: join_words (w' :: ws)). apply Forall_app. split; [by apply Hw|]. by constructor.
Qed.

(** *** Numbers *)
Lemma digits_cmd_word l : l <> [] -> Forall is_digit l -> cmd_word l.
Proof.
  intros Hne Hl. split; [done|]. eapply Forall_impl; [exact Hl|]. intros b Hb. unfold is_digit in Hb. unfold is_delim.
  destruct (Z.eqb_spec b 32), (Z.eqb_spec b 13), (Z.eqb_spec b 10); lia || done.
Qed.

Lemma fmt_dec_nonempty n v : bytes_of_string (fmt_dec (S n) v) <> [].
Proof. cbn [fmt_dec]. rewrite bytes_of_app. intros [_ H]%app_eq_nil. done. Qed.

Lemma skip_digit b l : is_digit b -> skip_space (b :: l) = b :: l /\ scan_sign (length (b :: l)) (b :: l) = (false, length (b :: l), b :: l).
Proof.
  unfold is_digit. intros Hb. cbn [skip_space scan_sign]. unfold is_space.
  destruct (Z.eqb_spec b 32), (Z.leb_spec b 13), (Z.eqb_spec b 45), (Z.eqb_spec b 43); try lia. rewrite andb_false_r. done.
Qed.

Lemma fmt_dec_head n v : 0 < v < 10 ^ Z.of_nat n -> exists b l, bytes_of_string (fmt_dec n v) = b :: l /\ b <> 48.
Proof.
  revert v. induction n as [|n IH]; intros v Hv; [cbn in Hv; lia|]. cbn [fmt_dec]. rewrite bytes_of_app. destruct (Z.ltb_spec v 10).
  - eexists _, _. split; [done|]. rewrite byte_char_byte; rewrite Z.mod_small; lia.
  - rewrite Nat2Z.inj_succ, Z.pow_succ_r in Hv by lia. destruct (IH (v / 10)) as (b & l & -> & Hb).
    + split; [apply Z.div_str_pos; lia|apply Z.div_lt_upper_bound; lia].
    + by exists b, (l ++ bytes_of_string (String.String (byte_char (48 + v mod 10)) String.EmptyString)).
Qed.

Lemma strtoull_dec v : 0 <= v < 10 ^ 10 -> strtoull (bytes_of_string (fmt_dec 10 v)) 0 = v.
Proof.
  intros Hv. destruct (Z.eq_dec v 0) as [->|Hne]; [done|]. pose proof (fmt_dec_digits 10 v ltac:(lia)) as Hd.
  pose proof (fmt_dec_value 10 v Hv) as Hval. destruct (fmt_dec_head 10 v) as (b & l & E & Hb); [cbn in *; lia|]. rewrite E in *.
  pose proof Hd as Hd0. apply Forall_cons in Hd0 as [Hb0 _]. unfold strtoull. destruct (skip_digit b l Hb0) as [-> ->].
  assert (number_base 0 (b :: l) = (10, b :: l)) as ->.
  { unfold number_base. apply Z.eqb_neq in Hb. rewrite Hb. by destruct l as [|? [|? ?]]. }
  rewrite scan_dec by done. rewrite Hval. destruct (Z.leb_spec (2 ^ 64) v); [lia|done].
Qed.

Lemma hex_text_bytes v : bytes_of_string (hex_text v) = 48 :: 120 :: bytes_of_string (fmt_x 12 v).
Proof. unfold hex_text. by rewrite bytes_of_app. Qed.

Lemma strtoull_hex v : 0 <= v < 2 ^ 48 -> strtoull (bytes_of_string (hex_text v)) 16 = v.
Proof.
  intros Hv. rewrite hex_text_bytes. set (h := bytes_of_string (fmt_x 12 v)).
  assert (exists d t, h = d :: t /\ is_Some (digit_of d)) as (d & t & E & Hd).
  { subst h. cbn [fmt_x bytes_of_string]. eexists _, _. split; [done|]. eexists. apply digit_of_hex, Z.mod_pos_bound. lia. }
  unfold strtoull. destruct (skip_digit 48 (120 :: h)) as [-> ->]; [done|].
  assert (number_base 16 (48 :: 120 :: h) = (16, h)) as ->.
  { rewrite E. unfold number_base. rewrite bool_decide_eq_true_2 by done. done. }
  assert (length h = 12%nat) as -> by (subst h; by rewrite length_bytes_of, length_fmt_x). subst h.
  rewrite <- (app_nil_r (bytes_of_string _)), scan_digits_fmt by lia. change (16 ^ Z.of_nat 12) with (2 ^ 48). cbn [fst].
  rewrite Z.mod_small by lia. destruct (Z.leb_spec (2 ^ 64) (0 * 2 ^ 48 + v)); lia.
Qed.

Lemma hex_cmd_word v : cmd_word (bytes_of_string (hex_text v)).
Proof.
  rewrite hex_text_bytes. split; [done|]. do 2 (constructor; [done|]). generalize 12%nat. intros w.
  induction w as [|w IH]; [constructor|]. cbn [fmt_x bytes_of_string]. constructor; [|exact IH].
  set (d := v / 16 ^ Z.of_nat w mod 16). assert (0 <= d < 16) as Hd by (apply Z.mod_pos_bound; lia).
  assert (d = 0 \/ d = 1 \/ d = 2 \/ d = 3 \/ d = 4 \/ d = 5 \/ d = 6 \/ d = 7 \/ d = 8 \/
    d = 9 \/ d = 10 \/ d = 11 \/ d = 12 \/ d = 13 \/ d = 14 \/ d = 15) as Hc by lia. clearbody d.
  by repeat (destruct Hc as [-> | Hc]; [split; [reflexivity|done]|]); subst.
Qed.

Lemma dec_cmd_word v : 0 <= v -> cmd_word (bytes_of_string (fmt_dec 10 v)).
Proof. intros Hv. apply digits_cmd_word; [apply fmt_dec_nonempty|by apply fmt_dec_digits]. Qed.

(** *** Lines *)

(** The words of a command's text. *)
Definition cmd_words (c : Maap_Cmd) : list (list Z) :=
  let count := bytes_of_string (fmt_dec 10 (cmd_count c)) in
  let ident := bytes_of_string (fmt_dec 10 (cmd_id c)) in
  let start := bytes_of_string (hex_text (cmd_start c)) in
  match cmd_kind c with
  | MAAP_CMD_INIT => [bytes_of_string "init"; start; count]
  | MAAP_CMD_RESERVE => bytes_of_string "reserve" :: (if cmd_start c =? 0 then [count] else [start; count])
  | MAAP_CMD_RELEASE => [bytes_of_string "release"; ident]
  | MAAP_CMD_STATUS => [bytes_of_string "status"; ident]
  | MAAP_CMD_YIELD => [bytes_of_string "yield"; ident]
  | MAAP_CMD_EXIT => [bytes_of_string "exit"]
  end.

Lemma cmd_text_words c : bytes_of_string (cmd_text c) = join_words (cmd_words c).
Proof.
  unfold cmd_text, cmd_words. destruct (cmd_kind c); try (destruct (cmd_start c =? 0)); rewrite ?bytes_of_app, <- ?app_assoc; done.
Qed.

Lemma name_cmd_word s : s ∈ ["init"; "reserve"; "release"; "status"; "yield"; "exit"] -> cmd_word (bytes_of_string s).
Proof.
  intros Hs. repeat (apply elem_of_cons in Hs as [->|Hs]; [split; [done|]; repeat (constructor; [done|]); constructor|]).
  by apply elem_of_nil in Hs.
Qed.

Lemma cmd_words_ok c : cmd_ok c -> Forall cmd_word (cmd_words c).
Proof.
  unfold cmd_ok, cmd_words. destruct (cmd_kind c); intros H; try (destruct (cmd_start c =? 0));
    repeat (constructor; [first [apply name_cmd_word; set_solver|apply hex_cmd_word|apply dec_cmd_word; lia]|]); constructor.
Qed.

Lemma parse_words c rest : cmd_ok c -> strtok (c_string (bytes_of_string (cmd_text c) ++ 0 :: rest)) = cmd_words c.
Proof.
  intros Hc%cmd_words_ok. rewrite cmd_text_words. rewrite c_string_app by (by apply join_nonzero). by apply strtok_join.
Qed.

(** Text begins with two bytes that are not zero, and is not taken for a binary command. *)
Lemma text_not_binary a b rest : is_byte a -> 1 <= b < 256 -> (2 <= length rest)%nat -> Forall is_byte rest -> binary_cmd (a :: b :: rest) = None.
Proof.
  intros Ha Hb Hl Hr. destruct rest as [|c [|d rest]]; cbn in Hl; try lia. unfold binary_cmd, le_field. cbn [drop take le_value foldr].
  apply Forall_cons in Hr as [Hc Hr]. apply Forall_cons in Hr as [Hd _]. unfold is_byte in *.
  assert (256 <= a + 256 * (b + 256 * (c + 256 * (d + 256 * 0)))) as Hv by lia. set (v := a + _) in *. clearbody v.
  destruct v as [|p|p]; try lia. by do 3 (destruct p as [p|p|]; try lia; try done).
Qed.

Lemma byte_of_char c : is_byte (char_byte c).
Proof. unfold is_byte, char_byte. pose proof (Ascii.N_ascii_bounded c). lia. Qed.
Lemma bytes_of_string_bytes s : Forall is_byte (bytes_of_string s).
Proof. induction s; cbn; constructor; [apply byte_of_char|done]. Qed.

Lemma cmd_text_head c : exists a b rest, bytes_of_string (cmd_text c) = a :: b :: rest /\ is_byte a /\ 1 <= b < 256 /\ (2 <= length rest)%nat /\ Forall is_byte rest.
Proof.
  assert (exists a b rest, bytes_of_string (cmd_text c) = a :: b :: rest /\ 1 <= b < 256 /\ (2 <= length rest)%nat) as (a & b & rest & E & Hb & Hl).
  { rewrite cmd_text_words. unfold cmd_words. destruct (cmd_kind c); try (destruct (cmd_start c =? 0)); cbn [join_words bytes_of_string app];
      (eexists _, _, _; split; [reflexivity|split; [vm_compute; split; congruence|cbn; lia]]). }
  pose proof (bytes_of_string_bytes (cmd_text c)) as Hf. rewrite E in Hf. apply Forall_cons in Hf as [Ha Hf]. apply Forall_cons in Hf as [_ Hf].
  by exists a, b, rest.
Qed.

Lemma maap_text_read c rest : cmd_ok c -> Forall is_byte rest ->
  read_cmd (bytes_of_string (cmd_text c) ++ 0 :: rest) = (Some c, true).
Proof.
  intros Hc Hr. unfold read_cmd.
  assert (binary_cmd (bytes_of_string (cmd_text c) ++ 0 :: rest) = None) as ->.
  { destruct (cmd_text_head c) as (a & b & l & -> & Ha & Hb & Hl & Hf). apply text_not_binary; [done..| |].
    - rewrite length_app. lia.
    - apply Forall_app. by split; [|constructor]. }
  f_equal. unfold parse_text_cmd. rewrite parse_words by done. unfold cmd_words, cmd_ok in *. destruct c as [k i st n]. cbn [cmd_kind cmd_id cmd_start cmd_count] in *.
  destruct k; [|destruct (Z.eqb_spec st 0)|..]; cbn -[strtoull fmt_dec hex_text].
  - rewrite strtoull_hex, strtoull_dec by lia. rewrite u32_small by lia. by destruct Hc as [-> _].
  - rewrite strtoull_dec by lia. rewrite u32_small by lia. subst. by destruct Hc as [-> _].
  - rewrite strtoull_hex, strtoull_dec by lia. rewrite u32_small by lia. by destruct Hc as [-> _].
  - rewrite strtoull_dec, i32_small by lia. by destruct Hc as (_ & -> & ->).
  - rewrite strtoull_dec, i32_small by lia. by destruct Hc as (_ & -> & ->).
  - rewrite strtoull_dec, i32_small by lia. by destruct Hc as (_ & -> & ->).
  - by destruct Hc as (-> & -> & ->).
Qed.

(** C33. A command is read back from the text a user writes for it, whatever follows in the
    buffer, and is not taken for a binary one. *)
Theorem maap_text_roundtrip c rest : cmd_ok c -> Forall is_byte rest ->
  read_cmd (bytes_of_string (cmd_text c) ++ 0 :: rest) = (Some c, true).
Proof. apply maap_text_read. Qed.

Definition sample_cmd : Maap_Cmd := mkMaapCmd MAAP_CMD_RESERVE (-1) 0x91E0F0000100 16.
Lemma maap_text_roundtrip_witness :
  cmd_text sample_cmd = "reserve 0x91e0f0000100 16" /\
  read_cmd (bytes_of_string (cmd_text sample_cmd) ++ 0 :: [1; 2]) = (Some sample_cmd, true).
Proof.
  split; [vm_compute; reflexivity|]. apply (maap_text_roundtrip sample_cmd [1; 2]).
  - unfold cmd_ok. cbn. lia.
  - repeat constructor; unfold is_byte; lia.
Defined.

(** *** Binary commands *)
Fixpoint le_bytes (n : nat) (v : Z) : list Z :=
  match n with O => [] | S n' => v mod 256 :: le_bytes n' (v / 256) end.

Definition tag_code (k : Maap_Cmd_Tag) : Z :=
  match k with
  | MAAP_CMD_INIT => 1 | MAAP_CMD_RESERVE => 2 | MAAP_CMD_RELEASE => 3
  | MAAP_CMD_STATUS => 4 | MAAP_CMD_YIELD => 5 | MAAP_CMD_EXIT => 6
  end.

(** What a client sends: [sizeof(Maap_Cmd)] bytes, the last four of them padding. *)
Definition cmd_bytes (pad : list Z) (c : Maap_Cmd) : list Z :=
  le_bytes 4 (tag_code (cmd_kind c)) ++ le_bytes 4 (u32 (cmd_id c)) ++ le_bytes 8 (cmd_start c) ++ le_bytes 4 (cmd_count c) ++ pad.

Lemma length_le_bytes n v : length (le_bytes n v) = n.
Proof. revert v. induction n; cbn; intros; f_equal; auto. Qed.

Lemma le_value_bytes n v : 0 <= v < 256 ^ Z.of_nat n -> le_value (le_bytes n v) = v.
Proof.
  revert v. induction n as [|n IH]; intros v Hv; [cbn in *; lia|]. cbn [le_bytes le_value foldr]. fold (le_value (le_bytes n (v / 256))).
  rewrite Nat2Z.inj_succ, Z.pow_succ_r in Hv by lia. rewrite IH.
  - pose proof (Z.div_mod v 256 ltac:(lia)). lia.
  - split; [apply Z.div_pos; lia|apply Z.div_lt_upper_bound; lia].
Qed.

Lemma le_field_bytes l1 n v l2 pos : pos = length l1 -> 0 <= v < 256 ^ Z.of_nat n -> le_field (l1 ++ le_bytes n v ++ l2) pos n = v.
Proof.
  intros -> Hv. unfold le_field. rewrite drop_app_length. rewrite take_app_le by (by rewrite length_le_bytes).
  rewrite take_ge by (by rewrite length_le_bytes). by apply le_value_bytes.
Qed.

(** A binary command is read back from its bytes. *)
Lemma maap_binary_roundtrip pad c :
  - 2 ^ 31 <= cmd_id c < 2 ^ 31 -> 0 <= cmd_start c < 2 ^ 64 -> 0 <= cmd_count c < 2 ^ 32 ->
  read_cmd (cmd_bytes pad c) = (Some c, false).
Proof.
  intros Hi Hs Hn. unfold read_cmd, binary_cmd.
  assert (0 <= u32 (cmd_id c) < 2 ^ 32) as Hu by (unfold u32; apply Z.mod_pos_bound; lia).
  assert (le_field (cmd_bytes pad c) 0 4 = tag_code (cmd_kind c)) as -> by (apply (le_field_bytes [] 4); [done|by destruct (cmd_kind c)]).
  assert (tag_of (tag_code (cmd_kind c)) = Some (cmd_kind c)) as -> by (by destruct (cmd_kind c)).
  assert (le_field (cmd_bytes pad c) 4 4 = u32 (cmd_id c)) as -> by (by apply (le_field_bytes (le_bytes 4 _) 4)).
  assert (le_field (cmd_bytes pad c) 8 8 = cmd_start c) as ->
    by (unfold cmd_bytes; rewrite app_assoc; by apply (le_field_bytes (le_bytes 4 _ ++ le_bytes 4 _) 8)).
  assert (le_field (cmd_bytes pad c) 16 4 = cmd_count c) as ->
    by (unfold cmd_bytes; rewrite !app_assoc, <- (app_assoc _ _ pad); by apply (le_field_bytes ((le_bytes 4 _ ++ le_bytes 4 _) ++ le_bytes 8 _) 4)).
  replace (i32 (u32 (cmd_id c))) with (cmd_id c); [by destruct c|]. symmetry. unfold i32, u32, U32.
  rewrite Zplus_mod_idemp_l, Z.mod_small; lia.
Qed.

(** ** The client program

    [act_as_client] reads a line from the terminal as the daemon does and sends the command
    in its binary form; [pad] is what the padding of the structure holds. *)
Definition client_line (pad buf : list Z) : option (list Z) :=
  match read_cmd buf with (Some cmd, _) => Some (cmd_bytes pad cmd) | (None, _) => None end.

(** A command typed into the client program arrives at the daemon as it was meant. *)
Theorem client_line_arrives pad c rest : cmd_ok c -> Forall is_byte rest ->
  exists sent, client_line pad (bytes_of_string (cmd_text c) ++ 0 :: rest) = Some sent /\ read_cmd sent = (Some c, false).
Proof.
  intros Hc Hr. unfold client_line. rewrite maap_text_read by done. eexists. split; [done|]. apply maap_binary_roundtrip.
  all: unfold cmd_ok in Hc; destruct (cmd_kind c); lia.
Qed.

Lemma client_line_arrives_witness :
  exists sent, client_line [0; 0; 0; 0] (bytes_of_string (cmd_text sample_cmd) ++ 0 :: [1; 2]) = Some sent /\ read_cmd sent = (Some sample_cmd, false).
Proof.
  apply (client_line_arrives [0; 0; 0; 0] sample_cmd [1; 2]).
  - unfold cmd_ok. cbn. lia.
  - repeat constructor; unfold is_byte; lia.
Defined.
