(* ===== verification/MaapText.v ===== *)
(** * MaapText: what the MAAP daemon tells its users

    [print_notify] of [daemons/maap/common/maap.c], [parse_usage] of [maap_parse.c] and the
    line breaking of [format_print_notify_result] in [linux/src/maap_daemon.c].  A text is
    printed in a [szOutput] of 300 bytes, broken into lines in another of the same size. *)
From stdpp Require Import base gmap strings numbers list.
From S2P Require Import Prelude Text Parse Maap MaapParse.
#[local] Open Scope Z_scope.

Inductive log_level := LEVEL_ERROR | LEVEL_WARNING | LEVEL_INFO.

(** [%012llx] of an [unsigned long long]. *)
Definition fmt_llx (v : Z) : string :=
  let u := u64 v in
  if u <? 2 ^ 48 then fmt_x 12 u else if u <? 2 ^ 52 then fmt_x 13 u else if u <? 2 ^ 56 then fmt_x 14 u
  else if u <? 2 ^ 60 then fmt_x 15 u else fmt_x 16 u.

(** ["0x%012llx-0x%012llx"] of the first and the last address. *)
Definition block_text (n : Maap_Notify) : string :=
  "0x" +:+ fmt_llx (note_start n) +:+ "-0x" +:+ fmt_llx (note_start n + note_count n - 1).

(** The text of an error, [None] for none. *)
Definition error_text (e : Maap_Notify_Error) : option string :=
  match e with
  | MAAP_NOTIFY_ERROR_NONE => None
  | MAAP_NOTIFY_ERROR_REQUIRES_INITIALIZATION => Some "MAAP is not initialized, so the command cannot be performed."
  | MAAP_NOTIFY_ERROR_ALREADY_INITIALIZED => Some "MAAP is already initialized, so the values cannot be changed."
  | MAAP_NOTIFY_ERROR_RESERVE_NOT_AVAILABLE =>
      Some ("The MAAP reservation is not available, or yield cannot allocate a replacement block. " +:+
            "Try again with a smaller address block size.")
  | MAAP_NOTIFY_ERROR_RELEASE_INVALID_ID =>
      Some "The MAAP reservation ID is not valid, so cannot be released or report its status."
  | MAAP_NOTIFY_ERROR_OUT_OF_MEMORY => Some "The MAAP application is out of memory."
  | MAAP_NOTIFY_ERROR_INTERNAL => Some "The MAAP application experienced an internal error."
  end.

(** The second [switch]. *)
Definition kind_text (n : Maap_Notify) : list (log_level * string) :=
  let ok := bool_decide (result n = MAAP_NOTIFY_ERROR_NONE) in
  let size := fmt_int (note_count n) in
  let ident := fmt_int (note_id n) in
  match kind n with
  | MAAP_NOTIFY_INITIALIZED =>
      if ok then [(LEVEL_INFO, "MAAP initialized:  " +:+ block_text n +:+ " (Size: " +:+ size +:+ ")")]
      else [(LEVEL_ERROR, "MAAP previously initialized to " +:+ block_text n +:+ " (Size: " +:+ size +:+ ")")]
  | MAAP_NOTIFY_ACQUIRING =>
      if ok then [(LEVEL_INFO, "Address range " +:+ ident +:+ " querying:  " +:+ block_text n +:+ " (Size " +:+ size +:+ ")")]
      else [(LEVEL_ERROR, "Unknown address range " +:+ ident +:+ " acquisition error")]
  | MAAP_NOTIFY_ACQUIRED =>
      if ok then [(LEVEL_INFO, "Address range " +:+ ident +:+ " acquired:  " +:+ block_text n +:+ " (Size " +:+ size +:+ ")")]
      else if negb (note_id n =? -1) then [(LEVEL_ERROR, "Address range " +:+ ident +:+ " of size " +:+ size +:+ " not acquired")]
      else [(LEVEL_ERROR, "Address range of size " +:+ size +:+ " not acquired")]
  | MAAP_NOTIFY_RELEASED =>
      if ok then [(LEVEL_INFO, "Address range " +:+ ident +:+ " released:  " +:+ block_text n +:+ " (Size " +:+ size +:+ ")")]
      else [(LEVEL_ERROR, "Address range " +:+ ident +:+ " not released")]
  | MAAP_NOTIFY_STATUS =>
      if ok then [(LEVEL_INFO, "ID " +:+ ident +:+ " is address range " +:+ block_text n +:+ " (Size " +:+ size +:+ ")")]
      else [(LEVEL_ERROR, "ID " +:+ ident +:+ " is not valid")]
  | MAAP_NOTIFY_YIELDED =>
      if decide (result n <> MAAP_NOTIFY_ERROR_REQUIRES_INITIALIZATION /\ result n <> MAAP_NOTIFY_ERROR_RELEASE_INVALID_ID) then
        (LEVEL_WARNING, "Address range " +:+ ident +:+ " yielded:  " +:+ block_text n +:+ " (Size " +:+ size +:+ ")") ::
        (if ok then [] else [(LEVEL_ERROR, "A new address range will not be allocated")])
      else [(LEVEL_ERROR, "ID " +:+ ident +:+ " is not valid")]
  | MAAP_NOTIFY_INVALID => [(LEVEL_ERROR, "Notification type 0 not recognized")]
  end.

(** The calls of the callback. *)
Definition print_notify (n : Maap_Notify) : list (log_level * string) :=
  match error_text (result n) with Some t => [(LEVEL_ERROR, t)] | None => [] end ++ kind_text n.

Definition parse_usage : list (log_level * string) := pair LEVEL_INFO <$> [
  "Input usage:";
  "    init [<range_base> <range_size>] - Initialize the MAAP daemon to recognize";
  "        the specified range of addresses.  If not specified, it uses";
  "        range_base=0x91e0f0000000, range_size=0xfe00.";
  "    reserve [<addr_base>] <addr_size> - Reserve a range of addresses of size";
  "        <addr_size> in the initialized range.  If <addr_base> is specified,";
  "        that address base will be attempted first.";
  "    release <id> - Release the range of addresses with identifier ID";
  "    status <id> - Get the range of addresses associated with identifier ID";
  "    yield <id> - Yield the range of addresses associated with identifier ID.";
  "        This is only useful for testing.";
  "    exit - Shutdown the MAAP daemon";
  " " ].

(** ** Line breaking *)
Definition MAAP_LOG_STDOUT_CONSOLE_WIDTH : Z := 80.

Definition level_prefix (l : log_level) : list Z :=
  match l with
  | LEVEL_ERROR => bytes_of_string "Error:  "
  | LEVEL_WARNING => bytes_of_string "Warning:  "
  | LEVEL_INFO => []
  end.

(** The [for] loop that looks for the last space within the width: [None] at the end of the
    text, else where the space is. *)
Fixpoint wrap_scan (i width last : Z) (text : list Z) : option Z :=
  match text with
  | [] => None
  | b :: text' =>
      if (i <? width) || (last <=? 0) then wrap_scan (i + 1) width (if is_space b then i else last) text'
      else Some last
  end.

(** The [while] loop; [prefix] is the initial text of the first line. *)
Fixpoint wrap_lines (fuel : nat) (prefix text : list Z) : outcome (list Z) :=
  match text with
  | [] => Done []
  | _ =>
      match fuel with
      | O => Fault OutOfFuel
      | S fuel' =>
          match wrap_scan 0 (MAAP_LOG_STDOUT_CONSOLE_WIDTH - Z.of_nat (length prefix)) (-1) text with
          | None => Done (prefix ++ text ++ [13; 10])
          | Some n =>
              rest ← wrap_lines fuel' [] (skip_space (drop (Z.to_nat n) text));
              Done (prefix ++ take (Z.to_nat n) text ++ [13; 10] ++ rest)
          end
      end
  end.

(** Into an array of 300 bytes, with the zero that ends it. *)
Definition format_print_notify_result (level : log_level) (text : list Z) : outcome (list Z) :=
  out ← wrap_lines (length text) (level_prefix level) text;
  if (length out <? 300)%nat then Done out else Fault OutOfBounds.

(** ** Correctness of the line breaking *)
Definition ink (l : list Z) : list Z := base.filter (fun b => is_space b = false) l.

Lemma wrap_scan_some i width last text n :
  wrap_scan i width last text = Some n -> 0 <= i -> last < i ->
  0 < n /\ (n = last \/ (i <= n < i + Z.of_nat (length text) /\ exists b, text !! Z.to_nat (n - i) = Some b /\ is_space b = true)).
Proof.
  revert i last. induction text as [|b text IH]; intros i last; cbn [wrap_scan]; [done|].
  destruct ((i <? width) || (last <=? 0)) eqn:E.
  - intros H Hi Hl. destruct (IH _ _ H ltac:(lia)) as [Hn Hc]; [destruct (is_space b); lia|]. split; [done|].
    destruct Hc as [->|(Hr & c & Hc & Hs)].
    + destruct (is_space b) eqn:Eb; [|by left]. right. split; [cbn; lia|]. exists b. by replace (i - i) with 0 by lia.
    + right. split; [cbn; lia|]. exists c. split; [|done]. replace (Z.to_nat (n - i)) with (S (Z.to_nat (n - (i + 1)))) by lia. done.
  - apply orb_false_iff in E as [_ E%Z.leb_gt]. intros [= ->] _ _. split; [lia|by left].
Qed.

Lemma skip_space_ink l : ink (skip_space l) = ink l.
Proof.
  induction l as [|b l IH]; [done|]. cbn [skip_space]. destruct (is_space b) eqn:E; [|done]. unfold ink in *. rewrite list.filter_cons.
  by rewrite decide_False by (by rewrite E).
Qed.
Lemma skip_space_length l : (length (skip_space l) <= length l)%nat.
Proof. induction l as [|b l IH]; [done|]. cbn. destruct (is_space b); cbn; lia. Qed.

Lemma ink_app l1 l2 : ink (l1 ++ l2) = ink l1 ++ ink l2.
Proof. apply list.filter_app. Qed.

(** Where a line is broken. *)
Lemma wrap_break width text n : wrap_scan 0 width (-1) text = Some n ->
  exists l b rest, text = l ++ b :: rest /\ l <> [] /\ Z.to_nat n = length l /\ is_space b = true.
Proof.
  intros H. destruct (wrap_scan_some _ _ _ _ _ H) as [Hn [Hc|(Hr & b & Hb & Hs)]]; [lia..|lia|].
  replace (n - 0) with n in Hb by lia. exists (take (Z.to_nat n) text), b, (drop (S (Z.to_nat n)) text).
  apply lookup_lt_Some in Hb as Hl. split_and!; [symmetry; by apply take_drop_middle| | |done].
  - intros E. apply (f_equal length) in E. rewrite length_take in E. cbn in E. lia.
  - rewrite length_take. lia.
Qed.

Lemma wrap_lines_spec fuel prefix text : (length text <= fuel)%nat ->
  exists out, wrap_lines fuel prefix text = Done out /\
    ink out = match text with [] => [] | _ => ink prefix ++ ink text end /\ (length out <= length prefix + 2 * length text + 2)%nat.
Proof.
  revert prefix text. induction fuel as [|fuel IH]; intros prefix [|c text] Hl; try (cbn in Hl; lia); try (exists []; split_and!; [done..|cbn; lia]).
  cbn [wrap_lines]. destruct (wrap_scan _ _ _ _) as [n|] eqn:E.
  - destruct (wrap_break _ _ _ E) as (l & b & rest & Et & Hne & Hn & Hb). rewrite Et, Hn, drop_app_length, take_app_length.
    assert (skip_space (b :: rest) = skip_space rest) as -> by (cbn; by rewrite Hb). pose proof (skip_space_length rest) as Hs.
    rewrite Et, length_app in Hl. destruct l as [|x l]; [done|]. cbn in Hl.
    destruct (IH [] (skip_space rest) ltac:(lia)) as (out & -> & Hi & Ho). obind. eexists. split; [reflexivity|].
    assert (ink out = ink rest) as Hink by (rewrite Hi, <- (skip_space_ink rest); by destruct (skip_space rest)).
    split; [|rewrite !length_app; cbn in *; lia]. rewrite !ink_app, Hink. change (ink [13; 10]) with (@nil Z).
    do 2 f_equal. unfold ink. rewrite list.filter_cons, decide_False by (by rewrite Hb). done.
  - eexists. split; [reflexivity|]. split; [|rewrite !length_app; cbn; lia].
    rewrite !ink_app. change (ink [13; 10]) with (@nil Z). by rewrite app_nil_r.
Qed.

(** The text of up to 144 characters, broken into lines, fits the array, and no character but
    white space is lost or added beside the prefix. *)
Lemma format_ok level text : text <> [] -> (length text <= 140)%nat ->
  exists out, format_print_notify_result level text = Done out /\ ink out = ink (level_prefix level) ++ ink text.
Proof.
  intros Hne Hl. unfold format_print_notify_result. destruct (wrap_lines_spec (length text) (level_prefix level) text ltac:(done)) as (out & -> & Hi & Ho).
  obind. assert (length (level_prefix level) <= 10)%nat by (destruct level; cbn; lia).
  destruct (Nat.ltb_spec (length out) 300); [|lia]. exists out. split; [done|]. by destruct text.
Qed.

Lemma length_fmt_llx v : (String.length (fmt_llx v) <= 16)%nat.
Proof. unfold fmt_llx. repeat case_match; rewrite length_fmt_x; lia. Qed.

Lemma block_text_short n : (String.length (block_text n) <= 37)%nat.
Proof.
  unfold block_text. rewrite !string_length_app. pose proof (length_fmt_llx (note_start n)). pose proof (length_fmt_llx (note_start n + note_count n - 1)).
  cbn [String.length]. lia.
Qed.

Definition text_ok (x : log_level * string) : Prop := (0 < String.length x.2 <= 140)%nat.
#[global] Instance text_ok_dec x : Decision (text_ok x).
Proof. unfold text_ok. apply _. Defined.

Lemma kind_text_ok n : Forall text_ok (kind_text n).
Proof.
  pose proof (block_text_short n). pose proof (length_fmt_int (note_count n)). pose proof (length_fmt_int (note_id n)).
  unfold kind_text. repeat case_match; repeat first [apply Forall_nil_2 | apply Forall_cons_2]; unfold text_ok; cbn [snd]; rewrite ?string_length_app; cbn [String.length]; lia.
Qed.

Lemma print_notify_ok n : Forall text_ok (print_notify n).
Proof.
  unfold print_notify. apply Forall_app. split; [|apply kind_text_ok].
  destruct (error_text (result n)) as [t|] eqn:E; constructor; [|constructor].
  unfold text_ok. cbn [snd]. destruct (result n); try done; injection E as <-; rewrite ?string_length_app; cbn [String.length]; lia.
Qed.

Lemma parse_usage_ok : Forall text_ok parse_usage.
Proof. apply (bool_decide_unpack _). vm_compute. exact I. Qed.

Lemma format_text_ok x : text_ok x ->
  exists out, format_print_notify_result x.1 (bytes_of_string x.2) = Done out /\ ink out = ink (level_prefix x.1) ++ ink (bytes_of_string x.2).
Proof.
  intros [H1 H2]. apply format_ok; [|by rewrite length_bytes_of]. intros E. apply (f_equal length) in E. rewrite length_bytes_of in E. cbn in E. lia.
Qed.
