(* ===== verification/MaapServer.v ===== *)
(** * MaapServer: the loop of the MAAP daemon

    Model of [act_as_server] of [daemons/maap/linux/src/maap_daemon.c]: what one round of the
    event loop sends, and what it does with what [select] has found: packets, a connection,
    a line on the terminal, data of the clients.  Messages of the log are left out. *)
From stdpp Require Import base gmap strings numbers list.
From S2P Require Import Prelude Text Parse MaapTime MaapNet Maap MaapParse MaapText.
#[local] Open Scope Z_scope.
#[local] Open Scope st_scope.

Definition SERVER_CLIENTS : nat := 32.
Definition RECV_SIZE : nat := 1600.

(** What leaves the process. *)
Inductive server_out :=
  | out_packet (bytes : list Z)
  | out_raw (fd : Z) (n : Maap_Notify)
  | out_text (fd : Z) (text : list Z)
  | out_console (text : list Z).

Record Server := mkServer {
  sv_world : World;
  sv_clientfd : list Z;
  sv_wants_text : list bool;
  sv_next : nat;
  sv_recvbuffer : list Z;
  sv_out : list server_out;
  sv_exit : bool }.

(** [junk] is what the uninitialised buffer holds. *)
Definition server_start (w : World) (junk : list Z) : Server :=
  mkServer w (replicate SERVER_CLIENTS (-1)) (replicate SERVER_CLIENTS false) 0 (resize RECV_SIZE 0 junk) [] false.

Definition set_world (w : World) (s : Server) : Server :=
  mkServer w (sv_clientfd s) (sv_wants_text s) (sv_next s) (sv_recvbuffer s) (sv_out s) (sv_exit s).
Definition set_clients (fds : list Z) (next : nat) (s : Server) : Server :=
  mkServer (sv_world s) fds (sv_wants_text s) next (sv_recvbuffer s) (sv_out s) (sv_exit s).
Definition set_wants (l : list bool) (s : Server) : Server :=
  mkServer (sv_world s) (sv_clientfd s) l (sv_next s) (sv_recvbuffer s) (sv_out s) (sv_exit s).
Definition set_buffer (b : list Z) (s : Server) : Server :=
  mkServer (sv_world s) (sv_clientfd s) (sv_wants_text s) (sv_next s) b (sv_out s) (sv_exit s).
Definition add_out (l : list server_out) (s : Server) : Server :=
  mkServer (sv_world s) (sv_clientfd s) (sv_wants_text s) (sv_next s) (sv_recvbuffer s) (sv_out s ++ l) (sv_exit s).
Definition set_exit (s : Server) : Server :=
  mkServer (sv_world s) (sv_clientfd s) (sv_wants_text s) (sv_next s) (sv_recvbuffer s) (sv_out s) true.

(** A call of the MAAP client. *)
Definition on_world {A} (m : stM World A) : stM Server A := fun s =>
  match m (sv_world s) with
  | Done (a, w) => Done (a, set_world w s)
  | Fault e => Fault e
  end.

(** ** Sending *)

(** The queued packets; [sends] is how many are sent before the socket refuses one, which is
    freed and ends the loop. *)
Fixpoint send_packets (fuel sends : nat) : stM Server unit :=
  match fuel with
  | O => st_lift (Fault OutOfFuel)
  | S fuel' =>
      let! s := st_get in
      match net (mc (sv_world s)) with
      | None => st_ret tt
      | Some n =>
          match Net_getNextQueuedPacket n with
          | (None, _) => st_ret tt
          | (Some buf, n1) =>
              let! bytes := st_lift (or_fault Dangling (buf_read n1 buf)) in
              let! freed := st_lift (Net_freeQueuedPacket n1 buf) in
              st_modify (set_world (upd_mc (set_net (Some (snd freed))) (sv_world s))) ;!
              match sends with
              | O => st_ret tt
              | S sends' => st_modify (add_out [out_packet bytes]) ;! send_packets fuel' sends'
              end
          end
      end
  end.

(** [display_print_notify_result] and [send_print_notify_result]. *)
Definition display_text (x : log_level * string) : stM Server unit :=
  let! out := st_lift (format_print_notify_result x.1 (bytes_of_string x.2)) in
  st_modify (add_out [out_console out]).
Definition send_text (fd : Z) (x : log_level * string) : stM Server unit :=
  let! out := st_lift (format_print_notify_result x.1 (bytes_of_string x.2)) in
  st_modify (add_out [out_text fd out]).

Fixpoint for_texts (f : log_level * string -> stM Server unit) (l : list (log_level * string)) : stM Server unit :=
  match l with [] => st_ret tt | x :: l' => f x ;! for_texts f l' end.

(** The first slot of a socket. *)
Fixpoint slot_of (fd : Z) (i : nat) (fds : list Z) : option nat :=
  match fds with
  | [] => None
  | x :: fds' => if x =? fd then Some i else slot_of fd (S i) fds'
  end.

Definition send_notify (sock : Z) (n : Maap_Notify) : stM Server unit :=
  if i32 sock =? -1 then for_texts display_text (print_notify n)
  else
    let! s := st_get in
    match slot_of (i32 sock) 0 (sv_clientfd s) with
    | None => st_ret tt
    | Some i =>
        let! text := st_lift (or_fault OutOfBounds (sv_wants_text s !! i)) in
        if (text : bool) then for_texts (send_text (i32 sock)) (print_notify n)
        else st_modify (add_out [out_raw (i32 sock) n])
    end.

(** The notifications: one per turn, until there are none. *)
Fixpoint send_notifies (fuel : nat) : stM Server unit :=
  match fuel with
  | O => st_lift (Fault OutOfFuel)
  | S fuel' =>
      let! n := on_world get_notify in
      match n with
      | None => st_ret tt
      | Some (sock, mn) => send_notify sock mn ;! send_notifies fuel'
      end
  end.

(** ** Receiving *)

(** The search for a free slot looks at the slot [next] every time. *)
Fixpoint probe_clients (fuel i next : nat) (fds : list Z) : nat :=
  match fuel with
  | O => i
  | S fuel' =>
      if (i =? next)%nat then i
      else if decide (fds !! next = Some (-1)) then i
      else probe_clients fuel' ((i + 1) mod SERVER_CLIENTS)%nat next fds
  end.

Definition server_accept (newfd : Z) (s : Server) : Server :=
  let next := sv_next s in
  let fd :=
    if decide (sv_clientfd s !! next = Some (-1)) then newfd
    else
      let i := probe_clients SERVER_CLIENTS ((next + 1) mod SERVER_CLIENTS)%nat next (sv_clientfd s) in
      if (i =? next)%nat then -1 else newfd in
  if fd =? -1 then s
  else set_clients (<[next := fd]> (sv_clientfd s)) ((next + 1) mod SERVER_CLIENTS)%nat s.

(** [strtok] puts a zero behind each of the first [n] words. *)
Fixpoint strtok_cut (n : nat) (tok : bool) (s : list Z) : list Z :=
  match s with
  | [] => []
  | b :: s' =>
      match n with
      | O => s
      | S n' =>
          if b =? 0 then s
          else if is_delim b then if tok then 0 :: strtok_cut n' false s' else b :: strtok_cut n false s'
          else b :: strtok_cut n true s'
      end
  end.

(** The packet buffer is written from its start. *)
Definition store_recv (data buf : list Z) : list Z := data ++ drop (length data) buf.

Section server.
Context {env : Environment}.

(** A command in the buffer: its text, if it is one, is cut by [strtok].  [refuse] is called
    when it is no command. *)
Definition server_command (sock : Z) (refuse : list Z -> stM Server unit) : stM Server bool :=
  let! s := st_get in
  let buf := sv_recvbuffer s in
  let! ret := on_world (parse_write sock buf) in
  let '(v, text) := ret in
  let cut := if (text : bool) then strtok_cut 6 false buf else buf in
  st_modify (set_buffer cut) ;!
  (when 0 <? v do st_modify set_exit) ;!
  (when v <? 0 do refuse cut) ;!
  st_ret text.

Definition is_help (buf : list Z) : bool := bool_decide (take 4 buf = bytes_of_string "help").

(** From the terminal: at most one byte less than the buffer holds. *)
Definition stdin_command (data : list Z) : stM Server unit :=
  let got := take (RECV_SIZE - 1) data in
  st_modify (fun s => set_buffer (store_recv (got ++ [0]) (sv_recvbuffer s)) s) ;!
  server_command (-1) (fun buf =>
    (when negb (is_help buf) do st_modify (add_out [out_console (bytes_of_string ("Invalid command type" +:+ newline))])) ;!
    for_texts display_text parse_usage) ;!
  st_ret tt.

(** From a client: as many bytes as the buffer holds, and a zero behind them. *)
Definition client_command (i : nat) (fd : Z) (data : list Z) : stM Server unit :=
  let got := take RECV_SIZE data in
  st_lift (if (length got <? RECV_SIZE)%nat then Done tt else Fault OutOfBounds) ;!
  st_modify (fun s => set_buffer (store_recv (got ++ [0]) (sv_recvbuffer s)) s) ;!
  let! text := server_command fd (fun buf =>
    (when negb (is_help buf) do send_text fd (LEVEL_INFO, "Invalid command type")) ;!
    for_texts (send_text fd) parse_usage) in
  st_modify (fun s => set_wants (<[i := text]> (sv_wants_text s)) s).

(** What happens in a round, one thing after the other. *)
Inductive server_event :=
  | ev_packets (sends : nat)
  | ev_notifies
  | ev_delay
  | ev_timer
  | ev_packet (data : list Z)
  | ev_accept (newfd : Z)
  | ev_line (data : list Z)
  | ev_client (i : nat) (data : option (list Z)).

Definition queue_size (w : World) : nat :=
  match net (mc w) with Some n => length (net_buffer n) + length (pFirst n) | None => 0 end.

Definition server_do (e : server_event) : stM Server unit :=
  match e with
  | ev_packets sends => let! s := st_get in send_packets (S (queue_size (sv_world s))) sends
  | ev_notifies => let! s := st_get in send_notifies (S (length (notifies (mc (sv_world s)))))
  | ev_delay => on_world maap_get_delay_to_next_timer ;! st_ret tt
  | ev_timer => on_world maap_handle_timer ;! st_ret tt
  | ev_packet p =>
      let data := take RECV_SIZE p in
      st_modify (fun s => set_buffer (store_recv data (sv_recvbuffer s)) s) ;!
      on_world (maap_handle_packet data (Z.of_nat (length data))) ;! st_ret tt
  | ev_accept newfd => st_modify (server_accept newfd)
  | ev_line [] => st_ret tt
  | ev_line data => stdin_command data
  | ev_client i data =>
      let! s := st_get in
      match sv_clientfd s !! i with
      | None => st_ret tt
      | Some fd =>
          if fd =? -1 then st_ret tt
          else
            match data with
            | None | Some [] => st_modify (fun s => set_clients (<[i := -1]> (sv_clientfd s)) i s)
            | Some data => client_command i fd data
            end
      end
  end.

Fixpoint server_run (l : list server_event) : stM Server unit :=
  match l with [] => st_ret tt | e :: l' => server_do e ;! server_run l' end.

End server.

(** What [select] finds: nothing in time, or what is ready; of a client an error ([None])
    or data. *)
Inductive server_ready :=
  | sv_timeout
  | sv_ready (packets : list (list Z)) (newfd : option Z) (line : option (list Z)) (clients : list (option (option (list Z)))).

Fixpoint client_events (i : nat) (l : list (option (option (list Z)))) : list server_event :=
  match l with
  | [] => []
  | ready :: l' => match ready with Some data => [ev_client i data] | None => [] end ++ client_events (S i) l'
  end.

(** One round of the loop. *)
Definition round_events (sends : nat) (ready : server_ready) : list server_event :=
  [ev_packets sends; ev_notifies; ev_delay] ++
  match ready with
  | sv_timeout => [ev_timer]
  | sv_ready packets newfd line clients =>
      (ev_packet <$> packets) ++
      match newfd with Some fd => [ev_accept fd] | None => [] end ++
      match line with Some data => [ev_line data] | None => [] end ++
      client_events 0 (take SERVER_CLIENTS clients)
  end.

Definition server_round {env : Environment} (sends : nat) (ready : server_ready) : stM Server unit :=
  server_run (round_events sends ready).
