(* ===== verification/MaapServerProps.v ===== *)
(** * MaapServerProps: the MAAP daemon with its clients

    Whatever arrives on the sockets within the contract of the commands, the daemon's loop
    goes on without a fault and keeps the invariant of the MAAP client; notifications reach
    the client they are for.  Two inputs that stop the daemon are shown at the end. *)
From stdpp Require Import base gmap strings numbers list.
From S2P Require Import Prelude Text Parse Intervals IntervalTree IntervalUpdate MaapPacket MaapTime MaapNet Maap.
From S2P Require Import MaapInv MaapSafety MaapConflict MaapHandle MaapTimer MaapClient MaapProps.
From S2P Require Import MaapParse MaapText MaapServer.
#[local] Open Scope Z_scope.
#[local] Open Scope st_scope.

(** ** The state of the daemon *)

(** Before the first [init]: the structure is cleared but for the addresses. *)
Record fresh (w : World) : Prop := mkFresh {
  fr_blank : blank w;
  fr_ranges : ranges (mc w) = None;
  fr_queue : timer_queue (mc w) = [];
  fr_net : net (mc w) = None }.

Lemma wp_on_world {T : Stops} {A} (m : stM World A) (Q : A -> Server -> Prop) s :
  wp m (fun a w => Q a (set_world w s)) (sv_world s) -> wp (on_world m) Q s.
Proof. unfold wp, on_world. by destruct (m (sv_world s)) as [[a w]|]. Qed.

Section mode.
Context {Oph : Orphans} {T : Stops} {OT : Tolerant Oph T}.

Definition world_ok (w : World) : Prop := fresh w \/ exists t, client_inv ∅ w t.

Record server_inv (s : Server) : Prop := mkServerInv {
  sv_ok : world_ok (sv_world s);
  sv_fds : length (sv_clientfd s) = SERVER_CLIENTS;
  sv_texts : length (sv_wants_text s) = SERVER_CLIENTS;
  sv_slot : (sv_next s < SERVER_CLIENTS)%nat;
  sv_size : length (sv_recvbuffer s) = RECV_SIZE;
  sv_bytes : Forall is_byte (sv_recvbuffer s) }.

(** ** The contract

    The documented sizes and 48-bit addresses, and a number of ranges the sanity test of
    the timer queue allows. *)
Definition cmd_contract (w : World) (c : Maap_Cmd) : Prop :=
  match cmd_kind c with
  | MAAP_CMD_INIT => initialized (mc w) = false -> 1 <= cmd_count c /\ cmd_start c + cmd_count c <= 2 ^ 48
  | MAAP_CMD_RESERVE => initialized (mc w) = true -> 1 <= cmd_count c /\ cmd_start c < 2 ^ 48
  | MAAP_CMD_YIELD => initialized (mc w) = true -> 0 < src_mac (mc w) < 2 ^ 48 /\ src_mac (mc w) <> 0x010000000000
  | _ => True
  end.

Definition buffer_contract (w : World) (buf : list Z) : Prop :=
  match (read_cmd buf).1 with Some c => cmd_contract w c | None => True end.

Definition event_ok (s : Server) (e : server_event) : Prop :=
  2 * Z.of_nat (length (timer_queue (mc (sv_world s)))) < 100000 /\
  match e with
  | ev_packet data => Forall is_byte data
  | ev_line data =>
      Forall is_byte data /\ buffer_contract (sv_world s) (store_recv (take (RECV_SIZE - 1) data ++ [0]) (sv_recvbuffer s))
  | ev_client _ (Some data) =>
      Forall is_byte data /\ (length data < RECV_SIZE)%nat /\
      buffer_contract (sv_world s) (store_recv (data ++ [0]) (sv_recvbuffer s))
  | _ => True
  end.

(** ** Ranges of what is read *)
Lemma le_value_range l : Forall is_byte l -> 0 <= le_value l < 256 ^ Z.of_nat (length l).
Proof.
  induction 1 as [|b l Hb _ IH]; [cbn; lia|]. cbn [le_value foldr length]. fold (le_value l). rewrite Nat2Z.inj_succ, Z.pow_succ_r by lia.
  unfold is_byte in Hb. lia.
Qed.

Lemma le_field_range buf pos n : Forall is_byte buf -> 0 <= le_field buf pos n < 256 ^ Z.of_nat n.
Proof.
  intros Hb. unfold le_field. pose proof (le_value_range (take n (drop pos buf)) ltac:(by apply Forall_take, Forall_drop)) as H.
  split; [lia|]. eapply Z.lt_le_trans; [apply H|]. apply Z.pow_le_mono_r; [lia|]. rewrite length_take. lia.
Qed.

Lemma scan_digits_nonneg base w acc s : 0 <= base -> 0 <= acc -> 0 <= fst (scan_digits base w acc s).
Proof.
  intros Hb. revert acc s. induction w as [|w IH]; intros acc s Ha; [by destruct s|]. destruct s as [|b s]; [done|]. cbn [scan_digits].
  destruct (digit_of b) as [d|] eqn:E; [|done]. destruct (d <? base); [|done].
  assert (0 <= d).
  { unfold digit_of in E. repeat case_match; simplify_eq; repeat match goal with H : (_ && _) = true |- _ => apply andb_true_iff in H as [?%Z.leb_le ?%Z.leb_le] end; lia. }
  specialize (IH (acc * base + d) s ltac:(nia)). by destruct (scan_digits base w _ s).
Qed.

Lemma strtoull_range s base : 0 <= base -> 0 <= strtoull s base < 2 ^ 64.
Proof.
  intros Hb. unfold strtoull. destruct (scan_sign _ _) as [[neg w] s1]. destruct (number_base base s1) as [b s2] eqn:En.
  assert (0 <= b).
  { unfold number_base in En. repeat case_match; simplify_eq; lia. }
  pose proof (scan_digits_nonneg b (length s2) 0 s2 ltac:(done) ltac:(done)). destruct (Z.leb_spec (2 ^ 64) (scan_digits b (length s2) 0 s2).1); [lia|].
  destruct neg; [|lia]. unfold u64. apply Z.mod_pos_bound. lia.
Qed.

Lemma read_cmd_range buf c text : Forall is_byte buf -> read_cmd buf = (Some c, text) -> 0 <= cmd_start c /\ 0 <= cmd_count c < 2 ^ 32.
Proof.
  intros Hb. unfold read_cmd. destruct (binary_cmd buf) as [c'|] eqn:E.
  - intros [= -> _]. unfold binary_cmd in E. destruct (tag_of _); [|done]. injection E as <-. cbn.
    pose proof (le_field_range buf 8 8 Hb). pose proof (le_field_range buf 16 4 Hb). cbn in *. lia.
  - intros [= E' _]. unfold parse_text_cmd in E'. repeat case_match; simplify_eq; cbn [cmd_start cmd_count];
      (split; [first [done|by apply strtoull_range]|first [done|apply u32_range]]).
Qed.

(** ** The commands *)
Section safety.
Context {env : Environment} (Hmem : memory_available env) (Hlate : late_tolerated env).

Definition room_ok (w : World) : Prop := 2 * Z.of_nat (length (timer_queue (mc w))) < 100000.

(** A notification leaves everything else. *)
Lemma wp_notify_ok sndr n (Q : unit -> World -> Prop) w :
  world_ok w -> (forall w', world_ok w' -> Q tt w') -> wp (add_notify sndr n) Q w.
Proof.
  intros Hw HQ. apply wps_bind, (wp_malloc Hmem). intros a _. apply wps_bind. eapply wps_lift; [done|]. apply wps_modify, HQ.
  destruct Hw as [Hf|[t Ht]].
  - left. destruct Hf as [[] ? ? ?]. split; [by split|done..].
  - right. exists t. apply (client_inv_transport ∅ w); try done. destruct (ci_client _ _ _ Ht). by split.
Qed.

Lemma notify_then_ok {A} sndr n (a : A) w : world_ok w -> wp (add_notify sndr n ;! st_ret a) (fun _ => world_ok) w.
Proof. intros Hw. by apply wps_bind, wp_notify_ok; [|intros; apply wps_ret]. Qed.

Lemma initialized_inv w : world_ok w -> initialized (mc w) = true -> exists t, client_inv ∅ w t.
Proof. intros [[[] _ _ _]|H] E; [congruence|done]. Qed.
Lemma uninitialized_fresh w : world_ok w -> initialized (mc w) = false -> fresh w.
Proof. intros [H|[t Ht]] E; [done|]. destruct (ci_client _ _ _ Ht). congruence. Qed.

Lemma op_safe_ok w op : world_ok w -> initialized (mc w) = true -> op_ok w op -> wp (run_op op) (fun _ => world_ok) w.
Proof.
  intros Hw Hi Ho. destruct (initialized_inv w Hw Hi) as [t Ht]. eapply wps_mono; [by apply (run_op_safe Hmem w t op (fun _ => Hlate))|].
  intros ? w' [t' H]. right. eauto.
Qed.

Lemma init_ok sndr base n w : world_ok w -> 0 <= base -> 0 <= n < 2 ^ 32 ->
  (initialized (mc w) = false -> 1 <= n /\ base + n <= 2 ^ 48) -> wp (maap_init_client sndr base n) (fun _ => world_ok) w.
Proof.
  intros Hw Hb Hn Hc. destruct (initialized (mc w)) eqn:Ei.
  - unfold maap_init_client. apply wps_bind, wp_get_mc. rewrite Ei. apply wps_bind, wps_bind, wp_get_mc, wps_bind, wp_notify_ok; [done|].
    intros w' Hw'. by apply wps_ret, wps_ret.
  - destruct (Hc eq_refl). apply (maap_init_client_spec Hmem); [apply (uninitialized_fresh w Hw Ei)|lia..|]. intros w1 H1 _ _ _ _ _ _. right. eauto.
Qed.

Ltac not_initialized Ei := apply wps_bind, wp_get_mc; rewrite Ei; cbn [negb].

Lemma run_cmd_ok sndr c w : world_ok w -> room_ok w -> 0 <= cmd_start c -> 0 <= cmd_count c < 2 ^ 32 -> cmd_contract w c ->
  wp (run_cmd sndr c) (fun _ => world_ok) w.
Proof.
  intros Hw Hr Hs Hn Hc. unfold run_cmd, cmd_contract in *. destruct (cmd_kind c); try (apply wps_bind); [| | | | |by apply wps_ret].
  - eapply wps_mono; [by apply init_ok|]. intros ? w' H. by apply wps_ret.
  - destruct (initialized (mc w)) eqn:Ei.
    + destruct (Hc eq_refl). eapply wps_mono; [apply (op_safe_ok w (OpReserve sndr (cmd_start c) (cmd_count c)) Hw Ei); split; [done|lia]|].
      intros ? w' H'. by apply wps_ret.
    + unfold maap_reserve_range. not_initialized Ei. apply wps_bind. eapply wps_mono; [by apply notify_then_ok|]. intros ? w' H. by apply wps_ret, wps_ret.
  - destruct (initialized (mc w)) eqn:Ei.
    + eapply wps_mono; [by apply (op_safe_ok w (OpRelease sndr (cmd_id c)))|]. intros ? w' H'. by apply wps_ret.
    + unfold maap_release_range. not_initialized Ei. apply wps_bind, wps_bind, wps_ret, wps_bind, wps_ret.
      eapply wps_mono; [by apply notify_then_ok|]. intros ? w' H. by apply wps_ret, wps_ret.
  - destruct (initialized (mc w)) eqn:Ei.
    + pose proof (op_safe_ok w (OpStatus sndr (cmd_id c)) Hw Ei ltac:(done)) as H. cbn [run_op] in H.
      unfold wp, st_bind in *. by destruct (maap_range_status sndr (cmd_id c) w) as [[u w1]|].
    + unfold maap_range_status. not_initialized Ei. apply wps_bind, wps_bind, wps_ret, wps_bind, wps_ret.
      eapply wps_mono; [by apply notify_then_ok|]. intros ? w' H. by apply wps_ret, wps_ret.
  - destruct (initialized (mc w)) eqn:Ei.
    + eapply wps_mono; [apply (op_safe_ok w (OpYield sndr (cmd_id c)) Hw Ei); split; [done|by apply Hc]|]. intros ? w' H'. by apply wps_ret.
    + unfold maap_yield_range. not_initialized Ei. apply wps_bind, wps_bind, wps_ret, wps_bind, wps_ret.
      eapply wps_mono; [by apply notify_then_ok|]. intros ? w' H. by apply wps_ret, wps_ret.
Qed.

Lemma parse_write_ok sndr buf w : world_ok w -> room_ok w -> length buf = RECV_SIZE -> Forall is_byte buf -> buffer_contract w buf ->
  wp (parse_write sndr buf) (fun _ => world_ok) w.
Proof.
  intros Hw Hr Hl Hb Hc. unfold parse_write. rewrite Hl. cbn [Nat.ltb Nat.leb]. change (_ <? MAAP_CMD_SIZE)%nat with false. cbv iota.
  unfold buffer_contract in Hc. destruct (read_cmd buf) as [[c|] text] eqn:E; [|by apply wps_ret].
  destruct (read_cmd_range _ _ _ Hb E). apply wps_bind. eapply wps_mono; [by apply run_cmd_ok|]. intros ? w' H'. by apply wps_ret.
Qed.

(** ** The events *)
Lemma set_world_inv s w : server_inv s -> world_ok w -> server_inv (set_world w s).
Proof. intros [] ?. by split. Qed.
Lemma add_out_inv s l : server_inv s -> server_inv (add_out l s).
Proof. intros []. by split. Qed.

Lemma on_world_ok {A} (m : stM World A) s : server_inv s -> wp m (fun _ => world_ok) (sv_world s) -> wp (on_world m) (fun _ => server_inv) s.
Proof. intros Hs Hm. apply wp_on_world. eapply wps_mono; [exact Hm|]. intros ? w H. by apply set_world_inv. Qed.

Lemma queued_short n : (length (queued n) <= length (net_buffer n) + length (pFirst n))%nat.
Proof.
  unfold queued, buffers. rewrite length_fmap. etransitivity; [apply length_filter|]. by rewrite length_app, length_fmap.
Qed.

Lemma net_transport w n : world_ok w -> is_Some (net (mc w)) -> net_wf n -> world_ok (upd_mc (set_net (Some n)) w).
Proof.
  intros [[[] ? ? E]|[t Ht]] [n0 Hn] Hwf; [congruence|]. right. exists t. apply (client_inv_transport ∅ w); try done.
  destruct (ci_client _ _ _ Ht). split; try done. by exists n.
Qed.

Lemma send_packets_ok fuel sends s : server_inv s ->
  (match net (mc (sv_world s)) with Some n => length (queued n) | None => 0 end < fuel)%nat ->
  wp (send_packets fuel sends) (fun _ => server_inv) s.
Proof.
  revert sends s. induction fuel as [|fuel IH]; intros sends s Hs Hf; [lia|]. cbn [send_packets]. apply wps_bind, wps_get.
  destruct (net (mc (sv_world s))) as [n|] eqn:En; [|by apply wps_ret].
  assert (net_wf n) as Hwf.
  { destruct (sv_ok _ Hs) as [[_ _ _ E]|[t Ht]]; [congruence|]. destruct (ci_client _ _ _ Ht). destruct cw_net as (n' & E & H). congruence. }
  pose proof (Net_next_free n Hwf) as Hn. destruct (Net_getNextQueuedPacket n) as [[buf|] n1]; [|by apply wps_ret].
  destruct Hn as (pkt & n2 & Er & Hp & Ef & Hq & Hwf2). rewrite Er, Ef. apply wps_bind. eapply wps_lift; [done|]. apply wps_bind. eapply wps_lift; [done|].
  cbn [snd]. assert (server_inv (set_world (upd_mc (set_net (Some n2)) (sv_world s)) s)) as Hs2.
  { apply set_world_inv; [done|]. apply net_transport; [apply Hs|by rewrite En|done]. }
  apply wps_bind, wps_modify. destruct sends as [|sends]; [by apply wps_ret|].
  apply wps_bind, wps_modify, IH; [by apply add_out_inv|]. cbn. apply Permutation_length in Hp. cbn in Hp. rewrite Hq. lia.
Qed.

(** *** Notifications *)
Definition formatted (x : log_level * string) : list Z :=
  match format_print_notify_result x.1 (bytes_of_string x.2) with Done out => out | Fault _ => [] end.

(** What a notification for [sock] becomes. *)
Definition notify_out (s : Server) (x : Z * Maap_Notify) : list server_out :=
  if i32 x.1 =? -1 then (fun t => out_console (formatted t)) <$> print_notify x.2
  else match slot_of (i32 x.1) 0 (sv_clientfd s) with
       | None => []
       | Some i =>
           if decide (sv_wants_text s !! i = Some true) then (fun t => out_text (i32 x.1) (formatted t)) <$> print_notify x.2
           else [out_raw (i32 x.1) x.2]
       end.

Lemma for_texts_eq f g l s :
  (forall x s, text_ok x -> f x s = Done (tt, add_out [g x] s)) -> Forall text_ok l -> for_texts f l s = Done (tt, add_out (g <$> l) s).
Proof.
  intros Hf Hl. revert s. induction Hl as [|x l Hx Hl IH]; intros s; cbn.
  - unfold st_ret, add_out. by rewrite app_nil_r; destruct s.
  - unfold st_bind. rewrite Hf, IH by done. unfold add_out. cbn. by rewrite <- app_assoc.
Qed.

Lemma display_text_eq x s : text_ok x -> display_text x s = Done (tt, add_out [out_console (formatted x)] s).
Proof. intros Hx. destruct (format_text_ok x Hx) as (out & E & _). unfold display_text, formatted, st_bind, st_lift. by rewrite E. Qed.
Lemma send_text_eq fd x s : text_ok x -> send_text fd x s = Done (tt, add_out [out_text fd (formatted x)] s).
Proof. intros Hx. destruct (format_text_ok x Hx) as (out & E & _). unfold send_text, formatted, st_bind, st_lift. by rewrite E. Qed.

Lemma slot_of_some fd i fds j : slot_of fd i fds = Some j -> exists k, j = (i + k)%nat /\ fds !! k = Some fd.
Proof.
  revert i. induction fds as [|x fds IH]; intros i; [done|]. cbn. destruct (Z.eqb_spec x fd) as [->|].
  - intros [= <-]. exists 0%nat. split; [lia|done].
  - intros (k & -> & H)%IH. exists (S k). split; [lia|done].
Qed.

Lemma send_notify_eq x s : server_inv s -> send_notify x.1 x.2 s = Done (tt, add_out (notify_out s x) s).
Proof.
  intros Hs. unfold send_notify, notify_out. destruct (i32 x.1 =? -1).
  - apply for_texts_eq; [apply display_text_eq|apply print_notify_ok].
  - unfold st_bind, st_get. destruct (slot_of (i32 x.1) 0 (sv_clientfd s)) as [i|] eqn:E.
    + destruct (slot_of_some _ _ _ _ E) as (k & -> & Hk). apply lookup_lt_Some in Hk. rewrite (sv_fds _ Hs), <- (sv_texts _ Hs) in Hk.
      destruct (lookup_lt_is_Some_2 _ _ Hk) as [b Hb]. cbn [Nat.add]. rewrite Hb. cbn. destruct b.
      * rewrite decide_True by done. apply for_texts_eq; [apply send_text_eq|apply print_notify_ok].
      * rewrite decide_False by done. done.
    + unfold st_ret, add_out. rewrite app_nil_r. by destruct s.
Qed.

Lemma drop_notify w x l : world_ok w -> notifies (mc w) = x :: l -> world_ok (upd_mc (set_notifies l) w).
Proof.
  intros [[[] ? ? ?]|[t Ht]] E; [left; split; [by split|done..]|]. right. exists t. apply (client_inv_transport ∅ w); try done.
  destruct (ci_client _ _ _ Ht). by split.
Qed.

Lemma send_notifies_spec fuel s : server_inv s -> (length (notifies (mc (sv_world s))) < fuel)%nat ->
  wp (T := no_stops) (send_notifies fuel) (fun _ s' => server_inv s' /\ sv_out s' = sv_out s ++ concat (notify_out s <$> notifies (mc (sv_world s))) /\
    notifies (mc (sv_world s')) = [] /\ sv_clientfd s' = sv_clientfd s /\ sv_wants_text s' = sv_wants_text s) s.
Proof.
  revert s. induction fuel as [|fuel IH]; intros s Hs Hf; [lia|]. cbn [send_notifies]. apply wps_bind, wp_on_world. unfold get_notify.
  apply wps_bind, wp_get_mc. destruct (notifies (mc (sv_world s))) as [|x l] eqn:El.
  - apply wps_ret, wps_ret. cbn. rewrite El, app_nil_r. split_and!; try done. by apply set_world_inv, Hs.
  - apply wps_bind, wps_modify, wps_ret. destruct x as [sock mn]. set (s1 := set_world _ s).
    assert (server_inv s1) as Hs1 by (apply set_world_inv; [done|]; eapply drop_notify; [apply Hs|done]).
    apply wps_bind. eapply wps_intro; [exact (send_notify_eq (sock, mn) s1 Hs1)|]. cbn in Hf.
    eapply wps_mono; [apply IH; [by apply add_out_inv|cbn; lia]|]. intros ? s' (H1 & H2 & H3 & H4 & H5). split_and!; try done.
    rewrite H2. cbn. rewrite <- app_assoc. done.
Qed.

(** *** Commands from the terminal and from clients *)
Definition buffer_ok (b : list Z) : Prop := length b = RECV_SIZE /\ Forall is_byte b.

Lemma store_recv_ok data buf : buffer_ok buf -> (length data <= RECV_SIZE)%nat -> Forall is_byte data -> buffer_ok (store_recv data buf).
Proof.
  intros [Hl Hb] Hd Hf. unfold store_recv. split; [rewrite length_app, length_drop; lia|]. apply Forall_app. split; [done|by apply Forall_drop].
Qed.

Lemma strtok_cut_ok n tok buf : buffer_ok buf -> buffer_ok (strtok_cut n tok buf).
Proof.
  intros [Hl Hb]. assert (length (strtok_cut n tok buf) = length buf /\ Forall is_byte (strtok_cut n tok buf)) as [H1 H2]; [|by split; [rewrite H1|]].
  clear Hl. revert n tok. induction Hb as [|b buf Hb Hbs IH]; intros n tok; [done|]. cbn [strtok_cut].
  destruct n as [|n]; [split; [done|by constructor]|]. destruct (b =? 0); [split; [done|by constructor]|].
  destruct (is_delim b); [destruct tok|]; cbn; (split; [f_equal; apply IH|constructor; [done|apply IH]]).
Qed.

Lemma set_buffer_inv b s : server_inv s -> buffer_ok b -> server_inv (set_buffer b s).
Proof. intros [] []. by split. Qed.
Lemma server_buffer s : server_inv s -> buffer_ok (sv_recvbuffer s).
Proof. intros []. by split. Qed.

Lemma server_command_ok sock refuse s : server_inv s -> room_ok (sv_world s) -> buffer_contract (sv_world s) (sv_recvbuffer s) ->
  (forall b s, server_inv s -> wp (refuse b) (fun _ => server_inv) s) -> wp (server_command sock refuse) (fun _ => server_inv) s.
Proof.
  intros Hs Hr Hc Hf. unfold server_command. apply wps_bind, wps_get, wps_bind. destruct (server_buffer _ Hs) as [Hl Hb].
  eapply wps_mono; [apply on_world_ok; [done|by apply parse_write_ok; [apply Hs|..]]|]. intros [v text] s1 H1. cbn beta iota.
  set (cut := if text then _ else _). assert (buffer_ok cut) as Hcut by (subst cut; destruct text; [by apply strtok_cut_ok|done]).
  apply wps_bind, wps_modify, wps_bind. assert (server_inv (set_buffer cut s1)) as H2 by (by apply set_buffer_inv).
  assert (wp (when 0 <? v do st_modify set_exit) (fun _ => server_inv) (set_buffer cut s1)) as Hw.
  { destruct (0 <? v); [apply wps_modify; destruct H2; by split|by apply wps_ret]. }
  eapply wps_mono; [exact Hw|]. intros ? s2 H3. apply wps_bind.
  assert (wp (when v <? 0 do refuse cut) (fun _ => server_inv) s2) as Hw2 by (destruct (v <? 0); [by apply Hf|by apply wps_ret]).
  eapply wps_mono; [exact Hw2|]. intros ? s3 H4. by apply wps_ret.
Qed.

Lemma for_texts_ok f g l s :
  (forall x s, text_ok x -> f x s = Done (tt, add_out [g x] s)) -> Forall text_ok l -> server_inv s -> wp (for_texts f l) (fun _ => server_inv) s.
Proof. intros Hf Hl Hs. eapply wps_intro; [by apply (for_texts_eq f g)|]. by apply add_out_inv. Qed.

Lemma stdin_command_ok data s : server_inv s -> room_ok (sv_world s) -> Forall is_byte data ->
  buffer_contract (sv_world s) (store_recv (take (RECV_SIZE - 1) data ++ [0]) (sv_recvbuffer s)) ->
  wp (stdin_command data) (fun _ => server_inv) s.
Proof.
  intros Hs Hr Hd Hc. unfold stdin_command. apply wps_bind, wps_modify, wps_bind. set (s1 := set_buffer _ s).
  assert (server_inv s1) as Hs1.
  { apply set_buffer_inv; [done|]. apply store_recv_ok; [by apply server_buffer|rewrite length_app, length_take; unfold RECV_SIZE; cbn [length]; lia|].
    apply Forall_app. split; [by apply Forall_take|]. repeat constructor; lia. }
  eapply wps_mono; [apply server_command_ok; [done..|]|intros ? s2 H2; by apply wps_ret]. intros b s2 H2. apply wps_bind.
  assert (wp (when negb (is_help b) do st_modify (add_out [out_console (bytes_of_string ("Invalid command type" +:+ newline))])) (fun _ => server_inv) s2) as Hw.
  { destruct (negb (is_help b)); [by apply wps_modify, add_out_inv|by apply wps_ret]. }
  eapply wps_mono; [exact Hw|]. intros ? s3 H3. by apply (for_texts_ok _ (fun t => out_console (formatted t))); [apply display_text_eq|apply parse_usage_ok|].
Qed.

Lemma client_command_ok i fd data s : server_inv s -> room_ok (sv_world s) -> Forall is_byte data -> (length data < RECV_SIZE)%nat ->
  buffer_contract (sv_world s) (store_recv (data ++ [0]) (sv_recvbuffer s)) -> wp (client_command i fd data) (fun _ => server_inv) s.
Proof.
  intros Hs Hr Hd Hl Hc. unfold client_command. rewrite take_ge by lia. apply Nat.ltb_lt in Hl as Hlb. rewrite Hlb.
  apply wps_bind. eapply wps_lift; [done|]. apply wps_bind, wps_modify, wps_bind. set (s1 := set_buffer _ s).
  assert (server_inv s1) as Hs1.
  { apply set_buffer_inv; [done|]. apply store_recv_ok; [by apply server_buffer|rewrite length_app; cbn [length]; lia|].
    apply Forall_app. split; [done|]. repeat constructor; lia. }
  assert (forall x s, text_ok x -> send_text fd x s = Done (tt, add_out [out_text fd (formatted x)] s)) as Ht by (intros; by apply send_text_eq).
  eapply wps_mono; [apply server_command_ok; [done..|]|].
  - intros b s2 H2. apply wps_bind.
    assert (wp (when negb (is_help b) do send_text fd (LEVEL_INFO, "Invalid command type")) (fun _ => server_inv) s2) as Hw.
    { destruct (negb (is_help b)); [|by apply wps_ret]. eapply wps_intro; [apply Ht; unfold text_ok; cbn; lia|]. by apply add_out_inv. }
    eapply wps_mono; [exact Hw|]. intros ? s3 H3. by apply (for_texts_ok _ (fun t => out_text fd (formatted t))); [|apply parse_usage_ok|].
  - intros text s2 H2. apply wps_modify. destruct H2. split; try done. cbn. by rewrite length_insert.
Qed.

(** *** Packets and timers before the first [init] *)
Lemma fresh_packet data w : fresh w -> Forall is_byte data -> wp (maap_handle_packet data (Z.of_nat (length data))) (fun _ => world_ok) w.
Proof.
  intros Hf Hb. assert (world_ok w) as Hw by (by left). destruct Hf as [[] Er Eq En]. unfold maap_handle_packet, MAAP_PKT_SIZE.
  destruct (Z.ltb_spec (Z.of_nat (length data)) 42) as [|Hs]; [by apply wps_ret|].
  destruct (unpack_stream data ltac:(lia) Hb) as (p & _ & _ & Hun).
  apply wps_bind. eapply wps_lift; [apply Hun; apply uninit_tmp64_ok|]. destruct (negb (is_maap_packet p)); [by apply wps_ret|].
  apply wps_bind, wp_get_mc. destruct (_ || _); [by apply wps_ret|]. apply wps_bind, wps_get, wps_bind.
  rewrite Er, bl_ih. eapply wps_lift; [reflexivity|]. apply wps_bind. unfold loop_fuel. cbn [flag_loop]. apply wps_ret.
  apply wps_bind. cbn [overlap_loop]. apply wps_ret, wps_bind. unfold start_timer. apply wps_bind, wp_get_mc. rewrite Eq. by apply wps_ret, wps_ret.
Qed.

Lemma tick_ok w : world_ok w -> world_ok (upd_tick w).
Proof.
  intros [[[] ? ? ?]|[t Ht]]; [left; split; [by split|done..]|]. right. exists t.
  apply (client_inv_transport ∅ w t (mc w)); try done. apply Ht.
Qed.

Lemma fresh_timer w : fresh w -> wp maap_handle_timer (fun _ => world_ok) w.
Proof.
  intros Hf. assert (world_ok (upd_tick w)) as Hw by (by apply tick_ok; left). destruct Hf as [[] Er Eq En].
  unfold maap_handle_timer. apply wps_bind. unfold c_clock, wp at 1. apply wps_bind, wp_get_mc. cbn [mc upd_tick]. rewrite Eq.
  apply wps_bind. cbn [length timer_loop]. apply wps_bind, wp_get_mc. cbn [mc upd_tick]. rewrite Eq. apply wps_ret, wps_bind.
  unfold start_timer. apply wps_bind, wp_get_mc. cbn [mc upd_tick]. rewrite Eq. by apply wps_ret, wps_ret.
Qed.

Lemma world_op_ok op w : world_ok w -> room_ok w -> match op with OpPacket data => Forall is_byte data | OpTimer => True | _ => False end ->
  wp (run_op op) (fun _ => world_ok) w.
Proof.
  intros Hw Hr Ho. destruct (initialized (mc w)) eqn:Ei.
  - apply op_safe_ok; [done..|]. split; [done|]. by destruct op.
  - pose proof (uninitialized_fresh w Hw Ei). destruct op; try done; [by apply fresh_packet|by apply fresh_timer].
Qed.

Lemma delay_ok w : world_ok w -> wp maap_get_delay_to_next_timer (fun _ => world_ok) w.
Proof.
  intros Hw. unfold maap_get_delay_to_next_timer. apply wps_bind, wp_get_mc. destruct (timer (mc w)); [|by apply wps_ret].
  destruct (timer_queue (mc w)); [by apply wps_ret|]. apply wps_bind. unfold c_clock, wp at 1. by apply wps_ret, tick_ok.
Qed.

Lemma server_accept_inv fd s : server_inv s -> server_inv (server_accept fd s).
Proof.
  intros Hs. unfold server_accept. set (x := if decide _ then _ else _). destruct (x =? -1); [done|]. destruct Hs.
  split; cbn -[SERVER_CLIENTS Nat.modulo]; try done; [by rewrite length_insert|]. apply Nat.mod_upper_bound. done.
Qed.

(** Every event within the contract is carried out. *)
Lemma server_do_ok e s : server_inv s -> event_ok s e -> wp (server_do e) (fun _ => server_inv) s.
Proof.
  intros Hs [Hr He]. destruct e as [sends| | | |data|fd|data|i data]; cbn [server_do].
  - apply wps_bind, wps_get, send_packets_ok; [done|]. unfold queue_size. destruct (net _) as [n|]; [|lia]. pose proof (queued_short n). lia.
  - apply wps_bind, wps_get. eapply wps_mono; [by apply wp_exact, send_notifies_spec; [|lia]|]. by intros ? s' [? _].
  - apply wps_bind. eapply wps_mono; [apply on_world_ok; [done|apply delay_ok, Hs]|]. intros ? s' H'. by apply wps_ret.
  - apply wps_bind. eapply wps_mono; [apply on_world_ok; [done|by apply (world_op_ok OpTimer); [apply Hs|..]]|]. intros ? s' H'. by apply wps_ret.
  - apply wps_bind, wps_modify, wps_bind. set (d := take RECV_SIZE data). assert (Forall is_byte d) as Hd by (by apply Forall_take).
    assert (server_inv (set_buffer (store_recv d (sv_recvbuffer s)) s)) as Hs1.
    { apply set_buffer_inv; [done|]. apply store_recv_ok; [by apply server_buffer|subst d; rewrite length_take; lia|done]. }
    eapply wps_mono; [apply on_world_ok; [done|by apply (world_op_ok (OpPacket d)); [apply Hs|..]]|]. intros ? s' H'. by apply wps_ret.
  - by apply wps_modify, server_accept_inv.
  - destruct data as [|b data]; [by apply wps_ret|]. destruct He. by apply stdin_command_ok.
  - apply wps_bind, wps_get. destruct (sv_clientfd s !! i) as [fd|] eqn:Ei; [|by apply wps_ret]. destruct (fd =? -1); [by apply wps_ret|].
    assert (i < SERVER_CLIENTS)%nat as Hi by (apply lookup_lt_Some in Ei; by rewrite (sv_fds _ Hs) in Ei).
    assert (server_inv (set_clients (<[i := -1]> (sv_clientfd s)) i s)) as Hs1 by (destruct Hs; split; try done; cbn; by rewrite length_insert).
    destruct data as [[|b data]|]; [by apply wps_modify| |by apply wps_modify]. destruct He as (? & ? & ?). by apply client_command_ok.
Qed.
End safety.

(** ** The life of the daemon *)
Section life.
Context {env : Environment}.

Inductive server_reach (w0 : World) : Server -> Prop :=
  | server_reach_start junk : Forall is_byte junk -> server_reach w0 (server_start w0 junk)
  | server_reach_step e s s' : server_reach w0 s -> event_ok s e -> server_do e s = Done (tt, s') -> server_reach w0 s'.

End life.

Lemma resize_bytes n l : Forall is_byte l -> Forall is_byte (resize n 0 l).
Proof. intros Hl. apply Forall_resize; [unfold is_byte; lia|done]. Qed.

Lemma server_reach_inv {env : Environment} w0 s :
  memory_available env -> late_tolerated env -> fresh w0 -> server_reach w0 s -> server_inv s.
Proof.
  intros Hmem Hlate Hw. induction 1 as [junk Hj|e s s' Hr IH He E].
  - split; cbn [server_start sv_world sv_clientfd sv_wants_text sv_next sv_recvbuffer]; try (by rewrite length_replicate); [by left|unfold SERVER_CLIENTS; lia|apply length_resize|].
    by apply resize_bytes.
  - exact (wp_return _ _ _ _ _ (server_do_ok Hmem Hlate e s IH He) E).
Qed.

Definition spans_apart (w : World) : Prop :=
  forall r1 r2 lo1 hi1 lo2 hi2, r1 <> r2 -> range_span w r1 lo1 hi1 -> range_span w r2 lo2 hi2 -> hi1 < lo2 \/ hi2 < lo1.

Lemma world_spans_apart w : world_ok w -> spans_apart w.
Proof.
  intros [[[] _ _ _]|[t Ht]] r1 r2 lo1 hi1 lo2 hi2 Hne Hr1 Hr2.
  - destruct Hr1 as (R1 & a1 & HR1 & _). by rewrite bl_rh, lookup_empty in HR1.
  - by apply (spans_disjoint w t r1 r2).
Qed.
End mode.

(** ** Observed runs of the daemon *)
Section observed.
Context (env : Environment).

Lemma stopped_on_world {A} (m' m : stM World A) : stopped_or m' m -> stopped_or (on_world m') (on_world m).
Proof. intros Hm s. unfold on_world. destruct (Hm (sv_world s)) as [E|E]; rewrite E; [by left|by right]. Qed.

Lemma watched_parse_write sndr buf : stopped_or (@parse_write (watched env) sndr buf) (@parse_write env sndr buf).
Proof.
  unfold parse_write. stopped; [same_run|]. destruct (read_cmd buf) as [[c|] text]; [|same_run]. stopped; [|same_run].
  unfold run_cmd. destruct (cmd_kind c).
  - same_run.
  - stopped; [apply watched_reserve|same_run].
  - same_run.
  - same_run.
  - stopped; [apply watched_yield|same_run].
  - same_run.
Qed.
Lemma watched_command sock refuse : stopped_or (@server_command (watched env) sock refuse) (@server_command env sock refuse).
Proof. unfold server_command. stopped; [same_run|]. stopped; [apply stopped_on_world, watched_parse_write|same_run]. Qed.

Lemma watched_do e : stopped_or (@server_do (watched env) e) (@server_do env e).
Proof.
  destruct e as [sends| | | |data|fd|data|i data]; cbn [server_do].
  - same_run.
  - same_run.
  - same_run.
  - same_run.
  - stopped; [same_run|]. stopped; [apply stopped_on_world, watched_packet|same_run].
  - same_run.
  - destruct data as [|b data]; [same_run|]. unfold stdin_command. stopped; [same_run|]. stopped; [apply watched_command|same_run].
  - stopped; [same_run|]. match goal with s : Server |- _ => destruct (sv_clientfd s !! i) as [fd|] end; [|same_run]. stopped; [same_run|].
    destruct data as [[|b data]|]; [same_run| |same_run]. unfold client_command. do 2 (stopped; [same_run|]). stopped; [apply watched_command|same_run].
Qed.

(** What is reached in watched runs is reached. *)
Lemma watched_reach w0 s : @server_reach (watched env) w0 s -> @server_reach env w0 s.
Proof.
  induction 1 as [junk Hj|e s s' Hr IH He E]; [by apply server_reach_start|].
  eapply server_reach_step; [exact IH|exact He|]. destruct (watched_do e s) as [H|H]; congruence.
Qed.
End observed.


