(* ===== verification/MaapServerExamples.v ===== *)
(** * MaapServerExamples: the MAAP daemon on concrete inputs *)
From stdpp Require Import base gmap strings numbers list.
From S2P Require Import Prelude Text Parse Intervals IntervalTree IntervalUpdate MaapPacket MaapTime MaapNet Maap.
From S2P Require Import MaapInv MaapClient MaapProps MaapExamples MaapParse MaapText MaapServer MaapServerProps.
#[local] Open Scope Z_scope.
#[local] Open Scope st_scope.

Definition server_after (e : server_event) (s : Server) : Server := match server_do e s with Done (_, s') => s' | Fault _ => s end.

Lemma blank_world_fresh : fresh blank_world.
Proof. split; [apply blank_world_ok|done..]. Qed.

Definition line (s : string) : list Z := bytes_of_string (s +:+ newline).

(** A client connects, sets the daemon up and reserves sixteen addresses. *)
Definition sv_connected : Server := server_after (ev_accept 5) (server_start blank_world []).
Definition sv_init : Server := server_after (ev_client 0 (Some (line "init"))) sv_connected.
Definition sv_reserved : Server := server_after (ev_client 0 (Some (line "reserve 16"))) sv_init.

Lemma bytes_line s : Forall is_byte (line s).
Proof. apply bytes_of_string_bytes. Qed.

Lemma sv_connected_reach : @server_reach (watched sample_env) blank_world sv_connected.
Proof.
  apply (server_reach_step _ (ev_accept 5) (server_start blank_world [])); [apply server_reach_start; constructor|by split|].
  vm_compute. reflexivity.
Qed.
Lemma sv_init_reach : @server_reach (watched sample_env) blank_world sv_init.
Proof.
  apply (server_reach_step _ (ev_client 0 (Some (line "init"))) sv_connected); [apply sv_connected_reach| |vm_compute; reflexivity].
  split; [done|]. split; [apply bytes_line|]. split; [apply (bool_decide_unpack _); vm_compute; exact I|].
  unfold buffer_contract.
  match goal with |- context [read_cmd ?b] => assert (read_cmd b = (Some (mkMaapCmd MAAP_CMD_INIT (-1) MAAP_DYNAMIC_POOL_BASE MAAP_DYNAMIC_POOL_SIZE), true)) as -> by (vm_compute; reflexivity) end.
  intros _. vm_compute. split; congruence.
Qed.

(** Sixteen addresses, in [sv_init]. *)
Lemma reserve_16_ok : event_ok sv_init (ev_client 0 (Some (line "reserve 16"))).
Proof.
  split; [vm_compute; reflexivity|]. split; [apply bytes_line|]. split; [apply (bool_decide_unpack _); vm_compute; exact I|].
  unfold buffer_contract.
  match goal with |- context [read_cmd ?b] => assert (read_cmd b = (Some (mkMaapCmd MAAP_CMD_RESERVE (-1) 0 16), true)) as -> by (vm_compute; reflexivity) end.
  intros _. cbn. lia.
Qed.


Lemma sv_reserved_reach : @server_reach (watched sample_env) blank_world sv_reserved.
Proof. apply (server_reach_step _ (ev_client 0 (Some (line "reserve 16"))) sv_init); [apply sv_init_reach|apply reserve_16_ok|vm_compute; reflexivity]. Qed.


(** ** What stops the daemon *)

(** A client that sends as many bytes as the buffer holds makes the daemon write the zero behind
    them past its end. *)
Theorem server_overwrites (env : Environment) s i fd data :
  sv_clientfd s !! i = Some fd -> fd <> -1 -> (RECV_SIZE <= length data)%nat ->
  server_do (ev_client i (Some data)) s = Fault OutOfBounds.
Proof.
  intros Hi Hf Hl. cbn [server_do]. unfold st_bind at 1, st_get. rewrite Hi. apply Z.eqb_neq in Hf. rewrite Hf.
  destruct data as [|b data]; [cbn in Hl; unfold RECV_SIZE in Hl; lia|]. unfold client_command. unfold st_bind at 1.
  rewrite length_take. destruct (Nat.ltb_spec (RECV_SIZE `min` length (b :: data)) RECV_SIZE); [lia|done].
Qed.

Lemma server_overwrites_witness : server_do (ev_client 0 (Some (replicate 1600 65))) sv_connected = Fault OutOfBounds.
Proof. apply (server_overwrites sample_env sv_connected 0 5); [reflexivity|lia|rewrite length_replicate; unfold RECV_SIZE; lia]. Defined.

(** A reservation of no addresses at the base of the pool fails an assertion. *)
Theorem server_aborts : server_do (ev_client 0 (Some (line "reserve 0x91e0f0000000 0"))) sv_init = Fault AssertFail.
Proof. vm_compute. reflexivity. Qed.
