(* ===== verification/MaapLogQueue.v ===== *)
(** * MaapLogQueue: the ring of log messages

    Model of [daemons/maap/common/maap_log_queue.c], of which the shaper has a copy: a ring of
    elements with a flag each, filled at [head] and emptied at [tail].  The ring implements
    a bounded first-in first-out queue; the number of elements it reports is wrong when it
    is full. *)
From stdpp Require Import base gmap numbers list.
From S2P Require Import Prelude.
#[local] Open Scope Z_scope.

Record queue_elem := mkElem { setFlg : bool; elem_data : list Z }.

Record log_queue := mkQueue {
  elemSize : Z;
  queueSize : Z;
  q_head : Z;
  q_tail : Z;
  elemArray : list queue_elem }.

(** [avail n] says whether the [n]-th [calloc] succeeds. *)
Definition maapLogQueueNewQueue (avail : nat -> bool) (size count : Z) : option log_queue :=
  if (size <? 1) || (count <? 1) then None
  else if forallb avail (seq 0 (2 + Z.to_nat count)) then
    Some (mkQueue size count 0 0 (replicate (Z.to_nat count) (mkElem false (replicate (Z.to_nat size) 0))))
  else None.

Definition elem_at (q : log_queue) (i : Z) : outcome queue_elem := or_fault OutOfBounds (elemArray q !! Z.to_nat i).

Definition maapLogQueueGetElemCount (q : log_queue) : outcome Z :=
  let cnt :=
    if q_tail q <? q_head q then u32 (q_head q - q_tail q - 1)
    else if q_head q <? q_tail q then u32 (q_head q + ((queueSize q - 1) - q_tail q))
    else 0 in
  e ← elem_at q (q_tail q);
  Done (if setFlg e then u32 (cnt + 1) else cnt).

(** The element at [head], if it is free; its address is its index. *)
Definition maapLogQueueHeadLock (q : log_queue) : outcome (option Z) :=
  e ← elem_at q (q_head q);
  Done (if setFlg e then None else Some (q_head q)).

Definition maapLogQueueTailLock (q : log_queue) : outcome (option Z) :=
  e ← elem_at q (q_tail q);
  Done (if setFlg e then Some (q_tail q) else None).

(** [maapLogQueueData], written and read through. *)
Definition write_data (q : log_queue) (i : Z) (d : list Z) : outcome log_queue :=
  e ← elem_at q i;
  if Z.of_nat (length d) <=? elemSize q then
    Done (mkQueue (elemSize q) (queueSize q) (q_head q) (q_tail q)
      (<[Z.to_nat i := mkElem (setFlg e) (d ++ drop (length d) (elem_data e))]> (elemArray q)))
  else Fault OutOfBounds.

Definition put_flag (q : log_queue) (i : Z) (b : bool) : outcome (list queue_elem) :=
  e ← elem_at q i; Done (<[Z.to_nat i := mkElem b (elem_data e)]> (elemArray q)).

Definition wrap_index (q : log_queue) (i : Z) : Z := if queueSize q <=? i then 0 else i.

Definition maapLogQueueHeadPush (q : log_queue) : outcome log_queue :=
  l ← put_flag q (q_head q) true;
  Done (mkQueue (elemSize q) (queueSize q) (wrap_index q (u32 (q_head q + 1))) (q_tail q) l).

Definition maapLogQueueTailPull (q : log_queue) : outcome log_queue :=
  l ← put_flag q (q_tail q) false;
  Done (mkQueue (elemSize q) (queueSize q) (q_head q) (wrap_index q (u32 (q_tail q + 1))) l).

(** What the logging functions do with it: a message is dropped when the ring is full. *)
Definition enqueue (q : log_queue) (d : list Z) : outcome (bool * log_queue) :=
  slot ← maapLogQueueHeadLock q;
  match slot with
  | None => Done (false, q)
  | Some i => q1 ← write_data q i d; q2 ← maapLogQueueHeadPush q1; Done (true, q2)
  end.

Definition dequeue (q : log_queue) : outcome (option (list Z) * log_queue) :=
  slot ← maapLogQueueTailLock q;
  match slot with
  | None => Done (None, q)
  | Some i => e ← elem_at q i; q1 ← maapLogQueueTailPull q; Done (Some (elem_data e), q1)
  end.

(** ** The queue it implements *)

(** The index of the [k]-th element from the tail. *)
Definition ring (q : log_queue) (k : nat) : nat := Z.to_nat ((q_tail q + Z.of_nat k) mod queueSize q).

Record holds (q : log_queue) (l : list (list Z)) : Prop := mkHolds {
  h_size : 1 <= queueSize q < 2 ^ 32;
  h_len : length (elemArray q) = Z.to_nat (queueSize q);
  h_tail : 0 <= q_tail q < queueSize q;
  h_count : Z.of_nat (length l) <= queueSize q;
  h_head : q_head q = (q_tail q + Z.of_nat (length l)) mod queueSize q;
  h_data : forall e, e ∈ elemArray q -> Z.of_nat (length (elem_data e)) = elemSize q;
  h_full k d : l !! k = Some d -> elemArray q !! ring q k = Some (mkElem true d);
  h_free k : (length l <= k)%nat -> (k < Z.to_nat (queueSize q))%nat -> exists d, elemArray q !! ring q k = Some (mkElem false d) }.

Lemma ring_inj q j k : 1 <= queueSize q -> Z.of_nat j < queueSize q -> Z.of_nat k < queueSize q -> ring q j = ring q k -> j = k.
Proof.
  intros Hs Hj Hk. unfold ring. pose proof (Z.mod_pos_bound (q_tail q + Z.of_nat j) (queueSize q) ltac:(lia)).
  pose proof (Z.mod_pos_bound (q_tail q + Z.of_nat k) (queueSize q) ltac:(lia)). intros E%Z2Nat.inj; [|lia..].
  assert ((Z.of_nat j - Z.of_nat k) mod queueSize q = 0) as E0.
  { replace (Z.of_nat j - Z.of_nat k) with ((q_tail q + Z.of_nat j) - (q_tail q + Z.of_nat k)) by lia. by rewrite Zminus_mod, E, Z.sub_diag, Zmod_0_l. }
  apply Z.mod_divide in E0 as [m Hm]; [|lia]. destruct (Z.eq_dec m 0); [lia|]. nia.
Qed.

Lemma ring_lt q k : 1 <= queueSize q -> (ring q k < Z.to_nat (queueSize q))%nat.
Proof. intros Hs. unfold ring. pose proof (Z.mod_pos_bound (q_tail q + Z.of_nat k) (queueSize q) ltac:(lia)). lia. Qed.

Lemma wrap_index_mod q i : 1 <= queueSize q < 2 ^ 32 -> 0 <= i < queueSize q -> wrap_index q (u32 (i + 1)) = (i + 1) mod queueSize q.
Proof.
  intros Hs Hi. unfold wrap_index. rewrite u32_small by lia. destruct (Z.leb_spec (queueSize q) (i + 1)).
  - replace (i + 1) with (queueSize q) by lia. by rewrite Z_mod_same_full.
  - by rewrite Z.mod_small by lia.
Qed.

Lemma new_queue_holds avail size count q :
  maapLogQueueNewQueue avail size count = Some q -> count < 2 ^ 32 -> holds q [].
Proof.
  unfold maapLogQueueNewQueue. destruct ((size <? 1) || (count <? 1)) eqn:E; [done|]. apply orb_false_iff in E as [E1%Z.ltb_ge E2%Z.ltb_ge].
  destruct (forallb _ _); [|done]. intros [= <-] Hc. split; cbn -[replicate]; try lia; try done.
  - by rewrite length_replicate.
  - intros e [-> _]%elem_of_replicate. cbn. rewrite length_replicate. lia.
  - intros k _ Hk. eexists. apply lookup_replicate_2. pose proof (ring_lt (mkQueue size count 0 0 []) k ltac:(cbn; lia)) as H. cbn in H. exact H.
Qed.

Lemma index_of_head q l : holds q l -> (length l < Z.to_nat (queueSize q))%nat -> Z.to_nat (q_head q) = ring q (length l).
Proof. intros [] _. unfold ring. by rewrite h_head0. Qed.

Lemma free_head q l : holds q l -> Z.of_nat (length l) < queueSize q -> exists d, elemArray q !! Z.to_nat (q_head q) = Some (mkElem false d).
Proof. intros Hh Hl. rewrite (index_of_head q l) by (done || lia). apply (h_free _ _ Hh); lia. Qed.

Lemma full_head q l : holds q l -> Z.of_nat (length l) = queueSize q -> exists d, elemArray q !! Z.to_nat (q_head q) = Some (mkElem true d).
Proof.
  intros Hh Hl. destruct l as [|d l]; [destruct Hh; cbn in *; lia|]. exists d.
  rewrite (h_head _ _ Hh), Hl, <- Z.add_mod_idemp_r, Z_mod_same_full by (destruct Hh; lia). exact (h_full _ _ Hh 0 d eq_refl).
Qed.

(** A message goes to the end of the queue, or is refused when the ring is full. *)
Lemma enqueue_spec q l d : holds q l -> Z.of_nat (length d) = elemSize q ->
  exists q', enqueue q d = Done (bool_decide (Z.of_nat (length l) < queueSize q), q') /\
    holds q' (if decide (Z.of_nat (length l) < queueSize q) then l ++ [d] else l) /\ queueSize q' = queueSize q /\ elemSize q' = elemSize q.
Proof.
  intros Hh Hd. unfold enqueue, maapLogQueueHeadLock, elem_at. destruct (decide (Z.of_nat (length l) < queueSize q)) as [Hl|Hl].
  - rewrite bool_decide_eq_true_2 by done. destruct (free_head q l Hh Hl) as [d0 E]. rewrite E. cbn.
    unfold write_data, elem_at. rewrite E. cbn. rewrite (proj2 (Z.leb_le _ _)) by lia. cbn.
    assert (length d0 = length d) as El by (pose proof (h_data _ _ Hh _ (list_elem_of_lookup_2 _ _ _ E)) as H; cbn in H; lia).
    rewrite drop_ge, app_nil_r by lia. unfold maapLogQueueHeadPush, put_flag, elem_at. cbn.
    apply lookup_lt_Some in E as Elt. rewrite list_lookup_insert_eq by done. cbn. rewrite list_insert_insert_eq. eexists. split; [reflexivity|].
    split; [|done]. pose proof (index_of_head q l Hh ltac:(lia)) as Ei. rewrite Ei in *. destruct Hh as [Hs Hlen Ht Hc Hhd Hda Hfull Hfree].
    split; cbn [queueSize elemSize q_head q_tail elemArray]; try done.
    + by rewrite length_insert.
    + rewrite length_app. cbn. lia.
    + unfold wrap_index. cbn [queueSize]. fold (wrap_index q (u32 (q_head q + 1))). rewrite wrap_index_mod; [|done|rewrite Hhd; apply Z.mod_pos_bound; lia].
      rewrite Hhd, Z.add_mod_idemp_l by lia. f_equal. rewrite length_app. cbn. lia.
    + intros e He. apply list_elem_of_lookup in He as [j Hj]. apply list_lookup_insert_Some in Hj as [(<- & <- & _)|[_ Hj]]; [cbn; lia|].
      apply Hda. by eapply list_elem_of_lookup_2.
    + intros k x Hk. change (ring _ k) with (ring q k). apply lookup_app_Some in Hk as [Hk|[Hk1 Hk2]].
      * rewrite list_lookup_insert_ne; [by apply Hfull|]. apply lookup_lt_Some in Hk. intros E0%ring_inj; lia.
      * destruct (k - length l)%nat as [|m] eqn:Em; [|done]. cbn in Hk2. injection Hk2 as <-. replace k with (length l) by lia. by rewrite list_lookup_insert_eq.
    + intros k Hk1 Hk2. change (ring _ k) with (ring q k). rewrite length_app in Hk1. cbn in Hk1.
      rewrite list_lookup_insert_ne; [by apply Hfree; lia|]. intros E0%ring_inj; lia.
  - rewrite bool_decide_eq_false_2 by done. destruct (full_head q l Hh) as [d0 E]; [destruct Hh; lia|]. rewrite E. cbn. by exists q.
Qed.

Lemma ring_tail q l : holds q l -> ring q 0 = Z.to_nat (q_tail q).
Proof. intros []. unfold ring. rewrite Z.mod_small; lia. Qed.

(** The ring one further. *)
Lemma ring_next q q' k : queueSize q' = queueSize q -> q_tail q' = (q_tail q + 1) mod queueSize q -> 1 <= queueSize q ->
  ring q' k = ring q (S k).
Proof. intros Es Et Hs. unfold ring. rewrite Es, Et, Z.add_mod_idemp_l by lia. do 2 f_equal. lia. Qed.

Lemma ring_full q : 1 <= queueSize q -> ring q (Z.to_nat (queueSize q)) = ring q 0.
Proof. intros Hs. unfold ring. rewrite Z2Nat.id by lia. rewrite <- Z.add_mod_idemp_r, Z_mod_same_full by lia. done. Qed.

(** The oldest message is taken off the queue. *)
Lemma dequeue_spec q l : holds q l ->
  exists q', dequeue q = Done (head l, q') /\ holds q' (tail l) /\ queueSize q' = queueSize q /\ elemSize q' = elemSize q.
Proof.
  intros Hh. unfold dequeue, maapLogQueueTailLock, elem_at. destruct l as [|d l].
  - destruct (h_free _ _ Hh 0) as [d E]; [cbn; lia|destruct Hh; lia|]. rewrite (ring_tail q _ Hh) in E. rewrite E. cbn. by exists q.
  - pose proof (h_full _ _ Hh 0 d eq_refl) as E. rewrite (ring_tail q _ Hh) in E. rewrite E. cbn.
    unfold maapLogQueueTailPull, put_flag, elem_at. rewrite E. cbn. eexists. split; [reflexivity|]. split; [|done].
    destruct Hh as [Hs Hlen Ht Hc Hhd Hda Hfull Hfree]. cbn [length] in *. set (q' := mkQueue _ _ _ _ _).
    assert (q_tail q' = (q_tail q + 1) mod queueSize q) as Et.
    { cbn. unfold wrap_index. cbn [queueSize]. fold (wrap_index q (u32 (q_tail q + 1))). by apply wrap_index_mod. }
    assert (forall k, ring q' k = ring q (S k)) as Er by (intros k; by apply ring_next; [|exact Et|lia]).
    assert (Z.to_nat (q_tail q) = ring q 0) as E0 by (unfold ring; rewrite Z.mod_small; lia).
    split; [done|cbn; by rewrite length_insert|rewrite Et; change (queueSize q') with (queueSize q); apply Z.mod_pos_bound; lia|cbn; lia| | | |].
    + rewrite Et. change (queueSize q') with (queueSize q). cbn [q' q_head]. rewrite Hhd, Z.add_mod_idemp_l by lia. f_equal. lia.
    + intros e He. apply list_elem_of_lookup in He as [j Hj]. cbn in Hj. apply list_lookup_insert_Some in Hj as [(<- & <- & _)|[_ Hj]].
      * cbn. apply (Hda _ (list_elem_of_lookup_2 _ _ _ E)).
      * apply Hda. by eapply list_elem_of_lookup_2.
    + intros k x Hk. rewrite Er. cbn [q' elemArray]. apply lookup_lt_Some in Hk as Hkl. rewrite list_lookup_insert_ne; [by apply Hfull|].
      rewrite E0. intros E1%ring_inj; lia.
    + intros k Hk1 Hk2. rewrite Er. cbn [q' elemArray] in *. destruct (decide (S k = Z.to_nat (queueSize q))) as [Ek|Ek].
      * rewrite Ek, ring_full, E0 by lia. exists d. apply list_lookup_insert_eq. rewrite <- E0. by apply lookup_lt_Some in E.
      * rewrite list_lookup_insert_ne; [apply Hfree; cbn in *; lia|]. rewrite E0. cbn in Hk2. intros E1%ring_inj; lia.
Qed.

(** The count, which is wrong for a full ring of more than one element. *)
Lemma count_spec q l : holds q l ->
  maapLogQueueGetElemCount q = Done (if decide (Z.of_nat (length l) = queueSize q) then 1 else Z.of_nat (length l)).
Proof.
  intros Hh. unfold maapLogQueueGetElemCount, elem_at. rewrite <- (ring_tail q l Hh).
  assert (exists d, elemArray q !! ring q 0 = Some (mkElem (bool_decide (l <> [])) d)) as [d E].
  { destruct l as [|d l]; [destruct (h_free _ _ Hh 0) as [d E]; [cbn; lia|destruct Hh; lia|]; by exists d|exists d; exact (h_full _ _ Hh 0 d eq_refl)]. }
  rewrite E. cbn. destruct Hh as [Hs Hlen Ht Hc Hhd _ _ _]. rewrite Hhd.
  destruct (decide (q_tail q + Z.of_nat (length l) < queueSize q)) as [Hlt|Hge].
  - rewrite Z.mod_small by lia. rewrite decide_False by lia. destruct l as [|x l].
    + cbn. rewrite Z.add_0_r, Z.ltb_irrefl. done.
    + cbn [length] in *. rewrite bool_decide_eq_true_2 by done. destruct (Z.ltb_spec (q_tail q) (q_tail q + Z.of_nat (S (length l)))); [|lia].
      f_equal. rewrite !u32_small by (rewrite ?u32_small; lia). lia.
  - replace ((q_tail q + Z.of_nat (length l)) mod queueSize q) with (q_tail q + Z.of_nat (length l) - queueSize q)
      by (rewrite <- (Z_mod_plus_full _ (-1)); rewrite Z.mod_small; lia).
    destruct (decide (Z.of_nat (length l) = queueSize q)) as [Ef|Ef].
    + rewrite Ef. replace (q_tail q + queueSize q - queueSize q) with (q_tail q) by lia. rewrite Z.ltb_irrefl.
      rewrite bool_decide_eq_true_2 by (intros ->; cbn in *; lia). done.
    + destruct (Z.ltb_spec (q_tail q) (q_tail q + Z.of_nat (length l) - queueSize q)); [lia|].
      destruct (Z.ltb_spec (q_tail q + Z.of_nat (length l) - queueSize q) (q_tail q)); [|lia].
      rewrite bool_decide_eq_true_2 by (intros ->; cbn in *; lia). f_equal. rewrite !u32_small by (rewrite ?u32_small; lia). lia.
Qed.

(** ** Refinement *)
Inductive queue_op := OpEnqueue (d : list Z) | OpDequeue.
Inductive queue_res := ResTaken (b : bool) | ResGot (d : option (list Z)).

Definition queue_do (op : queue_op) (q : log_queue) : outcome (queue_res * log_queue) :=
  match op with
  | OpEnqueue d => '(b, q') ← enqueue q d; Done (ResTaken b, q')
  | OpDequeue => '(d, q') ← dequeue q; Done (ResGot d, q')
  end.

Fixpoint queue_run (ops : list queue_op) (q : log_queue) : outcome (list queue_res * log_queue) :=
  match ops with
  | [] => Done ([], q)
  | op :: ops' => '(r, q1) ← queue_do op q; '(rs, q2) ← queue_run ops' q1; Done (r :: rs, q2)
  end.

(** A queue of at most [cap] messages. *)
Definition fifo_do (cap : Z) (op : queue_op) (l : list (list Z)) : queue_res * list (list Z) :=
  match op with
  | OpEnqueue d => if decide (Z.of_nat (length l) < cap) then (ResTaken true, l ++ [d]) else (ResTaken false, l)
  | OpDequeue => (ResGot (head l), tail l)
  end.

Fixpoint fifo_run (cap : Z) (ops : list queue_op) (l : list (list Z)) : list queue_res * list (list Z) :=
  match ops with
  | [] => ([], l)
  | op :: ops' => let '(r, l1) := fifo_do cap op l in let '(rs, l2) := fifo_run cap ops' l1 in (r :: rs, l2)
  end.

Definition op_fits (size : Z) (op : queue_op) : Prop :=
  match op with OpEnqueue d => Z.of_nat (length d) = size | OpDequeue => True end.

Lemma queue_run_fifo q l ops : holds q l -> Forall (op_fits (elemSize q)) ops ->
  exists q', queue_run ops q = Done ((fifo_run (queueSize q) ops l).1, q') /\ holds q' (fifo_run (queueSize q) ops l).2 /\ queueSize q' = queueSize q.
Proof.
  revert q l. induction ops as [|op ops IH]; intros q l Hh Ho; [by exists q|]. apply Forall_cons in Ho as [Hop Ho]. cbn [queue_run fifo_run].
  destruct op as [d|]; cbn [queue_do fifo_do].
  - destruct (enqueue_spec q l d Hh Hop) as (q1 & E & H1 & Es & Ee). rewrite E. obind. rewrite <- Ee in Ho. destruct (decide (Z.of_nat (length l) < queueSize q)) as [Hl|Hl].
    + rewrite bool_decide_eq_true_2 by done. destruct (IH q1 _ H1 Ho) as (q2 & E2 & H2 & H3). rewrite E2, Es in *. obind.
      destruct (fifo_run (queueSize q) ops (l ++ [d])) as [rs l2]. by exists q2.
    + rewrite bool_decide_eq_false_2 by done. destruct (IH q1 _ H1 Ho) as (q2 & E2 & H2 & H3). rewrite E2, Es in *. obind.
      destruct (fifo_run (queueSize q) ops l) as [rs l2]. by exists q2.
  - destruct (dequeue_spec q l Hh) as (q1 & E & H1 & Es & Ee). rewrite E. obind. rewrite <- Ee in Ho.
    destruct (IH q1 _ H1 Ho) as (q2 & E2 & H2 & H3). rewrite E2, Es in *. obind. destruct (fifo_run (queueSize q) ops (tail l)) as [rs l2]. by exists q2.
Qed.

(** C34. A new ring of [count] elements answers every sequence of messages put in and taken out
    as a first-in first-out queue of that capacity does; the number of messages it reports is
    right but for a full ring, for which it reports one. *)
Theorem log_queue_fifo avail size count ops q :
  maapLogQueueNewQueue avail size count = Some q -> count < 2 ^ 32 -> Forall (op_fits size) ops ->
  exists q', queue_run ops q = Done ((fifo_run count ops []).1, q') /\
    maapLogQueueGetElemCount q' = Done (let n := Z.of_nat (length (fifo_run count ops []).2) in if decide (n = count) then 1 else n).
Proof.
  intros Hq Hc Ho. pose proof (new_queue_holds _ _ _ _ Hq Hc) as Hh.
  assert (queueSize q = count /\ elemSize q = size) as [Es Ee].
  { unfold maapLogQueueNewQueue in Hq. destruct (_ || _); [done|]. destruct (forallb _ _); [|done]. by injection Hq as <-. }
  rewrite <- Ee in Ho. destruct (queue_run_fifo q [] ops Hh Ho) as (q' & E & H1 & H2). rewrite Es in *. exists q'. split; [done|].
  by rewrite (count_spec _ _ H1), H2.
Qed.

Lemma log_queue_fifo_witness : exists q q',
  maapLogQueueNewQueue (fun _ => true) 1 2 = Some q /\
  queue_run [OpEnqueue [7]; OpEnqueue [8]; OpEnqueue [9]; OpDequeue; OpEnqueue [10]] q =
    Done ([ResTaken true; ResTaken true; ResTaken false; ResGot (Some [7]); ResTaken true], q') /\
  maapLogQueueGetElemCount q' = Done 1.
Proof.
  eexists. destruct (log_queue_fifo (fun _ => true) 1 2 [OpEnqueue [7]; OpEnqueue [8]; OpEnqueue [9]; OpDequeue; OpEnqueue [10]] _ eq_refl) as (q' & H1 & H2).
  - lia.
  - repeat constructor.
  - exists q'. split; [reflexivity|]. split; [exact H1|exact H2].
Defined.
