(* ===== verification/Mrp.v ===== *)
(** * Mrp: the Multiple Registration Protocol core

    Model of [daemons/mrpd/mrp.c] and of the timer and control-socket helpers of
    [daemons/mrpd/mrpd.c] it calls: the per-attribute applicant and registrar state
    machines (802.1Q tables 10-3 and 10-4), the leave-all and periodic state machines,
    the join, leave and leave-all timers, the list of clients and the textual state.

    The [#define]d states, events and messages are inductive types with the source's
    names, so the [default:] branches that only another integer could reach have no
    counterpart.  An application (MVRP, MMRP, MSRP) embeds its own state [X] beside the
    shared [mrp_database]; the outside world is an [Io] record, and what it answers
    (system call results, [random], [malloc]) comes from [MrpEnv], drawn in order. *)
From S2P Require Import Prelude.
From stdpp Require Import base gmap list strings numbers.
#[local] Open Scope Z_scope.
#[local] Open Scope st_scope.

(** ** Data *)
Inductive applicant_state :=
  | MRP_VO_STATE | MRP_VP_STATE | MRP_VN_STATE | MRP_AN_STATE | MRP_AA_STATE | MRP_QA_STATE
  | MRP_LA_STATE | MRP_AO_STATE | MRP_QO_STATE | MRP_AP_STATE | MRP_QP_STATE | MRP_LO_STATE.

Inductive registrar_state := MRP_IN_STATE | MRP_LV_STATE | MRP_MT_STATE.

Inductive mrp_event :=
  | MRP_EVENT_BEGIN | MRP_EVENT_NEW | MRP_EVENT_JOIN | MRP_EVENT_LV | MRP_EVENT_TX
  | MRP_EVENT_TXLA | MRP_EVENT_TXLAF | MRP_EVENT_RNEW | MRP_EVENT_RJOININ | MRP_EVENT_RIN
  | MRP_EVENT_RJOINMT | MRP_EVENT_RMT | MRP_EVENT_RLV | MRP_EVENT_RLA | MRP_EVENT_FLUSH
  | MRP_EVENT_REDECLARE | MRP_EVENT_PERIODIC | MRP_EVENT_PERIODIC_ENABLE
  | MRP_EVENT_PERIODIC_DISABLE | MRP_EVENT_LVTIMER | MRP_EVENT_LVATIMER.

Inductive mrp_snd :=
  | MRP_SND_NEW | MRP_SND_JOIN | MRP_SND_IN | MRP_SND_LV | MRP_SND_LVA | MRP_SND_NULL | MRP_SND_NONE.

Inductive mrp_encode := MRP_ENCODE_YES | MRP_ENCODE_OPTIONAL.

Inductive mrp_notify := MRP_NOTIFY_NONE | MRP_NOTIFY_NEW | MRP_NOTIFY_JOIN | MRP_NOTIFY_LV.

Inductive mrp_timer_state := MRP_TIMER_PASSIVE | MRP_TIMER_ACTIVE.

#[global] Instance applicant_state_eq_dec : EqDecision applicant_state.
Proof. solve_decision. Defined.
#[global] Instance registrar_state_eq_dec : EqDecision registrar_state.
Proof. solve_decision. Defined.
#[global] Instance mrp_event_eq_dec : EqDecision mrp_event.
Proof. solve_decision. Defined.
#[global] Instance mrp_snd_eq_dec : EqDecision mrp_snd.
Proof. solve_decision. Defined.
#[global] Instance mrp_encode_eq_dec : EqDecision mrp_encode.
Proof. solve_decision. Defined.
#[global] Instance mrp_notify_eq_dec : EqDecision mrp_notify.
Proof. solve_decision. Defined.
#[global] Instance mrp_timer_state_eq_dec : EqDecision mrp_timer_state.
Proof. solve_decision. Defined.

(** [mrp_previous_state] starts as -1, which is [None] here. *)
Record mrp_applicant_attribute := mkApplicant {
  app_state : applicant_state;
  tx : bool;
  sndmsg : mrp_snd;
  encode : mrp_encode;
  app_previous : option applicant_state }.

Record mrp_registrar_attribute := mkRegistrar {
  reg_state : registrar_state;
  notify : mrp_notify;
  macaddr : list Z }.

Record mrp_timer := mkLva { lva_state : mrp_timer_state; lva_tx : bool; lva_sndmsg : mrp_snd }.

Record sockaddr_in := mkAddr { sin_family : Z; sin_port : Z; sin_addr : Z }.

#[global] Instance applicant_eq_dec : EqDecision mrp_applicant_attribute.
Proof. solve_decision. Defined.
#[global] Instance registrar_eq_dec : EqDecision mrp_registrar_attribute.
Proof. solve_decision. Defined.
#[global] Instance sockaddr_in_eq_dec : EqDecision sockaddr_in.
Proof. solve_decision. Defined.

Record mrp_database := mkMrpDb {
  lva : mrp_timer;
  join_timer : Z;
  join_timer_running : bool;
  lv_timer : Z;
  lv_timer_running : bool;
  lva_timer : Z;
  lva_timer_running : bool;
  clients : list sockaddr_in }.

(** A [timerfd] that is armed: seconds and nanoseconds to the first expiry, and the
    interval of the following ones. *)
Record itimerspec := mkItimer { it_value : Z * Z; it_interval : Z * Z }.

(** The world outside one application: the armed timers by descriptor, the frames sent,
    the control messages sent (client, text, bytes of the datagram), the globals of
    [mrpd.c] and [mrp.c], and the number of answers drawn so far. *)
Record Io := mkIo {
  armed : gmap Z itimerspec;
  frames : list (list Z);
  ctl : list (sockaddr_in * string * Z);
  control_socket : Z;
  p2pmac : Z;
  periodic_timer : Z;
  STATION_ADDR : list Z;
  clk : nat }.

Class MrpEnv := {
  settime_rc : nat -> Z;
  mrp_random : nat -> Z;
  mrp_malloc : nat -> bool;
  send_rc : nat -> Z -> Z }.

Record MrpState (X : Type) := mkMrp { mdb : mrp_database; app : X; io : Io }.
Arguments mkMrp {X} mdb app io.
Arguments mdb {X} m.
Arguments app {X} m.
Arguments io {X} m.

(** Constants of [mrp.h]. *)
Definition MRP_JOINTIMER_VAL : Z := 100.
Definition MRP_LVTIMER_VAL : Z := 1000.
Definition MRP_LVATIMER_VAL : Z := 10000.
Definition MRP_DEFAULT_POINT_TO_POINT_MAC : Z := 1.

(** ** Field updates *)
Definition set_armed (f : gmap Z itimerspec -> gmap Z itimerspec) (i : Io) : Io :=
  mkIo (f (armed i)) (frames i) (ctl i) (control_socket i) (p2pmac i) (periodic_timer i) (STATION_ADDR i) (clk i).
Definition add_frame (b : list Z) (i : Io) : Io :=
  mkIo (armed i) (frames i ++ [b]) (ctl i) (control_socket i) (p2pmac i) (periodic_timer i) (STATION_ADDR i) (clk i).
Definition add_ctl (m : sockaddr_in * string * Z) (i : Io) : Io :=
  mkIo (armed i) (frames i) (ctl i ++ [m]) (control_socket i) (p2pmac i) (periodic_timer i) (STATION_ADDR i) (clk i).
Definition set_p2pmac (p : Z) (i : Io) : Io :=
  mkIo (armed i) (frames i) (ctl i) (control_socket i) p (periodic_timer i) (STATION_ADDR i) (clk i).
Definition bump (i : Io) : Io :=
  mkIo (armed i) (frames i) (ctl i) (control_socket i) (p2pmac i) (periodic_timer i) (STATION_ADDR i) (S (clk i)).

Definition set_lva (l : mrp_timer) (d : mrp_database) : mrp_database :=
  mkMrpDb l (join_timer d) (join_timer_running d) (lv_timer d) (lv_timer_running d)
    (lva_timer d) (lva_timer_running d) (clients d).
Definition set_join_running (b : bool) (d : mrp_database) : mrp_database :=
  mkMrpDb (lva d) (join_timer d) b (lv_timer d) (lv_timer_running d)
    (lva_timer d) (lva_timer_running d) (clients d).
Definition set_lv_running (b : bool) (d : mrp_database) : mrp_database :=
  mkMrpDb (lva d) (join_timer d) (join_timer_running d) (lv_timer d) b
    (lva_timer d) (lva_timer_running d) (clients d).
Definition set_lva_running (b : bool) (d : mrp_database) : mrp_database :=
  mkMrpDb (lva d) (join_timer d) (join_timer_running d) (lv_timer d) (lv_timer_running d)
    (lva_timer d) b (clients d).
Definition set_clients (c : list sockaddr_in) (d : mrp_database) : mrp_database :=
  mkMrpDb (lva d) (join_timer d) (join_timer_running d) (lv_timer d) (lv_timer_running d)
    (lva_timer d) (lva_timer_running d) c.

Definition set_notify (n : mrp_notify) (r : mrp_registrar_attribute) : mrp_registrar_attribute :=
  mkRegistrar (reg_state r) n (macaddr r).
Definition set_macaddr (m : list Z) (r : mrp_registrar_attribute) : mrp_registrar_attribute :=
  mkRegistrar (reg_state r) (notify r) m.
Definition set_tx (b : bool) (a : mrp_applicant_attribute) : mrp_applicant_attribute :=
  mkApplicant (app_state a) b (sndmsg a) (encode a) (app_previous a).

(** ** The applicant state machine

    One definition per event of the outer [switch]; the transmit events also say what
    to send: the next state, [tx], [optional] and [sndmsg]. *)
Definition applicant_new (s : applicant_state) : applicant_state :=
  match s with
  | MRP_VN_STATE | MRP_AN_STATE => s
  | _ => MRP_VN_STATE
  end.

Definition applicant_join (s : applicant_state) : applicant_state :=
  match s with
  | MRP_LO_STATE | MRP_VO_STATE => MRP_VP_STATE
  | MRP_LA_STATE => MRP_AA_STATE
  | MRP_AO_STATE => MRP_AP_STATE
  | MRP_QO_STATE => MRP_QP_STATE
  | _ => s
  end.

Definition applicant_lv (s : applicant_state) : applicant_state :=
  match s with
  | MRP_VN_STATE | MRP_AN_STATE | MRP_AA_STATE | MRP_QA_STATE => MRP_LA_STATE
  | MRP_VP_STATE => MRP_VO_STATE
  | MRP_AP_STATE => MRP_AO_STATE
  | MRP_QP_STATE => MRP_QO_STATE
  | _ => s
  end.

Definition applicant_txla (s : applicant_state) : applicant_state * bool * bool * mrp_snd :=
  match s with
  | MRP_VO_STATE => (MRP_LO_STATE, true, true, MRP_SND_IN)
  | MRP_VP_STATE => (MRP_AA_STATE, true, false, MRP_SND_IN)
  | MRP_VN_STATE => (MRP_AN_STATE, true, false, MRP_SND_NEW)
  | MRP_AN_STATE => (MRP_QA_STATE, true, false, MRP_SND_NEW)
  | MRP_QP_STATE | MRP_AP_STATE | MRP_AA_STATE => (MRP_QA_STATE, true, false, MRP_SND_JOIN)
  | MRP_QA_STATE => (s, true, false, MRP_SND_JOIN)
  | MRP_LA_STATE | MRP_AO_STATE | MRP_QO_STATE => (MRP_LO_STATE, true, true, MRP_SND_IN)
  | MRP_LO_STATE => (s, true, true, MRP_SND_IN)
  end.

Definition applicant_txlaf (s : applicant_state) : applicant_state :=
  match s with
  | MRP_VO_STATE => MRP_LO_STATE
  | MRP_LO_STATE | MRP_VP_STATE | MRP_VN_STATE => s
  | MRP_AN_STATE => MRP_VN_STATE
  | MRP_QP_STATE | MRP_AP_STATE | MRP_AA_STATE | MRP_QA_STATE => MRP_VP_STATE
  | MRP_QO_STATE | MRP_AO_STATE | MRP_LA_STATE => MRP_LO_STATE
  end.

Definition applicant_tx (registrar_is_IN : bool) (s : applicant_state)
    : applicant_state * bool * bool * mrp_snd :=
  match s with
  | MRP_VO_STATE => (s, true, true, MRP_SND_IN)
  | MRP_VP_STATE => (MRP_AA_STATE, true, false, MRP_SND_JOIN)
  | MRP_VN_STATE => (MRP_AN_STATE, true, false, MRP_SND_NEW)
  | MRP_AN_STATE =>
      (if registrar_is_IN then MRP_QA_STATE else MRP_AA_STATE, true, false, MRP_SND_NEW)
  | MRP_AP_STATE | MRP_AA_STATE => (MRP_QA_STATE, true, false, MRP_SND_JOIN)
  | MRP_QA_STATE => (s, true, true, MRP_SND_JOIN)
  | MRP_LA_STATE => (MRP_VO_STATE, true, false, MRP_SND_LV)
  | MRP_AO_STATE | MRP_QO_STATE | MRP_QP_STATE => (s, true, true, MRP_SND_IN)
  | MRP_LO_STATE => (MRP_VO_STATE, true, false, MRP_SND_IN)
  end.

Definition applicant_rjoinin (p2p : Z) (s : applicant_state) : applicant_state :=
  match s with
  | MRP_VO_STATE => if 0 =? p2p then MRP_AO_STATE else s
  | MRP_VP_STATE => if 0 =? p2p then MRP_AP_STATE else s
  | MRP_AA_STATE => MRP_QA_STATE
  | MRP_AO_STATE => MRP_QO_STATE
  | MRP_AP_STATE => MRP_QP_STATE
  | _ => s
  end.

Definition applicant_rin (p2p : Z) (s : applicant_state) : applicant_state :=
  match s with
  | MRP_AA_STATE => if 1 =? p2p then MRP_QA_STATE else s
  | _ => s
  end.

(** rJoinMt! and rMt! *)
Definition applicant_rmt (s : applicant_state) : applicant_state :=
  match s with
  | MRP_QA_STATE => MRP_AA_STATE
  | MRP_QO_STATE => MRP_AO_STATE
  | MRP_QP_STATE => MRP_AP_STATE
  | MRP_LO_STATE => MRP_VO_STATE
  | _ => s
  end.

(** rLv!, rLA! and Re-Declare! *)
Definition applicant_rlv (s : applicant_state) : applicant_state :=
  match s with
  | MRP_VO_STATE => MRP_LO_STATE
  | MRP_AN_STATE => MRP_VN_STATE
  | MRP_QA_STATE | MRP_AA_STATE => MRP_VP_STATE
  | MRP_AO_STATE | MRP_QO_STATE => MRP_LO_STATE
  | MRP_AP_STATE | MRP_QP_STATE => MRP_VP_STATE
  | _ => s
  end.

Definition applicant_periodic (s : applicant_state) : applicant_state :=
  match s with
  | MRP_QA_STATE => MRP_AA_STATE
  | MRP_QP_STATE => MRP_AP_STATE
  | _ => s
  end.

(** The outer [switch]: [None] for an event it does not know. *)
Definition applicant_step (p2p : Z) (event : mrp_event) (registrar_is_IN : bool) (s : applicant_state)
    : option (applicant_state * bool * bool * mrp_snd) :=
  let quiet s' := Some (s', false, false, MRP_SND_NULL) in
  match event with
  | MRP_EVENT_BEGIN => quiet MRP_VO_STATE
  | MRP_EVENT_NEW => quiet (applicant_new s)
  | MRP_EVENT_JOIN => quiet (applicant_join s)
  | MRP_EVENT_LV => quiet (applicant_lv s)
  | MRP_EVENT_TXLA => Some (applicant_txla s)
  | MRP_EVENT_TXLAF => quiet (applicant_txlaf s)
  | MRP_EVENT_TX => Some (applicant_tx registrar_is_IN s)
  | MRP_EVENT_RNEW => quiet s
  | MRP_EVENT_RJOININ => quiet (applicant_rjoinin p2p s)
  | MRP_EVENT_RIN => quiet (applicant_rin p2p s)
  | MRP_EVENT_RJOINMT | MRP_EVENT_RMT => quiet (applicant_rmt s)
  | MRP_EVENT_RLV | MRP_EVENT_RLA | MRP_EVENT_REDECLARE => quiet (applicant_rlv s)
  | MRP_EVENT_PERIODIC => quiet (applicant_periodic s)
  | _ => None
  end.

Definition mrp_applicant_fsm (p2p : Z) (attrib : mrp_applicant_attribute) (event : mrp_event)
    (registrar_is_IN : bool) : Z * mrp_applicant_attribute :=
  match applicant_step p2p event registrar_is_IN (app_state attrib) with
  | None => (-1, attrib)
  | Some (mrp_state, t, optional, snd) =>
      (0, mkApplicant mrp_state t snd
            (if optional then MRP_ENCODE_OPTIONAL else MRP_ENCODE_YES) (Some (app_state attrib)))
  end.

Definition mrp_applicant_state_transition_implies_tx (attrib : mrp_applicant_attribute) : Z :=
  if decide (app_previous attrib = Some (app_state attrib)) then 0
  else match app_state attrib with
       | MRP_VP_STATE | MRP_VN_STATE | MRP_AN_STATE | MRP_AA_STATE | MRP_LA_STATE => 1
       | _ => 0
       end.

Definition mrp_registrar_in (attrib : mrp_registrar_attribute) : bool :=
  bool_decide (reg_state attrib = MRP_IN_STATE).

(** ** The registrar state machine

    [registrar_step] gives the next state, the notification and whether the leave timer
    is started; [None] for an event the [switch] does not know. *)
Definition registrar_leave (s : registrar_state) : registrar_state * bool :=
  match s with MRP_IN_STATE => (MRP_LV_STATE, true) | _ => (s, false) end.

Definition registrar_step (event : mrp_event) (s : registrar_state)
    : option (registrar_state * mrp_notify * bool) :=
  match event with
  | MRP_EVENT_BEGIN => Some (MRP_MT_STATE, MRP_NOTIFY_NONE, false)
  | MRP_EVENT_RLV => let '(s', b) := registrar_leave s in Some (s', MRP_NOTIFY_LV, b)
  | MRP_EVENT_TXLA | MRP_EVENT_RLA | MRP_EVENT_REDECLARE =>
      let '(s', b) := registrar_leave s in Some (s', MRP_NOTIFY_NONE, b)
  | MRP_EVENT_RNEW => Some (MRP_IN_STATE, MRP_NOTIFY_NEW, false)
  | MRP_EVENT_RJOININ | MRP_EVENT_RJOINMT =>
      match s with
      | MRP_IN_STATE => Some (MRP_IN_STATE, MRP_NOTIFY_NONE, false)
      | MRP_MT_STATE | MRP_LV_STATE => Some (MRP_IN_STATE, MRP_NOTIFY_JOIN, false)
      end
  | MRP_EVENT_LVTIMER =>
      match s with
      | MRP_LV_STATE => Some (MRP_MT_STATE, MRP_NOTIFY_LV, false)
      | MRP_MT_STATE | MRP_IN_STATE => Some (s, MRP_NOTIFY_NONE, false)
      end
  | MRP_EVENT_FLUSH => Some (MRP_MT_STATE, MRP_NOTIFY_LV, false)
  | MRP_EVENT_RMT | MRP_EVENT_RIN => Some (s, MRP_NOTIFY_NONE, false)
  | _ => None
  end.

(** ** The textual state, "VO/MT"

    [snprintf] into a buffer of [strlen] bytes with a limit of [strlen - 1] keeps at most
    [strlen - 2] characters. *)
Definition registrar_string (s : registrar_state) : string :=
  match s with MRP_IN_STATE => "IN" | MRP_LV_STATE => "LV" | MRP_MT_STATE => "MT" end.

Definition applicant_string (s : applicant_state) : string :=
  match s with
  | MRP_VO_STATE => "VO" | MRP_VP_STATE => "VP" | MRP_VN_STATE => "VN" | MRP_AN_STATE => "AN"
  | MRP_AA_STATE => "AA" | MRP_QA_STATE => "QA" | MRP_LA_STATE => "LA" | MRP_AO_STATE => "AO"
  | MRP_QO_STATE => "QO" | MRP_AP_STATE => "AP" | MRP_QP_STATE => "QP" | MRP_LO_STATE => "LO"
  end.

(** [snprintf(buf, size, ...)]: the text cut to [size - 1] characters. *)
Definition snprintf (size : nat) (text : string) : string := String.substring 0 (size - 1) text.

Definition mrp_decode_state (rattrib : mrp_registrar_attribute) (aattrib : mrp_applicant_attribute)
    (strlen : nat) : string :=
  let reg_stat := snprintf (8 - 1) (registrar_string (reg_state rattrib)) in
  snprintf (strlen - 1) (applicant_string (app_state aattrib) +:+ "/" +:+ reg_stat).

(** ** The client list *)
Fixpoint client_lookup (l : list sockaddr_in) (newclient : sockaddr_in) : bool :=
  match l with
  | [] => false
  | c :: l' => if sin_port c =? sin_port newclient then true else client_lookup l' newclient
  end.

Fixpoint mrp_client_count (l : list sockaddr_in) : Z :=
  match l with [] => 0 | _ :: l' => mrp_client_count l' + 1 end.

(** [mem] is whether [malloc] of the new item succeeds; a NULL [newclient] is [None]. *)
Definition mrp_client_add (mem : bool) (l : list sockaddr_in) (newclient : option sockaddr_in)
    : Z * list sockaddr_in :=
  match newclient with
  | None => (-1, l)
  | Some c =>
      if client_lookup l c then (0, l)
      else if mem then (0, l ++ [c]) else (-1, l)
  end.

Fixpoint client_unlink (l : list sockaddr_in) (c : sockaddr_in) : list sockaddr_in :=
  match l with
  | [] => []
  | x :: l' => if decide (x = c) then l' else x :: client_unlink l' c
  end.

Definition mrp_client_delete (l : list sockaddr_in) (newclient : option sockaddr_in)
    : Z * list sockaddr_in :=
  match newclient with
  | None => (0, l)
  | Some c => (0, client_unlink l c)
  end.

Definition mrp_client_remove_all (l : list sockaddr_in) : Z * list sockaddr_in := (0, []).

(** ** The outside world, timers and the state machines that use them *)
Section Ops.
Context `{MrpEnv} {X : Type}.

Definition draw {A} (f : nat -> A) : stM (MrpState X) A :=
  fun s => Done (f (clk (io s)), mkMrp (mdb s) (app s) (bump (io s))).
Definition upd_io (f : Io -> Io) : stM (MrpState X) unit :=
  st_modify (fun s => mkMrp (mdb s) (app s) (f (io s))).
Definition upd_mdb (f : mrp_database -> mrp_database) : stM (MrpState X) unit :=
  st_modify (fun s => mkMrp (f (mdb s)) (app s) (io s)).
Definition upd_app (f : X -> X) : stM (MrpState X) unit :=
  st_modify (fun s => mkMrp (mdb s) (f (app s)) (io s)).

(** [timerfd_settime]: on success an all-zero value disarms, another one arms. *)
Definition timerfd_settime (fd : Z) (spec : itimerspec) : stM (MrpState X) Z :=
  let! rc := draw settime_rc in
  (when 0 <=? rc do
     upd_io (set_armed (if decide (it_value spec = (0, 0)) then delete fd else insert fd spec))) ;!
  st_ret rc.

Definition mrpd_timer_start_interval (timerfd value_ms interval_ms : Z) : stM (MrpState X) Z :=
  let ns_per_ms := 1000000 in
  let interval := if interval_ms =? 0 then (0, 0)
                  else (interval_ms / 1000, (interval_ms mod 1000) * ns_per_ms) in
  timerfd_settime timerfd (mkItimer (value_ms / 1000, (value_ms mod 1000) * ns_per_ms) interval).

Definition mrpd_timer_start (timerfd value_ms : Z) : stM (MrpState X) Z :=
  mrpd_timer_start_interval timerfd value_ms 0.

Definition mrpd_timer_stop (timerfd : Z) : stM (MrpState X) Z :=
  timerfd_settime timerfd (mkItimer (0, 0) (0, 0)).

Definition mrp_periodictimer_start : stM (MrpState X) Z :=
  let! s := st_get in mrpd_timer_start_interval (periodic_timer (io s)) 1000 1000.

Definition mrp_periodictimer_stop : stM (MrpState X) Z :=
  let! s := st_get in mrpd_timer_stop (periodic_timer (io s)).

Definition mrpd_send_ctl_msg (client_addr : sockaddr_in) (notify_data : string) (notify_len : Z)
    : stM (MrpState X) unit :=
  let! s := st_get in
  if control_socket (io s) =? -1 then st_ret tt
  else upd_io (add_ctl (client_addr, notify_data, notify_len)).

(** [mrpd_send] ([send] on Linux): what is sent when the result is positive. *)
Definition mrpd_send (msgbuf : list Z) : stM (MrpState X) Z :=
  let! rc := draw (fun n => send_rc n (Z.of_nat (length msgbuf))) in
  (when 0 <? rc do upd_io (add_frame msgbuf)) ;!
  st_ret rc.

Definition mrp_jointimer_start : stM (MrpState X) Z :=
  let! s := st_get in
  let! ret := (if join_timer_running (mdb s) then st_ret 0
               else mrpd_timer_start (join_timer (mdb s)) MRP_JOINTIMER_VAL) in
  (when 0 <=? ret do upd_mdb (set_join_running true)) ;!
  st_ret ret.

Definition mrp_jointimer_stop : stM (MrpState X) Z :=
  let! s := st_get in
  upd_mdb (set_join_running false) ;!
  mrpd_timer_stop (join_timer (mdb s)).

Definition mrp_lvtimer_start : stM (MrpState X) Z :=
  let! s := st_get in
  let! ret := mrpd_timer_start (lv_timer (mdb s)) MRP_LVTIMER_VAL in
  (when 0 <=? ret do upd_mdb (set_lv_running true)) ;!
  st_ret ret.

Definition mrp_lvtimer_stop : stM (MrpState X) Z :=
  let! s := st_get in
  upd_mdb (set_lv_running false) ;!
  mrpd_timer_stop (lv_timer (mdb s)).

Definition mrp_lvatimer_start : stM (MrpState X) Z :=
  let! r := draw mrp_random in
  let timeout := MRP_LVATIMER_VAL + Z.rem r (MRP_LVATIMER_VAL / 2) in
  let! s := st_get in
  let! ret := (if lva_timer_running (mdb s) then st_ret 0
               else mrpd_timer_start (lva_timer (mdb s)) timeout) in
  (when 0 <=? ret do upd_mdb (set_lva_running true)) ;!
  st_ret ret.

Definition mrp_lvatimer_stop : stM (MrpState X) Z :=
  let! s := st_get in
  upd_mdb (set_lva_running false) ;!
  mrpd_timer_stop (lva_timer (mdb s)).

Definition mrp_lvatimer_fsm (event : mrp_event) : stM (MrpState X) Z :=
  let! s := st_get in
  let la_state := lva_state (lva (mdb s)) in
  let finish la_state t snd := upd_mdb (set_lva (mkLva la_state t snd)) ;! st_ret 0 in
  match event with
  | MRP_EVENT_BEGIN =>
      mrp_lvatimer_start ;! finish MRP_TIMER_PASSIVE false MRP_SND_NONE
  | MRP_EVENT_TX =>
      if decide (la_state = MRP_TIMER_ACTIVE)
      then finish MRP_TIMER_PASSIVE true MRP_SND_LVA
      else finish la_state false MRP_SND_NONE
  | MRP_EVENT_RLA =>
      mrp_lvatimer_stop ;! mrp_lvatimer_start ;! finish MRP_TIMER_PASSIVE false MRP_SND_NONE
  | MRP_EVENT_LVATIMER =>
      mrp_lvatimer_stop ;! mrp_lvatimer_start ;! finish MRP_TIMER_ACTIVE false MRP_SND_NONE
  | _ => st_ret (-1)
  end.

(** [periodic_state] is the [mrp_periodictimer_state] passed in, NULL being [None]; the
    new state is returned with the result. *)
Definition mrp_periodictimer_fsm (periodic_state : option mrp_timer_state) (event : mrp_event)
    : stM (MrpState X) (Z * option mrp_timer_state) :=
  match periodic_state with
  | None => st_ret (-1, None)
  | Some p_state =>
      match event with
      | MRP_EVENT_BEGIN => mrp_periodictimer_start ;! st_ret (0, Some MRP_TIMER_ACTIVE)
      | MRP_EVENT_PERIODIC =>
          (when bool_decide (p_state = MRP_TIMER_ACTIVE) do (mrp_periodictimer_start ;! st_ret tt)) ;!
          st_ret (0, Some p_state)
      | MRP_EVENT_PERIODIC_DISABLE => st_ret (0, Some MRP_TIMER_PASSIVE)
      | MRP_EVENT_PERIODIC_ENABLE =>
          (when bool_decide (p_state = MRP_TIMER_PASSIVE) do (mrp_periodictimer_start ;! st_ret tt)) ;!
          st_ret (0, Some MRP_TIMER_ACTIVE)
      | _ => st_ret (-1, Some p_state)
      end
  end.

Definition mrp_registrar_fsm (attrib : mrp_registrar_attribute) (event : mrp_event)
    : stM (MrpState X) (Z * mrp_registrar_attribute) :=
  match registrar_step event (reg_state attrib) with
  | None => st_ret (-1, attrib)
  | Some (mrp_state, n, leaving) =>
      (when leaving do (mrp_lvtimer_start ;! st_ret tt)) ;!
      st_ret (0, mkRegistrar mrp_state n (macaddr attrib))
  end.

Definition mrp_init : stM (MrpState X) Z :=
  upd_io (set_p2pmac MRP_DEFAULT_POINT_TO_POINT_MAC) ;! st_ret 0.

End Ops.
