(* ===== verification/MrpProps.v ===== *)
(** * MrpProps: what the MRP state machines guarantee

    Properties of single applicants and registrars over arbitrary event sequences, of
    the leave-all machine and the timers, and of the client list. *)
From stdpp Require Import base gmap list strings numbers.
From S2P Require Import Prelude Mrp.
#[local] Open Scope Z_scope.
#[local] Open Scope st_scope.

(** ** Applicant: declarations

    The abstract applicant is one bit: does the local user declare the attribute? *)
Definition declares (s : applicant_state) : bool :=
  match s with
  | MRP_VP_STATE | MRP_VN_STATE | MRP_AN_STATE | MRP_AA_STATE | MRP_QA_STATE
  | MRP_AP_STATE | MRP_QP_STATE => true
  | _ => false
  end.

(** What an event does to that bit: only requests of the local user change it. *)
Definition requested (e : mrp_event) (b : bool) : bool :=
  match e with
  | MRP_EVENT_NEW | MRP_EVENT_JOIN => true
  | MRP_EVENT_LV | MRP_EVENT_BEGIN => false
  | _ => b
  end.

(** An event of an applicant's life, with the registrar's state when it happens. *)
Definition app_input : Type := mrp_event * bool.

Definition applicant_run (p2p : Z) (es : list app_input) (a : mrp_applicant_attribute)
    : mrp_applicant_attribute :=
  foldl (fun a '(e, r) => snd (mrp_applicant_fsm p2p a e r)) a es.

(** A message that must go out (not one sent only to improve the encoding). *)
Definition sends (a : mrp_applicant_attribute) (m : mrp_snd) : bool :=
  tx a && bool_decide (encode a = MRP_ENCODE_YES) && bool_decide (sndmsg a = m).

Lemma applicant_step_declares p2p e r s s' t o m :
  applicant_step p2p e r s = Some (s', t, o, m) -> declares s' = requested e (declares s).
Proof.
  destruct e, s; simpl; intros [= <- <- <- <-]; try done;
    by repeat (case_match; simpl).
Qed.

Lemma applicant_fsm_declares p2p a e r :
  declares (app_state (snd (mrp_applicant_fsm p2p a e r))) = requested e (declares (app_state a)).
Proof.
  unfold mrp_applicant_fsm.
  destruct (applicant_step _ _ _ _) as [[[[s' t] o] m]|] eqn:E; simpl.
  - by eapply applicant_step_declares.
  - by destruct e.
Qed.

(** C37. Declarations: whatever happens to an applicant, it declares its attribute
    exactly when the last New!, Join!, Lv! or Begin! was a New! or a Join!; NEW and JOIN
    messages are only sent by a declaring applicant, and a LEAVE only by one whose
    declaration was withdrawn, which then is no longer leaving. *)
Theorem mrp_applicant_declaration p2p es a :
  let a' := applicant_run p2p es a in
  declares (app_state a') = foldl (fun b '(e, _) => requested e b) (declares (app_state a)) es /\
  (forall e r, let a'' := snd (mrp_applicant_fsm p2p a' e r) in
     e = MRP_EVENT_TX \/ e = MRP_EVENT_TXLA ->
     ((sends a'' MRP_SND_NEW || sends a'' MRP_SND_JOIN) = true -> declares (app_state a') = true) /\
     (sends a'' MRP_SND_LV = true -> app_state a' = MRP_LA_STATE /\ app_state a'' = MRP_VO_STATE)).
Proof.
  simpl. split.
  - revert a. induction es as [|[e r] es IH]; intros a; [done|].
    cbn [applicant_run foldl]. unfold applicant_run in IH. rewrite IH. by rewrite applicant_fsm_declares.
  - intros e r [-> | ->]; unfold mrp_applicant_fsm; simpl;
      destruct (app_state (applicant_run p2p es a)); by destruct r.
Qed.

(** ** Applicant: confirmations

    How many more messages an applicant wants on the wire before it is quiet. *)
Definition need (s : applicant_state) : nat :=
  match s with
  | MRP_VP_STATE | MRP_VN_STATE => 2
  | MRP_AN_STATE | MRP_AA_STATE | MRP_AP_STATE => 1
  | _ => 0
  end.

(** A confirmation: a NEW or JOIN sent by the applicant, or a JoinIn (on a
    point-to-point link also an In) received from a peer. *)
Definition confirms (e : mrp_event) (a' : mrp_applicant_attribute) : nat :=
  match e with
  | MRP_EVENT_TX => if sends a' MRP_SND_NEW || sends a' MRP_SND_JOIN then 1 else 0
  | MRP_EVENT_RJOININ | MRP_EVENT_RIN => 1
  | _ => 0
  end.

Fixpoint confirmations (p2p : Z) (es : list app_input) (a : mrp_applicant_attribute) : nat :=
  match es with
  | [] => 0
  | (e, r) :: es' =>
      let a' := snd (mrp_applicant_fsm p2p a e r) in confirms e a' + confirmations p2p es' a'
  end.

(** Events that neither end the declaration nor transmit a LeaveAll. *)
Definition keeps_declaration (e : mrp_event) : bool :=
  match e with MRP_EVENT_LV | MRP_EVENT_BEGIN | MRP_EVENT_TXLA => false | _ => true end.

Lemma confirms_need p2p e r a :
  keeps_declaration e = true -> declares (app_state a) = true ->
  (need (app_state a) <=
     need (app_state (snd (mrp_applicant_fsm p2p a e r))) + confirms e (snd (mrp_applicant_fsm p2p a e r)))%nat.
Proof.
  intros He Hd. unfold mrp_applicant_fsm.
  destruct e; try done; simpl; destruct (app_state a); try done; simpl; try lia;
    repeat (case_match; simpl; try lia); destruct r; simpl; try lia.
Qed.

Lemma confirmations_need p2p es a :
  forallb (fun '(e, _) => keeps_declaration e) es = true -> declares (app_state a) = true ->
  (need (app_state a) <= need (app_state (applicant_run p2p es a)) + confirmations p2p es a)%nat.
Proof.
  revert a. induction es as [|[e r] es IH]; intros a Hes Hd; [simpl; lia|].
  cbn [forallb] in Hes. apply andb_true_iff in Hes as [He Hes]. cbn [confirmations].
  pose proof (confirms_need p2p e r a He Hd) as H1.
  assert (declares (app_state (snd (mrp_applicant_fsm p2p a e r))) = true) as Hd'.
  { rewrite applicant_fsm_declares. by destruct e. }
  specialize (IH _ Hes Hd'). cbn [applicant_run foldl] in *. unfold applicant_run in *. lia.
Qed.

(** Two confirmations: after a LeaveAll (or a Leave) is received for a declared
    attribute, whatever follows short of a withdrawal or an own LeaveAll, the applicant
    becomes quiet only after at least two confirmations: NEW or JOIN messages it sent
    itself, or JoinIn/In messages of its peers. *)
Theorem mrp_applicant_confirmed p2p r es a :
  declares (app_state a) = true -> forallb (fun '(e, _) => keeps_declaration e) es = true ->
  let a0 := snd (mrp_applicant_fsm p2p a MRP_EVENT_RLA r) in
  let a' := applicant_run p2p es a0 in
  app_state a' = MRP_QA_STATE \/ app_state a' = MRP_QP_STATE ->
  (2 <= confirmations p2p es a0)%nat.
Proof.
  intros Hd Hes a0 a' Hq. pose proof (confirmations_need p2p es a0 Hes) as H. fold a' in H.
  assert (declares (app_state a0) = true) as Hd0 by (subst a0; by rewrite applicant_fsm_declares).
  specialize (H Hd0). replace (need (app_state a')) with 0%nat in H by (by destruct Hq as [-> | ->]).
  assert (need (app_state a0) = 2)%nat; [|lia].
  subst a0. unfold mrp_applicant_fsm. simpl. by destruct (app_state a).
Qed.

(** ** Applicant: transmit opportunities *)

(** States in which the applicant still has something it must transmit. *)
Definition wants_tx (s : applicant_state) : bool :=
  match s with
  | MRP_VP_STATE | MRP_VN_STATE | MRP_AN_STATE | MRP_AA_STATE | MRP_LA_STATE
  | MRP_AP_STATE | MRP_LO_STATE => true
  | _ => false
  end.

(** What it has to transmit: a New or a Join twice, a Leave if it was withdrawn, and from
    LO whether it is registered. *)
Definition due_message (s : applicant_state) : mrp_snd :=
  match s with
  | MRP_VN_STATE | MRP_AN_STATE => MRP_SND_NEW
  | MRP_VP_STATE | MRP_AA_STATE | MRP_AP_STATE => MRP_SND_JOIN
  | MRP_LA_STATE => MRP_SND_LV
  | _ => MRP_SND_IN
  end.

Definition tx_rounds (s : applicant_state) : nat :=
  match s with
  | MRP_VN_STATE => 3
  | MRP_AN_STATE | MRP_VP_STATE => 2
  | MRP_AA_STATE | MRP_AP_STATE | MRP_LA_STATE | MRP_LO_STATE => 1
  | _ => 0
  end.

Lemma tx_rounds_wants s : wants_tx s = true <-> (0 < tx_rounds s)%nat.
Proof. destruct s; simpl; split; intros; try done; lia. Qed.

(** A transmit opportunity is used when it is needed, and asked for again when needed. *)
Lemma applicant_tx_progress p2p a r :
  let a' := snd (mrp_applicant_fsm p2p a MRP_EVENT_TX r) in
  (wants_tx (app_state a) = true ->
     tx a' = true /\ encode a' = MRP_ENCODE_YES /\ sndmsg a' = due_message (app_state a) /\ (tx_rounds (app_state a') < tx_rounds (app_state a))%nat) /\
  (wants_tx (app_state a) = false -> app_state a' = app_state a) /\
  (mrp_applicant_state_transition_implies_tx a' = if wants_tx (app_state a') then 1 else 0).
Proof.
  unfold mrp_applicant_fsm, mrp_applicant_state_transition_implies_tx. simpl.
  destruct (app_state a), r; simpl; repeat split; intros; try done; lia.
Qed.

(** A run of transmit opportunities only. *)
Definition tx_run (p2p : Z) (a : mrp_applicant_attribute) (rs : list bool) : mrp_applicant_attribute :=
  applicant_run p2p ((fun r => (MRP_EVENT_TX, r)) <$> rs) a.

Lemma tx_run_cons p2p a r rs :
  tx_run p2p a (r :: rs) = tx_run p2p (snd (mrp_applicant_fsm p2p a MRP_EVENT_TX r)) rs.
Proof. done. Qed.

Lemma tx_run_rest p2p a rs :
  (tx_rounds (app_state a) <= length rs)%nat -> wants_tx (app_state (tx_run p2p a rs)) = false.
Proof.
  revert a. induction rs as [|r rs IH]; intros a Hb; simpl in Hb.
  - change (tx_run p2p a []) with a. apply not_true_iff_false. rewrite tx_rounds_wants. lia.
  - rewrite tx_run_cons. apply IH.
    destruct (applicant_tx_progress p2p a r) as (H1 & H2 & _). destruct (wants_tx (app_state a)) eqn:E.
    + destruct H1 as (_ & _ & _ & H1); [done|lia].
    + rewrite H2 by done. apply not_true_iff_false in E. rewrite tx_rounds_wants in E. lia.
Qed.

Lemma tx_run_declares p2p a rs : declares (app_state (tx_run p2p a rs)) = declares (app_state a).
Proof.
  revert a. induction rs as [|r rs IH]; intros a; [done|]. by rewrite tx_run_cons, IH, applicant_fsm_declares.
Qed.

Lemma tx_run_observer p2p a rs : app_state a = MRP_VO_STATE -> app_state (tx_run p2p a rs) = MRP_VO_STATE.
Proof.
  revert a. induction rs as [|r rs IH]; intros a Ha; [done|]. rewrite tx_run_cons. apply IH.
  unfold mrp_applicant_fsm. by rewrite Ha.
Qed.

Lemma tx_run_leaving p2p a r rs :
  app_state a = MRP_LA_STATE \/ app_state a = MRP_LO_STATE ->
  app_state (tx_run p2p a (r :: rs)) = MRP_VO_STATE.
Proof.
  intros Ha. rewrite tx_run_cons. apply tx_run_observer. unfold mrp_applicant_fsm.
  by destruct Ha as [-> | ->].
Qed.

(** C38. Transmission terminates and nothing is forgotten: every transmit opportunity of
    an applicant that has something to send produces the message its state calls for, as
    a mandatory one: New or Join for a declaration, the Leave for one that was withdrawn,
    the registrar's state from LO; and brings it closer to rest,
    [mrp_applicant_state_transition_implies_tx] asks for another opportunity exactly when one
    is needed, and three opportunities bring any applicant to rest: quiet if it declares, a
    very anxious observer if it was leaving. *)
Theorem mrp_applicant_tx_liveness p2p a rs :
  (3 <= length rs)%nat ->
  let tx_all := tx_run p2p a in
  wants_tx (app_state (tx_all rs)) = false /\
  (declares (app_state a) = true ->
     app_state (tx_all rs) = MRP_QA_STATE \/ app_state (tx_all rs) = MRP_QP_STATE) /\
  (app_state a = MRP_LA_STATE \/ app_state a = MRP_LO_STATE -> app_state (tx_all rs) = MRP_VO_STATE) /\
  (forall rs' r, let b := tx_all rs' in let b' := snd (mrp_applicant_fsm p2p b MRP_EVENT_TX r) in
     (wants_tx (app_state b) = true ->
        tx b' = true /\ encode b' = MRP_ENCODE_YES /\ sndmsg b' = due_message (app_state b)) /\
     mrp_applicant_state_transition_implies_tx b' = if wants_tx (app_state b') then 1 else 0).
Proof.
  intros Hl tx_all. pose proof (tx_run_rest p2p a rs) as Hr. fold (tx_all rs) in Hr.
  assert (wants_tx (app_state (tx_all rs)) = false) as Hw by (apply Hr; destruct (app_state a); simpl; lia).
  split; [done|]. split; [|split].
  - intros Hd. pose proof (tx_run_declares p2p a rs) as H. fold (tx_all rs) in H. rewrite Hd in H.
    destruct (app_state (tx_all rs)); simpl in *; try done; by auto.
  - intros Hla. destruct rs as [|r rs]; [simpl in Hl; lia|]. by apply tx_run_leaving.
  - intros rs' r. destruct (applicant_tx_progress p2p (tx_all rs') r) as (H1 & _ & H3).
    split; [|done]. intros Hb. by destruct (H1 Hb) as (? & ? & ? & _).
Qed.

(** ** Timers *)

(** The timer descriptors are distinct and a timer marked as running is armed. *)
Record timers_wf {X} (s : MrpState X) : Prop := mkTimersWf {
  tw_join_lv : join_timer (mdb s) <> lv_timer (mdb s);
  tw_join_lva : join_timer (mdb s) <> lva_timer (mdb s);
  tw_lv_lva : lv_timer (mdb s) <> lva_timer (mdb s);
  tw_join : join_timer_running (mdb s) = true -> is_Some (armed (io s) !! join_timer (mdb s));
  tw_lv : lv_timer_running (mdb s) = true -> is_Some (armed (io s) !! lv_timer (mdb s));
  tw_lva : lva_timer_running (mdb s) = true -> is_Some (armed (io s) !! lva_timer (mdb s)) }.

(** What the timer operations leave alone. *)
Record timer_step {X} (s s' : MrpState X) : Prop := mkTimerStep {
  ts_app : app s' = app s;
  ts_clients : clients (mdb s') = clients (mdb s);
  ts_lva : lva (mdb s') = lva (mdb s);
  ts_join_fd : join_timer (mdb s') = join_timer (mdb s);
  ts_lv_fd : lv_timer (mdb s') = lv_timer (mdb s);
  ts_lva_fd : lva_timer (mdb s') = lva_timer (mdb s);
  ts_frames : frames (io s') = frames (io s);
  ts_ctl : ctl (io s') = ctl (io s);
  ts_socket : control_socket (io s') = control_socket (io s);
  ts_p2pmac : p2pmac (io s') = p2pmac (io s);
  ts_station : STATION_ADDR (io s') = STATION_ADDR (io s);
  ts_wf : timers_wf s -> timers_wf s' }.

#[global] Instance timer_step_refl {X} : Reflexive (timer_step (X:=X)).
Proof. intros s. by split. Qed.
#[global] Instance timer_step_trans {X} : Transitive (timer_step (X:=X)).
Proof. intros s1 s2 s3 [] []. split; try congruence; auto. Qed.

(** [timerfd_settime] succeeds on the descriptors and times the daemon gives it. *)
Definition timers_ok (env : MrpEnv) : Prop := forall n, 0 <= settime_rc n.

Section timers.
Context `{env : MrpEnv} {X : Type}.
Implicit Types s : MrpState X.

(** Run a timer operation and split on the answers of the system. *)
Ltac run_timer :=
  unfold wp, mrp_jointimer_start, mrp_jointimer_stop, mrp_lvtimer_start, mrp_lvtimer_stop,
    mrp_lvatimer_start, mrp_lvatimer_stop, mrpd_timer_start, mrpd_timer_stop,
    mrpd_timer_start_interval, timerfd_settime, upd_io, upd_mdb, draw;
  unfold st_bind, st_get, st_ret, st_modify; cbn -[Z.leb Z.rem Z.div Z.modulo];
  repeat (case_match; cbn -[Z.leb Z.rem Z.div Z.modulo] in *); simplify_eq;
  rewrite ?Z.leb_le, ?Z.leb_gt in *.

Ltac timer_post :=
  repeat split; intros; cbn in *; try done; try lia; try congruence;
  try match goal with H : timers_wf _ |- _ => destruct H; cbn in * end; try done; try congruence;
  repeat first [ rewrite lookup_insert_eq | rewrite lookup_insert_ne by congruence
               | rewrite lookup_delete_ne by congruence ]; eauto.

Lemma mrp_jointimer_start_spec s :
  wp mrp_jointimer_start (fun r s' => timer_step s s' /\
    lv_timer_running (mdb s') = lv_timer_running (mdb s) /\
    lva_timer_running (mdb s') = lva_timer_running (mdb s) /\
    (timers_ok env -> join_timer_running (mdb s') = true)) s.
Proof.
  unfold timers_ok. run_timer; timer_post;
    match goal with H : forall n, 0 <= _ |- _ => specialize (H (clk (io s))); lia end.
Qed.

Lemma mrp_jointimer_stop_spec s :
  wp mrp_jointimer_stop (fun _ s' => timer_step s s' /\
    lv_timer_running (mdb s') = lv_timer_running (mdb s) /\
    lva_timer_running (mdb s') = lva_timer_running (mdb s) /\
    join_timer_running (mdb s') = false) s.
Proof. run_timer; timer_post. Qed.

Lemma mrp_lvtimer_start_spec s :
  wp mrp_lvtimer_start (fun r s' => timer_step s s' /\
    join_timer_running (mdb s') = join_timer_running (mdb s) /\
    lva_timer_running (mdb s') = lva_timer_running (mdb s) /\
    (lv_timer_running (mdb s) = true -> lv_timer_running (mdb s') = true) /\
    (timers_ok env -> lv_timer_running (mdb s') = true)) s.
Proof.
  unfold timers_ok. run_timer; timer_post;
    match goal with H : forall n, 0 <= _ |- _ => specialize (H (clk (io s))); lia end.
Qed.

Lemma mrp_lvtimer_stop_spec s :
  wp mrp_lvtimer_stop (fun _ s' => timer_step s s' /\
    join_timer_running (mdb s') = join_timer_running (mdb s) /\
    lva_timer_running (mdb s') = lva_timer_running (mdb s) /\
    lv_timer_running (mdb s') = false) s.
Proof. run_timer; timer_post. Qed.

Lemma mrp_lvatimer_stop_spec s :
  wp mrp_lvatimer_stop (fun _ s' => timer_step s s' /\
    join_timer_running (mdb s') = join_timer_running (mdb s) /\
    lv_timer_running (mdb s') = lv_timer_running (mdb s) /\
    lva_timer_running (mdb s') = false) s.
Proof. run_timer; timer_post. Qed.

(** How long a leave-all period is: LeaveAllTime to 1.5 times LeaveAllTime. *)
Definition leave_all_period (t : itimerspec) : Prop :=
  10 <= fst (it_value t) < 15 /\ 0 <= snd (it_value t) < 1000000000 /\ it_interval t = (0, 0).

Lemma lva_timeout r : 0 <= r ->
  leave_all_period (mkItimer ((MRP_LVATIMER_VAL + Z.rem r (MRP_LVATIMER_VAL / 2)) / 1000,
    (MRP_LVATIMER_VAL + Z.rem r (MRP_LVATIMER_VAL / 2)) mod 1000 * 1000000) (0, 0)).
Proof.
  intros Hr. unfold leave_all_period, MRP_LVATIMER_VAL. change (10000 / 2) with 5000. cbn [it_value it_interval fst snd].
  rewrite Z.rem_mod_nonneg by lia. pose proof (Z.mod_pos_bound r 5000).
  pose proof (Z.mod_pos_bound (10000 + r mod 5000) 1000).
  pose proof (Z.div_mod (10000 + r mod 5000) 1000). repeat split; lia.
Qed.

Lemma mrp_lvatimer_start_spec s :
  (forall n, 0 <= mrp_random n) ->
  wp mrp_lvatimer_start (fun r s' => timer_step s s' /\
    join_timer_running (mdb s') = join_timer_running (mdb s) /\
    lv_timer_running (mdb s') = lv_timer_running (mdb s) /\
    (timers_ok env -> lva_timer_running (mdb s') = true /\
      (lva_timer_running (mdb s) = false ->
       exists t, armed (io s') !! lva_timer (mdb s') = Some t /\ leave_all_period t))) s.
Proof.
  intros Hrand. pose proof (Hrand (clk (io s))) as Hr. apply lva_timeout in Hr. unfold timers_ok.
  run_timer; timer_post; try match goal with H : forall n, 0 <= settime_rc n |- _ => specialize (H (S (clk (io s)))); lia end.
  all: unfold leave_all_period in Hr; simpl in Hr; match goal with H : (_, _) = (0, 0) |- _ => injection H as Ha Hb; lia | _ => idtac end.
Qed.
End timers.

(** ** Sequences of events

    [since P Q es]: some event of [es] satisfies [P] (which also sees the events before
    it) and every later one satisfies [Q]. *)
Definition since {A} (P : list A -> A -> Prop) (Q : A -> Prop) (es : list A) : Prop :=
  exists older e newer, es = older ++ e :: newer /\ P older e /\ Forall Q newer.

Lemma since_nil {A} (P : list A -> A -> Prop) Q : ~ since P Q [].
Proof. intros (o & e & n & H & _). by destruct o. Qed.

Lemma since_snoc {A} (P : list A -> A -> Prop) Q es e :
  since P Q (es ++ [e]) <-> P es e \/ (since P Q es /\ Q e).
Proof.
  split.
  - intros (o & x & n & E & Hp & Hq). destruct n as [|y n _] using rev_ind.
    + apply app_inj_tail in E as [-> ->]. by left.
    + rewrite app_comm_cons, app_assoc in E. apply app_inj_tail in E as [-> ->].
      apply Forall_app in Hq as [Hq Hy]. rewrite Forall_singleton in Hy. right. split; [|done].
      by exists o, x, n.
  - intros [Hp | [(o & x & n & -> & Hp & Hq) He]].
    + by exists es, e, [].
    + exists o, x, (n ++ [e]). split; [by rewrite <- app_assoc|]. split; [done|].
      apply Forall_app. by split; [|constructor].
Qed.

(** ** Registrar *)
Definition join_event (e : mrp_event) : Prop :=
  e = MRP_EVENT_RNEW \/ e = MRP_EVENT_RJOININ \/ e = MRP_EVENT_RJOINMT.
Definition leave_event (e : mrp_event) : Prop :=
  e = MRP_EVENT_RLV \/ e = MRP_EVENT_TXLA \/ e = MRP_EVENT_RLA \/ e = MRP_EVENT_REDECLARE.
Definition clear_event (e : mrp_event) : Prop := e = MRP_EVENT_BEGIN \/ e = MRP_EVENT_FLUSH.

(** The attribute is registered: a declaration was received and nothing since then
    withdrew it. *)
Definition registered (es : list mrp_event) : Prop :=
  since (fun _ e => join_event e) (fun e => ~ leave_event e /\ ~ clear_event e) es.
(** It is leaving: it was registered when it was withdrawn, and since then it has been
    neither declared again nor has the leave timer expired. *)
Definition leaving (es : list mrp_event) : Prop :=
  since (fun older e => registered older /\ leave_event e)
    (fun e => ~ join_event e /\ e <> MRP_EVENT_LVTIMER /\ ~ clear_event e) es.

Section registrar.
Context `{env : MrpEnv} {X : Type}.

(** A registrar's life: the events in order. *)
Fixpoint registrar_run (es : list mrp_event) (a : mrp_registrar_attribute)
    : stM (MrpState X) mrp_registrar_attribute :=
  match es with
  | [] => st_ret a
  | e :: es' => let! r := mrp_registrar_fsm a e in registrar_run es' (snd r)
  end.

Definition reg_next (a : mrp_registrar_attribute) (e : mrp_event) : mrp_registrar_attribute :=
  match registrar_step e (reg_state a) with
  | None => a
  | Some (s', n, _) => mkRegistrar s' n (macaddr a)
  end.

Lemma mrp_registrar_fsm_spec a e (s : MrpState X) :
  wp (mrp_registrar_fsm a e) (fun '(rc, a') s' => a' = reg_next a e /\ timer_step s s' /\
    join_timer_running (mdb s') = join_timer_running (mdb s) /\
    lva_timer_running (mdb s') = lva_timer_running (mdb s) /\
    (lv_timer_running (mdb s) = true -> lv_timer_running (mdb s') = true) /\
    (timers_ok env -> reg_state a' = MRP_LV_STATE -> reg_state a <> MRP_LV_STATE ->
       lv_timer_running (mdb s') = true)) s.
Proof.
  unfold mrp_registrar_fsm, reg_next.
  destruct (registrar_step e (reg_state a)) as [[[st n] b]|] eqn:E; [|by apply wp_ret].
  apply wp_bind. destruct b.
  - apply wp_bind. eapply wp_mono; [apply mrp_lvtimer_start_spec|]. intros r s' (H1 & H2 & H3 & H4 & H5).
    do 2 apply wp_ret. split_and!; try done; auto.
  - do 2 apply wp_ret. split_and!; try done. simpl. intros _ Hlv Hn. exfalso.
    destruct e, (reg_state a) eqn:Es; simpl in *; simplify_eq.
Qed.

Lemma registrar_fsm_notice a e (s : MrpState X) :
  wp (mrp_registrar_fsm a e) (fun '(rc, a') _ => a' = reg_next a e /\
    rc = if decide (registrar_step e (reg_state a) = None) then -1 else 0) s.
Proof.
  unfold mrp_registrar_fsm, reg_next.
  destruct (registrar_step e (reg_state a)) as [[[st n] b]|] eqn:E; [|by apply wp_ret].
  apply wp_bind. destruct b.
  - apply wp_bind. eapply wp_mono; [apply mrp_lvtimer_start_spec|]. intros r s' _. by do 2 apply wp_ret.
  - by do 2 apply wp_ret.
Qed.

Lemma registrar_run_spec es a (s : MrpState X) :
  wp (registrar_run es a) (fun a' s' => a' = foldl reg_next a es /\ timer_step s s' /\
    (timers_ok env -> (reg_state a = MRP_LV_STATE -> lv_timer_running (mdb s) = true) ->
       reg_state a' = MRP_LV_STATE -> lv_timer_running (mdb s') = true)) s.
Proof.
  revert a s. induction es as [|e es IH]; intros a s; simpl.
  - apply wp_ret. split_and!; [done|done|auto].
  - apply wp_bind. eapply wp_mono; [apply mrp_registrar_fsm_spec|].
    intros [rc a1] s1 (-> & H1 & _ & _ & H4 & H5). eapply wp_mono; [apply IH|].
    intros a2 s2 (-> & H6 & H7). split; [done|]. split; [by etrans|]. intros Hok Hlv. apply H7; [done|].
    intros Hl. destruct (decide (reg_state a = MRP_LV_STATE)); auto.
Qed.
End registrar.

(** One step of the abstract registrar. *)
Lemma reg_next_states a e (P L : Prop) :
  (reg_state a = MRP_IN_STATE <-> P) -> (reg_state a = MRP_LV_STATE <-> L) ->
  (reg_state (reg_next a e) = MRP_IN_STATE <-> join_event e \/ (P /\ ~ leave_event e /\ ~ clear_event e)) /\
  (reg_state (reg_next a e) = MRP_LV_STATE <->
     (P /\ leave_event e) \/ (L /\ ~ join_event e /\ e <> MRP_EVENT_LVTIMER /\ ~ clear_event e)).
Proof.
  intros <- <-. unfold reg_next, join_event, leave_event, clear_event.
  destruct e, (reg_state a) eqn:E; simpl; rewrite ?E; intuition congruence.
Qed.

Lemma reg_history es m :
  let a := foldl reg_next (mkRegistrar MRP_MT_STATE MRP_NOTIFY_NONE m) es in
  (reg_state a = MRP_IN_STATE <-> registered es) /\ (reg_state a = MRP_LV_STATE <-> leaving es).
Proof.
  induction es as [|e es IH] using rev_ind; simpl.
  - split; (split; [done|]); intros H; by apply since_nil in H.
  - rewrite foldl_app. simpl. unfold registered at 1, leaving at 1. rewrite !since_snoc.
    destruct IH as [H1 H2]. destruct (reg_next_states _ e _ _ H1 H2) as [H3 H4]. by rewrite H3, H4.
Qed.

(** The events a registrar knows. *)
Definition registrar_event (e : mrp_event) : bool :=
  match e with
  | MRP_EVENT_RNEW | MRP_EVENT_RJOININ | MRP_EVENT_RJOINMT | MRP_EVENT_RIN | MRP_EVENT_RMT | MRP_EVENT_RLV
  | MRP_EVENT_RLA | MRP_EVENT_TXLA | MRP_EVENT_REDECLARE | MRP_EVENT_LVTIMER | MRP_EVENT_FLUSH | MRP_EVENT_BEGIN => true
  | _ => false
  end.

(** What the clients are told of an event, by the history [es] before it. *)
Definition told (es : list mrp_event) (e : mrp_event) (n : mrp_notify) : Prop :=
  (n = MRP_NOTIFY_NEW <-> e = MRP_EVENT_RNEW) /\
  (n = MRP_NOTIFY_JOIN <-> (e = MRP_EVENT_RJOININ \/ e = MRP_EVENT_RJOINMT) /\ ~ registered es) /\
  (n = MRP_NOTIFY_LV <-> e = MRP_EVENT_RLV \/ e = MRP_EVENT_FLUSH \/ (e = MRP_EVENT_LVTIMER /\ leaving es)).

(** C36. Registrations: a registrar started empty is IN exactly when a declaration was
    received and not withdrawn since, LV exactly when a registered attribute was
    withdrawn and neither declared again nor timed out since, and then the leave timer
    runs.  Every further event the registrar knows returns 0 and sets the notification:
    a New exactly for a received New, a Join exactly when a received Join registers an
    attribute that was not registered, a Leave exactly for a received Leave, a flush or
    the timer that ends a leaving registration, and none otherwise; another event
    returns -1 and changes nothing. *)
Theorem mrp_registrar_history (env : MrpEnv) (X : Type) es m (s : MrpState X) :
  timers_ok env ->
  exists a s', registrar_run es (mkRegistrar MRP_MT_STATE MRP_NOTIFY_NONE m) s = Done (a, s') /\
    timer_step s s' /\
    (reg_state a = MRP_IN_STATE <-> registered es) /\
    (reg_state a = MRP_LV_STATE <-> leaving es) /\
    (leaving es -> lv_timer_running (mdb s') = true) /\
    (forall e, exists rc a2 s2, mrp_registrar_fsm a e s' = Done ((rc, a2), s2) /\
       (registrar_event e = true -> rc = 0 /\ told es e (notify a2)) /\
       (registrar_event e = false -> rc = -1 /\ a2 = a)).
Proof.
  intros Hok. destruct (reg_history es m) as [Hin Hlv].
  destruct (wp_done _ _ _ (registrar_run_spec es (mkRegistrar MRP_MT_STATE MRP_NOTIFY_NONE m) s))
    as (a & s' & E & -> & H1 & H2).
  set (a := foldl _ _ _) in *. exists a, s'. do 4 (split; [done|]). split; [intros Hl; apply H2; [done|done|by apply Hlv]|].
  intros e. destruct (wp_done _ _ _ (registrar_fsm_notice a e s')) as ([rc a2] & s2 & E2 & -> & ->).
  exists (if decide (registrar_step e (reg_state a) = None) then -1 else 0), (reg_next a e), s2. split; [done|].
  unfold told. rewrite <- Hin, <- Hlv. unfold reg_next.
  destruct e, (reg_state a) eqn:Es; cbn; (split; intros He; try discriminate He; (split; [reflexivity|])); try reflexivity;
    split_and!; intuition congruence.
Qed.

(** ** The leave-all state machine *)
Section leaveall.
Context `{env : MrpEnv} {X : Type}.
Implicit Types s : MrpState X.

(** The next state of the machine, for an event it knows. *)
Definition lva_next (e : mrp_event) (l : mrp_timer) : mrp_timer :=
  match e with
  | MRP_EVENT_BEGIN | MRP_EVENT_RLA => mkLva MRP_TIMER_PASSIVE false MRP_SND_NONE
  | MRP_EVENT_LVATIMER => mkLva MRP_TIMER_ACTIVE false MRP_SND_NONE
  | MRP_EVENT_TX =>
      match lva_state l with
      | MRP_TIMER_ACTIVE => mkLva MRP_TIMER_PASSIVE true MRP_SND_LVA
      | MRP_TIMER_PASSIVE => mkLva MRP_TIMER_PASSIVE false MRP_SND_NONE
      end
  | _ => l
  end.

(** What the leave-all machine leaves alone: everything but its own state and timer. *)
Record lva_step s s' : Prop := mkLvaStep {
  ls_app : app s' = app s;
  ls_clients : clients (mdb s') = clients (mdb s);
  ls_join : join_timer_running (mdb s') = join_timer_running (mdb s);
  ls_lv : lv_timer_running (mdb s') = lv_timer_running (mdb s);
  ls_frames : frames (io s') = frames (io s);
  ls_ctl : ctl (io s') = ctl (io s);
  ls_socket : control_socket (io s') = control_socket (io s);
  ls_p2pmac : p2pmac (io s') = p2pmac (io s);
  ls_station : STATION_ADDR (io s') = STATION_ADDR (io s);
  ls_wf : timers_wf s -> timers_wf s' }.

Lemma timer_lva_step s s' :
  timer_step s s' -> join_timer_running (mdb s') = join_timer_running (mdb s) ->
  lv_timer_running (mdb s') = lv_timer_running (mdb s) -> lva_step s s'.
Proof. by intros []. Qed.

Lemma lva_step_set s s' l :
  lva_step s s' -> lva_step s (mkMrp (set_lva l (mdb s')) (app s') (io s')).
Proof. intros []. split; try done. intros Hw. by destruct (ls_wf0 Hw). Qed.

(** Restarting the timer draws a new leave-all period. *)
Lemma lvatimer_restart_spec {A} (k : stM (MrpState X) A) Q s :
  (forall n, 0 <= mrp_random n) ->
  (forall s', timer_step s s' ->
    join_timer_running (mdb s') = join_timer_running (mdb s) ->
    lv_timer_running (mdb s') = lv_timer_running (mdb s) ->
    (timers_ok env -> lva_timer_running (mdb s') = true /\
       exists t, armed (io s') !! lva_timer (mdb s') = Some t /\ leave_all_period t) -> wp k Q s') ->
  wp (mrp_lvatimer_stop ;! mrp_lvatimer_start ;! k) Q s.
Proof.
  intros Hr Hk. apply wp_bind. eapply wp_mono; [apply mrp_lvatimer_stop_spec|]. intros _ s1 (H1 & H2 & H3 & H4).
  apply wp_bind. eapply wp_mono; [by apply mrp_lvatimer_start_spec|]. intros _ s2 (H5 & H6 & H7 & H8).
  apply Hk; [by etrans|congruence|congruence|]. intros Hok. specialize (H8 Hok) as [H8 H9]. auto.
Qed.

Lemma mrp_lvatimer_fsm_spec e s :
  (forall n, 0 <= mrp_random n) ->
  wp (mrp_lvatimer_fsm e) (fun rc s' => lva (mdb s') = lva_next e (lva (mdb s)) /\ lva_step s s' /\
    (timers_ok env -> e = MRP_EVENT_RLA \/ e = MRP_EVENT_LVATIMER ->
       lva_timer_running (mdb s') = true /\
       exists t, armed (io s') !! lva_timer (mdb s') = Some t /\ leave_all_period t)) s.
Proof.
  intros Hr. unfold mrp_lvatimer_fsm. apply wp_bind, wp_get.
  assert (lva_step s s) as Hrefl by done.
  destruct e; try (apply wp_ret; split_and!; [done|done|]; intros _ [?|?]; done).
  - apply wp_bind. eapply wp_mono; [by apply mrp_lvatimer_start_spec|]. intros _ s1 (H1 & H2 & H3 & _).
    apply wp_bind, wp_modify, wp_ret. split_and!; [done| |intros _ [?|?]; done].
    by apply lva_step_set, timer_lva_step.
  - unfold lva_next. destruct (lva_state (lva (mdb s))) eqn:E; simpl;
      (apply wp_bind, wp_modify, wp_ret); (split_and!; [done| |intros _ [?|?]; done]); by apply lva_step_set.
  - apply lvatimer_restart_spec; [done|]. intros s1 H1 H2 H3 H4. apply wp_bind, wp_modify, wp_ret.
    split_and!; [done| |auto]. by apply lva_step_set, timer_lva_step.
  - apply lvatimer_restart_spec; [done|]. intros s1 H1 H2 H3 H4. apply wp_bind, wp_modify, wp_ret.
    split_and!; [done| |auto]. by apply lva_step_set, timer_lva_step.
Qed.

Fixpoint leaveall_run (es : list mrp_event) : stM (MrpState X) unit :=
  match es with
  | [] => st_ret tt
  | e :: es' => mrp_lvatimer_fsm e ;! leaveall_run es'
  end.

Lemma leaveall_run_spec es s :
  (forall n, 0 <= mrp_random n) ->
  wp (leaveall_run es) (fun _ s' => lva (mdb s') = foldl (fun l e => lva_next e l) (lva (mdb s)) es /\
    frames (io s') = frames (io s) /\ (timers_wf s -> timers_wf s')) s.
Proof.
  intros Hr. revert s. induction es as [|e es IH]; intros s; simpl; [by apply wp_ret|].
  apply wp_bind. eapply wp_mono; [by apply mrp_lvatimer_fsm_spec|]. intros _ s1 (H1 & H2 & _).
  eapply wp_mono; [apply IH|]. intros _ s2 (H3 & H4 & H5). rewrite H3, H1, H4. destruct H2. auto.
Qed.
End leaveall.

(** A leave-all is due: the timer expired and neither a transmission nor a leave-all of
    another station came since. *)
Definition leaveall_due (es : list mrp_event) : Prop :=
  since (fun _ e => e = MRP_EVENT_LVATIMER)
    (fun e => e <> MRP_EVENT_TX /\ e <> MRP_EVENT_RLA /\ e <> MRP_EVENT_BEGIN) es.

Lemma lva_history es l :
  lva_state l = MRP_TIMER_PASSIVE ->
  lva_state (foldl (fun l e => lva_next e l) l es) = MRP_TIMER_ACTIVE <-> leaveall_due es.
Proof.
  intros Hl. induction es as [|e es IH] using rev_ind; simpl.
  - rewrite Hl. split; [done|]. intros H. by apply since_nil in H.
  - rewrite foldl_app. simpl. unfold leaveall_due. rewrite since_snoc, <- IH.
    set (l' := foldl _ l es). clearbody l'.
    destruct e, (lva_state l') eqn:E; simpl; rewrite ?E; simpl; intuition congruence.
Qed.

(** Leave-all: starting from a passive machine, a transmission carries a LeaveAll
    exactly when the leave-all timer expired and neither a transmission nor a LeaveAll
    of another station happened since; after every expiry and every received LeaveAll
    the timer is armed again for a random time between LeaveAllTime (10 s) and 1.5 times
    that. *)
Theorem mrp_leaveall_history (env : MrpEnv) (X : Type) es (s : MrpState X) :
  timers_ok env -> (forall n, 0 <= mrp_random n) -> lva_state (lva (mdb s)) = MRP_TIMER_PASSIVE ->
  exists s', leaveall_run es s = Done (tt, s') /\
    (exists rc s'', mrp_lvatimer_fsm MRP_EVENT_TX s' = Done (rc, s'') /\
       (lva_tx (lva (mdb s'')) = true <-> leaveall_due es)) /\
    (forall e, e = MRP_EVENT_RLA \/ e = MRP_EVENT_LVATIMER ->
       exists rc s'' t, mrp_lvatimer_fsm e s' = Done (rc, s'') /\ lva_timer_running (mdb s'') = true /\
         armed (io s'') !! lva_timer (mdb s'') = Some t /\ leave_all_period t).
Proof.
  intros Hok Hr Hl. destruct (wp_done _ _ _ (leaveall_run_spec es s Hr)) as ([] & s' & E & H1 & _).
  exists s'. split; [done|]. split.
  - destruct (wp_done _ _ _ (mrp_lvatimer_fsm_spec MRP_EVENT_TX s' Hr)) as (rc & s'' & E' & H2 & _).
    exists rc, s''. split; [done|]. rewrite H2, H1, <- (lva_history es _ Hl).
    set (l := foldl _ _ _). unfold lva_next. destruct (lva_state l); simpl; split; congruence.
  - intros e He. destruct (wp_done _ _ _ (mrp_lvatimer_fsm_spec e s' Hr)) as (rc & s'' & E' & _ & _ & H3).
    destruct (H3 Hok He) as (? & t & ? & ?). by exists rc, s'', t.
Qed.

(** ** The client list *)
Definition ports (l : list sockaddr_in) : list Z := sin_port <$> l.

Lemma client_lookup_spec l c : client_lookup l c = true <-> sin_port c ∈ ports l.
Proof.
  induction l as [|x l IH]; simpl; [set_solver|]. rewrite elem_of_cons, <- IH.
  destruct (Z.eqb_spec (sin_port x) (sin_port c)); intuition congruence.
Qed.

Lemma filter_keep_all {A} (P : A -> Prop) `{!forall x, Decision (P x)} (l : list A) :
  (forall x, x ∈ l -> P x) -> base.filter P l = l.
Proof.
  induction l as [|x l IH]; intros Hl; [done|]. rewrite list.filter_cons, decide_True by (apply Hl; left).
  f_equal. apply IH. intros y Hy. apply Hl. by right.
Qed.

Lemma client_unlink_spec l c :
  NoDup (ports l) -> client_unlink l c = base.filter (fun x => x <> c) l.
Proof.
  induction l as [|x l IH]; [done|]. cbn [ports fmap list_fmap client_unlink]. intros Hn.
  apply list.NoDup_cons in Hn as [Hx Hn]. rewrite list.filter_cons.
  destruct (decide (x = c)) as [->|Hc]; destruct (decide (_ <> c)); try done.
  - symmetry. apply filter_keep_all. intros y Hy ->. apply Hx. by apply list_elem_of_fmap_2.
  - by rewrite IH.
Qed.

Lemma ports_add mem l c : NoDup (ports l) -> NoDup (ports (snd (mrp_client_add mem l c))).
Proof.
  intros Hn. destruct c as [c|]; [|done]. unfold mrp_client_add. pose proof (client_lookup_spec l c) as Hl.
  destruct (client_lookup l c), mem; simpl; try done. unfold ports. rewrite fmap_app.
  apply list.NoDup_app. split; [done|]. split; [|apply NoDup_singleton].
  intros x Hx. simpl. rewrite list_elem_of_singleton. intros ->. destruct Hl as [_ Hl]. by discriminate Hl.
Qed.

Lemma ports_delete l c : NoDup (ports l) -> NoDup (ports (snd (mrp_client_delete l c))).
Proof.
  intros Hn. destruct c as [c|]; [|done]. unfold mrp_client_delete. cbn [snd]. rewrite client_unlink_spec by done.
  unfold ports. apply (sublist_NoDup _ (ports l)); [done|]. apply fmap_sublist, sublist_filter.
Qed.

(** Clients: on a list without two clients of the same port, adding a client keeps
    it so, never drops anyone, and without a memory failure makes the port present;
    deleting a client removes that client and nobody else; the count is the number of
    clients. *)
Theorem mrp_client_list mem l c :
  NoDup (ports l) ->
  let l1 := snd (mrp_client_add mem l (Some c)) in
  let l2 := snd (mrp_client_delete l (Some c)) in
  NoDup (ports l1) /\ NoDup (ports l2) /\
  l `prefix_of` l1 /\ (mem = true -> sin_port c ∈ ports l1 /\ fst (mrp_client_add mem l (Some c)) = 0) /\
  (forall x, x ∈ l2 <-> x ∈ l /\ x <> c) /\
  mrp_client_count l = Z.of_nat (length l).
Proof.
  intros Hn l1 l2. pose proof (ports_add mem l (Some c) Hn) as H1. pose proof (ports_delete l (Some c) Hn) as H2.
  split; [done|]. split; [done|]. clear H1 H2. subst l1 l2. unfold mrp_client_add, mrp_client_delete. cbn [snd fst].
  rewrite client_unlink_spec by done. pose proof (client_lookup_spec l c) as Hl. split_and!.
  - destruct (client_lookup l c), mem; simpl; try done. by exists [c].
  - intros ->. destruct (client_lookup l c); simpl; [by rewrite <- Hl|]. split; [|done].
    unfold ports. rewrite fmap_app. set_solver.
  - intros x. rewrite list_elem_of_filter. tauto.
  - clear. induction l as [|x l IH]; [done|]. cbn [mrp_client_count length]. lia.
Qed.
