(* ===== verification/MrpExamples.v ===== *)
(** * MrpExamples: concrete runs of the MRP state machines

    A system that always answers with success, an idle port, and instances of the
    theorems of [MrpProps] at concrete event sequences. *)
From stdpp Require Import base gmap list strings numbers.
From S2P Require Import Prelude Mrp MrpProps.
#[local] Open Scope Z_scope.

(** System calls succeed, [random] is a linear congruence, [malloc] never fails. *)
#[global] Instance calm_env : MrpEnv := {
  settime_rc := fun _ => 0;
  mrp_random := fun n => (Z.of_nat n * 1103515245 + 12345) mod 2147483648;
  mrp_malloc := fun _ => true;
  send_rc := fun _ len => len }.

Lemma calm_timers : timers_ok calm_env.
Proof. by intros n. Qed.
Lemma calm_random : forall n, 0 <= mrp_random n.
Proof. intros n. apply Z.mod_pos_bound. lia. Qed.
Lemma calm_memory : forall n, mrp_malloc n = true.
Proof. done. Qed.

Definition idle_io : Io := mkIo ∅ [] [] 3 MRP_DEFAULT_POINT_TO_POINT_MAC 4 [0; 27; 33; 1; 2; 3] 0.
Definition local_client : sockaddr_in := mkAddr 2 40001 2130706433.
Definition idle_db : mrp_database :=
  mkMrpDb (mkLva MRP_TIMER_PASSIVE false MRP_SND_NONE) 10 false 11 false 12 false [local_client].
Definition idle_port {X} (x : X) : MrpState X := mkMrp idle_db x idle_io.

Definition quiet_applicant : mrp_applicant_attribute :=
  mkApplicant MRP_QA_STATE false MRP_SND_NULL MRP_ENCODE_YES None.

(** A quiet applicant hears a LeaveAll, transmits twice and is quiet again. *)
Lemma mrp_applicant_confirmed_witness :
  (2 <= confirmations 1 [(MRP_EVENT_TX, true); (MRP_EVENT_TX, true)]
     (snd (mrp_applicant_fsm 1 quiet_applicant MRP_EVENT_RLA true)))%nat.
Proof.
  apply (mrp_applicant_confirmed 1 true [(MRP_EVENT_TX, true); (MRP_EVENT_TX, true)] quiet_applicant);
    [reflexivity | reflexivity | left; reflexivity].
Defined.

Lemma mrp_applicant_tx_liveness_witness :
  wants_tx (app_state (tx_run 1 (snd (mrp_applicant_fsm 1 quiet_applicant MRP_EVENT_NEW false))
    [false; true; true])) = false.
Proof.
  apply (mrp_applicant_tx_liveness 1 (snd (mrp_applicant_fsm 1 quiet_applicant MRP_EVENT_NEW false))
    [false; true; true]). simpl. lia.
Defined.

(** Declared, then withdrawn: leaving, with the leave timer running. *)
Lemma mrp_registrar_history_witness :
  exists a s', registrar_run [MRP_EVENT_RJOININ; MRP_EVENT_RLV]
      (mkRegistrar MRP_MT_STATE MRP_NOTIFY_NONE []) (idle_port tt) = Done (a, s') /\
    reg_state a = MRP_LV_STATE /\ lv_timer_running (mdb s') = true.
Proof.
  destruct (mrp_registrar_history calm_env unit [MRP_EVENT_RJOININ; MRP_EVENT_RLV] [] (idle_port tt) calm_timers)
    as (a & s' & E & _ & _ & Hlv & Ht & _).
  assert (reg_state a = MRP_LV_STATE) as Ha.
  { assert (a = mkRegistrar MRP_LV_STATE MRP_NOTIFY_LV []) as -> by (vm_compute in E; congruence). reflexivity. }
  exists a, s'. split; [exact E|]. split; [exact Ha|]. apply Ht, Hlv, Ha.
Defined.

Lemma mrp_leaveall_history_witness :
  exists s', leaveall_run [MRP_EVENT_LVATIMER] (idle_port tt) = Done (tt, s') /\
    exists rc s'', mrp_lvatimer_fsm MRP_EVENT_TX s' = Done (rc, s'') /\ lva_tx (lva (mdb s'')) = true.
Proof.
  destruct (mrp_leaveall_history calm_env unit [MRP_EVENT_LVATIMER] (idle_port tt) calm_timers calm_random eq_refl)
    as (s' & E & (rc & s'' & E' & H) & _).
  exists s'. split; [exact E|]. exists rc, s''. split; [exact E'|]. apply H.
  exists [], MRP_EVENT_LVATIMER, []. split; [reflexivity|]. split; [reflexivity|constructor].
Defined.

Lemma mrp_client_list_witness :
  mrp_client_count [local_client] = 1 /\
  sin_port (mkAddr 2 40002 2130706433) ∈
    ports (snd (mrp_client_add true [local_client] (Some (mkAddr 2 40002 2130706433)))).
Proof.
  destruct (mrp_client_list true [local_client] (mkAddr 2 40002 2130706433)) as (_ & _ & _ & H & _ & Hc).
  - apply NoDup_singleton.
  - split; [exact Hc|]. apply H. reflexivity.
Defined.
