(* ===== verification/Mvrp.v ===== *)
(** * Mvrp: the Multiple VLAN Registration Protocol

    Model of [daemons/mrpd/mvrp.c]: the database of VLAN attributes, the handling of
    protocol events, the MRPDU encoder and decoder, the notifications to clients, the
    control commands, and start-up, reclaim and shutdown.

    The doubly linked list of attributes is a list in its order; a pointer into it is
    the attribute's VID (unique, see [MvrpInv]) or, in the loops that free nodes, a
    position (the attributes before it and those after it).  [MvrpList] relates the
    pointer manipulation of [mvrp_add] and [mvrp_conditional_reclaim] to this view.
    Buffers are byte lists indexed by offset; an access outside is a fault. *)
From stdpp Require Import base gmap list strings numbers.
From S2P Require Import Prelude Text Parse Mrp.
#[local] Open Scope Z_scope.
#[local] Open Scope st_scope.

(** ** Data *)
Record mvrp_attribute := mkMvrp {
  attribute : Z;
  applicant : mrp_applicant_attribute;
  registrar : mrp_registrar_attribute }.

#[global] Instance mvrp_attribute_eq_dec : EqDecision mvrp_attribute.
Proof. solve_decision. Defined.

(** The part of [struct mvrp_database] beside the [mrp_database]. *)
Record mvrp_database := mkMvrpDb {
  attrib_list : list mvrp_attribute;
  send_empty_LeaveAll_flag : bool }.

Definition MS : Type := MrpState mvrp_database.

Definition MVRP_ETYPE : Z := 0x88F5.
Definition MVRP_PROT_VER : Z := 0.
Definition MVRP_VID_TYPE : Z := 1.
Definition MAX_FRAME_SIZE : Z := 2000.
Definition MAX_MRPD_CMDSZ : Z := 1500.
Definition MRPDU_ENDMARK_SZ : Z := 2.
Definition MVRP_CUSTOMER_BRIDGE_ADDR : list Z := [0x01; 0x80; 0xC2; 0x00; 0x00; 0x21].

(** Attribute events on the wire. *)
Definition MRPDU_NEW : Z := 0.
Definition MRPDU_JOININ : Z := 1.
Definition MRPDU_IN : Z := 2.
Definition MRPDU_JOINMT : Z := 3.
Definition MRPDU_MT : Z := 4.
Definition MRPDU_LV : Z := 5.
Definition MRPDU_3PACK_ENCODE (x y z : Z) : Z := ((x * 6) + y) * 6 + z.
Definition MRPDU_VECT_NUMVALUES (x : Z) : Z := Z.land x (Z.shiftl 1 13 - 1).
Definition MRPDU_VECT_LVA (x : Z) : bool := Z.land x (Z.shiftl 7 13) =? Z.shiftl 1 13.
Definition MRPDU_VECT_LVA_FLAG : Z := Z.shiftl 1 13.

Definition set_applicant (x : mrp_applicant_attribute) (a : mvrp_attribute) : mvrp_attribute :=
  mkMvrp (attribute a) x (registrar a).
Definition set_registrar (x : mrp_registrar_attribute) (a : mvrp_attribute) : mvrp_attribute :=
  mkMvrp (attribute a) (applicant a) x.
Definition set_attrib_list (l : list mvrp_attribute) (d : mvrp_database) : mvrp_database :=
  mkMvrpDb l (send_empty_LeaveAll_flag d).
Definition set_flag (b : bool) (d : mvrp_database) : mvrp_database := mkMvrpDb (attrib_list d) b.

(** ** The attribute list *)
Fixpoint mvrp_lookup (l : list mvrp_attribute) (rattrib : mvrp_attribute) : option mvrp_attribute :=
  match l with
  | [] => None
  | a :: l' => if attribute a =? attribute rattrib then Some a else mvrp_lookup l' rattrib
  end.

(** Insertion before the first attribute that is not smaller, or at the tail. *)
Fixpoint mvrp_add (l : list mvrp_attribute) (rattrib : mvrp_attribute) : list mvrp_attribute :=
  match l with
  | [] => [rattrib]
  | a :: l' =>
      if attribute a <? attribute rattrib then a :: mvrp_add l' rattrib
      else rattrib :: a :: l'
  end.

(** The update of the attribute that [mvrp_lookup] of this VID points to. *)
Fixpoint update_vid (vid : Z) (f : mvrp_attribute -> mvrp_attribute) (l : list mvrp_attribute)
    : list mvrp_attribute :=
  match l with
  | [] => []
  | a :: l' => if attribute a =? vid then f a :: l' else a :: update_vid vid f l'
  end.

Definition mvrp_merge (l : list mvrp_attribute) (rattrib : mvrp_attribute) : Z * list mvrp_attribute :=
  match mvrp_lookup l rattrib with
  | None => (-1, l)
  | Some _ =>
      (0, update_vid (attribute rattrib)
            (fun a => set_registrar (set_macaddr (macaddr (registrar rattrib)) (registrar a)) a) l)
  end.

(** The attribute a successful [mvrp_alloc] returns; [vid] and [mac] are what the callers
    store in it at once. *)
Definition mvrp_alloc (vid : Z) (mac : list Z) : mvrp_attribute :=
  mkMvrp vid (mkApplicant MRP_VO_STATE false MRP_SND_NULL MRP_ENCODE_OPTIONAL None)
    (mkRegistrar MRP_MT_STATE MRP_NOTIFY_NONE mac).

(** ** Encoding *)

(** The event to send for an attribute; [None] is the [goto oops]. *)
Definition vect_event (a : mvrp_attribute) : option Z :=
  match sndmsg (applicant a) with
  | MRP_SND_IN => Some (if mrp_registrar_in (registrar a) then MRPDU_IN else MRPDU_MT)
  | MRP_SND_NEW => Some MRPDU_NEW
  | MRP_SND_LV => Some MRPDU_LV
  | MRP_SND_JOIN => Some (if mrp_registrar_in (registrar a) then MRPDU_JOININ else MRPDU_JOINMT)
  | _ => None
  end.

Definition clear_tx (a : mvrp_attribute) : mvrp_attribute := set_applicant (set_tx false (applicant a)) a.

(** Byte stores and loads in a buffer. *)
Definition poke (buf : list Z) (i v : Z) : outcome (list Z) :=
  if (0 <=? i) && (i <? Z.of_nat (length buf)) then Done (<[Z.to_nat i := u8 v]> buf) else Fault OutOfBounds.
Definition peek (buf : list Z) (i : Z) : outcome Z :=
  if 0 <=? i then or_fault OutOfBounds (buf !! Z.to_nat i) else Fault OutOfBounds.
Fixpoint pokes (buf : list Z) (i : Z) (vs : list Z) : outcome (list Z) :=
  match vs with
  | [] => Done buf
  | v :: vs' => buf' ← poke buf i v; pokes buf' (i + 1) vs'
  end.
Definition peek16 (buf : list Z) (i : Z) : outcome Z :=
  hi ← peek buf i; lo ← peek buf (i + 1); Done (hi * 256 + lo).

(** The locals of the vector being filled: [vectevt], [vectevt_idx], [numvalues],
    [vectidx] and the buffer. *)
Record Vector := mkVector {
  vectevt : Z * Z * Z; vectevt_idx : Z; numvalues : Z; vectidx : Z; vbuf : list Z }.

Definition set_vectevt (i c : Z) (e : Z * Z * Z) : Z * Z * Z :=
  let '(x, y, z) := e in
  if i =? 0 then (c, y, z) else if i =? 1 then (x, c, z) else (x, y, c).

Definition pack3 (e : Z * Z * Z) : Z := let '(x, y, z) := e in MRPDU_3PACK_ENCODE x y z.

(** One more event for a vector: it waits, or completes a packed byte. *)
Definition push_code (events : Z) (c : Z) (v : Vector) : outcome Vector :=
  let evt := set_vectevt (vectevt_idx v) c (vectevt v) in
  let idx := vectevt_idx v + 1 in
  let num := u16 (numvalues v + 1) in
  if 2 <? idx
  then buf ← poke (vbuf v) (events + vectidx v) (pack3 evt);
       Done (mkVector (0, 0, 0) 0 num (vectidx v + 1) buf)
  else Done (mkVector evt idx num (vectidx v) (vbuf v)).

(** The trailer: the events not yet packed. *)
Definition flush (events : Z) (v : Vector) : outcome Vector :=
  if 0 <? vectevt_idx v
  then buf ← poke (vbuf v) (events + vectidx v) (pack3 (vectevt v));
       Done (mkVector (vectevt v) (vectevt_idx v) (numvalues v) (vectidx v + 1) buf)
  else Done v.

(** The inner loop: [events] is the offset of [FirstValue_VectorEvents] and [vid] the
    [vid_firstval]; the result is whether it ended in [goto oops], the attributes with
    the transmitted ones marked, and the vector. *)
Fixpoint vectorize (events eof : Z) (vattribs : list mvrp_attribute) (vid : Z) (v : Vector)
    : outcome (bool * list mvrp_attribute * Vector) :=
  match vattribs with
  | [] => Done (false, [], v)
  | a :: rest =>
      if negb (tx (applicant a)) then Done (false, vattribs, v)
      else
        let vid' := u16 (vid + 1) in
        if negb (attribute a =? vid') then Done (false, vattribs, v)
        else
          match vect_event a with
          | None => Done (true, clear_tx a :: rest, v)
          | Some c =>
              v' ← push_code events c v;
              if eof - MRPDU_ENDMARK_SZ <? events + vectidx v'
              then Done (true, clear_tx a :: rest, v')
              else
                '(oops, rest', v'') ← vectorize events eof rest vid' v';
                Done (oops, clear_tx a :: rest', v'')
          end
  end.

(** One vector, for the attribute [a] and those that follow it: whether it ended in
    [goto oops], the attributes after [a], and where the vector ends. *)
Definition emit_vector (events eof : Z) (a : mvrp_attribute) (rest : list mvrp_attribute)
    (lva : bool) (buf : list Z) : outcome (bool * list mvrp_attribute * Z * list Z) :=
  buf ← pokes buf events [Z.shiftr (attribute a) 8; attribute a];
  match vect_event a with
  | None => Done (true, rest, events, buf)
  | Some c =>
      '(oops, rest', v) ← vectorize events eof rest (attribute a) (mkVector (c, 0, 0) 1 1 2 buf);
      if (oops : bool) then Done (true, rest', events, vbuf v)
      else
        v ← flush events v;
        if eof - MRPDU_ENDMARK_SZ <? events + vectidx v then Done (true, rest', events, vbuf v)
        else
          let header := Z.lor (MRPDU_VECT_NUMVALUES (numvalues v)) (if lva then MRPDU_VECT_LVA_FLAG else 0) in
          buf ← pokes (vbuf v) (events - 2) (be_bytes 2 header);
          Done (false, rest', events + vectidx v, buf)
  end.

(** The outer loop over the attributes: [msg_ptr] is [mrpdu_msg_ptr] and [vp] is
    [mrpdu_vectorptr].  The result is whether it ended in [goto oops], the attributes,
    whether one was found, the two pointers and the buffer. *)
Fixpoint emit_loop (fuel : nat) (attribs : list mvrp_attribute) (msg_ptr vp eof : Z) (lva found : bool)
    (buf : list Z) : outcome (bool * list mvrp_attribute * bool * Z * Z * list Z) :=
  if negb (msg_ptr <? eof - 6 - MRPDU_ENDMARK_SZ) then Done (false, attribs, found, msg_ptr, vp, buf)
  else
    match attribs with
    | [] => Done (false, [], found, msg_ptr, vp, buf)
    | a :: rest =>
        match fuel with
        | O => Fault OutOfFuel
        | S fuel' =>
            if negb (tx (applicant a)) then
              '(oops, rest', found', m', v', buf') ← emit_loop fuel' rest msg_ptr vp eof lva found buf;
              Done (oops, a :: rest', found', m', v', buf')
            else if decide (encode (applicant a) = MRP_ENCODE_OPTIONAL) then
              '(oops, rest', found', m', v', buf') ← emit_loop fuel' rest msg_ptr vp eof lva found buf;
              Done (oops, clear_tx a :: rest', found', m', v', buf')
            else
              '(oops, rest1, p, buf1) ← emit_vector (vp + 2) eof (clear_tx a) rest lva buf;
              if (oops : bool) then Done (true, clear_tx a :: rest1, true, msg_ptr, vp, buf1)
              else
                '(oops, rest', found', m', v', buf') ← emit_loop fuel' rest1 p p eof false true buf1;
                Done (oops, clear_tx a :: rest', found', m', v', buf')
        end
    end.

(** The result, [*bytes_used], the attributes and the buffer. *)
Definition mvrp_emit_vidvectors (buf : list Z) (msgbuf msgbuf_eof : Z) (lva flag : bool)
    (attribs : list mvrp_attribute) : outcome (Z * Z * list mvrp_attribute * list Z) :=
  if msgbuf_eof - 6 <? msgbuf then Done (-1, 0, attribs, buf)
  else
    buf ← pokes buf msgbuf [MVRP_VID_TYPE; 2];
    '(oops, attribs', found, msg_ptr, vp, buf) ←
      emit_loop (length attribs) attribs msgbuf (msgbuf + 2) msgbuf_eof lva false buf;
    if (oops : bool) then Done (-1, 0, attribs', buf)
    else
      '(msg_ptr, vp, buf) ← (if negb found && flag then
         buf ← pokes buf vp (be_bytes 2 (Z.lor (MRPDU_VECT_NUMVALUES 0) MRPDU_VECT_LVA_FLAG));
         len ← peek buf (msgbuf + 1);
         Done (vp + 2 + len, vp + 2 + len, buf)
       else Done (msg_ptr, vp, buf));
      if vp =? msgbuf + 2 then Done (0, 0, attribs', buf)
      else
        buf ← pokes buf msg_ptr [0; 0];
        Done (0, msg_ptr + 2 - msgbuf, attribs', buf).

(** ** Decoding helpers *)

(** [vectevt[0..2]] of a packed byte. *)
Definition unpack3 (p : Z) : list Z :=
  let e0 := p / 36 in
  let e1 := (p - e0 * 36) / 6 in
  [e0; e1; p - 36 * e0 - 6 * e1].

(** The event an attribute event stands for; [None] is the [default:] branch. *)
Definition rx_event (e : Z) : option mrp_event :=
  if e =? MRPDU_NEW then Some MRP_EVENT_RNEW
  else if e =? MRPDU_JOININ then Some MRP_EVENT_RJOININ
  else if e =? MRPDU_IN then Some MRP_EVENT_RIN
  else if e =? MRPDU_JOINMT then Some MRP_EVENT_RJOINMT
  else if e =? MRPDU_MT then Some MRP_EVENT_RMT
  else if e =? MRPDU_LV then Some MRP_EVENT_RLV
  else None.

(** "R=" and the six bytes of the last registration. *)
Definition regsrc (a : mvrp_attribute) : string :=
  "R=" +:+ foldr (fun b s => fmt_x 2 b +:+ s) String.EmptyString (macaddr (registrar a)).

Definition notify_text (verb : string) (a : mvrp_attribute) : string :=
  snprintf (Z.to_nat MAX_MRPD_CMDSZ - 1)
    (verb +:+ " " +:+ fmt_x 4 (attribute a) +:+ " " +:+ regsrc a +:+ " " +:+
     mrp_decode_state (registrar a) (applicant a) 8 +:+ newline).

(** One line of the table dump. *)
Definition dump_line (a : mvrp_attribute) : string :=
  "V:I=" +:+ fmt_x 4 (attribute a) +:+ " " +:+ regsrc a +:+ " " +:+
  mrp_decode_state (registrar a) (applicant a) 8 +:+ newline.

(** The attribute can be forgotten: neither declared here nor registered by others. *)
Definition reclaimable (a : mvrp_attribute) : bool :=
  bool_decide (reg_state (registrar a) = MRP_MT_STATE) &&
  (bool_decide (app_state (applicant a) = MRP_VO_STATE) ||
   bool_decide (app_state (applicant a) = MRP_AO_STATE) ||
   bool_decide (app_state (applicant a) = MRP_QO_STATE)).

(** ** Operations *)
Section Ops.
Context `{MrpEnv}.

Definition get_list : stM MS (list mvrp_attribute) := let! s := st_get in st_ret (attrib_list (app s)).
Definition put_list (l : list mvrp_attribute) : stM MS unit := upd_app (set_attrib_list l).

(** The loops [while (NULL != attrib) { ...; attrib = attrib->next; }] that change each
    attribute in place. *)
Fixpoint map_attribs (f : mvrp_attribute -> stM MS mvrp_attribute) (l : list mvrp_attribute)
    : stM MS (list mvrp_attribute) :=
  match l with
  | [] => st_ret []
  | a :: l' => let! a' := f a in let! l'' := map_attribs f l' in st_ret (a' :: l'')
  end.

Definition for_each_attrib (f : mvrp_attribute -> stM MS mvrp_attribute) : stM MS unit :=
  let! l := get_list in let! l' := map_attribs f l in put_list l'.

Definition applicant_fsm (event : mrp_event) (a : mvrp_attribute) : stM MS mvrp_attribute :=
  let! s := st_get in
  st_ret (set_applicant
    (snd (mrp_applicant_fsm (p2pmac (io s)) (applicant a) event (mrp_registrar_in (registrar a)))) a).

Definition registrar_fsm (event : mrp_event) (a : mvrp_attribute) : stM MS mvrp_attribute :=
  let! r := mrp_registrar_fsm (registrar a) event in
  st_ret (set_registrar (snd r) a).

(** ** Transmission *)
Definition mvrp_txpdu : stM MS Z :=
  let! mem := draw mrp_malloc in
  if negb mem then st_ret (-1)
  else
    let! s := st_get in
    let buf0 := replicate (Z.to_nat MAX_FRAME_SIZE) 0 in
    let! buf := st_lift (pokes buf0 0 (MVRP_CUSTOMER_BRIDGE_ADDR ++ STATION_ADDR (io s) ++
                                       be_bytes 2 MVRP_ETYPE ++ [MVRP_PROT_VER])) in
    let lv := lva_tx (lva (mdb s)) in
    (when lv do upd_mdb (fun d => set_lva (mkLva (lva_state (lva d)) false (lva_sndmsg (lva d))) d)) ;!
    let! r := st_lift (mvrp_emit_vidvectors buf 15 MAX_FRAME_SIZE lv
                         (send_empty_LeaveAll_flag (app s)) (attrib_list (app s))) in
    let '(rc, bytes, attribs, buf) := r in
    put_list attribs ;!
    if rc =? -1 then st_ret (-1)
    else
      let ptr := 15 + bytes in
      if ptr =? 15 then st_ret (-1)
      else if ptr <? MAX_FRAME_SIZE - MRPDU_ENDMARK_SZ then
        let! buf := st_lift (pokes buf ptr [0; 0]) in
        let! sent := mrpd_send (take (Z.to_nat (ptr + 2)) buf) in
        st_ret (if sent <=? 0 then -1 else 0)
      else st_ret (-1).

(** ** Notifications *)
Fixpoint send_to_clients {X} (cs : list sockaddr_in) (text : string) : stM (MrpState X) unit :=
  match cs with
  | [] => st_ret tt
  | c :: cs' => mrpd_send_ctl_msg c text MAX_MRPD_CMDSZ ;! send_to_clients cs' text
  end.

Definition notify_verb (n : mrp_notify) : option string :=
  match n with
  | MRP_NOTIFY_NEW => Some "VNE"%string
  | MRP_NOTIFY_JOIN => Some "VJO"%string
  | MRP_NOTIFY_LV => Some "VLE"%string
  | MRP_NOTIFY_NONE => None
  end.

Definition mvrp_send_notifications (attrib : mvrp_attribute) (n : mrp_notify) : stM MS Z :=
  let! m1 := draw mrp_malloc in
  if negb m1 then st_ret (-1)
  else
    let! m2 := draw mrp_malloc in
    let! m3 := draw mrp_malloc in
    if negb (m2 && m3) then st_ret 0
    else
      match notify_verb n with
      | None => st_ret 0
      | Some verb =>
          let! s := st_get in
          send_to_clients (clients (mdb s)) (notify_text verb attrib) ;! st_ret 0
      end.

(** The attribute [a] between [before] and [after] is unlinked, announced and freed if it
    can be forgotten.  The result is what now precedes [after], the next position. *)
Definition mvrp_conditional_reclaim (before : list mvrp_attribute) (a : mvrp_attribute)
    (after : list mvrp_attribute) : stM MS (list mvrp_attribute) :=
  if reclaimable a then
    put_list (before ++ after) ;! mvrp_send_notifications a MRP_NOTIFY_LV ;! st_ret before
  else st_ret (before ++ [a]).

Fixpoint reclaim_loop (before todo : list mvrp_attribute) : stM MS unit :=
  match todo with
  | [] => st_ret tt
  | a :: after => let! before' := mvrp_conditional_reclaim before a after in reclaim_loop before' after
  end.

(** The loop of the leave timer. *)
Fixpoint lvtimer_loop (before todo : list mvrp_attribute) : stM MS unit :=
  match todo with
  | [] => st_ret tt
  | a :: after =>
      let! a' := registrar_fsm MRP_EVENT_LVTIMER a in
      put_list (before ++ a' :: after) ;!
      let! before' := mvrp_conditional_reclaim before a' after in
      lvtimer_loop before' after
  end.

(** The notifications at the end of [mvrp_event]. *)
Definition notify_one (a : mvrp_attribute) : stM MS mvrp_attribute :=
  if decide (notify (registrar a) = MRP_NOTIFY_NONE) then st_ret a
  else
    mvrp_send_notifications a (notify (registrar a)) ;!
    st_ret (set_registrar (set_notify MRP_NOTIFY_NONE (registrar a)) a).

(** ** Events *)

(** The attribute of a VID with those before and after it. *)
Fixpoint split_vid (vid : Z) (l : list mvrp_attribute)
    : option (list mvrp_attribute * mvrp_attribute * list mvrp_attribute) :=
  match l with
  | [] => None
  | a :: l' =>
      if attribute a =? vid then Some ([], a, l')
      else match split_vid vid l' with Some (b, x, r) => Some (a :: b, x, r) | None => None end
  end.

(** The registrar's part of an attribute event: local requests are remapped. *)
Definition registrar_part (event : mrp_event) (a : mvrp_attribute) : stM MS mvrp_attribute :=
  match event with
  | MRP_EVENT_NEW =>
      let! a' := registrar_fsm MRP_EVENT_BEGIN a in
      st_ret (set_registrar (set_notify MRP_NOTIFY_NEW (registrar a')) a')
  | MRP_EVENT_JOIN =>
      if decide (reg_state (registrar a) = MRP_IN_STATE) then registrar_fsm MRP_EVENT_RJOININ a
      else registrar_fsm MRP_EVENT_RJOINMT a
  | MRP_EVENT_LV => registrar_fsm MRP_EVENT_RLV a
  | _ => registrar_fsm event a
  end.

(** The attribute found or added: applicant, registrar, reclaim. *)
Definition attribute_event (event : mrp_event) (vid : Z) : stM MS unit :=
  let! l := get_list in
  match split_vid vid l with
  | None => st_ret tt
  | Some (before, a, after) =>
      let! a1 := applicant_fsm event a in
      let! a2 := registrar_part event a1 in
      put_list (before ++ a2 :: after) ;!
      mvrp_conditional_reclaim before a2 after ;! st_ret tt
  end.

Definition add_tx_count (count : Z) (a : mvrp_attribute) : Z :=
  count + mrp_applicant_state_transition_implies_tx (applicant a).

(** The body of the [switch]; [false] is an early return that skips the notifications. *)
Definition event_switch (event : mrp_event) (rattrib : option mvrp_attribute) : stM MS (bool * Z) :=
  let next := st_ret (true, 0) in
  match event with
  | MRP_EVENT_LVATIMER =>
      mrp_lvatimer_stop ;! mrp_jointimer_stop ;!
      for_each_attrib (fun a => let! a' := applicant_fsm MRP_EVENT_TXLA a in registrar_fsm MRP_EVENT_TXLA a') ;!
      mrp_lvatimer_fsm MRP_EVENT_LVATIMER ;!
      upd_app (set_flag true) ;!
      mrp_lvatimer_fsm MRP_EVENT_TX ;!
      mvrp_txpdu ;!
      upd_app (set_flag false) ;! next
  | MRP_EVENT_RLA =>
      mrp_jointimer_start ;!
      for_each_attrib (fun a => let! a' := applicant_fsm MRP_EVENT_RLA a in registrar_fsm MRP_EVENT_RLA a') ;!
      mrp_lvatimer_fsm MRP_EVENT_RLA ;! next
  | MRP_EVENT_TX =>
      mrp_jointimer_stop ;!
      for_each_attrib (applicant_fsm MRP_EVENT_TX) ;!
      let! l := get_list in
      let count := foldl add_tx_count 0 l in
      mvrp_txpdu ;!
      (if count =? 0 then st_ret 0 else mrp_jointimer_start) ;! next
  | MRP_EVENT_LVTIMER =>
      mrp_lvtimer_stop ;!
      let! l := get_list in
      lvtimer_loop [] l ;! next
  | MRP_EVENT_PERIODIC =>
      let! l := get_list in
      (if decide (l = []) then st_ret 0 else mrp_jointimer_start) ;!
      for_each_attrib (applicant_fsm MRP_EVENT_PERIODIC) ;! next
  | MRP_EVENT_NEW | MRP_EVENT_JOIN | MRP_EVENT_RNEW | MRP_EVENT_RJOININ | MRP_EVENT_RJOINMT
  | MRP_EVENT_LV | MRP_EVENT_RIN | MRP_EVENT_RMT | MRP_EVENT_RLV =>
      mrp_jointimer_start ;!
      match rattrib with
      | None => st_ret (false, -1)
      | Some r =>
          let! l := get_list in
          match mvrp_lookup l r with
          | None =>
              if decide (event = MRP_EVENT_RMT) then st_ret (false, 0)
              else put_list (mvrp_add l r) ;! attribute_event event (attribute r) ;! next
          | Some _ =>
              put_list (snd (mvrp_merge l r)) ;! attribute_event event (attribute r) ;! next
          end
      end
  | _ => next
  end.

Definition mvrp_event (event : mrp_event) (rattrib : option mvrp_attribute) : stM MS Z :=
  let! r := event_switch event rattrib in
  if fst r then for_each_attrib notify_one ;! st_ret 0
  else st_ret (snd r).

(** ** Reception

    In the decoder [None] is the [goto out] that abandons the frame. *)

(** The attribute events of one packed byte, for consecutive VIDs. *)
Fixpoint vect_values (evts : list Z) (vid : Z) (mac : list Z) : stM MS (option Z) :=
  match evts with
  | [] => st_ret (Some vid)
  | e :: evts' =>
      if 0xFFF <? vid then vect_values evts' vid mac
      else
        let! mem := draw mrp_malloc in
        if negb mem then st_ret None
        else
          (match rx_event e with
           | Some ev => mvrp_event ev (Some (mvrp_alloc vid mac)) ;! st_ret tt
           | None => st_ret tt
           end) ;!
          vect_values evts' (u16 (vid + 1)) mac
  end.

(** The loop over [vectidx]; [n] iterations are left and [num] values. *)
Fixpoint vect_bytes (n : nat) (buf : list Z) (events vidx num vid : Z) (mac : list Z) : stM MS (option Z) :=
  match n with
  | O => st_ret (Some vid)
  | S n' =>
      let! b := st_lift (peek buf (events + vidx)) in
      let processed := if 3 <? num then 3 else num in
      let! r := vect_values (take (Z.to_nat processed) (unpack3 b)) vid mac in
      match r with
      | None => st_ret None
      | Some vid' => vect_bytes n' buf events (vidx + 1) (u16 (num - processed)) vid' mac
      end
  end.

(** The vectors of one message, up to its end mark: the pointer after them and whether a
    LeaveAll was seen. *)
Fixpoint vector_loop (fuel : nat) (buf : list Z) (eof ptr : Z) (saw : bool) (mac : list Z)
    : stM MS (option (Z * bool)) :=
  let! b0 := st_lift (peek buf ptr) in
  let! b1 := (if b0 =? 0 then st_lift (peek buf (ptr + 1)) else st_ret 1) in
  if (b0 =? 0) && (b1 =? 0) then st_ret (Some (ptr, saw))
  else
    match fuel with
    | O => st_lift (Fault OutOfFuel)
    | S fuel' =>
        let! header := st_lift (peek16 buf ptr) in
        let num := MRPDU_VECT_NUMVALUES header in
        let leaveall := MRPDU_VECT_LVA header && negb saw in
        (when leaveall do (mvrp_event MRP_EVENT_RLA None ;! st_ret tt)) ;!
        let saw' := saw || leaveall in
        let events := ptr + 2 in
        if num =? 0 then st_ret None
        else if eof <=? events + num / 3 then st_ret None
        else
          let! vid := st_lift (peek16 buf events) in
          let numvectorbytes := if num =? num / 3 * 3 then num / 3 else num / 3 + 1 in
          let! r := vect_bytes (Z.to_nat (numvectorbytes + 1)) buf events 2 num vid mac in
          match r with
          | None => st_ret None
          | Some _ => vector_loop fuel' buf eof (ptr + 4 + numvectorbytes) saw' mac
          end
    end.

(** The message list. *)
Fixpoint message_loop (fuel : nat) (buf : list Z) (eof ptr endmarks : Z) (saw : bool) (mac : list Z)
    : stM MS Z :=
  if negb (ptr <? eof - MRPDU_ENDMARK_SZ) then st_ret 0
  else
    match fuel with
    | O => st_lift (Fault OutOfFuel)
    | S fuel' =>
        let! t := st_lift (peek buf ptr) in
        let! len := st_lift (peek buf (ptr + 1)) in
        if (t =? 0) && (len =? 0) then
          if endmarks + 1 <? 2 then message_loop fuel' buf eof (ptr + 2) (endmarks + 1) saw mac
          else st_ret 0
        else if t =? MVRP_VID_TYPE then
          if negb (len =? 2) then st_ret (-1)
          else
            let! r := vector_loop (length buf) buf eof (ptr + 2) saw mac in
            match r with
            | None => st_ret (-1)
            | Some (ptr', saw') => message_loop fuel' buf eof ptr' 0 saw' mac
            end
        else
          let! version := st_lift (peek buf 14) in
          if version =? MVRP_PROT_VER then st_ret (-1)
          else
            let! header := st_lift (peek16 buf (ptr + 2)) in
            let num := MRPDU_VECT_NUMVALUES header in
            message_loop fuel' buf eof (ptr + 2 + 2 + len + (num + 2) / 3) 0 saw mac
    end.

(** The buffer of [mrpd_recvmsgbuf]: cleared, then filled with at most its size. *)
Definition recv_buf (frame : list Z) : list Z :=
  resize (Z.to_nat MAX_FRAME_SIZE) 0 frame.

(** [frame] is what [recvmsg] delivers; [None] when it delivers nothing. *)
Definition mvrp_recv_msg (frame : option (list Z)) : stM MS Z :=
  let! mem := draw mrp_malloc in
  if negb mem then st_ret (-1)
  else
    match frame with
    | None => st_ret (-1)
    | Some f =>
        let buf := recv_buf f in
        let bytes := Z.min (Z.of_nat (length f)) MAX_FRAME_SIZE in
        if bytes <? 14 + 1 + 2 then st_ret (-1)
        else
          let! etype := st_lift (peek16 buf 12) in
          if negb (etype =? MVRP_ETYPE) then st_ret (-1)
          else if decide (take 6 buf = MVRP_CUSTOMER_BRIDGE_ADDR) then
            message_loop (length buf) buf bytes 15 0 false (take 6 (drop 6 buf))
          else st_ret (-1)
    end.

(** ** Control commands *)

(** The loop of the dump: the text written so far. *)
Fixpoint dump_loop (l : list mvrp_attribute) (text : string) : outcome string :=
  match l with
  | [] => Done text
  | a :: l' =>
      sprintf_at 128 0 (dump_line a) ;;
      sprintf_at MAX_MRPD_CMDSZ (Z.of_nat (String.length text)) (dump_line a) ;;
      dump_loop l' (text +:+ dump_line a)
  end.

Definition mvrp_dumptable (client : sockaddr_in) : stM MS Z :=
  let! m1 := draw mrp_malloc in
  if negb m1 then st_ret (-1)
  else
    let! m2 := draw mrp_malloc in
    let! m3 := draw mrp_malloc in
    let! m4 := draw mrp_malloc in
    if negb (m2 && m3 && m4) then st_ret 0
    else
      let! l := get_list in
      let! text := (if decide (l = []) then st_ret ("MVRP:Empty" +:+ newline)
                    else st_lift (dump_loop l String.EmptyString)) in
      mrpd_send_ctl_msg client text MAX_MRPD_CMDSZ ;! st_ret 0.

(** The result, the VID, and the buffer as [parse] leaves it. *)
Definition mvrp_cmd_parse_vid (buf : list Z) (buflen : Z) : Z * Z * list Z :=
  if buflen <? 9 then (-1, 0, c_string buf)
  else
    let r := parse (drop 4 buf) (buflen - 4) [mkParam (bytes_of_string "I=") parse_u16_04x] in
    let text := if decide (Forall (fun b => b <> 0) (take 4 buf)) then take 4 buf ++ pleft r else c_string buf in
    match pvalues r with
    | PInt v :: _ => (prc r, v, text)
    | _ => (prc r, 0, text)
    end.

Definition mvrp_cmd_vid (vid : Z) (event : mrp_event) : stM MS Z :=
  let! mem := draw mrp_malloc in
  if negb mem then st_ret (-1)
  else mvrp_event event (Some (mvrp_alloc vid (replicate 6 0))) ;! st_ret 0.

(** A reply of at most ten characters of [text], in a datagram of twelve bytes. *)
Definition respond {X} (client : sockaddr_in) (text : string) : stM (MrpState X) Z :=
  mrpd_send_ctl_msg client (snprintf (12 - 1) text) 12 ;! st_ret (-1).

(** A VID command: [ERP] for bad parameters, [ERI] when memory runs out. *)
Definition vid_command (buf : list Z) (buflen : Z) (client : sockaddr_in) (event : mrp_event) : stM MS Z :=
  let '(rc, vid, text) := mvrp_cmd_parse_vid buf buflen in
  if negb (rc =? 0) then respond client ("ERP " +:+ string_of_bytes text)
  else
    let! rc := mvrp_cmd_vid vid event in
    if negb (rc =? 0) then respond client ("ERI " +:+ string_of_bytes text) else st_ret 0.

(** A command when the database is there. *)
Definition recv_cmd_db (buf : list Z) (buflen : Z) (client : sockaddr_in) : stM MS Z :=
  let! mem := draw mrp_malloc in
  upd_mdb (fun d => set_clients (snd (mrp_client_add mem (clients d) (Some client))) d) ;!
  if buflen <? 3 then st_ret (-1)
  else if negb (bool_decide (head buf = Some 86)) then st_ret (-1)
  else if decide (take 3 buf = bytes_of_string "V??") then mvrp_dumptable client ;! st_ret 0
  else if decide (take 3 buf = bytes_of_string "V--") then vid_command buf buflen client MRP_EVENT_LV
  else if decide (take 3 buf = bytes_of_string "V++") then vid_command buf buflen client MRP_EVENT_NEW
  else if decide (take 3 buf = bytes_of_string "V+?") then vid_command buf buflen client MRP_EVENT_JOIN
  else respond client ("ERC MVRP " +:+ string_of_bytes (c_string buf)).

(** ** The global [MVRP_db]: NULL while the protocol is disabled

    [inl i] is a NULL pointer (and the outside world), [inr s] an initialised database. *)
Definition MvrpGlobal : Type := Io + MS.

Definition with_db {X A} (null : stM Io A) (m : stM (MrpState X) A) : stM (Io + MrpState X) A :=
  fun g =>
    match g with
    | inl i => match null i with Done (a, i') => Done (a, inl i') | Fault w => Fault w end
    | inr s => match m s with Done (a, s') => Done (a, inr s') | Fault w => Fault w end
    end.

Definition null_respond (client : sockaddr_in) (text : string) : stM Io Z :=
  st_modify (fun i => if control_socket i =? -1 then i else add_ctl (client, snprintf (12 - 1) text, 12) i) ;!
  st_ret (-1).

Definition mvrp_recv_cmd (buf : list Z) (buflen : Z) (client : sockaddr_in) : stM MvrpGlobal Z :=
  with_db (null_respond client ("ERC MVRP_db " +:+ string_of_bytes (c_string buf) +:+ newline))
    (recv_cmd_db buf buflen client).

Definition mvrp_reclaim : stM MvrpGlobal Z :=
  with_db (st_ret 0) (let! l := get_list in reclaim_loop [] l ;! st_ret 0).

Definition mvrp_bye (client : sockaddr_in) : stM MvrpGlobal unit :=
  with_db (st_ret tt)
    (upd_mdb (fun d => set_clients (snd (mrp_client_delete (clients d) (Some client))) d)).

(** The three timers of a database, as [mrpd_timer_create] returns them. *)
Definition mrpd_init_timers (join lv lv_all : Z) : option mrp_database :=
  if (join =? -1) || (lv =? -1) || (lv_all =? -1) then None
  else Some (mkMrpDb (mkLva MRP_TIMER_PASSIVE false MRP_SND_NEW) join false lv false lv_all false []).

(** [socket_rc], [mem] and the descriptors are what the socket call, [malloc] and
    [timerfd_create] answer; the database is cleared before the timers are created. *)
Definition mvrp_init (mvrp_enable : bool) (socket_rc : Z) (mem : bool) (join lv lv_all : Z)
    : stM MvrpGlobal Z :=
  fun g =>
    let i := match g with inl i => i | inr s => io s end in
    if negb mvrp_enable then Done (0, inl i)
    else if socket_rc <? 0 then Done (-1, inl i)
    else if negb mem then Done (-1, inl i)
    else
      match mrpd_init_timers join lv lv_all with
      | None => Done (-1, inl i)
      | Some db =>
          match mrp_lvatimer_fsm MRP_EVENT_BEGIN (mkMrp db (mkMvrpDb [] false) i) with
          | Done (_, s) => Done (0, inr s)
          | Fault w => Fault w
          end
      end.

End Ops.
