(* ===== verification/MvrpWire.v ===== *)
(** * MvrpWire: the MRPDU encoder writes what the decoder reads

    What [mvrp_emit_vidvectors] writes, as vectors of consecutive VIDs; that it never
    leaves its buffer; and that [mvrp_recv_msg] delivers exactly these vectors. *)
From stdpp Require Import base gmap list strings numbers.
From S2P Require Import Prelude Text Parse Mrp Mvrp.
#[local] Open Scope Z_scope.
#[local] Open Scope st_scope.

(** ** Buffers *)
Lemma poke_done buf i v :
  0 <= i < Z.of_nat (length buf) -> poke buf i v = Done (<[Z.to_nat i := u8 v]> buf).
Proof. intros Hi. unfold poke. by replace ((0 <=? i) && (i <? Z.of_nat (length buf))) with true by lia. Qed.

Lemma take_insert_end (buf : list Z) i v :
  (i < length buf)%nat -> take (S i) (<[i := v]> buf) = take i buf ++ [v].
Proof.
  intros Hi. rewrite (take_S_r _ _ v) by (by apply list_lookup_insert_eq). by rewrite take_insert_ge.
Qed.

(** Writing [vs] at the end of the part of the buffer written so far. *)
Lemma pokes_end buf i vs :
  0 <= i -> i + Z.of_nat (length vs) <= Z.of_nat (length buf) ->
  exists buf', pokes buf i vs = Done buf' /\ length buf' = length buf /\
    take (Z.to_nat i + length vs) buf' = take (Z.to_nat i) buf ++ (u8 <$> vs) /\
    (forall k, (k <= Z.to_nat i)%nat -> take k buf' = take k buf).
Proof.
  revert buf i. induction vs as [|v vs IH]; intros buf i Hi Hl.
  - exists buf. rewrite Nat.add_0_r, app_nil_r. auto.
  - cbn [length pokes] in *. rewrite poke_done by lia. obind.
    destruct (IH (<[Z.to_nat i := u8 v]> buf) (i + 1)) as (buf' & E & Hl' & Ht & Hk);
      [lia|rewrite length_insert; lia|].
    exists buf'. rewrite length_insert in Hl'. split; [done|]. split; [done|]. split.
    + replace (Z.to_nat i + S (length vs))%nat with (Z.to_nat (i + 1) + length vs)%nat by lia.
      rewrite Ht. replace (Z.to_nat (i + 1)) with (S (Z.to_nat i)) by lia.
      rewrite take_insert_end by lia. by rewrite <- app_assoc.
    + intros k Hle. rewrite Hk by lia. by rewrite take_insert_ge by lia.
Qed.

(** ** What is on the wire *)

(** A vector: the first VID and the attribute events of it and the following VIDs. *)
Record vec := mkVec { vfirst : Z; vcodes : list Z }.

Fixpoint pack_codes (cs : list Z) : list Z :=
  match cs with
  | [] => []
  | [x] => [u8 (MRPDU_3PACK_ENCODE x 0 0)]
  | [x; y] => [u8 (MRPDU_3PACK_ENCODE x y 0)]
  | x :: y :: z :: cs' => u8 (MRPDU_3PACK_ENCODE x y z) :: pack_codes cs'
  end.

Definition vec_header (lva : bool) (n : Z) : Z :=
  Z.lor (MRPDU_VECT_NUMVALUES n) (if lva then MRPDU_VECT_LVA_FLAG else 0).

Definition enc_vec (lva : bool) (v : vec) : list Z :=
  be_bytes 2 (vec_header lva (u16 (Z.of_nat (length (vcodes v))))) ++ be_bytes 2 (vfirst v) ++ pack_codes (vcodes v).

(** Only the first vector carries the LeaveAll. *)
Fixpoint enc_vecs (lva : bool) (vs : list vec) : list Z :=
  match vs with
  | [] => []
  | v :: vs' => enc_vec lva v ++ enc_vecs false vs'
  end.

(** Attributes that can be sent: when marked for transmission they have a message. *)
Definition tx_ok (a : mvrp_attribute) : Prop := tx (applicant a) = true -> is_Some (vect_event a).

Definition code (a : mvrp_attribute) : Z := default 0 (vect_event a).

(** [run vid l r]: the attributes [l] are marked and hold the VIDs after [vid], and [r]
    does not continue them. *)
Fixpoint run_of (vid : Z) (l r : list mvrp_attribute) : Prop :=
  match l with
  | a :: l' => tx (applicant a) = true /\ attribute a = u16 (vid + 1) /\ run_of (u16 (vid + 1)) l' r
  | [] => match r with
          | [] => True
          | b :: _ => tx (applicant b) = false \/ attribute b <> u16 (vid + 1)
          end
  end.

(** An attribute after a transmission: unchanged, or no longer marked. *)
Definition sent_or_not (a a' : mvrp_attribute) : Prop := a' = a \/ a' = clear_tx a.

Lemma sent_or_not_refl l : Forall2 sent_or_not l l.
Proof. induction l; constructor; [by left|done]. Qed.

Lemma clear_tx_idem a : clear_tx (clear_tx a) = clear_tx a.
Proof. done. Qed.

Lemma sent_or_not_trans l1 l2 l3 :
  Forall2 sent_or_not l1 l2 -> Forall2 sent_or_not l2 l3 -> Forall2 sent_or_not l1 l3.
Proof.
  intros H. revert l3. induction H as [|a b l1 l2 Hab _ IH]; intros l3 H2; inversion_clear H2; [constructor|].
  constructor; [|by apply IH]. unfold sent_or_not in *.
  destruct Hab as [-> | ->], H as [-> | ->]; rewrite ?clear_tx_idem; auto.
Qed.

Lemma sent_all l : Forall2 sent_or_not l (clear_tx <$> l).
Proof. induction l; constructor; [by right|done]. Qed.

(** The number of marked attributes. *)
Definition ntx (l : list mvrp_attribute) : nat := length (base.filter (fun a => tx (applicant a) = true) l).

Lemma ntx_cons a l : ntx (a :: l) = ((if tx (applicant a) then 1 else 0) + ntx l)%nat.
Proof. unfold ntx. rewrite list.filter_cons. by destruct (tx (applicant a)). Qed.
Lemma ntx_app l1 l2 : ntx (l1 ++ l2) = (ntx l1 + ntx l2)%nat.
Proof. unfold ntx. by rewrite list.filter_app, length_app. Qed.
Lemma ntx_clear l : ntx (clear_tx <$> l) = 0%nat.
Proof. by induction l. Qed.
Lemma ntx_run vid l r : run_of vid l r -> ntx l = length l.
Proof.
  revert vid. induction l as [|a l IH]; intros vid; [done|]. intros (Ha & _ & H).
  rewrite ntx_cons, Ha, (IH _ H). done.
Qed.

(** ** The inner loop *)

(** The events not yet packed, as the array [vectevt] holds them. *)
Definition pending (v : Vector) (pend : list Z) : Prop :=
  vectevt_idx v = Z.of_nat (length pend) /\ (length pend < 3)%nat /\
  vectevt v = (nth 0 pend 0, nth 1 pend 0, nth 2 pend 0).

Lemma pack_codes_triple x y z cs :
  pack_codes (x :: y :: z :: cs) = u8 (MRPDU_3PACK_ENCODE x y z) :: pack_codes cs.
Proof. done. Qed.

Lemma length_pack_codes cs : Z.of_nat (length (pack_codes cs)) = (Z.of_nat (length cs) + 2) / 3.
Proof.
  induction cs as [cs IH] using (well_founded_induction (well_founded_ltof _ (length (A:=Z)))).
  destruct cs as [|x [|y [|z cs]]]; [done..|]. rewrite pack_codes_triple. cbn [length].
  rewrite !Nat2Z.inj_succ, IH by (unfold ltof; simpl; lia).
  replace (Z.succ (Z.succ (Z.succ (Z.of_nat (length cs)))) + 2) with ((Z.of_nat (length cs) + 2) + 1 * 3) by lia.
  rewrite Z.div_add by lia. lia.
Qed.

Lemma u16_add_u16 a b : u16 (u16 a + b) = u16 (a + b).
Proof. unfold_width. by rewrite Zplus_mod_idemp_l. Qed.

Lemma vectorize_cons events eof a rest vid v c :
  tx (applicant a) = true -> attribute a = u16 (vid + 1) -> vect_event a = Some c ->
  vectorize events eof (a :: rest) vid v =
    (v' ← push_code events c v;
     if eof - MRPDU_ENDMARK_SZ <? events + vectidx v' then Done (true, clear_tx a :: rest, v')
     else '(oops, rest', v'') ← vectorize events eof rest (u16 (vid + 1)) v'; Done (oops, clear_tx a :: rest', v'')).
Proof. intros Ht Ha Hc. cbn [vectorize]. by rewrite Ht, Ha, Z.eqb_refl, Hc. Qed.

(** The buffer from [p] on to [p'] holds [w], and nothing before [p] changed. *)
Definition wrote (buf buf' : list Z) (p p' : Z) (w : list Z) : Prop :=
  length buf' = length buf /\ p' = p + Z.of_nat (length w) /\
  take (Z.to_nat p') buf' = take (Z.to_nat p) buf ++ w /\ (forall k, (k <= Z.to_nat p)%nat -> take k buf' = take k buf).

Lemma wrote_nil buf p : wrote buf buf p p [].
Proof. repeat split; [simpl; lia|by rewrite app_nil_r]. Qed.

Lemma wrote_trans b1 b2 b3 p1 p2 p3 w1 w2 :
  0 <= p1 -> wrote b1 b2 p1 p2 w1 -> wrote b2 b3 p2 p3 w2 -> wrote b1 b3 p1 p3 (w1 ++ w2).
Proof.
  intros Hp (H1 & H2 & H3 & H4) (H5 & H6 & H7 & H8). repeat split.
  - congruence.
  - rewrite length_app. lia.
  - by rewrite H7, H3, app_assoc.
  - intros k Hk. rewrite H8 by lia. by apply H4.
Qed.

Lemma wrote_pokes buf p vs :
  0 <= p -> p + Z.of_nat (length vs) <= Z.of_nat (length buf) ->
  exists buf', pokes buf p vs = Done buf' /\ wrote buf buf' p (p + Z.of_nat (length vs)) (u8 <$> vs).
Proof.
  intros Hp Hl. destruct (pokes_end buf p vs Hp Hl) as (buf' & E & H1 & H2 & H3). exists buf'. split; [done|].
  repeat split; [done|by rewrite length_fmap| |done].
  by replace (Z.to_nat (p + Z.of_nat (length vs))) with (Z.to_nat p + length vs)%nat by lia.
Qed.

Lemma push_code_spec events eof c v pend :
  pending v pend -> Z.of_nat (length (vbuf v)) = eof -> 0 <= events + vectidx v <= eof - 2 ->
  exists v' w pend', push_code events c v = Done v' /\ pending v' pend' /\
    wrote (vbuf v) (vbuf v') (events + vectidx v) (events + vectidx v') w /\
    (forall cs, pack_codes (pend ++ c :: cs) = w ++ pack_codes (pend' ++ cs)) /\
    numvalues v' = u16 (numvalues v + 1) /\
    vectidx v' = vectidx v + (Z.of_nat (length pend) + 1) / 3 /\
    (Z.of_nat (length pend) + 1) mod 3 = Z.of_nat (length pend').
Proof.
  intros (Hi & Hl & He) Hb Hp. unfold push_code. rewrite Hi, He.
  destruct pend as [|x [|y [|z pend]]]; simpl in Hl; try lia.
  - eexists _, [], [c]. split; [done|]. split; [by repeat split; simpl; lia|]. split; [apply wrote_nil|].
    repeat split; cbn [length vectidx]; Z.div_mod_to_equations; lia.
  - eexists _, [], [x; c]. split; [done|]. split; [by repeat split; simpl; lia|]. split; [apply wrote_nil|].
    repeat split; cbn [length vectidx]; Z.div_mod_to_equations; lia.
  - destruct (wrote_pokes (vbuf v) (events + vectidx v) [MRPDU_3PACK_ENCODE x y c]) as (buf' & E & Hw);
      [lia|simpl; lia|].
    cbn [pokes] in E. simpl. destruct (poke (vbuf v) (events + vectidx v) (MRPDU_3PACK_ENCODE x y c)) as [b|]; [|done].
    obind. simplify_eq/=. eexists _, [_], []. split; [done|]. split; [by repeat split; simpl; lia|].
    split; [simpl; by rewrite Z.add_assoc|]. repeat split; cbn [length vectidx]; Z.div_mod_to_equations; lia.
Qed.

(** What the inner loop achieves from [v], whose unpacked events are [pend]. *)
Definition vectorized (events eof : Z) (vattribs : list mvrp_attribute) (vid : Z) (v : Vector) (pend : list Z)
    (oops : bool) (rest' : list mvrp_attribute) (v' : Vector) : Prop :=
  Forall2 sent_or_not vattribs rest' /\ length (vbuf v') = length (vbuf v) /\
  if oops then eof - 2 < events + vectidx v + (Z.of_nat (length pend) + Z.of_nat (ntx vattribs)) / 3
  else exists l r w pend', vattribs = l ++ r /\ rest' = (clear_tx <$> l) ++ r /\ run_of vid l r /\
    pending v' pend' /\ wrote (vbuf v) (vbuf v') (events + vectidx v) (events + vectidx v') w /\
    pack_codes (pend ++ (code <$> l)) = w ++ pack_codes pend' /\
    numvalues v' = u16 (numvalues v + Z.of_nat (length l)) /\ events + vectidx v' <= eof - 2.

Lemma vectorized_stop events eof vattribs vid v pend :
  pending v pend -> events + vectidx v <= eof - 2 -> 0 <= numvalues v < 65536 ->
  run_of vid [] vattribs -> vectorized events eof vattribs vid v pend false vattribs v.
Proof.
  intros Hp He Hn Hr. split; [apply sent_or_not_refl|]. split; [done|].
  exists [], vattribs, [], pend. cbn [fmap list_fmap app length]. rewrite Z.add_0_r, u16_small, app_nil_r by lia.
  do 4 (split; [done|]). split; [apply wrote_nil|]. auto.
Qed.

(** A pushed event before the rest of the loop. *)
Lemma vectorized_push events eof a rest vid v pend v1 pend1 w1 oops rest' v' :
  tx (applicant a) = true -> attribute a = u16 (vid + 1) ->
  0 <= events + vectidx v -> length (vbuf v1) = length (vbuf v) ->
  wrote (vbuf v) (vbuf v1) (events + vectidx v) (events + vectidx v1) w1 ->
  (forall cs, pack_codes (pend ++ code a :: cs) = w1 ++ pack_codes (pend1 ++ cs)) ->
  numvalues v1 = u16 (numvalues v + 1) ->
  vectidx v1 = vectidx v + (Z.of_nat (length pend) + 1) / 3 ->
  (Z.of_nat (length pend) + 1) mod 3 = Z.of_nat (length pend1) ->
  vectorized events eof rest (u16 (vid + 1)) v1 pend1 oops rest' v' ->
  vectorized events eof (a :: rest) vid v pend oops (clear_tx a :: rest') v'.
Proof.
  intros Ht Ha He Hl Hw Hc Hn Hv Hm (H1 & H2 & H3).
  split; [constructor; [by right|done]|]. split; [congruence|]. destruct oops.
  - rewrite ntx_cons, Ht. rewrite Hv, <- Hm in H3. Z.div_mod_to_equations. lia.
  - destruct H3 as (l & r & w & pend' & -> & -> & Hr & Hp & Hw' & Hc' & Hn' & He').
    exists (a :: l), r, (w1 ++ w), pend'. do 2 (split; [done|]). split; [done|]. split; [done|].
    split; [by eapply wrote_trans|]. split; [by rewrite fmap_cons, Hc, Hc', app_assoc|]. split; [|done].
    rewrite Hn', Hn, u16_add_u16. f_equal. cbn [length]. lia.
Qed.

Lemma vectorize_spec events eof vattribs vid v pend :
  pending v pend -> Forall tx_ok vattribs -> Z.of_nat (length (vbuf v)) = eof ->
  0 <= events + vectidx v <= eof - 2 -> 0 <= numvalues v < 65536 ->
  exists oops rest' v', vectorize events eof vattribs vid v = Done (oops, rest', v') /\
    vectorized events eof vattribs vid v pend oops rest' v'.
Proof.
  revert vid v pend. induction vattribs as [|a rest IH]; intros vid v pend Hp Htx Hb He Hn.
  { exists false, [], v. split; [done|]. apply vectorized_stop; [done|lia|done|done]. }
  apply Forall_cons_iff in Htx as [Ha Htx].
  destruct (tx (applicant a)) eqn:Et; cycle 1.
  { cbn [vectorize]. rewrite Et. eexists _, _, _. split; [done|]. apply vectorized_stop; [done|lia|done|by left]. }
  destruct (decide (attribute a = u16 (vid + 1))) as [Hv|Hv]; cycle 1.
  { cbn [vectorize]. rewrite Et. apply Z.eqb_neq in Hv as Hv'. simpl. rewrite Hv'. eexists _, _, _. split; [done|].
    apply vectorized_stop; [done|lia|done|by right]. }
  destruct (Ha Et) as [c Hc]. assert (code a = c) as Hcode by (unfold code; by rewrite Hc).
  rewrite (vectorize_cons _ _ _ _ _ _ c) by done.
  destruct (push_code_spec events eof c v pend Hp Hb He) as (v1 & w1 & pend1 & -> & Hp1 & Hw1 & Hc1 & Hn1 & Hv1 & Hm1).
  obind. rewrite <- Hcode in Hc1. unfold MRPDU_ENDMARK_SZ.
  destruct (Z.ltb_spec (eof - 2) (events + vectidx v1)) as [Hlt|Hge].
  - eexists _, _, _. split; [done|]. split; [constructor; [by right|apply sent_or_not_refl]|]. split; [apply Hw1|].
    rewrite ntx_cons, Et. Z.div_mod_to_equations. lia.
  - destruct (IH (u16 (vid + 1)) v1 pend1) as (oops & rest' & v' & E & H); try done.
    + destruct Hw1 as [Hw1 _]. lia.
    + split; [|lia]. rewrite Hv1. Z.div_mod_to_equations. lia.
    + rewrite Hn1. apply u16_range.
    + rewrite E. obind. eexists _, _, _. split; [done|].
      apply (vectorized_push _ _ _ _ _ _ _ v1 pend1 w1); try done; [lia|apply Hw1].
Qed.

(** ** One vector *)

Lemma flush_spec events eof v pend :
  pending v pend -> Z.of_nat (length (vbuf v)) = eof -> 0 <= events + vectidx v <= eof - 2 ->
  exists v', flush events v = Done v' /\
    wrote (vbuf v) (vbuf v') (events + vectidx v) (events + vectidx v') (pack_codes pend) /\
    numvalues v' = numvalues v.
Proof.
  intros (Hi & Hl & He) Hb Hp. unfold flush. rewrite Hi.
  destruct pend as [|x pend].
  - exists v. split; [done|]. split; [apply wrote_nil|done].
  - assert (pack_codes (x :: pend) = [u8 (pack3 (vectevt v))]) as Hc.
    { rewrite He. destruct pend as [|y [|z pend]]; [done..|simpl in Hl; lia]. }
    destruct (wrote_pokes (vbuf v) (events + vectidx v) [pack3 (vectevt v)]) as (buf' & E & Hw);
      [lia|simpl; lia|]. cbn [pokes] in E.
    destruct (poke (vbuf v) (events + vectidx v) (pack3 (vectevt v))) as [b|]; [|done]. obind. simplify_eq/=.
    eexists. split; [done|]. split; [|done]. rewrite Hc. simpl. by rewrite Z.add_assoc.
Qed.

(** What [emit_vector] achieves: a whole vector, or a failure for want of room. *)
Definition emitted (events eof : Z) (a : mvrp_attribute) (rest : list mvrp_attribute) (lva : bool) (buf : list Z)
    (oops : bool) (rest' : list mvrp_attribute) (p : Z) (buf' : list Z) : Prop :=
  Forall2 sent_or_not rest rest' /\ length buf' = length buf /\
  if oops then eof - 2 < events + 2 + (Z.of_nat (ntx rest) + 3) / 3
  else exists l r, rest = l ++ r /\ rest' = (clear_tx <$> l) ++ r /\ run_of (attribute a) l r /\
    wrote buf buf' (events - 2) p (enc_vec lva (mkVec (attribute a) (code a :: (code <$> l)))) /\ p <= eof - 2.

Lemma u8_be_bytes n v : u8 <$> be_bytes n v = be_bytes n v.
Proof. induction n as [|n IH]; [done|]. cbn [be_bytes fmap list_fmap]. by rewrite IH, (u8_small (u8 _)) by apply u8_range. Qed.

(** Overwriting the two bytes before a written part. *)
Lemma rewrote buf buf' buf'' p p' w h :
  2 <= p -> length h = 2%nat -> wrote buf buf' p p' w ->
  length buf'' = length buf' ->
  take (Z.to_nat p) buf'' = take (Z.to_nat (p - 2)) buf' ++ h ->
  drop (Z.to_nat p) buf'' = drop (Z.to_nat p) buf' -> p <= Z.of_nat (length buf) ->
  wrote buf buf'' (p - 2) p' (h ++ w).
Proof.
  intros Hp Hh (H1 & H2 & H3 & H4) Hl Ht Hd Hlen.
  assert (forall k, (k <= Z.to_nat (p - 2))%nat -> take k buf'' = take k buf) as Hk.
  { intros k Hk. transitivity (take k (take (Z.to_nat p) buf'')); [by rewrite take_take, Nat.min_l by lia|].
    rewrite Ht, take_app_le by (rewrite length_take; lia). rewrite take_take, Nat.min_l by lia. apply H4. lia. }
  split; [congruence|]. split; [rewrite length_app; lia|]. split; [|done].
  rewrite <- (take_drop (Z.to_nat p) (take (Z.to_nat p') buf'')).
  rewrite take_take, Nat.min_l by lia. rewrite Ht, <- app_assoc. f_equal; [by apply H4; lia|]. f_equal.
  rewrite skipn_firstn_comm, Hd, <- skipn_firstn_comm, H3.
  by rewrite drop_app_le, drop_ge, app_nil_l by (rewrite length_take; lia).
Qed.

Lemma pokes_before buf p h :
  2 <= p -> length h = 2%nat -> p <= Z.of_nat (length buf) -> (u8 <$> h) = h ->
  exists buf', pokes buf (p - 2) h = Done buf' /\ length buf' = length buf /\
    take (Z.to_nat p) buf' = take (Z.to_nat (p - 2)) buf ++ h /\ drop (Z.to_nat p) buf' = drop (Z.to_nat p) buf.
Proof.
  intros Hp Hh Hl Hu. destruct (pokes_end buf (p - 2) h) as (buf' & E & H1 & H2 & _); [lia|lia|].
  exists buf'. split; [done|]. split; [done|]. split.
  - rewrite Hu in H2. rewrite <- H2. f_equal. lia.
  - destruct h as [|x [|y [|? ?]]]; try done. cbn [pokes] in E.
    rewrite poke_done in E by lia. cbn [mbind outcome_bind] in E.
    rewrite poke_done in E by (rewrite length_insert; lia). simplify_eq/=.
    rewrite !drop_insert_lt by lia. done.
Qed.

Lemma emit_vector_unfold events eof a rest lva buf c :
  vect_event a = Some c ->
  emit_vector events eof a rest lva buf =
    (buf ← pokes buf events [Z.shiftr (attribute a) 8; attribute a];
     '(oops, rest', v) ← vectorize events eof rest (attribute a) (mkVector (c, 0, 0) 1 1 2 buf);
     if (oops : bool) then Done (true, rest', events, vbuf v)
     else v ← flush events v;
          if eof - 2 <? events + vectidx v then Done (true, rest', events, vbuf v)
          else buf ← pokes (vbuf v) (events - 2) (be_bytes 2 (vec_header lva (numvalues v)));
               Done (false, rest', events + vectidx v, buf)).
Proof. intros Hc. unfold emit_vector. by rewrite Hc. Qed.

Lemma emit_vector_spec events eof a rest lva buf c :
  vect_event a = Some c -> Forall tx_ok rest -> Z.of_nat (length buf) = eof -> 2 <= events -> events + 2 <= eof - 2 ->
  exists oops rest' p buf', emit_vector events eof a rest lva buf = Done (oops, rest', p, buf') /\
    emitted events eof a rest lva buf oops rest' p buf'.
Proof.
  intros Hc Htx Hb He1 He2. rewrite (emit_vector_unfold _ _ _ _ _ _ c) by done.
  destruct (wrote_pokes buf events [Z.shiftr (attribute a) 8; attribute a]) as (b1 & E1 & Hw1); [lia|simpl; lia|].
  rewrite E1. obind. clear E1. simpl length in Hw1. pose proof Hw1 as (Hl1 & _).
  destruct (vectorize_spec events eof rest (attribute a) (mkVector (c, 0, 0) 1 1 2 b1) [c])
    as (oops & rest' & v & E2 & H2 & H3 & H4); cbn [vbuf vectidx numvalues]; [by repeat split; simpl; lia|done|lia|lia|lia|].
  rewrite E2. obind. clear E2. cbn [vbuf vectidx numvalues length] in *. destruct oops.
  { eexists _, _, _, _. split; [done|]. split; [done|]. split; [lia|]. Z.div_mod_to_equations. lia. }
  destruct H4 as (l & r & w & pend & -> & -> & Hrun & Hp & Hw2 & Hcs & Hn & Hend).
  assert (0 <= events + vectidx v) as Hpos by (destruct Hw2 as (_ & ? & _); lia).
  destruct (flush_spec events eof v pend Hp) as (v' & -> & Hw3 & Hn'); [lia|lia|]. obind.
  assert (wrote buf (vbuf v') events (events + vectidx v')
    (be_bytes 2 (attribute a) ++ pack_codes (c :: (code <$> l)))) as Hw.
  { change (pack_codes (c :: (code <$> l))) with (pack_codes ([c] ++ (code <$> l))). rewrite Hcs.
    replace (be_bytes 2 (attribute a)) with (u8 <$> [Z.shiftr (attribute a) 8; attribute a])
      by (cbn; by rewrite Z.shiftr_0_r).
    eapply wrote_trans; [lia|exact Hw1|]. eapply wrote_trans; [lia|exact Hw2|exact Hw3]. }
  pose proof Hw as (Hlen & Hidx & _). rewrite length_app, length_be_bytes in Hidx.
  rewrite Nat2Z.inj_add, length_pack_codes in Hidx. cbn [length] in Hidx. rewrite length_fmap in Hidx.
  pose proof (ntx_run _ _ _ Hrun) as Hnl.
  destruct (Z.ltb_spec (eof - 2) (events + vectidx v')).
  { eexists _, _, _, _. split; [done|]. split; [done|]. split; [lia|].
    rewrite ntx_app, Hnl. Z.div_mod_to_equations. lia. }
  destruct (pokes_before (vbuf v') events (be_bytes 2 (vec_header lva (numvalues v')))) as (b4 & -> & H4 & H5 & H6);
    [lia|apply length_be_bytes|lia|apply u8_be_bytes|]. obind.
  eexists _, _, _, _. split; [done|]. split; [done|]. split; [lia|].
  exists l, r. do 3 (split; [done|]). split; [|done].
  assert (code a = c) as -> by (unfold code; by rewrite Hc). unfold enc_vec. cbn [vcodes vfirst].
  replace (u16 (Z.of_nat (length (c :: (code <$> l))))) with (numvalues v').
  - apply (rewrote buf (vbuf v') b4); try done; lia.
  - rewrite Hn', Hn. cbn [length]. rewrite length_fmap. f_equal. lia.
Qed.

(** ** The outer loop *)

(** [planned full l l' vs]: of the attributes [l], the vectors [vs] are sent and [l'] is
    left; [full] says that the loop may have stopped before the end for want of room. *)
Inductive planned (full : bool) : list mvrp_attribute -> list mvrp_attribute -> list vec -> Prop :=
  | plan_stop l : ntx l = 0%nat \/ full = true -> planned full l l []
  | plan_skip a l l' vs :
      tx (applicant a) = false -> planned full l l' vs -> planned full (a :: l) (a :: l') vs
  | plan_optional a l l' vs :
      tx (applicant a) = true -> encode (applicant a) = MRP_ENCODE_OPTIONAL ->
      planned full l l' vs -> planned full (a :: l) (clear_tx a :: l') vs
  | plan_vector a l r r' vs :
      tx (applicant a) = true -> encode (applicant a) <> MRP_ENCODE_OPTIONAL ->
      run_of (attribute a) l r -> planned full r r' vs ->
      planned full (a :: l ++ r) (clear_tx a :: (clear_tx <$> l) ++ r')
        (mkVec (attribute a) (code a :: (code <$> l)) :: vs).

Lemma planned_clear full l r x vs :
  planned full ((clear_tx <$> l) ++ r) x vs -> exists r', x = (clear_tx <$> l) ++ r' /\ planned full r r' vs.
Proof.
  revert x. induction l as [|a l IH]; intros x H; [by exists x|].
  cbn [fmap list_fmap app] in H. inversion H as [? Hs E1 E2|? ? l' ? Ht Hp E1 E2|? ? ? ? Ht|? ? ? ? ? Ht]; subst; try done.
  - exists r. split; [done|]. constructor. destruct Hs as [Hs|Hs]; [left|by right].
    change (clear_tx a :: (clear_tx <$> l) ++ r) with ((clear_tx <$> a :: l) ++ r) in Hs.
    rewrite ntx_app in Hs. lia.
  - destruct (IH _ Hp) as (r' & -> & Hr). by exists r'.
Qed.

Definition planned_emit (attribs : list mvrp_attribute) (msg_ptr vp eof : Z) (lva found : bool) (buf : list Z)
    (oops : bool) (attribs' : list mvrp_attribute) (found' : bool) (m' v' : Z) (buf' : list Z) : Prop :=
  Forall2 sent_or_not attribs attribs' /\ length buf' = length buf /\
  if oops then eof - 4 < vp + 5 * Z.of_nat (ntx attribs)
  else exists full vs, planned full attribs attribs' vs /\
    (full = true -> eof - 4 < vp + 5 * Z.of_nat (ntx attribs)) /\
    wrote buf buf' vp v' (enc_vecs lva vs) /\
    match vs with
    | [] => found' = found /\ m' = msg_ptr /\ v' = vp /\ buf' = buf
    | _ => found' = true /\ m' = v' /\ v' <= eof - 2
    end.

(** An attribute in front that is passed over. *)
Lemma planned_emit_cons a a' l msg_ptr vp eof lva found buf oops l' found' m' v' buf' :
  sent_or_not a a' ->
  (forall full vs, planned full l l' vs -> planned full (a :: l) (a' :: l') vs) ->
  planned_emit l msg_ptr vp eof lva found buf oops l' found' m' v' buf' ->
  planned_emit (a :: l) msg_ptr vp eof lva found buf oops (a' :: l') found' m' v' buf'.
Proof.
  intros Ha Hp (H1 & H2 & H3). split; [by constructor|]. split; [done|]. rewrite ntx_cons.
  destruct oops; [lia|]. destruct H3 as (full & vs & H4 & H5 & H6). exists full, vs.
  split; [auto|]. split; [|done]. intros Hf. specialize (H5 Hf). lia.
Qed.

(** A vector in front. *)
Lemma planned_emit_vector a l r msg_ptr vp eof lva found buf p buf1 oops rest' found' m' v' buf' :
  tx (applicant a) = true -> encode (applicant a) <> MRP_ENCODE_OPTIONAL -> run_of (attribute a) l r -> 0 <= vp ->
  wrote buf buf1 vp p (enc_vec lva (mkVec (attribute a) (code a :: (code <$> l)))) -> p <= eof - 2 ->
  planned_emit ((clear_tx <$> l) ++ r) p p eof false true buf1 oops rest' found' m' v' buf' ->
  planned_emit (a :: l ++ r) msg_ptr vp eof lva found buf oops (clear_tx a :: rest') found' m' v' buf'.
Proof.
  intros Ht He Hr Hvp Hw Hp (H1 & H2 & H3).
  pose proof (ntx_run _ _ _ Hr) as Hn. pose proof Hw as (Hl & Hpe & _).
  unfold enc_vec in Hpe. cbn [vcodes vfirst] in Hpe. rewrite !length_app, !length_be_bytes in Hpe.
  rewrite !Nat2Z.inj_add, length_pack_codes in Hpe. cbn [length] in Hpe. rewrite length_fmap in Hpe.
  rewrite ntx_app, ntx_clear in H3. unfold planned_emit. rewrite ntx_cons, ntx_app, Ht, Hn.
  assert (p + 5 * Z.of_nat (ntx r) <= vp + 5 * Z.of_nat (1 + (length l + ntx r))) as Hroom
    by (Z.div_mod_to_equations; lia).
  split; [|split; [congruence|]].
  { constructor; [by right|]. eapply sent_or_not_trans; [|exact H1].
    apply Forall2_app; [apply sent_all|apply sent_or_not_refl]. }
  destruct oops; [lia|]. destruct H3 as (full & vs & H4 & H5 & H6 & H7).
  apply planned_clear in H4 as (r' & -> & H4). exists full, (mkVec (attribute a) (code a :: (code <$> l)) :: vs).
  split; [by constructor|]. split; [intros Hf; specialize (H5 Hf); lia|].
  split; [by eapply wrote_trans|]. destruct vs; [|done]. destruct H7 as (-> & -> & -> & ->). auto.
Qed.

Lemma emit_loop_spec fuel attribs msg_ptr vp eof lva found buf :
  (length attribs <= fuel)%nat -> Forall tx_ok attribs -> Z.of_nat (length buf) = eof ->
  0 <= msg_ptr <= vp -> vp <= msg_ptr + 2 ->
  exists oops attribs' found' m' v' buf',
    emit_loop fuel attribs msg_ptr vp eof lva found buf = Done (oops, attribs', found', m', v', buf') /\
    planned_emit attribs msg_ptr vp eof lva found buf oops attribs' found' m' v' buf'.
Proof.
  revert attribs msg_ptr vp lva found buf.
  induction fuel as [|fuel IH]; intros attribs msg_ptr vp lva found buf Hf Htx Hb Hm Hv.
  all: unfold emit_loop; fold emit_loop; unfold MRPDU_ENDMARK_SZ;
    destruct (Z.ltb_spec msg_ptr (eof - 6 - 2)) as [Hroom|Hroom]; cbn [negb];
    [|eexists _, _, _, _, _, _; split; [done|]; split; [apply sent_or_not_refl|]; split; [done|];
      destruct (decide (ntx attribs = 0%nat)) as [H0|H0]; [exists false, []|exists true, []];
      (split; [constructor; auto|]; split; [intros; try done; lia|]; split; [apply wrote_nil|done])];
    destruct attribs as [|a rest];
    [eexists _, _, _, _, _, _; split; [done|]; split; [constructor|]; split; [done|]; exists false, [];
      split; [constructor; by left|]; split; [done|]; split; [apply wrote_nil|done]|].
  { simpl in Hf. lia. }
  simpl in Hf. apply Forall_cons_iff in Htx as [Ha Htx].
  destruct (tx (applicant a)) eqn:Et; cbn [negb]; cycle 1.
  { destruct (IH rest msg_ptr vp lva found buf) as (o & l' & f' & m' & v' & b' & -> & H); try done; [lia|]. obind.
    eexists _, _, _, _, _, _. split; [done|]. eapply planned_emit_cons; [by left| |done]. intros. by constructor. }
  destruct (decide (encode (applicant a) = MRP_ENCODE_OPTIONAL)) as [He|He].
  { destruct (IH rest msg_ptr vp lva found buf) as (o & l' & f' & m' & v' & b' & -> & H); try done; [lia|]. obind.
    eexists _, _, _, _, _, _. split; [done|]. eapply planned_emit_cons; [by right| |done]. intros. by constructor. }
  destruct (Ha Et) as [c Hc].
  destruct (emit_vector_spec (vp + 2) eof (clear_tx a) rest lva buf c) as (o1 & l1 & p & b1 & E1 & H1 & H2 & H3);
    [done|done|done|lia|lia|].
  rewrite E1. obind. destruct o1.
  { eexists _, _, _, _, _, _. split; [done|]. split; [constructor; [by right|done]|]. split; [done|].
    rewrite ntx_cons, Et. Z.div_mod_to_equations. lia. }
  destruct H3 as (l & r & -> & -> & Hr & Hw & Hp). replace (vp + 2 - 2) with vp in Hw by lia.
  destruct (IH ((clear_tx <$> l) ++ r) p p false true b1) as (o & l' & f' & m' & v' & b' & -> & H); try lia.
  { rewrite length_app in *. rewrite length_fmap. lia. }
  { apply Forall_app in Htx as [Hl Hr']. apply Forall_app. split; [|done]. apply Forall_fmap, list.Forall_forall.
    intros x _. by intros ?. }
  { destruct Hw as (_ & Hw & _). lia. }
  obind. eexists _, _, _, _, _, _. split; [done|]. eapply planned_emit_vector; [done|done|exact Hr|lia|exact Hw|done|done].
Qed.

(** ** The whole message *)

(** What follows the attribute type and length: the vectors or, when there are none and a
    LeaveAll is due, a vector of no values with the LeaveAll flag; [None]: nothing. *)
Definition message_body (lva flag : bool) (vs : list vec) : option (list Z) :=
  match vs with
  | [] => if flag then Some [0x20; 0; 0; 0] else None
  | _ => Some (enc_vecs lva vs)
  end.

Definition frame_header (src : list Z) : list Z :=
  MVRP_CUSTOMER_BRIDGE_ADDR ++ src ++ be_bytes 2 MVRP_ETYPE ++ [MVRP_PROT_VER].

Definition frame_of (src body : list Z) : list Z :=
  frame_header src ++ [MVRP_VID_TYPE; 2] ++ body ++ [0; 0] ++ [0; 0].

Lemma take_replicate_app (pre : list Z) n k :
  (length pre <= k)%nat -> (k <= length pre + n)%nat ->
  take k (pre ++ replicate n 0) = pre ++ replicate (k - length pre) 0.
Proof. intros H1 H2. rewrite take_app_ge, take_replicate by lia. do 2 f_equal. lia. Qed.

(** The empty LeaveAll message, in a buffer that was cleared. *)
Lemma emit_empty_spec pre buf :
  length pre = 15%nat -> take 17 buf = pre ++ [MVRP_VID_TYPE; 2] -> length buf = 2000%nat ->
  (forall i, (17 <= i < 2000)%nat -> buf !! i = Some 0) ->
  exists buf' buf'', pokes buf 17 (be_bytes 2 (Z.lor (MRPDU_VECT_NUMVALUES 0) MRPDU_VECT_LVA_FLAG)) = Done buf' /\
    peek buf' 16 = Done 2 /\ pokes buf' 21 [0; 0] = Done buf'' /\ length buf'' = 2000%nat /\
    take 23 buf'' = pre ++ [MVRP_VID_TYPE; 2] ++ [0x20; 0; 0; 0] ++ [0; 0].
Proof.
  intros Hp Ht Hl Hz. pose proof (wrote_pokes buf 17 (be_bytes 2 (Z.lor (MRPDU_VECT_NUMVALUES 0) MRPDU_VECT_LVA_FLAG))
    ltac:(lia) ltac:(rewrite length_be_bytes; lia)) as (b1 & E1 & Hw1).
  assert (forall i, (17 <= i < 2000)%nat -> b1 !! i = if decide (i = 17)%nat then Some 32 else Some 0) as Hz1.
  { cbn [be_bytes pokes] in E1. rewrite poke_done in E1 by lia. cbn [mbind outcome_bind] in E1.
    rewrite poke_done in E1 by (rewrite length_insert; lia). injection E1 as <-. intros i Hi.
    change (Z.to_nat (17 + 1)) with 18%nat. change (Z.to_nat 17) with 17%nat.
    destruct (decide (i = 17)%nat) as [->|]; [rewrite list_lookup_insert_ne by lia; by rewrite list_lookup_insert_eq by lia|].
    destruct (decide (i = 18)%nat) as [->|]; [by rewrite list_lookup_insert_eq by (rewrite length_insert; lia)|].
    rewrite !list_lookup_insert_ne by lia. by apply Hz. }
  destruct Hw1 as (Hl1 & _ & _ & Hk1). specialize (Hk1 17%nat ltac:(lia)).
  assert (peek b1 16 = Done 2) as Hpk.
  { unfold peek. simpl. change (Pos.to_nat 16) with 16%nat.
    rewrite <- (lookup_take_lt b1 17) by lia. rewrite Hk1, Ht, lookup_app_r by lia. by rewrite Hp. }
  destruct (wrote_pokes b1 21 [0; 0]) as (b2 & E2 & Hl2 & _ & Ht2 & _); [lia|simpl; lia|].
  exists b1, b2. do 3 (split; [done|]). split; [lia|].
  change (Z.to_nat (21 + Z.of_nat (length [0; 0]))) with 23%nat in Ht2. change (Z.to_nat 21) with 21%nat in Ht2. rewrite Ht2.
  rewrite <- (take_drop 17 (take 21 b1)). rewrite take_take, Nat.min_l, Hk1, Ht by lia.
  rewrite <- !app_assoc. do 2 f_equal. cbn [app]. f_equal.
  assert (drop 17 (take 21 b1) = [32; 0; 0; 0]) as ->; [|done].
  rewrite skipn_firstn_comm. simpl (21 - 17)%nat.
  assert (forall i, (i < 4)%nat -> drop 17 b1 !! i = [32; 0; 0; 0] !! i) as Hd.
  { intros i Hi. rewrite lookup_drop, Hz1 by lia. destruct i as [|[|[|[|i]]]]; try done; lia. }
  apply list_eq. intros i. destruct (decide (i < 4)%nat) as [Hi|Hi].
  - rewrite lookup_take_lt by done. by apply Hd.
  - rewrite lookup_take_ge by lia. symmetry. apply lookup_ge_None. simpl. lia.
Qed.

Lemma pokes_lookup_after buf i vs buf' k :
  0 <= i -> pokes buf i vs = Done buf' -> (Z.to_nat i + length vs <= k)%nat -> buf' !! k = buf !! k.
Proof.
  revert buf i. induction vs as [|v vs IH]; intros buf i Hi E Hk; cbn [pokes] in E; [congruence|].
  unfold poke in E. destruct (_ && _); [|done]. cbn [mbind outcome_bind] in E. cbn [length] in Hk.
  rewrite (IH _ (i + 1) ltac:(lia) E) by lia. rewrite list_lookup_insert_ne by lia. done.
Qed.

(** What [mvrp_emit_vidvectors] does in the frame [mvrp_txpdu] prepared. *)
Definition emit_done (pre : list Z) (lva flag : bool) (attribs : list mvrp_attribute)
    (rc bytes : Z) (attribs' : list mvrp_attribute) (buf' : list Z) : Prop :=
  Forall2 sent_or_not attribs attribs' /\ length buf' = 2000%nat /\
  ((rc = -1 /\ 1979 < 5 * Z.of_nat (ntx attribs)) \/
   (rc = 0 /\ exists full vs, planned full attribs attribs' vs /\
      (full = true -> 1979 < 5 * Z.of_nat (ntx attribs)) /\
      match message_body lva flag vs with
      | None => bytes = 0
      | Some body =>
          bytes = Z.of_nat (length body) + 4 /\ (full = false -> bytes <= 5 * Z.of_nat (ntx attribs) + 8) /\
          15 + bytes <= 2000 /\
          take (Z.to_nat (15 + bytes)) buf' = pre ++ [MVRP_VID_TYPE; 2] ++ body ++ [0; 0]
      end)).

Lemma planned_size full lva l l' vs :
  planned full l l' vs -> (length (enc_vecs lva vs) <= 5 * ntx l)%nat.
Proof.
  intros H. revert lva. induction H as [l Hl|a l l' vs Ht H IH|a l l' vs Ht He H IH|a l r r' vs Ht He Hr H IH]; intros lva.
  - simpl. lia.
  - rewrite ntx_cons, Ht. apply IH.
  - rewrite ntx_cons, Ht. specialize (IH lva). lia.
  - rewrite ntx_cons, ntx_app, Ht, (ntx_run _ _ _ Hr). cbn [enc_vecs]. specialize (IH false).
    unfold enc_vec. cbn [vcodes vfirst]. rewrite !length_app, !length_be_bytes.
    pose proof (length_pack_codes (code a :: (code <$> l))) as Hp. cbn [length] in Hp. rewrite length_fmap in Hp.
    cbn [be_bytes length] in *. Z.div_mod_to_equations. lia.
Qed.

Lemma enc_vecs_nonempty lva v vs : (5 <= length (enc_vecs lva (v :: vs)))%nat \/ vcodes v = [].
Proof.
  destruct (vcodes v) as [|c cs] eqn:E; [by right|left]. cbn [enc_vecs]. unfold enc_vec. rewrite !length_app, !length_be_bytes, E.
  pose proof (length_pack_codes (c :: cs)) as Hp. cbn [length] in Hp.
  assert (1 <= Z.of_nat (length (pack_codes (c :: cs)))) by (rewrite Hp; Z.div_mod_to_equations; lia). lia.
Qed.

Lemma planned_codes full l l' vs : planned full l l' vs -> Forall (fun v => vcodes v <> []) vs.
Proof. induction 1; try done; by constructor. Qed.

Lemma mvrp_emit_spec pre lva flag attribs :
  length pre = 15%nat -> Forall tx_ok attribs ->
  exists rc bytes attribs' buf',
    mvrp_emit_vidvectors (pre ++ replicate 1985 0) 15 MAX_FRAME_SIZE lva flag attribs = Done (rc, bytes, attribs', buf') /\
    emit_done pre lva flag attribs rc bytes attribs' buf'.
Proof.
  intros Hpre Htx. unfold mvrp_emit_vidvectors, MAX_FRAME_SIZE.
  set (buf := pre ++ replicate 1985 0). assert (length buf = 2000%nat) as Hbuf
    by (subst buf; rewrite length_app, length_replicate; lia).
  change (2000 - 6 <? 15) with false. cbn [negb].
  destruct (wrote_pokes buf 15 [MVRP_VID_TYPE; 2]) as (b1 & E1 & Hw1); [lia|simpl; lia|]. rewrite E1. obind.
  assert (forall i, (17 <= i < 2000)%nat -> b1 !! i = Some 0) as Hz.
  { intros i Hi. rewrite (pokes_lookup_after buf 15 _ b1 i ltac:(lia) E1) by (simpl; lia). subst buf.
    rewrite lookup_app_r by lia. apply lookup_replicate_2. lia. }
  destruct Hw1 as (Hl1 & _ & Ht1 & _). change (Z.to_nat (15 + _)) with 17%nat in Ht1.
  change (Z.to_nat 15) with 15%nat in Ht1. change (u8 <$> _) with [MVRP_VID_TYPE; 2] in Ht1.
  assert (take 15 buf = pre) as Hpre' by (subst buf; rewrite take_app_le, take_ge by lia; done).
  rewrite Hpre' in Ht1.
  destruct (emit_loop_spec (length attribs) attribs 15 (15 + 2) 2000 lva false b1)
    as (oops & l' & found & m & v & b2 & -> & H1 & H2 & H3); [lia|done|lia|lia|lia|]. obind.
  destruct oops.
  { eexists _, _, _, _. split; [done|]. split; [done|]. split; [lia|]. left. split; [done|]. lia. }
  destruct H3 as (full & vs & H4 & H5 & H6 & H7).
  destruct vs as [|v0 vs].
  - destruct H7 as (-> & -> & -> & ->). cbn [negb andb]. destruct flag.
    + destruct (emit_empty_spec pre b1 Hpre Ht1 ltac:(lia) Hz) as (b3 & b4 & E3 & E4 & E5 & H8 & H9).
      change (15 + 2) with 17. change (15 + 1) with 16. rewrite E3. obind. rewrite E4. obind.
      change (17 + 2 + 2) with 21. change (21 =? 17) with false. rewrite E5. obind.
      eexists _, _, _, _. split; [done|]. split; [done|]. split; [lia|]. right. split; [done|]. exists full, [].
      split; [done|]. split; [intros Hf; specialize (H5 Hf); lia|]. simpl. split; [done|]. split; [lia|]. split; [lia|]. exact H9.
    + obind. rewrite Z.eqb_refl. eexists _, _, _, _. split; [done|]. split; [done|]. split; [lia|]. right. split; [done|].
      exists full, []. split; [done|]. split; [intros Hf; specialize (H5 Hf); lia|]. done.
  - destruct H7 as (-> & -> & H7). cbn [negb andb]. obind. pose proof H6 as (_ & Hv & Ht2 & _).
    assert (vcodes v0 <> []) as Hne by (pose proof (planned_codes _ _ _ _ H4) as Hc; by inversion Hc).
    destruct (enc_vecs_nonempty lva v0 vs) as [Hn|Hn]; [|done].
    destruct (Z.eqb_spec v (15 + 2)); [lia|].
    destruct (wrote_pokes b2 v [0; 0]) as (b3 & -> & Hl3 & _ & Ht3 & _); [lia|simpl; lia|]. obind.
    eexists _, _, _, _. split; [done|]. split; [done|]. split; [lia|]. right. split; [done|].
    exists full, (v0 :: vs). split; [done|]. split; [intros Hf; specialize (H5 Hf); lia|].
    cbn [message_body]. split; [lia|]. split; [intros _; pose proof (planned_size _ lva _ _ _ H4); lia|].
    split; [lia|]. replace (15 + (v + 2 - 15)) with (v + Z.of_nat (length [0; 0])) by (simpl; lia).
    rewrite Ht3, Ht2. change (Z.to_nat (15 + 2)) with 17%nat. rewrite Ht1. by rewrite <- !app_assoc.
Qed.

Lemma pokes_app pre xs vs :
  (length vs <= length xs)%nat ->
  pokes (pre ++ xs) (Z.of_nat (length pre)) vs = Done (pre ++ (u8 <$> vs) ++ drop (length vs) xs).
Proof.
  revert pre xs. induction vs as [|v vs IH]; intros pre xs Hl; [done|].
  destruct xs as [|x xs]; simpl in Hl; [lia|]. cbn [pokes]. rewrite poke_done by (rewrite length_app; simpl; lia). obind.
  rewrite Nat2Z.id. rewrite <- (Nat.add_0_r (length pre)) at 1. rewrite insert_app_r. simpl.
  specialize (IH (pre ++ [u8 v]) xs ltac:(lia)). rewrite length_app in IH. simpl in IH.
  rewrite Nat2Z.inj_add, <- !app_assoc in IH. exact IH.
Qed.

(** ** Transmission *)
Section tx.
Context `{env : MrpEnv}.
Implicit Types s : MS.

(** What [mvrp_txpdu] changes: the marks of the attributes, the LeaveAll to send, and
    the frames. *)
Record tx_step s s' : Prop := mkTxStep {
  txs_list : Forall2 sent_or_not (attrib_list (app s)) (attrib_list (app s'));
  txs_flag : send_empty_LeaveAll_flag (app s') = send_empty_LeaveAll_flag (app s);
  txs_db : mdb s' = mdb s \/
    mdb s' = set_lva (mkLva (lva_state (lva (mdb s))) false (lva_sndmsg (lva (mdb s)))) (mdb s);
  txs_armed : armed (io s') = armed (io s);
  txs_ctl : ctl (io s') = ctl (io s);
  txs_socket : control_socket (io s') = control_socket (io s);
  txs_p2pmac : p2pmac (io s') = p2pmac (io s);
  txs_station : STATION_ADDR (io s') = STATION_ADDR (io s) }.

Definition station_ok s : Prop := length (STATION_ADDR (io s)) = 6%nat /\ Forall is_byte (STATION_ADDR (io s)).

(** The attributes and the frame of a transmission: [full] when attributes were left out
    for want of room. *)
Definition transmitted s s' (full : bool) (vs : list vec) : Prop :=
  planned full (attrib_list (app s)) (attrib_list (app s')) vs /\
  (full = true -> 1979 < 5 * Z.of_nat (ntx (attrib_list (app s)))) /\
  frames (io s') = frames (io s) ++
    match message_body (lva_tx (lva (mdb s))) (send_empty_LeaveAll_flag (app s)) vs with
    | None => []
    | Some body => [frame_of (STATION_ADDR (io s)) body]
    end /\
  (forall body, message_body (lva_tx (lva (mdb s))) (send_empty_LeaveAll_flag (app s)) vs = Some body ->
     (length (frame_of (STATION_ADDR (io s)) body) <= 2000)%nat).

Lemma u8_map_bytes l : Forall is_byte l -> u8 <$> l = l.
Proof. induction 1 as [|b l Hb _ IH]; [done|]. rewrite fmap_cons, IH, u8_small; [done|exact Hb]. Qed.

Lemma pokes_front xs ys vs :
  length xs = length vs -> pokes (xs ++ ys) 0 vs = Done ((u8 <$> vs) ++ ys).
Proof.
  intros Hl. pose proof (pokes_app [] (xs ++ ys) vs ltac:(rewrite length_app; lia)) as H.
  rewrite drop_app_le, drop_ge in H by lia. exact H.
Qed.

Lemma frame_prepared src :
  length src = 6%nat -> Forall is_byte src ->
  pokes (replicate (Z.to_nat MAX_FRAME_SIZE) 0) 0
    (MVRP_CUSTOMER_BRIDGE_ADDR ++ src ++ be_bytes 2 MVRP_ETYPE ++ [MVRP_PROT_VER]) =
  Done (frame_header src ++ replicate 1985 0).
Proof.
  intros Hl Hb. assert (length (frame_header src) = 15%nat) as Hh.
  { unfold frame_header. rewrite !length_app, Hl. done. }
  replace (Z.to_nat MAX_FRAME_SIZE) with (15 + 1985)%nat by done. rewrite replicate_add.
  generalize (replicate 1985 0). intros ys. change (MVRP_CUSTOMER_BRIDGE_ADDR ++ _) with (frame_header src).
  rewrite pokes_front by (rewrite length_replicate; lia). rewrite u8_map_bytes; [done|]. unfold frame_header.
  rewrite !Forall_app. split; [repeat constructor; unfold is_byte; lia|]. split; [done|].
  split; [apply be_bytes_is_byte|]. repeat constructor; unfold is_byte, MVRP_PROT_VER; lia.
Qed.

Lemma mvrp_txpdu_spec s :
  station_ok s -> Forall tx_ok (attrib_list (app s)) ->
  wp mvrp_txpdu (fun rc s' => tx_step s s' /\
    (frames (io s') = frames (io s) \/ exists full vs, transmitted s s' full vs) /\
    ((forall n, mrp_malloc n = true) -> (forall n len, 0 < len -> 0 < send_rc n len) ->
     (ntx (attrib_list (app s)) <= 394)%nat -> exists vs, transmitted s s' false vs)) s.
Proof.
  intros [Hs1 Hs2] Htx. unfold mvrp_txpdu. apply wp_bind. unfold wp at 1, draw.
  destruct (mrp_malloc (clk (io s))) eqn:Hm; cbn [negb]; cycle 1.
  { apply wp_ret. split; [split; simpl; auto; apply sent_or_not_refl|]. split; [by left|]. intros H. by rewrite H in Hm. }
  apply wp_bind, wp_get, wp_bind. cbn [io mdb app STATION_ADDR bump].
  eapply wp_lift; [by apply frame_prepared|].
  assert (length (frame_header (STATION_ADDR (io s))) = 15%nat) as Hh
    by (unfold frame_header; rewrite !length_app, Hs1; done).
  apply wp_bind. set (s1 := mkMrp (mdb s) (app s) (bump (io s))).
  set (d1 := if lva_tx (lva (mdb s)) then
    set_lva (mkLva (lva_state (lva (mdb s))) false (lva_sndmsg (lva (mdb s)))) (mdb s) else mdb s).
  assert (forall Q, Q tt (mkMrp d1 (app s) (bump (io s))) ->
    wp (when lva_tx (lva (mdb s)) do upd_mdb (fun d => set_lva (mkLva (lva_state (lva d)) false (lva_sndmsg (lva d))) d)) Q s1)
    as Hd by (intros Q HQ; subst d1; by destruct (lva_tx (lva (mdb s)))).
  apply Hd. clear Hd. set (s2 := mkMrp d1 (app s) (bump (io s))).
  destruct (mvrp_emit_spec (frame_header (STATION_ADDR (io s))) (lva_tx (lva (mdb s)))
    (send_empty_LeaveAll_flag (app s)) (attrib_list (app s)) Hh Htx) as (rc & bytes & l' & buf' & E & H1 & H2 & H3).
  apply wp_bind. eapply wp_lift; [exact E|]. clear E.
  apply wp_bind, wp_modify. cbn [app io mdb].
  assert (forall fs c, tx_step s (mkMrp d1 (set_attrib_list l' (app s))
    (mkIo (armed (io s)) fs (ctl (io s)) (control_socket (io s)) (p2pmac (io s)) (periodic_timer (io s))
       (STATION_ADDR (io s)) c))) as Hstep.
  { intros fs c. split; try done. subst d1. simpl. destruct (lva_tx (lva (mdb s))); auto. }
  assert (forall P : Prop, P -> tx_step s (mkMrp d1 (set_attrib_list l' (app s)) (bump (io s))) /\
    (frames (io s) = frames (io s) \/ P)) as Hno by (intros P HP; split; [apply Hstep|by left]).
  destruct H3 as [[-> H3]|[-> (full & vs & H4 & H5 & H6)]].
  { apply wp_ret. split; [apply Hstep|]. split; [by left|]. lia. }
  change (0 =? -1) with false. cbv iota.
  destruct (message_body _ _ vs) as [body|] eqn:Eb.
  - destruct H6 as (H6 & H7 & H8 & H9). destruct (Z.eqb_spec (15 + bytes) 15); [lia|].
    unfold MAX_FRAME_SIZE, MRPDU_ENDMARK_SZ. destruct (Z.ltb_spec (15 + bytes) (2000 - 2)); cycle 1.
    { apply wp_ret. split; [apply Hstep|]. split; [by left|]. intros _ _ Hn. destruct full; [specialize (H5 eq_refl); lia|].
      specialize (H7 eq_refl). lia. }
    destruct (wrote_pokes buf' (15 + bytes) [0; 0]) as (b2 & E2 & _ & _ & Ht & _); [lia|simpl; lia|].
    apply wp_bind. eapply wp_lift; [exact E2|]. apply wp_bind.
    assert (take (Z.to_nat (15 + bytes + 2)) b2 = frame_of (STATION_ADDR (io s)) body) as ->.
    { replace (15 + bytes + 2) with (15 + bytes + Z.of_nat (length [0; 0])) by done. rewrite Ht, H9.
      unfold frame_of. by rewrite <- !app_assoc. }
    unfold mrpd_send. apply wp_bind. unfold wp at 1, draw. cbn [io clk bump mdb app].
    set (rc := send_rc _ _). apply wp_bind. destruct (Z.ltb_spec 0 rc).
    + apply wp_modify, wp_ret, wp_ret. split; [apply Hstep|].
      assert (transmitted s (mkMrp d1 (set_attrib_list l' (app s))
        (add_frame (frame_of (STATION_ADDR (io s)) body) (bump (bump (io s))))) full vs) as Htr.
      { split; [done|]. split; [done|]. rewrite Eb. split; [done|]. intros ? [= <-].
        unfold frame_of. rewrite !length_app, Hh. simpl. lia. }
      split; [right; eauto|]. intros _ _ Hn. exists vs. destruct full; [specialize (H5 eq_refl); lia|exact Htr].
    + do 2 apply wp_ret. split; [apply Hstep|]. split; [by left|]. intros _ Hsend _. exfalso.
      assert (0 < Z.of_nat (length (frame_of (STATION_ADDR (io s)) body))) as Hpos
        by (unfold frame_of; rewrite length_app, Hh; lia).
      apply (Hsend (clk (io s2))) in Hpos. subst rc. lia.
  - subst bytes. change (15 + 0 =? 15) with true. cbv iota. apply wp_ret. split; [apply Hstep|].
    assert (transmitted s (mkMrp d1 (set_attrib_list l' (app s)) (bump (io s))) full vs) as Htr.
    { split; [done|]. split; [done|]. by rewrite Eb, app_nil_r. }
    split; [by left|]. intros _ _ Hn. exists vs. destruct full; [specialize (H5 eq_refl); lia|exact Htr].
Qed.
End tx.
