(* ===== verification/MvrpDecode.v ===== *)
(** * MvrpDecode: the decoder delivers what the encoder wrote

    [mvrp_recv_msg] on a frame built by [mvrp_txpdu]: the LeaveAll and then the attribute
    events of each vector, in order, and nothing else. *)
From stdpp Require Import base gmap list strings numbers.
From S2P Require Import Prelude Text Parse Mrp Mvrp MvrpWire.
#[local] Open Scope Z_scope.
#[local] Open Scope st_scope.

(** ** Rearranging binds *)
Lemma st_bind_assoc {S A B C} (m : stM S A) (k : A -> stM S B) (j : B -> stM S C) s :
  st_bind (st_bind m k) j s = st_bind m (fun a => st_bind (k a) j) s.
Proof. unfold st_bind. by destruct (m s) as [[a s']|]. Qed.

Lemma st_bind_ext {S A B} (m : stM S A) (k1 k2 : A -> stM S B) s :
  (forall a s', k1 a s' = k2 a s') -> st_bind m k1 s = st_bind m k2 s.
Proof. intros H. unfold st_bind. destruct (m s) as [[a s']|]; [apply H|done]. Qed.

Lemma st_bind_lift {S A B} (o : outcome A) a (k : A -> stM S B) s :
  o = Done a -> st_bind (st_lift o) k s = k a s.
Proof. by intros ->. Qed.

Lemma st_bind_run {S A B} (m1 m2 : stM S A) (k : A -> stM S B) s :
  m1 s = m2 s -> st_bind m1 k s = st_bind m2 k s.
Proof. unfold st_bind. by intros ->. Qed.

(** ** Reading back *)
Lemma peek_at buf pre x post p : buf = pre ++ x :: post -> p = Z.of_nat (length pre) -> peek buf p = Done x.
Proof.
  intros -> ->. unfold peek. destruct (Z.leb_spec 0 (Z.of_nat (length pre))); [|lia].
  by rewrite Nat2Z.id, list_lookup_middle.
Qed.

Lemma peek16_at buf pre v post p :
  0 <= v < 65536 -> buf = pre ++ be_bytes 2 v ++ post -> p = Z.of_nat (length pre) -> peek16 buf p = Done v.
Proof.
  intros Hv -> ->. unfold peek16. change (be_bytes 2 v) with [u8 (Z.shiftr v 8); u8 (Z.shiftr v 0)].
  set (b1 := u8 (Z.shiftr v 8)). set (b0 := u8 (Z.shiftr v 0)).
  change ([b1; b0] ++ post) with (b1 :: b0 :: post).
  rewrite (peek_at _ pre b1 (b0 :: post) _ eq_refl eq_refl). obind.
  rewrite (peek_at _ (pre ++ [b1]) b0 post) by (rewrite <- ?app_assoc, ?length_app; simpl; try done; lia). obind. f_equal.
  subst b0 b1. rewrite Z.shiftr_0_r, Z.shiftr_div_pow2 by lia. zdiv_lia.
Qed.

Lemma unpack3_pack x y z :
  0 <= x <= 5 -> 0 <= y <= 5 -> 0 <= z <= 5 -> unpack3 (u8 (MRPDU_3PACK_ENCODE x y z)) = [x; y; z].
Proof.
  intros Hx Hy Hz. unfold unpack3, MRPDU_3PACK_ENCODE. rewrite u8_small by lia.
  assert (((x * 6 + y) * 6 + z) / 36 = x) as -> by (Z.div_mod_to_equations; lia).
  assert (((x * 6 + y) * 6 + z - x * 36) / 6 = y) as -> by (Z.div_mod_to_equations; lia).
  repeat f_equal. lia.
Qed.

Lemma vec_header_num lva n :
  0 <= n < 8192 -> MRPDU_VECT_NUMVALUES (vec_header lva n) = n /\ MRPDU_VECT_LVA (vec_header lva n) = lva /\
  0 <= vec_header lva n < 65536 /\ (0 < n -> vec_header lva n <> 0).
Proof.
  intros Hn. unfold vec_header, MRPDU_VECT_NUMVALUES, MRPDU_VECT_LVA, MRPDU_VECT_LVA_FLAG.
  change (Z.shiftl 1 13 - 1) with (Z.ones 13). rewrite (Z.land_ones n 13), Z.mod_small by (simpl; lia).
  set (f := if lva then Z.shiftl 1 13 else 0).
  assert (Z.lor n f = (if lva then 1 else 0) * 2 ^ 13 + n) as ->.
  { rewrite Z.lor_comm, <- lor_shiftl_small by (simpl; lia). f_equal. subst f. by destruct lva. }
  rewrite Z.land_ones by lia. change (Z.shiftl 7 13) with (Z.shiftl (Z.ones 3) 13). change (Z.shiftl 1 13) with 8192.
  change (2 ^ 13) with 8192.
  assert (forall k, 0 <= k <= 1 -> Z.land (k * 8192 + n) (Z.shiftl (Z.ones 3) 13) = k * 8192) as Hl.
  { intros k Hk. pose proof (mask_shift (k * 8192 + n) 13 3 ltac:(lia) ltac:(lia)) as Hm.
    change (2 ^ 13) with 8192 in Hm. change (2 ^ 3) with 8 in Hm.
    replace ((k * 8192 + n) / 8192) with k in Hm by (Z.div_mod_to_equations; lia).
    rewrite Z.mod_small in Hm by lia.
    rewrite <- Hm at 2. rewrite Z.shiftr_div_pow2 by lia. change (2 ^ 13) with 8192.
    assert (Z.land (k * 8192 + n) (Z.shiftl (Z.ones 3) 13) mod 8192 = 0) as Hz.
    { change 8192 with (2 ^ 13) at 2. rewrite <- Z.land_ones by lia. rewrite <- Z.land_assoc.
      change (Z.land (Z.shiftl (Z.ones 3) 13) (Z.ones 13)) with 0. apply Z.land_0_r. }
    Z.div_mod_to_equations. lia. }
  destruct lva; rewrite Hl by lia; repeat split; try lia; Z.div_mod_to_equations; lia.
Qed.

Section decode.
Context `{env : MrpEnv}.
Implicit Types s : MS.

(** ** Delivery *)
Lemma vect_values_app l1 l2 vid mac s :
  vect_values (l1 ++ l2) vid mac s =
    (let! r := vect_values l1 vid mac in
     match r with None => st_ret None | Some vid' => vect_values l2 vid' mac end) s.
Proof.
  revert vid s. induction l1 as [|e l1 IH]; intros vid s; [done|].
  change ((e :: l1) ++ l2) with (e :: (l1 ++ l2)). cbn [vect_values].
  destruct (4095 <? vid); [apply IH|]. unfold st_bind, draw. destruct (mrp_malloc (clk (io s))); cbn [negb]; [|done].
  destruct (rx_event e) as [ev|].
  - destruct (mvrp_event ev _ _) as [[a s']|]; [|done]. unfold st_ret at 1 2. apply IH.
  - unfold st_ret at 1 2. apply IH.
Qed.

(** A delivery that ends in [vid], as the loop over the packed bytes continues it. *)
Lemma vect_bytes_done n buf events vidx num vid mac s b r s' :
  peek buf (events + vidx) = Done b ->
  vect_values (take (Z.to_nat (if 3 <? num then 3 else num)) (unpack3 b)) vid mac s = Done (r, s') ->
  vect_bytes (S n) buf events vidx num vid mac s =
    match r with
    | None => Done (None, s')
    | Some vid' => vect_bytes n buf events (vidx + 1) (u16 (num - (if 3 <? num then 3 else num))) vid' mac s'
    end.
Proof.
  intros Hb Hv. cbn [vect_bytes]. unfold st_bind at 1, st_lift. rewrite Hb. cbv beta iota zeta.
  unfold st_bind. rewrite Hv. by destruct r.
Qed.

Lemma vect_bytes_fault n buf events vidx num vid mac s b w :
  peek buf (events + vidx) = Done b ->
  vect_values (take (Z.to_nat (if 3 <? num then 3 else num)) (unpack3 b)) vid mac s = Fault w ->
  vect_bytes (S n) buf events vidx num vid mac s = Fault w.
Proof.
  intros Hb Hv. cbn [vect_bytes]. unfold st_bind at 1, st_lift. rewrite Hb. cbv beta iota zeta.
  unfold st_bind. by rewrite Hv.
Qed.

Definition codes_ok (cs : list Z) : Prop := Forall (fun c => 0 <= c <= 5) cs.

(** The byte after the last value is read, and ignored. *)
Lemma vect_bytes_extra buf events vidx vid mac s b :
  peek buf (events + vidx) = Done b -> vect_bytes 1 buf events vidx 0 vid mac s = Done (Some vid, s).
Proof. intros Hb. by rewrite (vect_bytes_done _ _ _ _ _ _ _ _ b (Some vid) s). Qed.

(** One packed byte with the values [cs], and [n] more iterations. *)
Lemma vect_bytes_chunk n buf events vidx num vid mac s b cs :
  peek buf (events + vidx) = Done b ->
  take (Z.to_nat (if 3 <? num then 3 else num)) (unpack3 b) = cs ->
  vect_bytes (S n) buf events vidx num vid mac s =
    (let! r := vect_values cs vid mac in
     match r with
     | None => st_ret None
     | Some vid' => vect_bytes n buf events (vidx + 1) (u16 (num - (if 3 <? num then 3 else num))) vid' mac
     end) s.
Proof.
  intros Hb Ht. unfold st_bind. destruct (vect_values cs vid mac s) as [[r s']|w] eqn:E.
  - rewrite (vect_bytes_done _ _ _ _ _ _ _ _ b r s' Hb); [|by rewrite Ht]. by destruct r.
  - rewrite (vect_bytes_fault _ _ _ _ _ _ _ _ b w Hb); [done|by rewrite Ht].
Qed.

(** The last packed byte. *)
Lemma vect_bytes_tail buf events vidx vid mac s b x cs :
  (length cs < 3)%nat -> peek buf (events + vidx) = Done b -> peek buf (events + (vidx + 1)) = Done x ->
  take (length cs) (unpack3 b) = cs ->
  vect_bytes 2 buf events vidx (Z.of_nat (length cs)) vid mac s = vect_values cs vid mac s.
Proof.
  intros Hl Hb Hx Ht. assert ((3 <? Z.of_nat (length cs)) = false) as Hn by (apply Z.ltb_ge; lia).
  rewrite (vect_bytes_chunk _ _ _ _ _ _ _ _ b cs Hb) by (by rewrite Hn, Nat2Z.id). rewrite Hn, Z.sub_diag.
  unfold st_bind. destruct (vect_values cs vid mac s) as [[[vid'|] s']|w]; [|done..].
  by rewrite (vect_bytes_extra _ _ _ _ _ _ x).
Qed.

(** The packed bytes of [cs], and one more byte, deliver [cs]. *)
Lemma vect_bytes_pack buf cs pre x post events vidx vid mac s :
  codes_ok cs -> Z.of_nat (length cs) < 65536 ->
  buf = pre ++ pack_codes cs ++ x :: post -> events + vidx = Z.of_nat (length pre) ->
  vect_bytes (S (length (pack_codes cs))) buf events vidx (Z.of_nat (length cs)) vid mac s = vect_values cs vid mac s.
Proof.
  revert pre vidx vid s.
  induction cs as [cs IH] using (well_founded_induction (well_founded_ltof _ (length (A:=Z)))).
  intros pre vidx vid s Hcs Hlen Hbuf Hp.
  assert (forall b p, pack_codes cs ++ x :: post = b :: p -> peek buf (events + vidx) = Done b) as Hfirst
    by (intros b p Hb; rewrite Hb in Hbuf; by eapply peek_at).
  assert (forall b c p, pack_codes cs ++ x :: post = b :: c :: p -> peek buf (events + (vidx + 1)) = Done c) as Hsecond.
  { intros b c p Hb. rewrite Hb in Hbuf. apply (peek_at _ (pre ++ [b]) c p); [by rewrite Hbuf, <- app_assoc|].
    rewrite length_app. simpl. lia. }
  destruct cs as [|x0 [|x1 [|x2 cs]]]; repeat (apply Forall_cons_iff in Hcs as [? Hcs]).
  - by apply vect_bytes_extra with x, (Hfirst _ post).
  - apply (vect_bytes_tail _ _ _ _ _ _ (u8 (MRPDU_3PACK_ENCODE x0 0 0)) x); [simpl; lia|by eapply Hfirst|by eapply Hsecond|].
    by rewrite unpack3_pack by lia.
  - apply (vect_bytes_tail _ _ _ _ _ _ (u8 (MRPDU_3PACK_ENCODE x0 x1 0)) x); [simpl; lia|by eapply Hfirst|by eapply Hsecond|].
    by rewrite unpack3_pack by lia.
  - specialize (Hfirst _ _ eq_refl). rewrite pack_codes_triple in *. cbn [length] in Hlen |- *.
    assert ((if 3 <? Z.of_nat (S (S (S (length cs)))) then 3 else Z.of_nat (S (S (S (length cs))))) = 3) as Hthree
      by (destruct (Z.ltb_spec 3 (Z.of_nat (S (S (S (length cs)))))); lia).
    rewrite (vect_bytes_chunk _ _ _ _ _ _ _ _ _ [x0; x1; x2] Hfirst)
      by (rewrite Hthree; by rewrite unpack3_pack by lia).
    rewrite Hthree. change (x0 :: x1 :: x2 :: cs) with ([x0; x1; x2] ++ cs). rewrite vect_values_app. unfold st_bind.
    destruct (vect_values [x0; x1; x2] vid mac s) as [[[vid'|] s']|w]; [|done..].
    replace (u16 (Z.of_nat (S (S (S (length cs)))) - 3)) with (Z.of_nat (length cs)) by (rewrite u16_small by lia; lia).
    apply (IH cs ltac:(unfold ltof; simpl; lia) (pre ++ [u8 (MRPDU_3PACK_ENCODE x0 x1 x2)])); [done|lia| |].
    + by rewrite Hbuf, <- app_assoc.
    + rewrite length_app. simpl. lia.
Qed.

(** ** Vectors *)

(** The delivery of a message: the LeaveAll if there is one, then the vectors; [false]
    when memory ran out on the way. *)
Fixpoint deliver (leaveall : bool) (mac : list Z) (vs : list vec) : stM MS bool :=
  match vs with
  | [] => st_ret true
  | v :: vs' =>
      (when leaveall do (mvrp_event MRP_EVENT_RLA None ;! st_ret tt)) ;!
      let! r := vect_values (vcodes v) (vfirst v) mac in
      match r with None => st_ret false | Some _ => deliver false mac vs' end
  end.

Definition vec_ok (v : vec) : Prop :=
  (1 <= length (vcodes v))%nat /\ Z.of_nat (length (vcodes v)) < 8192 /\ codes_ok (vcodes v) /\ 0 <= vfirst v < 65536.

Lemma num_vector_bytes n : 0 <= n -> (if n =? n / 3 * 3 then n / 3 else n / 3 + 1) = (n + 2) / 3.
Proof. intros Hn. destruct (Z.eqb_spec n (n / 3 * 3)); Z.div_mod_to_equations; lia. Qed.

Lemma be_bytes_2 v : be_bytes 2 v = [u8 (Z.shiftr v 8); u8 v].
Proof. cbn. by rewrite Z.shiftr_0_r. Qed.

(** The test for the end mark, on bytes that are not one. *)
Lemma vector_loop_step fuel buf eof ptr saw mac s b0 b1 header :
  peek buf ptr = Done b0 -> peek buf (ptr + 1) = Done b1 -> ~ (b0 = 0 /\ b1 = 0) -> peek16 buf ptr = Done header ->
  vector_loop (S fuel) buf eof ptr saw mac s =
    (let num := MRPDU_VECT_NUMVALUES header in
     let leaveall := MRPDU_VECT_LVA header && negb saw in
     (when leaveall do (mvrp_event MRP_EVENT_RLA None ;! st_ret tt)) ;!
     if num =? 0 then st_ret None
     else if eof <=? ptr + 2 + num / 3 then st_ret None
     else
       let! vid := st_lift (peek16 buf (ptr + 2)) in
       let! r := vect_bytes (Z.to_nat ((num + 2) / 3 + 1)) buf (ptr + 2) 2 num vid mac in
       match r with
       | None => st_ret None
       | Some _ => vector_loop fuel buf eof (ptr + 4 + (num + 2) / 3) (saw || leaveall) mac
       end) s.
Proof.
  intros H0 H1 Hz Hh. cbn [vector_loop]. unfold st_bind at 1, st_lift at 1. rewrite H0. unfold st_bind at 1.
  assert ((if b0 =? 0 then st_lift (peek buf (ptr + 1)) else st_ret 1) s = Done (if b0 =? 0 then b1 else 1, s)) as ->
    by (destruct (b0 =? 0); unfold st_lift; by rewrite ?H1).
  replace ((b0 =? 0) && ((if b0 =? 0 then b1 else 1) =? 0)) with false
    by (destruct (Z.eqb_spec b0 0), (Z.eqb_spec b1 0); simpl; try done; exfalso; auto).
  unfold st_bind at 1, st_lift at 1. rewrite Hh. cbv beta iota zeta.
  assert (0 <= MRPDU_VECT_NUMVALUES header) as Hn
    by (unfold MRPDU_VECT_NUMVALUES; change (Z.shiftl 1 13 - 1) with (Z.ones 13); rewrite Z.land_ones by lia;
        apply Z.mod_pos_bound; lia).
  by rewrite num_vector_bytes.
Qed.

Definition saw_after (saw lva : bool) (vs : list vec) : bool :=
  match vs with [] => saw | _ => saw || (lva && negb saw) end.

Lemma vector_loop_end fuel buf eof ptr saw mac s pre post :
  buf = pre ++ 0 :: 0 :: post -> ptr = Z.of_nat (length pre) ->
  vector_loop fuel buf eof ptr saw mac s = Done (Some (ptr, saw), s).
Proof.
  intros Hb Hp. assert (peek buf ptr = Done 0) as H0 by (by eapply peek_at).
  assert (peek buf (ptr + 1) = Done 0) as H1.
  { apply (peek_at _ (pre ++ [0]) 0 post); [by rewrite Hb, <- app_assoc|]. rewrite length_app. simpl. lia. }
  destruct fuel; cbn [vector_loop]; unfold st_bind, st_lift; rewrite H0; simpl; by rewrite H1.
Qed.

Lemma vector_loop_enc fuel vs buf pre post eof ptr lva saw mac s :
  (length vs <= fuel)%nat -> Forall vec_ok vs -> buf = pre ++ enc_vecs lva vs ++ 0 :: 0 :: post ->
  ptr = Z.of_nat (length pre) -> ptr + Z.of_nat (length (enc_vecs lva vs)) <= eof ->
  vector_loop fuel buf eof ptr saw mac s =
    (let! ok := deliver (lva && negb saw) mac vs in
     st_ret (if ok then Some (ptr + Z.of_nat (length (enc_vecs lva vs)), saw_after saw lva vs) else None)) s.
Proof.
  revert fuel pre ptr lva saw s. induction vs as [|v vs IH]; intros fuel pre ptr lva saw s Hf Hvs Hb Hp He.
  { simpl. rewrite (vector_loop_end _ _ _ _ _ _ _ pre post) by done. by rewrite Z.add_0_r. }
  destruct fuel as [|fuel]; simpl in Hf; [lia|]. apply Forall_cons_iff in Hvs as [(Hn1 & Hn2 & Hc & Hv) Hvs].
  cbn [enc_vecs] in *. set (n := Z.of_nat (length (vcodes v))) in *.
  unfold enc_vec in Hb, He |- *. fold n in Hb, He |- *. rewrite (u16_small n) in * by lia.
  destruct (vec_header_num lva n ltac:(lia)) as (Hh1 & Hh2 & Hh3 & Hh4).
  set (h := vec_header lva n) in *. pose proof (length_pack_codes (vcodes v)) as Hpack. fold n in Hpack.
  assert (buf = pre ++ be_bytes 2 h ++ (be_bytes 2 (vfirst v) ++ pack_codes (vcodes v) ++ enc_vecs false vs ++ 0 :: 0 :: post))
    as Hb1 by (rewrite Hb; by rewrite <- !app_assoc).
  assert (peek16 buf ptr = Done h) as Hp16 by (by eapply peek16_at).
  rewrite be_bytes_2 in Hb1.
  rewrite (vector_loop_step _ _ _ _ _ _ _ (u8 (Z.shiftr h 8)) (u8 h) h); [|by eapply peek_at| | |done].
  2: { apply (peek_at _ (pre ++ [u8 (Z.shiftr h 8)]) (u8 h) (be_bytes 2 (vfirst v) ++ pack_codes (vcodes v) ++ enc_vecs false vs ++ 0 :: 0 :: post));
         [by rewrite Hb1, <- app_assoc|rewrite length_app; simpl; lia]. }
  2: { specialize (Hh4 ltac:(lia)). intros [Hz1 Hz2]. rewrite Z.shiftr_div_pow2 in Hz1 by lia. clear -Hz1 Hz2 Hh3 Hh4. zdiv_lia. }
  cbv zeta. rewrite Hh1, Hh2. cbn [deliver].
  rewrite !length_app, !length_be_bytes in He |- *. rewrite !Nat2Z.inj_add, Hpack in He |- *.
  rewrite st_bind_assoc. apply st_bind_ext. intros _ s1.
  destruct (Z.eqb_spec n 0); [lia|]. destruct (Z.leb_spec eof (ptr + 2 + n / 3)); [exfalso; Z.div_mod_to_equations; lia|].
  assert (peek16 buf (ptr + 2) = Done (vfirst v)) as Hf16.
  { apply (peek16_at _ (pre ++ be_bytes 2 h) (vfirst v) (pack_codes (vcodes v) ++ enc_vecs false vs ++ 0 :: 0 :: post));
      [done|by rewrite Hb, <- !app_assoc|rewrite length_app, length_be_bytes; lia]. }
  rewrite (st_bind_lift _ _ _ _ Hf16).
  replace (Z.to_nat ((n + 2) / 3 + 1)) with (S (length (pack_codes (vcodes v)))) by lia.
  assert (exists x p, enc_vecs false vs ++ 0 :: 0 :: post = x :: p) as (x & p & Hx)
    by (destruct (enc_vecs false vs); eauto).
  rewrite (st_bind_run _ (vect_values (vcodes v) (vfirst v) mac)).
  2: { apply (vect_bytes_pack _ _ (pre ++ be_bytes 2 h ++ be_bytes 2 (vfirst v)) x p); [done|lia| |].
       - rewrite <- Hx, Hb. by rewrite <- !app_assoc.
       - rewrite !length_app, !length_be_bytes. lia. }
  rewrite st_bind_assoc. apply st_bind_ext. intros [vid'|] s2; [|done].
  assert ((be_bytes 2 h ++ be_bytes 2 (vfirst v)) ++ pack_codes (vcodes v) =
    be_bytes 2 h ++ be_bytes 2 (vfirst v) ++ pack_codes (vcodes v)) as Hass by (by rewrite <- app_assoc).
  rewrite (IH fuel (pre ++ be_bytes 2 h ++ be_bytes 2 (vfirst v) ++ pack_codes (vcodes v)) _ false); [|lia|done| | |].
  - apply st_bind_ext. intros ok s3. destruct ok; [|done]. unfold st_ret.
    replace (saw_after (saw || lva && negb saw) false vs) with (saw_after saw lva (v :: vs))
      by (unfold saw_after; destruct vs; by rewrite ?orb_false_r).
    do 4 f_equal. lia.
  - rewrite Hb. by rewrite <- !app_assoc.
  - rewrite !length_app, !length_be_bytes. lia.
  - lia.
Qed.

(** ** Frames *)
Lemma length_frame_header src : length src = 6%nat -> length (frame_header src) = 15%nat.
Proof. intros Hs. unfold frame_header. by rewrite !length_app, Hs. Qed.

Lemma length_frame src body : length src = 6%nat -> length (frame_of src body) = (length body + 21)%nat.
Proof. intros Hs. unfold frame_of. rewrite !length_app, length_frame_header by done. simpl. lia. Qed.

(** The two end marks after the vectors close the frame. *)
Lemma message_loop_close fuel buf eof ptr saw mac s pre post :
  buf = pre ++ 0 :: 0 :: 0 :: 0 :: post -> ptr = Z.of_nat (length pre) -> eof = ptr + 4 ->
  message_loop (S (S fuel)) buf eof ptr 0 saw mac s = Done (0, s).
Proof.
  intros Hb Hp ->. cbn [message_loop]. unfold MRPDU_ENDMARK_SZ. destruct (Z.ltb_spec ptr (ptr + 4 - 2)); [|lia]. cbn [negb].
  rewrite (st_bind_lift _ 0) by (by eapply peek_at).
  rewrite (st_bind_lift _ 0) by (apply (peek_at _ (pre ++ [0]) 0 (0 :: 0 :: post)); [by rewrite Hb, <- app_assoc|rewrite length_app; simpl; lia]).
  simpl. destruct (Z.ltb_spec (ptr + 2) (ptr + 4 - 2)); [lia|]. done.
Qed.

(** The buffer a frame is received in. *)
Lemma recv_frame_buf src body :
  length src = 6%nat -> (length (frame_of src body) <= 2000)%nat ->
  exists zs, recv_buf (frame_of src body) =
    (MVRP_CUSTOMER_BRIDGE_ADDR ++ src ++ be_bytes 2 MVRP_ETYPE ++ [MVRP_PROT_VER]) ++
    [MVRP_VID_TYPE; 2] ++ body ++ 0 :: 0 :: 0 :: 0 :: zs /\
    length (recv_buf (frame_of src body)) = Z.to_nat MAX_FRAME_SIZE.
Proof.
  intros Hs Hl. exists (replicate (Z.to_nat MAX_FRAME_SIZE - length (frame_of src body)) 0).
  unfold recv_buf. split; [|by rewrite length_resize]. rewrite resize_ge by exact Hl.
  unfold frame_of at 1. unfold frame_header. by rewrite <- !app_assoc.
Qed.

(** The checks of the Ethernet header, and the first message's type and length. *)
Lemma recv_frame_header src body buf zs s :
  length src = 6%nat -> (length (frame_of src body) <= 2000)%nat ->
  recv_buf (frame_of src body) = buf -> length buf = Z.to_nat MAX_FRAME_SIZE ->
  buf = (MVRP_CUSTOMER_BRIDGE_ADDR ++ src ++ be_bytes 2 MVRP_ETYPE ++ [MVRP_PROT_VER]) ++ [MVRP_VID_TYPE; 2] ++ zs ->
  let eof := Z.of_nat (length (frame_of src body)) in
  mvrp_recv_msg (Some (frame_of src body)) s =
    (let! mem := draw mrp_malloc in
     if negb mem then st_ret (-1)
     else
       let! r := vector_loop (length buf) buf eof 17 false src in
       match r with None => st_ret (-1) | Some (ptr', saw') => message_loop (pred (length buf)) buf eof ptr' 0 saw' src end) s.
Proof.
  intros Hs Hl Hrb Hlen Hbuf eof. subst eof. rewrite length_frame in Hl |- * by done.
  unfold mvrp_recv_msg. apply st_bind_ext. intros mem s1. destruct mem; cbn [negb]; [|done].
  rewrite Hrb, length_frame by done. clear Hrb. set (eof := Z.of_nat (length body + 21)).
  replace (Z.min eof MAX_FRAME_SIZE) with eof by (unfold MAX_FRAME_SIZE; lia).
  destruct (Z.ltb_spec eof (14 + 1 + 2)); [lia|].
  rewrite (st_bind_lift _ MVRP_ETYPE); [|eapply (peek16_at _ (MVRP_CUSTOMER_BRIDGE_ADDR ++ src) MVRP_ETYPE)].
  2: unfold MVRP_ETYPE; lia. 2: rewrite Hbuf, <- !app_assoc; reflexivity. 2: rewrite length_app, Hs; reflexivity.
  rewrite Z.eqb_refl. cbn [negb]. rewrite decide_True by (rewrite Hbuf; reflexivity).
  assert (take 6 (drop 6 buf) = src) as ->.
  { rewrite Hbuf, <- !app_assoc. rewrite drop_app_ge by done. simpl (6 - _)%nat. rewrite drop_0.
    rewrite take_app_le, take_ge by lia. done. }
  destruct (length buf) as [|fuel] eqn:Ef; [by vm_compute in Hlen|]. clear Hlen. cbn [message_loop pred].
  unfold MRPDU_ENDMARK_SZ. destruct (Z.ltb_spec 15 (eof - 2)); [|lia]. cbn [negb].
  rewrite (st_bind_lift _ MVRP_VID_TYPE); [|eapply (peek_at _ (frame_header src)); [exact Hbuf|by rewrite length_frame_header]].
  rewrite (st_bind_lift _ 2).
  2: { eapply (peek_at _ (frame_header src ++ [MVRP_VID_TYPE])); [rewrite Hbuf, <- (app_assoc (frame_header src)); reflexivity|].
       rewrite length_app, length_frame_header; done. }
  change (MVRP_VID_TYPE =? 0) with false. cbn [andb]. rewrite Z.eqb_refl. change (2 =? 2) with true. cbn [negb].
  by rewrite Ef.
Qed.

Lemma enc_vecs_count lva vs : Forall vec_ok vs -> (5 * length vs <= length (enc_vecs lva vs))%nat.
Proof.
  intros Hvs. revert lva. induction Hvs as [|v vs (H1 & _) Hvs IH]; intros lva; [done|].
  cbn [enc_vecs length]. specialize (IH false). unfold enc_vec. rewrite !length_app, !length_be_bytes.
  pose proof (length_pack_codes (vcodes v)) as Hp. assert (1 <= (Z.of_nat (length (vcodes v)) + 2) / 3)
    by (Z.div_mod_to_equations; lia). lia.
Qed.

(** What a station does with a frame: nothing without memory, else the deliveries. *)
Definition reception (lva : bool) (src : list Z) (vs : list vec) : stM MS Z :=
  let! mem := draw mrp_malloc in
  if negb mem then st_ret (-1)
  else
    match vs with
    | [] => mvrp_event MRP_EVENT_RLA None ;! st_ret (-1)
    | _ => let! ok := deliver lva src vs in st_ret (if ok then 0 else -1)
    end.

Lemma recv_vectors src lva vs s :
  length src = 6%nat -> (length (frame_of src (enc_vecs lva vs)) <= 2000)%nat -> Forall vec_ok vs -> vs <> [] ->
  mvrp_recv_msg (Some (frame_of src (enc_vecs lva vs))) s = reception lva src vs s.
Proof.
  intros Hs Hl Hvs Hne. destruct (recv_frame_buf src (enc_vecs lva vs) Hs Hl) as (zs & Hbuf & Hlen).
  set (buf := recv_buf _) in *. rewrite (recv_frame_header src (enc_vecs lva vs) buf _ s Hs Hl eq_refl Hlen Hbuf).
  apply st_bind_ext. intros mem s1. destruct mem; cbn [negb]; [|done].
  rewrite length_frame in Hl |- * by done. set (eof := Z.of_nat (length (enc_vecs lva vs) + 21)).
  pose proof (enc_vecs_count lva vs Hvs) as Hcount. pose proof (length_frame_header src Hs) as Hh.
  assert (buf = (frame_header src ++ [MVRP_VID_TYPE; 2]) ++ enc_vecs lva vs ++ 0 :: 0 :: 0 :: 0 :: zs) as Hbuf'
    by (rewrite Hbuf; unfold frame_header; by rewrite <- !app_assoc).
  rewrite (st_bind_run _ (let! ok := deliver (lva && negb false) src vs in
     st_ret (if ok then Some (17 + Z.of_nat (length (enc_vecs lva vs)), saw_after false lva vs) else None))).
  2: { apply (vector_loop_enc _ _ _ (frame_header src ++ [MVRP_VID_TYPE; 2]) (0 :: 0 :: zs)); try done.
       - rewrite Hlen. unfold MAX_FRAME_SIZE. lia.
       - by rewrite length_app, Hh.
       - lia. }
  rewrite st_bind_assoc. replace (lva && negb false) with lva by (by rewrite andb_true_r).
  destruct vs as [|v vs]; [done|]. apply st_bind_ext. intros ok s2. destruct ok; [|done].
  unfold st_bind, st_ret at 1. destruct (length buf) as [|[|fuel]] eqn:Ef; [by vm_compute in Hlen..|]. destruct fuel as [|fuel]; [by vm_compute in Hlen|].
  apply (message_loop_close _ _ _ _ _ _ _ ((frame_header src ++ [MVRP_VID_TYPE; 2]) ++ enc_vecs lva (v :: vs)) zs).
  - by rewrite Hbuf', <- (app_assoc (frame_header src ++ _)).
  - rewrite !length_app, Hh. simpl. lia.
  - lia.
Qed.

(** A message without values still delivers its LeaveAll, and is then given up. *)
Lemma recv_empty src s :
  length src = 6%nat -> mvrp_recv_msg (Some (frame_of src [0x20; 0; 0; 0])) s = reception true src [] s.
Proof.
  intros Hs. assert ((length (frame_of src [0x20; 0; 0; 0]%Z) <= 2000)%nat) as Hl by (rewrite length_frame by done; simpl; lia).
  destruct (recv_frame_buf src [0x20; 0; 0; 0] Hs Hl) as (zs & Hbuf & Hlen).
  set (buf := recv_buf _) in *. rewrite (recv_frame_header src [0x20; 0; 0; 0] buf _ s Hs Hl eq_refl Hlen Hbuf).
  apply st_bind_ext. intros mem s1. destruct mem; cbn [negb]; [|done].
  pose proof (length_frame_header src Hs) as Hh.
  assert (buf = (frame_header src ++ [MVRP_VID_TYPE; 2]) ++ 0x20 :: 0 :: 0 :: 0 :: 0 :: 0 :: 0 :: 0 :: zs) as Hbuf'
    by (rewrite Hbuf; unfold frame_header; by rewrite <- !app_assoc).
  destruct (length buf) as [|fuel] eqn:Ef; [by vm_compute in Hlen|].
  assert (peek buf 17 = Done 0x20) as H0 by (eapply peek_at; [exact Hbuf'|]; by rewrite length_app, Hh).
  assert (peek buf (17 + 1) = Done 0) as H1.
  { apply (peek_at _ ((frame_header src ++ [MVRP_VID_TYPE; 2]) ++ [0x20]) _ (0 :: 0 :: 0 :: 0 :: 0 :: 0 :: zs)).
    - by rewrite Hbuf', <- (app_assoc (frame_header src ++ _)).
    - by rewrite !length_app, Hh. }
  assert (peek16 buf 17 = Done 0x2000) as H2 by (unfold peek16; rewrite H0; obind; by rewrite H1).
  rewrite (st_bind_run _ (mvrp_event MRP_EVENT_RLA None ;! st_ret None)).
  - rewrite st_bind_assoc. by apply st_bind_ext.
  - rewrite (vector_loop_step _ _ _ _ _ _ _ _ _ _ H0 H1 ltac:(by intros []) H2). cbv zeta.
    change (MRPDU_VECT_LVA 0x2000 && negb false) with true. cbv iota. rewrite st_bind_assoc. apply st_bind_ext. intros _ s2.
    done.
Qed.
End decode.

(** ** What was planned is what is delivered *)
Definition vid_ok (a : mvrp_attribute) : Prop := 0 <= attribute a < 65536.

Lemma code_range a : tx_ok a -> tx (applicant a) = true -> 0 <= code a <= 5.
Proof.
  intros Ha Ht. destruct (Ha Ht) as [c Hc]. unfold code. rewrite Hc. simpl. unfold vect_event in Hc.
  unfold MRPDU_IN, MRPDU_MT, MRPDU_NEW, MRPDU_LV, MRPDU_JOININ, MRPDU_JOINMT in Hc.
  repeat case_match; simplify_eq; lia.
Qed.

Lemma run_codes vid l r : run_of vid l r -> Forall tx_ok l -> codes_ok (code <$> l).
Proof.
  revert vid. induction l as [|a l IH]; intros vid; [constructor|]. intros (Ht & _ & Hr) Hl.
  apply Forall_cons_iff in Hl as [Ha Hl]. constructor; [by apply code_range|by apply (IH _ Hr)].
Qed.

Lemma planned_vec_ok full lva l l' vs :
  planned full l l' vs -> Forall tx_ok l -> Forall vid_ok l -> (length (enc_vecs lva vs) <= 2000)%nat -> Forall vec_ok vs.
Proof.
  intros H. revert lva. induction H as [l Hl|a l l' vs Ht H IH|a l l' vs Ht He H IH|a l r r' vs Ht He Hr H IH];
    intros lva Htx Hvid Hlen; [constructor|..]; apply Forall_cons_iff in Htx as [Ha Htx]; apply Forall_cons_iff in Hvid as [Hv Hvid].
  - by eapply IH.
  - by eapply IH.
  - apply Forall_app in Htx as [Hl Htx]. apply Forall_app in Hvid as [_ Hvid]. cbn [enc_vecs] in Hlen.
    rewrite length_app in Hlen. constructor; [|apply (IH false); [done|done|lia]].
    unfold enc_vec in Hlen. cbn [vcodes vfirst] in Hlen. rewrite !length_app, !length_be_bytes in Hlen.
    pose proof (length_pack_codes (code a :: (code <$> l))) as Hp.
    split; [simpl; lia|]. split; [cbn [vcodes]; Z.div_mod_to_equations; lia|]. split; [|done].
    constructor; [by apply code_range|by eapply run_codes].
Qed.

(** The events of a vector, each with its VID. *)
Fixpoint numbered (vid : Z) (cs : list Z) : list (Z * Z) :=
  match cs with [] => [] | c :: cs' => (vid, c) :: numbered (u16 (vid + 1)) cs' end.

Fixpoint wire_events (vs : list vec) : list (Z * Z) :=
  match vs with [] => [] | v :: vs' => numbered (vfirst v) (vcodes v) ++ wire_events vs' end.

Definition event_of (a : mvrp_attribute) : Z * Z := (attribute a, code a).

Lemma run_numbered vid l r : run_of vid l r -> numbered (u16 (vid + 1)) (code <$> l) = event_of <$> l.
Proof.
  revert vid. induction l as [|a l IH]; intros vid; [done|]. intros (_ & Ha & Hr). rewrite !fmap_cons. cbn [numbered].
  rewrite (IH _ Hr). unfold event_of at 2. by rewrite Ha.
Qed.

(** The attributes whose events are on the wire: a subsequence of those marked, and all
    mandatory ones unless the frame was full. *)
Lemma planned_sent full l l' vs :
  planned full l l' vs -> exists sent, sent `sublist_of` l /\ Forall (fun a => tx (applicant a) = true) sent /\
    wire_events vs = event_of <$> sent /\
    (full = false -> forall a, a ∈ l -> tx (applicant a) = true -> encode (applicant a) = MRP_ENCODE_YES -> a ∈ sent).
Proof.
  induction 1 as [l Hl|a l l' vs Ht H (sent & H1 & H2 & H3 & H4)|a l l' vs Ht He H (sent & H1 & H2 & H3 & H4)|
                  a l r r' vs Ht He Hr H (sent & H1 & H2 & H3 & H4)].
  - exists []. split; [apply sublist_nil_l|]. split; [constructor|]. split; [done|]. intros -> a Ha Htx _.
    destruct Hl as [Hl|?]; [|done]. exfalso. unfold ntx in Hl. apply nil_length_inv in Hl.
    assert (a ∈ base.filter (fun a => tx (applicant a) = true) l) as Hin by (by apply list_elem_of_filter). rewrite Hl in Hin.
    by apply not_elem_of_nil in Hin.
  - exists sent. split; [by constructor|]. do 2 (split; [done|]). intros Hf b. rewrite elem_of_cons. intros [->|Hb]; [congruence|eauto].
  - exists sent. split; [by constructor|]. do 2 (split; [done|]). intros Hf b. rewrite elem_of_cons. intros [->|Hb]; [congruence|eauto].
  - exists (a :: l ++ sent). split; [apply sublist_skip, sublist_app; done|].
    split. { constructor; [done|]. apply Forall_app. split; [|done]. clear -Hr. revert Hr. generalize (attribute a).
             induction l as [|b l IH]; intros vid; [constructor|]. intros (Hb & _ & Hr). constructor; [done|by eapply IH]. }
    split. { rewrite fmap_cons, fmap_app, <- H3. cbn [wire_events vfirst vcodes numbered]. by rewrite (run_numbered _ _ _ Hr). }
    intros Hf b. rewrite !elem_of_cons, !elem_of_app. intros [->|[Hb|Hb]]; eauto.
Qed.

(** C5. MVRP frames survive the wire: whatever frame [mvrp_txpdu] sends, any other
    station's [mvrp_recv_msg] accepts it and does exactly this: on a LeaveAll it handles
    rLA! first, and then, in order, the received event of every attribute in the frame,
    for the sending station's address.  The attributes in the frame are marked ones, in
    list order, with their VIDs, and all that must be sent unless the frame was full. *)
Theorem mvrp_frame_roundtrip (env : MrpEnv) (s : MS) :
  station_ok s -> Forall tx_ok (attrib_list (app s)) -> Forall vid_ok (attrib_list (app s)) ->
  exists rc s', mvrp_txpdu s = Done (rc, s') /\
    (frames (io s') = frames (io s) \/
     exists frame full vs sent, frames (io s') = frames (io s) ++ [frame] /\ (length frame <= 2000)%nat /\
       sent `sublist_of` attrib_list (app s) /\ Forall (fun a => tx (applicant a) = true) sent /\
       wire_events vs = event_of <$> sent /\
       (full = false -> forall a, a ∈ attrib_list (app s) -> tx (applicant a) = true ->
          encode (applicant a) = MRP_ENCODE_YES -> a ∈ sent) /\
       (full = true -> (395 < ntx (attrib_list (app s)))%nat) /\
       forall (other : MrpEnv) (r : MS),
         mvrp_recv_msg (Some frame) r =
           reception (lva_tx (lva (mdb s)) || bool_decide (vs = [])) (STATION_ADDR (io s)) vs r).
Proof.
  intros Hst Htx Hvid. destruct (wp_done _ _ _ (mvrp_txpdu_spec s Hst Htx)) as (rc & s' & E & _ & H & _).
  exists rc, s'. split; [done|]. destruct H as [H|(full & vs & Hp & Hfull & Hfr & Hlen)]; [by left|].
  destruct (message_body _ _ vs) as [body|] eqn:Eb; [|left; by rewrite Hfr, app_nil_r].
  destruct (planned_sent _ _ _ _ Hp) as (sent & H1 & H2 & H3 & H4). destruct Hst as [Hs1 Hs2].
  specialize (Hlen body eq_refl). right. exists (frame_of (STATION_ADDR (io s)) body), full, vs, sent.
  do 6 (split; [done|]). split; [intros Hf; specialize (Hfull Hf); lia|]. intros other r.
  destruct vs as [|v vs]; cbn [message_body] in Eb.
  - destruct (send_empty_LeaveAll_flag (app s)); simplify_eq. rewrite recv_empty by done. by rewrite bool_decide_true, orb_true_r.
  - simplify_eq. rewrite bool_decide_false, orb_false_r by done. apply recv_vectors; try done.
    apply (planned_vec_ok full (lva_tx (lva (mdb s))) (attrib_list (app s)) (attrib_list (app s'))); try done. rewrite length_frame in Hlen by done. lia.
Qed.
