(* ===== verification/MrpWorld.v ===== *)
(** * MrpWorld: what an application's bookkeeping leaves alone

    Relations between the states of any MRP application, shared by [MmrpEvent] and
    [MsrpEvent]: what no event changes, and what memory, timers and messages to clients
    leave as it is. *)
From stdpp Require Import base gmap list strings numbers.
From S2P Require Import Prelude Text Mrp MrpProps Mvrp.
#[local] Open Scope Z_scope.
#[local] Open Scope st_scope.

(** What no operation of an event changes. *)
Record world {X} (s s' : MrpState X) : Prop := mkWorld {
  mw_clients : clients (mdb s') = clients (mdb s);
  mw_socket : control_socket (io s') = control_socket (io s);
  mw_p2pmac : p2pmac (io s') = p2pmac (io s);
  mw_station : STATION_ADDR (io s') = STATION_ADDR (io s) }.

(** ... and the application's own state stays too. *)
Definition calm {X} (s s' : MrpState X) : Prop := world s s' /\ app s' = app s.

Section world.
Context {X : Type}.
Implicit Types s : MrpState X.

Lemma world_refl s : world s s.
Proof. by split. Qed.
Lemma world_trans s1 s2 s3 : world s1 s2 -> world s2 s3 -> world s1 s3.
Proof. intros [] []. split; congruence. Qed.

Lemma calm_refl s : calm s s.
Proof. split; [apply world_refl|done]. Qed.
Lemma calm_trans s1 s2 s3 : calm s1 s2 -> calm s2 s3 -> calm s1 s3.
Proof. intros [H1 H2] [H3 H4]. split; [by eapply world_trans|congruence]. Qed.
Lemma calm_timer s s' : timer_step s s' -> calm s s'.
Proof. by intros []. Qed.
Lemma calm_lva `{MrpEnv} s s' : lva_step s s' -> calm s s'.
Proof. by intros []. Qed.

Context `{env : MrpEnv}.

Lemma draw_calm {A} (f : nat -> A) (Q : A -> MrpState X -> Prop) s :
  (forall s', calm s s' -> Q (f (clk (io s))) s') -> wp (draw f) Q s.
Proof. intros H. unfold wp, draw. apply H. by split. Qed.

Lemma send_ctl_calm c text n s : wp (mrpd_send_ctl_msg c text n) (fun _ s' => calm s s') s.
Proof.
  unfold mrpd_send_ctl_msg. apply wp_bind, wp_get. destruct (_ =? _); [apply wp_ret, calm_refl|]. by apply wp_modify.
Qed.

Lemma send_to_clients_calm cs text s : wp (send_to_clients cs text) (fun _ s' => calm s s') s.
Proof.
  revert s. induction cs as [|c cs IH]; intros s; simpl; [apply wp_ret, calm_refl|].
  apply wp_bind. eapply wp_mono; [apply send_ctl_calm|]. intros [] s1 H1.
  eapply wp_mono; [apply IH|]. intros [] s2 H2. by eapply calm_trans.
Qed.
End world.

Create HintDb world_db.
#[export] Hint Resolve world_refl calm_refl calm_timer calm_lva : world_db.
