(* ===== verification/MvrpInv.v ===== *)
(** * MvrpInv: the events of MVRP on the attribute list

    What each event does to the list of attributes, the timers and the clients: the
    operations of [Mvrp] are characterised by functions on one attribute, lifted over the
    list; what they leave alone is the relation [step].  The invariant [mvrp_inv] says
    that the list is sorted by VID without duplicates, that nothing waits to be announced
    between events, and that the leave timer runs whenever a registration is leaving. *)
From stdpp Require Import base gmap list strings numbers sorting.
From S2P Require Import Prelude Text Parse Mrp MrpProps Mvrp MvrpWire MvrpDecode.
#[local] Open Scope Z_scope.
#[local] Open Scope st_scope.

(** ** Attributes *)
Definition leaves (a : mvrp_attribute) : bool := bool_decide (reg_state (registrar a) = MRP_LV_STATE).

Definition silent (a : mvrp_attribute) : Prop := notify (registrar a) = MRP_NOTIFY_NONE.

Definition mac_ok (a : mvrp_attribute) : Prop := length (macaddr (registrar a)) = 6%nat.

Record attr_ok (a : mvrp_attribute) : Prop := mkAttrOk {
  ao_vid : vid_ok a;
  ao_tx : tx_ok a;
  ao_mac : mac_ok a }.

(** What an event makes of one attribute: the applicant's and the registrar's step, the
    registrar's part of a request, the end of an announcement. *)
Definition app_next (p2p : Z) (e : mrp_event) (a : mvrp_attribute) : mvrp_attribute :=
  set_applicant (snd (mrp_applicant_fsm p2p (applicant a) e (mrp_registrar_in (registrar a)))) a.

Definition reg_upd (e : mrp_event) (a : mvrp_attribute) : mvrp_attribute :=
  set_registrar (reg_next (registrar a) e) a.

Definition reg_request (e : mrp_event) (a : mvrp_attribute) : mvrp_attribute :=
  match e with
  | MRP_EVENT_NEW => set_registrar (set_notify MRP_NOTIFY_NEW (reg_next (registrar a) MRP_EVENT_BEGIN)) a
  | MRP_EVENT_JOIN => reg_upd MRP_EVENT_RJOININ a
  | MRP_EVENT_LV => reg_upd MRP_EVENT_RLV a
  | _ => reg_upd e a
  end.

Definition hush (a : mvrp_attribute) : mvrp_attribute :=
  set_registrar (set_notify MRP_NOTIFY_NONE (registrar a)) a.

(** Changes of an attribute that keep its VID and its well-formedness. *)
Record keeps (g : mvrp_attribute -> mvrp_attribute) : Prop := mkKeeps {
  kp_vid a : attribute (g a) = attribute a;
  kp_ok a : attr_ok a -> attr_ok (g a) }.

Lemma applicant_step_sends p2p e r s s' t o m :
  applicant_step p2p e r s = Some (s', t, o, m) -> t = true -> m <> MRP_SND_NULL /\ m <> MRP_SND_NONE /\ m <> MRP_SND_LVA.
Proof. intros H ->. destruct e, s; simpl in H; simplify_eq; repeat case_match; simplify_eq; done. Qed.

Lemma vect_event_sends a :
  sndmsg (applicant a) <> MRP_SND_NULL /\ sndmsg (applicant a) <> MRP_SND_NONE /\ sndmsg (applicant a) <> MRP_SND_LVA ->
  is_Some (vect_event a).
Proof. intros (? & ? & ?). unfold vect_event. destruct (sndmsg (applicant a)); eauto; done. Qed.

Lemma keeps_app p2p e : keeps (app_next p2p e).
Proof.
  split; intros a; [done|]. intros [H1 H2 H3]. split; [done| |done]. intros Ht.
  unfold app_next, mrp_applicant_fsm in Ht |- *. cbn [applicant set_applicant] in *.
  destruct (applicant_step _ _ _ _) as [[[[s' t] o] m]|] eqn:E; cbn [snd] in *.
  - apply vect_event_sends. cbn in *. by eapply applicant_step_sends.
  - by destruct (H2 Ht) as [c Hc]; exists c.
Qed.

(** The events on the wire depend on the registrar, whether there is one does not. *)
Lemma tx_ok_registrar a r : tx_ok a -> tx_ok (set_registrar r a).
Proof.
  unfold tx_ok, vect_event. cbn [applicant set_registrar registrar]. intros H Ht. specialize (H Ht).
  destruct (sndmsg (applicant a)); eauto.
Qed.

Lemma keeps_registrar (f : mrp_registrar_attribute -> mrp_registrar_attribute) :
  (forall r, length (macaddr r) = 6%nat -> length (macaddr (f r)) = 6%nat) -> keeps (fun a => set_registrar (f (registrar a)) a).
Proof.
  intros Hf. split; intros a; [done|]. intros [H1 H2 H3]. split; [done|by apply tx_ok_registrar|]. by apply Hf.
Qed.

Lemma macaddr_next r e : macaddr (reg_next r e) = macaddr r.
Proof. unfold reg_next. by destruct (registrar_step _ _) as [[[??]?]|]. Qed.

Lemma keeps_reg e : keeps (reg_upd e).
Proof. apply (keeps_registrar (fun r => reg_next r e)). intros r. by rewrite macaddr_next. Qed.

Lemma keeps_request e : keeps (reg_request e).
Proof.
  destruct e; simpl; try apply keeps_reg.
  apply (keeps_registrar (fun r => set_notify MRP_NOTIFY_NEW (reg_next r MRP_EVENT_BEGIN))). done.
Qed.

Lemma keeps_hush : keeps hush.
Proof. by apply (keeps_registrar (set_notify MRP_NOTIFY_NONE)). Qed.

Lemma keeps_clear : keeps clear_tx.
Proof. split; intros a; [done|]. by intros [H1 H2 H3]. Qed.

Lemma keeps_compose g h : keeps g -> keeps h -> keeps (fun a => g (h a)).
Proof. intros [] []. split; intros; [congruence|auto]. Qed.

Create HintDb mvrp_db.
#[export] Hint Resolve keeps_app keeps_reg keeps_request keeps_hush keeps_clear keeps_compose : mvrp_db.

(** ** Lists of attributes *)
Definition vids (l : list mvrp_attribute) : list Z := attribute <$> l.

Record list_ok (l : list mvrp_attribute) : Prop := mkListOk {
  lo_sorted : StronglySorted Z.lt (vids l);
  lo_attrs : Forall attr_ok l }.

Lemma sorted_sublist (l l' : list Z) : l' `sublist_of` l -> StronglySorted Z.lt l -> StronglySorted Z.lt l'.
Proof.
  induction 1 as [|x l1 l2 Hs IH|x l1 l2 Hs IH]; intros H; [constructor|..];
    apply StronglySorted_inv in H as [H1 H2]; [|auto].
  constructor; [auto|]. rewrite list.Forall_forall in H2 |- *. intros y Hy. apply H2.
  by eapply elem_of_sublist.
Qed.

Lemma list_ok_sublist l l' : l' `sublist_of` l -> list_ok l -> list_ok l'.
Proof.
  intros Hs [H1 H2]. split; [by eapply sorted_sublist; [apply fmap_sublist|]|].
  rewrite list.Forall_forall in H2 |- *. intros a Ha. apply H2. by eapply elem_of_sublist.
Qed.

Lemma list_ok_map g l : keeps g -> list_ok l -> list_ok (g <$> l).
Proof.
  intros [Hv Hg] [H1 H2]. split.
  - unfold vids. rewrite <- list_fmap_compose. by rewrite (list_fmap_ext _ attribute l) by (intros; apply Hv).
  - apply Forall_fmap. eapply Forall_impl; [exact H2|]. intros a. apply Hg.
Qed.

Lemma list_ok_update g before a after :
  keeps g -> list_ok (before ++ a :: after) -> list_ok (before ++ g a :: after).
Proof.
  intros [Hv Hg] [H1 H2]. apply Forall_app in H2 as [H2 H3]. apply Forall_cons_iff in H3 as [H3 H4]. split.
  - unfold vids in *. rewrite fmap_app, fmap_cons in *. by rewrite Hv.
  - apply Forall_app. split; [done|]. constructor; auto.
Qed.

Lemma list_ok_sent l l' : Forall2 sent_or_not l l' -> list_ok l -> list_ok l'.
Proof.
  intros H [H1 H2]. split.
  - replace (vids l') with (vids l); [done|]. clear -H. unfold vids.
    induction H as [|a a' l l' [-> | ->] _ IH]; [done|..]; by rewrite !fmap_cons, IH.
  - clear H1. induction H as [|a a' l l' Ha _ IH]; [done|]. apply Forall_cons_iff in H2 as [H2 H3].
    constructor; [|auto]. destruct Ha as [-> | ->]; [done|]. by apply keeps_clear.
Qed.

Lemma NoDup_vids l : list_ok l -> NoDup (vids l).
Proof.
  intros [H _]. induction H as [|x xs Hl IH Hx]; constructor; [|done]. rewrite list.Forall_forall in Hx.
  intros Hin. specialize (Hx _ Hin). lia.
Qed.

(** ** Lookup and insertion *)
Lemma mvrp_lookup_split l r :
  match mvrp_lookup l r with
  | Some a => exists before after, l = before ++ a :: after /\ attribute a = attribute r /\
      split_vid (attribute r) l = Some (before, a, after) /\ (forall g, update_vid (attribute r) g l = before ++ g a :: after)
  | None => attribute r ∉ vids l /\ split_vid (attribute r) l = None
  end.
Proof.
  induction l as [|a l IH]; cbn [mvrp_lookup split_vid update_vid]; [split; [apply not_elem_of_nil|done]|].
  destruct (Z.eqb_spec (attribute a) (attribute r)) as [E|E].
  - by exists [], l.
  - destruct (mvrp_lookup l r) as [b|].
    + destruct IH as (before & after & -> & H1 & H2 & H3). exists (a :: before), after. rewrite H2.
      split_and!; try done. intros g. by rewrite H3.
    + destruct IH as [H1 ->]. split; [|done]. unfold vids in *. rewrite fmap_cons, not_elem_of_cons. auto.
Qed.

Lemma mvrp_add_split l r :
  attribute r ∉ vids l -> exists before after, l = before ++ after /\ mvrp_add l r = before ++ r :: after /\
    split_vid (attribute r) (mvrp_add l r) = Some (before, r, after) /\
    Forall (fun v => v < attribute r) (vids before) /\ (StronglySorted Z.lt (vids l) -> Forall (fun v => attribute r < v) (vids after)).
Proof.
  induction l as [|a l IH]; intros Hr.
  - exists [], []. simpl. rewrite Z.eqb_refl. split_and!; try done; by constructor.
  - unfold vids in *. rewrite fmap_cons, not_elem_of_cons in Hr. destruct Hr as [Hr1 Hr2].
    destruct (IH Hr2) as (before & after & E & H1 & H2 & H3 & H4). cbn [mvrp_add].
    destruct (Z.ltb_spec (attribute a) (attribute r)) as [Hlt|Hge]; cbn [split_vid].
    + exists (a :: before), after. rewrite E at 1. rewrite H1 at 1. rewrite H2.
      destruct (Z.eqb_spec (attribute a) (attribute r)); [lia|]. split_and!; try done.
      * by constructor.
      * intros Hs. apply H4. by apply StronglySorted_inv in Hs as [??].
    + exists [], (a :: l). rewrite Z.eqb_refl. split_and!; try done.
      intros Hs. apply StronglySorted_inv in Hs as [_ Hs]. constructor; [lia|].
      eapply Forall_impl; [exact Hs|]. simpl. lia.
Qed.

Lemma list_ok_add l r : list_ok l -> attr_ok r -> attribute r ∉ vids l -> list_ok (mvrp_add l r).
Proof.
  intros [H1 H2] Hr Hn. destruct (mvrp_add_split l r Hn) as (before & after & E & -> & _ & H3 & H4). specialize (H4 H1).
  rewrite E in H1, H2. apply Forall_app in H2 as [H2 H5]. split; [|apply Forall_app; split; [done|by constructor]].
  unfold vids in *. rewrite fmap_app in *. rewrite fmap_cons. apply StronglySorted_app_iff in H1 as (H6 & H7 & H8).
  apply StronglySorted_app_iff. split; [done|]. rewrite list.Forall_forall in H3. split; [by constructor|].
  intros x y Hx. rewrite elem_of_cons. intros [->|Hy]; [by apply H3|by apply H8].
Qed.

(** ** What the parts of an event leave alone *)
Definition message : Type := sockaddr_in * string * Z.

(** [env_step ms s s']: the messages [ms] went to clients, the leave timer was not
    stopped, and nothing else changed but the attribute list and the timers' arming. *)
Record env_step (ms : list message) (s s' : MS) : Prop := mkEnvStep {
  es_flag : send_empty_LeaveAll_flag (app s') = send_empty_LeaveAll_flag (app s);
  es_clients : clients (mdb s') = clients (mdb s);
  es_lva : lva (mdb s') = lva (mdb s);
  es_join : join_timer_running (mdb s') = join_timer_running (mdb s);
  es_lv : lv_timer_running (mdb s) = true -> lv_timer_running (mdb s') = true;
  es_frames : frames (io s') = frames (io s);
  es_ctl : ctl (io s') = ctl (io s) ++ ms;
  es_socket : control_socket (io s') = control_socket (io s);
  es_p2pmac : p2pmac (io s') = p2pmac (io s);
  es_station : STATION_ADDR (io s') = STATION_ADDR (io s);
  es_wf : timers_wf s -> timers_wf s' }.

Lemma env_step_refl s : env_step [] s s.
Proof. split; try done. by rewrite app_nil_r. Qed.
Lemma env_step_trans ms1 ms2 s1 s2 s3 : env_step ms1 s1 s2 -> env_step ms2 s2 s3 -> env_step (ms1 ++ ms2) s1 s3.
Proof.
  intros [] []. split; try congruence; [auto| |auto].
  etrans; [eassumption|]. rewrite app_assoc. by f_equal.
Qed.

(** ... and the attribute list too. *)
Definition quiet (ms : list message) (s s' : MS) : Prop :=
  env_step ms s s' /\ attrib_list (app s') = attrib_list (app s).

Lemma quiet_refl s : quiet [] s s.
Proof. split; [apply env_step_refl|done]. Qed.
Lemma quiet_trans ms1 ms2 s1 s2 s3 : quiet ms1 s1 s2 -> quiet ms2 s2 s3 -> quiet (ms1 ++ ms2) s1 s3.
Proof. intros [H1 H2] [H3 H4]. split; [by eapply env_step_trans|congruence]. Qed.

(** Storing the attribute list. *)
Definition with_list (l : list mvrp_attribute) (s : MS) : MS := mkMrp (mdb s) (set_attrib_list l (app s)) (io s).

Lemma env_step_with_list ms s s' l : env_step ms s s' -> env_step ms s (with_list l s').
Proof. intros []. split; try done. intros H. by destruct (es_wf0 H). Qed.

#[export] Hint Resolve env_step_refl env_step_with_list quiet_refl : mvrp_db.

(** Who is told, over which socket, and the kind of link: what the loops do not change. *)
Definition around (s : MS) : list sockaddr_in * Z * Z := (clients (mdb s), control_socket (io s), p2pmac (io s)).

Lemma env_step_around ms s s' : env_step ms s s' -> around s' = around s.
Proof. intros []. unfold around. congruence. Qed.

(** The messages that announce [n] for the attribute [a]. *)
Definition announce (w : list sockaddr_in * Z * Z) (n : mrp_notify) (a : mvrp_attribute) : list message :=
  match notify_verb n with
  | None => []
  | Some verb => if snd (fst w) =? -1 then [] else (fun c => (c, notify_text verb a, MAX_MRPD_CMDSZ)) <$> fst (fst w)
  end.

Lemma announce_set w n a : announce w n (hush a) = announce w n a.
Proof. done. Qed.

Section inv.
Context `{env : MrpEnv}.
Implicit Types s : MS.

Definition memory : Prop := forall n, mrp_malloc n = true.

(** Messages that are exactly [want] unless memory ran out. *)
Definition told (want : list message) (s s' : MS) : Prop := exists ms, quiet ms s s' /\ (memory -> ms = want).
Definition told_env (want : list message) (s s' : MS) : Prop := exists ms, env_step ms s s' /\ (memory -> ms = want).

Lemma told_none s : told [] s s.
Proof. exists []. split; [apply quiet_refl|done]. Qed.
Lemma told_trans w1 w2 s1 s2 s3 : told w1 s1 s2 -> told w2 s2 s3 -> told (w1 ++ w2) s1 s3.
Proof.
  intros (m1 & H1 & H2) (m2 & H3 & H4). exists (m1 ++ m2). split; [by eapply quiet_trans|].
  intros Hm. by rewrite H2, H4.
Qed.
Lemma told_env_trans w1 w2 s1 s2 s3 : told_env w1 s1 s2 -> told_env w2 s2 s3 -> told_env (w1 ++ w2) s1 s3.
Proof.
  intros (m1 & H1 & H2) (m2 & H3 & H4). exists (m1 ++ m2). split; [by eapply env_step_trans|].
  intros Hm. by rewrite H2, H4.
Qed.
Lemma told_weaken w s s' : told w s s' -> told_env w s s'.
Proof. intros (m & [H1 _] & H2). by exists m. Qed.
Lemma told_around w s s' : told_env w s s' -> around s' = around s.
Proof. intros (m & H & _). by eapply env_step_around. Qed.
Lemma told_with_list w s s' l : told_env w s s' -> told_env w s (with_list l s').
Proof. intros (m & H & Hm). exists m. auto with mvrp_db. Qed.
Lemma told_lv w s s' : told_env w s s' -> lv_timer_running (mdb s) = true -> lv_timer_running (mdb s') = true.
Proof. intros (m & [] & _). auto. Qed.

(** ** Notifications *)
Lemma draw_quiet {A} (f : nat -> A) (Q : A -> MS -> Prop) s :
  (forall s', quiet [] s s' -> Q (f (clk (io s))) s') -> wp (draw f) Q s.
Proof.
  intros H. unfold wp, draw. apply H. split; [|done]. split; try done; [by rewrite app_nil_r|].
  intros Hw. by destruct Hw.
Qed.

Lemma send_ctl_spec c text n s :
  wp (mrpd_send_ctl_msg c text n)
    (fun _ s' => quiet (if control_socket (io s) =? -1 then [] else [(c, text, n)]) s s') s.
Proof.
  unfold mrpd_send_ctl_msg. apply wp_bind, wp_get. destruct (control_socket (io s) =? -1).
  - apply wp_ret, quiet_refl.
  - apply wp_modify. split; [|done]. split; try done. intros Hw. by destruct Hw.
Qed.

Lemma send_to_clients_spec cs text s :
  wp (send_to_clients cs text) (fun _ s' =>
    quiet (if control_socket (io s) =? -1 then [] else (fun c => (c, text, MAX_MRPD_CMDSZ)) <$> cs) s s') s.
Proof.
  revert s. induction cs as [|c cs IH]; intros s; simpl.
  - apply wp_ret. destruct (_ =? _); apply quiet_refl.
  - apply wp_bind. eapply wp_mono; [apply send_ctl_spec|]. intros [] s1 H1.
    eapply wp_mono; [apply IH|]. intros [] s2 H2. pose proof (quiet_trans _ _ _ _ _ H1 H2) as H.
    destruct H1 as [[] _]. rewrite es_socket0 in H. by destruct (control_socket (io s) =? -1).
Qed.

Lemma mvrp_send_notifications_spec a n s :
  wp (mvrp_send_notifications a n) (fun _ s' => told (announce (around s) n a) s s') s.
Proof.
  unfold mvrp_send_notifications. apply wp_bind, draw_quiet. intros s1 H1.
  destruct (mrp_malloc (clk (io s))) eqn:E1; cbn [negb].
  2: { apply wp_ret. exists []. split; [done|]. intros Hm. by rewrite Hm in E1. }
  apply wp_bind, draw_quiet. intros s2 H2. apply wp_bind, draw_quiet. intros s3 H3.
  pose proof (quiet_trans _ _ _ _ _ H1 (quiet_trans _ _ _ _ _ H2 H3)) as H. simpl in H.
  destruct (_ && _) eqn:E2; cbn [negb].
  2: { apply wp_ret. exists []. split; [done|]. intros Hm. by rewrite !Hm in E2. }
  unfold announce. destruct (notify_verb n) as [verb|]; [|apply wp_ret; by exists []].
  apply wp_bind, wp_get, wp_bind. eapply wp_mono; [apply send_to_clients_spec|]. intros [] s4 H4.
  apply wp_ret. destruct (H) as [He _].
  exists (if snd (fst (around s)) =? -1 then [] else (fun c => (c, notify_text verb a, MAX_MRPD_CMDSZ)) <$> fst (fst (around s))).
  split; [|done]. pose proof (quiet_trans _ _ _ _ _ H H4) as H5. unfold around. cbn [fst snd].
  destruct He. by rewrite es_clients0, es_socket0 in H5.
Qed.

(** ** Loops over the attributes *)

(** [f] turns each attribute into its image under [g], with the messages [msgs]; a
    registration that becomes leaving has the leave timer. *)
Definition acts (w : list sockaddr_in * Z * Z) (f : mvrp_attribute -> stM MS mvrp_attribute)
    (g : mvrp_attribute -> mvrp_attribute) (msgs : mvrp_attribute -> list message) : Prop :=
  forall a s, around s = w ->
    wp (f a) (fun a' s' => a' = g a /\ told (msgs a) s s' /\
      (leaves a' = true -> leaves a = true \/ lv_timer_running (mdb s') = true)) s.

Lemma map_attribs_spec w f g msgs l s :
  acts w f g msgs -> around s = w ->
  wp (map_attribs f l) (fun l' s' => l' = g <$> l /\ told (concat (msgs <$> l)) s s' /\
    (existsb leaves l' = true -> existsb leaves l = true \/ lv_timer_running (mdb s') = true)) s.
Proof.
  intros Hf. revert s. induction l as [|a l IH]; intros s Hw; simpl.
  { apply wp_ret. split; [done|]. split; [apply told_none|auto]. }
  apply wp_bind. eapply wp_mono; [by apply Hf|]. intros a' s1 (-> & H1 & H2). pose proof (told_weaken _ _ _ H1) as H1'.
  apply wp_bind. eapply wp_mono; [apply IH; by rewrite (told_around _ _ _ H1')|]. intros l' s2 (-> & H3 & H4).
  apply wp_ret. split; [done|]. split; [by eapply told_trans|]. simpl. rewrite !orb_true_iff.
  pose proof (told_lv _ _ _ (told_weaken _ _ _ H3)) as H5. intros [H|H]; [destruct (H2 H)|destruct (H4 H)]; auto.
Qed.

Lemma for_each_spec w f g msgs s :
  acts w f g msgs -> around s = w ->
  wp (for_each_attrib f) (fun _ s' => attrib_list (app s') = g <$> attrib_list (app s) /\
    told_env (concat (msgs <$> attrib_list (app s))) s s' /\
    (existsb leaves (attrib_list (app s')) = true ->
       existsb leaves (attrib_list (app s)) = true \/ lv_timer_running (mdb s') = true)) s.
Proof.
  intros Hf Hw. unfold for_each_attrib, get_list. apply wp_bind, wp_bind, wp_get, wp_ret, wp_bind.
  eapply wp_mono; [by eapply map_attribs_spec|]. intros l' s1 (-> & H1 & H2). apply wp_modify. cbn.
  split; [done|]. split; [|done]. by apply told_with_list, told_weaken.
Qed.

(** ** The state machines of one attribute *)
Hypothesis Hok : timers_ok env.

Lemma timer_quiet s s' :
  timer_step s s' -> join_timer_running (mdb s') = join_timer_running (mdb s) ->
  (lv_timer_running (mdb s) = true -> lv_timer_running (mdb s') = true) -> quiet [] s s'.
Proof. intros [] ??. split; [|congruence]. split; try done; try congruence. by rewrite app_nil_r. Qed.

Lemma acts_applicant w e : acts w (applicant_fsm e) (app_next (snd w) e) (fun _ => []).
Proof.
  intros a s <-. unfold applicant_fsm. apply wp_bind, wp_get, wp_ret. split; [done|]. split; [apply told_none|auto].
Qed.

Lemma acts_registrar w e : acts w (registrar_fsm e) (reg_upd e) (fun _ => []).
Proof.
  intros a s _. unfold registrar_fsm. apply wp_bind. eapply wp_mono; [apply mrp_registrar_fsm_spec|].
  intros [rc r] s' (-> & H1 & H2 & _ & H4 & H5). apply wp_ret. split; [done|]. split.
  - exists []. split; [by apply timer_quiet|done].
  - unfold leaves, reg_upd. cbn. rewrite !bool_decide_eq_true. intros Hl.
    destruct (decide (reg_state (registrar a) = MRP_LV_STATE)); auto.
Qed.

Lemma acts_compose w f1 g1 f2 g2 :
  acts w f1 g1 (fun _ => []) -> acts w f2 g2 (fun _ => []) ->
  acts w (fun a => let! a' := f1 a in f2 a') (fun a => g2 (g1 a)) (fun _ => []).
Proof.
  intros H1 H2 a s Hw. apply wp_bind. eapply wp_mono; [by apply H1|]. intros a1 s1 (-> & H3 & H4).
  eapply wp_mono; [apply H2; by rewrite (told_around _ _ _ (told_weaken _ _ _ H3))|]. intros a2 s2 (-> & H5 & H6).
  split; [done|]. split; [exact (told_trans _ _ _ _ _ H3 H5)|].
  pose proof (told_lv _ _ _ (told_weaken _ _ _ H5)). intros H7. destruct (H6 H7) as [H8|H8]; [destruct (H4 H8)|]; auto.
Qed.

Lemma acts_request w e : acts w (registrar_part e) (reg_request e) (fun _ => []).
Proof.
  destruct e; try exact (acts_registrar w _).
  - intros a s Hw. cbn [registrar_part]. apply wp_bind. eapply wp_mono; [by apply (acts_registrar w)|].
    intros a' s' (-> & H1 & H2). apply wp_ret. split; [done|]. split; [done|]. exact H2.
  - intros a s Hw. cbn [registrar_part]. destruct (decide _); [by apply (acts_registrar w)|].
    eapply wp_mono; [by apply (acts_registrar w)|]. intros a' s' (-> & H1 & H2). done.
Qed.

Lemma acts_notify w : acts w notify_one hush (fun a => announce w (notify (registrar a)) a).
Proof.
  intros a s <-. unfold notify_one. destruct (decide (notify (registrar a) = MRP_NOTIFY_NONE)) as [E|E].
  - apply wp_ret. rewrite E. split; [|split; [apply told_none|auto]].
    destruct a as [v x [st n m]]. cbn in E. by subst n.
  - apply wp_bind. eapply wp_mono; [apply mvrp_send_notifications_spec|]. intros ? s' H. apply wp_ret. auto.
Qed.

(** ** Forgetting attributes *)
Definition kept (l : list mvrp_attribute) : list mvrp_attribute := base.filter (fun a => reclaimable a = false) l.

(** The Leave sent for the attributes of [l] that are forgotten. *)
Definition farewell (w : list sockaddr_in * Z * Z) (a : mvrp_attribute) : list message :=
  if reclaimable a then announce w MRP_NOTIFY_LV a else [].

Lemma kept_cons a l : kept (a :: l) = kept [a] ++ kept l.
Proof. unfold kept. rewrite !list.filter_cons. by destruct (decide _). Qed.

Lemma reclaim_spec before a after s :
  attrib_list (app s) = before ++ a :: after ->
  wp (mvrp_conditional_reclaim before a after) (fun b s' => b = before ++ kept [a] /\
    attrib_list (app s') = before ++ kept [a] ++ after /\ told_env (farewell (around s) a) s s') s.
Proof.
  intros Hl. unfold mvrp_conditional_reclaim, kept, farewell. rewrite list.filter_cons.
  destruct (reclaimable a) eqn:E; simpl.
  - apply wp_bind, wp_modify, wp_bind. set (s1 := mkMrp _ _ _).
    eapply wp_mono; [apply mvrp_send_notifications_spec|]. intros ? s' H. apply wp_ret.
    change (around s1) with (around s) in H. rewrite app_nil_r. split; [done|].
    destruct H as (ms & [H1 H2] & H3). rewrite H2. split; [done|]. exists ms. split; [|done].
    exact (env_step_trans [] ms _ _ _ (env_step_with_list _ _ _ (before ++ after) (env_step_refl s)) H1).
  - apply wp_ret. split; [done|]. split; [by rewrite Hl|]. exists []. by auto with mvrp_db.
Qed.

Lemma reclaim_loop_spec before todo s :
  attrib_list (app s) = before ++ todo ->
  wp (reclaim_loop before todo) (fun _ s' => attrib_list (app s') = before ++ kept todo /\
    told_env (concat (farewell (around s) <$> todo)) s s') s.
Proof.
  revert before s. induction todo as [|a todo IH]; intros before s Hl; simpl.
  { apply wp_ret. split; [done|]. apply told_weaken, told_none. }
  apply wp_bind. eapply wp_mono; [by apply reclaim_spec|]. intros b s1 (-> & H1 & H2).
  eapply wp_mono; [apply IH; by rewrite <- app_assoc|]. intros ? s2 (H3 & H4). rewrite (told_around _ _ _ H2) in H4.
  split; [by rewrite H3, (kept_cons a todo), <- app_assoc|]. by eapply told_env_trans.
Qed.

Lemma lvtimer_loop_spec before todo s :
  attrib_list (app s) = before ++ todo ->
  wp (lvtimer_loop before todo) (fun _ s' =>
    attrib_list (app s') = before ++ kept (reg_upd MRP_EVENT_LVTIMER <$> todo) /\
    told_env (concat (farewell (around s) <$> (reg_upd MRP_EVENT_LVTIMER <$> todo))) s s') s.
Proof.
  revert before s. induction todo as [|a todo IH]; intros before s Hl; cbn [lvtimer_loop].
  { apply wp_ret. split; [done|]. apply told_weaken, told_none. }
  rewrite !fmap_cons. apply wp_bind. eapply wp_mono; [by apply (acts_registrar (around s))|]. intros a' s1 (-> & H1 & _).
  apply wp_bind, wp_modify, wp_bind. set (s2 := mkMrp _ _ _).
  assert (told_env [] s s2) as H2 by (apply (told_with_list _ _ _ _ (told_weaken _ _ _ H1))).
  eapply wp_mono; [by apply reclaim_spec|]. intros b s3 (-> & H3 & H4).
  pose proof (told_env_trans _ _ _ _ _ H2 H4) as H5. simpl in H5.
  eapply wp_mono; [apply IH; by rewrite <- app_assoc|]. intros ? s4 (H6 & H7).
  rewrite (told_around _ _ _ H5) in H7. rewrite (told_around _ _ _ H2) in H5.
  split; [by rewrite H6, (kept_cons (reg_upd MRP_EVENT_LVTIMER a) (reg_upd MRP_EVENT_LVTIMER <$> todo)), <- app_assoc|]. by eapply told_env_trans.
Qed.
End inv.
