(* ===== verification/MvrpEvent.v ===== *)
(** * MvrpEvent: what an MVRP event does

    [event_list] is the attribute list after an event as a function of the list before,
    and [event_bye] the Leave messages of the attributes it forgets.  [mvrp_event]
    computes them, announces the rest, and keeps the invariant [mvrp_inv]. *)
From stdpp Require Import base gmap list strings numbers sorting.
From S2P Require Import Prelude Text Parse Mrp MrpProps Mvrp MvrpWire MvrpDecode.
From S2P Require Import MvrpInv.
#[local] Open Scope Z_scope.
#[local] Open Scope st_scope.

(** ** The list after an event *)
Definition attribute_request (p2p : Z) (e : mrp_event) (a : mvrp_attribute) : mvrp_attribute :=
  reg_request e (app_next p2p e a).

(** The list and the attribute an event for [r] works on: [r] is added, or its address
    stored in the attribute that is there. *)
Definition event_target (e : mrp_event) (r : mvrp_attribute) (l : list mvrp_attribute)
    : option (list mvrp_attribute) :=
  match mvrp_lookup l r with
  | None => if decide (e = MRP_EVENT_RMT) then None else Some (mvrp_add l r)
  | Some _ => Some (snd (mvrp_merge l r))
  end.

(** [None] for an event that is no attribute event. *)
Definition attribute_events (e : mrp_event) : bool :=
  match e with
  | MRP_EVENT_NEW | MRP_EVENT_JOIN | MRP_EVENT_RNEW | MRP_EVENT_RJOININ | MRP_EVENT_RJOINMT
  | MRP_EVENT_LV | MRP_EVENT_RIN | MRP_EVENT_RMT | MRP_EVENT_RLV => true
  | _ => false
  end.

(** The attribute with those before and after it, once the event has reached it. *)
Definition event_at (p2p : Z) (e : mrp_event) (ra : option mvrp_attribute) (l : list mvrp_attribute)
    : option (list mvrp_attribute * mvrp_attribute * list mvrp_attribute) :=
  r ← ra; l' ← event_target e r l; '(b, a, c) ← split_vid (attribute r) l'; Some (b, attribute_request p2p e a, c).

Definition event_list (p2p : Z) (e : mrp_event) (ra : option mvrp_attribute) (l : list mvrp_attribute)
    : list mvrp_attribute :=
  match e with
  | MRP_EVENT_LVATIMER => (fun a => reg_upd MRP_EVENT_TXLA (app_next p2p MRP_EVENT_TXLA a)) <$> l
  | MRP_EVENT_RLA => (fun a => reg_upd MRP_EVENT_RLA (app_next p2p MRP_EVENT_RLA a)) <$> l
  | MRP_EVENT_TX | MRP_EVENT_PERIODIC => app_next p2p e <$> l
  | MRP_EVENT_LVTIMER => kept (reg_upd MRP_EVENT_LVTIMER <$> l)
  | _ => if attribute_events e then match event_at p2p e ra l with
                                    | Some (b, a, c) => b ++ kept [a] ++ c
                                    | None => l
                                    end
         else l
  end.

Definition event_bye (w : list sockaddr_in * Z * Z) (e : mrp_event) (ra : option mvrp_attribute)
    (l : list mvrp_attribute) : list message :=
  match e with
  | MRP_EVENT_LVTIMER => concat (farewell w <$> (reg_upd MRP_EVENT_LVTIMER <$> l))
  | _ => if attribute_events e then match event_at (snd w) e ra l with
                                    | Some (_, a, _) => farewell w a
                                    | None => []
                                    end
         else []
  end.

(** ** The effect of an event on everything else *)
Record mvrp_step (ms : list message) (s s' : MS) : Prop := mkMvrpStep {
  vs_clients : clients (mdb s') = clients (mdb s);
  vs_ctl : ctl (io s') = ctl (io s) ++ ms;
  vs_socket : control_socket (io s') = control_socket (io s);
  vs_p2pmac : p2pmac (io s') = p2pmac (io s);
  vs_station : STATION_ADDR (io s') = STATION_ADDR (io s);
  vs_wf : timers_wf s -> timers_wf s' }.

Lemma mvrp_step_refl s : mvrp_step [] s s.
Proof. split; try done. by rewrite app_nil_r. Qed.
Lemma mvrp_step_trans m1 m2 s1 s2 s3 : mvrp_step m1 s1 s2 -> mvrp_step m2 s2 s3 -> mvrp_step (m1 ++ m2) s1 s3.
Proof.
  intros [] []. split; try congruence; [|auto]. etrans; [eassumption|]. rewrite app_assoc. by f_equal.
Qed.
Lemma mvrp_step_around ms s s' : mvrp_step ms s s' -> around s' = around s.
Proof. intros []. unfold around. congruence. Qed.
Lemma mvrp_step_env ms s s' : env_step ms s s' -> mvrp_step ms s s'.
Proof. by intros []. Qed.
Lemma mvrp_step_timer s s' : timer_step s s' -> mvrp_step [] s s'.
Proof. intros []. split; try done; try congruence. by rewrite app_nil_r. Qed.
Lemma mvrp_step_lva s s' : lva_step s s' -> mvrp_step [] s s'.
Proof. intros []. split; try done; try congruence. by rewrite app_nil_r. Qed.
Lemma mvrp_step_tx s s' : tx_step s s' -> mvrp_step [] s s'.
Proof.
  intros []. destruct txs_db as [E|E]; split; rewrite ?E, ?app_nil_r; try done;
    intros []; split; rewrite ?E, ?txs_armed; done.
Qed.

Lemma leaves_sent l l' : Forall2 sent_or_not l l' -> existsb leaves l' = existsb leaves l.
Proof. induction 1 as [|a a' l l' [-> | ->] _ IH]; [done|..]; simpl; by rewrite IH. Qed.

Lemma concat_none {A B} (l : list A) : concat ((fun _ => []) <$> l) = @nil B.
Proof. by induction l. Qed.

(** ** The attribute an event works on *)
Lemma split_vid_replace vid l b a c a' :
  split_vid vid l = Some (b, a, c) -> attribute a' = attribute a -> split_vid vid (b ++ a' :: c) = Some (b, a', c).
Proof.
  revert b. induction l as [|x l IH]; intros b; [done|]. cbn [split_vid]. destruct (Z.eqb_spec (attribute x) vid) as [E|E].
  - intros [= <- <- <-] Ha. cbn. rewrite Ha. by apply Z.eqb_eq in E as ->.
  - destruct (split_vid vid l) as [[[b' x'] c']|] eqn:Es; [|done]. intros [= <- <- <-] Ha. cbn.
    apply Z.eqb_neq in E as ->. by rewrite (IH b') by done.
Qed.

Definition merged (r a : mvrp_attribute) : mvrp_attribute :=
  set_registrar (set_macaddr (macaddr (registrar r)) (registrar a)) a.

Lemma event_target_split e r l l' :
  event_target e r l = Some l' ->
  exists b a c, l' = b ++ a :: c /\ attribute a = attribute r /\ split_vid (attribute r) l' = Some (b, a, c) /\
    ((exists a0, l = b ++ a0 :: c /\ mvrp_lookup l r = Some a0 /\ a = merged r a0) \/
     (l = b ++ c /\ a = r /\ mvrp_lookup l r = None /\ e <> MRP_EVENT_RMT /\ l' = mvrp_add l r)).
Proof.
  unfold event_target, mvrp_merge. pose proof (mvrp_lookup_split l r) as H. destruct (mvrp_lookup l r) as [a0|].
  - destruct H as (b & c & -> & H1 & H2 & H3). cbn [snd]. rewrite H3. intros [= <-].
    exists b, (merged r a0), c. split_and!; [done|done|by eapply split_vid_replace|]. left. by exists a0.
  - destruct H as [H1 _]. destruct (decide _); [done|]. intros [= <-].
    destruct (mvrp_add_split l r H1) as (b & c & -> & H2 & H3 & _). exists b, r, c. split_and!; [done..|]. by right.
Qed.

(** A fresh attribute, as the callers of [mvrp_event] make it. *)
Record fresh (r : mvrp_attribute) : Prop := mkFresh {
  fr_ok : attr_ok r;
  fr_silent : silent r;
  fr_leaves : leaves r = false }.

Lemma fresh_alloc vid mac : 0 <= vid < 65536 -> length mac = 6%nat -> fresh (mvrp_alloc vid mac).
Proof. by split. Qed.

Lemma list_ok_target e r l l' : event_target e r l = Some l' -> fresh r -> list_ok l -> list_ok l'.
Proof.
  intros H [Hr _ _] Hl. destruct (event_target_split _ _ _ _ H) as (b & a & c & -> & H1 & _ & [(a0 & -> & _ & ->)|(-> & -> & H2 & _ & H3)]).
  - pose proof (lo_attrs _ Hl) as Ha. apply Forall_app in Ha as [_ Ha]. apply Forall_cons_iff in Ha as [Ha _].
    assert (keeps (merged r)) as Hk.
    { apply (keeps_registrar (set_macaddr (macaddr (registrar r)))). intros x _. by destruct Hr. }
    by apply list_ok_update.
  - rewrite H3. apply list_ok_add; [done|done|]. pose proof (mvrp_lookup_split (b ++ c) r) as H4. rewrite H2 in H4.
    by destruct H4.
Qed.

Lemma keeps_attribute p2p e : keeps (attribute_request p2p e).
Proof. apply (keeps_compose (reg_request e)); [apply keeps_request|apply keeps_app]. Qed.

Lemma event_at_target p2p e r l b a c :
  event_at p2p e (Some r) l = Some (b, a, c) ->
  exists l' a0, event_target e r l = Some l' /\ l' = b ++ a0 :: c /\ split_vid (attribute r) l' = Some (b, a0, c) /\
    a = attribute_request p2p e a0.
Proof.
  unfold event_at. cbn. destruct (event_target e r l) as [l'|] eqn:E; [|done]. cbn.
  destruct (event_target_split _ _ _ _ E) as (b' & a0 & c' & H1 & H2 & H3 & _). rewrite H3. cbn. intros [= -> <- ->].
  by exists l', a0.
Qed.

Lemma event_list_at p2p e r l :
  attribute_events e = true -> event_list p2p e (Some r) l =
    match event_at p2p e (Some r) l with Some (b, a, c) => b ++ kept [a] ++ c | None => l end.
Proof. by destruct e. Qed.

Lemma event_bye_at w e r l :
  attribute_events e = true -> event_bye w e (Some r) l =
    match event_at (snd w) e (Some r) l with Some (_, a, _) => farewell w a | None => [] end.
Proof. by destruct e. Qed.

Lemma list_ok_event p2p e ra l :
  list_ok l -> (forall r, ra = Some r -> fresh r) -> list_ok (event_list p2p e ra l).
Proof.
  intros Hl Hr. destruct (attribute_events e) eqn:E.
  - destruct ra as [r|]; [|by destruct e]. specialize (Hr r eq_refl). rewrite event_list_at by done.
    destruct (event_at p2p e (Some r) l) as [[[b a] c]|] eqn:Ea; [|done].
    apply event_at_target in Ea as (l' & a0 & H1 & -> & _ & ->). apply (list_ok_target _ _ _ _ H1 Hr) in Hl.
    eapply list_ok_sublist; [|apply (list_ok_update _ _ _ _ (keeps_attribute p2p e) Hl)].
    apply sublist_app; [done|]. change (attribute_request p2p e a0 :: c) with ([attribute_request p2p e a0] ++ c).
    apply sublist_app; [apply sublist_filter|done].
  - destruct e; try done; cbn [event_list attribute_events]; try (apply list_ok_map; [by auto with mvrp_db|done]).
    all: eapply list_ok_sublist; [apply sublist_filter|]; apply list_ok_map; [apply keeps_reg|done].
Qed.

Section events.
Context `{env : MrpEnv}.
Implicit Types s : MS.
Hypothesis Hok : timers_ok env.
Hypothesis Hrand : forall n, 0 <= mrp_random n.

(** The messages sent are [want], unless memory ran out. *)
Definition told_step (want : list message) (s s' : MS) : Prop :=
  exists ms, mvrp_step ms s s' /\ (memory -> ms = want).

Lemma told_step_trans w1 w2 s1 s2 s3 : told_step w1 s1 s2 -> told_step w2 s2 s3 -> told_step (w1 ++ w2) s1 s3.
Proof.
  intros (m1 & H1 & H2) (m2 & H3 & H4). exists (m1 ++ m2). split; [by eapply mvrp_step_trans|].
  intros Hm. by rewrite H2, H4.
Qed.
Lemma told_step_env w s s' : told_env w s s' -> told_step w s s'.
Proof. intros (m & H & Hm). exists m. split; [by apply mvrp_step_env|done]. Qed.
Lemma told_step_none s s' : mvrp_step [] s s' -> told_step [] s s'.
Proof. by exists []. Qed.
Lemma told_step_around w s s' : told_step w s s' -> around s' = around s.
Proof. intros (m & H & _). by eapply mvrp_step_around. Qed.

(** What the [switch] does. *)
Record switched (e : mrp_event) (ra : option mvrp_attribute) (s s' : MS) : Prop := mkSwitched {
  sw_list : Forall2 sent_or_not (event_list (p2pmac (io s)) e ra (attrib_list (app s))) (attrib_list (app s'));
  sw_step : told_step (event_bye (around s) e ra (attrib_list (app s))) s s';
  sw_leaves : (existsb leaves (attrib_list (app s)) = true -> lv_timer_running (mdb s) = true) ->
    existsb leaves (attrib_list (app s')) = true -> lv_timer_running (mdb s') = true;
  sw_lva : lva_state (lva (mdb s)) = MRP_TIMER_PASSIVE -> lva_state (lva (mdb s')) = MRP_TIMER_PASSIVE;
  sw_flag : send_empty_LeaveAll_flag (app s) = false -> send_empty_LeaveAll_flag (app s') = false }.

Notation Inv s := (station_ok s /\ list_ok (attrib_list (app s))).

(** The state machines over all attributes, without messages. *)
Lemma sweep_spec f g s :
  acts (around s) f g (fun _ => []) ->
  wp (for_each_attrib f) (fun _ s' => attrib_list (app s') = g <$> attrib_list (app s) /\ told_env [] s s' /\
    (existsb leaves (attrib_list (app s')) = true ->
       existsb leaves (attrib_list (app s)) = true \/ lv_timer_running (mdb s') = true)) s.
Proof.
  intros Hf. eapply wp_mono; [by eapply for_each_spec|]. intros ? s'. by rewrite concat_none.
Qed.

Lemma event_periodic_spec ra s :
  wp (event_switch MRP_EVENT_PERIODIC ra) (fun r s' => r = (true, 0) /\ switched MRP_EVENT_PERIODIC ra s s') s.
Proof.
  cbn [event_switch]. unfold get_list. apply wp_bind, wp_bind, wp_get, wp_ret, wp_bind.
  assert (wp (if decide (attrib_list (app s) = []) then st_ret 0 else mrp_jointimer_start)
    (fun _ s' => timer_step s s' /\ lv_timer_running (mdb s') = lv_timer_running (mdb s)) s) as Hj.
  { destruct (decide _); [by apply wp_ret|]. eapply wp_mono; [apply mrp_jointimer_start_spec|]. by intros _ s' (? & ? & _). }
  eapply wp_mono; [exact Hj|]. intros _ s1 (H1 & H2). pose proof (mvrp_step_timer _ _ H1) as H1'.
  apply wp_bind. eapply wp_mono; [apply sweep_spec, acts_applicant|]. intros _ s2 (H3 & H4 & H5). apply wp_ret.
  split; [done|]. destruct H1. rewrite ts_app in *. split.
  - rewrite H3. cbn [event_list]. unfold around. cbn [snd]. rewrite ts_p2pmac. apply sent_or_not_refl.
  - exact (told_step_trans [] [] _ _ _ (told_step_none _ _ H1') (told_step_env _ _ _ H4)).
  - intros H6 H7. destruct (H5 H7) as [H8|H8]; [|done]. apply (told_lv _ _ _ H4). rewrite H2. auto.
  - destruct H4 as (ms & [] & _). by rewrite es_lva, ts_lva.
  - destruct H4 as (ms & [] & _). by rewrite es_flag, ts_app.
Qed.

(** A timer operation first, then the rest. *)
Lemma leaves_later s s1 s2 (w : list message) :
  told_env w s1 s2 -> lv_timer_running (mdb s1) = lv_timer_running (mdb s) ->
  (existsb leaves (attrib_list (app s2)) = true -> existsb leaves (attrib_list (app s)) = true \/ lv_timer_running (mdb s2) = true) ->
  (existsb leaves (attrib_list (app s)) = true -> lv_timer_running (mdb s) = true) ->
  existsb leaves (attrib_list (app s2)) = true -> lv_timer_running (mdb s2) = true.
Proof. intros H1 H2 H3 H4 H5. destruct (H3 H5); [|done]. apply (told_lv _ _ _ H1). rewrite H2. auto. Qed.

Lemma event_rla_spec ra s :
  wp (event_switch MRP_EVENT_RLA ra) (fun r s' => r = (true, 0) /\ switched MRP_EVENT_RLA ra s s') s.
Proof.
  cbn [event_switch]. apply wp_bind. eapply wp_mono; [apply mrp_jointimer_start_spec|]. intros _ s1 (H1 & H2 & _).
  pose proof (told_step_none _ _ (mvrp_step_timer _ _ H1)) as H1'.
  apply wp_bind. eapply wp_mono; [apply sweep_spec, acts_compose; [apply acts_applicant|by apply acts_registrar]|].
  intros _ s2 (H3 & H4 & H5). apply wp_bind. eapply wp_mono; [by apply mrp_lvatimer_fsm_spec|].
  intros _ s3 (H6 & H7 & _). pose proof (told_step_none _ _ (mvrp_step_lva _ _ H7)) as H7'. apply wp_ret.
  split; [done|]. destruct H1. rewrite ts_app in *. split.
  - destruct H7. rewrite ls_app, H3. cbn [event_list]. unfold around. cbn [snd]. rewrite ts_p2pmac. apply sent_or_not_refl.
  - exact (told_step_trans [] [] _ _ _ H1' (told_step_trans [] [] _ _ _ (told_step_env _ _ _ H4) H7')).
  - destruct H7. rewrite ls_app, ls_lv. by eapply leaves_later.
  - by rewrite H6.
  - destruct H7, H4 as (ms & [] & _). by rewrite ls_app, es_flag, ts_app.
Qed.

(** A transmission, of attributes that are in order. *)
Lemma txpdu_spec s :
  station_ok s -> list_ok (attrib_list (app s)) ->
  wp mvrp_txpdu (fun _ s' => tx_step s s' /\ told_step [] s s') s.
Proof.
  intros Hs [_ Hl]. eapply wp_mono; [apply mvrp_txpdu_spec; [done|]|].
  - eapply Forall_impl; [exact Hl|]. by intros a [].
  - intros _ s' (H1 & _). split; [done|]. by apply told_step_none, mvrp_step_tx.
Qed.

Lemma station_kept w s s' : told_step w s s' -> station_ok s -> station_ok s'.
Proof. intros (ms & [] & _) []. split; by rewrite vs_station0. Qed.

Lemma event_tx_spec ra s :
  station_ok s -> list_ok (attrib_list (app s)) ->
  wp (event_switch MRP_EVENT_TX ra) (fun r s' => r = (true, 0) /\ switched MRP_EVENT_TX ra s s') s.
Proof.
  intros Hst Hl. cbn [event_switch]. apply wp_bind. eapply wp_mono; [apply mrp_jointimer_stop_spec|]. intros _ s1 (H1 & H2 & _).
  pose proof (told_step_none _ _ (mvrp_step_timer _ _ H1)) as H1'.
  apply wp_bind. eapply wp_mono; [apply sweep_spec, acts_applicant|]. intros _ s2 (H3 & H4 & H5).
  pose proof (told_step_trans _ _ _ _ _ H1' (told_step_env _ _ _ H4)) as H4'.
  unfold get_list. apply wp_bind, wp_bind, wp_get, wp_ret, wp_bind.
  eapply wp_mono; [apply txpdu_spec; [by eapply station_kept|]|].
  { rewrite H3. apply list_ok_map; [apply keeps_app|]. by rewrite (ts_app _ _ H1). }
  intros _ s3 (H6 & H6'). apply wp_bind. set (count := foldl _ _ _).
  assert (wp (if count =? 0 then st_ret 0 else mrp_jointimer_start)
    (fun _ s' => timer_step s3 s' /\ lv_timer_running (mdb s') = lv_timer_running (mdb s3)) s3) as Hj.
  { destruct (_ =? _); [by apply wp_ret|]. eapply wp_mono; [apply mrp_jointimer_start_spec|]. by intros _ s' (? & ? & _). }
  eapply wp_mono; [exact Hj|]. intros _ s4 (H7 & H8). pose proof (told_step_none _ _ (mvrp_step_timer _ _ H7)) as H7'.
  apply wp_ret. split; [done|]. destruct H1, H6, H7. rewrite ts_app in *. split.
  - rewrite ts_app0. cbn [event_list]. rewrite H3 in txs_list. unfold around in txs_list. cbn [snd] in txs_list.
    by rewrite ts_p2pmac in txs_list.
  - exact (told_step_trans [] [] _ _ _ H4' (told_step_trans [] [] _ _ _ H6' H7')).
  - rewrite ts_app0, (leaves_sent _ _ txs_list), H8. intros H9 H10.
    replace (lv_timer_running (mdb s3)) with (lv_timer_running (mdb s2)) by (by destruct txs_db as [-> | ->]).
    eapply leaves_later; [exact H4| |exact H5| |exact H10]; [done|]. exact H9.
  - destruct H4 as (ms & [] & _). rewrite ts_lva0. destruct txs_db as [-> | ->]; simpl; by rewrite es_lva, ts_lva.
  - destruct H4 as (ms & [] & _). by rewrite ts_app0, txs_flag, es_flag, ts_app.
Qed.

Lemma told_step_flag b w s s' :
  told_step w s s' -> told_step w s (mkMrp (mdb s') (set_flag b (app s')) (io s')).
Proof.
  intros (ms & [] & H). exists ms. split; [|done]. split; try done. intros Hw. by destruct (vs_wf0 Hw).
Qed.

(** Both timers are stopped, all attributes see TXLA!, and the leave-all machine goes
    through its active state. *)
Lemma event_leaveall_prepared s :
  station_ok s -> list_ok (attrib_list (app s)) ->
  wp (mrp_lvatimer_stop ;! mrp_jointimer_stop ;!
      for_each_attrib (fun a => let! a' := applicant_fsm MRP_EVENT_TXLA a in registrar_fsm MRP_EVENT_TXLA a') ;!
      mrp_lvatimer_fsm MRP_EVENT_LVATIMER)
    (fun _ s' => told_step [] s s' /\
      attrib_list (app s') = event_list (p2pmac (io s)) MRP_EVENT_LVATIMER None (attrib_list (app s)) /\
      ((existsb leaves (attrib_list (app s)) = true -> lv_timer_running (mdb s) = true) ->
       existsb leaves (attrib_list (app s')) = true -> lv_timer_running (mdb s') = true)) s.
Proof.
  intros Hst Hl. apply wp_bind. eapply wp_mono; [apply mrp_lvatimer_stop_spec|]. intros _ s1 (H1 & _ & H2 & _).
  apply wp_bind. eapply wp_mono; [apply mrp_jointimer_stop_spec|]. intros _ s2 (H3 & H4 & _).
  assert (timer_step s s2) as Ht by (by etrans). pose proof (told_step_none _ _ (mvrp_step_timer _ _ Ht)) as Ht'.
  apply wp_bind. eapply wp_mono; [apply sweep_spec, acts_compose; [apply acts_applicant|by apply acts_registrar]|].
  intros _ s3 (H5 & H6 & H7). eapply wp_mono; [by apply mrp_lvatimer_fsm_spec|]. intros _ s4 (_ & H8 & _).
  pose proof (told_step_none _ _ (mvrp_step_lva _ _ H8)) as H8'. destruct Ht, H8. rewrite ts_app in *. split; [|split].
  - exact (told_step_trans [] [] _ _ _ Ht' (told_step_trans [] [] _ _ _ (told_step_env _ _ _ H6) H8')).
  - rewrite ls_app, H5. cbn [event_list]. unfold around. cbn [snd]. by rewrite ts_p2pmac.
  - rewrite ls_app, ls_lv. eapply leaves_later; [exact H6|congruence|exact H7].
Qed.

Lemma keeps_leaveall p2p : keeps (fun a => reg_upd MRP_EVENT_TXLA (app_next p2p MRP_EVENT_TXLA a)).
Proof. apply (keeps_compose (reg_upd MRP_EVENT_TXLA)); [apply keeps_reg|apply keeps_app]. Qed.

Lemma event_lvatimer_spec ra s :
  station_ok s -> list_ok (attrib_list (app s)) ->
  wp (event_switch MRP_EVENT_LVATIMER ra) (fun r s' => r = (true, 0) /\ switched MRP_EVENT_LVATIMER ra s s') s.
Proof.
  intros Hst Hl. cbn [event_switch].
  set (k := upd_app (set_flag true) ;! _).
  assert (forall Q, wp ((mrp_lvatimer_stop ;! mrp_jointimer_stop ;!
      for_each_attrib (fun a => let! a' := applicant_fsm MRP_EVENT_TXLA a in registrar_fsm MRP_EVENT_TXLA a') ;!
      mrp_lvatimer_fsm MRP_EVENT_LVATIMER) ;! k) Q s -> wp (mrp_lvatimer_stop ;! mrp_jointimer_stop ;!
      for_each_attrib (fun a => let! a' := applicant_fsm MRP_EVENT_TXLA a in registrar_fsm MRP_EVENT_TXLA a') ;!
      mrp_lvatimer_fsm MRP_EVENT_LVATIMER ;! k) Q s) as Hassoc.
  { intros Q. unfold wp at 1. rewrite st_bind_assoc. unfold wp, st_bind.
    destruct (mrp_lvatimer_stop s) as [[? ?]|]; [|done]. destruct (mrp_jointimer_stop _) as [[? ?]|]; [|done].
    by destruct (for_each_attrib _ _) as [[? ?]|]. }
  apply Hassoc. clear Hassoc. apply wp_bind. eapply wp_mono; [by apply event_leaveall_prepared|].
  intros _ s1 (H1 & H2 & H3). subst k. apply wp_bind, wp_modify, wp_bind. set (s2 := mkMrp _ _ _).
  assert (told_step [] s s2) as H2' by (by apply told_step_flag).
  eapply wp_mono; [by apply mrp_lvatimer_fsm_spec|]. intros _ s3 (H4 & H5 & _).
  pose proof (told_step_trans [] [] _ _ _ H2' (told_step_none _ _ (mvrp_step_lva _ _ H5))) as H5'.
  apply wp_bind. destruct H5. eapply wp_mono; [apply txpdu_spec; [by eapply station_kept|]|].
  { rewrite ls_app. cbn. rewrite H2. apply list_ok_map; [apply keeps_leaveall|done]. }
  intros _ s4 (H6 & H6'). apply wp_bind, wp_modify, wp_ret. split; [done|]. destruct H6. rewrite ls_app in txs_list. cbn in txs_list.
  split; cbn -[leaves event_list event_bye].
  - by rewrite H2 in txs_list.
  - apply told_step_flag. exact (told_step_trans [] [] _ _ _ H5' H6').
  - rewrite (leaves_sent _ _ txs_list). intros H7 H8.
    replace (lv_timer_running (mdb s4)) with (lv_timer_running (mdb s3)) by (by destruct txs_db as [-> | ->]).
    rewrite ls_lv. by apply H3.
  - intros _. destruct txs_db as [-> | ->]; cbn; rewrite H4; cbn; by destruct (lva_state (lva (mdb s1))).
  - done.
Qed.

Lemma leaves_expired a : leaves (reg_upd MRP_EVENT_LVTIMER a) = false.
Proof. unfold leaves, reg_upd, reg_next. cbn. destruct (reg_state (registrar a)) eqn:E; cbn; by rewrite ?E. Qed.

Lemma leaves_sublist l l' : l' `sublist_of` l -> existsb leaves l = false -> existsb leaves l' = false.
Proof.
  induction 1 as [|a l1 l2 _ IH|a l1 l2 _ IH]; simpl; [done|..]; rewrite !orb_false_iff; intros [H1 H2]; auto.
Qed.

Lemma event_lvtimer_spec ra s :
  wp (event_switch MRP_EVENT_LVTIMER ra) (fun r s' => r = (true, 0) /\ switched MRP_EVENT_LVTIMER ra s s') s.
Proof.
  cbn [event_switch]. apply wp_bind. eapply wp_mono; [apply mrp_lvtimer_stop_spec|]. intros _ s1 (H1 & _).
  pose proof (told_step_none _ _ (mvrp_step_timer _ _ H1)) as H1'.
  unfold get_list. apply wp_bind, wp_bind, wp_get, wp_ret, wp_bind.
  eapply wp_mono; [by apply lvtimer_loop_spec|]. intros _ s2 (H2 & H3). apply wp_ret. split; [done|].
  rewrite (told_step_around _ _ _ H1') in H3. destruct H1. rewrite ts_app in *. split.
  - rewrite H2. apply sent_or_not_refl.
  - exact (told_step_trans [] _ _ _ _ H1' (told_step_env _ _ _ H3)).
  - intros _. rewrite H2. cbn [Datatypes.app]. intros H4. exfalso.
    assert (existsb leaves (kept (reg_upd MRP_EVENT_LVTIMER <$> attrib_list (app s))) = false) as H5; [|congruence].
    apply (leaves_sublist (reg_upd MRP_EVENT_LVTIMER <$> attrib_list (app s))); [apply sublist_filter|].
    clear. induction (attrib_list (app s)) as [|a l IH]; [done|]. rewrite fmap_cons. cbn [existsb]. by rewrite leaves_expired.
  - destruct H3 as (ms & [] & _). by rewrite es_lva, ts_lva.
  - destruct H3 as (ms & [] & _). by rewrite es_flag, ts_app.
Qed.

(** ** Attribute events *)
Lemma existsb_split {A} (f : A -> bool) b a c :
  existsb f (b ++ a :: c) = true <-> existsb f (b ++ c) = true \/ f a = true.
Proof. rewrite !existsb_app. cbn [existsb]. rewrite !orb_true_iff. tauto. Qed.

Lemma attribute_event_spec e vid before a after s :
  split_vid vid (attrib_list (app s)) = Some (before, a, after) -> attrib_list (app s) = before ++ a :: after ->
  let a' := attribute_request (p2pmac (io s)) e a in
  wp (attribute_event e vid) (fun _ s' => attrib_list (app s') = before ++ kept [a'] ++ after /\
    told_env (farewell (around s) a') s s' /\
    (existsb leaves (attrib_list (app s')) = true ->
       existsb leaves (attrib_list (app s)) = true \/ lv_timer_running (mdb s') = true)) s.
Proof.
  intros Hs Hl a'. unfold attribute_event, get_list. apply wp_bind, wp_bind, wp_get, wp_ret. rewrite Hs.
  assert (acts (around s) (fun a => let! a1 := applicant_fsm e a in registrar_part e a1)
            (attribute_request (p2pmac (io s)) e) (fun _ => [])) as Ha
    by exact (acts_compose _ _ _ _ _ (acts_applicant _ e) (acts_request Hok _ e)).
  assert (forall k Q, wp (let! a2 := (let! a1 := applicant_fsm e a in registrar_part e a1) in k a2) Q s ->
    wp (let! a1 := applicant_fsm e a in let! a2 := registrar_part e a1 in k a2) (Q : unit -> MS -> Prop) s) as Hassoc
    by (intros k Q; unfold wp; by rewrite st_bind_assoc).
  apply Hassoc. clear Hassoc. apply wp_bind. eapply wp_mono; [by apply Ha|]. intros a2 s1 (-> & H1 & H2).
  fold a' in H2 |- *. apply wp_bind, wp_modify, wp_bind. set (s2 := mkMrp _ _ _).
  assert (told_env [] s s2) as H3 by (by apply told_with_list, told_weaken).
  eapply wp_mono; [by apply reclaim_spec|]. intros b s3 (_ & H4 & H5). apply wp_ret. split; [done|].
  rewrite (told_around _ _ _ H3) in H5. split; [exact (told_env_trans _ _ _ _ _ H3 H5)|].
  rewrite H4, Hl. intros H6. pose proof (told_lv _ _ _ H5) as H7. change (mdb s2) with (mdb s1) in H7.
  assert (existsb leaves (before ++ a' :: after) = true) as H8.
  { rewrite existsb_app in H6. rewrite existsb_app. cbn [existsb]. unfold kept in H6. rewrite list.filter_cons in H6.
    destruct (decide _); cbn in H6; rewrite ?orb_true_iff in *; tauto. }
  rewrite existsb_split in H8 |- *. destruct H8 as [H8|H8]; [by left; left|]. destruct (H2 H8); auto.
Qed.

(** The [switch] for the attribute [r]; an unknown attribute that is reported empty is
    not stored. *)
Lemma event_attribute_spec e r s :
  attribute_events e = true -> fresh r ->
  wp (event_switch e (Some r)) (fun x s' => (fst x = false -> event_at (p2pmac (io s)) e (Some r) (attrib_list (app s)) = None) /\
    switched e (Some r) s s') s.
Proof.
  intros He Hr.
  assert (wp (mrp_jointimer_start ;! let! l := get_list in
    match event_target e r l with
    | Some l' => put_list l' ;! attribute_event e (attribute r) ;! st_ret (true, 0)
    | None => st_ret (false, 0)
    end) (fun x s' => (fst x = false -> event_at (p2pmac (io s)) e (Some r) (attrib_list (app s)) = None) /\
      switched e (Some r) s s') s) as H.
  2: { unfold event_target in H. destruct e; try done; cbn [event_switch]; (unfold wp, st_bind in H |- *;
       destruct (mrp_jointimer_start s) as [[? s1]|]; [|done]; destruct (get_list s1) as [[l s2]|]; [|done];
       destruct (mvrp_lookup l r); exact H). }
  apply wp_bind. eapply wp_mono; [apply mrp_jointimer_start_spec|]. intros _ s1 (H1 & H2 & _).
  pose proof (told_step_none _ _ (mvrp_step_timer _ _ H1)) as H1'. destruct H1.
  unfold get_list. apply wp_bind, wp_bind, wp_get, wp_ret. rewrite ts_app.
  destruct (event_target e r (attrib_list (app s))) as [l'|] eqn:E.
  - destruct (event_target_split _ _ _ _ E) as (b & a & c & -> & H3 & H4 & H5).
    apply wp_bind, wp_modify, wp_bind. set (s2 := mkMrp _ _ _).
    assert (told_env [] s1 s2) as H6 by apply told_with_list, told_weaken, told_none.
    eapply wp_mono; [by apply (attribute_event_spec e (attribute r) b a c)|]. intros _ s3 (H7 & H8 & H9). apply wp_ret.
    change (p2pmac (io s2)) with (p2pmac (io s1)) in *. rewrite ts_p2pmac in *.
    assert (event_at (p2pmac (io s)) e (Some r) (attrib_list (app s)) = Some (b, attribute_request (p2pmac (io s)) e a, c)) as Ha
      by (unfold event_at; cbn; rewrite E; cbn; by rewrite H4).
    split; [done|]. split.
    + rewrite event_list_at, Ha, H7 by done. apply sent_or_not_refl.
    + rewrite event_bye_at by done. change (snd (around s)) with (p2pmac (io s)). rewrite Ha.
      rewrite (told_around _ _ _ H6), (told_step_around _ _ _ H1') in H8.
      exact (told_step_trans [] _ _ _ _ H1' (told_step_env _ _ _ (told_env_trans [] _ _ _ _ H6 H8))).
    + intros H10 H11. destruct (H9 H11) as [H12|]; [|done]. apply (told_lv _ _ _ H8). cbn. rewrite H2. apply H10.
      cbn in H12. rewrite existsb_split in H12.
      destruct H5 as [(a0 & -> & _ & ->)|(-> & -> & _)]; [by apply existsb_split|].
      destruct Hr as [_ _ Hr]. rewrite Hr in H12. by destruct H12.
    + destruct H8 as (ms & [] & _). rewrite es_lva. cbn. by rewrite ts_lva.
    + destruct H8 as (ms & [] & _). rewrite es_flag. cbn. by rewrite ts_app.
  - apply wp_ret. assert (event_at (p2pmac (io s)) e (Some r) (attrib_list (app s)) = None) as Ha
      by (unfold event_at; cbn; by rewrite E).
    split; [done|]. split.
    + rewrite event_list_at, Ha, ts_app by done. apply sent_or_not_refl.
    + rewrite event_bye_at by done. change (snd (around s)) with (p2pmac (io s)). by rewrite Ha.
    + by rewrite ts_app, H2.
    + by rewrite ts_lva.
    + by rewrite ts_app.
Qed.

(** The events that end without announcing anything change no attribute. *)
Definition unchanged (e : mrp_event) (ra : option mvrp_attribute) s : Prop :=
  event_list (p2pmac (io s)) e ra (attrib_list (app s)) = attrib_list (app s) /\
  event_bye (around s) e ra (attrib_list (app s)) = [].

Lemma event_missing_spec e s :
  attribute_events e = true ->
  wp (event_switch e None) (fun x s' => fst x = false /\ unchanged e None s /\ switched e None s s') s.
Proof.
  intros He. assert (wp (mrp_jointimer_start ;! st_ret (false, -1))
    (fun x s' => fst x = false /\ unchanged e None s /\ switched e None s s') s) as H; [|by destruct e].
  assert (unchanged e None s) as Hu by (by destruct e). destruct (Hu) as [Hu1 Hu2].
  apply wp_bind. eapply wp_mono; [apply mrp_jointimer_start_spec|]. intros _ s1 (H1 & H2 & _).
  pose proof (told_step_none _ _ (mvrp_step_timer _ _ H1)) as H1'. destruct H1. apply wp_ret. split_and!; [done..|].
  split; rewrite ?Hu1, ?Hu2, ?ts_app, ?ts_lva, ?H2; try done. apply sent_or_not_refl.
Qed.

Lemma event_other_spec e ra s :
  event_switch e ra = st_ret (true, 0) -> unchanged e ra s ->
  wp (event_switch e ra) (fun x s' => x = (true, 0) /\ switched e ra s s') s.
Proof.
  intros -> [Hu1 Hu2]. apply wp_ret. split; [done|]. split; rewrite ?Hu1, ?Hu2; try done; [apply sent_or_not_refl|].
  apply told_step_none, mvrp_step_refl.
Qed.

Lemma event_switch_spec e ra s :
  station_ok s -> list_ok (attrib_list (app s)) -> (forall r, ra = Some r -> fresh r) ->
  wp (event_switch e ra) (fun x s' => (fst x = false -> unchanged e ra s) /\ switched e ra s s') s.
Proof.
  intros Hst Hl Hr. destruct (attribute_events e) eqn:E.
  - destruct ra as [r|].
    + eapply wp_mono; [apply event_attribute_spec; auto|]. intros x s' [H1 H2]. split; [|done]. intros Hx.
      specialize (H1 Hx). unfold unchanged. rewrite event_list_at, event_bye_at by done.
      change (snd (around s)) with (p2pmac (io s)). by rewrite H1.
    + eapply wp_mono; [by apply event_missing_spec|]. by intros x s' (_ & ? & ?).
  - assert (wp (event_switch e ra) (fun x s' => x = (true, 0) /\ switched e ra s s') s) as H.
    { destruct e; try done; try (by apply event_other_spec);
        auto using event_tx_spec, event_rla_spec, event_periodic_spec, event_lvtimer_spec, event_lvatimer_spec. }
    eapply wp_mono; [exact H|]. by intros x s' [-> ?].
Qed.

(** ** The invariant *)
Record mvrp_inv s : Prop := mkMvrpInv {
  mi_list : list_ok (attrib_list (app s));
  mi_silent : Forall silent (attrib_list (app s));
  mi_leaving : existsb leaves (attrib_list (app s)) = true -> lv_timer_running (mdb s) = true;
  mi_timers : timers_wf s;
  mi_station : station_ok s;
  mi_clients : NoDup (ports (clients (mdb s)));
  mi_lva : lva_state (lva (mdb s)) = MRP_TIMER_PASSIVE;
  mi_flag : send_empty_LeaveAll_flag (app s) = false }.

(** The messages of an event: the Leaves of forgotten attributes, then what the others
    have to announce. *)
Definition event_messages (w : list sockaddr_in * Z * Z) (e : mrp_event) (ra : option mvrp_attribute)
    (l : list mvrp_attribute) : list message :=
  event_bye w e ra l ++ concat ((fun a => announce w (notify (registrar a)) a) <$> event_list (snd w) e ra l).

(** The attributes after an event, with what was announced forgotten. *)
Definition event_result (p2p : Z) (e : mrp_event) (ra : option mvrp_attribute) (l : list mvrp_attribute)
    : list mvrp_attribute := hush <$> event_list p2p e ra l.

Lemma sent_messages w l l' :
  Forall2 sent_or_not l l' ->
  concat ((fun a => announce w (notify (registrar a)) a) <$> l') = concat ((fun a => announce w (notify (registrar a)) a) <$> l).
Proof. induction 1 as [|a a' l l' [-> | ->] _ IH]; rewrite ?fmap_cons; cbn [concat]; by rewrite ?IH. Qed.

Lemma sent_hush l l' : Forall2 sent_or_not l l' -> Forall2 sent_or_not (hush <$> l) (hush <$> l').
Proof. induction 1 as [|a a' l l' Ha _ IH]; constructor; [|done]. destruct Ha as [-> | ->]; [by left|by right]. Qed.

Lemma hush_silent l : Forall silent l -> hush <$> l = l.
Proof.
  induction 1 as [|a l Ha _ IH]; [done|]. rewrite fmap_cons, IH. f_equal.
  destruct a as [v x [st n m]]. unfold silent in Ha. cbn in Ha. by subst n.
Qed.

Lemma announce_silent w l : Forall silent l -> concat ((fun a => announce w (notify (registrar a)) a) <$> l) = [].
Proof. induction 1 as [|a l Ha _ IH]; [done|]. rewrite fmap_cons. cbn [concat]. by rewrite Ha, IH. Qed.

Lemma silent_hushed l : Forall silent (hush <$> l).
Proof. apply Forall_fmap. by apply Forall_true. Qed.

Lemma leaves_hushed l : existsb leaves (hush <$> l) = existsb leaves l.
Proof. induction l as [|a l IH]; [done|]. rewrite fmap_cons. cbn [existsb]. by rewrite IH. Qed.

Lemma silent_sent l l' : Forall2 sent_or_not l l' -> Forall silent l -> Forall silent l'.
Proof.
  induction 1 as [|a a' l l' Ha _ IH]; intros H; [done|]. apply Forall_cons_iff in H as [H1 H2].
  constructor; [|auto]. by destruct Ha as [-> | ->].
Qed.

Lemma inv_step w s s' :
  mvrp_inv s -> told_step w s s' -> list_ok (attrib_list (app s')) -> Forall silent (attrib_list (app s')) ->
  (existsb leaves (attrib_list (app s')) = true -> lv_timer_running (mdb s') = true) ->
  lva_state (lva (mdb s')) = MRP_TIMER_PASSIVE -> send_empty_LeaveAll_flag (app s') = false -> mvrp_inv s'.
Proof.
  intros [] (ms & [] & _) ? ? ? ? ?. split; try done; [auto| |congruence].
  destruct mi_station0. split; congruence.
Qed.

Lemma mvrp_event_spec e ra s :
  mvrp_inv s -> (forall r, ra = Some r -> fresh r) ->
  wp (mvrp_event e ra) (fun _ s' => mvrp_inv s' /\
    Forall2 sent_or_not (event_result (p2pmac (io s)) e ra (attrib_list (app s))) (attrib_list (app s')) /\
    told_step (event_messages (around s) e ra (attrib_list (app s))) s s') s.
Proof.
  intros Hinv Hr. destruct (Hinv). unfold mvrp_event. apply wp_bind. eapply wp_mono; [by apply event_switch_spec|].
  intros [b rc] s1 [H1 []]. pose proof (list_ok_event (p2pmac (io s)) e ra _ mi_list0 Hr) as Hok1.
  pose proof (list_ok_sent _ _ sw_list0 Hok1) as Hok2. destruct b; cbn [fst snd] in *.
  - apply wp_bind. eapply wp_mono; [by eapply for_each_spec; [apply acts_notify|]|]. intros _ s2 (H2 & H3 & H4). apply wp_ret.
    rewrite (told_step_around _ _ _ sw_step0) in H3. rewrite (sent_messages _ _ _ sw_list0) in H3.
    assert (told_step (event_messages (around s) e ra (attrib_list (app s))) s s2) as Ht
      by (eapply told_step_trans; [done|by apply told_step_env]).
    split; [|split; [|done]].
    + apply (inv_step _ _ _ Hinv Ht); rewrite ?H2.
      * apply list_ok_map; [apply keeps_hush|done].
      * apply silent_hushed.
      * rewrite leaves_hushed. intros H5. apply (told_lv _ _ _ H3). auto.
      * destruct H3 as (ms & [] & _). rewrite es_lva. auto.
      * destruct H3 as (ms & [] & _). rewrite es_flag. auto.
    + rewrite H2. by apply sent_hush.
  - apply wp_ret. destruct (H1 eq_refl) as [H2 H3]. unfold event_result, event_messages.
    change (snd (around s)) with (p2pmac (io s)). rewrite H2 in *. rewrite H3 in *.
    rewrite hush_silent, announce_silent by done. split; [|done].
    apply (inv_step _ _ _ Hinv sw_step0); auto. by eapply silent_sent.
Qed.
End events.
