(* ===== verification/MvrpTable.v ===== *)
(** * MvrpTable: MVRP as a table of VLAN registrations

    The abstract view of the database: a finite map from VIDs to the states of the
    applicant and the registrar.  An event acts on it pointwise by the state tables of
    the standard, which are written out here; lists, insertion, merging, reclaiming, timers,
    frames and notifications are gone.  [mvrp_event] implements it. *)
From stdpp Require Import base gmap list strings numbers sorting.
From S2P Require Import Prelude Text Parse Mrp MrpProps Mvrp MvrpWire MvrpDecode.
From S2P Require Import MvrpInv MvrpEvent.
#[local] Open Scope Z_scope.
#[local] Open Scope st_scope.

(** ** The abstract table *)
Definition vlan : Type := applicant_state * registrar_state.

(** *** The state tables of the standard

    Laid out as Tables 10-3 and 10-4 of IEEE 802.1Q-2011 are: a row per event with the
    next state of every column; an event without a row leaves the state.  They say what
    [mrp_applicant_fsm] and [mrp_registrar_fsm] have to do and do not refer to them. *)
Definition column {A B} `{EqDecision A} (columns : list A) (row : list B) (a : A) : option B :=
  '(_, b) ← list_find (fun ab => fst ab = a) (zip columns row); Some (snd b).

Definition applicant_columns : list applicant_state :=
  [MRP_VO_STATE; MRP_VP_STATE; MRP_VN_STATE; MRP_AN_STATE; MRP_AA_STATE; MRP_QA_STATE;
   MRP_LA_STATE; MRP_AO_STATE; MRP_QO_STATE; MRP_AP_STATE; MRP_QP_STATE; MRP_LO_STATE].

(** [shared]: the medium is not point-to-point (note 4); [p2p]: it is (note 5); [reg]: the
    registrar is IN (note 8). *)
Definition applicant_row (shared p2p reg : bool) (e : mrp_event) : list applicant_state :=
  let VO := MRP_VO_STATE in let VP := MRP_VP_STATE in let VN := MRP_VN_STATE in let AN := MRP_AN_STATE in
  let AA := MRP_AA_STATE in let QA := MRP_QA_STATE in let LA := MRP_LA_STATE in let AO := MRP_AO_STATE in
  let QO := MRP_QO_STATE in let AP := MRP_AP_STATE in let QP := MRP_QP_STATE in let LO := MRP_LO_STATE in
  match e with
  (*                         VO  VP  VN  AN  AA  QA  LA  AO  QO  AP  QP  LO *)
  | MRP_EVENT_BEGIN =>      [VO; VO; VO; VO; VO; VO; VO; VO; VO; VO; VO; VO]
  | MRP_EVENT_NEW =>        [VN; VN; VN; AN; VN; VN; VN; VN; VN; VN; VN; VN]
  | MRP_EVENT_JOIN =>       [VP; VP; VN; AN; AA; QA; AA; AP; QP; AP; QP; VP]
  | MRP_EVENT_LV =>         [VO; VO; LA; LA; LA; LA; LA; AO; QO; AO; QO; LO]
  | MRP_EVENT_RJOININ =>    [if shared then AO else VO; if shared then AP else VP;
                                     VN; AN; QA; QA; LA; QO; QO; QP; QP; LO]
  | MRP_EVENT_RIN =>        [VO; VP; VN; AN; if p2p then QA else AA;
                                                 QA; LA; AO; QO; AP; QP; LO]
  | MRP_EVENT_RJOINMT
  | MRP_EVENT_RMT =>        [VO; VP; VN; AN; AA; AA; LA; AO; AO; AP; AP; VO]
  | MRP_EVENT_RLV
  | MRP_EVENT_RLA
  | MRP_EVENT_REDECLARE =>  [LO; VP; VN; VN; VP; VP; LA; LO; LO; VP; VP; LO]
  | MRP_EVENT_PERIODIC =>   [VO; VP; VN; AN; AA; AA; LA; AO; QO; AP; AP; LO]
  | MRP_EVENT_TX =>         [VO; AA; AN; if reg then QA else AA;
                                             QA; QA; VO; AO; QO; QA; QP; VO]
  | MRP_EVENT_TXLA =>       [LO; AA; AN; QA; QA; QA; LO; LO; LO; QA; QA; LO]
  | MRP_EVENT_TXLAF =>      [LO; VP; VN; VN; VP; VP; LO; LO; LO; VP; VP; LO]
  | _ => applicant_columns
  end.

Definition app_to (p2p : Z) (e : mrp_event) (x : vlan) : applicant_state :=
  default (fst x) (column applicant_columns
    (applicant_row (p2p =? 0) (p2p =? 1) (bool_decide (snd x = MRP_IN_STATE)) e) (fst x)).

Definition registrar_row (e : mrp_event) : list registrar_state :=
  let IN := MRP_IN_STATE in let LV := MRP_LV_STATE in let MT := MRP_MT_STATE in
  match e with
  (*                         IN  LV  MT *)
  | MRP_EVENT_BEGIN =>      [MT; MT; MT]
  | MRP_EVENT_RNEW
  | MRP_EVENT_RJOININ
  | MRP_EVENT_RJOINMT =>    [IN; IN; IN]
  | MRP_EVENT_RLV
  | MRP_EVENT_RLA
  | MRP_EVENT_TXLA
  | MRP_EVENT_REDECLARE =>  [LV; LV; MT]
  | MRP_EVENT_FLUSH =>      [MT; MT; MT]
  | MRP_EVENT_LVTIMER =>    [IN; MT; MT]
  | _ =>                    [IN; LV; MT]
  end.

Definition reg_to (e : mrp_event) (r : registrar_state) : registrar_state :=
  default r (column [MRP_IN_STATE; MRP_LV_STATE; MRP_MT_STATE] (registrar_row e) r).

(** The switches of mrp.c implement the tables. *)
Lemma app_to_step p2p e x :
  app_to p2p e x = match applicant_step p2p e (bool_decide (snd x = MRP_IN_STATE)) (fst x) with
                   | Some (st, _, _, _) => st
                   | None => fst x
                   end.
Proof.
  unfold app_to. destruct x as [a r]. cbn [fst snd]. destruct (bool_decide (r = MRP_IN_STATE)), e, a; try reflexivity;
    cbn [applicant_row applicant_step applicant_rjoinin applicant_rin]; rewrite ?(Z.eqb_sym _ p2p);
    destruct (p2p =? 0), (p2p =? 1); reflexivity.
Qed.

Lemma reg_to_step e r : reg_to e r = match registrar_step e r with Some (st, _, _) => st | None => r end.
Proof. by destruct e, r. Qed.

(** How the registrar takes the requests of local clients: a new declaration starts it
    over, a join registers, a leave withdraws. *)
Definition local_request (e : mrp_event) : mrp_event :=
  match e with
  | MRP_EVENT_NEW => MRP_EVENT_BEGIN
  | MRP_EVENT_JOIN => MRP_EVENT_RJOININ
  | MRP_EVENT_LV => MRP_EVENT_RLV
  | _ => e
  end.

(** The states of a VLAN that was never heard of. *)
Definition nobody : vlan := (MRP_VO_STATE, MRP_MT_STATE).

(** An entry nobody is interested in disappears. *)
Definition live (x : vlan) : option vlan :=
  match x with
  | (MRP_VO_STATE, MRP_MT_STATE) | (MRP_AO_STATE, MRP_MT_STATE) | (MRP_QO_STATE, MRP_MT_STATE) => None
  | _ => Some x
  end.

Definition vlan_request (p2p : Z) (e : mrp_event) (x : vlan) : option vlan :=
  live (app_to p2p e x, reg_to (local_request e) (snd x)).

(** The table after the event [e]; [vid] is the VLAN of an attribute event. *)
Definition vlan_step (p2p : Z) (e : mrp_event) (vid : option Z) (m : gmap Z vlan) : gmap Z vlan :=
  match e with
  | MRP_EVENT_LVATIMER => (fun x : vlan => (app_to p2p MRP_EVENT_TXLA x, reg_to MRP_EVENT_TXLA (snd x))) <$> m
  | MRP_EVENT_RLA => (fun x : vlan => (app_to p2p MRP_EVENT_RLA x, reg_to MRP_EVENT_RLA (snd x))) <$> m
  | MRP_EVENT_TX | MRP_EVENT_PERIODIC => (fun x : vlan => (app_to p2p e x, snd x)) <$> m
  | MRP_EVENT_LVTIMER => omap (fun x : vlan => live (fst x, reg_to MRP_EVENT_LVTIMER (snd x))) m
  | MRP_EVENT_RMT =>
      match vid with Some v => partial_alter (fun o => x ← o; vlan_request p2p e x) v m | None => m end
  | MRP_EVENT_NEW | MRP_EVENT_JOIN | MRP_EVENT_RNEW | MRP_EVENT_RJOININ | MRP_EVENT_RJOINMT
  | MRP_EVENT_LV | MRP_EVENT_RIN | MRP_EVENT_RLV =>
      match vid with
      | Some v => partial_alter (fun o => vlan_request p2p e (default nobody o)) v m
      | None => m
      end
  | _ => m
  end.

(** ** The table of a list *)
Definition states (a : mvrp_attribute) : vlan := (app_state (applicant a), reg_state (registrar a)).

Definition table (l : list mvrp_attribute) : gmap Z vlan :=
  list_to_map ((fun a => (attribute a, states a)) <$> l).

Lemma table_cons a l : table (a :: l) = <[attribute a := states a]> (table l).
Proof. done. Qed.

Lemma table_keys l : ((fun a => (attribute a, states a)) <$> l).*1 = vids l.
Proof. unfold vids. by rewrite <- list_fmap_compose. Qed.

Lemma table_None l v : v ∉ vids l -> table l !! v = None.
Proof. intros H. apply not_elem_of_list_to_map_1. by rewrite table_keys. Qed.

Lemma table_perm l l' : NoDup (vids l) -> l ≡ₚ l' -> table l = table l'.
Proof. intros H Hp. apply list_to_map_proper; [by rewrite table_keys|by apply fmap_Permutation]. Qed.

Lemma table_sent l l' : Forall2 sent_or_not l l' -> table l' = table l.
Proof. induction 1 as [|a a' l l' Ha _ IH]; [done|]. rewrite !table_cons, IH. by destruct Ha as [-> | ->]. Qed.

Lemma table_hush l : table (hush <$> l) = table l.
Proof. induction l as [|a l IH]; [done|]. rewrite fmap_cons, !table_cons. by rewrite IH. Qed.

Lemma table_map g (F : vlan -> vlan) l :
  (forall a, attribute (g a) = attribute a /\ states (g a) = F (states a)) -> table (g <$> l) = F <$> table l.
Proof.
  intros Hg. induction l as [|a l IH]; [symmetry; apply fmap_empty|].
  rewrite fmap_cons, !table_cons, fmap_insert, IH. by destruct (Hg a) as [-> ->].
Qed.

Lemma states_live a : live (states a) = if reclaimable a then None else Some (states a).
Proof.
  unfold reclaimable, states, live. destruct (app_state (applicant a)), (reg_state (registrar a)); done.
Qed.

Lemma table_kept l : NoDup (vids l) -> table (kept l) = omap live (table l).
Proof.
  induction l as [|a l IH]; intros Hn; [symmetry; apply omap_empty|]. unfold vids in Hn. rewrite fmap_cons in Hn.
  apply list.NoDup_cons in Hn as [Ha Hn]. specialize (IH Hn). rewrite table_cons, omap_insert, states_live, <- IH.
  unfold kept in *. rewrite list.filter_cons. destruct (reclaimable a) eqn:E.
  - rewrite decide_False by done. symmetry. apply delete_id, table_None. intros Hin. apply Ha. unfold vids in Hin. fold (vids l).
    eapply elem_of_sublist; [exact Hin|]. apply fmap_sublist, sublist_filter.
  - by rewrite decide_True, table_cons by done.
Qed.

Lemma table_middle b a c :
  NoDup (vids (b ++ a :: c)) ->
  table (b ++ a :: c) = <[attribute a := states a]> (table (b ++ c)) /\ table (b ++ c) !! attribute a = None.
Proof.
  intros Hn. assert (b ++ a :: c ≡ₚ a :: b ++ c) as Hp by (symmetry; apply Permutation_middle).
  split; [by rewrite (table_perm _ _ Hn Hp)|]. apply table_None. unfold vids in *. rewrite Hp, fmap_cons in Hn.
  by apply list.NoDup_cons in Hn as [? _].
Qed.

(** ** The events *)
Lemma states_app p2p e a : states (app_next p2p e a) = (app_to p2p e (states a), reg_state (registrar a)).
Proof.
  rewrite app_to_step. unfold app_next, states, mrp_applicant_fsm, mrp_registrar_in. cbn.
  by destruct (applicant_step _ _ _ _) as [[[[??]?]?]|].
Qed.

Lemma states_reg e a : states (reg_upd e a) = (app_state (applicant a), reg_to e (reg_state (registrar a))).
Proof. rewrite reg_to_step. unfold reg_upd, states, reg_next. cbn. by destruct (registrar_step _ _) as [[[??]?]|]. Qed.

Lemma states_both p2p e e' a :
  states (reg_upd e' (app_next p2p e a)) = (app_to p2p e (states a), reg_to e' (snd (states a))).
Proof. rewrite states_reg. f_equal. exact (f_equal fst (states_app p2p e a)). Qed.

Lemma states_request p2p e a :
  states (attribute_request p2p e a) = (app_to p2p e (states a), reg_to (local_request e) (snd (states a))).
Proof.
  unfold attribute_request. destruct e; cbn [reg_request local_request]; try exact (states_both _ _ _ _).
  replace (reg_to MRP_EVENT_BEGIN (snd (states a))) with MRP_MT_STATE by (by destruct (snd (states a))).
  exact (f_equal (fun x => (fst x, MRP_MT_STATE)) (states_app p2p MRP_EVENT_NEW a)).
Qed.

(** One entry changes, the others stay. *)
Lemma partial_alter_entry (F : option vlan -> option vlan) v (m m' : gmap Z vlan) :
  m' !! v = F (m !! v) -> (forall u, u <> v -> m' !! u = m !! u) -> m' = partial_alter F v m.
Proof.
  intros H1 H2. apply map_eq. intros u. destruct (decide (u = v)) as [->|Hu].
  - by rewrite lookup_partial_alter_eq.
  - rewrite lookup_partial_alter_ne by done. by apply H2.
Qed.

Lemma table_kept_middle b a c :
  NoDup (vids (b ++ a :: c)) ->
  table (b ++ kept [a] ++ c) !! attribute a = live (states a) /\
  (forall u, u <> attribute a -> table (b ++ kept [a] ++ c) !! u = table (b ++ c) !! u).
Proof.
  intros Hn. destruct (table_middle b a c Hn) as [H1 H2]. rewrite states_live. unfold kept.
  rewrite list.filter_cons. destruct (reclaimable a) eqn:E.
  - by rewrite decide_False by done.
  - rewrite decide_True by done. change ([a] ++ c) with (a :: c). rewrite list.filter_nil.
    change ([a] ++ c) with (a :: c). rewrite H1. split; [by rewrite lookup_insert_eq|]. intros u Hu. by rewrite lookup_insert_ne.
Qed.

Definition unregistered (r : mvrp_attribute) : Prop := states r = nobody.

(** What the table says of the attribute an event works on. *)
Lemma table_target e r l b a c :
  event_target e r l = Some (b ++ a :: c) -> split_vid (attribute r) (b ++ a :: c) = Some (b, a, c) ->
  list_ok l -> list_ok (b ++ a :: c) -> unregistered r ->
  attribute a = attribute r /\ states a = default nobody (table l !! attribute r) /\
  (e = MRP_EVENT_RMT -> is_Some (table l !! attribute r)) /\
  (forall u, u <> attribute r -> table l !! u = table (b ++ c) !! u).
Proof.
  intros Ht Hs Hl Hl' Hr. destruct (event_target_split _ _ _ _ Ht) as (b' & a' & c' & _ & H1 & H2 & H3).
  rewrite Hs in H2. simplify_eq. split; [done|].
  destruct H3 as [(a0 & -> & _ & ->)|(-> & -> & H3 & H4 & _)].
  - destruct (table_middle b' a0 c' (NoDup_vids _ Hl)) as [-> H3]. change (attribute (merged r a0)) with (attribute a0) in H1.
    rewrite <- H1, !lookup_insert_eq. split_and!; [done|eauto|]. intros u Hu. by rewrite lookup_insert_ne.
  - destruct (table_middle b' r c' (NoDup_vids _ Hl')) as [_ H5]. rewrite !H5. split_and!; [exact Hr|done|done].
Qed.

Lemma vlan_step_request p2p e v m :
  attribute_events e = true ->
  vlan_step p2p e (Some v) m =
    partial_alter (fun o => if decide (e = MRP_EVENT_RMT /\ o = None) then None
      else vlan_request p2p e (default nobody o)) v m.
Proof.
  intros He. apply partial_alter_entry; destruct e; try done; cbn [vlan_step];
    rewrite ?lookup_partial_alter_eq; try (intros u Hu; by rewrite lookup_partial_alter_ne).
  all: destruct (m !! v); cbn [mbind option_bind from_option]; by destruct (decide (_ /\ _)) as [[??]|].
Qed.

Lemma table_request p2p e r l :
  attribute_events e = true -> list_ok l -> fresh r -> unregistered r ->
  table (event_list p2p e (Some r) l) = vlan_step p2p e (Some (attribute r)) (table l).
Proof.
  intros He Hl Hr Hu. rewrite vlan_step_request, event_list_at by done. apply partial_alter_entry.
  all: unfold event_at; cbn [mbind option_bind]; destruct (event_target e r l) as [l'|] eqn:E; cbn [mbind option_bind].
  all: try (destruct (event_target_split _ _ _ _ E) as (b & a & c & -> & H1 & H2 & _); rewrite H2; cbn [mbind option_bind];
    pose proof (list_ok_target _ _ _ _ E Hr Hl) as Hl';
    destruct (table_target _ _ _ _ _ _ E H2 Hl Hl' Hu) as (_ & H3 & H4 & H5);
    pose proof (list_ok_update _ _ _ _ (keeps_attribute p2p e) Hl') as Hl2;
    destruct (table_kept_middle _ _ _ (NoDup_vids _ Hl2)) as [H6 H7];
    rewrite (kp_vid _ (keeps_attribute p2p e)), H1 in H6, H7).
  - rewrite H6, states_request, H3. destruct (decide _) as [[H8 H9]|]; [|done]. destruct (H4 H8) as [? ?]. congruence.
  - unfold event_target in E. pose proof (mvrp_lookup_split l r) as H. destruct (mvrp_lookup l r); [done|].
    destruct H as [H _]. destruct (decide (e = MRP_EVENT_RMT)); [|done]. rewrite table_None by done.
    by destruct (decide _) as [|[]].
  - intros u Hne. rewrite H7 by done. by rewrite H5.
  - done.
Qed.

Lemma table_event p2p e ra l :
  list_ok l -> (forall r, ra = Some r -> fresh r /\ unregistered r) ->
  table (event_list p2p e ra l) = vlan_step p2p e (attribute <$> ra) (table l).
Proof.
  intros Hl Hr. destruct (attribute_events e) eqn:E.
  { destruct ra as [r|]; [|by destruct e]. destruct (Hr r eq_refl). by apply table_request. }
  destruct e; try done; cbn [event_list vlan_step].
  1, 2, 3, 5: apply table_map; intros a; by rewrite ?states_both, ?states_app.
  pose proof (list_ok_map _ _ (keeps_reg MRP_EVENT_LVTIMER) Hl) as Hl'.
  rewrite (table_kept _ (NoDup_vids _ Hl')).
  rewrite (table_map _ (fun x : vlan => (fst x, reg_to MRP_EVENT_LVTIMER (snd x)))) by (intros a; by rewrite states_reg).
  apply map_eq. intros u. rewrite !lookup_omap, lookup_fmap. by destruct (table l !! u).
Qed.
