(* ===== verification/MvrpRecv.v ===== *)
(** * MvrpRecv: reception, commands and the life of the MVRP daemon

    Every frame of at most 1996 bytes is processed without a read outside the receive
    buffer, in the iterations allowed, and preserves the invariant; so do the commands of
    clients, reclaim and the departure of a client. *)
From stdpp Require Import base gmap list strings numbers sorting.
From S2P Require Import Prelude Text Parse Mrp MrpProps Mvrp MvrpWire MvrpDecode.
From S2P Require Import MvrpInv MvrpEvent.
#[local] Open Scope Z_scope.
#[local] Open Scope st_scope.

(** ** Reading a received frame *)

(** The receive buffer: 2000 bytes, zero from the end of the frame on. *)
Record recv_ok (buf : list Z) (eof : Z) : Prop := mkRecvOk {
  rb_len : length buf = 2000%nat;
  rb_eof : 0 <= eof <= 1996;
  rb_bytes : Forall is_byte buf;
  rb_zero : forall i, eof <= i < 2000 -> peek buf i = Done 0 }.

Lemma peek_ok buf i : 0 <= i < Z.of_nat (length buf) -> Forall is_byte buf -> exists b, peek buf i = Done b /\ is_byte b.
Proof.
  intros Hi Hb. unfold peek. destruct (Z.leb_spec 0 i); [|lia].
  destruct (lookup_lt_is_Some_2 buf (Z.to_nat i) ltac:(lia)) as [b E]. rewrite E. exists b. split; [done|].
  rewrite list.Forall_forall in Hb. apply Hb. by eapply list_elem_of_lookup_2.
Qed.

Lemma recv_peek buf eof i : recv_ok buf eof -> 0 <= i < 2000 -> exists b, peek buf i = Done b /\ is_byte b.
Proof. intros [] Hi. apply peek_ok; [lia|done]. Qed.

Lemma recv_peek16 buf eof i : recv_ok buf eof -> 0 <= i < 1999 -> exists v, peek16 buf i = Done v /\ 0 <= v < 65536.
Proof.
  intros Hr Hi. destruct (recv_peek buf eof i Hr ltac:(lia)) as (b & E1 & H1).
  destruct (recv_peek buf eof (i + 1) Hr ltac:(lia)) as (c & E2 & H2). unfold peek16. rewrite E1. obind. rewrite E2. obind.
  unfold is_byte in *. exists (b * 256 + c). split; [done|lia].
Qed.

(** Two zero bytes are what the buffer has from the end of the frame on. *)
Lemma recv_mark buf eof ptr :
  recv_ok buf eof -> 0 <= ptr < 1999 ->
  exists b0 b1, peek buf ptr = Done b0 /\ peek buf (ptr + 1) = Done b1 /\ (b0 <> 0 \/ b1 <> 0 -> ptr < eof).
Proof.
  intros Hr Hp. destruct (recv_peek buf eof ptr Hr ltac:(lia)) as (b0 & E0 & _).
  destruct (recv_peek buf eof (ptr + 1) Hr ltac:(lia)) as (b1 & E1 & _). exists b0, b1. split_and!; [done|done|].
  intros H. destruct (Z.lt_ge_cases ptr eof); [done|]. exfalso. rewrite (rb_zero _ _ Hr ptr ltac:(lia)) in E0.
  rewrite (rb_zero _ _ Hr (ptr + 1) ltac:(lia)) in E1. simplify_eq. lia.
Qed.

Lemma numvalues_range h : 0 <= MRPDU_VECT_NUMVALUES h < 8192.
Proof.
  unfold MRPDU_VECT_NUMVALUES. change (Z.shiftl 1 13 - 1) with (Z.ones 13). rewrite Z.land_ones by lia.
  change (2 ^ 13) with 8192. apply Z.mod_pos_bound. lia.
Qed.

(** ** The table dump: 30 characters a line, in a buffer of 1500 bytes *)
Lemma length_decode_state r a : String.length (mrp_decode_state r a 8) = 5%nat.
Proof. destruct r as [[] ? ?], a as [[] ? ? ? ?]; reflexivity. Qed.

Lemma length_regsrc a : mac_ok a -> String.length (regsrc a) = 14%nat.
Proof.
  unfold mac_ok, regsrc. rewrite string_length_app. intros H.
  by rewrite length_hex_bytes, H.
Qed.

Lemma length_dump_line a : mac_ok a -> String.length (dump_line a) = 30%nat.
Proof.
  intros Hm. unfold dump_line. rewrite !string_length_app, length_fmt_x, length_regsrc, length_decode_state by done. done.
Qed.

(** The table that is sent. *)
Definition dump_text (text : string) (l : list mvrp_attribute) : string := foldl (fun t a => t +:+ dump_line a) text l.

Lemma dump_text_length text l : Forall mac_ok l -> String.length (dump_text text l) = (String.length text + 30 * length l)%nat.
Proof.
  intros Hl. revert text. induction Hl as [|a l Ha _ IH]; intros text; cbn [length]; [unfold dump_text; simpl; lia|].
  change (dump_text text (a :: l)) with (dump_text (text +:+ dump_line a) l).
  rewrite IH, string_length_app, length_dump_line by done. lia.
Qed.

Lemma dump_loop_spec l text :
  Forall mac_ok l -> (String.length text < 1500)%nat ->
  dump_loop l text =
    if decide (String.length text + 30 * length l < 1500)%nat then Done (dump_text text l) else Fault OutOfBounds.
Proof.
  intros Hl. revert text. induction Hl as [|a l Ha Hl IH]; intros text Ht; cbn [dump_loop length].
  { by rewrite decide_True by lia. }
  pose proof (length_dump_line a Ha) as Hlen. unfold sprintf_at, MAX_MRPD_CMDSZ. rewrite Hlen.
  change (0 + Z.of_nat 30 + 1 <=? 128) with true. obind.
  destruct (Z.leb_spec (Z.of_nat (String.length text) + Z.of_nat 30 + 1) 1500) as [H1|H1]; obind.
  - rewrite IH by (rewrite string_length_app, Hlen; lia). rewrite string_length_app, Hlen.
    destruct (decide (_ < _)%nat), (decide (_ < _)%nat); try lia; done.
  - by rewrite decide_False by lia.
Qed.

Section recv.
Context `{env : MrpEnv}.
Implicit Types s : MS.
Hypothesis Hok : timers_ok env.
Hypothesis Hrand : forall n, 0 <= mrp_random n.

Lemma inv_quiet ms s s' : quiet ms s s' -> mvrp_inv s -> mvrp_inv s'.
Proof.
  intros [[] H] []. split; rewrite ?H; try done; try congruence; auto.
  destruct mi_station. split; congruence.
Qed.

Lemma vect_values_spec evts vid mac s :
  mvrp_inv s -> 0 <= vid < 65536 -> length mac = 6%nat ->
  wp (vect_values evts vid mac) (fun r s' => mvrp_inv s' /\ forall v, r = Some v -> 0 <= v < 65536) s.
Proof.
  intros Hinv Hv Hm. revert vid s Hinv Hv. induction evts as [|e evts IH]; intros vid s Hinv Hv; simpl.
  { apply wp_ret. split; [done|]. by intros v [= <-]. }
  destruct (4095 <? vid); [by apply IH|]. apply wp_bind, draw_quiet. intros s1 H1. pose proof (inv_quiet _ _ _ H1 Hinv) as Hinv1.
  destruct (mrp_malloc _); cbn [negb]; [|by apply wp_ret]. apply wp_bind.
  assert (wp (match rx_event e with
    | Some ev => mvrp_event ev (Some (mvrp_alloc vid mac)) ;! st_ret tt
    | None => st_ret tt end) (fun _ s' => mvrp_inv s') s1) as H2.
  { destruct (rx_event e) as [ev|]; [|by apply wp_ret]. apply wp_bind.
    eapply wp_mono; [apply mvrp_event_spec; [done|done|done|]|].
    - intros r [= <-]. by apply fresh_alloc.
    - intros _ s2 (H2 & _). by apply wp_ret. }
  eapply wp_mono; [exact H2|]. intros ? s2 Hinv2. apply IH; [done|apply u16_range].
Qed.

Lemma vect_bytes_spec n buf events vidx num vid mac s :
  mvrp_inv s -> 0 <= vid < 65536 -> length mac = 6%nat -> Forall is_byte buf ->
  0 <= events + vidx -> events + vidx + Z.of_nat n <= Z.of_nat (length buf) ->
  wp (vect_bytes n buf events vidx num vid mac) (fun _ s' => mvrp_inv s') s.
Proof.
  intros Hinv Hv Hm Hb. revert vidx num vid s Hinv Hv.
  induction n as [|n IH]; intros vidx num vid s Hinv Hv H0 H1; simpl; [by apply wp_ret|].
  destruct (peek_ok buf (events + vidx) ltac:(lia) Hb) as (b & E & _). apply wp_bind. eapply wp_lift; [exact E|].
  apply wp_bind. eapply wp_mono; [by apply vect_values_spec|]. intros [v|] s1 [Hinv1 Hr]; [|by apply wp_ret].
  apply IH; [done|by apply Hr|lia|lia].
Qed.

Lemma vector_bytes_bound n : 0 <= n -> 0 <= (if n =? n / 3 * 3 then n / 3 else n / 3 + 1) <= n / 3 + 1 /\
  (0 < n -> 1 <= (if n =? n / 3 * 3 then n / 3 else n / 3 + 1)).
Proof. intros Hn. destruct (Z.eqb_spec n (n / 3 * 3)); Z.div_mod_to_equations; lia. Qed.

(** The pointer stays within two bytes of the end, and every vector takes five bytes. *)
Lemma vector_loop_spec fuel buf eof ptr saw mac s :
  recv_ok buf eof -> mvrp_inv s -> length mac = 6%nat -> 0 <= ptr <= eof + 2 -> eof - ptr <= Z.of_nat fuel ->
  wp (vector_loop fuel buf eof ptr saw mac)
    (fun r s' => mvrp_inv s' /\ forall p b, r = Some (p, b) -> ptr <= p) s.
Proof.
  intros Hbuf Hinv Hm. revert ptr saw s Hinv. induction fuel as [|fuel IH]; intros ptr saw s Hinv Hp Hf; simpl.
  all: destruct (rb_eof _ _ Hbuf) as [He1 He2].
  all: destruct (recv_peek buf eof ptr Hbuf ltac:(lia)) as (b0 & E0 & H0).
  all: destruct (recv_peek buf eof (ptr + 1) Hbuf ltac:(lia)) as (b1 & E1 & H1).
  all: apply wp_bind; eapply wp_lift; [exact E0|]; apply wp_bind.
  all: assert (wp (if b0 =? 0 then st_lift (peek buf (ptr + 1)) else st_ret 1)
    (fun r s' => s' = s /\ r = if b0 =? 0 then b1 else 1) s) as Hb1
    by (destruct (b0 =? 0); [by eapply wp_lift|by apply wp_ret]).
  all: eapply wp_mono; [exact Hb1|]; intros ? ? [-> ->]; destruct (_ && _) eqn:Ez;
    [apply wp_ret; split; [done|intros p b [= <- <-]; lia]|].
  - exfalso. rewrite (rb_zero _ _ Hbuf ptr ltac:(lia)) in E0. rewrite (rb_zero _ _ Hbuf (ptr + 1) ltac:(lia)) in E1.
    by simplify_eq.
  - assert (ptr < eof) as Hlt.
    { destruct (Z.lt_ge_cases ptr eof); [done|]. exfalso. rewrite (rb_zero _ _ Hbuf ptr ltac:(lia)) in E0.
      rewrite (rb_zero _ _ Hbuf (ptr + 1) ltac:(lia)) in E1. by simplify_eq. }
    destruct (recv_peek16 buf eof ptr Hbuf ltac:(lia)) as (h & Eh & _). apply wp_bind. eapply wp_lift; [exact Eh|].
    pose proof (numvalues_range h) as Hn. set (num := MRPDU_VECT_NUMVALUES h) in *.
    set (leaveall := MRPDU_VECT_LVA h && negb saw). apply wp_bind.
    assert (wp (if leaveall then mvrp_event MRP_EVENT_RLA None ;! st_ret tt else st_ret tt) (fun _ s' => mvrp_inv s') s) as Hla.
    { destruct leaveall; [|by apply wp_ret]. apply wp_bind. eapply wp_mono; [by apply mvrp_event_spec|].
      intros _ s1 (H2 & _). by apply wp_ret. }
    eapply wp_mono; [exact Hla|]. intros ? s1 Hinv1. destruct (Z.eqb_spec num 0); [by apply wp_ret|].
    destruct (Z.leb_spec eof (ptr + 2 + num / 3)) as [|Hg]; [by apply wp_ret|].
    pose proof (Z.div_pos num 3 ltac:(lia) ltac:(lia)) as Hd.
    destruct (recv_peek16 buf eof (ptr + 2) Hbuf ltac:(lia)) as (vid & Ev & Hv). apply wp_bind. eapply wp_lift; [exact Ev|].
    destruct (vector_bytes_bound num ltac:(lia)) as [Hk Hk']. specialize (Hk' ltac:(lia)).
    set (k := if num =? num / 3 * 3 then num / 3 else num / 3 + 1) in *. apply wp_bind.
    eapply wp_mono; [apply vect_bytes_spec; try done; [apply Hbuf|lia|rewrite (rb_len _ _ Hbuf); lia]|].
    intros [?|] s2 Hinv2; [|by apply wp_ret]. eapply wp_mono; [apply IH; [done|lia|lia]|].
    intros r s3 [H2 H3]. split; [done|]. intros p b E. specialize (H3 p b E). lia.
Qed.

Lemma message_loop_spec fuel buf eof ptr endmarks saw mac s :
  recv_ok buf eof -> mvrp_inv s -> length mac = 6%nat -> 0 <= ptr -> eof - ptr <= Z.of_nat fuel ->
  wp (message_loop fuel buf eof ptr endmarks saw mac) (fun _ s' => mvrp_inv s') s.
Proof.
  intros Hbuf Hinv Hm. revert ptr endmarks saw s Hinv.
  induction fuel as [|fuel IH]; intros ptr endmarks saw s Hinv Hp Hf; simpl;
    (destruct (Z.ltb_spec ptr (eof - MRPDU_ENDMARK_SZ)) as [Hlt|]; cbn [negb]; [|by apply wp_ret]);
    unfold MRPDU_ENDMARK_SZ in *; [lia|].
  destruct (rb_eof _ _ Hbuf) as [He1 He2].
  destruct (recv_peek buf eof ptr Hbuf ltac:(lia)) as (t & Et & _). apply wp_bind. eapply wp_lift; [exact Et|].
  destruct (recv_peek buf eof (ptr + 1) Hbuf ltac:(lia)) as (len & El & Hlen). apply wp_bind. eapply wp_lift; [exact El|].
  unfold is_byte in Hlen. destruct (_ && _); [destruct (_ <? 2); [apply IH; [done|lia|lia]|by apply wp_ret]|].
  destruct (t =? MVRP_VID_TYPE).
  - destruct (len =? 2); cbn [negb]; [|by apply wp_ret]. apply wp_bind.
    eapply wp_mono; [apply (vector_loop_spec _ _ eof); [done|done|done|lia|rewrite (rb_len _ _ Hbuf); lia]|].
    intros [[p b]|] s1 [Hinv1 H1]; [|by apply wp_ret]. specialize (H1 p b eq_refl). apply IH; [done|lia|lia].
  - destruct (recv_peek buf eof 14 Hbuf ltac:(lia)) as (v & Ev & _). apply wp_bind. eapply wp_lift; [exact Ev|].
    destruct (v =? MVRP_PROT_VER); [by apply wp_ret|].
    destruct (recv_peek16 buf eof (ptr + 2) Hbuf ltac:(lia)) as (h & Eh & _). apply wp_bind. eapply wp_lift; [exact Eh|].
    pose proof (numvalues_range h) as Hn. pose proof (Z.div_pos (MRPDU_VECT_NUMVALUES h + 2) 3 ltac:(lia) ltac:(lia)).
    apply IH; [done|lia|lia].
Qed.

Lemma recv_buf_ok f :
  Forall is_byte f -> (length f <= 1996)%nat -> recv_ok (recv_buf f) (Z.of_nat (length f)).
Proof.
  intros Hb Hl. assert (recv_buf f = f ++ replicate (2000 - length f) 0) as E.
  { unfold recv_buf. rewrite resize_ge; [done|]. unfold MAX_FRAME_SIZE. lia. }
  rewrite E. split.
  - rewrite length_app, length_replicate. lia.
  - lia.
  - apply Forall_app. split; [done|]. apply Forall_replicate. by split.
  - intros i Hi. unfold peek. destruct (Z.leb_spec 0 i); [|lia]. rewrite lookup_app_r by lia.
    by rewrite lookup_replicate_2 by lia.
Qed.

Lemma mvrp_recv_msg_spec f s :
  mvrp_inv s -> (forall b, f = Some b -> Forall is_byte b /\ (length b <= 1996)%nat) ->
  wp (mvrp_recv_msg f) (fun _ s' => mvrp_inv s') s.
Proof.
  intros Hinv Hf. unfold mvrp_recv_msg. apply wp_bind, draw_quiet. intros s1 H1. pose proof (inv_quiet _ _ _ H1 Hinv) as Hinv1.
  destruct (mrp_malloc _); cbn [negb]; [|by apply wp_ret]. destruct f as [f|]; [|by apply wp_ret].
  destruct (Hf f eq_refl) as [Hb Hl]. pose proof (recv_buf_ok f Hb Hl) as Hr.
  rewrite Z.min_l by (unfold MAX_FRAME_SIZE; lia). set (buf := recv_buf f) in *.
  destruct (_ <? _) eqn:E; [by apply wp_ret|]. apply Z.ltb_ge in E.
  destruct (recv_peek16 buf _ 12 Hr ltac:(lia)) as (et & Ee & _). apply wp_bind. eapply wp_lift; [exact Ee|].
  destruct (_ =? _); cbn [negb]; [|by apply wp_ret]. destruct (decide _); [|by apply wp_ret].
  apply (message_loop_spec _ _ (Z.of_nat (length f))); [done|done| |lia|].
  - rewrite length_take, length_drop, (rb_len _ _ Hr). lia.
  - rewrite (rb_len _ _ Hr). lia.
Qed.

(** ** Commands *)
Lemma inv_clients cs s :
  mvrp_inv s -> NoDup (ports cs) -> mvrp_inv (mkMrp (set_clients cs (mdb s)) (app s) (io s)).
Proof. intros [] H. split; try done. by destruct mi_timers. Qed.

Lemma respond_spec client text s :
  mvrp_inv s -> wp (respond client text) (fun _ s' => mvrp_inv s') s.
Proof.
  intros Hinv. unfold respond. apply wp_bind. eapply wp_mono; [apply send_ctl_spec|]. intros [] s1 H1.
  apply wp_ret. by eapply inv_quiet.
Qed.

(** The VID of a command fits in sixteen bits. *)
Lemma parse_vid_range buf len : let '(_, vid, _) := mvrp_cmd_parse_vid buf len in 0 <= vid < 65536.
Proof.
  unfold mvrp_cmd_parse_vid. destruct (len <? 9); [done|]. cbv zeta. set (r := parse _ _ _).
  pose proof (fun v => parse_value_typed (drop 4 buf) (len - 4) [mkParam (bytes_of_string "I=") parse_u16_04x] 0 _ v eq_refl) as Hv.
  fold r in Hv. destruct (pvalues r) as [|[x|x] vs]; try done. by apply (Hv (PInt x)).
Qed.

Lemma mvrp_cmd_vid_spec vid e s :
  mvrp_inv s -> 0 <= vid < 65536 -> wp (mvrp_cmd_vid vid e) (fun _ s' => mvrp_inv s') s.
Proof.
  intros Hinv Hv. unfold mvrp_cmd_vid. apply wp_bind, draw_quiet. intros s1 H1. pose proof (inv_quiet _ _ _ H1 Hinv) as Hinv1.
  destruct (mrp_malloc _); cbn [negb]; [|by apply wp_ret]. apply wp_bind.
  eapply wp_mono; [apply mvrp_event_spec; [done|done|done|]|]; [intros r [= <-]; by apply fresh_alloc|].
  intros _ s2 (H2 & _). by apply wp_ret.
Qed.

Lemma vid_command_spec buf len client e s :
  mvrp_inv s -> wp (vid_command buf len client e) (fun _ s' => mvrp_inv s') s.
Proof.
  intros Hinv. unfold vid_command. pose proof (parse_vid_range buf len) as Hv.
  destruct (mvrp_cmd_parse_vid buf len) as [[rc vid] text]. destruct (negb _); [by apply respond_spec|].
  apply wp_bind. eapply wp_mono; [by apply mvrp_cmd_vid_spec|]. intros rc' s1 Hinv1.
  destruct (negb _); [by apply respond_spec|by apply wp_ret].
Qed.

(** The reply to a request for the table. *)
Definition dump_reply (l : list mvrp_attribute) : string :=
  if decide (l = []) then "MVRP:Empty" +:+ newline else dump_text "" l.

Lemma dump_reply_spec l :
  Forall mac_ok l -> (if decide (l = []) then Done ("MVRP:Empty" +:+ newline) else dump_loop l String.EmptyString) =
    if decide (length l <= 49)%nat then Done (dump_reply l) else Fault OutOfBounds.
Proof.
  intros Hl. unfold dump_reply. destruct (decide (l = [])) as [->|Hne]; [done|].
  rewrite dump_loop_spec by (simpl; lia || done). cbn [String.length]. destruct (decide (_ < _)%nat), (decide (_ <= _)%nat); try lia; done.
Qed.

Lemma mac_ok_inv s : mvrp_inv s -> Forall mac_ok (attrib_list (app s)).
Proof. intros Hinv. eapply Forall_impl; [apply Hinv|]. by intros a []. Qed.

Lemma mvrp_dumptable_spec client s :
  mvrp_inv s -> (length (attrib_list (app s)) <= 49)%nat ->
  wp (mvrp_dumptable client) (fun _ s' => exists ms, quiet ms s s' /\
    (memory -> ms = if control_socket (io s) =? -1 then [] else [(client, dump_reply (attrib_list (app s)), MAX_MRPD_CMDSZ)])) s.
Proof.
  intros Hinv Hlen. pose proof (dump_reply_spec _ (mac_ok_inv _ Hinv)) as Hd. rewrite (decide_True (P := (length (attrib_list (app s)) <= 49)%nat)) in Hd by done.
  unfold mvrp_dumptable. apply wp_bind, draw_quiet. intros s1 H1.
  destruct (mrp_malloc (clk (io s))) eqn:E1; cbn [negb].
  2: { apply wp_ret. exists []. split; [done|]. intros Hm. by rewrite Hm in E1. }
  do 3 (apply wp_bind, draw_quiet; intros ? ?).
  match goal with Ha : quiet [] s1 ?s2, Hb : quiet [] ?s2 ?s3, Hc : quiet [] ?s3 ?s4 |- wp _ _ ?s4 =>
    pose proof (quiet_trans _ _ _ _ _ H1 (quiet_trans _ _ _ _ _ Ha (quiet_trans _ _ _ _ _ Hb Hc))) as Hq; rename s4 into t end.
  simpl in Hq. destruct (_ && _) eqn:E2; cbn [negb].
  2: { apply wp_ret. exists []. split; [done|]. intros Hm. by rewrite !Hm in E2. }
  unfold get_list. apply wp_bind, wp_bind, wp_get, wp_ret, wp_bind. destruct (Hq) as [[] ->].
  assert (wp (if decide (attrib_list (app s) = []) then st_ret ("MVRP:Empty" +:+ newline)
              else st_lift (dump_loop (attrib_list (app s)) String.EmptyString))
    (fun x t' => x = dump_reply (attrib_list (app s)) /\ t' = t) t) as Hw.
  { destruct (decide _); [apply wp_ret; by simplify_eq|]. by eapply wp_lift. }
  eapply wp_mono; [exact Hw|]. intros ? ? [-> ->]. apply wp_bind. eapply wp_mono; [apply send_ctl_spec|]. intros [] t' H5.
  apply wp_ret. rewrite es_socket in H5. eexists. split; [exact (quiet_trans _ _ _ _ _ Hq H5)|done].
Qed.

(** A larger table does not fit, unless memory runs out first. *)
Lemma mvrp_dumptable_big client s :
  mvrp_inv s -> (50 <= length (attrib_list (app s)))%nat ->
  (memory -> mvrp_dumptable client s = Fault OutOfBounds) /\
  (mvrp_dumptable client s = Fault OutOfBounds \/ wp (mvrp_dumptable client) (fun _ s' => quiet [] s s') s).
Proof.
  intros Hinv Hlen. pose proof (dump_reply_spec _ (mac_ok_inv _ Hinv)) as Hd.
  rewrite (decide_False (P := (length (attrib_list (app s)) <= 49)%nat)) in Hd by lia.
  set (d := fun s : MS => mkMrp (mdb s) (app s) (bump (io s))).
  assert (forall s, quiet [] s (d s)) as Hq by (intros x; apply (draw_quiet mrp_malloc (fun _ x' => quiet [] x x')); auto).
  set (m k := mrp_malloc (k + clk (io s))).
  assert (mvrp_dumptable client s =
    if m 0%nat then if m 1%nat && m 2%nat && m 3%nat then Fault OutOfBounds else Done (0, d (d (d (d s)))) else Done (-1, d s)) as E.
  { unfold mvrp_dumptable, get_list, st_bind, draw, st_get, st_ret, st_lift. cbn -[decide dump_loop newline String.append].
    subst m. cbn [Nat.add]. destruct (mrp_malloc (clk (io s))); [|done]. cbn [negb].
    destruct (_ && _); [|done]. cbn -[decide dump_loop newline String.append].
    destruct (decide (attrib_list (app s) = [])); [done|]. by rewrite Hd. }
  split.
  - intros Hm. rewrite E. subst m. cbn beta. by rewrite !Hm.
  - unfold wp. rewrite E. destruct (m 0%nat); [|right; apply Hq]. destruct (_ && _); [by left|right].
    exact (quiet_trans [] [] _ _ _ (Hq _) (quiet_trans [] [] _ _ _ (Hq _) (quiet_trans [] [] _ _ _ (Hq _) (Hq _)))).
Qed.

(** A command: only a dump of a table of fifty attributes or more goes wrong. *)
Lemma recv_cmd_db_spec buf len client s :
  mvrp_inv s ->
  (recv_cmd_db buf len client s = Fault OutOfBounds /\ take 3 buf = bytes_of_string "V??" /\
     (50 <= length (attrib_list (app s)))%nat) \/
  wp (recv_cmd_db buf len client) (fun _ s' => mvrp_inv s') s.
Proof.
  intros Hinv. unfold recv_cmd_db, draw, upd_mdb, wp, st_bind at 1 4. cbn [fst snd]. unfold st_bind at 1 3, st_modify at 1 2.
  set (s1 := mkMrp (mdb s) (app s) (bump (io s))).
  assert (quiet [] s s1) as H1 by (apply (draw_quiet mrp_malloc (fun _ s' => quiet [] s s')); auto).
  pose proof (inv_quiet _ _ _ H1 Hinv) as Hinv1. cbv beta iota. set (s2 := mkMrp _ _ (io s1)).
  assert (mvrp_inv s2) as Hinv2 by (apply inv_clients; [done|]; apply ports_add, Hinv1).
  destruct (len <? 3); [by right|]. destruct (negb _); [by right|].
  destruct (decide (take 3 buf = bytes_of_string "V??")) as [E|_].
  2: { right. repeat (destruct (decide _); [by apply vid_command_spec|]). by apply respond_spec. }
  destruct (decide (length (attrib_list (app s)) <= 49)%nat) as [Hl|Hl].
  - right. pose proof (mvrp_dumptable_spec client s2 Hinv2 Hl) as Hw. unfold wp, st_bind in *.
    destruct (mvrp_dumptable client s2) as [[? s3]|]; [|done]. destruct Hw as (ms & Hq & _). by eapply inv_quiet.
  - destruct (mvrp_dumptable_big client s2 Hinv2) as [_ Hw]; [simpl; lia|]. unfold wp, st_bind in *. destruct Hw as [-> | Hw].
    + left. split; [done|]. split; [done|lia].
    + right. destruct (mvrp_dumptable client s2) as [[? s3]|]; [|done]. by eapply inv_quiet.
Qed.

Lemma reclaim_all_spec s :
  mvrp_inv s -> wp (let! l := get_list in reclaim_loop [] l ;! st_ret 0) (fun _ s' => mvrp_inv s' /\
    attrib_list (app s') = kept (attrib_list (app s))) s.
Proof.
  intros Hinv. unfold get_list. apply wp_bind, wp_bind, wp_get, wp_ret, wp_bind.
  eapply wp_mono; [by apply reclaim_loop_spec|]. intros ? s1 [H1 H2]. apply wp_ret. split; [|done]. destruct (Hinv).
  assert (kept (attrib_list (app s)) `sublist_of` attrib_list (app s)) as Hs by apply sublist_filter.
  cbn [Datatypes.app] in H1. apply (inv_step _ _ _ Hinv (told_step_env _ _ _ H2)); rewrite ?H1.
  - by eapply list_ok_sublist.
  - rewrite list.Forall_forall in mi_silent |- *. intros x Hx. apply mi_silent. by eapply elem_of_sublist.
  - intros Hl. apply (told_lv _ _ _ H2), mi_leaving. destruct (existsb leaves (attrib_list (app s))) eqn:E; [done|].
    by rewrite (leaves_sublist _ _ Hs E) in Hl.
  - destruct H2 as (ms & [] & _). by rewrite es_lva.
  - destruct H2 as (ms & [] & _). by rewrite es_flag.
Qed.
End recv.
