(* ===== verification/MvrpProps.v ===== *)
(** * MvrpProps: what MVRP promises

    The properties of MVRP: the invariant of the daemon's life, safe reception, the
    refinement of the VLAN table, transmission of every declaration, the notifications to
    clients, and the capacity of the table dump. *)
From stdpp Require Import base gmap list strings numbers sorting.
From S2P Require Import Prelude Text Parse Mrp MrpProps Mvrp MvrpWire MvrpDecode.
From S2P Require Import MvrpInv MvrpEvent MvrpTable MvrpRecv.
#[local] Open Scope Z_scope.
#[local] Open Scope st_scope.

(** ** The life of the daemon *)

(** What reaches MVRP from the loop in [process_events] and the control socket. *)
Inductive mvrp_input :=
  | on_lva_timer
  | on_lv_timer
  | on_join_timer
  | on_periodic_timer
  | on_frame (frame : option (list Z))
  | on_command (buf : list Z) (buflen : Z) (client : sockaddr_in)
  | on_gc_timer
  | on_bye (client : sockaddr_in).

Section life.
Context `{env : MrpEnv}.

Definition deliver_event (e : mrp_event) : stM MvrpGlobal Z := with_db (st_ret 0) (mvrp_event e None).

Definition mvrp_handle (i : mvrp_input) : stM MvrpGlobal Z :=
  match i with
  | on_lva_timer => deliver_event MRP_EVENT_LVATIMER
  | on_lv_timer => deliver_event MRP_EVENT_LVTIMER
  | on_join_timer => deliver_event MRP_EVENT_TX
  | on_periodic_timer => deliver_event MRP_EVENT_PERIODIC
  | on_frame f => with_db (st_ret 0) (mvrp_recv_msg f)
  | on_command buf len client => mvrp_recv_cmd buf len client
  | on_gc_timer => mvrp_reclaim
  | on_bye client => mvrp_bye client ;! st_ret 0
  end.

(** Frames are bytes, and Ethernet's are far shorter than 1996. *)
Definition input_ok (i : mvrp_input) : Prop :=
  match i with
  | on_frame (Some f) => Forall is_byte f /\ (length f <= 1996)%nat
  | _ => True
  end.

(** States reached from start-up: the station's address is known and the timer
    descriptors are distinct. *)
Inductive reachable : MvrpGlobal -> Prop :=
  | reach_start i enable rc mem join lv lva ret g :
      length (STATION_ADDR i) = 6%nat -> Forall is_byte (STATION_ADDR i) ->
      join <> lv -> join <> lva -> lv <> lva ->
      mvrp_init enable rc mem join lv lva (inl i) = Done (ret, g) -> reachable g
  | reach_step g inp ret g' :
      reachable g -> input_ok inp -> mvrp_handle inp g = Done (ret, g') -> reachable g'.

Definition global_inv (g : MvrpGlobal) : Prop := match g with inl _ => True | inr s => mvrp_inv s end.

(** A request to dump a table that does not fit. *)
Definition oversized_dump (i : mvrp_input) (g : MvrpGlobal) : Prop :=
  match i, g with
  | on_command buf _ _, inr s => take 3 buf = bytes_of_string "V??" /\ (50 <= length (attrib_list (app s)))%nat
  | _, _ => False
  end.

Hypothesis Hok : timers_ok env.
Hypothesis Hrand : forall n, 0 <= mrp_random n.

Lemma with_db_spec {A} (null : stM Io A) (m : stM MS A) g :
  global_inv g -> (forall i, exists a i', null i = Done (a, i')) ->
  (forall s, g = inr s -> mvrp_inv s -> wp m (fun _ s' => mvrp_inv s') s) -> wp (with_db null m) (fun _ => global_inv) g.
Proof.
  intros Hg Hn Hm. unfold wp, with_db. destruct g as [i|s].
  - by destruct (Hn i) as (a & i' & ->).
  - specialize (Hm s eq_refl Hg). unfold wp in Hm. by destruct (m s) as [[a s']|].
Qed.

Lemma mvrp_handle_spec i g :
  global_inv g -> input_ok i ->
  (mvrp_handle i g = Fault OutOfBounds /\ oversized_dump i g) \/ wp (mvrp_handle i) (fun _ => global_inv) g.
Proof.
  intros Hg Hi.
  assert (forall e, wp (deliver_event e) (fun _ => global_inv) g) as He.
  { intros e. apply with_db_spec; [done|by eauto|]. intros s _ Hs.
    eapply wp_mono; [by apply mvrp_event_spec|]. by intros _ s' (? & _). }
  destruct i; cbn [mvrp_handle]; try (right; apply He).
  - right. apply with_db_spec; [done|by eauto|]. intros s _ Hs. apply mvrp_recv_msg_spec; [done|done|done|].
    intros b ->. exact Hi.
  - destruct g as [o|s]; [right; unfold mvrp_recv_cmd, wp, with_db, null_respond, st_bind; done|].
    unfold mvrp_recv_cmd, wp, with_db. destruct (recv_cmd_db_spec Hok Hrand buf buflen client s Hg) as [[-> H]|H]; [by left|].
    right. unfold wp in H. by destruct (recv_cmd_db _ _ _ s) as [[? ?]|].
  - right. apply with_db_spec; [done|by eauto|]. intros s _ Hs. eapply wp_mono; [by apply reclaim_all_spec|]. by intros ? s' [? _].
  - right. apply wp_bind. eapply wp_mono; [apply with_db_spec; [done|by eauto|]|].
    + intros s _ Hs. apply wp_modify, inv_clients; [done|]. apply ports_delete, Hs.
    + intros ? s' Hs. by apply wp_ret.
Qed.

Lemma mvrp_init_inv i enable rc mem join lv lva ret g :
  length (STATION_ADDR i) = 6%nat -> Forall is_byte (STATION_ADDR i) -> join <> lv -> join <> lva -> lv <> lva ->
  mvrp_init enable rc mem join lv lva (inl i) = Done (ret, g) -> global_inv g.
Proof.
  intros Hs1 Hs2 H1 H2 H3. unfold mvrp_init. destruct enable, (rc <? 0), mem; cbn [negb]; try (by intros [= <- <-]).
  unfold mrpd_init_timers. destruct (_ || _); [by intros [= <- <-]|]. set (s0 := mkMrp _ _ _).
  destruct (wp_done _ _ _ (mrp_lvatimer_fsm_spec MRP_EVENT_BEGIN s0 Hrand)) as (r & s & E & H4 & [] & _).
  rewrite E. intros [= <- <-]. cbn. split; rewrite ?ls_app, ?ls_clients; try done.
  - constructor; constructor.
  - apply ls_wf. by split.
  - split; by rewrite ls_station.
  - constructor.
  - by rewrite H4.
Qed.

Lemma mvrp_reachable_inv g : reachable g -> global_inv g.
Proof.
  induction 1 as [i enable rc mem join lv lva ret g Hs1 Hs2 H1 H2 H3 E|g inp ret g' _ IH Hi E].
  - exact (mvrp_init_inv _ _ _ _ _ _ _ _ _ Hs1 Hs2 H1 H2 H3 E).
  - destruct (mvrp_handle_spec inp g IH Hi) as [[E' _]|Hw]; [congruence|]. unfold wp in Hw. by rewrite E in Hw.
Qed.
End life.

(** C3. The life of the MVRP daemon: in every state reached from start-up by timer
    expiries, frames of at most 1996 bytes, client commands, garbage collection and departing
    clients, the attributes are sorted by VID without duplicates, nothing is left to announce,
    a leaving registration always has the leave timer running and armed, and no two clients
    share a port; and every further input, if it is not a frame of more than 1996 bytes nor a
    request to dump a table of fifty attributes or more, is processed to the end without a
    fault.  (Longer frames and larger dumps can leave their buffers.) *)
Theorem mvrp_reachable_invariant (env : MrpEnv) g :
  timers_ok env -> (forall n, 0 <= mrp_random n) -> reachable g ->
  (forall s, g = inr s ->
     StronglySorted Z.lt (attribute <$> attrib_list (app s)) /\
     Forall (fun a => 0 <= attribute a < 65536) (attrib_list (app s)) /\
     Forall (fun a => notify (registrar a) = MRP_NOTIFY_NONE) (attrib_list (app s)) /\
     (forall a, a ∈ attrib_list (app s) -> reg_state (registrar a) = MRP_LV_STATE ->
        lv_timer_running (mdb s) = true /\ is_Some (armed (io s) !! lv_timer (mdb s))) /\
     NoDup (sin_port <$> clients (mdb s))) /\
  (forall i, input_ok i -> ~ oversized_dump i g -> exists ret g', mvrp_handle i g = Done (ret, g') /\ reachable g').
Proof.
  intros Hok Hrand Hg. pose proof (mvrp_reachable_inv Hok Hrand g Hg) as Hinv. split.
  - intros s ->. destruct Hinv. destruct mi_list as [H1 H2]. split_and!; try done.
    + eapply Forall_impl; [exact H2|]. by intros a [].
    + intros a Ha Hl. assert (existsb leaves (attrib_list (app s)) = true) as H3.
      { apply existsb_exists. exists a. split; [by apply list_elem_of_In|]. unfold leaves. by apply bool_decide_eq_true. }
      specialize (mi_leaving H3). split; [done|]. by apply mi_timers.
  - intros i Hi Hd. destruct (mvrp_handle_spec Hok Hrand i g Hinv Hi) as [[_ H]|H]; [done|].
    apply wp_done in H as (ret & g' & E & _). exists ret, g'. split; [done|]. by eapply reach_step.
Qed.

(** ** Reception *)

(** A frame of 2000 bytes with one vector of 5942 values that starts at VID 65535. *)
Definition long_frame : list Z :=
  MVRP_CUSTOMER_BRIDGE_ADDR ++ [2; 0; 0; 0; 0; 1] ++ be_bytes 2 MVRP_ETYPE ++
  [MVRP_PROT_VER; MVRP_VID_TYPE; 2] ++ be_bytes 2 5942 ++ [255; 255] ++ replicate 1979 0.

(** C6. Safe reception: whatever bytes a frame of at most 1996 bytes holds, and
    whatever memory allocations fail on the way, [mvrp_recv_msg] comes to its end: its
    three nested loops stop within their bounds, no read leaves the receive buffer
    (although the decoder looks up to four bytes past the frame), and the database stays
    well formed.  The bound matters: a frame that fills the buffer can make the decoder
    read beyond it. *)
Theorem mvrp_recv_safe (env : MrpEnv) (s : MS) frame :
  timers_ok env -> (forall n, 0 <= mrp_random n) -> mvrp_inv s -> Forall is_byte frame ->
  ((length frame <= 1996)%nat -> exists rc s', mvrp_recv_msg (Some frame) s = Done (rc, s') /\ mvrp_inv s') /\
  (mrp_malloc (clk (io s)) = true -> frame = long_frame -> mvrp_recv_msg (Some frame) s = Fault OutOfBounds).
Proof.
  intros Hok Hrand Hinv Hb. split.
  - intros Hl. assert (wp (mvrp_recv_msg (Some frame)) (fun _ s' => mvrp_inv s') s) as H.
    { apply mvrp_recv_msg_spec; [done|done|done|]. by intros b [= <-]. }
    apply wp_done in H as (rc & s' & ? & ?). by exists rc, s'.
  - intros Hm ->. unfold mvrp_recv_msg, st_bind at 1, draw. rewrite Hm. vm_compute. reflexivity.
Qed.

(** ** The table of registrations *)

(** An attribute event's VID and source address. *)
Definition request (vm : option (Z * list Z)) : option mvrp_attribute :=
  (fun x => mvrp_alloc (fst x) (snd x)) <$> vm.

Definition request_ok (vm : option (Z * list Z)) : Prop :=
  forall v m, vm = Some (v, m) -> 0 <= v < 65536 /\ length m = 6%nat.

Lemma request_fresh vm r : request_ok vm -> request vm = Some r -> fresh r /\ unregistered r.
Proof.
  intros Hv. destruct vm as [[v m]|]; [|done]. cbn. intros [= <-]. destruct (Hv v m eq_refl).
  split; [by apply fresh_alloc|done].
Qed.

(** C4. MVRP refines a table of VLANs: seen as a finite map from VID to applicant and
    registrar state, the database after [mvrp_event] is the one the abstract [vlan_step]
    computes from the database before: an attribute event changes the entry of its VID
    only (creating it, or removing it when nobody is interested any more), the timer and
    leave-all events step every entry, and nothing else (list order, memory, clients,
    transmission) has an influence. *)
Theorem mvrp_event_refines (env : MrpEnv) e vm (s : MS) :
  timers_ok env -> (forall n, 0 <= mrp_random n) -> mvrp_inv s -> request_ok vm ->
  exists rc s', mvrp_event e (request vm) s = Done (rc, s') /\ mvrp_inv s' /\
    table (attrib_list (app s')) = vlan_step (p2pmac (io s)) e (fst <$> vm) (table (attrib_list (app s))).
Proof.
  intros Hok Hrand Hinv Hv.
  assert (forall r, request vm = Some r -> fresh r) as Hr by (intros r E; by apply (request_fresh vm r Hv E)).
  destruct (wp_done _ _ _ (mvrp_event_spec Hok Hrand e (request vm) s Hinv Hr)) as (rc & s' & E & H1 & H2 & _).
  exists rc, s'. split; [done|]. split; [done|]. rewrite (table_sent _ _ H2). unfold event_result. rewrite table_hush.
  rewrite table_event; [|apply Hinv|intros r; by apply request_fresh]. f_equal. by destruct vm as [[]|].
Qed.

(** ** Notifications *)

(** Every client is told [verb] of the attribute. *)
Definition tell (cs : list sockaddr_in) (verb : string) (a : mvrp_attribute) : list message :=
  (fun c => (c, notify_text verb a, MAX_MRPD_CMDSZ)) <$> cs.

Lemma announce_tell s n verb a :
  control_socket (io s) <> -1 -> notify_verb n = Some verb -> announce (around s) n a = tell (clients (mdb s)) verb a.
Proof. intros Hc E. unfold announce. rewrite E. cbn. by apply Z.eqb_neq in Hc as ->. Qed.

(** The messages of an event for one VID are those of its attribute. *)
Lemma request_messages w e r l b a c :
  attribute_events e = true -> Forall silent l -> event_at (snd w) e (Some r) l = Some (b, a, c) ->
  event_messages w e (Some r) l =
    if reclaimable a then announce w MRP_NOTIFY_LV a else announce w (notify (registrar a)) a.
Proof.
  intros He Hs Ea. unfold event_messages. rewrite event_list_at, event_bye_at, Ea by done.
  apply event_at_target in Ea as (l' & a0 & H1 & -> & H2 & _).
  destruct (event_target_split _ _ _ _ H1) as (b' & a1 & c' & _ & _ & H3 & H4). rewrite H2 in H3. simplify_eq.
  assert (Forall silent b' /\ Forall silent c') as [Hb Hc].
  { destruct H4 as [(a2 & -> & _)|(-> & _)]; apply Forall_app in Hs as [? Hs]; [by apply Forall_cons_iff in Hs as [??]|done]. }
  rewrite !fmap_app, !concat_app, (announce_silent w b' Hb), (announce_silent w c' Hc), app_nil_r.
  cbn [Datatypes.app]. unfold farewell, kept. rewrite list.filter_cons.
  destruct (reclaimable a) eqn:E.
  - rewrite decide_False by done. by rewrite app_nil_r.
  - rewrite decide_True by done. cbn [fmap list_fmap concat Datatypes.app]. by rewrite app_nil_r.
Qed.

(** A received Join or New leaves a registered attribute. *)
Lemma registering e r l p2p :
  e = MRP_EVENT_RJOININ \/ e = MRP_EVENT_RJOINMT \/ e = MRP_EVENT_RNEW ->
  list_ok l -> fresh r -> unregistered r ->
  exists b a c, event_at p2p e (Some r) l = Some (b, a, c) /\ attribute a = attribute r /\ reclaimable a = false /\
    notify (registrar a) =
      if decide (e = MRP_EVENT_RNEW) then MRP_NOTIFY_NEW
      else if decide (snd <$> table l !! attribute r = Some MRP_IN_STATE) then MRP_NOTIFY_NONE else MRP_NOTIFY_JOIN.
Proof.
  intros He Hl Hr Hu. destruct (event_target e r l) as [l'|] eqn:E.
  2: { unfold event_target in E. destruct (mvrp_lookup l r); [done|]. by destruct (decide _), He as [-> | [-> | ->]]. }
  destruct (event_target_split _ _ _ _ E) as (b & a0 & c & -> & H1 & H2 & _).
  destruct (table_target _ _ _ _ _ _ E H2 Hl (list_ok_target _ _ _ _ E Hr Hl) Hu) as (_ & H3 & _).
  exists b, (attribute_request p2p e a0), c. split; [unfold event_at; cbn [mbind option_bind]; rewrite E; cbn [mbind option_bind]; by rewrite H2|].
  split; [by rewrite (kp_vid _ (keeps_attribute p2p e))|].
  assert (snd <$> table l !! attribute r = Some MRP_IN_STATE <-> reg_state (registrar a0) = MRP_IN_STATE) as H4.
  { change (reg_state (registrar a0)) with (snd (states a0)). rewrite H3. destruct (table l !! attribute r); cbn; [|done].
    split; congruence. }
  pose proof (states_live (attribute_request p2p e a0)) as H5. rewrite states_request in H5.
  assert (reg_to (local_request e) (snd (states a0)) = MRP_IN_STATE) as Hin
    by (unfold reg_to; destruct He as [-> | [-> | ->]]; cbn; by destruct (reg_state (registrar a0))).
  rewrite Hin in H5. split; [destruct (app_to p2p e (states a0)), (reclaimable _); done|].
  destruct (decide (snd <$> table l !! attribute r = Some MRP_IN_STATE)) as [H6|H6]; rewrite H4 in H6;
    destruct He as [-> | [-> | ->]]; cbn; unfold reg_next; cbn; destruct (reg_state (registrar a0)); done.
Qed.

Lemma elem_of_concat {A} (x : A) ls l : x ∈ l -> l ∈ ls -> x ∈ concat ls.
Proof.
  intros Hx. induction ls as [|k ls IH]; [by intros H%elem_of_nil|]. rewrite elem_of_cons. cbn [concat]. rewrite elem_of_app.
  intros [->|H]; auto.
Qed.

(** Every leaving attribute is announced when the leave timer expires. *)
Lemma expired_message w ra l a m :
  a ∈ l -> reg_state (registrar a) = MRP_LV_STATE ->
  m ∈ announce w MRP_NOTIFY_LV (reg_upd MRP_EVENT_LVTIMER a) -> m ∈ event_messages w MRP_EVENT_LVTIMER ra l.
Proof.
  intros Ha Hlv Hm. set (a' := reg_upd MRP_EVENT_LVTIMER a) in *. unfold event_messages. rewrite elem_of_app.
  assert (a' ∈ reg_upd MRP_EVENT_LVTIMER <$> l) as Ha' by (by apply list_elem_of_fmap_2).
  destruct (reclaimable a') eqn:E.
  - left. cbn [event_bye]. eapply elem_of_concat; [|apply list_elem_of_fmap_2, Ha']. unfold farewell. by rewrite E.
  - right. cbn [event_list]. eapply elem_of_concat; [exact Hm|]. apply list_elem_of_fmap. exists a'. split.
    + subst a'. unfold reg_upd, reg_next. cbn. by rewrite Hlv.
    + by apply list_elem_of_filter.
Qed.

(** C10. What clients hear: with memory and a control socket, a received Join of a VID
    that was not registered tells every client VJO once, and one of a registered VID
    tells nobody; a received New always tells every client VNE; and when the leave timer
    ends a registration, every client is told VLE of that VID. *)
Theorem mvrp_notifications (env : MrpEnv) e vid mac (s : MS) :
  timers_ok env -> (forall n, 0 <= mrp_random n) -> (forall n, mrp_malloc n = true) ->
  mvrp_inv s -> 0 <= vid < 65536 -> length mac = 6%nat -> control_socket (io s) <> -1 ->
  exists rc s', mvrp_event e (Some (mvrp_alloc vid mac)) s = Done (rc, s') /\
    let registered := bool_decide (snd <$> table (attrib_list (app s)) !! vid = Some MRP_IN_STATE) in
    (e = MRP_EVENT_RJOININ \/ e = MRP_EVENT_RJOINMT ->
       if registered then ctl (io s') = ctl (io s)
       else exists a, attribute a = vid /\ ctl (io s') = ctl (io s) ++ tell (clients (mdb s)) "VJO" a) /\
    (e = MRP_EVENT_RNEW -> exists a, attribute a = vid /\ ctl (io s') = ctl (io s) ++ tell (clients (mdb s)) "VNE" a) /\
    (e = MRP_EVENT_LVTIMER -> forall a c, a ∈ attrib_list (app s) -> reg_state (registrar a) = MRP_LV_STATE ->
       c ∈ clients (mdb s) -> exists a' told, attribute a' = attribute a /\ ctl (io s') = ctl (io s) ++ told /\
         (c, notify_text "VLE" a', MAX_MRPD_CMDSZ) ∈ told).
Proof.
  intros Hok Hrand Hm Hinv Hv Hmac Hc. set (r := mvrp_alloc vid mac).
  assert (forall x, Some r = Some x -> fresh x) as Hr by (intros x [= <-]; by apply fresh_alloc).
  destruct (wp_done _ _ _ (mvrp_event_spec Hok Hrand e (Some r) s Hinv Hr)) as (rc & s' & E & _ & _ & (ms & [] & H3)).
  exists rc, s'. split; [done|]. rewrite (H3 Hm) in vs_ctl. clear H3 ms.
  assert (e = MRP_EVENT_RJOININ \/ e = MRP_EVENT_RJOINMT \/ e = MRP_EVENT_RNEW -> exists a, attribute a = vid /\
    ctl (io s') = ctl (io s) ++ announce (around s) (if decide (e = MRP_EVENT_RNEW) then MRP_NOTIFY_NEW
      else if decide (snd <$> table (attrib_list (app s)) !! vid = Some MRP_IN_STATE) then MRP_NOTIFY_NONE
      else MRP_NOTIFY_JOIN) a) as Hreg.
  { intros He. destruct (registering e r (attrib_list (app s)) (p2pmac (io s)) He) as (b & a & c & H1 & H2 & H3 & H4);
      [apply Hinv|by apply Hr|done|]. exists a. split; [done|]. rewrite vs_ctl.
    rewrite (request_messages _ _ _ _ b a c); [|by destruct He as [-> | [-> | ->]]|apply Hinv|done]. by rewrite H3, H4. }
  split_and!.
  - intros He. destruct Hreg as (a & Ha & ->); [tauto|]. rewrite decide_False by (by destruct He as [-> | ->]).
    case_bool_decide as Hi.
    + rewrite decide_True by done. by rewrite app_nil_r.
    + rewrite decide_False by done. exists a. split; [done|]. by erewrite announce_tell.
  - intros ->. destruct Hreg as (a & Ha & ->); [tauto|]. rewrite decide_True by done. exists a. split; [done|].
    by erewrite announce_tell.
  - intros -> a c Ha Hlv Hcl. exists (reg_upd MRP_EVENT_LVTIMER a). eexists. split; [done|]. split; [exact vs_ctl|].
    apply (expired_message _ _ _ a); [done|done|]. rewrite (announce_tell s _ "VLE") by done. unfold tell.
    by apply (list_elem_of_fmap_2 (fun c => (c, notify_text "VLE" _, MAX_MRPD_CMDSZ))).
Qed.

(** ** Transmission *)
Lemma planned_sent_or_not full l l' vs : planned full l l' vs -> Forall2 sent_or_not l l'.
Proof.
  induction 1 as [l _|a l l' vs _ _ IH|a l l' vs _ _ _ IH|a l r r' vs _ _ _ _ IH].
  - apply sent_or_not_refl.
  - constructor; [by left|done].
  - constructor; [by right|done].
  - constructor; [by right|]. apply Forall2_app; [apply sent_all|done].
Qed.

Lemma planned_unmarked l l' vs : planned false l l' vs -> ntx l' = 0%nat.
Proof.
  induction 1 as [l [Hl|?]|a l l' vs Ht _ IH|a l l' vs Ht _ _ IH|a l r r' vs Ht _ Hr _ IH]; try done.
  - by rewrite ntx_cons, Ht, IH.
  - rewrite ntx_cons, ntx_app, ntx_clear. by rewrite IH.
Qed.

Definition wants (a : mvrp_attribute) : bool := wants_tx (app_state (applicant a)).

Lemma tx_count p2p l n :
  foldl add_tx_count n (app_next p2p MRP_EVENT_TX <$> l) =
  n + Z.of_nat (length (base.filter (fun a => wants a = true) (app_next p2p MRP_EVENT_TX <$> l))).
Proof.
  revert n. induction l as [|a l IH]; intros n; [simpl; lia|]. rewrite fmap_cons. cbn [foldl]. rewrite IH, list.filter_cons.
  destruct (applicant_tx_progress p2p (applicant a) (mrp_registrar_in (registrar a))) as (_ & _ & H).
  assert (add_tx_count n (app_next p2p MRP_EVENT_TX a) = n + if wants (app_next p2p MRP_EVENT_TX a) then 1 else 0) as ->
    by (unfold add_tx_count; f_equal; exact H).
  destruct (wants (app_next p2p MRP_EVENT_TX a)); [rewrite decide_True by done|rewrite decide_False by done]; cbn [length]; lia.
Qed.

Lemma existsb_filter {A} (f : A -> bool) l : existsb f l = true <-> length (base.filter (fun a => f a = true) l) <> 0%nat.
Proof.
  induction l as [|a l IH]; [done|]. cbn [existsb]. rewrite orb_true_iff, IH, list.filter_cons.
  destruct (f a); [rewrite decide_True by done|rewrite decide_False by done]; cbn [length]; intuition (done || lia).
Qed.

Lemma wants_sent l l' : Forall2 sent_or_not l l' -> existsb wants l' = existsb wants l.
Proof. induction 1 as [|a a' l l' [-> | ->] _ IH]; [done|..]; cbn [existsb]; by rewrite IH. Qed.

Lemma wants_hushed l : existsb wants (hush <$> l) = existsb wants l.
Proof. induction l as [|a l IH]; [done|]. rewrite fmap_cons. cbn [existsb]. by rewrite IH. Qed.

Lemma ntx_hush l : ntx (hush <$> l) = ntx l.
Proof. induction l as [|a l IH]; [done|]. rewrite fmap_cons, !ntx_cons, IH. done. Qed.

Section transmission.
Context `{env : MrpEnv}.
Hypothesis Hok : timers_ok env.
Hypothesis Hmem : forall n, mrp_malloc n = true.
Hypothesis Hsend : forall n len, 0 < len -> 0 < send_rc n len.

(** The transmission of a table that fits. *)
Record tx_round (s s' : MS) (vs : list vec) : Prop := mkTxRound {
  tr_plan : planned false (app_next (p2pmac (io s)) MRP_EVENT_TX <$> attrib_list (app s)) (attrib_list (app s')) vs;
  tr_frames : frames (io s') = frames (io s) ++
    match vs with [] => [] | _ => [frame_of (STATION_ADDR (io s)) (enc_vecs (lva_tx (lva (mdb s))) vs)] end;
  tr_join : join_timer_running (mdb s') = existsb wants (app_next (p2pmac (io s)) MRP_EVENT_TX <$> attrib_list (app s)) }.

Lemma event_tx_round (s : MS) :
  mvrp_inv s -> (length (attrib_list (app s)) <= 394)%nat ->
  wp (event_switch MRP_EVENT_TX None) (fun r s' => r = (true, 0) /\ exists vs, tx_round s s' vs) s.
Proof.
  intros Hinv Hlen. destruct (Hinv). cbn [event_switch]. apply wp_bind. eapply wp_mono; [apply mrp_jointimer_stop_spec|].
  intros _ s1 (H1 & _ & _ & H2). apply wp_bind. eapply wp_mono; [apply sweep_spec, acts_applicant|].
  intros _ s2 (H3 & H4 & _). unfold get_list. apply wp_bind, wp_bind, wp_get, wp_ret, wp_bind. destruct H1, H4 as (ms & [] & _).
  unfold around in H3. cbn [snd] in H3. rewrite ts_app, ts_p2pmac in H3.
  set (l1 := app_next (p2pmac (io s)) MRP_EVENT_TX <$> attrib_list (app s)) in *.
  eapply wp_mono; [apply mvrp_txpdu_spec|].
  { destruct mi_station. split; by rewrite es_station, ts_station. }
  { rewrite H3. eapply Forall_impl; [apply (list_ok_map _ _ (keeps_app _ _) mi_list)|]. by intros a []. }
  intros _ s3 ([] & _ & H5). destruct H5 as (vs & Hp & _ & Hf & _); [done|done| |].
  { rewrite H3. unfold ntx. etrans; [apply length_filter|]. subst l1. by rewrite length_fmap. }
  rewrite H3 in *. rewrite es_flag, ts_app, mi_flag in Hf. rewrite es_frames, ts_frames, es_station, ts_station, es_lva, ts_lva in Hf.
  assert (join_timer_running (mdb s3) = false) as Hj by (destruct txs_db as [-> | ->]; cbn; by rewrite es_join, H2).
  assert (frames (io s3) = frames (io s) ++
    match vs with [] => [] | _ => [frame_of (STATION_ADDR (io s)) (enc_vecs (lva_tx (lva (mdb s))) vs)] end) as Hfr
    by (rewrite Hf; by destruct vs).
  unfold l1 at 1. rewrite tx_count. fold l1. pose proof (existsb_filter wants l1) as Hw. apply wp_bind.
  destruct (Z.eqb_spec (0 + Z.of_nat (length (base.filter (fun a => wants a = true) l1))) 0) as [Hz|Hz].
  - apply wp_ret, wp_ret. split; [done|]. exists vs. split; [done|done|]. rewrite Hj. symmetry.
    fold l1. destruct (existsb wants l1); [|done]. exfalso. apply Hw; [done|lia].
  - eapply wp_mono; [apply mrp_jointimer_start_spec|]. intros _ s4 ([] & _ & _ & H6). apply wp_ret. split; [done|].
    exists vs. split; [by rewrite ts_app0|by rewrite ts_frames0|]. rewrite (H6 Hok). symmetry. fold l1. apply Hw. lia.
Qed.
End transmission.

(** C9. No declaration is lost: when the join timer expires on a table of at most 394
    VLANs, which one frame can always hold, and [malloc] and [send] succeed, [mvrp_event]
    sends one frame (none if nobody has anything to say) in which every attribute whose
    applicant must transmit appears with its event; no attribute stays marked, and the join
    timer runs again exactly when some applicant still has something to transmit.  (A table
    that fills the frame has the attributes that are left over dropped from it.) *)
Theorem mvrp_transmission (env : MrpEnv) (s : MS) :
  timers_ok env -> (forall n, 0 <= mrp_random n) -> (forall n, mrp_malloc n = true) ->
  (forall n len, 0 < len -> 0 < send_rc n len) -> mvrp_inv s -> (length (attrib_list (app s)) <= 394)%nat ->
  exists s' vs, mvrp_event MRP_EVENT_TX None s = Done (0, s') /\ mvrp_inv s' /\
    frames (io s') = frames (io s) ++
      match vs with [] => [] | _ => [frame_of (STATION_ADDR (io s)) (enc_vecs (lva_tx (lva (mdb s))) vs)] end /\
    (forall a, a ∈ attrib_list (app s) -> wants_tx (app_state (applicant a)) = true ->
       exists c, vect_event (app_next (p2pmac (io s)) MRP_EVENT_TX a) = Some c /\ (attribute a, c) ∈ wire_events vs) /\
    ntx (attrib_list (app s')) = 0%nat /\
    (join_timer_running (mdb s') = true <->
       exists a, a ∈ attrib_list (app s') /\ wants_tx (app_state (applicant a)) = true).
Proof.
  intros Hok Hrand Hmem Hsend Hinv Hlen.
  destruct (wp_done _ _ _ (event_tx_round Hok Hmem Hsend s Hinv Hlen)) as (r & s1 & E1 & -> & vs & [Hplan Hframes Hjoin]).
  pose proof (mvrp_event_spec Hok Hrand MRP_EVENT_TX None s Hinv ltac:(done)) as Hw. unfold wp in Hw.
  assert (wp (for_each_attrib notify_one) (fun _ s' => attrib_list (app s') = hush <$> attrib_list (app s1) /\
    exists ms, env_step ms s1 s') s1) as H2.
  { eapply wp_mono; [by eapply for_each_spec; [apply acts_notify|]|]. intros _ s' (H1 & (ms & H2 & _) & _). eauto. }
  destruct (wp_done _ _ _ H2) as (u & s2 & E2 & H3 & ms & []).
  assert (mvrp_event MRP_EVENT_TX None s = Done (0, s2)) as E
    by (unfold mvrp_event, st_bind; rewrite E1; cbn [fst]; by rewrite E2).
  rewrite E in Hw. destruct Hw as (Hinv' & _ & _). exists s2, vs. split_and!; [done|done|by rewrite es_frames| | |].
  - intros a Ha Hwant. set (a' := app_next (p2pmac (io s)) MRP_EVENT_TX a).
    destruct (applicant_tx_progress (p2pmac (io s)) (applicant a) (mrp_registrar_in (registrar a))) as (H4 & _).
    destruct (H4 Hwant) as (Ht & He & _). clear H4.
    assert (tx_ok a') as Hok' by (apply keeps_app; destruct Hinv as [[_ Hl] _ _ _ _ _ _ _]; rewrite list.Forall_forall in Hl; auto).
    destruct (Hok' Ht) as [c Hc]. exists c. split; [done|].
    destruct (planned_sent _ _ _ _ Hplan) as (sent & _ & _ & -> & H5).
    apply list_elem_of_fmap. exists a'. split; [unfold event_of, code; by rewrite Hc|].
    apply H5; [done| |done|done]. by apply list_elem_of_fmap_2.
  - rewrite H3, ntx_hush. by eapply planned_unmarked.
  - rewrite es_join, Hjoin. assert (existsb wants (attrib_list (app s2)) =
      existsb wants (app_next (p2pmac (io s)) MRP_EVENT_TX <$> attrib_list (app s))) as <-.
    { rewrite H3, wants_hushed. apply wants_sent. by eapply planned_sent_or_not. }
    rewrite existsb_exists. split; intros (a & Ha & Hb); exists a; (split; [by apply list_elem_of_In|done]).
Qed.

(** ** The table dump *)

(** The table dump fits exactly up to 49 VLANs: then the client gets one line of 30
    characters for every attribute, in order (or the message that the table is empty);
    with memory available and fifty attributes or more, [mvrp_dumptable] writes past the
    end of its 1500-byte buffer. *)
Theorem mvrp_dump_capacity (env : MrpEnv) client (s : MS) :
  (forall n, mrp_malloc n = true) -> mvrp_inv s -> control_socket (io s) <> -1 ->
  ((length (attrib_list (app s)) <= 49)%nat ->
     exists rc s', mvrp_dumptable client s = Done (rc, s') /\ attrib_list (app s') = attrib_list (app s) /\
       ctl (io s') = ctl (io s) ++ [(client, dump_reply (attrib_list (app s)), MAX_MRPD_CMDSZ)] /\
       (attrib_list (app s) <> [] ->
          String.length (dump_reply (attrib_list (app s))) = (30 * length (attrib_list (app s)))%nat)) /\
  ((50 <= length (attrib_list (app s)))%nat -> mvrp_dumptable client s = Fault OutOfBounds).
Proof.
  intros Hmem Hinv Hc. split.
  - intros Hl. destruct (wp_done _ _ _ (mvrp_dumptable_spec client s Hinv Hl)) as (rc & s' & E & ms & [[] H1] & H2).
    exists rc, s'. split_and!; [done|done| |].
    + rewrite es_ctl, (H2 Hmem). apply Z.eqb_neq in Hc as ->. done.
    + intros Hne. unfold dump_reply. rewrite decide_False by done. rewrite dump_text_length; [done|by apply mac_ok_inv].
  - intros Hl. by apply mvrp_dumptable_big.
Qed.
