(* ===== verification/MvrpList.v ===== *)
(** * MvrpList: the attribute list in memory

    [Mvrp] sees the attributes as a list.  Here is the doubly linked list of the source:
    nodes at addresses, with [next] and [prev] pointers and the head in the database.
    The pointer programs [mvrp_lookup], [mvrp_add] and the unlinking in
    [mvrp_conditional_reclaim] implement lookup, ordered insertion and removal of the
    list they represent, follow no dangling pointer and touch no other node. *)
From stdpp Require Import base gmap list strings numbers.
From S2P Require Import Prelude Text Parse Mrp Mvrp.
#[local] Open Scope Z_scope.

(** ** Nodes and pointers *)
Definition ptr : Type := option positive.

Record node := mkNode { n_attr : mvrp_attribute; n_next : ptr; n_prev : ptr }.

Notation heap := (gmap positive node).

(** The heap and [MVRP_db->attrib_list]. *)
Definition mem : Type := heap * ptr.

Definition load (h : heap) (p : ptr) : outcome node :=
  match p with
  | None => Fault NullDeref
  | Some x => or_fault Dangling (h !! x)
  end.

Definition store (h : heap) (p : ptr) (f : node -> node) : outcome heap :=
  match p with
  | None => Fault NullDeref
  | Some x => n ← or_fault Dangling (h !! x); Done (<[x := f n]> h)
  end.

Definition set_next (v : ptr) (n : node) : node := mkNode (n_attr n) v (n_prev n).
Definition set_prev (v : ptr) (n : node) : node := mkNode (n_attr n) (n_next n) v.

(** ** The pointer programs *)

(** The [while] loop of [mvrp_lookup]. *)
Fixpoint lookup_loop (fuel : nat) (h : heap) (attrib : ptr) (vid : Z) : outcome ptr :=
  match attrib with
  | None => Done None
  | Some _ =>
      match fuel with
      | O => Fault OutOfFuel
      | S fuel' =>
          n ← load h attrib;
          if attribute (n_attr n) =? vid then Done attrib else lookup_loop fuel' h (n_next n) vid
      end
  end.

(** The [while] loop of [mvrp_add] and what follows it; [tail] is [attrib_tail]. *)
Fixpoint add_loop (fuel : nat) (h : heap) (head attrib tail rattrib : ptr) : outcome mem :=
  match attrib with
  | None =>
      match tail with
      | None =>
          h ← store h rattrib (set_next None); h ← store h rattrib (set_prev None); Done (h, rattrib)
      | Some _ =>
          h ← store h rattrib (set_next None); h ← store h rattrib (set_prev tail);
          h ← store h tail (set_next rattrib); Done (h, head)
      end
  | Some _ =>
      match fuel with
      | O => Fault OutOfFuel
      | S fuel' =>
          n ← load h attrib; r ← load h rattrib;
          if attribute (n_attr n) <? attribute (n_attr r) then
            match n_next n with
            | Some _ => add_loop fuel' h head (n_next n) tail rattrib
            | None =>
                h ← store h rattrib (set_next (n_next n)); h ← store h rattrib (set_prev attrib);
                h ← store h attrib (set_next rattrib); Done (h, head)
            end
          else
            h ← store h rattrib (set_next attrib); h ← store h rattrib (set_prev (n_prev n));
            h ← store h attrib (set_prev rattrib);
            r ← load h rattrib;
            match n_prev r with
            | Some _ => h ← store h (n_prev r) (set_next rattrib); Done (h, head)
            | None => Done (h, rattrib)
            end
      end
  end.

Definition heap_add (fuel : nat) (m : mem) (rattrib : ptr) : outcome mem :=
  add_loop fuel (fst m) (snd m) (snd m) (snd m) rattrib.

(** The unlinking of [vattrib] in [mvrp_conditional_reclaim] and its [free]; the pointer
    is the next attribute. *)
Definition heap_unlink (m : mem) (vattrib : ptr) : outcome (ptr * mem) :=
  let '(h, head) := m in
  v ← load h vattrib;
  '(h, head) ← match n_prev v with
               | Some _ => h ← store h (n_prev v) (set_next (n_next v)); Done (h, head)
               | None => Done (h, n_next v)
               end;
  h ← match n_next v with
      | Some _ => store h (n_next v) (set_prev (n_prev v))
      | None => Done h
      end;
  Done (n_next v, (match vattrib with Some x => delete x h | None => h end, head)).

(** The loop of [mvrp_reset] that frees every attribute. *)
Fixpoint reset_loop (fuel : nat) (h : heap) (sattrib : ptr) : outcome heap :=
  match sattrib with
  | None => Done h
  | Some x =>
      match fuel with
      | O => Fault OutOfFuel
      | S fuel' => n ← load h sattrib; reset_loop fuel' (delete x h) (n_next n)
      end
  end.

(** [mvrp_reset] of a database that exists: the attributes and the clients are freed. *)
Definition mvrp_reset (fuel : nat) (m : mem) (clients : list sockaddr_in) : outcome (heap * list sockaddr_in) :=
  h ← reset_loop fuel (fst m) (snd m); Done (h, snd (mrp_client_remove_all clients)).

(** ** Representation *)

(** [seg h prev p l nxt]: from the pointer [p], whose first node has [prev] behind it, a
    segment of nodes with the addresses and attributes [l] leads to [nxt]. *)
Fixpoint seg (h : heap) (prev p : ptr) (l : list (positive * mvrp_attribute)) (nxt : ptr) : Prop :=
  match l with
  | [] => p = nxt
  | (x, a) :: l' => p = Some x /\ exists q, h !! x = Some (mkNode a q prev) /\ seg h (Some x) q l' nxt
  end.

(** The list [l] is in memory, at distinct addresses. *)
Definition represents (m : mem) (l : list (positive * mvrp_attribute)) : Prop :=
  NoDup l.*1 /\ seg (fst m) None (snd m) l None.

Definition first_of (l : list (positive * mvrp_attribute)) (nxt : ptr) : ptr :=
  match l with [] => nxt | (x, _) :: _ => Some x end.
Fixpoint last_of (prev : ptr) (l : list (positive * mvrp_attribute)) : ptr :=
  match l with [] => prev | (x, _) :: l' => last_of (Some x) l' end.

Lemma seg_first h prev p l nxt : seg h prev p l nxt -> p = first_of l nxt.
Proof. destruct l as [|[x a] l]; [done|]. by intros [? _]. Qed.

Lemma seg_app h prev p l1 l2 nxt :
  seg h prev p (l1 ++ l2) nxt <-> seg h prev p l1 (first_of l2 nxt) /\ seg h (last_of prev l1) (first_of l2 nxt) l2 nxt.
Proof.
  revert prev p. induction l1 as [|[x a] l1 IH]; intros prev p; cbn [Datatypes.app seg last_of].
  - split; [intros H; split; [by eapply seg_first|by rewrite <- (seg_first _ _ _ _ _ H)]|by intros [-> ?]].
  - split.
    + intros (-> & q & H1 & H2). apply IH in H2 as [H2 H3]. eauto 6.
    + intros [(-> & q & H1 & H2) H3]. split; [done|]. exists q. split; [done|]. by apply IH.
Qed.

Lemma seg_frame h h' prev p l nxt :
  (forall x, x ∈ l.*1 -> h' !! x = h !! x) -> seg h prev p l nxt -> seg h' prev p l nxt.
Proof.
  revert prev p. induction l as [|[x a] l IH]; intros prev p Hf; [done|]. intros (-> & q & H1 & H2).
  split; [done|]. exists q. rewrite Hf by (by left). split; [done|]. apply IH; [|done]. intros y Hy. apply Hf. by right.
Qed.

Lemma seg_insert h prev p l nxt x n : x ∉ l.*1 -> seg h prev p l nxt -> seg (<[x := n]> h) prev p l nxt.
Proof. intros Hx. apply seg_frame. intros y Hy. apply lookup_insert_ne. by intros <-. Qed.

Lemma seg_delete h prev p l nxt x : x ∉ l.*1 -> seg h prev p l nxt -> seg (delete x h) prev p l nxt.
Proof. intros Hx. apply seg_frame. intros y Hy. apply lookup_delete_ne. by intros <-. Qed.

(** The last address of a segment is one of its addresses. *)
Lemma last_of_elem prev l x : last_of prev l = Some x -> prev = Some x \/ x ∈ l.*1.
Proof.
  revert prev. induction l as [|[y a] l IH]; intros prev H; [by left|]. apply IH in H as [[= ->]|H]; right; [by left|by right].
Qed.

(** ** Relinking *)

(** The pointer to what follows [p]: its [next] field, or the head of the list. *)
Definition link_next (m : mem) (p v : ptr) : outcome mem :=
  match p with
  | Some _ => h ← store (fst m) p (set_next v); Done (h, snd m)
  | None => Done (fst m, v)
  end.
Definition link_prev (h : heap) (p v : ptr) : outcome heap :=
  match p with Some _ => store h p (set_prev v) | None => Done h end.

Lemma store_done h x n f : h !! x = Some n -> store h (Some x) f = Done (<[x := f n]> h).
Proof. intros H. unfold store. by rewrite H. Qed.

Lemma last_of_snoc prev l x a : last_of prev (l ++ [(x, a)]) = Some x.
Proof. revert prev. by induction l as [|[y b] l IH]; intros prev; [|apply IH]. Qed.

Lemma link_next_spec h head b nxt v :
  NoDup b.*1 -> seg h None head b nxt ->
  exists m, link_next (h, head) (last_of None b) v = Done m /\ seg (fst m) None (snd m) b v /\
    (forall x, x ∉ b.*1 -> fst m !! x = h !! x).
Proof.
  intros Hn Hs. destruct b as [|[x a] b _] using rev_ind; [by exists (h, v)|].
  rewrite last_of_snoc. apply seg_app in Hs as [H1 (_ & q & H2 & _)]. cbn [link_next fst snd first_of] in *.
  rewrite (store_done _ _ _ _ H2). obind. eexists. split; [done|]. rewrite fmap_app in *. cbn [fst snd].
  apply list.NoDup_app in Hn as (Hb & Hx & _). assert (x ∉ b.*1) as Hxb by (intros Hin; apply (Hx x Hin); by left).
  split.
  - apply seg_app. split; [by apply seg_insert|]. split; [done|]. exists v. split; [by rewrite lookup_insert_eq|done].
  - intros y Hy. apply lookup_insert_ne. intros ->. apply Hy. rewrite elem_of_app. right. by left.
Qed.

Lemma link_prev_spec h prev c v :
  NoDup c.*1 -> seg h prev (first_of c None) c None ->
  exists h', link_prev h (first_of c None) v = Done h' /\ seg h' v (first_of c None) c None /\
    (forall x, x ∉ c.*1 -> h' !! x = h !! x).
Proof.
  intros Hn Hs. destruct c as [|[x a] c]; [by exists h|]. destruct Hs as (_ & q & H1 & H2). cbn [link_prev first_of].
  rewrite (store_done _ _ _ _ H1). eexists. split; [done|]. apply list.NoDup_cons in Hn as [Hx Hn]. split.
  - split; [done|]. exists q. split; [by rewrite lookup_insert_eq|]. by apply seg_insert.
  - intros y Hy. apply lookup_insert_ne. intros ->. apply Hy. by left.
Qed.

Lemma represents_split m b x a c :
  represents m (b ++ (x, a) :: c) -> NoDup b.*1 /\ NoDup c.*1 /\ x ∉ b.*1 /\ x ∉ c.*1 /\ (forall y, y ∈ b.*1 -> y ∉ c.*1) /\
    seg (fst m) None (snd m) b (Some x) /\ fst m !! x = Some (mkNode a (first_of c None) (last_of None b)) /\
    seg (fst m) (Some x) (first_of c None) c None.
Proof.
  intros [Hn Hs]. rewrite fmap_app, fmap_cons in Hn. apply list.NoDup_app in Hn as (H1 & H2 & H3).
  apply list.NoDup_cons in H3 as [H3 H4]. apply seg_app in Hs as [H5 (_ & q & H6 & H7)]. cbn [first_of] in H5.
  pose proof (seg_first _ _ _ _ _ H7) as ->. split_and!; try done.
  - intros Hin. apply (H2 x Hin). by left.
  - intros y Hy Hc. apply (H2 y Hy). by right.
Qed.

(** Joining two pieces of memory around the node [x]. *)
Lemma represents_join m b x a c :
  NoDup b.*1 -> NoDup c.*1 -> x ∉ b.*1 -> x ∉ c.*1 -> (forall y, y ∈ b.*1 -> y ∉ c.*1) ->
  seg (fst m) None (snd m) b (Some x) -> fst m !! x = Some (mkNode a (first_of c None) (last_of None b)) ->
  seg (fst m) (Some x) (first_of c None) c None -> represents m (b ++ (x, a) :: c).
Proof.
  intros H1 H2 H3 H4 H5 H6 H7 H8. split.
  - rewrite fmap_app, fmap_cons. apply list.NoDup_app. split; [done|]. split; [|by constructor].
    intros y Hy. rewrite not_elem_of_cons. split; [by intros ->|auto].
  - apply seg_app. split; [done|]. split; [done|]. eauto.
Qed.

Lemma represents_append m b c :
  NoDup b.*1 -> NoDup c.*1 -> (forall y, y ∈ b.*1 -> y ∉ c.*1) ->
  seg (fst m) None (snd m) b (first_of c None) -> seg (fst m) (last_of None b) (first_of c None) c None ->
  represents m (b ++ c).
Proof.
  intros H1 H2 H3 H4 H5. split; [rewrite fmap_app; by apply list.NoDup_app|]. by apply seg_app.
Qed.

(** ** Removal *)
Lemma heap_unlink_spec m b x a c :
  represents m (b ++ (x, a) :: c) ->
  exists m', heap_unlink m (Some x) = Done (first_of c None, m') /\ represents m' (b ++ c) /\ fst m' !! x = None /\
    (forall y, y ∉ (b ++ (x, a) :: c).*1 -> fst m' !! y = fst m !! y).
Proof.
  intros Hr. destruct (represents_split _ _ _ _ _ Hr) as (H1 & H2 & H3 & H4 & H5 & H6 & H7 & H8). destruct m as [h head].
  cbn [fst snd] in *. unfold heap_unlink. cbn [load]. rewrite H7. cbn [or_fault]. obind. cbn [n_prev n_next].
  destruct (link_next_spec h head b _ (first_of c None) H1 H6) as ([h1 head1] & E1 & H9 & H10). cbn [fst snd] in *.
  replace (match last_of None b with
    | Some _ => h0 ← store h (last_of None b) (set_next (first_of c None)); Done (h0, head)
    | None => Done (h, first_of c None) end) with (Done (h1, head1)) by (symmetry; etrans; [|exact E1]; by destruct (last_of None b)). obind.
  assert (seg h1 (Some x) (first_of c None) c None) as H8'.
  { eapply seg_frame; [|exact H8]. intros y Hy. apply H10. intros Hb. by apply (H5 y). }
  destruct (link_prev_spec h1 _ c (last_of None b) H2 H8') as (h2 & E2 & H11 & H12).
  replace (match first_of c None with Some _ => store h1 (first_of c None) (set_prev (last_of None b)) | None => Done h1 end)
    with (Done h2) by (symmetry; etrans; [|exact E2]; by destruct (first_of c None)). obind.
  exists (delete x h2, head1). split; [done|]. cbn [fst snd]. split; [|split; [apply lookup_delete_eq|]].
  - apply represents_append; cbn [fst snd]; try done.
    + apply seg_delete; [done|]. eapply seg_frame; [|exact H9]. intros y Hy. apply H12. by apply H5.
    + by apply seg_delete.
  - intros y. rewrite fmap_app, fmap_cons, not_elem_of_app, not_elem_of_cons. cbn [fst]. intros (Hb & Hx & Hc).
    rewrite lookup_delete_ne by done. rewrite H12, H10 by done. done.
Qed.

(** ** Insertion *)
Lemma link_between h head b c r a :
  represents (h, head) (b ++ c) -> r ∉ (b ++ c).*1 ->
  let h0 := <[r := mkNode a (first_of c None) (last_of None b)]> h in
  exists h1 m, link_prev h0 (first_of c None) (Some r) = Done h1 /\ h1 !! r = h0 !! r /\
    link_next (h1, head) (last_of None b) (Some r) = Done m /\ represents m (b ++ (r, a) :: c) /\
    (forall y, y ∉ (b ++ (r, a) :: c).*1 -> fst m !! y = h !! y).
Proof.
  intros [Hn Hs] Hr h0. rewrite fmap_app in Hn, Hr. rewrite not_elem_of_app in Hr. destruct Hr as [Hb Hc].
  apply list.NoDup_app in Hn as (H1 & H2 & H3). apply seg_app in Hs as [H4 H5]. cbn [fst snd] in *.
  apply (seg_insert _ _ _ _ _ r (mkNode a (first_of c None) (last_of None b)) Hc) in H5. fold h0 in H5.
  destruct (link_prev_spec h0 _ c (Some r) H3 H5) as (h1 & E1 & H6 & H7).
  assert (seg h1 None head b (first_of c None)) as H4'.
  { eapply seg_frame; [|exact H4]. intros y Hy. rewrite H7 by auto. apply lookup_insert_ne. by intros <-. }
  destruct (link_next_spec h1 head b _ (Some r) H1 H4') as (m & E2 & H8 & H9).
  exists h1, m. split_and!; [done|by apply H7|done| |].
  - apply represents_join; try done.
    + rewrite H9, H7 by done. unfold h0. by rewrite lookup_insert_eq.
    + eapply seg_frame; [|exact H6]. intros y Hy. apply H9. intros Hin. by apply (H2 y).
  - intros y. rewrite fmap_app, fmap_cons, not_elem_of_app, not_elem_of_cons. cbn [fst]. intros (Hy & Hyr & Hyc).
    rewrite H9, H7 by done. by apply lookup_insert_ne.
Qed.

(** Two stores into the new node. *)
Lemma store_both h r n p q :
  h !! r = Some n ->
  (h1 ← store h (Some r) (set_next p); store h1 (Some r) (set_prev q)) = Done (<[r := mkNode (n_attr n) p q]> h).
Proof.
  intros H. rewrite (store_done _ _ _ _ H). obind. erewrite store_done by apply lookup_insert_eq. by rewrite insert_insert_eq.
Qed.

Lemma add_loop_spec fuel h head tail r n b y ay c :
  represents (h, head) (b ++ (y, ay) :: c) -> h !! r = Some n -> r ∉ (b ++ (y, ay) :: c).*1 -> (length c < fuel)%nat ->
  exists m b' c', add_loop fuel h head (Some y) tail (Some r) = Done m /\ b ++ (y, ay) :: c = b' ++ c' /\
    represents m (b' ++ (r, n_attr n) :: c') /\
    (b' ++ (r, n_attr n) :: c').*2 = b.*2 ++ mvrp_add ((y, ay) :: c).*2 (n_attr n) /\
    (forall x, x ∉ (b' ++ (r, n_attr n) :: c').*1 -> fst m !! x = h !! x).
Proof.
  revert b y ay c. induction fuel as [|fuel IH]; intros b y ay c Hrep Hn Hr Hf; [lia|].
  destruct (represents_split _ _ _ _ _ Hrep) as (_ & _ & _ & _ & _ & _ & Hy & _). cbn [fst] in Hy.
  cbn [add_loop load]. rewrite Hy. cbn [or_fault]. obind. rewrite Hn. cbn [or_fault]. obind. cbn [n_attr n_next n_prev].
  rewrite fmap_cons. cbn [mvrp_add snd]. destruct (attribute ay <? attribute (n_attr n)) eqn:E.
  - destruct c as [|[z az] c]; cbn [first_of].
    + destruct (link_between h head (b ++ [(y, ay)]) [] r (n_attr n)) as (h1 & m & E1 & _ & E2 & H3 & H4).
      { by rewrite app_nil_r. } { by rewrite app_nil_r. }
      cbn [first_of link_prev] in E1. injection E1 as <-. rewrite last_of_snoc in E2. cbn [link_next fst snd] in E2.
      pose proof (store_both h r n None (Some y) Hn) as Hs.
      exists m, (b ++ [(y, ay)]), []. split_and!; [|by rewrite app_nil_r|done| |done].
      * revert Hs. obind. destruct (store h (Some r) (set_next None)) as [h1|]; [|done]. obind. intros ->. by obind.
      * rewrite !fmap_app. cbn. by rewrite <- app_assoc.
    + replace (b ++ (y, ay) :: (z, az) :: c) with ((b ++ [(y, ay)]) ++ (z, az) :: c) in * by (by rewrite <- app_assoc).
      destruct (IH (b ++ [(y, ay)]) z az c Hrep Hn Hr ltac:(simpl in Hf; lia)) as (m & b' & c' & E1 & E2 & H3 & H4 & H5).
      exists m, b', c'. split_and!; [done|done|done| |done]. rewrite H4, fmap_app, <- app_assoc. done.
  - destruct (link_between h head b ((y, ay) :: c) r (n_attr n) Hrep Hr) as (h1 & m & E1 & E1' & E2 & H3 & H4).
    exists m, b, ((y, ay) :: c). split_and!; [|done|done|by rewrite fmap_app|done].
    pose proof (store_both h r n (Some y) (last_of None b) Hn) as Hs. cbn [first_of link_prev] in E1, E1'.
    revert Hs. obind. destruct (store h (Some r) (set_next (Some y))) as [h2|]; [|done]. obind. intros ->. obind.
    rewrite E1. obind. cbn [load]. rewrite E1', lookup_insert_eq. cbn [or_fault]. obind. cbn [n_prev].
    cbn [link_next fst snd] in E2. destruct (last_of None b); [|by injection E2 as <-]. exact E2.
Qed.

(** ** Lookup *)
Lemma lookup_loop_spec fuel h prev p l vid :
  seg h prev p l None -> (length l <= fuel)%nat ->
  lookup_loop fuel h p vid = Done (fst <$> find_first (fun x => attribute (snd x) =? vid) l).
Proof.
  revert fuel prev p. induction l as [|[x a] l IH]; intros fuel prev p Hs Hf.
  - simpl in Hs. subst p. by destruct fuel.
  - destruct Hs as (-> & q & H1 & H2). destruct fuel as [|fuel]; simpl in Hf; [lia|]. cbn [lookup_loop load].
    rewrite H1. cbn [or_fault]. obind. cbn [n_attr n_next]. rewrite find_first_cons. cbn [snd].
    destruct (attribute a =? vid); [done|]. apply (IH _ (Some x)); [done|lia].
Qed.

Lemma mvrp_lookup_first l a :
  mvrp_lookup l.*2 a = (snd : positive * mvrp_attribute -> _) <$> find_first (fun x => attribute (snd x) =? attribute a) l.
Proof.
  induction l as [|[x b] l IH]; [done|]. rewrite find_first_cons. cbn. destruct (attribute b =? attribute a); [done|]. exact IH.
Qed.

Lemma reset_loop_spec fuel h prev p l :
  NoDup l.*1 -> seg h prev p l None -> (length l <= fuel)%nat ->
  exists h', reset_loop fuel h p = Done h' /\ forall x, h' !! x = if decide (x ∈ l.*1) then None else h !! x.
Proof.
  revert fuel h prev p. induction l as [|[x a] l IH]; intros fuel h prev p Hn Hs Hf.
  - simpl in Hs. subst p. exists h. split; [by destruct fuel|]. intros y. by rewrite decide_False by apply not_elem_of_nil.
  - destruct Hs as (-> & q & H1 & H2). destruct fuel as [|fuel]; simpl in Hf; [lia|]. rewrite fmap_cons in Hn.
    apply list.NoDup_cons in Hn as [Hx Hn]. cbn [reset_loop load]. rewrite H1. cbn [or_fault]. obind. cbn [n_next].
    apply (seg_delete _ _ _ _ _ x Hx) in H2. destruct (IH fuel _ _ _ Hn H2 ltac:(lia)) as (h' & E & Hh).
    exists h'. split; [done|]. intros y. rewrite Hh, fmap_cons. cbn [fst]. destruct (decide (y = x)) as [->|Hy].
    + rewrite decide_False, decide_True by (done || by left). apply lookup_delete_eq.
    + rewrite lookup_delete_ne by done. destruct (decide (y ∈ l.*1)), (decide (y ∈ x :: l.*1)); set_solver.
Qed.

(** C11. The attribute list in memory: for a doubly linked list of distinct nodes that
    represents the attributes [l], [mvrp_add] of a new node yields the list that
    [Mvrp.mvrp_add] computes and [mvrp_lookup] the node of the attribute that
    [Mvrp.mvrp_lookup] finds; unlinking a node as [mvrp_conditional_reclaim] does removes
    it, frees it and returns the following node; and [mvrp_reset] frees every node of the
    list and forgets every client.  No NULL or dangling pointer is
    followed, as many iterations as there are nodes suffice, and no node outside the list
    changes. *)
Theorem mvrp_list_refines (m : mem) l r n :
  represents m l -> fst m !! r = Some n -> r ∉ l.*1 ->
  (exists m' b c, heap_add (length l) m (Some r) = Done m' /\ l = b ++ c /\ represents m' (b ++ (r, n_attr n) :: c) /\
     (b ++ (r, n_attr n) :: c).*2 = mvrp_add l.*2 (n_attr n) /\
     (forall x, x ∉ r :: l.*1 -> fst m' !! x = fst m !! x)) /\
  (exists p, lookup_loop (length l) (fst m) (snd m) (attribute (n_attr n)) = Done p /\
     match mvrp_lookup l.*2 (n_attr n) with
     | None => p = None
     | Some a => exists x, p = Some x /\ (x, a) ∈ l
     end) /\
  (forall b x a c, l = b ++ (x, a) :: c ->
     exists m', heap_unlink m (Some x) = Done (first_of c None, m') /\ represents m' (b ++ c) /\ fst m' !! x = None /\
       (forall y, y ∉ l.*1 -> fst m' !! y = fst m !! y)) /\
  (forall cs, exists h', mvrp_reset (length l) m cs = Done (h', []) /\
     forall x, h' !! x = if decide (x ∈ l.*1) then None else fst m !! x).
Proof.
  intros Hrep Hn Hr. destruct m as [h head]. cbn [fst snd] in *. split; [|split; [|split]].
  - unfold heap_add. cbn [fst snd]. destruct l as [|[y ay] l].
    + destruct Hrep as [_ Hs]. cbn in Hs. subst head. cbn [add_loop length].
      pose proof (store_both h r n None None Hn) as Hs. revert Hs. obind.
      destruct (store h (Some r) (set_next None)) as [h1|]; [|done]. obind. intros ->. obind.
      eexists _, [], []. split_and!; [done|done| |done|].
      * split; [apply NoDup_singleton|]. split; [done|]. exists None. split; [apply lookup_insert_eq|done].
      * intros x Hx. cbn. apply lookup_insert_ne. intros <-. apply Hx. by left.
    + pose proof (seg_first _ _ _ _ _ (proj2 Hrep)) as E. cbn in E. subst head.
      destruct (add_loop_spec (length ((y, ay) :: l)) h (Some y) (Some y) r n [] y ay l Hrep Hn Hr ltac:(simpl; lia))
        as (m & b & c & E1 & E2 & H1 & H2 & H3).
      exists m, b, c. split_and!; [done|exact E2|done|exact H2|]. intros x Hx. apply H3. cbn [Datatypes.app] in E2. rewrite E2 in Hx.
      rewrite fmap_app in Hx |- *. rewrite fmap_cons. cbn [fst]. set_solver.
  - exists (fst <$> find_first (fun x => attribute (snd x) =? attribute (n_attr n)) l).
    split; [eapply lookup_loop_spec; [apply Hrep|done]|]. rewrite mvrp_lookup_first.
    destruct (find_first _ l) as [[x a]|] eqn:E; cbn; [|done]. apply find_first_Some in E as [E _]. by exists x.
  - intros b x a c ->. by apply heap_unlink_spec.
  - intros cs. destruct Hrep as [H1 H2]. destruct (reset_loop_spec (length l) h None head l H1 H2 (le_n _)) as (h' & E & Hh).
    exists h'. split; [|done]. unfold mvrp_reset. cbn [fst snd]. rewrite E. done.
Qed.
