(* ===== verification/MvrpExamples.v ===== *)
(** * MvrpExamples: concrete runs of MVRP

    A station with one declared VLAN and one with a leaving registration, and instances of
    the theorems of [MvrpDecode], [MvrpProps] and [MvrpList] at them. *)
From stdpp Require Import base gmap list strings numbers sorting.
From S2P Require Import Prelude Text Parse Mrp MrpProps MrpExamples Mvrp MvrpWire.
From S2P Require Import MvrpDecode MvrpInv MvrpEvent MvrpTable MvrpRecv MvrpProps MvrpList.
#[local] Open Scope Z_scope.

Definition peer : list Z := [0; 27; 33; 9; 9; 9].

(** VID 2 is declared here and not yet registered. *)
Definition vlan2 : mvrp_attribute :=
  mkMvrp 2 (mkApplicant MRP_VP_STATE false MRP_SND_NULL MRP_ENCODE_YES None)
    (mkRegistrar MRP_MT_STATE MRP_NOTIFY_NONE peer).

(** VID 7 is registered by a peer and leaving. *)
Definition vlan7 : mvrp_attribute :=
  mkMvrp 7 (mkApplicant MRP_VP_STATE false MRP_SND_NULL MRP_ENCODE_YES None)
    (mkRegistrar MRP_LV_STATE MRP_NOTIFY_NONE peer).

Definition quiet_station : MS := mkMrp idle_db (mkMvrpDb [vlan2] false) idle_io.

Definition leaving_station : MS :=
  mkMrp (set_lv_running true idle_db) (mkMvrpDb [vlan2; vlan7] false)
    (set_armed (insert 11 (mkItimer (1, 0) (0, 0))) idle_io).

Lemma vlan_ok a : a ∈ [vlan2; vlan7] -> attr_ok a.
Proof. rewrite !elem_of_cons, elem_of_nil. intros [-> | [-> | []]]; split; done. Qed.

Lemma quiet_inv : mvrp_inv quiet_station.
Proof.
  split; try done.
  - split; [repeat constructor|]. constructor; [apply vlan_ok; by left|constructor].
  - by constructor.
  - split; [done|]. repeat constructor; done.
  - apply NoDup_singleton.
Qed.

Lemma leaving_inv : mvrp_inv leaving_station.
Proof.
  split; try done.
  - split; [repeat constructor|]. constructor; [apply vlan_ok; by left|].
    constructor; [apply vlan_ok; right; by left|constructor].
  - by repeat constructor.
  - split; [done|]. repeat constructor; done.
  - apply NoDup_singleton.
Qed.

Lemma calm_sends : forall n len, 0 < len -> 0 < send_rc n len.
Proof. done. Qed.

(** A marked attribute. *)
Definition marked_station : MS :=
  mkMrp idle_db (mkMvrpDb [app_next 1 MRP_EVENT_TX vlan2] false) idle_io.

Lemma mvrp_frame_roundtrip_witness :
  exists rc s', mvrp_txpdu marked_station = Done (rc, s').
Proof.
  destruct (mvrp_frame_roundtrip calm_env marked_station) as (rc & s' & E & _).
  - split; [reflexivity|]. repeat constructor; done.
  - constructor; [|constructor]. intros _. by exists MRPDU_JOINMT.
  - constructor; [|constructor]. split; vm_compute; congruence.
  - exists rc, s'. exact E.
Defined.

(** Start-up, and the first join timer. *)
Lemma mvrp_reachable_invariant_witness :
  exists g, mvrp_init true 5 true 10 11 12 (inl idle_io) = Done (0, g) /\
    exists ret g', mvrp_handle on_join_timer g = Done (ret, g').
Proof.
  destruct (mvrp_init true 5 true 10 11 12 (inl idle_io)) as [[ret g]|w] eqn:E; [|by vm_compute in E].
  assert (ret = 0) as -> by (vm_compute in E; congruence). exists g. split; [reflexivity|].
  destruct (mvrp_reachable_invariant calm_env g calm_timers calm_random) as [_ H].
  - eapply (reach_start idle_io true 5 true 10 11 12); [reflexivity| | | | |exact E]; try discriminate.
    repeat constructor; done.
  - destruct (H on_join_timer I) as (r & g' & Eg & _); [by intros []|]. exists r, g'. exact Eg.
Defined.

Lemma mvrp_recv_safe_witness :
  exists rc s', mvrp_recv_msg (Some [1; 2; 3]) quiet_station = Done (rc, s') /\ mvrp_inv s'.
Proof.
  apply (mvrp_recv_safe calm_env quiet_station [1; 2; 3] calm_timers calm_random quiet_inv).
  - repeat constructor; done.
  - vm_compute. lia.
Defined.

(** VID 5 is joined by a peer: its entry appears, VID 2 stays. *)
Lemma mvrp_event_refines_witness :
  exists rc s', mvrp_event MRP_EVENT_RJOININ (request (Some (5, peer))) quiet_station = Done (rc, s') /\
    table (attrib_list (app s')) !! 5 = Some (MRP_VO_STATE, MRP_IN_STATE) /\
    table (attrib_list (app s')) !! 2 = Some (MRP_VP_STATE, MRP_MT_STATE).
Proof.
  destruct (mvrp_event_refines calm_env MRP_EVENT_RJOININ (Some (5, peer)) quiet_station calm_timers calm_random quiet_inv)
    as (rc & s' & E & _ & Ht).
  - intros v m [= <- <-]. by split.
  - exists rc, s'. split; [exact E|]. rewrite Ht. split; vm_compute; reflexivity.
Defined.

(** VID 7 leaves for good: the client is told. *)
Lemma mvrp_notifications_witness :
  exists rc s' told, mvrp_event MRP_EVENT_LVTIMER (Some (mvrp_alloc 7 peer)) leaving_station = Done (rc, s') /\
    ctl (io s') = told /\ exists a, attribute a = 7 /\ (local_client, notify_text "VLE" a, MAX_MRPD_CMDSZ) ∈ told.
Proof.
  destruct (mvrp_notifications calm_env MRP_EVENT_LVTIMER 7 peer leaving_station calm_timers calm_random calm_memory leaving_inv)
    as (rc & s' & E & _ & _ & H); [by split|reflexivity|discriminate|].
  destruct (H eq_refl vlan7 local_client) as (a & told & Ha & Hc & Hin); [right; by left|reflexivity|by left|].
  exists rc, s', told. split; [exact E|]. split; [exact Hc|]. exists a. split; [exact Ha|exact Hin].
Defined.

Lemma mvrp_transmission_witness :
  exists s' vs, mvrp_event MRP_EVENT_TX None quiet_station = Done (0, s') /\ ntx (attrib_list (app s')) = 0%nat /\
    exists c, (2, c) ∈ wire_events vs.
Proof.
  destruct (mvrp_transmission calm_env quiet_station calm_timers calm_random calm_memory calm_sends quiet_inv)
    as (s' & vs & E & _ & _ & H & Hn & _); [vm_compute; lia|].
  exists s', vs. split; [exact E|]. split; [exact Hn|].
  destruct (H vlan2) as (c & _ & Hc); [by left|reflexivity|]. exists c. exact Hc.
Defined.

Lemma mvrp_dump_capacity_witness :
  exists rc s', mvrp_dumptable local_client quiet_station = Done (rc, s') /\ length (ctl (io s')) = 1%nat.
Proof.
  destruct (mvrp_dump_capacity calm_env local_client quiet_station calm_memory quiet_inv) as [H _]; [discriminate|].
  destruct H as (rc & s' & E & _ & Hc & _); [vm_compute; lia|]. exists rc, s'. split; [exact E|]. by rewrite Hc.
Defined.

(** A list of one node, at address 1, and a new node at address 2. *)
Definition one_node : mem := ({[ 1%positive := mkNode vlan2 None None; 2%positive := mkNode vlan7 None None ]}, Some 1%positive).

Lemma mvrp_list_refines_witness :
  exists m' b c, heap_add 1 one_node (Some 2%positive) = Done m' /\ (b ++ (2%positive, vlan7) :: c).*2 = [vlan2; vlan7].
Proof.
  destruct (mvrp_list_refines one_node [(1%positive, vlan2)] 2%positive (mkNode vlan7 None None)) as [(m' & b & c & E & _ & _ & H & _) _].
  - split; [apply NoDup_singleton|]. split; [reflexivity|]. exists None. split; reflexivity.
  - reflexivity.
  - cbn. rewrite list_elem_of_singleton. discriminate.
  - exists m', b, c. split; [exact E|]. exact H.
Defined.
