(* ===== verification/Mmrp.v ===== *)
(** * Mmrp: the Multiple MAC Registration Protocol

    Model of [daemons/mrpd/mmrp.c]: the database of group addresses and service
    requirements, the handling of protocol events, the MRPDU encoders and decoder, the
    notifications to clients, the control commands, and start-up, reclaim and shutdown.

    As in [Mvrp], the linked list of attributes is a list in its order and buffers are
    byte lists indexed by offset.  The tagged union of an attribute is an inductive type.
    The array [vectevt] of [mmrp_emit_svcvectors] is used before all of it is set: what it
    holds on entry is the parameter [vectevt_junk]. *)
From stdpp Require Import base gmap list strings numbers.
From S2P Require Import Prelude Text Parse Mrp Mvrp.
#[local] Open Scope Z_scope.
#[local] Open Scope st_scope.

(** ** Data *)
Definition MMRP_ETYPE : Z := 0x88F6.
Definition MMRP_PROT_VER : Z := 0.
Definition MMRP_SVCREQ_TYPE : Z := 1.
Definition MMRP_MACVEC_TYPE : Z := 2.
Definition MMRP_ADDR : list Z := [0x01; 0x80; 0xC2; 0x00; 0x00; 0x20].

Inductive mmrp_value := SVCREQ (svcreq : Z) | MACVEC (mac : list Z).

Record mmrp_attribute := mkMmrp {
  mm_value : mmrp_value;
  mm_applicant : mrp_applicant_attribute;
  mm_registrar : mrp_registrar_attribute }.

#[global] Instance mmrp_value_eq_dec : EqDecision mmrp_value.
Proof. solve_decision. Defined.
#[global] Instance mmrp_attribute_eq_dec : EqDecision mmrp_attribute.
Proof. solve_decision. Defined.

(** The part of [struct mmrp_database] beside the [mrp_database]. *)
Record mmrp_database := mkMmrpDb { mm_list : list mmrp_attribute; mm_flag : bool }.

Definition MM : Type := MrpState mmrp_database.

Definition mm_type (v : mmrp_value) : Z :=
  match v with SVCREQ _ => MMRP_SVCREQ_TYPE | MACVEC _ => MMRP_MACVEC_TYPE end.

Definition mm_set_applicant (x : mrp_applicant_attribute) (a : mmrp_attribute) : mmrp_attribute :=
  mkMmrp (mm_value a) x (mm_registrar a).
Definition mm_set_registrar (x : mrp_registrar_attribute) (a : mmrp_attribute) : mmrp_attribute :=
  mkMmrp (mm_value a) (mm_applicant a) x.
Definition mm_clear_tx (a : mmrp_attribute) : mmrp_attribute :=
  mm_set_applicant (set_tx false (mm_applicant a)) a.

(** ** The attribute list *)

(** The sign of [memcmp] on buffers of the same length. *)
Fixpoint memcmp (x y : list Z) : Z :=
  match x, y with
  | a :: x', b :: y' => if a <? b then -1 else if b <? a then 1 else memcmp x' y'
  | _, _ => 0
  end.

Definition mm_same (x y : mmrp_value) : bool :=
  match x, y with
  | SVCREQ a, SVCREQ b => a =? b
  | MACVEC a, MACVEC b => memcmp a b =? 0
  | _, _ => false
  end.

Fixpoint mmrp_lookup (l : list mmrp_attribute) (rattrib : mmrp_attribute) : option mmrp_attribute :=
  match l with
  | [] => None
  | a :: l' => if mm_same (mm_value a) (mm_value rattrib) then Some a else mmrp_lookup l' rattrib
  end.

(** The order within a type. *)
Definition mm_less (x y : mmrp_value) : bool :=
  match x, y with
  | SVCREQ a, SVCREQ b => a <? b
  | MACVEC a, MACVEC b => memcmp a b <? 0
  | _, _ => false
  end.

(** Insertion: before the first attribute of the same type that is not smaller, after
    the last one of the type, or at the tail when there is none of the type. *)
Fixpoint mmrp_add (l : list mmrp_attribute) (rattrib : mmrp_attribute) : list mmrp_attribute :=
  match l with
  | [] => [rattrib]
  | a :: l' =>
      if mm_type (mm_value rattrib) =? mm_type (mm_value a) then
        if mm_less (mm_value a) (mm_value rattrib) then
          match l' with
          | n :: _ =>
              if mm_type (mm_value a) =? mm_type (mm_value n) then a :: mmrp_add l' rattrib
              else a :: rattrib :: l'
          | [] => [a; rattrib]
          end
        else rattrib :: a :: l'
      else a :: mmrp_add l' rattrib
  end.

(** The update of the attribute that [mmrp_lookup] of this value points to. *)
Fixpoint update_value (v : mmrp_value) (f : mmrp_attribute -> mmrp_attribute) (l : list mmrp_attribute)
    : list mmrp_attribute :=
  match l with
  | [] => []
  | a :: l' => if mm_same (mm_value a) v then f a :: l' else a :: update_value v f l'
  end.

Definition mmrp_merge (l : list mmrp_attribute) (rattrib : mmrp_attribute) : Z * list mmrp_attribute :=
  match mmrp_lookup l rattrib with
  | None => (-1, l)
  | Some _ =>
      (0, update_value (mm_value rattrib)
            (fun a => mm_set_registrar (set_macaddr (macaddr (mm_registrar rattrib)) (mm_registrar a)) a) l)
  end.

(** The attribute a successful [mmrp_alloc] returns; [v] and [mac] are what the callers
    store in it at once. *)
Definition mmrp_alloc (v : mmrp_value) (mac : list Z) : mmrp_attribute :=
  mkMmrp v (mkApplicant MRP_VO_STATE false MRP_SND_NULL MRP_ENCODE_OPTIONAL None)
    (mkRegistrar MRP_MT_STATE MRP_NOTIFY_NONE mac).

(** The loop of [mmrp_increment_macaddr], from byte [i] down to byte 1. *)
Fixpoint increment_from (i : nat) (mac : list Z) : list Z :=
  match i with
  | O => mac
  | S i' =>
      match mac !! i with
      | Some b => if 255 =? b then increment_from i' (<[i := 0]> mac) else <[i := u8 (b + 1)]> mac
      | None => mac
      end
  end.

Definition mmrp_increment_macaddr (mac : list Z) : list Z := increment_from 5 mac.

(** ** Encoding *)

(** The event to send for an attribute; [join_in] is whether the registrar consulted for
    a Join is IN; [None] is the [goto oops]. *)
Definition mm_event_code (a : mmrp_attribute) (join_in : bool) : option Z :=
  match sndmsg (mm_applicant a) with
  | MRP_SND_IN => Some (if mrp_registrar_in (mm_registrar a) then MRPDU_IN else MRPDU_MT)
  | MRP_SND_NEW => Some MRPDU_NEW
  | MRP_SND_LV => Some MRPDU_LV
  | MRP_SND_JOIN => Some (if join_in then MRPDU_JOININ else MRPDU_JOINMT)
  | _ => None
  end.

Definition svc_code (a : mmrp_attribute) : option Z := mm_event_code a (mrp_registrar_in (mm_registrar a)).

(** In the vector of [first], a Join of [a] is encoded from the registrar of [first]. *)
Definition mac_code (first a : mmrp_attribute) : option Z :=
  mm_event_code a (mrp_registrar_in (mm_registrar first)).

(** The inner loop of [mmrp_emit_svcvectors]: whether it ended in [goto oops], the
    attributes and the vector. *)
Fixpoint svc_vectorize (events eof : Z) (vattribs : list mmrp_attribute) (svcreq_firstval : Z) (v : Vector)
    : outcome (bool * list mmrp_attribute * Vector) :=
  match vattribs with
  | [] => Done (false, [], v)
  | a :: rest =>
      match mm_value a with
      | MACVEC _ => Done (false, vattribs, v)
      | SVCREQ x =>
          if negb (tx (mm_applicant a)) then Done (false, vattribs, v)
          else
            let firstval := u8 (svcreq_firstval + 1) in
            if negb (x =? firstval) then Done (false, vattribs, v)
            else
              match svc_code a with
              | None => Done (true, mm_clear_tx a :: rest, v)
              | Some c =>
                  v' ← push_code events c v;
                  if eof - MRPDU_ENDMARK_SZ <? events + vectidx v' then Done (true, mm_clear_tx a :: rest, v')
                  else
                    '(oops, rest', v'') ← svc_vectorize events eof rest firstval v';
                    Done (oops, mm_clear_tx a :: rest', v'')
              end
      end
  end.

(** The header of a vector. *)
Definition mm_header (lva : bool) (num : Z) : list Z :=
  be_bytes 2 (Z.lor (MRPDU_VECT_NUMVALUES num) (if lva then MRPDU_VECT_LVA_FLAG else 0)).

(** One vector of service requirements, for [a] (of value [x]) and those that follow it;
    [evt] is what [vectevt] holds.  The result is whether it ended in [goto oops], the
    attributes after [a], where the vector ends, the array and the buffer. *)
Definition svc_emit_vector (events eof : Z) (x : Z) (a : mmrp_attribute) (rest : list mmrp_attribute)
    (lva : bool) (evt : Z * Z * Z) (buf : list Z)
    : outcome (bool * list mmrp_attribute * Z * (Z * Z * Z) * list Z) :=
  buf ← poke buf events x;
  match svc_code a with
  | None => Done (true, rest, events, evt, buf)
  | Some c =>
      '(oops, rest', v) ← svc_vectorize events eof rest x (mkVector (set_vectevt 0 c evt) 1 1 2 buf);
      if (oops : bool) then Done (true, rest', events, vectevt v, vbuf v)
      else
        v ← flush events v;
        if eof - MRPDU_ENDMARK_SZ <? events + vectidx v then Done (true, rest', events, vectevt v, vbuf v)
        else
          buf ← pokes (vbuf v) (events - 2) (mm_header lva (numvalues v));
          Done (false, rest', events + vectidx v, vectevt v, buf)
  end.

(** The outer loop: [goto oops], the attributes, whether one was found, [mrpdu_msg_ptr],
    [mrpdu_vectorptr] and the buffer. *)
Fixpoint svc_emit_loop (fuel : nat) (attribs : list mmrp_attribute) (msg_ptr vp eof : Z) (lva found : bool)
    (evt : Z * Z * Z) (buf : list Z) : outcome (bool * list mmrp_attribute * bool * Z * Z * list Z) :=
  if negb (msg_ptr <? eof - 6 - MRPDU_ENDMARK_SZ) then Done (false, attribs, found, msg_ptr, vp, buf)
  else
    match attribs with
    | [] => Done (false, [], found, msg_ptr, vp, buf)
    | a :: rest =>
        match fuel with
        | O => Fault OutOfFuel
        | S fuel' =>
            let skip a' :=
              '(oops, rest', found', m', v', buf') ← svc_emit_loop fuel' rest msg_ptr vp eof lva found evt buf;
              Done (oops, a' :: rest', found', m', v', buf') in
            match mm_value a with
            | MACVEC _ => skip a
            | SVCREQ x =>
                if negb (tx (mm_applicant a)) then skip a
                else if decide (encode (mm_applicant a) = MRP_ENCODE_OPTIONAL) then skip (mm_clear_tx a)
                else
                  '(oops, rest1, p, evt1, buf1) ← svc_emit_vector (vp + 2) eof x (mm_clear_tx a) rest lva evt buf;
                  if (oops : bool) then Done (true, mm_clear_tx a :: rest1, true, msg_ptr, vp, buf1)
                  else
                    '(oops, rest', found', m', v', buf') ← svc_emit_loop fuel' rest1 p p eof false true evt1 buf1;
                    Done (oops, mm_clear_tx a :: rest', found', m', v', buf')
            end
        end
    end.

(** The result, [*bytes_used], the attributes and the buffer. *)
Definition mmrp_emit_svcvectors (buf : list Z) (msgbuf msgbuf_eof : Z) (lva flag : bool) (evt : Z * Z * Z)
    (attribs : list mmrp_attribute) : outcome (Z * Z * list mmrp_attribute * list Z) :=
  if msgbuf_eof - 6 <? msgbuf then Done (-1, 0, attribs, buf)
  else
    buf ← pokes buf msgbuf [MMRP_SVCREQ_TYPE; 1];
    '(oops, attribs', found, msg_ptr, vp, buf) ←
      svc_emit_loop (length attribs) attribs msgbuf (msgbuf + 2) msgbuf_eof lva false evt buf;
    if (oops : bool) then Done (-1, 0, attribs', buf)
    else
      '(msg_ptr, vp, buf) ← (if negb found && flag then
         buf ← pokes buf vp (mm_header true 0);
         len ← peek buf (msgbuf + 1);
         Done (vp + 2 + len, vp + 2 + len, buf)
       else Done (msg_ptr, vp, buf));
      if vp =? msgbuf + 2 then Done (0, 0, attribs', buf)
      else
        buf ← pokes buf msg_ptr [0; 0];
        Done (0, msg_ptr + 2 - msgbuf, attribs', buf).

(** The inner loop of [mmrp_emit_macvectors], for the vector of [first]. *)
Fixpoint mac_vectorize (events eof : Z) (first : mmrp_attribute) (vattribs : list mmrp_attribute)
    (macvec_firstval : list Z) (v : Vector) : outcome (bool * list mmrp_attribute * Vector) :=
  match vattribs with
  | [] => Done (false, [], v)
  | a :: rest =>
      match mm_value a with
      | SVCREQ _ => Done (false, vattribs, v)
      | MACVEC m =>
          if negb (tx (mm_applicant a)) then Done (false, vattribs, v)
          else
            let firstval := mmrp_increment_macaddr macvec_firstval in
            if negb (memcmp m firstval =? 0) then Done (false, vattribs, v)
            else
              match mac_code first a with
              | None => Done (true, mm_clear_tx a :: rest, v)
              | Some c =>
                  v' ← push_code events c v;
                  if eof - 11 <? events + vectidx v' then Done (true, mm_clear_tx a :: rest, v')
                  else
                    '(oops, rest', v'') ← mac_vectorize events eof first rest firstval v';
                    Done (oops, mm_clear_tx a :: rest', v'')
              end
      end
  end.

Definition mac_emit_vector (events eof : Z) (m : list Z) (a : mmrp_attribute) (rest : list mmrp_attribute)
    (lva : bool) (buf : list Z) : outcome (bool * list mmrp_attribute * Z * list Z) :=
  buf ← pokes buf events m;
  match mac_code a a with
  | None => Done (true, rest, events, buf)
  | Some c =>
      '(oops, rest', v) ← mac_vectorize events eof a rest m (mkVector (c, 0, 0) 1 1 6 buf);
      if (oops : bool) then Done (true, rest', events, vbuf v)
      else
        v ← flush events v;
        if eof - MRPDU_ENDMARK_SZ <? events + vectidx v then Done (true, rest', events, vbuf v)
        else
          buf ← pokes (vbuf v) (events - 2) (mm_header lva (numvalues v));
          Done (false, rest', events + vectidx v, buf)
  end.

(** The outer loop: [goto oops], the attributes, [mrpdu_msg_ptr] and [mrpdu_vectorptr],
    and the buffer; [lva] marks every vector. *)
Fixpoint mac_emit_loop (fuel : nat) (attribs : list mmrp_attribute) (msg_ptr vp eof : Z) (lva : bool)
    (buf : list Z) : outcome (bool * list mmrp_attribute * Z * Z * list Z) :=
  if negb (msg_ptr <? eof - 11 - MRPDU_ENDMARK_SZ) then Done (false, attribs, msg_ptr, vp, buf)
  else
    match attribs with
    | [] => Done (false, [], msg_ptr, vp, buf)
    | a :: rest =>
        match fuel with
        | O => Fault OutOfFuel
        | S fuel' =>
            let skip a' :=
              '(oops, rest', m', v', buf') ← mac_emit_loop fuel' rest msg_ptr vp eof lva buf;
              Done (oops, a' :: rest', m', v', buf') in
            match mm_value a with
            | SVCREQ _ => skip a
            | MACVEC m =>
                if negb (tx (mm_applicant a)) then skip a
                else if decide (encode (mm_applicant a) = MRP_ENCODE_OPTIONAL) then skip (mm_clear_tx a)
                else
                  '(oops, rest1, p, buf1) ← mac_emit_vector (vp + 2) eof m (mm_clear_tx a) rest lva buf;
                  if (oops : bool) then Done (true, mm_clear_tx a :: rest1, msg_ptr, vp, buf1)
                  else
                    '(oops, rest', m', v', buf') ← mac_emit_loop fuel' rest1 p p eof lva buf1;
                    Done (oops, mm_clear_tx a :: rest', m', v', buf')
            end
        end
    end.

Definition mmrp_emit_macvectors (buf : list Z) (msgbuf msgbuf_eof : Z) (lva : bool)
    (attribs : list mmrp_attribute) : outcome (Z * Z * list mmrp_attribute * list Z) :=
  if msgbuf_eof - 11 <? msgbuf then Done (-1, 0, attribs, buf)
  else
    buf ← pokes buf msgbuf [MMRP_MACVEC_TYPE; 6];
    '(oops, attribs', msg_ptr, vp, buf) ←
      mac_emit_loop (length attribs) attribs msgbuf (msgbuf + 2) msgbuf_eof lva buf;
    if (oops : bool) then Done (-1, 0, attribs', buf)
    else if vp =? msgbuf + 2 then Done (0, 0, attribs', buf)
    else
      buf ← pokes buf msg_ptr [0; 0];
      Done (0, msg_ptr + 2 - msgbuf, attribs', buf).

(** ** Text *)

(** [%d] of a byte. *)
Definition fmt_d (v : Z) : string :=
  let digit d := String.String (byte_char (48 + d)) String.EmptyString in
  if v <? 10 then digit v
  else if v <? 100 then digit (v / 10) +:+ digit (v mod 10)
  else digit (v / 100) +:+ digit (v / 10 mod 10) +:+ digit (v mod 10).

Definition fmt_mac (mac : list Z) : string :=
  foldr (fun b s => fmt_x 2 b +:+ s) String.EmptyString mac.

(** [variant] and [regsrc] of an attribute. *)
Definition mm_variant (a : mmrp_attribute) : string :=
  match mm_value a with
  | SVCREQ x => "S=" +:+ fmt_d x
  | MACVEC m => "M=" +:+ fmt_mac m
  end.
Definition mm_regsrc (a : mmrp_attribute) : string := "R=" +:+ fmt_mac (macaddr (mm_registrar a)).

Definition mm_notify_text (verb : string) (a : mmrp_attribute) : string :=
  snprintf (Z.to_nat MAX_MRPD_CMDSZ - 1)
    (verb +:+ " " +:+ mm_variant a +:+ " " +:+ mm_regsrc a +:+ " " +:+
     mrp_decode_state (mm_registrar a) (mm_applicant a) 8 +:+ newline).

Definition mm_notify_verb (n : mrp_notify) : option string :=
  match n with
  | MRP_NOTIFY_NEW => Some "MNE"%string
  | MRP_NOTIFY_JOIN => Some "MJO"%string
  | MRP_NOTIFY_LV => Some "MLE"%string
  | MRP_NOTIFY_NONE => None
  end.

(** One line of the table dump. *)
Definition mm_dump_line (a : mmrp_attribute) : string :=
  (match reg_state (mm_registrar a) with
   | MRP_IN_STATE => "MIN " | MRP_LV_STATE => "MLV " | MRP_MT_STATE => "MMT " end) +:+
  mm_variant a +:+ " " +:+ mm_regsrc a +:+ newline.

(** The attribute can be forgotten: neither declared here nor registered by others. *)
Definition mm_reclaimable (a : mmrp_attribute) : bool :=
  bool_decide (reg_state (mm_registrar a) = MRP_MT_STATE) &&
  (bool_decide (app_state (mm_applicant a) = MRP_VO_STATE) ||
   bool_decide (app_state (mm_applicant a) = MRP_AO_STATE) ||
   bool_decide (app_state (mm_applicant a) = MRP_QO_STATE)).

(** What the stack array [vectevt] of [mmrp_emit_svcvectors] holds before it is set. *)
Class MmrpStack := { vectevt_junk : nat -> Z * Z * Z }.

(** ** Operations *)
Section Ops.
Context `{MrpEnv} `{MmrpStack}.

Definition mm_get_list : stM MM (list mmrp_attribute) := let! s := st_get in st_ret (mm_list (app s)).
Definition mm_put_list (l : list mmrp_attribute) : stM MM unit := upd_app (fun d => mkMmrpDb l (mm_flag d)).

(** The loops over all attributes that change each one in place. *)
Fixpoint mm_map (f : mmrp_attribute -> stM MM mmrp_attribute) (l : list mmrp_attribute)
    : stM MM (list mmrp_attribute) :=
  match l with
  | [] => st_ret []
  | a :: l' => let! a' := f a in let! l'' := mm_map f l' in st_ret (a' :: l'')
  end.

Definition mm_for_each (f : mmrp_attribute -> stM MM mmrp_attribute) : stM MM unit :=
  let! l := mm_get_list in let! l' := mm_map f l in mm_put_list l'.

Definition mm_applicant_fsm (event : mrp_event) (a : mmrp_attribute) : stM MM mmrp_attribute :=
  let! s := st_get in
  st_ret (mm_set_applicant
    (snd (mrp_applicant_fsm (p2pmac (io s)) (mm_applicant a) event (mrp_registrar_in (mm_registrar a)))) a).

Definition mm_registrar_fsm (event : mrp_event) (a : mmrp_attribute) : stM MM mmrp_attribute :=
  let! r := mrp_registrar_fsm (mm_registrar a) event in
  st_ret (mm_set_registrar (snd r) a).

(** ** Transmission *)
Definition mmrp_txpdu : stM MM Z :=
  let! mem := draw mrp_malloc in
  if negb mem then st_ret (-1)
  else
    let! s := st_get in
    let buf0 := replicate (Z.to_nat MAX_FRAME_SIZE) 0 in
    let! buf := st_lift (pokes buf0 0 (MMRP_ADDR ++ STATION_ADDR (io s) ++
                                       be_bytes 2 MMRP_ETYPE ++ [MMRP_PROT_VER])) in
    let lv := lva_tx (lva (mdb s)) in
    (when lv do upd_mdb (fun d => set_lva (mkLva (lva_state (lva d)) false (lva_sndmsg (lva d))) d)) ;!
    let! r := st_lift (mmrp_emit_macvectors buf 15 MAX_FRAME_SIZE lv (mm_list (app s))) in
    let '(rc, bytes, attribs, buf) := r in
    mm_put_list attribs ;!
    if rc =? -1 then st_ret (-1)
    else
      let ptr := 15 + bytes in
      if MAX_FRAME_SIZE - MRPDU_ENDMARK_SZ <=? ptr then st_ret (-1)
      else
        let! r := st_lift (mmrp_emit_svcvectors buf ptr MAX_FRAME_SIZE lv (mm_flag (app s))
                             (vectevt_junk (clk (io s))) attribs) in
        let '(rc, bytes, attribs, buf) := r in
        mm_put_list attribs ;!
        if rc =? -1 then st_ret (-1)
        else
          let ptr := ptr + bytes in
          if ptr =? 15 then st_ret 0
          else if ptr <? MAX_FRAME_SIZE - MRPDU_ENDMARK_SZ then
            let! buf := st_lift (pokes buf ptr [0; 0]) in
            let! sent := mrpd_send (take (Z.to_nat (ptr + 2)) buf) in
            st_ret (if sent <=? 0 then -1 else 0)
          else st_ret (-1).

(** ** Notifications *)
Definition mmrp_send_notifications (attrib : mmrp_attribute) (n : mrp_notify) : stM MM Z :=
  let! m1 := draw mrp_malloc in
  if negb m1 then st_ret (-1)
  else
    let! m2 := draw mrp_malloc in
    let! m3 := draw mrp_malloc in
    if negb (m2 && m3) then st_ret 0
    else
      match mm_notify_verb n with
      | None => st_ret 0
      | Some verb =>
          let! s := st_get in
          send_to_clients (clients (mdb s)) (mm_notify_text verb attrib) ;! st_ret 0
      end.

(** The notifications at the end of [mmrp_event]. *)
Definition mm_notify_one (a : mmrp_attribute) : stM MM mmrp_attribute :=
  if decide (notify (mm_registrar a) = MRP_NOTIFY_NONE) then st_ret a
  else
    mmrp_send_notifications a (notify (mm_registrar a)) ;!
    st_ret (mm_set_registrar (set_notify MRP_NOTIFY_NONE (mm_registrar a)) a).

(** ** Events *)

(** The attribute of a value with those before and after it. *)
Fixpoint split_value (v : mmrp_value) (l : list mmrp_attribute)
    : option (list mmrp_attribute * mmrp_attribute * list mmrp_attribute) :=
  match l with
  | [] => None
  | a :: l' =>
      if mm_same (mm_value a) v then Some ([], a, l')
      else match split_value v l' with Some (b, x, r) => Some (a :: b, x, r) | None => None end
  end.

(** The registrar's part of an attribute event: local requests are remapped. *)
Definition mm_registrar_part (event : mrp_event) (a : mmrp_attribute) : stM MM mmrp_attribute :=
  match event with
  | MRP_EVENT_NEW =>
      let! a' := mm_registrar_fsm MRP_EVENT_BEGIN a in
      st_ret (mm_set_registrar (set_notify MRP_NOTIFY_NEW (mm_registrar a')) a')
  | MRP_EVENT_JOIN =>
      if decide (reg_state (mm_registrar a) = MRP_IN_STATE) then mm_registrar_fsm MRP_EVENT_RJOININ a
      else mm_registrar_fsm MRP_EVENT_RJOINMT a
  | MRP_EVENT_LV => mm_registrar_fsm MRP_EVENT_RLV a
  | _ => mm_registrar_fsm event a
  end.

(** The attribute found or added: applicant, registrar. *)
Definition mm_attribute_event (event : mrp_event) (v : mmrp_value) : stM MM unit :=
  let! l := mm_get_list in
  match split_value v l with
  | None => st_ret tt
  | Some (before, a, after) =>
      let! a1 := mm_applicant_fsm event a in
      let! a2 := mm_registrar_part event a1 in
      mm_put_list (before ++ a2 :: after)
  end.

Definition mm_tx_count (count : Z) (a : mmrp_attribute) : Z :=
  count + mrp_applicant_state_transition_implies_tx (mm_applicant a).

(** The body of the [switch]; [false] is an early return that skips the notifications. *)
Definition mm_event_switch (event : mrp_event) (rattrib : option mmrp_attribute) : stM MM (bool * Z) :=
  let next := st_ret (true, 0) in
  match event with
  | MRP_EVENT_LVATIMER =>
      mrp_lvatimer_stop ;! mrp_jointimer_stop ;!
      mm_for_each (fun a => let! a' := mm_applicant_fsm MRP_EVENT_TXLA a in mm_registrar_fsm MRP_EVENT_TXLA a') ;!
      mrp_lvatimer_fsm MRP_EVENT_LVATIMER ;!
      upd_app (fun d => mkMmrpDb (mm_list d) true) ;!
      mrp_lvatimer_fsm MRP_EVENT_TX ;!
      mmrp_txpdu ;!
      upd_app (fun d => mkMmrpDb (mm_list d) false) ;! next
  | MRP_EVENT_RLA =>
      mrp_jointimer_start ;!
      match rattrib with
      | None => st_ret (false, -1)
      | Some r =>
          mm_for_each (fun a =>
            if mm_type (mm_value a) =? mm_type (mm_value r) then
              let! a' := mm_applicant_fsm MRP_EVENT_RLA a in mm_registrar_fsm MRP_EVENT_RLA a'
            else st_ret a) ;!
          mrp_lvatimer_fsm MRP_EVENT_RLA ;! next
      end
  | MRP_EVENT_TX =>
      mrp_jointimer_stop ;!
      mm_for_each (mm_applicant_fsm MRP_EVENT_TX) ;!
      let! l := mm_get_list in
      let count := foldl mm_tx_count 0 l in
      mmrp_txpdu ;!
      (if count =? 0 then st_ret 0 else mrp_jointimer_start) ;! next
  | MRP_EVENT_LVTIMER =>
      mrp_lvtimer_stop ;!
      mm_for_each (mm_registrar_fsm MRP_EVENT_LVTIMER) ;! next
  | MRP_EVENT_PERIODIC =>
      let! l := mm_get_list in
      (if decide (l = []) then st_ret 0 else mrp_jointimer_start) ;!
      mm_for_each (mm_applicant_fsm MRP_EVENT_PERIODIC) ;! next
  | MRP_EVENT_NEW | MRP_EVENT_JOIN | MRP_EVENT_RNEW | MRP_EVENT_RJOININ | MRP_EVENT_RJOINMT
  | MRP_EVENT_LV | MRP_EVENT_RIN | MRP_EVENT_RMT | MRP_EVENT_RLV =>
      mrp_jointimer_start ;!
      match rattrib with
      | None => st_ret (false, -1)
      | Some r =>
          let! l := mm_get_list in
          match mmrp_lookup l r with
          | None =>
              if decide (event = MRP_EVENT_RMT) then st_ret (false, 0)
              else mm_put_list (mmrp_add l r) ;! mm_attribute_event event (mm_value r) ;! next
          | Some _ =>
              mm_put_list (snd (mmrp_merge l r)) ;! mm_attribute_event event (mm_value r) ;! next
          end
      end
  | _ => next
  end.

Definition mmrp_event (event : mrp_event) (rattrib : option mmrp_attribute) : stM MM Z :=
  let! r := mm_event_switch event rattrib in
  if fst r then mm_for_each mm_notify_one ;! st_ret 0
  else st_ret (snd r).

(** ** Reception

    In the decoder [None] is the [goto out] that abandons the frame. *)
Definition mm_rx (e : Z) (a : mmrp_attribute) : stM MM unit :=
  match rx_event e with
  | Some ev => mmrp_event ev (Some a) ;! st_ret tt
  | None => st_ret tt
  end.

(** The events of one packed byte, for consecutive service requirements: 0 and 1 only. *)
Fixpoint svc_values (evts : list Z) (svcreq_firstval : Z) (mac : list Z) : stM MM (option Z) :=
  match evts with
  | [] => st_ret (Some svcreq_firstval)
  | e :: evts' =>
      if 1 <? svcreq_firstval then svc_values evts' svcreq_firstval mac
      else
        let! mem := draw mrp_malloc in
        if negb mem then st_ret None
        else mm_rx e (mmrp_alloc (SVCREQ svcreq_firstval) mac) ;!
             svc_values evts' (u8 (svcreq_firstval + 1)) mac
  end.

(** ... and for consecutive addresses. *)
Fixpoint mac_values (evts : list Z) (macvec_firstval : list Z) (mac : list Z) : stM MM (option (list Z)) :=
  match evts with
  | [] => st_ret (Some macvec_firstval)
  | e :: evts' =>
      let! mem := draw mrp_malloc in
      if negb mem then st_ret None
      else mm_rx e (mmrp_alloc (MACVEC macvec_firstval) mac) ;!
           mac_values evts' (mmrp_increment_macaddr macvec_firstval) mac
  end.

(** The loop over [vectidx], for either kind of value. *)
Fixpoint mm_bytes {V} (values : list Z -> V -> list Z -> stM MM (option V)) (n : nat) (buf : list Z)
    (events vidx num : Z) (firstval : V) (mac : list Z) : stM MM (option V) :=
  match n with
  | O => st_ret (Some firstval)
  | S n' =>
      let! b := st_lift (peek buf (events + vidx)) in
      let processed := if 3 <? num then 3 else num in
      let! r := values (take (Z.to_nat processed) (unpack3 b)) firstval mac in
      match r with
      | None => st_ret None
      | Some firstval' => mm_bytes values n' buf events (vidx + 1) (u16 (num - processed)) firstval' mac
      end
  end.

(** [mrpdu_msg_ptr[0] == 0 && mrpdu_msg_ptr[1] == 0]. *)
Definition mm_endmark (buf : list Z) (ptr : Z) : stM MM bool :=
  let! b0 := st_lift (peek buf ptr) in
  if b0 =? 0 then let! b1 := st_lift (peek buf (ptr + 1)) in st_ret (b1 =? 0) else st_ret false.

(** A LeaveAll for the attributes of the type of [v]; [false] is the [goto out]. *)
Definition mm_leaveall (v : mmrp_value) : stM MM bool :=
  let! mem := draw mrp_malloc in
  if negb mem then st_ret false
  else mmrp_event MRP_EVENT_RLA (Some (mmrp_alloc v (replicate 6 0))) ;! st_ret true.

Definition num_vector_bytes (num : Z) : Z := if num =? num / 3 * 3 then num / 3 else num / 3 + 1.

(** The vectors of a SVCREQ message, up to its end mark: the pointer after them and
    whether a LeaveAll was seen. *)
Fixpoint svc_vectors (fuel : nat) (buf : list Z) (eof ptr : Z) (saw_lva : bool) (mac : list Z)
    : stM MM (option (Z * bool)) :=
  let! mark := mm_endmark buf ptr in
  if (mark : bool) then st_ret (Some (ptr, saw_lva))
  else
    match fuel with
    | O => st_lift (Fault OutOfFuel)
    | S fuel' =>
        let! header := st_lift (peek16 buf ptr) in
        let num := MRPDU_VECT_NUMVALUES header in
        let leaveall := MRPDU_VECT_LVA header && negb saw_lva in
        let! ok := (if leaveall then mm_leaveall (SVCREQ 0) else st_ret true) in
        let events := ptr + 2 in
        if negb ok then st_ret None
        else if num =? 0 then st_ret None
        else if eof <=? events + num / 3 then st_ret None
        else
          let! firstval := st_lift (peek buf events) in
          let numvectorbytes := num_vector_bytes num in
          let! r := mm_bytes svc_values (Z.to_nat (numvectorbytes + 1)) buf events 1 num firstval mac in
          match r with
          | None => st_ret None
          | Some _ => svc_vectors fuel' buf eof (ptr + 3 + numvectorbytes) (saw_lva || leaveall) mac
          end
    end.

(** [memcpy] of six bytes out of the buffer. *)
Definition peek_mac (buf : list Z) (i : Z) : outcome (list Z) :=
  if (0 <=? i) && (i + 6 <=? Z.of_nat (length buf)) then Done (take 6 (drop (Z.to_nat i) buf)) else Fault OutOfBounds.

(** The vectors of a MACVEC message. *)
Fixpoint mac_vectors (fuel : nat) (buf : list Z) (eof ptr : Z) (mac : list Z) : stM MM (option Z) :=
  let! mark := mm_endmark buf ptr in
  if (mark : bool) then st_ret (Some ptr)
  else
    match fuel with
    | O => st_lift (Fault OutOfFuel)
    | S fuel' =>
        let! header := st_lift (peek16 buf ptr) in
        let num := MRPDU_VECT_NUMVALUES header in
        let! ok := (if MRPDU_VECT_LVA header then mm_leaveall (MACVEC (replicate 6 0)) else st_ret true) in
        let events := ptr + 2 in
        if negb ok then st_ret None
        else if num =? 0 then st_ret None
        else if eof <=? events + num / 3 then st_ret None
        else
          let! firstval := st_lift (peek_mac buf events) in
          let numvectorbytes := num_vector_bytes num in
          let! r := mm_bytes mac_values (Z.to_nat (numvectorbytes + 1)) buf events 6 num firstval mac in
          match r with
          | None => st_ret None
          | Some _ => mac_vectors fuel' buf eof (ptr + 8 + numvectorbytes) mac
          end
    end.

(** The message list. *)
Fixpoint mm_messages (fuel : nat) (buf : list Z) (eof ptr endmarks : Z) (saw_lva : bool) (mac : list Z)
    : stM MM Z :=
  if negb (ptr <? eof - MRPDU_ENDMARK_SZ) then st_ret 0
  else
    match fuel with
    | O => st_lift (Fault OutOfFuel)
    | S fuel' =>
        let! t := st_lift (peek buf ptr) in
        let! len := st_lift (peek buf (ptr + 1)) in
        if (t =? 0) && (len =? 0) then
          if endmarks + 1 <? 2 then mm_messages fuel' buf eof (ptr + 2) (endmarks + 1) saw_lva mac
          else st_ret 0
        else if t =? MMRP_SVCREQ_TYPE then
          if negb (len =? 1) then st_ret (-1)
          else
            let! r := svc_vectors (length buf) buf eof (ptr + 2) saw_lva mac in
            match r with
            | None => st_ret (-1)
            | Some (ptr', saw') => mm_messages fuel' buf eof ptr' 0 saw' mac
            end
        else if t =? MMRP_MACVEC_TYPE then
          if negb (len =? 6) then st_ret (-1)
          else
            let! r := mac_vectors (length buf) buf eof (ptr + 2) mac in
            match r with
            | None => st_ret (-1)
            | Some ptr' => mm_messages fuel' buf eof ptr' 0 saw_lva mac
            end
        else st_ret (-1)
    end.

(** [frame] is what [recvmsg] delivers; [None] when it delivers nothing. *)
Definition mmrp_recv_msg (frame : option (list Z)) : stM MM Z :=
  let! mem := draw mrp_malloc in
  if negb mem then st_ret (-1)
  else
    match frame with
    | None => st_ret (-1)
    | Some f =>
        let buf := recv_buf f in
        let bytes := Z.min (Z.of_nat (length f)) MAX_FRAME_SIZE in
        if bytes <? 14 + 1 + 2 then st_ret (-1)
        else
          let! etype := st_lift (peek16 buf 12) in
          if negb (etype =? MMRP_ETYPE) then st_ret (-1)
          else if decide (take 6 buf = MMRP_ADDR) then
            mm_messages (length buf) buf bytes 15 0 false (take 6 (drop 6 buf))
          else st_ret (-1)
    end.

(** ** Control commands *)

(** The loop of the dump: the text written so far. *)
Fixpoint mm_dump_loop (l : list mmrp_attribute) (text : string) : outcome string :=
  match l with
  | [] => Done text
  | a :: l' =>
      sprintf_at 128 0 (mm_variant a) ;;
      sprintf_at 128 0 (mm_regsrc a) ;;
      sprintf_at 128 0 (mm_dump_line a) ;;
      sprintf_at MAX_MRPD_CMDSZ (Z.of_nat (String.length text)) (mm_dump_line a) ;;
      mm_dump_loop l' (text +:+ mm_dump_line a)
  end.

Definition mmrp_dumptable (client : sockaddr_in) : stM MM Z :=
  let! m1 := draw mrp_malloc in
  if negb m1 then st_ret (-1)
  else
    let! m2 := draw mrp_malloc in
    let! m3 := draw mrp_malloc in
    let! m4 := draw mrp_malloc in
    if negb (m2 && m3 && m4) then st_ret 0
    else
      let! l := mm_get_list in
      let! text := (if decide (l = []) then st_ret ("MMRP:Empty" +:+ newline)
                    else st_lift (mm_dump_loop l String.EmptyString)) in
      mrpd_send_ctl_msg client text MAX_MRPD_CMDSZ ;! st_ret 0.

(** The command as [parse] leaves it in the buffer. *)
Definition parsed_text (buf : list Z) (r : parse_result) : list Z :=
  if decide (Forall (fun b => b <> 0) (take 4 buf)) then take 4 buf ++ pleft r else c_string buf.

(** The result, the address, and the buffer as [parse] leaves it. *)
Definition mmrp_cmd_parse_mac (buf : list Z) (buflen : Z) : Z * list Z * list Z :=
  if buflen <? 17 then (-1, replicate 6 0, c_string buf)
  else
    let r := parse (drop 4 buf) (buflen - 4) [mkParam (bytes_of_string "M=") parse_mac] in
    match pvalues r with
    | PBytes m :: _ => (prc r, m, parsed_text buf r)
    | _ => (prc r, replicate 6 0, parsed_text buf r)
    end.

Definition mmrp_cmd_mac (mac : list Z) (event : mrp_event) : stM MM Z :=
  let! mem := draw mrp_malloc in
  if negb mem then st_ret (-1)
  else mmrp_event event (Some (mmrp_alloc (MACVEC mac) (replicate 6 0))) ;! st_ret 0.

Definition mmrp_cmd_parse_service (buf : list Z) (buflen : Z) : Z * Z * list Z :=
  if buflen <? 5 then (-1, 0, c_string buf)
  else
    let r := parse (drop 4 buf) (buflen - 4) [mkParam (bytes_of_string "S=") parse_u8] in
    match pvalues r with
    | PInt v :: _ => (prc r, v, parsed_text buf r)
    | _ => (prc r, 0, parsed_text buf r)
    end.

Definition mmrp_cmd_service (service : Z) (event : mrp_event) : stM MM Z :=
  let! mem := draw mrp_malloc in
  if negb mem then st_ret (-1)
  else mmrp_event event (Some (mmrp_alloc (SVCREQ service) (replicate 6 0))) ;! st_ret 0.

(** A parsed command: [ERP] for bad parameters, [ERI] when memory runs out. *)
Definition mm_command {V} (parsed : Z * V * list Z) (run : V -> stM MM Z) (client : sockaddr_in) : stM MM Z :=
  let '(rc, v, text) := parsed in
  if negb (rc =? 0) then respond client ("ERP " +:+ string_of_bytes text)
  else
    let! rc := run v in
    if negb (rc =? 0) then respond client ("ERI " +:+ string_of_bytes text) else st_ret 0.

(** The request of an [M+?] or [M++] command. *)
Definition mm_declare (buf : list Z) : mrp_event :=
  if decide (buf !! 2%nat = Some 63) then MRP_EVENT_JOIN else MRP_EVENT_NEW.

(** A command when the database is there. *)
Definition mm_recv_cmd_db (buf : list Z) (buflen : Z) (client : sockaddr_in) : stM MM Z :=
  let starts text := bool_decide (take (String.length text) buf = bytes_of_string text) in
  let! mem := draw mrp_malloc in
  upd_mdb (fun d => set_clients (snd (mrp_client_add mem (clients d) (Some client))) d) ;!
  if buflen <? 3 then st_ret (-1)
  else if negb (bool_decide (head buf = Some 77)) then st_ret (-1)
  else if starts "M??"%string then mmrp_dumptable client ;! st_ret 0
  else if starts "M--:S"%string then
    mm_command (mmrp_cmd_parse_service buf buflen) (fun v => mmrp_cmd_service v MRP_EVENT_LV) client
  else if starts "M--:M"%string then
    mm_command (mmrp_cmd_parse_mac buf buflen) (fun m => mmrp_cmd_mac m MRP_EVENT_LV) client
  else if starts "M++:S"%string || starts "M+?:S"%string then
    mm_command (mmrp_cmd_parse_service buf buflen) (fun v => mmrp_cmd_service v (mm_declare buf)) client
  else if starts "M++:M"%string || starts "M+?:M"%string then
    mm_command (mmrp_cmd_parse_mac buf buflen) (fun m => mmrp_cmd_mac m (mm_declare buf)) client
  else respond client ("ERC MMRP " +:+ string_of_bytes (c_string buf)).

(** ** The global [MMRP_db]: NULL while the protocol is disabled *)
Definition MmrpGlobal : Type := Io + MM.

Definition mmrp_recv_cmd (buf : list Z) (buflen : Z) (client : sockaddr_in) : stM MmrpGlobal Z :=
  with_db (null_respond client ("ERC MMRP_db " +:+ string_of_bytes (c_string buf) +:+ newline))
    (mm_recv_cmd_db buf buflen client).

(** The attributes that can be forgotten are unlinked, announced and freed. *)
Fixpoint mm_reclaim_loop (before todo : list mmrp_attribute) : stM MM unit :=
  match todo with
  | [] => st_ret tt
  | a :: after =>
      if mm_reclaimable a then
        mm_put_list (before ++ after) ;! mmrp_send_notifications a MRP_NOTIFY_LV ;!
        mm_reclaim_loop before after
      else mm_reclaim_loop (before ++ [a]) after
  end.

Definition mmrp_reclaim : stM MmrpGlobal Z :=
  with_db (st_ret 0) (let! l := mm_get_list in mm_reclaim_loop [] l ;! st_ret 0).

(** The attributes, the clients and the database are freed; [MMRP_db] is left dangling. *)
Definition mmrp_reset (g : MmrpGlobal) : Io := match g with inl i => i | inr s => io s end.

Definition mmrp_bye (client : sockaddr_in) : stM MmrpGlobal unit :=
  with_db (st_ret tt)
    (upd_mdb (fun d => set_clients (snd (mrp_client_delete (clients d) (Some client))) d)).

Definition mmrp_init (mmrp_enable : bool) (socket_rc : Z) (mem : bool) (join lv lv_all : Z)
    : stM MmrpGlobal Z :=
  fun g =>
    let i := match g with inl i => i | inr s => io s end in
    if negb mmrp_enable then Done (0, inl i)
    else if socket_rc <? 0 then Done (-1, inl i)
    else if negb mem then Done (-1, inl i)
    else
      match mrpd_init_timers join lv lv_all with
      | None => Done (-1, inl i)
      | Some db =>
          match mrp_lvatimer_fsm MRP_EVENT_BEGIN (mkMrp db (mkMmrpDb [] false) i) with
          | Done (_, s) => Done (0, inr s)
          | Fault w => Fault w
          end
      end.

End Ops.
