(* ===== verification/MmrpInv.v ===== *)
(** * MmrpInv: the attribute list of MMRP

    The list is grouped by attribute type and strictly sorted within each group, which
    [mmrp_add] preserves. *)
From stdpp Require Import base gmap list strings numbers sorting.
From S2P Require Import Prelude Text Parse Mrp MrpProps Mvrp MvrpWire Mmrp.
#[local] Open Scope Z_scope.
#[local] Open Scope st_scope.

(** ** Byte strings *)
Lemma increment_bytes i m :
  Forall is_byte m -> length (increment_from i m) = length m /\ Forall is_byte (increment_from i m).
Proof.
  revert m. induction i as [|i IH]; intros m Hb; [done|]. cbn [increment_from].
  destruct (m !! S i) as [b|]; [|done]. destruct (255 =? b).
  - destruct (IH (<[S i := 0]> m)) as [H1 H2]; [apply Forall_insert; [done|]; by split|]. by rewrite H1, length_insert.
  - rewrite length_insert. split; [done|]. apply Forall_insert; [done|]. apply u8_range.
Qed.

Lemma length_fmt_mac m : String.length (fmt_mac m) = (2 * length m)%nat.
Proof. apply length_hex_bytes. Qed.

Lemma length_fmt_d v : (String.length (fmt_d v) <= 3)%nat.
Proof. unfold fmt_d. repeat case_match; simpl; lia. Qed.

(** ** Values *)
Definition value_ok (v : mmrp_value) : Prop :=
  match v with
  | SVCREQ x => 0 <= x < 256
  | MACVEC m => length m = 6%nat /\ Forall is_byte m
  end.

Definition vtype (a : mmrp_attribute) : Z := mm_type (mm_value a).
Definition values (l : list mmrp_attribute) : list mmrp_value := mm_value <$> l.

Lemma memcmp_sign x y : memcmp x y = -1 \/ memcmp x y = 0 \/ memcmp x y = 1.
Proof. revert y. induction x as [|a x IH]; intros [|b y]; simpl; auto. repeat case_match; auto. Qed.

Lemma memcmp_eq x y : length x = length y -> memcmp x y = 0 <-> x = y.
Proof.
  revert y. induction x as [|a x IH]; intros [|b y] Hl; simplify_eq/=; [done|].
  destruct (Z.ltb_spec a b), (Z.ltb_spec b a); try lia; try (split; [lia|intros [= -> ->]; lia]).
  rewrite IH by done. split; [intros ->; f_equal; lia|by intros [= _ ->]].
Qed.

Lemma memcmp_swap x y : length x = length y -> memcmp y x = - memcmp x y.
Proof.
  revert y. induction x as [|a x IH]; intros [|b y] Hl; simplify_eq/=; [done|].
  destruct (Z.ltb_spec a b), (Z.ltb_spec b a); try lia. by apply IH.
Qed.

Lemma memcmp_trans x y z :
  length x = length y -> length y = length z -> memcmp x y < 0 -> memcmp y z < 0 -> memcmp x z < 0.
Proof.
  revert y z. induction x as [|a x IH]; intros [|b y] [|c z] H1 H2; simplify_eq/=; try lia.
  destruct (Z.ltb_spec a b), (Z.ltb_spec b a), (Z.ltb_spec b c), (Z.ltb_spec c b), (Z.ltb_spec a c), (Z.ltb_spec c a);
    try lia. by apply IH.
Qed.

Lemma mm_same_spec x y : value_ok x -> value_ok y -> mm_same x y = true <-> x = y.
Proof.
  destruct x as [x|x], y as [y|y]; simpl; intros Hx Hy; try done.
  - rewrite Z.eqb_eq. split; congruence.
  - destruct Hx, Hy. rewrite Z.eqb_eq, memcmp_eq by congruence. split; congruence.
Qed.

(** The order within a type. *)
Definition vlt (x y : mmrp_value) : Prop := mm_less x y = true.

Lemma vlt_trans x y z : value_ok x -> value_ok y -> value_ok z -> vlt x y -> vlt y z -> vlt x z.
Proof.
  unfold vlt. destruct x, y, z; simpl; try done; rewrite ?Z.ltb_lt; [lia|].
  intros [] [] []. apply memcmp_trans; congruence.
Qed.

Lemma vlt_total x y : value_ok x -> value_ok y -> mm_type x = mm_type y -> x <> y -> mm_less x y = false -> vlt y x.
Proof.
  unfold vlt. destruct x as [x|x], y as [y|y]; simpl; try done; rewrite Z.ltb_ge, Z.ltb_lt.
  - intros _ _ _ Hne. assert (x <> y) by congruence. lia.
  - intros [] [] _ Hne Hge. rewrite (memcmp_swap x y) by congruence. pose proof (memcmp_eq x y ltac:(congruence)) as [H5 _].
    assert (memcmp x y <> 0) by (intros E; apply Hne; f_equal; auto). lia.
Qed.

Lemma vlt_irrefl x : value_ok x -> ~ vlt x x.
Proof.
  unfold vlt. destruct x as [x|x]; simpl; rewrite Z.ltb_lt; [lia|]. intros _. pose proof (memcmp_eq x x eq_refl) as [_ H].
  specialize (H eq_refl). lia.
Qed.

(** ** The list *)

(** A group: one type, strictly sorted. *)
Record group (t : Z) (vs : list mmrp_value) : Prop := mkGroup {
  gr_type : Forall (fun v => mm_type v = t) vs;
  gr_sorted : StronglySorted vlt vs }.

(** One group of either type, in either order. *)
Definition grouped (vs : list mmrp_value) : Prop :=
  exists t1 t2 vs1 vs2, vs = vs1 ++ vs2 /\
    ((t1 = MMRP_SVCREQ_TYPE /\ t2 = MMRP_MACVEC_TYPE) \/ (t1 = MMRP_MACVEC_TYPE /\ t2 = MMRP_SVCREQ_TYPE)) /\
    group t1 vs1 /\ group t2 vs2.

Record mm_attr_ok (a : mmrp_attribute) : Prop := mkMmAttrOk {
  mo_value : value_ok (mm_value a);
  mo_mac : length (macaddr (mm_registrar a)) = 6%nat }.

Record mm_list_ok (l : list mmrp_attribute) : Prop := mkMmListOk {
  ml_grouped : grouped (values l);
  ml_attrs : Forall mm_attr_ok l }.

Lemma group_nodup t vs : group t vs -> Forall value_ok vs -> NoDup vs.
Proof.
  intros [_ H]. induction H as [|v vs Hs IH Hv]; intros Hok; constructor.
  - intros Hin. rewrite list.Forall_forall in Hv. apply Forall_cons_iff in Hok as [Hok _]. by apply (vlt_irrefl v), Hv.
  - apply IH. by apply Forall_cons_iff in Hok as [_ ?].
Qed.

Lemma mm_values_ok l : mm_list_ok l -> Forall value_ok (values l).
Proof. intros [_ H]. unfold values. apply Forall_fmap. eapply Forall_impl; [exact H|]. by intros a []. Qed.

Lemma mm_nodup l : mm_list_ok l -> NoDup (values l).
Proof.
  intros H. pose proof (mm_values_ok _ H) as Hok. destruct H as [(t1 & t2 & vs1 & vs2 & E & Ht & H1 & H2) _].
  rewrite E in Hok |- *. apply Forall_app in Hok as [Ho1 Ho2]. apply NoDup_app. split; [by eapply group_nodup|]. split; [|by eapply group_nodup].
  intros v Hv1 Hv2. destruct H1 as [H1 _], H2 as [H2 _]. rewrite list.Forall_forall in H1, H2.
  specialize (H1 _ Hv1). specialize (H2 _ Hv2). destruct Ht as [[-> ->] | [-> ->]]; by rewrite H1 in H2.
Qed.

(** ** Insertion *)
Lemma mmrp_add_skip l1 l2 r :
  Forall (fun a => vtype a <> vtype r) l1 -> mmrp_add (l1 ++ l2) r = l1 ++ mmrp_add l2 r.
Proof.
  induction 1 as [|a l1 Ha _ IH]; [done|]. cbn [Datatypes.app mmrp_add].
  destruct (Z.eqb_spec (mm_type (mm_value r)) (mm_type (mm_value a))); [by destruct Ha|]. by rewrite IH.
Qed.

(** The position of a new value in its group. *)
Lemma mmrp_add_group t l1 l2 r :
  group t (values l1) -> l1 <> [] -> Forall (fun a => vtype a <> t) l2 -> vtype r = t ->
  Forall value_ok (values (r :: l1)) -> mm_value r ∉ values l1 ->
  exists b c, l1 = b ++ c /\ mmrp_add (l1 ++ l2) r = b ++ r :: c ++ l2 /\
    Forall (fun v => vlt v (mm_value r)) (values b) /\ Forall (fun v => vlt (mm_value r) v) (values c).
Proof.
  intros Hg Hne H2 Hr Hok Hn. induction l1 as [|a l1 IH]; [done|]. clear Hne. destruct Hg as [Ht Hs].
  unfold values in *. rewrite !fmap_cons in *. apply Forall_cons_iff in Ht as [Ha Ht]. apply StronglySorted_inv in Hs as [Hs Hs'].
  apply Forall_cons_iff in Hok as [Hokr Hok]. apply Forall_cons_iff in Hok as [Hoka Hok].
  rewrite not_elem_of_cons in Hn. destruct Hn as [Hn Hn']. cbn [Datatypes.app mmrp_add].
  unfold vtype in Hr. rewrite Hr, Ha, Z.eqb_refl. destruct (mm_less (mm_value a) (mm_value r)) eqn:E.
  - destruct l1 as [|n l1].
    + exists [a], []. split; [done|]. split; [|split; [by constructor|constructor]].
      destruct l2 as [|n l2]; [done|]. apply Forall_cons_iff in H2 as [Hx _]. cbn [Datatypes.app].
      destruct (Z.eqb_spec t (mm_type (mm_value n))); [|done]. by destruct Hx.
    + apply Forall_cons_iff in Ht as [Hnt Ht]. cbn [Datatypes.app]. rewrite Hnt, Z.eqb_refl.
      destruct IH as (b & c & E1 & E2 & H3 & H4); try done; [by constructor; [constructor|]|by constructor|].
      change (n :: l1 ++ l2) with ((n :: l1) ++ l2). rewrite E2, E1. exists (a :: b), c. split_and!; [done|done| |done].
      by constructor.
  - exists [], (a :: l1). split_and!; [done|done|constructor|]. cbn [fmap list_fmap].
    assert (vlt (mm_value r) (mm_value a)) as Hlt by (apply vlt_total; try done; congruence).
    constructor; [done|]. rewrite list.Forall_forall in Hs', Hok |- *. intros v Hv.
    eapply vlt_trans; [done|exact Hoka| |done|by apply Hs']. by apply Hok.
Qed.

Lemma group_insert t b c v :
  group t (b ++ c) -> mm_type v = t -> Forall (fun x => vlt x v) b -> Forall (fun x => vlt v x) c -> group t (b ++ v :: c).
Proof.
  intros [H1 H2] Hv Hb Hc. apply Forall_app in H1 as [H3 H4]. apply StronglySorted_app_iff in H2 as (H5 & H6 & H7).
  split; [apply Forall_app; split; [done|by constructor]|]. apply StronglySorted_app_iff. rewrite list.Forall_forall in Hb.
  split; [done|]. split; [by constructor|]. intros x y Hx. rewrite elem_of_cons. intros [->|Hy]; auto.
Qed.

Lemma vtype_cases a : vtype a = MMRP_SVCREQ_TYPE \/ vtype a = MMRP_MACVEC_TYPE.
Proof. unfold vtype, mm_type. destruct (mm_value a); auto. Qed.

(** Insertion into two groups, of which the first or the second takes the new value. *)
Lemma mmrp_add_position t1 t2 l1 l2 r :
  group t1 (values l1) -> group t2 (values l2) -> t1 <> t2 -> vtype r = t1 \/ vtype r = t2 ->
  Forall value_ok (values (l1 ++ l2)) -> value_ok (mm_value r) -> mm_value r ∉ values (l1 ++ l2) ->
  exists b c t1' t2' vs1 vs2, l1 ++ l2 = b ++ c /\ mmrp_add (l1 ++ l2) r = b ++ r :: c /\
    values (b ++ r :: c) = vs1 ++ vs2 /\ group t1' vs1 /\ group t2' vs2 /\
    (t1' = t1 /\ t2' = t2 \/ t1' = t2 /\ t2' = t1).
Proof.
  intros H1 H2 Ht Hr Hok Hrok Hn. unfold values in Hn, Hok. rewrite fmap_app in Hn, Hok. fold (values l1) in *. fold (values l2) in *.
  apply Forall_app in Hok as [Ho1 Ho2]. rewrite not_elem_of_app in Hn. destruct Hn as [Hn1 Hn2].
  assert (forall l t, group t (values l) -> t <> vtype r -> Forall (fun a => vtype a <> vtype r) l) as Hother.
  { intros l t [Hg _] Hne. unfold values in Hg. rewrite Forall_fmap in Hg. eapply Forall_impl; [exact Hg|].
    intros a Hx. unfold vtype in *. simpl in Hx. congruence. }
  assert (forall t, t = vtype r -> group t [mm_value r]) as Hone by (intros t ->; split; by repeat constructor).
  destruct (decide (vtype r = t1)) as [Hr1|Hr1]; [destruct (decide (l1 = [])) as [-> | Hne]|destruct (decide (l2 = [])) as [-> | Hne]].
  - exists l2, [], t2, t1, (values l2), [mm_value r]. pose proof (mmrp_add_skip l2 [] r) as Hs. cbn [Datatypes.app]. rewrite app_nil_r in *.
    rewrite Hs by (eapply Hother; [done|congruence]). unfold values. rewrite fmap_app. split_and!; auto.
  - destruct (mmrp_add_group t1 l1 l2 r) as (b & c & -> & E & Hb & Hc); try done;
      [rewrite <- Hr1; eapply Hother; [done|congruence]|by constructor|].
    exists b, (c ++ l2), t1, t2, (values (b ++ r :: c)), (values l2). rewrite E. unfold values in *.
    rewrite !fmap_app, !fmap_cons, fmap_app, <- !app_assoc in *. split_and!; auto. by apply group_insert.
  - exists l1, [], t1, t2, (values l1), [mm_value r]. rewrite mmrp_add_skip by (eapply Hother; [done|congruence]).
    unfold values. rewrite fmap_app. split_and!; auto. apply Hone. by destruct Hr.
  - destruct Hr as [?|Hr]; [done|]. pose proof (mmrp_add_group t2 l2 [] r) as H. rewrite app_nil_r in H.
    destruct H as (b & c & -> & E & Hb & Hc); try done; [by constructor|]. rewrite app_nil_r in E.
    exists (l1 ++ b), c, t1, t2, (values l1), (values (b ++ r :: c)).
    rewrite mmrp_add_skip by (eapply Hother; [exact H1|congruence]). rewrite E. unfold values in *.
    rewrite !fmap_app, !fmap_cons, <- !app_assoc in *. split_and!; auto. by apply group_insert.
Qed.

(** [mmrp_add] puts a new value somewhere, and the list stays grouped and sorted. *)
Lemma mmrp_add_spec l r :
  mm_list_ok l -> mm_attr_ok r -> mm_value r ∉ values l ->
  exists b c, l = b ++ c /\ mmrp_add l r = b ++ r :: c /\ mm_list_ok (b ++ r :: c).
Proof.
  intros Hl Hr Hn. pose proof (mm_values_ok _ Hl) as Hok. destruct Hl as [(t1 & t2 & vs1 & vs2 & E & Ht & H1 & H2) Ha].
  unfold values in E. apply fmap_app_inv in E as (l1 & l2 & -> & -> & ->).
  destruct (mmrp_add_position t1 t2 l1 l2 r) as (b & c & t1' & t2' & vs1 & vs2 & E1 & E2 & E3 & H3 & H4 & H5); try done.
  - destruct Ht as [[-> ->] | [-> ->]]; done.
  - pose proof (vtype_cases r). destruct Ht as [[-> ->] | [-> ->]]; tauto.
  - apply Hr.
  - exists b, c. split_and!; [done|done|]. split.
    + exists t1', t2', vs1, vs2. split_and!; try done. destruct Ht as [[-> ->] | [-> ->]], H5 as [[-> ->] | [-> ->]]; auto.
    + rewrite E1 in Ha. apply Forall_app in Ha as [??]. apply Forall_app. split; [done|by constructor].
Qed.
