(* ===== verification/MmrpWire.v ===== *)
(** * MmrpWire: the MMRP encoders stay inside their buffer

    Where [mmrp_emit_macvectors] and [mmrp_emit_svcvectors] write, whatever the attribute
    list and whatever the array [vectevt] holds: the vectors stay inside the buffer, and
    take at most nine bytes for each marked address; only the empty LeaveAll message of
    the second needs more room than it checks for. *)
From stdpp Require Import base gmap list strings numbers.
From S2P Require Import Prelude Text Parse Mrp Mvrp MvrpWire Mmrp.
From S2P Require Import MmrpInv.
#[local] Open Scope Z_scope.
#[local] Open Scope st_scope.

(** An attribute after a transmission: unchanged, or no longer marked. *)
Definition mm_sent (a a' : mmrp_attribute) : Prop := a' = a \/ a' = mm_clear_tx a.

Lemma mm_sent_refl l : Forall2 mm_sent l l.
Proof. induction l; constructor; [by left|done]. Qed.

Lemma mm_sent_trans l1 l2 l3 : Forall2 mm_sent l1 l2 -> Forall2 mm_sent l2 l3 -> Forall2 mm_sent l1 l3.
Proof.
  intros H. revert l3. induction H as [|a b l1 l2 Hab _ IH]; intros l3 H2; inversion_clear H2; [constructor|].
  constructor; [|by apply IH]. unfold mm_sent in *. destruct Hab as [-> | ->], H as [-> | ->]; auto.
Qed.

Lemma mm_sent_length l l' : Forall2 mm_sent l l' -> length l' = length l.
Proof. intros H. symmetry. by eapply Forall2_length. Qed.

(** The number of marked attributes. *)
Definition mm_ntx (l : list mmrp_attribute) : Z :=
  Z.of_nat (length (base.filter (fun a => tx (mm_applicant a) = true) l)).

Lemma mm_ntx_cons a l : mm_ntx (a :: l) = (if tx (mm_applicant a) then 1 else 0) + mm_ntx l.
Proof. unfold mm_ntx. rewrite list.filter_cons. destruct (tx (mm_applicant a)); simpl; lia. Qed.
Lemma mm_ntx_nonneg l : 0 <= mm_ntx l.
Proof. unfold mm_ntx. lia. Qed.
Lemma mm_ntx_length l : mm_ntx l <= Z.of_nat (length l).
Proof. unfold mm_ntx. pose proof (length_filter (fun a => tx (mm_applicant a) = true) l). lia. Qed.

Lemma mm_ntx_sent l l' : Forall2 mm_sent l l' -> mm_ntx l' <= mm_ntx l.
Proof.
  induction 1 as [|a a' l l' Ha _ IH]; [done|]. rewrite !mm_ntx_cons.
  destruct Ha as [-> | ->]; cbn; destruct (tx (mm_applicant a)); lia.
Qed.

(** Values that a MAC vector can hold. *)
Definition mm_vals (l : list mmrp_attribute) : Prop := Forall (fun a => value_ok (mm_value a)) l.

Lemma mm_vals_sent l l' : Forall2 mm_sent l l' -> mm_vals l -> mm_vals l'.
Proof.
  induction 1 as [|a a' l l' Ha _ IH]; intros H; [done|]. apply Forall_cons_iff in H as [H1 H2].
  constructor; [|by apply IH]. by destruct Ha as [-> | ->].
Qed.

(** ** Pushing events *)
Lemma pokes_done buf i vs :
  0 <= i -> i + Z.of_nat (length vs) <= Z.of_nat (length buf) ->
  exists buf', pokes buf i vs = Done buf' /\ length buf' = length buf.
Proof. intros H1 H2. destruct (pokes_end buf i vs H1 H2) as (buf' & E & Hl & _). eauto. Qed.

(** The vector grew by at most [k] bytes, in a buffer of the same size. *)
Definition grew (v v' : Vector) (k : Z) : Prop :=
  length (vbuf v') = length (vbuf v) /\ vectidx v <= vectidx v' <= vectidx v + k.

Lemma push_code_safe events c v :
  0 <= events + vectidx v < Z.of_nat (length (vbuf v)) -> exists v', push_code events c v = Done v' /\ grew v v' 1.
Proof.
  intros Hi. unfold push_code. destruct (_ <? _).
  - rewrite poke_done by done. obind. eexists. split; [done|]. split; cbn; [apply length_insert|lia].
  - eexists. split; [done|]. split; cbn; [done|lia].
Qed.

Lemma flush_safe events v :
  0 <= events + vectidx v < Z.of_nat (length (vbuf v)) -> exists v', flush events v = Done v' /\ grew v v' 1.
Proof.
  intros Hi. unfold flush. destruct (_ <? _).
  - rewrite poke_done by done. obind. eexists. split; [done|]. split; cbn; [apply length_insert|lia].
  - exists v. split; [done|]. split; [done|lia].
Qed.

(** ** Addresses *)

(** What the inner loops do: they mark as sent what they put in the vector. *)
Definition vector_safe (events lim : Z) (l l' : list mmrp_attribute) (v v' : Vector) (oops : bool) : Prop :=
  Forall2 mm_sent l l' /\ grew v v' (mm_ntx l - mm_ntx l') /\
  (oops = false -> events + vectidx v' <= lim).

Lemma vector_safe_stop events lim l v :
  events + vectidx v <= lim -> vector_safe events lim l l v v false.
Proof. intros H. split; [apply mm_sent_refl|]. split; [split; [done|lia]|done]. Qed.

Lemma vector_safe_push events lim a l l' v v1 v' oops :
  tx (mm_applicant a) = true -> grew v v1 1 -> vector_safe events lim l l' v1 v' oops ->
  vector_safe events lim (a :: l) (mm_clear_tx a :: l') v v' oops.
Proof.
  intros Ht [H1 H2] (H3 & [H4 H5] & H6). split; [constructor; [by right|done]|]. split; [|done].
  split; [congruence|]. rewrite !mm_ntx_cons, Ht. cbn. lia.
Qed.

Lemma vector_safe_oops events lim a l v v1 :
  tx (mm_applicant a) = true -> grew v v1 1 -> vector_safe events lim (a :: l) (mm_clear_tx a :: l) v v1 true.
Proof.
  intros Ht [H1 H2]. split; [constructor; [by right|apply mm_sent_refl]|]. split; [|done]. split; [done|].
  rewrite !mm_ntx_cons, Ht. cbn. lia.
Qed.

Lemma mac_vectorize_safe events eof first l m v :
  Z.of_nat (length (vbuf v)) = eof -> 0 <= events + vectidx v <= eof - 3 ->
  exists oops l' v', mac_vectorize events eof first l m v = Done (oops, l', v') /\
    vector_safe events (eof - 3) l l' v v' oops.
Proof.
  revert m v. induction l as [|a l IH]; intros m v Hb Hi; cbn [mac_vectorize].
  { eexists _, _, _. split; [done|]. apply vector_safe_stop. lia. }
  destruct (mm_value a) as [x|m'].
  { eexists _, _, _. split; [done|]. apply vector_safe_stop. lia. }
  destruct (tx (mm_applicant a)) eqn:Et; cbn [negb].
  2: { eexists _, _, _. split; [done|]. apply vector_safe_stop. lia. }
  destruct (memcmp m' _ =? 0); cbn [negb].
  2: { eexists _, _, _. split; [done|]. apply vector_safe_stop. lia. }
  destruct (mac_code first a) as [c|].
  2: { eexists _, _, _. split; [done|]. apply vector_safe_oops; [done|]. split; [done|lia]. }
  destruct (push_code_safe events c v) as (v1 & -> & Hg); [lia|]. obind. pose proof Hg as [Hg1 Hg2].
  destruct (Z.ltb_spec (eof - 11) (events + vectidx v1)).
  { eexists _, _, _. split; [done|]. by apply vector_safe_oops. }
  destruct (IH (mmrp_increment_macaddr m) v1) as (oops & l' & v' & -> & H'); [congruence|lia|]. obind.
  eexists _, _, _. split; [done|]. by apply (vector_safe_push _ _ _ _ _ _ v1).
Qed.

(** Where a vector of addresses ends. *)
Lemma mac_emit_vector_safe vp eof m a l lva buf :
  Z.of_nat (length buf) = eof -> 0 <= vp -> vp + 2 + 6 <= eof - 3 -> length m = 6%nat ->
  exists oops l' p buf', mac_emit_vector (vp + 2) eof m a l lva buf = Done (oops, l', p, buf') /\
    Forall2 mm_sent l l' /\ length buf' = length buf /\
    (oops = false -> vp < p <= eof - 2 /\ p + mm_ntx l' <= vp + 9 + mm_ntx l).
Proof.
  intros Hb H0 Hv Hm. unfold mac_emit_vector. destruct (pokes_done buf (vp + 2) m) as (b1 & -> & Hl1); [lia|lia|]. obind.
  destruct (mac_code a a) as [c|].
  2: { eexists _, _, _, _. split; [done|]. split_and!; [apply mm_sent_refl|done|done]. }
  destruct (mac_vectorize_safe (vp + 2) eof a l m (mkVector (c, 0, 0) 1 1 6 b1)) as (oops & l' & v' & -> & H1 & [H2 H3] & H4);
    [cbn; lia|cbn; lia|]. obind. cbn in H2, H3. destruct oops.
  { eexists _, _, _, _. split; [done|]. split_and!; [done|congruence|done]. }
  specialize (H4 eq_refl). destruct (flush_safe (vp + 2) v') as (v2 & -> & [H5 H6]); [lia|]. obind.
  unfold MRPDU_ENDMARK_SZ. destruct (Z.ltb_spec (eof - 2) (vp + 2 + vectidx v2)).
  { eexists _, _, _, _. split; [done|]. split_and!; [done|congruence|done]. }
  destruct (pokes_done (vbuf v2) (vp + 2 - 2) (mm_header lva (numvalues v2))) as (b2 & -> & Hl2);
    [lia|unfold mm_header; rewrite length_be_bytes; lia|]. obind.
  eexists _, _, _, _. split; [done|]. split_and!; [done|congruence|]. intros _. lia.
Qed.

Definition mac_loop_safe (eof : Z) (l l' : list mmrp_attribute) (msg_ptr vp m' v' : Z) (buf buf' : list Z) (oops : bool) : Prop :=
  Forall2 mm_sent l l' /\ length buf' = length buf /\
  (oops = false -> (m' = msg_ptr /\ v' = vp) \/ (m' = v' /\ vp < v' <= eof - 2 /\ v' + 9 * mm_ntx l' <= vp + 9 * mm_ntx l)).

Lemma mac_loop_skip eof a a' l l' msg_ptr vp m' v' buf buf' oops :
  mm_sent a a' -> mac_loop_safe eof l l' msg_ptr vp m' v' buf buf' oops ->
  mac_loop_safe eof (a :: l) (a' :: l') msg_ptr vp m' v' buf buf' oops.
Proof.
  intros Ha (H1 & H2 & H3). split; [by constructor|]. split; [done|]. intros Ho.
  destruct (H3 Ho) as [?|(H4 & H5 & H6)]; [by left|right]. split_and!; try done; try lia. rewrite !mm_ntx_cons.
  destruct Ha as [-> | ->]; cbn; destruct (tx (mm_applicant a)); lia.
Qed.

Lemma mac_emit_loop_safe fuel l msg_ptr vp eof lva buf :
  Z.of_nat (length buf) = eof -> (length l <= fuel)%nat -> mm_vals l -> 0 <= msg_ptr <= vp -> vp <= msg_ptr + 2 ->
  exists oops l' m' v' buf', mac_emit_loop fuel l msg_ptr vp eof lva buf = Done (oops, l', m', v', buf') /\
    mac_loop_safe eof l l' msg_ptr vp m' v' buf buf' oops.
Proof.
  revert l msg_ptr vp buf. induction fuel as [|fuel IH]; intros l msg_ptr vp buf Hb Hf Hl Hp Hv; cbn [mac_emit_loop];
    unfold MRPDU_ENDMARK_SZ; (destruct (Z.ltb_spec msg_ptr (eof - 11 - 2)) as [Hlt|]; cbn [negb];
      [|eexists _, _, _, _, _; split; [done|]; split; [apply mm_sent_refl|]; split; [done|by left]]);
    (destruct l as [|a l]; [eexists _, _, _, _, _; split; [done|]; split; [constructor|]; split; [done|by left]|]);
    cbn [length] in Hf; [lia|].
  apply Forall_cons_iff in Hl as [Ha Hl].
  assert (forall a', mm_sent a a' -> exists oops l' m' v' buf',
    ('(oops, rest', m', v', buf') ← mac_emit_loop fuel l msg_ptr vp eof lva buf; Done (oops, a' :: rest', m', v', buf')) =
      Done (oops, l', m', v', buf') /\ mac_loop_safe eof (a :: l) l' msg_ptr vp m' v' buf buf' oops) as Hskip.
  { intros a' Ha'. destruct (IH l msg_ptr vp buf) as (oops & l' & m' & v' & buf' & -> & H); [done|lia|done|lia|lia|]. obind.
    eexists _, _, _, _, _. split; [done|]. by apply mac_loop_skip. }
  destruct (mm_value a) as [x|m] eqn:Ev; [apply Hskip; by left|]. destruct Ha as [Hm _].
  destruct (tx (mm_applicant a)) eqn:Et; cbn [negb]; [|apply Hskip; by left].
  destruct (decide _); [apply Hskip; by right|]. clear Hskip.
  destruct (mac_emit_vector_safe vp eof m (mm_clear_tx a) l lva buf) as (oops & l1 & p & b1 & -> & H1 & H2 & H3);
    [done|lia|lia|done|]. obind. destruct oops.
  { eexists _, _, _, _, _. split; [done|]. split; [constructor; [by right|done]|]. split; [done|done]. }
  destruct (H3 eq_refl) as [H4 H5].
  destruct (IH l1 p p b1) as (oops & l' & m' & v' & buf' & -> & H6 & H7 & H8);
    [congruence|rewrite (mm_sent_length _ _ H1); lia|by eapply mm_vals_sent|lia|lia|]. obind.
  eexists _, _, _, _, _. split; [done|]. split; [constructor; [by right|by eapply mm_sent_trans]|]. split; [congruence|].
  pose proof (mm_ntx_sent _ _ H6). pose proof (mm_ntx_sent _ _ H1).
  intros Ho. right. rewrite !mm_ntx_cons, Et. cbn. destruct (H8 Ho) as [[-> ->]|(-> & H9 & H10)]; split_and!; lia.
Qed.

Lemma mmrp_emit_macvectors_safe buf msgbuf eof lva l :
  Z.of_nat (length buf) = eof -> 0 <= msgbuf -> mm_vals l ->
  exists rc bytes l' buf', mmrp_emit_macvectors buf msgbuf eof lva l = Done (rc, bytes, l', buf') /\
    Forall2 mm_sent l l' /\ length buf' = length buf /\
    (bytes = 0 \/ 4 < bytes <= eof - msgbuf /\ bytes <= 4 + 9 * mm_ntx l).
Proof.
  intros Hb H0 Hl. unfold mmrp_emit_macvectors. destruct (Z.ltb_spec (eof - 11) msgbuf).
  { eexists _, _, _, _. split; [done|]. split_and!; [apply mm_sent_refl|done|by left]. }
  destruct (pokes_done buf msgbuf [MMRP_MACVEC_TYPE; 6]) as (b1 & -> & Hl1); [lia|simpl; lia|]. obind.
  destruct (mac_emit_loop_safe (length l) l msgbuf (msgbuf + 2) eof lva b1) as (oops & l' & m' & v' & b2 & -> & H1 & H2 & H3);
    [lia|lia|done|lia|lia|]. obind. destruct oops.
  { eexists _, _, _, _. split; [done|]. split_and!; [done|congruence|by left]. }
  destruct (H3 eq_refl) as [[-> ->]|(-> & H4 & H5)].
  { rewrite Z.eqb_refl. eexists _, _, _, _. split; [done|]. split_and!; [done|congruence|by left]. }
  destruct (Z.eqb_spec v' (msgbuf + 2)); [lia|].
  destruct (pokes_done b2 v' [0; 0]) as (b3 & -> & Hl3); [lia|simpl; lia|]. obind.
  pose proof (mm_ntx_nonneg l'). eexists _, _, _, _. split; [done|]. split_and!; [done|congruence|right]. lia.
Qed.

(** ** Service requirements *)
Lemma svc_vectorize_safe events eof l x v :
  Z.of_nat (length (vbuf v)) = eof -> 0 <= events + vectidx v <= eof - 2 ->
  exists oops l' v', svc_vectorize events eof l x v = Done (oops, l', v') /\
    vector_safe events (eof - 2) l l' v v' oops.
Proof.
  revert x v. induction l as [|a l IH]; intros x v Hb Hi; cbn [svc_vectorize].
  { eexists _, _, _. split; [done|]. apply vector_safe_stop. lia. }
  destruct (mm_value a) as [y|m].
  2: { eexists _, _, _. split; [done|]. apply vector_safe_stop. lia. }
  destruct (tx (mm_applicant a)) eqn:Et; cbn [negb].
  2: { eexists _, _, _. split; [done|]. apply vector_safe_stop. lia. }
  destruct (y =? _); cbn [negb].
  2: { eexists _, _, _. split; [done|]. apply vector_safe_stop. lia. }
  destruct (svc_code a) as [c|].
  2: { eexists _, _, _. split; [done|]. apply vector_safe_oops; [done|]. split; [done|lia]. }
  destruct (push_code_safe events c v) as (v1 & -> & Hg); [lia|]. obind. pose proof Hg as [Hg1 Hg2].
  unfold MRPDU_ENDMARK_SZ. destruct (Z.ltb_spec (eof - 2) (events + vectidx v1)).
  { eexists _, _, _. split; [done|]. by apply vector_safe_oops. }
  destruct (IH (u8 (x + 1)) v1) as (oops & l' & v' & -> & H'); [congruence|lia|]. obind.
  eexists _, _, _. split; [done|]. by apply (vector_safe_push _ _ _ _ _ _ v1).
Qed.

Lemma svc_emit_vector_safe vp eof x a l lva evt buf :
  Z.of_nat (length buf) = eof -> 0 <= vp -> vp + 2 + 2 <= eof - 2 ->
  exists oops l' p evt' buf', svc_emit_vector (vp + 2) eof x a l lva evt buf = Done (oops, l', p, evt', buf') /\
    Forall2 mm_sent l l' /\ length buf' = length buf /\ (oops = false -> vp < p <= eof - 2).
Proof.
  intros Hb H0 Hv. unfold svc_emit_vector. rewrite poke_done by lia. obind.
  destruct (svc_code a) as [c|].
  2: { eexists _, _, _, _, _. split; [done|]. split_and!; [apply mm_sent_refl|apply length_insert|done]. }
  set (b1 := <[_ := _]> buf). assert (length b1 = length buf) as Hl1 by apply length_insert.
  destruct (svc_vectorize_safe (vp + 2) eof l x (mkVector (set_vectevt 0 c evt) 1 1 2 b1))
    as (oops & l' & v' & -> & H1 & [H2 H3] & H4); [cbn; lia|cbn; lia|]. obind. cbn in H2, H3. destruct oops.
  { eexists _, _, _, _, _. split; [done|]. split_and!; [done|congruence|done]. }
  specialize (H4 eq_refl). destruct (flush_safe (vp + 2) v') as (v2 & -> & [H5 H6]); [lia|]. obind.
  unfold MRPDU_ENDMARK_SZ. destruct (Z.ltb_spec (eof - 2) (vp + 2 + vectidx v2)).
  { eexists _, _, _, _, _. split; [done|]. split_and!; [done|congruence|done]. }
  destruct (pokes_done (vbuf v2) (vp + 2 - 2) (mm_header lva (numvalues v2))) as (b2 & -> & Hl2);
    [lia|unfold mm_header; rewrite length_be_bytes; lia|]. obind.
  eexists _, _, _, _, _. split; [done|]. split_and!; [done|congruence|]. intros _. lia.
Qed.

(** Unless an attribute was found, nothing was written. *)
Definition svc_loop_safe (eof : Z) (l l' : list mmrp_attribute) (msg_ptr vp m' v' : Z) (found found' : bool)
    (buf buf' : list Z) (oops : bool) : Prop :=
  Forall2 mm_sent l l' /\ length buf' = length buf /\
  (oops = false -> (found' = found /\ m' = msg_ptr /\ v' = vp /\ buf' = buf) \/
                   (found' = true /\ m' = v' /\ vp < v' <= eof - 2)).

Lemma svc_emit_loop_safe fuel l msg_ptr vp eof lva found evt buf :
  Z.of_nat (length buf) = eof -> (length l <= fuel)%nat -> 0 <= msg_ptr <= vp -> vp <= msg_ptr + 2 ->
  exists oops l' found' m' v' buf', svc_emit_loop fuel l msg_ptr vp eof lva found evt buf = Done (oops, l', found', m', v', buf') /\
    svc_loop_safe eof l l' msg_ptr vp m' v' found found' buf buf' oops.
Proof.
  revert l msg_ptr vp lva found evt buf.
  induction fuel as [|fuel IH]; intros l msg_ptr vp lva found evt buf Hb Hf Hp Hv; cbn [svc_emit_loop];
    unfold MRPDU_ENDMARK_SZ; (destruct (Z.ltb_spec msg_ptr (eof - 6 - 2)) as [Hlt|]; cbn [negb];
      [|eexists _, _, _, _, _, _; split; [done|]; split; [apply mm_sent_refl|]; split; [done|by left]]);
    (destruct l as [|a l]; [eexists _, _, _, _, _, _; split; [done|]; split; [constructor|]; split; [done|by left]|]);
    cbn [length] in Hf; [lia|].
  assert (forall a', mm_sent a a' -> exists oops l' found' m' v' buf',
    ('(oops, rest', found', m', v', buf') ← svc_emit_loop fuel l msg_ptr vp eof lva found evt buf;
      Done (oops, a' :: rest', found', m', v', buf')) = Done (oops, l', found', m', v', buf') /\
      svc_loop_safe eof (a :: l) l' msg_ptr vp m' v' found found' buf buf' oops) as Hskip.
  { intros a' Ha'. destruct (IH l msg_ptr vp lva found evt buf) as (oops & l' & f' & m' & v' & buf' & -> & H1 & H2 & H3);
      [done|lia|lia|lia|]. obind. eexists _, _, _, _, _, _. split; [done|]. split; [by constructor|]. by split. }
  destruct (mm_value a) as [x|m]; [|apply Hskip; by left].
  destruct (tx (mm_applicant a)) eqn:Et; cbn [negb]; [|apply Hskip; by left].
  destruct (decide _); [apply Hskip; by right|]. clear Hskip.
  destruct (svc_emit_vector_safe vp eof x (mm_clear_tx a) l lva evt buf) as (oops & l1 & p & e1 & b1 & -> & H1 & H2 & H3);
    [done|lia|lia|]. obind. destruct oops.
  { eexists _, _, _, _, _, _. split; [done|]. split; [constructor; [by right|done]|]. by split. }
  specialize (H3 eq_refl).
  destruct (IH l1 p p false true e1 b1) as (oops & l' & f' & m' & v' & buf' & -> & H6 & H7 & H8);
    [congruence|rewrite (mm_sent_length _ _ H1); lia|lia|lia|]. obind.
  eexists _, _, _, _, _, _. split; [done|]. split; [constructor; [by right|by eapply mm_sent_trans]|]. split; [congruence|].
  intros Ho. right. destruct (H8 Ho) as [(-> & -> & -> & _)|(-> & -> & H9)]; split_and!; (done || lia).
Qed.

(** The empty LeaveAll needs seven bytes, one more than is checked for. *)
Lemma mmrp_emit_svcvectors_safe buf msgbuf eof lva flag evt l :
  Z.of_nat (length buf) = eof -> 0 <= msgbuf -> (flag = true -> msgbuf <= eof - 7) ->
  exists rc bytes l' buf', mmrp_emit_svcvectors buf msgbuf eof lva flag evt l = Done (rc, bytes, l', buf') /\
    Forall2 mm_sent l l' /\ length buf' = length buf /\ (bytes = 0 \/ 4 < bytes <= eof - msgbuf).
Proof.
  intros Hb H0 Hfl. unfold mmrp_emit_svcvectors. destruct (Z.ltb_spec (eof - 6) msgbuf).
  { eexists _, _, _, _. split; [done|]. split_and!; [apply mm_sent_refl|done|by left]. }
  destruct (pokes_end buf msgbuf [MMRP_SVCREQ_TYPE; 1]) as (b1 & -> & Hl1 & Ht & _); [lia|simpl; lia|]. obind.
  destruct (svc_emit_loop_safe (length l) l msgbuf (msgbuf + 2) eof lva false evt b1)
    as (oops & l' & f' & m' & v' & b2 & -> & H1 & H2 & H3); [lia|lia|lia|lia|]. obind. destruct oops.
  { eexists _, _, _, _. split; [done|]. split_and!; [done|congruence|by left]. }
  destruct (H3 eq_refl) as [(-> & -> & -> & ->)|(-> & -> & H4)]; cycle 1.
  { cbn [negb andb]. obind. destruct (Z.eqb_spec v' (msgbuf + 2)); [lia|].
    destruct (pokes_done b2 v' [0; 0]) as (b3 & -> & Hl3); [lia|simpl; lia|]. obind.
    eexists _, _, _, _. split; [done|]. split_and!; [done|congruence|right; lia]. }
  destruct flag; cbn [negb andb]; cycle 1.
  { obind. rewrite Z.eqb_refl. eexists _, _, _, _. split; [done|]. split_and!; [done|done|by left]. }
  specialize (Hfl eq_refl).
  destruct (pokes_end b1 (msgbuf + 2) (mm_header true 0)) as (b3 & -> & Hl3 & _ & Hk); [lia|unfold mm_header; rewrite length_be_bytes; lia|]. obind.
  assert (peek b3 (msgbuf + 1) = Done 1) as ->.
  { specialize (Hk (Z.to_nat (msgbuf + 2)) ltac:(lia)).
    change (length [MMRP_SVCREQ_TYPE; 1]) with 2%nat in Ht.
    replace (Z.to_nat (msgbuf + 2)) with (Z.to_nat msgbuf + 2)%nat in Hk by lia. rewrite Ht in Hk. unfold peek. destruct (Z.leb_spec 0 (msgbuf + 1)); [|lia].
    assert (b3 !! Z.to_nat (msgbuf + 1) = Some 1) as ->; [|done].
    rewrite <- (lookup_take_lt b3 (Z.to_nat msgbuf + 2)) by lia.
    rewrite Hk, lookup_app_r by (rewrite length_take; lia). rewrite length_take.
    replace (Z.to_nat (msgbuf + 1) - Z.to_nat msgbuf `min` length buf)%nat with 1%nat by lia. done. }
  obind. destruct (Z.eqb_spec (msgbuf + 2 + 2 + 1) (msgbuf + 2)); [lia|].
  destruct (pokes_done b3 (msgbuf + 2 + 2 + 1) [0; 0]) as (b4 & -> & Hl4); [lia|simpl; lia|]. obind.
  eexists _, _, _, _. split; [done|]. split_and!; [done|congruence|right; lia].
Qed.
