(* ===== verification/MmrpEvent.v ===== *)
(** * MmrpEvent: MMRP as a table of registrations

    The abstract view of the MMRP database is a finite map from group addresses and
    service requirements to the states of the applicant and the registrar, changed by the
    state tables of the standard.  Every event of [mmrp_event] implements one step of it
    and keeps the list grouped, sorted and without duplicates. *)
From stdpp Require Import base gmap list strings numbers sorting.
From S2P Require Import Prelude Text Parse Mrp MrpProps Mvrp MvrpWire Mmrp.
From S2P Require Import MrpWorld MvrpInv MvrpEvent MvrpTable MmrpInv MmrpWire.
#[local] Open Scope Z_scope.
#[local] Open Scope st_scope.

(** ** The abstract table *)
#[global] Instance mmrp_value_countable : Countable mmrp_value.
Proof.
  apply (inj_countable' (fun v => match v with SVCREQ x => inl x | MACVEC m => inr m end)
    (fun s => match s with inl x => SVCREQ x | inr m => MACVEC m end)).
  by intros [].
Defined.

Notation mm_map_t := (gmap mmrp_value vlan).

(** Every entry changes, in a way that may depend on what it is for. *)
Definition each (F : mmrp_value -> vlan -> vlan) (m : mm_map_t) : mm_map_t := map_imap (fun k x => Some (F k x)) m.

Definition mm_request (p2p : Z) (e : mrp_event) (x : vlan) : vlan := (app_to p2p e x, reg_to (local_request e) (snd x)).

(** Both state machines see the event [e]. *)
Definition both_to (p2p : Z) (e : mrp_event) (x : vlan) : vlan := (app_to p2p e x, reg_to e (snd x)).

(** The table after the event [e]; [v] is what the event is about.  A received LeaveAll
    concerns one type, and nothing is forgotten. *)
Definition mm_table_step (p2p : Z) (e : mrp_event) (v : option mmrp_value) (m : mm_map_t) : mm_map_t :=
  match e with
  | MRP_EVENT_LVATIMER => each (fun _ => both_to p2p MRP_EVENT_TXLA) m
  | MRP_EVENT_RLA =>
      match v with
      | Some u => each (fun k x => if mm_type k =? mm_type u then both_to p2p e x else x) m
      | None => m
      end
  | MRP_EVENT_TX | MRP_EVENT_PERIODIC => each (fun _ x => (app_to p2p e x, snd x)) m
  | MRP_EVENT_LVTIMER => each (fun _ x => (fst x, reg_to e (snd x))) m
  | MRP_EVENT_RMT => match v with Some u => alter (mm_request p2p e) u m | None => m end
  | MRP_EVENT_NEW | MRP_EVENT_JOIN | MRP_EVENT_RNEW | MRP_EVENT_RJOININ | MRP_EVENT_RJOINMT
  | MRP_EVENT_LV | MRP_EVENT_RIN | MRP_EVENT_RLV =>
      match v with Some u => <[u := mm_request p2p e (default nobody (m !! u))]> m | None => m end
  | _ => m
  end.

(** ** The table of a list *)
Definition mm_states (a : mmrp_attribute) : vlan := (app_state (mm_applicant a), reg_state (mm_registrar a)).

Definition mm_table (l : list mmrp_attribute) : mm_map_t := list_to_map ((fun a => (mm_value a, mm_states a)) <$> l).

(** The list is well-formed and stands for the table [m]. *)
Definition repr (l : list mmrp_attribute) (m : mm_map_t) : Prop := mm_list_ok l /\ mm_table l = m.

Lemma mm_table_keys l : ((fun a => (mm_value a, mm_states a)) <$> l).*1 = values l.
Proof. unfold values. by rewrite <- list_fmap_compose. Qed.

Lemma mm_table_middle b a c :
  NoDup (values (b ++ a :: c)) ->
  mm_table (b ++ a :: c) = <[mm_value a := mm_states a]> (mm_table (b ++ c)) /\ mm_table (b ++ c) !! mm_value a = None.
Proof.
  intros Hn. assert (b ++ a :: c ≡ₚ a :: b ++ c) as Hp by (symmetry; apply Permutation_middle). split.
  - change (<[_ := _]> (mm_table (b ++ c))) with (mm_table (a :: b ++ c)). unfold mm_table.
    apply list_to_map_proper; [by rewrite mm_table_keys|by apply fmap_Permutation].
  - apply not_elem_of_list_to_map_1. rewrite mm_table_keys. unfold values in *. rewrite Hp, fmap_cons in Hn.
    by apply list.NoDup_cons in Hn as [? _].
Qed.

(** Changes of an attribute that keep its value and its well-formedness. *)
Record mm_keeps (g : mmrp_attribute -> mmrp_attribute) : Prop := mkMmKeeps {
  mk_value a : mm_value (g a) = mm_value a;
  mk_mac a : length (macaddr (mm_registrar a)) = 6%nat -> length (macaddr (mm_registrar (g a))) = 6%nat }.

Lemma mm_keeps_attr g a : mm_keeps g -> mm_attr_ok a -> mm_attr_ok (g a).
Proof. intros [H1 H2] [H3 H4]. split; [by rewrite H1|auto]. Qed.

Lemma mm_values_map g l : mm_keeps g -> values (g <$> l) = values l.
Proof. intros [H _]. unfold values. rewrite <- list_fmap_compose. apply list_fmap_ext. intros. apply H. Qed.

Lemma repr_map g F l m :
  mm_keeps g -> (forall a, mm_states (g a) = F (mm_value a) (mm_states a)) -> repr l m -> repr (g <$> l) (each F m).
Proof.
  intros Hg HF [[H1 H2] <-]. split; [split|].
  - by rewrite mm_values_map.
  - apply Forall_fmap. eapply Forall_impl; [exact H2|]. intros a Ha. by apply mm_keeps_attr.
  - clear H1 H2. induction l as [|a l IH]; [unfold each; symmetry; apply map_imap_empty|].
    rewrite fmap_cons. change (mm_table (g a :: (g <$> l))) with (<[mm_value (g a) := mm_states (g a)]> (mm_table (g <$> l))).
    change (mm_table (a :: l)) with (<[mm_value a := mm_states a]> (mm_table l)). unfold each.
    rewrite (map_imap_insert_Some _ _ _ _ (F (mm_value a) (mm_states a))) by done.
    rewrite IH, HF, (mk_value _ Hg). done.
Qed.

Lemma each_id m : each (fun _ x => x) m = m.
Proof. unfold each. apply map_eq. intros k. rewrite map_lookup_imap. by destruct (m !! k). Qed.

Lemma repr_id g l m :
  mm_keeps g -> (forall a, mm_states (g a) = mm_states a) -> repr l m -> repr (g <$> l) m.
Proof. intros H1 H2 H3. rewrite <- (each_id m). by apply repr_map. Qed.

Lemma repr_sent l l' m : Forall2 mm_sent l l' -> repr l m -> repr l' m.
Proof.
  intros H [[H1 H2] H3]. assert (values l' = values l /\ mm_table l' = mm_table l) as [E1 E2].
  { clear -H. induction H as [|a a' l l' Ha _ [IH1 IH2]]; [done|]. unfold values, mm_table in *. rewrite !fmap_cons, IH1. cbn.
    rewrite IH2. by destruct Ha as [-> | ->]. }
  split; [split|by rewrite E2]; [by rewrite E1|]. clear -H H2. induction H as [|a a' l l' Ha _ IH]; [done|].
  apply Forall_cons_iff in H2 as [H2 H3]. constructor; [|auto]. destruct H2. by destruct Ha as [-> | ->].
Qed.

(** One attribute of the list changes. *)
Lemma repr_update g b a c m :
  mm_keeps g -> repr (b ++ a :: c) m -> repr (b ++ g a :: c) (<[mm_value a := mm_states (g a)]> m).
Proof.
  intros Hg [Hl <-]. assert (values (b ++ g a :: c) = values (b ++ a :: c)) as E
    by (unfold values; rewrite !fmap_app, !fmap_cons; by rewrite (mk_value _ Hg)).
  assert (mm_list_ok (b ++ g a :: c)) as Hl'.
  { destruct Hl as [H1 H2]. split; [by rewrite E|]. apply Forall_app in H2 as [H2 H3]. apply Forall_cons_iff in H3 as [H3 H4].
    apply Forall_app. split; [done|]. constructor; [by apply mm_keeps_attr|done]. }
  split; [done|]. destruct (mm_table_middle b a c (mm_nodup _ Hl)) as [-> _].
  destruct (mm_table_middle b (g a) c (mm_nodup _ Hl')) as [-> _]. rewrite (mk_value _ Hg). by rewrite insert_insert_eq.
Qed.

(** ** What the state machines make of one attribute *)
Definition mm_app_next (p2p : Z) (e : mrp_event) (a : mmrp_attribute) : mmrp_attribute :=
  mm_set_applicant (snd (mrp_applicant_fsm p2p (mm_applicant a) e (mrp_registrar_in (mm_registrar a)))) a.

Definition mm_reg_upd (e : mrp_event) (a : mmrp_attribute) : mmrp_attribute :=
  mm_set_registrar (reg_next (mm_registrar a) e) a.

Definition mm_reg_request (e : mrp_event) (a : mmrp_attribute) : mmrp_attribute :=
  match e with
  | MRP_EVENT_NEW => mm_set_registrar (set_notify MRP_NOTIFY_NEW (reg_next (mm_registrar a) MRP_EVENT_BEGIN)) a
  | _ => mm_reg_upd (local_request e) a
  end.

Definition mm_hush (a : mmrp_attribute) : mmrp_attribute :=
  mm_set_registrar (set_notify MRP_NOTIFY_NONE (mm_registrar a)) a.

Lemma mm_keeps_app p2p e : mm_keeps (mm_app_next p2p e).
Proof. by split. Qed.
Lemma mm_keeps_reg e : mm_keeps (mm_reg_upd e).
Proof. split; [done|]. intros a. cbn. by rewrite macaddr_next. Qed.
Lemma mm_keeps_request e : mm_keeps (mm_reg_request e).
Proof. destruct e; try apply mm_keeps_reg. by split. Qed.
Lemma mm_keeps_hush : mm_keeps mm_hush.
Proof. by split. Qed.
Lemma mm_keeps_compose g h : mm_keeps g -> mm_keeps h -> mm_keeps (fun a => g (h a)).
Proof. intros [] []. split; intros; [congruence|auto]. Qed.

Create HintDb mmrp_db.
#[export] Hint Resolve mm_keeps_app mm_keeps_reg mm_keeps_request mm_keeps_hush mm_keeps_compose : mmrp_db.

Lemma mm_states_app p2p e a : mm_states (mm_app_next p2p e a) = (app_to p2p e (mm_states a), snd (mm_states a)).
Proof.
  rewrite app_to_step. unfold mm_app_next, mm_states, mrp_applicant_fsm, mrp_registrar_in. cbn.
  by destruct (applicant_step _ _ _ _) as [[[[??]?]?]|].
Qed.

Lemma mm_states_reg e a : mm_states (mm_reg_upd e a) = (fst (mm_states a), reg_to e (snd (mm_states a))).
Proof. rewrite reg_to_step. unfold mm_reg_upd, mm_states, reg_next. cbn. by destruct (registrar_step _ _) as [[[??]?]|]. Qed.

Lemma mm_states_both p2p e a : mm_states (mm_reg_upd e (mm_app_next p2p e a)) = both_to p2p e (mm_states a).
Proof. by rewrite mm_states_reg, mm_states_app. Qed.

Lemma mm_states_request p2p e a :
  mm_states (mm_reg_request e (mm_app_next p2p e a)) = mm_request p2p e (mm_states a).
Proof.
  unfold mm_request. assert (mm_states (mm_reg_upd (local_request e) (mm_app_next p2p e a)) =
    (app_to p2p e (mm_states a), reg_to (local_request e) (snd (mm_states a)))) as H by (by rewrite mm_states_reg, mm_states_app).
  destruct e; exact H.
Qed.

(** ** Lookup *)
Lemma mmrp_lookup_split l r :
  mm_list_ok l -> value_ok (mm_value r) ->
  match mmrp_lookup l r with
  | Some a => exists b c, l = b ++ a :: c /\ mm_value a = mm_value r /\
      split_value (mm_value r) l = Some (b, a, c) /\ (forall g, update_value (mm_value r) g l = b ++ g a :: c)
  | None => mm_value r ∉ values l
  end.
Proof.
  intros Hl%mm_values_ok Hr. induction l as [|a l IH]; cbn [mmrp_lookup split_value update_value]; [apply not_elem_of_nil|].
  unfold values in *. rewrite fmap_cons in *. apply Forall_cons_iff in Hl as [Ha Hl].
  destruct (mm_same (mm_value a) (mm_value r)) eqn:E.
  - apply mm_same_spec in E; [|done..]. by exists [], l.
  - assert (mm_value a <> mm_value r) as Hne by (intros H; apply mm_same_spec in H; [congruence|done..]). specialize (IH Hl).
    destruct (mmrp_lookup l r) as [b|].
    + destruct IH as (before & after & -> & H1 & H2 & H3). exists (a :: before), after. rewrite H2.
      split_and!; try done. intros g. by rewrite H3.
    + rewrite not_elem_of_cons. auto.
Qed.

Lemma split_value_middle v b a c :
  value_ok v -> Forall value_ok (values (b ++ a :: c)) -> NoDup (values (b ++ a :: c)) -> mm_value a = v ->
  split_value v (b ++ a :: c) = Some (b, a, c).
Proof.
  intros Hv. induction b as [|x b IH]; intros Hok Hn Ha; unfold values in *; cbn [Datatypes.app split_value].
  - assert (mm_same (mm_value a) v = true) as -> by (apply mm_same_spec; congruence). done.
  - cbn [Datatypes.app] in Hok, Hn. rewrite fmap_cons in Hok, Hn. apply Forall_cons_iff in Hok as [Hx Hok]. apply list.NoDup_cons in Hn as [Hn Hn'].
    destruct (mm_same (mm_value x) v) eqn:E.
    + exfalso. apply mm_same_spec in E; [|done..]. apply Hn. rewrite E, <- Ha, fmap_app, fmap_cons. set_solver.
    + by rewrite IH.
Qed.

(** The list and the attribute an event for [r] works on. *)
Lemma mm_target_found l r a m :
  repr l m -> mm_attr_ok r -> mmrp_lookup l r = Some a ->
  exists b a0 c, snd (mmrp_merge l r) = b ++ a0 :: c /\ split_value (mm_value r) (b ++ a0 :: c) = Some (b, a0, c) /\
    mm_value a0 = mm_value r /\ repr (b ++ a0 :: c) m /\ m !! mm_value r = Some (mm_states a0).
Proof.
  intros Hrep Hr Hlk. pose proof (mmrp_lookup_split l r (proj1 Hrep) (mo_value _ Hr)) as H. rewrite Hlk in H.
  destruct H as (b & c & -> & H1 & H2 & H3). unfold mmrp_merge. rewrite Hlk. cbn [snd]. rewrite H3.
  set (g := fun a => mm_set_registrar (set_macaddr (macaddr (mm_registrar r)) (mm_registrar a)) a).
  assert (mm_keeps g) as Hg by (split; [done|]; intros; apply Hr).
  pose proof (repr_update g b a c m Hg Hrep) as Hrep'. destruct (Hrep) as [Hl <-].
  destruct (mm_table_middle b a c (mm_nodup _ Hl)) as [Et Hnone]. rewrite Et in Hrep' |- *. rewrite insert_insert_eq in Hrep'.
  change (mm_states (g a)) with (mm_states a) in Hrep'. exists b, (g a), c. split; [done|]. split; [|split; [done|split]].
  - destruct Hrep' as [Hl' _]. apply split_value_middle; [apply Hr|by apply mm_values_ok|by apply mm_nodup|done].
  - done.
  - rewrite <- H1. apply lookup_insert_eq.
Qed.

Lemma mm_target_added l r m :
  repr l m -> mm_attr_ok r -> mmrp_lookup l r = None ->
  exists b c, mmrp_add l r = b ++ r :: c /\ split_value (mm_value r) (b ++ r :: c) = Some (b, r, c) /\
    repr (b ++ r :: c) (<[mm_value r := mm_states r]> m) /\ m !! mm_value r = None.
Proof.
  intros [Hl <-] Hr Hlk. pose proof (mmrp_lookup_split l r Hl (mo_value _ Hr)) as H. rewrite Hlk in H.
  destruct (mmrp_add_spec l r Hl Hr H) as (b & c & -> & -> & Hl').
  destruct (mm_table_middle b r c (mm_nodup _ Hl')) as [Et Hnone]. exists b, c. split; [done|]. split; [|by split; [split|]].
  apply split_value_middle; [apply Hr|by apply mm_values_ok|by apply mm_nodup|done].
Qed.

(** ** Operations *)

Section ops.
Context `{env : MrpEnv} `{stk : MmrpStack}.
Implicit Types s : MM.
Hypothesis Hrand : forall n, 0 <= mrp_random n.

Lemma mmrp_send_notifications_calm a n s : wp (mmrp_send_notifications a n) (fun _ s' => calm s s') s.
Proof.
  unfold mmrp_send_notifications. apply wp_bind, draw_calm. intros s1 H1.
  destruct (mrp_malloc (clk (io s))); cbn [negb]; [|by apply wp_ret].
  apply wp_bind, draw_calm. intros s2 H2. apply wp_bind, draw_calm. intros s3 H3.
  pose proof (calm_trans _ _ _ H1 (calm_trans _ _ _ H2 H3)) as H.
  destruct (_ && _); cbn [negb]; [|by apply wp_ret]. destruct (mm_notify_verb n); [|by apply wp_ret].
  apply wp_bind, wp_get, wp_bind. eapply wp_mono; [apply send_to_clients_calm|]. intros [] s4 H4.
  apply wp_ret. by eapply calm_trans.
Qed.

(** ** Loops over the attributes *)
Definition mm_acts (f : mmrp_attribute -> stM MM mmrp_attribute) (p2p : Z) (g : mmrp_attribute -> mmrp_attribute) : Prop :=
  forall a s, p2pmac (io s) = p2p -> wp (f a) (fun a' s' => a' = g a /\ calm s s') s.

Lemma mm_map_spec f p2p g l s :
  mm_acts f p2p g -> p2pmac (io s) = p2p -> wp (mm_map f l) (fun l' s' => l' = g <$> l /\ calm s s') s.
Proof.
  intros Hf. revert s. induction l as [|a l IH]; intros s Hp; simpl; [apply wp_ret; auto with mmrp_db world_db|].
  apply wp_bind. eapply wp_mono; [by apply Hf|]. intros a' s1 (-> & H1).
  apply wp_bind. eapply wp_mono; [apply IH; destruct H1 as [[] _]; congruence|]. intros l' s2 (-> & H2).
  apply wp_ret. split; [done|]. by eapply calm_trans.
Qed.

Lemma mm_for_each_spec f p2p g s :
  mm_acts f p2p g -> p2pmac (io s) = p2p ->
  wp (mm_for_each f) (fun _ s' => world s s' /\ app s' = mkMmrpDb (g <$> mm_list (app s)) (mm_flag (app s))) s.
Proof.
  intros Hf Hp. unfold mm_for_each, mm_get_list. apply wp_bind, wp_bind, wp_get, wp_ret, wp_bind.
  eapply wp_mono; [by eapply mm_map_spec|]. intros l' s1 (-> & [H1 H2]). apply wp_modify. cbn. rewrite H2. split; [|done].
  by destruct H1.
Qed.

Lemma mm_acts_applicant p2p e : mm_acts (mm_applicant_fsm e) p2p (mm_app_next p2p e).
Proof. intros a s <-. unfold mm_applicant_fsm. apply wp_bind, wp_get, wp_ret. auto with mmrp_db world_db. Qed.

Lemma mm_acts_registrar p2p e : mm_acts (mm_registrar_fsm e) p2p (mm_reg_upd e).
Proof.
  intros a s _. unfold mm_registrar_fsm. apply wp_bind. eapply wp_mono; [apply mrp_registrar_fsm_spec|].
  intros [rc r] s' (-> & H1 & _). apply wp_ret. split; [done|by apply calm_timer].
Qed.

Lemma mm_acts_compose f1 f2 p2p g1 g2 :
  mm_acts f1 p2p g1 -> mm_acts f2 p2p g2 -> mm_acts (fun a => let! a' := f1 a in f2 a') p2p (fun a => g2 (g1 a)).
Proof.
  intros H1 H2 a s Hp. apply wp_bind. eapply wp_mono; [by apply H1|]. intros a1 s1 (-> & H3).
  eapply wp_mono; [apply H2; destruct H3 as [[] _]; congruence|]. intros a2 s2 (-> & H4). split; [done|]. by eapply calm_trans.
Qed.

Lemma mm_acts_request p2p e : mm_acts (mm_registrar_part e) p2p (mm_reg_request e).
Proof.
  destruct e; try exact (mm_acts_registrar p2p _).
  - intros a s Hp. cbn [mm_registrar_part]. apply wp_bind. eapply wp_mono; [by apply (mm_acts_registrar p2p)|].
    intros a' s' (-> & H1). by apply wp_ret.
  - intros a s Hp. cbn [mm_registrar_part]. destruct (decide _); [by apply (mm_acts_registrar p2p)|].
    eapply wp_mono; [by apply (mm_acts_registrar p2p)|]. by intros a' s' (-> & H1).
Qed.

Lemma mm_acts_notify p2p : mm_acts mm_notify_one p2p mm_hush.
Proof.
  intros a s _. unfold mm_notify_one. destruct (decide (notify (mm_registrar a) = MRP_NOTIFY_NONE)) as [E|E].
  - apply wp_ret. split; [|apply calm_refl]. destruct a as [v x [st n m]]. cbn in E. by subst n.
  - apply wp_bind. eapply wp_mono; [apply mmrp_send_notifications_calm|]. intros ? s' H. by apply wp_ret.
Qed.

(** ** Transmission *)

(** The frame that is sent carries LeaveAlls without values only when there is room. *)
Definition mm_room s : Prop := mm_flag (app s) = true -> (length (mm_list (app s)) <= 219)%nat.

Lemma mmrp_txpdu_spec s :
  length (STATION_ADDR (io s)) = 6%nat -> mm_vals (mm_list (app s)) -> mm_room s ->
  wp mmrp_txpdu (fun _ s' => world s s' /\ Forall2 mm_sent (mm_list (app s)) (mm_list (app s')) /\
    mm_flag (app s') = mm_flag (app s)) s.
Proof.
  intros Hst Hl Hroom. unfold mmrp_txpdu. apply wp_bind, draw_calm. intros s1 [Hw Ha].
  destruct (mrp_malloc _); cbn [negb]; [|apply wp_ret; rewrite Ha; split_and!; [done|apply mm_sent_refl|done]].
  apply wp_bind, wp_get, wp_bind. destruct (Hw) as [Hw1 Hw2 Hw3 Hw4].
  destruct (pokes_done (replicate (Z.to_nat MAX_FRAME_SIZE) 0) 0
    (MMRP_ADDR ++ STATION_ADDR (io s1) ++ be_bytes 2 MMRP_ETYPE ++ [MMRP_PROT_VER])) as (b0 & E0 & Hl0); [lia| |].
  { rewrite !length_app, length_be_bytes, length_replicate, Hw4, Hst. unfold MAX_FRAME_SIZE. simpl. lia. }
  eapply wp_lift; [exact E0|]. apply wp_bind. set (lv := lva_tx (lva (mdb s1))).
  assert (wp (when lv do upd_mdb (fun d => set_lva (mkLva (lva_state (lva d)) false (lva_sndmsg (lva d))) d))
    (fun _ s' => calm s1 s' /\ clk (io s') = clk (io s1)) s1) as Hlv by (destruct lv; [by apply wp_modify|by apply wp_ret]).
  eapply wp_mono; [exact Hlv|]. intros _ s2 ([Hw5 Ha2] & _). rewrite length_replicate in Hl0.
  assert (Z.of_nat (length b0) = MAX_FRAME_SIZE) as Hb0 by (rewrite Hl0; done). rewrite Ha. clear Hlv E0.
  destruct (mmrp_emit_macvectors_safe b0 15 MAX_FRAME_SIZE lv (mm_list (app s)) Hb0 ltac:(lia) Hl)
    as (rc & bytes & l1 & b1 & E1 & H1 & H2 & H3). apply wp_bind. eapply wp_lift; [exact E1|]. clear E1.
  pose proof (world_trans _ _ _ Hw Hw5) as Hw6. rewrite <- Ha2 in Ha. clear Ha2 Hw5 Hw Hw1 Hw2 Hw3 Hw4.
  apply wp_bind, wp_modify. set (s3 := mkMrp _ _ _).
  assert (world s s3) as Hw7 by (by destruct Hw6).
  assert (world s s3 /\ Forall2 mm_sent (mm_list (app s)) (mm_list (app s3)) /\ mm_flag (app s3) = mm_flag (app s)) as Hdone
    by (cbn; rewrite Ha; split_and!; done).
  destruct (rc =? -1); [by apply wp_ret|]. unfold MAX_FRAME_SIZE, MRPDU_ENDMARK_SZ in *.
  destruct (Z.leb_spec (2000 - 2) (15 + bytes)); [by apply wp_ret|].
  destruct (mmrp_emit_svcvectors_safe b1 (15 + bytes) 2000 lv (mm_flag (app s)) (vectevt_junk (clk (io s1))) l1)
    as (rc' & bytes' & l2 & b2 & E2 & H4 & H5 & H6); [lia|lia| |].
  { intros Hf. specialize (Hroom Hf). pose proof (mm_ntx_length (mm_list (app s))). lia. }
  apply wp_bind. eapply wp_lift; [exact E2|]. apply wp_bind, wp_modify. set (s4 := mkMrp _ _ _).
  assert (world s s4 /\ Forall2 mm_sent (mm_list (app s)) (mm_list (app s4)) /\ mm_flag (app s4) = mm_flag (app s)) as Hdone4.
  { cbn. rewrite Ha. split_and!; [by destruct Hw7|by eapply mm_sent_trans|done]. }
  destruct (rc' =? -1); [by apply wp_ret|]. destruct (_ =? 15); [by apply wp_ret|].
  destruct (Z.ltb_spec (15 + bytes + bytes') (2000 - 2)); [|by apply wp_ret].
  destruct (pokes_done b2 (15 + bytes + bytes') [0; 0]) as (b3 & E3 & _); [lia|simpl; lia|].
  apply wp_bind. eapply wp_lift; [exact E3|]. apply wp_bind. unfold mrpd_send. apply wp_bind, draw_calm.
  intros s5 [Hw8 Ha8]. destruct Hdone4 as (Hx & Hy & Hz). pose proof (world_trans _ _ _ Hx Hw8) as Hw9.
  apply wp_bind. destruct (0 <? _); [apply wp_modify|apply wp_ret]; apply wp_ret, wp_ret; cbn; rewrite Ha8; split_and!; try done;
    by destruct Hw9.
Qed.
End ops.

(** ** Events *)
Section events.
Context `{env : MrpEnv} `{stk : MmrpStack}.
Implicit Types s : MM.
Hypothesis Hrand : forall n, 0 <= mrp_random n.

(** The invariant of the database. *)
Record mm_inv s : Prop := mkMmInv {
  mv_list : mm_list_ok (mm_list (app s));
  mv_station : length (STATION_ADDR (io s)) = 6%nat;
  mv_clients : NoDup (ports (clients (mdb s)));
  mv_flag : mm_flag (app s) = false }.

(** The state [s'] stands for the table [m], with the rest of [s]. *)
Definition stands s (m : mm_map_t) (s' : MM) : Prop :=
  world s s' /\ repr (mm_list (app s')) m /\ mm_flag (app s') = mm_flag (app s).

Lemma stands_calm s m s' : calm s s' -> repr (mm_list (app s)) m -> stands s m s'.
Proof. intros [H1 H2] H3. split; [done|]. by rewrite H2. Qed.
Lemma stands_after s m s1 s2 : calm s s1 -> stands s1 m s2 -> stands s m s2.
Proof. intros [H1 H2] (H3 & H4 & H5). split; [by eapply world_trans|]. split; [done|]. by rewrite H5, H2. Qed.
Lemma stands_then s m s1 s2 : stands s m s1 -> calm s1 s2 -> stands s m s2.
Proof. intros (H1 & H2 & H3) [H4 H5]. split; [by eapply world_trans|]. by rewrite H5. Qed.
Lemma stands_trans s m1 m2 s1 s2 : stands s m1 s1 -> stands s1 m2 s2 -> stands s m2 s2.
Proof. intros (H1 & H2 & H3) (H4 & H5 & H6). split; [by eapply world_trans|]. split; [done|congruence]. Qed.

(** A loop over the attributes is a change of every entry. *)
Lemma mm_sweep_spec f p2p g F m s :
  mm_acts f p2p g -> p2pmac (io s) = p2p -> mm_keeps g -> (forall a, mm_states (g a) = F (mm_value a) (mm_states a)) ->
  repr (mm_list (app s)) m -> wp (mm_for_each f) (fun _ s' => stands s (each F m) s') s.
Proof.
  intros Hf Hp Hg HF Hm. eapply wp_mono; [by eapply mm_for_each_spec|]. intros ? s' [H1 H2].
  split; [done|]. rewrite H2. cbn. split; [by apply repr_map|done].
Qed.

Lemma mm_transmit_spec m s :
  length (STATION_ADDR (io s)) = 6%nat -> mm_room s -> repr (mm_list (app s)) m -> wp mmrp_txpdu (fun _ s' => stands s m s') s.
Proof.
  intros Hst Hr Hm. eapply wp_mono; [apply mmrp_txpdu_spec; [done| |done]|].
  - destruct Hm as [[_ H] _]. eapply Forall_impl; [exact H|]. by intros a [].
  - intros ? s' (H1 & H2 & H3). split; [done|]. split; [by eapply repr_sent|done].
Qed.

Lemma mm_event_tx_spec ra m s :
  mm_inv s -> repr (mm_list (app s)) m ->
  wp (mm_event_switch MRP_EVENT_TX ra) (fun x s' => stands s (mm_table_step (p2pmac (io s)) MRP_EVENT_TX (mm_value <$> ra) m) s') s.
Proof.
  intros [] Hm. cbn [mm_event_switch mm_table_step]. apply wp_bind. eapply wp_mono; [apply mrp_jointimer_stop_spec|].
  intros ? s1 (H1%calm_timer & _). pose proof H1 as [[] Ha]. apply wp_bind.
  eapply wp_mono; [eapply (mm_sweep_spec _ _ _ (fun _ x => (app_to (p2pmac (io s)) MRP_EVENT_TX x, snd x))); [apply mm_acts_applicant|exact mw_p2pmac|apply mm_keeps_app|intros; apply mm_states_app|by rewrite Ha]|].
  intros ? s2 H2. pose proof (stands_after _ _ _ _ H1 H2) as H3. unfold mm_get_list. apply wp_bind, wp_bind, wp_get, wp_ret, wp_bind.
  destruct (H3) as ([] & H4 & H5).
  eapply wp_mono; [apply mm_transmit_spec; [congruence| |exact H4]|].
  { intros Hf. congruence. }
  intros ? s3 H6. pose proof (stands_trans _ _ _ _ _ H3 H6) as H7. apply wp_bind. set (count := foldl _ _ _).
  assert (wp (if count =? 0 then st_ret 0 else mrp_jointimer_start) (fun _ s' => calm s3 s') s3) as Hj.
  { destruct (_ =? _); [apply wp_ret, calm_refl|]. eapply wp_mono; [apply mrp_jointimer_start_spec|].
    intros ? s' (? & _). by apply calm_timer. }
  eapply wp_mono; [exact Hj|]. intros ? s4 H8. apply wp_ret. by eapply stands_then.
Qed.

(** The flag of the empty LeaveAll. *)
Lemma stands_flag s m s1 b :
  stands s m s1 -> world s (mkMrp (mdb s1) (mkMmrpDb (mm_list (app s1)) b) (io s1)) /\ repr (mm_list (app s1)) m.
Proof. intros ([] & H & _). by split. Qed.

Lemma mm_event_lvatimer_spec ra m s :
  mm_inv s -> (length (mm_list (app s)) <= 219)%nat -> repr (mm_list (app s)) m ->
  wp (mm_event_switch MRP_EVENT_LVATIMER ra)
    (fun x s' => stands s (mm_table_step (p2pmac (io s)) MRP_EVENT_LVATIMER (mm_value <$> ra) m) s') s.
Proof.
  intros [] Hlen Hm. cbn [mm_event_switch mm_table_step]. apply wp_bind. eapply wp_mono; [apply mrp_lvatimer_stop_spec|].
  intros ? s1 (H1%calm_timer & _). apply wp_bind. eapply wp_mono; [apply mrp_jointimer_stop_spec|].
  intros ? s2 (H2%calm_timer & _). pose proof (calm_trans _ _ _ H1 H2) as H3. pose proof H3 as [[] Ha]. apply wp_bind.
  eapply wp_mono; [eapply mm_for_each_spec; [apply mm_acts_compose; [apply mm_acts_applicant|apply mm_acts_registrar]|exact mw_p2pmac]|].
  intros ? s3 [H4 H4']. rewrite Ha in H4'.
  assert (stands s (each (fun _ => both_to (p2pmac (io s)) MRP_EVENT_TXLA) m) s3) as H5.
  { split; [by eapply world_trans; [apply H3|]|]. rewrite H4'. split; [|done]. cbn. apply repr_map; [auto with mmrp_db world_db| |done].
    intros x. apply mm_states_both. }
  apply wp_bind. eapply wp_mono; [by apply mrp_lvatimer_fsm_spec|]. intros ? s4 (_ & H6%calm_lva & _).
  pose proof (stands_then _ _ _ _ H5 H6) as H7. apply wp_bind, wp_modify. set (s5 := mkMrp _ _ _).
  destruct (stands_flag _ _ _ true H7) as [H8 H9]. apply wp_bind. eapply wp_mono; [by apply mrp_lvatimer_fsm_spec|].
  intros ? s6 (_ & H10%calm_lva & _). destruct (H10) as [[] Ha6]. destruct H8. apply wp_bind.
  eapply wp_mono; [apply mm_transmit_spec; [cbn in *; congruence| |rewrite Ha6; exact H9]|].
  { intros _. rewrite Ha6. subst s5. cbn. destruct H6 as [_ ->]. rewrite H4'. cbn. by rewrite length_fmap. }
  intros ? s7 H11. apply wp_bind, wp_modify, wp_ret. destruct H11 as ([] & H12 & _). cbn in *. split; [split; cbn; congruence|].
  split; [done|]. by rewrite mv_flag0.
Qed.

Lemma mm_event_rla_spec ra m s :
  repr (mm_list (app s)) m ->
  wp (mm_event_switch MRP_EVENT_RLA ra) (fun x s' => stands s (mm_table_step (p2pmac (io s)) MRP_EVENT_RLA (mm_value <$> ra) m) s') s.
Proof.
  intros Hm. cbn [mm_event_switch mm_table_step]. apply wp_bind. eapply wp_mono; [apply mrp_jointimer_start_spec|].
  intros ? s1 (H1%calm_timer & _). pose proof H1 as [[] Ha]. destruct ra as [r|]; cbn [fmap option_fmap option_map].
  2: { apply wp_ret. by apply stands_calm. }
  apply wp_bind. eapply wp_mono.
  { eapply (mm_sweep_spec _ (p2pmac (io s)) (fun a => if mm_type (mm_value a) =? mm_type (mm_value r)
      then mm_reg_upd MRP_EVENT_RLA (mm_app_next (p2pmac (io s)) MRP_EVENT_RLA a) else a)
      (fun k x => if mm_type k =? mm_type (mm_value r) then both_to (p2pmac (io s)) MRP_EVENT_RLA x else x)); [|done| | |by rewrite Ha].
    - intros x s0 Hp. destruct (_ =? _); [|apply wp_ret; auto with mmrp_db world_db].
      by apply (mm_acts_compose _ _ _ _ _ (mm_acts_applicant _ _) (mm_acts_registrar _ _)).
    - split; intros x; destruct (_ =? _); try done. by apply mm_keeps_compose; auto with mmrp_db world_db.
    - intros x. destruct (_ =? _); [apply mm_states_both|done]. }
  intros ? s2 H2. pose proof (stands_after _ _ _ _ H1 H2) as H3. apply wp_bind.
  eapply wp_mono; [by apply mrp_lvatimer_fsm_spec|]. intros ? s3 (_ & H4%calm_lva & _). apply wp_ret. by eapply stands_then.
Qed.

Lemma mm_event_lvtimer_spec ra m s :
  repr (mm_list (app s)) m ->
  wp (mm_event_switch MRP_EVENT_LVTIMER ra) (fun x s' => stands s (mm_table_step (p2pmac (io s)) MRP_EVENT_LVTIMER (mm_value <$> ra) m) s') s.
Proof.
  intros Hm. cbn [mm_event_switch mm_table_step]. apply wp_bind. eapply wp_mono; [apply mrp_lvtimer_stop_spec|].
  intros ? s1 (H1%calm_timer & _). pose proof H1 as [[] Ha]. apply wp_bind.
  eapply wp_mono; [eapply (mm_sweep_spec _ _ _ (fun _ x => (fst x, reg_to MRP_EVENT_LVTIMER (snd x)))); [apply mm_acts_registrar|exact mw_p2pmac|apply mm_keeps_reg|intros; apply mm_states_reg|by rewrite Ha]|].
  intros ? s2 H2. apply wp_ret. by eapply stands_after.
Qed.

Lemma mm_event_periodic_spec ra m s :
  repr (mm_list (app s)) m ->
  wp (mm_event_switch MRP_EVENT_PERIODIC ra) (fun x s' => stands s (mm_table_step (p2pmac (io s)) MRP_EVENT_PERIODIC (mm_value <$> ra) m) s') s.
Proof.
  intros Hm. cbn [mm_event_switch mm_table_step]. unfold mm_get_list. apply wp_bind, wp_bind, wp_get, wp_ret, wp_bind.
  assert (wp (if decide (mm_list (app s) = []) then st_ret 0 else mrp_jointimer_start) (fun _ s' => calm s s') s) as Hj.
  { destruct (decide _); [apply wp_ret, calm_refl|]. eapply wp_mono; [apply mrp_jointimer_start_spec|].
    intros ? s' (? & _). by apply calm_timer. }
  eapply wp_mono; [exact Hj|]. intros ? s1 H1. pose proof H1 as [[] Ha]. apply wp_bind.
  eapply wp_mono; [eapply (mm_sweep_spec _ _ _ (fun _ x => (app_to (p2pmac (io s)) MRP_EVENT_PERIODIC x, snd x))); [apply mm_acts_applicant|exact mw_p2pmac|apply mm_keeps_app|intros; apply mm_states_app|by rewrite Ha]|].
  intros ? s2 H2. apply wp_ret. by eapply stands_after.
Qed.

(** The attribute of an event, once it is in the list. *)
Lemma mm_attribute_event_spec e v b a c m s :
  split_value v (b ++ a :: c) = Some (b, a, c) -> mm_list (app s) = b ++ a :: c -> mm_value a = v -> repr (b ++ a :: c) m ->
  wp (mm_attribute_event e v) (fun _ s' => stands s (<[v := mm_request (p2pmac (io s)) e (mm_states a)]> m) s') s.
Proof.
  intros Hs Hl <- Hm. unfold mm_attribute_event, mm_get_list. apply wp_bind, wp_bind, wp_get, wp_ret. rewrite Hl, Hs.
  apply wp_bind. eapply wp_mono; [by apply (mm_acts_applicant (p2pmac (io s)))|]. intros a1 s1 [-> H1].
  apply wp_bind. eapply wp_mono; [apply (mm_acts_request (p2pmac (io s))); destruct H1 as [[] _]; congruence|]. intros a2 s2 [-> H2].
  pose proof (calm_trans _ _ _ H1 H2) as [[] Ha]. apply wp_modify. split; [by split|]. cbn. rewrite Ha. split; [|done].
  rewrite <- mm_states_request.
  apply (repr_update (fun a => mm_reg_request e (mm_app_next (p2pmac (io s)) e a))); [|done]. auto with mmrp_db world_db.
Qed.

(** An attribute as the callers of [mmrp_event] make it. *)
Record mm_fresh (r : mmrp_attribute) : Prop := mkMmFresh {
  mf_ok : mm_attr_ok r;
  mf_states : mm_states r = nobody }.

Lemma mm_event_attribute_spec e r m s :
  attribute_events e = true -> mm_fresh r -> repr (mm_list (app s)) m ->
  wp (mm_event_switch e (Some r)) (fun _ s' => stands s (mm_table_step (p2pmac (io s)) e (Some (mm_value r)) m) s') s.
Proof.
  intros He [Hr Hn] Hm.
  assert (wp (mrp_jointimer_start ;! let! l := mm_get_list in
    match mmrp_lookup l r with
    | None => if decide (e = MRP_EVENT_RMT) then st_ret (false, 0)
              else mm_put_list (mmrp_add l r) ;! mm_attribute_event e (mm_value r) ;! st_ret (true, 0)
    | Some _ => mm_put_list (snd (mmrp_merge l r)) ;! mm_attribute_event e (mm_value r) ;! st_ret (true, 0)
    end) (fun _ s' => stands s (if decide (e = MRP_EVENT_RMT) then alter (mm_request (p2pmac (io s)) e) (mm_value r) m
      else <[mm_value r := mm_request (p2pmac (io s)) e (default nobody (m !! mm_value r))]> m) s') s) as H.
  2: { destruct e; try done; rewrite ?decide_True, ?decide_False in H by done; exact H. }
  apply wp_bind. eapply wp_mono; [apply mrp_jointimer_start_spec|]. intros ? s1 (H1%calm_timer & _). pose proof H1 as [Hw Ha].
  assert (p2pmac (io s1) = p2pmac (io s)) as Hp by (by destruct Hw).
  unfold mm_get_list at 1. apply wp_bind, wp_bind, wp_get, wp_ret. rewrite Ha.
  destruct (mmrp_lookup (mm_list (app s)) r) as [x|] eqn:Hlk.
  - destruct (mm_target_found _ _ _ _ Hm Hr Hlk) as (b & a0 & c & -> & H2 & H3 & H4 & H5).
    apply wp_bind, wp_modify. set (s2 := mkMrp _ _ _). apply wp_bind.
    eapply wp_mono; [by apply (mm_attribute_event_spec e _ b a0 c m)|]. intros ? s3 H6. apply wp_ret.
    replace (p2pmac (io s2)) with (p2pmac (io s)) in H6 by done.
    assert (stands s1 (<[mm_value r := mm_request (p2pmac (io s)) e (mm_states a0)]> m) s3) as H7
      by (destruct H6 as ([] & H7 & H8); split; [by split|]; by rewrite H8).
    apply (stands_after _ _ _ _ H1) in H7. rewrite H5. cbn [default]. destruct (decide _); [|done].
    replace (alter _ _ m) with (<[mm_value r := mm_request (p2pmac (io s)) e (mm_states a0)]> m); [done|].
    apply map_eq. intros k. destruct (decide (k = mm_value r)) as [->|Hk].
    + by rewrite lookup_insert_eq, lookup_alter_eq, H5.
    + by rewrite lookup_insert_ne, lookup_alter_ne.
  - destruct (mm_target_added _ _ _ Hm Hr Hlk) as (b & c & E & H2 & H3 & H4). destruct (decide _) as [->|He'].
    { apply wp_ret. apply stands_calm; [done|]. replace (alter _ _ m) with m; [done|]. apply map_eq. intros k.
      destruct (decide (k = mm_value r)) as [->|Hk]; [by rewrite lookup_alter_eq, H4|by rewrite lookup_alter_ne]. }
    rewrite E. apply wp_bind, wp_modify. set (s2 := mkMrp _ _ _). apply wp_bind.
    eapply wp_mono; [by apply (mm_attribute_event_spec e _ b r c (<[mm_value r := mm_states r]> m))|]. intros ? s3 H6. apply wp_ret.
    replace (p2pmac (io s2)) with (p2pmac (io s)) in H6 by done. rewrite insert_insert_eq, Hn in H6. rewrite H4. cbn [default].
    apply (stands_after _ _ s1); [done|]. destruct H6 as ([] & H7 & H8). split; [by split|]. by rewrite H8.
Qed.

Lemma mm_event_switch_spec e ra m s :
  mm_inv s -> (e = MRP_EVENT_LVATIMER -> (length (mm_list (app s)) <= 219)%nat) ->
  (forall r, ra = Some r -> mm_fresh r) -> repr (mm_list (app s)) m ->
  wp (mm_event_switch e ra) (fun _ s' => stands s (mm_table_step (p2pmac (io s)) e (mm_value <$> ra) m) s') s.
Proof.
  intros Hinv Hlen Hr Hm. destruct (attribute_events e) eqn:E.
  - destruct ra as [r|]; [by apply mm_event_attribute_spec; auto|].
    assert (wp (mrp_jointimer_start ;! st_ret (false, -1)) (fun _ s' => stands s m s') s) as H.
    { apply wp_bind. eapply wp_mono; [apply mrp_jointimer_start_spec|]. intros ? s1 (H1%calm_timer & _). apply wp_ret.
      by apply stands_calm. }
    by destruct e.
  - destruct e; try done; auto using mm_event_tx_spec, mm_event_rla_spec, mm_event_periodic_spec, mm_event_lvtimer_spec,
      mm_event_lvatimer_spec; apply wp_ret; apply stands_calm; auto with mmrp_db world_db.
Qed.

Lemma mm_inv_stands s m s' : mm_inv s -> stands s m s' -> mm_inv s'.
Proof. intros [] ([] & [H _] & Hf). split; [done|congruence..]. Qed.

Lemma mmrp_event_spec e ra s :
  mm_inv s -> (e = MRP_EVENT_LVATIMER -> (length (mm_list (app s)) <= 219)%nat) -> (forall r, ra = Some r -> mm_fresh r) ->
  wp (mmrp_event e ra) (fun _ s' => mm_inv s' /\ world s s' /\
    mm_table (mm_list (app s')) = mm_table_step (p2pmac (io s)) e (mm_value <$> ra) (mm_table (mm_list (app s)))) s.
Proof.
  intros Hinv Hlen Hr. assert (repr (mm_list (app s)) (mm_table (mm_list (app s)))) as Hm by (by split; [apply Hinv|]).
  unfold mmrp_event. apply wp_bind. eapply wp_mono; [by apply mm_event_switch_spec|]. intros [b rc] s1 H1. cbn [fst snd].
  set (m' := mm_table_step _ _ _ _) in *.
  assert (forall s', stands s m' s' -> mm_inv s' /\ world s s' /\ mm_table (mm_list (app s')) = m') as Hend.
  { intros s' H. split; [by eapply mm_inv_stands|]. by destruct H as (? & [_ ?] & _). }
  destruct b; [|by apply wp_ret, Hend]. apply wp_bind.
  eapply wp_mono; [by eapply mm_for_each_spec; [apply (mm_acts_notify (p2pmac (io s1)))|]|]. intros ? s2 [H2 H3].
  apply wp_ret, Hend. destruct H1 as (H4 & H5 & H6). split; [by eapply world_trans|]. rewrite H3. cbn. split; [|done].
  by apply repr_id; [apply mm_keeps_hush| |].
Qed.
End events.
