(* ===== verification/MmrpRecv.v ===== *)
(** * MmrpRecv: reception, commands and the life of the MMRP daemon

    Every frame of at most 1992 bytes is processed without a read outside the receive
    buffer, in the iterations allowed, and preserves the invariant; so do the commands of
    clients, reclaim and the departure of a client. *)
From stdpp Require Import base gmap list strings numbers sorting.
From S2P Require Import Prelude Text Parse Mrp MrpProps Mvrp MvrpWire Mmrp.
From S2P Require Import MrpWorld MvrpRecv MvrpTable MvrpEvent MmrpInv MmrpWire MmrpEvent.
#[local] Open Scope Z_scope.
#[local] Open Scope st_scope.

(** ** Addresses *)
Lemma peek_mac_ok buf i :
  Forall is_byte buf -> 0 <= i -> i + 6 <= Z.of_nat (length buf) ->
  exists m, peek_mac buf i = Done m /\ value_ok (MACVEC m).
Proof.
  intros Hb H0 Hi. unfold peek_mac. destruct (Z.leb_spec 0 i); [|lia]. destruct (Z.leb_spec (i + 6) (Z.of_nat (length buf))); [|lia].
  eexists. split; [done|]. split; [rewrite length_take, length_drop; lia|]. by apply Forall_take, Forall_drop.
Qed.

(** ** The table dump: at most 34 characters a line, in a buffer of 1500 bytes *)
Lemma length_mm_variant a : mm_attr_ok a -> (String.length (mm_variant a) <= 14)%nat.
Proof.
  intros [H _]. unfold mm_variant. destruct (mm_value a) as [x|m]; rewrite string_length_app.
  - pose proof (length_fmt_d x). simpl. lia.
  - destruct H. rewrite length_fmt_mac, H. simpl. lia.
Qed.

Lemma length_mm_regsrc a : mm_attr_ok a -> String.length (mm_regsrc a) = 14%nat.
Proof. intros [_ H]. unfold mm_regsrc. by rewrite string_length_app, length_fmt_mac, H. Qed.

Lemma length_mm_dump_line a : mm_attr_ok a -> (String.length (mm_dump_line a) <= 34)%nat.
Proof.
  intros Ha. unfold mm_dump_line. rewrite !string_length_app, (length_mm_regsrc a Ha). pose proof (length_mm_variant a Ha).
  destruct (reg_state (mm_registrar a)); simpl; lia.
Qed.

Lemma mm_dump_loop_safe l text :
  Forall mm_attr_ok l -> (String.length text + 34 * length l < 1500)%nat -> exists out, mm_dump_loop l text = Done out.
Proof.
  intros Hl. revert text. induction Hl as [|a l Ha _ IH]; intros text Ht; cbn [mm_dump_loop]; [eauto|]. cbn [length] in Ht.
  pose proof (length_mm_variant a Ha). pose proof (length_mm_regsrc a Ha). pose proof (length_mm_dump_line a Ha).
  unfold sprintf_at, MAX_MRPD_CMDSZ.
  repeat (match goal with |- context [Z.leb ?x ?y] => destruct (Z.leb_spec x y); [|lia] end; obind).
  apply IH. rewrite string_length_app. lia.
Qed.

Section recv.
Context `{env : MrpEnv} `{stk : MmrpStack}.
Implicit Types s : MM.
Hypothesis Hrand : forall n, 0 <= mrp_random n.

Lemma mm_inv_calm s s' : calm s s' -> mm_inv s -> mm_inv s'.
Proof. intros [[] Ha] []. split; congruence. Qed.

Lemma mm_fresh_alloc v mac : value_ok v -> length mac = 6%nat -> mm_fresh (mmrp_alloc v mac).
Proof. by repeat split. Qed.

(** Any event that does not time a LeaveAll. *)
Lemma mm_event_inv e r s :
  mm_inv s -> e <> MRP_EVENT_LVATIMER -> mm_fresh r -> wp (mmrp_event e (Some r)) (fun _ s' => mm_inv s') s.
Proof.
  intros Hinv He Hr. eapply wp_mono; [apply mmrp_event_spec; [done|done|done|]|]; [by intros x [= <-]|].
  by intros ? s' (? & _).
Qed.

Lemma mm_rx_spec e v mac s :
  mm_inv s -> value_ok v -> length mac = 6%nat -> wp (mm_rx e (mmrp_alloc v mac)) (fun _ s' => mm_inv s') s.
Proof.
  intros Hinv Hv Hm. unfold mm_rx. destruct (rx_event e) as [ev|] eqn:E; [|by apply wp_ret]. apply wp_bind.
  eapply wp_mono; [apply mm_event_inv; [done| |by apply mm_fresh_alloc]|]; [|intros ? s' H; by apply wp_ret].
  unfold rx_event in E. by repeat case_match; simplify_eq.
Qed.

(** The values of a packed byte keep the invariant and a good next value [P]. *)
Definition values_ok {V} (P : V -> Prop) (run : list Z -> V -> list Z -> stM MM (option V)) : Prop :=
  forall evts v mac s, mm_inv s -> P v -> length mac = 6%nat ->
    wp (run evts v mac) (fun r s' => mm_inv s' /\ forall v', r = Some v' -> P v') s.

Lemma svc_values_spec : values_ok (fun v => 0 <= v < 256) svc_values.
Proof.
  intros evts v mac s Hinv Hv Hm. revert v s Hinv Hv. induction evts as [|e evts IH]; intros v s Hinv Hv; simpl.
  { apply wp_ret. split; [done|]. by intros v' [= <-]. }
  destruct (1 <? v); [by apply IH|]. apply wp_bind, draw_calm. intros s1 H1. pose proof (mm_inv_calm _ _ H1 Hinv) as Hinv1.
  destruct (mrp_malloc _); cbn [negb]; [|by apply wp_ret]. apply wp_bind.
  eapply wp_mono; [by apply mm_rx_spec|]. intros ? s2 Hinv2. apply IH; [done|apply u8_range].
Qed.

Lemma mac_values_spec : values_ok (fun m => value_ok (MACVEC m)) mac_values.
Proof.
  intros evts v mac s Hinv Hv Hm. revert v s Hinv Hv. induction evts as [|e evts IH]; intros v s Hinv Hv; simpl.
  { apply wp_ret. split; [done|]. by intros v' [= <-]. }
  apply wp_bind, draw_calm. intros s1 H1. pose proof (mm_inv_calm _ _ H1 Hinv) as Hinv1.
  destruct (mrp_malloc _); cbn [negb]; [|by apply wp_ret]. apply wp_bind.
  eapply wp_mono; [by apply mm_rx_spec|]. intros ? s2 Hinv2. apply IH; [done|]. destruct Hv as [Hv1 Hv2]. destruct (increment_bytes 5 v Hv2) as [Hi1 Hi2]. split; [unfold mmrp_increment_macaddr; by rewrite Hi1|done].
Qed.

Lemma mm_bytes_spec {V} (P : V -> Prop) run n buf events vidx num v mac s :
  values_ok P run -> mm_inv s -> P v -> length mac = 6%nat -> Forall is_byte buf ->
  0 <= events + vidx -> events + vidx + Z.of_nat n <= Z.of_nat (length buf) ->
  wp (mm_bytes run n buf events vidx num v mac) (fun _ s' => mm_inv s') s.
Proof.
  intros Hrun Hinv Hv Hm Hb. revert vidx num v s Hinv Hv.
  induction n as [|n IH]; intros vidx num v s Hinv Hv H0 H1; simpl; [by apply wp_ret|].
  destruct (peek_ok buf (events + vidx) ltac:(lia) Hb) as (b & E & _). apply wp_bind. eapply wp_lift; [exact E|].
  apply wp_bind. eapply wp_mono; [by apply Hrun|]. intros [v'|] s1 [Hinv1 Hr]; [|by apply wp_ret].
  apply IH; [done|by apply Hr|lia|lia].
Qed.

Lemma mm_endmark_spec buf eof ptr s :
  recv_ok buf eof -> 0 <= ptr < 1999 ->
  wp (mm_endmark buf ptr) (fun b s' => s' = s /\ (b = false -> ptr < eof)) s.
Proof.
  intros Hr Hp. destruct (recv_mark buf eof ptr Hr Hp) as (b0 & b1 & E0 & E1 & Hz).
  unfold mm_endmark. apply wp_bind. eapply wp_lift; [exact E0|]. destruct (Z.eqb_spec b0 0); [|apply wp_ret; auto].
  apply wp_bind. eapply wp_lift; [exact E1|]. apply wp_ret. split; [done|]. rewrite Z.eqb_neq. auto.
Qed.

Lemma mm_leaveall_spec v s : mm_inv s -> value_ok v -> wp (mm_leaveall v) (fun _ s' => mm_inv s') s.
Proof.
  intros Hinv Hv. unfold mm_leaveall. apply wp_bind, draw_calm. intros s1 H1. pose proof (mm_inv_calm _ _ H1 Hinv) as Hinv1.
  destruct (mrp_malloc _); cbn [negb]; [|by apply wp_ret]. apply wp_bind.
  eapply wp_mono; [apply mm_event_inv; [done|done|by apply mm_fresh_alloc]|]. intros ? s2 H2. by apply wp_ret.
Qed.

Lemma num_vector_bytes_bound n : 0 < n -> 1 <= num_vector_bytes n <= n / 3 + 1.
Proof. intros Hn. unfold num_vector_bytes. destruct (Z.eqb_spec n (n / 3 * 3)); Z.div_mod_to_equations; lia. Qed.

(** The vectors of a message, for values of [size] bytes; the loops differ in the
    LeaveAll and in what they return. *)
Lemma svc_vectors_spec fuel buf eof ptr saw mac s :
  recv_ok buf eof -> eof <= 1992 -> mm_inv s -> length mac = 6%nat -> 0 <= ptr <= eof + 6 -> eof - ptr <= Z.of_nat fuel ->
  wp (svc_vectors fuel buf eof ptr saw mac) (fun r s' => mm_inv s' /\ forall p b, r = Some (p, b) -> ptr <= p) s.
Proof.
  intros Hbuf He Hinv Hm. revert ptr saw s Hinv. induction fuel as [|fuel IH]; intros ptr saw s Hinv Hp Hf; cbn [svc_vectors].
  all: apply wp_bind; eapply wp_mono; [apply (mm_endmark_spec buf eof); [done|lia]|]; intros mark ? [-> Hmark].
  all: destruct mark; [apply wp_ret; split; [done|intros p b [= <- <-]; lia]|]; specialize (Hmark eq_refl).
  1: lia.
  destruct (recv_peek16 buf eof ptr Hbuf ltac:(lia)) as (h & Eh & _). apply wp_bind. eapply wp_lift; [exact Eh|].
  pose proof (numvalues_range h) as Hn. set (num := MRPDU_VECT_NUMVALUES h) in *. set (la := MRPDU_VECT_LVA h && negb saw).
  apply wp_bind. assert (wp (if la then mm_leaveall (SVCREQ 0) else st_ret true) (fun _ s' => mm_inv s') s) as Hla
    by (destruct la; [by apply mm_leaveall_spec|by apply wp_ret]).
  eapply wp_mono; [exact Hla|]. intros ok s1 Hinv1. destruct (negb ok); [by apply wp_ret|].
  destruct (Z.eqb_spec num 0); [by apply wp_ret|]. destruct (Z.leb_spec eof (ptr + 2 + num / 3)); [by apply wp_ret|].
  pose proof (Z.div_pos num 3 ltac:(lia) ltac:(lia)) as Hd. pose proof (num_vector_bytes_bound num ltac:(lia)) as Hk.
  destruct (recv_peek buf eof (ptr + 2) Hbuf ltac:(lia)) as (v & Ev & Hv). apply wp_bind. eapply wp_lift; [exact Ev|]. apply wp_bind.
  eapply wp_mono; [apply (mm_bytes_spec _ _ _ _ _ _ _ _ _ _ svc_values_spec); try done; [apply Hbuf|lia|rewrite (rb_len _ _ Hbuf); lia]|].
  intros [?|] s2 Hinv2; [|by apply wp_ret]. eapply wp_mono; [apply IH; [done|lia|lia]|].
  intros r s3 [H2 H3]. split; [done|]. intros p b E. specialize (H3 p b E). lia.
Qed.

Lemma mac_vectors_spec fuel buf eof ptr mac s :
  recv_ok buf eof -> eof <= 1992 -> mm_inv s -> length mac = 6%nat -> 0 <= ptr <= eof + 6 -> eof - ptr <= Z.of_nat fuel ->
  wp (mac_vectors fuel buf eof ptr mac) (fun r s' => mm_inv s' /\ forall p, r = Some p -> ptr <= p) s.
Proof.
  intros Hbuf He Hinv Hm. revert ptr s Hinv. induction fuel as [|fuel IH]; intros ptr s Hinv Hp Hf; cbn [mac_vectors].
  all: apply wp_bind; eapply wp_mono; [apply (mm_endmark_spec buf eof); [done|lia]|]; intros mark ? [-> Hmark].
  all: destruct mark; [apply wp_ret; split; [done|intros p [= <-]; lia]|]; specialize (Hmark eq_refl).
  1: lia.
  destruct (recv_peek16 buf eof ptr Hbuf ltac:(lia)) as (h & Eh & _). apply wp_bind. eapply wp_lift; [exact Eh|].
  pose proof (numvalues_range h) as Hn. set (num := MRPDU_VECT_NUMVALUES h) in *. apply wp_bind.
  assert (wp (if MRPDU_VECT_LVA h then mm_leaveall (MACVEC (replicate 6 0)) else st_ret true) (fun _ s' => mm_inv s') s) as Hla.
  { destruct (MRPDU_VECT_LVA h); [|by apply wp_ret]. apply mm_leaveall_spec; [done|]. split; [done|]. by apply Forall_replicate. }
  eapply wp_mono; [exact Hla|]. intros ok s1 Hinv1. destruct (negb ok); [by apply wp_ret|].
  destruct (Z.eqb_spec num 0); [by apply wp_ret|]. destruct (Z.leb_spec eof (ptr + 2 + num / 3)); [by apply wp_ret|].
  pose proof (Z.div_pos num 3 ltac:(lia) ltac:(lia)) as Hd. pose proof (num_vector_bytes_bound num ltac:(lia)) as Hk.
  destruct (peek_mac_ok buf (ptr + 2)) as (v & Ev & Hv); [apply Hbuf|lia|rewrite (rb_len _ _ Hbuf); lia|].
  apply wp_bind. eapply wp_lift; [exact Ev|]. apply wp_bind.
  eapply wp_mono; [apply (mm_bytes_spec _ _ _ _ _ _ _ _ _ _ mac_values_spec); try done; [apply Hbuf|lia|rewrite (rb_len _ _ Hbuf); lia]|].
  intros [?|] s2 Hinv2; [|by apply wp_ret]. eapply wp_mono; [apply IH; [done|lia|lia]|].
  intros r s3 [H2 H3]. split; [done|]. intros p E. specialize (H3 p E). lia.
Qed.

Lemma mm_messages_spec fuel buf eof ptr endmarks saw mac s :
  recv_ok buf eof -> eof <= 1992 -> mm_inv s -> length mac = 6%nat -> 0 <= ptr -> eof - ptr <= Z.of_nat fuel ->
  wp (mm_messages fuel buf eof ptr endmarks saw mac) (fun _ s' => mm_inv s') s.
Proof.
  intros Hbuf He Hinv Hm. revert ptr endmarks saw s Hinv.
  induction fuel as [|fuel IH]; intros ptr endmarks saw s Hinv Hp Hf; cbn [mm_messages];
    (destruct (Z.ltb_spec ptr (eof - MRPDU_ENDMARK_SZ)) as [Hlt|]; cbn [negb]; [|by apply wp_ret]);
    unfold MRPDU_ENDMARK_SZ in *; [lia|].
  destruct (recv_peek buf eof ptr Hbuf ltac:(lia)) as (t & Et & _). apply wp_bind. eapply wp_lift; [exact Et|].
  destruct (recv_peek buf eof (ptr + 1) Hbuf ltac:(lia)) as (len & El & _). apply wp_bind. eapply wp_lift; [exact El|].
  destruct (_ && _); [destruct (_ <? 2); [apply IH; [done|lia|lia]|by apply wp_ret]|].
  destruct (t =? MMRP_SVCREQ_TYPE); [|destruct (t =? MMRP_MACVEC_TYPE); [|by apply wp_ret]].
  - destruct (len =? 1); cbn [negb]; [|by apply wp_ret]. apply wp_bind.
    eapply wp_mono; [apply (svc_vectors_spec _ _ eof); [done|done|done|done|lia|rewrite (rb_len _ _ Hbuf); lia]|].
    intros [[p b]|] s1 [Hinv1 H1]; [|by apply wp_ret]. specialize (H1 p b eq_refl). apply IH; [done|lia|lia].
  - destruct (len =? 6); cbn [negb]; [|by apply wp_ret]. apply wp_bind.
    eapply wp_mono; [apply (mac_vectors_spec _ _ eof); [done|done|done|done|lia|rewrite (rb_len _ _ Hbuf); lia]|].
    intros [p|] s1 [Hinv1 H1]; [|by apply wp_ret]. specialize (H1 p eq_refl). apply IH; [done|lia|lia].
Qed.

Lemma mmrp_recv_msg_spec f s :
  mm_inv s -> (forall b, f = Some b -> Forall is_byte b /\ (length b <= 1992)%nat) ->
  wp (mmrp_recv_msg f) (fun _ s' => mm_inv s') s.
Proof.
  intros Hinv Hf. unfold mmrp_recv_msg. apply wp_bind, draw_calm. intros s1 H1. pose proof (mm_inv_calm _ _ H1 Hinv) as Hinv1.
  destruct (mrp_malloc _); cbn [negb]; [|by apply wp_ret]. destruct f as [f|]; [|by apply wp_ret].
  destruct (Hf f eq_refl) as [Hb Hl]. pose proof (recv_buf_ok f Hb ltac:(lia)) as Hr.
  rewrite Z.min_l by (unfold MAX_FRAME_SIZE; lia). set (buf := recv_buf f) in *.
  destruct (_ <? _) eqn:E; [by apply wp_ret|]. apply Z.ltb_ge in E.
  destruct (recv_peek16 buf _ 12 Hr ltac:(lia)) as (et & Ee & _). apply wp_bind. eapply wp_lift; [exact Ee|].
  destruct (_ =? _); cbn [negb]; [|by apply wp_ret]. destruct (decide _); [|by apply wp_ret].
  apply (mm_messages_spec _ _ (Z.of_nat (length f))); [done|lia|done| |lia|].
  - rewrite length_take, length_drop, (rb_len _ _ Hr). lia.
  - rewrite (rb_len _ _ Hr). lia.
Qed.

(** ** Commands *)
Lemma mm_inv_clients cs s : mm_inv s -> NoDup (ports cs) -> mm_inv (mkMrp (set_clients cs (mdb s)) (app s) (io s)).
Proof. by intros []. Qed.

Lemma mm_respond_spec client text s : mm_inv s -> wp (respond client text) (fun _ s' => mm_inv s') s.
Proof.
  intros Hinv. unfold respond. apply wp_bind. eapply wp_mono; [apply send_ctl_calm|]. intros [] s1 H1.
  apply wp_ret. by eapply mm_inv_calm.
Qed.

Lemma mmrp_dumptable_spec client s :
  mm_inv s -> (length (mm_list (app s)) <= 44)%nat -> wp (mmrp_dumptable client) (fun _ s' => mm_inv s') s.
Proof.
  intros Hinv Hlen. unfold mmrp_dumptable. apply wp_bind, draw_calm. intros s1 H1. pose proof (mm_inv_calm _ _ H1 Hinv) as Hinv1.
  destruct (mrp_malloc _); cbn [negb]; [|by apply wp_ret]. apply wp_bind, draw_calm. intros s2 H2.
  apply wp_bind, draw_calm. intros s3 H3. apply wp_bind, draw_calm. intros s4 H4.
  pose proof (calm_trans _ _ _ H1 (calm_trans _ _ _ H2 (calm_trans _ _ _ H3 H4))) as H5.
  pose proof (mm_inv_calm _ _ H5 Hinv) as Hinv5. destruct (_ && _); cbn [negb]; [|by apply wp_ret].
  unfold mm_get_list. apply wp_bind, wp_bind, wp_get, wp_ret, wp_bind. destruct (H5) as [_ Ha]. rewrite Ha.
  assert (wp (if decide (mm_list (app s) = []) then st_ret ("MMRP:Empty" +:+ newline)
    else st_lift (mm_dump_loop (mm_list (app s)) String.EmptyString)) (fun _ s' => s' = s4) s4) as Hd.
  { destruct (decide _); [by apply wp_ret|].
    destruct (mm_dump_loop_safe (mm_list (app s)) String.EmptyString) as [out E]; [apply Hinv|simpl; lia|]. by eapply wp_lift. }
  eapply wp_mono; [exact Hd|]. intros ? ? ->. apply wp_bind. eapply wp_mono; [apply send_ctl_calm|]. intros [] s5 H6.
  apply wp_ret. by eapply mm_inv_calm.
Qed.

(** The values a command can carry. *)
Lemma parsed_service buf len : let '(_, v, _) := mmrp_cmd_parse_service buf len in value_ok (SVCREQ v).
Proof.
  unfold mmrp_cmd_parse_service. destruct (len <? 5); [done|]. cbv zeta. set (r := parse _ _ _).
  pose proof (fun v => parse_value_typed (drop 4 buf) (len - 4) [mkParam (bytes_of_string "S=") parse_u8] 0 _ v eq_refl) as Hv.
  fold r in Hv. destruct (pvalues r) as [|[x|x] vs]; try done. by apply (Hv (PInt x)).
Qed.

Lemma parsed_mac buf len : let '(_, m, _) := mmrp_cmd_parse_mac buf len in value_ok (MACVEC m).
Proof.
  assert (value_ok (MACVEC (replicate 6 0))) as H0 by (split; [done|by apply Forall_replicate]).
  unfold mmrp_cmd_parse_mac. destruct (len <? 17); [done|]. cbv zeta. set (r := parse _ _ _).
  pose proof (fun v => parse_value_typed (drop 4 buf) (len - 4) [mkParam (bytes_of_string "M=") parse_mac] 0 _ v eq_refl) as Hv.
  fold r in Hv. destruct (pvalues r) as [|[x|x] vs]; try done. by apply (Hv (PBytes x)).
Qed.

Lemma mm_command_spec {V} (P : V -> Prop) (parsed : Z * V * list Z) run client s :
  mm_inv s -> (let '(_, v, _) := parsed in P v) -> (forall v s, P v -> mm_inv s -> wp (run v) (fun _ s' => mm_inv s') s) ->
  wp (mm_command parsed run client) (fun _ s' => mm_inv s') s.
Proof.
  intros Hinv Hp Hrun. unfold mm_command. destruct parsed as [[rc v] text]. destruct (negb _); [by apply mm_respond_spec|].
  apply wp_bind. eapply wp_mono; [by apply Hrun|]. intros rc' s1 H1. destruct (negb _); [by apply mm_respond_spec|by apply wp_ret].
Qed.

(** A request for a value, in either way. *)
Lemma mm_request_spec v e s :
  mm_inv s -> e <> MRP_EVENT_LVATIMER -> value_ok v ->
  wp (let! mem := draw mrp_malloc in
      if negb mem then st_ret (-1) else mmrp_event e (Some (mmrp_alloc v (replicate 6 0))) ;! st_ret 0) (fun _ s' => mm_inv s') s.
Proof.
  intros Hinv He Hv. apply wp_bind, draw_calm. intros s1 H1. pose proof (mm_inv_calm _ _ H1 Hinv) as Hinv1.
  destruct (mrp_malloc _); cbn [negb]; [|by apply wp_ret]. apply wp_bind.
  eapply wp_mono; [apply mm_event_inv; [done|done|by apply mm_fresh_alloc]|]. intros ? s2 H2. by apply wp_ret.
Qed.

Lemma mm_declare_event buf : mm_declare buf <> MRP_EVENT_LVATIMER.
Proof. unfold mm_declare. by destruct (decide _). Qed.

Lemma mm_recv_cmd_db_spec buf len client s :
  mm_inv s -> (take 3 buf = bytes_of_string "M??" -> (length (mm_list (app s)) <= 44)%nat) ->
  wp (mm_recv_cmd_db buf len client) (fun _ s' => mm_inv s') s.
Proof.
  intros Hinv Hd. unfold mm_recv_cmd_db. apply wp_bind, draw_calm. intros s1 H1. pose proof (mm_inv_calm _ _ H1 Hinv) as Hinv1.
  apply wp_bind, wp_modify. set (s2 := mkMrp _ _ _).
  assert (mm_inv s2) as Hinv2 by (apply mm_inv_clients; [done|]; apply ports_add, Hinv1).
  assert (mm_list (app s2) = mm_list (app s)) as Hl by (destruct H1 as [_ Ha]; cbn; by rewrite Ha).
  destruct (len <? 3); [by apply wp_ret|]. destruct (negb _); [by apply wp_ret|].
  destruct (bool_decide (take (String.length "M??") buf = _)) eqn:E.
  { apply bool_decide_eq_true in E. apply wp_bind. eapply wp_mono; [apply mmrp_dumptable_spec; [done|rewrite Hl; by apply Hd]|].
    intros ? s3 H3. by apply wp_ret. }
  assert (forall e, e <> MRP_EVENT_LVATIMER ->
    wp (mm_command (mmrp_cmd_parse_service buf len) (fun v => mmrp_cmd_service v e) client) (fun _ s' => mm_inv s') s2) as Hs.
  { intros e He. apply (mm_command_spec (fun v => value_ok (SVCREQ v))); [done|apply parsed_service|].
    intros v s3 Hv H3. by apply (mm_request_spec (SVCREQ v)). }
  assert (forall e, e <> MRP_EVENT_LVATIMER ->
    wp (mm_command (mmrp_cmd_parse_mac buf len) (fun m => mmrp_cmd_mac m e) client) (fun _ s' => mm_inv s') s2) as Hm.
  { intros e He. apply (mm_command_spec (fun m => value_ok (MACVEC m))); [done|apply parsed_mac|].
    intros v s3 Hv H3. by apply (mm_request_spec (MACVEC v)). }
  pose proof (mm_declare_event buf). repeat (destruct (bool_decide _); cbn [orb]; [by auto|]). by apply mm_respond_spec.
Qed.

(** ** Reclaim *)
Lemma sorted_sublist_vlt l l' : l' `sublist_of` l -> StronglySorted vlt l -> StronglySorted vlt l'.
Proof.
  induction 1 as [|x l1 l2 Hs IH|x l1 l2 Hs IH]; intros H; [constructor|..];
    apply StronglySorted_inv in H as [H1 H2]; [|auto].
  constructor; [auto|]. rewrite list.Forall_forall in H2 |- *. intros y Hy. apply H2. by eapply elem_of_sublist.
Qed.

Lemma group_sublist t vs vs' : vs' `sublist_of` vs -> group t vs -> group t vs'.
Proof.
  intros Hs [H1 H2]. split; [|by eapply sorted_sublist_vlt]. rewrite list.Forall_forall in H1 |- *.
  intros v Hv. apply H1. by eapply elem_of_sublist.
Qed.

Lemma mm_list_ok_sublist l l' : l' `sublist_of` l -> mm_list_ok l -> mm_list_ok l'.
Proof.
  intros Hs [(t1 & t2 & vs1 & vs2 & E & Ht & H1 & H2) H3]. split.
  - assert (values l' `sublist_of` values l) as Hv by (by apply fmap_sublist). rewrite E in Hv.
    apply sublist_app_r in Hv as (ws1 & ws2 & -> & Hw1 & Hw2). exists t1, t2, ws1, ws2.
    split_and!; [done|done|by eapply group_sublist..].
  - rewrite list.Forall_forall in H3 |- *. intros a Ha. apply H3. by eapply elem_of_sublist.
Qed.

Lemma mm_reclaim_loop_spec before todo s :
  mm_inv s -> mm_list (app s) = before ++ todo ->
  wp (mm_reclaim_loop before todo) (fun _ s' => mm_inv s' /\
    mm_list (app s') = before ++ base.filter (fun a => mm_reclaimable a = false) todo) s.
Proof.
  revert before s. induction todo as [|a todo IH]; intros before s Hinv Hl; cbn [mm_reclaim_loop]; [by apply wp_ret|].
  rewrite list.filter_cons. destruct (mm_reclaimable a) eqn:E.
  - rewrite decide_False by done. apply wp_bind, wp_modify, wp_bind. set (s1 := mkMrp _ _ _).
    assert (mm_inv s1) as Hinv1.
    { destruct Hinv. split; try done. cbn. eapply mm_list_ok_sublist; [|exact mv_list]. rewrite Hl.
      apply sublist_app; [done|by constructor]. }
    eapply wp_mono; [apply mmrp_send_notifications_calm|]. intros ? s2 H2. apply IH; [exact (mm_inv_calm _ _ H2 Hinv1)|].
    by destruct H2 as [_ ->].
  - rewrite decide_True by done. eapply wp_mono; [apply IH; [done|by rewrite Hl, <- app_assoc]|]. intros ? s' [H1 H2]. split; [done|].
    by rewrite H2, <- app_assoc.
Qed.
End recv.
