(* ===== verification/MmrpProps.v ===== *)
(** * MmrpProps: what MMRP promises

    The properties of MMRP: the invariant of the daemon's life, the refinement of the
    registration table, safe reception, and three places where the encoders go wrong: the
    room for the empty LeaveAll, the vectors of service requirements, and the registrar
    consulted for the later addresses of a vector. *)
From stdpp Require Import base gmap list strings numbers sorting.
From S2P Require Import Prelude Text Parse Mrp MrpProps Mvrp MvrpWire Mmrp.
From S2P Require Import MrpWorld MvrpRecv MvrpEvent MvrpTable MmrpInv MmrpWire MmrpEvent MmrpRecv.
#[local] Open Scope Z_scope.
#[local] Open Scope st_scope.

(** ** The life of the daemon *)

(** What reaches MMRP from the loop in [process_events] and the control socket. *)
Inductive mmrp_input :=
  | mm_lva_timer
  | mm_lv_timer
  | mm_join_timer
  | mm_periodic_timer
  | mm_frame (frame : option (list Z))
  | mm_ctl (buf : list Z) (buflen : Z) (client : sockaddr_in)
  | mm_gc_timer
  | mm_leaving (client : sockaddr_in).

Section life.
Context `{env : MrpEnv} `{stk : MmrpStack}.

Definition mm_deliver (e : mrp_event) : stM MmrpGlobal Z := with_db (st_ret 0) (mmrp_event e None).

Definition mmrp_handle (i : mmrp_input) : stM MmrpGlobal Z :=
  match i with
  | mm_lva_timer => mm_deliver MRP_EVENT_LVATIMER
  | mm_lv_timer => mm_deliver MRP_EVENT_LVTIMER
  | mm_join_timer => mm_deliver MRP_EVENT_TX
  | mm_periodic_timer => mm_deliver MRP_EVENT_PERIODIC
  | mm_frame f => with_db (st_ret 0) (mmrp_recv_msg f)
  | mm_ctl buf len client => mmrp_recv_cmd buf len client
  | mm_gc_timer => mmrp_reclaim
  | mm_leaving client => mmrp_bye client ;! st_ret 0
  end.

(** The inputs the buffers are made for: frames of at most 1992 bytes, a leave-all timer
    with at most 219 attributes, a table dump with at most 44. *)
Definition mm_input_ok (i : mmrp_input) (g : MmrpGlobal) : Prop :=
  let size := match g with inl _ => 0%nat | inr s => length (mm_list (app s)) end in
  match i with
  | mm_frame (Some f) => Forall is_byte f /\ (length f <= 1992)%nat
  | mm_lva_timer => (size <= 219)%nat
  | mm_ctl buf _ _ => take 3 buf = bytes_of_string "M??" -> (size <= 44)%nat
  | _ => True
  end.

Inductive mm_reachable : MmrpGlobal -> Prop :=
  | mm_start i enable rc mem join lv lva ret g :
      length (STATION_ADDR i) = 6%nat -> mmrp_init enable rc mem join lv lva (inl i) = Done (ret, g) -> mm_reachable g
  | mm_continue g inp ret g' :
      mm_reachable g -> mm_input_ok inp g -> mmrp_handle inp g = Done (ret, g') -> mm_reachable g'.

Definition mm_global_inv (g : MmrpGlobal) : Prop := match g with inl _ => True | inr s => mm_inv s end.

Hypothesis Hrand : forall n, 0 <= mrp_random n.

Lemma mm_with_db_spec {A} (null : stM Io A) (m : stM MM A) g :
  mm_global_inv g -> (forall i, exists a i', null i = Done (a, i')) ->
  (forall s, g = inr s -> mm_inv s -> wp m (fun _ s' => mm_inv s') s) -> wp (with_db null m) (fun _ => mm_global_inv) g.
Proof.
  intros Hg Hn Hm. unfold wp, with_db. destruct g as [i|s].
  - by destruct (Hn i) as (a & i' & ->).
  - specialize (Hm s eq_refl Hg). unfold wp in Hm. by destruct (m s) as [[a s']|].
Qed.

Lemma mmrp_handle_spec i g :
  mm_global_inv g -> mm_input_ok i g -> wp (mmrp_handle i) (fun _ => mm_global_inv) g.
Proof.
  intros Hg Hi.
  assert (forall e, (forall s, g = inr s -> e = MRP_EVENT_LVATIMER -> (length (mm_list (app s)) <= 219)%nat) ->
    wp (mm_deliver e) (fun _ => mm_global_inv) g) as He.
  { intros e Hs. apply mm_with_db_spec; [done|by eauto|]. intros s Es Hinv.
    eapply wp_mono; [apply mmrp_event_spec; auto|]; [done|]. by intros ? s' (? & _). }
  destruct i; cbn [mmrp_handle]; try (apply He; intros s -> ?; first [exact Hi | discriminate]).
  - apply mm_with_db_spec; [done|by eauto|]. intros s _ Hs. apply mmrp_recv_msg_spec; [done|done|]. by intros b ->.
  - apply mm_with_db_spec; [done|unfold null_respond, st_bind; by eauto|]. intros s -> Hs. by apply mm_recv_cmd_db_spec.
  - apply mm_with_db_spec; [done|by eauto|]. intros s _ Hs. unfold mm_get_list. apply wp_bind, wp_bind, wp_get, wp_ret, wp_bind.
    eapply wp_mono; [by apply mm_reclaim_loop_spec|]. intros ? s' [? _]. by apply wp_ret.
  - apply wp_bind. eapply wp_mono; [apply mm_with_db_spec; [done|by eauto|]|].
    + intros s _ Hs. apply wp_modify, mm_inv_clients; [done|]. apply ports_delete, Hs.
    + intros ? s' Hs. by apply wp_ret.
Qed.

Lemma mmrp_init_inv i enable rc mem join lv lva ret g :
  length (STATION_ADDR i) = 6%nat -> mmrp_init enable rc mem join lv lva (inl i) = Done (ret, g) -> mm_global_inv g.
Proof.
  intros Hs. unfold mmrp_init. destruct enable, (rc <? 0), mem; cbn [negb]; try (by intros [= <- <-]).
  unfold mrpd_init_timers. destruct (_ || _); [by intros [= <- <-]|]. set (s0 := mkMrp _ _ _).
  destruct (wp_done _ _ _ (mrp_lvatimer_fsm_spec MRP_EVENT_BEGIN s0 Hrand)) as (r & s & E & _ & [] & _).
  rewrite E. intros [= <- <-]. cbn. split; rewrite ?ls_app, ?ls_clients, ?ls_station; try done; [|constructor].
  split; [|constructor]. exists MMRP_SVCREQ_TYPE, MMRP_MACVEC_TYPE, [], []. split_and!; auto; by repeat constructor.
Qed.

Lemma mm_reachable_inv g : mm_reachable g -> mm_global_inv g.
Proof.
  induction 1 as [i enable rc mem join lv lva ret g Hs E|g inp ret g' _ IH Hi E].
  - exact (mmrp_init_inv _ _ _ _ _ _ _ _ _ Hs E).
  - pose proof (mmrp_handle_spec inp g IH Hi) as Hw. unfold wp in Hw. by rewrite E in Hw.
Qed.
End life.

(** C24. The life of the MMRP daemon: in every state reached from start-up by timer
    expiries, frames, client commands, garbage collection and departing clients, the
    attributes are grouped by type and strictly sorted within each group (so each value is
    there at most once), the flag of the empty LeaveAll is off between events and no two
    clients share a port; and every further input the buffers are made for is processed
    to the end without a fault. *)
Theorem mmrp_reachable_invariant (env : MrpEnv) (stk : MmrpStack) g :
  (forall n, 0 <= mrp_random n) -> mm_reachable g ->
  match g with
  | inl _ => True
  | inr s => grouped (values (mm_list (app s))) /\ NoDup (values (mm_list (app s))) /\ mm_flag (app s) = false /\
      NoDup (ports (clients (mdb s)))
  end /\
  forall i, mm_input_ok i g -> exists ret g', mmrp_handle i g = Done (ret, g').
Proof.
  intros Hrand Hg. pose proof (mm_reachable_inv Hrand g Hg) as Hinv. split.
  - destruct g as [|s]; [done|]. pose proof (mm_nodup _ (mv_list _ Hinv)) as Hn. destruct Hinv as [[] ? ? ?]. done.
  - intros i Hi. destruct (wp_done _ _ _ (mmrp_handle_spec Hrand i g Hinv Hi)) as (ret & g' & E & _). eauto.
Qed.

(** C16. MMRP implements its registration table: an event changes the finite map from
    values to applicant and registrar states exactly as the state tables say, one entry
    for an attribute event (new ones start unregistered, rMt! creates none), every entry
    for the timers, every entry of the type for a received LeaveAll; list order, frames,
    memory and clients do not matter, and the invariant is kept.  The leave-all timer is
    covered for tables of at most 219 attributes: with more the encoder can leave the frame
    buffer. *)
Theorem mmrp_event_refines (env : MrpEnv) (stk : MmrpStack) e (rattrib : option (mmrp_value * list Z)) (s : MM) :
  (forall n, 0 <= mrp_random n) -> mm_inv s ->
  (forall v mac, rattrib = Some (v, mac) -> value_ok v /\ length mac = 6%nat) ->
  (e = MRP_EVENT_LVATIMER -> (length (mm_list (app s)) <= 219)%nat) ->
  exists rc s', mmrp_event e ((fun x => mmrp_alloc (fst x) (snd x)) <$> rattrib) s = Done (rc, s') /\ mm_inv s' /\
    p2pmac (io s') = p2pmac (io s) /\
    mm_table (mm_list (app s')) = mm_table_step (p2pmac (io s)) e (fst <$> rattrib) (mm_table (mm_list (app s))).
Proof.
  intros Hrand Hinv Hr Hlen.
  assert (forall r, (fun x => mmrp_alloc (fst x) (snd x)) <$> rattrib = Some r -> mm_fresh r) as Hf.
  { intros r Er. destruct rattrib as [[v mac]|]; simplify_eq/=. destruct (Hr v mac eq_refl). by apply mm_fresh_alloc. }
  destruct (wp_done _ _ _ (mmrp_event_spec Hrand e _ s Hinv Hlen Hf)) as (rc & s' & E & H1 & [] & H2).
  exists rc, s'. split_and!; [done|done|done|]. rewrite H2. by destruct rattrib as [[v mac]|].
Qed.

(** Any frame is safe: whatever bytes arrive, up to 1992 of them, and whatever memory
    allocations fail on the way, [mmrp_recv_msg] comes to its end: its three nested loops
    stop, no read leaves the receive buffer, and the invariant is kept. *)
Theorem mmrp_recv_safe (env : MrpEnv) (stk : MmrpStack) frame (s : MM) :
  (forall n, 0 <= mrp_random n) -> mm_inv s -> Forall is_byte frame -> (length frame <= 1992)%nat ->
  exists rc s', mmrp_recv_msg (Some frame) s = Done (rc, s') /\ mm_inv s'.
Proof.
  intros Hrand Hinv Hb Hl. apply wp_done. apply mmrp_recv_msg_spec; [done|done|]. by intros b [= <-].
Qed.
