(* ===== verification/MmrpFaults.v ===== *)
(** * MmrpFaults: where the MMRP encoders go wrong

    Three concrete runs, in a system where every call succeeds: the leave-all timer with
    a table that fills the frame to its last bytes, the declaration of a service
    requirement, and the declaration of two consecutive addresses of which only the first
    is registered. *)
From stdpp Require Import base gmap list strings numbers sorting.
From S2P Require Import Prelude Text Parse Mrp MrpProps MrpExamples Mvrp MvrpWire.
From S2P Require Import Mmrp MvrpTable MmrpInv MmrpWire MmrpEvent MmrpRecv MmrpProps.
#[local] Open Scope Z_scope.

(** An attribute with these states, registered by nobody in particular. *)
Definition in_states (v : mmrp_value) (x : applicant_state) (r : registrar_state) : mmrp_attribute :=
  mkMmrp v (mkApplicant x false MRP_SND_NULL MRP_ENCODE_YES None) (mkRegistrar r MRP_NOTIFY_NONE (replicate 6 0)).

Definition mm_station (l : list mmrp_attribute) : MM := mkMrp idle_db (mkMmrpDb l false) idle_io.

Definition zero_stack : MmrpStack := {| vectevt_junk := fun _ => (0, 0, 0) |}.
#[local] Existing Instance zero_stack.

(** ** Checking lists by computation *)
Fixpoint sorted_b (vs : list mmrp_value) : bool :=
  match vs with [] => true | v :: vs' => forallb (mm_less v) vs' && sorted_b vs' end.

Lemma sorted_b_ok vs : sorted_b vs = true -> StronglySorted vlt vs.
Proof.
  induction vs as [|v vs IH]; cbn [sorted_b]; [constructor|]. rewrite andb_true_iff, forallb_forall. intros [H1 H2].
  constructor; [auto|]. apply list.Forall_forall. intros x Hx. apply H1. by apply list_elem_of_In.
Qed.

Definition value_b (v : mmrp_value) : bool :=
  match v with
  | SVCREQ x => (0 <=? x) && (x <? 256)
  | MACVEC m => (length m =? 6)%nat && forallb (fun b => (0 <=? b) && (b <? 256)) m
  end.

Lemma value_b_ok v : value_b v = true -> value_ok v.
Proof.
  destruct v as [x|m]; simpl; [lia|]. rewrite andb_true_iff, Nat.eqb_eq, forallb_forall. intros [H1 H2]. split; [done|].
  apply list.Forall_forall. intros b Hb%list_elem_of_In%H2. unfold is_byte. lia.
Qed.

(** A station all of whose attributes are addresses. *)
Lemma mm_station_inv l :
  forallb (fun a => value_b (mm_value a) && (vtype a =? MMRP_MACVEC_TYPE) && (length (macaddr (mm_registrar a)) =? 6)%nat) l = true ->
  sorted_b (values l) = true -> mm_inv (mm_station l).
Proof.
  intros H Hs. rewrite forallb_forall in H.
  assert (forall a, a ∈ l -> mm_attr_ok a /\ vtype a = MMRP_MACVEC_TYPE) as Ha.
  { intros a Ha%list_elem_of_In%H. rewrite !andb_true_iff, Z.eqb_eq, Nat.eqb_eq in Ha. destruct Ha as [[H1 H2] H3].
    split; [split; [by apply value_b_ok|done]|done]. }
  split; cbn; [|done|apply NoDup_singleton|done]. split.
  - exists MMRP_SVCREQ_TYPE, MMRP_MACVEC_TYPE, [], (values l). split_and!; [done|auto|split; constructor|].
    split; [|by apply sorted_b_ok]. apply Forall_fmap, list.Forall_forall. intros a Hin. by apply Ha.
  - apply list.Forall_forall. intros a Hin. by apply Ha.
Qed.

(** ** The empty LeaveAll in a full frame *)

(** 219 vectors of addresses: four of them of four addresses each, which take ten bytes,
    the others of one address, which take nine: the message ends at byte 1994. *)
Definition full_addresses : list (list Z) :=
  concat ((fun k : nat => (fun i : nat => [1; 0; 94; 0; Z.of_nat k; Z.of_nat i]) <$> seq 0 (if (k <? 4)%nat then 4 else 1)) <$> seq 0 219).

Definition full_station : MM :=
  mm_station ((fun m => in_states (MACVEC m) MRP_QA_STATE MRP_IN_STATE) <$> full_addresses).

(** C25. The leave-all timer writes past the frame: [mmrp_emit_svcvectors] checks for six
    bytes and its empty LeaveAll with the end mark takes seven.  With at most 219
    attributes the event always succeeds; but there is a well-formed table of 231
    registered addresses for which [mmrp_txpdu] writes one byte past the end of its
    2000-byte buffer. *)
Theorem mmrp_leaveall_overflow :
  (forall (env : MrpEnv) (stk : MmrpStack) (s : MM), (forall n, 0 <= mrp_random n) -> mm_inv s ->
     (length (mm_list (app s)) <= 219)%nat -> exists rc s', mmrp_event MRP_EVENT_LVATIMER None s = Done (rc, s')) /\
  mm_inv full_station /\ length (mm_list (app full_station)) = 231%nat /\
  mmrp_event MRP_EVENT_LVATIMER None full_station = Fault OutOfBounds.
Proof.
  split; [|split; [|split; vm_compute; reflexivity]].
  - intros env stk s Hrand Hinv Hlen.
    destruct (wp_done _ _ _ (mmrp_event_spec Hrand MRP_EVENT_LVATIMER None s Hinv ltac:(done) ltac:(done))) as (rc & s' & E & _). eauto.
  - apply mm_station_inv; vm_compute; reflexivity.
Qed.

(** ** What a receiver makes of a declaration *)

(** The sender's join timer expires, and the receiver gets the frame. *)
Definition transfer (sender receiver : MM) : outcome (Z * MM) :=
  '(_, s) ← mmrp_event MRP_EVENT_TX None sender; mmrp_recv_msg (last (frames (io s))) receiver.

(** The entries of a station's table. *)
Definition entries (s : MM) : list (mmrp_value * vlan) := (fun a => (mm_value a, mm_states a)) <$> mm_list (app s).

(** A station with one declaration in force, registered by a peer as well. *)
Definition declaring (v : mmrp_value) : MM := mm_station [in_states v MRP_AA_STATE MRP_IN_STATE].

Definition a_group : list Z := [1; 0; 94; 0; 0; 1].
Definition next_group : list Z := [1; 0; 94; 0; 0; 2].

(** Declarations of service requirements do not survive the wire: the encoder puts
    the events at byte 2 of the vector and the decoder reads them at byte 1.  A JoinIn for
    an address is registered (IN) by the receiver, which accepts the frame; the same
    JoinIn for either service requirement is taken for a New, the byte left over for the
    header of a LeaveAll vector, and the receiver ends with the registration leaving and
    gives up the frame. *)
Theorem mmrp_service_misread x :
  x = 0 \/ x = 1 ->
  (exists r, transfer (declaring (MACVEC a_group)) (mm_station []) = Done (0, r) /\
     entries r = [(MACVEC a_group, (MRP_VO_STATE, MRP_IN_STATE))]) /\
  (exists r, transfer (declaring (SVCREQ x)) (mm_station []) = Done (-1, r) /\
     entries r = [(SVCREQ x, (MRP_LO_STATE, MRP_LV_STATE))]).
Proof.
  intros Hx. split; [eexists; split; vm_compute; reflexivity|].
  destruct Hx as [-> | ->]; eexists; split; vm_compute; reflexivity.
Qed.

(** A peer that declares the second address and believes it registered. *)
Definition listening : MM := mm_station [in_states (MACVEC next_group) MRP_QA_STATE MRP_IN_STATE].

(** Only the first address of a vector gets its own Join: for the others
    [mmrp_emit_macvectors] consults the registrar of the first.  A station whose second
    address is not registered (MT) sends JoinMt for it when it is alone in the vector, and
    a quiet peer that declares it becomes active again (AA) to repeat its declaration; but
    behind a registered first address it sends JoinIn, and the peer stays quiet (QA). *)
Theorem mmrp_join_first_registrar :
  (exists r, transfer (mm_station [in_states (MACVEC next_group) MRP_AA_STATE MRP_MT_STATE]) listening = Done (0, r) /\
     entries r = [(MACVEC next_group, (MRP_AA_STATE, MRP_IN_STATE))]) /\
  (exists r, transfer (mm_station [in_states (MACVEC a_group) MRP_AA_STATE MRP_IN_STATE;
                                   in_states (MACVEC next_group) MRP_AA_STATE MRP_MT_STATE]) listening = Done (0, r) /\
     (MACVEC next_group, (MRP_QA_STATE, MRP_IN_STATE)) ∈ entries r).
Proof.
  split; eexists; (split; [vm_compute; reflexivity|]); [vm_compute; reflexivity|]. apply list_elem_of_In. vm_compute. auto.
Qed.

(** ** A station that declares one group address

    Instances of the theorems of [MmrpProps]. *)
#[local] Existing Instance zero_stack.

Definition one_group : MM := declaring (MACVEC a_group).

Lemma one_group_inv : mm_inv one_group.
Proof. apply mm_station_inv; vm_compute; reflexivity. Qed.

(** The daemon right after start-up. *)
Definition started : MmrpGlobal :=
  match mmrp_init true 0 true 10 11 12 (inl idle_io) with Done (_, g) => g | Fault _ => inl idle_io end.

Lemma mmrp_reachable_invariant_witness :
  exists ret g', mmrp_handle (mm_frame (Some a_group)) started = Done (ret, g').
Proof.
  destruct (mmrp_reachable_invariant calm_env zero_stack started calm_random) as [_ H].
  - eapply (mm_start idle_io true 0 true 10 11 12); [reflexivity|]. vm_compute. reflexivity.
  - apply H. split; [|vm_compute; lia]. repeat constructor; vm_compute; congruence.
Defined.

Lemma mmrp_event_refines_witness :
  exists rc s', mmrp_event MRP_EVENT_RJOININ (Some (mmrp_alloc (MACVEC next_group) a_group)) one_group = Done (rc, s') /\
    mm_table (mm_list (app s')) !! MACVEC next_group = Some (MRP_VO_STATE, MRP_IN_STATE).
Proof.
  destruct (mmrp_event_refines calm_env zero_stack MRP_EVENT_RJOININ (Some (MACVEC next_group, a_group)) one_group
    calm_random one_group_inv) as (rc & s' & E & _ & _ & H).
  - intros v mac [= <- <-]. split; [|reflexivity]. split; [reflexivity|]. repeat constructor; vm_compute; congruence.
  - discriminate.
  - exists rc, s'. split; [exact E|]. rewrite H. vm_compute. reflexivity.
Defined.

Lemma mmrp_recv_safe_witness :
  exists rc s', mmrp_recv_msg (Some (a_group ++ next_group)) one_group = Done (rc, s').
Proof.
  destruct (mmrp_recv_safe calm_env zero_stack (a_group ++ next_group) one_group calm_random one_group_inv) as (rc & s' & E & _).
  - repeat constructor; vm_compute; congruence.
  - vm_compute. lia.
  - exists rc, s'. exact E.
Defined.

Lemma mmrp_service_misread_witness :
  exists r, transfer (declaring (SVCREQ 1)) (mm_station []) = Done (-1, r) /\
    entries r = [(SVCREQ 1, (MRP_LO_STATE, MRP_LV_STATE))].
Proof. exact (proj2 (mmrp_service_misread 1 (or_intror eq_refl))). Defined.
