(* ===== verification/Eui64set.v ===== *)
(** * Eui64set: the sorted set of stream identifiers

    Model of [daemons/common/eui64set.c]: a bounded array of 64-bit identifiers with a
    pointer each, kept sorted by [qsort] and searched by [bsearch].  The two library
    functions are parameters with what the C standard says of them: [qsort] sorts by the
    comparison function and leaves the order of equal elements open, [bsearch] finds some
    matching element of a sorted array.  A pointer is a number, 0 being NULL. *)
From stdpp Require Import base gmap list sorting numbers.
From S2P Require Import Prelude.
#[local] Open Scope Z_scope.

Record eui64set_entry := mkEntry { eui64 : Z; p : Z }.

#[global] Instance eui64set_entry_eq_dec : EqDecision eui64set_entry.
Proof. solve_decision. Defined.

(** [storage] is [None] for a NULL pointer, else all [max_entries] elements. *)
Record eui64set := mkSet { storage : option (list eui64set_entry); num_entries : Z; max_entries : Z }.

(** ** Network order *)
Definition eui64_read (buf : list Z) : Z :=
  match buf with
  | [b0; b1; b2; b3; b4; b5; b6; b7] =>
      u64 (Z.shiftl b0 56 + Z.shiftl b1 48 + Z.shiftl b2 40 + Z.shiftl b3 32 +
           Z.shiftl b4 24 + Z.shiftl b5 16 + Z.shiftl b6 8 + Z.shiftl b7 0)
  | _ => 0
  end.

Definition eui64_write (v : Z) : list Z :=
  (fun n => u8 (Z.land (Z.shiftr v n) 0xff)) <$> [56; 48; 40; 32; 24; 16; 8; 0].

(** ** Operations *)
Definition eui64set_compare (lhs rhs : eui64set_entry) : Z :=
  if eui64 lhs <? eui64 rhs then -1 else if eui64 rhs <? eui64 lhs then 1 else 0.

Class CLib := {
  qsort : (eui64set_entry -> eui64set_entry -> Z) -> list eui64set_entry -> list eui64set_entry;
  bsearch : (eui64set_entry -> eui64set_entry -> Z) -> eui64set_entry -> list eui64set_entry -> option nat }.

(** [calloc_ok] is whether the allocation succeeds. *)
Definition eui64set_init (max : Z) (calloc_ok : bool) : Z * eui64set :=
  if 0 <? max then
    if calloc_ok then (0, mkSet (Some (replicate (Z.to_nat max) (mkEntry 0 0))) 0 max)
    else (-1, mkSet None 0 max)
  else (0, mkSet None 0 max).

(** The block that is released; the fields keep their values. *)
Definition eui64set_free (self : option eui64set) : option (list eui64set_entry) := self ≫= storage.

Definition eui64set_clear (self : eui64set) : eui64set := mkSet (storage self) 0 (max_entries self).

Definition eui64set_num_entries (self : eui64set) : Z := num_entries self.

Definition eui64set_is_full (self : eui64set) : bool := max_entries self <=? num_entries self.

(** [storage[i] = e]. *)
Definition store (self : eui64set) (i : Z) (e : eui64set_entry) : outcome (option (list eui64set_entry)) :=
  match storage self with
  | None => Fault NullDeref
  | Some l => if (0 <=? i) && (i <? Z.of_nat (length l)) then Done (Some (<[Z.to_nat i := e]> l)) else Fault OutOfBounds
  end.

Definition eui64set_insert (self : eui64set) (value ptr : Z) : outcome (Z * eui64set) :=
  if num_entries self <? max_entries self then
    l ← store self (num_entries self) (mkEntry value ptr);
    Done (1, mkSet l (num_entries self + 1) (max_entries self))
  else Done (0, self).

(** The entries in use, as the array the library functions get. *)
Definition used (self : eui64set) : list eui64set_entry :=
  take (Z.to_nat (num_entries self)) (default [] (storage self)).

Section Ops.
Context `{CLib}.

Definition eui64set_sort (self : eui64set) : eui64set :=
  mkSet ((fun l => qsort eui64set_compare (used self) ++ drop (Z.to_nat (num_entries self)) l) <$> storage self)
    (num_entries self) (max_entries self).

Definition eui64set_insert_and_sort (self : eui64set) (value ptr : Z) : outcome (Z * eui64set) :=
  '(r, self') ← eui64set_insert self value ptr;
  Done (r, if 1 =? r then eui64set_sort self' else self').

Definition eui64set_find (self : eui64set) (value : Z) : option eui64set_entry :=
  i ← bsearch eui64set_compare (mkEntry value 0) (used self); used self !! i.

(** The result, the set, and the pointer that is freed. *)
Definition eui64set_remove_and_sort (self : eui64set) (value : Z) : outcome (Z * eui64set * option Z) :=
  match bsearch eui64set_compare (mkEntry value 0) (used self) with
  | None => Done (0, self, None)
  | Some i =>
      item ← or_fault OutOfBounds (used self !! i);
      l ← store self (Z.of_nat i) (mkEntry (2 ^ 64 - 1) (p item));
      let self' := eui64set_sort (mkSet l (num_entries self) (max_entries self)) in
      Done (1, mkSet (storage self') (num_entries self' - 1) (max_entries self'),
            if p item =? 0 then None else Some (p item))
  end.

End Ops.

(** ** What the C standard says of the library functions *)
Definition le_key (x y : eui64set_entry) : Prop := eui64 x <= eui64 y.

Class CLibLaws `(lib : CLib) : Prop := {
  qsort_perm l : qsort eui64set_compare l ≡ₚ l;
  qsort_sorted l : StronglySorted le_key (qsort eui64set_compare l);
  bsearch_some l key i : StronglySorted le_key l -> bsearch eui64set_compare key l = Some i ->
    exists e, l !! i = Some e /\ eui64set_compare key e = 0;
  bsearch_none l key e : StronglySorted le_key l -> bsearch eui64set_compare key l = None -> e ∈ l ->
    eui64set_compare key e <> 0 }.

Lemma compare_zero v e : eui64set_compare (mkEntry v 0) e = 0 <-> eui64 e = v.
Proof. unfold eui64set_compare. cbn. destruct (Z.ltb_spec v (eui64 e)), (Z.ltb_spec (eui64 e) v); lia. Qed.

(** ** The set as a finite map *)
Definition keys (l : list eui64set_entry) : list Z := eui64 <$> l.
Definition to_map (l : list eui64set_entry) : gmap Z Z := list_to_map ((fun e => (eui64 e, p e)) <$> l).

(** The array has room for its entries. *)
Record shape (self : eui64set) : Prop := mkShape {
  sh_storage : match storage self with Some l => Z.of_nat (length l) = max_entries self | None => max_entries self <= 0 end;
  sh_num : 0 <= num_entries self <= Z.max 0 (max_entries self) }.

(** The set holds the map [m]: sorted, without duplicates. *)
Record holds (self : eui64set) (m : gmap Z Z) : Prop := mkHolds {
  ho_shape : shape self;
  ho_sorted : StronglySorted le_key (used self);
  ho_nodup : NoDup (keys (used self));
  ho_range : Forall (fun k => 0 <= k < 2 ^ 64) (keys (used self));
  ho_map : to_map (used self) = m }.

Lemma to_map_keys l : ((fun e => (eui64 e, p e)) <$> l).*1 = keys l.
Proof. unfold keys. by rewrite <- list_fmap_compose. Qed.

Lemma to_map_cons e l : to_map (e :: l) = <[eui64 e := p e]> (to_map l).
Proof. done. Qed.

Lemma to_map_perm l l' : l ≡ₚ l' -> NoDup (keys l) -> to_map l = to_map l'.
Proof. intros Hp Hn. apply list_to_map_proper; [by rewrite to_map_keys|by apply fmap_Permutation]. Qed.

Lemma to_map_none l v : to_map l !! v = None <-> v ∉ keys l.
Proof.
  unfold to_map. rewrite <- to_map_keys. split; [apply not_elem_of_list_to_map_2|apply not_elem_of_list_to_map_1].
Qed.

Lemma to_map_elem l e : NoDup (keys l) -> e ∈ l -> to_map l !! eui64 e = Some (p e).
Proof.
  intros Hn He. apply elem_of_list_to_map_1; [by rewrite to_map_keys|]. by apply (list_elem_of_fmap_2 (fun e => (eui64 e, p e))).
Qed.

Lemma size_to_map l : NoDup (keys l) -> size (to_map l) = length l.
Proof.
  induction l as [|e l IH]; [done|]. unfold keys. rewrite fmap_cons. intros [H1 H2]%list.NoDup_cons.
  rewrite to_map_cons, map_size_insert_None by (by apply to_map_none). cbn [length]. by rewrite IH.
Qed.

(** Properties that do not depend on the order of the entries. *)
Lemma perm_ok l l' m :
  l' ≡ₚ l -> NoDup (keys l) -> Forall (fun k => 0 <= k < 2 ^ 64) (keys l) -> to_map l = m ->
  NoDup (keys l') /\ Forall (fun k => 0 <= k < 2 ^ 64) (keys l') /\ to_map l' = m.
Proof.
  intros Hp H1 H2 H3. assert (keys l' ≡ₚ keys l) as Hk by (by apply fmap_Permutation). split_and!; [by rewrite Hk..|].
  rewrite <- H3. apply to_map_perm; [done|]. by rewrite Hk.
Qed.

Lemma length_used self : shape self -> Z.of_nat (length (used self)) = num_entries self.
Proof.
  intros [H1 H2]. unfold used. destruct (storage self) as [l|]; cbn [default]; rewrite length_take; simpl; lia.
Qed.

(** An entry that is larger than all different ones ends up last. *)
Lemma sorted_last (s r : list eui64set_entry) x :
  StronglySorted le_key s -> s ≡ₚ x :: r -> (forall y, y ∈ r -> eui64 y < eui64 x \/ y = x) ->
  take (length r) s ≡ₚ r /\ StronglySorted le_key (take (length r) s).
Proof.
  intros Hs Hp Hx. destruct s as [|y s' _] using rev_ind; [by apply Permutation_nil_cons in Hp|].
  apply StronglySorted_app_iff in Hs as (Hs1 & _ & Hs2).
  assert (length s' = length r) as Hl by (apply Permutation_length in Hp; rewrite length_app in Hp; simpl in Hp; lia).
  assert (y = x) as ->.
  { assert (y ∈ x :: r) as Hy by (rewrite <- Hp; apply elem_of_app; right; by left). apply elem_of_cons in Hy as [->|Hy]; [done|].
    assert (x ∈ s' ++ [y]) as Hin by (rewrite Hp; by left). apply elem_of_app in Hin as [Hin|Hin].
    - specialize (Hs2 x y Hin ltac:(by left)). unfold le_key in Hs2. destruct (Hx y Hy) as [?|?]; [lia|done].
    - by apply list_elem_of_singleton in Hin. }
  rewrite <- Hl, take_app_length. split; [|done]. apply (Permutation_cons_inv (a := x)). rewrite <- Hp.
  apply Permutation_cons_append.
Qed.

Section refinement.
Context `{lib : CLib} `{!CLibLaws lib}.
Implicit Types self : eui64set.

Lemma sort_spec self :
  shape self -> shape (eui64set_sort self) /\ used (eui64set_sort self) ≡ₚ used self /\
  StronglySorted le_key (used (eui64set_sort self)) /\ num_entries (eui64set_sort self) = num_entries self /\
  max_entries (eui64set_sort self) = max_entries self.
Proof.
  intros Hsh. pose proof (length_used self Hsh) as Hl. destruct (Hsh) as [H1 H2].
  pose proof (qsort_perm (used self)) as Hp. pose proof (qsort_sorted (used self)) as Hs.
  pose proof (Permutation_length Hp) as Hpl.
  assert (used (eui64set_sort self) = qsort eui64set_compare (used self)) as E.
  { unfold used at 1, eui64set_sort. cbn. destruct (storage self) as [l|] eqn:El; cbn.
    - rewrite take_app_le by lia. apply take_ge. lia.
    - rewrite take_nil. symmetry. apply nil_length_inv. rewrite Hpl. unfold used. rewrite El. cbn. by rewrite take_nil. }
  rewrite E. split_and!; try done. split; [|done]. cbn. destruct (storage self) as [l|]; cbn; [|done].
  rewrite length_app, length_drop. lia.
Qed.

Lemma find_spec self m v : holds self m -> p <$> eui64set_find self v = m !! v.
Proof.
  intros [_ Hs Hn _ <-]. unfold eui64set_find. destruct (bsearch _ _ (used self)) as [i|] eqn:E; cbn.
  - destruct (bsearch_some _ _ _ Hs E) as (e & He & <-%compare_zero). rewrite He. cbn. symmetry. apply to_map_elem; [done|].
    by eapply list_elem_of_lookup_2.
  - symmetry. apply to_map_none. intros (e & -> & He)%list_elem_of_fmap. by apply (bsearch_none _ _ e Hs E), compare_zero.
Qed.

Lemma insert_spec self m v ptr :
  holds self m -> 0 <= v < 2 ^ 64 -> m !! v = None ->
  exists r self', eui64set_insert_and_sort self v ptr = Done (r, self') /\
    if eui64set_is_full self then r = 0 /\ self' = self else r = 1 /\ holds self' (<[v := ptr]> m).
Proof.
  intros [Hsh Hs Hn Hr Hm] Hv Hnone. pose proof (length_used self Hsh) as Hl. destruct (Hsh) as [H1 H2].
  unfold eui64set_insert_and_sort, eui64set_insert, eui64set_is_full.
  destruct (Z.ltb_spec (num_entries self) (max_entries self)) as [Hlt|Hge]; destruct (Z.leb_spec (max_entries self) (num_entries self)); try lia;
    [|obind; by eexists _, _].
  unfold store. destruct (storage self) as [l|] eqn:El; [|lia].
  destruct (Z.leb_spec 0 (num_entries self)); [|lia]. destruct (Z.ltb_spec (num_entries self) (Z.of_nat (length l))); [|lia].
  cbn [andb]. obind. change (1 =? 1) with true. cbv iota. eexists _, _. split; [done|]. split; [done|].
  set (self1 := mkSet _ _ _). assert (shape self1) as Hsh1 by (split; cbn; [by rewrite length_insert|lia]).
  assert (used self1 ≡ₚ mkEntry v ptr :: used self) as Hp.
  { unfold used. cbn. rewrite El. cbn. replace (Z.to_nat (num_entries self + 1)) with (S (Z.to_nat (num_entries self))) by lia.
    rewrite (take_S_r _ _ (mkEntry v ptr)) by (apply list_lookup_insert_eq; lia). rewrite take_insert_ge by lia.
    symmetry. apply Permutation_cons_append. }
  destruct (sort_spec self1 Hsh1) as (G1 & G2 & G3 & _). rewrite Hp in G2. rewrite <- Hm in Hnone. apply to_map_none in Hnone.
  destruct (perm_ok _ _ (<[v := ptr]> m) G2) as (G4 & G5 & G6); [by constructor|by constructor|by rewrite to_map_cons, Hm|]. by split.
Qed.

Lemma remove_spec self m v :
  holds self m -> (is_Some (m !! v) -> v = 2 ^ 64 - 1 \/ m !! (2 ^ 64 - 1) = None \/ m !! (2 ^ 64 - 1) = m !! v) ->
  exists r self' freed, eui64set_remove_and_sort self v = Done (r, self', freed) /\
    match m !! v with
    | None => r = 0 /\ self' = self /\ freed = None
    | Some q => r = 1 /\ holds self' (delete v m) /\ freed = if q =? 0 then None else Some q
    end.
Proof.
  intros Hh Hmax. pose proof (find_spec self m v Hh) as Hf. destruct (Hh) as [Hsh Hs Hn Hr Hm]. unfold eui64set_find in Hf.
  pose proof (length_used self Hsh) as Hl. destruct (Hsh) as [H1 H2]. unfold eui64set_remove_and_sort.
  destruct (bsearch _ _ (used self)) as [i|] eqn:E; cbn [mbind option_bind] in Hf; [|eexists _, _, _; split; [done|]; by rewrite <- Hf].
  destruct (bsearch_some _ _ _ Hs E) as (e & He & Hev%compare_zero). rewrite He in Hf |- *. cbn in Hf. rewrite <- Hf. cbn [or_fault]. obind.
  assert (v = 2 ^ 64 - 1 \/ m !! (2 ^ 64 - 1) = None \/ m !! (2 ^ 64 - 1) = m !! v) as Hmax' by (apply Hmax; by rewrite <- Hf). clear Hmax.
  pose proof (lookup_lt_Some _ _ _ He) as Hi. unfold store. destruct (storage self) as [l|] eqn:El; [|unfold used in Hi; rewrite El in Hi; cbn in Hi; rewrite take_nil in Hi; simpl in Hi; lia].
  destruct (Z.leb_spec 0 (Z.of_nat i)); [|lia]. destruct (Z.ltb_spec (Z.of_nat i) (Z.of_nat (length l))); [|lia]. cbn [andb]. obind.
  set (x := mkEntry (2 ^ 64 - 1) (p e)). cbv zeta.
  set (self1 := mkSet (Some _) (num_entries self) (max_entries self)).
  assert (shape self1) as Hsh1 by (split; cbn; [by rewrite length_insert|lia]).
  set (r := take i (used self) ++ drop (S i) (used self)).
  assert (used self ≡ₚ e :: r) as Hp1 by (rewrite <- (take_drop_middle _ _ _ He) at 1; symmetry; apply Permutation_middle).
  assert (used self1 ≡ₚ x :: r) as Hp2.
  { unfold used, self1. cbn. rewrite Nat2Z.id, take_insert_lt by lia. change (take (Z.to_nat (num_entries self)) l) with (take (Z.to_nat (num_entries self)) (default [] (Some l))).
    rewrite <- El. fold (used self). rewrite insert_take_drop by done. symmetry. apply Permutation_middle. }
  destruct (sort_spec self1 Hsh1) as (G5 & G6 & G7 & G8 & G9). rewrite Hp2 in G6.
  assert (keys (used self) ≡ₚ eui64 e :: keys r) as Hk by exact (fmap_Permutation eui64 _ _ Hp1).
  pose proof Hn as Hn'. assert (v ∉ keys r /\ NoDup (keys r)) as [Hvr Hnr].
  { rewrite Hk in Hn'. apply list.NoDup_cons in Hn'. by rewrite Hev in Hn'. }
  assert (Forall (fun k => 0 <= k < 2 ^ 64) (keys r)) as Hrr.
  { rewrite Hk in Hr.
    by apply Forall_cons_iff in Hr as [_ ?]. }
  assert (to_map r = delete v m) as Hmr.
  { rewrite <- Hm, (to_map_perm _ _ Hp1 Hn), to_map_cons, Hev, delete_insert_id; [done|]. by apply to_map_none. }
  destruct (sorted_last (used (eui64set_sort self1)) r x G7 G6) as [G10 G11].
  { intros y Hy. assert (eui64 y ∈ keys r) as Hky by (by apply list_elem_of_fmap_2). rewrite list.Forall_forall in Hrr.
    specialize (Hrr _ Hky). cbn. destruct (decide (eui64 y = 2 ^ 64 - 1)) as [Ey|]; [right|left; lia]. rewrite Ey in Hky.
    assert (y ∈ used self) as Hyu by (rewrite Hp1; by right). destruct Hmax' as [-> | [Hmax|Hmax]]; [done| |].
    - rewrite <- Hm in Hmax. apply to_map_none in Hmax. destruct Hmax. rewrite Hk. by right.
    - rewrite <- Hf, <- Hm, <- Ey, (to_map_elem _ y Hn Hyu) in Hmax. destruct y as [ey py]. cbn in *. subst x. by simplify_eq. }
  eexists _, _, _. split; [done|]. split; [done|]. split; [|done].
  set (self2 := mkSet _ _ _). assert (used self2 = take (length r) (used (eui64set_sort self1))) as Eu.
  { unfold used. cbn [num_entries storage self2]. rewrite take_take. f_equal.
    pose proof (Permutation_length Hp1) as Hlen. cbn [length] in Hlen. rewrite G8. cbn. lia. }
  destruct (perm_ok _ _ (delete v m) G10 Hnr Hrr Hmr) as (G12 & G13 & G14). split; rewrite ?Eu; try done.
  destruct G5 as [G5 G5']. split; cbn; [done|]. rewrite G8 in *. cbn in *. lia.
Qed.

Lemma init_holds max ok : fst (eui64set_init max ok) = 0 -> holds (snd (eui64set_init max ok)) ∅.
Proof.
  unfold eui64set_init. destruct (Z.ltb_spec 0 max); [destruct ok|]; intros E; try done.
  - split; [split; cbn; [rewrite length_replicate; lia|lia]|..]; unfold used; cbn; try done; constructor.
  - split; [split; cbn; lia|..]; unfold used; cbn; try done; constructor.
Qed.

Lemma clear_holds self m : holds self m -> holds (eui64set_clear self) ∅.
Proof.
  intros [[H1 H2] _ _ _ _]. split; [by split; cbn; [|lia]|..]; unfold used; cbn; rewrite ?take_0; try done; constructor.
Qed.
End refinement.

(** ** A conforming C library *)
Definition cmp_le (cmp : eui64set_entry -> eui64set_entry -> Z) (x y : eui64set_entry) : Prop := cmp x y <= 0.

#[global] Instance cmp_le_dec cmp : RelDecision (cmp_le cmp).
Proof. intros x y. unfold cmp_le. apply _. Defined.

Lemma cmp_le_key x y : cmp_le eui64set_compare x y <-> le_key x y.
Proof. unfold cmp_le, eui64set_compare, le_key. destruct (Z.ltb_spec (eui64 x) (eui64 y)), (Z.ltb_spec (eui64 y) (eui64 x)); lia. Qed.

(** A stable merge sort, and a search from the front. *)
Definition plain_libc : CLib := {|
  qsort := fun cmp l => merge_sort (cmp_le cmp) l;
  bsearch := fun cmp key l => fst <$> list_find (fun e => cmp key e = 0) l |}.

Lemma plain_laws : CLibLaws plain_libc.
Proof.
  assert (Total (cmp_le eui64set_compare)) as Ht by (intros x y; rewrite !cmp_le_key; unfold le_key; lia).
  assert (Transitive (cmp_le eui64set_compare)) as Htr by (intros x y z; rewrite !cmp_le_key; unfold le_key; lia).
  split.
  - intros l. apply merge_sort_Permutation.
  - intros l. cbn. pose proof (StronglySorted_merge_sort (cmp_le eui64set_compare) l) as H.
    induction H as [|x xs _ IH Hx]; constructor; [done|]. eapply list.Forall_impl; [exact Hx|]. intros y. apply cmp_le_key.
  - intros l key i _ E. cbn in E. destruct (list_find _ l) as [[j e]|] eqn:Ef; simplify_eq/=.
    apply list_find_Some in Ef as (H1 & H2 & _). eauto.
  - intros l key e _ E He. cbn in E. destruct (list_find _ l) as [|] eqn:Ef; [done|].
    apply list_find_None in Ef. rewrite list.Forall_forall in Ef. by apply Ef.
Qed.

(** ** Promises *)

(** C35. The EUI-64 set is a finite map from identifiers to pointers, whatever conforming
    [qsort] and [bsearch] the C library has: initialisation and clearing give the empty
    map; the number of entries is its size; finding is lookup; inserting a new identifier
    adds it unless the set is full, which changes nothing; removing one deletes it and
    frees its pointer, or reports that it is not there, as long as the largest identifier
    is not in the set beside it. *)
Theorem eui64set_refines (lib : CLib) (self : eui64set) (m : gmap Z Z) v ptr :
  CLibLaws lib -> holds self m -> 0 <= v < 2 ^ 64 ->
  (forall max ok, fst (eui64set_init max ok) = 0 -> holds (snd (eui64set_init max ok)) ∅) /\
  holds (eui64set_clear self) ∅ /\
  eui64set_num_entries self = Z.of_nat (size m) /\
  p <$> eui64set_find self v = m !! v /\
  (m !! v = None -> exists r self', eui64set_insert_and_sort self v ptr = Done (r, self') /\
     if eui64set_is_full self then r = 0 /\ self' = self else r = 1 /\ holds self' (<[v := ptr]> m)) /\
  (v = 2 ^ 64 - 1 \/ m !! (2 ^ 64 - 1) = None ->
     exists r self' freed, eui64set_remove_and_sort self v = Done (r, self', freed) /\
       match m !! v with
       | None => r = 0 /\ self' = self /\ freed = None
       | Some q => r = 1 /\ holds self' (delete v m) /\ freed = if q =? 0 then None else Some q
       end).
Proof.
  intros Hlib Hh Hv. destruct (Hh) as [Hsh _ Hn _ Hm]. split_and!.
  - intros max ok. apply init_holds.
  - by eapply clear_holds.
  - rewrite <- Hm, size_to_map by done. symmetry. by apply length_used.
  - by apply find_spec.
  - by apply insert_spec.
  - intros H. apply remove_spec; tauto.
Qed.

(** The empty set of four entries, and a first insertion. *)
Lemma eui64set_refines_witness :
  exists r self', @eui64set_insert_and_sort plain_libc (snd (eui64set_init 4 true)) 7 0 = Done (r, self') /\ r = 1.
Proof.
  assert (holds (snd (eui64set_init 4 true)) ∅) as H0.
  { split; [split; vm_compute; intuition congruence|..]; unfold used; cbn; try done; constructor. }
  destruct (eui64set_refines plain_libc _ ∅ 7 0 plain_laws H0) as (_ & _ & _ & _ & H & _); [lia|].
  destruct (H eq_refl) as (r & self' & E & Hr & _). exists r, self'. split; [exact E|exact Hr].
Defined.

(** With the largest identifier in the set, removing another one can drop the wrong
    entry: the library's sort is free to put the one being removed first.  The largest
    identifier is then found with the pointer that was just freed. *)
Theorem eui64set_remove_beside_largest :
  exists self self', holds self {[5 := 100; 2 ^ 64 - 1 := 200]} /\
    @eui64set_remove_and_sort plain_libc self 5 = Done (1, self', Some 100) /\
    @eui64set_find plain_libc self' (2 ^ 64 - 1) = Some (mkEntry (2 ^ 64 - 1) 100).
Proof.
  set (self := mkSet (Some [mkEntry 5 100; mkEntry (2 ^ 64 - 1) 200]) 2 2). exists self.
  exists (mkSet (Some [mkEntry (2 ^ 64 - 1) 100; mkEntry (2 ^ 64 - 1) 200]) 1 2).
  split; [|split; vm_compute; reflexivity].
  split; [split; vm_compute; intuition congruence|..].
  - change (used self) with [mkEntry 5 100; mkEntry (2 ^ 64 - 1) 200]. repeat constructor. vm_compute. congruence.
  - change (keys (used self)) with [5; 2 ^ 64 - 1]. apply list.NoDup_cons. split; [|apply NoDup_singleton].
    rewrite list_elem_of_singleton. lia.
  - change (keys (used self)) with [5; 2 ^ 64 - 1]. repeat constructor; lia.
  - vm_compute. reflexivity.
Qed.

(** Reading and writing in network order. *)
Lemma eui64_write_be v : eui64_write v = be_bytes 8 v.
Proof.
  unfold eui64_write, be_bytes. cbn -[u8 Z.shiftr Z.land]. change 255 with (Z.ones 8).
  assert (forall n, u8 (Z.land (Z.shiftr v n) (Z.ones 8)) = u8 (Z.shiftr v n)) as E.
  { intros n. rewrite Z.land_ones by lia. unfold_width. change (2 ^ 8) with 256. by rewrite Z.mod_mod by lia. }
  by rewrite !E.
Qed.

Lemma eui64_read_be l : length l = 8%nat -> Forall is_byte l -> eui64_read l = be_val l.
Proof.
  intros Hl Hb. pose proof (be_val_range l Hb) as Hr. rewrite Hl in Hr.
  do 8 (destruct l as [|? l]; [done|]). destruct l; [|done]. unfold eui64_read. rewrite !Z.shiftl_mul_pow2 by lia.
  rewrite u64_small; unfold be_val in *; cbn [foldl] in *; lia.
Qed.

(** A round trip through network order. *)
Lemma eui64_read_write v : 0 <= v < 2 ^ 64 -> eui64_read (eui64_write v) = v.
Proof.
  intros Hv. rewrite eui64_write_be, eui64_read_be by (apply length_be_bytes || apply be_bytes_is_byte).
  by apply be_val_bytes_small.
Qed.
