(* ===== verification/Msrp.v ===== *)
(** * Msrp: the Multiple Stream Registration Protocol, data and encoders

    Model of the data of [daemons/mrpd/msrp.h] and of the parts of [daemons/mrpd/msrp.c]
    that do not touch the outside world: the attribute list, the merging of received
    attributes, the first values on the wire and the text of notifications.  [MsrpDaemon]
    has the operations.

    As in [Mvrp], the linked list is a list in its order and buffers are byte lists.  The
    union of an attribute and its [type] are one inductive type: talkers and listeners
    use [talk_listen], domains use [domain], and no code reads the other member.  A
    structure compared by [memcmp] is compared by its fields: [memset] clears the padding
    of every one of them. *)
From stdpp Require Import base gmap list strings numbers.
From S2P Require Import Prelude Text Parse Mrp Mvrp Mmrp Eui64set.
#[local] Open Scope Z_scope.
#[local] Open Scope st_scope.

(** ** Data *)
Definition MSRP_ETYPE : Z := 0x22EA.
Definition MSRP_PROT_VER : Z := 0.
Definition MSRP_ADDR : list Z := [0x01; 0x80; 0xC2; 0x00; 0x00; 0x0E].

Inductive msrp_type :=
  | MSRP_TALKER_ADV_TYPE | MSRP_TALKER_FAILED_TYPE | MSRP_LISTENER_TYPE | MSRP_DOMAIN_TYPE.

Definition type_code (t : msrp_type) : Z :=
  match t with
  | MSRP_TALKER_ADV_TYPE => 1
  | MSRP_TALKER_FAILED_TYPE => 2
  | MSRP_LISTENER_TYPE => 3
  | MSRP_DOMAIN_TYPE => 4
  end.

(** [AttributeLength] of a type. *)
Definition attribute_length (t : msrp_type) : Z :=
  match t with
  | MSRP_TALKER_ADV_TYPE => 25
  | MSRP_TALKER_FAILED_TYPE => 34
  | MSRP_LISTENER_TYPE => 8
  | MSRP_DOMAIN_TYPE => 4
  end.

Definition MSRP_LISTENER_IGNORE : Z := 0.
Definition MSRP_LISTENER_ASKFAILED : Z := 1.
Definition MSRP_LISTENER_READY : Z := 2.
Definition MSRP_LISTENER_READYFAIL : Z := 3.

Record msrpdu_talker_fail := mkTalker {
  StreamID : list Z;
  Dest_Addr : list Z;
  Vlan_ID : Z;
  MaxFrameSize : Z;
  MaxIntervalFrames : Z;
  PriorityAndRank : Z;
  AccumulatedLatency : Z;
  BridgeID : list Z;
  FailureCode : Z }.

Record msrpdu_domain := mkDomain {
  SRclassID : Z;
  SRclassPriority : Z;
  neighborSRclassPriority : Z;
  SRclassVID : Z }.

Inductive msrp_value :=
  | TalkerAdv (t : msrpdu_talker_fail)
  | TalkerFailed (t : msrpdu_talker_fail)
  | Listener (t : msrpdu_talker_fail)
  | Domain (d : msrpdu_domain).

(** Who declares: the network or a local client. *)
Inductive msrp_operation := MSRP_OPERATION_REGISTER | MSRP_OPERATION_DECLARE.

Record msrp_attribute := mkMsrp {
  sr_value : msrp_value;
  substate : Z;
  operation : msrp_operation;
  sr_applicant : mrp_applicant_attribute;
  sr_registrar : mrp_registrar_attribute }.

#[global] Instance msrp_type_eq_dec : EqDecision msrp_type.
Proof. solve_decision. Defined.
#[global] Instance msrpdu_talker_fail_eq_dec : EqDecision msrpdu_talker_fail.
Proof. solve_decision. Defined.
#[global] Instance msrpdu_domain_eq_dec : EqDecision msrpdu_domain.
Proof. solve_decision. Defined.
#[global] Instance msrp_value_eq_dec : EqDecision msrp_value.
Proof. solve_decision. Defined.
#[global] Instance msrp_operation_eq_dec : EqDecision msrp_operation.
Proof. solve_decision. Defined.
#[global] Instance msrp_attribute_eq_dec : EqDecision msrp_attribute.
Proof. solve_decision. Defined.

(** The part of [struct msrp_database] beside the [mrp_database]. *)
Record msrp_database := mkMsrpDb {
  sr_list : list msrp_attribute;
  sr_flag : bool;
  interesting_stream_ids : eui64set;
  enable_pruning : bool }.

Definition SR : Type := MrpState msrp_database.

Definition sr_type (v : msrp_value) : msrp_type :=
  match v with
  | TalkerAdv _ => MSRP_TALKER_ADV_TYPE
  | TalkerFailed _ => MSRP_TALKER_FAILED_TYPE
  | Listener _ => MSRP_LISTENER_TYPE
  | Domain _ => MSRP_DOMAIN_TYPE
  end.

(** The value [msrp_alloc] leaves: all zero. *)
Definition zero_talker : msrpdu_talker_fail :=
  mkTalker (replicate 8 0) (replicate 6 0) 0 0 0 0 0 (replicate 8 0) 0.
Definition zero_domain : msrpdu_domain := mkDomain 0 0 0 0.

Definition set_StreamID (id : list Z) (t : msrpdu_talker_fail) : msrpdu_talker_fail :=
  mkTalker id (Dest_Addr t) (Vlan_ID t) (MaxFrameSize t) (MaxIntervalFrames t) (PriorityAndRank t)
    (AccumulatedLatency t) (BridgeID t) (FailureCode t).
Definition set_Dest_Addr (mac : list Z) (t : msrpdu_talker_fail) : msrpdu_talker_fail :=
  mkTalker (StreamID t) mac (Vlan_ID t) (MaxFrameSize t) (MaxIntervalFrames t) (PriorityAndRank t)
    (AccumulatedLatency t) (BridgeID t) (FailureCode t).
Definition set_FailureInformation (bridge : list Z) (code : Z) (t : msrpdu_talker_fail) : msrpdu_talker_fail :=
  mkTalker (StreamID t) (Dest_Addr t) (Vlan_ID t) (MaxFrameSize t) (MaxIntervalFrames t) (PriorityAndRank t)
    (AccumulatedLatency t) bridge code.

Definition sr_set_value (v : msrp_value) (a : msrp_attribute) : msrp_attribute :=
  mkMsrp v (substate a) (operation a) (sr_applicant a) (sr_registrar a).
Definition sr_set_substate (n : Z) (a : msrp_attribute) : msrp_attribute :=
  mkMsrp (sr_value a) n (operation a) (sr_applicant a) (sr_registrar a).
Definition sr_set_applicant (x : mrp_applicant_attribute) (a : msrp_attribute) : msrp_attribute :=
  mkMsrp (sr_value a) (substate a) (operation a) x (sr_registrar a).
Definition sr_set_registrar (x : mrp_registrar_attribute) (a : msrp_attribute) : msrp_attribute :=
  mkMsrp (sr_value a) (substate a) (operation a) (sr_applicant a) x.

(** [attrib->registrar.mrp_state = MRP_MT_STATE], the forced notification. *)
Definition sr_force_mt (a : msrp_attribute) : msrp_attribute :=
  sr_set_registrar (mkRegistrar MRP_MT_STATE (notify (sr_registrar a)) (macaddr (sr_registrar a))) a.

Definition sr_mark_tx (b : bool) (a : msrp_attribute) : msrp_attribute :=
  sr_set_applicant (set_tx b (sr_applicant a)) a.

(** The attribute a successful [msrp_alloc] returns, with what its callers store at once. *)
Definition msrp_alloc (v : msrp_value) (sub : Z) (op : msrp_operation) (mac : list Z) : msrp_attribute :=
  mkMsrp v sub op (mkApplicant MRP_VO_STATE false MRP_SND_NULL MRP_ENCODE_OPTIONAL None)
    (mkRegistrar MRP_MT_STATE MRP_NOTIFY_NONE mac).

(** ** The attribute list *)
Definition is_type (t : msrp_type) (a : msrp_attribute) : bool := bool_decide (sr_type (sr_value a) = t).

Definition msrp_count_type (l : list msrp_attribute) (t : msrp_type) : Z :=
  foldl (fun count a => if is_type t a then count + 1 else count) 0 l.

(** The attribute [a] is what a lookup of the value [r] finds: talkers of either type are
    one kind. *)
Definition sr_same (a r : msrp_value) : bool :=
  match a, r with
  | TalkerAdv x, TalkerAdv y | TalkerAdv x, TalkerFailed y
  | TalkerFailed x, TalkerAdv y | TalkerFailed x, TalkerFailed y
  | Listener x, Listener y => memcmp (StreamID x) (StreamID y) =? 0
  | Domain x, Domain y => SRclassID x =? SRclassID y
  | _, _ => false
  end.

Fixpoint msrp_lookup (l : list msrp_attribute) (r : msrp_value) : option msrp_attribute :=
  match l with
  | [] => None
  | a :: l' => if sr_same (sr_value a) r then Some a else msrp_lookup l' r
  end.

(** The bytes of a domain on a little-endian host: three bytes, one of padding, the VID. *)
Definition domain_bytes (d : msrpdu_domain) : list Z :=
  [SRclassID d; SRclassPriority d; neighborSRclassPriority d; 0; SRclassVID d mod 256; SRclassVID d / 256].

(** The order within a type. *)
Definition sr_less (a r : msrp_value) : bool :=
  match a, r with
  | TalkerAdv x, TalkerAdv y | TalkerFailed x, TalkerFailed y
  | Listener x, Listener y => memcmp (StreamID x) (StreamID y) <? 0
  | Domain x, Domain y => memcmp (domain_bytes x) (domain_bytes y) <? 0
  | _, _ => false
  end.

(** Insertion: before the first attribute of the same type that is not smaller, after the
    last one of its run, or at the tail when there is none of the type. *)
Fixpoint msrp_add (l : list msrp_attribute) (rattrib : msrp_attribute) : list msrp_attribute :=
  match l with
  | [] => [rattrib]
  | a :: l' =>
      if decide (sr_type (sr_value rattrib) = sr_type (sr_value a)) then
        if sr_less (sr_value a) (sr_value rattrib) then
          match l' with
          | n :: _ =>
              if decide (sr_type (sr_value a) = sr_type (sr_value n)) then a :: msrp_add l' rattrib
              else a :: rattrib :: l'
          | [] => [a; rattrib]
          end
        else rattrib :: a :: l'
      else a :: msrp_add l' rattrib
  end.

(** The attribute that [msrp_lookup] points to, with those before and after it. *)
Fixpoint sr_split (r : msrp_value) (l : list msrp_attribute)
    : option (list msrp_attribute * msrp_attribute * list msrp_attribute) :=
  match l with
  | [] => None
  | a :: l' =>
      if sr_same (sr_value a) r then Some ([], a, l')
      else match sr_split r l' with Some (b, x, c) => Some (a :: b, x, c) | None => None end
  end.

(** ** Merging *)

(** The case of the talkers: the failure information follows when the directions match,
    and a change of type forces a notification. *)
Definition merge_talker (r : msrp_attribute) (t tr : msrpdu_talker_fail) (a : msrp_attribute) : msrp_attribute :=
  if decide (operation r = operation a) then
    let t' := set_FailureInformation (BridgeID tr) (FailureCode tr) t in
    let retag := match sr_value r with TalkerFailed _ => TalkerFailed t' | _ => TalkerAdv t' end in
    let a' := sr_set_value retag a in
    if decide (sr_type (sr_value a) = sr_type (sr_value r)) then a' else sr_force_mt a'
  else a.

(** The case of the listeners; [blocked] is the [break] on the way out of Asking Failed. *)
Definition merge_listener (blocked : bool) (r a : msrp_attribute) : msrp_attribute :=
  if substate a =? substate r then a
  else if blocked then a
  else sr_force_mt (if decide (operation r = operation a) then sr_set_substate (substate r) a else a).

Definition merge_domain (d dr : msrpdu_domain) (a : msrp_attribute) : msrp_attribute :=
  if (SRclassPriority d =? SRclassPriority dr) && (SRclassVID d =? SRclassVID dr) then a
  else sr_force_mt (sr_set_value (Domain (mkDomain (SRclassID d) (SRclassPriority d) (SRclassPriority dr) (SRclassVID dr))) a).

(** The [switch] of [msrp_merge], after the address of the source has been copied. *)
Definition merge_into (blocked : bool) (r a : msrp_attribute) : msrp_attribute :=
  let a := sr_set_registrar (set_macaddr (macaddr (sr_registrar r)) (sr_registrar a)) a in
  match sr_value a, sr_value r with
  | TalkerAdv t, TalkerAdv tr | TalkerAdv t, TalkerFailed tr
  | TalkerFailed t, TalkerAdv tr | TalkerFailed t, TalkerFailed tr => merge_talker r t tr a
  | Listener _, Listener _ => merge_listener blocked r a
  | Domain d, Domain dr => merge_domain d dr a
  | _, _ => a
  end.

(** A listener that leaves Asking Failed needs a talker of its stream. *)
Definition needs_talker (r a : msrp_attribute) : option (list Z) :=
  match sr_value a with
  | Listener t =>
      if negb (substate a =? substate r) && (substate a =? MSRP_LISTENER_ASKFAILED) then Some (StreamID t) else None
  | _ => None
  end.

(** ** The values on the wire *)

(** Stream identifiers are incremented in the last seven bytes. *)
Definition msrp_increment_streamid (id : list Z) : list Z := increment_from 7 id.

(** The first value of a talker; the failure information only for a failed one. *)
Definition talker_firstvalue (failed : bool) (t : msrpdu_talker_fail) : list Z :=
  StreamID t ++ Dest_Addr t ++ be_bytes 2 (Vlan_ID t) ++ be_bytes 2 (MaxFrameSize t) ++
  be_bytes 2 (MaxIntervalFrames t) ++ [PriorityAndRank t] ++ be_bytes 4 (AccumulatedLatency t) ++
  (if failed then BridgeID t ++ [FailureCode t] else []).

(** ... and back: the fields read from the first value [fv], for a stream and an address. *)
Definition read_talker (failed : bool) (fv : list Z) (id mac : list Z) : msrpdu_talker_fail :=
  let field i n := take n (drop i fv) in
  mkTalker id mac (be_val (field 14%nat 2%nat)) (be_val (field 16%nat 2%nat)) (be_val (field 18%nat 2%nat))
    (be_val (field 20%nat 1%nat)) (be_val (field 21%nat 4%nat))
    (if failed then field 25%nat 8%nat else replicate 8 0) (if failed then be_val (field 33%nat 1%nat) else 0).

Definition domain_firstvalue (d : msrpdu_domain) : list Z :=
  [SRclassID d; SRclassPriority d] ++ be_bytes 2 (SRclassVID d).

(** [vectevt[0..3]] of a 4-packed byte. *)
Definition unpack4 (p : Z) : list Z :=
  let low v := v - Z.shiftl (Z.shiftr v 2) 2 in
  [low (Z.shiftr (Z.shiftr (Z.shiftr p 2) 2) 2); low (Z.shiftr (Z.shiftr p 2) 2); low (Z.shiftr p 2); low p].

(** The products may leave the range of [int]; what is stored is the low byte. *)
Definition MRPDU_4PACK_ENCODE (w x y z : Z) : Z := w * 64 + x * 16 + y * 4 + z.

(** The event to send for an attribute; [None] is the [goto oops]. *)
Definition sr_event_code (a : msrp_attribute) : option Z :=
  match sndmsg (sr_applicant a) with
  | MRP_SND_IN => Some (if mrp_registrar_in (sr_registrar a) then MRPDU_IN else MRPDU_MT)
  | MRP_SND_NEW => Some MRPDU_NEW
  | MRP_SND_LV => Some MRPDU_LV
  | MRP_SND_JOIN => Some (if mrp_registrar_in (sr_registrar a) then MRPDU_JOININ else MRPDU_JOINMT)
  | _ => None
  end.

(** ** Text *)

(** The texts of the variants; [%02x] of a string of bytes is [fmt_mac]. *)
Definition talker_text (failed : bool) (t : msrpdu_talker_fail) : string :=
  "T:S=" +:+ fmt_mac (StreamID t) +:+ ",A=" +:+ fmt_mac (Dest_Addr t) +:+ ",V=" +:+ fmt_x 4 (Vlan_ID t) +:+
  ",Z=" +:+ fmt_int (MaxFrameSize t) +:+ ",I=" +:+ fmt_int (MaxIntervalFrames t) +:+
  ",P=" +:+ fmt_int (PriorityAndRank t) +:+ ",L=" +:+ fmt_int (AccumulatedLatency t) +:+
  (if failed then ",B=" +:+ fmt_mac (BridgeID t) +:+ ",C=" +:+ fmt_int (FailureCode t) else String.EmptyString).
Definition listener_text (sub : Z) (t : msrpdu_talker_fail) : string :=
  "L:D=" +:+ fmt_int sub +:+ ",S=" +:+ fmt_mac (StreamID t).
Definition domain_text (d : msrpdu_domain) : string :=
  "D:C=" +:+ fmt_int (SRclassID d) +:+ ",P=" +:+ fmt_int (SRclassPriority d) +:+ ",V=" +:+ fmt_x 4 (SRclassVID d) +:+
  ",N=" +:+ fmt_int (neighborSRclassPriority d).

(** [variant] in a notification, where the failure information is for failed talkers. *)
Definition notify_variant (a : msrp_attribute) : string :=
  match sr_value a with
  | Listener t => listener_text (substate a) t
  | Domain d => domain_text d
  | TalkerAdv t => talker_text false t
  | TalkerFailed t => talker_text true t
  end.

(** [variant] in the dump. *)
Definition dump_variant (a : msrp_attribute) : string :=
  match sr_value a with
  | Listener t => listener_text (substate a) t
  | Domain d => domain_text d
  | TalkerAdv t | TalkerFailed t => talker_text true t
  end.

Definition sr_regsrc (a : msrp_attribute) : string := "R=" +:+ fmt_mac (macaddr (sr_registrar a)).

Definition sr_notify_text (verb : string) (a : msrp_attribute) : string :=
  let variant := snprintf (128 - 1) (notify_variant a) in
  let regsrc := snprintf (128 - 1) (sr_regsrc a) in
  snprintf (Z.to_nat MAX_MRPD_CMDSZ - 1)
    (verb +:+ " " +:+ variant +:+ " " +:+ regsrc +:+ " " +:+
     mrp_decode_state (sr_registrar a) (sr_applicant a) 8 +:+ newline).

Definition sr_notify_verb (n : mrp_notify) : option string :=
  match n with
  | MRP_NOTIFY_NEW => Some "SNE"%string
  | MRP_NOTIFY_JOIN => Some "SJO"%string
  | MRP_NOTIFY_LV => Some "SLE"%string
  | MRP_NOTIFY_NONE => None
  end.

(** [regsrc] and a line of the dump. *)
Definition dump_regsrc (a : msrp_attribute) : string :=
  sr_regsrc a +:+ " " +:+ mrp_decode_state (sr_registrar a) (sr_applicant a) 8.
Definition sr_dump_line (a : msrp_attribute) : string := dump_variant a +:+ " " +:+ dump_regsrc a +:+ newline.

(** The attribute can be forgotten: neither declared here nor registered by others. *)
Definition sr_reclaimable (a : msrp_attribute) : bool :=
  bool_decide (reg_state (sr_registrar a) = MRP_MT_STATE) &&
  (bool_decide (app_state (sr_applicant a) = MRP_VO_STATE) ||
   bool_decide (app_state (sr_applicant a) = MRP_AO_STATE) ||
   bool_decide (app_state (sr_applicant a) = MRP_QO_STATE)).
