(* ===== verification/MsrpEmit.v ===== *)
(** * MsrpEmit: the encoders of MSRP

    Model of [msrp_emit_talkervectors], [msrp_emit_listenvectors] and
    [msrp_emit_domainvectors] of [daemons/mrpd/msrp.c].  The three functions share their
    frame: the message header, the loop over the attributes, the empty LeaveAll, the end
    mark and the length of the list; [sr_emit_loop] and [sr_emit_message] are that frame, and
    what they do for one vector is an argument.  The listeners need memory for their
    substates, so the encoders are computations. *)
From stdpp Require Import base gmap list strings numbers.
From S2P Require Import Prelude Text Parse Mrp Mvrp Mmrp Eui64set Msrp.
#[local] Open Scope Z_scope.
#[local] Open Scope st_scope.

(** The header of a vector. *)
Definition vector_header (lva : bool) (num : Z) : list Z :=
  be_bytes 2 (Z.lor (MRPDU_VECT_NUMVALUES num) (if lva then MRPDU_VECT_LVA_FLAG else 0)).

(** Whether a copy of [first] with the next stream and address is the candidate. *)
Definition vectorize_talker (first : msrpdu_talker_fail) (id mac : list Z) (candidate : msrpdu_talker_fail) : bool :=
  bool_decide (set_Dest_Addr mac (set_StreamID id first) = candidate).

(** The talker in a value of the type that is being encoded. *)
Definition talker_of (failed : bool) (v : msrp_value) : option msrpdu_talker_fail :=
  match v with
  | TalkerAdv t => if failed then None else Some t
  | TalkerFailed t => if failed then Some t else None
  | _ => None
  end.

Definition talker_type (failed : bool) : msrp_type :=
  if failed then MSRP_TALKER_FAILED_TYPE else MSRP_TALKER_ADV_TYPE.

(** The inner loop of [msrp_emit_talkervectors], for the vector of [first]: whether it
    ended in [goto oops], the attributes and the vector. *)
Fixpoint talker_vectorize (failed : bool) (events eof : Z) (first : msrpdu_talker_fail)
    (vattribs : list msrp_attribute) (id mac : list Z) (v : Vector)
    : outcome (bool * list msrp_attribute * Vector) :=
  match vattribs with
  | [] => Done (false, [], v)
  | a :: rest =>
      match talker_of failed (sr_value a) with
      | None => Done (false, vattribs, v)
      | Some t =>
          if negb (tx (sr_applicant a)) then Done (false, vattribs, v)
          else
            let id' := msrp_increment_streamid id in
            let mac' := mmrp_increment_macaddr mac in
            if negb (vectorize_talker first id' mac' t) then Done (false, vattribs, v)
            else
              match sr_event_code a with
              | None => Done (true, sr_mark_tx false a :: rest, v)
              | Some c =>
                  v' ← push_code events c v;
                  if eof - MRPDU_ENDMARK_SZ <? events + vectidx v' then Done (true, sr_mark_tx false a :: rest, v')
                  else
                    '(oops, rest', v'') ← talker_vectorize failed events eof first rest id' mac' v';
                    Done (oops, sr_mark_tx false a :: rest', v'')
              end
      end
  end.

(** The end of every vector: the events not yet packed, the room for the end mark and the
    header. *)
Definition close_vector (events eof : Z) (lva : bool) (v : Vector) : outcome (bool * Z * list Z) :=
  v ← flush events v;
  if eof - MRPDU_ENDMARK_SZ <? events + vectidx v then Done (true, events, vbuf v)
  else
    buf ← pokes (vbuf v) (events - 2) (vector_header lva (numvalues v));
    Done (false, events + vectidx v, buf).

(** The talkers of one vector: [goto oops], the attributes after [a], where the vector
    ends and the buffer. *)
Definition talker_vector (failed : bool) (events eof : Z) (a : msrp_attribute) (rest : list msrp_attribute)
    (lva : bool) (buf : list Z) : outcome (bool * list msrp_attribute * Z * list Z) :=
  t ← or_fault AssertFail (talker_of failed (sr_value a));
  buf ← pokes buf events (talker_firstvalue failed t);
  match sr_event_code a with
  | None => Done (true, rest, events, buf)
  | Some c =>
      '(oops, rest', v) ← talker_vectorize failed events eof t rest (StreamID t) (Dest_Addr t)
                            (mkVector (c, 0, 0) 1 1 (attribute_length (talker_type failed)) buf);
      if (oops : bool) then Done (true, rest', events, vbuf v)
      else
        '(oops, p, buf) ← close_vector events eof lva v;
        Done (oops, rest', p, buf)
  end.

(** The domain of one vector: [MSRP_AGGREGATE_DOMAINS_VECTORS] is not defined. *)
Definition domain_vector (events eof : Z) (a : msrp_attribute) (rest : list msrp_attribute)
    (lva : bool) (buf : list Z) : outcome (bool * list msrp_attribute * Z * list Z) :=
  d ← or_fault AssertFail (match sr_value a with Domain d => Some d | _ => None end);
  buf ← pokes buf events (domain_firstvalue d);
  match sr_event_code a with
  | None => Done (true, rest, events, buf)
  | Some c =>
      '(oops, p, buf) ← close_vector events eof lva (mkVector (c, 0, 0) 1 1 4 buf);
      Done (oops, rest, p, buf)
  end.

Section Emit.
Context `{MrpEnv}.

(** ** Listeners

    [listen_declare] is an array of [sz] elements that [realloc] enlarges by 64; [decl] is
    what has been stored in it. *)
Definition declare_store (sz : Z) (decl : list Z) (sub : Z) : outcome (list Z) :=
  if Z.of_nat (length decl) <? sz then Done (decl ++ [sub]) else Fault OutOfBounds.

(** The first substate of a vector; [None] is the [goto oops] when memory runs out. *)
Definition declare_first (sz : Z) (sub : Z) : stM SR (option (Z * list Z)) :=
  if sz =? 0 + 1 then
    let! mem := draw mrp_malloc in
    if negb mem then st_ret None
    else let! d := st_lift (declare_store (sz + 64) [] sub) in st_ret (Some (sz + 64, d))
  else let! d := st_lift (declare_store sz [] sub) in st_ret (Some (sz, d)).

(** The other ones: the result of [realloc] is not checked. *)
Definition declare_next (sz : Z) (decl : list Z) (sub : Z) : stM SR (Z * list Z) :=
  if sz =? Z.of_nat (length decl) + 1 then
    let! mem := draw mrp_malloc in
    if negb mem then st_lift (Fault NullDeref)
    else let! d := st_lift (declare_store (sz + 64) decl sub) in st_ret (sz + 64, d)
  else let! d := st_lift (declare_store sz decl sub) in st_ret (sz, d).

Definition listener_of (v : msrp_value) : option msrpdu_talker_fail :=
  match v with Listener t => Some t | _ => None end.

(** The inner loop of [msrp_emit_listenvectors]. *)
Fixpoint listen_vectorize (events eof : Z) (vattribs : list msrp_attribute) (id : list Z) (sz : Z)
    (decl : list Z) (v : Vector) : stM SR (bool * list msrp_attribute * Z * list Z * Vector) :=
  match vattribs with
  | [] => st_ret (false, [], sz, decl, v)
  | a :: rest =>
      let stop := st_ret (false, vattribs, sz, decl, v) in
      match listener_of (sr_value a) with
      | None => stop
      | Some t =>
          if negb (tx (sr_applicant a)) then stop
          else
            let id' := msrp_increment_streamid id in
            if negb (memcmp (StreamID t) id' =? 0) then stop
            else
              match sr_event_code a with
              | None => st_ret (true, sr_mark_tx false a :: rest, sz, decl, v)
              | Some c =>
                  let! x := declare_next sz decl (substate a) in
                  let '(sz, decl) := x in
                  let! v' := st_lift (push_code events c v) in
                  if eof - MRPDU_ENDMARK_SZ <? events + vectidx v' then
                    st_ret (true, sr_mark_tx false a :: rest, sz, decl, v')
                  else
                    let! r := listen_vectorize events eof rest id' sz decl v' in
                    let '(oops, rest', sz, decl, v'') := r in
                    st_ret (oops, sr_mark_tx false a :: rest', sz, decl, v'')
              end
      end
  end.

(** The 4-packed events, four at a time while there are four left, then the trailer. *)
Fixpoint pack_declared (n : nat) (events eof : Z) (decl : list Z) (vidx : Z) (buf : list Z)
    : outcome (bool * Z * list Z) :=
  match n, decl with
  | S n', w :: x :: y :: z :: decl' =>
      if eof - MRPDU_ENDMARK_SZ <? events + vidx then Done (true, vidx, buf)
      else
        buf ← poke buf (events + vidx) (MRPDU_4PACK_ENCODE w x y z);
        if eof - 3 <? events + (vidx + 1) then Done (true, vidx + 1, buf)
        else pack_declared n' events eof decl' (vidx + 1) buf
  | _, w :: decl' =>
      buf ← poke buf (events + vidx)
        (MRPDU_4PACK_ENCODE w (nth 0 decl' 0) (nth 1 decl' 0) (nth 2 decl' 0));
      Done (false, vidx + 1, buf)
  | _, [] => Done (false, vidx, buf)
  end.

(** The listeners of one vector; the size of [listen_declare] is kept for the next. *)
Definition listen_vector (events eof : Z) (a : msrp_attribute) (rest : list msrp_attribute)
    (lva : bool) (sz : Z) (buf : list Z) : stM SR (bool * list msrp_attribute * Z * Z * list Z) :=
  let! t := st_lift (or_fault AssertFail (listener_of (sr_value a))) in
  let! buf := st_lift (pokes buf events (StreamID t)) in
  match sr_event_code a with
  | None => st_ret (true, rest, events, sz, buf)
  | Some c =>
      let! d := declare_first sz (substate a) in
      match d with
      | None => st_ret (true, rest, events, sz, buf)
      | Some (sz, decl) =>
          let! r := listen_vectorize events eof rest (StreamID t) sz decl (mkVector (c, 0, 0) 1 1 8 buf) in
          let '(oops, rest', sz, decl, v) := r in
          if (oops : bool) then st_ret (true, rest', events, sz, vbuf v)
          else
            let! v := st_lift (flush events v) in
            let! p := st_lift (pack_declared (length decl / 4) events eof decl (vectidx v) (vbuf v)) in
            let '(oops, vidx, buf) := p in
            if (oops : bool) || (eof - MRPDU_ENDMARK_SZ <? events + vidx) then st_ret (true, rest', events, sz, buf)
            else
              let! buf := st_lift (pokes buf (events - 2) (vector_header lva (numvalues v))) in
              st_ret (false, rest', events + vidx, sz, buf)
      end
  end.

(** ** The frame of the three encoders *)

(** One vector, of whatever type; [sz] is used by the listeners only. *)
Definition sr_emit_vector (t : msrp_type) (events eof : Z) (a : msrp_attribute) (rest : list msrp_attribute)
    (lva : bool) (sz : Z) (buf : list Z) : stM SR (bool * list msrp_attribute * Z * Z * list Z) :=
  let pure o := let! r := st_lift o in let '(oops, rest', p, buf) := r in st_ret (oops, rest', p, sz, buf) in
  match t with
  | MSRP_TALKER_ADV_TYPE => pure (talker_vector false events eof a rest lva buf)
  | MSRP_TALKER_FAILED_TYPE => pure (talker_vector true events eof a rest lva buf)
  | MSRP_LISTENER_TYPE => listen_vector events eof a rest lva sz buf
  | MSRP_DOMAIN_TYPE => pure (domain_vector events eof a rest lva buf)
  end.

(** [vector_size]. *)
Definition vector_size (t : msrp_type) : Z :=
  match t with
  | MSRP_TALKER_ADV_TYPE => 28
  | MSRP_TALKER_FAILED_TYPE => 37
  | MSRP_LISTENER_TYPE => 13
  | MSRP_DOMAIN_TYPE => 5
  end.

(** The outer loop: [goto oops], the attributes, [attrib_found_flag], [mrpdu_msg_ptr],
    [mrpdu_vectorptr] and the buffer. *)
Fixpoint sr_emit_loop (t : msrp_type) (fuel : nat) (attribs : list msrp_attribute) (msg_ptr vp eof : Z)
    (lva found : bool) (sz : Z) (buf : list Z)
    : stM SR (bool * list msrp_attribute * bool * Z * Z * list Z) :=
  if negb (msg_ptr <? eof - vector_size t - MRPDU_ENDMARK_SZ) then st_ret (false, attribs, found, msg_ptr, vp, buf)
  else
    match attribs with
    | [] => st_ret (false, [], found, msg_ptr, vp, buf)
    | a :: rest =>
        match fuel with
        | O => st_lift (Fault OutOfFuel)
        | S fuel' =>
            let skip a' :=
              let! r := sr_emit_loop t fuel' rest msg_ptr vp eof lva found sz buf in
              let '(oops, rest', found', m', v', buf') := r in
              st_ret (oops, a' :: rest', found', m', v', buf') in
            let sent := sr_mark_tx false a in
            if negb (is_type t a) then skip a
            else if negb (tx (sr_applicant a)) then skip a
            else if decide (encode (sr_applicant a) = MRP_ENCODE_OPTIONAL) then skip sent
            else
              let! r := sr_emit_vector t (vp + 2) eof sent rest lva sz buf in
              let '(oops, rest1, p, sz, buf1) := r in
              if (oops : bool) then st_ret (true, sent :: rest1, true, msg_ptr, vp, buf1)
              else
                let! r := sr_emit_loop t fuel' rest1 p p eof false true sz buf1 in
                let '(oops, rest', found', m', v', buf') := r in
                st_ret (oops, sent :: rest', found', m', v', buf')
        end
    end.

(** The loop and what follows it, for a message header already written: the result,
    [*bytes_used], the attributes and the buffer. *)
Definition sr_emit_message (t : msrp_type) (buf : list Z) (msgbuf eof : Z) (lva flag : bool)
    (attribs : list msrp_attribute) : stM SR (Z * Z * list msrp_attribute * list Z) :=
  let data2 := msgbuf + 4 in
  let! r := sr_emit_loop t (length attribs) attribs msgbuf data2 eof lva false 64 buf in
  let '(oops, attribs', found, msg_ptr, vp, buf) := r in
  if (oops : bool) then st_ret (-1, 0, attribs', buf)
  else
    let! r := (if negb found && flag then
       let! buf := st_lift (pokes buf vp (vector_header true 0)) in
       let! len := st_lift (peek buf (msgbuf + 1)) in
       st_ret (vp + 2 + len, vp + 2 + len, buf)
     else st_ret (msg_ptr, vp, buf)) in
    let '(msg_ptr, vp, buf) := r in
    if vp =? data2 then st_ret (0, 0, attribs', buf)
    else
      let! buf := st_lift (pokes buf msg_ptr [0; 0]) in
      let attriblistlen := msg_ptr + 2 - data2 in
      let! buf := st_lift (pokes buf (msgbuf + 2) (be_bytes 2 attriblistlen)) in
      st_ret (0, msg_ptr + 2 - msgbuf, attribs', buf).

(** The header of a message: [AttributeType] and [AttributeLength]. *)
Definition message_header (t : msrp_type) : list Z := [type_code t; attribute_length t].

Definition msrp_emit_talkervectors (buf : list Z) (msgbuf eof : Z) (lva flag : bool) (failed : bool)
    (attribs : list msrp_attribute) : stM SR (Z * Z * list msrp_attribute * list Z) :=
  let t := talker_type failed in
  if eof - vector_size t <? msgbuf then st_ret (-1, 0, attribs, buf)
  else
    let! buf := st_lift (pokes buf msgbuf (message_header t)) in
    sr_emit_message t buf msgbuf eof lva flag attribs.

(** Every listener is marked to be sent. *)
Definition mark_listener (a : msrp_attribute) : msrp_attribute :=
  if is_type MSRP_LISTENER_TYPE a then sr_mark_tx true a else a.

Definition msrp_emit_listenvectors (buf : list Z) (msgbuf eof : Z) (lva flag : bool)
    (attribs : list msrp_attribute) : stM SR (Z * Z * list msrp_attribute * list Z) :=
  if eof - vector_size MSRP_LISTENER_TYPE <? msgbuf then st_ret (-1, 0, attribs, buf)
  else
    let! buf := st_lift (pokes buf msgbuf (message_header MSRP_LISTENER_TYPE)) in
    let! mem := draw mrp_malloc in
    if negb mem then st_ret (-1, 0, attribs, buf)
    else sr_emit_message MSRP_LISTENER_TYPE buf msgbuf eof lva flag (mark_listener <$> attribs).

Definition msrp_emit_domainvectors (buf : list Z) (msgbuf eof : Z) (lva flag : bool)
    (attribs : list msrp_attribute) : stM SR (Z * Z * list msrp_attribute * list Z) :=
  if eof - vector_size MSRP_DOMAIN_TYPE <? msgbuf then st_ret (-1, 0, attribs, buf)
  else
    let! buf := st_lift (pokes buf msgbuf (message_header MSRP_DOMAIN_TYPE)) in
    sr_emit_message MSRP_DOMAIN_TYPE buf msgbuf eof lva flag attribs.

End Emit.
