(* ===== verification/MsrpDaemon.v ===== *)
(** * MsrpDaemon: the operations of MSRP

    Model of the rest of [daemons/mrpd/msrp.c]: transmission, notifications, reclaim,
    protocol events, reception, the control commands, and start-up and shutdown.  The
    conventions are those of [Mvrp]; the set of interesting streams is [Eui64set], on any
    C library. *)
From stdpp Require Import base gmap list strings numbers.
From S2P Require Import Prelude Text Parse Mrp Mvrp Mmrp Eui64set Msrp.
From S2P Require Import MsrpEmit.
#[local] Open Scope Z_scope.
#[local] Open Scope st_scope.

Section Ops.
Context `{MrpEnv} `{CLib}.

Definition sr_get_list : stM SR (list msrp_attribute) := let! s := st_get in st_ret (sr_list (app s)).
Definition sr_put_list (l : list msrp_attribute) : stM SR unit :=
  upd_app (fun d => mkMsrpDb l (sr_flag d) (interesting_stream_ids d) (enable_pruning d)).
Definition sr_put_flag (b : bool) : stM SR unit :=
  upd_app (fun d => mkMsrpDb (sr_list d) b (interesting_stream_ids d) (enable_pruning d)).
Definition sr_put_ids (ids : eui64set) : stM SR unit :=
  upd_app (fun d => mkMsrpDb (sr_list d) (sr_flag d) ids (enable_pruning d)).

(** The loops over all attributes that change each one in place. *)
Fixpoint sr_map (f : msrp_attribute -> stM SR msrp_attribute) (l : list msrp_attribute)
    : stM SR (list msrp_attribute) :=
  match l with
  | [] => st_ret []
  | a :: l' => let! a' := f a in let! l'' := sr_map f l' in st_ret (a' :: l'')
  end.

Definition sr_for_each (f : msrp_attribute -> stM SR msrp_attribute) : stM SR unit :=
  let! l := sr_get_list in let! l' := sr_map f l in sr_put_list l'.

Definition sr_applicant_fsm (event : mrp_event) (a : msrp_attribute) : stM SR msrp_attribute :=
  let! s := st_get in
  st_ret (sr_set_applicant
    (snd (mrp_applicant_fsm (p2pmac (io s)) (sr_applicant a) event (mrp_registrar_in (sr_registrar a)))) a).

Definition sr_registrar_fsm (event : mrp_event) (a : msrp_attribute) : stM SR msrp_attribute :=
  let! r := mrp_registrar_fsm (sr_registrar a) event in
  st_ret (sr_set_registrar (snd r) a).

(** ** Transmission *)

(** One of the encoders, on the attribute list; the list is changed even when it fails. *)
Definition emit_with
    (emit : list msrp_attribute -> stM SR (Z * Z * list msrp_attribute * list Z))
    : stM SR (Z * Z * list Z) :=
  let! l := sr_get_list in
  let! r := emit l in
  let '(rc, bytes, attribs, buf) := r in
  sr_put_list attribs ;! st_ret (rc, bytes, buf).

Definition msrp_txpdu : stM SR Z :=
  let! mem := draw mrp_malloc in
  if negb mem then st_ret (-1)
  else
    let! s := st_get in
    let buf0 := replicate (Z.to_nat MAX_FRAME_SIZE) 0 in
    let! buf := st_lift (pokes buf0 0 (MSRP_ADDR ++ STATION_ADDR (io s) ++
                                       be_bytes 2 MSRP_ETYPE ++ [MSRP_PROT_VER])) in
    let eof := MAX_FRAME_SIZE in
    let flag := sr_flag (app s) in
    let lv := lva_tx (lva (mdb s)) in
    (when lv do upd_mdb (fun d => set_lva (mkLva (lva_state (lva d)) false (lva_sndmsg (lva d))) d)) ;!
    let! r := emit_with (msrp_emit_talkervectors buf 15 eof lv flag false) in
    let '(rc, bytes, buf) := r in
    if rc =? -1 then st_ret (-1)
    else
    let ptr := 15 + bytes in
    let! r := emit_with (msrp_emit_talkervectors buf ptr eof lv flag true) in
    let '(rc, bytes, buf) := r in
    if rc =? -1 then st_ret (-1)
    else
    let ptr := ptr + bytes in
    if eof - MRPDU_ENDMARK_SZ <=? ptr then st_ret (-1)
    else
    let! r := emit_with (msrp_emit_listenvectors buf ptr eof lv flag) in
    let '(rc, bytes, buf) := r in
    if rc =? -1 then st_ret (-1)
    else
    let ptr := ptr + bytes in
    let! r := emit_with (msrp_emit_domainvectors buf ptr eof lv flag) in
    let '(rc, bytes, buf) := r in
    if rc =? -1 then st_ret (-1)
    else
    let ptr := ptr + bytes in
    if ptr =? 15 then st_ret (-1)
    else if ptr <? eof - MRPDU_ENDMARK_SZ then
      let! buf := st_lift (pokes buf ptr [0; 0]) in
      let! sent := mrpd_send (take (Z.to_nat (ptr + 2)) buf) in
      st_ret (if sent <=? 0 then -1 else 0)
    else st_ret (-1).

(** ** Notifications *)
Definition msrp_send_notifications (attrib : msrp_attribute) (n : mrp_notify) : stM SR Z :=
  let! m1 := draw mrp_malloc in
  if negb m1 then st_ret (-1)
  else
    let! m2 := draw mrp_malloc in
    let! m3 := draw mrp_malloc in
    if negb (m2 && m3) then st_ret 0
    else
      match sr_notify_verb n with
      | None => st_ret 0
      | Some verb =>
          let! s := st_get in
          send_to_clients (clients (mdb s)) (sr_notify_text verb attrib) ;! st_ret 0
      end.

(** The notifications at the end of [msrp_event]. *)
Definition sr_notify_one (a : msrp_attribute) : stM SR msrp_attribute :=
  if decide (notify (sr_registrar a) = MRP_NOTIFY_NONE) then st_ret a
  else
    msrp_send_notifications a (notify (sr_registrar a)) ;!
    st_ret (sr_set_registrar (set_notify MRP_NOTIFY_NONE (sr_registrar a)) a).

(** The attribute [a] between [before] and [after] is unlinked, announced and freed if it
    can be forgotten.  The result is what now precedes [after], the next position. *)
Definition msrp_conditional_reclaim (before : list msrp_attribute) (a : msrp_attribute)
    (after : list msrp_attribute) : stM SR (list msrp_attribute) :=
  if sr_reclaimable a then
    sr_put_list (before ++ after) ;! msrp_send_notifications a MRP_NOTIFY_LV ;! st_ret before
  else st_ret (before ++ [a]).

Fixpoint sr_reclaim_loop (before todo : list msrp_attribute) : stM SR unit :=
  match todo with
  | [] => st_ret tt
  | a :: after => let! before' := msrp_conditional_reclaim before a after in sr_reclaim_loop before' after
  end.

(** The loop of the leave timer. *)
Fixpoint sr_lvtimer_loop (before todo : list msrp_attribute) : stM SR unit :=
  match todo with
  | [] => st_ret tt
  | a :: after =>
      let! a' := sr_registrar_fsm MRP_EVENT_LVTIMER a in
      sr_put_list (before ++ a' :: after) ;!
      let! before' := msrp_conditional_reclaim before a' after in
      sr_lvtimer_loop before' after
  end.

(** ** Events *)

(** Merging [rattrib] into the attribute its lookup finds: the result and the list. *)
Definition msrp_merge (rattrib : msrp_attribute) : stM SR Z :=
  let! l := sr_get_list in
  match sr_split (sr_value rattrib) l with
  | None => st_ret (-1)
  | Some (before, a, after) =>
      let! blocked := (match needs_talker rattrib a with
        | None => st_ret false
        | Some id =>
            let! mem := draw mrp_malloc in
            if negb mem then st_ret true
            else st_ret (negb (bool_decide (is_Some (msrp_lookup l (TalkerAdv (set_StreamID id zero_talker))))))
        end) in
      sr_put_list (before ++ merge_into blocked rattrib a :: after) ;! st_ret 0
  end.

(** The registrar's part of an attribute event: local requests are remapped. *)
Definition sr_registrar_part (event : mrp_event) (a : msrp_attribute) : stM SR msrp_attribute :=
  match event with
  | MRP_EVENT_NEW =>
      let! a' := sr_registrar_fsm MRP_EVENT_BEGIN a in
      st_ret (sr_set_registrar (set_notify MRP_NOTIFY_NEW (sr_registrar a')) a')
  | MRP_EVENT_JOIN =>
      if decide (reg_state (sr_registrar a) = MRP_IN_STATE) then sr_registrar_fsm MRP_EVENT_RJOININ a
      else sr_registrar_fsm MRP_EVENT_RJOINMT a
  | MRP_EVENT_LV => sr_registrar_fsm MRP_EVENT_RLV a
  | _ => sr_registrar_fsm event a
  end.

(** The attribute found or added: applicant, registrar, reclaim. *)
Definition sr_attribute_event (event : mrp_event) (v : msrp_value) : stM SR unit :=
  let! l := sr_get_list in
  match sr_split v l with
  | None => st_ret tt
  | Some (before, a, after) =>
      let! a1 := sr_applicant_fsm event a in
      let! a2 := sr_registrar_part event a1 in
      sr_put_list (before ++ a2 :: after) ;!
      msrp_conditional_reclaim before a2 after ;! st_ret tt
  end.

(** Pruning: a talker matters if its stream is interesting or has a listener. *)
Definition is_talker (v : msrp_value) : option (list Z) :=
  match v with TalkerAdv t | TalkerFailed t => Some (StreamID t) | _ => None end.

Definition is_interesting (d : msrp_database) (v : msrp_value) : bool :=
  match is_talker v with
  | Some id =>
      if enable_pruning d then
        bool_decide (is_Some (eui64set_find (interesting_stream_ids d) (eui64_read id))) ||
        bool_decide (is_Some (msrp_lookup (sr_list d) (Listener (set_StreamID id zero_talker))))
      else true
  | None => true
  end.

Definition sr_tx_count (count : Z) (a : msrp_attribute) : Z :=
  count + mrp_applicant_state_transition_implies_tx (sr_applicant a).

(** An event for one attribute. *)
Definition sr_attribute_switch (event : mrp_event) (rattrib : option msrp_attribute) : stM SR (bool * Z) :=
  match rattrib with
  | None => st_ret (false, -1)
  | Some r =>
      let! s := st_get in
      if is_interesting (app s) (sr_value r) then
        mrp_jointimer_start ;!
        let! l := sr_get_list in
        match msrp_lookup l (sr_value r) with
        | None =>
            if decide (event = MRP_EVENT_RMT) then st_ret (false, 0)
            else sr_put_list (msrp_add l r) ;! sr_attribute_event event (sr_value r) ;! st_ret (true, 0)
        | Some _ =>
            msrp_merge r ;! sr_attribute_event event (sr_value r) ;! st_ret (true, 0)
        end
      else st_ret (true, 0)
  end.

(** The body of the [switch]; [false] is an early return that skips the notifications. *)
Definition sr_event_switch (event : mrp_event) (rattrib : option msrp_attribute) : stM SR (bool * Z) :=
  let next := st_ret (true, 0) in
  match event with
  | MRP_EVENT_LVATIMER =>
      mrp_lvatimer_stop ;! mrp_jointimer_stop ;!
      sr_for_each (fun a => let! a' := sr_applicant_fsm MRP_EVENT_TXLA a in sr_registrar_fsm MRP_EVENT_TXLA a') ;!
      mrp_lvatimer_fsm MRP_EVENT_LVATIMER ;!
      sr_put_flag true ;!
      mrp_lvatimer_fsm MRP_EVENT_TX ;!
      msrp_txpdu ;!
      sr_put_flag false ;! next
  | MRP_EVENT_RLA =>
      mrp_jointimer_start ;!
      match rattrib with
      | None => st_ret (false, -1)
      | Some r =>
          sr_for_each (fun a =>
            if decide (sr_type (sr_value a) = sr_type (sr_value r)) then
              let! a' := sr_applicant_fsm MRP_EVENT_RLA a in sr_registrar_fsm MRP_EVENT_RLA a'
            else st_ret a) ;!
          mrp_lvatimer_fsm MRP_EVENT_RLA ;! next
      end
  | MRP_EVENT_TX =>
      mrp_jointimer_stop ;!
      sr_for_each (sr_applicant_fsm MRP_EVENT_TX) ;!
      let! l := sr_get_list in
      let count := foldl sr_tx_count 0 l in
      msrp_txpdu ;!
      (if count =? 0 then st_ret 0 else mrp_jointimer_start) ;! next
  | MRP_EVENT_LVTIMER =>
      mrp_lvtimer_stop ;!
      let! l := sr_get_list in
      sr_lvtimer_loop [] l ;! next
  | MRP_EVENT_PERIODIC => next
  | MRP_EVENT_NEW | MRP_EVENT_JOIN | MRP_EVENT_RNEW | MRP_EVENT_RJOININ | MRP_EVENT_RJOINMT
  | MRP_EVENT_LV | MRP_EVENT_RIN | MRP_EVENT_RMT | MRP_EVENT_RLV => sr_attribute_switch event rattrib
  | _ => next
  end.

Definition msrp_event (event : mrp_event) (rattrib : option msrp_attribute) : stM SR Z :=
  let! r := sr_event_switch event rattrib in
  if fst r then sr_for_each sr_notify_one ;! st_ret 0
  else st_ret (snd r).

End Ops.
