(* ===== verification/MsrpRx.v ===== *)
(** * MsrpRx: reception of MSRP frames

    Model of [msrp_recv_msg] of [daemons/mrpd/msrp.c].  The four cases of its [switch]
    share the loops over the vectors and over the packed bytes; [rx_vectors] and
    [rx_bytes] are these loops, and the cases differ in [rx_domain], [rx_talker] and
    [rx_listener], which process one vector.  [None] is the [goto out] that abandons the
    frame. *)
From stdpp Require Import base gmap list strings numbers.
From S2P Require Import Prelude Text Parse Mrp Mvrp Mmrp Eui64set Msrp.
From S2P Require Import MsrpEmit MsrpDaemon.
#[local] Open Scope Z_scope.
#[local] Open Scope st_scope.

(** The locals that live across the messages of a frame: which LeaveAlls were seen, and
    the size of [listener_vectevt] (0 while it is NULL). *)
Record Rx := mkRx {
  saw_domain_lva : bool;
  saw_talker_lva : bool;
  saw_talkerfailed_lva : bool;
  saw_listener_lva : bool;
  listener_vectevt_sz : Z }.

Definition saw_lva (t : msrp_type) (rx : Rx) : bool :=
  match t with
  | MSRP_DOMAIN_TYPE => saw_domain_lva rx
  | MSRP_TALKER_ADV_TYPE => saw_talker_lva rx
  | MSRP_TALKER_FAILED_TYPE => saw_talkerfailed_lva rx
  | MSRP_LISTENER_TYPE => saw_listener_lva rx
  end.

Definition set_saw_lva (t : msrp_type) (rx : Rx) : Rx :=
  let '(mkRx d ta tf li sz) := rx in
  match t with
  | MSRP_DOMAIN_TYPE => mkRx true ta tf li sz
  | MSRP_TALKER_ADV_TYPE => mkRx d true tf li sz
  | MSRP_TALKER_FAILED_TYPE => mkRx d ta true li sz
  | MSRP_LISTENER_TYPE => mkRx d ta tf true sz
  end.

Definition set_vectevt_sz (sz : Z) (rx : Rx) : Rx :=
  mkRx (saw_domain_lva rx) (saw_talker_lva rx) (saw_talkerfailed_lva rx) (saw_listener_lva rx) sz.

(** [memcpy] of [n] bytes out of the buffer. *)
Definition peeks (buf : list Z) (i n : Z) : outcome (list Z) :=
  if (0 <=? i) && (i + n <=? Z.of_nat (length buf)) then Done (take (Z.to_nat n) (drop (Z.to_nat i) buf))
  else Fault OutOfBounds.

(** [p] is the offset of [AttributeListLength], [Data[0]]; the byte before it is
    [AttributeLength]. *)
Definition msrp_recv_msg_check_attrib_list_len (buf : list Z) (p eof : Z) : outcome bool :=
  list_len ← peek16 buf p;
  attrib_len ← peek buf (p - 1);
  if list_len <? attrib_len + 2 + 1 then Done false
  else if eof <=? p + list_len then Done false
  else
    b0 ← peek buf (p + list_len);
    if negb (b0 =? 0) then Done false
    else
      b1 ← peek buf (p + list_len + 1);
      Done (b1 =? 0).

(** An empty value of a type, as the LeaveAll events carry it. *)
Definition empty_value (t : msrp_type) : msrp_value :=
  match t with
  | MSRP_TALKER_ADV_TYPE => TalkerAdv zero_talker
  | MSRP_TALKER_FAILED_TYPE => TalkerFailed zero_talker
  | MSRP_LISTENER_TYPE => Listener zero_talker
  | MSRP_DOMAIN_TYPE => Domain zero_domain
  end.

(** The number of bytes that hold [num] packed events, [k] to a byte. *)
Definition packed_bytes (k num : Z) : Z := if num =? num / k * k then num / k else num / k + 1.

Section Rx.
Context `{MrpEnv} `{CLib}.

(** The [switch] over the attribute event. *)
Definition rx_dispatch (e : Z) (a : msrp_attribute) : stM SR unit :=
  match rx_event e with
  | Some ev => msrp_event ev (Some a) ;! st_ret tt
  | None => st_ret tt
  end.

(** The events of one packed byte; [one] processes an event and moves to the next value. *)
Fixpoint rx_values {V} (one : Z -> V -> stM SR (option V)) (evts : list Z) (v : V) : stM SR (option V) :=
  match evts with
  | [] => st_ret (Some v)
  | e :: evts' =>
      let! r := one e v in
      match r with
      | None => st_ret None
      | Some v' => rx_values one evts' v'
      end
  end.

(** The loop over [vectidx]: a byte that is not three events is discarded, and the value
    stays where it is. *)
Fixpoint rx_bytes {V} (one : Z -> V -> stM SR (option V)) (n : nat) (buf : list Z) (events vidx num : Z) (v : V)
    : stM SR (option V) :=
  match n with
  | O => st_ret (Some v)
  | S n' =>
      let! b := st_lift (peek buf (events + vidx)) in
      let processed := if 3 <? num then 3 else num in
      if MRPDU_LV <? b / 36 then rx_bytes one n' buf events (vidx + 1) (u16 (num - processed)) v
      else
        let! r := rx_values one (take (Z.to_nat processed) (unpack3 b)) v in
        match r with
        | None => st_ret None
        | Some v' => rx_bytes one n' buf events (vidx + 1) (u16 (num - processed)) v'
        end
  end.

(** ** Domains *)
Definition domain_one (vid : Z) (mac : list Z) (e : Z) (v : Z * Z) : stM SR (option (Z * Z)) :=
  let '(id, prio) := v in
  let! mem := draw mrp_malloc in
  if negb mem then st_ret None
  else
    rx_dispatch e (msrp_alloc (Domain (mkDomain id prio prio vid)) 0 MSRP_OPERATION_REGISTER mac) ;!
    st_ret (Some (u8 (id + 1), u8 (prio + 1))).

(** One vector of domains: the number of vector bytes. *)
Definition rx_domain (buf : list Z) (eof events num : Z) (mac : list Z) : stM SR (option Z) :=
  if eof <=? events + num / 3 then st_ret None
  else
    let! fv := st_lift (peeks buf events 4) in
    let vid := be_val (take 2 (drop 2 fv)) in
    let n := packed_bytes 3 num in
    let! r := rx_bytes (domain_one vid mac) (Z.to_nat (n + 1)) buf events 4 num (nth 0 fv 0, nth 1 fv 0) in
    match r with None => st_ret None | Some _ => st_ret (Some n) end.

(** ** Talkers *)
Definition talker_one (failed : bool) (fv mac : list Z) (e : Z) (v : list Z * list Z)
    : stM SR (option (list Z * list Z)) :=
  let '(id, dest) := v in
  let! mem := draw mrp_malloc in
  if negb mem then st_ret None
  else
    let t := read_talker failed fv id dest in
    rx_dispatch e (msrp_alloc (if failed then TalkerFailed t else TalkerAdv t) 0 MSRP_OPERATION_REGISTER mac) ;!
    st_ret (Some (msrp_increment_streamid id, mmrp_increment_macaddr dest)).

Definition rx_talker (failed : bool) (buf : list Z) (eof events num : Z) (mac : list Z) : stM SR (option Z) :=
  let len := attribute_length (talker_type failed) in
  if eof <=? events + num / 3 then st_ret None
  else
    let! fv := st_lift (peeks buf events len) in
    let n := packed_bytes 3 num in
    let! r := rx_bytes (talker_one failed fv mac) (Z.to_nat (n + 1)) buf events len num
                (take 8 fv, take 6 (drop 8 fv)) in
    match r with None => st_ret None | Some _ => st_ret (Some n) end.

(** ** Listeners *)

(** One element stored in [listener_vectevt], which holds [sz] and has [decl] in it. *)
Definition rx_store (sz : Z) (decl : list Z) (x : Z) : stM SR (option (Z * list Z)) :=
  if Z.of_nat (length decl) =? sz then
    let! mem := draw mrp_malloc in
    if negb mem then st_ret None else st_ret (Some (sz + 64, decl ++ [x]))
  else if Z.of_nat (length decl) <? sz then st_ret (Some (sz, decl ++ [x]))
  else st_lift (Fault OutOfBounds).

Fixpoint rx_store_all (sz : Z) (decl : list Z) (xs : list Z) : stM SR (option (Z * list Z)) :=
  match xs with
  | [] => st_ret (Some (sz, decl))
  | x :: xs' =>
      let! r := rx_store sz decl x in
      match r with None => st_ret None | Some (sz', decl') => rx_store_all sz' decl' xs' end
  end.

(** The 4-packed events: [n] bytes from [vidx] on. *)
Fixpoint rx_declared (n : nat) (buf : list Z) (events vidx num sz : Z) (decl : list Z)
    : stM SR (option (Z * list Z)) :=
  match n with
  | O => st_ret (Some (sz, decl))
  | S n' =>
      let! b := st_lift (peek buf (events + vidx)) in
      let processed := if 4 <? num then 4 else num in
      let! r := rx_store_all sz decl (take (Z.to_nat processed) (unpack4 b)) in
      match r with
      | None => st_ret None
      | Some (sz', decl') => rx_declared n' buf events (vidx + 1) (u16 (num - processed)) sz' decl'
      end
  end.

(** [v] is the stream and [listener_vectevt_idx]. *)
Definition listener_one (decl mac : list Z) (e : Z) (v : list Z * nat) : stM SR (option (list Z * nat)) :=
  let '(id, idx) := v in
  let! sub := st_lift (or_fault OutOfBounds (decl !! idx)) in
  let next := (msrp_increment_streamid id, S idx) in
  if sub =? MSRP_LISTENER_IGNORE then st_ret (Some next)
  else
    let! mem := draw mrp_malloc in
    if negb mem then st_ret None
    else
      rx_dispatch e (msrp_alloc (Listener (set_StreamID id zero_talker)) sub MSRP_OPERATION_REGISTER mac) ;!
      st_ret (Some next).

(** The number of vector bytes of both kinds, and the size of [listener_vectevt]. *)
Definition rx_listener (buf : list Z) (eof events num sz : Z) (mac : list Z) : stM SR (option (Z * Z)) :=
  if eof <=? events + num / 3 + num / 4 then st_ret None
  else
    let! id := st_lift (peeks buf events 8) in
    let n4 := packed_bytes 4 num in
    let n3 := packed_bytes 3 num in
    let endbyte := 8 + n3 + n4 in
    if eof <=? events + endbyte then st_ret None
    else
      let! mem := (if sz =? 0 then draw mrp_malloc else st_ret true) in
      if negb mem then st_ret None
      else
        let! r := rx_declared (Z.to_nat n4) buf events (8 + n3) num (if sz =? 0 then 64 else sz) [] in
        match r with
        | None => st_ret None
        | Some (sz', decl) =>
            let! r := rx_bytes (listener_one decl mac) (Z.to_nat (n3 + 1)) buf events 8 num (id, 0%nat) in
            match r with None => st_ret None | Some _ => st_ret (Some (n3 + n4, sz')) end
        end.

(** ** The vectors of a message *)
Definition rx_vector (t : msrp_type) (buf : list Z) (eof events num : Z) (rx : Rx) (mac : list Z)
    : stM SR (option (Z * Rx)) :=
  let keep m := let! r := m in match r with None => st_ret None | Some n => st_ret (Some (n, rx)) end in
  match t with
  | MSRP_DOMAIN_TYPE => keep (rx_domain buf eof events num mac)
  | MSRP_TALKER_ADV_TYPE => keep (rx_talker false buf eof events num mac)
  | MSRP_TALKER_FAILED_TYPE => keep (rx_talker true buf eof events num mac)
  | MSRP_LISTENER_TYPE =>
      let! r := rx_listener buf eof events num (listener_vectevt_sz rx) mac in
      match r with None => st_ret None | Some (n, sz) => st_ret (Some (n, set_vectevt_sz sz rx)) end
  end.

(** A LeaveAll for the attributes of a type; [false] is the [goto out]. *)
Definition rx_leaveall (t : msrp_type) : stM SR bool :=
  let! mem := draw mrp_malloc in
  if negb mem then st_ret false
  else
    msrp_event MRP_EVENT_RLA (Some (msrp_alloc (empty_value t) 0 MSRP_OPERATION_REGISTER (replicate 6 0))) ;!
    st_ret true.

(** [mrpdu_msg_ptr[0] == 0 && mrpdu_msg_ptr[1] == 0]. *)
Definition rx_endmark (buf : list Z) (ptr : Z) : stM SR bool :=
  let! b0 := st_lift (peek buf ptr) in
  if b0 =? 0 then let! b1 := st_lift (peek buf (ptr + 1)) in st_ret (b1 =? 0) else st_ret false.

(** The vectors up to the end mark: the pointer to it and the locals. *)
Fixpoint rx_vectors (t : msrp_type) (fuel : nat) (buf : list Z) (eof ptr : Z) (rx : Rx) (mac : list Z)
    : stM SR (option (Z * Rx)) :=
  let! mark := rx_endmark buf ptr in
  if (mark : bool) then st_ret (Some (ptr, rx))
  else
    match fuel with
    | O => st_lift (Fault OutOfFuel)
    | S fuel' =>
        let! header := st_lift (peek16 buf ptr) in
        let num := MRPDU_VECT_NUMVALUES header in
        let leaveall := MRPDU_VECT_LVA header && negb (saw_lva t rx) in
        let rx := if leaveall then set_saw_lva t rx else rx in
        let! ok := (if leaveall then rx_leaveall t else st_ret true) in
        if negb ok then st_ret None
        else if num =? 0 then rx_vectors t fuel' buf eof (ptr + 2 + attribute_length t) rx mac
        else
          let! r := rx_vector t buf eof (ptr + 2) num rx mac in
          match r with
          | None => st_ret None
          | Some (n, rx) => rx_vectors t fuel' buf eof (ptr + 2 + attribute_length t + n) rx mac
          end
    end.

(** How far a message is skipped whose list length makes no sense. *)
Definition skip_length (t : msrp_type) (num : Z) : Z :=
  2 + attribute_length t + (num + 2) / 3 +
  match t with MSRP_LISTENER_TYPE => (num + 3) / 4 | _ => 0 end.

(** A message of a known type at [ptr]: where the next one is, and the locals. *)
Definition rx_message (t : msrp_type) (buf : list Z) (eof ptr len : Z) (rx : Rx) (mac : list Z)
    : stM SR (option (Z * Rx)) :=
  if negb (len =? attribute_length t) then st_ret None
  else
    let vectors := ptr + 4 in
    let! ok := st_lift (msrp_recv_msg_check_attrib_list_len buf (ptr + 2) eof) in
    if negb ok then
      let! header := st_lift (peek16 buf vectors) in
      st_ret (Some (vectors + skip_length t (MRPDU_VECT_NUMVALUES header), rx))
    else rx_vectors t (length buf) buf eof vectors rx mac.

Definition type_of_code (c : Z) : option msrp_type :=
  if c =? 4 then Some MSRP_DOMAIN_TYPE
  else if c =? 3 then Some MSRP_LISTENER_TYPE
  else if c =? 1 then Some MSRP_TALKER_ADV_TYPE
  else if c =? 2 then Some MSRP_TALKER_FAILED_TYPE
  else None.

(** The message list. *)
Fixpoint rx_messages (fuel : nat) (buf : list Z) (eof ptr endmarks : Z) (rx : Rx) (mac : list Z) : stM SR Z :=
  if negb (ptr <? eof - MRPDU_ENDMARK_SZ) then st_ret 0
  else
    match fuel with
    | O => st_lift (Fault OutOfFuel)
    | S fuel' =>
        let! c := st_lift (peek buf ptr) in
        let! len := st_lift (peek buf (ptr + 1)) in
        if (c =? 0) && (len =? 0) then
          if endmarks + 1 <? 2 then rx_messages fuel' buf eof (ptr + 2) (endmarks + 1) rx mac
          else st_ret 0
        else
          match type_of_code c with
          | None => st_ret (-1)
          | Some t =>
              let! r := rx_message t buf eof ptr len rx mac in
              match r with
              | None => st_ret (-1)
              | Some (ptr', rx') => rx_messages fuel' buf eof ptr' 0 rx' mac
              end
          end
    end.

(** [frame] is what [recvmsg] delivers; [None] when it delivers nothing. *)
Definition msrp_recv_msg (frame : option (list Z)) : stM SR Z :=
  let! mem := draw mrp_malloc in
  if negb mem then st_ret (-1)
  else
    match frame with
    | None => st_ret (-1)
    | Some f =>
        let buf := recv_buf f in
        let bytes := Z.min (Z.of_nat (length f)) MAX_FRAME_SIZE in
        if bytes <? 14 + 1 + 2 then st_ret (-1)
        else
          let! etype := st_lift (peek16 buf 12) in
          if negb (etype =? MSRP_ETYPE) then st_ret (-1)
          else if decide (take 6 buf = MSRP_ADDR) then
            rx_messages (length buf) buf bytes 15 0 (mkRx false false false false 0) (take 6 (drop 6 buf))
          else st_ret (-1)
    end.

End Rx.
