(* ===== verification/MsrpCmd.v ===== *)
(** * MsrpCmd: the control commands of MSRP, start-up and shutdown

    Model of the commands of clients in [daemons/mrpd/msrp.c] (declare and withdraw
    streams, listeners and domains, the table dump, the set of interesting streams), and
    of [msrp_init], [msrp_reset], [msrp_bye] and [msrp_reclaim]. *)
From stdpp Require Import base gmap list strings numbers.
From S2P Require Import Prelude Text Parse Mrp Mvrp Mmrp Eui64set Msrp.
From S2P Require Import MsrpEmit MsrpDaemon.
#[local] Open Scope Z_scope.
#[local] Open Scope st_scope.

(** ** Parsing

    A parser returns the result, the value, and the text [parse] leaves in the buffer. *)
Definition spec (name : string) (t : parse_types) : parse_param := mkParam (bytes_of_string name) t.

Definition run_parse {V} (buf : list Z) (buflen least : Z) (specs : list parse_param) (none : V)
    (read : list parse_value -> V) : Z * V * list Z :=
  if buflen <? least then (-1, none, c_string buf)
  else
    let r := parse (drop 4 buf) (buflen - 4) specs in
    (prc r, read (pvalues r), parsed_text buf r).

(** The values written to the fields of a cleared structure, in the order of the table. *)
Definition int_at (vs : list parse_value) (i : nat) : Z :=
  match vs !! i with Some (PInt v) => v | _ => 0 end.
Definition bytes_at (vs : list parse_value) (i len : nat) : list Z :=
  match vs !! i with Some (PBytes b) => b | _ => replicate len 0 end.

Definition msrp_cmd_parse_stream_id (buf : list Z) (buflen : Z) : Z * list Z * list Z :=
  run_parse buf buflen (16 + 4) [spec "S=" parse_c64] (replicate 8 0) (fun vs => bytes_at vs 0 8).

Definition stream_specs : list parse_param :=
  [spec "S=" parse_c64; spec "A=" parse_mac; spec "V=" parse_u16_04x; spec "Z=" parse_u16;
   spec "I=" parse_u16; spec "P=" parse_u8; spec "L=" parse_u32].

Definition stream_of (failed : bool) (vs : list parse_value) : msrpdu_talker_fail :=
  mkTalker (bytes_at vs 0 8) (bytes_at vs 1 6) (int_at vs 2) (int_at vs 3) (int_at vs 4) (int_at vs 5) (int_at vs 6)
    (if failed then bytes_at vs 7 8 else replicate 8 0) (if failed then int_at vs 8 else 0).

Definition msrp_cmd_parse_join_or_new_stream (buf : list Z) (buflen : Z) : Z * msrpdu_talker_fail * list Z :=
  run_parse buf buflen 22 stream_specs zero_talker (stream_of false).

Definition msrp_cmd_parse_join_or_new_stream_failure (buf : list Z) (buflen : Z) : Z * msrpdu_talker_fail * list Z :=
  run_parse buf buflen 47 (stream_specs ++ [spec "B=" parse_c64; spec "C=" parse_u8]) zero_talker (stream_of true).

Definition only_stream (vs : list parse_value) : msrpdu_talker_fail := set_StreamID (bytes_at vs 0 8) zero_talker.

Definition msrp_cmd_parse_leave_stream (buf : list Z) (buflen : Z) : Z * msrpdu_talker_fail * list Z :=
  run_parse buf buflen 22 [spec "S=" parse_c64] zero_talker only_stream.

Definition msrp_cmd_parse_report_listener_status (buf : list Z) (buflen : Z) : Z * (msrpdu_talker_fail * Z) * list Z :=
  run_parse buf buflen 26 [spec "L=" parse_c64; spec "D=" parse_u32] (zero_talker, 0)
    (fun vs => (only_stream vs, int_at vs 1)).

Definition msrp_cmd_parse_withdraw_listener_status (buf : list Z) (buflen : Z) : Z * msrpdu_talker_fail * list Z :=
  run_parse buf buflen 22 [spec "L=" parse_c64] zero_talker only_stream.

Definition msrp_cmd_parse_domain_status (buf : list Z) (buflen : Z) : Z * msrpdu_domain * list Z :=
  run_parse buf buflen 18 [spec "C=" parse_u8; spec "P=" parse_u8; spec "V=" parse_u16_04x] zero_domain
    (fun vs => mkDomain (int_at vs 0) (int_at vs 1) 0 (int_at vs 2)).

Section Cmd.
Context `{MrpEnv} `{CLib}.

(** ** Running *)

(** A new attribute for an event; -1 when there is no memory for it. *)
Definition declare_event (event : mrp_event) (make : list msrp_attribute -> msrp_attribute) : stM SR Z :=
  let! mem := draw mrp_malloc in
  if negb mem then st_ret (-1)
  else
    let! l := sr_get_list in
    msrp_event event (Some (make l)) ;! st_ret 0.

Definition no_mac : list Z := replicate 6 0.

Definition msrp_cmd_join_or_new_stream (t : msrpdu_talker_fail) (failed : bool) (event : mrp_event) : stM SR Z :=
  declare_event event (fun _ =>
    msrp_alloc (if failed then TalkerFailed t else TalkerAdv t) 0 MSRP_OPERATION_DECLARE no_mac).

Definition msrp_cmd_leave_stream (t : msrpdu_talker_fail) : stM SR Z :=
  declare_event MRP_EVENT_LV (fun _ => msrp_alloc (TalkerAdv t) 0 MSRP_OPERATION_REGISTER no_mac).

Definition msrp_cmd_report_listener_status (t : msrpdu_talker_fail) (sub : Z) : stM SR Z :=
  declare_event MRP_EVENT_NEW (fun _ => msrp_alloc (Listener t) sub MSRP_OPERATION_DECLARE no_mac).

(** The substate of the listener that is there is kept. *)
Definition msrp_cmd_withdraw_listener_status (t : msrpdu_talker_fail) : stM SR Z :=
  declare_event MRP_EVENT_LV (fun l =>
    msrp_alloc (Listener t) (match msrp_lookup l (Listener t) with Some a => substate a | None => 0 end)
      MSRP_OPERATION_REGISTER no_mac).

Definition msrp_cmd_report_domain_status (d : msrpdu_domain) (report : bool) : stM SR Z :=
  declare_event (if report then MRP_EVENT_JOIN else MRP_EVENT_LV) (fun _ =>
    msrp_alloc (Domain (mkDomain (SRclassID d) (SRclassPriority d) (SRclassPriority d) (SRclassVID d))) 0
      MSRP_OPERATION_REGISTER no_mac).

(** The talkers of a stream are unlinked and freed, without a notification. *)
Definition talks_for (id : list Z) (a : msrp_attribute) : bool :=
  match is_talker (sr_value a) with Some x => memcmp x id =? 0 | None => false end.

Definition drop_talkers (id : list Z) : stM SR unit :=
  let! l := sr_get_list in
  sr_put_list (base.filter (fun a => talks_for id a = false) l).

Definition find_interesting (d : msrp_database) (id : list Z) : bool :=
  bool_decide (is_Some (eui64set_find (interesting_stream_ids d) (eui64_read id))).

(** ** The table dump *)
Fixpoint sr_dump_loop (l : list msrp_attribute) (text : string) : outcome string :=
  match l with
  | [] => Done text
  | a :: l' =>
      sprintf_at 128 0 (dump_variant a) ;;
      sprintf_at 128 0 (dump_regsrc a) ;;
      sprintf_at 128 0 (sr_dump_line a) ;;
      sprintf_at MAX_MRPD_CMDSZ (Z.of_nat (String.length text)) (sr_dump_line a) ;;
      sr_dump_loop l' (text +:+ sr_dump_line a)
  end.

Definition msrp_dumptable (client : sockaddr_in) : stM SR Z :=
  let! m1 := draw mrp_malloc in
  if negb m1 then st_ret (-1)
  else
    let! m2 := draw mrp_malloc in
    let! m3 := draw mrp_malloc in
    let! m4 := draw mrp_malloc in
    if negb (m2 && m3 && m4) then st_ret 0
    else
      let! l := sr_get_list in
      let! text := (if decide (l = []) then st_ret ("MSRP:Empty" +:+ newline)
                    else st_lift (sr_dump_loop l String.EmptyString)) in
      mrpd_send_ctl_msg client text MAX_MRPD_CMDSZ ;! st_ret 0.

(** ** Commands *)

(** A reply of at most 62 characters, in a datagram of 64 bytes. *)
Definition sr_respond (client : sockaddr_in) (text : string) : stM SR Z :=
  mrpd_send_ctl_msg client (snprintf (64 - 1) text) 64 ;! st_ret (-1).

Definition reply_ERP (client : sockaddr_in) (text : list Z) : stM SR Z :=
  sr_respond client ("ERP " +:+ string_of_bytes text).
Definition reply_ERI (client : sockaddr_in) (text : list Z) : stM SR Z :=
  sr_respond client ("ERI " +:+ string_of_bytes text).

(** A parsed command: [ERP] for bad parameters, [ERI] when it fails. *)
Definition sr_command {V} (parsed : Z * V * list Z) (run : V -> stM SR Z) (client : sockaddr_in) : stM SR Z :=
  let '(rc, v, text) := parsed in
  if negb (rc =? 0) then reply_ERP client text
  else
    let! rc := run v in
    if negb (rc =? 0) then reply_ERI client text else st_ret 0.

(** S-L: with pruning, the talkers of a stream that is not interesting go too. *)
Definition withdraw_listener (t : msrpdu_talker_fail) : stM SR Z :=
  let! rc := msrp_cmd_withdraw_listener_status t in
  if negb (rc =? 0) then st_ret rc
  else
    let! s := st_get in
    (when enable_pruning (app s) && negb (find_interesting (app s) (StreamID t)) do drop_talkers (StreamID t)) ;!
    st_ret 0.

(** S+? and S++: [B=] anywhere in the command makes it a failed talker. *)
Definition stream_command (buf : list Z) (buflen : Z) (client : sockaddr_in) : stM SR Z :=
  let event := if decide (buf !! 2%nat = Some 63) then MRP_EVENT_JOIN else MRP_EVENT_NEW in
  if bool_decide (is_Some (strstr (bytes_of_string "B=") (c_string buf)))
  then sr_command (msrp_cmd_parse_join_or_new_stream_failure buf buflen)
         (fun t => msrp_cmd_join_or_new_stream t true event) client
  else sr_command (msrp_cmd_parse_join_or_new_stream buf buflen)
         (fun t => msrp_cmd_join_or_new_stream t false event) client.

(** I+S: the result of the insertion is -1 for a duplicate or a full set. *)
Definition add_interesting (id : list Z) : stM SR Z :=
  let! s := st_get in
  if find_interesting (app s) id then st_ret (-1)
  else
    let! r := st_lift (eui64set_insert_and_sort (interesting_stream_ids (app s)) (eui64_read id) 0) in
    let '(ok, ids) := r in
    sr_put_ids ids ;! st_ret (if ok =? 0 then -1 else 0).

(** I-S: without a listener the talkers of the stream go too. *)
Definition remove_interesting (id : list Z) : stM SR Z :=
  let! s := st_get in
  let! r := st_lift (eui64set_remove_and_sort (interesting_stream_ids (app s)) (eui64_read id)) in
  let '(ok, ids, _) := r in
  sr_put_ids ids ;!
  if ok =? 0 then st_ret (-1)
  else
    let! l := sr_get_list in
    (when negb (bool_decide (is_Some (msrp_lookup l (Listener (set_StreamID id zero_talker))))) do drop_talkers id) ;!
    st_ret 0.

(** The commands on the set of interesting streams need pruning. *)
Definition interest_command (buf : list Z) (buflen : Z) (run : list Z -> stM SR Z) (client : sockaddr_in) : stM SR Z :=
  let! s := st_get in
  if negb (enable_pruning (app s)) then reply_ERP client (c_string buf)
  else sr_command (msrp_cmd_parse_stream_id buf buflen) run client.

Definition starts (buf : list Z) (text : string) : bool :=
  bool_decide (take (String.length text) buf = bytes_of_string text).

(** The dispatch on the first three characters. *)
Definition sr_dispatch (buf : list Z) (buflen : Z) (client : sockaddr_in) : stM SR Z :=
  if starts buf "S??" then msrp_dumptable client ;! st_ret 0
  else if starts buf "S-L" then
    sr_command (msrp_cmd_parse_withdraw_listener_status buf buflen) withdraw_listener client
  else if starts buf "S-D" then
    sr_command (msrp_cmd_parse_domain_status buf buflen) (fun d => msrp_cmd_report_domain_status d false) client
  else if starts buf "S--" then
    sr_command (msrp_cmd_parse_leave_stream buf buflen) msrp_cmd_leave_stream client
  else if starts buf "S+L" then
    sr_command (msrp_cmd_parse_report_listener_status buf buflen)
      (fun x => msrp_cmd_report_listener_status (fst x) (snd x)) client
  else if starts buf "S+D" then
    sr_command (msrp_cmd_parse_domain_status buf buflen) (fun d => msrp_cmd_report_domain_status d true) client
  else if starts buf "S+?" || starts buf "S++" then stream_command buf buflen client
  else if starts buf "I+S" then interest_command buf buflen add_interesting client
  else if starts buf "I-S" then interest_command buf buflen remove_interesting client
  else if starts buf "I-A" then
    let! s := st_get in sr_put_ids (eui64set_clear (interesting_stream_ids (app s))) ;! st_ret 0
  else sr_respond client ("ERC MSRP " +:+ string_of_bytes (c_string buf)).

Definition too_many : string := "ERR pruning enabled too many clients" +:+ newline.

(** A command when the database is there; with pruning there is only one client. *)
Definition sr_recv_cmd_db (buf : list Z) (buflen : Z) (client : sockaddr_in) : stM SR Z :=
  let! mem := draw mrp_malloc in
  upd_mdb (fun d => set_clients (snd (mrp_client_add mem (clients d) (Some client))) d) ;!
  let! s := st_get in
  if enable_pruning (app s) && (1 <? mrp_client_count (clients (mdb s))) then
    upd_mdb (fun d => set_clients (snd (mrp_client_delete (clients d) (Some client))) d) ;!
    mrpd_send_ctl_msg client too_many (Z.of_nat (String.length too_many) + 1 + 1) ;! st_ret (-1)
  else if buflen <? 3 then st_ret (-1)
  else if negb (bool_decide (head buf = Some 83)) && negb (bool_decide (head buf = Some 73)) then st_ret (-1)
  else sr_dispatch buf buflen client.

(** ** The global [MSRP_db]: NULL while the protocol is disabled *)
Definition MsrpGlobal : Type := Io + SR.

Definition sr_null_respond (client : sockaddr_in) (text : string) : stM Io Z :=
  st_modify (fun i => if control_socket i =? -1 then i else add_ctl (client, snprintf (64 - 1) text, 64) i) ;!
  st_ret (-1).

Definition msrp_recv_cmd (buf : list Z) (buflen : Z) (client : sockaddr_in) : stM MsrpGlobal Z :=
  with_db (sr_null_respond client ("ERC MSRP_db " +:+ string_of_bytes (c_string buf) +:+ newline))
    (sr_recv_cmd_db buf buflen client).

Definition msrp_reclaim : stM MsrpGlobal Z :=
  with_db (st_ret 0) (let! l := sr_get_list in sr_reclaim_loop [] l ;! st_ret 0).

Definition msrp_bye (client : sockaddr_in) : stM MsrpGlobal unit :=
  with_db (st_ret tt)
    (upd_mdb (fun d => set_clients (snd (mrp_client_delete (clients d) (Some client))) d)).

Definition msrp_interesting_id_count (g : MsrpGlobal) : Z :=
  match g with inl _ => 0 | inr s => eui64set_num_entries (interesting_stream_ids (app s)) end.

(** The attributes, the set, the clients and the database are freed; [MSRP_db] is left
    dangling. *)
Definition msrp_reset (g : MsrpGlobal) : Io := match g with inl i => i | inr s => io s end.

(** [socket_rc], [mem], [ids_mem] and the descriptors are what the socket call, [malloc],
    [calloc] and [timerfd_create] answer. *)
Definition msrp_init (msrp_enable : bool) (max_interesting_stream_ids : Z) (pruning : bool)
    (socket_rc : Z) (mem ids_mem : bool) (join lv lv_all : Z) : stM MsrpGlobal Z :=
  fun g =>
    let i := match g with inl i => i | inr s => io s end in
    if negb msrp_enable then Done (0, inl i)
    else if socket_rc <? 0 then Done (-1, inl i)
    else if negb mem then Done (-1, inl i)
    else
      let max := if max_interesting_stream_ids <? 8 then 8 else max_interesting_stream_ids in
      let '(rc, ids) := eui64set_init max ids_mem in
      if rc <? 0 then Done (-1, inl i)
      else
        match mrpd_init_timers join lv lv_all with
        | None => Done (-1, inl i)
        | Some db =>
            match mrp_lvatimer_fsm MRP_EVENT_BEGIN (mkMrp db (mkMsrpDb [] false ids pruning) i) with
            | Done (_, s) => Done (0, inr s)
            | Fault w => Fault w
            end
        end.

End Cmd.
