(* ===== verification/MsrpInv.v ===== *)
(** * MsrpInv: the attribute list of MSRP

    Attributes are identified by a key: the stream of a talker (advertised or failed), the
    stream of a listener, or the class of a domain.  The list has one attribute for each
    key, and every field is in the range of its type; insertion and merging preserve it.
    (The list is not kept sorted: merging changes the type of a talker in its place.) *)
From stdpp Require Import base gmap list strings numbers sorting.
From S2P Require Import Prelude Text Parse Mrp MrpProps Mvrp MvrpWire Mmrp.
From S2P Require Import MmrpInv Eui64set Msrp.
#[local] Open Scope Z_scope.

(** ** Keys *)
Inductive msrp_key := KTalker (id : list Z) | KListener (id : list Z) | KDomain (class : Z).

#[global] Instance msrp_key_eq_dec : EqDecision msrp_key.
Proof. solve_decision. Defined.
#[global] Instance msrp_key_countable : Countable msrp_key.
Proof.
  apply (inj_countable' (fun k => match k with KTalker i => inl i | KListener i => inr (inl i) | KDomain c => inr (inr c) end)
    (fun s => match s with inl i => KTalker i | inr (inl i) => KListener i | inr (inr c) => KDomain c end)).
  by intros [].
Defined.

Definition key_of (v : msrp_value) : msrp_key :=
  match v with
  | TalkerAdv t | TalkerFailed t => KTalker (StreamID t)
  | Listener t => KListener (StreamID t)
  | Domain d => KDomain (SRclassID d)
  end.

Definition sr_keys (l : list msrp_attribute) : list msrp_key := (fun a => key_of (sr_value a)) <$> l.

(** ** Ranges *)
Definition byte_string (n : nat) (l : list Z) : Prop := length l = n /\ Forall is_byte l.

Record talker_ok (t : msrpdu_talker_fail) : Prop := mkTalkerOk {
  to_id : byte_string 8 (StreamID t);
  to_dest : byte_string 6 (Dest_Addr t);
  to_vlan : 0 <= Vlan_ID t < 65536;
  to_frame : 0 <= MaxFrameSize t < 65536;
  to_interval : 0 <= MaxIntervalFrames t < 65536;
  to_rank : 0 <= PriorityAndRank t < 256;
  to_latency : 0 <= AccumulatedLatency t < 2 ^ 32;
  to_bridge : byte_string 8 (BridgeID t);
  to_code : 0 <= FailureCode t < 256 }.

Record domain_ok (d : msrpdu_domain) : Prop := mkDomainOk {
  do_class : 0 <= SRclassID d < 256;
  do_prio : 0 <= SRclassPriority d < 256;
  do_neighbor : 0 <= neighborSRclassPriority d < 256;
  do_vid : 0 <= SRclassVID d < 65536 }.

Definition sr_value_ok (v : msrp_value) : Prop :=
  match v with
  | TalkerAdv t | TalkerFailed t | Listener t => talker_ok t
  | Domain d => domain_ok d
  end.

Record sr_attr_ok (a : msrp_attribute) : Prop := mkSrAttrOk {
  so_value : sr_value_ok (sr_value a);
  so_substate : 0 <= substate a < 2 ^ 32;
  so_mac : length (macaddr (sr_registrar a)) = 6%nat }.

Record sr_list_ok (l : list msrp_attribute) : Prop := mkSrListOk {
  sl_nodup : NoDup (sr_keys l);
  sl_attrs : Forall sr_attr_ok l }.

Lemma zeros n : byte_string n (replicate n 0).
Proof. split; [apply length_replicate|]. apply Forall_replicate. by split. Qed.

Lemma zero_talker_ok : talker_ok zero_talker.
Proof. split; cbn; first [apply zeros | apply (zeros 6) | apply (zeros 8) | lia]. Qed.
Lemma zero_domain_ok : domain_ok zero_domain.
Proof. by split. Qed.
Lemma set_StreamID_ok id t : byte_string 8 id -> talker_ok t -> talker_ok (set_StreamID id t).
Proof. by intros ? []. Qed.
Lemma set_Dest_Addr_ok mac t : byte_string 6 mac -> talker_ok t -> talker_ok (set_Dest_Addr mac t).
Proof. by intros ? []. Qed.
Lemma set_FailureInformation_ok b c t :
  byte_string 8 b -> 0 <= c < 256 -> talker_ok t -> talker_ok (set_FailureInformation b c t).
Proof. by intros ? ? []. Qed.

Create HintDb msrp_db.
#[export] Hint Resolve zero_talker_ok zero_domain_ok set_StreamID_ok set_Dest_Addr_ok set_FailureInformation_ok : msrp_db.

(** ** Lookup *)
Lemma memcmp_id x y : byte_string 8 x -> byte_string 8 y -> (memcmp x y =? 0) = true <-> x = y.
Proof. intros [H1 _] [H2 _]. rewrite Z.eqb_eq. apply memcmp_eq. congruence. Qed.

Lemma sr_same_spec a r : sr_value_ok a -> sr_value_ok r -> sr_same a r = true <-> key_of a = key_of r.
Proof.
  destruct a, r; cbn [sr_same key_of sr_value_ok]; intros Ha Hr; try (split; congruence);
    try (rewrite memcmp_id by (apply Ha || apply Hr); split; congruence).
  rewrite Z.eqb_eq. split; congruence.
Qed.

Lemma sr_values_ok l : sr_list_ok l -> Forall (fun a => sr_value_ok (sr_value a)) l.
Proof. intros [_ H]. eapply Forall_impl; [exact H|]. by intros a []. Qed.

Lemma msrp_lookup_split l r :
  Forall (fun a => sr_value_ok (sr_value a)) l -> sr_value_ok r ->
  match msrp_lookup l r with
  | Some a => exists b c, l = b ++ a :: c /\ key_of (sr_value a) = key_of r /\ sr_split r l = Some (b, a, c)
  | None => key_of r ∉ sr_keys l
  end.
Proof.
  intros Hl Hr. induction Hl as [|a l Ha _ IH]; cbn [msrp_lookup sr_split]; [apply not_elem_of_nil|].
  destruct (sr_same (sr_value a) r) eqn:E.
  - apply sr_same_spec in E; [|done..]. by exists [], l.
  - assert (key_of (sr_value a) <> key_of r) as Hne by (intros H; apply sr_same_spec in H; [congruence|done..]).
    destruct (msrp_lookup l r) as [x|].
    + destruct IH as (b & c & -> & H1 & H2). exists (a :: b), c. by rewrite H2.
    + unfold sr_keys. rewrite fmap_cons, not_elem_of_cons. auto.
Qed.

Lemma sr_split_middle v b a c :
  sr_value_ok v -> Forall (fun a => sr_value_ok (sr_value a)) (b ++ a :: c) -> NoDup (sr_keys (b ++ a :: c)) ->
  key_of (sr_value a) = key_of v -> sr_split v (b ++ a :: c) = Some (b, a, c).
Proof.
  intros Hv. induction b as [|x b IH]; intros Hok Hn Ha; cbn [Datatypes.app sr_split] in *; apply Forall_cons_iff in Hok as [Hx Hok].
  - assert (sr_same (sr_value a) v = true) as -> by (by apply sr_same_spec). done.
  - unfold sr_keys in Hn. rewrite fmap_cons in Hn. apply list.NoDup_cons in Hn as [Hn Hn'].
    destruct (sr_same (sr_value x) v) eqn:E.
    + exfalso. apply sr_same_spec in E; [|done..]. apply Hn. rewrite E, <- Ha, fmap_app, fmap_cons. set_solver.
    + by rewrite IH.
Qed.

(** ** Insertion: somewhere *)
Lemma msrp_add_spec l r : exists b c, l = b ++ c /\ msrp_add l r = b ++ r :: c.
Proof.
  induction l as [|a l (b & c & E1 & E2)]; [by exists [], []|]. cbn [msrp_add].
  assert (exists b' c', a :: l = b' ++ c' /\ a :: msrp_add l r = b' ++ r :: c') as Hgo
    by (exists (a :: b), c; rewrite E2; cbn [Datatypes.app]; by rewrite <- E1).
  destruct (decide _); [|done]. destruct (sr_less _ _); [|by exists [], (a :: l)].
  destruct l as [|n l]; [by exists [a], []|]. destruct (decide _); [done|]. by exists [a], (n :: l).
Qed.

Lemma sr_list_ok_insert b c r :
  sr_list_ok (b ++ c) -> sr_attr_ok r -> key_of (sr_value r) ∉ sr_keys (b ++ c) -> sr_list_ok (b ++ r :: c).
Proof.
  intros [H1 H2] Hr Hn. assert (sr_keys (b ++ r :: c) ≡ₚ key_of (sr_value r) :: sr_keys (b ++ c)) as Hp
    by (unfold sr_keys; rewrite !fmap_app, fmap_cons; symmetry; apply Permutation_middle).
  split; [rewrite Hp; by constructor|]. apply Forall_app in H2 as [??]. apply Forall_app. split; [done|by constructor].
Qed.

(** ** Changes of one attribute *)
Lemma sr_list_ok_replace b a c a' :
  sr_list_ok (b ++ a :: c) -> sr_attr_ok a' -> key_of (sr_value a') = key_of (sr_value a) -> sr_list_ok (b ++ a' :: c).
Proof.
  intros [H1 H2] Ha' Hk. split.
  - unfold sr_keys in *. rewrite fmap_app, fmap_cons in *. by rewrite Hk.
  - apply Forall_app in H2 as [H2 H3]. apply Forall_cons_iff in H3 as [_ H3]. apply Forall_app. split; [done|by constructor].
Qed.

Lemma sr_list_ok_sublist l l' : l' `sublist_of` l -> sr_list_ok l -> sr_list_ok l'.
Proof.
  intros Hs [H1 H2]. split; [eapply sublist_NoDup; [exact H1|]; by apply fmap_sublist|].
  rewrite list.Forall_forall in H2 |- *. intros a Ha. apply H2. by eapply elem_of_sublist.
Qed.

Lemma merge_into_ok blocked r a :
  sr_attr_ok r -> sr_attr_ok a -> sr_attr_ok (merge_into blocked r a) /\
  key_of (sr_value (merge_into blocked r a)) = key_of (sr_value a).
Proof.
  intros [Hr1 Hr2 Hr3] [Ha1 Ha2 Ha3]. unfold merge_into. destruct a as [v sub op ap rg]; destruct v; destruct r as [v' sub' op' ap' rg']; destruct v';
    cbn in *; try (split; [by split|done]);
    unfold merge_talker, merge_listener, merge_domain, sr_force_mt; cbn; repeat case_match; (split; [split|]; cbn; try done);
    try (apply set_FailureInformation_ok; [apply Hr1|apply Hr1|done]).
  all: destruct Ha1, Hr1; by split.
Qed.

(** The attributes that stay after a reclaim. *)
Definition sr_kept (l : list msrp_attribute) : list msrp_attribute := base.filter (fun a => sr_reclaimable a = false) l.

Lemma sr_kept_sublist l : sr_kept l `sublist_of` l.
Proof. apply sublist_filter. Qed.
Lemma sr_kept_nil : sr_kept [] = [].
Proof. done. Qed.
Lemma sr_kept_cons a l : sr_kept (a :: l) = (if sr_reclaimable a then [] else [a]) ++ sr_kept l.
Proof. unfold sr_kept. rewrite list.filter_cons. by destruct (sr_reclaimable a). Qed.
