(* ===== verification/MsrpWire.v ===== *)
(** * MsrpWire: where the MSRP encoders write

    The encoders stay inside their buffer when a message has room for its header and one
    vector, and take a bounded number of bytes for each attribute; of an attribute they
    change nothing but the mark that it is to be sent. *)
From stdpp Require Import base gmap list strings numbers.
From S2P Require Import Prelude Text Parse Mrp MrpProps Mvrp MvrpWire Mmrp.
From S2P Require Import MrpWorld MmrpInv MmrpWire Eui64set Msrp MsrpEmit MsrpInv.
#[local] Open Scope Z_scope.
#[local] Open Scope st_scope.

(** An attribute after a transmission: unchanged, or no longer marked. *)
Definition sr_sent (a a' : msrp_attribute) : Prop := a' = a \/ a' = sr_mark_tx false a.

Lemma sr_sent_refl l : Forall2 sr_sent l l.
Proof. induction l; constructor; [by left|done]. Qed.

Lemma sr_sent_trans l1 l2 l3 : Forall2 sr_sent l1 l2 -> Forall2 sr_sent l2 l3 -> Forall2 sr_sent l1 l3.
Proof.
  intros H. revert l3. induction H as [|a b l1 l2 Hab _ IH]; intros l3 H2; inversion_clear H2; [constructor|].
  constructor; [|by apply IH]. unfold sr_sent in *. destruct Hab as [-> | ->], H as [-> | ->]; auto.
Qed.

Lemma sr_sent_length l l' : Forall2 sr_sent l l' -> length l' = length l.
Proof. intros H. symmetry. by eapply Forall2_length. Qed.

(** The number of marked attributes of a type. *)
Definition sr_due (t : msrp_type) (a : msrp_attribute) : bool := is_type t a && tx (sr_applicant a).
Definition sr_ntx (t : msrp_type) (l : list msrp_attribute) : Z :=
  Z.of_nat (length (base.filter (fun a => sr_due t a = true) l)).

Lemma sr_ntx_cons t a l : sr_ntx t (a :: l) = (if sr_due t a then 1 else 0) + sr_ntx t l.
Proof. unfold sr_ntx. rewrite list.filter_cons. destruct (sr_due t a); simpl; lia. Qed.
Lemma sr_ntx_nonneg t l : 0 <= sr_ntx t l.
Proof. unfold sr_ntx. lia. Qed.

(** ... of all of the type. *)
Definition sr_num (t : msrp_type) (l : list msrp_attribute) : Z :=
  Z.of_nat (length (base.filter (fun a => is_type t a = true) l)).

Lemma sr_num_cons t a l : sr_num t (a :: l) = (if is_type t a then 1 else 0) + sr_num t l.
Proof. unfold sr_num. rewrite list.filter_cons. destruct (is_type t a); simpl; lia. Qed.
Lemma sr_ntx_num t l : sr_ntx t l <= sr_num t l.
Proof.
  induction l as [|a l IH]; [done|]. rewrite sr_ntx_cons, sr_num_cons. unfold sr_due.
  destruct (is_type t a), (tx (sr_applicant a)); cbn; lia.
Qed.
Lemma sr_num_nonneg t l : 0 <= sr_num t l.
Proof. unfold sr_num. lia. Qed.
Lemma sr_num_total l :
  sr_num MSRP_TALKER_ADV_TYPE l + sr_num MSRP_TALKER_FAILED_TYPE l + sr_num MSRP_LISTENER_TYPE l +
  sr_num MSRP_DOMAIN_TYPE l = Z.of_nat (length l).
Proof. induction l as [|a l IH]; [done|]. rewrite !sr_num_cons. cbn [length]. unfold is_type.
  destruct (sr_value a); cbn [sr_type]; repeat case_bool_decide; try done; lia. Qed.

Lemma due_sent t a : sr_due t (sr_mark_tx false a) = false.
Proof. apply andb_false_r. Qed.

Lemma sr_ntx_sent t l l' : Forall2 sr_sent l l' -> sr_ntx t l' <= sr_ntx t l.
Proof.
  induction 1 as [|a a' l l' Ha _ IH]; [done|]. rewrite !sr_ntx_cons.
  destruct Ha as [-> | ->]; rewrite ?due_sent; destruct (sr_due t a); lia.
Qed.

Lemma sr_ok_sent l l' : Forall2 sr_sent l l' -> Forall sr_attr_ok l -> Forall sr_attr_ok l'.
Proof.
  induction 1 as [|a a' l l' Ha _ IH]; intros H; [done|]. apply Forall_cons_iff in H as [[] H2].
  constructor; [|by apply IH]. by destruct Ha as [-> | ->].
Qed.

(** ** The inner loops: at most one byte for each attribute they take *)
Definition sr_vector_safe (t : msrp_type) (events lim : Z) (l l' : list msrp_attribute) (v v' : Vector) (oops : bool) : Prop :=
  Forall2 sr_sent l l' /\ grew v v' (sr_ntx t l - sr_ntx t l') /\ (oops = false -> events + vectidx v' <= lim).

Lemma sr_vector_stop t events lim l v : events + vectidx v <= lim -> sr_vector_safe t events lim l l v v false.
Proof. intros H. split; [apply sr_sent_refl|]. split; [split; [done|lia]|done]. Qed.

Lemma sr_vector_push t events lim a l l' v v1 v' oops :
  sr_due t a = true -> grew v v1 1 -> sr_vector_safe t events lim l l' v1 v' oops ->
  sr_vector_safe t events lim (a :: l) (sr_mark_tx false a :: l') v v' oops.
Proof.
  intros Ht [H1 H2] (H3 & [H4 H5] & H6). split; [constructor; [by right|done]|]. split; [|done].
  split; [congruence|]. rewrite !sr_ntx_cons, Ht, due_sent. lia.
Qed.

Lemma sr_vector_oops t events lim a l v v1 :
  sr_due t a = true -> grew v v1 1 -> sr_vector_safe t events lim (a :: l) (sr_mark_tx false a :: l) v v1 true.
Proof.
  intros Ht [H1 H2]. split; [constructor; [by right|apply sr_sent_refl]|]. split; [|done]. split; [done|].
  rewrite !sr_ntx_cons, Ht, due_sent. lia.
Qed.

Lemma talker_vectorize_safe failed events eof first l id mac v :
  Z.of_nat (length (vbuf v)) = eof -> 0 <= events + vectidx v <= eof - 2 ->
  exists oops l' v', talker_vectorize failed events eof first l id mac v = Done (oops, l', v') /\
    sr_vector_safe (talker_type failed) events (eof - 2) l l' v v' oops.
Proof.
  revert id mac v. induction l as [|a l IH]; intros id mac v Hb Hi; cbn [talker_vectorize].
  { eexists _, _, _. split; [done|]. apply sr_vector_stop. lia. }
  destruct (talker_of failed (sr_value a)) as [t|] eqn:Etk.
  2: { eexists _, _, _. split; [done|]. apply sr_vector_stop. lia. }
  destruct (tx (sr_applicant a)) eqn:Et; cbn [negb].
  2: { eexists _, _, _. split; [done|]. apply sr_vector_stop. lia. }
  destruct (vectorize_talker _ _ _ _); cbn [negb].
  2: { eexists _, _, _. split; [done|]. apply sr_vector_stop. lia. }
  assert (sr_due (talker_type failed) a = true) as Hdue.
  { unfold sr_due, is_type. rewrite Et. by destruct (sr_value a), failed. }
  destruct (sr_event_code a) as [c|].
  2: { eexists _, _, _. split; [done|]. apply sr_vector_oops; [done|]. split; [done|lia]. }
  destruct (push_code_safe events c v) as (v1 & -> & Hg); [lia|]. obind. pose proof Hg as [Hg1 Hg2].
  unfold MRPDU_ENDMARK_SZ. destruct (Z.ltb_spec (eof - 2) (events + vectidx v1)).
  { eexists _, _, _. split; [done|]. by apply sr_vector_oops. }
  destruct (IH (msrp_increment_streamid id) (mmrp_increment_macaddr mac) v1) as (oops & l' & v' & -> & H'); [congruence|lia|]. obind.
  eexists _, _, _. split; [done|]. by apply (sr_vector_push _ _ _ _ _ _ _ v1).
Qed.

Lemma close_vector_safe events eof lva v :
  Z.of_nat (length (vbuf v)) = eof -> 2 <= events -> 0 <= vectidx v -> events + vectidx v <= eof - 2 ->
  exists oops p buf, close_vector events eof lva v = Done (oops, p, buf) /\ length buf = length (vbuf v) /\
    (oops = false -> events + vectidx v <= p <= eof - 2 /\ p <= events + vectidx v + 1).
Proof.
  intros Hb He Hv Hi. unfold close_vector. destruct (flush_safe events v) as (v2 & -> & [H5 H6]); [lia|]. obind.
  unfold MRPDU_ENDMARK_SZ. destruct (Z.ltb_spec (eof - 2) (events + vectidx v2)).
  { eexists _, _, _. split; [done|]. by split. }
  destruct (pokes_done (vbuf v2) (events - 2) (vector_header lva (numvalues v2))) as (b2 & -> & Hl2);
    [lia|unfold vector_header; rewrite length_be_bytes; lia|]. obind.
  eexists _, _, _. split; [done|]. split; [congruence|]. intros _. lia.
Qed.

(** The first values have the lengths of their types. *)
Lemma length_talker_firstvalue failed t :
  talker_ok t -> Z.of_nat (length (talker_firstvalue failed t)) = attribute_length (talker_type failed).
Proof.
  intros [[H1 _] [H2 _] _ _ _ _ _ [H3 _] _]. unfold talker_firstvalue. rewrite !length_app, !length_be_bytes, H1, H2.
  destruct failed; cbn; rewrite ?length_app, ?H3; done.
Qed.

(** What a vector takes at most, for each of its attributes. *)
Definition sr_width (t : msrp_type) : Z := attribute_length t + 4.

Lemma attribute_length_pos t : 4 <= attribute_length t <= 34.
Proof. destruct t; cbn; lia. Qed.

(** One vector, from [vp]: the attributes it takes pay for it. *)
Definition sr_paid (t : msrp_type) (vp eof p : Z) (l l' : list msrp_attribute) (oops : bool) : Prop :=
  oops = false -> vp < p <= eof - 2 /\ p + sr_width t * sr_ntx t l' <= vp + sr_width t + sr_width t * sr_ntx t l.

Lemma talker_vector_safe failed vp eof a t l lva buf :
  Z.of_nat (length buf) = eof -> 0 <= vp -> vp + 2 + attribute_length (talker_type failed) <= eof - 2 ->
  talker_of failed (sr_value a) = Some t -> talker_ok t ->
  exists oops l' p buf', talker_vector failed (vp + 2) eof a l lva buf = Done (oops, l', p, buf') /\
    Forall2 sr_sent l l' /\ length buf' = length buf /\ sr_paid (talker_type failed) vp eof p l l' oops.
Proof.
  intros Hb H0 Hv Ht Hok. unfold talker_vector. rewrite Ht. cbn [or_fault]. obind.
  pose proof (length_talker_firstvalue failed t Hok) as Hlen. pose proof (attribute_length_pos (talker_type failed)) as Hpos.
  destruct (pokes_done buf (vp + 2) (talker_firstvalue failed t)) as (b1 & -> & Hl1); [lia|lia|]. obind.
  destruct (sr_event_code a) as [c|].
  2: { eexists _, _, _, _. split; [done|]. split_and!; [apply sr_sent_refl|done|done]. }
  destruct (talker_vectorize_safe failed (vp + 2) eof t l (StreamID t) (Dest_Addr t)
    (mkVector (c, 0, 0) 1 1 (attribute_length (talker_type failed)) b1)) as (oops & l' & v' & -> & H1 & [H2 H3] & H4);
    [cbn; lia|cbn; lia|]. obind. cbn in H2, H3. destruct oops.
  { eexists _, _, _, _. split; [done|]. split_and!; [done|congruence|done]. }
  specialize (H4 eq_refl). destruct (close_vector_safe (vp + 2) eof lva v') as (oops & p & buf' & -> & H5 & H6); [congruence|lia|lia|lia|].
  obind. pose proof (sr_ntx_sent (talker_type failed) _ _ H1). eexists _, _, _, _. split; [done|]. split_and!; [done|congruence|].
  intros Ho. specialize (H6 Ho). unfold sr_width. split; [lia|nia].
Qed.

Lemma domain_vector_safe vp eof a d l lva buf :
  Z.of_nat (length buf) = eof -> 0 <= vp -> vp + 2 + 4 <= eof - 2 -> sr_value a = Domain d ->
  exists oops l' p buf', domain_vector (vp + 2) eof a l lva buf = Done (oops, l', p, buf') /\
    Forall2 sr_sent l l' /\ length buf' = length buf /\ sr_paid MSRP_DOMAIN_TYPE vp eof p l l' oops.
Proof.
  intros Hb H0 Hv Hd. unfold domain_vector. rewrite Hd. cbn [or_fault]. obind.
  destruct (pokes_done buf (vp + 2) (domain_firstvalue d)) as (b1 & -> & Hl1); [lia|cbn; lia|]. obind.
  destruct (sr_event_code a) as [c|].
  2: { eexists _, _, _, _. split; [done|]. split_and!; [apply sr_sent_refl|done|done]. }
  destruct (close_vector_safe (vp + 2) eof lva (mkVector (c, 0, 0) 1 1 4 b1)) as (oops & p & buf' & -> & H5 & H6);
    [cbn; lia|lia|cbn; lia|cbn; lia|]. obind.
  eexists _, _, _, _. split; [done|]. cbn in H5, H6. split_and!; [apply sr_sent_refl|congruence|].
  intros Ho. specialize (H6 Ho). unfold sr_width. cbn. split; lia.
Qed.

(** The 4-packed events of the listeners: at most one byte for each. *)
Lemma pack_declared_safe n events eof decl vidx buf :
  Z.of_nat (length buf) = eof -> 0 <= events -> 0 <= vidx -> events + vidx <= eof - 1 ->
  exists oops vidx' buf', pack_declared n events eof decl vidx buf = Done (oops, vidx', buf') /\
    length buf' = length buf /\ vidx <= vidx' <= vidx + Z.of_nat (length decl).
Proof.
  assert (forall decl vidx buf, Z.of_nat (length buf) = eof -> 0 <= events -> 0 <= vidx -> events + vidx <= eof - 1 ->
    exists oops vidx' buf', pack_declared 0 events eof decl vidx buf = Done (oops, vidx', buf') /\
      length buf' = length buf /\ vidx <= vidx' <= vidx + Z.of_nat (length decl)) as Hlast.
  { intros [|w decl'] vidx0 buf0 Hb He Hv Hi; cbn [pack_declared]; [eexists _, _, _; split; [done|]; cbn; lia|].
    rewrite poke_done by lia. obind. eexists _, _, _. split; [done|]. rewrite length_insert. cbn. lia. }
  revert decl vidx buf. induction n as [|n IH]; intros decl vidx buf Hb He Hv Hi; [by apply Hlast|].
  destruct decl as [|w [|x [|y [|z decl']]]];
    [apply (Hlast [] vidx buf)|apply (Hlast [w] vidx buf)|apply (Hlast [w; x] vidx buf)|apply (Hlast [w; x; y] vidx buf)|]; try done.
  cbn [pack_declared]. unfold MRPDU_ENDMARK_SZ. destruct (Z.ltb_spec (eof - 2) (events + vidx)).
  { eexists _, _, _. split; [done|]. cbn. lia. }
  rewrite poke_done by lia. obind. destruct (Z.ltb_spec (eof - 3) (events + (vidx + 1))).
  { eexists _, _, _. split; [done|]. rewrite length_insert. cbn. lia. }
  set (b1 := <[_ := _]> buf). assert (length b1 = length buf) as Hl1 by apply length_insert.
  destruct (IH decl' (vidx + 1) b1) as (oops & vidx' & buf' & -> & H1 & H2); [lia|lia|lia|lia|].
  eexists _, _, _. split; [done|]. split; [congruence|]. cbn [length]. lia.
Qed.

Section wire.
Context `{env : MrpEnv}.
Implicit Types s : SR.

(** With room in [listen_declare], nothing is allocated. *)
Lemma declare_next_room sz decl sub (Q : Z * list Z -> SR -> Prop) s :
  Z.of_nat (length decl) + 1 < sz -> Q (sz, decl ++ [sub]) s -> wp (declare_next sz decl sub) Q s.
Proof.
  intros Hsz HQ. unfold declare_next. destruct (Z.eqb_spec sz (Z.of_nat (length decl) + 1)); [lia|]. apply wp_bind.
  eapply wp_lift; [unfold declare_store; destruct (Z.ltb_spec (Z.of_nat (length decl)) sz); [done|lia]|]. by apply wp_ret.
Qed.

Lemma listen_vectorize_safe events eof l id sz decl v s :
  Z.of_nat (length (vbuf v)) = eof -> 0 <= events + vectidx v <= eof - 2 ->
  Z.of_nat (length decl) + sr_ntx MSRP_LISTENER_TYPE l + 1 < sz ->
  wp (listen_vectorize events eof l id sz decl v) (fun r s' => s' = s /\
    let '(oops, l', sz', decl', v') := r in
    sr_vector_safe MSRP_LISTENER_TYPE events (eof - 2) l l' v v' oops /\ sz' = sz /\
    Z.of_nat (length decl') + sr_ntx MSRP_LISTENER_TYPE l' <= Z.of_nat (length decl) + sr_ntx MSRP_LISTENER_TYPE l) s.
Proof.
  revert id decl v. induction l as [|a l IH]; intros id decl v Hb Hi Hsz; cbn [listen_vectorize].
  { apply wp_ret. split_and!; [done|apply sr_vector_stop; lia|done|lia]. }
  assert (wp (st_ret (false, a :: l, sz, decl, v)) (fun r s' => s' = s /\
    let '(oops, l', sz', decl', v') := r in
    sr_vector_safe MSRP_LISTENER_TYPE events (eof - 2) (a :: l) l' v v' oops /\ sz' = sz /\
    Z.of_nat (length decl') + sr_ntx MSRP_LISTENER_TYPE l' <= Z.of_nat (length decl) + sr_ntx MSRP_LISTENER_TYPE (a :: l)) s) as Hstop.
  { apply wp_ret. split_and!; [done|apply sr_vector_stop; lia|done|lia]. }
  destruct (listener_of (sr_value a)) as [t|] eqn:Etl; [|exact Hstop].
  destruct (tx (sr_applicant a)) eqn:Et; cbn [negb]; [|exact Hstop].
  destruct (memcmp _ _ =? 0); cbn [negb]; [|exact Hstop]. clear Hstop.
  assert (sr_due MSRP_LISTENER_TYPE a = true) as Hdue by (unfold sr_due, is_type; rewrite Et; by destruct (sr_value a)).
  rewrite sr_ntx_cons, Hdue in *.
  pose proof (sr_ntx_nonneg MSRP_LISTENER_TYPE l) as Hn.
  destruct (sr_event_code a) as [c|].
  2: { apply wp_ret. split_and!; [done|apply sr_vector_oops; [done|split; [done|lia]]|done|]. rewrite sr_ntx_cons, due_sent. cbn. lia. }
  apply wp_bind. apply declare_next_room; [lia|]. destruct (push_code_safe events c v) as (v1 & E & Hg); [lia|].
  pose proof Hg as [Hg1 Hg2]. apply wp_bind. eapply wp_lift; [exact E|].
  unfold MRPDU_ENDMARK_SZ. destruct (Z.ltb_spec (eof - 2) (events + vectidx v1)).
  { apply wp_ret. split_and!; [done|by apply sr_vector_oops|done|]. rewrite sr_ntx_cons, due_sent, length_app. cbn. lia. }
  apply wp_bind. eapply wp_mono; [apply (IH (msrp_increment_streamid id) (decl ++ [substate a]) v1)|];
    [congruence|lia|rewrite length_app; cbn; lia|].
  intros [[[[oops l'] sz'] decl'] v'] s' (-> & H1 & -> & H2). apply wp_ret. split_and!; [done|by apply (sr_vector_push _ _ _ _ _ _ _ v1)|done|].
  rewrite length_app in H2. rewrite sr_ntx_cons, due_sent. cbn in *. lia.
Qed.

Lemma listen_vector_safe vp eof a t l lva sz buf s :
  Z.of_nat (length buf) = eof -> 0 <= vp -> vp + 2 + 8 <= eof - 2 -> listener_of (sr_value a) = Some t -> talker_ok t ->
  sr_ntx MSRP_LISTENER_TYPE l + 2 < sz ->
  wp (listen_vector (vp + 2) eof a l lva sz buf) (fun r s' => s' = s /\
    let '(oops, l', p, sz', buf') := r in
    Forall2 sr_sent l l' /\ length buf' = length buf /\ sz' = sz /\ sr_paid MSRP_LISTENER_TYPE vp eof p l l' oops) s.
Proof.
  intros Hb H0 Hv Ht [[Hid _] _ _ _ _ _ _ _ _] Hsz. pose proof (sr_ntx_nonneg MSRP_LISTENER_TYPE l) as Hn. unfold listen_vector. rewrite Ht. apply wp_bind. eapply wp_lift; [done|].
  destruct (pokes_done buf (vp + 2) (StreamID t)) as (b1 & E1 & Hl1); [lia|lia|]. apply wp_bind. eapply wp_lift; [exact E1|].
  destruct (sr_event_code a) as [c|].
  2: { apply wp_ret. split_and!; [done|apply sr_sent_refl|done|done|done]. }
  apply wp_bind. unfold declare_first. destruct (Z.eqb_spec sz (0 + 1)); [lia|]. apply wp_bind.
  assert (declare_store sz [] (substate a) = Done [substate a]) as Ed 
    by (unfold declare_store; destruct (Z.ltb_spec (Z.of_nat (length (@nil Z))) sz); [done|cbn in *; lia]).
  eapply wp_lift; [exact Ed|]. apply wp_ret, wp_bind.
  eapply wp_mono; [apply (listen_vectorize_safe (vp + 2) eof l (StreamID t) sz [substate a] (mkVector (c, 0, 0) 1 1 8 b1))|];
    [cbn; lia|cbn; lia|cbn; lia|].
  intros [[[[oops l'] sz'] decl'] v'] ? (-> & (H1 & [H2 H3] & H4) & -> & H5). cbn in H2, H3, H5. destruct oops.
  { apply wp_ret. split_and!; [done|done|congruence|done|done]. }
  specialize (H4 eq_refl). destruct (flush_safe (vp + 2) v') as (v2 & E2 & [H6 H7]); [lia|]. apply wp_bind. eapply wp_lift; [exact E2|].
  destruct (pack_declared_safe (length decl' / 4) (vp + 2) eof decl' (vectidx v2) (vbuf v2)) as (oops & vidx & b3 & E3 & H8 & H9);
    [lia|lia|lia|lia|]. apply wp_bind. eapply wp_lift; [exact E3|]. cbn beta iota.
  destruct (oops || (eof - MRPDU_ENDMARK_SZ <? vp + 2 + vidx)) eqn:Eo.
  { apply wp_ret. split_and!; [done|done|congruence|done|done]. }
  apply orb_false_iff in Eo as [_ Eo%Z.ltb_ge]. unfold MRPDU_ENDMARK_SZ in Eo.
  destruct (pokes_done b3 (vp + 2 - 2) (vector_header lva (numvalues v2))) as (b4 & E4 & Hl4);
    [lia|unfold vector_header; rewrite length_be_bytes; lia|].
  apply wp_bind. eapply wp_lift; [exact E4|]. apply wp_ret. pose proof (sr_ntx_sent MSRP_LISTENER_TYPE _ _ H1).
  split_and!; [done|done|congruence|done|]. intros _. unfold sr_width. cbn. split; lia.
Qed.

(** ** Any vector *)
Lemma sr_emit_vector_safe t vp eof a l lva sz buf s :
  Z.of_nat (length buf) = eof -> 0 <= vp -> vp + 2 + attribute_length t <= eof - 2 -> is_type t a = true -> sr_attr_ok a ->
  sr_ntx MSRP_LISTENER_TYPE l + 2 < sz ->
  wp (sr_emit_vector t (vp + 2) eof a l lva sz buf) (fun r s' => s' = s /\
    let '(oops, l', p, sz', buf') := r in
    Forall2 sr_sent l l' /\ length buf' = length buf /\ sz' = sz /\ sr_paid t vp eof p l l' oops) s.
Proof.
  intros Hb H0 Hv Ht%bool_decide_eq_true_1 [Hok _ _] Hsz. unfold sr_emit_vector.
  assert (forall o : outcome (bool * list msrp_attribute * Z * list Z), (exists oops l' p buf', o = Done (oops, l', p, buf') /\
    Forall2 sr_sent l l' /\ length buf' = length buf /\ sr_paid t vp eof p l l' oops) ->
    wp (let! r := st_lift o in let '(oops, rest', p, buf) := r in st_ret (oops, rest', p, sz, buf)) (fun r s' => s' = s /\
      let '(oops, l', p, sz', buf') := r in
      Forall2 sr_sent l l' /\ length buf' = length buf /\ sz' = sz /\ sr_paid t vp eof p l l' oops) s) as Hpure.
  { intros o (oops & l' & p & buf' & -> & H1 & H2 & H3). apply wp_bind. eapply wp_lift; [done|]. apply wp_ret. by split_and!. }
  destruct (sr_value a) as [x|x|x|d] eqn:Ev; subst t; cbn in *.
  - apply Hpure. by apply (talker_vector_safe false vp eof a x); rewrite ?Ev.
  - apply Hpure. by apply (talker_vector_safe true vp eof a x); rewrite ?Ev.
  - apply (listen_vector_safe vp eof a x); rewrite ?Ev; done.
  - apply Hpure. by apply (domain_vector_safe vp eof a d).
Qed.

(** ** The loop *)

(** What the outer loop does: unless a vector was written, the buffer is as before. *)
Definition sr_loop_safe (t : msrp_type) (eof : Z) (l l' : list msrp_attribute) (msg_ptr vp m' v' : Z) (found found' : bool)
    (buf buf' : list Z) (oops : bool) : Prop :=
  Forall2 sr_sent l l' /\ length buf' = length buf /\
  (oops = false -> (found' = found /\ m' = msg_ptr /\ v' = vp /\ buf' = buf) \/
     (found' = true /\ m' = v' /\ vp < v' <= eof - 2 /\ v' + sr_width t * sr_ntx t l' <= vp + sr_width t * sr_ntx t l)).

Lemma sr_loop_skip t eof a a' l l' msg_ptr vp m' v' found found' buf buf' oops :
  sr_sent a a' -> sr_loop_safe t eof l l' msg_ptr vp m' v' found found' buf buf' oops ->
  sr_loop_safe t eof (a :: l) (a' :: l') msg_ptr vp m' v' found found' buf buf' oops.
Proof.
  intros Ha (H1 & H2 & H3). split; [by constructor|]. split; [done|]. intros Ho.
  destruct (H3 Ho) as [?|(H4 & H5 & H6 & H7)]; [by left|right]. pose proof (attribute_length_pos t). unfold sr_width in *.
  split_and!; try done; try lia. rewrite !sr_ntx_cons. destruct Ha as [-> | ->]; rewrite ?due_sent; destruct (sr_due t a); lia.
Qed.

(** A vector fits where the loop starts one. *)
Lemma vector_room t msg_ptr vp eof :
  msg_ptr < eof - vector_size t - 2 -> vp = msg_ptr \/ vp + 2 + attribute_length t <= eof - 2 ->
  vp + 2 + attribute_length t <= eof - 2.
Proof. destruct t; cbn; lia. Qed.

Lemma sr_emit_loop_safe t fuel l msg_ptr vp eof lva found sz buf s :
  Z.of_nat (length buf) = eof -> (length l <= fuel)%nat -> Forall sr_attr_ok l -> 0 <= vp -> sr_ntx MSRP_LISTENER_TYPE l + 2 < sz ->
  vp = msg_ptr \/ vp + 2 + attribute_length t <= eof - 2 ->
  wp (sr_emit_loop t fuel l msg_ptr vp eof lva found sz buf) (fun r s' => s' = s /\
    let '(oops, l', found', m', v', buf') := r in sr_loop_safe t eof l l' msg_ptr vp m' v' found found' buf buf' oops) s.
Proof.
  revert l msg_ptr vp lva found buf.
  induction fuel as [|fuel IH]; intros l msg_ptr vp lva found buf Hb Hf Hl Hp Hsz Hv; cbn [sr_emit_loop];
    unfold MRPDU_ENDMARK_SZ; (destruct (Z.ltb_spec msg_ptr (eof - vector_size t - 2)) as [Hlt|]; cbn [negb];
      [|apply wp_ret; split; [done|]; split; [apply sr_sent_refl|]; split; [done|by left]]);
    (destruct l as [|a l]; [apply wp_ret; split; [done|]; split; [constructor|]; split; [done|by left]|]);
    cbn [length] in Hf; [lia|].
  apply Forall_cons_iff in Hl as [Ha Hl]. rewrite sr_ntx_cons in Hsz.
  assert (sr_ntx MSRP_LISTENER_TYPE l + 2 < sz) as Hsz' by (destruct (sr_due _ a); lia).
  assert (forall a', sr_sent a a' -> wp (let! r := sr_emit_loop t fuel l msg_ptr vp eof lva found sz buf in
      let '(oops, rest', found', m', v', buf') := r in st_ret (oops, a' :: rest', found', m', v', buf')) (fun r s' => s' = s /\
    let '(oops, l', found', m', v', buf') := r in sr_loop_safe t eof (a :: l) l' msg_ptr vp m' v' found found' buf buf' oops) s) as Hskip.
  { intros a' Ha'. apply wp_bind. eapply wp_mono; [apply IH; [done|lia|done|done|done|done]|].
    intros [[[[[oops l'] f'] m'] v'] buf'] ? (-> & H). apply wp_ret. split; [done|]. by apply sr_loop_skip. }
  destruct (is_type t a) eqn:Ety; cbn [negb]; [|apply Hskip; by left].
  destruct (tx (sr_applicant a)) eqn:Et; cbn [negb]; [|apply Hskip; by left].
  destruct (decide _); [apply Hskip; by right|]. clear Hskip. pose proof (vector_room _ _ _ _ Hlt Hv) as Hroom.
  apply wp_bind. eapply wp_mono; [apply (sr_emit_vector_safe t vp eof (sr_mark_tx false a) l lva sz buf); try done; by destruct Ha|].
  intros [[[[oops l1] p] sz1] b1] ? (-> & H1 & H2 & -> & H3). destruct oops.
  { apply wp_ret. split; [done|]. split; [constructor; [by right|done]|]. by split. }
  destruct (H3 eq_refl) as [H4 H5]. pose proof (sr_ntx_sent t _ _ H1) as Hn1. pose proof (sr_ntx_sent MSRP_LISTENER_TYPE _ _ H1) as Hn2.
  assert (sr_due t a = true) as Hdue by (unfold sr_due; by rewrite Ety, Et). apply wp_bind.
  eapply wp_mono; [apply (IH l1 p p false true b1); [congruence|rewrite (sr_sent_length _ _ H1); lia|by eapply sr_ok_sent|lia|lia|by left]|].
  intros [[[[[oops l'] f'] m'] v'] buf'] ? (-> & H6 & H7 & H8). apply wp_ret. split; [done|].
  split; [constructor; [by right|by eapply sr_sent_trans]|]. split; [congruence|]. intros Ho. right. rewrite !sr_ntx_cons, Hdue, due_sent.
  destruct (H8 Ho) as [(-> & -> & -> & _)|(-> & -> & H9 & H10)]; split_and!; try done; try lia.
  all: pose proof (sr_ntx_sent t _ _ H6); pose proof (attribute_length_pos t); unfold sr_width in *; nia.
Qed.

(** ** A message *)

(** The bytes a message takes, and what it leaves of the attributes. *)
Definition message_safe (t : msrp_type) (l : list msrp_attribute) (buf : list Z) (r : Z * Z * list msrp_attribute * list Z) : Prop :=
  let '(rc, bytes, l', buf') := r in
  Forall2 sr_sent l l' /\ length buf' = length buf /\
  0 <= bytes <= attribute_length t + 8 + sr_width t * sr_num t l.

(** The length that was written into the header. *)
Lemma header_length t buf msgbuf b1 :
  0 <= msgbuf -> pokes buf msgbuf (message_header t) = Done b1 -> msgbuf + 2 <= Z.of_nat (length buf) ->
  forall vs b2, msgbuf + 4 + Z.of_nat (length vs) <= Z.of_nat (length buf) -> pokes b1 (msgbuf + 4) vs = Done b2 ->
  peek b2 (msgbuf + 1) = Done (attribute_length t).
Proof.
  intros H0 E1 Hl vs b2 Hv E2. destruct (pokes_end buf msgbuf (message_header t)) as (b1' & E1' & Hl1 & Ht & _); [lia|cbn; lia|].
  rewrite E1 in E1'. injection E1' as <-. destruct (pokes_end b1 (msgbuf + 4) vs) as (b2' & E2' & Hl2 & _ & Hk); [lia|lia|].
  rewrite E2 in E2'. injection E2' as <-.
  change (length (message_header t)) with 2%nat in Ht. specialize (Hk (Z.to_nat msgbuf + 2)%nat ltac:(lia)). rewrite Ht in Hk.
  unfold peek. destruct (Z.leb_spec 0 (msgbuf + 1)); [|lia].
  assert (b2 !! Z.to_nat (msgbuf + 1) = Some (attribute_length t)) as ->; [|done].
  rewrite <- (lookup_take_lt b2 (Z.to_nat msgbuf + 2)) by lia. rewrite Hk, lookup_app_r by (rewrite length_take; lia).
  rewrite length_take. replace (Z.to_nat (msgbuf + 1) - Z.to_nat msgbuf `min` length buf)%nat with 1%nat by lia. by destruct t.
Qed.

Lemma sr_emit_message_safe t buf0 buf msgbuf eof lva flag l s :
  Z.of_nat (length buf0) = eof -> 0 <= msgbuf -> msgbuf + 8 + attribute_length t <= eof -> Forall sr_attr_ok l ->
  (length l <= 60)%nat -> pokes buf0 msgbuf (message_header t) = Done buf ->
  wp (sr_emit_message t buf msgbuf eof lva flag l) (fun r s' => s' = s /\ message_safe t l buf0 r) s.
Proof.
  intros Hb H0 Hroom Hl Hlen E1. pose proof (attribute_length_pos t) as Hpos. pose proof (sr_ntx_num t l) as Hn. pose proof (sr_ntx_nonneg t l) as Hn0.
  pose proof (sr_ntx_num MSRP_LISTENER_TYPE l) as Hn3. pose proof (sr_num_total l) as Hn4.
  pose proof (sr_num_nonneg MSRP_TALKER_ADV_TYPE l) as Hn5. pose proof (sr_num_nonneg MSRP_TALKER_FAILED_TYPE l) as Hn6.
  pose proof (sr_num_nonneg MSRP_DOMAIN_TYPE l) as Hn7.
  assert (length buf = length buf0) as Hl1.
  { destruct (pokes_done buf0 msgbuf (message_header t)) as (b & E & ?); [lia|cbn; lia|]. congruence. }
  unfold sr_emit_message. apply wp_bind. eapply wp_mono.
  { apply (sr_emit_loop_safe t (length l) l msgbuf (msgbuf + 4) eof lva false 64 buf); [lia|lia|done|lia|lia|right; lia]. }
  intros [[[[[oops l'] f'] m'] v'] b2] ? (-> & H1 & H2 & H3). pose proof (sr_ntx_nonneg t l') as Hn'. unfold sr_width in H3. destruct oops.
  { apply wp_ret. unfold message_safe, sr_width. split_and!; [done|done|congruence|lia|nia]. }
  assert (forall p b, msgbuf + 4 < p <= eof - 2 -> p <= msgbuf + attribute_length t + 6 + (attribute_length t + 4) * sr_ntx t l -> length b = length buf0 ->
    wp (if p =? msgbuf + 4 then st_ret (0, 0, l', b)
        else let! buf := st_lift (pokes b p [0; 0]) in
             let! buf := st_lift (pokes buf (msgbuf + 2) (be_bytes 2 (p + 2 - (msgbuf + 4)))) in
             st_ret (0, p + 2 - msgbuf, l', buf)) (fun r s' => s' = s /\ message_safe t l buf0 r) s) as Hend.
  { intros p b Hp Hp' Hlb. destruct (Z.eqb_spec p (msgbuf + 4)); [lia|].
    destruct (pokes_done b p [0; 0]) as (b3 & E3 & Hl3); [lia|cbn; lia|]. apply wp_bind. eapply wp_lift; [exact E3|].
    destruct (pokes_done b3 (msgbuf + 2) (be_bytes 2 (p + 2 - (msgbuf + 4)))) as (b4 & E4 & Hl4); [lia|rewrite length_be_bytes; lia|].
    apply wp_bind. eapply wp_lift; [exact E4|]. apply wp_ret. unfold message_safe, sr_width. split_and!; [done|done|congruence|lia|nia]. }
  destruct (H3 eq_refl) as [(-> & -> & -> & ->)|(-> & -> & H4 & H5)]; cycle 1.
  { cbn [negb andb]. apply wp_bind, wp_ret. apply Hend; [lia|nia|congruence]. }
  destruct flag; cbn [negb andb]; cycle 1.
  { apply wp_bind, wp_ret. rewrite Z.eqb_refl. apply wp_ret. unfold message_safe, sr_width. split_and!; [done|done|done|lia|nia]. }
  destruct (pokes_done buf (msgbuf + 4) (vector_header true 0)) as (b3 & E3 & Hl3); [lia|cbn; lia|].
  apply wp_bind, wp_bind. eapply wp_lift; [exact E3|]. apply wp_bind.
  eapply wp_lift; [eapply header_length; [exact H0|exact E1|lia| |exact E3]; cbn; lia|]. apply wp_ret.
  apply Hend; [lia|nia|congruence].
Qed.
End wire.
