(* ===== verification/MsrpTable.v ===== *)
(** * MsrpTable: MSRP as a table of streams and domains

    The abstract view of the MSRP database: a finite map from keys to what is declared
    (the value, the listener's substate, who declared it) and the states of the applicant
    and the registrar.  An event acts on it by the state tables of the standard, by the
    rules of merging, and by pruning. *)
From stdpp Require Import base gmap list strings numbers sorting.
From S2P Require Import Prelude Text Parse Mrp MrpProps Mvrp MvrpWire Mmrp.
From S2P Require Import MvrpInv MvrpEvent MvrpTable MmrpInv Eui64set Msrp MsrpEmit MsrpInv.
From S2P Require Import MsrpWire.
#[local] Open Scope Z_scope.

(** ** The abstract table *)
Record stream := mkStream {
  st_value : msrp_value; st_substate : Z; st_operation : msrp_operation; st_states : vlan }.

Notation sr_map_t := (gmap msrp_key stream).

Definition set_states (x : vlan) (d : stream) : stream := mkStream (st_value d) (st_substate d) (st_operation d) x.

(** A change that clients must hear of unregisters the attribute. *)
Definition unregister (d : stream) : stream := set_states (fst (st_states d), MRP_MT_STATE) d.

(** The failure information and the type of a talker follow what is received. *)
Definition follow_talker (failed same_type : bool) (t tr : msrpdu_talker_fail) (d : stream) : stream :=
  let t' := set_FailureInformation (BridgeID tr) (FailureCode tr) t in
  let d' := mkStream (if failed then TalkerFailed t' else TalkerAdv t') (st_substate d) (st_operation d) (st_states d) in
  if same_type then d' else unregister d'.

(** What becomes of an entry [d] when [r] is received or requested for its key; [blocked]
    is whether a listener has to stay in Asking Failed. *)
Definition stream_merge (blocked : bool) (r d : stream) : stream :=
  let same := bool_decide (st_operation r = st_operation d) in
  match st_value d, st_value r with
  | TalkerAdv t, TalkerAdv tr => if same then follow_talker false true t tr d else d
  | TalkerFailed t, TalkerAdv tr => if same then follow_talker false false t tr d else d
  | TalkerAdv t, TalkerFailed tr => if same then follow_talker true false t tr d else d
  | TalkerFailed t, TalkerFailed tr => if same then follow_talker true true t tr d else d
  | Listener _, Listener _ =>
      if (st_substate d =? st_substate r) || blocked then d
      else unregister (mkStream (st_value d) (if same then st_substate r else st_substate d) (st_operation d) (st_states d))
  | Domain x, Domain xr =>
      if (SRclassPriority x =? SRclassPriority xr) && (SRclassVID x =? SRclassVID xr) then d
      else unregister (mkStream (Domain (mkDomain (SRclassID x) (SRclassPriority x) (SRclassPriority xr) (SRclassVID xr)))
             (st_substate d) (st_operation d) (st_states d))
  | _, _ => d
  end.

(** A listener leaves Asking Failed only for a talker of its stream; without memory the
    daemon cannot tell. *)
Definition merge_blocked (mem : bool) (m : sr_map_t) (r d : stream) : bool :=
  match st_value d with
  | Listener t =>
      negb (st_substate d =? st_substate r) && (st_substate d =? MSRP_LISTENER_ASKFAILED) &&
      negb (mem && bool_decide (is_Some (m !! KTalker (StreamID t))))
  | _ => false
  end.

(** Both state machines see a request; an entry nobody is interested in disappears. *)
Definition stream_live (d : stream) : option stream := if live (st_states d) then Some d else None.
Definition stream_request (p2p : Z) (e : mrp_event) (d : stream) : option stream :=
  stream_live (set_states (app_to p2p e (st_states d), reg_to (local_request e) (snd (st_states d))) d).

(** Pruning: a talker counts if its stream is interesting or has a listener. *)
Definition wanted (pruning : bool) (ids : gset Z) (m : sr_map_t) (v : msrp_value) : bool :=
  match v with
  | TalkerAdv t | TalkerFailed t =>
      negb pruning || bool_decide (eui64_read (StreamID t) ∈ ids) || bool_decide (is_Some (m !! KListener (StreamID t)))
  | _ => true
  end.

Definition on_states (F : vlan -> vlan) (d : stream) : stream := set_states (F (st_states d)) d.
Definition both_machines (p2p : Z) (e : mrp_event) (x : vlan) : vlan := (app_to p2p e x, reg_to e (snd x)).

(** An event for one attribute. *)
Definition sr_entry_step (p2p : Z) (mem : bool) (e : mrp_event) (r : stream) (m : sr_map_t) : sr_map_t :=
  partial_alter (fun o =>
    match o with
    | Some d => stream_request p2p e (stream_merge (merge_blocked mem m r d) r d)
    | None => if decide (e = MRP_EVENT_RMT) then None else stream_request p2p e r
    end) (key_of (st_value r)) m.

(** The table after the event [e] about [r]; [mem] is whether memory was available. *)
Definition sr_table_step (p2p : Z) (pruning : bool) (ids : gset Z) (mem : bool) (e : mrp_event) (r : option stream)
    (m : sr_map_t) : sr_map_t :=
  match e with
  | MRP_EVENT_LVATIMER => on_states (both_machines p2p MRP_EVENT_TXLA) <$> m
  | MRP_EVENT_RLA =>
      match r with
      | Some x => (fun d => if decide (sr_type (st_value d) = sr_type (st_value x)) then on_states (both_machines p2p e) d else d) <$> m
      | None => m
      end
  | MRP_EVENT_TX => on_states (fun x => (app_to p2p e x, snd x)) <$> m
  | MRP_EVENT_LVTIMER => omap (fun d => stream_live (on_states (fun x => (fst x, reg_to e (snd x))) d)) m
  | MRP_EVENT_NEW | MRP_EVENT_JOIN | MRP_EVENT_RNEW | MRP_EVENT_RJOININ | MRP_EVENT_RJOINMT
  | MRP_EVENT_LV | MRP_EVENT_RIN | MRP_EVENT_RMT | MRP_EVENT_RLV =>
      match r with
      | Some x => if wanted pruning ids m (st_value x) then sr_entry_step p2p mem e x m else m
      | None => m
      end
  | _ => m
  end.

(** ** The table of a list *)
Definition sr_states (a : msrp_attribute) : vlan := (app_state (sr_applicant a), reg_state (sr_registrar a)).
Definition to_stream (a : msrp_attribute) : stream := mkStream (sr_value a) (substate a) (operation a) (sr_states a).

Definition sr_table (l : list msrp_attribute) : sr_map_t :=
  list_to_map ((fun a => (key_of (sr_value a), to_stream a)) <$> l).

(** The list is well-formed and stands for the table [m]. *)
Definition sr_repr (l : list msrp_attribute) (m : sr_map_t) : Prop := sr_list_ok l /\ sr_table l = m.

Lemma sr_table_keys l : ((fun a => (key_of (sr_value a), to_stream a)) <$> l).*1 = sr_keys l.
Proof. unfold sr_keys. by rewrite <- list_fmap_compose. Qed.

Lemma sr_table_cons a l : sr_table (a :: l) = <[key_of (sr_value a) := to_stream a]> (sr_table l).
Proof. done. Qed.

Lemma sr_table_None l k : k ∉ sr_keys l -> sr_table l !! k = None.
Proof. intros H. apply not_elem_of_list_to_map_1. by rewrite sr_table_keys. Qed.

Lemma sr_table_middle b a c :
  NoDup (sr_keys (b ++ a :: c)) ->
  sr_table (b ++ a :: c) = <[key_of (sr_value a) := to_stream a]> (sr_table (b ++ c)) /\
  sr_table (b ++ c) !! key_of (sr_value a) = None.
Proof.
  intros Hn. assert (b ++ a :: c ≡ₚ a :: b ++ c) as Hp by (symmetry; apply Permutation_middle). split.
  - rewrite <- sr_table_cons. unfold sr_table. apply list_to_map_proper; [by rewrite sr_table_keys|by apply fmap_Permutation].
  - apply sr_table_None. unfold sr_keys in *. rewrite Hp, fmap_cons in Hn. by apply list.NoDup_cons in Hn as [? _].
Qed.

Lemma sr_table_found l r : sr_list_ok l -> sr_value_ok r -> is_Some (msrp_lookup l r) <-> is_Some (sr_table l !! key_of r).
Proof.
  intros Hl Hr. pose proof (msrp_lookup_split l r (sr_values_ok _ Hl) Hr) as H. destruct (msrp_lookup l r) as [a|].
  - destruct H as (b & c & -> & <- & _). destruct (sr_table_middle b a c (sl_nodup _ Hl)) as [-> _]. rewrite lookup_insert_eq. by split.
  - rewrite sr_table_None by done. split; by intros [].
Qed.

(** Changes of an attribute that keep its key and its well-formedness. *)
Record sr_keeps (g : msrp_attribute -> msrp_attribute) : Prop := mkSrKeeps {
  sk_value a : sr_value (g a) = sr_value a;
  sk_ok a : sr_attr_ok a -> sr_attr_ok (g a) }.

Lemma sr_keys_map g l : sr_keeps g -> sr_keys (g <$> l) = sr_keys l.
Proof. intros [H _]. unfold sr_keys. rewrite <- list_fmap_compose. apply list_fmap_ext. intros. simpl. by rewrite H. Qed.

Lemma sr_list_ok_map g l : sr_keeps g -> sr_list_ok l -> sr_list_ok (g <$> l).
Proof.
  intros Hg [H1 H2]. split; [by rewrite sr_keys_map|]. apply Forall_fmap. eapply Forall_impl; [exact H2|]. apply Hg.
Qed.

Lemma sr_table_map g F l :
  sr_keeps g -> (forall a, to_stream (g a) = F (to_stream a)) -> sr_table (g <$> l) = F <$> sr_table l.
Proof.
  intros Hg HF. induction l as [|a l IH]; [symmetry; apply fmap_empty|].
  rewrite fmap_cons, !sr_table_cons, fmap_insert, IH. by rewrite HF, (sk_value _ Hg).
Qed.

Lemma sr_repr_map g F l m :
  sr_keeps g -> (forall a, to_stream (g a) = F (to_stream a)) -> sr_repr l m -> sr_repr (g <$> l) (F <$> m).
Proof. intros Hg HF [H <-]. split; [by apply sr_list_ok_map|by apply sr_table_map]. Qed.

Lemma sr_repr_id g l m : sr_keeps g -> (forall a, to_stream (g a) = to_stream a) -> sr_repr l m -> sr_repr (g <$> l) m.
Proof. intros H1 H2 H3. rewrite <- (map_fmap_id m). by apply sr_repr_map. Qed.

(** One attribute of the list changes, or goes. *)
Lemma sr_repr_replace b a c a' m :
  sr_repr (b ++ a :: c) m -> sr_attr_ok a' -> key_of (sr_value a') = key_of (sr_value a) ->
  sr_repr (b ++ a' :: c) (<[key_of (sr_value a) := to_stream a']> m).
Proof.
  intros [Hl <-] Ha Hk. pose proof (sr_list_ok_replace b a c a' Hl Ha Hk) as Hl'. split; [done|].
  destruct (sr_table_middle b a c (sl_nodup _ Hl)) as [-> _]. destruct (sr_table_middle b a' c (sl_nodup _ Hl')) as [-> _].
  by rewrite Hk, insert_insert_eq.
Qed.

Lemma sr_repr_remove b a c m : sr_repr (b ++ a :: c) m -> sr_repr (b ++ c) (delete (key_of (sr_value a)) m).
Proof.
  intros [Hl <-]. split; [by eapply sr_list_ok_sublist; [|exact Hl]; apply sublist_app; [done|apply sublist_cons]|].
  destruct (sr_table_middle b a c (sl_nodup _ Hl)) as [-> Hnone]. by rewrite delete_insert_id.
Qed.

(** ** Marks do not count *)
Definition unmarked (l : list msrp_attribute) : list msrp_attribute := sr_mark_tx false <$> l.
Definition same_but_tx (l l' : list msrp_attribute) : Prop := unmarked l' = unmarked l.

Lemma same_but_tx_sent l l' : Forall2 sr_sent l l' -> same_but_tx l l'.
Proof.
  unfold same_but_tx, unmarked. induction 1 as [|a a' l l' Ha _ IH]; [done|]. rewrite !fmap_cons, IH. by destruct Ha as [-> | ->].
Qed.
Lemma same_but_tx_mark l : same_but_tx l (mark_listener <$> l).
Proof.
  unfold same_but_tx, unmarked. rewrite <- list_fmap_compose. apply list_fmap_ext. intros i a _. unfold mark_listener; simpl.
  by destruct (is_type _ a).
Qed.
Lemma same_but_tx_trans l1 l2 l3 : same_but_tx l1 l2 -> same_but_tx l2 l3 -> same_but_tx l1 l3.
Proof. unfold same_but_tx. congruence. Qed.
Lemma same_but_tx_length l l' : same_but_tx l l' -> length l' = length l.
Proof. intros H. apply (f_equal length) in H. unfold unmarked in H. by rewrite !length_fmap in H. Qed.
Lemma same_but_tx_num t l l' : same_but_tx l l' -> sr_num t l' = sr_num t l.
Proof.
  assert (forall l, sr_num t (unmarked l) = sr_num t l) as E.
  { intros x. induction x as [|a x IH]; [done|]. unfold unmarked in *. by rewrite fmap_cons, !sr_num_cons, IH. }
  intros H. by rewrite <- (E l), <- (E l'), H.
Qed.

Lemma sr_repr_unmarked l m : sr_repr (unmarked l) m <-> sr_repr l m.
Proof.
  unfold sr_repr. assert (sr_table (unmarked l) = sr_table l) as ->.
  { induction l as [|a l IH]; [done|]. unfold unmarked in *. by rewrite fmap_cons, !sr_table_cons, IH. }
  assert (sr_list_ok (unmarked l) <-> sr_list_ok l) as ->; [|done].
  assert (sr_keys (unmarked l) = sr_keys l) as Hk by (unfold sr_keys, unmarked; by rewrite <- list_fmap_compose).
  split; intros [H1 H2]; (split; [congruence|]).
  - unfold unmarked in H2. rewrite Forall_fmap in H2. eapply Forall_impl; [exact H2|]. by intros a [].
  - apply Forall_fmap. eapply Forall_impl; [exact H2|]. by intros a [].
Qed.

Lemma sr_repr_same l l' m : same_but_tx l l' -> sr_repr l m -> sr_repr l' m.
Proof. intros H Hm. apply sr_repr_unmarked. rewrite H. by apply sr_repr_unmarked. Qed.

(** ** What the state machines make of one attribute *)
Definition sr_app_next (p2p : Z) (e : mrp_event) (a : msrp_attribute) : msrp_attribute :=
  sr_set_applicant (snd (mrp_applicant_fsm p2p (sr_applicant a) e (mrp_registrar_in (sr_registrar a)))) a.
Definition sr_reg_upd (e : mrp_event) (a : msrp_attribute) : msrp_attribute :=
  sr_set_registrar (reg_next (sr_registrar a) e) a.
Definition sr_reg_request (e : mrp_event) (a : msrp_attribute) : msrp_attribute :=
  match e with
  | MRP_EVENT_NEW => sr_set_registrar (set_notify MRP_NOTIFY_NEW (reg_next (sr_registrar a) MRP_EVENT_BEGIN)) a
  | _ => sr_reg_upd (local_request e) a
  end.
Definition sr_hush (a : msrp_attribute) : msrp_attribute :=
  sr_set_registrar (set_notify MRP_NOTIFY_NONE (sr_registrar a)) a.

Lemma sr_keeps_app p2p e : sr_keeps (sr_app_next p2p e).
Proof. split; [done|]. by intros a []. Qed.
Lemma sr_keeps_reg e : sr_keeps (sr_reg_upd e).
Proof. split; [done|]. intros a []. split; [done|done|]. cbn. by rewrite macaddr_next. Qed.
Lemma sr_keeps_request e : sr_keeps (sr_reg_request e).
Proof. destruct e; try apply sr_keeps_reg. split; [done|]. by intros a []. Qed.
Lemma sr_keeps_hush : sr_keeps sr_hush.
Proof. split; [done|]. by intros a []. Qed.
Lemma sr_keeps_compose g h : sr_keeps g -> sr_keeps h -> sr_keeps (fun a => g (h a)).
Proof. intros [] []. split; intros; [congruence|auto]. Qed.

#[export] Hint Resolve sr_keeps_app sr_keeps_reg sr_keeps_request sr_keeps_hush sr_keeps_compose : msrp_db.

Lemma to_stream_app p2p e a : to_stream (sr_app_next p2p e a) = on_states (fun x => (app_to p2p e x, snd x)) (to_stream a).
Proof.
  unfold to_stream, sr_app_next, on_states, set_states, sr_states, mrp_applicant_fsm, mrp_registrar_in. cbn -[app_to]. rewrite app_to_step. cbn.
  by destruct (applicant_step _ _ _ _) as [[[[??]?]?]|].
Qed.
Lemma to_stream_reg e a : to_stream (sr_reg_upd e a) = on_states (fun x => (fst x, reg_to e (snd x))) (to_stream a).
Proof.
  unfold to_stream, sr_reg_upd, on_states, set_states, sr_states, reg_next. cbn -[reg_to]. rewrite reg_to_step. cbn. by destruct (registrar_step _ _) as [[[??]?]|].
Qed.
Lemma to_stream_both p2p e a : to_stream (sr_reg_upd e (sr_app_next p2p e a)) = on_states (both_machines p2p e) (to_stream a).
Proof. by rewrite to_stream_reg, to_stream_app. Qed.
Lemma to_stream_request p2p e a :
  to_stream (sr_reg_request e (sr_app_next p2p e a)) =
  set_states (app_to p2p e (sr_states a), reg_to (local_request e) (snd (sr_states a))) (to_stream a).
Proof.
  assert (to_stream (sr_reg_upd (local_request e) (sr_app_next p2p e a)) =
    set_states (app_to p2p e (sr_states a), reg_to (local_request e) (snd (sr_states a))) (to_stream a)) as H by (by rewrite to_stream_reg, to_stream_app).
  destruct e; exact H.
Qed.

Lemma stream_live_spec a : stream_live (to_stream a) = if sr_reclaimable a then None else Some (to_stream a).
Proof.
  unfold stream_live, sr_reclaimable. cbn [st_states to_stream]. unfold sr_states, live.
  destruct (app_state (sr_applicant a)), (reg_state (sr_registrar a)); done.
Qed.

Lemma sr_table_kept l : NoDup (sr_keys l) -> sr_table (sr_kept l) = omap stream_live (sr_table l).
Proof.
  induction l as [|a l IH]; intros Hn; [symmetry; apply omap_empty|]. unfold sr_keys in Hn. rewrite fmap_cons in Hn.
  apply list.NoDup_cons in Hn as [Ha Hn]. specialize (IH Hn). rewrite sr_table_cons, omap_insert, stream_live_spec, <- IH.
  rewrite sr_kept_cons. destruct (sr_reclaimable a) eqn:E; [|done]. cbn [Datatypes.app]. symmetry. apply delete_id, sr_table_None.
  intros Hin. apply Ha. eapply elem_of_sublist; [exact Hin|]. apply fmap_sublist, sr_kept_sublist.
Qed.

(** Merging attributes is merging entries. *)
Lemma to_stream_merge blocked r a :
  key_of (sr_value r) = key_of (sr_value a) ->
  to_stream (merge_into blocked r a) = stream_merge blocked (to_stream r) (to_stream a).
Proof.
  destruct a as [v sub op ap rg], r as [v' sub' op' ap' rg']. intros Hk. unfold merge_into, stream_merge. cbn in Hk |- *.
  destruct v as [t|t|t|d], v' as [t'|t'|t'|d']; try done; cbn;
    unfold merge_talker, merge_listener, merge_domain, follow_talker, unregister; cbn.
  all: rewrite ?bool_decide_decide; repeat case_match; simplify_eq/=; try done.
Qed.
