(* ===== verification/MsrpEvent.v ===== *)
(** * MsrpEvent: every event of MSRP is a step of the table

    The specifications of the operations of [MsrpDaemon]: loops, notifications, reclaim,
    transmission and merging, and from them that every event of [msrp_event] implements
    one step of the table of [MsrpTable] and keeps the attribute list well-formed. *)
From stdpp Require Import base gmap list strings numbers sorting.
From S2P Require Import Prelude Text Parse Mrp MrpProps Mvrp MvrpWire Mmrp.
From S2P Require Import MrpWorld MvrpInv MvrpEvent MvrpTable MmrpInv MmrpWire Eui64set Msrp.
From S2P Require Import MsrpEmit MsrpDaemon MsrpInv MsrpWire MsrpTable.
#[local] Open Scope Z_scope.
#[local] Open Scope st_scope.

(** The database with another list. *)
Definition sr_with (l : list msrp_attribute) (d : msrp_database) : msrp_database :=
  mkMsrpDb l (sr_flag d) (interesting_stream_ids d) (enable_pruning d).

Lemma sr_with_same d : sr_with (sr_list d) d = d.
Proof. by destruct d. Qed.

(** The state [s'] is [s] but for the list, which is [l]. *)
Definition holding (s : SR) (l : list msrp_attribute) (s' : SR) : Prop := world s s' /\ app s' = sr_with l (app s).

Lemma holding_calm s s' : calm s s' -> holding s (sr_list (app s)) s'.
Proof. intros [H1 H2]. split; [done|]. by rewrite sr_with_same. Qed.
Lemma holding_after s l s1 s2 : calm s s1 -> holding s1 l s2 -> holding s l s2.
Proof. intros [H1 H2] [H3 H4]. split; [by eapply world_trans|]. by rewrite H4, H2. Qed.
Lemma holding_then s l s1 s2 : holding s l s1 -> calm s1 s2 -> holding s l s2.
Proof. intros [H1 H2] [H3 H4]. split; [by eapply world_trans|congruence]. Qed.
Lemma holding_trans s l1 l2 s1 s2 : holding s l1 s1 -> holding s1 l2 s2 -> holding s l2 s2.
Proof. intros [H1 H2] [H3 H4]. split; [by eapply world_trans|]. by rewrite H4, H2. Qed.
Lemma holding_list s l s' : holding s l s' -> sr_list (app s') = l.
Proof. by intros [_ ->]. Qed.
Lemma holding_put s l (Q : unit -> SR -> Prop) : (forall s', holding s l s' -> Q tt s') -> wp (sr_put_list l) Q s.
Proof. intros H. apply wp_modify, H. by split. Qed.

#[export] Hint Resolve holding_calm holding_after holding_then : msrp_db.

Section ops.
Context `{env : MrpEnv} `{lib : CLib}.
Implicit Types s : SR.

Lemma msrp_send_notifications_calm a n s : wp (msrp_send_notifications a n) (fun _ s' => calm s s') s.
Proof.
  unfold msrp_send_notifications. apply wp_bind, draw_calm. intros s1 H1.
  destruct (mrp_malloc (clk (io s))); cbn [negb]; [|by apply wp_ret].
  apply wp_bind, draw_calm. intros s2 H2. apply wp_bind, draw_calm. intros s3 H3.
  pose proof (calm_trans _ _ _ H1 (calm_trans _ _ _ H2 H3)) as H.
  destruct (_ && _); cbn [negb]; [|by apply wp_ret]. destruct (sr_notify_verb n); [|by apply wp_ret].
  apply wp_bind, wp_get, wp_bind. eapply wp_mono; [apply send_to_clients_calm|]. intros [] s4 H4.
  apply wp_ret. by eapply calm_trans.
Qed.

(** ** Loops over the attributes *)
Definition sr_acts (f : msrp_attribute -> stM SR msrp_attribute) (p2p : Z) (g : msrp_attribute -> msrp_attribute) : Prop :=
  forall a s, p2pmac (io s) = p2p -> wp (f a) (fun a' s' => a' = g a /\ calm s s') s.

Lemma sr_map_spec f p2p g l s :
  sr_acts f p2p g -> p2pmac (io s) = p2p -> wp (sr_map f l) (fun l' s' => l' = g <$> l /\ calm s s') s.
Proof.
  intros Hf. revert s. induction l as [|a l IH]; intros s Hp; simpl; [apply wp_ret; auto with world_db|].
  apply wp_bind. eapply wp_mono; [by apply Hf|]. intros a' s1 (-> & H1).
  apply wp_bind. eapply wp_mono; [apply IH; destruct H1 as [[] _]; congruence|]. intros l' s2 (-> & H2).
  apply wp_ret. split; [done|]. by eapply calm_trans.
Qed.

Lemma sr_for_each_spec f p2p g s :
  sr_acts f p2p g -> p2pmac (io s) = p2p -> wp (sr_for_each f) (fun _ s' => holding s (g <$> sr_list (app s)) s') s.
Proof.
  intros Hf Hp. unfold sr_for_each, sr_get_list. apply wp_bind, wp_bind, wp_get, wp_ret, wp_bind.
  eapply wp_mono; [by eapply sr_map_spec|]. intros l' s1 (-> & H1). apply holding_put. intros s2 H2. by eapply holding_after.
Qed.

Lemma sr_acts_applicant p2p e : sr_acts (sr_applicant_fsm e) p2p (sr_app_next p2p e).
Proof. intros a s <-. unfold sr_applicant_fsm. apply wp_bind, wp_get, wp_ret. auto with world_db. Qed.

Lemma sr_acts_registrar p2p e : sr_acts (sr_registrar_fsm e) p2p (sr_reg_upd e).
Proof.
  intros a s _. unfold sr_registrar_fsm. apply wp_bind. eapply wp_mono; [apply mrp_registrar_fsm_spec|].
  intros [rc r] s' (-> & H1 & _). apply wp_ret. split; [done|by apply calm_timer].
Qed.

Lemma sr_acts_compose f1 f2 p2p g1 g2 :
  sr_acts f1 p2p g1 -> sr_acts f2 p2p g2 -> sr_acts (fun a => let! a' := f1 a in f2 a') p2p (fun a => g2 (g1 a)).
Proof.
  intros H1 H2 a s Hp. apply wp_bind. eapply wp_mono; [by apply H1|]. intros a1 s1 (-> & H3).
  eapply wp_mono; [apply H2; destruct H3 as [[] _]; congruence|]. intros a2 s2 (-> & H4). split; [done|]. by eapply calm_trans.
Qed.

Lemma sr_acts_request p2p e : sr_acts (sr_registrar_part e) p2p (sr_reg_request e).
Proof.
  destruct e; try exact (sr_acts_registrar p2p _).
  - intros a s Hp. cbn [sr_registrar_part]. apply wp_bind. eapply wp_mono; [by apply (sr_acts_registrar p2p)|].
    intros a' s' (-> & H1). by apply wp_ret.
  - intros a s Hp. cbn [sr_registrar_part]. destruct (decide _); [by apply (sr_acts_registrar p2p)|].
    eapply wp_mono; [by apply (sr_acts_registrar p2p)|]. by intros a' s' (-> & H1).
Qed.

Lemma sr_acts_notify p2p : sr_acts sr_notify_one p2p sr_hush.
Proof.
  intros a s _. unfold sr_notify_one. destruct (decide (notify (sr_registrar a) = MRP_NOTIFY_NONE)) as [E|E].
  - apply wp_ret. split; [|apply calm_refl]. destruct a as [v u o x [st n m]]. cbn in E. by subst n.
  - apply wp_bind. eapply wp_mono; [apply msrp_send_notifications_calm|]. intros ? s' H. by apply wp_ret.
Qed.

(** ** Reclaim *)
Lemma msrp_conditional_reclaim_spec b a c s :
  sr_list (app s) = b ++ a :: c ->
  wp (msrp_conditional_reclaim b a c) (fun b' s' => b' = b ++ sr_kept [a] /\ holding s (b' ++ c) s') s.
Proof.
  intros Hl. unfold msrp_conditional_reclaim. rewrite sr_kept_cons. destruct (sr_reclaimable a); cbn [Datatypes.app].
  - apply wp_bind, holding_put. intros s1 H1. apply wp_bind. eapply wp_mono; [apply msrp_send_notifications_calm|].
    intros ? s2 H2. apply wp_ret. rewrite sr_kept_nil, app_nil_r. split; [done|]. by eapply holding_then.
  - apply wp_ret. split; [done|]. rewrite <- app_assoc. cbn. rewrite <- Hl. auto with msrp_db world_db.
Qed.

Lemma sr_reclaim_loop_spec todo b s :
  sr_list (app s) = b ++ todo -> wp (sr_reclaim_loop b todo) (fun _ s' => holding s (b ++ sr_kept todo) s') s.
Proof.
  revert b s. induction todo as [|a c IH]; intros b s Hl; cbn [sr_reclaim_loop].
  { apply wp_ret. rewrite sr_kept_nil, <- Hl. auto with msrp_db world_db. }
  apply wp_bind. eapply wp_mono; [by apply msrp_conditional_reclaim_spec|]. intros b' s1 [-> H1].
  eapply wp_mono; [apply IH; by eapply holding_list|]. intros ? s2 H2. rewrite (sr_kept_cons a c).
  replace (b ++ (if sr_reclaimable a then [] else [a]) ++ sr_kept c) with ((b ++ sr_kept [a]) ++ sr_kept c).
  - by eapply holding_trans.
  - rewrite sr_kept_cons, sr_kept_nil, app_nil_r. by rewrite app_assoc.
Qed.

Lemma sr_lvtimer_loop_spec todo b s :
  sr_list (app s) = b ++ todo ->
  wp (sr_lvtimer_loop b todo) (fun _ s' => holding s (b ++ sr_kept (sr_reg_upd MRP_EVENT_LVTIMER <$> todo)) s') s.
Proof.
  revert b s. induction todo as [|a c IH]; intros b s Hl; cbn [sr_lvtimer_loop].
  { apply wp_ret. rewrite fmap_nil, sr_kept_nil, <- Hl. auto with msrp_db world_db. }
  apply wp_bind. eapply wp_mono; [by apply (sr_acts_registrar (p2pmac (io s)))|]. intros a' s1 [-> H1]. apply wp_bind, holding_put.
  intros s2 H2. pose proof (holding_after _ _ _ _ H1 H2) as H3.
  apply wp_bind. eapply wp_mono; [apply msrp_conditional_reclaim_spec; by eapply holding_list|]. intros b' s3 [-> H4].
  eapply wp_mono; [apply IH; by eapply holding_list|]. intros ? s4 H5. rewrite fmap_cons, (sr_kept_cons _ (_ <$> c)).
  set (x := sr_reg_upd _ a) in *. set (k := sr_kept (_ <$> c)) in *.
  replace (b ++ (if sr_reclaimable x then [] else [x]) ++ k) with ((b ++ sr_kept [x]) ++ k).
  - by eapply holding_trans; [exact H3|]; eapply holding_trans.
  - rewrite sr_kept_cons, sr_kept_nil, app_nil_r. by rewrite app_assoc.
Qed.
End ops.

(** ** Transmission *)
Section transmit.
Context `{env : MrpEnv}.
Implicit Types s : SR.

Lemma sr_list_ok_same l l' : same_but_tx l l' -> sr_list_ok l -> sr_list_ok l'.
Proof. intros H Hl. by apply (sr_repr_same l l' (sr_table l)). Qed.

(** Nothing changed but marks, in a list that fits one frame. *)
Definition marks_gone s (s' : SR) : Prop := exists l', same_but_tx (sr_list (app s)) l' /\ holding s l' s'.
Definition sending s (s' : SR) : Prop :=
  sr_list_ok (sr_list (app s)) /\ (length (sr_list (app s)) <= 60)%nat /\ marks_gone s s'.

Lemma marks_calm s s' : calm s s' -> marks_gone s s'.
Proof. intros H. exists (sr_list (app s)). split; [done|auto with msrp_db]. Qed.
Lemma marks_then s s1 s2 : marks_gone s s1 -> calm s1 s2 -> marks_gone s s2.
Proof. intros (l & H1 & H2) H. exists l. split; [done|by eapply holding_then]. Qed.

(** A message was written from the position where the last one ended. *)
Definition part_sent (t : msrp_type) s (buf : list Z) (r : Z * Z * list Z) (s' : SR) : Prop :=
  sending s s' /\ length (snd r) = length buf /\
  0 <= snd (fst r) <= attribute_length t + 8 + sr_width t * sr_num t (sr_list (app s)).

Lemma emit_with_spec t buf emit s s1 :
  sending s s1 ->
  (forall l, sr_list_ok l -> (length l <= 60)%nat ->
    wp (emit l) (fun r s' => calm s1 s' /\ let '(rc, bytes, l', buf') := r in
      same_but_tx l l' /\ length buf' = length buf /\ 0 <= bytes <= attribute_length t + 8 + sr_width t * sr_num t l) s1) ->
  wp (emit_with emit) (part_sent t s buf) s1.
Proof.
  intros (Hl & Hlen & l1 & H1 & H2) He. unfold emit_with, sr_get_list. apply wp_bind, wp_bind, wp_get, wp_ret, wp_bind.
  rewrite (holding_list _ _ _ H2). pose proof (same_but_tx_length _ _ H1).
  eapply wp_mono; [apply He; [by eapply sr_list_ok_same|lia]|]. intros [[[rc bytes] l'] buf'] s2 (H3 & H4 & H5 & H6).
  apply wp_bind, holding_put. intros s3 H7. apply wp_ret. rewrite (same_but_tx_num _ _ _ H1) in H6. split; [|done].
  split_and!; [done|done|]. exists l'. split; [by eapply same_but_tx_trans|].
  eapply holding_trans; [exact H2|]. by eapply holding_after.
Qed.

(** The three encoders, where there is room. *)
Lemma sr_emit_room t buf msgbuf lva flag l l0 s :
  sr_list_ok l0 -> (length l0 <= 60)%nat -> same_but_tx l l0 ->
  Z.of_nat (length buf) = MAX_FRAME_SIZE -> 0 <= msgbuf -> msgbuf + 8 + attribute_length t <= MAX_FRAME_SIZE ->
  wp (let! buf := st_lift (pokes buf msgbuf (message_header t)) in sr_emit_message t buf msgbuf MAX_FRAME_SIZE lva flag l0)
    (fun r s' => calm s s' /\ let '(rc, bytes, l', buf') := r in
      same_but_tx l l' /\ length buf' = length buf /\ 0 <= bytes <= attribute_length t + 8 + sr_width t * sr_num t l) s.
Proof.
  intros Hl Hlen Hs Hb H0 Hr. pose proof (attribute_length_pos t) as Hp.
  destruct (pokes_done buf msgbuf (message_header t)) as (b1 & E1 & Hl1); [lia|cbn; lia|].
  apply wp_bind. eapply wp_lift; [exact E1|]. eapply wp_mono; [eapply sr_emit_message_safe; [exact Hb|lia|lia|apply Hl|done|exact E1]|].
  intros [[[rc bytes] l'] buf'] ? (-> & H1 & H2 & H3). split; [apply calm_refl|]. rewrite (same_but_tx_num t l l0 Hs) in H3.
  split; [|done]. eapply same_but_tx_trans; [exact Hs|]. by apply same_but_tx_sent.
Qed.

(** The message of one type, whichever encoder writes it. *)
Lemma sr_emit_talker_spec failed buf msgbuf lva flag s s1 :
  sending s s1 ->
  Z.of_nat (length buf) = MAX_FRAME_SIZE -> 0 <= msgbuf -> msgbuf + 8 + attribute_length (talker_type failed) <= MAX_FRAME_SIZE ->
  wp (emit_with (msrp_emit_talkervectors buf msgbuf MAX_FRAME_SIZE lva flag failed)) (part_sent (talker_type failed) s buf) s1.
Proof.
  intros Hs Hb H0 Hr. apply emit_with_spec; [done|]. intros l Hl' Hlen'. unfold msrp_emit_talkervectors.
  destruct (Z.ltb_spec (MAX_FRAME_SIZE - vector_size (talker_type failed)) msgbuf); [|eapply sr_emit_room; [done|done|done|exact Hb|done|cbn in *; lia]].
  destruct failed; cbn in *; unfold MAX_FRAME_SIZE in *; lia.
Qed.

Lemma sr_emit_domain_spec buf msgbuf lva flag s s1 :
  sending s s1 ->
  Z.of_nat (length buf) = MAX_FRAME_SIZE -> 0 <= msgbuf -> msgbuf + 12 <= MAX_FRAME_SIZE ->
  wp (emit_with (msrp_emit_domainvectors buf msgbuf MAX_FRAME_SIZE lva flag)) (part_sent MSRP_DOMAIN_TYPE s buf) s1.
Proof.
  intros Hs Hb H0 Hr. apply emit_with_spec; [done|]. intros l Hl' Hlen'. unfold msrp_emit_domainvectors.
  destruct (Z.ltb_spec (MAX_FRAME_SIZE - vector_size MSRP_DOMAIN_TYPE) msgbuf); [|eapply sr_emit_room; [done|done|done|exact Hb|done|cbn in *; lia]].
  cbn in *; unfold MAX_FRAME_SIZE in *; lia.
Qed.

Lemma sr_emit_listener_spec buf msgbuf lva flag s s1 :
  sending s s1 ->
  Z.of_nat (length buf) = MAX_FRAME_SIZE -> 0 <= msgbuf -> msgbuf + 16 <= MAX_FRAME_SIZE ->
  wp (emit_with (msrp_emit_listenvectors buf msgbuf MAX_FRAME_SIZE lva flag)) (part_sent MSRP_LISTENER_TYPE s buf) s1.
Proof.
  intros Hs Hb H0 Hr. apply emit_with_spec; [done|]. intros l Hl' Hlen'. unfold msrp_emit_listenvectors.
  assert (0 <= sr_num MSRP_LISTENER_TYPE l) as Hn by apply sr_num_nonneg.
  destruct (Z.ltb_spec (MAX_FRAME_SIZE - vector_size MSRP_LISTENER_TYPE) msgbuf); [cbn in *; unfold MAX_FRAME_SIZE in *; lia|].
  destruct (pokes_done buf msgbuf (message_header MSRP_LISTENER_TYPE)) as (b1 & E1 & Hl1); [lia|cbn; lia|].
  apply wp_bind. eapply wp_lift; [exact E1|]. apply wp_bind, draw_calm. intros s2 H1. destruct (mrp_malloc _); cbn [negb].
  2: { apply wp_ret. cbn [attribute_length]. unfold sr_width. cbn. split; [done|]. split_and!; [done|done|lia|lia]. }
  pose proof (same_but_tx_mark l) as Hm. pose proof (same_but_tx_length _ _ Hm) as Hlen2.
  eapply wp_mono; [eapply sr_emit_message_safe; [exact Hb|lia|cbn; lia| |lia|exact E1]|].
  { by apply (sr_list_ok_same _ _ Hm). }
  intros [[[rc bytes] l'] buf'] ? (-> & H2 & H3 & H4). split; [done|]. rewrite (same_but_tx_num _ _ _ Hm) in H4.
  split; [|done]. eapply same_but_tx_trans; [exact Hm|]. by apply same_but_tx_sent.
Qed.

Lemma sr_send_frame_spec b ptr s :
  0 <= ptr -> ptr + 2 <= Z.of_nat (length b) ->
  wp (let! buf := st_lift (pokes b ptr [0; 0]) in
      let! sent := mrpd_send (take (Z.to_nat (ptr + 2)) buf) in
      st_ret (if sent <=? 0 then -1 else 0)) (fun _ s' => calm s s') s.
Proof.
  intros H0 Hp. destruct (pokes_done b ptr [0; 0]) as (b3 & E3 & _); [lia|simpl; lia|].
  apply wp_bind. eapply wp_lift; [exact E3|]. apply wp_bind. unfold mrpd_send. apply wp_bind, draw_calm.
  intros s1 [[] Ha]. apply wp_bind. destruct (0 <? _); [apply wp_modify|apply wp_ret]; apply wp_ret, wp_ret; by split.
Qed.

Lemma msrp_txpdu_spec s :
  length (STATION_ADDR (io s)) = 6%nat -> sr_list_ok (sr_list (app s)) -> (length (sr_list (app s)) <= 49)%nat ->
  wp msrp_txpdu (fun _ s' => marks_gone s s') s.
Proof.
  intros Hst Hl Hlen. unfold msrp_txpdu. apply wp_bind, draw_calm. intros s1 H1.
  destruct (mrp_malloc _); cbn [negb]; [|apply wp_ret; by apply marks_calm].
  apply wp_bind, wp_get, wp_bind.
  destruct (pokes_done (replicate (Z.to_nat MAX_FRAME_SIZE) 0) 0
    (MSRP_ADDR ++ STATION_ADDR (io s1) ++ be_bytes 2 MSRP_ETYPE ++ [MSRP_PROT_VER])) as (b0 & E0 & Hb0); [lia| |].
  { destruct H1 as [[] _]. rewrite !length_app, length_be_bytes, length_replicate, mw_station, Hst. unfold MAX_FRAME_SIZE. simpl. lia. }
  eapply wp_lift; [exact E0|]. clear E0. apply wp_bind. set (lv := lva_tx (lva (mdb s1))).
  assert (wp (when lv do upd_mdb (fun d => set_lva (mkLva (lva_state (lva d)) false (lva_sndmsg (lva d))) d))
    (fun _ s' => calm s1 s') s1) as Hlv by (destruct lv; [by apply wp_modify|apply wp_ret, calm_refl]).
  eapply wp_mono; [exact Hlv|]. intros ? s2 H2. cbn in H2. clear Hlv. pose proof (calm_trans _ _ _ H1 H2) as H3. clear H1 H2.
  rewrite length_replicate in Hb0. assert (Z.of_nat (length b0) = MAX_FRAME_SIZE) as Hb0' by (rewrite Hb0; done). clear Hb0.
  pose proof (sr_num_total (sr_list (app s))) as Hn. pose proof (fun t => sr_num_nonneg t (sr_list (app s))) as Hnn.
  pose proof (Hnn MSRP_TALKER_ADV_TYPE). pose proof (Hnn MSRP_TALKER_FAILED_TYPE). pose proof (Hnn MSRP_LISTENER_TYPE).
  pose proof (Hnn MSRP_DOMAIN_TYPE). clear Hnn Hst. set (flag := sr_flag _).
  assert (sending s s2) as G2 by (split_and!; [done|lia|by apply marks_calm]). unfold part_sent, sr_width.
  apply wp_bind. eapply wp_mono; [apply (sr_emit_talker_spec false); [exact G2|lia|lia|done]|].
  intros [[rc1 y1] b1] s3 (G3 & B3 & Y3). unfold sr_width in Y3. cbn in B3, Y3. destruct (rc1 =? -1); [by apply wp_ret, G3|].
  apply wp_bind. eapply wp_mono; [apply (sr_emit_talker_spec true); [exact G3|lia|lia|cbn; unfold MAX_FRAME_SIZE; lia]|].
  intros [[rc2 y2] b2] s4 (G4 & B4 & Y4). unfold sr_width in Y4. cbn in B4, Y4. destruct (rc2 =? -1); [by apply wp_ret, G4|].
  destruct (_ <=? _); [by apply wp_ret, G4|].
  apply wp_bind. eapply wp_mono; [apply sr_emit_listener_spec; [exact G4|lia|lia|unfold MAX_FRAME_SIZE; lia]|].
  intros [[rc3 y3] b3] s5 (G5 & B5 & Y5). unfold sr_width in Y5. cbn in B5, Y5. destruct (rc3 =? -1); [by apply wp_ret, G5|].
  apply wp_bind. eapply wp_mono; [apply sr_emit_domain_spec; [exact G5|lia|lia|unfold MAX_FRAME_SIZE; lia]|].
  intros [[rc4 y4] b4] s6 (G6 & B6 & Y6). unfold sr_width in Y6. cbn in B6, Y6. destruct (rc4 =? -1); [by apply wp_ret, G6|].
  destruct (_ =? 15); [by apply wp_ret, G6|]. destruct (_ <? _); [|by apply wp_ret, G6]. unfold MAX_FRAME_SIZE in *.
  eapply wp_mono; [apply sr_send_frame_spec; lia|]. intros ? s7 H7. eapply marks_then; [apply G6|done].
Qed.
End transmit.

(** ** Events *)
Section events.
Context `{env : MrpEnv} `{lib : CLib} `{laws : !CLibLaws lib}.
Implicit Types s : SR.
Hypothesis Hrand : forall n, 0 <= mrp_random n.

(** The set of interesting streams is the finite set [X]. *)
Definition interests (d : msrp_database) (X : gset Z) : Prop := holds (interesting_stream_ids d) (gset_to_gmap 0 X).

(** The state [s'] stands for the table [m], with the rest of [s]. *)
Definition sr_stands s (m : sr_map_t) (s' : SR) : Prop := exists l, sr_repr l m /\ holding s l s'.

Lemma sr_stands_calm s m s' : calm s s' -> sr_repr (sr_list (app s)) m -> sr_stands s m s'.
Proof. intros H1 H2. eexists. split; [exact H2|auto with msrp_db]. Qed.
Lemma sr_stands_after s m s1 s2 : calm s s1 -> sr_stands s1 m s2 -> sr_stands s m s2.
Proof. intros H1 (l & H2 & H3). exists l. split; [done|by eapply holding_after]. Qed.
Lemma sr_stands_then s m s1 s2 : sr_stands s m s1 -> calm s1 s2 -> sr_stands s m s2.
Proof. intros (l & H2 & H3) H1. exists l. split; [done|by eapply holding_then]. Qed.
Lemma sr_stands_trans s m1 m2 s1 s2 : sr_stands s m1 s1 -> sr_stands s1 m2 s2 -> sr_stands s m2 s2.
Proof. intros (l & H2 & H3) (l' & H4 & H5). exists l'. split; [done|by eapply holding_trans]. Qed.
Lemma sr_stands_repr s m s' : sr_stands s m s' -> sr_repr (sr_list (app s')) m.
Proof. intros (l & H1 & H2). by rewrite (holding_list _ _ _ H2). Qed.
Lemma sr_stands_world s m s' : sr_stands s m s' -> world s s'.
Proof. by intros (l & _ & [H _]). Qed.

#[local] Hint Resolve sr_stands_calm sr_stands_after sr_stands_then sr_stands_trans sr_stands_repr : msrp_db.

(** A loop over the attributes is a change of every entry. *)
Lemma sr_sweep_spec f p2p g F m s :
  sr_acts f p2p g -> p2pmac (io s) = p2p -> sr_keeps g -> (forall a, to_stream (g a) = F (to_stream a)) ->
  sr_repr (sr_list (app s)) m -> wp (sr_for_each f) (fun _ s' => sr_stands s (F <$> m) s') s.
Proof.
  intros Hf Hp Hg HF Hm. eapply wp_mono; [by eapply sr_for_each_spec|]. intros ? s' H1. eexists. split; [|exact H1].
  by apply sr_repr_map.
Qed.

Lemma sr_transmit_spec m s :
  length (STATION_ADDR (io s)) = 6%nat -> (length (sr_list (app s)) <= 49)%nat -> sr_repr (sr_list (app s)) m ->
  wp msrp_txpdu (fun _ s' => sr_stands s m s') s.
Proof.
  intros Hst Hlen Hm. eapply wp_mono; [apply msrp_txpdu_spec; [done|apply Hm|done]|].
  intros ? s' (l & H1 & H2). exists l. split; [|done]. by eapply sr_repr_same.
Qed.

Lemma stands_length s m m' s' :
  sr_repr (sr_list (app s)) m -> sr_stands s m' s' -> size m' = size m -> length (sr_list (app s')) = length (sr_list (app s)).
Proof.
  assert (forall l m, sr_repr l m -> size m = length l) as H.
  { intros l x [[Hn _] <-]. revert Hn. induction l as [|a l IH]; intros Hn; [apply map_size_empty|]. unfold sr_keys in Hn.
    rewrite fmap_cons in Hn. apply list.NoDup_cons in Hn as [H1 H2]. rewrite sr_table_cons, map_size_insert_None; [|by apply sr_table_None].
    cbn. by rewrite IH. }
  intros Hm Hs He. by rewrite <- (H _ _ Hm), <- (H _ _ (sr_stands_repr _ _ _ Hs)).
Qed.

Lemma sr_event_tx_spec ra m s :
  length (STATION_ADDR (io s)) = 6%nat -> (length (sr_list (app s)) <= 49)%nat -> sr_repr (sr_list (app s)) m ->
  wp (sr_event_switch MRP_EVENT_TX ra)
    (fun _ s' => sr_stands s (on_states (fun x => (app_to (p2pmac (io s)) MRP_EVENT_TX x, snd x)) <$> m) s') s.
Proof.
  intros Hst Hlen Hm. cbn [sr_event_switch]. apply wp_bind. eapply wp_mono; [apply mrp_jointimer_stop_spec|].
  intros ? s1 (H1%calm_timer & _). pose proof H1 as [[] Ha]. apply wp_bind.
  eapply wp_mono; [eapply sr_sweep_spec; [apply sr_acts_applicant|exact mw_p2pmac|apply sr_keeps_app|intros; apply to_stream_app|by rewrite Ha]|].
  intros ? s2 H2. pose proof (sr_stands_after _ _ _ _ H1 H2) as H3. unfold sr_get_list. apply wp_bind, wp_bind, wp_get, wp_ret, wp_bind.
  eapply wp_mono; [eapply sr_transmit_spec; [destruct (sr_stands_world _ _ _ H3); congruence| |by eapply sr_stands_repr]|].
  { rewrite (stands_length _ _ _ _ Hm H3); [done|]. apply map_size_fmap. }
  intros ? s3 H6. apply wp_bind. set (count := foldl _ _ _).
  assert (wp (if count =? 0 then st_ret 0 else mrp_jointimer_start) (fun _ s' => calm s3 s') s3) as Hj.
  { destruct (_ =? _); [apply wp_ret, calm_refl|]. eapply wp_mono; [apply mrp_jointimer_start_spec|].
    intros ? s' (? & _). by apply calm_timer. }
  eapply wp_mono; [exact Hj|]. intros ? s4 H8. apply wp_ret. eapply sr_stands_trans; [exact H3|]. exact (sr_stands_then _ _ _ _ H6 H8).
Qed.

(** Only the flag of the empty LeaveAll differs. *)
Lemma sr_flag_stands b m s s' :
  sr_flag (app s) = false -> sr_stands (mkMrp (mdb s) (mkMsrpDb (sr_list (app s)) b (interesting_stream_ids (app s)) (enable_pruning (app s))) (io s)) m s' ->
  sr_stands s m (mkMrp (mdb s') (mkMsrpDb (sr_list (app s')) false (interesting_stream_ids (app s')) (enable_pruning (app s'))) (io s')).
Proof.
  intros Hf (l & H1 & [] & H3). exists l. split; [done|]. split; [by split|]. unfold sr_with in *. cbn in *. rewrite H3. cbn. by rewrite Hf.
Qed.

Lemma sr_event_lvatimer_spec ra m s :
  length (STATION_ADDR (io s)) = 6%nat -> (length (sr_list (app s)) <= 49)%nat -> sr_flag (app s) = false -> sr_repr (sr_list (app s)) m ->
  wp (sr_event_switch MRP_EVENT_LVATIMER ra)
    (fun _ s' => sr_stands s (on_states (both_machines (p2pmac (io s)) MRP_EVENT_TXLA) <$> m) s') s.
Proof.
  intros Hst Hlen Hflag Hm. cbn [sr_event_switch]. apply wp_bind. eapply wp_mono; [apply mrp_lvatimer_stop_spec|].
  intros ? s1 (H1%calm_timer & _). apply wp_bind. eapply wp_mono; [apply mrp_jointimer_stop_spec|].
  intros ? s2 (H2%calm_timer & _). pose proof (calm_trans _ _ _ H1 H2) as H3. pose proof H3 as [[] Ha]. apply wp_bind.
  eapply wp_mono; [eapply sr_sweep_spec; [apply sr_acts_compose; [apply sr_acts_applicant|apply sr_acts_registrar]|exact mw_p2pmac| |intros; apply to_stream_both|by rewrite Ha]|].
  { auto with msrp_db. }
  intros ? s3 H4. pose proof (sr_stands_after _ _ _ _ H3 H4) as H5. apply wp_bind. eapply wp_mono; [by apply mrp_lvatimer_fsm_spec|].
  intros ? s4 (_ & H6%calm_lva & _). pose proof (sr_stands_then _ _ _ _ H5 H6) as H7. apply wp_bind, wp_modify.
  apply wp_bind. eapply wp_mono; [by apply mrp_lvatimer_fsm_spec|].
  intros ? s6 (_ & H10%calm_lva & _). destruct (sr_stands_world _ _ _ H7). pose proof H10 as [[] Ha6]. apply wp_bind.
  eapply wp_mono; [eapply sr_transmit_spec; [cbn in *; congruence|rewrite Ha6; cbn|rewrite Ha6; exact (sr_stands_repr _ _ _ H7)]|].
  { rewrite (stands_length _ _ _ _ Hm H7); [done|]. apply map_size_fmap. }
  intros ? s7 H11. apply wp_bind, wp_modify, wp_ret. eapply sr_stands_trans; [exact H7|].
  apply (sr_flag_stands true); [by destruct H7 as (? & _ & _ & ->)|]. by eapply sr_stands_after.
Qed.

Lemma sr_event_rla_spec r m s :
  sr_repr (sr_list (app s)) m ->
  wp (sr_event_switch MRP_EVENT_RLA (Some r)) (fun _ s' => sr_stands s
    ((fun d => if decide (sr_type (st_value d) = sr_type (sr_value r)) then on_states (both_machines (p2pmac (io s)) MRP_EVENT_RLA) d else d) <$> m) s') s.
Proof.
  intros Hm. cbn [sr_event_switch]. apply wp_bind. eapply wp_mono; [apply mrp_jointimer_start_spec|].
  intros ? s1 (H1%calm_timer & _). pose proof H1 as [[] Ha]. apply wp_bind. eapply wp_mono.
  { eapply (sr_sweep_spec _ (p2pmac (io s)) (fun a => if decide (sr_type (sr_value a) = sr_type (sr_value r))
      then sr_reg_upd MRP_EVENT_RLA (sr_app_next (p2pmac (io s)) MRP_EVENT_RLA a) else a)
      (fun d => if decide (sr_type (st_value d) = sr_type (sr_value r)) then on_states (both_machines (p2pmac (io s)) MRP_EVENT_RLA) d
        else d)); [|done| | |by rewrite Ha].
    - intros x s0 Hp. destruct (decide _); [|apply wp_ret; auto with world_db].
      by apply (sr_acts_compose _ _ _ _ _ (sr_acts_applicant _ _) (sr_acts_registrar _ _)).
    - split; intros x; destruct (decide _); try done. apply sr_keeps_compose; auto with msrp_db.
    - intros x. cbn [to_stream st_value]. destruct (decide _); [apply to_stream_both|done]. }
  intros ? s2 H2. pose proof (sr_stands_after _ _ _ _ H1 H2) as H3. apply wp_bind.
  eapply wp_mono; [by apply mrp_lvatimer_fsm_spec|]. intros ? s3 (_ & H4%calm_lva & _). apply wp_ret. by eapply sr_stands_then.
Qed.

Lemma sr_event_lvtimer_spec ra m s :
  sr_repr (sr_list (app s)) m ->
  wp (sr_event_switch MRP_EVENT_LVTIMER ra) (fun _ s' => sr_stands s
    (omap (fun d => stream_live (on_states (fun x => (fst x, reg_to MRP_EVENT_LVTIMER (snd x))) d)) m) s') s.
Proof.
  intros Hm. cbn [sr_event_switch]. apply wp_bind. eapply wp_mono; [apply mrp_lvtimer_stop_spec|].
  intros ? s1 (H1%calm_timer & _). unfold sr_get_list. apply wp_bind, wp_bind, wp_get, wp_ret, wp_bind.
  eapply wp_mono; [by apply sr_lvtimer_loop_spec|]. intros ? s2 H2. apply wp_ret. eapply sr_stands_after; [exact H1|].
  eexists. split; [|exact H2]. destruct H1 as [_ ->]. cbn [Datatypes.app].
  destruct (sr_repr_map (sr_reg_upd MRP_EVENT_LVTIMER) _ _ _ (sr_keeps_reg _) (to_stream_reg _) Hm) as [H3 H4].
  split; [eapply sr_list_ok_sublist; [apply sr_kept_sublist|done]|]. rewrite sr_table_kept by apply H3. rewrite H4.
  apply map_eq. intros k. rewrite !lookup_omap, lookup_fmap. by destruct (m !! k).
Qed.

(** ** Events for one attribute *)
Lemma sr_repr_lookup l m v d :
  sr_repr l m -> sr_value_ok v -> m !! key_of v = Some d ->
  exists b a c, l = b ++ a :: c /\ key_of (sr_value a) = key_of v /\ sr_split v l = Some (b, a, c) /\ to_stream a = d /\
    sr_attr_ok a.
Proof.
  intros [Hl <-] Hv Hd. pose proof (msrp_lookup_split l v (sr_values_ok _ Hl) Hv) as H.
  destruct (sr_table_found l v Hl Hv) as [_ Hf]. destruct (msrp_lookup l v) as [a|]; [|by destruct (Hf (mk_is_Some _ _ Hd))].
  destruct H as (b & c & -> & H1 & H2). exists b, a, c. split_and!; try done.
  - destruct (sr_table_middle b a c (sl_nodup _ Hl)) as [E _]. rewrite E, H1, lookup_insert_eq in Hd. congruence.
  - destruct Hl as [_ Hl]. apply Forall_app in Hl as [_ Hl]. by apply Forall_cons_iff in Hl as [? _].
Qed.

Lemma sr_attribute_event_spec e v m d s :
  sr_value_ok v -> sr_repr (sr_list (app s)) m -> m !! key_of v = Some d ->
  wp (sr_attribute_event e v)
    (fun _ s' => sr_stands s (partial_alter (fun _ => stream_request (p2pmac (io s)) e d) (key_of v) m) s') s.
Proof.
  intros Hv Hm Hd. destruct (sr_repr_lookup _ _ _ _ Hm Hv Hd) as (b & a & c & Hl & Hk & Hs & <- & Ha).
  unfold sr_attribute_event, sr_get_list. apply wp_bind, wp_bind, wp_get, wp_ret. rewrite Hs.
  apply wp_bind. eapply wp_mono; [by apply (sr_acts_applicant (p2pmac (io s)))|]. intros a1 s1 [-> H1].
  apply wp_bind. eapply wp_mono; [apply (sr_acts_request (p2pmac (io s))); destruct H1 as [[] _]; congruence|]. intros a2 s2 [-> H2].
  pose proof (calm_trans _ _ _ H1 H2) as H3. apply wp_bind, holding_put. intros s3 H4.
  pose proof (holding_after _ _ _ _ H3 H4) as H5. apply wp_bind.
  eapply wp_mono; [apply msrp_conditional_reclaim_spec; by eapply holding_list|]. intros b' s4 [-> H6]. apply wp_ret.
  eexists. split; [|by eapply holding_trans]. rewrite Hl in Hm. unfold stream_request.
  change (st_states (to_stream a)) with (sr_states a). rewrite <- to_stream_request, stream_live_spec.
  set (x := sr_reg_request e _). rewrite sr_kept_cons, sr_kept_nil. 
  assert (sr_keeps (fun a => sr_reg_request e (sr_app_next (p2pmac (io s)) e a))) as [Hg1 Hg2] by auto with msrp_db.
  destruct (sr_reclaimable x).
  - cbn [Datatypes.app]. rewrite app_nil_r. rewrite <- Hk. by apply sr_repr_remove.
  - cbn [Datatypes.app]. rewrite <- app_assoc. cbn [Datatypes.app].
    change (partial_alter _ _ m) with (<[key_of v := to_stream x]> m). rewrite <- Hk.
    apply sr_repr_replace; [done|by apply Hg2|]. f_equal. apply Hg1.
Qed.

(** Whether memory was available, if that mattered. *)
Definition if_memory (mem : bool) : Prop := (forall n, mrp_malloc n = true) -> mem = true.

Lemma msrp_merge_spec r m d s :
  sr_attr_ok r -> sr_repr (sr_list (app s)) m -> m !! key_of (sr_value r) = Some d ->
  wp (msrp_merge r) (fun _ s' => exists mem, if_memory mem /\
    sr_stands s (<[key_of (sr_value r) := stream_merge (merge_blocked mem m (to_stream r) d) (to_stream r) d]> m) s') s.
Proof.
  intros Hr Hm Hd. destruct (sr_repr_lookup _ _ _ _ Hm (so_value _ Hr) Hd) as (b & a & c & Hl & Hk & Hs & <- & Ha).
  unfold msrp_merge, sr_get_list. apply wp_bind, wp_bind, wp_get, wp_ret. rewrite Hs. apply wp_bind.
  apply (wp_mono _ (fun blocked s' => calm s s' /\ exists mem, if_memory mem /\
    blocked = merge_blocked mem m (to_stream r) (to_stream a))).
  2: { intros blocked s1 (H1 & mem & H2 & ->). apply wp_bind, holding_put. intros s2 H3. apply wp_ret. exists mem. split; [done|].
    eexists. split; [|by eapply holding_after]. rewrite Hl in Hm. rewrite <- Hk, <- to_stream_merge by done.
    destruct (merge_into_ok (merge_blocked mem m (to_stream r) (to_stream a)) r a Hr Ha). by apply sr_repr_replace. }
  unfold needs_talker, merge_blocked. cbn [to_stream st_value st_substate].
  assert (forall x, wp (st_ret false) (fun blocked s' => calm s s' /\ exists mem : bool, if_memory mem /\ blocked = false && x mem) s) as Hno.
  { intros x. apply wp_ret. split; [apply calm_refl|]. by exists true. }
  destruct (sr_value a) as [t|t|t|x] eqn:Ev; try exact (Hno (fun _ => true)).
  destruct (_ && _); cbn [andb]; [|exact (Hno (fun _ => true))].
  apply wp_bind, draw_calm. intros s1 H1. destruct (mrp_malloc (clk (io s))) eqn:Em; cbn [negb]; apply wp_ret; (split; [done|]).
  - exists true. split; [done|]. cbn [andb]. f_equal. apply bool_decide_ext. destruct Hm as [Hm1 <-]. apply sr_table_found; [done|].
    apply set_StreamID_ok; [|auto with msrp_db]. destruct Ha as [Ha _ _]. rewrite Ev in Ha. apply Ha.
  - exists false. split; [|done]. intros H. congruence.
Qed.

(** Pruning. *)
Lemma is_interesting_spec d X m v :
  interests d X -> sr_repr (sr_list d) m -> sr_value_ok v -> is_interesting d v = wanted (enable_pruning d) X m v.
Proof.
  intros HX [Hl <-] Hv. unfold is_interesting, wanted, is_talker. assert (forall t, talker_ok t ->
    (if enable_pruning d then bool_decide (is_Some (eui64set_find (interesting_stream_ids d) (eui64_read (StreamID t)))) ||
        bool_decide (is_Some (msrp_lookup (sr_list d) (Listener (set_StreamID (StreamID t) zero_talker)))) else true) =
    negb (enable_pruning d) || bool_decide (eui64_read (StreamID t) ∈ X) ||
      bool_decide (is_Some (sr_table (sr_list d) !! KListener (StreamID t)))) as H.
  { intros t Ht. destruct (enable_pruning d); [|done]. cbn [negb orb]. f_equal; apply bool_decide_ext.
    - pose proof (find_spec _ _ (eui64_read (StreamID t)) HX) as Hf. rewrite <- (fmap_is_Some p), Hf.
      rewrite lookup_gset_to_gmap, option_guard_decide. destruct (decide _); split; done || (intros []; done).
    - apply (sr_table_found _ (Listener (set_StreamID (StreamID t) zero_talker))); [done|].
      apply set_StreamID_ok; [apply Ht|auto with msrp_db]. }
  destruct v; cbn in Hv; auto.
Qed.

Lemma sr_repr_add l r m :
  sr_repr l m -> sr_attr_ok r -> m !! key_of (sr_value r) = None ->
  sr_repr (msrp_add l r) (<[key_of (sr_value r) := to_stream r]> m).
Proof.
  intros [Hl <-] Hr Hn. destruct (msrp_add_spec l r) as (b & c & -> & ->).
  assert (key_of (sr_value r) ∉ sr_keys (b ++ c)) as Hk.
  { intros (y & H1 & H2)%list_elem_of_fmap. apply list_elem_of_split in H2 as (b' & c' & E). rewrite E in Hl, Hn.
    destruct (sr_table_middle b' y c' (sl_nodup _ Hl)) as [Et _]. rewrite Et, H1, lookup_insert_eq in Hn. done. }
  pose proof (sr_list_ok_insert b c r Hl Hr Hk) as Hl'. split; [done|]. by destruct (sr_table_middle b r c (sl_nodup _ Hl')) as [-> _].
Qed.

Lemma alter_after_insert (f : option stream -> option stream) y k x (m : sr_map_t) :
  f (m !! k) = y -> partial_alter (fun _ => y) k (<[k := x]> m) = partial_alter f k m.
Proof.
  intros H. apply map_eq. intros k'. unfold insert, map_insert. rewrite partial_alter_partial_alter_eq.
  destruct (decide (k = k')) as [<-|Hne]; [by rewrite !lookup_partial_alter_eq|by rewrite !lookup_partial_alter_ne].
Qed.

Lemma sr_attribute_switch_spec e r X m s :
  sr_attr_ok r -> interests (app s) X -> sr_repr (sr_list (app s)) m ->
  wp (sr_attribute_switch e (Some r)) (fun _ s' => exists mem, if_memory mem /\ sr_stands s
    (if wanted (enable_pruning (app s)) X m (sr_value r) then sr_entry_step (p2pmac (io s)) mem e (to_stream r) m else m) s') s.
Proof.
  intros Hr HX Hm. pose proof (so_value _ Hr) as Hv. unfold sr_attribute_switch. apply wp_bind, wp_get.
  rewrite (is_interesting_spec _ _ _ _ HX Hm Hv). destruct (wanted _ _ _ _).
  2: { apply wp_ret. exists true. split; [done|]. auto with msrp_db world_db. }
  apply wp_bind. eapply wp_mono; [apply mrp_jointimer_start_spec|]. intros ? s1 (H1%calm_timer & _). pose proof H1 as [[] Ha].
  unfold sr_get_list. apply wp_bind, wp_bind, wp_get, wp_ret. rewrite Ha. unfold sr_entry_step. cbn [to_stream st_value].
  pose proof (sr_table_found _ _ (proj1 Hm) Hv) as Hf. rewrite (proj2 Hm) in Hf.
  destruct (m !! key_of (sr_value r)) as [d|] eqn:Ed.
  - destruct (msrp_lookup _ _) as [x|]; [|by destruct (proj2 Hf (mk_is_Some _ _ eq_refl))].
    apply wp_bind. eapply wp_mono; [by apply msrp_merge_spec; [|rewrite Ha|]|]. intros ? s2 (mem & Hmem & H2). apply wp_bind.
    eapply wp_mono; [eapply sr_attribute_event_spec; [done|by eapply sr_stands_repr|apply lookup_insert_eq]|].
    intros ? s3 H3. apply wp_ret. exists mem. split; [done|]. eapply sr_stands_after; [exact H1|]. eapply sr_stands_trans; [exact H2|].
    replace (p2pmac (io s2)) with (p2pmac (io s)) in H3 by (destruct (sr_stands_world _ _ _ H2); congruence).
    erewrite alter_after_insert in H3; [exact H3|]. by rewrite Ed.
  - destruct (msrp_lookup _ _) as [x|]; [by destruct (proj1 Hf (mk_is_Some _ _ eq_refl))|]. destruct (decide _) as [->|He'].
    { apply wp_ret. exists true. split; [done|]. apply sr_stands_calm; [done|]. rewrite partial_alter_id; [done|]. by rewrite Ed. }
    apply wp_bind, holding_put. intros s2 H2. apply wp_bind.
    eapply wp_mono; [eapply sr_attribute_event_spec; [done| |apply lookup_insert_eq]|].
    { rewrite (holding_list _ _ _ H2). by apply sr_repr_add. }
    intros ? s3 H3. apply wp_ret. exists true. split; [done|]. eapply sr_stands_after; [exact H1|].
    replace (p2pmac (io s2)) with (p2pmac (io s)) in H3 by (destruct H2 as [[] _]; congruence).
    assert (forall m', sr_stands s2 m' s3 -> sr_stands s1 m' s3) as Hgo.
    { intros m' (l & G1 & G2). exists l. split; [done|by eapply holding_trans]. }
    apply Hgo. erewrite alter_after_insert in H3; [exact H3|]. by rewrite Ed.
Qed.

Lemma sr_event_switch_spec e ra X m s :
  length (STATION_ADDR (io s)) = 6%nat -> sr_flag (app s) = false ->
  (e = MRP_EVENT_TX \/ e = MRP_EVENT_LVATIMER -> (length (sr_list (app s)) <= 49)%nat) ->
  (forall r, ra = Some r -> sr_attr_ok r) -> interests (app s) X -> sr_repr (sr_list (app s)) m ->
  wp (sr_event_switch e ra) (fun _ s' => exists mem, if_memory mem /\
    sr_stands s (sr_table_step (p2pmac (io s)) (enable_pruning (app s)) X mem e (to_stream <$> ra) m) s') s.
Proof.
  intros Hst Hflag Hlen Hr HX Hm. destruct (attribute_events e) eqn:E.
  - assert (sr_event_switch e ra = sr_attribute_switch e ra) as -> by (by destruct e). destruct ra as [r|].
    + assert (forall mem, sr_table_step (p2pmac (io s)) (enable_pruning (app s)) X mem e (to_stream <$> Some r) m =
        if wanted (enable_pruning (app s)) X m (sr_value r) then sr_entry_step (p2pmac (io s)) mem e (to_stream r) m else m) as Heq
        by (intros mem; by destruct e).
      eapply wp_mono; [by apply sr_attribute_switch_spec; auto|]. intros x s' (mem & H1 & H2). exists mem. by rewrite Heq.
    + apply wp_ret. exists true. split; [done|]. assert (sr_table_step (p2pmac (io s)) (enable_pruning (app s)) X true e None m = m) as Heq
        by (by destruct e). cbn [fmap option_fmap option_map]. rewrite Heq. auto with msrp_db world_db.
  - assert (forall Q : bool * Z -> SR -> Prop, (forall x s', Q x s' -> exists mem, if_memory mem /\
      sr_stands s (sr_table_step (p2pmac (io s)) (enable_pruning (app s)) X mem e (to_stream <$> ra) m) s') ->
      wp (sr_event_switch e ra) Q s -> wp (sr_event_switch e ra) (fun _ s' => exists mem, if_memory mem /\
      sr_stands s (sr_table_step (p2pmac (io s)) (enable_pruning (app s)) X mem e (to_stream <$> ra) m) s') s) as Hgo
      by (intros Q HQ H; by eapply wp_mono).
    destruct e; try done;
      try (apply wp_ret; exists true; split; [done|]; by auto with msrp_db world_db).
    + eapply Hgo; [|by apply sr_event_tx_spec; auto]. intros x s' H. by exists true.
    + destruct ra as [r|]; [eapply Hgo; [|by apply sr_event_rla_spec]; intros x s' H; by exists true|].
      cbn [sr_event_switch]. apply wp_bind. eapply wp_mono; [apply mrp_jointimer_start_spec|]. intros ? s1 (H1%calm_timer & _).
      apply wp_ret. exists true. split; [done|]. by apply sr_stands_calm.
    + eapply Hgo; [|by apply sr_event_lvtimer_spec]. intros x s' H. by exists true.
    + eapply Hgo; [|by apply sr_event_lvatimer_spec; auto]. intros x s' H. by exists true.
Qed.

(** The invariant of the database. *)
Record sr_inv s : Prop := mkSrInv {
  sv_list : sr_list_ok (sr_list (app s));
  sv_station : length (STATION_ADDR (io s)) = 6%nat;
  sv_clients : NoDup (ports (clients (mdb s)));
  sv_flag : sr_flag (app s) = false;
  sv_ids : exists X, interests (app s) X }.

(** What an event leaves alone in the database. *)
Definition sr_settings (d : msrp_database) : bool * eui64set * bool := (sr_flag d, interesting_stream_ids d, enable_pruning d).

Lemma sr_stands_settings s m s' : sr_stands s m s' -> sr_settings (app s') = sr_settings (app s).
Proof. by intros (l & _ & _ & ->). Qed.

Lemma sr_inv_stands s m s' : sr_inv s -> sr_stands s m s' -> sr_inv s'.
Proof.
  intros [] (l & [H1 _] & [] & H2). split; rewrite ?H2; try done; congruence.
Qed.

Lemma msrp_event_spec e ra X s :
  sr_inv s -> (e = MRP_EVENT_TX \/ e = MRP_EVENT_LVATIMER -> (length (sr_list (app s)) <= 49)%nat) ->
  (forall r, ra = Some r -> sr_attr_ok r) -> interests (app s) X ->
  wp (msrp_event e ra) (fun _ s' => sr_inv s' /\ world s s' /\ sr_settings (app s') = sr_settings (app s) /\
    exists mem, if_memory mem /\ sr_table (sr_list (app s')) =
      sr_table_step (p2pmac (io s)) (enable_pruning (app s)) X mem e (to_stream <$> ra) (sr_table (sr_list (app s)))) s.
Proof.
  intros Hinv Hlen Hr HX. assert (sr_repr (sr_list (app s)) (sr_table (sr_list (app s)))) as Hm by (by split; [apply Hinv|]).
  unfold msrp_event. apply wp_bind. eapply wp_mono; [by apply sr_event_switch_spec; try apply Hinv|].
  intros [b rc] s1 (mem & Hmem & H1). cbn [fst snd]. set (m' := sr_table_step _ _ _ _ _ _ _) in *.
  assert (forall s', sr_stands s m' s' -> sr_inv s' /\ world s s' /\ sr_settings (app s') = sr_settings (app s) /\
    exists mem, if_memory mem /\ sr_table (sr_list (app s')) =
      sr_table_step (p2pmac (io s)) (enable_pruning (app s)) X mem e (to_stream <$> ra) (sr_table (sr_list (app s)))) as Hend.
  { intros s' H. split_and!; [by eapply sr_inv_stands|by eapply sr_stands_world|by eapply sr_stands_settings|].
    exists mem. split; [done|]. apply (sr_stands_repr _ _ _ H). }
  destruct b; [|by apply wp_ret, Hend]. apply wp_bind.
  eapply wp_mono; [by eapply sr_for_each_spec; [apply (sr_acts_notify (p2pmac (io s1)))|]|]. intros ? s2 H2.
  apply wp_ret, Hend. eapply sr_stands_trans; [exact H1|]. eexists. split; [|exact H2].
  apply sr_repr_id; [apply sr_keeps_hush|done|by eapply sr_stands_repr].
Qed.
End events.
