(* ===== verification/MsrpRecv.v ===== *)
(** * MsrpRecv: reception of MSRP frames is safe

    Every frame of at most 1963 bytes is processed without a read outside the receive
    buffer, in the iterations allowed, and preserves the invariant.  (A longer one can lead
    the loop over its vectors past the end of the buffer.) *)
From stdpp Require Import base gmap list strings numbers sorting.
From S2P Require Import Prelude Text Parse Mrp MrpProps Mvrp MvrpWire Mmrp.
From S2P Require Import MrpWorld MvrpInv MvrpEvent MvrpTable MvrpRecv MmrpInv MmrpWire Eui64set.
From S2P Require Import Msrp MsrpEmit MsrpDaemon MsrpRx MsrpInv MsrpWire MsrpTable MsrpEvent.
#[local] Open Scope Z_scope.
#[local] Open Scope st_scope.

(** ** Values *)
Lemma increment_string n i m : byte_string n m -> byte_string n (increment_from i m).
Proof. intros [H1 H2]. destruct (increment_bytes i m H2) as [H3 H4]. split; [congruence|done]. Qed.

Lemma take_drop_string n i k l : byte_string n l -> (i + k <= n)%nat -> byte_string k (take k (drop i l)).
Proof.
  intros [H1 H2] Hk. split; [rewrite length_take, length_drop; lia|]. by apply Forall_take, Forall_drop.
Qed.

Lemma be_val_string n l : byte_string n l -> 0 <= be_val l < 256 ^ Z.of_nat n.
Proof. intros [<- H]. by apply be_val_range. Qed.

Lemma read_talker_ok failed fv id mac :
  byte_string (Z.to_nat (attribute_length (talker_type failed))) fv -> byte_string 8 id -> byte_string 6 mac ->
  talker_ok (read_talker failed fv id mac).
Proof.
  intros Hf Hid Hm. assert (forall i k, (i + k <= 25)%nat -> byte_string k (take k (drop i fv))) as Hfield.
  { intros i k Hi. eapply take_drop_string; [exact Hf|]. destruct failed; cbn; lia. }
  unfold read_talker. split; cbn [StreamID Dest_Addr Vlan_ID MaxFrameSize MaxIntervalFrames PriorityAndRank AccumulatedLatency BridgeID FailureCode].
  1, 2: done.
  - exact (be_val_string 2 _ (Hfield 14%nat 2%nat ltac:(lia))).
  - exact (be_val_string 2 _ (Hfield 16%nat 2%nat ltac:(lia))).
  - exact (be_val_string 2 _ (Hfield 18%nat 2%nat ltac:(lia))).
  - exact (be_val_string 1 _ (Hfield 20%nat 1%nat ltac:(lia))).
  - exact (be_val_string 4 _ (Hfield 21%nat 4%nat ltac:(lia))).
  - destruct failed; [|apply (zeros 8)]. eapply take_drop_string; [exact Hf|]. cbn. lia.
  - destruct failed; [|lia]. apply (be_val_string 1). eapply take_drop_string; [exact Hf|]. cbn. lia.
Qed.

Lemma unpack4_range b : Forall (fun x => 0 <= x < 4) (unpack4 b).
Proof.
  assert (forall v, 0 <= v - Z.shiftl (Z.shiftr v 2) 2 < 4) as H.
  { intros v. rewrite Z.shiftr_div_pow2, Z.shiftl_mul_pow2 by lia. change (2 ^ 2) with 4. Z.div_mod_to_equations. lia. }
  repeat (constructor; [apply H|]). constructor.
Qed.

Lemma peeks_ok buf i n :
  Forall is_byte buf -> 0 <= i -> 0 <= n -> i + n <= Z.of_nat (length buf) ->
  exists m, peeks buf i n = Done m /\ byte_string (Z.to_nat n) m.
Proof.
  intros Hb H0 Hn Hi. unfold peeks. destruct (Z.leb_spec 0 i); [|lia]. destruct (Z.leb_spec (i + n) (Z.of_nat (length buf))); [|lia].
  eexists. split; [done|]. split; [rewrite length_take, length_drop; lia|]. by apply Forall_take, Forall_drop.
Qed.

Lemma packed_bytes_bound k num : 0 < k -> 0 < num -> 1 <= packed_bytes k num <= num / k + 1 /\ num <= k * packed_bytes k num.
Proof. intros Hk Hn. unfold packed_bytes. destruct (Z.eqb_spec num (num / k * k)); Z.div_mod_to_equations; nia. Qed.

Section recv.
Context `{env : MrpEnv} `{lib : CLib} `{laws : !CLibLaws lib}.
Implicit Types s : SR.
Hypothesis Hrand : forall n, 0 <= mrp_random n.

Lemma sr_inv_calm s s' : calm s s' -> sr_inv s -> sr_inv s'.
Proof. intros [[] Ha] []. split; rewrite ?Ha; try done; congruence. Qed.

Lemma sr_alloc_ok v sub op mac : sr_value_ok v -> 0 <= sub < 2 ^ 32 -> length mac = 6%nat -> sr_attr_ok (msrp_alloc v sub op mac).
Proof. by split. Qed.

(** Any event that does not transmit. *)
Lemma sr_event_inv e r s :
  sr_inv s -> e <> MRP_EVENT_TX -> e <> MRP_EVENT_LVATIMER -> sr_attr_ok r -> wp (msrp_event e (Some r)) (fun _ s' => sr_inv s') s.
Proof.
  intros Hinv He1 He2 Hr. destruct (sv_ids _ Hinv) as [X HX].
  eapply wp_mono; [apply (msrp_event_spec Hrand e (Some r) X); [done|by intros []| |done]|]; [by intros x [= <-]|]. by intros ? s' (? & _).
Qed.

Lemma rx_dispatch_spec e a s : sr_inv s -> sr_attr_ok a -> wp (rx_dispatch e a) (fun _ s' => sr_inv s') s.
Proof.
  intros Hinv Ha. unfold rx_dispatch. destruct (rx_event e) as [ev|] eqn:E; [|by apply wp_ret]. apply wp_bind.
  eapply wp_mono; [apply sr_event_inv; [done| | |done]|]; [..|intros ? s' H; by apply wp_ret];
    unfold rx_event in E; by repeat case_match; simplify_eq.
Qed.

(** Processing one event of a vector keeps the invariant; [P k v] is what holds of the
    value [v] when up to [k] events are to come. *)
Record steps_ok {V} (P : Z -> V -> Prop) (one : Z -> V -> stM SR (option V)) : Prop := mkStepsOk {
  so_less k k' v : P k v -> k' <= k -> P k' v;
  so_one e v k s : sr_inv s -> 0 < k -> P k v ->
    wp (one e v) (fun r s' => sr_inv s' /\ forall v', r = Some v' -> P (k - 1) v') s }.

Lemma rx_values_spec {V} (P : Z -> V -> Prop) one evts k v s :
  steps_ok P one -> sr_inv s -> P k v -> Z.of_nat (length evts) <= k ->
  wp (rx_values one evts v) (fun r s' => sr_inv s' /\ forall v', r = Some v' -> P (k - Z.of_nat (length evts)) v') s.
Proof.
  intros Hok. revert k v s. induction evts as [|e evts IH]; intros k v s Hinv Hv Hk; cbn [rx_values length] in *.
  { apply wp_ret. split; [done|]. intros v' [= <-]. by rewrite Z.sub_0_r. }
  apply wp_bind. eapply wp_mono; [by apply (so_one _ _ Hok e v k); [|lia|]|]. intros [v'|] s1 [H1 H2]; [|by apply wp_ret].
  eapply wp_mono; [apply (IH (k - 1)); [done|by apply H2|lia]|]. intros r s2 [H3 H4]. split; [done|]. intros v'' E.
  specialize (H4 v'' E). by replace (k - Z.of_nat (S (length evts))) with (k - 1 - Z.of_nat (length evts)) by lia.
Qed.

Lemma rx_bytes_spec {V} (P : Z -> V -> Prop) one n buf events vidx num v s :
  steps_ok P one -> sr_inv s -> 0 <= num < 65536 -> P num v -> Forall is_byte buf ->
  0 <= events + vidx -> events + vidx + Z.of_nat n <= Z.of_nat (length buf) ->
  wp (rx_bytes one n buf events vidx num v) (fun _ s' => sr_inv s') s.
Proof.
  intros Hok. revert vidx num v s. induction n as [|n IH]; intros vidx num v s Hinv Hn Hv Hb H0 H1; cbn [rx_bytes]; [by apply wp_ret|].
  destruct (peek_ok buf (events + vidx) ltac:(lia) Hb) as (b & E & _). apply wp_bind. eapply wp_lift; [exact E|].
  set (k := if 3 <? num then 3 else num). assert (0 <= k <= num /\ k <= 3) as Hk by (subst k; destruct (Z.ltb_spec 3 num); lia).
  assert (u16 (num - k) = num - k) as Hu by (apply u16_small; lia). rewrite Hu.
  destruct (MRPDU_LV <? b / 36).
  { apply IH; [done|lia| |done|lia|lia]. apply (so_less _ _ Hok num); [done|lia]. }
  assert (length (take (Z.to_nat k) (unpack3 b)) = Z.to_nat k) as Hlen by (rewrite length_take; unfold unpack3; cbn [length]; lia).
  apply wp_bind. eapply wp_mono; [apply (rx_values_spec P one _ num); [done|done|done|lia]|]. intros [v'|] s1 [H2 H3]; [|by apply wp_ret].
  specialize (H3 v' eq_refl). rewrite Hlen, Z2Nat.id in H3 by lia. apply IH; [done|lia|done|done|lia|lia].
Qed.

(** Every event of a vector needs memory for its attribute. *)
Lemma rx_alloc_spec {V} e a (next : V) (P : V -> Prop) s :
  sr_inv s -> sr_attr_ok a -> P next ->
  wp (let! mem := draw mrp_malloc in if negb mem then st_ret None else rx_dispatch e a ;! st_ret (Some next))
    (fun r s' => sr_inv s' /\ forall v', r = Some v' -> P v') s.
Proof.
  intros Hinv Ha Hp. apply wp_bind, draw_calm. intros s1 H1. pose proof (sr_inv_calm _ _ H1 Hinv) as Hinv1.
  destruct (mrp_malloc _); cbn [negb]; [|by apply wp_ret]. apply wp_bind.
  eapply wp_mono; [by apply rx_dispatch_spec|]. intros ? s2 H2. apply wp_ret. split; [done|]. by intros v' [= <-].
Qed.

Lemma domain_one_ok vid mac :
  0 <= vid < 65536 -> length mac = 6%nat ->
  steps_ok (fun _ v => 0 <= fst v < 256 /\ 0 <= snd v < 256) (domain_one vid mac).
Proof.
  intros Hv Hm. split; [done|]. intros e [id prio] k s Hinv _ [H1 H2]. cbn in H1, H2. unfold domain_one.
  apply (rx_alloc_spec e _ (u8 (id + 1), u8 (prio + 1)) (fun v => 0 <= fst v < 256 /\ 0 <= snd v < 256)); [done|..].
  - by apply sr_alloc_ok.
  - split; apply u8_range.
Qed.

Lemma talker_one_ok failed fv mac :
  byte_string (Z.to_nat (attribute_length (talker_type failed))) fv -> length mac = 6%nat ->
  steps_ok (fun _ v => byte_string 8 (fst v) /\ byte_string 6 (snd v)) (talker_one failed fv mac).
Proof.
  intros Hf Hm. split; [done|]. intros e [id dest] k s Hinv _ [H1 H2]. cbn in H1, H2. unfold talker_one.
  apply (rx_alloc_spec e _ (_, _) (fun v => byte_string 8 (fst v) /\ byte_string 6 (snd v))); [done|..].
  - apply sr_alloc_ok; [|done|done]. pose proof (read_talker_ok failed fv id dest Hf H1 H2). by destruct failed.
  - split; by apply increment_string.
Qed.

(** The declarations cover the events. *)
Lemma listener_one_ok decl mac :
  Forall (fun x => 0 <= x < 4) decl -> length mac = 6%nat ->
  steps_ok (fun k v => byte_string 8 (fst v) /\ Z.of_nat (snd v) + k <= Z.of_nat (length decl)) (listener_one decl mac).
Proof.
  intros Hd Hm. split; [intros k k' v [??] ?; split; [done|lia]|]. intros e [id idx] k s Hinv Hk [H1 H2]. cbn in H1, H2. unfold listener_one.
  destruct (lookup_lt_is_Some_2 decl idx ltac:(lia)) as [sub E]. rewrite E. apply wp_bind. eapply wp_lift; [done|].
  assert (0 <= sub < 4) as Hs by (rewrite list.Forall_forall in Hd; apply Hd; by eapply list_elem_of_lookup_2).
  set (P := fun v : list Z * nat => byte_string 8 (fst v) /\ Z.of_nat (snd v) + (k - 1) <= Z.of_nat (length decl)).
  assert (P (msrp_increment_streamid id, S idx)) as Hnext by (split; [by apply increment_string|cbn; lia]).
  destruct (sub =? _); [apply wp_ret; split; [done|]; by intros v' [= <-]|].
  apply (rx_alloc_spec e _ _ P); [done| |done]. apply sr_alloc_ok; [|lia|done]. apply set_StreamID_ok; [done|auto with msrp_db].
Qed.

(** ** The declarations of a vector of listeners *)
Definition declared_ok (sz : Z) (decl : list Z) : Prop := Z.of_nat (length decl) <= sz /\ Forall (fun x => 0 <= x < 4) decl.

Lemma rx_store_all_spec sz decl xs s :
  sr_inv s -> declared_ok sz decl -> Forall (fun x => 0 <= x < 4) xs ->
  wp (rx_store_all sz decl xs) (fun r s' => sr_inv s' /\ forall sz' decl', r = Some (sz', decl') ->
    declared_ok sz' decl' /\ length decl' = (length decl + length xs)%nat) s.
Proof.
  intros Hinv Hd Hx. revert sz decl s Hinv Hd. induction Hx as [|x xs Hx _ IH]; intros sz decl s Hinv [Hd1 Hd2]; cbn [rx_store_all].
  { apply wp_ret. split; [done|]. intros ? ? [= <- <-]. split; [done|]. cbn. lia. }
  apply wp_bind. apply (wp_mono _ (fun r s' => sr_inv s' /\ forall sz' decl', r = Some (sz', decl') ->
    declared_ok sz' decl' /\ decl' = decl ++ [x])).
  - unfold rx_store. assert (forall z, Z.of_nat (length decl) + 1 <= z -> declared_ok z (decl ++ [x])) as Hz.
    { intros z Hz. split; [rewrite length_app; cbn; lia|]. apply Forall_app. by split; [|constructor]. }
    destruct (Z.eqb_spec (Z.of_nat (length decl)) sz).
    + apply wp_bind, draw_calm. intros s1 H1. pose proof (sr_inv_calm _ _ H1 Hinv). destruct (mrp_malloc _); cbn [negb]; apply wp_ret; [|done].
      split; [done|]. intros ? ? [= <- <-]. split; [|done]. apply Hz. lia.
    + destruct (Z.ltb_spec (Z.of_nat (length decl)) sz); [|lia]. apply wp_ret. split; [done|]. intros ? ? [= <- <-]. split; [|done]. apply Hz. lia.
  - intros [[sz' decl']|] s1 [H1 H2]; [|by apply wp_ret]. destruct (H2 _ _ eq_refl) as [H3 ->].
    eapply wp_mono; [by apply IH|]. intros r s2 [H4 H5]. split; [done|]. intros ? ? Er. destruct (H5 _ _ Er) as [H6 H7].
    split; [done|]. rewrite H7, length_app. cbn. lia.
Qed.

Lemma rx_declared_spec n buf events vidx num sz decl s :
  sr_inv s -> declared_ok sz decl -> 0 <= num < 65536 -> Forall is_byte buf ->
  0 <= events + vidx -> events + vidx + Z.of_nat n <= Z.of_nat (length buf) ->
  wp (rx_declared n buf events vidx num sz decl) (fun r s' => sr_inv s' /\ forall sz' decl', r = Some (sz', decl') ->
    declared_ok sz' decl' /\ (num <= 4 * Z.of_nat n -> Z.of_nat (length decl') = Z.of_nat (length decl) + num)) s.
Proof.
  revert vidx num sz decl s. induction n as [|n IH]; intros vidx num sz decl s Hinv Hd Hn Hb H0 H1; cbn [rx_declared].
  { apply wp_ret. split; [done|]. intros ? ? [= <- <-]. split; [done|lia]. }
  destruct (peek_ok buf (events + vidx) ltac:(lia) Hb) as (b & E & _). apply wp_bind. eapply wp_lift; [exact E|].
  set (k := if 4 <? num then 4 else num). assert (0 <= k <= num /\ k <= 4 /\ (k = 4 \/ k = num)) as Hk by (subst k; destruct (Z.ltb_spec 4 num); lia).
  assert (u16 (num - k) = num - k) as Hu by (apply u16_small; lia). rewrite Hu.
  assert (length (take (Z.to_nat k) (unpack4 b)) = Z.to_nat k) as Hlen by (rewrite length_take; unfold unpack4; cbn [length]; lia).
  apply wp_bind. eapply wp_mono; [apply rx_store_all_spec; [done|done|apply Forall_take, unpack4_range]|].
  intros [[sz' decl']|] s1 [H2 H3]; [|by apply wp_ret]. destruct (H3 _ _ eq_refl) as [H4 H5].
  eapply wp_mono; [apply IH; [done|done|lia|done|lia|lia]|]. intros r s2 [H6 H7]. split; [done|]. intros ? ? Er.
  destruct (H7 _ _ Er) as [H8 H9]. split; [done|]. intros Hle. rewrite H9 by lia. rewrite H5, Hlen. lia.
Qed.

(** ** One vector *)

Lemma rx_domain_spec buf eof events num mac s :
  recv_ok buf eof -> eof <= 1963 -> sr_inv s -> length mac = 6%nat -> 0 <= events <= eof + 2 -> 0 < num < 65536 ->
  wp (rx_domain buf eof events num mac) (fun r s' => sr_inv s' /\ forall n, r = Some n -> 1 <= n /\ events + n <= eof) s.
Proof.
  intros Hr He Hinv Hm Hp Hn. unfold rx_domain. destruct (Z.leb_spec eof (events + num / 3)); [by apply wp_ret|].
  pose proof (packed_bytes_bound 3 num ltac:(lia) ltac:(lia)) as [Hk _]. pose proof (Z.div_pos num 3 ltac:(lia) ltac:(lia)).
  destruct (peeks_ok buf events 4) as (fv & E & Hfv); [apply Hr|lia|lia|rewrite (rb_len _ _ Hr); lia|].
  apply wp_bind. eapply wp_lift; [exact E|]. destruct (Hfv) as [Hl Hb]. apply wp_bind.
  eapply wp_mono; [eapply rx_bytes_spec; [apply domain_one_ok; [|done]|done|lia| |apply Hr|lia|rewrite (rb_len _ _ Hr); lia]|].
  - apply (be_val_string 2). apply (take_drop_string 4); [done|lia].
  - destruct fv as [|x [|y fv]]; try done. apply Forall_cons_iff in Hb as [? Hb]. apply Forall_cons_iff in Hb as [? _]. done.
  - intros [?|] s1 Hs1; apply wp_ret; (split; [done|]); [|done]. intros n [= <-]. lia.
Qed.

Lemma rx_talker_spec failed buf eof events num mac s :
  recv_ok buf eof -> eof <= 1963 -> sr_inv s -> length mac = 6%nat -> 0 <= events <= eof + 2 -> 0 < num < 65536 ->
  wp (rx_talker failed buf eof events num mac) (fun r s' => sr_inv s' /\ forall n, r = Some n -> 1 <= n /\ events + n <= eof) s.
Proof.
  intros Hr He Hinv Hm Hp Hn. unfold rx_talker. destruct (Z.leb_spec eof (events + num / 3)); [by apply wp_ret|].
  pose proof (packed_bytes_bound 3 num ltac:(lia) ltac:(lia)) as [Hk _]. pose proof (Z.div_pos num 3 ltac:(lia) ltac:(lia)).
  pose proof (attribute_length_pos (talker_type failed)) as Hlen. set (len := attribute_length _) in *.
  destruct (peeks_ok buf events len) as (fv & E & Hfv); [apply Hr|lia|lia|rewrite (rb_len _ _ Hr); lia|].
  apply wp_bind. eapply wp_lift; [exact E|]. apply wp_bind.
  eapply wp_mono; [eapply rx_bytes_spec; [by apply talker_one_ok|done|lia| |apply Hr|lia|rewrite (rb_len _ _ Hr); lia]|].
  - assert (14 <= Z.to_nat len)%nat by (subst len; destruct failed; cbn; lia). cbn.
    split; [apply (take_drop_string (Z.to_nat len) 0); [done|lia]|apply (take_drop_string (Z.to_nat len)); [done|lia]].
  - intros [?|] s1 Hs1; apply wp_ret; (split; [done|]); [|done]. intros n [= <-]. lia.
Qed.

Lemma rx_listener_spec buf eof events num sz mac s :
  recv_ok buf eof -> eof <= 1963 -> sr_inv s -> length mac = 6%nat -> 0 <= events <= eof + 2 -> 0 < num < 65536 -> 0 <= sz ->
  wp (rx_listener buf eof events num sz mac) (fun r s' => sr_inv s' /\
    forall n sz', r = Some (n, sz') -> 1 <= n /\ events + n <= eof /\ 0 <= sz') s.
Proof.
  intros Hr He Hinv Hm Hp Hn Hsz. unfold rx_listener. destruct (Z.leb_spec eof (events + num / 3 + num / 4)); [by apply wp_ret|].
  pose proof (packed_bytes_bound 3 num ltac:(lia) ltac:(lia)) as [Hk _]. pose proof (Z.div_pos num 3 ltac:(lia) ltac:(lia)).
  pose proof (packed_bytes_bound 4 num ltac:(lia) ltac:(lia)) as [Hk4 Hc4]. pose proof (Z.div_pos num 4 ltac:(lia) ltac:(lia)).
  destruct (peeks_ok buf events 8) as (id & E & Hid); [apply Hr|lia|lia|rewrite (rb_len _ _ Hr); lia|].
  apply wp_bind. eapply wp_lift; [exact E|]. destruct (Z.leb_spec eof (events + (8 + packed_bytes 3 num + packed_bytes 4 num))); [by apply wp_ret|].
  apply wp_bind. assert (wp (if sz =? 0 then draw mrp_malloc else st_ret true) (fun _ s' => sr_inv s') s) as Hmem.
  { destruct (sz =? 0); [|by apply wp_ret]. apply draw_calm. intros s1 Hs1. by eapply sr_inv_calm. }
  eapply wp_mono; [exact Hmem|]. intros mem s1 Hinv1. destruct (negb mem); [by apply wp_ret|]. apply wp_bind.
  eapply wp_mono; [apply rx_declared_spec; [done| |lia|apply Hr|lia|rewrite (rb_len _ _ Hr); lia]|].
  { split; [|constructor]. cbn. destruct (Z.eqb_spec sz 0); lia. }
  intros [[sz' decl]|] s2 [H4 H5]; [|by apply wp_ret]. destruct (H5 _ _ eq_refl) as [[H6 H7] H8]. cbn in H8. apply wp_bind.
  eapply wp_mono; [eapply rx_bytes_spec; [by apply listener_one_ok|done|lia| |apply Hr|lia|rewrite (rb_len _ _ Hr); lia]|].
  - cbn. split; [done|]. lia.
  - intros [?|] s3 H9; apply wp_ret; (split; [done|]); [|done]. intros n z [= <- <-]. lia.
Qed.

Lemma rx_vector_spec t buf eof events num rx mac s :
  recv_ok buf eof -> eof <= 1963 -> sr_inv s -> length mac = 6%nat -> 0 <= events <= eof + 2 -> 0 < num < 65536 ->
  0 <= listener_vectevt_sz rx ->
  wp (rx_vector t buf eof events num rx mac) (fun r s' => sr_inv s' /\
    forall n rx', r = Some (n, rx') -> 1 <= n /\ events + n <= eof /\ 0 <= listener_vectevt_sz rx') s.
Proof.
  intros Hr He Hinv Hm Hp Hn Hsz.
  assert (forall m : stM SR (option Z), wp m (fun r s' => sr_inv s' /\ forall n, r = Some n -> 1 <= n /\ events + n <= eof) s ->
    wp (let! r := m in match r with None => st_ret None | Some n => st_ret (Some (n, rx)) end) (fun r s' => sr_inv s' /\
      forall n rx', r = Some (n, rx') -> 1 <= n /\ events + n <= eof /\ 0 <= listener_vectevt_sz rx') s) as Hkeep.
  { intros m Hmm. apply wp_bind. eapply wp_mono; [exact Hmm|]. intros [n|] s1 [H1 H2]; apply wp_ret; (split; [done|]); [|done].
    intros n' rx' [= <- <-]. destruct (H2 n eq_refl). auto. }
  destruct t; cbn [rx_vector]; try (apply Hkeep; first [by apply rx_talker_spec | by apply rx_domain_spec]).
  apply wp_bind. eapply wp_mono; [by apply (rx_listener_spec _ eof)|]. intros [[n z]|] s1 [H1 H2]; apply wp_ret; (split; [done|]); [|done].
  intros n' rx' [= <- <-]. by apply H2.
Qed.

(** ** The loops over vectors and messages *)
Lemma rx_endmark_spec buf eof ptr s :
  recv_ok buf eof -> 0 <= ptr < 1999 -> wp (rx_endmark buf ptr) (fun b s' => s' = s /\ (b = false -> ptr < eof)) s.
Proof.
  intros Hr Hp. destruct (recv_mark buf eof ptr Hr Hp) as (b0 & b1 & E0 & E1 & Hz).
  unfold rx_endmark. apply wp_bind. eapply wp_lift; [exact E0|]. destruct (Z.eqb_spec b0 0); [|apply wp_ret; auto].
  apply wp_bind. eapply wp_lift; [exact E1|]. apply wp_ret. split; [done|]. rewrite Z.eqb_neq. auto.
Qed.

Lemma rx_leaveall_spec t s : sr_inv s -> wp (rx_leaveall t) (fun _ s' => sr_inv s') s.
Proof.
  intros Hinv. unfold rx_leaveall. apply wp_bind, draw_calm. intros s1 H1. pose proof (sr_inv_calm _ _ H1 Hinv) as Hinv1.
  destruct (mrp_malloc _); cbn [negb]; [|by apply wp_ret]. apply wp_bind.
  eapply wp_mono; [apply sr_event_inv; [done|done|done|]|]; [|intros ? s2 H2; by apply wp_ret].
  apply sr_alloc_ok; [|done|done]. destruct t; cbn; auto with msrp_db.
Qed.

Lemma vectevt_sz_saw t rx : listener_vectevt_sz (set_saw_lva t rx) = listener_vectevt_sz rx.
Proof. by destruct t, rx. Qed.

Lemma rx_vectors_spec t fuel buf eof ptr rx mac s :
  recv_ok buf eof -> eof <= 1963 -> sr_inv s -> length mac = 6%nat -> 0 <= ptr <= eof + 35 -> eof - ptr <= Z.of_nat fuel ->
  0 <= listener_vectevt_sz rx ->
  wp (rx_vectors t fuel buf eof ptr rx mac)
    (fun r s' => sr_inv s' /\ forall p rx', r = Some (p, rx') -> ptr <= p /\ 0 <= listener_vectevt_sz rx') s.
Proof.
  intros Hbuf He Hinv Hm. pose proof (attribute_length_pos t) as Ht. revert ptr rx s Hinv.
  induction fuel as [|fuel IH]; intros ptr rx s Hinv Hp Hf Hsz; cbn [rx_vectors].
  all: apply wp_bind; eapply wp_mono; [apply (rx_endmark_spec buf eof); [done|lia]|]; intros mark ? [-> Hmark].
  all: destruct mark; [apply wp_ret; split; [done|intros p b [= <- <-]; lia]|]; specialize (Hmark eq_refl).
  1: lia.
  destruct (recv_peek16 buf eof ptr Hbuf ltac:(lia)) as (h & Eh & _). apply wp_bind. eapply wp_lift; [exact Eh|].
  pose proof (numvalues_range h) as Hn. set (num := MRPDU_VECT_NUMVALUES h) in *. set (la := MRPDU_VECT_LVA h && _).
  set (rx1 := if la then set_saw_lva t rx else rx).
  assert (0 <= listener_vectevt_sz rx1) as Hsz1 by (subst rx1; destruct la; rewrite ?vectevt_sz_saw; done).
  apply wp_bind. assert (wp (if la then rx_leaveall t else st_ret true) (fun _ s' => sr_inv s') s) as Hla
    by (destruct la; [by apply rx_leaveall_spec|by apply wp_ret]).
  eapply wp_mono; [exact Hla|]. intros ok s1 Hinv1. destruct (negb ok); [by apply wp_ret|].
  assert (forall n rx2 s2, 0 <= n -> ptr + 2 + n <= eof \/ n = 0 -> sr_inv s2 -> 0 <= listener_vectevt_sz rx2 ->
    wp (rx_vectors t fuel buf eof (ptr + 2 + attribute_length t + n) rx2 mac)
      (fun r s' => sr_inv s' /\ forall p rx', r = Some (p, rx') -> ptr <= p /\ 0 <= listener_vectevt_sz rx') s2) as Hgo.
  { intros n rx2 s2 H0 H1 H2 H3. eapply wp_mono; [apply IH; [done|lia|lia|done]|]. intros r s3 [H4 H5]. split; [done|].
    intros p rx' E. destruct (H5 p rx' E). split; [lia|done]. }
  destruct (Z.eqb_spec num 0).
  { specialize (Hgo 0 rx1 s1 ltac:(lia) ltac:(by right) Hinv1 Hsz1). by rewrite Z.add_0_r in Hgo. }
  apply wp_bind. eapply wp_mono; [by apply (rx_vector_spec t buf eof); try done; lia|]. intros [[k rx2]|] s2 [H1 H2]; [|by apply wp_ret].
  destruct (H2 _ _ eq_refl) as (H3 & H4 & H5). apply Hgo; [lia|lia|done|done].
Qed.

Lemma rx_check_spec buf eof p :
  recv_ok buf eof -> eof <= 1963 -> 1 <= p < eof -> exists ok, msrp_recv_msg_check_attrib_list_len buf p eof = Done ok.
Proof.
  intros Hr He Hp. unfold msrp_recv_msg_check_attrib_list_len.
  destruct (recv_peek16 buf eof p Hr ltac:(lia)) as (l & -> & Hl). obind.
  destruct (recv_peek buf eof (p - 1) Hr ltac:(lia)) as (a & -> & _). obind.
  destruct (_ <? _); [by eexists|]. destruct (Z.leb_spec eof (p + l)); [by eexists|].
  destruct (recv_peek buf eof (p + l) Hr ltac:(lia)) as (b & -> & _). obind. destruct (negb _); [by eexists|].
  destruct (recv_peek buf eof (p + l + 1) Hr ltac:(lia)) as (c & -> & _). obind. by eexists.
Qed.

Lemma skip_length_pos t num : 0 <= num -> 0 <= skip_length t num.
Proof.
  intros Hn. unfold skip_length. pose proof (attribute_length_pos t). pose proof (Z.div_pos (num + 2) 3 ltac:(lia) ltac:(lia)).
  pose proof (Z.div_pos (num + 3) 4 ltac:(lia) ltac:(lia)). destruct t; lia.
Qed.

Lemma rx_message_spec t buf eof ptr len rx mac s :
  recv_ok buf eof -> eof <= 1963 -> sr_inv s -> length mac = 6%nat -> 0 <= ptr < eof - 2 -> 0 <= listener_vectevt_sz rx ->
  wp (rx_message t buf eof ptr len rx mac)
    (fun r s' => sr_inv s' /\ forall p rx', r = Some (p, rx') -> ptr < p /\ 0 <= listener_vectevt_sz rx') s.
Proof.
  intros Hbuf He Hinv Hm Hp Hsz. unfold rx_message. destruct (len =? _); cbn [negb]; [|by apply wp_ret].
  destruct (rx_check_spec buf eof (ptr + 2) Hbuf He ltac:(lia)) as [ok E]. apply wp_bind. eapply wp_lift; [exact E|].
  destruct ok; cbn [negb].
  - eapply wp_mono; [apply (rx_vectors_spec t _ buf eof); [done|done|done|done|lia|rewrite (rb_len _ _ Hbuf); lia|done]|].
    intros r s1 [H1 H2]. split; [done|]. intros p rx' Er. destruct (H2 p rx' Er). split; [lia|done].
  - destruct (recv_peek16 buf eof (ptr + 4) Hbuf ltac:(lia)) as (h & Eh & _). apply wp_bind. eapply wp_lift; [exact Eh|].
    pose proof (numvalues_range h). pose proof (skip_length_pos t (MRPDU_VECT_NUMVALUES h) ltac:(lia)).
    apply wp_ret. split; [done|]. intros p rx' [= <- <-]. split; [lia|done].
Qed.

Lemma rx_messages_spec fuel buf eof ptr endmarks rx mac s :
  recv_ok buf eof -> eof <= 1963 -> sr_inv s -> length mac = 6%nat -> 0 <= ptr -> eof - ptr <= Z.of_nat fuel ->
  0 <= listener_vectevt_sz rx ->
  wp (rx_messages fuel buf eof ptr endmarks rx mac) (fun _ s' => sr_inv s') s.
Proof.
  intros Hbuf He Hinv Hm. revert ptr endmarks rx s Hinv.
  induction fuel as [|fuel IH]; intros ptr endmarks rx s Hinv Hp Hf Hsz; cbn [rx_messages];
    (destruct (Z.ltb_spec ptr (eof - MRPDU_ENDMARK_SZ)) as [Hlt|]; cbn [negb]; [|by apply wp_ret]);
    unfold MRPDU_ENDMARK_SZ in *; [lia|].
  destruct (recv_peek buf eof ptr Hbuf ltac:(lia)) as (c & Ec & _). apply wp_bind. eapply wp_lift; [exact Ec|].
  destruct (recv_peek buf eof (ptr + 1) Hbuf ltac:(lia)) as (len & El & _). apply wp_bind. eapply wp_lift; [exact El|].
  destruct (_ && _); [destruct (_ <? 2); [apply IH; [done|lia|lia|done]|by apply wp_ret]|].
  destruct (type_of_code c) as [t|]; [|by apply wp_ret]. apply wp_bind.
  eapply wp_mono; [by apply (rx_message_spec t buf eof); try done; lia|]. intros [[p rx']|] s1 [H1 H2]; [|by apply wp_ret].
  destruct (H2 _ _ eq_refl). apply IH; [done|lia|lia|done].
Qed.

Lemma msrp_recv_msg_spec f s :
  sr_inv s -> (forall b, f = Some b -> Forall is_byte b /\ (length b <= 1963)%nat) ->
  wp (msrp_recv_msg f) (fun _ s' => sr_inv s') s.
Proof.
  intros Hinv Hf. unfold msrp_recv_msg. apply wp_bind, draw_calm. intros s1 H1. pose proof (sr_inv_calm _ _ H1 Hinv) as Hinv1.
  destruct (mrp_malloc _); cbn [negb]; [|by apply wp_ret]. destruct f as [f|]; [|by apply wp_ret].
  destruct (Hf f eq_refl) as [Hb Hl]. pose proof (recv_buf_ok f Hb ltac:(lia)) as Hr.
  rewrite Z.min_l by (unfold MAX_FRAME_SIZE; lia). set (buf := recv_buf f) in *.
  destruct (_ <? _) eqn:E; [by apply wp_ret|]. apply Z.ltb_ge in E.
  destruct (recv_peek16 buf _ 12 Hr ltac:(lia)) as (et & Ee & _). apply wp_bind. eapply wp_lift; [exact Ee|].
  destruct (_ =? _); cbn [negb]; [|by apply wp_ret]. destruct (decide _); [|by apply wp_ret].
  apply (rx_messages_spec _ _ (Z.of_nat (length f))); [done|lia|done| |lia| |done].
  - rewrite length_take, length_drop, (rb_len _ _ Hr). lia.
  - rewrite (rb_len _ _ Hr). lia.
Qed.
End recv.
