(* ===== verification/MsrpClient.v ===== *)
(** * MsrpClient: the commands of clients are safe

    Whatever a client sends, the values the parsers store fit their fields, the table dump
    stays in its buffers as long as there are at most 11 attributes, and the invariant of
    the database is kept; so it is by reclaim and by the departure of a client. *)
From stdpp Require Import base gmap list strings numbers sorting.
From S2P Require Import Prelude Text Parse Mrp MrpProps Mvrp MvrpWire Mmrp.
From S2P Require Import MrpWorld MvrpInv MvrpEvent MvrpTable MvrpRecv MmrpInv MmrpWire Eui64set.
From S2P Require Import Msrp MsrpEmit MsrpDaemon MsrpCmd MsrpInv MsrpWire MsrpTable MsrpEvent.
From S2P Require Import MsrpRx MsrpRecv.
#[local] Open Scope Z_scope.
#[local] Open Scope st_scope.

(** ** The table dump: at most 125 characters a line, in a buffer of 1500 bytes *)
Lemma length_fmt_u16 v : 0 <= v < 65536 -> (String.length (fmt_int v) <= 5)%nat.
Proof.
  intros Hv. unfold fmt_int. rewrite i32_small by lia. destruct (Z.ltb_spec v 0); [lia|]. apply length_fmt_dec. cbn. lia.
Qed.

Lemma length_fmt_u8 v : 0 <= v < 256 -> (String.length (fmt_int v) <= 3)%nat.
Proof.
  intros Hv. unfold fmt_int. rewrite i32_small by lia. destruct (Z.ltb_spec v 0); [lia|]. apply length_fmt_dec. cbn. lia.
Qed.

Lemma length_talker_text t : talker_ok t -> (String.length (talker_text true t) <= 103)%nat.
Proof.
  intros [[H1 _] [H2 _] H3 H4 H5 H6 H7 [H8 _] H9]. unfold talker_text.
  rewrite !string_length_app, !length_fmt_mac, length_fmt_x, H1, H2, H8.
  pose proof (length_fmt_u16 _ H4). pose proof (length_fmt_u16 _ H5). pose proof (length_fmt_u8 _ H6).
  pose proof (length_fmt_int (AccumulatedLatency t)). pose proof (length_fmt_u8 _ H9). cbn [String.length]. lia.
Qed.

Lemma length_dump_variant a : sr_attr_ok a -> (String.length (dump_variant a) <= 103)%nat.
Proof.
  intros [H _ _]. unfold dump_variant. destruct (sr_value a) as [t|t|t|d]; cbn in H; [by apply length_talker_text..| |].
  - destruct H as [[H1 _] _ _ _ _ _ _ _ _]. unfold listener_text. rewrite !string_length_app, length_fmt_mac, H1.
    pose proof (length_fmt_int (substate a)). cbn [String.length]. lia.
  - destruct H as [H1 H2 H3 H4]. unfold domain_text. rewrite !string_length_app, length_fmt_x.
    pose proof (length_fmt_u8 _ H1). pose proof (length_fmt_u8 _ H2). pose proof (length_fmt_u8 _ H3). cbn [String.length]. lia.
Qed.

Lemma length_dump_regsrc a : sr_attr_ok a -> String.length (dump_regsrc a) = 20%nat.
Proof.
  intros [_ _ H]. unfold dump_regsrc, sr_regsrc. rewrite !string_length_app, length_fmt_mac, length_decode_state, H. done.
Qed.

Lemma length_sr_dump_line a : sr_attr_ok a -> (String.length (sr_dump_line a) <= 125)%nat.
Proof.
  intros Ha. unfold sr_dump_line. rewrite !string_length_app, (length_dump_regsrc a Ha). pose proof (length_dump_variant a Ha). simpl. lia.
Qed.

Lemma sr_dump_loop_safe l text :
  Forall sr_attr_ok l -> (String.length text + 125 * length l < 1500)%nat -> exists out, sr_dump_loop l text = Done out.
Proof.
  intros Hl. revert text. induction Hl as [|a l Ha _ IH]; intros text Ht; cbn [sr_dump_loop]; [eauto|]. cbn [length] in Ht.
  pose proof (length_dump_variant a Ha). pose proof (length_dump_regsrc a Ha). pose proof (length_sr_dump_line a Ha).
  unfold sprintf_at, MAX_MRPD_CMDSZ.
  repeat (match goal with |- context [Z.leb ?x ?y] => destruct (Z.leb_spec x y); [|lia] end; obind).
  apply IH. rewrite string_length_app. lia.
Qed.

(** ** What the parsers store *)
Lemma int_at_typed s len specs i p :
  specs !! i = Some p ->
  match ptype p with
  | parse_u8 => 0 <= int_at (pvalues (parse s len specs)) i < 256
  | parse_u16 | parse_u16_04x => 0 <= int_at (pvalues (parse s len specs)) i < 65536
  | parse_u32 => 0 <= int_at (pvalues (parse s len specs)) i < 2 ^ 32
  | _ => True
  end.
Proof.
  intros Hp. unfold int_at. pose proof (fun v => parse_value_typed s len specs i p v Hp) as Hv.
  destruct (pvalues _ !! i) as [[x|x]|]; [specialize (Hv (PInt x) eq_refl)|..]; destruct (ptype p); done || lia.
Qed.

Lemma bytes_at_typed s len specs i p n :
  specs !! i = Some p -> ptype p = parse_c64 /\ n = 8%nat \/ ptype p = parse_mac /\ n = 6%nat ->
  byte_string n (bytes_at (pvalues (parse s len specs)) i n).
Proof.
  intros Hp Hn. unfold bytes_at. pose proof (fun v => parse_value_typed s len specs i p v Hp) as Hv.
  destruct (pvalues _ !! i) as [[x|x]|]; [apply zeros| |apply zeros]. specialize (Hv (PBytes x) eq_refl).
  by destruct Hn as [[Et ->]|[Et ->]]; rewrite Et in Hv.
Qed.

Lemma run_parse_spec {V} (P : V -> Prop) buf len least specs none read :
  P none -> (forall s n, P (read (pvalues (parse s n specs)))) ->
  let '(_, v, _) := run_parse buf len least specs none read in P v.
Proof. intros H1 H2. unfold run_parse. by destruct (_ <? _). Qed.

(** The fields of a stream, read with a table that starts like [stream_specs]. *)
Lemma stream_of_ok failed s len :
  talker_ok (stream_of failed (pvalues (parse s len (stream_specs ++ if failed then [spec "B=" parse_c64; spec "C=" parse_u8] else [])))).
Proof.
  set (specs := stream_specs ++ _).
  assert (forall i p, stream_specs !! i = Some p -> specs !! i = Some p) as Hs by (intros; by apply lookup_app_l_Some).
  unfold stream_of. split; cbn [StreamID Dest_Addr Vlan_ID MaxFrameSize MaxIntervalFrames PriorityAndRank AccumulatedLatency BridgeID FailureCode].
  - eapply bytes_at_typed; [by apply Hs|by left].
  - eapply bytes_at_typed; [by apply Hs|by right].
  - exact (int_at_typed s len specs 2 _ (Hs 2%nat _ eq_refl)).
  - exact (int_at_typed s len specs 3 _ (Hs 3%nat _ eq_refl)).
  - exact (int_at_typed s len specs 4 _ (Hs 4%nat _ eq_refl)).
  - exact (int_at_typed s len specs 5 _ (Hs 5%nat _ eq_refl)).
  - exact (int_at_typed s len specs 6 _ (Hs 6%nat _ eq_refl)).
  - destruct failed; [|apply (zeros 8)]. eapply bytes_at_typed; [done|by left].
  - destruct failed; [|lia]. exact (int_at_typed s len specs 8 _ eq_refl).
Qed.

Lemma only_stream_ok s len name rest :
  talker_ok (only_stream (pvalues (parse s len (spec name parse_c64 :: rest)))).
Proof. apply set_StreamID_ok; [|auto with msrp_db]. eapply bytes_at_typed; [done|by left]. Qed.

(** ** Commands *)
Section client.
Context `{env : MrpEnv} `{lib : CLib} `{laws : !CLibLaws lib}.
Implicit Types s : SR.
Hypothesis Hrand : forall n, 0 <= mrp_random n.

(** The operation keeps the invariant. *)
Definition keeps_inv {A} (m : stM SR A) : Prop := forall s, sr_inv s -> wp m (fun _ s' => sr_inv s') s.

Lemma keeps_ret {A} (a : A) : keeps_inv (st_ret a).
Proof. intros s Hs. by apply wp_ret. Qed.
Lemma keeps_bind {A B} (m : stM SR A) (k : A -> stM SR B) : keeps_inv m -> (forall a, keeps_inv (k a)) -> keeps_inv (st_bind m k).
Proof. intros Hm Hk s Hs. apply wp_bind. eapply wp_mono; [by apply Hm|]. intros a s1 H1. apply Hk, H1. Qed.
Lemma keeps_draw {A} (f : nat -> A) : keeps_inv (draw f).
Proof. intros s Hs. apply draw_calm. intros s' H. by eapply sr_inv_calm. Qed.
Lemma keeps_send c text n : keeps_inv (mrpd_send_ctl_msg c text n).
Proof. intros s Hs. eapply wp_mono; [apply send_ctl_calm|]. intros ? s' H. exact (sr_inv_calm _ _ H Hs). Qed.
Lemma keeps_get {A} (k : SR -> stM SR A) : (forall s, sr_inv s -> wp (k s) (fun _ s' => sr_inv s') s) -> keeps_inv (let! s := st_get in k s).
Proof. intros Hk s Hs. apply wp_bind, wp_get. by apply Hk. Qed.

Lemma keeps_respond c text : keeps_inv (sr_respond c text).
Proof. apply keeps_bind; [apply keeps_send|intros; apply keeps_ret]. Qed.

Create HintDb keeps_db.
#[local] Hint Resolve keeps_ret keeps_bind keeps_draw keeps_send keeps_respond : keeps_db.

(** A change of the list to some of its attributes. *)
Lemma sr_inv_sublist l s s' : sr_inv s -> holding s l s' -> l `sublist_of` sr_list (app s) -> sr_inv s'.
Proof.
  intros Hinv [[] Ha] Hl. destruct Hinv. split; rewrite ?Ha; try done; [|congruence..]. by eapply sr_list_ok_sublist.
Qed.

Lemma drop_talkers_spec id : keeps_inv (drop_talkers id).
Proof.
  intros s Hs. unfold drop_talkers, sr_get_list. apply wp_bind, wp_bind, wp_get, wp_ret, holding_put. intros s' H.
  eapply sr_inv_sublist; [exact Hs|exact H|]. apply sublist_filter.
Qed.

Lemma declare_event_spec e make :
  e <> MRP_EVENT_TX -> e <> MRP_EVENT_LVATIMER -> (forall l, sr_list_ok l -> sr_attr_ok (make l)) -> keeps_inv (declare_event e make).
Proof.
  intros He1 He2 Hm. apply keeps_bind; [apply keeps_draw|]. intros mem. destruct mem; cbn [negb]; [|apply keeps_ret].
  intros s Hs. unfold sr_get_list. apply wp_bind, wp_bind, wp_get, wp_ret, wp_bind.
  eapply wp_mono; [apply sr_event_inv; [done|done|done|done|apply Hm, Hs]|]. intros ? s' H. by apply wp_ret.
Qed.

Lemma found_substate l v a : sr_list_ok l -> msrp_lookup l v = Some a -> 0 <= substate a < 2 ^ 32.
Proof.
  intros [_ Hl] H. assert (a ∈ l) as Ha; [|rewrite list.Forall_forall in Hl; apply (Hl a Ha)]. clear Hl.
  induction l as [|x l IH]; [done|]. cbn in H. destruct (sr_same _ _); simplify_eq; [by left|right; auto].
Qed.

Lemma join_or_new_stream_spec t failed e :
  talker_ok t -> e = MRP_EVENT_JOIN \/ e = MRP_EVENT_NEW -> keeps_inv (msrp_cmd_join_or_new_stream t failed e).
Proof. intros Ht He. apply declare_event_spec; [by destruct He as [-> | ->]..|]. intros l _. apply sr_alloc_ok; [by destruct failed|done|done]. Qed.

Lemma leave_stream_spec t : talker_ok t -> keeps_inv (msrp_cmd_leave_stream t).
Proof. intros Ht. apply declare_event_spec; [done|done|]. by intros l _. Qed.

Lemma report_listener_spec t sub : talker_ok t -> 0 <= sub < 2 ^ 32 -> keeps_inv (msrp_cmd_report_listener_status t sub).
Proof. intros Ht Hs. apply declare_event_spec; [done|done|]. by intros l _. Qed.

Lemma withdraw_listener_status_spec t : talker_ok t -> keeps_inv (msrp_cmd_withdraw_listener_status t).
Proof.
  intros Ht. apply declare_event_spec; [done|done|]. intros l Hl. apply sr_alloc_ok; [done| |done].
  destruct (msrp_lookup l (Listener t)) as [a|] eqn:E; [by eapply found_substate|lia].
Qed.

Lemma report_domain_spec d b : domain_ok d -> keeps_inv (msrp_cmd_report_domain_status d b).
Proof.
  intros [H1 H2 H3 H4]. apply declare_event_spec; [by destruct b..|]. intros l _. apply sr_alloc_ok; [|done|done]. by split.
Qed.

Lemma withdraw_listener_spec t : talker_ok t -> keeps_inv (withdraw_listener t).
Proof.
  intros Ht. apply keeps_bind; [by apply withdraw_listener_status_spec|]. intros rc. destruct (negb _); [apply keeps_ret|].
  apply keeps_get. intros s Hs. assert (forall b : bool, keeps_inv ((when b do drop_talkers (StreamID t)) ;! st_ret 0)) as H.
  { intros b. apply keeps_bind; [|intros; apply keeps_ret]. destruct b; [apply drop_talkers_spec|apply keeps_ret]. }
  by apply H.
Qed.

(** ** Interesting streams *)
Lemma sr_inv_ids ids X s :
  sr_inv s -> holds ids (gset_to_gmap 0 X) ->
  sr_inv (mkMrp (mdb s) (mkMsrpDb (sr_list (app s)) (sr_flag (app s)) ids (enable_pruning (app s))) (io s)).
Proof. intros [] H. split; try done. by exists X. Qed.

Lemma eui64_read_range id : byte_string 8 id -> 0 <= eui64_read id < 2 ^ 64.
Proof. intros [H1 H2]. rewrite eui64_read_be by done. pose proof (be_val_range id H2) as H. by rewrite H1 in H. Qed.

Lemma add_interesting_spec id : byte_string 8 id -> keeps_inv (add_interesting id).
Proof.
  intros Hid. apply keeps_get. intros s Hs. destruct (find_interesting (app s) id) eqn:E; [by apply wp_ret|].
  apply bool_decide_eq_false in E. destruct (sv_ids _ Hs) as [X HX].
  pose proof (find_spec _ _ (eui64_read id) HX) as Hf. rewrite <- (fmap_is_Some p), Hf in E. apply eq_None_not_Some in E.
  destruct (insert_spec _ _ (eui64_read id) 0 HX (eui64_read_range id Hid) E) as (r & ids & E1 & H1).
  apply wp_bind. eapply wp_lift; [exact E1|]. apply wp_bind, wp_modify, wp_ret. destruct (eui64set_is_full _).
  - destruct H1 as [_ ->]. by apply (sr_inv_ids _ X).
  - destruct H1 as [_ H1]. apply (sr_inv_ids _ ({[eui64_read id]} ∪ X)); [done|]. by rewrite gset_to_gmap_union_singleton.
Qed.

Lemma remove_interesting_spec id : keeps_inv (remove_interesting id).
Proof.
  apply keeps_get. intros s Hs. destruct (sv_ids _ Hs) as [X HX].
  destruct (remove_spec _ _ (eui64_read id) HX) as (r & ids & freed & E1 & H1).
  { intros [q Hq]. right. apply lookup_gset_to_gmap_Some in Hq as Hq'. destruct Hq' as [_ <-]. rewrite Hq.
    rewrite lookup_gset_to_gmap, option_guard_decide. destruct (decide _); [by right|by left]. }
  apply wp_bind. eapply wp_lift; [exact E1|]. apply wp_bind, wp_modify. set (s1 := mkMrp _ _ _).
  assert (sr_inv s1) as Hs1.
  { destruct (gset_to_gmap 0 X !! _).
    - destruct H1 as (_ & H1 & _). apply (sr_inv_ids _ (X ∖ {[eui64_read id]})); [done|]. by rewrite gset_to_gmap_difference_singleton.
    - destruct H1 as (_ & -> & _). by apply (sr_inv_ids _ X). }
  destruct (r =? 0); [by apply wp_ret|]. unfold sr_get_list. apply wp_bind, wp_bind, wp_get, wp_ret, wp_bind.
  destruct (negb _); [|by apply wp_ret, wp_ret]. eapply wp_mono; [by apply drop_talkers_spec|]. intros ? s2 H2. by apply wp_ret.
Qed.

(** ** Dispatch *)
Lemma sr_command_spec {V} (P : V -> Prop) (parsed : Z * V * list Z) run client :
  (let '(_, v, _) := parsed in P v) -> (forall v, P v -> keeps_inv (run v)) -> keeps_inv (sr_command parsed run client).
Proof.
  intros Hp Hrun. unfold sr_command. destruct parsed as [[rc v] text]. destruct (negb _); [apply keeps_respond|].
  apply keeps_bind; [by apply Hrun|]. intros rc'. destruct (negb _); [apply keeps_respond|apply keeps_ret].
Qed.

Lemma interest_command_spec buf len run client :
  (forall id, byte_string 8 id -> keeps_inv (run id)) -> keeps_inv (interest_command buf len run client).
Proof.
  intros Hrun. apply keeps_get. intros s Hs. destruct (negb _); [by apply keeps_respond|].
  apply (sr_command_spec (byte_string 8)); [|done|done]. apply run_parse_spec; [apply (zeros 8)|].
  intros. eapply bytes_at_typed; [done|by left].
Qed.

Lemma stream_command_spec buf len client : keeps_inv (stream_command buf len client).
Proof.
  unfold stream_command. set (e := if decide _ then _ else _).
  assert (e = MRP_EVENT_JOIN \/ e = MRP_EVENT_NEW) as He by (subst e; destruct (decide _); auto).
  destruct (bool_decide _); apply (sr_command_spec talker_ok); try (intros t Ht; by apply join_or_new_stream_spec).
  - apply run_parse_spec; [auto with msrp_db|]. intros s n. apply (stream_of_ok true).
  - apply run_parse_spec; [auto with msrp_db|]. intros s n. apply (stream_of_ok false s n).
Qed.

Lemma msrp_dumptable_spec client s :
  sr_inv s -> (length (sr_list (app s)) <= 11)%nat -> wp (msrp_dumptable client) (fun _ s' => sr_inv s') s.
Proof.
  intros Hinv Hlen. unfold msrp_dumptable. apply wp_bind, draw_calm. intros s1 H1. pose proof (sr_inv_calm _ _ H1 Hinv) as Hinv1.
  destruct (mrp_malloc _); cbn [negb]; [|by apply wp_ret]. apply wp_bind, draw_calm. intros s2 H2.
  apply wp_bind, draw_calm. intros s3 H3. apply wp_bind, draw_calm. intros s4 H4.
  pose proof (calm_trans _ _ _ H1 (calm_trans _ _ _ H2 (calm_trans _ _ _ H3 H4))) as H5.
  pose proof (sr_inv_calm _ _ H5 Hinv) as Hinv5. destruct (_ && _); cbn [negb]; [|by apply wp_ret].
  unfold sr_get_list. apply wp_bind, wp_bind, wp_get, wp_ret, wp_bind. destruct (H5) as [_ Ha]. rewrite Ha.
  assert (wp (if decide (sr_list (app s) = []) then st_ret ("MSRP:Empty" +:+ newline)
    else st_lift (sr_dump_loop (sr_list (app s)) String.EmptyString)) (fun _ s' => s' = s4) s4) as Hd.
  { destruct (decide _); [by apply wp_ret|].
    destruct (sr_dump_loop_safe (sr_list (app s)) String.EmptyString) as [out E]; [apply Hinv|cbn [String.length]; lia|]. by eapply wp_lift. }
  eapply wp_mono; [exact Hd|]. intros ? ? ->. apply wp_bind. eapply wp_mono; [by apply keeps_send|]. intros [] s5 H6. by apply wp_ret.
Qed.

Lemma domain_parse_ok buf len : let '(_, d, _) := msrp_cmd_parse_domain_status buf len in domain_ok d.
Proof.
  apply run_parse_spec; [auto with msrp_db|]. intros s n. set (specs := [_; _; _]). split; cbn [SRclassID SRclassPriority neighborSRclassPriority SRclassVID].
  - exact (int_at_typed s n specs 0 _ eq_refl).
  - exact (int_at_typed s n specs 1 _ eq_refl).
  - lia.
  - exact (int_at_typed s n specs 2 _ eq_refl).
Qed.

Lemma sr_dispatch_spec buf len client s :
  sr_inv s -> (take 3 buf = bytes_of_string "S??" -> (length (sr_list (app s)) <= 11)%nat) ->
  wp (sr_dispatch buf len client) (fun _ s' => sr_inv s') s.
Proof.
  intros Hs Hd. unfold sr_dispatch. destruct (starts buf "S??") eqn:E.
  { apply bool_decide_eq_true in E. apply wp_bind. eapply wp_mono; [by apply msrp_dumptable_spec; [|apply Hd]|].
    intros ? s3 H3. by apply wp_ret. }
  clear E Hd. destruct (starts buf "S-L").
  { apply (sr_command_spec talker_ok); [|apply withdraw_listener_spec|done].
    apply run_parse_spec; [auto with msrp_db|]. intros. apply only_stream_ok. }
  destruct (starts buf "S-D").
  { apply (sr_command_spec domain_ok); [apply domain_parse_ok| |done]. intros d Hd. by apply report_domain_spec. }
  destruct (starts buf "S--").
  { apply (sr_command_spec talker_ok); [|apply leave_stream_spec|done].
    apply run_parse_spec; [auto with msrp_db|]. intros. apply only_stream_ok. }
  destruct (starts buf "S+L").
  { apply (sr_command_spec (fun x => talker_ok (fst x) /\ 0 <= snd x < 2 ^ 32)); [| |done].
    - apply run_parse_spec; [split; [auto with msrp_db|done]|]. intros s' n. split; [apply only_stream_ok|].
      exact (int_at_typed s' n [spec "L=" parse_c64; spec "D=" parse_u32] 1 _ eq_refl).
    - intros [t sub] [H1 H2]. by apply report_listener_spec. }
  destruct (starts buf "S+D").
  { apply (sr_command_spec domain_ok); [apply domain_parse_ok| |done]. intros d Hd. by apply report_domain_spec. }
  destruct (starts buf "S+?" || starts buf "S++"); [by apply stream_command_spec|].
  destruct (starts buf "I+S"); [by apply interest_command_spec; [apply add_interesting_spec|]|].
  destruct (starts buf "I-S"); [apply interest_command_spec; [|done]; intros; apply remove_interesting_spec|].
  destruct (starts buf "I-A"); [|by apply keeps_respond]. apply wp_bind, wp_get, wp_bind, wp_modify, wp_ret.
  destruct (sv_ids _ Hs) as [X HX]. apply (sr_inv_ids _ ∅); [done|]. rewrite gset_to_gmap_empty. by eapply clear_holds.
Qed.

Lemma sr_inv_clients cs s : sr_inv s -> NoDup (ports cs) -> sr_inv (mkMrp (set_clients cs (mdb s)) (app s) (io s)).
Proof. by intros []. Qed.

Lemma sr_recv_cmd_db_spec buf len client s :
  sr_inv s -> (take 3 buf = bytes_of_string "S??" -> (length (sr_list (app s)) <= 11)%nat) ->
  wp (sr_recv_cmd_db buf len client) (fun _ s' => sr_inv s') s.
Proof.
  intros Hinv Hd. unfold sr_recv_cmd_db. apply wp_bind, draw_calm. intros s1 H1. pose proof (sr_inv_calm _ _ H1 Hinv) as Hinv1.
  apply wp_bind, wp_modify. set (s2 := mkMrp _ _ _).
  assert (sr_inv s2) as Hinv2 by (apply sr_inv_clients; [done|]; apply ports_add, Hinv1).
  assert (sr_list (app s2) = sr_list (app s)) as Hl by (destruct H1 as [_ Ha]; cbn; by rewrite Ha).
  apply wp_bind, wp_get. destruct (_ && _).
  { apply wp_bind, wp_modify, wp_bind. eapply wp_mono; [apply keeps_send; apply sr_inv_clients; [done|]; apply ports_delete, Hinv2|].
    intros ? s3 H3. by apply wp_ret. }
  destruct (len <? 3); [by apply wp_ret|]. destruct (_ && _); [by apply wp_ret|]. apply sr_dispatch_spec; [done|]. by rewrite Hl.
Qed.

(** ** Reclaim *)
Lemma sr_reclaim_spec : keeps_inv (let! l := sr_get_list in sr_reclaim_loop [] l ;! st_ret 0).
Proof.
  intros s Hs. unfold sr_get_list. apply wp_bind, wp_bind, wp_get, wp_ret, wp_bind.
  eapply wp_mono; [by apply sr_reclaim_loop_spec|]. intros ? s' H. apply wp_ret. eapply sr_inv_sublist; [exact Hs|exact H|]. apply sr_kept_sublist.
Qed.
End client.
