(* ===== verification/MsrpProps.v ===== *)
(** * MsrpProps: what MSRP promises

    The life of the MSRP part of the daemon: the invariant of every state it can reach,
    the ranges of the values it keeps, the refinement of the table of streams, and safe
    reception. *)
From stdpp Require Import base gmap list strings numbers sorting.
From S2P Require Import Prelude Text Parse Mrp MrpProps Mvrp MvrpWire Mmrp.
From S2P Require Import MrpWorld MvrpInv MvrpEvent MvrpTable MvrpRecv MmrpInv MmrpWire Eui64set.
From S2P Require Import Msrp MsrpEmit MsrpDaemon MsrpRx MsrpCmd MsrpInv MsrpWire MsrpTable.
From S2P Require Import MsrpEvent MsrpRecv MsrpClient.
#[local] Open Scope Z_scope.
#[local] Open Scope st_scope.

(** ** The life of the daemon *)

(** What reaches MSRP from the loop in [process_events] and the control socket. *)
Inductive msrp_input :=
  | sr_lva_timer
  | sr_lv_timer
  | sr_join_timer
  | sr_periodic_timer
  | sr_frame (frame : option (list Z))
  | sr_ctl (buf : list Z) (buflen : Z) (client : sockaddr_in)
  | sr_gc_timer
  | sr_leaving (client : sockaddr_in).

Section life.
Context `{env : MrpEnv} `{lib : CLib} `{laws : !CLibLaws lib}.

Definition sr_deliver (e : mrp_event) : stM MsrpGlobal Z := with_db (st_ret 0) (msrp_event e None).

Definition msrp_handle (i : msrp_input) : stM MsrpGlobal Z :=
  match i with
  | sr_lva_timer => sr_deliver MRP_EVENT_LVATIMER
  | sr_lv_timer => sr_deliver MRP_EVENT_LVTIMER
  | sr_join_timer => sr_deliver MRP_EVENT_TX
  | sr_periodic_timer => sr_deliver MRP_EVENT_PERIODIC
  | sr_frame f => with_db (st_ret 0) (msrp_recv_msg f)
  | sr_ctl buf len client => msrp_recv_cmd buf len client
  | sr_gc_timer => msrp_reclaim
  | sr_leaving client => msrp_bye client ;! st_ret 0
  end.

(** The inputs the buffers are made for: frames of at most 1963 bytes, a transmission with
    at most 49 attributes, a table dump with at most 11. *)
Definition sr_input_ok (i : msrp_input) (g : MsrpGlobal) : Prop :=
  let size := match g with inl _ => 0%nat | inr s => length (sr_list (app s)) end in
  match i with
  | sr_frame (Some f) => Forall is_byte f /\ (length f <= 1963)%nat
  | sr_lva_timer | sr_join_timer => (size <= 49)%nat
  | sr_ctl buf _ _ => take 3 buf = bytes_of_string "S??" -> (size <= 11)%nat
  | _ => True
  end.

Inductive sr_reachable : MsrpGlobal -> Prop :=
  | sr_start i enable max pruning rc mem ids_mem join lv lva ret g :
      length (STATION_ADDR i) = 6%nat ->
      msrp_init enable max pruning rc mem ids_mem join lv lva (inl i) = Done (ret, g) -> sr_reachable g
  | sr_continue g inp ret g' :
      sr_reachable g -> sr_input_ok inp g -> msrp_handle inp g = Done (ret, g') -> sr_reachable g'.

Definition sr_global_inv (g : MsrpGlobal) : Prop := match g with inl _ => True | inr s => sr_inv s end.

Hypothesis Hrand : forall n, 0 <= mrp_random n.

Lemma sr_with_db_spec {A} (null : stM Io A) (m : stM SR A) g :
  sr_global_inv g -> (forall i, exists a i', null i = Done (a, i')) ->
  (forall s, g = inr s -> sr_inv s -> wp m (fun _ s' => sr_inv s') s) -> wp (with_db null m) (fun _ => sr_global_inv) g.
Proof.
  intros Hg Hn Hm. unfold wp, with_db. destruct g as [i|s].
  - by destruct (Hn i) as (a & i' & ->).
  - specialize (Hm s eq_refl Hg). unfold wp in Hm. by destruct (m s) as [[a s']|].
Qed.

Lemma msrp_handle_spec i g : sr_global_inv g -> sr_input_ok i g -> wp (msrp_handle i) (fun _ => sr_global_inv) g.
Proof.
  intros Hg Hi.
  assert (forall e, (forall s, g = inr s -> e = MRP_EVENT_TX \/ e = MRP_EVENT_LVATIMER -> (length (sr_list (app s)) <= 49)%nat) ->
    wp (sr_deliver e) (fun _ => sr_global_inv) g) as He.
  { intros e Hs. apply sr_with_db_spec; [done|by eauto|]. intros s Es Hinv. destruct (sv_ids _ Hinv) as [X HX].
    eapply wp_mono; [apply (msrp_event_spec Hrand e None X); auto|]; [done|]. by intros ? s' (? & _). }
  destruct i; cbn [msrp_handle]; try (apply He; intros s -> [?|?]; first [exact Hi | discriminate]).
  - apply sr_with_db_spec; [done|by eauto|]. intros s _ Hs. apply msrp_recv_msg_spec; [done|done|]. by intros b ->.
  - apply sr_with_db_spec; [done|unfold sr_null_respond, st_bind; by eauto|]. intros s -> Hs. by apply sr_recv_cmd_db_spec.
  - apply sr_with_db_spec; [done|by eauto|]. intros s _ Hs. by apply sr_reclaim_spec.
  - apply wp_bind. eapply wp_mono; [apply sr_with_db_spec; [done|by eauto|]|].
    + intros s _ Hs. apply wp_modify, sr_inv_clients; [done|]. apply ports_delete, Hs.
    + intros ? s' Hs. by apply wp_ret.
Qed.

Lemma msrp_init_inv i enable max pruning rc mem ids_mem join lv lva ret g :
  length (STATION_ADDR i) = 6%nat ->
  msrp_init enable max pruning rc mem ids_mem join lv lva (inl i) = Done (ret, g) -> sr_global_inv g.
Proof.
  intros Hs. unfold msrp_init. destruct enable, (rc <? 0), mem; cbn [negb]; try (by intros [= <- <-]).
  set (m := if _ <? _ then _ else _). pose proof (init_holds m ids_mem) as Hi. destruct (eui64set_init m ids_mem) as [r ids] eqn:Ei.
  destruct (Z.ltb_spec r 0); [by intros [= <- <-]|]. assert (r = 0) as ->.
  { unfold eui64set_init in Ei. repeat case_match; simplify_eq; lia. }
  specialize (Hi eq_refl). cbn in Hi. unfold mrpd_init_timers. destruct (_ || _); [by intros [= <- <-]|]. set (s0 := mkMrp _ _ _).
  destruct (wp_done _ _ _ (mrp_lvatimer_fsm_spec MRP_EVENT_BEGIN s0 Hrand)) as (r & s & E & _ & [] & _).
  rewrite E. intros [= <- <-]. cbn. split; rewrite ?ls_app, ?ls_clients, ?ls_station; try done; [split; constructor|constructor|].
  exists ∅. unfold interests. by rewrite gset_to_gmap_empty.
Qed.

Lemma sr_reachable_inv g : sr_reachable g -> sr_global_inv g.
Proof.
  induction 1 as [i enable max pruning rc mem ids_mem join lv lva ret g Hs E|g inp ret g' _ IH Hi E].
  - exact (msrp_init_inv _ _ _ _ _ _ _ _ _ _ _ _ Hs E).
  - pose proof (msrp_handle_spec inp g IH Hi) as Hw. unfold wp in Hw. by rewrite E in Hw.
Qed.
End life.

(** C13. The life of the MSRP daemon: in every state reached from start-up by timer
    expiries, frames, client commands, garbage collection and departing clients, there is
    at most one attribute for each talker's stream, each listener's stream and each domain
    class, the flag of the empty LeaveAll is off between events, the set of interesting
    streams is sorted and without duplicates, and no two clients share a port; and every
    further input the buffers are made for is processed to the end without a fault. *)
Theorem msrp_reachable_invariant (env : MrpEnv) (lib : CLib) g :
  (forall n, 0 <= mrp_random n) -> CLibLaws lib -> sr_reachable g ->
  match g with
  | inl _ => True
  | inr s => NoDup (sr_keys (sr_list (app s))) /\ sr_flag (app s) = false /\
      (exists X : gset Z, holds (interesting_stream_ids (app s)) (gset_to_gmap 0 X)) /\ NoDup (ports (clients (mdb s)))
  end /\
  forall i, sr_input_ok i g -> exists ret g', msrp_handle i g = Done (ret, g').
Proof.
  intros Hrand Hlaws Hg. pose proof (sr_reachable_inv Hrand g Hg) as Hinv. split.
  - destruct g as [|s]; [done|]. by destruct Hinv as [[] ? ? ? ?].
  - intros i Hi. destruct (wp_done _ _ _ (msrp_handle_spec Hrand i g Hinv Hi)) as (ret & g' & E & _). eauto.
Qed.

(** C14. MSRP implements its table of streams: an event changes the finite map from streams
    and domain classes to what is declared and the states of the state machines exactly as
    the state tables, the rules of merging and pruning say.  An event for a talker that is
    neither interesting nor listened to changes nothing when pruning is on; one for a key
    that is there merges first and one for a new key starts from the attribute given (rMt!
    creates none); an entry nobody declares or registers is forgotten; timers act on every
    entry and a received LeaveAll on those of its type.  List order, frames and clients do
    not matter, nor does memory while there is some.  The two events that transmit, the join
    and the leave-all timer, are covered for tables of at most 49 attributes: with more the
    encoders can leave the frame buffer. *)
Theorem msrp_event_refines (env : MrpEnv) (lib : CLib) e (rattrib : option msrp_attribute) (X : gset Z) (s : SR) :
  (forall n, 0 <= mrp_random n) -> CLibLaws lib -> sr_inv s -> (forall r, rattrib = Some r -> sr_attr_ok r) ->
  holds (interesting_stream_ids (app s)) (gset_to_gmap 0 X) ->
  (e = MRP_EVENT_TX \/ e = MRP_EVENT_LVATIMER -> (length (sr_list (app s)) <= 49)%nat) ->
  exists rc s' mem, msrp_event e rattrib s = Done (rc, s') /\ sr_inv s' /\ p2pmac (io s') = p2pmac (io s) /\
    interesting_stream_ids (app s') = interesting_stream_ids (app s) /\ enable_pruning (app s') = enable_pruning (app s) /\
    ((forall n, mrp_malloc n = true) -> mem = true) /\
    sr_table (sr_list (app s')) =
      sr_table_step (p2pmac (io s)) (enable_pruning (app s)) X mem e (to_stream <$> rattrib) (sr_table (sr_list (app s))).
Proof.
  intros Hrand Hlaws Hinv Hr HX Hlen.
  destruct (wp_done _ _ _ (msrp_event_spec Hrand e rattrib X s Hinv Hlen Hr HX)) as (rc & s' & E & H1 & [] & [= H3 H4 H5] & mem & H6 & H7).
  by exists rc, s', mem.
Qed.

(** C15. Any frame is safe: whatever bytes arrive, up to 1963 of them, and whatever memory
    allocations fail on the way, [msrp_recv_msg] comes to its end: its nested loops stop,
    no read leaves the receive buffer or the array of declarations, and the invariant is
    kept. *)
Theorem msrp_recv_safe (env : MrpEnv) (lib : CLib) frame (s : SR) :
  (forall n, 0 <= mrp_random n) -> CLibLaws lib -> sr_inv s -> Forall is_byte frame -> (length frame <= 1963)%nat ->
  exists rc s', msrp_recv_msg (Some frame) s = Done (rc, s') /\ sr_inv s'.
Proof.
  intros Hrand Hlaws Hinv Hb Hl. apply wp_done. apply msrp_recv_msg_spec; [done|done|]. by intros b [= <-].
Qed.
