(* ===== verification/MsrpFaults.v ===== *)
(** * MsrpFaults: where MSRP goes wrong

    Concrete runs, in a system where every call succeeds: tables that fill the frame to its
    last bytes, a frame longer than the receive buffer allows for, a packed byte out of
    range, a message that changes the type of a registered talker, and a dump of twelve
    talkers. *)
From stdpp Require Import base gmap list strings numbers sorting.
From S2P Require Import Prelude Text Parse Mrp MrpProps MrpExamples Mvrp MvrpWire Mmrp.
From S2P Require Import MrpWorld MvrpEvent MvrpTable MvrpRecv Eui64set Msrp MsrpEmit MsrpDaemon.
From S2P Require Import MsrpRx MsrpCmd MsrpInv MsrpTable MsrpEvent MsrpRecv MsrpClient.
#[local] Open Scope Z_scope.
#[local] Existing Instance plain_libc.
#[local] Existing Instance plain_laws.

(** ** Stations *)
Definition no_ids : eui64set := snd (eui64set_init 8 true).
Definition sr_station (l : list msrp_attribute) : SR := mkMrp idle_db (mkMsrpDb l false no_ids false) idle_io.

(** An attribute with these states, registered by nobody in particular. *)
Definition sr_in_states (v : msrp_value) (sub : Z) (op : msrp_operation) (x : applicant_state) (r : registrar_state) : msrp_attribute :=
  mkMsrp v sub op (mkApplicant x false MRP_SND_NULL MRP_ENCODE_YES None) (mkRegistrar r MRP_NOTIFY_NONE (replicate 6 0)).

(** A declaration in force that nobody else registers. *)
Definition declared (v : msrp_value) (sub : Z) : msrp_attribute := sr_in_states v sub MSRP_OPERATION_DECLARE MRP_AA_STATE MRP_MT_STATE.

Definition a_stream (hi lo : Z) : list Z := [0; 27; 33; 1; 2; 3; hi; lo].
Definition a_talker (id : list Z) : msrpdu_talker_fail := mkTalker id [145; 224; 240; 0; 14; 128] 2 256 1 112 3900 (replicate 8 0) 0.
Definition a_domain : msrp_value := Domain (mkDomain 6 3 3 2).

(** ** Checking stations by computation *)
Definition bytes_b (n : nat) (l : list Z) : bool := (length l =? n)%nat && forallb (fun b => (0 <=? b) && (b <? 256)) l.
Definition below (n x : Z) : bool := (0 <=? x) && (x <? n).

Definition talker_b (t : msrpdu_talker_fail) : bool :=
  bytes_b 8 (StreamID t) && bytes_b 6 (Dest_Addr t) && below 65536 (Vlan_ID t) && below 65536 (MaxFrameSize t) &&
  below 65536 (MaxIntervalFrames t) && below 256 (PriorityAndRank t) && below (2 ^ 32) (AccumulatedLatency t) &&
  bytes_b 8 (BridgeID t) && below 256 (FailureCode t).

Definition sr_value_b (v : msrp_value) : bool :=
  match v with
  | TalkerAdv t | TalkerFailed t | Listener t => talker_b t
  | Domain d => below 256 (SRclassID d) && below 256 (SRclassPriority d) && below 256 (neighborSRclassPriority d) &&
      below 65536 (SRclassVID d)
  end.

Definition sr_attr_b (a : msrp_attribute) : bool :=
  sr_value_b (sr_value a) && below (2 ^ 32) (substate a) && (length (macaddr (sr_registrar a)) =? 6)%nat.

Lemma below_ok n x : below n x = true -> 0 <= x < n.
Proof. unfold below. lia. Qed.

Lemma bytes_b_ok n l : bytes_b n l = true -> byte_string n l.
Proof.
  unfold bytes_b. rewrite andb_true_iff, Nat.eqb_eq, forallb_forall. intros [H1 H2]. split; [done|].
  apply list.Forall_forall. intros b Hb%list_elem_of_In%H2. unfold is_byte. lia.
Qed.

Lemma talker_b_ok t : talker_b t = true -> talker_ok t.
Proof.
  unfold talker_b. rewrite !andb_true_iff. intros H. destruct_and! H. split; by first [apply bytes_b_ok | apply below_ok].
Qed.

Lemma sr_attr_b_ok a : sr_attr_b a = true -> sr_attr_ok a.
Proof.
  unfold sr_attr_b. rewrite !andb_true_iff, Nat.eqb_eq. intros [[H1 H2] H3]. split; [|by apply below_ok|done].
  destruct (sr_value a); cbn in *; try by apply talker_b_ok. rewrite !andb_true_iff in H1. destruct_and! H1. split; by apply below_ok.
Qed.

Lemma sr_station_inv l :
  forallb sr_attr_b l = true -> bool_decide (NoDup (sr_keys l)) = true -> sr_inv (sr_station l).
Proof.
  intros H1 H2%bool_decide_eq_true. split; cbn; [|done|apply NoDup_singleton|done|].
  - split; [done|]. apply list.Forall_forall. intros a Ha%list_elem_of_In. rewrite forallb_forall in H1. by apply sr_attr_b_ok, H1.
  - exists ∅. unfold interests. rewrite gset_to_gmap_empty. by apply (init_holds 8 true).
Qed.

(** ** Full frames *)

(** Listeners in [n] vectors, the first [k] of four streams each and the others of one. *)
Definition listeners (n k : nat) : list msrp_attribute :=
  concat ((fun i : nat => (fun j : nat => declared (Listener (set_StreamID (a_stream (Z.of_nat i) (10 + Z.of_nat j)) zero_talker)) MSRP_LISTENER_READY)
     <$> seq 0 (if (i <? k)%nat then 4 else 1)) <$> seq 0 n).

Definition crowded (k : nat) : SR := sr_station (listeners 164 k ++ [declared a_domain 0]).

(** C26. Transmission and the room in its frame.  With at most 49 attributes the join timer
    always runs to its end.  But [msrp_emit_domainvectors] checks for fewer bytes than its
    message takes: there is a well-formed table of 167 listeners and one domain for which
    [msrp_txpdu] writes past the end of its 2000-byte buffer. *)
Theorem msrp_transmit_overflow :
  (forall (env : MrpEnv) (lib : CLib) (s : SR), (forall n, 0 <= mrp_random n) -> CLibLaws lib -> sr_inv s ->
     (length (sr_list (app s)) <= 49)%nat -> exists rc s', msrp_event MRP_EVENT_TX None s = Done (rc, s')) /\
  sr_inv (crowded 1) /\ length (sr_list (app (crowded 1))) = 168%nat /\
  msrp_event MRP_EVENT_TX None (crowded 1) = Fault OutOfBounds.
Proof.
  split; [|split; [|split; vm_compute; reflexivity]].
  - intros env lib s Hrand Hlaws Hinv Hlen. destruct (sv_ids _ Hinv) as [X HX].
    destruct (wp_done _ _ _ (msrp_event_spec Hrand MRP_EVENT_TX None X s Hinv ltac:(done) ltac:(done) HX)) as (rc & s' & E & _). eauto.
  - apply sr_station_inv; vm_compute; reflexivity.
Qed.

(** A frame that does not fit is lost: when the message of the domains does not fit
    behind those of the listeners, [msrp_txpdu] gives up and sends nothing, yet every
    applicant has already moved on.  With 164 listeners and a domain to declare, the join
    timer reports success and all applicants become quiet, as if their declarations had
    been sent; no frame left.  (One listener less, and the frame is sent.) *)
Theorem msrp_frame_lost :
  sr_inv (crowded 0) /\
  (exists s', msrp_event MRP_EVENT_TX None (crowded 0) = Done (0, s') /\ frames (io s') = frames (io (crowded 0)) /\
     Forall (fun a => app_state (sr_applicant a) = MRP_QA_STATE /\ tx (sr_applicant a) = false) (sr_list (app s'))) /\
  (exists s', msrp_event MRP_EVENT_TX None (sr_station (listeners 163 0 ++ [declared a_domain 0])) = Done (0, s') /\
     length (frames (io s')) = 1%nat).
Proof.
  split; [apply sr_station_inv; vm_compute; reflexivity|]. split.
  - eexists. split; [vm_compute; reflexivity|]. split; [reflexivity|]. cbn [app sr_list]. repeat (constructor; [by split|]). constructor.
  - eexists. split; vm_compute; reflexivity.
Qed.

(** ** Long frames *)

(** Talker vectors without values follow each other to the last byte. *)
Definition long_frame : list Z :=
  MSRP_ADDR ++ [2; 0; 0; 0; 0; 1] ++ be_bytes 2 MSRP_ETYPE ++ [MSRP_PROT_VER] ++
  [2; 34; 0; 40] ++ concat (replicate 54 ([32; 0] ++ replicate 34 0)) ++ [32].

(** The bound of reception is sharp: frames of at most 1963 bytes are always
    processed, but there is one of 1964 bytes, all of its fields within their checks, that
    leads the loop over its vectors to read past the end of the 2000-byte buffer. *)
Theorem msrp_recv_overrun :
  (forall (env : MrpEnv) (lib : CLib) (s : SR) frame, (forall n, 0 <= mrp_random n) -> CLibLaws lib -> sr_inv s ->
     Forall is_byte frame -> (length frame <= 1963)%nat -> exists rc s', msrp_recv_msg (Some frame) s = Done (rc, s')) /\
  Forall is_byte long_frame /\ length long_frame = 1964%nat /\ sr_inv (sr_station []) /\
  msrp_recv_msg (Some long_frame) (sr_station []) = Fault OutOfBounds.
Proof.
  split; [|split; [|split; [vm_compute; reflexivity|split; [|vm_compute; reflexivity]]]].
  - intros env lib s frame Hrand Hlaws Hinv Hb Hl.
    destruct (wp_done _ _ _ (msrp_recv_msg_spec Hrand (Some frame) s Hinv ltac:(by intros b [= <-]))) as (rc & s' & E & _). eauto.
  - assert (forallb (fun b => (0 <=? b) && (b <? 256)) long_frame = true) as H by (vm_compute; reflexivity).
    rewrite forallb_forall in H. apply list.Forall_forall. intros b Hb%list_elem_of_In%H. unfold is_byte. lia.
  - apply sr_station_inv; vm_compute; reflexivity.
Qed.

(** ** What a receiver makes of a message *)
Definition sr_entries (s : SR) : list stream := to_stream <$> sr_list (app s).

(** A vector of four talkers from [a_stream 0 1] on: [first] is the packed byte of the
    first three, and the fourth is a JoinIn. *)
Definition four_talkers (first : Z) : list Z :=
  MSRP_ADDR ++ [2; 0; 0; 0; 0; 1] ++ be_bytes 2 MSRP_ETYPE ++ [MSRP_PROT_VER] ++
  [1; 25; 0; 31; 0; 4] ++ talker_firstvalue false (a_talker (a_stream 0 1)) ++ [first; 36; 0; 0; 0; 0].

Definition heard (s : SR) (frame : list Z) : option (list (list Z)) :=
  match msrp_recv_msg (Some frame) s with
  | Done (0, s') => Some (omap (fun a => is_talker (sr_value a)) (sr_list (app s')))
  | _ => None
  end.

(** A packed byte out of range shifts the streams after it: it is skipped together
    with its three events, but the first value is not advanced.  When the first byte is
    three JoinIns, four streams are registered; when it is 216 (no three events), the
    JoinIn of the fourth stream is registered for the first one, which nobody declared. *)
Theorem msrp_discard_shifts :
  heard (sr_station []) (four_talkers (MRPDU_3PACK_ENCODE 1 1 1)) =
    Some [a_stream 0 1; a_stream 0 2; a_stream 0 3; a_stream 0 4] /\
  heard (sr_station []) (four_talkers 216) = Some [a_stream 0 1].
Proof. split; vm_compute; reflexivity. Qed.

(** A station at which a peer has registered the talker [t], as advertised. *)
Definition hearing (t : msrpdu_talker_fail) : SR :=
  sr_station [sr_in_states (TalkerAdv t) 0 MSRP_OPERATION_REGISTER MRP_VO_STATE MRP_IN_STATE].

Definition from_peer (v : msrp_value) : option msrp_attribute := Some (msrp_alloc v 0 MSRP_OPERATION_REGISTER (replicate 6 0)).

(** A change of type loses the registration unless a Join brings it: to make clients
    hear of the change, merging empties the registrar first.  When a registered talker
    turns into a failed one with JoinIn, it is registered again as failed; when it does so
    with In, which says that the peer still has it registered, the stream disappears. *)
Theorem msrp_in_forgets :
  let t := a_talker (a_stream 0 1) in
  (exists s', msrp_event MRP_EVENT_RJOININ (from_peer (TalkerFailed t)) (hearing t) = Done (0, s') /\
     sr_entries s' = [mkStream (TalkerFailed t) 0 MSRP_OPERATION_REGISTER (MRP_VO_STATE, MRP_IN_STATE)]) /\
  (exists s', msrp_event MRP_EVENT_RIN (from_peer (TalkerFailed t)) (hearing t) = Done (0, s') /\ sr_entries s' = []).
Proof. split; eexists; split; vm_compute; reflexivity. Qed.

(** ** The table dump *)
Definition wide_talker (i : nat) : msrp_attribute :=
  declared (TalkerAdv (mkTalker (a_stream 0 (Z.of_nat i)) (replicate 6 255) 65535 65535 65535 255 (2 ^ 31) (replicate 8 255) 255)) 0.

(** The table dump and its buffer: with at most 11 attributes it is always sent, but
    12 talkers with the widest fields overrun the 1500 bytes of [msgbuf]. *)
Theorem msrp_dump_overflow :
  (forall (env : MrpEnv) (lib : CLib) (s : SR) client, (forall n, 0 <= mrp_random n) -> CLibLaws lib -> sr_inv s ->
     (length (sr_list (app s)) <= 11)%nat -> exists rc s', msrp_dumptable client s = Done (rc, s')) /\
  sr_inv (sr_station (wide_talker <$> seq 0 12)) /\
  msrp_dumptable local_client (sr_station (wide_talker <$> seq 0 12)) = Fault OutOfBounds.
Proof.
  split; [|split; [|vm_compute; reflexivity]].
  - intros env lib s client Hrand Hlaws Hinv Hlen. destruct (wp_done _ _ _ (msrp_dumptable_spec client s Hinv Hlen)) as (rc & s' & E & _). eauto.
  - apply sr_station_inv; vm_compute; reflexivity.
Qed.
