(* ===== verification/MsrpExamples.v ===== *)
(** * MsrpExamples: concrete runs of MSRP

    Instances of the theorems of [MsrpProps] at a station that has just started, at one
    that has heard a talker, and at one that prunes. *)
From stdpp Require Import base gmap list strings numbers sorting.
From S2P Require Import Prelude Text Parse Mrp MrpProps MrpExamples Mvrp MvrpTable Eui64set.
From S2P Require Import Msrp MsrpEmit MsrpDaemon MsrpRx MsrpCmd MsrpInv MsrpTable MsrpEvent.
From S2P Require Import MsrpProps MsrpFaults.
#[local] Open Scope Z_scope.
#[local] Existing Instance plain_libc.

(** The daemon right after start-up, and after a frame with four talkers. *)
Definition sr_started : MsrpGlobal :=
  match msrp_init true 8 false 0 true true 10 11 12 (inl idle_io) with Done (_, g) => g | Fault _ => inl idle_io end.
Definition sr_heard : MsrpGlobal :=
  match msrp_handle (sr_frame (Some (four_talkers 43))) sr_started with Done (_, g) => g | Fault _ => inl idle_io end.

Lemma sr_started_reachable : sr_reachable sr_started.
Proof. eapply (sr_start idle_io true 8 false 0 true true 10 11 12); [reflexivity|]. vm_compute. reflexivity. Qed.

Lemma sr_heard_reachable : sr_reachable sr_heard.
Proof.
  eapply (sr_continue sr_started (sr_frame (Some (four_talkers 43)))); [exact sr_started_reachable| |vm_compute; reflexivity].
  split; [|vm_compute; lia]. repeat constructor; vm_compute; congruence.
Qed.

Lemma msrp_reachable_invariant_witness :
  exists ret g', msrp_handle (sr_ctl (bytes_of_string "S??") 3 local_client) sr_heard = Done (ret, g').
Proof.
  destruct (msrp_reachable_invariant calm_env plain_libc sr_heard calm_random plain_laws sr_heard_reachable) as [_ H].
  apply H. intros _. vm_compute. lia.
Defined.

(** A pruning station: a talker nobody asked for is not registered. *)
Definition pruning_station : SR := mkMrp idle_db (mkMsrpDb [] false no_ids true) idle_io.

Lemma pruning_interests : holds (interesting_stream_ids (app pruning_station)) (gset_to_gmap 0 ∅).
Proof. rewrite gset_to_gmap_empty. by apply (init_holds 8 true). Qed.

Lemma pruning_inv : sr_inv pruning_station.
Proof. split; cbn; [split; constructor|reflexivity|apply NoDup_singleton|reflexivity|]. exists ∅. exact pruning_interests. Qed.

Lemma msrp_event_refines_witness :
  exists rc s', msrp_event MRP_EVENT_RJOININ (from_peer (TalkerAdv (a_talker (a_stream 0 1)))) pruning_station = Done (rc, s') /\
    sr_table (sr_list (app s')) = ∅.
Proof.
  destruct (msrp_event_refines calm_env plain_libc MRP_EVENT_RJOININ (from_peer (TalkerAdv (a_talker (a_stream 0 1)))) ∅
    pruning_station calm_random plain_laws pruning_inv) as (rc & s' & mem & E & _ & _ & _ & _ & _ & H).
  - intros r [= <-]. apply sr_attr_b_ok. vm_compute. reflexivity.
  - exact pruning_interests.
  - intros [?|?]; discriminate.
  - exists rc, s'. split; [exact E|]. rewrite H. vm_compute. reflexivity.
Defined.

Lemma msrp_recv_safe_witness :
  exists rc s', msrp_recv_msg (Some (four_talkers 43)) pruning_station = Done (rc, s').
Proof.
  destruct (msrp_recv_safe calm_env plain_libc (four_talkers 43) pruning_station calm_random plain_laws pruning_inv) as (rc & s' & E & _).
  - repeat constructor; vm_compute; congruence.
  - vm_compute. lia.
  - exists rc, s'. exact E.
Defined.
