(* ===== verification/MrpLocal.v ===== *)
(** * MrpLocal: an application of MRP touches nothing of the others

    The operations of MMRP, MVRP and MSRP share the daemon's sockets and timers.  [local]
    says what an operation of one application may do to them: it arms and disarms its own
    three timers only, it sends frames and replies, and it leaves the configuration of the
    daemon alone.  Every operation of the three applications is local; the proofs follow
    their structure, with one lemma for each operation. *)
From stdpp Require Import base gmap list strings numbers.
From S2P Require Import Prelude Text Parse Mrp MrpProps Mvrp Mmrp Eui64set Msrp.
From S2P Require Import MsrpEmit MsrpDaemon MsrpRx MsrpCmd.
#[local] Open Scope Z_scope.
#[local] Open Scope st_scope.

Definition fds (d : mrp_database) : list Z := [join_timer d; lv_timer d; lva_timer d].

Record local_step {X} (s s' : MrpState X) : Prop := mkLocalStep {
  lo_fds : fds (mdb s') = fds (mdb s);
  lo_armed fd : fd ∉ fds (mdb s) -> armed (io s') !! fd = armed (io s) !! fd;
  lo_socket : control_socket (io s') = control_socket (io s);
  lo_p2pmac : p2pmac (io s') = p2pmac (io s);
  lo_periodic : periodic_timer (io s') = periodic_timer (io s);
  lo_station : STATION_ADDR (io s') = STATION_ADDR (io s);
  lo_frames : frames (io s) `prefix_of` frames (io s');
  lo_ctl : ctl (io s) `prefix_of` ctl (io s') }.

#[global] Instance local_step_refl {X} : Reflexive (local_step (X:=X)).
Proof. by split. Qed.
#[global] Instance local_step_trans {X} : Transitive (local_step (X:=X)).
Proof.
  intros s1 s2 s3 [] []. split; try congruence; try (by etrans). intros fd Hfd. rewrite lo_armed1, lo_armed0; [done|done|congruence].
Qed.

Definition local {X A} (m : stM (MrpState X) A) : Prop := forall s a s', m s = Done (a, s') -> local_step s s'.

Section primitives.
Context {X : Type}.

Lemma local_ret {A} (a : A) : local (X:=X) (st_ret a).
Proof. by intros s ? s' [= _ <-]. Qed.
Lemma local_get : local (X:=X) st_get.
Proof. by intros s ? s' [= _ <-]. Qed.
Lemma local_lift {A} (o : outcome A) : local (X:=X) (st_lift o).
Proof. intros s a s'. unfold st_lift. destruct o; [|done]. by intros [= _ <-]. Qed.
Lemma local_bind {A B} (m : stM (MrpState X) A) (k : A -> stM (MrpState X) B) :
  local m -> (forall a, local (k a)) -> local (st_bind m k).
Proof.
  intros Hm Hk s b s'. unfold st_bind. destruct (m s) as [[a s1]|] eqn:E; [|done]. intros E'. etrans; [by eapply Hm|by eapply Hk].
Qed.
Lemma local_app (f : X -> X) : local (upd_app f).
Proof. by intros s ? s' [= _ <-]. Qed.
Lemma local_mdb (f : mrp_database -> mrp_database) : (forall d, fds (f d) = fds d) -> local (X:=X) (upd_mdb f).
Proof. intros Hf s ? s' [= _ <-]. split; try done. apply Hf. Qed.
Lemma local_ctl m : local (X:=X) (upd_io (add_ctl m)).
Proof. intros s ? s' [= _ <-]. split; try done. by apply prefix_app_r. Qed.
Lemma local_frame f : local (X:=X) (upd_io (add_frame f)).
Proof. intros s ? s' [= _ <-]. split; try done. by apply prefix_app_r. Qed.

Context `{env : MrpEnv}.

Lemma local_draw {A} (f : nat -> A) : local (X:=X) (draw f).
Proof. by intros s ? s' [= _ <-]. Qed.

(** A call on one of the application's own timers, in the state [s]. *)
Lemma settime_local fd spec s a s' :
  fd ∈ fds (mdb s) -> timerfd_settime (X:=X) fd spec s = Done (a, s') -> local_step s s'.
Proof.
  intros Hfd. unfold timerfd_settime, st_bind, draw, upd_io, st_modify, st_ret. cbn -[fds].
  destruct (_ <=? _); [destruct (decide _)|]; intros [= _ <-]; split; try done; cbn -[fds]; intros fd' Hfd'.
  - apply lookup_delete_ne. by intros ->.
  - apply lookup_insert_ne. by intros ->.
Qed.

(** A timer is started, unless it runs already, and marked. *)
Lemma local_start (pick : mrp_database -> Z) (test : mrp_database -> bool) timeout (mark : mrp_database -> mrp_database) :
  (forall d, pick d ∈ fds d) -> (forall d, fds (mark d) = fds d) ->
  local (X:=X) (let! s := st_get in
    let! ret := (if test (mdb s) then st_ret 0 else mrpd_timer_start (pick (mdb s)) timeout) in
    (when 0 <=? ret do upd_mdb mark) ;! st_ret ret).
Proof.
  intros Hp Hm s a s'. unfold st_bind at 1, st_get. set (start := if test (mdb s) then st_ret 0 else mrpd_timer_start (pick (mdb s)) timeout).
  assert (forall ret s1, start s = Done (ret, s1) -> local_step s s1) as Hs.
  { subst start. destruct (test _); [by apply local_ret|]. intros ret s1. apply settime_local, Hp. }
  unfold st_bind at 1. destruct (start s) as [[ret s1]|]; [|done]. intros E. etrans; [by eapply Hs|].
  refine (local_bind _ _ _ _ _ _ _ E); [|intros; apply local_ret]. destruct (_ <=? _); [by apply local_mdb|apply local_ret].
Qed.

Lemma local_stop (pick : mrp_database -> Z) (mark : mrp_database -> mrp_database) :
  (forall d, pick d ∈ fds d) -> (forall d, fds (mark d) = fds d) ->
  local (X:=X) (let! s := st_get in upd_mdb mark ;! mrpd_timer_stop (pick (mdb s))).
Proof.
  intros Hp Hm s a s'. unfold st_bind, st_get, upd_mdb, st_modify. intros E. set (s1 := mkMrp _ _ _) in E.
  unfold mrpd_timer_stop in E. assert (local_step s s1) as H1 by (split; try done; apply Hm). etrans; [exact H1|]. eapply settime_local; [|exact E].
  rewrite (lo_fds _ _ H1). apply Hp.
Qed.

Lemma local_jointimer_start : local (X:=X) mrp_jointimer_start.
Proof. apply (local_start join_timer join_timer_running); [|done]. intros d. unfold fds. set_solver. Qed.
Lemma local_jointimer_stop : local (X:=X) mrp_jointimer_stop.
Proof. apply (local_stop join_timer); [|done]. intros d. unfold fds. set_solver. Qed.
Lemma local_lvtimer_start : local (X:=X) mrp_lvtimer_start.
Proof. apply (local_start lv_timer (fun _ => false)); [|done]. intros d. unfold fds. set_solver. Qed.
Lemma local_lvtimer_stop : local (X:=X) mrp_lvtimer_stop.
Proof. apply (local_stop lv_timer); [|done]. intros d. unfold fds. set_solver. Qed.
Lemma local_lvatimer_start : local (X:=X) mrp_lvatimer_start.
Proof.
  apply local_bind; [apply local_draw|]. intros r. apply (local_start lva_timer lva_timer_running); [|done].
  intros d. unfold fds. set_solver.
Qed.
Lemma local_lvatimer_stop : local (X:=X) mrp_lvatimer_stop.
Proof. apply (local_stop lva_timer); [|done]. intros d. unfold fds. set_solver. Qed.
End primitives.

Create HintDb local_db.
#[export] Hint Resolve local_ret local_get local_lift local_app local_ctl local_frame local_draw : local_db.
#[export] Hint Resolve local_jointimer_start local_jointimer_stop local_lvtimer_start local_lvtimer_stop : local_db.
#[export] Hint Resolve local_lvatimer_start local_lvatimer_stop : local_db.

(** Follow the structure of an operation; [local_loop] applies the lemma of a loop whose
    body is an argument. *)
Ltac local_loop := fail.
Ltac local_step :=
  match goal with
  | |- local (st_bind _ _) => apply local_bind; [|intros ?]
  | |- local (upd_mdb _) => apply local_mdb; done
  | |- local (match ?x with _ => _ end) => destruct x
  | |- local _ => solve [auto with local_db]
  | |- local _ => local_loop; intros
  end.
Ltac solve_local := cbv zeta; repeat (cbv beta; local_step).

Section shared.
Context `{env : MrpEnv} {X : Type}.

Lemma local_mrp_lvatimer_fsm e : local (X:=X) (mrp_lvatimer_fsm e).
Proof. unfold mrp_lvatimer_fsm. solve_local. Qed.
Lemma local_mrp_registrar_fsm a e : local (X:=X) (mrp_registrar_fsm a e).
Proof. unfold mrp_registrar_fsm. solve_local. Qed.
Lemma local_send_ctl_msg c t n : local (X:=X) (mrpd_send_ctl_msg c t n).
Proof. unfold mrpd_send_ctl_msg. solve_local. Qed.
Lemma local_send b : local (X:=X) (mrpd_send b).
Proof. unfold mrpd_send. solve_local. Qed.
#[local] Hint Resolve local_send_ctl_msg : local_db.
Lemma local_send_to_clients cs t : local (X:=X) (send_to_clients cs t).
Proof. induction cs; simpl; solve_local. Qed.
Lemma local_respond c t : local (X:=X) (respond c t).
Proof. unfold respond. solve_local. Qed.
End shared.

#[export] Hint Resolve local_mrp_lvatimer_fsm local_mrp_registrar_fsm local_send_ctl_msg local_send local_send_to_clients local_respond : local_db.

(** ** MVRP *)
Section mvrp.
Context `{env : MrpEnv}.

Lemma local_get_list : local get_list.
Proof. unfold get_list. solve_local. Qed.
#[local] Hint Resolve local_get_list : local_db.
Lemma local_put_list l : local (put_list l).
Proof. unfold put_list. solve_local. Qed.
#[local] Hint Resolve local_put_list : local_db.
Lemma local_map_attribs f l : (forall a, local (f a)) -> local (map_attribs f l).
Proof. intros Hf. induction l; simpl; solve_local. Qed.
#[local] Ltac local_loop ::= apply local_map_attribs.
Lemma local_for_each_attrib f : (forall a, local (f a)) -> local (for_each_attrib f).
Proof. intros Hf. unfold for_each_attrib. solve_local. Qed.
#[local] Ltac local_loop ::= first [apply local_map_attribs | apply local_for_each_attrib].
Lemma local_applicant_fsm e a : local (applicant_fsm e a).
Proof. unfold applicant_fsm. solve_local. Qed.
#[local] Hint Resolve local_applicant_fsm : local_db.
Lemma local_registrar_fsm e a : local (registrar_fsm e a).
Proof. unfold registrar_fsm. solve_local. Qed.
#[local] Hint Resolve local_registrar_fsm : local_db.
Lemma local_mvrp_txpdu : local mvrp_txpdu.
Proof. unfold mvrp_txpdu. solve_local. Qed.
#[local] Hint Resolve local_mvrp_txpdu : local_db.
Lemma local_mvrp_send_notifications a n : local (mvrp_send_notifications a n).
Proof. unfold mvrp_send_notifications. solve_local. Qed.
#[local] Hint Resolve local_mvrp_send_notifications : local_db.
Lemma local_mvrp_conditional_reclaim b a c : local (mvrp_conditional_reclaim b a c).
Proof. unfold mvrp_conditional_reclaim. solve_local. Qed.
#[local] Hint Resolve local_mvrp_conditional_reclaim : local_db.
Lemma local_reclaim_loop b l : local (reclaim_loop b l).
Proof. revert b. induction l; intros; simpl; solve_local. Qed.
#[local] Hint Resolve local_reclaim_loop : local_db.
Lemma local_lvtimer_loop b l : local (lvtimer_loop b l).
Proof. revert b. induction l; intros; simpl; solve_local. Qed.
#[local] Hint Resolve local_lvtimer_loop : local_db.
Lemma local_notify_one a : local (notify_one a).
Proof. unfold notify_one. solve_local. Qed.
#[local] Hint Resolve local_notify_one : local_db.
Lemma local_registrar_part e a : local (registrar_part e a).
Proof. unfold registrar_part. solve_local. Qed.
#[local] Hint Resolve local_registrar_part : local_db.
Lemma local_attribute_event e v : local (attribute_event e v).
Proof. unfold attribute_event. solve_local. Qed.
#[local] Hint Resolve local_attribute_event : local_db.
Lemma local_event_switch e r : local (event_switch e r).
Proof. unfold event_switch. solve_local. Qed.
#[local] Hint Resolve local_event_switch : local_db.
Lemma local_mvrp_event e r : local (mvrp_event e r).
Proof. unfold mvrp_event. solve_local. Qed.
#[local] Hint Resolve local_mvrp_event : local_db.
Lemma local_vect_values es v m : local (vect_values es v m).
Proof. revert v. induction es; intros; simpl; solve_local. Qed.
#[local] Hint Resolve local_vect_values : local_db.
Lemma local_vect_bytes n b e i k v m : local (vect_bytes n b e i k v m).
Proof. revert i k v. induction n; intros; simpl; solve_local. Qed.
#[local] Hint Resolve local_vect_bytes : local_db.
Lemma local_vector_loop n b e p w m : local (vector_loop n b e p w m).
Proof. revert p w. induction n; intros; simpl; solve_local. Qed.
#[local] Hint Resolve local_vector_loop : local_db.
Lemma local_message_loop n b e p k w m : local (message_loop n b e p k w m).
Proof. revert p k w. induction n; intros; simpl; solve_local. Qed.
#[local] Hint Resolve local_message_loop : local_db.
Lemma local_mvrp_recv_msg f : local (mvrp_recv_msg f).
Proof. unfold mvrp_recv_msg. solve_local. Qed.
#[local] Hint Resolve local_mvrp_recv_msg : local_db.
Lemma local_mvrp_dumptable c : local (mvrp_dumptable c).
Proof. unfold mvrp_dumptable. solve_local. Qed.
#[local] Hint Resolve local_mvrp_dumptable : local_db.
Lemma local_mvrp_cmd_vid v e : local (mvrp_cmd_vid v e).
Proof. unfold mvrp_cmd_vid. solve_local. Qed.
#[local] Hint Resolve local_mvrp_cmd_vid : local_db.
Lemma local_vid_command b n c e : local (vid_command b n c e).
Proof. unfold vid_command. solve_local. Qed.
#[local] Hint Resolve local_vid_command : local_db.
Lemma local_recv_cmd_db b n c : local (recv_cmd_db b n c).
Proof. unfold recv_cmd_db. solve_local. Qed.
#[local] Hint Resolve local_recv_cmd_db : local_db.
End mvrp.

#[export] Hint Resolve local_mvrp_event local_mvrp_recv_msg local_recv_cmd_db local_get_list local_reclaim_loop : local_db.

(** ** MMRP *)
Section mmrp.
Context `{env : MrpEnv} `{stk : MmrpStack}.

Lemma local_mm_get_list : local mm_get_list.
Proof. unfold mm_get_list. solve_local. Qed.
#[local] Hint Resolve local_mm_get_list : local_db.
Lemma local_mm_put_list l : local (mm_put_list l).
Proof. unfold mm_put_list. solve_local. Qed.
#[local] Hint Resolve local_mm_put_list : local_db.
Lemma local_mm_map f l : (forall a, local (f a)) -> local (mm_map f l).
Proof. intros Hf. induction l; simpl; solve_local. Qed.
#[local] Ltac local_loop ::= apply local_mm_map.
Lemma local_mm_for_each f : (forall a, local (f a)) -> local (mm_for_each f).
Proof. intros Hf. unfold mm_for_each. solve_local. Qed.
#[local] Ltac local_loop ::= first [apply local_mm_map | apply local_mm_for_each].
Lemma local_mm_applicant_fsm e a : local (mm_applicant_fsm e a).
Proof. unfold mm_applicant_fsm. solve_local. Qed.
#[local] Hint Resolve local_mm_applicant_fsm : local_db.
Lemma local_mm_registrar_fsm e a : local (mm_registrar_fsm e a).
Proof. unfold mm_registrar_fsm. solve_local. Qed.
#[local] Hint Resolve local_mm_registrar_fsm : local_db.
Lemma local_mmrp_txpdu : local mmrp_txpdu.
Proof. unfold mmrp_txpdu. solve_local. Qed.
#[local] Hint Resolve local_mmrp_txpdu : local_db.
Lemma local_mmrp_send_notifications a n : local (mmrp_send_notifications a n).
Proof. unfold mmrp_send_notifications. solve_local. Qed.
#[local] Hint Resolve local_mmrp_send_notifications : local_db.
Lemma local_mm_notify_one a : local (mm_notify_one a).
Proof. unfold mm_notify_one. solve_local. Qed.
#[local] Hint Resolve local_mm_notify_one : local_db.
Lemma local_mm_registrar_part e a : local (mm_registrar_part e a).
Proof. unfold mm_registrar_part. solve_local. Qed.
#[local] Hint Resolve local_mm_registrar_part : local_db.
Lemma local_mm_attribute_event e v : local (mm_attribute_event e v).
Proof. unfold mm_attribute_event. solve_local. Qed.
#[local] Hint Resolve local_mm_attribute_event : local_db.
Lemma local_mm_event_switch e r : local (mm_event_switch e r).
Proof. unfold mm_event_switch. solve_local. Qed.
#[local] Hint Resolve local_mm_event_switch : local_db.
Lemma local_mmrp_event e r : local (mmrp_event e r).
Proof. unfold mmrp_event. solve_local. Qed.
#[local] Hint Resolve local_mmrp_event : local_db.
Lemma local_mm_rx e a : local (mm_rx e a).
Proof. unfold mm_rx. solve_local. Qed.
#[local] Hint Resolve local_mm_rx : local_db.
Lemma local_svc_values es v m : local (svc_values es v m).
Proof. revert v. induction es; intros; simpl; solve_local. Qed.
#[local] Hint Resolve local_svc_values : local_db.
Lemma local_mac_values es v m : local (mac_values es v m).
Proof. revert v. induction es; intros; simpl; solve_local. Qed.
#[local] Hint Resolve local_mac_values : local_db.
Lemma local_mm_bytes {V} (g : list Z -> V -> list Z -> stM MM (option V)) n b e i k v m : (forall es v m, local (g es v m)) -> local (mm_bytes g n b e i k v m).
Proof. intros Hf. revert i k v. induction n; intros; simpl; solve_local. Qed.
#[local] Ltac local_loop ::= first [apply local_mm_map | apply local_mm_for_each | apply local_mm_bytes].
Lemma local_mm_endmark b p : local (mm_endmark b p).
Proof. unfold mm_endmark. solve_local. Qed.
#[local] Hint Resolve local_mm_endmark : local_db.
Lemma local_mm_leaveall v : local (mm_leaveall v).
Proof. unfold mm_leaveall. solve_local. Qed.
#[local] Hint Resolve local_mm_leaveall : local_db.
Lemma local_svc_vectors n b e p w m : local (svc_vectors n b e p w m).
Proof. revert p w. induction n; intros; simpl; solve_local. Qed.
#[local] Hint Resolve local_svc_vectors : local_db.
Lemma local_mac_vectors n b e p m : local (mac_vectors n b e p m).
Proof. revert p. induction n; intros; simpl; solve_local. Qed.
#[local] Hint Resolve local_mac_vectors : local_db.
Lemma local_mm_messages n b e p k w m : local (mm_messages n b e p k w m).
Proof. revert p k w. induction n; intros; simpl; solve_local. Qed.
#[local] Hint Resolve local_mm_messages : local_db.
Lemma local_mmrp_recv_msg f : local (mmrp_recv_msg f).
Proof. unfold mmrp_recv_msg. solve_local. Qed.
#[local] Hint Resolve local_mmrp_recv_msg : local_db.
Lemma local_mmrp_dumptable c : local (mmrp_dumptable c).
Proof. unfold mmrp_dumptable. solve_local. Qed.
#[local] Hint Resolve local_mmrp_dumptable : local_db.
Lemma local_mmrp_cmd_mac m e : local (mmrp_cmd_mac m e).
Proof. unfold mmrp_cmd_mac. solve_local. Qed.
#[local] Hint Resolve local_mmrp_cmd_mac : local_db.
Lemma local_mmrp_cmd_service v e : local (mmrp_cmd_service v e).
Proof. unfold mmrp_cmd_service. solve_local. Qed.
#[local] Hint Resolve local_mmrp_cmd_service : local_db.
Lemma local_mm_command {V} (p : Z * V * list Z) run c : (forall v, local (run v)) -> local (mm_command p run c).
Proof. intros Hf. unfold mm_command. solve_local. Qed.
#[local] Ltac local_loop ::= first [apply local_mm_map | apply local_mm_for_each | apply local_mm_bytes | apply local_mm_command].
Lemma local_mm_recv_cmd_db b n c : local (mm_recv_cmd_db b n c).
Proof. unfold mm_recv_cmd_db. solve_local. Qed.
#[local] Hint Resolve local_mm_recv_cmd_db : local_db.
Lemma local_mm_reclaim_loop b l : local (mm_reclaim_loop b l).
Proof. revert b. induction l; intros; simpl; solve_local. Qed.
#[local] Hint Resolve local_mm_reclaim_loop : local_db.
End mmrp.

#[export] Hint Resolve local_mmrp_event local_mmrp_recv_msg local_mm_recv_cmd_db local_mm_get_list local_mm_reclaim_loop : local_db.

(** ** MSRP *)
Section msrp.
Context `{env : MrpEnv} `{lib : CLib}.

Lemma local_declare_first sz u : local (declare_first sz u).
Proof. unfold declare_first. solve_local. Qed.
#[local] Hint Resolve local_declare_first : local_db.
Lemma local_declare_next sz d u : local (declare_next sz d u).
Proof. unfold declare_next. solve_local. Qed.
#[local] Hint Resolve local_declare_next : local_db.
Lemma local_listen_vectorize ev eof l id sz d v : local (listen_vectorize ev eof l id sz d v).
Proof. revert id sz d v. induction l; intros; simpl; solve_local. Qed.
#[local] Hint Resolve local_listen_vectorize : local_db.
Lemma local_listen_vector p eof a l lva sz b : local (listen_vector p eof a l lva sz b).
Proof. unfold listen_vector. solve_local. Qed.
#[local] Hint Resolve local_listen_vector : local_db.
Lemma local_sr_emit_vector t p eof a l lva sz b : local (sr_emit_vector t p eof a l lva sz b).
Proof. unfold sr_emit_vector. solve_local. Qed.
#[local] Hint Resolve local_sr_emit_vector : local_db.
Lemma local_sr_emit_loop t n l q p eof lva w sz b : local (sr_emit_loop t n l q p eof lva w sz b).
Proof. revert l q p lva w sz b. induction n; intros; simpl; solve_local. Qed.
#[local] Hint Resolve local_sr_emit_loop : local_db.
Lemma local_sr_emit_message t b p eof lva w l : local (sr_emit_message t b p eof lva w l).
Proof. unfold sr_emit_message. solve_local. Qed.
#[local] Hint Resolve local_sr_emit_message : local_db.
Lemma local_msrp_emit_talkervectors b p eof lva w k l : local (msrp_emit_talkervectors b p eof lva w k l).
Proof. unfold msrp_emit_talkervectors. solve_local. Qed.
#[local] Hint Resolve local_msrp_emit_talkervectors : local_db.
Lemma local_msrp_emit_listenvectors b p eof lva w l : local (msrp_emit_listenvectors b p eof lva w l).
Proof. unfold msrp_emit_listenvectors. solve_local. Qed.
#[local] Hint Resolve local_msrp_emit_listenvectors : local_db.
Lemma local_msrp_emit_domainvectors b p eof lva w l : local (msrp_emit_domainvectors b p eof lva w l).
Proof. unfold msrp_emit_domainvectors. solve_local. Qed.
#[local] Hint Resolve local_msrp_emit_domainvectors : local_db.
Lemma local_sr_get_list : local sr_get_list.
Proof. unfold sr_get_list. solve_local. Qed.
#[local] Hint Resolve local_sr_get_list : local_db.
Lemma local_sr_put_list l : local (sr_put_list l).
Proof. unfold sr_put_list. solve_local. Qed.
#[local] Hint Resolve local_sr_put_list : local_db.
Lemma local_sr_put_flag b : local (sr_put_flag b).
Proof. unfold sr_put_flag. solve_local. Qed.
#[local] Hint Resolve local_sr_put_flag : local_db.
Lemma local_sr_put_ids i : local (sr_put_ids i).
Proof. unfold sr_put_ids. solve_local. Qed.
#[local] Hint Resolve local_sr_put_ids : local_db.
Lemma local_sr_map f l : (forall a, local (f a)) -> local (sr_map f l).
Proof. intros Hf. induction l; simpl; solve_local. Qed.
#[local] Ltac local_loop ::= apply local_sr_map.
Lemma local_sr_for_each f : (forall a, local (f a)) -> local (sr_for_each f).
Proof. intros Hf. unfold sr_for_each. solve_local. Qed.
#[local] Ltac local_loop ::= first [apply local_sr_map | apply local_sr_for_each].
Lemma local_sr_applicant_fsm e a : local (sr_applicant_fsm e a).
Proof. unfold sr_applicant_fsm. solve_local. Qed.
#[local] Hint Resolve local_sr_applicant_fsm : local_db.
Lemma local_sr_registrar_fsm e a : local (sr_registrar_fsm e a).
Proof. unfold sr_registrar_fsm. solve_local. Qed.
#[local] Hint Resolve local_sr_registrar_fsm : local_db.
Lemma local_emit_with f : (forall a, local (f a)) -> local (emit_with f).
Proof. intros Hf. unfold emit_with. solve_local. Qed.
#[local] Ltac local_loop ::= first [apply local_sr_map | apply local_sr_for_each | apply local_emit_with].
Lemma local_msrp_txpdu : local msrp_txpdu.
Proof. unfold msrp_txpdu. solve_local. Qed.
#[local] Hint Resolve local_msrp_txpdu : local_db.
Lemma local_msrp_send_notifications a n : local (msrp_send_notifications a n).
Proof. unfold msrp_send_notifications. solve_local. Qed.
#[local] Hint Resolve local_msrp_send_notifications : local_db.
Lemma local_sr_notify_one a : local (sr_notify_one a).
Proof. unfold sr_notify_one. solve_local. Qed.
#[local] Hint Resolve local_sr_notify_one : local_db.
Lemma local_msrp_conditional_reclaim b a c : local (msrp_conditional_reclaim b a c).
Proof. unfold msrp_conditional_reclaim. solve_local. Qed.
#[local] Hint Resolve local_msrp_conditional_reclaim : local_db.
Lemma local_sr_reclaim_loop b l : local (sr_reclaim_loop b l).
Proof. revert b. induction l; intros; simpl; solve_local. Qed.
#[local] Hint Resolve local_sr_reclaim_loop : local_db.
Lemma local_sr_lvtimer_loop b l : local (sr_lvtimer_loop b l).
Proof. revert b. induction l; intros; simpl; solve_local. Qed.
#[local] Hint Resolve local_sr_lvtimer_loop : local_db.
Lemma local_msrp_merge r : local (msrp_merge r).
Proof. unfold msrp_merge. solve_local. Qed.
#[local] Hint Resolve local_msrp_merge : local_db.
Lemma local_sr_registrar_part e a : local (sr_registrar_part e a).
Proof. unfold sr_registrar_part. solve_local. Qed.
#[local] Hint Resolve local_sr_registrar_part : local_db.
Lemma local_sr_attribute_event e v : local (sr_attribute_event e v).
Proof. unfold sr_attribute_event. solve_local. Qed.
#[local] Hint Resolve local_sr_attribute_event : local_db.
Lemma local_sr_attribute_switch e r : local (sr_attribute_switch e r).
Proof. unfold sr_attribute_switch. solve_local. Qed.
#[local] Hint Resolve local_sr_attribute_switch : local_db.
Lemma local_sr_event_switch e r : local (sr_event_switch e r).
Proof. unfold sr_event_switch. solve_local. Qed.
#[local] Hint Resolve local_sr_event_switch : local_db.
Lemma local_msrp_event e r : local (msrp_event e r).
Proof. unfold msrp_event. solve_local. Qed.
#[local] Hint Resolve local_msrp_event : local_db.
Lemma local_rx_dispatch e a : local (rx_dispatch e a).
Proof. unfold rx_dispatch. solve_local. Qed.
#[local] Hint Resolve local_rx_dispatch : local_db.
Lemma local_rx_values {V} (g : Z -> V -> stM SR (option V)) es v : (forall e v, local (g e v)) -> local (rx_values g es v).
Proof. intros Hf. revert v. induction es; intros; simpl; solve_local. Qed.
#[local] Ltac local_loop ::= first [apply local_sr_map | apply local_sr_for_each | apply local_emit_with | apply local_rx_values].
Lemma local_rx_bytes {V} (g : Z -> V -> stM SR (option V)) n b e i k v : (forall e v, local (g e v)) -> local (rx_bytes g n b e i k v).
Proof. intros Hf. revert i k v. induction n; intros; simpl; solve_local. Qed.
#[local] Ltac local_loop ::= first [apply local_sr_map | apply local_sr_for_each | apply local_emit_with | apply local_rx_values | apply local_rx_bytes].
Lemma local_domain_one i m e v : local (domain_one i m e v).
Proof. unfold domain_one. solve_local. Qed.
#[local] Hint Resolve local_domain_one : local_db.
Lemma local_rx_domain b eof e n m : local (rx_domain b eof e n m).
Proof. unfold rx_domain. solve_local. Qed.
#[local] Hint Resolve local_rx_domain : local_db.
Lemma local_talker_one w fv m e v : local (talker_one w fv m e v).
Proof. unfold talker_one. solve_local. Qed.
#[local] Hint Resolve local_talker_one : local_db.
Lemma local_rx_talker w b eof e n m : local (rx_talker w b eof e n m).
Proof. unfold rx_talker. solve_local. Qed.
#[local] Hint Resolve local_rx_talker : local_db.
Lemma local_rx_store sz d x : local (rx_store sz d x).
Proof. unfold rx_store. solve_local. Qed.
#[local] Hint Resolve local_rx_store : local_db.
Lemma local_rx_store_all sz d xs : local (rx_store_all sz d xs).
Proof. revert sz d. induction xs; intros; simpl; solve_local. Qed.
#[local] Hint Resolve local_rx_store_all : local_db.
Lemma local_rx_declared n b e i k sz d : local (rx_declared n b e i k sz d).
Proof. revert i k sz d. induction n; intros; simpl; solve_local. Qed.
#[local] Hint Resolve local_rx_declared : local_db.
Lemma local_listener_one d m e v : local (listener_one d m e v).
Proof. unfold listener_one. solve_local. Qed.
#[local] Hint Resolve local_listener_one : local_db.
Lemma local_rx_listener b eof e n sz m : local (rx_listener b eof e n sz m).
Proof. unfold rx_listener. solve_local. Qed.
#[local] Hint Resolve local_rx_listener : local_db.
Lemma local_rx_vector t b eof e n rx m : local (rx_vector t b eof e n rx m).
Proof. unfold rx_vector. solve_local. Qed.
#[local] Hint Resolve local_rx_vector : local_db.
Lemma local_rx_leaveall t : local (rx_leaveall t).
Proof. unfold rx_leaveall. solve_local. Qed.
#[local] Hint Resolve local_rx_leaveall : local_db.
Lemma local_rx_endmark b p : local (rx_endmark b p).
Proof. unfold rx_endmark. solve_local. Qed.
#[local] Hint Resolve local_rx_endmark : local_db.
Lemma local_rx_vectors t n b eof p rx m : local (rx_vectors t n b eof p rx m).
Proof. revert p rx. induction n; intros; simpl; solve_local. Qed.
#[local] Hint Resolve local_rx_vectors : local_db.
Lemma local_rx_message t b eof p n rx m : local (rx_message t b eof p n rx m).
Proof. unfold rx_message. solve_local. Qed.
#[local] Hint Resolve local_rx_message : local_db.
Lemma local_rx_messages n b eof p k rx m : local (rx_messages n b eof p k rx m).
Proof. revert p k rx. induction n; intros; simpl; solve_local. Qed.
#[local] Hint Resolve local_rx_messages : local_db.
Lemma local_msrp_recv_msg f : local (msrp_recv_msg f).
Proof. unfold msrp_recv_msg. solve_local. Qed.
#[local] Hint Resolve local_msrp_recv_msg : local_db.
Lemma local_declare_event e f : local (declare_event e f).
Proof. unfold declare_event. solve_local. Qed.
#[local] Hint Resolve local_declare_event : local_db.
Lemma local_msrp_cmd_join_or_new_stream t w e : local (msrp_cmd_join_or_new_stream t w e).
Proof. unfold msrp_cmd_join_or_new_stream. solve_local. Qed.
#[local] Hint Resolve local_msrp_cmd_join_or_new_stream : local_db.
Lemma local_msrp_cmd_leave_stream t : local (msrp_cmd_leave_stream t).
Proof. unfold msrp_cmd_leave_stream. solve_local. Qed.
#[local] Hint Resolve local_msrp_cmd_leave_stream : local_db.
Lemma local_msrp_cmd_report_listener_status t u : local (msrp_cmd_report_listener_status t u).
Proof. unfold msrp_cmd_report_listener_status. solve_local. Qed.
#[local] Hint Resolve local_msrp_cmd_report_listener_status : local_db.
Lemma local_msrp_cmd_withdraw_listener_status t : local (msrp_cmd_withdraw_listener_status t).
Proof. unfold msrp_cmd_withdraw_listener_status. solve_local. Qed.
#[local] Hint Resolve local_msrp_cmd_withdraw_listener_status : local_db.
Lemma local_msrp_cmd_report_domain_status d w : local (msrp_cmd_report_domain_status d w).
Proof. unfold msrp_cmd_report_domain_status. solve_local. Qed.
#[local] Hint Resolve local_msrp_cmd_report_domain_status : local_db.
Lemma local_drop_talkers i : local (drop_talkers i).
Proof. unfold drop_talkers. solve_local. Qed.
#[local] Hint Resolve local_drop_talkers : local_db.
Lemma local_msrp_dumptable c : local (msrp_dumptable c).
Proof. unfold msrp_dumptable. solve_local. Qed.
#[local] Hint Resolve local_msrp_dumptable : local_db.
Lemma local_sr_respond c t : local (sr_respond c t).
Proof. unfold sr_respond. solve_local. Qed.
#[local] Hint Resolve local_sr_respond : local_db.
Lemma local_reply_ERP c t : local (reply_ERP c t).
Proof. unfold reply_ERP. solve_local. Qed.
#[local] Hint Resolve local_reply_ERP : local_db.
Lemma local_reply_ERI c t : local (reply_ERI c t).
Proof. unfold reply_ERI. solve_local. Qed.
#[local] Hint Resolve local_reply_ERI : local_db.
Lemma local_sr_command {V} (p : Z * V * list Z) run c : (forall v, local (run v)) -> local (sr_command p run c).
Proof. intros Hf. unfold sr_command. solve_local. Qed.
#[local] Ltac local_loop ::= first [apply local_sr_map | apply local_sr_for_each | apply local_emit_with | apply local_rx_values | apply local_rx_bytes | apply local_sr_command].
Lemma local_withdraw_listener t : local (withdraw_listener t).
Proof. unfold withdraw_listener. solve_local. Qed.
#[local] Hint Resolve local_withdraw_listener : local_db.
Lemma local_stream_command b n c : local (stream_command b n c).
Proof. unfold stream_command. solve_local. Qed.
#[local] Hint Resolve local_stream_command : local_db.
Lemma local_add_interesting i : local (add_interesting i).
Proof. unfold add_interesting. solve_local. Qed.
#[local] Hint Resolve local_add_interesting : local_db.
Lemma local_remove_interesting i : local (remove_interesting i).
Proof. unfold remove_interesting. solve_local. Qed.
#[local] Hint Resolve local_remove_interesting : local_db.
Lemma local_interest_command b n run c : (forall v, local (run v)) -> local (interest_command b n run c).
Proof. intros Hf. unfold interest_command. solve_local. Qed.
#[local] Ltac local_loop ::= first [apply local_sr_map | apply local_sr_for_each | apply local_emit_with | apply local_rx_values | apply local_rx_bytes | apply local_sr_command | apply local_interest_command].
Lemma local_sr_dispatch b n c : local (sr_dispatch b n c).
Proof. unfold sr_dispatch. solve_local. Qed.
#[local] Hint Resolve local_sr_dispatch : local_db.
Lemma local_sr_recv_cmd_db b n c : local (sr_recv_cmd_db b n c).
Proof. unfold sr_recv_cmd_db. solve_local. Qed.
#[local] Hint Resolve local_sr_recv_cmd_db : local_db.
End msrp.

#[export] Hint Resolve local_msrp_event local_msrp_recv_msg local_sr_recv_cmd_db local_sr_get_list local_sr_reclaim_loop : local_db.
