(* ===== verification/Mrpd.v ===== *)
(** * Mrpd: the daemon around the three applications

    Model of the part of [daemons/mrpd/mrpd.c] that puts MMRP, MVRP and MSRP together:
    the dispatch of client commands, the shared timers, garbage collection, start-up and
    the loop of [process_events].  The three databases are globals of their own; the
    sockets and timers are shared. *)
From stdpp Require Import base gmap list strings numbers.
From S2P Require Import Prelude Text Parse Mrp Mvrp Mmrp Eui64set Msrp.
From S2P Require Import MsrpEmit MsrpDaemon MsrpRx MsrpCmd.
#[local] Open Scope Z_scope.
#[local] Open Scope st_scope.

(** The globals [MMRP_db], [MVRP_db], [MSRP_db] (NULL being [None]), [gc_timer] and
    [mrp_periodic_state]; [Io] has the others. *)
Record Mrpd := mkMrpd {
  MMRP_db : option (mrp_database * mmrp_database);
  MVRP_db : option (mrp_database * mvrp_database);
  MSRP_db : option (mrp_database * msrp_database);
  d_io : Io;
  gc_timer : Z;
  mrp_periodic_state : mrp_timer_state }.

(** What an application sees of the daemon, and what it leaves. *)
Definition part {X} (db : option (mrp_database * X)) (i : Io) : Io + MrpState X :=
  match db with None => inl i | Some (d, x) => inr (mkMrp d x i) end.
Definition part_db {X} (g : Io + MrpState X) : option (mrp_database * X) :=
  match g with inl _ => None | inr s => Some (mdb s, app s) end.
Definition part_io {X} (g : Io + MrpState X) : Io := match g with inl i => i | inr s => io s end.

Definition on_mmrp {A} (m : stM MmrpGlobal A) : stM Mrpd A := fun w =>
  match m (part (MMRP_db w) (d_io w)) with
  | Done (a, g) => Done (a, mkMrpd (part_db g) (MVRP_db w) (MSRP_db w) (part_io g) (gc_timer w) (mrp_periodic_state w))
  | Fault f => Fault f
  end.
Definition on_mvrp {A} (m : stM MvrpGlobal A) : stM Mrpd A := fun w =>
  match m (part (MVRP_db w) (d_io w)) with
  | Done (a, g) => Done (a, mkMrpd (MMRP_db w) (part_db g) (MSRP_db w) (part_io g) (gc_timer w) (mrp_periodic_state w))
  | Fault f => Fault f
  end.
Definition on_msrp {A} (m : stM MsrpGlobal A) : stM Mrpd A := fun w =>
  match m (part (MSRP_db w) (d_io w)) with
  | Done (a, g) => Done (a, mkMrpd (MMRP_db w) (MVRP_db w) (part_db g) (part_io g) (gc_timer w) (mrp_periodic_state w))
  | Fault f => Fault f
  end.

(** An operation on the shared sockets and timers, which has no database. *)
Definition no_database : mrp_database := mkMrpDb (mkLva MRP_TIMER_PASSIVE false MRP_SND_NONE) (-1) false (-1) false (-1) false [].
Definition on_io {A} (m : stM (MrpState unit) A) : stM Mrpd A := fun w =>
  match m (mkMrp no_database tt (d_io w)) with
  | Done (a, s) => Done (a, mkMrpd (MMRP_db w) (MVRP_db w) (MSRP_db w) (io s) (gc_timer w) (mrp_periodic_state w))
  | Fault f => Fault f
  end.

Section Mrpd.
Context `{MrpEnv} `{MmrpStack} `{CLib}.

Definition gctimer_start : stM Mrpd Z := let! w := st_get in on_io (mrpd_timer_start (gc_timer w) (30 * 1000)).

(** The state machine of the shared periodic timer, on [&mrp_periodic_state]. *)
Definition periodic_fsm (event : mrp_event) : stM Mrpd Z :=
  let! w := st_get in
  let! r := on_io (mrp_periodictimer_fsm (Some (mrp_periodic_state w)) event) in
  let '(rc, state) := r in
  st_modify (fun w => mkMrpd (MMRP_db w) (MVRP_db w) (MSRP_db w) (d_io w) (gc_timer w) (default (mrp_periodic_state w) state)) ;!
  st_ret rc.

(** ** Clients *)

(** [buf] is the whole buffer of the command, [buflen] the bytes received. *)
Definition process_ctl_msg (buf : list Z) (buflen : Z) (client : sockaddr_in) : stM Mrpd Z :=
  if buflen <? 3 then st_ret (-1)
  else
    let! c := st_lift (peek buf 0) in
    if c =? 77 then on_mmrp (mmrp_recv_cmd buf buflen client)
    else if c =? 86 then on_mvrp (mvrp_recv_cmd buf buflen client)
    else if (c =? 83) || (c =? 73) then on_msrp (msrp_recv_cmd buf buflen client)
    else if c =? 66 then
      on_mmrp (mmrp_bye client) ;! on_mvrp (mvrp_bye client) ;! on_msrp (msrp_bye client) ;! st_ret 0
    else
      on_io (mrpd_send_ctl_msg client (snprintf (8 - 1) ("ERC MRP parse " +:+ string_of_bytes (c_string buf))) 8) ;!
      st_ret (-1).

(** [msgbuf] after [recvmsg]. *)
Definition ctl_buf (data : list Z) : list Z := resize (Z.to_nat MAX_MRPD_CMDSZ) 0 data.

(** [datagram] is what [recvmsg] delivers; [None] when it fails. *)
Definition recv_ctl_msg (datagram : option (list Z * sockaddr_in)) : stM Mrpd Z :=
  let! mem := on_io (draw mrp_malloc) in
  if negb mem then st_ret (-1)
  else
    match datagram with
    | Some (data, client) =>
        let bytes := Z.min (Z.of_nat (length data)) MAX_MRPD_CMDSZ in
        (if bytes <=? 0 then st_ret 0 else process_ctl_msg (ctl_buf data) bytes client) ;! st_ret (-1)
    | None => st_ret (-1)
    end.

(** ** Garbage collection *)
Definition mrpd_reclaim : stM Mrpd Z :=
  on_mmrp mmrp_reclaim ;! on_mvrp mvrp_reclaim ;! on_msrp msrp_reclaim ;! gctimer_start ;! st_ret 0.

(** ** The loop *)

(** The descriptors of an application that [select] reports: its socket, with what
    [recvmsg] then delivers, and its timers. *)
Record app_ready := mkAppReady { r_frame : option (option (list Z)); r_lva : bool; r_lv : bool; r_join : bool }.

Record ready := mkReady {
  r_control : option (option (list Z * sockaddr_in));
  r_mmrp : app_ready;
  r_mvrp : app_ready;
  r_msrp : app_ready;
  r_periodic : bool;
  r_gc : bool }.

(** One thing the loop does. *)
Inductive work :=
  | w_control (datagram : option (list Z * sockaddr_in))
  | w_mmrp_frame (f : option (list Z)) | w_mvrp_frame (f : option (list Z)) | w_msrp_frame (f : option (list Z))
  | w_mmrp (e : mrp_event) | w_mvrp (e : mrp_event) | w_msrp (e : mrp_event)
  | w_periodic
  | w_gc.

(** A timer of the kernel that has gone off is no longer armed. *)
Definition expire (fd : Z) : stM Mrpd unit := on_io (upd_io (set_armed (delete fd))).

Definition work_step (k : work) : stM Mrpd unit :=
  match k with
  | w_control d => recv_ctl_msg d ;! st_ret tt
  | w_mmrp_frame f => on_mmrp (with_db (st_ret 0) (mmrp_recv_msg f)) ;! st_ret tt
  | w_mvrp_frame f => on_mvrp (with_db (st_ret 0) (mvrp_recv_msg f)) ;! st_ret tt
  | w_msrp_frame f => on_msrp (with_db (st_ret 0) (msrp_recv_msg f)) ;! st_ret tt
  | w_mmrp e => on_mmrp (with_db (st_ret 0) (mmrp_event e None)) ;! st_ret tt
  | w_mvrp e => on_mvrp (with_db (st_ret 0) (mvrp_event e None)) ;! st_ret tt
  | w_msrp e => on_msrp (with_db (st_ret 0) (msrp_event e None)) ;! st_ret tt
  | w_periodic => periodic_fsm MRP_EVENT_PERIODIC ;! st_ret tt
  | w_gc => (let! w := st_get in expire (gc_timer w)) ;! mrpd_reclaim ;! st_ret tt
  end.

(** What one round of the loop does, in its order; the [mmrp_enable] of the code is that
    the database is there, which is tested by [with_db]. *)
Definition app_work (frame : option (list Z) -> work) (event : mrp_event -> work) (r : app_ready) : list work :=
  match r_frame r with Some f => [frame f] | None => [] end ++
  (if r_lva r then [event MRP_EVENT_LVATIMER] else []) ++
  (if r_lv r then [event MRP_EVENT_LVTIMER] else []) ++
  (if r_join r then [event MRP_EVENT_TX] else []).

Definition ready_work (r : ready) : list work :=
  match r_control r with Some d => [w_control d] | None => [] end ++
  app_work w_mmrp_frame w_mmrp (r_mmrp r) ++
  app_work w_mvrp_frame w_mvrp (r_mvrp r) ++
  app_work w_msrp_frame w_msrp (r_msrp r) ++
  (if r_periodic r then [w_periodic; w_mmrp MRP_EVENT_PERIODIC; w_mvrp MRP_EVENT_PERIODIC; w_msrp MRP_EVENT_PERIODIC] else []) ++
  (if r_gc r then [w_gc] else []).

Fixpoint run_work (ks : list work) : stM Mrpd unit :=
  match ks with
  | [] => st_ret tt
  | k :: ks' => work_step k ;! run_work ks'
  end.

(** One round, for the descriptors [select] reports. *)
Definition process_round (r : ready) : stM Mrpd unit := run_work (ready_work r).

(** ** Start-up *)
Definition MSRP_INTERESTING_STREAM_ID_COUNT : Z := 8.

(** What the system answers to the calls of an application's initialisation. *)
Record init_answers := mkInit { i_socket : Z; i_mem : bool; i_join : Z; i_lv : Z; i_lva : Z }.

Definition init_timers (periodic gc : Z) : stM Mrpd Z :=
  st_modify (fun w => mkMrpd (MMRP_db w) (MVRP_db w) (MSRP_db w)
    (mkIo (armed (d_io w)) (frames (d_io w)) (ctl (d_io w)) (control_socket (d_io w)) (p2pmac (d_io w)) periodic
       (STATION_ADDR (d_io w)) (clk (d_io w))) gc (mrp_periodic_state w)) ;!
  if (periodic =? -1) || (gc =? -1) then st_ret (-1) else gctimer_start ;! st_ret 0.

(** [main] from [mrp_init] on, up to the loop.  Any failure ends the daemon: the result is
    not 0.  The station's address and the control socket are in place. *)
Definition mrpd_start (mmrp_enable mvrp_enable msrp_enable msrp_pruning ids_mem : bool)
    (mm mv ms : init_answers) (periodic gc : Z) : stM Mrpd Z :=
  let stop rc (k : stM Mrpd Z) := if negb (rc =? 0) then st_ret rc else k in
  let! rc := on_io mrp_init in stop rc (
  let! rc := on_mmrp (mmrp_init mmrp_enable (i_socket mm) (i_mem mm) (i_join mm) (i_lv mm) (i_lva mm)) in stop rc (
  let! rc := on_mvrp (mvrp_init mvrp_enable (i_socket mv) (i_mem mv) (i_join mv) (i_lv mv) (i_lva mv)) in stop rc (
  let! rc := on_msrp (msrp_init msrp_enable MSRP_INTERESTING_STREAM_ID_COUNT msrp_pruning (i_socket ms) (i_mem ms) ids_mem (i_join ms) (i_lv ms) (i_lva ms)) in
  stop rc (
  let! rc := init_timers periodic gc in stop rc (
  periodic_fsm MRP_EVENT_BEGIN))))).

End Mrpd.
