(* ===== verification/MrpdInv.v ===== *)
(** * MrpdInv: the three applications of the daemon together

    The applications do not disturb each other: each keeps its invariant whatever the
    others do with the shared sockets and timers.  So every piece of work of the loop of
    [process_events] keeps the daemon's invariant, and the daemon's own two timers are
    armed after it. *)
From stdpp Require Import base gmap list strings numbers sorting.
From S2P Require Import Prelude Text Parse Mrp MrpProps Mvrp MvrpWire Mmrp.
From S2P Require Import MrpWorld MvrpInv MvrpEvent MvrpTable MvrpRecv MvrpProps.
From S2P Require Import MmrpInv MmrpWire MmrpEvent MmrpRecv MmrpProps Eui64set.
From S2P Require Import Msrp MsrpEmit MsrpDaemon MsrpRx MsrpCmd MsrpInv MsrpTable MsrpEvent.
From S2P Require Import MsrpRecv MsrpClient MsrpProps MrpLocal Mrpd.
#[local] Open Scope Z_scope.
#[local] Open Scope st_scope.

(** ** What an application does to what is shared *)
Definition app_fds {X} (db : option (mrp_database * X)) : list Z := match db with Some (d, _) => fds d | None => [] end.

(** Only the timers [l] changed, and messages were sent. *)
Record shared_step (l : list Z) (i i' : Io) : Prop := mkSharedStep {
  sh_armed fd : fd ∉ l -> armed i' !! fd = armed i !! fd;
  sh_station : STATION_ADDR i' = STATION_ADDR i;
  sh_periodic : periodic_timer i' = periodic_timer i;
  sh_p2pmac : p2pmac i' = p2pmac i;
  sh_socket : control_socket i' = control_socket i }.

Lemma shared_refl l i : shared_step l i i.
Proof. by split. Qed.
Lemma shared_trans l i1 i2 i3 : shared_step l i1 i2 -> shared_step l i2 i3 -> shared_step l i1 i3.
Proof. intros [] []. split; try congruence. intros fd Hfd. rewrite sh_armed1, sh_armed0; done. Qed.
Lemma shared_local {X} (s s' : MrpState X) : local_step s s' -> shared_step (fds (mdb s)) (io s) (io s').
Proof. by intros []. Qed.

(** An operation on an application's global that keeps to its own timers. *)
Definition app_local {X A} (m : stM (Io + MrpState X) A) : Prop := forall g a g', m g = Done (a, g') ->
  app_fds (part_db g') = app_fds (part_db g) /\ shared_step (app_fds (part_db g)) (part_io g) (part_io g').

Lemma app_local_ret {X A} (a : A) : app_local (X:=X) (st_ret a).
Proof. intros g ? g' [= _ <-]. split; [done|apply shared_refl]. Qed.

Lemma app_local_bind {X A B} (m : stM (Io + MrpState X) A) (k : A -> stM (Io + MrpState X) B) :
  app_local m -> (forall a, app_local (k a)) -> app_local (st_bind m k).
Proof.
  intros Hm Hk g b g'. unfold st_bind. destruct (m g) as [[a g1]|] eqn:E; [|done]. intros E'.
  destruct (Hm _ _ _ E) as [H1 H2]. destruct (Hk a _ _ _ E') as [H3 H4]. rewrite H1 in H3, H4.
  split; [done|by eapply shared_trans].
Qed.

Lemma app_local_db {X A} (null : stM Io A) (m : stM (MrpState X) A) :
  (forall i a i', null i = Done (a, i') -> shared_step [] i i') -> local m -> app_local (with_db null m).
Proof.
  intros Hn Hm g a g'. unfold with_db. destruct g as [i|s].
  - destruct (null i) as [[x i']|] eqn:E; [|done]. intros [= _ <-]. split; [done|by eapply Hn].
  - destruct (m s) as [[x s']|] eqn:E; [|done]. intros [= _ <-]. pose proof (Hm _ _ _ E) as H. split; [apply H|by apply shared_local].
Qed.

Lemma null_ret {A} (a : A) i b i' : st_ret a i = Done (b, i') -> shared_step [] i i'.
Proof. intros [= _ <-]. apply shared_refl. Qed.

Lemma nodup_apart (a b c d : list Z) : NoDup (a ++ b ++ c ++ d) ->
  (forall x, x ∈ b -> x ∉ a) /\ (forall x, x ∈ b -> x ∉ c).
Proof.
  intros H. apply NoDup_app in H as (_ & H1 & H). apply NoDup_app in H as (_ & H2 & _).
  split; intros x Hx Hy; [apply (H1 x Hy)|apply (H2 x Hx)]; set_solver.
Qed.

Section locality.
Context `{env : MrpEnv} `{stk : MmrpStack} `{lib : CLib}.

Ltac null_reply := let i := fresh in intros i ? ?; unfold null_respond, sr_null_respond, st_bind, st_modify, st_ret;
  destruct (_ =? _); intros [= _ <-]; by split.

Lemma app_local_mmrp_recv_cmd b n c : app_local (mmrp_recv_cmd b n c).
Proof. apply app_local_db; [null_reply|auto with local_db]. Qed.
Lemma app_local_mvrp_recv_cmd b n c : app_local (mvrp_recv_cmd b n c).
Proof. apply app_local_db; [null_reply|auto with local_db]. Qed.
Lemma app_local_msrp_recv_cmd b n c : app_local (msrp_recv_cmd b n c).
Proof. apply app_local_db; [null_reply|auto with local_db]. Qed.

Lemma app_local_deliver {X} (m : stM (MrpState X) Z) : local m -> app_local (with_db (st_ret 0) m).
Proof. apply app_local_db, null_ret. Qed.

Lemma app_local_bye {X} (f : mrp_database -> mrp_database) :
  (forall d, fds (f d) = fds d) -> app_local (X:=X) (with_db (st_ret tt) (upd_mdb f)).
Proof. intros Hf. apply app_local_db; [apply null_ret|by apply local_mdb]. Qed.

End locality.

(** ** The invariants survive what the others do *)
Lemma mm_world db i i' : mm_global_inv (part db i) -> STATION_ADDR i' = STATION_ADDR i -> mm_global_inv (part db i').
Proof. destruct db as [[d x]|]; [|done]. intros [] Hs. split; try done. cbn in *. congruence. Qed.
Lemma mm_shared db i i' l : mm_global_inv (part db i) -> shared_step l i i' -> mm_global_inv (part db i').
Proof. intros H Hs. by eapply mm_world, sh_station. Qed.

Lemma sr_world db i i' : sr_global_inv (part db i) -> STATION_ADDR i' = STATION_ADDR i -> sr_global_inv (part db i').
Proof. destruct db as [[d x]|]; [|done]. intros [] Hs. split; try done. cbn in *. congruence. Qed.
Lemma sr_shared db i i' l : sr_global_inv (part db i) -> shared_step l i i' -> sr_global_inv (part db i').
Proof. intros H Hs. by eapply sr_world, sh_station. Qed.

(** MVRP's invariant speaks of its timers, which must be as they were. *)
Lemma mv_world db i i' : global_inv (part db i) -> STATION_ADDR i' = STATION_ADDR i ->
  (forall fd, fd ∈ app_fds db -> armed i' !! fd = armed i !! fd) -> global_inv (part db i').
Proof.
  destruct db as [[d x]|]; [|done]. intros [] Hs Ha. cbn in Ha. split; try done.
  - destruct mi_timers. split; cbn in *; try done; rewrite Ha; try done; unfold fds; set_solver.
  - destruct mi_station. split; cbn in *; congruence.
Qed.
Lemma mv_shared db i i' l :
  global_inv (part db i) -> shared_step l i i' -> (forall fd, fd ∈ app_fds db -> fd ∉ l) -> global_inv (part db i').
Proof. intros H Hs Hl. eapply mv_world; [done|apply Hs|]. intros fd Hf. by apply Hs, Hl. Qed.

(** ** The daemon's invariant *)
Definition mrpd_fds (w : Mrpd) : list Z :=
  app_fds (MMRP_db w) ++ app_fds (MVRP_db w) ++ app_fds (MSRP_db w) ++ [periodic_timer (d_io w); gc_timer w].

Record mrpd_inv (w : Mrpd) : Prop := mkMrpdInv {
  di_mmrp : mm_global_inv (part (MMRP_db w) (d_io w));
  di_mvrp : global_inv (part (MVRP_db w) (d_io w));
  di_msrp : sr_global_inv (part (MSRP_db w) (d_io w));
  di_fds : NoDup (mrpd_fds w) }.

(** The daemon's own timers. *)
Definition clocks (w : Mrpd) : option itimerspec * option itimerspec :=
  (armed (d_io w) !! periodic_timer (d_io w), armed (d_io w) !! gc_timer w).

(** The invariant is kept, and the daemon's own timers are as before. *)
Record steady (w w' : Mrpd) : Prop := mkSteady {
  st_inv : mrpd_inv w';
  st_fds : mrpd_fds w' = mrpd_fds w;
  st_gc : gc_timer w' = gc_timer w;
  st_periodic : mrp_periodic_state w' = mrp_periodic_state w;
  st_clocks : clocks w' = clocks w }.

Lemma steady_refl w : mrpd_inv w -> steady w w.
Proof. by split. Qed.
Lemma steady_trans w1 w2 w3 : steady w1 w2 -> steady w2 w3 -> steady w1 w3.
Proof. intros [] []. split; congruence. Qed.

Lemma clocks_shared w w' l :
  NoDup (mrpd_fds w) -> l ⊆ app_fds (MMRP_db w) ++ app_fds (MVRP_db w) ++ app_fds (MSRP_db w) ->
  shared_step l (d_io w) (d_io w') -> gc_timer w' = gc_timer w -> clocks w' = clocks w.
Proof.
  intros Hn Hl [] Hg. unfold clocks. rewrite sh_periodic0, Hg. unfold mrpd_fds in Hn.
  rewrite !app_assoc in Hn. apply NoDup_app in Hn as (_ & Hn & _). rewrite <- !app_assoc in Hn.
  rewrite !sh_armed0; [done|..]; intros H%Hl%Hn; apply H; set_solver.
Qed.

(** Running an application's operation on its part of the daemon. *)
Lemma run_part {X A} (m : stM (Io + MrpState X) A) (P : Io + MrpState X -> Prop) db i :
  app_local m -> wp m (fun _ => P) (part db i) ->
  exists a g, m (part db i) = Done (a, g) /\ P (part (part_db g) (part_io g)) /\ app_fds (part_db g) = app_fds db /\
    shared_step (app_fds db) i (part_io g).
Proof.
  intros Hm Hw. apply wp_done in Hw as (a & g & E & Hg). destruct (Hm _ _ _ E) as [H1 H2]. exists a, g. split; [done|].
  assert (part (part_db g) (part_io g) = g) as -> by (by destruct g as [|[]]). split; [done|]. by destruct db as [[??]|].
Qed.

(** Its part changed as it may, and the other two kept what they need. *)
Lemma steady_part w w' l :
  mrpd_inv w -> shared_step l (d_io w) (d_io w') -> gc_timer w' = gc_timer w -> mrp_periodic_state w' = mrp_periodic_state w ->
  mrpd_fds w' = mrpd_fds w ->
  l ⊆ app_fds (MMRP_db w) ++ app_fds (MVRP_db w) ++ app_fds (MSRP_db w) ->
  mm_global_inv (part (MMRP_db w') (d_io w')) -> global_inv (part (MVRP_db w') (d_io w')) ->
  sr_global_inv (part (MSRP_db w') (d_io w')) -> steady w w'.
Proof.
  intros [_ _ _ Hn] Hs Hg Hp Hf Hl H1 H2 H3. split; [split|done|done|done|]; [done..|by rewrite Hf|]. by eapply clocks_shared.
Qed.

Lemma on_mmrp_spec {A} (m : stM MmrpGlobal A) w :
  mrpd_inv w -> app_local m -> wp m (fun _ => mm_global_inv) (part (MMRP_db w) (d_io w)) -> wp (on_mmrp m) (fun _ => steady w) w.
Proof.
  intros Hinv Hm Hw. destruct (run_part m mm_global_inv _ _ Hm Hw) as (a & g & E & H1 & H2 & H3). unfold wp, on_mmrp. rewrite E.
  destruct (Hinv) as [_ Hv Hr Hn]. destruct (nodup_apart _ _ _ _ Hn) as [Hx _].
  eapply steady_part; [done|exact H3|done|done| |set_solver|done|by eapply mv_shared|by eapply sr_shared].
  unfold mrpd_fds. cbn. by rewrite H2, (sh_periodic _ _ _ H3).
Qed.

Lemma on_mvrp_spec {A} (m : stM MvrpGlobal A) w :
  mrpd_inv w -> app_local m -> wp m (fun _ => global_inv) (part (MVRP_db w) (d_io w)) -> wp (on_mvrp m) (fun _ => steady w) w.
Proof.
  intros Hinv Hm Hw. destruct (run_part m global_inv _ _ Hm Hw) as (a & g & E & H1 & H2 & H3). unfold wp, on_mvrp. rewrite E.
  destruct (Hinv) as [Hv _ Hr Hn].
  eapply steady_part; [done|exact H3|done|done| |set_solver|by eapply mm_shared|done|by eapply sr_shared].
  unfold mrpd_fds. cbn. by rewrite H2, (sh_periodic _ _ _ H3).
Qed.

Lemma on_msrp_spec {A} (m : stM MsrpGlobal A) w :
  mrpd_inv w -> app_local m -> wp m (fun _ => sr_global_inv) (part (MSRP_db w) (d_io w)) -> wp (on_msrp m) (fun _ => steady w) w.
Proof.
  intros Hinv Hm Hw. destruct (run_part m sr_global_inv _ _ Hm Hw) as (a & g & E & H1 & H2 & H3). unfold wp, on_msrp. rewrite E.
  destruct (Hinv) as [Hr Hv _ Hn]. destruct (nodup_apart _ _ _ _ Hn) as [_ Hy].
  eapply steady_part; [done|exact H3|done|done| |set_solver|by eapply mm_shared|by eapply mv_shared|done].
  unfold mrpd_fds. cbn. by rewrite H2, (sh_periodic _ _ _ H3).
Qed.

(** An operation on the shared sockets that leaves the timers alone. *)
Lemma on_io_spec {A} (m : stM (MrpState unit) A) w :
  mrpd_inv w -> (forall s, wp m (fun _ s' => shared_step [] (io s) (io s')) s) -> wp (on_io m) (fun _ => steady w) w.
Proof.
  intros Hinv Hm. unfold wp, on_io. specialize (Hm (mkMrp no_database tt (d_io w))). apply wp_done in Hm as (a & s' & -> & Hs).
  destruct (Hinv) as [H1 H2 H3 Hn]. cbn in Hs.
  eapply steady_part; [done|exact Hs|done|done| |set_solver|by eapply mm_shared|eapply mv_shared; [done|exact Hs|]|by eapply sr_shared].
  - unfold mrpd_fds. cbn. by rewrite (sh_periodic _ _ _ Hs).
  - intros fd _. apply not_elem_of_nil.
Qed.

Section daemon.
Context `{env : MrpEnv} `{stk : MmrpStack} `{lib : CLib} `{laws : !CLibLaws lib}.
Hypothesis Hok : timers_ok env.
Hypothesis Hrand : forall n, 0 <= mrp_random n.

(** ** Work *)

(** The table an application is asked to send fits the reply. *)
Definition dump_fits (buf : list Z) (w : Mrpd) : Prop :=
  match buf !! 0%nat with
  | Some c =>
      if c =? 77 then mm_input_ok (mm_ctl buf 0 (mkAddr 0 0 0)) (part (MMRP_db w) (d_io w))
      else if c =? 86 then ~ oversized_dump (on_command buf 0 (mkAddr 0 0 0)) (part (MVRP_db w) (d_io w))
      else sr_input_ok (sr_ctl buf 0 (mkAddr 0 0 0)) (part (MSRP_db w) (d_io w))
  | None => True
  end.

(** The work the buffers are made for. *)
Definition work_ok (k : work) (w : Mrpd) : Prop :=
  match k with
  | w_control (Some (data, _)) => dump_fits (ctl_buf data) w
  | w_mmrp_frame f => mm_input_ok (mm_frame f) (part (MMRP_db w) (d_io w))
  | w_mvrp_frame f => input_ok (on_frame f)
  | w_msrp_frame f => sr_input_ok (sr_frame f) (part (MSRP_db w) (d_io w))
  | w_mmrp MRP_EVENT_LVATIMER => mm_input_ok mm_lva_timer (part (MMRP_db w) (d_io w))
  | w_msrp MRP_EVENT_LVATIMER | w_msrp MRP_EVENT_TX => sr_input_ok sr_lva_timer (part (MSRP_db w) (d_io w))
  | _ => True
  end.

(** ... at each step of a round. *)
Fixpoint run_ok (ks : list work) (w : Mrpd) : Prop :=
  match ks with
  | [] => True
  | k :: ks' => work_ok k w /\ forall w', work_step k w = Done (tt, w') -> run_ok ks' w'
  end.

Lemma on_mmrp_event e w : mrpd_inv w -> work_ok (w_mmrp e) w -> wp (on_mmrp (with_db (st_ret 0) (mmrp_event e None))) (fun _ => steady w) w.
Proof.
  intros Hinv Hk. apply on_mmrp_spec; [done|apply app_local_deliver; auto with local_db|].
  apply mm_with_db_spec; [apply Hinv|by eauto|]. intros s Es Hs.
  eapply wp_mono; [apply mmrp_event_spec; [done|done| |done]|]; [|by intros ? s' (? & _)]. intros ->. cbn in Hk. by rewrite Es in Hk.
Qed.

Lemma on_mvrp_event e w : mrpd_inv w -> wp (on_mvrp (with_db (st_ret 0) (mvrp_event e None))) (fun _ => steady w) w.
Proof.
  intros Hinv. apply on_mvrp_spec; [done|apply app_local_deliver; auto with local_db|].
  apply with_db_spec; [apply Hinv|by eauto|]. intros s Es Hs. eapply wp_mono; [by apply mvrp_event_spec|]. by intros ? s' (? & _).
Qed.

Lemma on_msrp_event e w : mrpd_inv w -> work_ok (w_msrp e) w -> wp (on_msrp (with_db (st_ret 0) (msrp_event e None))) (fun _ => steady w) w.
Proof.
  intros Hinv Hk. apply on_msrp_spec; [done|apply app_local_deliver; auto with local_db|].
  apply sr_with_db_spec; [apply Hinv|by eauto|]. intros s Es Hs. destruct (sv_ids _ Hs) as [X HX].
  eapply wp_mono; [apply (msrp_event_spec Hrand e None X); [done| |done|done]|]; [|by intros ? s' (? & _)].
  intros [-> | ->]; cbn in Hk; by rewrite Es in Hk.
Qed.

Lemma steady_bind {A B} (m : stM Mrpd A) (k : A -> stM Mrpd B) w :
  wp m (fun _ => steady w) w -> (forall a w1, steady w w1 -> wp (k a) (fun _ => steady w1) w1) -> wp (st_bind m k) (fun _ => steady w) w.
Proof.
  intros Hm Hk. apply wp_bind. eapply wp_mono; [exact Hm|]. intros a w1 H1. eapply wp_mono; [by apply Hk|]. intros ? w2 H2.
  exact (steady_trans _ _ _ H1 H2).
Qed.
Lemma steady_ret {A} (a : A) w : mrpd_inv w -> wp (st_ret a) (fun _ => steady w) w.
Proof. intros H. by apply wp_ret, steady_refl. Qed.

(** ** Clients *)
Lemma app_local_mmrp_bye c : app_local (mmrp_bye c).
Proof. by apply app_local_bye. Qed.
Lemma app_local_mvrp_bye c : app_local (mvrp_bye c).
Proof. by apply app_local_bye. Qed.
Lemma app_local_msrp_bye c : app_local (msrp_bye c).
Proof. by apply app_local_bye. Qed.

Lemma bye_spec client w : mrpd_inv w ->
  wp (on_mmrp (mmrp_bye client) ;! on_mvrp (mvrp_bye client) ;! on_msrp (msrp_bye client) ;! st_ret 0) (fun _ => steady w) w.
Proof.
  intros Hinv. apply steady_bind.
  { apply on_mmrp_spec; [done|apply app_local_mmrp_bye|]. apply mm_with_db_spec; [apply Hinv|by eauto|]. intros s _ Hs.
    apply wp_modify, mm_inv_clients; [done|]. apply ports_delete, Hs. }
  intros _ w1 [Hinv1 _ _ _ _]. apply steady_bind.
  { apply on_mvrp_spec; [done|apply app_local_mvrp_bye|]. apply with_db_spec; [apply Hinv1|by eauto|]. intros s _ Hs.
    apply wp_modify, inv_clients; [done|]. apply ports_delete, Hs. }
  intros _ w2 [Hinv2 _ _ _ _]. apply steady_bind.
  { apply on_msrp_spec; [done|apply app_local_msrp_bye|]. apply sr_with_db_spec; [apply Hinv2|by eauto|]. intros s _ Hs.
    apply wp_modify, sr_inv_clients; [done|]. apply ports_delete, Hs. }
  intros _ w3 [Hinv3 _ _ _ _]. by apply steady_ret.
Qed.

Lemma on_mvrp_command buf n client w :
  mrpd_inv w -> ~ oversized_dump (on_command buf n client) (part (MVRP_db w) (d_io w)) ->
  wp (on_mvrp (mvrp_recv_cmd buf n client)) (fun _ => steady w) w.
Proof.
  intros Hinv Hd. apply on_mvrp_spec; [done|apply app_local_mvrp_recv_cmd|].
  destruct (mvrp_handle_spec Hok Hrand (on_command buf n client) _ (di_mvrp _ Hinv) I) as [[_ H]|H]; [done|exact H].
Qed.

Lemma process_ctl_msg_spec buf n client w :
  mrpd_inv w -> (0 < length buf)%nat -> dump_fits buf w -> wp (process_ctl_msg buf n client) (fun _ => steady w) w.
Proof.
  intros Hinv Hl Hd. unfold process_ctl_msg. destruct (n <? 3); [by apply steady_ret|].
  destruct (lookup_lt_is_Some_2 buf 0%nat Hl) as [c Hc]. unfold dump_fits in Hd. rewrite Hc in Hd.
  apply wp_bind. assert (peek buf 0 = Done c) as Ep by (unfold peek; change (Z.to_nat 0) with 0%nat; by rewrite Hc). eapply wp_lift; [exact Ep|].
  destruct (c =? 77) eqn:E1.
  { apply on_mmrp_spec; [done|apply app_local_mmrp_recv_cmd|].
    pose proof (mmrp_handle_spec Hrand (mm_ctl buf n client) (part (MMRP_db w) (d_io w)) (di_mmrp _ Hinv) Hd) as Hw. exact Hw. }
  destruct (c =? 86) eqn:E2; [by apply on_mvrp_command|].
  destruct ((c =? 83) || (c =? 73)) eqn:E3.
  { apply on_msrp_spec; [done|apply app_local_msrp_recv_cmd|].
    pose proof (msrp_handle_spec Hrand (sr_ctl buf n client) (part (MSRP_db w) (d_io w)) (di_msrp _ Hinv) Hd) as Hw. exact Hw. }
  destruct (c =? 66); [by apply bye_spec|]. apply steady_bind.
  - apply on_io_spec; [done|]. intros s. unfold mrpd_send_ctl_msg. apply wp_bind, wp_get.
    destruct (control_socket _ =? _); [apply wp_ret, shared_refl|by apply wp_modify].
  - intros ? w1 [Hinv1 _ _ _ _]. by apply steady_ret.
Qed.

Lemma ctl_buf_length data : length (ctl_buf data) = 1500%nat.
Proof. unfold ctl_buf. by rewrite length_resize. Qed.

Lemma draw_steady {A} (f : nat -> A) w : mrpd_inv w -> wp (on_io (draw f)) (fun _ => steady w) w.
Proof. intros Hinv. apply on_io_spec; [done|]. intros s. unfold wp, draw. by split. Qed.

(** Memory does not depend on the tables. *)
Lemma recv_ctl_msg_spec d w :
  mrpd_inv w -> work_ok (w_control d) w -> wp (recv_ctl_msg d) (fun _ => steady w) w.
Proof.
  intros Hinv Hd. unfold recv_ctl_msg. destruct d as [[data client]|].
  - apply wp_bind. unfold wp at 1, on_io, draw. cbn [io mdb app]. set (w1 := mkMrpd _ _ _ _ _ _).
    assert (steady w w1) as H1.
    { assert (wp (on_io (draw mrp_malloc)) (fun _ => steady w) w) as H by (by apply draw_steady). exact H. }
    pose proof (st_inv _ _ H1) as Hinv1. destruct (negb _); [by apply wp_ret|].
    assert (dump_fits (ctl_buf data) w1) as Hd1.
    { cbn [work_ok] in Hd. unfold dump_fits in *. destruct (ctl_buf data !! 0%nat) as [c|]; [|done].
      subst w1. cbn [MMRP_db MVRP_db MSRP_db d_io]. destruct (c =? 77); [|destruct (c =? 86)].
      - by destruct (MMRP_db w) as [[??]|].
      - by destruct (MVRP_db w) as [[??]|].
      - by destruct (MSRP_db w) as [[??]|]. }
    eapply wp_mono; [|intros ? w2 H2; exact (steady_trans _ _ _ H1 H2)]. apply steady_bind.
    + destruct (_ <=? _); [by apply steady_ret|]. apply process_ctl_msg_spec; [done| |done]. rewrite ctl_buf_length. lia.
    + intros ? w2 [Hinv2 _ _ _ _]. by apply steady_ret.
  - apply steady_bind; [by apply draw_steady|]. intros mem w1 [Hinv1 _ _ _ _]. destruct (negb mem); by apply steady_ret.
Qed.

(** ** The daemon's own timers *)

(** They go off every 30 seconds and, again and again, every second. *)
Definition gc_setting : itimerspec := mkItimer (30, 0) (0, 0).
Definition periodic_setting : itimerspec := mkItimer (1, 0) (1, 0).

Lemma own_timer_spec fd spec w :
  mrpd_inv w -> fd = gc_timer w \/ fd = periodic_timer (d_io w) -> it_value spec <> (0, 0) ->
  wp (on_io (timerfd_settime fd spec)) (fun _ w' => mrpd_inv w' /\ mrpd_fds w' = mrpd_fds w /\ gc_timer w' = gc_timer w /\
    periodic_timer (d_io w') = periodic_timer (d_io w) /\ mrp_periodic_state w' = mrp_periodic_state w /\
    armed (d_io w') = <[fd := spec]> (armed (d_io w))) w.
Proof.
  intros [H1 H2 H3 Hn] Hfd Hs. unfold wp, on_io, timerfd_settime, st_bind, draw, upd_io, st_modify, st_ret. cbn [io mdb app].
  destruct (Z.leb_spec 0 (settime_rc (clk (d_io w)))) as [_|Hrc]; [|pose proof (Hok (clk (d_io w))); lia].
  rewrite decide_False by done. cbn [io mdb app fst snd]. set (i' := set_armed _ _).
  assert (shared_step [fd] (d_io w) i') as Hsh.
  { split; try done. intros fd' Hfd'. cbn. apply lookup_insert_ne. set_solver. }
  assert (forall fd', fd' ∈ app_fds (MVRP_db w) -> fd' ∉ [fd]) as Hv.
  { unfold mrpd_fds in Hn. rewrite !app_assoc in Hn. apply NoDup_app in Hn as (_ & Hn & _).
    intros fd' Hf ->%list_elem_of_singleton. apply (Hn fd); destruct Hfd as [-> | ->]; set_solver. }
  split_and!; try done. split; cbn; [by eapply mm_shared|by eapply mv_shared|by eapply sr_shared|done].
Qed.

(** The daemon's timers run. *)
Definition ticking (w : Mrpd) : Prop :=
  mrp_periodic_state w = MRP_TIMER_ACTIVE /\ clocks w = (Some periodic_setting, Some gc_setting).

Lemma own_apart w : NoDup (mrpd_fds w) -> periodic_timer (d_io w) <> gc_timer w.
Proof.
  intros Hn. unfold mrpd_fds in Hn. rewrite !app_assoc in Hn. apply NoDup_app in Hn as (_ & _ & Hn).
  apply NoDup_cons_1_1 in Hn. set_solver.
Qed.

(** The applications' inputs, as [MmrpProps], [MvrpProps] and [MsrpProps] have them. *)
Lemma on_mmrp_handle inp w : mrpd_inv w -> app_local (mmrp_handle inp) -> mm_input_ok inp (part (MMRP_db w) (d_io w)) ->
  wp (on_mmrp (mmrp_handle inp)) (fun _ => steady w) w.
Proof. intros Hinv Hl Hi. apply on_mmrp_spec; [done|done|]. exact (mmrp_handle_spec Hrand inp _ (di_mmrp _ Hinv) Hi). Qed.

Lemma on_msrp_handle inp w : mrpd_inv w -> app_local (msrp_handle inp) -> sr_input_ok inp (part (MSRP_db w) (d_io w)) ->
  wp (on_msrp (msrp_handle inp)) (fun _ => steady w) w.
Proof. intros Hinv Hl Hi. apply on_msrp_spec; [done|done|]. exact (msrp_handle_spec Hrand inp _ (di_msrp _ Hinv) Hi). Qed.

Lemma on_mvrp_handle inp w : mrpd_inv w -> app_local (mvrp_handle inp) -> input_ok inp ->
  ~ oversized_dump inp (part (MVRP_db w) (d_io w)) -> wp (on_mvrp (mvrp_handle inp)) (fun _ => steady w) w.
Proof.
  intros Hinv Hl Hi Hd. apply on_mvrp_spec; [done|done|].
  destruct (mvrp_handle_spec Hok Hrand inp _ (di_mvrp _ Hinv) Hi) as [[_ H]|H]; [done|exact H].
Qed.

Lemma app_local_mmrp_reclaim : app_local mmrp_reclaim.
Proof. apply app_local_deliver. solve_local. Qed.
Lemma app_local_mvrp_reclaim : app_local mvrp_reclaim.
Proof. apply app_local_deliver. solve_local. Qed.
Lemma app_local_msrp_reclaim : app_local msrp_reclaim.
Proof. apply app_local_deliver. solve_local. Qed.

(** The collection timer is armed for 30 seconds; all else is as before. *)
Lemma gctimer_start_spec w : mrpd_inv w ->
  wp gctimer_start (fun _ w' => mrpd_inv w' /\ mrpd_fds w' = mrpd_fds w /\ gc_timer w' = gc_timer w /\
    mrp_periodic_state w' = mrp_periodic_state w /\ clocks w' = (fst (clocks w), Some gc_setting)) w.
Proof.
  intros Hinv. unfold gctimer_start. apply wp_bind, wp_get. eapply wp_mono.
  { exact (own_timer_spec (gc_timer w) gc_setting w Hinv (or_introl eq_refl) ltac:(done)). }
  intros ? w' (H1 & H2 & H3 & H4 & H5 & H6). split_and!; try done. unfold clocks. rewrite H6, H3, H4, lookup_insert_eq.
  rewrite lookup_insert_ne; [done|]. intros Heq. by apply (own_apart w (di_fds _ Hinv)).
Qed.

Lemma mrpd_reclaim_spec w : mrpd_inv w ->
  wp mrpd_reclaim (fun _ w' => mrpd_inv w' /\ mrpd_fds w' = mrpd_fds w /\ gc_timer w' = gc_timer w /\
    mrp_periodic_state w' = mrp_periodic_state w /\ clocks w' = (fst (clocks w), Some gc_setting)) w.
Proof.
  intros Hinv. unfold mrpd_reclaim. apply wp_bind.
  eapply wp_mono; [exact (on_mmrp_handle mm_gc_timer w Hinv app_local_mmrp_reclaim I)|]. intros ? w1 H1. apply wp_bind.
  eapply wp_mono; [exact (on_mvrp_handle on_gc_timer w1 (st_inv _ _ H1) app_local_mvrp_reclaim I (fun H => H))|]. intros ? w2 H2.
  apply wp_bind.
  eapply wp_mono; [exact (on_msrp_handle sr_gc_timer w2 (st_inv _ _ H2) app_local_msrp_reclaim I)|]. intros ? w3 H3.
  pose proof (steady_trans _ _ _ H1 (steady_trans _ _ _ H2 H3)) as [Hi Hf Hg Hp Hc]. apply wp_bind.
  eapply wp_mono; [by apply gctimer_start_spec|]. intros ? w4 (? & ? & ? & ? & Hc'). apply wp_ret.
  rewrite Hc in Hc'. split_and!; congruence || done.
Qed.

(** ** Every piece of work *)

(** The daemon's invariant, its timers running. *)
Definition mrpd_ok (w : Mrpd) : Prop := mrpd_inv w /\ ticking w.

Lemma steady_ok w w' : ticking w -> steady w w' -> mrpd_ok w'.
Proof. intros [H1 H2] []. split; [done|]. split; congruence. Qed.

(** Starting the periodic timer, or hearing from it while it is active. *)
Lemma periodic_start_eq p e (s : MrpState unit) :
  e = MRP_EVENT_BEGIN \/ e = MRP_EVENT_PERIODIC /\ p = MRP_TIMER_ACTIVE ->
  mrp_periodictimer_fsm (Some p) e s =
  match timerfd_settime (periodic_timer (io s)) periodic_setting s with
  | Done (_, s') => Done ((0, Some MRP_TIMER_ACTIVE), s')
  | Fault f => Fault f
  end.
Proof.
  assert (mrp_periodictimer_start s = timerfd_settime (periodic_timer (io s)) periodic_setting s) as E by done.
  intros [-> | [-> ->]]; cbn [mrp_periodictimer_fsm]; unfold st_bind at 1.
  - rewrite E. by destruct (timerfd_settime _ _ _) as [[]|].
  - rewrite bool_decide_eq_true_2 by done. unfold st_bind at 1. rewrite E. by destruct (timerfd_settime _ _ _) as [[]|].
Qed.

Lemma periodic_fsm_spec e w : mrpd_inv w -> e = MRP_EVENT_BEGIN \/ e = MRP_EVENT_PERIODIC /\ mrp_periodic_state w = MRP_TIMER_ACTIVE ->
  wp (periodic_fsm e) (fun r w' => r = 0 /\ mrpd_inv w' /\ mrpd_fds w' = mrpd_fds w /\ mrp_periodic_state w' = MRP_TIMER_ACTIVE /\
    clocks w' = (Some periodic_setting, snd (clocks w))) w.
Proof.
  intros Hinv He. unfold periodic_fsm. apply wp_bind, wp_get, wp_bind.
  pose proof (own_timer_spec (periodic_timer (d_io w)) periodic_setting w Hinv (or_intror eq_refl) ltac:(done)) as Hw.
  apply wp_done in Hw as (a & w' & E & H1 & H2 & H3 & H4 & H5 & H6).
  assert (on_io (mrp_periodictimer_fsm (Some (mrp_periodic_state w)) e) w = Done ((0, Some MRP_TIMER_ACTIVE), w')) as E'.
  { unfold on_io in *. rewrite periodic_start_eq by done. cbn [io]. by destruct (timerfd_settime _ _ _) as [[]|]; simplify_eq. }
  eapply wp_intro; [exact E'|]. apply wp_bind, wp_modify, wp_ret. destruct (H1). split_and!; try done.
  unfold clocks in *. cbn. rewrite H6, H3, H4, lookup_insert_eq, lookup_insert_ne; [done|]. by apply own_apart, Hinv.
Qed.

(** The collection timer has just gone off. *)
Lemma expire_spec w : mrpd_inv w ->
  wp (let! w0 := st_get in expire (gc_timer w0)) (fun _ w' => mrpd_inv w' /\ mrpd_fds w' = mrpd_fds w /\ gc_timer w' = gc_timer w /\
    mrp_periodic_state w' = mrp_periodic_state w /\ fst (clocks w') = fst (clocks w)) w.
Proof.
  intros [H1 H2 H3 Hn]. apply wp_bind, wp_get. unfold wp, expire, on_io, upd_io, st_modify. cbn [io mdb app]. set (i' := set_armed _ _).
  assert (shared_step [gc_timer w] (d_io w) i') as Hsh.
  { split; try done. intros fd' Hfd'. cbn. apply lookup_delete_ne. set_solver. }
  split_and!; try done.
  - split; cbn; [by eapply mm_shared|eapply mv_shared; [done|exact Hsh|]|by eapply sr_shared|done].
    intros fd Hf ->%list_elem_of_singleton. unfold mrpd_fds in Hn. rewrite !app_assoc in Hn. apply NoDup_app in Hn as (_ & Hn & _).
    apply (Hn (gc_timer w)); set_solver.
  - cbn. apply lookup_delete_ne. intros Heq. by apply (own_apart w Hn).
Qed.

Lemma work_step_ok k w : mrpd_ok w -> work_ok k w -> wp (work_step k) (fun _ w' => mrpd_ok w' /\ mrpd_fds w' = mrpd_fds w) w.
Proof.
  intros [Hinv Ht] Hk.
  assert (forall (m : stM Mrpd Z), wp m (fun _ => steady w) w -> wp (m ;! st_ret tt) (fun _ w' => mrpd_ok w' /\ mrpd_fds w' = mrpd_fds w) w) as Hs.
  { intros m Hm. apply wp_bind. eapply wp_mono; [exact Hm|]. intros ? w' H. apply wp_ret. split; [by eapply steady_ok|apply H]. }
  destruct k as [d|f|f|f|e|e|e| |]; cbn [work_step]; [apply Hs..| |].
  - by apply recv_ctl_msg_spec.
  - apply (on_mmrp_handle (mm_frame f)); [done|apply app_local_deliver; auto with local_db|done].
  - apply (on_mvrp_handle (on_frame f)); [done|apply app_local_deliver; auto with local_db|done|by intros []].
  - apply (on_msrp_handle (sr_frame f)); [done|apply app_local_deliver; auto with local_db|done].
  - by apply on_mmrp_event.
  - by apply on_mvrp_event.
  - by apply on_msrp_event.
  - destruct Ht as [Ht1 Ht2]. apply wp_bind. eapply wp_mono; [apply periodic_fsm_spec; [done|by right]|].
    intros ? w' (_ & H1 & H2 & H3 & H4). apply wp_ret. split; [|done]. split; [done|]. split; [done|]. by rewrite H4, Ht2.
  - destruct Ht as [Ht1 Ht2]. apply wp_bind. eapply wp_mono; [by apply expire_spec|]. intros ? w1 (H1 & H2 & H3 & H4 & H5). apply wp_bind.
    eapply wp_mono; [by apply mrpd_reclaim_spec|]. intros ? w2 (H6 & H7 & H8 & H9 & H10). apply wp_ret.
    split; [|congruence]. split; [done|]. split; [congruence|]. by rewrite H10, H5, Ht2.
Qed.

(** A round of work that fits the buffers is done to its end. *)
Lemma run_work_ok ks w : mrpd_ok w -> run_ok ks w -> wp (run_work ks) (fun _ w' => mrpd_ok w' /\ mrpd_fds w' = mrpd_fds w) w.
Proof.
  revert w. induction ks as [|k ks IH]; intros w Hw Hr; cbn [run_work]; [by apply wp_ret|]. destruct Hr as [Hk Hr].
  destruct (wp_done _ _ _ (work_step_ok k w Hw Hk)) as ([] & w1 & E & H1 & H2). apply wp_bind. eapply wp_intro; [exact E|].
  eapply wp_mono; [apply (IH w1 H1 (Hr w1 E))|]. intros ? w2 [H3 H4]. split; [done|congruence].
Qed.

End daemon.
