(* ===== verification/MrpdProps.v ===== *)
(** * MrpdProps: the life of the daemon

    Start-up, the rounds of the loop of [process_events], and what one application's work
    leaves to the others. *)
From stdpp Require Import base gmap list strings numbers sorting.
From S2P Require Import Prelude Text Parse Mrp MrpProps Mvrp MvrpWire Mmrp.
From S2P Require Import MrpWorld MvrpInv MvrpEvent MvrpTable MvrpRecv MvrpProps.
From S2P Require Import MmrpInv MmrpWire MmrpEvent MmrpRecv MmrpProps Eui64set.
From S2P Require Import Msrp MsrpEmit MsrpDaemon MsrpRx MsrpCmd MsrpInv MsrpTable MsrpEvent.
From S2P Require Import MsrpRecv MsrpClient MsrpProps MrpExamples MmrpFaults MsrpFaults MrpLocal Mrpd MrpdInv.
#[local] Open Scope Z_scope.
#[local] Open Scope st_scope.

(** ** What an application's initialisation does to what is shared *)
Definition init_fds (a : init_answers) : list Z := [i_join a; i_lv a; i_lva a].

Definition init_local {X} (l : list Z) (m : stM (Io + MrpState X) Z) : Prop := forall i ret g,
  m (inl i) = Done (ret, g) -> app_fds (part_db g) `sublist_of` l /\ shared_step l i (part_io g).

Section start.
Context `{env : MrpEnv} `{stk : MmrpStack} `{lib : CLib} `{laws : !CLibLaws lib}.
Hypothesis Hok : timers_ok env.
Hypothesis Hrand : forall n, 0 <= mrp_random n.

Lemma init_none {X} l i (ret ret' : Z) (g : Io + MrpState X) :
  Done (ret, inl i) = Done (ret', g) -> app_fds (part_db g) `sublist_of` l /\ shared_step l i (part_io g).
Proof. intros [= _ <-]. split; [apply sublist_nil_l|apply shared_refl]. Qed.

Lemma init_some {X} join lv lva db (x : X) i ret (g : Io + MrpState X) : mrpd_init_timers join lv lva = Some db ->
  match mrp_lvatimer_fsm MRP_EVENT_BEGIN (mkMrp db x i) with Done (_, s) => Done (0, inr s) | Fault w => Fault w end = Done (ret, g) ->
  app_fds (part_db g) `sublist_of` [join; lv; lva] /\ shared_step [join; lv; lva] i (part_io g).
Proof.
  unfold mrpd_init_timers. destruct (_ || _); [done|]. intros [= <-]. set (s0 := mkMrp _ _ _).
  destruct (mrp_lvatimer_fsm MRP_EVENT_BEGIN s0) as [[a s]|] eqn:E; [|done]. intros [= _ <-].
  assert (local_step s0 s) as H by (eapply local_mrp_lvatimer_fsm; exact E). cbn [part_db app_fds part_io]. rewrite (lo_fds _ _ H).
  split; [done|]. exact (shared_local _ _ H).
Qed.

Lemma mmrp_init_local en a : init_local (init_fds a) (mmrp_init en (i_socket a) (i_mem a) (i_join a) (i_lv a) (i_lva a)).
Proof.
  intros i ret g. unfold mmrp_init. destruct en, (_ <? 0), (i_mem a); cbn [negb]; try apply init_none.
  destruct (mrpd_init_timers _ _ _) as [db|] eqn:E; [by apply init_some|apply init_none].
Qed.
Lemma mvrp_init_local en a : init_local (init_fds a) (mvrp_init en (i_socket a) (i_mem a) (i_join a) (i_lv a) (i_lva a)).
Proof.
  intros i ret g. unfold mvrp_init. destruct en, (_ <? 0), (i_mem a); cbn [negb]; try apply init_none.
  destruct (mrpd_init_timers _ _ _) as [db|] eqn:E; [by apply init_some|apply init_none].
Qed.
Lemma msrp_init_local en max pr mem a :
  init_local (init_fds a) (msrp_init en max pr (i_socket a) (i_mem a) mem (i_join a) (i_lv a) (i_lva a)).
Proof.
  intros i ret g. unfold msrp_init. destruct en, (i_socket a <? 0), (i_mem a); cbn [negb]; try apply init_none.
  destruct (eui64set_init _ _) as [rc ids]. destruct (rc <? 0); [apply init_none|].
  destruct (mrpd_init_timers _ _ _) as [db|] eqn:E; [by apply init_some|apply init_none].
Qed.

(** ** Start-up *)

(** The daemon before its initialisation: the station's address is known, and the
    kernel's descriptors are distinct. *)
Record fresh (mm mv ms : init_answers) (periodic gc : Z) (w : Mrpd) : Prop := mkFresh {
  fr_mmrp : MMRP_db w = None;
  fr_mvrp : MVRP_db w = None;
  fr_msrp : MSRP_db w = None;
  fr_station : length (STATION_ADDR (d_io w)) = 6%nat /\ Forall is_byte (STATION_ADDR (d_io w));
  fr_fds : NoDup (init_fds mm ++ init_fds mv ++ init_fds ms ++ [periodic; gc]) }.

Lemma start_step {A} (m : stM A Z) (k : stM A Z) (w w' : A) :
  (let! rc := m in if negb (rc =? 0) then st_ret rc else k) w = Done (0, w') ->
  exists w1, m w = Done (0, w1) /\ k w1 = Done (0, w').
Proof.
  unfold st_bind. destruct (m w) as [[rc w1]|]; [|done]. destruct (Z.eqb_spec rc 0) as [->|]; cbn [negb]; [by eauto|].
  by intros [= ? _].
Qed.

Lemma init_timers_ok periodic gc w w' :
  mrpd_inv (mkMrpd (MMRP_db w) (MVRP_db w) (MSRP_db w)
    (mkIo (armed (d_io w)) (frames (d_io w)) (ctl (d_io w)) (control_socket (d_io w)) (p2pmac (d_io w)) periodic
       (STATION_ADDR (d_io w)) (clk (d_io w))) gc (mrp_periodic_state w)) ->
  init_timers periodic gc w = Done (0, w') -> mrpd_inv w' /\ snd (clocks w') = Some gc_setting.
Proof.
  intros Hinv. unfold init_timers. unfold st_bind at 1, st_modify at 1. destruct (_ || _); [by intros [= ? _]|].
  set (w1 := mkMrpd _ _ _ _ _ _) in *. intros E.
  assert (wp (gctimer_start ;! st_ret 0) (fun _ w => mrpd_inv w /\ snd (clocks w) = Some gc_setting) w1) as Hw.
  { apply wp_bind. eapply wp_mono; [by apply gctimer_start_spec|]. intros ? w2 (? & _ & _ & _ & Hc). apply wp_ret. by rewrite Hc. }
  unfold wp in Hw. by rewrite E in Hw.
Qed.

(** An initialisation run in the daemon. *)
Lemma on_init {X} (l : list Z) (m : stM (Io + MrpState X) Z) i (g : Io + MrpState X) :
  init_local l m -> m (part None i) = Done (0, g) ->
  part (part_db g) (part_io g) = g /\ app_fds (part_db g) `sublist_of` l /\ shared_step l i (part_io g).
Proof. intros Hm E. split; [by destruct g as [|[]]|]. exact (Hm _ _ _ E). Qed.

Lemma mrpd_start_ok en1 en2 en3 pr mem mm mv ms periodic gc w w' :
  fresh mm mv ms periodic gc w -> mrpd_start en1 en2 en3 pr mem mm mv ms periodic gc w = Done (0, w') -> mrpd_ok w'.
Proof.
  intros [F1 F2 F3 [F4 F5] F6]. unfold mrpd_start. cbn zeta.
  intros (w1 & E1 & (w2 & E2 & (w3 & E3 & (w4 & E4 & (w5 & E5 & E6)%start_step)%start_step)%start_step)%start_step)%start_step.
  destruct w as [? ? ? i0 ? ?]. cbn in F1, F2, F3, F4, F5. subst.
  apply (f_equal (fun o => match o with Done (_, w) => w | Fault _ => w' end)) in E1. cbn in E1. set (i1 := set_p2pmac _ i0) in *. subst w1.
  unfold on_mmrp in E2. cbn [MMRP_db d_io] in E2. destruct (mmrp_init _ _ _ _ _ _ _) as [[r g2]|] eqn:I2; [|done].
  injection E2 as -> <-. destruct (on_init _ _ _ _ (mmrp_init_local en1 mm) I2) as (P2 & L2 & S2).
  assert (length (STATION_ADDR i1) = 6%nat) as Hs1 by done. pose proof (mmrp_init_inv Hrand _ _ _ _ _ _ _ _ _ Hs1 I2) as H2.
  unfold on_mvrp in E3. cbn [MVRP_db d_io] in E3. destruct (mvrp_init _ _ _ _ _ _ _) as [[r g3]|] eqn:I3; [|done].
  injection E3 as -> <-. destruct (on_init _ _ _ _ (mvrp_init_local en2 mv) I3) as (P3 & L3 & S3).
  assert (STATION_ADDR (part_io g2) = STATION_ADDR i0) as Hs2 by apply (sh_station _ _ _ S2).
  destruct (nodup_apart _ _ _ _ F6) as [D1 D2].
  assert (global_inv g3) as H3.
  { apply NoDup_app in F6 as (_ & _ & F6). apply NoDup_app in F6 as (F6 & _ & _). rewrite <- Hs2 in F4, F5.
    apply NoDup_cons in F6 as [A1 F6]. apply NoDup_cons in F6 as [A2 _].
    eapply (mvrp_init_inv Hrand); [exact F4|exact F5| | | |exact I3]; set_solver. }
  unfold on_msrp in E4. cbn [MSRP_db d_io MMRP_db MVRP_db] in E4. destruct (msrp_init _ _ _ _ _ _ _ _ _ _) as [[r g4]|] eqn:I4; [|done].
  injection E4 as -> <-. destruct (on_init _ _ _ _ (msrp_init_local en3 _ pr mem ms) I4) as (P4 & L4 & S4).
  assert (sr_global_inv g4) as H4.
  { eapply (msrp_init_inv Hrand); [|exact I4]. by rewrite (sh_station _ _ _ S3), Hs2. }
  assert (mrpd_inv w5 /\ snd (clocks w5) = Some gc_setting) as [H5 H6].
  { eapply init_timers_ok; [|exact E5]. cbn [MMRP_db MVRP_db MSRP_db d_io].
    rewrite <- P2 in H2. rewrite <- P3 in H3. rewrite <- P4 in H4. split; cbn [MMRP_db MVRP_db MSRP_db d_io].
    - eapply mm_world; [by eapply mm_shared; [eapply mm_shared|]|done].
    - eapply mv_world; [eapply mv_shared; [exact H3|exact S4|]|done|done]. intros fd Hf. apply D2. by eapply elem_of_sublist.
    - by eapply sr_world.
    - eapply sublist_NoDup; [exact F6|]. unfold mrpd_fds. cbn -[init_fds app]. do 3 (apply sublist_app; [done|]). reflexivity. }
  destruct (wp_done _ _ _ (periodic_fsm_spec Hok Hrand MRP_EVENT_BEGIN w5 H5 (or_introl eq_refl))) as (r' & w6 & E & _ & H7 & _ & H8 & H9).
  rewrite E in E6. injection E6 as _ ->. split; [done|]. split; [done|]. by rewrite H9, H6.
Qed.

(** ** The life of the daemon *)
Inductive mrpd_reachable : Mrpd -> Prop :=
  | mrpd_boot en1 en2 en3 pr mem mm mv ms periodic gc w w' :
      fresh mm mv ms periodic gc w -> mrpd_start en1 en2 en3 pr mem mm mv ms periodic gc w = Done (0, w') -> mrpd_reachable w'
  | mrpd_round r w w' :
      mrpd_reachable w -> run_ok (ready_work r) w -> process_round r w = Done (tt, w') -> mrpd_reachable w'.

Lemma mrpd_reachable_ok w : mrpd_reachable w -> mrpd_ok w.
Proof.
  induction 1 as [? ? ? ? ? ? ? ? ? ? w w' Hf E|r w w' _ IH Hr E]; [by eapply mrpd_start_ok|].
  pose proof (run_work_ok Hok Hrand _ w IH Hr) as Hw. unfold process_round in E. unfold wp in Hw. rewrite E in Hw. apply Hw.
Qed.

End start.

(** C12. The life of the daemon: in every state reached from start-up by rounds of the loop,
    each of the three applications has its invariant although all of them share the sockets
    and the timers, the descriptors of all the timers are distinct, and the daemon's own
    timers are armed: garbage collection in 30 seconds, the periodic timer every second.
    The rounds are those whose work fits the buffers: frames of at most 1996 (MVRP), 1992
    (MMRP) and 1963 bytes (MSRP), the leave-all timer of MMRP with at most 219 attributes, the
    leave-all and join timers of MSRP with at most 49, and table dumps of at most 49, 44 and 11
    attributes.  Every further such round is carried out to its end, and leaves the daemon in
    such a state with the same timers. *)
Theorem mrpd_reachable_invariant `{env : MrpEnv} `{stk : MmrpStack} `{lib : CLib} `{!CLibLaws lib} w :
  timers_ok env -> (forall n, 0 <= mrp_random n) -> mrpd_reachable w ->
  mm_global_inv (part (MMRP_db w) (d_io w)) /\ global_inv (part (MVRP_db w) (d_io w)) /\ sr_global_inv (part (MSRP_db w) (d_io w)) /\
  NoDup (mrpd_fds w) /\
  armed (d_io w) !! periodic_timer (d_io w) = Some periodic_setting /\ armed (d_io w) !! gc_timer w = Some gc_setting /\
  forall r, run_ok (ready_work r) w ->
    exists w', process_round r w = Done (tt, w') /\ mrpd_reachable w' /\ mrpd_fds w' = mrpd_fds w.
Proof.
  intros Hok Hrand Hw. destruct (mrpd_reachable_ok Hok Hrand w Hw) as [[H1 H2 H3 H4] [Ht1 Ht2]]. injection Ht2 as Ht2 Ht3.
  split_and!; try done. intros r Hr.
  destruct (wp_done _ _ _ (run_work_ok Hok Hrand _ w (conj (mkMrpdInv _ H1 H2 H3 H4) (conj Ht1 (f_equal2 _ Ht2 Ht3))) Hr)) as ([] & w' & E & _ & Hf).
  exists w'. split_and!; [done|by eapply mrpd_round|done].
Qed.

(** ** Isolation *)

(** Whose work it is, by the order of [mrpd_fds]. *)
Inductive mrp_application := app_mmrp | app_mvrp | app_msrp.

Definition work_app (k : work) : option mrp_application :=
  match k with
  | w_mmrp_frame _ | w_mmrp _ => Some app_mmrp
  | w_mvrp_frame _ | w_mvrp _ => Some app_mvrp
  | w_msrp_frame _ | w_msrp _ => Some app_msrp
  | _ => None
  end.

Definition timers_of (a : mrp_application) (w : Mrpd) : list Z :=
  match a with app_mmrp => app_fds (MMRP_db w) | app_mvrp => app_fds (MVRP_db w) | app_msrp => app_fds (MSRP_db w) end.

(** The databases of the other two. *)
Definition same_others (a : mrp_application) (w w' : Mrpd) : Prop :=
  match a with
  | app_mmrp => MVRP_db w' = MVRP_db w /\ MSRP_db w' = MSRP_db w
  | app_mvrp => MMRP_db w' = MMRP_db w /\ MSRP_db w' = MSRP_db w
  | app_msrp => MMRP_db w' = MMRP_db w /\ MVRP_db w' = MVRP_db w
  end.

Lemma on_app_run {X A} (m : stM (Io + MrpState X) A) db i a g :
  app_local m -> m (part db i) = Done (a, g) -> app_fds (part_db g) = app_fds db /\ shared_step (app_fds db) i (part_io g).
Proof. intros Hm E. destruct (Hm _ _ _ E) as [H1 H2]. by destruct db as [[??]|]. Qed.

(** C17. Isolation of the applications: whatever the state, the event or the frame, the work of
    one application changes nothing in the databases of the other two, and of the timers of
    the process only its own three, which are still its own afterwards; the configuration the
    applications share is left alone. *)
Theorem mrpd_applications_isolated `{env : MrpEnv} `{stk : MmrpStack} `{lib : CLib} k a w w' :
  work_app k = Some a -> work_step k w = Done (tt, w') ->
  same_others a w w' /\ timers_of a w' = timers_of a w /\ gc_timer w' = gc_timer w /\ mrp_periodic_state w' = mrp_periodic_state w /\
  shared_step (timers_of a w) (d_io w) (d_io w').
Proof.
  intros Hk. destruct k as [d|f|f|f|e|e|e| |]; try done; injection Hk as <-; cbn [work_step]; unfold st_bind at 1, on_mmrp, on_mvrp, on_msrp;
    destruct (with_db _ _ _) as [[r g]|] eqn:E; try done; intros [= <-]; apply on_app_run in E as [H1 H2]; try done;
    apply app_local_deliver; auto with local_db.
Qed.

(** ** A daemon with all three applications

    From start-up through a round in which a client has declared a domain and every timer of
    the process is due. *)
#[local] Existing Instance plain_libc.
#[local] Existing Instance zero_stack.
#[local] Existing Instance plain_laws.

Definition answers (fd : Z) : init_answers := mkInit 20 true fd (fd + 1) (fd + 2).

Definition daemon_off : Mrpd := mkMrpd None None None idle_io 0 MRP_TIMER_PASSIVE.
Definition daemon_on : Mrpd :=
  match mrpd_start true true true false true (answers 10) (answers 13) (answers 16) 30 31 daemon_off with
  | Done (_, w) => w
  | Fault _ => daemon_off
  end.

Lemma daemon_on_reachable : mrpd_reachable daemon_on.
Proof.
  eapply (mrpd_boot true true true false true (answers 10) (answers 13) (answers 16) 30 31 daemon_off); [|vm_compute; reflexivity].
  split; [reflexivity..| |].
  - split; [reflexivity|]. repeat constructor; vm_compute; congruence.
  - apply (bool_decide_unpack _). vm_compute. exact I.
Qed.

(** A client's command, and every timer. *)
Definition all_due : app_ready := mkAppReady None true true true.
Definition busy_round : ready :=
  mkReady (Some (Some (bytes_of_string "S+D:C=6,P=3,V=0002" ++ [0], local_client))) all_due all_due all_due true true.

(** Evaluating a round: what each step needs, by computation. *)
Lemma run_ok_step k ks w w' : work_ok k w -> work_step k w = Done (tt, w') -> run_ok ks w' -> run_ok (k :: ks) w.
Proof. intros Hk E Hr. split; [done|]. intros w2 E2. rewrite E in E2. by injection E2 as <-. Qed.

Lemma busy_round_ok : run_ok (ready_work busy_round) daemon_on.
Proof.
  unfold ready_work. cbn [app busy_round r_control r_mmrp r_mvrp r_msrp r_periodic r_gc app_work all_due r_frame r_lva r_lv r_join Datatypes.app].
  eapply run_ok_step; [vm_compute; discriminate|vm_compute; reflexivity|].
  do 14 (eapply run_ok_step; [vm_compute; first [exact I|lia]|vm_compute; reflexivity|]).
  exact I.
Qed.

Lemma mrpd_reachable_invariant_witness :
  exists w', process_round busy_round daemon_on = Done (tt, w') /\ mrpd_reachable w' /\ mrpd_fds w' = mrpd_fds daemon_on.
Proof.
  destruct (mrpd_reachable_invariant (env:=calm_env) (lib:=plain_libc) daemon_on calm_timers calm_random daemon_on_reachable)
    as (_ & _ & _ & _ & _ & _ & H).
  exact (H busy_round busy_round_ok).
Defined.

(** MVRP's leave-all timer on the running daemon. *)
Definition after_lva : Mrpd := match work_step (w_mvrp MRP_EVENT_LVATIMER) daemon_on with Done (_, w) => w | Fault _ => daemon_off end.

Lemma after_lva_eq : work_step (w_mvrp MRP_EVENT_LVATIMER) daemon_on = Done (tt, after_lva).
Proof. vm_compute. reflexivity. Qed.

Lemma mrpd_applications_isolated_witness : MMRP_db after_lva = MMRP_db daemon_on /\ MSRP_db after_lva = MSRP_db daemon_on.
Proof.
  pose proof (mrpd_applications_isolated (w_mvrp MRP_EVENT_LVATIMER) app_mvrp daemon_on after_lva (@eq_refl _ (Some app_mvrp)) after_lva_eq)
    as [H _].
  exact H.
Defined.
