(* ===== verification/Shaper.v ===== *)
(** * Shaper: the shaper daemon

    Model of [daemons/shaper/src/shaper_daemon.c]: the parser of commands, the list of
    streams with the bandwidth of the traffic classes, the [tc] commands by which the
    daemon configures the kernel, and the table of clients of its loop.

    A command is the array of bytes it is received in, and a position in it is the list of
    the bytes from there on: the parser only moves forward, and reading at the end of the
    array is a fault.  The [tc] commands are a type, printed by [tc_text] as [sprintf]
    prints them; what the daemon handed to [system] is a list of them.  The arithmetic on
    [double] is that of IEEE 754 ([SpecFloat]).  The four blocks of [process_command] for
    the two classes and two measurement intervals are one definition.  Debug messages are
    left out: the level the daemon is built with discards them. *)
From Stdlib Require Import SpecFloat.
From stdpp Require Import base gmap list strings numbers.
From S2P Require Import Prelude Text Parse.
#[local] Open Scope Z_scope.
#[local] Open Scope st_scope.

(** ** Commands *)
Record cmd_ip := mkCmd {
  reserve_bw : bool;
  unreserve_bw : bool;
  cmd_interface : string;
  class_a : bool;
  class_b : bool;
  measurement_interval : Z;
  max_frame_size : Z;
  max_frame_interval : Z;
  cmd_stream_da : string;
  delete_qdisc : bool;
  quit : bool }.

Definition no_cmd : cmd_ip := mkCmd false false String.EmptyString false false 0 0 0 String.EmptyString false false.

Definition IFNAMSIZ : nat := 16.
Definition STREAMDA_LENGTH : nat := 18.

(** The copying loops: up to [k] bytes that are no spaces, and where they end.  The byte is
    read before the room in the destination is looked at. *)
Fixpoint copy_arg (k : nat) (p : list Z) : outcome (list Z * list Z) :=
  match p with
  | [] => Fault OutOfBounds
  | c :: p' =>
      if c =? 32 then Done ([], p)
      else
        match k with
        | O => Done ([], p)
        | S k' => '(arg, q) ← copy_arg k' p'; Done (c :: arg, q)
        end
  end.

(** [atoi], as the GNU C library has it: [strtol] cut to an [int]. *)
Definition atoi (s : list Z) : Z :=
  let '(neg, w, s1) := scan_sign (length s) (skip_space s) in
  let v := fst (scan_digits 10 w 0 s1) in
  i32 (Z.max (- 2 ^ 63) (Z.min (2 ^ 63 - 1) (if neg then - v else v))).

(** [i = i + 2]: the two bytes need not be read. *)
Definition skip2 (p : list Z) : outcome (list Z) :=
  match p with _ :: _ :: q => Done q | _ => Fault OutOfBounds end.

(** [if (command[i] == c)]. *)
Definition on_letter (c : Z) (k : cmd_ip -> list Z -> outcome (cmd_ip * list Z)) (x : cmd_ip * list Z)
    : outcome (cmd_ip * list Z) :=
  match snd x with
  | [] => Fault OutOfBounds
  | b :: _ => if b =? c then k (fst x) (snd x) else Done x
  end.

Definition on_flag (f : cmd_ip -> cmd_ip) (i : cmd_ip) (p : list Z) : outcome (cmd_ip * list Z) := Done (f i, tl p).

Definition on_arg (k : nat) (f : list Z -> cmd_ip -> cmd_ip) (i : cmd_ip) (p : list Z) : outcome (cmd_ip * list Z) :=
  q ← skip2 p;
  '(arg, q) ← copy_arg k q;
  Done (f arg i, q).

Definition on_class (i : cmd_ip) (p : list Z) : outcome (cmd_ip * list Z) :=
  q ← skip2 p;
  match q with
  | [] => Fault OutOfBounds
  | b :: q' =>
      let a := (b =? 65) || (b =? 97) in
      let bb := (b =? 66) || (b =? 98) in
      Done (mkCmd (reserve_bw i) (unreserve_bw i) (cmd_interface i) (class_a i || a) (class_b i || negb a && bb)
              (measurement_interval i) (max_frame_size i) (max_frame_interval i) (cmd_stream_da i) (delete_qdisc i) (quit i), q')
  end.

Definition set_reserve (i : cmd_ip) : cmd_ip :=
  mkCmd true (unreserve_bw i) (cmd_interface i) (class_a i) (class_b i) (measurement_interval i) (max_frame_size i)
    (max_frame_interval i) (cmd_stream_da i) (delete_qdisc i) (quit i).
Definition set_unreserve (i : cmd_ip) : cmd_ip :=
  mkCmd (reserve_bw i) true (cmd_interface i) (class_a i) (class_b i) (measurement_interval i) (max_frame_size i)
    (max_frame_interval i) (cmd_stream_da i) (delete_qdisc i) (quit i).
Definition set_interface (s : list Z) (i : cmd_ip) : cmd_ip :=
  mkCmd (reserve_bw i) (unreserve_bw i) (string_of_bytes (c_string s)) (class_a i) (class_b i) (measurement_interval i)
    (max_frame_size i) (max_frame_interval i) (cmd_stream_da i) (delete_qdisc i) (quit i).
Definition set_measurement (s : list Z) (i : cmd_ip) : cmd_ip :=
  mkCmd (reserve_bw i) (unreserve_bw i) (cmd_interface i) (class_a i) (class_b i) (atoi (c_string s)) (max_frame_size i)
    (max_frame_interval i) (cmd_stream_da i) (delete_qdisc i) (quit i).
Definition set_frame_size (s : list Z) (i : cmd_ip) : cmd_ip :=
  mkCmd (reserve_bw i) (unreserve_bw i) (cmd_interface i) (class_a i) (class_b i) (measurement_interval i)
    (atoi (c_string s)) (max_frame_interval i) (cmd_stream_da i) (delete_qdisc i) (quit i).
Definition set_frame_interval (s : list Z) (i : cmd_ip) : cmd_ip :=
  mkCmd (reserve_bw i) (unreserve_bw i) (cmd_interface i) (class_a i) (class_b i) (measurement_interval i)
    (max_frame_size i) (atoi (c_string s)) (cmd_stream_da i) (delete_qdisc i) (quit i).
Definition set_stream_da (s : list Z) (i : cmd_ip) : cmd_ip :=
  mkCmd (reserve_bw i) (unreserve_bw i) (cmd_interface i) (class_a i) (class_b i) (measurement_interval i)
    (max_frame_size i) (max_frame_interval i) (string_of_bytes (c_string s)) (delete_qdisc i) (quit i).
Definition set_delete (i : cmd_ip) : cmd_ip :=
  mkCmd (reserve_bw i) (unreserve_bw i) (cmd_interface i) (class_a i) (class_b i) (measurement_interval i)
    (max_frame_size i) (max_frame_interval i) (cmd_stream_da i) true (quit i).
Definition set_quit (i : cmd_ip) : cmd_ip :=
  mkCmd (reserve_bw i) (unreserve_bw i) (cmd_interface i) (class_a i) (class_b i) (measurement_interval i)
    (max_frame_size i) (max_frame_interval i) (cmd_stream_da i) (delete_qdisc i) true.

(** The body of the loop: each test looks at where the one before has left off. *)
Definition parse_letters (x : cmd_ip * list Z) : outcome (cmd_ip * list Z) :=
  x ← on_letter 114 (on_flag set_reserve) x;
  x ← on_letter 117 (on_flag set_unreserve) x;
  x ← on_letter 105 (on_arg (IFNAMSIZ - 1) set_interface) x;
  x ← on_letter 99 on_class x;
  x ← on_letter 115 (on_arg 99 set_measurement) x;
  x ← on_letter 98 (on_arg 99 set_frame_size) x;
  x ← on_letter 102 (on_arg 99 set_frame_interval) x;
  x ← on_letter 97 (on_arg (STREAMDA_LENGTH - 1) set_stream_da) x;
  x ← on_letter 100 (on_flag set_delete) x;
  on_letter 113 (on_flag set_quit) x.

Fixpoint parse_cmd_loop (fuel : nat) (i : cmd_ip) (p : list Z) : outcome cmd_ip :=
  match p with
  | [] => Fault OutOfBounds
  | c :: p' =>
      if c =? 0 then Done i
      else
        match fuel with
        | O => Fault OutOfFuel
        | S fuel' => '(i', q) ← parse_letters (i, p'); parse_cmd_loop fuel' i' q
        end
  end.

Definition parse_cmd (command : list Z) : outcome cmd_ip := parse_cmd_loop (length command) no_cmd command.

(** ** Traffic classes and the [tc] commands *)
Inductive sr_class := classa_48 | classa_44 | classb_48 | classb_44.

#[global] Instance sr_class_eq_dec : EqDecision sr_class.
Proof. solve_decision. Defined.

Definition in_class_a (c : sr_class) : bool := match c with classa_48 | classa_44 => true | _ => false end.
Definition classid (c : sr_class) : string :=
  match c with classa_48 => "2:10" | classa_44 => "2:20" | classb_48 => "3:30" | classb_44 => "3:40" end.
Definition class_parent (a : bool) : Z := if a then 2 else 3.

(** The class of a reservation: by the kind of traffic and the measurement interval. *)
Definition class_of (a : bool) (interval : Z) : option sr_class :=
  if a then if interval =? 125 then Some classa_48 else if interval =? 136 then Some classa_44 else None
  else if interval =? 250 then Some classb_48 else if interval =? 272 then Some classb_44 else None.

(** The chain of [strcmp] with the four class ids. *)
Definition class_named (id : string) : option sr_class :=
  if decide (id = classid classa_48) then Some classa_48
  else if decide (id = classid classa_44) then Some classa_44
  else if decide (id = classid classb_48) then Some classb_48
  else if decide (id = classid classb_44) then Some classb_44
  else None.

Inductive tc :=
  | tc_root_add (dev : string)
  | tc_root_del (dev : string)
  | tc_qdisc_add (dev : string) (a : bool)
  | tc_class (command id dev : string) (rate cburst : Z)
  | tc_filter_add (dev : string) (handle parent : Z) (id dst : string)
  | tc_filter_del (dev parent : string) (handle : Z).

Definition tc_text (c : tc) : string :=
  match c with
  | tc_root_add dev =>
      "tc qdisc add dev " +:+ dev +:+
      " root handle 1: mqprio num_tc 4 map 3 3 1 0 2 2 2 2 2 2 2 2 2 2 2 2 queues 1@0 1@1 1@2 1@3 hw 0"
  | tc_root_del dev => "tc qdisc del dev " +:+ dev +:+ " root handle 1:"
  | tc_qdisc_add dev a =>
      "tc qdisc add dev " +:+ dev +:+ " handle " +:+ fmt_int (class_parent a) +:+ ":  parent " +:+
      (if a then "1:5" else "1:6") +:+ " htb"
  | tc_class command id dev rate cburst =>
      "tc class " +:+ command +:+ " dev " +:+ dev +:+ " classid " +:+ id +:+ " htb rate " +:+ fmt_int rate +:+
      "bps cburst " +:+ fmt_int cburst
  | tc_filter_add dev handle parent id dst =>
      "tc filter add dev " +:+ dev +:+ " prio 1 handle 800::" +:+ fmt_int handle +:+ " parent " +:+ fmt_int parent +:+
      ": u32 classid " +:+ id +:+ "  match ether dst " +:+ dst
  | tc_filter_del dev parent handle =>
      "tc filter del dev " +:+ dev +:+ " parent " +:+ parent +:+ " handle 800::" +:+ fmt_int handle +:+
      " prio 1 protocol all u32"
  end.

(** ** State *)
Record stream_da := mkStream { dest_addr : string; stream_bw : Z; class_id : string; filter_handle : Z }.

(** The flag of a class and its bandwidth, [classa_48] and [classa_bw_48] for one. *)
Record slot := mkSlot { slot_used : bool; slot_bw : Z }.
Definition no_slot : slot := mkSlot false 0.

(** What a client or the log is told. *)
Inductive reply := told_error (text : string) | told_usage.

Record Shaper := mkShaper {
  streams : list stream_da;
  sr_classa : bool;
  sr_classb : bool;
  slots : sr_class -> slot;
  filterhandle_classa : Z;
  filterhandle_classb : Z;
  interface : string;
  bandwidth : Z;
  ran : list tc;
  replies : list (Z * reply);
  draws : nat }.

Definition shaper_start : Shaper := mkShaper [] false false (fun _ => no_slot) 1 20 String.EmptyString 0 [] [] 0.

Definition set_slot (c : sr_class) (v : slot) (f : sr_class -> slot) : sr_class -> slot :=
  fun c' => if decide (c' = c) then v else f c'.

Definition put_streams (l : list stream_da) : stM Shaper unit := st_modify (fun s =>
  mkShaper l (sr_classa s) (sr_classb s) (slots s) (filterhandle_classa s) (filterhandle_classb s) (interface s) (bandwidth s)
    (ran s) (replies s) (draws s)).
Definition put_class (a b : bool) : stM Shaper unit := st_modify (fun s =>
  mkShaper (streams s) a b (slots s) (filterhandle_classa s) (filterhandle_classb s) (interface s) (bandwidth s)
    (ran s) (replies s) (draws s)).
Definition put_slots (f : sr_class -> slot) : stM Shaper unit := st_modify (fun s =>
  mkShaper (streams s) (sr_classa s) (sr_classb s) f (filterhandle_classa s) (filterhandle_classb s) (interface s) (bandwidth s)
    (ran s) (replies s) (draws s)).
Definition put_handles (a b : Z) : stM Shaper unit := st_modify (fun s =>
  mkShaper (streams s) (sr_classa s) (sr_classb s) (slots s) a b (interface s) (bandwidth s) (ran s) (replies s) (draws s)).
Definition put_interface (dev : string) : stM Shaper unit := st_modify (fun s =>
  mkShaper (streams s) (sr_classa s) (sr_classb s) (slots s) (filterhandle_classa s) (filterhandle_classb s) dev (bandwidth s)
    (ran s) (replies s) (draws s)).
Definition put_bandwidth (v : Z) : stM Shaper unit := st_modify (fun s =>
  mkShaper (streams s) (sr_classa s) (sr_classb s) (slots s) (filterhandle_classa s) (filterhandle_classb s) (interface s) v
    (ran s) (replies s) (draws s)).
Definition add_ran (c : tc) : stM Shaper unit := st_modify (fun s =>
  mkShaper (streams s) (sr_classa s) (sr_classb s) (slots s) (filterhandle_classa s) (filterhandle_classb s) (interface s) (bandwidth s)
    (ran s ++ [c]) (replies s) (draws s)).
Definition add_reply (r : Z * reply) : stM Shaper unit := st_modify (fun s =>
  mkShaper (streams s) (sr_classa s) (sr_classb s) (slots s) (filterhandle_classa s) (filterhandle_classb s) (interface s) (bandwidth s)
    (ran s) (replies s ++ [r]) (draws s)).

Definition handle_of (a : bool) (s : Shaper) : Z := if a then filterhandle_classa s else filterhandle_classb s.

(** ** What the system answers *)
Class ShaperEnv := {
  system_rc : nat -> Z;            (** [system] *)
  sh_malloc : nat -> bool;         (** whether [malloc] has memory *)
  pow_10_minus_6 : spec_float;     (** [pow(10,-6)] of the C library *)
  int_undefined : spec_float -> Z  (** a [double] that is no [int], converted to one *) }.

(** ** Arithmetic on [double] *)
Definition double_of_int (z : Z) : spec_float := binary_normalize 53 1024 z 0 false.
Definition dmul : spec_float -> spec_float -> spec_float := SFmul 53 1024.
Definition ddiv : spec_float -> spec_float -> spec_float := SFdiv 53 1024.

(** [ceil] of a finite number, as an integer. *)
Definition ceil_of (x : spec_float) : option Z :=
  match x with
  | S754_zero _ => Some 0
  | S754_finite s m e =>
      let v := if s then - Zpos m else Zpos m in
      Some (if 0 <=? e then v * 2 ^ e else - ((- v) / 2 ^ (- e)))
  | _ => None
  end.

Section Ops.
Context `{ShaperEnv}.

Definition int_of_double (x : spec_float) : Z :=
  match ceil_of x with
  | Some v => if (- 2 ^ 31 <=? v) && (v <? 2 ^ 31) then v else int_undefined x
  | None => int_undefined x
  end.

(** [ceil(((1/(interval*pow(10,-6))) * (size*8) * frames) / 8)], stored in an [int]. *)
Definition frame_bandwidth (interval size frames : Z) : Z :=
  let rate := ddiv (double_of_int 1) (dmul (double_of_int interval) pow_10_minus_6) in
  int_of_double (ddiv (dmul (dmul rate (double_of_int (i32 (size * 8)))) (double_of_int frames)) (double_of_int 8)).

(** ** Messages and [system] *)
Definition quote : string := String.String (byte_char 34) String.EmptyString.

Definition draw_next {A} (f : nat -> A) : stM Shaper A := fun s =>
  Done (f (draws s), mkShaper (streams s) (sr_classa s) (sr_classb s) (slots s) (filterhandle_classa s) (filterhandle_classb s)
    (interface s) (bandwidth s) (ran s) (replies s) (S (draws s))).

Definition log_client_error_message (sockfd : Z) (text : string) : stM Shaper unit :=
  st_lift (sprintf_at 200 0 text) ;!
  add_reply (sockfd, told_error text).

Definition usage (sockfd : Z) : stM Shaper unit := add_reply (sockfd, told_usage).

(** The command is printed into an array of 1000 bytes; the result is that of [system]. *)
Definition run_tc (sockfd : Z) (c : tc) : stM Shaper Z :=
  st_lift (sprintf_at 1000 0 (tc_text c)) ;!
  let! rc := draw_next system_rc in
  add_ran c ;!
  (when rc <? 0 do log_client_error_message sockfd ("command(" +:+ quote +:+ tc_text c +:+ quote +:+ ") failed")) ;!
  st_ret rc.

Definition tc_class_command (sockfd : Z) (command id dev : string) (rate cburst : Z) : stM Shaper unit :=
  run_tc sockfd (tc_class command id dev rate cburst) ;! st_ret tt.

Definition add_filter (sockfd : Z) (dev : string) (parent handle : Z) (id dst : string) : stM Shaper unit :=
  run_tc sockfd (tc_filter_add dev handle parent id dst) ;! st_ret tt.

(** ** The list of streams *)
Definition insert_stream_da (d : stream_da) (sockfd : Z) : stM Shaper unit :=
  let! mem := draw_next sh_malloc in
  if negb mem then
    log_client_error_message sockfd "Unable to allocate memory. Exiting program" ;! st_lift (Fault Exited)
  else let! s := st_get in put_streams (streams s ++ [d]).

Fixpoint find_stream (l : list stream_da) (addr : string) : option stream_da :=
  match l with
  | [] => None
  | d :: l' => if decide (dest_addr d = addr) then Some d else find_stream l' addr
  end.

Definition check_stream_da (sockfd : Z) (addr : string) : stM Shaper bool :=
  let! s := st_get in
  match find_stream (streams s) addr with
  | Some _ => log_client_error_message sockfd "Stream DA already present" ;! st_ret true
  | None => st_ret false
  end.

Definition get_stream_da (sockfd : Z) (addr : string) : stM Shaper (option stream_da) :=
  let! s := st_get in
  match find_stream (streams s) addr with
  | Some d => st_ret (Some d)
  | None => log_client_error_message sockfd "Unknown Stream DA" ;! st_ret None
  end.

Fixpoint unlink_stream (l : list stream_da) (addr : string) : list stream_da :=
  match l with
  | [] => []
  | d :: l' => if decide (dest_addr d = addr) then l' else d :: unlink_stream l' addr
  end.

(** With an empty list [current->next] is read through NULL. *)
Definition remove_stream_da (addr : string) : stM Shaper unit :=
  let! s := st_get in
  match streams s with
  | [] => st_lift (Fault NullDeref)
  | l => put_streams (unlink_stream l addr)
  end.

Definition delete_streamda_list : stM Shaper unit := put_streams [].

(** ** [process_command] *)

(** The combinations that are refused, with the message; the test for a missing stream
    address compares an array with NULL and never holds. *)
Definition complaint (i : cmd_ip) : option string :=
  if reserve_bw i && unreserve_bw i then Some "Cannot reserve and unreserve bandwidth at the same time"
  else if reserve_bw i && ((max_frame_size i =? 0) || (measurement_interval i =? 0) || (max_frame_interval i =? 0) ||
                           (negb (class_a i) && negb (class_b i))) then
    Some "class, max_frame_size, measurement_interval and max_frame_interval are mandatory inputs"
  else if reserve_bw i && class_a i && class_b i then Some "Cannot reserve for both class A and class B"
  else if (quit i || delete_qdisc i) && (reserve_bw i || unreserve_bw i) then
    Some "Quit or Delete cannot be used with other commands"
  else None.

(** Everything is taken back. *)
Definition delete_all (sockfd : Z) : stM Shaper unit :=
  let! s := st_get in
  when sr_classa s || sr_classb s do (
    delete_streamda_list ;!
    (when negb (bool_decide (interface s = String.EmptyString)) do (run_tc sockfd (tc_root_del (interface s)) ;! st_ret tt)) ;!
    put_class false false ;!
    put_slots (fun _ => no_slot)).

(** The root of the hierarchy, before the first reservation; [false] ends the command. *)
Definition init_qdisc (sockfd : Z) (i : cmd_ip) : stM Shaper bool :=
  let! s := st_get in
  if sr_classa s || sr_classb s then st_ret true
  else if decide (cmd_interface i = String.EmptyString) then
    (when unreserve_bw i || reserve_bw i do
       log_client_error_message sockfd "Interface is mandatory for the first command") ;!
    usage sockfd ;! st_ret false
  else
    let! rc := run_tc sockfd (tc_root_add (cmd_interface i)) in
    if rc <? 0 then st_ret false else put_interface (cmd_interface i) ;! st_ret true.

(** The queueing discipline of class A or B, before its first stream. *)
Definition open_class (sockfd : Z) (a : bool) : stM Shaper bool :=
  let! s := st_get in
  if (if a then sr_classa s else sr_classb s) then st_ret true
  else
    put_class (sr_classa s || a) (sr_classb s || negb a) ;!
    let! rc := run_tc sockfd (tc_qdisc_add (interface s) a) in
    st_ret (0 <=? rc).

Definition reserve_in (sockfd : Z) (c : sr_class) (i : cmd_ip) (maxburst : Z) : stM Shaper unit :=
  let! s := st_get in
  let bw := i32 (slot_bw (slots s c) + bandwidth s) in
  put_slots (set_slot c (mkSlot true bw) (slots s)) ;!
  tc_class_command sockfd (if slot_used (slots s c) then "change" else "add") (classid c) (interface s) bw maxburst ;!
  let handle := handle_of (in_class_a c) s in
  add_filter sockfd (interface s) (class_parent (in_class_a c)) handle (classid c) (cmd_stream_da i) ;!
  insert_stream_da (mkStream (cmd_stream_da i) (bandwidth s) (classid c) handle) sockfd ;!
  if in_class_a c then put_handles (i32 (filterhandle_classa s + 1)) (filterhandle_classb s)
  else put_handles (filterhandle_classa s) (i32 (filterhandle_classb s + 1)).

Definition reserve_stream (sockfd : Z) (i : cmd_ip) (maxburst : Z) : stM Shaper Z :=
  let! present := check_stream_da sockfd (cmd_stream_da i) in
  if (present : bool) then st_ret 1
  else
    let! ok := open_class sockfd (class_a i) in
    if negb ok then st_ret (-1)
    else
      match class_of (class_a i) (measurement_interval i) with
      | Some c => reserve_in sockfd c i maxburst ;! st_ret 1
      | None =>
          log_client_error_message sockfd
            ("Measurement Interval (" +:+ fmt_int (measurement_interval i) +:+ ") doesn't match that of Class " +:+
             (if class_a i then "A (125 or 136)" else "B (250 or 272)") +:+ " traffic. Enter a valid measurement interval") ;!
          st_ret (-1)
      end.

Definition unreserve_stream (sockfd : Z) (i : cmd_ip) (maxburst : Z) : stM Shaper Z :=
  let! found := get_stream_da sockfd (cmd_stream_da i) in
  match found with
  | None => st_ret 1
  | Some d =>
      let! s := st_get in
      let! class_bw := (match class_named (class_id d) with
        | Some c =>
            let bw := i32 (slot_bw (slots s c) - stream_bw d) in
            put_slots (set_slot c (mkSlot (slot_used (slots s c)) bw) (slots s)) ;! st_ret bw
        | None => st_ret 0
        end) in
      tc_class_command sockfd "change" (class_id d) (interface s) (if class_bw =? 0 then 1 else class_bw) maxburst ;!
      let! rc := run_tc sockfd (tc_filter_del (interface s) (String.substring 0 2 (class_id d)) (filter_handle d)) in
      if rc <? 0 then st_ret (-1)
      else remove_stream_da (dest_addr d) ;! st_ret 1
  end.

(** 1 for a command that is done, -1 for an error, 0 to exit. *)
Definition process_cmd (sockfd : Z) (i : cmd_ip) : stM Shaper Z :=
  match complaint i with
  | Some text => log_client_error_message sockfd text ;! usage sockfd ;! st_ret (-1)
  | None =>
      (when quit i || delete_qdisc i do delete_all sockfd) ;!
      if quit i then st_ret 0
      else
        let! ok := init_qdisc sockfd i in
        if negb ok then st_ret (-1)
        else if reserve_bw i || unreserve_bw i then
          put_bandwidth (frame_bandwidth (measurement_interval i) (max_frame_size i) (max_frame_interval i)) ;!
          let maxburst := i32 (i32 (max_frame_size i * max_frame_interval i) * 2) in
          if reserve_bw i then reserve_stream sockfd i maxburst else unreserve_stream sockfd i maxburst
        else st_ret 1
  end.

Definition process_command (sockfd : Z) (command : list Z) : stM Shaper Z :=
  let! i := st_lift (parse_cmd command) in
  process_cmd sockfd i.

End Ops.

(** ** The loop of [main]

    The clients' sockets, the slot for the next one, and the array commands are read into. *)
Record Daemon := mkDaemon {
  shaper : Shaper;
  clientfd : list Z;
  nextclientindex : Z;
  command : list Z;
  exit_received : bool }.

Definition MAX_CLIENT_CONNECTIONS : Z := 10.

(** [sizeof(command)]. *)
Definition COMMAND_SIZE : nat := 100.

(** [junk] is what the uninitialised array holds. *)
Definition daemon_start (junk : list Z) : Daemon :=
  mkDaemon shaper_start (replicate (Z.to_nat MAX_CLIENT_CONNECTIONS) (-1)) 0 (resize COMMAND_SIZE 0 junk) false.

(** What [select] wakes the loop for: a line on the terminal, a connection, data of the
    client in a slot ([None] for an error, [Some []] when it has closed), a signal. *)
Inductive shaper_input :=
  | in_stdin (data : list Z)
  | in_connect (newfd : Z)
  | in_client (slot : nat) (data : option (list Z))
  | in_signal.

(** The bytes up to the last that is no white space. *)
Fixpoint trim_end (l : list Z) : list Z :=
  match l with
  | [] => []
  | b :: l' => match trim_end l' with [] => if is_space b then [] else [b] | t => b :: t end
  end.

(** The array after a command, of which one byte less than the array has is read: from the
    terminal as it is, from a client without trailing white space, which is overwritten by
    zeros. *)
Definition place (trim : bool) (data buf : list Z) : list Z :=
  let got := take (length buf - 1) data in
  let kept := if trim then trim_end got else got in
  kept ++ replicate (length got - length kept + 1) 0 ++ drop (length got + 1) buf.

(** The search for a free slot; it looks at the slot [next] every time. *)
Fixpoint probe_slots (fuel : nat) (i next : Z) (fds : list Z) : Z :=
  match fuel with
  | O => i
  | S fuel' =>
      if i =? next then i
      else if decide (fds !! Z.to_nat next = Some (-1)) then i
      else probe_slots fuel' ((i + 1) mod MAX_CLIENT_CONNECTIONS) next fds
  end.

Definition accept_client (newfd : Z) (d : Daemon) : Daemon :=
  let next := nextclientindex d in
  let fd :=
    if decide (clientfd d !! Z.to_nat next = Some (-1)) then newfd
    else
      let i := probe_slots (Z.to_nat MAX_CLIENT_CONNECTIONS) ((next + 1) mod MAX_CLIENT_CONNECTIONS) next (clientfd d) in
      if i =? next then -1 else newfd in
  if fd =? -1 then d
  else mkDaemon (shaper d) (<[Z.to_nat next := fd]> (clientfd d)) ((next + 1) mod MAX_CLIENT_CONNECTIONS) (command d) (exit_received d).

Definition drop_client (i : nat) (d : Daemon) : Daemon :=
  mkDaemon (shaper d) (<[i := -1]> (clientfd d)) (Z.of_nat i) (command d) (exit_received d).

Section Loop.
Context `{ShaperEnv}.

(** A command from [sockfd], in the array [buf]. *)
Definition daemon_command (sockfd : Z) (buf : list Z) : stM Daemon unit := fun d =>
  match process_command sockfd buf (shaper d) with
  | Done (ret, s) => Done (tt, mkDaemon s (clientfd d) (nextclientindex d) buf (exit_received d || (ret =? 0)))
  | Fault w => Fault w
  end.

Definition shaper_handle (i : shaper_input) : stM Daemon unit :=
  match i with
  | in_stdin [] => st_ret tt
  | in_stdin data => let! d := st_get in daemon_command (-1) (place false data (command d))
  | in_connect newfd => st_modify (accept_client newfd)
  | in_client slot data =>
      let! d := st_get in
      match clientfd d !! slot with
      | None => st_lift (Fault OutOfBounds)
      | Some fd =>
          if fd =? -1 then st_ret tt
          else
            match data with
            | None | Some [] => st_modify (drop_client slot)
            | Some data => daemon_command fd (place true data (command d))
            end
      end
  | in_signal =>
      let! d := st_get in
      daemon_command (-1) (bytes_of_string "-q" ++ [0]) ;!
      st_modify (fun d' => mkDaemon (shaper d') (clientfd d') (nextclientindex d') (command d) true)
  end.

End Loop.
