(* ===== verification/ShaperInv.v ===== *)
(** * ShaperInv: the bandwidth of the classes and what the kernel was asked for

    [asked] reads a list of [tc] commands as the rates and filters they ask for.  The
    invariant says that the bandwidth of each class is the sum of its streams' and that
    the commands run so far ask for exactly these rates and one filter for each stream,
    unless a client has been told that the deletion of a filter failed.  Every command keeps
    it, whatever [system] and [malloc] answer, and changes the table of reservations as
    [next_reservations] says or, when a client is told of a failure, not at all. *)
From Stdlib Require Import SpecFloat.
From stdpp Require Import base gmap strings numbers list sorting.
From S2P Require Import Prelude Text Parse Shaper.
#[local] Open Scope Z_scope.
#[local] Open Scope st_scope.

(** ** What commands ask for *)
Record Asked := mkAsked { rates : gmap string Z; filters : gmap (string * Z) (string * string) }.

Definition parent_text (parent : Z) : string := fmt_int parent +:+ ":".

Definition ask (q : Asked) (c : tc) : Asked :=
  match c with
  | tc_root_add _ | tc_qdisc_add _ _ => q
  | tc_root_del _ => mkAsked ∅ ∅
  | tc_class _ id _ rate _ => mkAsked (<[id := rate]> (rates q)) (filters q)
  | tc_filter_add _ handle parent id dst => mkAsked (rates q) (<[(parent_text parent, handle) := (id, dst)]> (filters q))
  | tc_filter_del _ parent handle => mkAsked (rates q) (delete (parent, handle) (filters q))
  end.

Definition asked (l : list tc) : Asked := foldl ask (mkAsked ∅ ∅) l.

Lemma asked_snoc l c : asked (l ++ [c]) = ask (asked l) c.
Proof. unfold asked. by rewrite foldl_app. Qed.

(** ** The streams of a class *)
Definition class_sum (l : list stream_da) (c : sr_class) : Z :=
  foldr (fun d n => (if decide (class_id d = classid c) then stream_bw d else 0) + n) 0 l.

(** The filter of a stream. *)
Definition stream_filter (d : stream_da) : (string * Z) * (string * string) :=
  ((String.substring 0 2 (class_id d), filter_handle d), (class_id d, dest_addr d)).

Lemma class_sum_app l1 l2 c : class_sum (l1 ++ l2) c = class_sum l1 c + class_sum l2 c.
Proof. induction l1 as [|d l1 IH]; cbn [class_sum foldr app]; [done|]. unfold class_sum in *. cbn. lia. Qed.

Lemma classid_inj c c' : classid c = classid c' -> c = c'.
Proof. by destruct c, c'. Qed.

Lemma class_named_id c : class_named (classid c) = Some c.
Proof. by destruct c. Qed.

Lemma parent_of_class c : String.substring 0 2 (classid c) = parent_text (class_parent (in_class_a c)).
Proof. by destruct c. Qed.

Lemma parent_text_inj a a' : parent_text (class_parent a) = parent_text (class_parent a') -> a = a'.
Proof. by destruct a, a'. Qed.

Lemma class_of_kind a n c : class_of a n = Some c -> in_class_a c = a.
Proof. unfold class_of. destruct a; repeat case_match; by intros [= <-]. Qed.

(** ** The invariant *)
Record stream_ok (s : Shaper) (d : stream_da) : Prop := mkStreamOk {
  so_class : exists c, class_id d = classid c /\ slot_used (slots s c) = true /\ filter_handle d < handle_of (in_class_a c) s;
  so_addr : (String.length (dest_addr d) <= 17)%nat }.

(** Bandwidth, rates and filters follow the streams. *)
Record in_step (s : Shaper) : Prop := mkInStep {
  si_bw c : slot_bw (slots s c) = i32 (class_sum (streams s) c);
  si_rates c : if slot_used (slots s c)
    then exists r, rates (asked (ran s)) !! classid c = Some r /\
      (r = slot_bw (slots s c) \/ slot_bw (slots s c) = 0 /\ r = 1)
    else rates (asked (ran s)) !! classid c = None;
  si_filters : filters (asked (ran s)) = list_to_map (stream_filter <$> streams s) }.

(** What a client is told of a command that could not be started. *)
Definition failure_text (c : tc) : string := "command(" +:+ quote +:+ tc_text c +:+ quote +:+ ") failed".
Definition told_failure (c : tc) (l : list (Z * reply)) : Prop := exists fd, (fd, told_error (failure_text c)) ∈ l.

(** A client has been told that the deletion of a filter failed. *)
Definition release_failed (s : Shaper) : Prop :=
  exists dev parent handle, told_failure (tc_filter_del dev parent handle) (replies s).

Record shaper_inv (s : Shaper) : Prop := mkShaperInv {
  si_addrs : NoDup (dest_addr <$> streams s);
  si_streams : Forall (stream_ok s) (streams s);
  si_open c : slot_used (slots s c) = true -> (if in_class_a c then sr_classa s else sr_classb s) = true;
  si_dev : sr_classa s || sr_classb s = true -> interface s <> String.EmptyString;
  si_len : (String.length (interface s) <= 15)%nat;
  si_keys : NoDup ((stream_filter <$> streams s).*1);
  si_step : release_failed s \/ in_step s }.

Lemma told_failure_app c l l' : told_failure c l -> told_failure c (l ++ l').
Proof. intros [fd H]. exists fd. apply elem_of_app. by left. Qed.

Lemma release_failed_more s s' l : replies s' = replies s ++ l -> release_failed s -> release_failed s'.
Proof. intros E (dev & p & h & H). exists dev, p, h. rewrite E. by apply told_failure_app. Qed.

Lemma streams_ok_same s s' l : Forall (stream_ok s) l -> slots s' = slots s ->
  filterhandle_classa s' = filterhandle_classa s -> filterhandle_classb s' = filterhandle_classb s -> Forall (stream_ok s') l.
Proof.
  intros Hs H1 H2 H3. eapply Forall_impl; [exact Hs|]. intros d [(c & ? & ? & ?) ?]. split; [|done]. exists c.
  unfold handle_of in *. by rewrite H1, H2, H3.
Qed.

Lemma shaper_start_inv : shaper_inv shaper_start.
Proof. split; cbn; [constructor|constructor|done|done|lia|constructor|right; by split]. Qed.

(** ** Removing a stream *)
Lemma find_stream_split l addr d : find_stream l addr = Some d ->
  exists l1 l2, l = l1 ++ d :: l2 /\ dest_addr d = addr /\ unlink_stream l addr = l1 ++ l2.
Proof.
  induction l as [|x l IH]; [done|]. cbn. case_decide as E.
  - intros [= ->]. by exists [], l.
  - intros Hf. destruct (IH Hf) as (l1 & l2 & -> & ? & Hu). exists (x :: l1), l2. split_and!; [done..|]. cbn. by rewrite Hu.
Qed.

Lemma find_stream_none l addr : find_stream l addr = None -> addr ∉ dest_addr <$> l.
Proof.
  induction l as [|x l IH]; [intros _; apply not_elem_of_nil|]. cbn. case_decide; [done|]. intros Hf.
  apply not_elem_of_cons. split; [congruence|auto].
Qed.

Lemma i32_add_l x y : i32 (i32 x + y) = i32 (x + y).
Proof.
  unfold i32, U32. set (m := 2 ^ 32). set (h := 2 ^ 31).
  replace ((x + h) mod m - h + y + h) with ((x + h) mod m + y) by lia. rewrite Zplus_mod_idemp_l. do 2 f_equal. lia.
Qed.
Lemma i32_sub_l x y : i32 (i32 x - y) = i32 (x - y).
Proof. exact (i32_add_l x (- y)). Qed.

(** ** Running a command *)
(** The parts of a command that are not of the daemon's own making are short. *)
Definition tc_short (c : tc) : Prop :=
  match c with
  | tc_root_add dev | tc_root_del dev | tc_qdisc_add dev _ => (String.length dev <= 15)%nat
  | tc_class command id dev _ _ => (String.length command <= 6 /\ String.length id <= 4 /\ String.length dev <= 15)%nat
  | tc_filter_add dev _ _ id dst => (String.length dev <= 15 /\ String.length id <= 4 /\ String.length dst <= 17)%nat
  | tc_filter_del dev parent _ => (String.length dev <= 15 /\ String.length parent <= 2)%nat
  end.

Lemma tc_text_short c : tc_short c -> (String.length (tc_text c) <= 180)%nat.
Proof.
  destruct c; cbn [tc_short tc_text]; rewrite ?string_length_app; intros;
    repeat match goal with |- context [fmt_int ?v] => pose proof (length_fmt_int v); generalize dependent (String.length (fmt_int v)); intros end;
    try (destruct a); cbn [String.length] in *; lia.
Qed.

Section ops.
Context `{env : ShaperEnv}.

(** What is told of a command, and the state after it. *)
Definition tc_reply (sockfd : Z) (c : tc) (n : nat) : list (Z * reply) :=
  if system_rc n <? 0 then [(sockfd, told_error (failure_text c))] else [].
Definition after_run (sockfd : Z) (c : tc) (s : Shaper) : Shaper :=
  mkShaper (streams s) (sr_classa s) (sr_classb s) (slots s) (filterhandle_classa s) (filterhandle_classb s) (interface s)
    (bandwidth s) (ran s ++ [c]) (replies s ++ tc_reply sockfd c (draws s)) (S (draws s)).

Definition after_reply (r : Z * reply) (s : Shaper) : Shaper :=
  mkShaper (streams s) (sr_classa s) (sr_classb s) (slots s) (filterhandle_classa s) (filterhandle_classb s) (interface s)
    (bandwidth s) (ran s) (replies s ++ [r]) (draws s).

Lemma error_eq sockfd text s :
  (String.length text < 200)%nat -> log_client_error_message sockfd text s = Done (tt, after_reply (sockfd, told_error text) s).
Proof.
  intros Hl. unfold log_client_error_message, st_bind, st_lift, sprintf_at.
  by destruct (Z.leb_spec (0 + Z.of_nat (String.length text) + 1) 200); [|lia].
Qed.

Lemma run_tc_eq sockfd c s : tc_short c -> run_tc sockfd c s = Done (system_rc (draws s), after_run sockfd c s).
Proof.
  intros Hc. apply tc_text_short in Hc. unfold run_tc. fold (failure_text c).
  assert (String.length (failure_text c) < 200)%nat as Hf by (unfold failure_text; rewrite !string_length_app; cbn; lia).
  unfold st_bind at 1, st_lift, sprintf_at. destruct (Z.leb_spec (0 + Z.of_nat (String.length (tc_text c)) + 1) 1000); [|lia]. cbn [outcome_map fmap].
  unfold st_bind, draw_next, add_ran, st_modify, after_run, tc_reply. cbn [draws].
  destruct (system_rc (draws s) <? 0); [by rewrite error_eq|]. unfold st_ret. by rewrite app_nil_r.
Qed.

(** What is told only grows, and so does the number of answers of the system. *)
Definition more (s s' : Shaper) : Prop := (exists l, replies s' = replies s ++ l) /\ (draws s <= draws s')%nat.
Lemma more_refl s : more s s.
Proof. split; [|done]. exists []. by rewrite app_nil_r. Qed.
Lemma more_trans s1 s2 s3 : more s1 s2 -> more s2 s3 -> more s1 s3.
Proof. intros [[l E] ?] [[l' E'] ?]. split; [|lia]. exists (l ++ l'). by rewrite E', E, app_assoc. Qed.

(** Only replies, answers and the bandwidth of the command have changed. *)
Record same_config (s s' : Shaper) : Prop := mkSame {
  sc_streams : streams s' = streams s;
  sc_classa : sr_classa s' = sr_classa s;
  sc_classb : sr_classb s' = sr_classb s;
  sc_slots : slots s' = slots s;
  sc_handlea : filterhandle_classa s' = filterhandle_classa s;
  sc_handleb : filterhandle_classb s' = filterhandle_classb s;
  sc_interface : interface s' = interface s;
  sc_asked : asked (ran s') = asked (ran s);
  sc_more : more s s' }.

Lemma same_inv s s' : shaper_inv s -> same_config s s' -> shaper_inv s'.
Proof.
  intros [] []. split; unfold handle_of in *; rewrite ?sc_streams0, ?sc_slots0, ?sc_classa0, ?sc_classb0, ?sc_interface0; try done.
  - by eapply streams_ok_same.
  - destruct sc_more0 as [[l Hl] _]. destruct si_step0 as [?|[]]; [left; by eapply release_failed_more|right].
    split; by rewrite ?sc_streams0, ?sc_slots0, ?sc_asked0.
Qed.

(** A computation that can only fail for want of memory, asked for since the state [s0]. *)
Definition wpx (s0 : Shaper) {A} (m : stM Shaper A) (Q : A -> Shaper -> Prop) (s : Shaper) : Prop :=
  (m s = Fault Exited /\ exists n, (draws s0 <= n)%nat /\ sh_malloc n = false) \/ wp m Q s.

Lemma wpx_wp s0 {A} (m : stM Shaper A) Q s : wp m Q s -> wpx s0 m Q s.
Proof. by right. Qed.
Lemma wpx_bind s0 {A B} (m : stM Shaper A) (k : A -> stM Shaper B) Q s :
  wpx s0 m (fun a => wpx s0 (k a) Q) s -> wpx s0 (st_bind m k) Q s.
Proof.
  unfold wpx at 1 3, wp, st_bind. intros [[-> ?]|H]; [by left|]. by destruct (m s) as [[a s']|].
Qed.
Lemma wpx_mono s0 {A} (m : stM Shaper A) (Q1 Q2 : A -> Shaper -> Prop) s :
  wpx s0 m Q1 s -> (forall a s', Q1 a s' -> Q2 a s') -> wpx s0 m Q2 s.
Proof. intros [?|H] HQ; [by left|]. right. by eapply wp_mono. Qed.

(** ** Reservation *)

(** A new stream [d] of the class [c]; [told] is what clients are told of it. *)
Definition with_stream (c : sr_class) (d : stream_da) (maxburst : Z) (told : list (Z * reply)) (s : Shaper) : Shaper :=
  let bw := i32 (slot_bw (slots s c) + stream_bw d) in
  mkShaper (streams s ++ [d]) (sr_classa s) (sr_classb s) (set_slot c (mkSlot true bw) (slots s))
    (if in_class_a c then i32 (filterhandle_classa s + 1) else filterhandle_classa s)
    (if in_class_a c then filterhandle_classb s else i32 (filterhandle_classb s + 1))
    (interface s) (bandwidth s)
    ((ran s ++ [tc_class (if slot_used (slots s c) then "change" else "add") (classid c) (interface s) bw maxburst]) ++
     [tc_filter_add (interface s) (filter_handle d) (class_parent (in_class_a c)) (classid c) (dest_addr d)])
    (replies s ++ told) (S (S (S (draws s)))).

(** The handles have not run out. *)
Definition room (s : Shaper) : Prop :=
  0 <= filterhandle_classa s < 2 ^ 31 - 1 /\ 0 <= filterhandle_classb s < 2 ^ 31 - 1.

Lemma room_handle a s : room s -> i32 (handle_of a s + 1) = handle_of a s + 1.
Proof. intros [? ?]. apply i32_small. unfold handle_of. destruct a; lia. Qed.

Lemma with_stream_handle c d b t s a : room s ->
  handle_of a (with_stream c d b t s) = handle_of a s + (if decide (a = in_class_a c) then 1 else 0).
Proof.
  intros Hr. pose proof (room_handle a s Hr). unfold handle_of in *. cbn. case_decide; destruct a, (in_class_a c); cbn in *; congruence || lia.
Qed.

Lemma stream_key_fresh s c d :
  Forall (stream_ok s) (streams s) -> class_id d = classid c -> filter_handle d = handle_of (in_class_a c) s ->
  (stream_filter d).1 ∉ (stream_filter <$> streams s).*1.
Proof.
  intros Hs Hc Hh. rewrite <- list_fmap_compose. intros (d' & E & Hd')%list_elem_of_fmap.
  rewrite Forall_forall in Hs. destruct (Hs d' Hd') as [(c' & Hc' & _ & Hlt) _]. cbn in E. injection E as E1 E2.
  rewrite Hc, Hc', !parent_of_class in E1. apply parent_text_inj in E1. rewrite <- E1, <- E2, Hh in Hlt. lia.
Qed.

Lemma with_stream_step c d b t s :
  in_step s -> class_id d = classid c -> (stream_filter d).1 ∉ (stream_filter <$> streams s).*1 -> in_step (with_stream c d b t s).
Proof.
  intros [] Hc Hk. split; cbn [with_stream streams slots ran].
  - intros c'. rewrite class_sum_app. unfold set_slot. cbn [class_sum foldr]. case_decide as E.
    + subst c'. cbn [slot_bw]. rewrite decide_True by done. rewrite si_bw0, i32_add_l. f_equal. lia.
    + rewrite decide_False by (rewrite Hc; by intros H%classid_inj). rewrite si_bw0. f_equal. lia.
  - intros c'. rewrite !asked_snoc. cbn [ask rates]. unfold set_slot. case_decide as E.
    + subst c'. cbn [slot_used slot_bw]. rewrite lookup_insert_eq. eauto.
    + rewrite lookup_insert_ne by (by intros H%classid_inj). apply si_rates0.
  - rewrite !asked_snoc. cbn [ask filters]. rewrite si_filters0, fmap_app. cbn [fmap list_fmap].
    assert (stream_filter d = ((parent_text (class_parent (in_class_a c)), filter_handle d), (classid c, dest_addr d))) as Hd
      by (unfold stream_filter; by rewrite Hc, parent_of_class).
    rewrite Hd in *. by rewrite list_to_map_snoc.
Qed.

Lemma with_stream_inv c d b t s :
  shaper_inv s -> room s -> dest_addr d ∉ dest_addr <$> streams s -> class_id d = classid c ->
  filter_handle d = handle_of (in_class_a c) s -> (String.length (dest_addr d) <= 17)%nat ->
  (if in_class_a c then sr_classa s else sr_classb s) = true -> shaper_inv (with_stream c d b t s).
Proof.
  intros [] Hr Ha Hc Hh Hl Ho. pose proof (stream_key_fresh s c d si_streams0 Hc Hh) as Hk.
  split; cbn [with_stream streams sr_classa sr_classb slots interface ran].
  - rewrite fmap_app. apply NoDup_app. split_and!; [done| |apply NoDup_singleton].
    by intros k Hk' ->%list_elem_of_singleton.
  - apply Forall_app. split.
    + eapply Forall_impl; [exact si_streams0|]. intros x [(c' & Hx1 & Hx2 & Hx3) ?]. split; [|done]. exists c'. split; [done|]. split.
      * cbn. unfold set_slot. by case_decide.
      * rewrite with_stream_handle by done. case_decide; lia.
    + constructor; [|constructor]. split; [|done]. exists c. split; [done|]. split; [cbn; unfold set_slot; by rewrite decide_True|].
      rewrite with_stream_handle, decide_True, Hh by done. lia.
  - intros c'. unfold set_slot. case_decide; [by subst|apply si_open0].
  - done.
  - done.
  - rewrite !fmap_app. apply NoDup_app. split_and!; [done| |apply NoDup_singleton].
    by intros k Hk' ->%list_elem_of_singleton.
  - destruct si_step0 as [Hf|Hstep]; [left; by eapply release_failed_more|right]. by apply with_stream_step.
Qed.

(** ** Release *)
Definition without_stream (c : sr_class) (d : stream_da) (maxburst : Z) (told : list (Z * reply)) (s : Shaper) : Shaper :=
  let bw := i32 (slot_bw (slots s c) - stream_bw d) in
  mkShaper (unlink_stream (streams s) (dest_addr d)) (sr_classa s) (sr_classb s)
    (set_slot c (mkSlot (slot_used (slots s c)) bw) (slots s)) (filterhandle_classa s) (filterhandle_classb s)
    (interface s) (bandwidth s)
    ((ran s ++ [tc_class "change" (class_id d) (interface s) (if bw =? 0 then 1 else bw) maxburst]) ++
     [tc_filter_del (interface s) (String.substring 0 2 (class_id d)) (filter_handle d)])
    (replies s ++ told) (S (S (draws s))).

Lemma without_stream_step c d b t s l1 l2 :
  in_step s -> NoDup ((stream_filter <$> streams s).*1) -> streams s = l1 ++ d :: l2 -> unlink_stream (streams s) (dest_addr d) = l1 ++ l2 ->
  class_id d = classid c -> slot_used (slots s c) = true -> in_step (without_stream c d b t s).
Proof.
  intros [] Hn El Eu Hc Hu. assert (streams s ≡ₚ d :: l1 ++ l2) as Ep by (rewrite El; symmetry; apply Permutation_middle).
  split; cbn [without_stream streams slots ran]; rewrite ?Eu.
  - intros c'. assert (class_sum (streams s) c' = (if decide (class_id d = classid c') then stream_bw d else 0) + class_sum (l1 ++ l2) c') as Hsum.
    { rewrite El, !class_sum_app. cbn [class_sum foldr]. unfold class_sum. lia. }
    unfold set_slot. destruct (decide (c' = c)) as [->|E].
    + cbn [slot_bw]. rewrite decide_True in Hsum by done. rewrite si_bw0, i32_sub_l. f_equal. lia.
    + rewrite decide_False in Hsum by (rewrite Hc; by intros H%classid_inj). rewrite si_bw0. f_equal. lia.
  - intros c'. rewrite !asked_snoc. cbn [ask rates]. rewrite Hc. unfold set_slot. case_decide as E.
    + subst c'. cbn [slot_used slot_bw]. rewrite Hu, lookup_insert_eq. eexists. split; [done|]. destruct (Z.eqb_spec (i32 (slot_bw (slots s c) - stream_bw d)) 0); auto.
    + rewrite lookup_insert_ne by (by intros H%classid_inj). apply si_rates0.
  - rewrite !asked_snoc. cbn [ask filters]. rewrite si_filters0.
    assert (list_to_map (stream_filter <$> streams s) =@{gmap _ _} list_to_map (stream_filter <$> d :: l1 ++ l2)) as ->.
    { apply list_to_map_proper; [done|]. by rewrite Ep. }
    rewrite Ep in Hn. cbn in Hn. apply NoDup_cons in Hn as [Hn _].
    cbn [fmap list_fmap list_to_map foldr]. unfold stream_filter at 1. cbn. rewrite delete_insert_eq. apply delete_id.
    by apply not_elem_of_list_to_map_1.
Qed.

Lemma stream_ok_slot s c v l : Forall (stream_ok s) l -> slot_used (slots s c) = true -> slot_used v = true -> forall s',
  slots s' = set_slot c v (slots s) -> filterhandle_classa s' = filterhandle_classa s -> filterhandle_classb s' = filterhandle_classb s ->
  Forall (stream_ok s') l.
Proof.
  intros Hs Hu Hv s' E1 E2 E3. eapply Forall_impl; [exact Hs|]. intros x [(c' & Hx1 & Hx2 & Hx3) ?]. split; [|done]. exists c'.
  unfold handle_of in *. rewrite E1, E2, E3. unfold set_slot. split_and!; [done| |done]. by case_decide.
Qed.

Lemma without_stream_inv c d b t s addr :
  shaper_inv s -> find_stream (streams s) addr = Some d -> class_id d = classid c -> slot_used (slots s c) = true ->
  shaper_inv (without_stream c d b t s).
Proof.
  intros [] Hf Hc Hu. destruct (find_stream_split _ _ _ Hf) as (l1 & l2 & El & <- & Eu).
  assert (streams s ≡ₚ d :: l1 ++ l2) as Ep by (rewrite El; symmetry; apply Permutation_middle).
  split; cbn [without_stream streams sr_classa sr_classb slots interface]; rewrite ?Eu.
  - rewrite Ep in si_addrs0. cbn in si_addrs0. by apply NoDup_cons in si_addrs0 as [_ ?].
  - rewrite Ep in si_streams0. apply Forall_cons in si_streams0 as [_ H].
    by eapply (stream_ok_slot s c (mkSlot (slot_used (slots s c)) _)).
  - intros c'. unfold set_slot. case_decide; [subst; apply si_open0|apply si_open0].
  - done.
  - done.
  - rewrite Ep in si_keys0. cbn in si_keys0. by apply NoDup_cons in si_keys0 as [_ ?].
  - destruct si_step0 as [?|?]; [left; by eapply release_failed_more|right]. by eapply without_stream_step.
Qed.

(** A release that stops half way: the bandwidth is lowered and the stream stays. *)
Definition half_released (c : sr_class) (d : stream_da) (maxburst : Z) (told : list (Z * reply)) (s : Shaper) : Shaper :=
  let s' := without_stream c d maxburst told s in
  mkShaper (streams s) (sr_classa s') (sr_classb s') (slots s') (filterhandle_classa s') (filterhandle_classb s') (interface s')
    (bandwidth s') (ran s') (replies s') (draws s').

Lemma half_released_inv c d b t s : shaper_inv s -> slot_used (slots s c) = true -> release_failed (half_released c d b t s) ->
  shaper_inv (half_released c d b t s).
Proof.
  intros [] Hu Hf. split; cbn; [done| |..]; try done.
  - by eapply (stream_ok_slot s c (mkSlot (slot_used (slots s c)) _)).
  - intros c'. unfold set_slot. case_decide; [subst; apply si_open0|apply si_open0].
  - by left.
Qed.

(** ** The table of reservations *)
Definition stream_entry (d : stream_da) : string * (string * Z) := (dest_addr d, (class_id d, stream_bw d)).
Definition reservations (s : Shaper) : gmap string (string * Z) := list_to_map (stream_entry <$> streams s).

(** What a command does to it.  The commands that make sense: a reservation gives the frames
    and one class, and nothing goes with a release or with the end. *)
Definition accepted (i : cmd_ip) : bool :=
  implb (reserve_bw i) (negb (unreserve_bw i) && negb (max_frame_size i =? 0) && negb (measurement_interval i =? 0) &&
    negb (max_frame_interval i =? 0) && xorb (class_a i) (class_b i)) &&
  implb (quit i || delete_qdisc i) (negb (reserve_bw i || unreserve_bw i)).

(** The classes of traffic, by kind and measurement interval in microseconds. *)
Definition traffic_classes : list ((bool * Z) * string) :=
  [((true, 125), "2:10"); ((true, 136), "2:20"); ((false, 250), "3:30"); ((false, 272), "3:40")].
Definition traffic_class (a : bool) (interval : Z) : option string :=
  snd ∘ snd <$> list_find (fun x => fst x = (a, interval)) traffic_classes.

(** [active] is that a class has been opened before, [bw] the bandwidth of the frames. *)
Definition next_reservations (bw : Z) (active : bool) (i : cmd_ip) (t : gmap string (string * Z)) : gmap string (string * Z) :=
  if negb (accepted i) then t
  else if quit i || delete_qdisc i then ∅
  else if negb active && bool_decide (cmd_interface i = String.EmptyString) then t
  else if reserve_bw i then
    match t !! cmd_stream_da i, traffic_class (class_a i) (measurement_interval i) with
    | None, Some id => <[cmd_stream_da i := (id, bw)]> t
    | _, _ => t
    end
  else if unreserve_bw i then delete (cmd_stream_da i) t
  else t.

Lemma accepted_spec i : accepted i = match complaint i with Some _ => false | None => true end.
Proof.
  unfold accepted, complaint.
  destruct (reserve_bw i), (unreserve_bw i), (quit i), (delete_qdisc i), (class_a i), (class_b i), (max_frame_size i =? 0),
    (measurement_interval i =? 0), (max_frame_interval i =? 0); reflexivity.
Qed.

Lemma traffic_class_spec a n : traffic_class a n = classid <$> class_of a n.
Proof.
  unfold traffic_class, class_of. cbn [list_find fst traffic_classes].
  destruct (Z.eqb_spec n 125), (Z.eqb_spec n 136), (Z.eqb_spec n 250), (Z.eqb_spec n 272); destruct a; subst; try done;
    repeat (rewrite decide_False by congruence || rewrite decide_True by congruence); try done; lia.
Qed.

Definition cmd_short (i : cmd_ip) : Prop :=
  (String.length (cmd_interface i) <= 15 /\ String.length (cmd_stream_da i) <= 17)%nat.

Lemma entries_fst s : (stream_entry <$> streams s).*1 = dest_addr <$> streams s.
Proof. by rewrite <- list_fmap_compose. Qed.

Lemma reservations_none s addr : find_stream (streams s) addr = None -> reservations s !! addr = None.
Proof. intros H%find_stream_none. apply not_elem_of_list_to_map_1. by rewrite entries_fst. Qed.

Lemma find_stream_in l addr d : find_stream l addr = Some d -> d ∈ l /\ dest_addr d = addr.
Proof. intros (l1 & l2 & -> & ? & _)%find_stream_split. split; [|done]. apply elem_of_app. right. by left. Qed.

Lemma reservations_some s addr d : shaper_inv s -> find_stream (streams s) addr = Some d -> reservations s !! addr = Some (class_id d, stream_bw d).
Proof.
  intros [] [Hd <-]%find_stream_in. apply elem_of_list_to_map_1; [by rewrite entries_fst|].
  apply list_elem_of_fmap. by exists d.
Qed.

Lemma reservations_with c d b t s : find_stream (streams s) (dest_addr d) = None ->
  reservations (with_stream c d b t s) = <[dest_addr d := (class_id d, stream_bw d)]> (reservations s).
Proof.
  intros H%find_stream_none. unfold reservations. cbn. rewrite fmap_app. cbn [fmap list_fmap stream_entry].
  apply list_to_map_snoc. by rewrite <- list_fmap_compose.
Qed.

Lemma reservations_without c d b t s addr : shaper_inv s -> find_stream (streams s) addr = Some d ->
  reservations (without_stream c d b t s) = delete addr (reservations s).
Proof.
  intros [] Hf. destruct (find_stream_split _ _ _ Hf) as (l1 & l2 & El & <- & Eu). unfold reservations. cbn. rewrite Eu.
  assert (streams s ≡ₚ d :: l1 ++ l2) as Ep by (rewrite El; symmetry; apply Permutation_middle).
  assert (list_to_map (stream_entry <$> streams s) =@{gmap _ _} list_to_map (stream_entry <$> d :: l1 ++ l2)) as ->.
  { apply list_to_map_proper; [by rewrite entries_fst|]. by rewrite Ep. }
  rewrite Ep in si_addrs0. cbn in si_addrs0. apply NoDup_cons in si_addrs0 as [Hn _].
  cbn [fmap list_fmap list_to_map foldr stream_entry]. cbn. rewrite delete_insert_eq. symmetry. apply delete_id.
  apply not_elem_of_list_to_map_1. by rewrite <- list_fmap_compose.
Qed.

(** ** The commands *)
Lemma reserve_in_spec s0 sockfd c i b s (Q : unit -> Shaper -> Prop) : shaper_inv s -> cmd_short i -> more s0 s ->
  (forall t, Q tt (with_stream c (mkStream (cmd_stream_da i) (bandwidth s) (classid c) (handle_of (in_class_a c) s)) b t s)) ->
  wpx s0 (reserve_in sockfd c i b) Q s.
Proof.
  intros [] [Hi Ha] [_ Hm] HQ. unfold reserve_in, tc_class_command, add_filter. apply wpx_bind, wpx_wp, wp_get. set (bw := i32 _).
  assert (tc_short (tc_class (if slot_used (slots s c) then "change" else "add") (classid c) (interface s) bw b)) as H1
    by (cbn; destruct c, (slot_used _); cbn; lia).
  assert (tc_short (tc_filter_add (interface s) (handle_of (in_class_a c) s) (class_parent (in_class_a c)) (classid c) (cmd_stream_da i))) as H2
    by (cbn; destruct c; cbn; lia).
  apply wpx_bind, wpx_wp, wp_modify, wpx_bind, wpx_wp, wp_bind. eapply wp_intro; [by apply run_tc_eq|]. apply wp_ret.
  apply wpx_bind, wpx_wp, wp_bind. eapply wp_intro; [by apply run_tc_eq|]. apply wp_ret.
  unfold wpx, insert_stream_da, wp, st_bind, draw_next. cbn [draws after_run].
  destruct (sh_malloc _) eqn:Em; cbn [negb]; [right|left; split; [done|]; eexists; split; [|exact Em]; cbn; lia]. cbn.
  specialize (HQ (tc_reply sockfd (tc_class (if slot_used (slots s c) then "change" else "add") (classid c) (interface s) bw b) (draws s) ++
    tc_reply sockfd (tc_filter_add (interface s) (handle_of (in_class_a c) s) (class_parent (in_class_a c)) (classid c) (cmd_stream_da i)) (S (draws s)))).
  unfold with_stream in HQ. cbn in HQ. rewrite app_assoc in HQ. by destruct (in_class_a c).
Qed.

Lemma inactive_slots s : shaper_inv s -> sr_classa s || sr_classb s = false -> streams s = [] /\ forall c, slot_used (slots s c) = false.
Proof.
  intros [] [Ha Hb]%orb_false_iff.
  assert (forall c, slot_used (slots s c) = false) as Hu.
  { intros c. apply not_true_is_false. intros H%si_open0. destruct (in_class_a c); congruence. }
  split; [|done]. destruct (streams s) as [|d l]; [done|]. apply Forall_cons in si_streams0 as [[(c & _ & H & _) _] _]. by rewrite Hu in H.
Qed.

(** The commands whose failure ends the work of the daemon on a command. *)
Definition blocking (c : tc) : bool :=
  match c with tc_root_add _ | tc_qdisc_add _ _ | tc_filter_del _ _ _ => true | _ => false end.

(** Between two states [system] answered with an error and a client was told of such a failure. *)
Definition failed_since (s s' : Shaper) : Prop :=
  (exists n, (draws s <= n < draws s')%nat /\ system_rc n < 0) /\
  exists l c, replies s' = replies s ++ l /\ blocking c = true /\ told_failure c l.

Lemma failed_since_l s1 s2 s3 : more s1 s2 -> failed_since s2 s3 -> failed_since s1 s3.
Proof.
  intros [[l E] ?] [(n & ? & ?) (l' & c & E' & Hc & fd & Hf)]. split; [exists n; split; [lia|done]|].
  exists (l ++ l'), c. split_and!; [by rewrite E', E, app_assoc|done|]. exists fd. apply elem_of_app. by right.
Qed.

Lemma tc_reply_failed sockfd c n : (system_rc n <? 0) = true -> told_failure c (tc_reply sockfd c n).
Proof. intros E. unfold tc_reply. rewrite E. exists sockfd. by left. Qed.

Lemma run_failed_since sockfd c s s' :
  (system_rc (draws s) <? 0) = true -> blocking c = true -> replies s' = replies s ++ tc_reply sockfd c (draws s) -> draws s' = S (draws s) ->
  failed_since s s'.
Proof.
  intros E Hc Er Ed. split; [exists (draws s); rewrite Ed; split; lia|]. eexists _, c. split; [done|]. split; [done|by apply tc_reply_failed].
Qed.

(** The filter of a reservation has been asked for. *)
Definition filter_asked (s : Shaper) (addr id : string) : Prop :=
  exists handle, filters (asked (ran s)) !! (String.substring 0 2 id, handle) = Some (id, addr).

(** All is given up. *)
Lemma delete_all_spec sockfd s : shaper_inv s ->
  wp (delete_all sockfd) (fun _ s' => shaper_inv s' /\ streams s' = [] /\ sr_classa s' || sr_classb s' = false /\
    filterhandle_classa s' = filterhandle_classa s /\ filterhandle_classb s' = filterhandle_classb s /\ more s s') s.
Proof.
  intros Hinv. unfold delete_all. apply wp_bind, wp_get. destruct (sr_classa s || sr_classb s) eqn:Eo.
  - destruct (Hinv). rewrite bool_decide_eq_false_2 by auto. cbn [negb]. apply wp_bind, wp_modify, wp_bind, wp_bind.
    eapply wp_intro; [apply run_tc_eq; cbn; lia|]. apply wp_ret, wp_bind, wp_modify, wp_modify. cbn.
    split_and!; try done; [|split; [by eexists|cbn; lia]]. split; cbn; [constructor|constructor|done|done|done|constructor|].
    right. split; cbn; intros; by rewrite ?asked_snoc.
  - apply wp_ret. destruct (inactive_slots s Hinv Eo) as [H _]. split_and!; try done. apply more_refl.
Qed.

(** Nothing but the flags of the classes and the interface has changed. *)
Record kept_streams (s s' : Shaper) : Prop := mkKept {
  ks_inv : shaper_inv s';
  ks_streams : streams s' = streams s;
  ks_handlea : filterhandle_classa s' = filterhandle_classa s;
  ks_handleb : filterhandle_classb s' = filterhandle_classb s;
  ks_more : more s s' }.

Lemma kept_refl s : shaper_inv s -> kept_streams s s.
Proof. split; try done. apply more_refl. Qed.
Lemma kept_trans s1 s2 s3 : kept_streams s1 s2 -> kept_streams s2 s3 -> kept_streams s1 s3.
Proof. intros [] []. split; try congruence. by eapply more_trans. Qed.
Lemma kept_room s s' : kept_streams s s' -> room s -> room s'.
Proof. intros [] ?. unfold room. by rewrite ks_handlea0, ks_handleb0. Qed.
Lemma kept_same s s' : shaper_inv s -> same_config s s' -> kept_streams s s'.
Proof. intros H Hs. destruct (Hs). split; try done. by eapply same_inv. Qed.
Lemma kept_reservations s s' : kept_streams s s' -> reservations s' = reservations s.
Proof. intros []. unfold reservations. by rewrite ks_streams0. Qed.

Lemma after_reply_same r s : same_config s (after_reply r s).
Proof. split; try done. split; [by eexists|done]. Qed.

Lemma error_spec sockfd text s (Q : unit -> Shaper -> Prop) :
  shaper_inv s -> (String.length text < 200)%nat -> (forall s', kept_streams s s' -> Q tt s') ->
  wp (log_client_error_message sockfd text) Q s.
Proof. intros Hinv Hl HQ. eapply wp_intro; [by apply error_eq|]. apply HQ, kept_same; [done|apply after_reply_same]. Qed.

Lemma usage_spec sockfd s (Q : unit -> Shaper -> Prop) :
  shaper_inv s -> (forall s', kept_streams s s' -> Q tt s') -> wp (usage sockfd) Q s.
Proof. intros Hinv HQ. apply wp_modify, HQ, kept_same; [done|]. apply (after_reply_same (sockfd, told_usage)). Qed.

(** A command that asks for no rate and no filter. *)
Lemma kept_run sockfd c s a b dev : shaper_inv s -> asked (ran s ++ [c]) = asked (ran s) ->
  (sr_classa s = true -> a = true) -> (sr_classb s = true -> b = true) -> dev <> String.EmptyString -> (String.length dev <= 15)%nat ->
  kept_streams s (mkShaper (streams s) a b (slots s) (filterhandle_classa s) (filterhandle_classb s) dev (bandwidth s)
    (ran s ++ [c]) (replies s ++ tc_reply sockfd c (draws s)) (S (draws s))).
Proof.
  intros [] Ha Hca Hcb Hd Hl. split; try done; [|split; [by eexists|cbn; lia]]. split; cbn; try done.
  - by eapply streams_ok_same.
  - intros x Hx%si_open0. destruct (in_class_a x); auto.
  - destruct si_step0 as [?|[]]; [left; by eapply release_failed_more|right]. split; cbn [streams slots ran]; [done|intros x; rewrite Ha; apply si_rates0|by rewrite Ha].
Qed.

Definition active (s : Shaper) : bool := sr_classa s || sr_classb s.

(** The command needs a device and has none. *)
Definition no_device (s : Shaper) (i : cmd_ip) : bool := negb (active s) && bool_decide (cmd_interface i = String.EmptyString).

Lemma init_qdisc_spec sockfd i s : shaper_inv s -> cmd_short i ->
  wp (init_qdisc sockfd i) (fun ok s' => kept_streams s s' /\
    (if ok then no_device s i = false /\ interface s' <> String.EmptyString else no_device s i = true \/ failed_since s s')) s.
Proof.
  intros Hinv [Hi _]. unfold init_qdisc, no_device. apply wp_bind, wp_get. fold (active s). destruct (active s) eqn:Ea.
  { apply wp_ret. split_and!; [by apply kept_refl|done|]. by apply Hinv. }
  apply orb_false_iff in Ea as [Ea Eb]. case_decide as Ei.
  - apply wp_bind. rewrite bool_decide_eq_true_2 by done.
    assert (wp (when unreserve_bw i || reserve_bw i do log_client_error_message sockfd "Interface is mandatory for the first command")
      (fun _ => kept_streams s) s) as Hw.
    { destruct (_ || _); [|by apply wp_ret, kept_refl]. by apply error_spec; [|cbn; lia|]. }
    eapply wp_mono; [exact Hw|]. intros ? s1 H1. apply wp_bind, usage_spec; [apply H1|]. intros s2 H2. apply wp_ret.
    split; [exact (kept_trans _ _ _ H1 H2)|by left].
  - apply wp_bind. eapply wp_intro; [apply run_tc_eq; cbn; lia|]. rewrite bool_decide_eq_false_2 by done.
    destruct (system_rc (draws s) <? 0) eqn:Es.
    + apply wp_ret. split; [|right; by eapply (run_failed_since sockfd (tc_root_add (cmd_interface i)))]. apply kept_same; [done|]. split; try done; [|split; [by eexists|cbn; lia]].
      cbn. by rewrite asked_snoc.
    + apply wp_bind, wp_modify, wp_ret. split; [|by rewrite andb_false_r]. cbn. apply kept_run; try done; try congruence. by rewrite asked_snoc.
Qed.

Lemma open_class_spec sockfd a s : shaper_inv s -> interface s <> String.EmptyString ->
  wp (open_class sockfd a) (fun ok s' => kept_streams s s' /\ bandwidth s' = bandwidth s /\
    (if ok then (if a then sr_classa s' else sr_classb s') = true else failed_since s s')) s.
Proof.
  intros Hinv Hi. unfold open_class. apply wp_bind, wp_get. destruct (if a then _ else _) eqn:Ea.
  { apply wp_ret. by split_and!; [apply kept_refl|..]. }
  apply wp_bind, wp_modify, wp_bind. pose proof (si_len _ Hinv). eapply wp_intro; [apply run_tc_eq; cbn; lia|]. apply wp_ret. cbn. split_and!; [|done|].
  - apply (kept_run sockfd (tc_qdisc_add (interface s) a) s); try done; [by rewrite asked_snoc|by intros ->|by intros ->].
  - destruct (Z.leb_spec 0 (system_rc (draws s))); [destruct a; by rewrite orb_true_r|].
    eapply (run_failed_since sockfd (tc_qdisc_add (interface s) a)); try done. by apply Z.ltb_lt.
Qed.

(** The table afterwards: [t], with a filter asked for where the address is new, or what it
    was before when a failure was told. *)
Definition ends_as (t : gmap string (string * Z)) (s s' : Shaper) : Prop :=
  (reservations s' = t /\ forall addr id bw, reservations s !! addr = None -> t !! addr = Some (id, bw) -> filter_asked s' addr id) \/
  reservations s' = reservations s /\ failed_since s s'.

Lemma ends_as_same s s' : reservations s' = reservations s -> ends_as (reservations s) s s'.
Proof. intros E. left. split; [done|]. congruence. Qed.

Lemma with_stream_filter c d b t s : class_id d = classid c -> filter_asked (with_stream c d b t s) (dest_addr d) (class_id d).
Proof.
  intros Hc. exists (filter_handle d). cbn [with_stream ran]. rewrite !asked_snoc. cbn [ask filters].
  by rewrite Hc, parent_of_class, lookup_insert_eq.
Qed.

Lemma reserve_stream_spec s0 sockfd i b s :
  shaper_inv s -> room s -> cmd_short i -> interface s <> String.EmptyString -> more s0 s ->
  wpx s0 (reserve_stream sockfd i b) (fun r s' => shaper_inv s' /\ (r = 1 \/ r = -1) /\
    ends_as (match reservations s !! cmd_stream_da i, class_of (class_a i) (measurement_interval i) with
      | None, Some c => <[cmd_stream_da i := (classid c, bandwidth s)]> (reservations s)
      | _, _ => reservations s
      end) s s') s.
Proof.
  intros Hinv Hr Hi Hd Hm. unfold reserve_stream, check_stream_da. apply wpx_bind, wpx_wp, wp_bind, wp_get.
  destruct (find_stream (streams s) (cmd_stream_da i)) as [d|] eqn:Ef.
  { rewrite (reservations_some _ _ _ Hinv Ef). apply wp_bind, error_spec; [done|cbn; lia|]. intros s' H'. apply wp_ret, wpx_wp, wp_ret.
    split_and!; [apply H'|by left|]. by apply ends_as_same, kept_reservations. }
  rewrite (reservations_none _ _ Ef). apply wp_ret, wpx_bind, wpx_wp. eapply wp_mono; [by apply open_class_spec|].
  intros ok s1 (H1 & Hb & Ho). pose proof (ks_inv _ _ H1) as Hinv1. destruct ok; cbn [negb].
  2:{ apply wpx_wp, wp_ret. split_and!; [done|by right|]. right. split; [by apply kept_reservations|done]. }
  destruct (class_of (class_a i) (measurement_interval i)) as [c|] eqn:Ec.
  - apply wpx_bind, reserve_in_spec; [done|done|by eapply more_trans; [|apply H1]|]. intros t. apply wpx_wp, wp_ret.
    rewrite <- (ks_streams _ _ H1) in Ef. set (d := mkStream _ _ _ _). split_and!.
    + apply with_stream_inv; [done|by eapply kept_room|by apply find_stream_none|done..|apply Hi|]. by rewrite (class_of_kind _ _ _ Ec).
    + by left.
    + left. split; [rewrite reservations_with by done; cbn; by rewrite (kept_reservations _ _ H1), Hb|].
      intros addr id bw Hn. destruct (decide (addr = cmd_stream_da i)) as [->|Hne]; [|by rewrite lookup_insert_ne, Hn].
      rewrite lookup_insert_eq. intros [= <- _]. by apply (with_stream_filter c d).
  - apply wpx_bind, wpx_wp, error_spec; [done| |].
    + rewrite !string_length_app. pose proof (length_fmt_int (measurement_interval i)). destruct (class_a i); cbn [String.length]; lia.
    + intros s2 H2. apply wpx_wp, wp_ret. split_and!; [apply H2|by right|]. apply ends_as_same, kept_reservations. by eapply kept_trans.
Qed.

Lemma unreserve_found sockfd i b s d c : shaper_inv s -> find_stream (streams s) (cmd_stream_da i) = Some d -> class_id d = classid c ->
  wp (unreserve_stream sockfd i b) (fun r s' => exists t, r = 1 /\ s' = without_stream c d b t s \/
    r = -1 /\ s' = half_released c d b t s /\ system_rc (S (draws s)) < 0 /\ exists dev p h, told_failure (tc_filter_del dev p h) t) s.
Proof.
  intros [] Hf Hc. unfold unreserve_stream, get_stream_da, tc_class_command. apply wp_bind, wp_bind, wp_get. rewrite Hf.
  apply wp_ret, wp_bind, wp_get. rewrite Hc, class_named_id. apply wp_bind, wp_bind, wp_modify, wp_ret. set (bw := i32 _).
  set (c1 := tc_class "change" (classid c) (interface s) (if bw =? 0 then 1 else bw) b).
  set (c2 := tc_filter_del (interface s) (String.substring 0 2 (classid c)) (filter_handle d)).
  assert (tc_short c1) as H1 by (cbn; destruct c; cbn; lia). assert (tc_short c2) as H2 by (subst c2; destruct c; cbn; lia).
  set (t := tc_reply sockfd c1 (draws s) ++ tc_reply sockfd c2 (S (draws s))).
  apply wp_bind, wp_bind. eapply wp_intro; [by apply run_tc_eq|]. apply wp_ret, wp_bind. eapply wp_intro; [by apply run_tc_eq|].
  cbn [draws after_run]. destruct (system_rc (S (draws s)) <? 0) eqn:Es.
  - apply wp_ret. exists t. right. split; [done|]. split.
    + unfold half_released, without_stream, after_run. cbn. rewrite Hc. subst t. by rewrite app_assoc.
    + split; [lia|]. eexists _, _, _. destruct (tc_reply_failed sockfd c2 _ Es) as [fd Hfd]. exists fd. apply elem_of_app. right. exact Hfd.
  - unfold remove_stream_da. apply wp_bind, wp_bind, wp_get. cbn. destruct (streams s) as [|x l] eqn:El; [done|]. apply wp_modify, wp_ret.
    exists t. left. split; [done|]. unfold without_stream. cbn. rewrite El, Hc. subst t. by rewrite app_assoc.
Qed.

Lemma unreserve_stream_spec sockfd i b s :
  shaper_inv s -> wp (unreserve_stream sockfd i b) (fun r s' => shaper_inv s' /\ (r = 1 \/ r = -1) /\
    ends_as (delete (cmd_stream_da i) (reservations s)) s s') s.
Proof.
  intros Hinv. destruct (find_stream (streams s) (cmd_stream_da i)) as [d|] eqn:Ef.
  - destruct (find_stream_in _ _ _ Ef) as [Hd Ha]. pose proof (si_streams _ Hinv) as Hs. rewrite Forall_forall in Hs.
    destruct (Hs d Hd) as [(c & Hc & Hu & _) _]. eapply wp_mono; [by eapply unreserve_found|].
    intros r s' (t & [[-> ->]|(-> & -> & Hs' & dev & p & h & Ht)]).
    + split_and!; [by eapply without_stream_inv|by left|]. left. split; [by apply reservations_without|].
      intros addr id bw Hn Hl. apply lookup_delete_Some in Hl as [_ Hl]. congruence.
    + split_and!; [|by right|].
      * apply half_released_inv; [done|done|]. exists dev, p, h. destruct Ht as [fd Ht]. exists fd. apply elem_of_app. by right.
      * right. split; [done|]. split; [exists (S (draws s)); split; [cbn; lia|done]|]. by eexists t, (tc_filter_del dev p h).
  - unfold unreserve_stream, get_stream_da. apply wp_bind, wp_bind, wp_get. rewrite Ef. apply wp_bind, error_spec; [done|cbn; lia|].
    intros s' H'. apply wp_ret, wp_ret. split_and!; [apply H'|by left|]. rewrite delete_id by (by apply reservations_none).
    by apply ends_as_same, kept_reservations.
Qed.

Lemma complaint_short i text : complaint i = Some text -> (String.length text < 200)%nat.
Proof. unfold complaint. repeat case_match; intros [= <-]; cbn; lia. Qed.

(** ** The bandwidth of the frames

    With the [double] next to 10^-6 for [pow(10,-6)], the rates of the intervals of 125 and
    250 microseconds are 8000 and 4000 exactly, and nothing is lost after that. *)
Definition micro : spec_float := S754_finite false 4722366482869645 (-72).

Lemma div_eucl_exact q b : b <> 0 -> Z.div_eucl (q * b) b = (q, 0).
Proof.
  intros Hb. pose proof (Z.div_mul q b Hb) as H1. pose proof (Z.mod_mul q b Hb) as H2. unfold Z.div, Z.modulo in *.
  destruct (Z.div_eucl (q * b) b). by subst.
Qed.

Lemma ddiv_8 x p : float_is 53 x p -> (8 | Zpos p) -> ceil_of (ddiv x (double_of_int 8)) = Some (Zpos p / 8).
Proof.
  intros (m & k & -> & Hk & Hm & Hl) [q Hq]. change (double_of_int 8) with (S754_finite false (shift_pos 52 1) (-49)).
  unfold ddiv, SFdiv, SFdiv_core_binary. cbn [Zdigits2]. rewrite !digits_log2, Hl.
  change (Z.log2 (Zpos (shift_pos 52 1))) with 52. unfold fexp, emin.
  replace (Z.min (Z.max _ _) _) with (- k + 49 - 53) by lia. replace (- k - -49 - (- k + 49 - 53)) with 53 by lia. cbn [xorb].
  replace (Z.shiftl (Zpos m) 53) with (Zpos (shift_pos 1 m) * Zpos (shift_pos 52 1))
    by (rewrite Z.shiftl_mul_pow2, !shift_pos_pow by lia; lia).
  rewrite div_eucl_exact by lia. change (new_location _ 0) with loc_Exact.
  rewrite round_shifted by (unfold emin; lia). cbn [ceil_of].
  assert (- (- Zpos m / 2 ^ (k + 3)) = Zpos p / 8) as E.
  { rewrite Hm, Hq, Z.div_mul, Z.pow_add_r by lia. replace (- (q * 8 * 2 ^ k)) with (- q * (2 ^ k * 2 ^ 3)) by lia. rewrite Z.div_mul; lia. }
  destruct (Z.leb_spec 0 (- k + 49 - 53 + 1)); [lia|]. replace (- (- k + 49 - 53 + 1)) with (k + 3) by lia. by rewrite E.
Qed.
(** The rate, as the program computes it, of an interval of [n] microseconds. *)
Lemma rate_exact n : n = 125 \/ n = 250 -> pow_10_minus_6 = micro ->
  ddiv (double_of_int 1) (dmul (double_of_int n) pow_10_minus_6) = double_of_int (10 ^ 6 / n).
Proof. intros [-> | ->] ->; reflexivity. Qed.

Lemma frame_bandwidth_exact n size frames :
  n = 125 \/ n = 250 -> pow_10_minus_6 = micro -> 0 < size -> 0 < frames -> 10 ^ 6 / n * size * frames < 2 ^ 31 ->
  frame_bandwidth n size frames = 10 ^ 6 / n * size * frames.
Proof.
  intros Hn Hp Hs Hf Hb. unfold frame_bandwidth. rewrite (rate_exact n Hn Hp).
  assert (exists r, 10 ^ 6 / n = Zpos r /\ 4000 <= Zpos r <= 8000) as (r & Er & Hr) by (destruct Hn as [-> | ->]; eexists; split; done).
  rewrite Er in *. destruct size as [|p|p]; try lia. destruct frames as [|q|q]; try lia.
  rewrite i32_small by nia. change (Zpos p * 8) with (Zpos (p * 8)).
  assert (float_is 53 (dmul (dmul (double_of_int (Zpos r)) (double_of_int (Zpos (p * 8)))) (double_of_int (Zpos q))) (r * (p * 8) * q)) as H.
  { apply float_mul; [lia|lia|apply float_mul; [lia|lia|..]|..]; try (apply float_of_int); nia. }
  unfold int_of_double. rewrite (ddiv_8 _ _ H) by (exists (Zpos r * Zpos p * Zpos q); lia).
  replace (Zpos (r * (p * 8) * q) / 8) with (Zpos r * Zpos p * Zpos q) by (apply Z.div_unique_exact; lia).
  by replace (_ && _) with true by lia.
Qed.

Definition cmd_bandwidth (i : cmd_ip) : Z := frame_bandwidth (measurement_interval i) (max_frame_size i) (max_frame_interval i).

Lemma ends_as_kept t s s1 s2 : kept_streams s s1 -> ends_as t s1 s2 -> ends_as t s s2.
Proof.
  intros H. unfold ends_as. rewrite (kept_reservations _ _ H). intros [?|[E ?]]; [by left|right]. split; [done|].
  eapply failed_since_l; [apply H|done].
Qed.

(** Every command keeps the invariant and changes the reservations as it should. *)
Lemma process_cmd_spec sockfd i s :
  shaper_inv s -> room s -> cmd_short i ->
  wpx s (process_cmd sockfd i) (fun r s' => shaper_inv s' /\ (r = 1 \/ r = 0 \/ r = -1) /\
    ends_as (next_reservations (cmd_bandwidth i) (active s) i (reservations s)) s s') s.
Proof.
  intros Hinv Hr Hi. unfold process_cmd, next_reservations. rewrite accepted_spec, traffic_class_spec. destruct (complaint i) as [text|] eqn:Ec; cbn [negb].
  { apply wpx_wp, wp_bind, error_spec; [done|by eapply complaint_short|]. intros s1 H1. apply wp_bind, usage_spec; [apply H1|]. intros s2 H2.
    apply wp_ret. split_and!; [apply H2|by auto|]. apply ends_as_same, kept_reservations. by eapply kept_trans. }
  destruct (quit i || delete_qdisc i) eqn:Eq.
  { apply wpx_wp, wp_bind. eapply wp_mono; [by apply delete_all_spec|]. intros ? s1 (H1 & H2 & H3 & _).
    assert (forall s2, kept_streams s1 s2 -> ends_as ∅ s s2) as He by (intros s2 []; left; unfold reservations; by rewrite ks_streams0, H2).
    assert (reserve_bw i || unreserve_bw i = false) as Eru.
    { unfold complaint in Ec. rewrite Eq in Ec. destruct (reserve_bw i), (unreserve_bw i); cbn in Ec; [done| | |done]; by repeat case_match. }
    destruct (quit i); [apply wp_ret; split_and!; [done|auto|apply He, kept_refl, H1]|].
    apply wp_bind. eapply wp_mono; [by apply init_qdisc_spec|]. intros ok s2 (H6 & _). rewrite Eru.
    destruct (negb ok); apply wp_ret; (split_and!; [apply H6|auto|by apply He]). }
  apply orb_false_iff in Eq as [-> _]. apply wpx_bind, wpx_wp, wp_ret, wpx_bind, wpx_wp.
  eapply wp_mono; [by apply init_qdisc_spec|]. fold (no_device s i). intros ok s1 (H1 & H2). destruct ok; cbn [negb].
  2:{ apply wpx_wp, wp_ret. split_and!; [apply H1|by auto|]. destruct H2 as [->|H2]; [by apply ends_as_same, kept_reservations|].
      right; split; [by apply kept_reservations|done]. }
  destruct H2 as [-> H2]. destruct (reserve_bw i || unreserve_bw i) eqn:Eru.
  - apply wpx_bind, wpx_wp, wp_modify. set (s2 := mkShaper _ _ _ _ _ _ _ _ _ _ _).
    assert (kept_streams s s2) as Hk.
    { eapply kept_trans; [exact H1|]. apply kept_same; [apply H1|]. split; try done. split; [|done]. exists []. by rewrite app_nil_r. }
    assert (room s2) as Hr2 by exact (kept_room _ _ H1 Hr). rewrite <- (kept_reservations _ _ Hk). destruct (reserve_bw i).
    + eapply wpx_mono; [apply reserve_stream_spec; [apply Hk|done|done|done|apply Hk]|]. intros r s3 (H3 & H4 & H5).
      split_and!; [done|destruct H4; auto|]. eapply ends_as_kept; [done|]. by destruct (class_of _ _).
    + cbn in Eru. rewrite Eru. apply wpx_wp. eapply wp_mono; [apply unreserve_stream_spec, Hk|]. intros r s3 (H3 & H4 & H5).
      split_and!; [done|destruct H4; auto|]. by eapply ends_as_kept.
  - apply orb_false_iff in Eru as [-> ->]. apply wpx_wp, wp_ret. split_and!; [apply H1|auto|]. by apply ends_as_same, kept_reservations.
Qed.
End ops.
