(* ===== verification/ShaperParse.v ===== *)
(** * ShaperParse: the parser of the shaper's commands

    The parser ends on every array; the texts it copies fit; and the reservation of the
    usage message, with any interface, numbers and address, is read back as it was
    written. *)
From Stdlib Require Import SpecFloat.
From stdpp Require Import base gmap strings numbers list.
From S2P Require Import Prelude Text Parse Shaper ShaperInv.
#[local] Open Scope Z_scope.

(** ** Termination and bounds *)

(** A step of the parser does not move back and keeps the texts short. *)
Definition steps_on (x : cmd_ip * list Z) (o : outcome (cmd_ip * list Z)) : Prop :=
  match o with
  | Done (i, q) => (length q <= length (snd x))%nat /\ (cmd_short (fst x) -> cmd_short i)
  | Fault w => w = OutOfBounds
  end.

Lemma copy_arg_short k p :
  match copy_arg k p with
  | Done (arg, q) => (length arg <= k /\ length q <= length p)%nat
  | Fault w => w = OutOfBounds
  end.
Proof.
  revert p. induction k as [|k IH]; intros [|c p]; cbn; try done; (destruct (c =? 32); [cbn; lia|]); [cbn; lia|].
  specialize (IH p). obind. destruct (copy_arg k p) as [[arg q]|w]; [cbn; lia|done].
Qed.

Lemma string_of_c_short s k : (length s <= k)%nat -> (String.length (string_of_bytes (c_string s)) <= k)%nat.
Proof.
  intros Hk. etransitivity; [|exact Hk]. clear Hk. induction s as [|b s IH]; [done|]. cbn [c_string].
  destruct (b =? 0); cbn; [lia|]. exact (le_n_S _ _ IH).
Qed.

Lemma steps_letter c k x :
  (forall i p, (0 < length p)%nat -> steps_on (i, p) (k i p)) -> steps_on x (on_letter c k x).
Proof.
  destruct x as [i p]. intros Hk. unfold on_letter. cbn. destruct p as [|b p]; [done|].
  destruct (b =? c); [apply Hk; cbn; lia|cbn; split; [lia|done]].
Qed.

Lemma steps_bind x m k : steps_on x m -> (forall y, steps_on y (k y)) -> steps_on x (y ← m; k y).
Proof.
  intros Hm Hk. destruct m as [[i q]|w]; [|done]. obind. specialize (Hk (i, q)). destruct (k (i, q)) as [[i' q']|w]; [|done].
  cbn in *. destruct Hm as [? ?], Hk as [? ?]. split; [lia|auto].
Qed.

Lemma steps_flag f x : (forall i, cmd_short i -> cmd_short (f i)) -> steps_on x (on_flag f (fst x) (snd x)).
Proof. destruct x as [i p]. intros Hf. cbn. split; [destruct p; cbn; lia|auto]. Qed.

Lemma skip2_short p : match skip2 p with Done q => (length q <= length p)%nat | Fault w => w = OutOfBounds end.
Proof. destruct p as [|? [|? ?]]; cbn; try done; lia. Qed.

Lemma steps_arg k f x : (forall arg i, (length arg <= k)%nat -> cmd_short i -> cmd_short (f arg i)) ->
  steps_on x (on_arg k f (fst x) (snd x)).
Proof.
  destruct x as [i p]. intros Hf. unfold on_arg. cbn. pose proof (skip2_short p) as H. destruct (skip2 p) as [q|w]; [|done].
  obind. pose proof (copy_arg_short k q) as H'. destruct (copy_arg k q) as [[arg q']|w]; [|done]. cbn in *. split; [lia|].
  apply Hf. lia.
Qed.

Lemma steps_class x : steps_on x (on_class (fst x) (snd x)).
Proof.
  destruct x as [i p]. unfold on_class. cbn. pose proof (skip2_short p) as H. destruct (skip2 p) as [q|w]; [|done]. obind.
  destruct q as [|b q]; [done|]. cbn in *. split; [lia|done].
Qed.

Lemma steps_letters x : steps_on x (parse_letters x).
Proof.
  unfold parse_letters.
  repeat (apply steps_bind; [|intros y; clear x; rename y into x]); apply steps_letter; intros i p _.
  all: try exact (steps_class (i, p)).
  all: try (apply (steps_flag _ (i, p)); done).
  all: apply (steps_arg _ _ (i, p)); intros arg j Hl [? ?]; split; try done; by apply string_of_c_short.
Qed.

(** Any two bounds that are large enough give the same. *)
Lemma parse_cmd_loop_fuel f f' i p : (length p <= f)%nat -> (length p <= f')%nat -> parse_cmd_loop f i p = parse_cmd_loop f' i p.
Proof.
  revert f' i p. induction f as [|f IH]; intros f' i p Hf Hf'; (destruct p as [|c p]; [by destruct f'|]); cbn in *; [lia|].
  destruct f' as [|f']; [lia|]. cbn. destruct (c =? 0); [done|]. pose proof (steps_letters (i, p)) as H.
  destruct (parse_letters (i, p)) as [[i' q]|w]; [|done]. obind. cbn in H. apply IH; lia.
Qed.

(** The parser ends on every array: it returns a command whose texts fit their fields, or
    runs past the array; it never needs more rounds than there are bytes. *)
Theorem parse_cmd_ends command :
  match parse_cmd command with
  | Done i => (String.length (cmd_interface i) < IFNAMSIZ)%nat /\ (String.length (cmd_stream_da i) < STREAMDA_LENGTH)%nat
  | Fault w => w = OutOfBounds
  end.
Proof.
  unfold parse_cmd. assert (cmd_short no_cmd) as Hs by (split; cbn; lia). revert Hs. generalize no_cmd.
  remember (length command) as n eqn:En. assert (length command <= n)%nat as Hn by lia. clear En. revert command Hn.
  induction n as [|n IH]; intros [|c p] Hn i Hs; cbn in *; try done; [lia|].
  destruct (c =? 0); [destruct Hs; unfold IFNAMSIZ, STREAMDA_LENGTH; lia|].
  pose proof (steps_letters (i, p)) as H. destruct (parse_letters (i, p)) as [[i' q]|w]; [|done]. obind. cbn in H.
  destruct H as [? H]. apply IH; [lia|auto].
Qed.

(** ** Reading a command back *)

(** Numbers as they are printed. *)
Definition dec_bytes (v : Z) : list Z := bytes_of_string (fmt_int v).

Lemma dec_bytes_eq v : 0 <= v < 2 ^ 31 -> dec_bytes v = bytes_of_string (fmt_dec 10 v).
Proof. intros Hv. unfold dec_bytes, fmt_int. rewrite i32_small by lia. by destruct (Z.ltb_spec v 0); [lia|]. Qed.

Lemma dec_bytes_digits v : 0 <= v < 2 ^ 31 -> Forall is_digit (dec_bytes v).
Proof. intros Hv. rewrite dec_bytes_eq by done. apply fmt_dec_digits. lia. Qed.

Lemma atoi_digits l : Forall is_digit l -> dec_value 0 l < 2 ^ 31 -> 0 <= dec_value 0 l -> atoi (c_string l) = dec_value 0 l.
Proof.
  intros Hl Hu Hp. rewrite c_string_full by (eapply Forall_impl; [exact Hl|]; unfold is_digit; cbn; lia). unfold atoi.
  assert (scan_sign (length l) (skip_space l) = (false, length l, l)) as ->.
  { destruct l as [|b l]; [done|]. apply Forall_cons in Hl as [Hb _]. unfold is_digit in Hb. cbn [skip_space]. unfold is_space.
    destruct (Z.eqb_spec b 32), (Z.leb_spec b 13); try lia. rewrite andb_false_r. cbn [orb].
    unfold scan_sign. by destruct (Z.eqb_spec b 45), (Z.eqb_spec b 43); try lia. }
  rewrite scan_dec by done. rewrite i32_small; lia.
Qed.

Lemma atoi_dec v : 0 <= v < 2 ^ 31 -> atoi (c_string (dec_bytes v)) = v.
Proof.
  intros Hv. pose proof (dec_bytes_digits v Hv) as Hd. assert (dec_value 0 (dec_bytes v) = v) as E.
  { rewrite dec_bytes_eq by done. apply fmt_dec_value. change (10 ^ Z.of_nat 10) with 10000000000. lia. }
  rewrite atoi_digits by (rewrite ?E; done || lia). done.
Qed.

(** *** The options *)
Definition word (l : list Z) : Prop := Forall (fun b => b <> 32 /\ b <> 0) l.

Lemma digits_word l : Forall is_digit l -> word l.
Proof. intros H. eapply Forall_impl; [exact H|]. unfold is_digit. cbn. lia. Qed.

Lemma copy_arg_word k l rest : word l -> (length l <= k)%nat -> copy_arg k (l ++ 32 :: rest) = Done (l, 32 :: rest).
Proof.
  intros Hl. revert k. induction Hl as [|b l [Hb _] _ IH]; intros k Hk; [by destruct k|]. destruct k as [|k]; cbn in *; [lia|].
  apply Z.eqb_neq in Hb. rewrite Hb, IH by lia. done.
Qed.

(** A word that fills the destination ends without a space. *)
Lemma copy_arg_full l b rest : word l -> copy_arg (length l) (l ++ b :: rest) = Done (l, b :: rest).
Proof.
  intros Hl. induction Hl as [|c l [Hc _] _ IH]; cbn; [by destruct (b =? 32)|]. apply Z.eqb_neq in Hc. by rewrite Hc, IH.
Qed.

Lemma string_of_word s : word (bytes_of_string s) -> string_of_bytes (c_string (bytes_of_string s)) = s.
Proof. intros Hs. rewrite c_string_full by (eapply Forall_impl; [exact Hs|]; cbn; tauto). apply string_of_bytes_of. Qed.

(** One option with its argument, from the dash on: the argument ends at a space. *)
Lemma parse_option f c k g i arg rest :
  (c, k, g) ∈ [(115, 99%nat, set_measurement); (98, 99%nat, set_frame_size); (102, 99%nat, set_frame_interval)] ->
  word arg -> (length arg <= k)%nat ->
  parse_cmd_loop (S (S f)) i (32 :: 45 :: c :: 32 :: arg ++ 32 :: rest) = parse_cmd_loop f (g arg i) (32 :: rest).
Proof.
  intros Hc Hw Hl. repeat (apply elem_of_cons in Hc as [[= -> -> ->]|Hc]); try by apply elem_of_nil in Hc.
  all: cbn -[copy_arg]; unfold on_arg; cbn -[copy_arg]; rewrite copy_arg_word by done; done.
Qed.

(** A reservation, as the usage message has it. *)
Record reservation := mkReservation { rv_dev : string; rv_a : bool; rv_interval : Z; rv_size : Z; rv_frames : Z; rv_da : string }.

Definition reservation_ok (r : reservation) : Prop :=
  word (bytes_of_string (rv_dev r)) /\ (String.length (rv_dev r) < IFNAMSIZ)%nat /\
  word (bytes_of_string (rv_da r)) /\ String.length (rv_da r) = (STREAMDA_LENGTH - 1)%nat /\
  0 <= rv_interval r < 2 ^ 31 /\ 0 <= rv_size r < 2 ^ 31 /\ 0 <= rv_frames r < 2 ^ 31.

Definition reserve_text (r : reservation) : string :=
  "-ri " +:+ rv_dev r +:+ " -c " +:+ (if rv_a r then "A" else "B") +:+ " -s " +:+ fmt_int (rv_interval r) +:+
  " -b " +:+ fmt_int (rv_size r) +:+ " -f " +:+ fmt_int (rv_frames r) +:+ " -a " +:+ rv_da r.

Definition reserve_cmd (r : reservation) : cmd_ip :=
  mkCmd true false (rv_dev r) (rv_a r) (negb (rv_a r)) (rv_interval r) (rv_size r) (rv_frames r) (rv_da r) false false.

Lemma parse_reserve_dev f i arg rest : word arg -> (length arg < IFNAMSIZ)%nat ->
  parse_cmd_loop (S f) i (45 :: 114 :: 105 :: 32 :: arg ++ 32 :: rest) = parse_cmd_loop f (set_interface arg (set_reserve i)) (32 :: rest).
Proof.
  intros Hw Hl. cbn -[copy_arg]. unfold on_arg. cbn -[copy_arg]. rewrite copy_arg_word; [done..|]. unfold IFNAMSIZ in *. lia.
Qed.

Lemma parse_class f i (a : bool) rest :
  parse_cmd_loop (S (S f)) i (32 :: 45 :: 99 :: 32 :: (if a then 65 else 66) :: 32 :: rest) =
  parse_cmd_loop f (mkCmd (reserve_bw i) (unreserve_bw i) (cmd_interface i) (class_a i || a) (class_b i || negb a)
    (measurement_interval i) (max_frame_size i) (max_frame_interval i) (cmd_stream_da i) (delete_qdisc i) (quit i)) (32 :: rest).
Proof. by destruct a. Qed.

Lemma parse_address f i arg rest : word arg -> length arg = (STREAMDA_LENGTH - 1)%nat ->
  parse_cmd_loop (S (S f)) i (32 :: 45 :: 97 :: 32 :: arg ++ 0 :: rest) = Done (set_stream_da arg i).
Proof.
  intros Hw Hl. cbn -[copy_arg STREAMDA_LENGTH]. unfold on_arg. cbn -[copy_arg STREAMDA_LENGTH].
  rewrite <- Hl, copy_arg_full by done. cbn. by destruct f.
Qed.

(** A reservation written as the usage message says is read back, whatever follows in
    the array. *)
Theorem parse_reserve_text r rest :
  reservation_ok r -> parse_cmd (bytes_of_string (reserve_text r) ++ 0 :: rest) = Done (reserve_cmd r).
Proof.
  intros (Hd & Hdl & Ha & Hal & Hn1 & Hn2 & Hn3). unfold parse_cmd, reserve_text.
  rewrite !bytes_of_app, <- !app_assoc. fold (dec_bytes (rv_interval r)) (dec_bytes (rv_size r)) (dec_bytes (rv_frames r)).
  rewrite <- length_bytes_of in Hdl, Hal.
  match goal with |- parse_cmd_loop _ _ ?p = _ => rewrite (parse_cmd_loop_fuel _ (11 + length p)) by lia; generalize (length p); intros f end.
  assert (bytes_of_string (if rv_a r then "A" else "B") = [if rv_a r then 65 else 66]) as -> by (by destruct (rv_a r)).
  pose proof (dec_bytes_digits _ Hn1) as D1. pose proof (dec_bytes_digits _ Hn2) as D2. pose proof (dec_bytes_digits _ Hn3) as D3.
  assert (forall v, length (dec_bytes v) <= 99)%nat as L by (intros v; unfold dec_bytes; rewrite length_bytes_of; pose proof (length_fmt_int v); lia).
  etransitivity; [by apply parse_reserve_dev|]. etransitivity; [apply parse_class|].
  etransitivity; [apply (parse_option _ 115 99 set_measurement); [set_solver|by apply digits_word|apply L]|].
  etransitivity; [apply (parse_option _ 98 99 set_frame_size); [set_solver|by apply digits_word|apply L]|].
  etransitivity; [apply (parse_option _ 102 99 set_frame_interval); [set_solver|by apply digits_word|apply L]|].
  etransitivity; [by apply parse_address|]. unfold reserve_cmd, set_stream_da, set_frame_interval, set_frame_size, set_measurement.
  cbn. by rewrite !atoi_dec, !string_of_word by done.
Qed.

Definition usage_example : reservation := mkReservation "eth2" true 125 74 1 "ff:ff:ff:ff:ff:11".

Lemma parse_reserve_text_witness : reservation_ok usage_example /\
  parse_cmd (bytes_of_string (reserve_text usage_example) ++ 0 :: [7; 7]) = Done (reserve_cmd usage_example).
Proof.
  assert (reservation_ok usage_example) as H.
  { unfold reservation_ok, word. split_and!; try (unfold IFNAMSIZ; cbn; lia); try done; apply (bool_decide_unpack _); vm_compute; exact I. }
  split; [exact H|]. exact (parse_reserve_text usage_example [7; 7] H).
Defined.
