(* ===== verification/ShaperProps.v ===== *)
(** * ShaperProps: the life of the shaper daemon

    The states the loop of [main] reaches, from the start on, whatever [system] and [malloc]
    answer: unless a client has been told that the deletion of a filter failed, the bandwidth
    of the classes is that of their streams and the kernel was asked for exactly the streams'
    rates and filters; every command that can be read changes the table of reservations as
    [next_reservations] says, or leaves it with a failure told, or ends the program for want
    of memory. *)
From Stdlib Require Import SpecFloat.
From stdpp Require Import base gmap strings numbers list sorting.
From S2P Require Import Prelude Text Parse Shaper ShaperInv ShaperParse.
#[local] Open Scope Z_scope.
#[local] Open Scope st_scope.

Section reach.
Context `{env : ShaperEnv}.

Inductive shaper_reach : Daemon -> Prop :=
  | shaper_reach_start junk : shaper_reach (daemon_start junk)
  | shaper_reach_step d i d' :
      shaper_reach d -> room (shaper d) -> shaper_handle i d = Done (tt, d') -> shaper_reach d'.

Record daemon_inv (d : Daemon) : Prop := mkDaemonInv {
  di_shaper : shaper_inv (shaper d);
  di_clients : length (clientfd d) = Z.to_nat MAX_CLIENT_CONNECTIONS;
  di_next : 0 <= nextclientindex d < MAX_CLIENT_CONNECTIONS;
  di_command : length (command d) = COMMAND_SIZE }.

Lemma parse_cmd_short command i : parse_cmd command = Done i -> cmd_short i.
Proof.
  intros E. pose proof (parse_cmd_ends command) as H. rewrite E in H. destruct H. unfold IFNAMSIZ, STREAMDA_LENGTH in *. split; lia.
Qed.

(** A command that can be read is carried out, or ends the program for want of memory. *)
Lemma daemon_command_spec fd buf d i :
  daemon_inv d -> room (shaper d) -> parse_cmd buf = Done i ->
  (daemon_command fd buf d = Fault Exited /\ exists n, (draws (shaper d) <= n)%nat /\ sh_malloc n = false) \/
  wp (daemon_command fd buf) (fun _ d' => shaper_inv (shaper d') /\ command d' = buf /\ clientfd d' = clientfd d /\
    nextclientindex d' = nextclientindex d /\
    ends_as (next_reservations (cmd_bandwidth i) (active (shaper d)) i (reservations (shaper d))) (shaper d) (shaper d')) d.
Proof.
  intros [Hinv _ _ _] Hr Hp. unfold wp, daemon_command, process_command, st_bind, st_lift. rewrite Hp. cbn.
  destruct (process_cmd_spec fd i (shaper d) Hinv Hr (parse_cmd_short _ _ Hp)) as [[-> ?]|(r & s' & -> & H1 & _ & H2)%wp_done]; [by left|].
  right. cbn. by split_and!.
Qed.

Lemma daemon_command_inv fd buf d u d' :
  daemon_inv d -> room (shaper d) -> daemon_command fd buf d = Done (u, d') ->
  shaper_inv (shaper d') /\ command d' = buf /\ clientfd d' = clientfd d /\ nextclientindex d' = nextclientindex d.
Proof.
  intros Hd Hr E. destruct (parse_cmd buf) as [i|w] eqn:Ep.
  - destruct (daemon_command_spec fd buf d i Hd Hr Ep) as [[E' _]|H]; [congruence|]. unfold wp in H. rewrite E in H. tauto.
  - unfold daemon_command, process_command, st_bind, st_lift in E. by rewrite Ep in E.
Qed.

Lemma trim_end_length l : (length (trim_end l) <= length l)%nat.
Proof. induction l as [|b l IH]; [done|]. cbn in *. destruct (trim_end l); [destruct (is_space b); cbn; lia|cbn in *; lia]. Qed.

Lemma length_place trim data buf : (0 < length buf)%nat -> length (place trim data buf) = length buf.
Proof.
  intros Hb. unfold place. set (got := take _ data). assert (length got <= length buf - 1)%nat by (subst got; rewrite length_take; lia).
  set (kept := if trim then _ else _). assert (length kept <= length got)%nat by (subst kept; destruct trim; [apply trim_end_length|done]).
  rewrite !length_app, length_replicate, length_drop. lia.
Qed.

Lemma next_slot_range n : 0 <= (n + 1) mod MAX_CLIENT_CONNECTIONS < MAX_CLIENT_CONNECTIONS.
Proof. apply Z.mod_pos_bound. done. Qed.

Lemma accept_client_inv newfd d : daemon_inv d -> daemon_inv (accept_client newfd d).
Proof.
  intros Hd. unfold accept_client. set (fd := if decide _ then _ else _). destruct (fd =? -1); [done|]. destruct Hd.
  split; cbn; [done|by rewrite length_insert|apply next_slot_range|done].
Qed.

Lemma placed_command_inv fd trim data d u d' :
  daemon_inv d -> room (shaper d) -> daemon_command fd (place trim data (command d)) d = Done (u, d') -> daemon_inv d'.
Proof.
  intros Hd Hr E. destruct (daemon_command_inv _ _ _ _ _ Hd Hr E) as (? & Hb & E1 & E2). destruct Hd. split; [done|by rewrite E1|by rewrite E2|].
  rewrite Hb, length_place; rewrite di_command0; [done|unfold COMMAND_SIZE; lia].
Qed.

Lemma shaper_handle_inv i d u d' :
  daemon_inv d -> room (shaper d) -> shaper_handle i d = Done (u, d') -> daemon_inv d'.
Proof.
  intros Hd Hr. destruct i as [[|b data]|newfd|sl data|]; cbn [shaper_handle].
  - by intros [= _ <-].
  - by apply placed_command_inv.
  - intros [= _ <-]. by apply accept_client_inv.
  - unfold st_bind, st_get. destruct (clientfd d !! sl) as [fd|] eqn:El; [|done]. destruct (fd =? -1); [by intros [= _ <-]|].
    assert (sl < 10)%nat as Hsl by (apply lookup_lt_Some in El; rewrite (di_clients _ Hd) in El; done).
    destruct data as [[|b data]|]; [intros [= _ <-]|by apply placed_command_inv|intros [= _ <-]];
      destruct Hd; (split; cbn; [done|by rewrite length_insert|unfold MAX_CLIENT_CONNECTIONS; lia|done]).
  - unfold st_bind at 1, st_get. unfold st_bind at 1. destruct (daemon_command _ _ _) as [[u1 d1]|] eqn:E; [|done].
    intros [= _ <-]. destruct (daemon_command_inv _ _ _ _ _ Hd Hr E) as (? & _ & E1 & E2). destruct Hd. split; cbn; by rewrite ?E1, ?E2.
Qed.

Lemma daemon_start_inv junk : daemon_inv (daemon_start junk).
Proof. split; [apply shaper_start_inv|done|done|apply length_resize]. Qed.

Lemma shaper_reach_inv d : shaper_reach d -> daemon_inv d.
Proof. induction 1; [apply daemon_start_inv|by eapply shaper_handle_inv]. Qed.

(** C28. In every state the daemon's loop reaches before the counters of filter handles wrap
    (some 2^31 reservations), whatever [system] and [malloc] answered:
    the streams' addresses are distinct and the client to come has a slot in the array; and
    unless a client has been told that the deletion of a filter failed, the bandwidth kept
    for a class is the sum of its streams' (as an [int]), the [tc] commands handed to [system]
    so far ask for that rate for each class in use (1 for a class without streams) and for no
    other, and for one filter for each stream and no other. *)
Theorem shaper_reachable_invariant d : shaper_reach d ->
  NoDup (dest_addr <$> streams (shaper d)) /\
  (Z.to_nat (nextclientindex d) < length (clientfd d))%nat /\
  (release_failed (shaper d) \/
    (forall c, slot_bw (slots (shaper d) c) = i32 (class_sum (streams (shaper d)) c)) /\
    (forall c, if slot_used (slots (shaper d) c)
       then exists r, rates (asked (ran (shaper d))) !! classid c = Some r /\
         (r = slot_bw (slots (shaper d) c) \/ slot_bw (slots (shaper d) c) = 0 /\ r = 1)
       else rates (asked (ran (shaper d))) !! classid c = None) /\
    filters (asked (ran (shaper d))) = list_to_map (stream_filter <$> streams (shaper d))).
Proof.
  intros Hd. destruct (shaper_reach_inv d Hd) as [[] Hc Hn _]. split_and!; [done| |].
  - rewrite Hc. unfold MAX_CLIENT_CONNECTIONS in *. lia.
  - destruct si_step as [?|[]]; [by left|by right].
Qed.

(** C29. Every command that can be read, from any client in any reachable state (in which the
    counters of filter handles have not run out) and whatever
    [system] and [malloc] answer, ends in one of three ways.  The table of reservations changes
    as the specification says, and a filter is asked for where the address is new; or it stays as it was, and a client is told that the command
    that sets up the root or the discipline of a class, or that deletes a filter, failed; or
    [malloc] has failed and the program exits.  The bandwidth of a reservation is the one the
    program computes in floating point; for the intervals of 125 and 250 microseconds it is
    the number of bytes per second exactly, when that is an [int]. *)
Theorem shaper_command_refines d fd buf i :
  shaper_reach d -> room (shaper d) -> parse_cmd buf = Done i ->
  let bw := cmd_bandwidth i in
  (measurement_interval i = 125 \/ measurement_interval i = 250 -> pow_10_minus_6 = micro ->
   0 < max_frame_size i -> 0 < max_frame_interval i ->
   10 ^ 6 / measurement_interval i * max_frame_size i * max_frame_interval i < 2 ^ 31 ->
   bw = 10 ^ 6 / measurement_interval i * max_frame_size i * max_frame_interval i) /\
  ((daemon_command fd buf d = Fault Exited /\ exists n, (draws (shaper d) <= n)%nat /\ sh_malloc n = false) \/
   exists d', daemon_command fd buf d = Done (tt, d') /\
     (reservations (shaper d') = next_reservations bw (active (shaper d)) i (reservations (shaper d)) /\
      (forall addr id rate, reservations (shaper d) !! addr = None -> reservations (shaper d') !! addr = Some (id, rate) ->
         filter_asked (shaper d') addr id) \/
      reservations (shaper d') = reservations (shaper d) /\ failed_since (shaper d) (shaper d'))).
Proof.
  intros Hd Hr Hp. split; [intros; by apply frame_bandwidth_exact|].
  destruct (daemon_command_spec fd buf d i (shaper_reach_inv _ Hd) Hr Hp) as [?|H]; [by left|right].
  destruct (wp_done _ _ _ H) as ([] & d' & E & _ & _ & _ & _ & [[He Hf]|He]); exists d'; split; auto. left. split; [done|]. by rewrite He.
Qed.

(** A command of a client with its line end, as the array holds it. *)
Lemma trim_end_app l b : is_space b = false -> trim_end (l ++ [b; 10]) = l ++ [b].
Proof. intros Hb. induction l as [|x l IH]; cbn; [by rewrite Hb|]. rewrite IH. by destruct l. Qed.

Lemma place_line l b buf : is_space b = false -> (length l + 2 < length buf)%nat ->
  exists rest, place true ((l ++ [b]) ++ [10]) buf = (l ++ [b]) ++ 0 :: rest.
Proof.
  intros Hb Hl. unfold place. rewrite <- app_assoc. cbn [app]. rewrite take_ge by (rewrite length_app; cbn; lia).
  rewrite trim_end_app, <- app_assoc by done. cbn [app]. rewrite !length_app. cbn [length].
  replace (length l + 2 - (length l + 1) + 1)%nat with 2%nat by lia. cbn [replicate app]. eexists. by rewrite <- app_assoc.
Qed.

Lemma reserve_text_last r : (0 < String.length (rv_da r))%nat -> Forall (fun b => is_space b = false) (bytes_of_string (rv_da r)) ->
  exists l b, bytes_of_string (reserve_text r) = l ++ [b] /\ is_space b = false.
Proof.
  intros Hl Hs. rewrite <- length_bytes_of in Hl. unfold reserve_text. rewrite !bytes_of_app, !app_assoc.
  destruct (bytes_of_string (rv_da r)) as [|b0 da _] using rev_ind; [cbn in Hl; lia|]. rewrite app_assoc. eexists _, _. split; [done|].
  apply Forall_app in Hs as [_ Hs]. by apply Forall_cons in Hs as [? _].
Qed.

(** C30. A client's reservation, in the form of the usage message, when [system] starts the
    commands and memory is left: read, carried out and answered for by a filter of the kernel. *)
Theorem shaper_reserves d slot fd r c :
  (forall n, (draws (shaper d) <= n)%nat -> 0 <= system_rc n /\ sh_malloc n = true) ->
  shaper_reach d -> room (shaper d) -> clientfd d !! slot = Some fd -> fd <> -1 ->
  reservation_ok r -> Forall (fun b => is_space b = false) (bytes_of_string (rv_da r)) ->
  (String.length (reserve_text r) < COMMAND_SIZE - 1)%nat ->
  class_of (rv_a r) (rv_interval r) = Some c -> rv_size r <> 0 -> rv_frames r <> 0 -> rv_dev r <> String.EmptyString ->
  reservations (shaper d) !! rv_da r = None ->
  exists d' handle,
    shaper_handle (in_client slot (Some (bytes_of_string (reserve_text r +:+ newline)))) d = Done (tt, d') /\
    reservations (shaper d') = <[rv_da r := (classid c, frame_bandwidth (rv_interval r) (rv_size r) (rv_frames r))]> (reservations (shaper d)) /\
    filters (asked (ran (shaper d'))) !! (String.substring 0 2 (classid c), handle) = Some (classid c, rv_da r).
Proof.
  intros Hsys Hd Hr Hsl Hfd Hok Hsp Hlen Hc Hsize Hframes Hdev Hnone. pose proof (shaper_reach_inv _ Hd) as Hinv.
  assert (0 < String.length (rv_da r))%nat as Hda by (destruct Hok as (_ & _ & _ & -> & _); unfold STREAMDA_LENGTH; lia).
  destruct (reserve_text_last r Hda Hsp) as (l & b & El & Hb). rewrite <- length_bytes_of, El, length_app in Hlen. cbn in Hlen.
  destruct (place_line l b (command d) Hb) as [rest Ep]; [rewrite (di_command _ Hinv); unfold COMMAND_SIZE in *; lia|].
  pose proof (daemon_command_spec fd ((l ++ [b]) ++ 0 :: rest) d (reserve_cmd r) Hinv Hr) as H. rewrite <- El in H at 1.
  specialize (H (parse_reserve_text r rest Hok)). destruct H as [(_ & n & [_ Hn]%Hsys & Hn')|H]; [congruence|].
  destruct (wp_done _ _ _ H) as ([] & d' & E & Hs' & _ & _ & _ & [[Ht Hf]|[_ [(n & [[Hn _]%Hsys _] & Hn') _]]]); [|lia].
  assert (next_reservations (cmd_bandwidth (reserve_cmd r)) (active (shaper d)) (reserve_cmd r) (reservations (shaper d)) =
    <[rv_da r := (classid c, frame_bandwidth (rv_interval r) (rv_size r) (rv_frames r))]> (reservations (shaper d))) as En.
  { unfold next_reservations, accepted. rewrite traffic_class_spec. cbn. apply Z.eqb_neq in Hsize, Hframes. rewrite Hsize, Hframes, Hnone, Hc. cbn.
    rewrite bool_decide_eq_false_2, andb_false_r by done. assert (rv_interval r =? 0 = false) as ->.
    { apply Z.eqb_neq. intros E0. rewrite E0 in Hc. by destruct (rv_a r). }
    by destruct (rv_a r). }
  rewrite En in *. destruct (Hf _ _ _ Hnone (lookup_insert_eq _ _ _)) as [h Hh].
  exists d', h. split_and!; [|done|done]. cbn [shaper_handle]. unfold st_bind, st_get. rewrite Hsl.
  apply Z.eqb_neq in Hfd. rewrite Hfd, bytes_of_app. change (bytes_of_string newline) with [10]. rewrite El.
  destruct ((l ++ [b]) ++ [10]) as [|x t] eqn:Ex; [by destruct l|]. by rewrite Ep.
Qed.

End reach.
