(* ===== verification/ShaperExamples.v ===== *)
(** * ShaperExamples: the shaper on concrete commands

    Witnesses of the theorems on a system that answers, and what the daemon does with
    commands and answers it does not expect. *)
From Stdlib Require Import SpecFloat.
From stdpp Require Import base gmap strings numbers list sorting.
From S2P Require Import Prelude Text Parse Shaper ShaperInv ShaperParse ShaperProps.
#[local] Open Scope Z_scope.
#[local] Open Scope st_scope.

(** A system that answers [rc]. *)
Definition shell (rc : nat -> Z) : ShaperEnv := {|
  system_rc := rc; sh_malloc := fun _ => true; pow_10_minus_6 := micro; int_undefined := fun _ => - 2 ^ 31 |}.
#[local] Instance calm_shell : ShaperEnv := shell (fun _ => 0).

(** The daemon after its first client has connected. *)
Definition connected : Daemon := accept_client 5 (daemon_start []).

Lemma connected_reach : shaper_reach connected.
Proof.
  apply (shaper_reach_step (daemon_start []) (in_connect 5)); [apply shaper_reach_start| |done]. split; vm_compute; split; congruence.
Defined.

Definition usage_line : list Z := bytes_of_string (reserve_text usage_example +:+ newline).

Lemma usage_example_ok : reservation_ok usage_example.
Proof. unfold reservation_ok, word. split_and!; try (unfold IFNAMSIZ; cbn; lia); try done; apply (bool_decide_unpack _); vm_compute; exact I. Qed.

Definition run_shaper (i : shaper_input) (d : Daemon) : Daemon := match shaper_handle i d with Done (_, d') => d' | Fault _ => d end.
Definition reserved : Daemon := run_shaper (in_client 0 (Some usage_line)) connected.

Lemma reserved_reach : shaper_reach reserved.
Proof.
  apply (shaper_reach_step connected (in_client 0 (Some usage_line))); [apply connected_reach|split; vm_compute; split; congruence|].
  vm_compute. reflexivity.
Qed.

Lemma shaper_reachable_invariant_witness :
  slot_bw (slots (shaper reserved) classa_48) = 592000 /\
  filters (asked (ran (shaper reserved))) = list_to_map (stream_filter <$> streams (shaper reserved)).
Proof.
  split; [vm_compute; reflexivity|]. destruct (shaper_reachable_invariant reserved reserved_reach) as (_ & _ & [(dev & p & h & fd & Hf)|(_ & _ & H)]); [|exact H].
  exfalso. assert (replies (shaper reserved) = []) as E by (vm_compute; reflexivity). rewrite E in Hf. inversion Hf.
Defined.

Lemma shaper_command_refines_witness : exists d',
  daemon_command 5 (bytes_of_string "-ua ff:ff:ff:ff:ff:11" ++ [0]) reserved = Done (tt, d') /\ reservations (shaper d') = ∅.
Proof.
  destruct (shaper_command_refines reserved 5 (bytes_of_string "-ua ff:ff:ff:ff:ff:11" ++ [0])
    (mkCmd false true String.EmptyString false false 0 0 0 "ff:ff:ff:ff:ff:11" false false))
    as [_ [[_ (n & _ & Hn)]|(d' & H1 & [[H2 _]|[_ [(n & _ & Hn) _]]])]].
  - apply reserved_reach.
  - split; vm_compute; split; congruence.
  - vm_compute. reflexivity.
  - discriminate Hn.
  - exists d'. split; [exact H1|]. rewrite H2. apply (bool_decide_unpack _). vm_compute. exact I.
  - by exfalso.
Defined.

(** 592000 bytes per second are one frame of 74 bytes every 125 microseconds. *)
Example usage_bandwidth_exact : frame_bandwidth 125 74 1 = 8000 * 74 * 1.
Proof. by apply frame_bandwidth_exact; [left|..]. Qed.

Lemma shaper_reserves_witness : exists d' handle,
  shaper_handle (in_client 0 (Some usage_line)) connected = Done (tt, d') /\
  reservations (shaper d') = {["ff:ff:ff:ff:ff:11" := ("2:10", 592000)]} /\
  filters (asked (ran (shaper d'))) !! ("2:", handle) = Some ("2:10", "ff:ff:ff:ff:ff:11").
Proof.
  destruct (shaper_reserves connected 0 5 usage_example classa_48) as (d' & h & H1 & H2 & H3).
  - by split.
  - apply connected_reach.
  - split; vm_compute; split; congruence.
  - reflexivity.
  - lia.
  - apply usage_example_ok.
  - apply (bool_decide_unpack _). vm_compute. exact I.
  - vm_compute. lia.
  - reflexivity.
  - done.
  - done.
  - done.
  - reflexivity.
  - exists d', h. split; [exact H1|]. split; [|exact H3]. rewrite H2. reflexivity.
Defined.

(** ** What goes wrong *)

(** An argument of a number is copied up to a space, and the byte behind it is read: with
    none left the copy runs off the array. *)
Lemma copy_arg_runs_off k p : Forall (fun b => b <> 32) p -> (length p <= k)%nat -> copy_arg k p = Fault OutOfBounds.
Proof.
  intros Hp. revert k. induction Hp as [|b p Hb _ IH]; intros k Hk; [by destruct k|]. destruct k as [|k]; cbn in *; [lia|].
  apply Z.eqb_neq in Hb. by rewrite Hb, IH by lia.
Qed.

(** A numeric option at the end of a command makes the parser read past the array of 100
    bytes, unless a space is left in it from a command before: the loop that copies the digits
    stops at a space and not at the end of the text. *)
Theorem shaper_last_number_overreads digits pad :
  word digits -> Forall (fun b => b <> 32) pad -> (length digits + length pad + 1 <= 99)%nat ->
  parse_cmd (bytes_of_string "-f " ++ digits ++ 0 :: pad) = Fault OutOfBounds.
Proof.
  intros Hd Hp Hl. unfold parse_cmd. change (bytes_of_string "-f ") with [45; 102; 32]. cbn [app length].
  cbn -[copy_arg]. unfold on_arg. cbn -[copy_arg].
  rewrite copy_arg_runs_off; [done| |].
  - apply Forall_app. split; [eapply Forall_impl; [exact Hd|]; cbn; tauto|by constructor].
  - rewrite length_app. cbn. lia.
Qed.

Lemma shaper_last_number_overreads_witness : parse_cmd (place true (bytes_of_string "-f 1") (replicate COMMAND_SIZE 0)) = Fault OutOfBounds.
Proof.
  apply (shaper_last_number_overreads [49] (replicate 95 0)).
  - constructor; [split; congruence|constructor].
  - apply Forall_replicate. congruence.
  - cbn. lia.
Defined.

(** When the command that deletes a filter cannot be started, the bandwidth of the class
    is lowered but the stream stays: asked again, the daemon takes it off once more, and the
    class ends below zero with a stream in it. *)
Theorem shaper_failed_release :
  let d0 := match @shaper_handle (shell (fun _ => 0)) (in_client 0 (Some usage_line)) connected with Done (_, d) => d | Fault _ => connected end in
  let release := in_client 0 (Some (bytes_of_string "-ua ff:ff:ff:ff:ff:11")) in
  let no_shell := shell (fun _ => -1) in
  exists d1 d2, @shaper_handle no_shell release d0 = Done (tt, d1) /\ @shaper_handle no_shell release d1 = Done (tt, d2) /\
    length (streams (shaper d2)) = 1%nat /\
    slot_bw (slots (shaper d0) classa_48) = 592000 /\ slot_bw (slots (shaper d1) classa_48) = 0 /\
    slot_bw (slots (shaper d2) classa_48) = -592000.
Proof. eexists _, _. split; [vm_compute; reflexivity|]. split; [vm_compute; reflexivity|]. by repeat split. Qed.

(** Ten clients, of which the fourth and then the eighth leave; one comes, then another. *)
Definition eleven_clients : list shaper_input :=
  (in_connect ∘ Z.of_nat <$> seq 10 10) ++ [in_client 3 (Some []); in_client 7 (Some []); in_connect 30; in_connect 31].

(** The search for a free slot looks at the same slot every time, so a client is turned away
    although a slot is free. *)
Theorem shaper_turns_away :
  let d := foldl (fun d i => run_shaper i d) (daemon_start []) eleven_clients in
  clientfd d !! 3%nat = Some (-1) /\ 31 ∉ clientfd d.
Proof. split; [by vm_compute|]. apply (bool_decide_unpack _). vm_compute. exact I. Qed.

(** [-d] gives everything up, and then complains that it has no interface. *)
Example shaper_delete_complains :
  match process_command 5 (bytes_of_string "-d" ++ [0]) (shaper reserved) with
  | Done (ret, s) => ret = -1 /\ streams s = [] /\ last (replies s) = Some (5, told_usage)
  | Fault _ => False
  end.
Proof. vm_compute. by split_and!. Qed.

(** A release before the first reservation sets the root up; the reservation does so again. *)
Example shaper_root_twice :
  let d := run_shaper (in_client 0 (Some usage_line))
             (run_shaper (in_client 0 (Some (bytes_of_string "-ui eth2 -a ff:ff:ff:ff:ff:11"))) connected) in
  take 2 (ran (shaper d)) = [tc_root_add "eth2"; tc_root_add "eth2"].
Proof. vm_compute. reflexivity. Qed.

(** 17 frames of 33 bytes every 136 microseconds are 4125000 bytes per second; rounding makes
    it one more. *)
Example shaper_rounds_up : frame_bandwidth 136 33 17 = 4125001 /\ 17 * 33 * 1000000 = 136 * 4125000.
Proof. vm_compute. by split. Qed.
