(* ===== verification/GptpTime.v ===== *)
(** * GptpTime: the timestamps of gPTP

    Model of the class [Timestamp] and of the functions on it in
    [daemons/gptp/common/ieee1588.hpp]: 48 bits of seconds in two words and 32 bits of
    nanoseconds, every C++ expression cut to its width.  The theorems compare the
    arithmetic with that of the number of nanoseconds the timestamp stands for. *)
From stdpp Require Import base numbers list.
From Stdlib Require Import ZArith Lia.
From S2P Require Import Prelude.

#[local] Open Scope Z_scope.

Definition INVALID_TIMESTAMP_VERSION : Z := 255.
Definition MAX_NANOSECONDS : Z := 1000000000.
Definition NS_PER_SECOND : Z := 1000000000.
Definition LS_SEC_MAX : Z := 4294967295.

Record Timestamp := mkTs {
  nanoseconds : Z;   (** [uint32_t] *)
  seconds_ls : Z;    (** [uint32_t] *)
  seconds_ms : Z;    (** [uint16_t] *)
  ts_version : Z     (** [uint8_t _version] *) }.

#[global] Instance Timestamp_eq_dec : EqDecision Timestamp.
Proof. solve_decision. Defined.

(** The constructor with its default version. *)
Definition newTimestamp (ns s_l s_m : Z) : Timestamp := mkTs ns s_l s_m INVALID_TIMESTAMP_VERSION.

Definition INVALID_TIMESTAMP : Timestamp := newTimestamp 3221225472 0 0.
Definition PDELAY_PENDING_TIMESTAMP : Timestamp := newTimestamp 3221225473 0 0.

Definition same_version (a o : Timestamp) : Z :=
  if ts_version a =? ts_version o then ts_version a else INVALID_TIMESTAMP_VERSION.

(** [Timestamp::operator+] *)
Definition ts_plus (a o : Timestamp) : Timestamp :=
  let ns := u32 (nanoseconds a + nanoseconds o) in
  let carry := (ns <? nanoseconds a) || (MAX_NANOSECONDS <=? ns) in
  let ns := u32 (ns - (if carry then MAX_NANOSECONDS else 0)) in
  let ls := u32 (u32 (seconds_ls a + seconds_ls o) + (if carry then 1 else 0)) in
  let carry := ls <? seconds_ls a in
  let ms := u16 (u16 (seconds_ms a + seconds_ms o) + (if carry then 1 else 0)) in
  mkTs ns ls ms (same_version a o).

(** [Timestamp::operator-].  [seconds_ms] and [borrow_total] meet as [unsigned]; a borrow
    adds [(uint32_t)-1]. *)
Definition ts_minus (a o : Timestamp) : Timestamp :=
  let borrow_this := nanoseconds a <? nanoseconds o in
  let ns := u32 ((if borrow_this then MAX_NANOSECONDS else 0) + nanoseconds a - nanoseconds o) in
  let carry := MAX_NANOSECONDS <? ns in
  let ns := u32 (ns - (if carry then MAX_NANOSECONDS else 0)) in
  let borrow_total := if borrow_this then 1 else 0 in
  let ls := u32 ((if carry then 1 else 0) + seconds_ls a) in
  let borrow_this := (ls <? borrow_total) || (u32 (ls - borrow_total) <? seconds_ls o) in
  let ls := if borrow_this then u32 (ls - seconds_ls o + LS_SEC_MAX) else u32 (ls - borrow_total - seconds_ls o) in
  let borrow_total := if borrow_this then borrow_total + 1 else 0 in
  let ms := u16 ((if carry then 1 else 0) + seconds_ms a) in
  let borrow_this := (ms <? borrow_total) || (u32 (ms - borrow_total) <? seconds_ms o) in
  let ms := if borrow_this then u16 (u32 (ms - seconds_ms o + LS_SEC_MAX)) else u16 (u32 (ms - borrow_total - seconds_ms o)) in
  mkTs ns ls ms (same_version a o).

(** [Timestamp::set64] *)
Definition set64 (t : Timestamp) (value : Z) : Timestamp :=
  mkTs (value mod 1000000000) (u32 (value / 1000000000)) (u16 (Z.shiftr (value / 1000000000) 32)) (ts_version t).

(** [TIMESTAMP_TO_NS]: computed as [long long], returned as [uint64_t]. *)
Definition TIMESTAMP_TO_NS (t : Timestamp) : Z :=
  u64 ((Z.shiftl (seconds_ms t) 32 + seconds_ls t) * 1000000000 + nanoseconds t).

(** The seconds as one [uint64_t], and back. *)
Definition ts_secs (t : Timestamp) : Z := Z.lor (seconds_ls t) (Z.shiftl (seconds_ms t) 32).
Definition ts_of_secs (secs nanos : Z) (t : Timestamp) : Timestamp :=
  mkTs (u32 nanos) (u32 (Z.land secs LS_SEC_MAX)) (u16 (Z.shiftr secs 32)) (ts_version t).

Definition TIMESTAMP_SUB_NS (t : Timestamp) (ns : Z) : Timestamp :=
  let secs := u64 (ts_secs t - ns / NS_PER_SECOND) in
  let ns := ns mod NS_PER_SECOND in
  let '(nanos, secs) :=
    if nanoseconds t <? ns then (u64 (nanoseconds t + NS_PER_SECOND), u64 (secs - 1)) else (nanoseconds t, secs) in
  ts_of_secs secs (u64 (nanos - ns)) t.

Definition TIMESTAMP_ADD_NS (t : Timestamp) (ns : Z) : Timestamp :=
  let secs := u64 (ts_secs t + ns / NS_PER_SECOND) in
  let nanos := u64 (nanoseconds t + ns mod NS_PER_SECOND) in
  let '(nanos, secs) :=
    if NS_PER_SECOND <? nanos then (u64 (nanos - NS_PER_SECOND), u64 (secs + 1)) else (nanos, secs) in
  ts_of_secs secs nanos t.

(** ** What a timestamp stands for *)

(** The fields have their widths and the nanoseconds are less than a second. *)
Record ts_ok (t : Timestamp) : Prop := {
  ok_ns : 0 <= nanoseconds t < 1000000000;
  ok_ls : 0 <= seconds_ls t < 2 ^ 32;
  ok_ms : 0 <= seconds_ms t < 2 ^ 16 }.

Definition seconds (t : Timestamp) : Z := seconds_ms t * 2 ^ 32 + seconds_ls t.
Definition ts_val (t : Timestamp) : Z := seconds t * 1000000000 + nanoseconds t.

(** After 2^48 seconds the clock starts again. *)
Definition ts_cycle : Z := 2 ^ 48 * 1000000000.

Lemma ts_secs_seconds t : 0 <= seconds_ls t < 2 ^ 32 -> ts_secs t = seconds t.
Proof.
  intros. unfold ts_secs, seconds. rewrite Z.lor_comm, lor_shiftl_small by lia. done.
Qed.

Lemma seconds_of_secs secs nanos t :
  seconds (ts_of_secs secs nanos t) = secs mod 2 ^ 48.
Proof.
  unfold seconds, ts_of_secs, LS_SEC_MAX. cbn [seconds_ms seconds_ls].
  change 4294967295 with (Z.ones 32). rewrite Z.land_ones, Z.shiftr_div_pow2 by lia.
  zdiv_lia.
Qed.

Lemma ts_val_of_secs secs nanos t :
  0 <= nanos < 2 ^ 32 -> ts_val (ts_of_secs secs nanos t) = secs mod 2 ^ 48 * 1000000000 + nanos.
Proof.
  intros. unfold ts_val. rewrite seconds_of_secs. cbn [nanoseconds ts_of_secs].
  by rewrite u32_small.
Qed.

Lemma ts_val_inj a b : ts_ok a -> ts_ok b -> ts_val a = ts_val b -> ts_version a = ts_version b -> a = b.
Proof.
  destruct a, b. intros [] [] H V. unfold ts_val, seconds in *. cbn in *. f_equal; lia.
Qed.

Lemma seconds_range t : ts_ok t -> 0 <= seconds t < 2 ^ 48.
Proof. intros []. unfold seconds. lia. Qed.

Lemma TIMESTAMP_TO_NS_val t : TIMESTAMP_TO_NS t = ts_val t mod 2 ^ 64.
Proof. unfold TIMESTAMP_TO_NS, ts_val, seconds, u64. by rewrite Z.shiftl_mul_pow2. Qed.

Lemma TIMESTAMP_TO_NS_small t : 0 <= ts_val t < 2 ^ 64 -> TIMESTAMP_TO_NS t = ts_val t.
Proof. intros. rewrite TIMESTAMP_TO_NS_val. by apply Z.mod_small. Qed.

(** [set64] writes what [TIMESTAMP_TO_NS] reads. *)
Lemma set64_val t v : 0 <= v < 2 ^ 64 -> ts_ok (set64 t v) /\ ts_val (set64 t v) = v.
Proof.
  intros. unfold ts_val, seconds, set64. rewrite Z.shiftr_div_pow2 by lia.
  split; [split|]; cbn [nanoseconds seconds_ls seconds_ms]; zdiv_lia.
Qed.

Lemma set64_to_ns t v : ts_ok v -> ts_val v < 2 ^ 64 -> ts_version t = ts_version v -> set64 t (TIMESTAMP_TO_NS v) = v.
Proof.
  intros Hv Hs Hver. assert (0 <= ts_val v).
  { pose proof (seconds_range v Hv). destruct Hv. unfold ts_val. lia. }
  rewrite TIMESTAMP_TO_NS_small by done.
  destruct (set64_val t (ts_val v)) as [H1 H2]; [done|]. by apply ts_val_inj.
Qed.

(** ** Adding and subtracting nanoseconds *)
Section ns.
Context (t : Timestamp) (ns : Z) (Hok : ts_ok t) (Hns : 0 <= ns < 2 ^ 64).

Lemma add_ns_val :
  ts_val (TIMESTAMP_ADD_NS t ns) mod ts_cycle = (ts_val t + ns) mod ts_cycle /\
  nanoseconds (TIMESTAMP_ADD_NS t ns) =
    (if decide (nanoseconds t + ns mod 1000000000 = 1000000000) then 1000000000
     else (nanoseconds t + ns) mod 1000000000).
Proof using Hok Hns.
  pose proof (seconds_range t Hok) as Hs. destruct Hok as [Hn Hl Hm].
  unfold TIMESTAMP_ADD_NS, NS_PER_SECOND. rewrite ts_secs_seconds by done.
  rewrite (u64_small (seconds t + _)) by zdiv_lia.
  rewrite (u64_small (nanoseconds t + _)) by zdiv_lia.
  destruct (Z.ltb_spec 1000000000 (nanoseconds t + ns mod 1000000000)).
  - rewrite !u64_small by zdiv_lia. rewrite ts_val_of_secs by zdiv_lia. cbn [nanoseconds ts_of_secs].
    rewrite u32_small by zdiv_lia. unfold ts_val, ts_cycle.
    case_decide; split; zdiv_lia.
  - rewrite ts_val_of_secs by zdiv_lia. cbn [nanoseconds ts_of_secs].
    rewrite u32_small by zdiv_lia. unfold ts_val, ts_cycle.
    case_decide; split; zdiv_lia.
Qed.

End ns.

(** A timestamp [TIMESTAMP_ADD_NS] leaves behind can have a full second of nanoseconds. *)
Lemma sub_ns_val t ns :
  0 <= nanoseconds t <= 1000000000 -> nanoseconds t - ns mod 1000000000 < 1000000000 ->
  0 <= seconds_ls t < 2 ^ 32 -> 0 <= seconds_ms t < 2 ^ 16 -> 0 <= ns < 2 ^ 64 ->
  ts_val (TIMESTAMP_SUB_NS t ns) = (ts_val t - ns) mod ts_cycle /\ ts_ok (TIMESTAMP_SUB_NS t ns).
Proof.
  intros Hn Hr Hl Hm Hns. assert (0 <= seconds t < 2 ^ 48) as Hs by (unfold seconds; lia).
  unfold TIMESTAMP_SUB_NS, NS_PER_SECOND. rewrite ts_secs_seconds by done.
  assert (forall a b, 0 <= a < 1000000000 -> ts_ok (ts_of_secs b a t)) as Hts.
  { intros a b Ha. split; cbn; [|apply u32_range|apply u16_range]. by rewrite u32_small by lia. }
  destruct (Z.ltb_spec (nanoseconds t) (ns mod 1000000000)); cbv zeta;
    [rewrite (u64_small (nanoseconds t + _)) by zdiv_lia|]; rewrite (u64_small (_ - ns mod _)) by zdiv_lia;
    (split; [|apply Hts; zdiv_lia]); rewrite ts_val_of_secs by zdiv_lia; unfold ts_val, ts_cycle; zdiv_lia.
Qed.

Lemma add_ns_fields t ns :
  let r := TIMESTAMP_ADD_NS t ns in
  0 <= seconds_ls r < 2 ^ 32 /\ 0 <= seconds_ms r < 2 ^ 16 /\ ts_version r = ts_version t.
Proof.
  unfold TIMESTAMP_ADD_NS. destruct (_ <? _); cbn; split_and!; try done; first [apply u32_range|apply u16_range].
Qed.

(** Adding nanoseconds to a timestamp and subtracting them from it is arithmetic modulo 2^48
    seconds, and subtracting undoes adding.  The sum has fewer than 10^9 nanoseconds except
    where the parts add up to exactly one second, which is not carried. *)
Theorem timestamp_ns_arithmetic t ns :
  ts_ok t -> 0 <= ns < 2 ^ 64 ->
  ts_val (TIMESTAMP_ADD_NS t ns) mod ts_cycle = (ts_val t + ns) mod ts_cycle /\
  ts_val (TIMESTAMP_SUB_NS t ns) = (ts_val t - ns) mod ts_cycle /\ ts_ok (TIMESTAMP_SUB_NS t ns) /\
  TIMESTAMP_SUB_NS (TIMESTAMP_ADD_NS t ns) ns = t /\
  (ts_ok (TIMESTAMP_ADD_NS t ns) <-> nanoseconds t + ns mod 1000000000 <> 1000000000).
Proof.
  intros Hok Hns. destruct (add_ns_val t ns Hok Hns) as [HA HAn].
  destruct (add_ns_fields t ns) as (Hl & Hm & Hv).
  pose proof (seconds_range t Hok). pose proof Hok as [Hn Hl0 Hm0].
  destruct (sub_ns_val t ns) as [HS HSok]; [lia|zdiv_lia|done..|].
  split_and!; [done..| |].
  - destruct (sub_ns_val (TIMESTAMP_ADD_NS t ns) ns) as [H1 H2]; [case_decide; zdiv_lia..|done|done|done|].
    apply ts_val_inj; [done|done| |].
    + rewrite H1, Zminus_mod, HA, <-Zminus_mod. replace (ts_val t + ns - ns) with (ts_val t) by lia.
      apply Z.mod_small. unfold ts_val, ts_cycle. lia.
    + unfold TIMESTAMP_SUB_NS. destruct (_ <? _); done.
  - split; [intros [Hn' _ _]; case_decide; lia|]. intros. split; [|done..].
    rewrite HAn, decide_False by done. by apply Z.mod_pos_bound.
Qed.

(** ** Sums and differences of timestamps *)

(** [operator+] is exact when the seconds added are not all ones. *)
Lemma ts_plus_val a b :
  ts_ok a -> ts_ok b -> seconds_ls b < 2 ^ 32 - 1 ->
  ts_ok (ts_plus a b) /\ ts_val (ts_plus a b) = (ts_val a + ts_val b) mod ts_cycle.
Proof.
  intros [] [] ?. unfold ts_plus, ts_val, ts_cycle, seconds, MAX_NANOSECONDS.
  destruct a as [n1 l1 m1 v1], b as [n2 l2 m2 v2]; cbn [nanoseconds seconds_ls seconds_ms ts_version] in *.
  rewrite (u32_small (n1 + n2)) by lia.
  replace (n1 + n2 <? n1) with false by lia. rewrite orb_false_l.
  set (c := if 1000000000 <=? n1 + n2 then 1 else 0).
  replace (if 1000000000 <=? n1 + n2 then 1000000000 else 0) with (c * 1000000000)
    by (unfold c; destruct (_ <=? _); lia).
  assert (0 <= n1 + n2 - c * 1000000000 < 1000000000 /\ 0 <= c <= 1) as [Hn Hc]
    by (unfold c; destruct (Z.leb_spec 1000000000 (n1 + n2)); lia).
  rewrite (u32_small (n1 + n2 - _)) by lia. clearbody c.
  assert (u32 (u32 (l1 + l2) + c) = l1 + l2 + c - (if 2 ^ 32 <=? l1 + l2 + c then 2 ^ 32 else 0)) as ->.
  { destruct (Z.leb_spec (2 ^ 32) (l1 + l2 + c)); zdiv_lia. }
  destruct (Z.leb_spec (2 ^ 32) (l1 + l2 + c)).
  - replace (_ <? l1) with true by lia. split; [split; cbn; zdiv_lia|zdiv_lia].
  - replace (_ <? l1) with false by lia. split; [split; cbn; zdiv_lia|zdiv_lia].
Qed.

(** Does [operator-] borrow from the seconds, and does it borrow from their upper word? *)
Definition borrows_ns (a b : Timestamp) : bool := nanoseconds a <? nanoseconds b.
Definition borrows_ls (a b : Timestamp) : bool :=
  seconds_ls a <? seconds_ls b + (if borrows_ns a b then 1 else 0).

(** [operator-] computes the difference of two timestamps in order, except that a borrow
    from the upper word of the seconds with none from the nanoseconds loses a second. *)
Lemma ts_minus_val a b :
  ts_ok a -> ts_ok b -> ts_val b <= ts_val a ->
  (borrows_ls a b = true -> seconds_ms a <= seconds_ms b + 1) ->
  ts_ok (ts_minus a b) /\
  ts_val (ts_minus a b) = ts_val a - ts_val b - (if borrows_ls a b && negb (borrows_ns a b) then 1000000000 else 0).
Proof.
  intros [] [] Hle Hms. unfold ts_minus, borrows_ls, borrows_ns, ts_val, seconds, MAX_NANOSECONDS, LS_SEC_MAX in *.
  destruct a as [n1 l1 m1 v1], b as [n2 l2 m2 v2]; cbn [nanoseconds seconds_ls seconds_ms ts_version] in *.
  set (c := if n1 <? n2 then 1 else 0) in *.
  replace (if n1 <? n2 then 1000000000 else 0) with (c * 1000000000) by (unfold c; destruct (_ <? _); lia).
  assert (0 <= c * 1000000000 + n1 - n2 < 1000000000 /\ (c = 0 \/ c = 1)) as [Hn Hc]
    by (unfold c; destruct (Z.ltb_spec n1 n2); lia).
  assert ((n1 <? n2) = (c =? 1)) as -> by (unfold c; destruct (n1 <? n2); done). clearbody c.
  rewrite (u32_small (c * 1000000000 + n1 - n2)) by lia. replace (1000000000 <? _) with false by lia. cbv zeta iota.
  rewrite (u32_small (_ - 0)), !Z.add_0_l, (u32_small l1), (u16_small m1) by lia.
  assert ((l1 <? c) || (u32 (l1 - c) <? l2) = (l1 <? l2 + c)) as ->.
  { destruct (Z.ltb_spec l1 c); [cbn; lia|]. rewrite u32_small by lia. cbn. lia. }
  revert Hms. destruct (Z.ltb_spec l1 (l2 + c)); intros Hms.
  - specialize (Hms eq_refl). assert ((m1 <? c + 1) || (u32 (m1 - (c + 1)) <? m2) = (c =? 1)) as ->.
    { destruct (Z.ltb_spec m1 (c + 1)); [cbn; lia|]. rewrite u32_small by lia. cbn. lia. }
    destruct Hc as [-> | ->]; cbn [Z.eqb Pos.eqb negb andb].
    + rewrite (u32_small (m1 - (0 + 1) - m2)), u16_small by lia.
      replace (u32 (l1 - l2 + 4294967295)) with (l1 - l2 + 4294967295) by (symmetry; apply u32_small; lia).
      split; [split; cbn; lia|lia].
    + replace (u32 (l1 - l2 + 4294967295)) with (l1 - l2 + 4294967295) by (symmetry; apply u32_small; lia).
      replace (u16 (u32 (m1 - m2 + 4294967295))) with (m1 - m2 - 1) by zdiv_lia.
      split; [split; cbn; lia|lia].
  - assert (m2 <= m1) by lia.
    replace ((m1 <? 0) || (u32 (m1 - 0) <? m2)) with false by (rewrite u32_small by lia; lia).
    rewrite !u32_small, u16_small by lia. cbn [andb]. split; [split; cbn; lia|lia].
Qed.

(** The case the receive path uses: the delay of the PHY is taken from a timestamp of at least
    a second, or of at least as many nanoseconds. *)
Lemma ts_minus_ns a b :
  ts_ok a -> ts_ok b -> seconds_ls b = 0 -> seconds_ms b = 0 ->
  (nanoseconds b <= nanoseconds a \/ 0 < seconds_ls a) ->
  ts_ok (ts_minus a b) /\ ts_val (ts_minus a b) = ts_val a - nanoseconds b.
Proof.
  intros Ha Hb Hl Hm Hge. pose proof Ha as [Hn Hla Hma]. pose proof Hb as [Hnb _ _].
  destruct (ts_minus_val a b) as [H1 H2]; [done|done| | |].
  { unfold ts_val, seconds. rewrite Hl, Hm. lia. }
  { unfold borrows_ls, borrows_ns. rewrite Hl. destruct (Z.ltb_spec (nanoseconds a) (nanoseconds b)); lia. }
  split; [done|]. rewrite H2. unfold borrows_ls, borrows_ns, ts_val at 2, seconds. rewrite Hl, Hm.
  destruct (Z.ltb_spec (nanoseconds a) (nanoseconds b)); cbn [negb];
    [rewrite andb_false_r; lia|]. replace (seconds_ls a <? 0 + 0) with false by lia. cbn. lia.
Qed.

(** A second is lost: 2^32 seconds minus one second. *)
Example ts_minus_loses_a_second :
  ts_minus (newTimestamp 0 0 1) (newTimestamp 0 1 0) = newTimestamp 0 4294967294 0.
Proof. reflexivity. Qed.

(** A full second of nanoseconds is not carried. *)
Example ts_add_ns_not_carried :
  TIMESTAMP_ADD_NS (newTimestamp 999999999 5 0) 1 = newTimestamp 1000000000 5 0.
Proof. reflexivity. Qed.

(** One second and 7 ns later, and back. *)
Lemma timestamp_ns_arithmetic_witness :
  TIMESTAMP_SUB_NS (TIMESTAMP_ADD_NS (newTimestamp 999999998 4294967295 0) 1000000007) 1000000007 =
    newTimestamp 999999998 4294967295 0 /\
  TIMESTAMP_ADD_NS (newTimestamp 999999998 4294967295 0) 1000000007 = newTimestamp 5 1 1.
Proof.
  split; [|reflexivity].
  apply (timestamp_ns_arithmetic (newTimestamp 999999998 4294967295 0) 1000000007); [split; cbn; lia|lia].
Defined.
