(* ===== verification/GptpMsg.v ===== *)
(** * GptpMsg: the messages of gPTP and their encoding

    Model of the message classes of [daemons/gptp/common/avbts_message.hpp] and of the
    encoders and decoders of [ptp_message.cpp].  The machine is little-endian, as the
    hardware the daemon is written for: an integer in memory is [le_bytes], and a
    conversion to network order is one of the number.  Buffers have a size, and an access
    outside is a fault.  What a message does to a port is in [GptpPort]. *)
From stdpp Require Import base numbers list.
From Stdlib Require Import ZArith Lia.
From S2P Require Import Prelude GptpTime.

#[local] Open Scope Z_scope.

(** ** Integers in memory *)
Definition le_bytes (n : nat) (v : Z) : list Z := reverse (be_bytes n v).
Definition le_val (l : list Z) : Z := be_val (reverse l).

(** A number of [w] bits read as a two's complement one. *)
Definition signed (w : Z) (z : Z) : Z := (z + 2 ^ (w - 1)) mod 2 ^ w - 2 ^ (w - 1).

(** [platform.cpp]; [ntohs], [ntohl] and [ntohll] are the same functions. *)
Definition PLAT_htons (s : Z) : Z := le_val (be_bytes 2 s).
Definition PLAT_htonl (l : Z) : Z := le_val (be_bytes 4 l).
Definition PLAT_htonll (x : Z) : Z :=
  Z.lor (Z.shiftl (PLAT_htonl (Z.land x 0xFFFFFFFF)) 32) (PLAT_htonl (Z.shiftr x 32)).

(** [memcpy] from and to a buffer. *)
Definition rd (buf : list Z) (off n : nat) : outcome (list Z) :=
  if (off + n <=? length buf)%nat then Done (take n (drop off buf)) else Fault OutOfBounds.
Definition wr (buf : list Z) (off : nat) (bytes : list Z) : outcome (list Z) :=
  if (off + length bytes <=? length buf)%nat
  then Done (take off buf ++ bytes ++ drop (off + length bytes) buf) else Fault OutOfBounds.

(** Reading one integer of [n] bytes as it lies in memory. *)
Definition rd_int (buf : list Z) (off n : nat) : outcome Z := le_val <$> rd buf off n.

(** ** Identities *)
Definition ClockIdentity : Type := list Z.
Definition PTP_CLOCK_IDENTITY_LENGTH : nat := 8.

(** [ClockIdentity::set(LinkLayerAddress * addr)] *)
Definition ClockIdentity_of_addr (addr : list Z) : ClockIdentity :=
  let tmp1 := le_val (addr ++ [0; 0]) in
  let tmp2 := Z.land tmp1 0xFFFFFF in
  let tmp1 := u64 (Z.shiftl (Z.shiftr tmp1 24) 16) in
  let tmp1 := u64 (Z.shiftl (Z.lor tmp1 0xFEFF) 24) in
  le_bytes 8 (Z.lor tmp1 tmp2).

Record PortIdentity := mkPortId { clock_id : ClockIdentity; portNumber : Z }.
#[global] Instance PortIdentity_eq_dec : EqDecision PortIdentity.
Proof. solve_decision. Defined.

(** [PortIdentity(uint8_t * clock_id, uint16_t * portNumber)] at two places of a buffer. *)
Definition rd_PortIdentity (buf : list Z) (clk prt : nat) : outcome PortIdentity :=
  p ← rd_int buf prt 2;
  c ← rd buf clk PTP_CLOCK_IDENTITY_LENGTH;
  Done (mkPortId c (PLAT_htons p)).
(** [getClockIdentityString] and [getPortNumberNO] into a buffer. *)
Definition wr_PortIdentity (buf : list Z) (clk prt : nat) (i : PortIdentity) : outcome (list Z) :=
  buf ← wr buf clk (clock_id i);
  wr buf prt (le_bytes 2 (PLAT_htons (portNumber i))).

(** ** Message types *)
Definition SYNC_MESSAGE : Z := 0.
Definition PATH_DELAY_REQ_MESSAGE : Z := 2.
Definition PATH_DELAY_RESP_MESSAGE : Z := 3.
Definition FOLLOWUP_MESSAGE : Z := 8.
Definition PATH_DELAY_FOLLOWUP_MESSAGE : Z := 10.
Definition ANNOUNCE_MESSAGE : Z := 11.
Definition SIGNALLING_MESSAGE : Z := 12.

(** [enum LegacyMessageType] *)
Definition SYNC : Z := 0.
Definition FOLLOWUP : Z := 2.
Definition MESSAGE_OTHER : Z := 5.

Definition PTP_COMMON_HDR_LENGTH : nat := 34.
Definition PTP_ANNOUNCE_LENGTH : nat := 30.
Definition PTP_SYNC_LENGTH : nat := 10.
Definition PTP_FOLLOWUP_LENGTH : nat := 10.
Definition PTP_PDELAY_REQ_LENGTH : nat := 20.
Definition PTP_PDELAY_RESP_LENGTH : nat := 20.
Definition PTP_SIGNALLING_LENGTH : nat := 10.
Definition PATH_TRACE_TLV_TYPE : Z := 8.

(** ** The fields *)

(** [PTPMessageCommon]; [versionNetwork], which nothing reads, is left out. *)
Record PTPMessageCommon := mkCommon {
  versionPTP : Z;
  messageType : Z;
  sourcePortIdentity : PortIdentity;
  sequenceId : Z;
  control : Z;                      (** an [enum], of four bytes *)
  flags : list Z;                   (** two bytes *)
  messageLength : Z;
  logMeanMessageInterval : Z;       (** [char], signed *)
  correctionField : Z;              (** [long long] *)
  domainNumber : Z;
  msg_timestamp : Timestamp;        (** [_timestamp] *)
  msg_counter_value : Z;            (** [_timestamp_counter_value] *)
  msg_gc : bool                     (** [_gc] *) }.

Record ClockQuality := mkQuality { cq_class : Z; clockAccuracy : Z; offsetScaledLogVariance : Z (** [int16_t] *) }.

Record PTPMessageAnnounce := mkAnnounce {
  currentUtcOffset : Z;
  grandmasterPriority1 : Z;
  grandmasterClockQuality : ClockQuality;
  grandmasterPriority2 : Z;
  grandmasterIdentity : ClockIdentity;
  stepsRemoved : Z;
  timeSource : Z;
  annc_tlv : list ClockIdentity     (** [identityList] of the path trace *) }.

(** [FollowUpTLV], packed; the integers as they lie in memory. *)
Record FollowUpTLV := mkFupTlv {
  fup_tlvType : Z;
  fup_lengthField : Z;
  fup_organizationId : list Z;
  fup_organizationSubType_ms : Z;
  fup_organizationSubType_ls : Z;
  cumulativeScaledRateOffset : Z;   (** [int32_t] *)
  gmTimeBaseIndicator : Z;
  phase_ms : Z;                     (** [scaledLastGmPhaseChange.ms], [int32_t] *)
  phase_ls : Z;                     (** [scaledLastGmPhaseChange.ls], [uint64_t] *)
  scaledLastGmFreqChange : Z        (** [int32_t] *) }.

(** [SignallingTLV], packed. *)
Record SignallingTLV := mkSigTlv {
  sig_tlvType : Z;
  sig_lengthField : Z;
  sig_organizationId : list Z;
  sig_organizationSubType_ms : Z;
  sig_organizationSubType_ls : Z;
  linkDelayInterval : Z;
  timeSyncInterval : Z;
  announceInterval : Z;
  sig_flags : Z;
  sig_reserved : Z }.

(** What the classes derived from [PTPMessageCommon] add. *)
Inductive Body :=
  | Sync (originTimestamp : Timestamp)
  | FollowUp (preciseOriginTimestamp : Timestamp) (tlv : FollowUpTLV)
  | PathDelayReq
  | PathDelayResp (requestingPortIdentity : PortIdentity) (requestReceiptTimestamp : Timestamp)
  | PathDelayRespFollowUp (requestingPortIdentity : PortIdentity) (responseOriginTimestamp : Timestamp)
  | Announce (annc : PTPMessageAnnounce)
  | Signalling (targetPortIdentify : Z) (tlv : SignallingTLV).

(** The constructors of the two TLVs. *)
Definition new_FollowUpTLV : FollowUpTLV :=
  mkFupTlv (PLAT_htons 3) (PLAT_htons 28) [0; 0x80; 0xC2] 0 (PLAT_htons 1) (PLAT_htonl 0) 0 0 0 (PLAT_htonl 0).
Definition new_SignallingTLV : SignallingTLV :=
  mkSigTlv (PLAT_htons 3) (PLAT_htons 12) [0; 0x80; 0xC2] 0 (PLAT_htons 2) 0 0 0 3 (PLAT_htons 0).

Definition setGMTimeBaseIndicator (tbi : Z) (t : FollowUpTLV) : FollowUpTLV :=
  mkFupTlv (fup_tlvType t) (fup_lengthField t) (fup_organizationId t) (fup_organizationSubType_ms t)
    (fup_organizationSubType_ls t) (cumulativeScaledRateOffset t) tbi (phase_ms t) (phase_ls t) (scaledLastGmFreqChange t).
(** The argument is taken to network order and kept as an [int32_t]. *)
Definition setScaledLastGmFreqChange (val : Z) (t : FollowUpTLV) : FollowUpTLV :=
  mkFupTlv (fup_tlvType t) (fup_lengthField t) (fup_organizationId t) (fup_organizationSubType_ms t)
    (fup_organizationSubType_ls t) (cumulativeScaledRateOffset t) (gmTimeBaseIndicator t) (phase_ms t) (phase_ls t)
    (signed 32 (PLAT_htonl (u32 val))).
Definition setScaledLastGmPhaseChange (ms ls : Z) (t : FollowUpTLV) : FollowUpTLV :=
  mkFupTlv (fup_tlvType t) (fup_lengthField t) (fup_organizationId t) (fup_organizationSubType_ms t)
    (fup_organizationSubType_ls t) (cumulativeScaledRateOffset t) (gmTimeBaseIndicator t) ms ls (scaledLastGmFreqChange t).

(** [toByteString] of the two TLVs: their memory. *)
Definition FollowUpTLV_bytes (t : FollowUpTLV) : list Z :=
  le_bytes 2 (fup_tlvType t) ++ le_bytes 2 (fup_lengthField t) ++ fup_organizationId t ++
  [fup_organizationSubType_ms t] ++ le_bytes 2 (fup_organizationSubType_ls t) ++
  le_bytes 4 (u32 (cumulativeScaledRateOffset t)) ++ le_bytes 2 (gmTimeBaseIndicator t) ++
  le_bytes 4 (u32 (phase_ms t)) ++ le_bytes 8 (phase_ls t) ++ le_bytes 4 (u32 (scaledLastGmFreqChange t)).
Definition SignallingTLV_bytes (t : SignallingTLV) : list Z :=
  le_bytes 2 (sig_tlvType t) ++ le_bytes 2 (sig_lengthField t) ++ sig_organizationId t ++
  [sig_organizationSubType_ms t] ++ le_bytes 2 (sig_organizationSubType_ls t) ++
  [linkDelayInterval t; timeSyncInterval t; announceInterval t; sig_flags t] ++ le_bytes 2 (sig_reserved t).
Definition sizeof_FollowUpTLV : nat := 32.
Definition sizeof_SignallingTLV : nat := 16.

(** [PathTraceTLV::length] and [toByteString] *)
Definition PathTraceTLV_length (l : list ClockIdentity) : nat := 4 + 8 * length l.
Definition PathTraceTLV_bytes (l : list ClockIdentity) : list Z :=
  le_bytes 2 (PLAT_htons PATH_TRACE_TLV_TYPE) ++
  le_bytes 2 (PLAT_htons (u16 (u16 (Z.of_nat (length l)) * 8))) ++ concat l.

(** ** Encoding *)

(** The three words of a timestamp, in network order. *)
Definition put_timestamp (buf : list Z) (off : nat) (t : Timestamp) : outcome (list Z) :=
  buf ← wr buf off (le_bytes 2 (PLAT_htons (seconds_ms t)));
  buf ← wr buf (off + 2) (le_bytes 4 (PLAT_htonl (seconds_ls t)));
  wr buf (off + 6) (le_bytes 4 (PLAT_htonl (nanoseconds t))).

(** [control] is copied with the size of an [enum], and the three bytes too many are
    overwritten by what is written next, or are zero in the buffer. *)
Definition buildCommonHeader (m : PTPMessageCommon) (buf : list Z) : outcome (list Z) :=
  let tspec_msg_t := u8 (Z.lor (messageType m) 0x10) in
  buf ← wr buf 0 [tspec_msg_t];
  buf ← wr buf 1 [versionPTP m];
  buf ← wr buf 2 (le_bytes 2 (PLAT_htons (messageLength m)));
  buf ← wr buf 4 [domainNumber m];
  buf ← wr buf 6 (flags m);
  buf ← wr buf 8 (le_bytes 8 (PLAT_htonll (u64 (correctionField m))));
  buf ← wr_PortIdentity buf 20 28 (sourcePortIdentity m);
  buf ← wr buf 30 (le_bytes 2 (PLAT_htons (sequenceId m)));
  buf ← wr buf 32 (le_bytes 4 (control m));
  wr buf 33 [u8 (logMeanMessageInterval m)].

Definition set_messageLength (n : nat) (m : PTPMessageCommon) : PTPMessageCommon :=
  mkCommon (versionPTP m) (messageType m) (sourcePortIdentity m) (sequenceId m) (control m) (flags m) (u16 (Z.of_nat n))
    (logMeanMessageInterval m) (correctionField m) (domainNumber m) (msg_timestamp m) (msg_counter_value m) (msg_gc m).

(** The length each [sendPort] gives its message. *)
Definition frame_length (b : Body) : nat :=
  (PTP_COMMON_HDR_LENGTH + match b with
  | Sync _ => PTP_SYNC_LENGTH
  | FollowUp _ _ => PTP_FOLLOWUP_LENGTH + sizeof_FollowUpTLV
  | PathDelayReq => PTP_PDELAY_REQ_LENGTH
  | PathDelayResp _ _ | PathDelayRespFollowUp _ _ => PTP_PDELAY_RESP_LENGTH
  | Announce a => PTP_ANNOUNCE_LENGTH + PathTraceTLV_length (annc_tlv a)
  | Signalling _ _ => PTP_SIGNALLING_LENGTH + sizeof_SignallingTLV
  end)%nat.

(** [PTPMessageAnnounce::sendPort] up to the sending. *)
Definition put_announce (buf : list Z) (a : PTPMessageAnnounce) : outcome (list Z) :=
  let q := grandmasterClockQuality a in
  buf ← wr buf (34 + 10) (le_bytes 2 (PLAT_htons (currentUtcOffset a)));
  buf ← wr buf (34 + 13) [grandmasterPriority1 a];
  buf ← wr buf (34 + 14) ([cq_class q; clockAccuracy q] ++ le_bytes 2 (PLAT_htons (u16 (offsetScaledLogVariance q))));
  buf ← wr buf (34 + 18) [grandmasterPriority2 a];
  buf ← wr buf (34 + 19) (grandmasterIdentity a);
  buf ← wr buf (34 + 27) (le_bytes 2 (PLAT_htons (stepsRemoved a)));
  buf ← wr buf (34 + 29) [timeSource a];
  wr buf (PTP_COMMON_HDR_LENGTH + PTP_ANNOUNCE_LENGTH) (PathTraceTLV_bytes (annc_tlv a)).

(** [PTPMessageFollowUp::buildMessage]: the time base indicator goes through a [uint16_t]
    after [htonl]. *)
Definition put_followup (buf : list Z) (t : Timestamp) (tlv : FollowUpTLV) : outcome (list Z) :=
  buf ← put_timestamp buf 34 t;
  let tbi_NO := u16 (PLAT_htonl (gmTimeBaseIndicator tlv)) in
  wr buf (PTP_COMMON_HDR_LENGTH + PTP_FOLLOWUP_LENGTH) (FollowUpTLV_bytes (setGMTimeBaseIndicator tbi_NO tlv)).

(** [PTPMessagePathDelayResp::sendPort] and [PTPMessagePathDelayRespFollowUp::sendPort] *)
Definition put_pdelay (buf : list Z) (r : PortIdentity) (t : Timestamp) : outcome (list Z) :=
  buf ← wr_PortIdentity buf (34 + 10) (34 + 18) r;
  put_timestamp buf 34 t.

(** [PTPMessageSignalling::sendPort] *)
Definition put_signalling (buf : list Z) (target : Z) (tlv : SignallingTLV) : outcome (list Z) :=
  buf ← wr buf 34 [u8 target];
  wr buf (PTP_COMMON_HDR_LENGTH + PTP_SIGNALLING_LENGTH) (SignallingTLV_bytes tlv).

Definition put_body (buf : list Z) (b : Body) : outcome (list Z) :=
  match b with
  | Sync t => put_timestamp buf 34 t
  | FollowUp t tlv => put_followup buf t tlv
  | PathDelayReq => Done buf
  | PathDelayResp r t | PathDelayRespFollowUp r t => put_pdelay buf r t
  | Announce a => put_announce buf a
  | Signalling target tlv => put_signalling buf target tlv
  end.

(** The frame of a message: [buf_t] of 256 zero bytes, the header, the body, and the first
    [messageLength] bytes sent. *)
Definition build_frame (m : PTPMessageCommon) (b : Body) : outcome (list Z) :=
  buf ← buildCommonHeader (set_messageLength (frame_length b) m) (replicate 256 0);
  buf ← put_body buf b;
  rd buf 0 (Z.to_nat (u16 (Z.of_nat (frame_length b)))).

(** ** Decoding: [buildPTPMessage] *)

(** What is read before the kind of the message is looked at. *)
Record rx_head := mkHead { h_type : Z; h_transport : Z; h_source : PortIdentity; h_seq : Z }.
Definition read_head (buf : list Z) : outcome rx_head :=
  tspec_msg_t ← rd_int buf 0 1;
  src ← rd_PortIdentity buf 20 28;
  seq ← rd_int buf 30 2;
  Done (mkHead (Z.land tspec_msg_t 0xF) (Z.land (Z.shiftr tspec_msg_t 4) 0x0F) src (PLAT_htons seq)).

(** A timestamp as it lies in the buffer, and one in network order.  The default constructor
    leaves [_version] without a value; nothing reads that of a received timestamp. *)
Definition get_timestamp_raw (buf : list Z) (off : nat) : outcome Timestamp :=
  ms ← rd_int buf off 2;
  ls ← rd_int buf (off + 2) 4;
  ns ← rd_int buf (off + 6) 4;
  Done (newTimestamp ns ls ms).
Definition get_timestamp (buf : list Z) (off : nat) : outcome Timestamp :=
  t ← get_timestamp_raw buf off;
  Done (mkTs (PLAT_htonl (nanoseconds t)) (PLAT_htonl (seconds_ls t)) (PLAT_htons (seconds_ms t)) (ts_version t)).

Definition get_FollowUpTLV (buf : list Z) (off : nat) : outcome FollowUpTLV :=
  l ← rd buf off sizeof_FollowUpTLV;
  let at_ o n := le_val (take n (drop o l)) in
  Done (mkFupTlv (at_ 0 2) (at_ 2 2) (take 3 (drop 4 l)) (at_ 7 1) (at_ 8 2) (signed 32 (at_ 10 4)) (at_ 14 2)
    (signed 32 (at_ 16 4)) (at_ 20 8) (signed 32 (at_ 28 4)))%nat.
Definition get_SignallingTLV (buf : list Z) (off : nat) : outcome SignallingTLV :=
  l ← rd buf off sizeof_SignallingTLV;
  let at_ o n := le_val (take n (drop o l)) in
  Done (mkSigTlv (at_ 0 2) (at_ 2 2) (take 3 (drop 4 l)) (at_ 7 1) (at_ 8 2) (at_ 10 1) (at_ 11 1) (at_ 12 1) (at_ 13 1)
    (at_ 14 2))%nat.

(** The loop of [PathTraceTLV::parseClockIdentity]. *)
Fixpoint get_identities (n : nat) (buf : list Z) (off : nat) : outcome (list ClockIdentity) :=
  match n with
  | O => Done []
  | S n' =>
    add ← rd buf off PTP_CLOCK_IDENTITY_LENGTH;
    l ← get_identities n' buf (off + PTP_CLOCK_IDENTITY_LENGTH);
    Done (add :: l)
  end.
Definition parseClockIdentity (buf : list Z) (off : nat) (size : Z) : outcome (list ClockIdentity) :=
  len ← rd_int buf off 2;
  let len := PLAT_htons len in
  let size := size - 2 in
  let len := if u32 size <? u32 len then size else len in
  get_identities (Z.to_nat (Z.quot len 8)) buf (off + 2).

(** The branch [ANNOUNCE_MESSAGE]; with the message, where [buf] points to afterwards.  No
    size is checked, and the length of the TLV is reckoned too large. *)
Definition get_announce (buf : list Z) (size : Z) : outcome (PTPMessageAnnounce * nat) :=
  let tlv_length := size - 34 + 30 in
  utc ← rd_int buf (34 + 10) 2;
  p1 ← rd_int buf (34 + 13) 1;
  cq ← rd_int buf (34 + 14) 1;
  ca ← rd_int buf (34 + 15) 1;
  var ← rd_int buf (34 + 16) 2;
  p2 ← rd_int buf (34 + 18) 1;
  gid ← rd buf (34 + 19) PTP_CLOCK_IDENTITY_LENGTH;
  steps ← rd_int buf (34 + 27) 2;
  src ← rd_int buf (34 + 29) 1;
  let a := mkAnnounce (PLAT_htons utc) p1 (mkQuality cq ca (signed 16 (PLAT_htons var))) p2 gid (PLAT_htons steps) src in
  let off := (PTP_COMMON_HDR_LENGTH + PTP_ANNOUNCE_LENGTH)%nat in
  if 4 <? tlv_length then
    ty ← rd_int buf off 2;
    if PLAT_htons ty =? PATH_TRACE_TLV_TYPE then
      ids ← parseClockIdentity buf (off + 2) (tlv_length - 2);
      Done (a ids, (off + 2)%nat)
    else Done (a [], off)
  else Done (a [], off).

(** What the [switch] on the message type leads to: a message, [goto abort] because the
    frame is too short, or [goto abort] because of the type. *)
Inductive decoded :=
  | Decoded (b : Body) (off : nat)
  | TooShort
  | Unsupported.

Definition decode_body (ty : Z) (buf : list Z) (size : Z) : outcome decoded :=
  if ty =? SYNC_MESSAGE then
    if size <? 34 + 10 then Done TooShort else
    t ← get_timestamp_raw buf 34; Done (Decoded (Sync t) 0)
  else if ty =? FOLLOWUP_MESSAGE then
    if size <? 34 + 10 + 32 then Done TooShort else
    t ← get_timestamp buf 34;
    tlv ← get_FollowUpTLV buf (34 + PTP_FOLLOWUP_LENGTH);
    Done (Decoded (FollowUp t tlv) 0)
  else if ty =? PATH_DELAY_REQ_MESSAGE then
    if (size <? 34 + 20) && negb (size =? 46) then Done TooShort else Done (Decoded PathDelayReq 0)
  else if ty =? PATH_DELAY_RESP_MESSAGE then
    if size <? 34 + 20 then Done TooShort else
    r ← rd_PortIdentity buf (34 + 10) (34 + 18);
    t ← get_timestamp buf 34; Done (Decoded (PathDelayResp r t) 0)
  else if ty =? PATH_DELAY_FOLLOWUP_MESSAGE then
    r ← rd_PortIdentity buf (34 + 10) (34 + 18);
    t ← get_timestamp buf 34; Done (Decoded (PathDelayRespFollowUp r t) 0)
  else if ty =? ANNOUNCE_MESSAGE then
    '(a, off) ← get_announce buf size; Done (Decoded (Announce a) off)
  else if ty =? SIGNALLING_MESSAGE then
    target ← rd_int buf 34 1;
    tlv ← get_SignallingTLV buf (34 + PTP_SIGNALLING_LENGTH);
    Done (Decoded (Signalling (signed 8 target) tlv) 0)
  else Done Unsupported.

(** The common fields, from where [buf] points to after the [switch]. *)
Definition decode_common (buf : list Z) (off : nat) (h : rx_head) (timestamp : Timestamp) (counter_value : Z) :
    outcome PTPMessageCommon :=
  ver ← rd_int buf (off + 1) 1;
  len ← rd_int buf (off + 2) 2;
  dom ← rd_int buf (off + 4) 1;
  fl ← rd buf (off + 6) 2;
  cor ← rd_int buf (off + 8) 8;
  ctl ← rd_int buf (off + 32) 4;
  itv ← rd_int buf (off + 33) 1;
  Done (mkCommon ver (h_type h) (h_source h) (h_seq h) ctl fl (PLAT_htons len) (signed 8 itv)
    (signed 64 (PLAT_htonll cor)) dom timestamp counter_value false).

(** What [buildPTPMessage] makes of a frame after the timestamp of an event message has been
    fetched: a message, or [goto abort], where [discard] says that the frame is counted. *)
Inductive rx_result :=
  | RxMessage (m : PTPMessageCommon) (b : Body)
  | RxAbort (discard : bool).

Definition decode_rest (h : rx_head) (buf : list Z) (size : Z) (timestamp : Timestamp) (counter_value : Z) : outcome rx_result :=
  if negb (h_transport h =? 1) then Done (RxAbort false) else
  d ← decode_body (h_type h) buf size;
  match d with
  | Decoded b off => m ← decode_common buf off h timestamp counter_value; Done (RxMessage m b)
  | TooShort => Done (RxAbort false)
  | Unsupported => Done (RxAbort true)
  end.

(** The whole function, for a timestamp that is there. *)
Definition decode_message (buf : list Z) (size : Z) (timestamp : Timestamp) (counter_value : Z) : outcome rx_result :=
  h ← read_head buf; decode_rest h buf size timestamp counter_value.
