(* ===== verification/GptpCodec.v ===== *)
(** * GptpCodec: what a receiver makes of a gPTP frame

    Theorems on the encoders and decoders of [GptpMsg]: the frame of a message is read back
    by the receiver, and a frame is decoded without reading outside the receive buffer. *)
From stdpp Require Import base numbers list.
From Stdlib Require Import ZArith Lia.
From S2P Require Import Prelude GptpTime GptpMsg.

#[local] Open Scope Z_scope.

(** ** Byte order *)
Lemma length_le_mem n v : length (le_bytes n v) = n.
Proof. unfold le_bytes. by rewrite length_reverse, length_be_bytes. Qed.

Lemma le_bytes_val l : Forall is_byte l -> le_bytes (length l) (le_val l) = l.
Proof.
  intros. unfold le_bytes, le_val. rewrite <-(length_reverse l), be_bytes_val.
  - by rewrite reverse_involutive.
  - by apply Forall_reverse.
Qed.

Lemma le_val_bytes n v : 0 <= v < 2 ^ (8 * Z.of_nat n) -> le_val (le_bytes n v) = v.
Proof. intros. unfold le_bytes, le_val. by rewrite reverse_involutive, be_val_bytes_small. Qed.

Lemma be_bytes_htons v : le_bytes 2 (PLAT_htons v) = be_bytes 2 v.
Proof. apply (le_bytes_val (be_bytes 2 v)), be_bytes_is_byte. Qed.
Lemma be_bytes_htonl v : le_bytes 4 (PLAT_htonl v) = be_bytes 4 v.
Proof. apply (le_bytes_val (be_bytes 4 v)), be_bytes_is_byte. Qed.

Lemma le_val_be_bytes n v : 0 <= v < 2 ^ (8 * Z.of_nat n) -> le_val (be_bytes n (le_val (be_bytes n v))) = v.
Proof.
  intros. unfold le_val. set (l := be_bytes n v).
  assert (length l = n) as Hl by apply length_be_bytes. rewrite <-Hl at 1.
  rewrite <-(length_reverse l), be_bytes_val by (apply Forall_reverse, be_bytes_is_byte).
  rewrite reverse_involutive. by apply be_val_bytes_small.
Qed.

Lemma htons_htons v : 0 <= v < 2 ^ 16 -> PLAT_htons (PLAT_htons v) = v.
Proof. intros. by apply (le_val_be_bytes 2). Qed.
Lemma htonl_htonl v : 0 <= v < 2 ^ 32 -> PLAT_htonl (PLAT_htonl v) = v.
Proof. intros. by apply (le_val_be_bytes 4). Qed.

Lemma htonl_range v : 0 <= PLAT_htonl v < 2 ^ 32.
Proof.
  unfold PLAT_htonl, le_val. pose proof (be_val_range (reverse (be_bytes 4 v))) as H.
  rewrite length_reverse, length_be_bytes in H. apply H, Forall_reverse, be_bytes_is_byte.
Qed.

(** The 64-bit conversion, made of two 32-bit ones, is the conversion. *)
Lemma htonll_le v : 0 <= v < 2 ^ 64 -> PLAT_htonll v = le_val (be_bytes 8 v).
Proof.
  intros. unfold PLAT_htonll. change 0xFFFFFFFF with (Z.ones 32). rewrite Z.land_ones by lia.
  rewrite lor_shiftl_small by (try apply htonl_range; lia).
  unfold PLAT_htonl, le_val. change (be_bytes 8 v) with (be_bytes (4 + 4) v). rewrite (be_bytes_app 4 4 v), reverse_app, be_val_app, length_reverse, length_be_bytes.
  change (256 ^ Z.of_nat 4) with (2 ^ 32). change (8 * Z.of_nat 4) with 32. do 4 f_equal.
  rewrite (Z.div_mod v (2 ^ 32)) at 2 by lia. rewrite Z.mul_comm. symmetry. by apply (be_bytes_add 4 4).
Qed.

Lemma be_bytes_htonll v : 0 <= v < 2 ^ 64 -> le_bytes 8 (PLAT_htonll v) = be_bytes 8 v.
Proof. intros. rewrite htonll_le by done. apply (le_bytes_val (be_bytes 8 v)), be_bytes_is_byte. Qed.
Lemma htonll_be_bytes v : 0 <= v < 2 ^ 64 -> PLAT_htonll (le_val (be_bytes 8 v)) = v.
Proof.
  intros. rewrite htonll_le; [by apply (le_val_be_bytes 8)|].
  unfold le_val. pose proof (be_val_range (reverse (be_bytes 8 v))) as R.
  rewrite length_reverse, length_be_bytes in R. apply R, Forall_reverse, be_bytes_is_byte.
Qed.

Lemma signed_u w z : 0 < w -> - 2 ^ (w - 1) <= z < 2 ^ (w - 1) -> signed w (z mod 2 ^ w) = z.
Proof.
  intros Hw Hz. unfold signed. assert (2 ^ w = 2 * 2 ^ (w - 1)) as E.
  { rewrite <-Z.pow_succ_r by lia. f_equal. lia. }
  rewrite Zplus_mod_idemp_l, Z.mod_small by lia. lia.
Qed.

Lemma signed_u8 z : - 2 ^ 7 <= z < 2 ^ 7 -> signed 8 (u8 z) = z.
Proof. intros. by apply (signed_u 8). Qed.
Lemma signed_u16 z : - 2 ^ 15 <= z < 2 ^ 15 -> signed 16 (u16 z) = z.
Proof. intros. by apply (signed_u 16). Qed.

(** An address becomes a clock identity with [FF FE] in its middle. *)
Lemma ClockIdentity_of_addr_bytes a0 a1 a2 a3 a4 a5 :
  Forall is_byte [a0; a1; a2; a3; a4; a5] ->
  ClockIdentity_of_addr [a0; a1; a2; a3; a4; a5] = [a0; a1; a2; 255; 254; a3; a4; a5].
Proof.
  intros H. assert (Forall is_byte [a0; a1; a2; 255; 254; a3; a4; a5]) as Hb.
  { rewrite !Forall_cons in *. unfold is_byte in *. intuition lia. }
  rewrite <-(le_bytes_val _ Hb). unfold ClockIdentity_of_addr. cbn [app length]. f_equal.
  rewrite !Forall_cons in H. unfold is_byte in H.
  assert (forall b0 b1 b2 b3 b4 b5 b6 b7, le_val [b0; b1; b2; b3; b4; b5; b6; b7] =
    b0 + 2 ^ 8 * b1 + 2 ^ 16 * b2 + 2 ^ 24 * b3 + 2 ^ 32 * b4 + 2 ^ 40 * b5 + 2 ^ 48 * b6 + 2 ^ 56 * b7) as E.
  { intros. unfold le_val, be_val. cbn [reverse rev_append foldl]. lia. }
  rewrite !E. clear E. set (v := a0 + _).
  assert (0 <= v < 2 ^ 48) by (unfold v; lia).
  change 0xFFFFFF with (Z.ones 24). rewrite Z.land_ones, Z.shiftr_div_pow2 by lia.
  rewrite (u64_small (Z.shiftl _ 16)) by (rewrite Z.shiftl_mul_pow2 by lia; zdiv_lia).
  rewrite lor_shiftl_small by lia.
  rewrite (u64_small (Z.shiftl _ 24)) by (rewrite Z.shiftl_mul_pow2 by lia; zdiv_lia).
  rewrite lor_shiftl_small by zdiv_lia. unfold v. zdiv_lia.
Qed.

(** ** Buffers *)
Definition slice (buf : list Z) (off n : nat) : list Z := take n (drop off buf).
Definition put (buf : list Z) (off : nat) (bs : list Z) : list Z := take off buf ++ bs ++ drop (off + length bs) buf.

Lemma rd_slice buf off n : (off + n <= length buf)%nat -> rd buf off n = Done (slice buf off n).
Proof. intros. unfold rd. by rewrite (proj2 (Nat.leb_le _ _)). Qed.
Lemma wr_put buf off bs : (off + length bs <= length buf)%nat -> wr buf off bs = Done (put buf off bs).
Proof. intros. unfold wr. by rewrite (proj2 (Nat.leb_le _ _)). Qed.

Lemma length_put buf off bs : (off + length bs <= length buf)%nat -> length (put buf off bs) = length buf.
Proof. intros. unfold put. rewrite !length_app, length_take, length_drop. lia. Qed.
Lemma slice_put_same buf off bs : (off + length bs <= length buf)%nat -> slice (put buf off bs) off (length bs) = bs.
Proof.
  intros. unfold slice, put. rewrite drop_app_length' by (rewrite length_take; lia). by rewrite take_app_length.
Qed.
Lemma slice_put_other buf off bs o n :
  (off + length bs <= length buf)%nat -> (o + n <= off \/ off + length bs <= o)%nat ->
  slice (put buf off bs) o n = slice buf o n.
Proof.
  intros Hr [Hlt|Hge]; unfold slice, put.
  - rewrite !take_drop_commute. f_equal. rewrite take_app_le by (rewrite length_take; lia).
    rewrite take_take. f_equal. lia.
  - f_equal. rewrite app_assoc, drop_app_ge by (rewrite length_app, length_take; lia).
    rewrite length_app, length_take, drop_drop. f_equal. lia.
Qed.

Lemma slice_app_l l k o n : (o + n <= length l)%nat -> slice (l ++ k) o n = slice l o n.
Proof. intros. unfold slice. rewrite drop_app_le by lia. apply take_app_le. rewrite length_drop. lia. Qed.
Lemma slice_slice l o n m : (o + n <= m)%nat -> slice (slice l 0 m) o n = slice l o n.
Proof. intros. unfold slice. rewrite drop_0, !take_drop_commute, take_take, Nat.min_l by lia. done. Qed.
Lemma length_slice l o n : (o + n <= length l)%nat -> length (slice l o n) = n.
Proof. intros. unfold slice. rewrite length_take, length_drop. lia. Qed.

(** A sequence of writes. *)
Fixpoint writes (l : list (nat * list Z)) (buf : list Z) : outcome (list Z) :=
  match l with
  | [] => Done buf
  | (o, bs) :: l' => buf ← wr buf o bs; writes l' buf
  end.

Definition inside (n : nat) (f : nat * list Z) : Prop := (f.1 + length f.2 <= n)%nat.
Definition apart (o n : nat) (f : nat * list Z) : Prop := (o + n <= f.1 \/ f.1 + length f.2 <= o)%nat.

(** Fields that are written and not touched again. *)
Fixpoint kept (l : list (nat * list Z)) : list (nat * list Z) -> Prop :=
  match l with
  | [] => fun ks => ks = []
  | (o, bs) :: l' => fun ks => kept l' ks \/ exists ks', ks = (o, bs) :: ks' /\ Forall (apart o (length bs)) l' /\ kept l' ks'
  end.

Definition has (buf : list Z) (f : nat * list Z) : Prop := slice buf f.1 (length f.2) = f.2.

Lemma writes_apart l buf o n :
  Forall (inside (length buf)) l -> Forall (apart o n) l ->
  exists buf', writes l buf = Done buf' /\ length buf' = length buf /\ slice buf' o n = slice buf o n.
Proof.
  revert buf. induction l as [|[o' bs] l IH]; intros buf Hin Hap; [by exists buf|].
  rewrite Forall_cons in Hin, Hap. destruct Hin as [Hin1 Hin], Hap as [Hap1 Hap]. cbn [writes].
  unfold inside, apart in Hin1, Hap1. cbn in Hin1, Hap1.
  rewrite wr_put by done. cbn [mbind outcome_bind].
  destruct (IH (put buf o' bs)) as (buf' & E & L & S); [by rewrite length_put|done|].
  exists buf'. rewrite E, L, S. rewrite length_put, slice_put_other by (done || lia). done.
Qed.

Lemma writes_kept l ks buf :
  Forall (inside (length buf)) l -> kept l ks ->
  exists buf', writes l buf = Done buf' /\ length buf' = length buf /\ Forall (has buf') ks.
Proof.
  revert ks buf. induction l as [|[o bs] l IH]; intros ks buf Hin Hk; [cbn in Hk; subst; by exists buf|].
  pose proof Hin as Hin0. rewrite Forall_cons in Hin. destruct Hin as [Hin1 Hin].
  unfold inside in Hin1. cbn in Hin1. cbn [writes]. rewrite wr_put by done. cbn [mbind outcome_bind].
  assert (Forall (inside (length (put buf o bs))) l) as Hin' by by rewrite length_put.
  destruct Hk as [Hk|(ks' & -> & Hap & Hk)].
  - destruct (IH ks _ Hin' Hk) as (buf' & E & L & H). exists buf'. rewrite E, L, length_put by done. done.
  - destruct (IH ks' _ Hin' Hk) as (buf' & E & L & H). exists buf'. rewrite E, L, length_put by done.
    split_and!; [done..|]. constructor; [|done]. unfold has. cbn [fst snd].
    destruct (writes_apart l (put buf o bs) o (length bs)) as (? & E' & _ & S); [done|done|].
    rewrite E in E'. injection E' as <-. by rewrite S, slice_put_same.
Qed.

(** ** The fields of a frame *)
Record identity_ok (i : PortIdentity) : Prop := {
  ok_clock_id : length (clock_id i) = 8%nat;
  ok_portNumber : 0 <= portNumber i < 2 ^ 16 }.

Record common_ok (m : PTPMessageCommon) : Prop := {
  ok_version : is_byte (versionPTP m);
  ok_type : 0 <= messageType m < 16;
  ok_source : identity_ok (sourcePortIdentity m);
  ok_seq : 0 <= sequenceId m < 2 ^ 16;
  ok_flags : length (flags m) = 2%nat;
  ok_interval : - 2 ^ 7 <= logMeanMessageInterval m < 2 ^ 7;
  ok_correction : - 2 ^ 63 <= correctionField m < 2 ^ 63;
  ok_domain : is_byte (domainNumber m) }.

Definition timestamp_ok (t : Timestamp) : Prop :=
  0 <= nanoseconds t < 2 ^ 32 /\ 0 <= seconds_ls t < 2 ^ 32 /\ 0 <= seconds_ms t < 2 ^ 16.

Record fup_tlv_ok (t : FollowUpTLV) : Prop := {
  ok_fup_type : 0 <= fup_tlvType t < 2 ^ 16;
  ok_fup_len : 0 <= fup_lengthField t < 2 ^ 16;
  ok_fup_org : length (fup_organizationId t) = 3%nat;
  ok_fup_sub_ms : is_byte (fup_organizationSubType_ms t);
  ok_fup_sub_ls : 0 <= fup_organizationSubType_ls t < 2 ^ 16;
  ok_fup_rate : - 2 ^ 31 <= cumulativeScaledRateOffset t < 2 ^ 31;
  ok_fup_tbi : 0 <= gmTimeBaseIndicator t < 2 ^ 16;
  ok_fup_phase_ms : - 2 ^ 31 <= phase_ms t < 2 ^ 31;
  ok_fup_phase_ls : 0 <= phase_ls t < 2 ^ 64;
  ok_fup_freq : - 2 ^ 31 <= scaledLastGmFreqChange t < 2 ^ 31 }.

Record sig_tlv_ok (t : SignallingTLV) : Prop := {
  ok_sig_type : 0 <= sig_tlvType t < 2 ^ 16;
  ok_sig_len : 0 <= sig_lengthField t < 2 ^ 16;
  ok_sig_org : length (sig_organizationId t) = 3%nat;
  ok_sig_sub_ms : is_byte (sig_organizationSubType_ms t);
  ok_sig_sub_ls : 0 <= sig_organizationSubType_ls t < 2 ^ 16;
  ok_sig_link : is_byte (linkDelayInterval t);
  ok_sig_sync : is_byte (timeSyncInterval t);
  ok_sig_annc : is_byte (announceInterval t);
  ok_sig_flags : is_byte (sig_flags t);
  ok_sig_reserved : 0 <= sig_reserved t < 2 ^ 16 }.

Record announce_ok (a : PTPMessageAnnounce) : Prop := {
  ok_utc : 0 <= currentUtcOffset a < 2 ^ 16;
  ok_prio1 : is_byte (grandmasterPriority1 a);
  ok_class : is_byte (cq_class (grandmasterClockQuality a));
  ok_accuracy : is_byte (clockAccuracy (grandmasterClockQuality a));
  ok_variance : - 2 ^ 15 <= offsetScaledLogVariance (grandmasterClockQuality a) < 2 ^ 15;
  ok_prio2 : is_byte (grandmasterPriority2 a);
  ok_gm : length (grandmasterIdentity a) = 8%nat;
  ok_steps : 0 <= stepsRemoved a < 2 ^ 16;
  ok_source_of_time : is_byte (timeSource a);
  ok_path : Forall (fun i => length i = 8%nat) (annc_tlv a) }.

Definition body_ok (b : Body) : Prop :=
  match b with
  | Sync t => timestamp_ok t
  | FollowUp t tlv => timestamp_ok t /\ fup_tlv_ok tlv
  | PathDelayReq => True
  | PathDelayResp r t | PathDelayRespFollowUp r t => identity_ok r /\ timestamp_ok t
  | Announce a => announce_ok a
  | Signalling target tlv => - 2 ^ 7 <= target < 2 ^ 7 /\ sig_tlv_ok tlv
  end.

(** The parts that are kept as byte strings have their lengths. *)
Definition sized_common (m : PTPMessageCommon) : Prop :=
  length (clock_id (sourcePortIdentity m)) = 8%nat /\ length (flags m) = 2%nat.
Definition sized_body (b : Body) : Prop :=
  match b with
  | Sync _ | PathDelayReq => True
  | FollowUp _ tlv => length (fup_organizationId tlv) = 3%nat
  | PathDelayResp r _ | PathDelayRespFollowUp r _ => length (clock_id r) = 8%nat
  | Announce a => length (grandmasterIdentity a) = 8%nat /\ Forall (fun i => length i = 8%nat) (annc_tlv a)
  | Signalling _ tlv => length (sig_organizationId tlv) = 3%nat
  end.

Lemma common_ok_sized m : common_ok m -> sized_common m.
Proof. intros [? ? [? ?] ? ? ? ? ?]. by split. Qed.
Lemma body_ok_sized b : body_ok b -> sized_body b.
Proof. destruct b; cbn; try done; [by intros [? []]|by intros [[] ?]|by intros [[] ?]|by intros []|by intros [? []]]. Qed.

(** The type each class gives its messages. *)
Definition body_type (b : Body) : Z :=
  match b with
  | Sync _ => SYNC_MESSAGE
  | FollowUp _ _ => FOLLOWUP_MESSAGE
  | PathDelayReq => PATH_DELAY_REQ_MESSAGE
  | PathDelayResp _ _ => PATH_DELAY_RESP_MESSAGE
  | PathDelayRespFollowUp _ _ => PATH_DELAY_FOLLOWUP_MESSAGE
  | Announce _ => ANNOUNCE_MESSAGE
  | Signalling _ _ => SIGNALLING_MESSAGE
  end.

Definition header_fields (m : PTPMessageCommon) : list (nat * list Z) :=
  [(0, [u8 (Z.lor (messageType m) 16)]); (1, [versionPTP m]); (2, be_bytes 2 (messageLength m)); (4, [domainNumber m]);
   (6, flags m); (8, be_bytes 8 (u64 (correctionField m))); (20, clock_id (sourcePortIdentity m));
   (28, be_bytes 2 (portNumber (sourcePortIdentity m))); (30, be_bytes 2 (sequenceId m)); (32, le_bytes 4 (control m));
   (33, [u8 (logMeanMessageInterval m)])]%nat.

Definition timestamp_fields (t : Timestamp) : list (nat * list Z) :=
  [(34, be_bytes 2 (seconds_ms t)); (36, be_bytes 4 (seconds_ls t)); (40, be_bytes 4 (nanoseconds t))]%nat.

Definition body_fields (b : Body) : list (nat * list Z) :=
  match b with
  | Sync t => timestamp_fields t
  | FollowUp t tlv =>
    timestamp_fields t ++ [(44%nat, FollowUpTLV_bytes (setGMTimeBaseIndicator (u16 (PLAT_htonl (gmTimeBaseIndicator tlv))) tlv))]
  | PathDelayReq => []
  | PathDelayResp r t | PathDelayRespFollowUp r t =>
    [(44, clock_id r); (52, be_bytes 2 (portNumber r))]%nat ++ timestamp_fields t
  | Announce a =>
    let q := grandmasterClockQuality a in
    [(44, be_bytes 2 (currentUtcOffset a)); (47, [grandmasterPriority1 a]);
     (48, [cq_class q; clockAccuracy q] ++ be_bytes 2 (u16 (offsetScaledLogVariance q))); (52, [grandmasterPriority2 a]);
     (53, grandmasterIdentity a); (61, be_bytes 2 (stepsRemoved a)); (63, [timeSource a]);
     (64, be_bytes 2 PATH_TRACE_TLV_TYPE ++ be_bytes 2 (u16 (u16 (Z.of_nat (length (annc_tlv a))) * 8)) ++ concat (annc_tlv a))]%nat
  | Signalling target tlv => [(34, [u8 target]); (44, SignallingTLV_bytes tlv)]%nat
  end.

Ltac same_writes :=
  repeat match goal with
  | |- context [wr ?a ?b ?c] => destruct (wr a b c); cbn [mbind outcome_bind writes]; [|done]
  end; try done.

Lemma header_writes m buf : buildCommonHeader m buf = writes (header_fields m) buf.
Proof.
  unfold buildCommonHeader, header_fields, wr_PortIdentity. rewrite !be_bytes_htons, be_bytes_htonll by apply u64_range.
  cbn [mbind outcome_bind writes]. same_writes.
Qed.

Lemma body_writes b buf : put_body buf b = writes (body_fields b) buf.
Proof.
  destruct b; cbn [put_body body_fields]; unfold put_followup, put_pdelay, put_announce, put_signalling,
    put_timestamp, timestamp_fields, wr_PortIdentity, PathTraceTLV_bytes; cbv zeta;
    rewrite ?be_bytes_htons, ?be_bytes_htonl; cbn [app mbind outcome_bind writes Nat.add PTP_COMMON_HDR_LENGTH PTP_FOLLOWUP_LENGTH PTP_ANNOUNCE_LENGTH PTP_SIGNALLING_LENGTH];
    same_writes;
    match goal with |- ?x = mbind _ ?y => change x with y; by destruct y end.
Qed.

Lemma writes_app l1 l2 buf : writes (l1 ++ l2) buf = (buf ← writes l1 buf; writes l2 buf).
Proof. revert buf. induction l1 as [|[o bs] l1 IH]; intros buf; [done|]. cbn [app writes mbind outcome_bind]. destruct (wr buf o bs); [apply IH|done]. Qed.

Definition header_kept (m : PTPMessageCommon) : list (nat * list Z) :=
  take 9 (header_fields m) ++ drop 10 (header_fields m).

Lemma length_FollowUpTLV_bytes t : length (fup_organizationId t) = 3%nat -> length (FollowUpTLV_bytes t) = 32%nat.
Proof. intros H. unfold FollowUpTLV_bytes. rewrite !length_app, !length_le_mem, H. done. Qed.
Lemma length_SignallingTLV_bytes t : length (sig_organizationId t) = 3%nat -> length (SignallingTLV_bytes t) = 16%nat.
Proof. intros H. unfold SignallingTLV_bytes. rewrite !length_app, !length_le_mem, H. done. Qed.
Lemma length_concat_ids l : Forall (fun i : ClockIdentity => length i = 8%nat) l -> length (concat l) = (8 * length l)%nat.
Proof. induction 1 as [|i l Hi _ IH]; [done|]. cbn [concat length]. rewrite length_app, Hi, IH. lia. Qed.

(** The lengths of all fields, for the arithmetic on offsets. *)
Ltac field_lengths :=
  cbn [fst snd app length]; rewrite ?length_app, ?length_be_bytes, ?length_le_mem, ?length_FollowUpTLV_bytes,
    ?length_SignallingTLV_bytes by done.
Ltac solve_fields :=
  repeat (apply Forall_cons_2; [unfold inside, apart; field_lengths; cbn [length]; lia|]); apply Forall_nil_2.
Ltac solve_kept :=
  repeat (right; eexists; split; [done|]; split; [solve_fields|]); cbn [kept]; done.

Lemma body_inside b : sized_body b -> Forall (inside (frame_length b)) (body_fields b).
Proof.
  destruct b; cbn [sized_body body_fields]; unfold timestamp_fields; cbn [app]; intros Hok;
    unfold frame_length, PTP_COMMON_HDR_LENGTH, PTP_SYNC_LENGTH, PTP_FOLLOWUP_LENGTH, sizeof_FollowUpTLV, PTP_PDELAY_RESP_LENGTH,
      PTP_ANNOUNCE_LENGTH, PathTraceTLV_length, PTP_SIGNALLING_LENGTH, sizeof_SignallingTLV; try solve_fields.
  destruct Hok as [H Hp]. pose proof (length_concat_ids _ Hp). solve_fields.
Qed.

Lemma body_kept b : sized_body b -> kept (body_fields b) (body_fields b).
Proof.
  destruct b; cbn [sized_body body_fields]; unfold timestamp_fields; cbn [app]; intros Hok.
  6: destruct Hok as [H Hp].
  all: solve_kept.
Qed.

Lemma header_inside m : sized_common m -> Forall (inside 36) (header_fields m).
Proof. intros [Hc Hf]. unfold header_fields. solve_fields. Qed.

Lemma kept_app l1 k1 l2 k2 :
  kept l1 k1 -> kept l2 k2 -> (forall o bs, (o, bs) ∈ k1 -> Forall (apart o (length bs)) l2) -> kept (l1 ++ l2) (k1 ++ k2).
Proof.
  revert k1. induction l1 as [|[o bs] l1 IH]; intros k1 H1 H2 Hap; cbn [kept app] in *; [by subst|].
  destruct H1 as [H1|(k1' & -> & Ha & H1)].
  - left. by apply IH.
  - right. exists (k1' ++ k2). split; [done|]. split.
    + apply Forall_app. split; [done|]. apply Hap. constructor.
    + apply IH; [done|done|]. intros. apply Hap. by constructor.
Qed.

Lemma header_kept_ok m : sized_common m -> kept (header_fields m) (header_kept m).
Proof.
  intros [Hc Hf]. unfold header_kept, header_fields. cbn [take drop app].
  do 9 (right; eexists; split; [done|]; split; [solve_fields|]). left. solve_kept.
Qed.

Lemma body_from_34 b o n : (o + n <= 34)%nat -> Forall (apart o n) (body_fields b).
Proof.
  intros. destruct b; cbn [body_fields]; unfold timestamp_fields; cbn [app];
    repeat (apply Forall_cons_2; [left; cbn [fst]; lia|]); apply Forall_nil_2.
Qed.

Lemma has_inside m f : sized_common m -> f ∈ header_kept m -> (f.1 + length f.2 <= 34)%nat.
Proof.
  intros [Hc Hf]. unfold header_kept, header_fields. cbn [take drop app]. revert f. rewrite <-Forall_forall.
  repeat (apply Forall_cons_2; [field_lengths; cbn [length]; lia|]); apply Forall_nil_2.
Qed.

Lemma set_messageLength_ok n m : common_ok m -> common_ok (set_messageLength n m).
Proof. intros []. by split. Qed.

(** The frame of a message: its length, and what it has where. *)
Lemma build_frame_spec m b :
  sized_common m -> sized_body b -> (frame_length b <= 256)%nat ->
  exists frame, build_frame m b = Done frame /\ length frame = frame_length b /\
    Forall (has frame) (header_kept (set_messageLength (frame_length b) m) ++ body_fields b).
Proof.
  intros Hm Hb Hl. change (sized_common (set_messageLength (frame_length b) m)) in Hm. set (m' := set_messageLength _ m) in *.
  destruct (writes_kept (header_fields m' ++ body_fields b) (header_kept m' ++ body_fields b) (replicate 256 0))
    as (buf & E & L & H).
  { rewrite length_replicate. apply Forall_app. split; (eapply Forall_impl; [by apply header_inside || by apply body_inside|]);
      unfold inside; lia. }
  { apply kept_app; [by apply header_kept_ok|by apply body_kept|]. intros o bs Hin.
    apply body_from_34. by apply (has_inside m' (o, bs)). }
  rewrite length_replicate in L. rewrite writes_app in E. fold m'.
  exists (slice buf 0 (frame_length b)). unfold build_frame. fold m'. rewrite header_writes.
  destruct (writes (header_fields m') (replicate 256 0)) as [buf1|]; [|done]. cbn [mbind outcome_bind] in *.
  rewrite body_writes, E. cbn [mbind outcome_bind]. rewrite u16_small, Nat2Z.id by lia.
  rewrite rd_slice by lia. split_and!; [done|apply length_slice; lia|].
  assert (Forall (fun f => (f.1 + length f.2 <= frame_length b)%nat) (header_kept m' ++ body_fields b)) as Hin.
  { apply Forall_app. split; [|by apply body_inside]. apply Forall_forall. intros f Hf%has_inside; [|done].
    unfold frame_length, PTP_COMMON_HDR_LENGTH. lia. }
  eapply Forall_impl; [exact (proj2 (Forall_and _ _) (conj H Hin))|]. unfold has. intros f [Hf1 Hf2].
  by rewrite slice_slice.
Qed.

(** ** Reading a frame *)

(** What the receiver's buffer has at the start, if the frame has it. *)
Lemma rd_has frame rest f :
  has frame f -> (f.1 + length f.2 <= length frame)%nat -> rd (frame ++ rest) f.1 (length f.2) = Done f.2.
Proof. intros H ?. rewrite rd_slice by (rewrite length_app; lia). rewrite slice_app_l by lia. by rewrite H. Qed.

(** The fields of [m] are at the start of [buf]. *)
Definition reads (buf : list Z) (f : nat * list Z) : Prop := rd buf f.1 (length f.2) = Done f.2.

Lemma rd_int_reads buf o bs n v : reads buf (o, bs) -> length bs = n -> le_val bs = v -> rd_int buf o n = Done v.
Proof. unfold reads, rd_int. cbn [fst snd]. intros H <- <-. by rewrite H. Qed.

Lemma rd_int_in buf o n : (o + n <= length buf)%nat -> rd_int buf o n = Done (le_val (slice buf o n)).
Proof. intros. unfold rd_int. by rewrite rd_slice. Qed.

Lemma le_val_1 b : le_val [b] = b.
Proof. unfold le_val, be_val. cbn. lia. Qed.

Lemma tspec_type ty : 0 <= ty < 16 -> Z.land (u8 (Z.lor ty 16)) 15 = ty /\ Z.land (Z.shiftr (u8 (Z.lor ty 16)) 4) 15 = 1.
Proof.
  intros H. assert (Forall (fun ty => Z.land (u8 (Z.lor ty 16)) 15 = ty /\ Z.land (Z.shiftr (u8 (Z.lor ty 16)) 4) 15 = 1)
    (seqZ 0 16)) as F by (vm_compute; repeat (constructor; try done)).
  rewrite Forall_forall in F. apply F, elem_of_seqZ. lia.
Qed.

Lemma rd_identity buf c p i : identity_ok i ->
  reads buf (c, clock_id i) -> reads buf (p, be_bytes 2 (portNumber i)) -> rd_PortIdentity buf c p = Done i.
Proof.
  intros [Hc Hp] H1 H2. unfold rd_PortIdentity. rewrite (rd_int_reads _ _ _ 2 (PLAT_htons (portNumber i)) H2) by done.
  cbn [mbind outcome_bind]. unfold reads in H1. cbn [fst snd] in H1. rewrite Hc in H1. unfold PTP_CLOCK_IDENTITY_LENGTH.
  rewrite H1. cbn [mbind outcome_bind]. rewrite htons_htons by done. by destruct i.
Qed.

Lemma read_head_frame buf m :
  common_ok m -> Forall (reads buf) (header_kept m) ->
  read_head buf = Done (mkHead (messageType m) 1 (sourcePortIdentity m) (sequenceId m)).
Proof.
  intros [? Hty Hsrc Hseq ? ? ? ?] H. unfold header_kept, header_fields in H. cbn [take drop app] in H. rewrite !Forall_cons in H.
  destruct H as (H0 & _ & _ & _ & _ & _ & Hc & Hp & Hs & _). unfold read_head.
  rewrite (rd_int_reads _ _ _ 1 (u8 (Z.lor (messageType m) 16)) H0) by (done || apply le_val_1). cbn [mbind outcome_bind].
  rewrite (rd_identity _ _ _ _ Hsrc Hc Hp). cbn [mbind outcome_bind].
  rewrite (rd_int_reads _ _ _ 2 (PLAT_htons (sequenceId m)) Hs) by done. cbn [mbind outcome_bind].
  destruct (tspec_type _ Hty) as [-> ->]. by rewrite htons_htons.
Qed.

(** The common fields a receiver gets that reads them from the start of the frame; [control]
    is read with the byte behind it and the first two of the body. *)
Definition same_common (m m' : PTPMessageCommon) : Prop :=
  versionPTP m' = versionPTP m /\ messageLength m' = messageLength m /\ domainNumber m' = domainNumber m /\
  flags m' = flags m /\ correctionField m' = correctionField m /\ logMeanMessageInterval m' = logMeanMessageInterval m.

Lemma decode_common_frame buf m h ts cnt :
  common_ok m -> 0 <= messageLength m < 2 ^ 16 -> (36 <= length buf)%nat -> Forall (reads buf) (header_kept m) ->
  exists m', decode_common buf 0 h ts cnt = Done m' /\ same_common m m' /\
    messageType m' = h_type h /\ sourcePortIdentity m' = h_source h /\ sequenceId m' = h_seq h /\ msg_timestamp m' = ts.
Proof.
  intros [Hv Hty Hsrc Hseq Hfl Hi Hc Hd] Hlen Hbuf H. unfold header_kept, header_fields in H. cbn [take drop app] in H.
  rewrite !Forall_cons in H. destruct H as (_ & H1 & H2 & H4 & H6 & H8 & _ & _ & _ & H33 & _).
  unfold decode_common. cbn [Nat.add].
  rewrite (rd_int_reads _ _ _ 1 (versionPTP m) H1) by (done || apply le_val_1). cbn [mbind outcome_bind].
  rewrite (rd_int_reads _ _ _ 2 (PLAT_htons (messageLength m)) H2) by done. cbn [mbind outcome_bind].
  rewrite (rd_int_reads _ _ _ 1 (domainNumber m) H4) by (done || apply le_val_1). cbn [mbind outcome_bind].
  unfold reads in H6. cbn [fst snd] in H6. rewrite Hfl in H6. rewrite H6. cbn [mbind outcome_bind].
  rewrite (rd_int_reads _ _ _ 8 _ H8 (length_be_bytes _ _) eq_refl). cbn [mbind outcome_bind].
  rewrite (rd_int_in buf 32 4) by lia. cbn [mbind outcome_bind].
  rewrite (rd_int_reads _ _ _ 1 (u8 (logMeanMessageInterval m)) H33) by (done || apply le_val_1). cbn [mbind outcome_bind].
  eexists. split; [done|]. unfold same_common.
  cbn [versionPTP messageType sourcePortIdentity sequenceId flags messageLength logMeanMessageInterval correctionField
    domainNumber msg_timestamp].
  rewrite htons_htons by done. rewrite htonll_be_bytes by apply u64_range.
  split_and!; try done; [apply (signed_u 64); lia|apply (signed_u 8); lia].
Qed.

Lemma decode_common_in buf off h ts cnt :
  (off + 36 <= length buf)%nat ->
  exists m', decode_common buf off h ts cnt = Done m' /\
    messageType m' = h_type h /\ sourcePortIdentity m' = h_source h /\ sequenceId m' = h_seq h /\ msg_timestamp m' = ts.
Proof.
  intros H. unfold decode_common. rewrite !rd_int_in, rd_slice by lia. cbn [mbind outcome_bind].
  eexists. split; [done|]. done.
Qed.

(** What arrives of a timestamp: its numbers, or for a Sync its numbers with the bytes of each
    word reversed. *)
Definition arrived (t : Timestamp) : Timestamp := newTimestamp (nanoseconds t) (seconds_ls t) (seconds_ms t).
Definition swapped (t : Timestamp) : Timestamp :=
  newTimestamp (PLAT_htonl (nanoseconds t)) (PLAT_htonl (seconds_ls t)) (PLAT_htons (seconds_ms t)).

Lemma get_timestamp_raw_frame buf t : Forall (reads buf) (timestamp_fields t) -> get_timestamp_raw buf 34 = Done (swapped t).
Proof.
  unfold timestamp_fields. rewrite !Forall_cons. intros (H1 & H2 & H3 & _). unfold get_timestamp_raw. cbn [Nat.add].
  rewrite (rd_int_reads _ _ _ 2 (PLAT_htons (seconds_ms t)) H1) by done. cbn [mbind outcome_bind].
  rewrite (rd_int_reads _ _ _ 4 (PLAT_htonl (seconds_ls t)) H2) by done. cbn [mbind outcome_bind].
  by rewrite (rd_int_reads _ _ _ 4 (PLAT_htonl (nanoseconds t)) H3).
Qed.

Lemma get_timestamp_frame buf t :
  timestamp_ok t -> Forall (reads buf) (timestamp_fields t) -> get_timestamp buf 34 = Done (arrived t).
Proof.
  intros (Hn & Hl & Hm) H. unfold get_timestamp. rewrite (get_timestamp_raw_frame _ _ H). cbn [mbind outcome_bind].
  unfold swapped, newTimestamp. cbn [nanoseconds seconds_ls seconds_ms ts_version].
  by rewrite !htonl_htonl, htons_htons.
Qed.

(** Taking a field out of a sequence of fields. *)
Ltac take_field :=
  repeat first
    [ rewrite drop_0
    | rewrite take_app_length' by (by rewrite ?length_le_mem)
    | rewrite drop_app_ge by (rewrite ?length_le_mem; cbn [length]; lia); rewrite ?length_le_mem; cbn [length Nat.sub] ].

Lemma get_FollowUpTLV_frame buf t :
  fup_tlv_ok t -> reads buf (44%nat, FollowUpTLV_bytes t) -> get_FollowUpTLV buf 44 = Done t.
Proof.
  intros [? ? Hl ? ? ? ? ? ? ?] H. unfold get_FollowUpTLV, sizeof_FollowUpTLV. unfold reads in H. cbn [fst snd] in H.
  rewrite length_FollowUpTLV_bytes in H by done. rewrite H. cbn [mbind outcome_bind]. f_equal.
  destruct t as [ty len org sms sls rate tbi pms pls freq].
  cbn [fup_tlvType fup_lengthField fup_organizationId fup_organizationSubType_ms fup_organizationSubType_ls
    cumulativeScaledRateOffset gmTimeBaseIndicator phase_ms phase_ls scaledLastGmFreqChange] in *.
  destruct org as [|o1 [|o2 [|o3 [|? ?]]]]; try done.
  unfold FollowUpTLV_bytes. 
  cbn [fup_tlvType fup_lengthField fup_organizationId fup_organizationSubType_ms fup_organizationSubType_ls
    cumulativeScaledRateOffset gmTimeBaseIndicator phase_ms phase_ls scaledLastGmFreqChange].
  f_equal; take_field; rewrite ?take_ge by (by rewrite length_le_mem);
    rewrite le_val_bytes by (try apply u32_range; done); (done || apply (signed_u 32); lia).
Qed.

Lemma get_SignallingTLV_frame buf t :
  sig_tlv_ok t -> reads buf (44%nat, SignallingTLV_bytes t) -> get_SignallingTLV buf 44 = Done t.
Proof.
  intros [? ? Hl ? ? ? ? ? ? ?] H. unfold get_SignallingTLV, sizeof_SignallingTLV. unfold reads in H. cbn [fst snd] in H.
  rewrite length_SignallingTLV_bytes in H by done. rewrite H. cbn [mbind outcome_bind]. f_equal.
  destruct t as [ty len org sms sls ld tsi an fl res].
  cbn [sig_tlvType sig_lengthField sig_organizationId sig_organizationSubType_ms sig_organizationSubType_ls
    linkDelayInterval timeSyncInterval announceInterval sig_flags sig_reserved] in *.
  destruct org as [|o1 [|o2 [|o3 [|? ?]]]]; try done.
  unfold SignallingTLV_bytes.
  cbn [sig_tlvType sig_lengthField sig_organizationId sig_organizationSubType_ms sig_organizationSubType_ls
    linkDelayInterval timeSyncInterval announceInterval sig_flags sig_reserved].
  f_equal; take_field; rewrite ?take_ge by (by rewrite length_le_mem); by rewrite le_val_bytes.
Qed.

Lemma reads_bound buf o bs : reads buf (o, bs) -> (o + length bs <= length buf)%nat /\ slice buf o (length bs) = bs.
Proof.
  unfold reads, rd. cbn [fst snd]. destruct (Nat.leb_spec (o + length bs) (length buf)); [|done]. by intros [= H1].
Qed.

Lemma reads_app buf o a b : reads buf (o, a ++ b) -> reads buf (o, a) /\ reads buf ((o + length a)%nat, b).
Proof.
  intros [Hb Hs]%reads_bound. rewrite length_app in *. unfold reads. cbn [fst snd]. rewrite !rd_slice by lia.
  assert (slice buf o (length a) = take (length a) (slice buf o (length a + length b))) as ->.
  { unfold slice. rewrite take_take, Nat.min_l by lia. done. }
  assert (slice buf (o + length a) (length b) = drop (length a) (slice buf o (length a + length b))) as ->.
  { unfold slice. rewrite skipn_firstn_comm, drop_drop. do 2 f_equal; lia. }
  rewrite Hs. by rewrite take_app_length, drop_app_length.
Qed.

Lemma get_identities_frame buf off (l : list ClockIdentity) :
  Forall (fun i : ClockIdentity => length i = 8%nat) l -> reads buf (off, concat l) -> get_identities (length l) buf off = Done l.
Proof.
  intros H. revert off. induction H as [|i l Hi Hl IH]; intros off Hr; [done|]. cbn [length get_identities concat] in *.
  apply reads_app in Hr as [Hr1 Hr2]. unfold reads in Hr1. cbn [fst snd] in Hr1. rewrite Hi in Hr1, Hr2.
  unfold PTP_CLOCK_IDENTITY_LENGTH. rewrite Hr1. cbn [mbind outcome_bind]. by rewrite (IH _ Hr2).
Qed.

Lemma get_announce_frame buf a size :
  announce_ok a -> (length (annc_tlv a) <= 7)%nat -> size = 68 + 8 * Z.of_nat (length (annc_tlv a)) ->
  Forall (reads buf) (body_fields (Announce a)) -> get_announce buf size = Done (a, 66%nat).
Proof.
  intros [Hu Hp1 Hcl Hac Hva Hp2 Hgm Hst Hso Hpa] Hn Hsize. cbn [body_fields]. rewrite !Forall_cons.
  intros (H1 & H2 & H3 & H4 & H5 & H6 & H7 & H8 & _).
  change ([?x; ?y] ++ ?z) with ([x] ++ [y] ++ z) in H3.
  apply reads_app in H3 as [H31 H3]. apply reads_app in H3 as [H32 H33]. cbn [length Nat.add] in H32, H33.
  apply reads_app in H8 as [H81 H8]. apply reads_app in H8 as [H82 H83]. rewrite length_be_bytes in H82. rewrite !length_be_bytes in H83.
  cbn [Nat.add] in H82, H83. unfold get_announce. cbn [Nat.add]. cbv zeta.
  rewrite (rd_int_reads _ _ _ 2 (PLAT_htons (currentUtcOffset a)) H1) by done. cbn [mbind outcome_bind].
  rewrite (rd_int_reads _ _ _ 1 (grandmasterPriority1 a) H2) by (done || apply le_val_1). cbn [mbind outcome_bind].
  rewrite (rd_int_reads _ _ _ 1 (cq_class (grandmasterClockQuality a)) H31) by (done || apply le_val_1). cbn [mbind outcome_bind].
  rewrite (rd_int_reads _ _ _ 1 (clockAccuracy (grandmasterClockQuality a)) H32) by (done || apply le_val_1). cbn [mbind outcome_bind].
  rewrite (rd_int_reads _ _ _ 2 (PLAT_htons (u16 (offsetScaledLogVariance (grandmasterClockQuality a)))) H33) by done. cbn [mbind outcome_bind].
  rewrite (rd_int_reads _ _ _ 1 (grandmasterPriority2 a) H4) by (done || apply le_val_1). cbn [mbind outcome_bind].
  unfold reads in H5. cbn [fst snd] in H5. rewrite Hgm in H5. unfold PTP_CLOCK_IDENTITY_LENGTH at 1. rewrite H5. cbn [mbind outcome_bind].
  rewrite (rd_int_reads _ _ _ 2 (PLAT_htons (stepsRemoved a)) H6) by done. cbn [mbind outcome_bind].
  rewrite (rd_int_reads _ _ _ 1 (timeSource a) H7) by (done || apply le_val_1). cbn [mbind outcome_bind].
  rewrite !htons_htons by (done || apply u16_range). rewrite signed_u16 by done.
  replace (4 <? size - 34 + 30) with true by lia.
  unfold PTP_COMMON_HDR_LENGTH, PTP_ANNOUNCE_LENGTH. cbn [Nat.add].
  rewrite (rd_int_reads _ _ _ 2 (PLAT_htons PATH_TRACE_TLV_TYPE) H81) by done. cbn [mbind outcome_bind].
  rewrite htons_htons, Z.eqb_refl by done. unfold parseClockIdentity. cbn [Nat.add].
  rewrite (rd_int_reads _ _ _ 2 (PLAT_htons (u16 (u16 (Z.of_nat (length (annc_tlv a))) * 8))) H82) by done. cbn [mbind outcome_bind].
  rewrite !(u16_small (Z.of_nat _)), u16_small, htons_htons by lia.
  rewrite !u32_small by lia. replace (_ <? _) with false by lia.
  rewrite Z.quot_mul, Nat2Z.id by lia. rewrite (get_identities_frame _ _ _ Hpa H83). cbn [mbind outcome_bind]. by destruct a as [? ? []].
Qed.

(** ** The round trip *)

(** What the receiver gets: the body sent, with the versions of timestamps forgotten, the words
    of a Sync's timestamp reversed, and the time base indicator of a Follow_Up lost. *)
Definition received (b : Body) : Body :=
  match b with
  | Sync t => Sync (swapped t)
  | FollowUp t tlv => FollowUp (arrived t) (setGMTimeBaseIndicator 0 tlv)
  | PathDelayReq => PathDelayReq
  | PathDelayResp r t => PathDelayResp r (arrived t)
  | PathDelayRespFollowUp r t => PathDelayRespFollowUp r (arrived t)
  | Announce a => Announce a
  | Signalling target tlv => Signalling target tlv
  end.

Lemma tbi_lost v : 0 <= v < 2 ^ 16 -> u16 (PLAT_htonl v) = 0.
Proof.
  intros. unfold PLAT_htonl, le_val. cbn [be_bytes]. unfold be_val. cbn [reverse rev_append app foldl].
  change (8 * Z.of_nat 3) with 24. change (8 * Z.of_nat 2) with 16. change (8 * Z.of_nat 1) with 8. change (8 * Z.of_nat 0) with 0.
  rewrite !Z.shiftr_div_pow2 by lia. zdiv_lia.
Qed.

Lemma setGMTimeBaseIndicator_ok v t : 0 <= v < 2 ^ 16 -> fup_tlv_ok t -> fup_tlv_ok (setGMTimeBaseIndicator v t).
Proof. intros ? []. by split. Qed.

(** Decide the conditions that have no variables. *)
Ltac closed_ifs :=
  repeat match goal with
  | |- context [if ?c then _ else _] =>
    let v := eval vm_compute in c in
    match v with true => change c with true | false => change c with false end; cbv iota
  end.

Definition decode_off (b : Body) : nat := match b with Announce _ => 66%nat | _ => 0%nat end.

Lemma decode_body_frame buf b :
  body_ok b -> (frame_length b <= 128)%nat -> Forall (reads buf) (body_fields b) ->
  decode_body (body_type b) buf (Z.of_nat (frame_length b)) = Done (Decoded (received b) (decode_off b)).
Proof.
  intros Hok Hl H. unfold decode_body, frame_length, PTP_COMMON_HDR_LENGTH in *.
  destruct b; cbn [body_type body_ok body_fields received decode_off] in *; closed_ifs.
  - by rewrite (get_timestamp_raw_frame _ _ H).
  - destruct Hok as [Ht Htlv]. apply Forall_app in H as [H1 [H2 _]%Forall_cons].
    rewrite (get_timestamp_frame _ _ Ht H1). cbn [mbind outcome_bind].
    rewrite tbi_lost in H2 by apply Htlv. unfold PTP_FOLLOWUP_LENGTH. cbn [Nat.add].
    rewrite (get_FollowUpTLV_frame _ _ (setGMTimeBaseIndicator_ok 0 tlv ltac:(lia) Htlv) H2). done.
  - done.
  - destruct Hok as [Hr Ht]. apply Forall_app in H as [[H1 [H2 _]%Forall_cons]%Forall_cons H]. cbn [Nat.add].
    rewrite (rd_identity _ _ _ _ Hr H1 H2). cbn [mbind outcome_bind]. by rewrite (get_timestamp_frame _ _ Ht H).
  - destruct Hok as [Hr Ht]. apply Forall_app in H as [[H1 [H2 _]%Forall_cons]%Forall_cons H]. cbn [Nat.add].
    rewrite (rd_identity _ _ _ _ Hr H1 H2). cbn [mbind outcome_bind]. by rewrite (get_timestamp_frame _ _ Ht H).
  - unfold PTP_ANNOUNCE_LENGTH, PathTraceTLV_length in *.
    rewrite (get_announce_frame buf annc); [done|done|lia|lia|done].
  - destruct Hok as [Htg Htlv]. apply Forall_cons in H as [H1 [H2 _]%Forall_cons].
    rewrite (rd_int_reads _ _ _ 1 (u8 targetPortIdentify) H1) by (done || apply le_val_1). cbn [mbind outcome_bind].
    unfold PTP_SIGNALLING_LENGTH. cbn [Nat.add]. rewrite (get_SignallingTLV_frame _ _ Htlv H2). cbn [mbind outcome_bind].
    by rewrite signed_u8.
Qed.

(** C22. A gPTP message that is sent is understood: the frame built for it is decoded by the
    receiver of any daemon, whatever lies behind it in the receive buffer of 128 bytes, to a
    message of the same type, source, sequence number and body (see [received] for the three
    exceptions in the body), and for every type but Announce with the same header fields. *)
Theorem gptp_frame_roundtrip m b :
  common_ok m -> body_ok b -> messageType m = body_type b -> (frame_length b <= 128)%nat ->
  exists frame, build_frame m b = Done frame /\ length frame = frame_length b /\
  forall rest ts cnt, (length (frame ++ rest) = 128)%nat ->
  exists m', decode_message (frame ++ rest) (Z.of_nat (length frame)) ts cnt = Done (RxMessage m' (received b)) /\
    messageType m' = messageType m /\ sourcePortIdentity m' = sourcePortIdentity m /\ sequenceId m' = sequenceId m /\
    msg_timestamp m' = ts /\
    ((forall a, b <> Announce a) -> same_common (set_messageLength (frame_length b) m) m').
Proof.
  intros Hm Hb Hty Hl. destruct (build_frame_spec m b (common_ok_sized m Hm) (body_ok_sized b Hb)) as (frame & E & L & F); [lia|].
  exists frame. split; [done|]. split; [done|]. intros rest ts cnt Hrest.
  pose proof (set_messageLength_ok (frame_length b) m Hm) as Hm'. set (m1 := set_messageLength _ m) in *.
  apply Forall_app in F as [F1 F2].
  assert (Forall (reads (frame ++ rest)) (header_kept m1)) as R1.
  { apply Forall_forall. intros f Hf. apply rd_has; [by eapply Forall_forall in F1|].
    pose proof (has_inside m1 f (common_ok_sized m1 Hm') Hf). rewrite L. unfold frame_length, PTP_COMMON_HDR_LENGTH. lia. }
  assert (Forall (reads (frame ++ rest)) (body_fields b)) as R2.
  { apply Forall_forall. intros f Hf. apply rd_has; [by eapply Forall_forall in F2|].
    pose proof (body_inside b (body_ok_sized b Hb)) as Hin. rewrite Forall_forall in Hin. rewrite L. by apply Hin. }
  unfold decode_message. rewrite (read_head_frame _ m1 Hm' R1). cbn [mbind outcome_bind]. unfold decode_rest. cbn [h_transport h_type].
  change (negb (1 =? 1)) with false. cbv iota. change (messageType m1) with (messageType m). rewrite Hty, L.
  rewrite (decode_body_frame _ b Hb Hl R2). cbn [mbind outcome_bind].
  set (h := mkHead _ _ _ _). destruct b; cbn [decode_off].
  6: { destruct (decode_common_in (frame ++ rest) 66 h ts cnt) as (m' & -> & H1 & H2 & H3 & H4); [lia|].
    exists m'. cbn [mbind outcome_bind]. rewrite H1, H2, H3, H4. split_and!; try done. intros H. by destruct (H annc). }
  all: destruct (decode_common_frame (frame ++ rest) m1 h ts cnt Hm') as (m' & E' & H0 & H1 & H2 & H3 & H4);
    [unfold m1; cbn [messageLength set_messageLength]; apply u16_range|lia|done|];
    exists m'; rewrite E'; cbn [mbind outcome_bind]; by rewrite H1, H2, H3, H4.
Qed.

(** ** Any frame *)

Lemma get_identities_fit n buf off :
  if decide (off + 8 * n <= length buf)%nat then exists l, get_identities n buf off = Done l /\ length l = n
  else n <> 0%nat -> get_identities n buf off = Fault OutOfBounds.
Proof.
  revert off. induction n as [|n IH]; intros off; [case_decide; [by exists []|done]|].
  cbn [get_identities]. specialize (IH (off + 8)%nat). unfold PTP_CLOCK_IDENTITY_LENGTH.
  destruct (decide (off + 8 * S n <= length buf)%nat) as [H|H]; [rewrite decide_True in IH by lia|].
  - destruct IH as (l & E & L). rewrite rd_slice by lia. cbn [mbind outcome_bind]. rewrite E. eexists. split; [done|]. cbn. by rewrite L.
  - intros _. unfold rd. destruct (Nat.leb_spec (off + 8) (length buf)); [|done]. cbn [mbind outcome_bind].
    destruct n as [|n]; [lia|]. rewrite decide_False in IH by lia. by rewrite IH.
Qed.

(** The number of clock identities the decoder takes from an Announce of [size] bytes. *)
Definition path_count (buf : list Z) (size : Z) : nat :=
  let len := PLAT_htons (le_val (slice buf 66 2)) in
  Z.to_nat (Z.quot (if u32 (size - 8) <? u32 len then size - 8 else len) 8).

(** The frame is an Announce with a path trace. *)
Definition traced (buf : list Z) (size : Z) : bool :=
  let tspec := le_val (slice buf 0 1) in
  (Z.land tspec 15 =? ANNOUNCE_MESSAGE) && (Z.land (Z.shiftr tspec 4) 15 =? 1) && (8 <? size) &&
  (PLAT_htons (le_val (slice buf 64 2)) =? PATH_TRACE_TLV_TYPE).

Section any_frame.
Context (buf : list Z) (size : Z) (Hlen : length buf = 128%nat).

Lemma get_announce_any :
  if (8 <? size) && (PLAT_htons (le_val (slice buf 64 2)) =? PATH_TRACE_TLV_TYPE) && bool_decide (7 < path_count buf size)%nat
  then get_announce buf size = Fault OutOfBounds
  else exists a off, get_announce buf size = Done (a, off) /\ (off <= 66)%nat.
Proof using Hlen.
  unfold get_announce, PTP_COMMON_HDR_LENGTH, PTP_ANNOUNCE_LENGTH, PTP_CLOCK_IDENTITY_LENGTH. cbn [Nat.add].
  rewrite !rd_int_in, !rd_slice by lia. obind.
  replace (4 <? size - 34 + 30) with (8 <? size) by lia.
  destruct (Z.ltb_spec 8 size); cbn [andb]; [|by eexists _, _; split; [done|lia]].
  destruct (_ =? PATH_TRACE_TLV_TYPE); cbn [andb]; [|by eexists _, _; split; [done|lia]].
  unfold parseClockIdentity. cbn [Nat.add]. rewrite rd_int_in by lia. obind.
  replace (size - 34 + 30 - 2 - 2) with (size - 8) by lia. fold (path_count buf size).
  pose proof (get_identities_fit (path_count buf size) buf 68) as H1. rewrite Hlen in H1.
  case_bool_decide.
  - rewrite decide_False in H1 by lia. rewrite H1 by lia. done.
  - rewrite decide_True in H1 by lia. destruct H1 as (l & -> & _). obind. by eexists _, _; split; [done|lia].
Qed.

Lemma decode_body_any ty :
  if (ty =? ANNOUNCE_MESSAGE) && ((8 <? size) && (PLAT_htons (le_val (slice buf 64 2)) =? PATH_TRACE_TLV_TYPE) && bool_decide (7 < path_count buf size)%nat)
  then decode_body ty buf size = Fault OutOfBounds
  else exists d, decode_body ty buf size = Done d /\ (forall b off, d = Decoded b off -> (off <= 66)%nat).
Proof using Hlen.
  pose proof get_announce_any as HA. unfold decode_body.
  destruct (Z.eqb_spec ty ANNOUNCE_MESSAGE) as [->|Hne].
  - change (ANNOUNCE_MESSAGE =? _) with false. cbv iota. cbn [andb].
    destruct (_ && bool_decide _).
    + by rewrite HA.
    + destruct HA as (a & off & -> & ?). obind. eexists. split; [done|]. by intros ? ? [= <- <-].
  - cbn [andb]. unfold get_timestamp, get_timestamp_raw, rd_PortIdentity, get_FollowUpTLV, get_SignallingTLV,
      PTP_FOLLOWUP_LENGTH, PTP_SIGNALLING_LENGTH, PTP_CLOCK_IDENTITY_LENGTH, sizeof_FollowUpTLV, sizeof_SignallingTLV.
    cbn [Nat.add]. rewrite !rd_int_in, !rd_slice by lia. obind.
    repeat case_match; (eexists; split; [done|]; intros ? ? [=]; lia).
Qed.
End any_frame.

Lemma decode_bounds buf size ts cnt :
  length buf = 128%nat ->
  if traced buf size && bool_decide (7 < path_count buf size)%nat
  then decode_message buf size ts cnt = Fault OutOfBounds
  else exists r, decode_message buf size ts cnt = Done r.
Proof.
  intros Hlen. pose proof (decode_body_any buf size Hlen (Z.land (le_val (slice buf 0 1)) 15)) as HB.
  unfold decode_message, read_head, rd_PortIdentity, PTP_CLOCK_IDENTITY_LENGTH.
  rewrite !rd_int_in, rd_slice by lia. obind. unfold decode_rest. cbn [h_transport h_type]. unfold traced.
  destruct (Z.eqb_spec (Z.land (Z.shiftr (le_val (slice buf 0 1)) 4) 15) 1) as [_|_]; cbn [negb].
  - rewrite andb_true_r, <-!andb_assoc. rewrite <-!andb_assoc in HB. destruct (_ && _).
    + by rewrite HB.
    + destruct HB as (d & -> & Hd). obind. destruct d; [|eauto..].
      destruct (decode_common_in buf off (mkHead (Z.land (le_val (slice buf 0 1)) 15)
        (Z.land (Z.shiftr (le_val (slice buf 0 1)) 4) 15) (mkPortId (slice buf 20 8) (PLAT_htons (le_val (slice buf 28 2))))
        (PLAT_htons (le_val (slice buf 30 2)))) ts cnt) as (m' & -> & _); [specialize (Hd _ _ eq_refl); lia|]. eauto.
  - rewrite andb_false_r. cbn [andb]. eauto.
Qed.

(** C23. Receiving a frame into the buffer of 128 bytes reads nothing outside it, whatever the
    bytes and the length, except for an Announce whose path trace TLV has the decoder take more
    than seven clock identities: that one is read past the end of the buffer. *)
Theorem gptp_decode_bounds buf size ts cnt :
  length buf = 128%nat ->
  if traced buf size && bool_decide (7 < path_count buf size)%nat
  then decode_message buf size ts cnt = Fault OutOfBounds
  else exists r, decode_message buf size ts cnt = Done r.
Proof. apply decode_bounds. Qed.

(** ** Concrete frames *)
Definition some_port : PortIdentity := mkPortId [1; 2; 3; 255; 254; 4; 5; 6] 1.
Definition some_common (ty : Z) : PTPMessageCommon :=
  mkCommon 2 ty some_port 258 MESSAGE_OTHER [2; 8] 0 (-3) (-65536) 0 (newTimestamp 0 0 0) 0 false.
Definition some_announce (path : nat) : PTPMessageAnnounce :=
  mkAnnounce 37 248 (mkQuality 248 0x22 0x436A) 248 [1; 2; 3; 255; 254; 4; 5; 6] 0 160
    (replicate path [1; 2; 3; 255; 254; 4; 5; 6]).

Lemma some_common_ok ty : 0 <= ty < 16 -> common_ok (some_common ty).
Proof. intros. split; cbn; try done; unfold is_byte; lia. Qed.

(** A response to a peer's request arrives with the port it is for and the time of receipt. *)
Lemma gptp_frame_roundtrip_witness :
  exists frame, build_frame (some_common 3) (PathDelayResp some_port (mkTs 5 6 7 1)) = Done frame /\ length frame = 54%nat /\
    exists m', decode_message (frame ++ replicate 74 0) 54 (newTimestamp 1 2 0) 0 =
      Done (RxMessage m' (PathDelayResp some_port (newTimestamp 5 6 7))) /\ sequenceId m' = 258 /\ correctionField m' = -65536.
Proof.
  destruct (gptp_frame_roundtrip (some_common 3) (PathDelayResp some_port (mkTs 5 6 7 1))) as (frame & E & L & H).
  - by apply some_common_ok.
  - split; [split; cbn; [done|lia]|]. unfold timestamp_ok. cbn. lia.
  - reflexivity.
  - vm_compute. lia.
  - exists frame. split; [exact E|]. change (frame_length _) with 54%nat in *. split; [exact L|]. rewrite L in H.
    destruct (H (replicate 74 0) (newTimestamp 1 2 0) 0) as (m' & D & _ & _ & Hs & _ & Hc).
    + rewrite length_app, L. reflexivity.
    + exists m'. split; [exact D|]. split; [exact Hs|].
      destruct Hc as (_ & _ & _ & _ & Hcor & _); [discriminate|exact Hcor].
Defined.

(** What reaches the receiver of the daemon's own Announce, a Sync and a Follow_Up. *)
Example announce_arrives :
  (frame ← build_frame (some_common 11) (Announce (some_announce 1));
   decode_message (frame ++ replicate 52 0) 76 (newTimestamp 0 0 0) 0) =
  Done (RxMessage (mkCommon 8 11 some_port 258 0 [254; 4] 258 0 0x0506000000000000 3 (newTimestamp 0 0 0) 0 false)
    (Announce (some_announce 1))).
Proof. reflexivity. Qed.

Example sync_arrives_swapped :
  (frame ← build_frame (some_common 0) (Sync (newTimestamp 1 2 3));
   decode_message (frame ++ replicate 84 0) 44 (newTimestamp 9 9 0) 7) =
  Done (RxMessage (mkCommon 2 0 some_port 258 0x0300FD05 [2; 8] 44 (-3) (-65536) 0 (newTimestamp 9 9 0) 7 false)
    (Sync (newTimestamp 0x1000000 0x2000000 0x300))).
Proof. reflexivity. Qed.

(** An Announce of 128 bytes whose path trace claims 1000 bytes: 15 identities are taken. *)
Definition long_announce : list Z :=
  [0x1B] ++ replicate 63 0 ++ [0; 8; 0x03; 0xE8] ++ replicate 60 0.
Lemma gptp_decode_bounds_witness :
  decode_message long_announce 128 (newTimestamp 0 0 0) 0 = Fault OutOfBounds /\
  exists r, decode_message (replicate 128 0) 128 (newTimestamp 0 0 0) 0 = Done r.
Proof.
  split.
  - exact (gptp_decode_bounds long_announce 128 (newTimestamp 0 0 0) 0 eq_refl).
  - exact (gptp_decode_bounds (replicate 128 0) 128 (newTimestamp 0 0 0) 0 eq_refl).
Defined.
