(* ===== verification/Gptp.v ===== *)
(** * Gptp: the state of the gPTP daemon

    Model of the data of [daemons/gptp]: the clock ([IEEE1588Clock]), the port
    ([CommonPort] and [EtherPort]), the queue of timers, and what the daemon asks of the
    system.  As in [daemon_cl.cpp] there is one port, an [EtherPort], and it is the only
    entry of the clock's list of ports.  Real numbers are those of IEEE 754: a [double] has
    53 bits, a [long double] ([FrequencyRatio]) 64, a [float] 24.  The handlers of events and
    messages, which the program serialises with locks, each run to their end. *)
From Stdlib Require Import SpecFloat.
From stdpp Require Import base gmap numbers list.
From Stdlib Require Import ZArith Lia.
From S2P Require Import Prelude GptpTime GptpMsg.

#[local] Open Scope Z_scope.

(** ** Enumerations *)
Inductive PortState := PTP_MASTER | PTP_PRE_MASTER | PTP_SLAVE | PTP_UNCALIBRATED | PTP_DISABLED | PTP_FAULTY
  | PTP_INITIALIZING | PTP_LISTENING.
#[global] Instance PortState_eq_dec : EqDecision PortState.
Proof. solve_decision. Defined.

Inductive Event := NULL_EVENT | POWERUP | INITIALIZE | LINKUP | LINKDOWN | STATE_CHANGE_EVENT
  | SYNC_INTERVAL_TIMEOUT_EXPIRES | PDELAY_INTERVAL_TIMEOUT_EXPIRES | SYNC_RECEIPT_TIMEOUT_EXPIRES
  | QUALIFICATION_TIMEOUT_EXPIRES | ANNOUNCE_RECEIPT_TIMEOUT_EXPIRES | ANNOUNCE_INTERVAL_TIMEOUT_EXPIRES
  | FAULT_DETECTED | PDELAY_DEFERRED_PROCESSING | PDELAY_RESP_RECEIPT_TIMEOUT_EXPIRES
  | PDELAY_RESP_PEER_MISBEHAVING_TIMEOUT_EXPIRES | SYNC_RATE_INTERVAL_TIMEOUT_EXPIRED.
#[global] Instance Event_eq_dec : EqDecision Event.
Proof. solve_decision. Defined.

Inductive StationState := STATION_STATE_RESERVED | STATION_STATE_ETHERNET_READY | STATION_STATE_AVB_SYNC
  | STATION_STATE_AVB_MEDIA_READY.
Definition station_code (s : StationState) : Z :=
  match s with STATION_STATE_RESERVED => 0 | STATION_STATE_ETHERNET_READY => 1 | STATION_STATE_AVB_SYNC => 2
  | STATION_STATE_AVB_MEDIA_READY => 3 end.

(** The members of [PortCounters_t] that are counted. *)
Inductive Counter := RxSyncCount | RxFollowUpCount | RxPdelayRequest | RxPdelayResponse | RxPdelayResponseFollowUp
  | RxAnnounce | RxPTPPacketDiscard | RxSyncReceiptTimeouts | AnnounceReceiptTimeouts | TxSyncCount | TxFollowUpCount
  | TxPdelayRequest | TxPdelayResponse | TxPdelayResponseFollowUp | TxAnnounce.
#[global] Instance Counter_eq_dec : EqDecision Counter.
Proof. solve_decision. Defined.

Inductive MulticastType := MCAST_NONE | MCAST_PDELAY | MCAST_TEST_STATUS | MCAST_OTHER.

(** A message with its common fields. *)
Definition Message : Type := PTPMessageCommon * Body.

(** What is fixed when the clock has been made and the port initialised. *)
Record ClockConfig := mkClockConfig {
  clock_identity : ClockIdentity;
  clock_quality : ClockQuality;
  priority1 : Z;
  priority2 : Z;
  domain_number : Z;
  number_ports : nat;
  current_utc_offset : Z;
  time_source : Z;
  syntonize : bool   (** [_syntonize] *);
  has_ipc : bool   (** [ipc != NULL] *) }.

(** The grandmaster the clock follows. *)
Record Grandmaster := mkGrandmaster {
  gm_identity : ClockIdentity   (** [grandmaster_clock_identity] *);
  gm_quality : ClockQuality   (** [grandmaster_clock_quality] *);
  gm_priority1 : Z   (** [grandmaster_priority1] *);
  gm_priority2 : Z   (** [grandmaster_priority2] *) }.

(** The control loop of the clock: the members of [IEEE1588Clock] that begin with an underscore. *)
Record Servo := mkServo {
  new_syntonization_set_point : bool;
  ppm : spec_float   (** [float] *);
  phase_error_violation : Z;
  master_local_freq_offset_init : bool;
  prev_master_time : Timestamp;
  prev_sync_time : Timestamp;
  local_system_freq_offset_init : bool;
  prev_local_time : Timestamp;
  prev_system_time : Timestamp;
  master_local_freq_offset : spec_float   (** [FrequencyRatio] *);
  local_system_freq_offset : spec_float   (** [FrequencyRatio] *) }.
Definition set_new_syntonization_set_point (v : bool) (r : Servo) : Servo :=
  mkServo v (ppm r) (phase_error_violation r) (master_local_freq_offset_init r) (prev_master_time r) (prev_sync_time r) (local_system_freq_offset_init r) (prev_local_time r) (prev_system_time r) (master_local_freq_offset r) (local_system_freq_offset r).
Definition set_ppm (v : spec_float) (r : Servo) : Servo :=
  mkServo (new_syntonization_set_point r) v (phase_error_violation r) (master_local_freq_offset_init r) (prev_master_time r) (prev_sync_time r) (local_system_freq_offset_init r) (prev_local_time r) (prev_system_time r) (master_local_freq_offset r) (local_system_freq_offset r).
Definition set_phase_error_violation (v : Z) (r : Servo) : Servo :=
  mkServo (new_syntonization_set_point r) (ppm r) v (master_local_freq_offset_init r) (prev_master_time r) (prev_sync_time r) (local_system_freq_offset_init r) (prev_local_time r) (prev_system_time r) (master_local_freq_offset r) (local_system_freq_offset r).
Definition set_master_local_freq_offset_init (v : bool) (r : Servo) : Servo :=
  mkServo (new_syntonization_set_point r) (ppm r) (phase_error_violation r) v (prev_master_time r) (prev_sync_time r) (local_system_freq_offset_init r) (prev_local_time r) (prev_system_time r) (master_local_freq_offset r) (local_system_freq_offset r).

(** [IEEE1588Clock] *)
Record IEEE1588Clock := mkClock {
  clock_config : ClockConfig;
  grandmaster : Grandmaster;
  LastEBestIdentity : ClockIdentity;
  servo : Servo;
  fup_info : FollowUpTLV;
  fup_status : FollowUpTLV }.
Definition set_grandmaster (v : Grandmaster) (r : IEEE1588Clock) : IEEE1588Clock :=
  mkClock (clock_config r) v (LastEBestIdentity r) (servo r) (fup_info r) (fup_status r).
Definition set_LastEBestIdentity (v : ClockIdentity) (r : IEEE1588Clock) : IEEE1588Clock :=
  mkClock (clock_config r) (grandmaster r) v (servo r) (fup_info r) (fup_status r).
Definition set_servo (v : Servo) (r : IEEE1588Clock) : IEEE1588Clock :=
  mkClock (clock_config r) (grandmaster r) (LastEBestIdentity r) v (fup_info r) (fup_status r).
Definition set_fup_info (v : FollowUpTLV) (r : IEEE1588Clock) : IEEE1588Clock :=
  mkClock (clock_config r) (grandmaster r) (LastEBestIdentity r) (servo r) v (fup_status r).
Definition set_fup_status (v : FollowUpTLV) (r : IEEE1588Clock) : IEEE1588Clock :=
  mkClock (clock_config r) (grandmaster r) (LastEBestIdentity r) (servo r) (fup_info r) v.

(** What a port is made with, and [isGM], which [EtherPort] declares again and never sets. *)
Record PortConfig := mkPortConfig {
  port_identity : PortIdentity;
  local_addr : list Z;
  automotive_profile : bool;
  testMode : bool;
  isGM : bool;
  neighbor_prop_delay_thresh : Z;
  sync_receipt_thresh : Z;
  initialLogSyncInterval : Z;
  initialLogPdelayReqInterval : Z;
  operLogPdelayReqInterval : Z;
  operLogSyncInterval : Z;
  phy_delay : gmap Z (Z * Z)   (** by link speed: delays of sending and receiving *);
  hw_timestamper : bool   (** [_hw_timestamper != NULL] *) }.

(** What the port knows of its link: the measurement of the delay to its peer. *)
Record Peer := mkPeer {
  one_way_delay : Z   (** [int64_t] *);
  peer_rate_offset : spec_float;
  peer_offset_ts_mine : Timestamp;
  peer_offset_ts_theirs : Timestamp;
  peer_offset_init : bool;
  asCapable : bool;
  pdelay_count : Z;
  duplicate_resp_counter : Z;
  last_invalid_seqid : Z;
  pdelay_sequence_id : Z;
  last_pdelay_req : option Message;
  last_pdelay_resp : option Message;
  last_pdelay_resp_fwup : option Message;
  pdelay_started : bool;
  pdelay_halted : bool }.
Definition set_one_way_delay (v : Z) (r : Peer) : Peer :=
  mkPeer v (peer_rate_offset r) (peer_offset_ts_mine r) (peer_offset_ts_theirs r) (peer_offset_init r) (asCapable r) (pdelay_count r) (duplicate_resp_counter r) (last_invalid_seqid r) (pdelay_sequence_id r) (last_pdelay_req r) (last_pdelay_resp r) (last_pdelay_resp_fwup r) (pdelay_started r) (pdelay_halted r).
Definition set_peer_rate_offset (v : spec_float) (r : Peer) : Peer :=
  mkPeer (one_way_delay r) v (peer_offset_ts_mine r) (peer_offset_ts_theirs r) (peer_offset_init r) (asCapable r) (pdelay_count r) (duplicate_resp_counter r) (last_invalid_seqid r) (pdelay_sequence_id r) (last_pdelay_req r) (last_pdelay_resp r) (last_pdelay_resp_fwup r) (pdelay_started r) (pdelay_halted r).
Definition set_peer_offset_init (v : bool) (r : Peer) : Peer :=
  mkPeer (one_way_delay r) (peer_rate_offset r) (peer_offset_ts_mine r) (peer_offset_ts_theirs r) v (asCapable r) (pdelay_count r) (duplicate_resp_counter r) (last_invalid_seqid r) (pdelay_sequence_id r) (last_pdelay_req r) (last_pdelay_resp r) (last_pdelay_resp_fwup r) (pdelay_started r) (pdelay_halted r).
Definition set_asCapable (v : bool) (r : Peer) : Peer :=
  mkPeer (one_way_delay r) (peer_rate_offset r) (peer_offset_ts_mine r) (peer_offset_ts_theirs r) (peer_offset_init r) v (pdelay_count r) (duplicate_resp_counter r) (last_invalid_seqid r) (pdelay_sequence_id r) (last_pdelay_req r) (last_pdelay_resp r) (last_pdelay_resp_fwup r) (pdelay_started r) (pdelay_halted r).
Definition set_pdelay_count (v : Z) (r : Peer) : Peer :=
  mkPeer (one_way_delay r) (peer_rate_offset r) (peer_offset_ts_mine r) (peer_offset_ts_theirs r) (peer_offset_init r) (asCapable r) v (duplicate_resp_counter r) (last_invalid_seqid r) (pdelay_sequence_id r) (last_pdelay_req r) (last_pdelay_resp r) (last_pdelay_resp_fwup r) (pdelay_started r) (pdelay_halted r).
Definition set_duplicate_resp_counter (v : Z) (r : Peer) : Peer :=
  mkPeer (one_way_delay r) (peer_rate_offset r) (peer_offset_ts_mine r) (peer_offset_ts_theirs r) (peer_offset_init r) (asCapable r) (pdelay_count r) v (last_invalid_seqid r) (pdelay_sequence_id r) (last_pdelay_req r) (last_pdelay_resp r) (last_pdelay_resp_fwup r) (pdelay_started r) (pdelay_halted r).
Definition set_last_invalid_seqid (v : Z) (r : Peer) : Peer :=
  mkPeer (one_way_delay r) (peer_rate_offset r) (peer_offset_ts_mine r) (peer_offset_ts_theirs r) (peer_offset_init r) (asCapable r) (pdelay_count r) (duplicate_resp_counter r) v (pdelay_sequence_id r) (last_pdelay_req r) (last_pdelay_resp r) (last_pdelay_resp_fwup r) (pdelay_started r) (pdelay_halted r).
Definition set_pdelay_sequence_id (v : Z) (r : Peer) : Peer :=
  mkPeer (one_way_delay r) (peer_rate_offset r) (peer_offset_ts_mine r) (peer_offset_ts_theirs r) (peer_offset_init r) (asCapable r) (pdelay_count r) (duplicate_resp_counter r) (last_invalid_seqid r) v (last_pdelay_req r) (last_pdelay_resp r) (last_pdelay_resp_fwup r) (pdelay_started r) (pdelay_halted r).
Definition set_last_pdelay_req (v : option Message) (r : Peer) : Peer :=
  mkPeer (one_way_delay r) (peer_rate_offset r) (peer_offset_ts_mine r) (peer_offset_ts_theirs r) (peer_offset_init r) (asCapable r) (pdelay_count r) (duplicate_resp_counter r) (last_invalid_seqid r) (pdelay_sequence_id r) v (last_pdelay_resp r) (last_pdelay_resp_fwup r) (pdelay_started r) (pdelay_halted r).
Definition set_last_pdelay_resp (v : option Message) (r : Peer) : Peer :=
  mkPeer (one_way_delay r) (peer_rate_offset r) (peer_offset_ts_mine r) (peer_offset_ts_theirs r) (peer_offset_init r) (asCapable r) (pdelay_count r) (duplicate_resp_counter r) (last_invalid_seqid r) (pdelay_sequence_id r) (last_pdelay_req r) v (last_pdelay_resp_fwup r) (pdelay_started r) (pdelay_halted r).
Definition set_last_pdelay_resp_fwup (v : option Message) (r : Peer) : Peer :=
  mkPeer (one_way_delay r) (peer_rate_offset r) (peer_offset_ts_mine r) (peer_offset_ts_theirs r) (peer_offset_init r) (asCapable r) (pdelay_count r) (duplicate_resp_counter r) (last_invalid_seqid r) (pdelay_sequence_id r) (last_pdelay_req r) (last_pdelay_resp r) v (pdelay_started r) (pdelay_halted r).
Definition set_pdelay_started (v : bool) (r : Peer) : Peer :=
  mkPeer (one_way_delay r) (peer_rate_offset r) (peer_offset_ts_mine r) (peer_offset_ts_theirs r) (peer_offset_init r) (asCapable r) (pdelay_count r) (duplicate_resp_counter r) (last_invalid_seqid r) (pdelay_sequence_id r) (last_pdelay_req r) (last_pdelay_resp r) (last_pdelay_resp_fwup r) v (pdelay_halted r).
Definition set_pdelay_halted (v : bool) (r : Peer) : Peer :=
  mkPeer (one_way_delay r) (peer_rate_offset r) (peer_offset_ts_mine r) (peer_offset_ts_theirs r) (peer_offset_init r) (asCapable r) (pdelay_count r) (duplicate_resp_counter r) (last_invalid_seqid r) (pdelay_sequence_id r) (last_pdelay_req r) (last_pdelay_resp r) (last_pdelay_resp_fwup r) (pdelay_started r) v.

(** [CommonPort] and [EtherPort]; the timestamps kept with a message are the peer's ([Peer]). *)
Record EtherPort := mkPort {
  port_config : PortConfig;
  peer : Peer;
  port_state : PortState;
  log_mean_sync_interval : Z   (** [signed char] *);
  log_mean_announce_interval : Z   (** [signed char] *);
  log_min_mean_pdelay_req_interval : Z   (** [signed char] *);
  wrongSeqIDCounter : Z;
  counters : Counter -> Z;
  sync_count : Z;
  qualified_announce : option PTPMessageAnnounce;
  announce_sequence_id : Z;
  signal_sequence_id : Z;
  sync_sequence_id : Z;
  lastGmTimeBaseIndicator : Z;
  link_speed : Z;
  linkUp : bool;
  linkUpCount : Z;
  linkDownCount : Z;
  stationState : StationState;
  avbSyncState : Z;
  identity_map : gmap (list Z * Z) (list Z);
  last_sync : option Message;
  sync_rate_interval_timer_started : bool;
  test_status_seq : Z   (** the static [sequenceId] of [APMessageTestStatus::sendPort] *) }.
Definition set_peer (v : Peer) (r : EtherPort) : EtherPort :=
  mkPort (port_config r) v (port_state r) (log_mean_sync_interval r) (log_mean_announce_interval r) (log_min_mean_pdelay_req_interval r) (wrongSeqIDCounter r) (counters r) (sync_count r) (qualified_announce r) (announce_sequence_id r) (signal_sequence_id r) (sync_sequence_id r) (lastGmTimeBaseIndicator r) (link_speed r) (linkUp r) (linkUpCount r) (linkDownCount r) (stationState r) (avbSyncState r) (identity_map r) (last_sync r) (sync_rate_interval_timer_started r) (test_status_seq r).
Definition set_port_state (v : PortState) (r : EtherPort) : EtherPort :=
  mkPort (port_config r) (peer r) v (log_mean_sync_interval r) (log_mean_announce_interval r) (log_min_mean_pdelay_req_interval r) (wrongSeqIDCounter r) (counters r) (sync_count r) (qualified_announce r) (announce_sequence_id r) (signal_sequence_id r) (sync_sequence_id r) (lastGmTimeBaseIndicator r) (link_speed r) (linkUp r) (linkUpCount r) (linkDownCount r) (stationState r) (avbSyncState r) (identity_map r) (last_sync r) (sync_rate_interval_timer_started r) (test_status_seq r).
Definition set_log_mean_sync_interval (v : Z) (r : EtherPort) : EtherPort :=
  mkPort (port_config r) (peer r) (port_state r) v (log_mean_announce_interval r) (log_min_mean_pdelay_req_interval r) (wrongSeqIDCounter r) (counters r) (sync_count r) (qualified_announce r) (announce_sequence_id r) (signal_sequence_id r) (sync_sequence_id r) (lastGmTimeBaseIndicator r) (link_speed r) (linkUp r) (linkUpCount r) (linkDownCount r) (stationState r) (avbSyncState r) (identity_map r) (last_sync r) (sync_rate_interval_timer_started r) (test_status_seq r).
Definition set_log_mean_announce_interval (v : Z) (r : EtherPort) : EtherPort :=
  mkPort (port_config r) (peer r) (port_state r) (log_mean_sync_interval r) v (log_min_mean_pdelay_req_interval r) (wrongSeqIDCounter r) (counters r) (sync_count r) (qualified_announce r) (announce_sequence_id r) (signal_sequence_id r) (sync_sequence_id r) (lastGmTimeBaseIndicator r) (link_speed r) (linkUp r) (linkUpCount r) (linkDownCount r) (stationState r) (avbSyncState r) (identity_map r) (last_sync r) (sync_rate_interval_timer_started r) (test_status_seq r).
Definition set_log_min_mean_pdelay_req_interval (v : Z) (r : EtherPort) : EtherPort :=
  mkPort (port_config r) (peer r) (port_state r) (log_mean_sync_interval r) (log_mean_announce_interval r) v (wrongSeqIDCounter r) (counters r) (sync_count r) (qualified_announce r) (announce_sequence_id r) (signal_sequence_id r) (sync_sequence_id r) (lastGmTimeBaseIndicator r) (link_speed r) (linkUp r) (linkUpCount r) (linkDownCount r) (stationState r) (avbSyncState r) (identity_map r) (last_sync r) (sync_rate_interval_timer_started r) (test_status_seq r).
Definition set_wrongSeqIDCounter (v : Z) (r : EtherPort) : EtherPort :=
  mkPort (port_config r) (peer r) (port_state r) (log_mean_sync_interval r) (log_mean_announce_interval r) (log_min_mean_pdelay_req_interval r) v (counters r) (sync_count r) (qualified_announce r) (announce_sequence_id r) (signal_sequence_id r) (sync_sequence_id r) (lastGmTimeBaseIndicator r) (link_speed r) (linkUp r) (linkUpCount r) (linkDownCount r) (stationState r) (avbSyncState r) (identity_map r) (last_sync r) (sync_rate_interval_timer_started r) (test_status_seq r).
Definition set_counters (v : Counter -> Z) (r : EtherPort) : EtherPort :=
  mkPort (port_config r) (peer r) (port_state r) (log_mean_sync_interval r) (log_mean_announce_interval r) (log_min_mean_pdelay_req_interval r) (wrongSeqIDCounter r) v (sync_count r) (qualified_announce r) (announce_sequence_id r) (signal_sequence_id r) (sync_sequence_id r) (lastGmTimeBaseIndicator r) (link_speed r) (linkUp r) (linkUpCount r) (linkDownCount r) (stationState r) (avbSyncState r) (identity_map r) (last_sync r) (sync_rate_interval_timer_started r) (test_status_seq r).
Definition set_sync_count (v : Z) (r : EtherPort) : EtherPort :=
  mkPort (port_config r) (peer r) (port_state r) (log_mean_sync_interval r) (log_mean_announce_interval r) (log_min_mean_pdelay_req_interval r) (wrongSeqIDCounter r) (counters r) v (qualified_announce r) (announce_sequence_id r) (signal_sequence_id r) (sync_sequence_id r) (lastGmTimeBaseIndicator r) (link_speed r) (linkUp r) (linkUpCount r) (linkDownCount r) (stationState r) (avbSyncState r) (identity_map r) (last_sync r) (sync_rate_interval_timer_started r) (test_status_seq r).
Definition set_qualified_announce (v : option PTPMessageAnnounce) (r : EtherPort) : EtherPort :=
  mkPort (port_config r) (peer r) (port_state r) (log_mean_sync_interval r) (log_mean_announce_interval r) (log_min_mean_pdelay_req_interval r) (wrongSeqIDCounter r) (counters r) (sync_count r) v (announce_sequence_id r) (signal_sequence_id r) (sync_sequence_id r) (lastGmTimeBaseIndicator r) (link_speed r) (linkUp r) (linkUpCount r) (linkDownCount r) (stationState r) (avbSyncState r) (identity_map r) (last_sync r) (sync_rate_interval_timer_started r) (test_status_seq r).
Definition set_announce_sequence_id (v : Z) (r : EtherPort) : EtherPort :=
  mkPort (port_config r) (peer r) (port_state r) (log_mean_sync_interval r) (log_mean_announce_interval r) (log_min_mean_pdelay_req_interval r) (wrongSeqIDCounter r) (counters r) (sync_count r) (qualified_announce r) v (signal_sequence_id r) (sync_sequence_id r) (lastGmTimeBaseIndicator r) (link_speed r) (linkUp r) (linkUpCount r) (linkDownCount r) (stationState r) (avbSyncState r) (identity_map r) (last_sync r) (sync_rate_interval_timer_started r) (test_status_seq r).
Definition set_signal_sequence_id (v : Z) (r : EtherPort) : EtherPort :=
  mkPort (port_config r) (peer r) (port_state r) (log_mean_sync_interval r) (log_mean_announce_interval r) (log_min_mean_pdelay_req_interval r) (wrongSeqIDCounter r) (counters r) (sync_count r) (qualified_announce r) (announce_sequence_id r) v (sync_sequence_id r) (lastGmTimeBaseIndicator r) (link_speed r) (linkUp r) (linkUpCount r) (linkDownCount r) (stationState r) (avbSyncState r) (identity_map r) (last_sync r) (sync_rate_interval_timer_started r) (test_status_seq r).
Definition set_sync_sequence_id (v : Z) (r : EtherPort) : EtherPort :=
  mkPort (port_config r) (peer r) (port_state r) (log_mean_sync_interval r) (log_mean_announce_interval r) (log_min_mean_pdelay_req_interval r) (wrongSeqIDCounter r) (counters r) (sync_count r) (qualified_announce r) (announce_sequence_id r) (signal_sequence_id r) v (lastGmTimeBaseIndicator r) (link_speed r) (linkUp r) (linkUpCount r) (linkDownCount r) (stationState r) (avbSyncState r) (identity_map r) (last_sync r) (sync_rate_interval_timer_started r) (test_status_seq r).
Definition set_lastGmTimeBaseIndicator (v : Z) (r : EtherPort) : EtherPort :=
  mkPort (port_config r) (peer r) (port_state r) (log_mean_sync_interval r) (log_mean_announce_interval r) (log_min_mean_pdelay_req_interval r) (wrongSeqIDCounter r) (counters r) (sync_count r) (qualified_announce r) (announce_sequence_id r) (signal_sequence_id r) (sync_sequence_id r) v (link_speed r) (linkUp r) (linkUpCount r) (linkDownCount r) (stationState r) (avbSyncState r) (identity_map r) (last_sync r) (sync_rate_interval_timer_started r) (test_status_seq r).
Definition set_link_speed (v : Z) (r : EtherPort) : EtherPort :=
  mkPort (port_config r) (peer r) (port_state r) (log_mean_sync_interval r) (log_mean_announce_interval r) (log_min_mean_pdelay_req_interval r) (wrongSeqIDCounter r) (counters r) (sync_count r) (qualified_announce r) (announce_sequence_id r) (signal_sequence_id r) (sync_sequence_id r) (lastGmTimeBaseIndicator r) v (linkUp r) (linkUpCount r) (linkDownCount r) (stationState r) (avbSyncState r) (identity_map r) (last_sync r) (sync_rate_interval_timer_started r) (test_status_seq r).
Definition set_linkUp (v : bool) (r : EtherPort) : EtherPort :=
  mkPort (port_config r) (peer r) (port_state r) (log_mean_sync_interval r) (log_mean_announce_interval r) (log_min_mean_pdelay_req_interval r) (wrongSeqIDCounter r) (counters r) (sync_count r) (qualified_announce r) (announce_sequence_id r) (signal_sequence_id r) (sync_sequence_id r) (lastGmTimeBaseIndicator r) (link_speed r) v (linkUpCount r) (linkDownCount r) (stationState r) (avbSyncState r) (identity_map r) (last_sync r) (sync_rate_interval_timer_started r) (test_status_seq r).
Definition set_linkUpCount (v : Z) (r : EtherPort) : EtherPort :=
  mkPort (port_config r) (peer r) (port_state r) (log_mean_sync_interval r) (log_mean_announce_interval r) (log_min_mean_pdelay_req_interval r) (wrongSeqIDCounter r) (counters r) (sync_count r) (qualified_announce r) (announce_sequence_id r) (signal_sequence_id r) (sync_sequence_id r) (lastGmTimeBaseIndicator r) (link_speed r) (linkUp r) v (linkDownCount r) (stationState r) (avbSyncState r) (identity_map r) (last_sync r) (sync_rate_interval_timer_started r) (test_status_seq r).
Definition set_linkDownCount (v : Z) (r : EtherPort) : EtherPort :=
  mkPort (port_config r) (peer r) (port_state r) (log_mean_sync_interval r) (log_mean_announce_interval r) (log_min_mean_pdelay_req_interval r) (wrongSeqIDCounter r) (counters r) (sync_count r) (qualified_announce r) (announce_sequence_id r) (signal_sequence_id r) (sync_sequence_id r) (lastGmTimeBaseIndicator r) (link_speed r) (linkUp r) (linkUpCount r) v (stationState r) (avbSyncState r) (identity_map r) (last_sync r) (sync_rate_interval_timer_started r) (test_status_seq r).
Definition set_stationState (v : StationState) (r : EtherPort) : EtherPort :=
  mkPort (port_config r) (peer r) (port_state r) (log_mean_sync_interval r) (log_mean_announce_interval r) (log_min_mean_pdelay_req_interval r) (wrongSeqIDCounter r) (counters r) (sync_count r) (qualified_announce r) (announce_sequence_id r) (signal_sequence_id r) (sync_sequence_id r) (lastGmTimeBaseIndicator r) (link_speed r) (linkUp r) (linkUpCount r) (linkDownCount r) v (avbSyncState r) (identity_map r) (last_sync r) (sync_rate_interval_timer_started r) (test_status_seq r).
Definition set_avbSyncState (v : Z) (r : EtherPort) : EtherPort :=
  mkPort (port_config r) (peer r) (port_state r) (log_mean_sync_interval r) (log_mean_announce_interval r) (log_min_mean_pdelay_req_interval r) (wrongSeqIDCounter r) (counters r) (sync_count r) (qualified_announce r) (announce_sequence_id r) (signal_sequence_id r) (sync_sequence_id r) (lastGmTimeBaseIndicator r) (link_speed r) (linkUp r) (linkUpCount r) (linkDownCount r) (stationState r) v (identity_map r) (last_sync r) (sync_rate_interval_timer_started r) (test_status_seq r).
Definition set_identity_map (v : gmap (list Z * Z) (list Z)) (r : EtherPort) : EtherPort :=
  mkPort (port_config r) (peer r) (port_state r) (log_mean_sync_interval r) (log_mean_announce_interval r) (log_min_mean_pdelay_req_interval r) (wrongSeqIDCounter r) (counters r) (sync_count r) (qualified_announce r) (announce_sequence_id r) (signal_sequence_id r) (sync_sequence_id r) (lastGmTimeBaseIndicator r) (link_speed r) (linkUp r) (linkUpCount r) (linkDownCount r) (stationState r) (avbSyncState r) v (last_sync r) (sync_rate_interval_timer_started r) (test_status_seq r).
Definition set_last_sync (v : option Message) (r : EtherPort) : EtherPort :=
  mkPort (port_config r) (peer r) (port_state r) (log_mean_sync_interval r) (log_mean_announce_interval r) (log_min_mean_pdelay_req_interval r) (wrongSeqIDCounter r) (counters r) (sync_count r) (qualified_announce r) (announce_sequence_id r) (signal_sequence_id r) (sync_sequence_id r) (lastGmTimeBaseIndicator r) (link_speed r) (linkUp r) (linkUpCount r) (linkDownCount r) (stationState r) (avbSyncState r) (identity_map r) v (sync_rate_interval_timer_started r) (test_status_seq r).
Definition set_sync_rate_interval_timer_started (v : bool) (r : EtherPort) : EtherPort :=
  mkPort (port_config r) (peer r) (port_state r) (log_mean_sync_interval r) (log_mean_announce_interval r) (log_min_mean_pdelay_req_interval r) (wrongSeqIDCounter r) (counters r) (sync_count r) (qualified_announce r) (announce_sequence_id r) (signal_sequence_id r) (sync_sequence_id r) (lastGmTimeBaseIndicator r) (link_speed r) (linkUp r) (linkUpCount r) (linkDownCount r) (stationState r) (avbSyncState r) (identity_map r) (last_sync r) v (test_status_seq r).
Definition set_test_status_seq (v : Z) (r : EtherPort) : EtherPort :=
  mkPort (port_config r) (peer r) (port_state r) (log_mean_sync_interval r) (log_mean_announce_interval r) (log_min_mean_pdelay_req_interval r) (wrongSeqIDCounter r) (counters r) (sync_count r) (qualified_announce r) (announce_sequence_id r) (signal_sequence_id r) (sync_sequence_id r) (lastGmTimeBaseIndicator r) (link_speed r) (linkUp r) (linkUpCount r) (linkDownCount r) (stationState r) (avbSyncState r) (identity_map r) (last_sync r) (sync_rate_interval_timer_started r) v.

(** ** What the daemon does outside *)
Inductive Output :=
  | Sent (etherType : Z) (dest : MulticastType) (frame : list Z) (event : bool)
  | ResetTimestamper
  | AdjustPhase (phase : Z)
  | AdjustRate (rate : spec_float)
  | IpcUpdate (master_local_offset local_system_offset : Z) (master_local_freq local_system_freq : spec_float) (local_time : Z)
      (sync_cnt pdelay_cnt : Z) (state : PortState) (capable : bool)
  | IpcGrandmaster (id : ClockIdentity) (domain : Z)
  | IpcInterface (id : ClockIdentity) (prio1 : Z) (quality : ClockQuality) (prio2 domain sync_interval announce_interval port : Z).

(** The daemon. *)
Record GPTP := mkGPTP {
  clk : IEEE1588Clock;
  prt : EtherPort;
  timers : list (Event * Z)   (** pending events, in microseconds *);
  outs : list Output   (** what has been done, oldest first *);
  tick : nat   (** answers of the system used *) }.
Definition set_clk (v : IEEE1588Clock) (r : GPTP) : GPTP :=
  mkGPTP v (prt r) (timers r) (outs r) (tick r).
Definition set_prt (v : EtherPort) (r : GPTP) : GPTP :=
  mkGPTP (clk r) v (timers r) (outs r) (tick r).
Definition set_timers (v : list (Event * Z)) (r : GPTP) : GPTP :=
  mkGPTP (clk r) (prt r) v (outs r) (tick r).
Definition set_outs (v : list Output) (r : GPTP) : GPTP :=
  mkGPTP (clk r) (prt r) (timers r) v (tick r).
Definition set_tick (v : nat) (r : GPTP) : GPTP :=
  mkGPTP (clk r) (prt r) (timers r) (outs r) v.

(** ** What the system answers, in the order it is asked *)
Class GptpEnv := {
  env_rx : nat -> Z * Timestamp * Z;         (** [HWTimestamper_rxtimestamp]: code, timestamp, counter *)
  env_tx : nat -> Z * Timestamp * Z;         (** [HWTimestamper_txtimestamp] *)
  env_time : nat -> Timestamp * Timestamp;   (** [HWTimestamper_gettime]: system and device *)
  env_version : nat -> Z;                    (** [getVersion] of the timestamper *)
  env_sent : nat -> bool;                    (** whether a frame could be sent *)
  env_lock : nat -> bool;                    (** whether [trylock] gets the lock *)
  env_timer : nat -> bool;                   (** whether [timer_create] succeeds *)
  env_thread : nat -> bool;                  (** whether a thread can be started *)
  env_garbage : nat -> Z;                    (** a variable without a value *)
  env_undefined : spec_float -> Z            (** a real converted to an integer type that does not have it *) }.

Definition draw {A} (f : nat -> A) : stM GPTP A := fun g => Done (f (tick g), set_tick (S (tick g)) g).
Definition mod_clk (f : IEEE1588Clock -> IEEE1588Clock) : stM GPTP unit := st_modify (fun g => set_clk (f (clk g)) g).
Definition mod_prt (f : EtherPort -> EtherPort) : stM GPTP unit := st_modify (fun g => set_prt (f (prt g)) g).
Definition mod_servo (f : Servo -> Servo) : stM GPTP unit := mod_clk (fun c => set_servo (f (servo c)) c).
Definition mod_peer (f : Peer -> Peer) : stM GPTP unit := mod_prt (fun p => set_peer (f (peer p)) p).
Definition out (o : Output) : stM GPTP unit := st_modify (fun g => set_outs (outs g ++ [o]) g).

(** [incCounter_ieee8021AsPortStat...] *)
Definition inc_counter (c : Counter) : stM GPTP unit :=
  mod_prt (fun p => set_counters (fun d => if decide (d = c) then i32 (counters p d + 1) else counters p d) p).

(** ** Real numbers *)
Definition dbl : Z -> Z -> spec_float := fun m e => binary_normalize 53 1024 m e false.
Definition dmul : spec_float -> spec_float -> spec_float := SFmul 53 1024.
Definition ld (z : Z) : spec_float := binary_normalize 64 16384 z 0 false.
Definition ldadd : spec_float -> spec_float -> spec_float := SFadd 64 16384.
Definition ldsub : spec_float -> spec_float -> spec_float := SFsub 64 16384.
Definition ldmul : spec_float -> spec_float -> spec_float := SFmul 64 16384.
Definition lddiv : spec_float -> spec_float -> spec_float := SFdiv 64 16384.

(** Conversion to a format with fewer bits, and with more. *)
Definition round_to (prec emax : Z) (x : spec_float) : spec_float :=
  match x with
  | S754_finite s m e => binary_normalize prec emax (if s then Zneg m else Zpos m) e s
  | _ => x
  end.
Definition to_float : spec_float -> spec_float := round_to 24 128.
Definition to_dbl : spec_float -> spec_float := round_to 53 1024.
Definition to_ld : spec_float -> spec_float := round_to 64 16384.

(** Rounding towards zero. *)
Definition truncated (x : spec_float) : option Z :=
  match x with
  | S754_zero _ => Some 0
  | S754_finite s m e =>
    let a := if 0 <=? e then Zpos m * 2 ^ e else Zpos m / 2 ^ (- e) in Some (if s then - a else a)
  | _ => None
  end.

Section Convert.
Context `{GptpEnv}.
Definition to_int (lo hi : Z) (x : spec_float) : Z :=
  match truncated x with
  | Some z => if (lo <=? z) && (z <? hi) then z else env_undefined x
  | None => env_undefined x
  end.
Definition to_u64 : spec_float -> Z := to_int 0 (2 ^ 64).
Definition to_i64 : spec_float -> Z := to_int (- 2 ^ 63) (2 ^ 63).
Definition to_i32 : spec_float -> Z := to_int (- 2 ^ 31) (2 ^ 31).

(** [pow((double)2, n)] and [pow((double)2, n) * 1000000000.0] *)
Definition pow2 (n : Z) : spec_float := dbl 1 n.
Definition pow2_ns (n : Z) : spec_float := dmul (pow2 n) (dbl 1000000000 0).
End Convert.
