(* ===== verification/GptpClock.v ===== *)
(** * GptpClock: the clock of the gPTP daemon

    Model of [daemons/gptp/common/ieee1588clock.cpp] and of the inline functions of
    [avbts_clock.hpp]: the queue of timers, the rate differences, the control loop that
    steers the clock, and the comparison with another grandmaster. *)
From Stdlib Require Import SpecFloat.
From stdpp Require Import base gmap numbers list.
From Stdlib Require Import ZArith Lia.
From S2P Require Import Prelude GptpTime GptpMsg Gptp.

#[local] Open Scope Z_scope.

Definition EVENT_TIMER_GRANULARITY : Z := 5000000.
Definition PHASE_ERROR_THRESHOLD : Z := 1000000000.
Definition PHASE_ERROR_MAX_COUNT : Z := 6.
Definition INTEGRAL : spec_float := dbl 5534023222112865 (-64).      (** [0.0003] *)
Definition PROPORTIONAL : spec_float := dbl 1 0.                     (** [1.0] *)
Definition UPPER_FREQ_LIMIT : spec_float := dbl 250 0.
Definition LOWER_FREQ_LIMIT : spec_float := dbl (-250) 0.
Definition NEGATIVE_TIME_JUMP : spec_float := S754_zero false.

(** ** The data set a grandmaster is judged by *)

(** [memcmp] of two strings of the same length, as its sign. *)
Fixpoint memcmp (a b : list Z) : Z :=
  match a, b with
  | x :: a', y :: b' => if x <? y then -1 else if y <? x then 1 else memcmp a' b'
  | _, _ => 0
  end.

(** The 14 bytes that are compared. *)
Definition priority_vector (p1 : Z) (q : ClockQuality) (p2 : Z) (id : ClockIdentity) : list Z :=
  [p1; cq_class q; clockAccuracy q] ++ le_bytes 2 (PLAT_htons (u16 (offsetScaledLogVariance q))) ++ [p2] ++ id.

Definition announce_vector (a : PTPMessageAnnounce) : list Z :=
  priority_vector (grandmasterPriority1 a) (grandmasterClockQuality a) (grandmasterPriority2 a) (grandmasterIdentity a).
Definition clock_vector (c : ClockConfig) : list Z :=
  priority_vector (priority1 c) (clock_quality c) (priority2 c) (clock_identity c).

(** [PTPMessageAnnounce::isBetterThan] and [IEEE1588Clock::isBetterThan] *)
Definition announce_isBetterThan (this msg : PTPMessageAnnounce) : bool :=
  memcmp (announce_vector this) (announce_vector msg) <? 0.
Definition clock_isBetterThan (this : ClockConfig) (msg : option PTPMessageAnnounce) : bool :=
  match msg with
  | None => true
  | Some m => memcmp (clock_vector this) (announce_vector m) <? 0
  end.

(** [updateFUPInfo] *)
Definition updateFUPInfo (c : IEEE1588Clock) : IEEE1588Clock :=
  let i := setGMTimeBaseIndicator (u16 (gmTimeBaseIndicator (fup_info c) + 1)) (fup_info c) in
  let i := setScaledLastGmFreqChange (scaledLastGmFreqChange (fup_status c)) i in
  set_fup_info (setScaledLastGmPhaseChange (phase_ms (fup_status c)) (phase_ls (fup_status c)) i) c.

Section Clock.
Context `{GptpEnv}.
#[local] Open Scope st_scope.

(** ** Timers *)
Definition addEventTimer (e : Event) (time_ns : Z) : stM GPTP unit :=
  let! ok := draw env_timer in
  when ok do st_modify (fun g => set_timers (timers g ++ [(e, u32 (time_ns / 1000))]) g).
(** [cancelEvent] *)
Definition deleteEventTimer (e : Event) : stM GPTP unit :=
  st_modify (fun g => set_timers (filter (fun t => t.1 <> e) (timers g)) g).

(** ** Rates *)
Definition calcLocalSystemClockRateDifference (local_time system_time : Timestamp) : stM GPTP spec_float :=
  let! g := st_get in
  let s := servo (clk g) in
  let keep := mod_servo (fun s =>
    mkServo (new_syntonization_set_point s) (ppm s) (phase_error_violation s) (master_local_freq_offset_init s)
      (prev_master_time s) (prev_sync_time s) true local_time system_time (master_local_freq_offset s) (local_system_freq_offset s)) in
  if negb (local_system_freq_offset_init s) then keep ;! st_ret (ld 1) else
  let inter_system_time := u64 (TIMESTAMP_TO_NS system_time - TIMESTAMP_TO_NS (prev_system_time s)) in
  let inter_local_time := u64 (TIMESTAMP_TO_NS local_time - TIMESTAMP_TO_NS (prev_local_time s)) in
  let ppt_offset := if inter_system_time =? 0 then ld 1 else lddiv (ld inter_local_time) (ld inter_system_time) in
  keep ;! st_ret ppt_offset.

Definition calcMasterLocalClockRateDifference (master_time sync_time : Timestamp) : stM GPTP spec_float :=
  let! g := st_get in
  let s := servo (clk g) in
  let keep := mod_servo (fun s =>
    mkServo (new_syntonization_set_point s) (ppm s) (phase_error_violation s) true master_time sync_time
      (local_system_freq_offset_init s) (prev_local_time s) (prev_system_time s) (master_local_freq_offset s)
      (local_system_freq_offset s)) in
  if negb (master_local_freq_offset_init s) then keep ;! st_ret (ld 1) else
  let inter_sync_time := u64 (TIMESTAMP_TO_NS sync_time - TIMESTAMP_TO_NS (prev_sync_time s)) in
  let master_time_ns := TIMESTAMP_TO_NS master_time in
  let prev_master_time_ns := TIMESTAMP_TO_NS (prev_master_time s) in
  let inter_master_time := u64 (master_time_ns - prev_master_time_ns) in
  let ppt_offset := if inter_sync_time =? 0 then ld 1 else lddiv (ld inter_master_time) (ld inter_sync_time) in
  if master_time_ns <? prev_master_time_ns then
    mod_servo (set_master_local_freq_offset_init false) ;! st_ret NEGATIVE_TIME_JUMP
  else keep ;! st_ret ppt_offset.

(** [restartPDelayAll]: the loop over the ports stays at the one port. *)
Definition restartPDelayAll : stM GPTP unit :=
  let! g := st_get in
  Nat.iter (number_ports (clock_config (clk g))) (fun m => m ;! mod_peer (set_peer_offset_init false)) (st_ret tt).

(** ** Steering: [setMasterOffset] *)
Definition setMasterOffset (master_local_offset : Z) (local_time : Timestamp) (mlfo : spec_float)
    (local_system_offset : Z) (system_time : Timestamp) (lsfo : spec_float) (sync_cnt pdelay_cnt : Z)
    (state : PortState) (capable : bool) : stM GPTP unit :=
  mod_servo (fun s =>
    mkServo (new_syntonization_set_point s) (ppm s) (phase_error_violation s) (master_local_freq_offset_init s)
      (prev_master_time s) (prev_sync_time s) (local_system_freq_offset_init s) (prev_local_time s) (prev_system_time s) mlfo lsfo) ;!
  let! g := st_get in
  let c := clock_config (clk g) in
  let hw := hw_timestamper (port_config (prt g)) in
  (when has_ipc c do
    (out (IpcUpdate master_local_offset local_system_offset mlfo lsfo (TIMESTAMP_TO_NS local_time) sync_cnt pdelay_cnt state capable) ;!
     out (IpcGrandmaster (gm_identity (grandmaster (clk g))) (domain_number c)) ;!
     out (IpcInterface (clock_identity c) (priority1 c) (clock_quality c) (priority2 c) (domain_number c)
       (log_mean_sync_interval (prt g)) (log_mean_announce_interval (prt g)) (portNumber (port_identity (port_config (prt g))))))) ;!
  if (master_local_offset =? 0) && SFeqb mlfo (ld 1) then st_ret tt else
  if negb (syntonize c) then st_ret tt else
  let s := servo (clk g) in
  let! offset :=
    if new_syntonization_set_point s || (PHASE_ERROR_MAX_COUNT <? phase_error_violation s) then
      mod_servo (fun s => set_phase_error_violation 0 (set_new_syntonization_set_point false s)) ;!
      (when hw do out (AdjustPhase (- master_local_offset))) ;!
      mod_servo (set_master_local_freq_offset_init false) ;!
      restartPDelayAll ;!
      st_ret 0
    else st_ret master_local_offset in
  let phase_error := ld (- offset) in
  (if SFltb (ld PHASE_ERROR_THRESHOLD) (SFabs phase_error) then
     mod_servo (fun s => set_phase_error_violation (i32 (phase_error_violation s + 1)) s)
   else
     let syncPerSec := to_float (SFdiv 53 1024 (dbl 1 0) (pow2 (log_mean_sync_interval (prt g)))) in
     let integral := ldmul (to_ld (dmul INTEGRAL (to_dbl syncPerSec))) phase_error in
     let proportional := ldmul (to_ld PROPORTIONAL) (ldmul (ldsub mlfo (ld 1)) (ld 1000000)) in
     mod_servo (fun s => set_ppm (SFadd 24 128 (ppm s) (to_float (ldadd integral proportional)))
       (set_phase_error_violation 0 s))) ;!
  mod_servo (fun s => if SFltb (to_dbl (ppm s)) LOWER_FREQ_LIMIT then set_ppm (to_float LOWER_FREQ_LIMIT) s else s) ;!
  mod_servo (fun s => if SFltb UPPER_FREQ_LIMIT (to_dbl (ppm s)) then set_ppm (to_float UPPER_FREQ_LIMIT) s else s) ;!
  let! g' := st_get in
  when hw do out (AdjustRate (to_float (to_ld (ppm (servo (clk g')))))).
End Clock.
