(* ===== verification/GptpPort.v ===== *)
(** * GptpPort: the port of the gPTP daemon

    Model of [daemons/gptp/common/common_port.cpp] and [ether_port.cpp] but for the two big
    [switch]es over events, which are in [GptpEvent], and of the sending of messages in
    [ptp_message.cpp] and [ap_message.cpp]. *)
From Stdlib Require Import SpecFloat.
From stdpp Require Import base gmap numbers list.
From Stdlib Require Import ZArith Lia.
From S2P Require Import Prelude GptpTime GptpMsg Gptp GptpClock.

#[local] Open Scope Z_scope.

Definition PTP_ETHERTYPE : Z := 0x88F7.
Definition AVTP_ETHERTYPE : Z := 0x22F0.
Definition SYNC_RECEIPT_TIMEOUT_MULTIPLIER : Z := 3.
Definition ANNOUNCE_RECEIPT_TIMEOUT_MULTIPLIER : Z := 3.
Definition PDELAY_RESP_RECEIPT_TIMEOUT_MULTIPLIER : Z := 3.
Definition LOG2_INTERVAL_INVALID : Z := -127.
Definition INVALID_LINKDELAY : Z := 3600000000000.
Definition DUPLICATE_RESP_THRESH : Z := 3.
Definition sigMsgInterval_Initial : Z := 126.
Definition sigMsgInterval_NoSend : Z := 127.
Definition sigMsgInterval_NoChange : Z := -128.

Definition automotive (g : GPTP) : bool := automotive_profile (port_config (prt g)).
Definition msg_set_timestamp (t : Timestamp) (m : PTPMessageCommon) : PTPMessageCommon :=
  mkCommon (versionPTP m) (messageType m) (sourcePortIdentity m) (sequenceId m) (control m) (flags m) (messageLength m)
    (logMeanMessageInterval m) (correctionField m) (domainNumber m) t (msg_counter_value m) (msg_gc m).
Definition ts_set_version (v : Z) (t : Timestamp) : Timestamp := mkTs (nanoseconds t) (seconds_ls t) (seconds_ms t) v.

(** ** Making a message *)

(** [PTPMessageCommon(port)] followed by [setPortIdentity] with the identity of the port. *)
Definition new_common (g : GPTP) (ty seq ctl assist itv : Z) : PTPMessageCommon :=
  mkCommon 2 ty (port_identity (port_config (prt g))) seq ctl [assist; 8] 0 itv 0 (domain_number (clock_config (clk g)))
    (newTimestamp 0 0 0) 0 false.
(** [flags[PTP_ASSIST_BYTE] |= (0x1 << PTP_ASSIST_BIT)] *)
Definition ASSIST : Z := 2.

(** [getLinkDelay] *)
Definition getLinkDelay (p : Peer) : Z := if 0 <? one_way_delay p then one_way_delay p else 0.

Section Port.
Context `{GptpEnv}.
#[local] Open Scope st_scope.

(** ** Timers *)
Definition startSyncReceiptTimer (waitTime : Z) : stM GPTP unit :=
  deleteEventTimer SYNC_RECEIPT_TIMEOUT_EXPIRES ;! addEventTimer SYNC_RECEIPT_TIMEOUT_EXPIRES waitTime.
Definition stopSyncReceiptTimer : stM GPTP unit := deleteEventTimer SYNC_RECEIPT_TIMEOUT_EXPIRES.
Definition startSyncIntervalTimer (waitTime : Z) : stM GPTP unit :=
  let! got := draw env_lock in
  when got do (deleteEventTimer SYNC_INTERVAL_TIMEOUT_EXPIRES ;! addEventTimer SYNC_INTERVAL_TIMEOUT_EXPIRES waitTime).
Definition startAnnounceIntervalTimer (waitTime : Z) : stM GPTP unit :=
  deleteEventTimer ANNOUNCE_INTERVAL_TIMEOUT_EXPIRES ;! addEventTimer ANNOUNCE_INTERVAL_TIMEOUT_EXPIRES waitTime.
Definition startPDelayIntervalTimer (waitTime : Z) : stM GPTP unit :=
  deleteEventTimer PDELAY_INTERVAL_TIMEOUT_EXPIRES ;! addEventTimer PDELAY_INTERVAL_TIMEOUT_EXPIRES waitTime.
Definition startAnnounce : stM GPTP unit := startAnnounceIntervalTimer 16000000.

(** The periods the timers get: [(unsigned long long)(3 * (pow(2, n) * 1000000000.0))] for a
    receipt, and [3 * (unsigned long long)(pow(2, n) * 1000000000.0)] where the code has that. *)
Definition receipt_ns (n : Z) : Z := to_u64 (dmul (dbl 3 0) (pow2_ns n)).
Definition receipt_ns_cast_first (n : Z) : Z := u64 (ANNOUNCE_RECEIPT_TIMEOUT_MULTIPLIER * to_u64 (pow2_ns n)).
(** [(uint64_t)(3 * pow(2.0, n) * 1000000000.0)] *)
Definition receipt_ns_left (n : Z) : Z := to_u64 (dmul (dmul (dbl 3 0) (pow2 n)) (dbl 1000000000 0)).
(** [(long long)(pow(2, n) * 1000000000.0)], at least the granularity of the timers. *)
Definition granular (t : Z) : Z := if EVENT_TIMER_GRANULARITY <? t then t else EVENT_TIMER_GRANULARITY.
Definition interval_ns (n : Z) : Z := granular (to_i64 (pow2_ns n)).
(** The same in a [long long unsigned int]. *)
Definition interval_ns_unsigned (n : Z) : Z := granular (u64 (to_i64 (pow2_ns n))).

Definition startSyncReceipt : stM GPTP unit :=
  let! g := st_get in startSyncReceiptTimer (receipt_ns (log_mean_sync_interval (prt g))).

(** ** The world *)
Definition getDeviceTime : stM GPTP (Timestamp * Timestamp) :=
  let! g := st_get in
  if hw_timestamper (port_config (prt g)) then draw env_time else st_ret (newTimestamp 0 0 0, newTimestamp 0 0 0).

(** [getTimestampVersion] calls the timestamper whether it is there or not. *)
Definition getTimestampVersion : stM GPTP Z :=
  let! g := st_get in
  if hw_timestamper (port_config (prt g)) then draw env_version else st_lift (Fault NullDeref).

(** [getTxTimestamp] and [getRxTimestamp] of the port. *)
Definition port_timestamp (ask : nat -> Z * Timestamp * Z) : stM GPTP (Z * Timestamp * Z) :=
  let! g := st_get in
  if hw_timestamper (port_config (prt g)) then draw ask else st_ret (0, newTimestamp 0 0 0, 0).

(** Ask again, at most [iter] times, while there is no timestamp. *)
Fixpoint retry_timestamp (iter : nat) (ask : nat -> Z * Timestamp * Z) (r : Z * Timestamp * Z) : stM GPTP (Z * Timestamp * Z) :=
  match iter with
  | O => st_ret r
  | S iter' => if r.1.1 =? 0 then st_ret r else let! r' := port_timestamp ask in retry_timestamp iter' ask r'
  end.
Definition TX_TIMEOUT_ITER : nat := 6.
Definition RX_ITER : nat := 5.

Definition getPhyDelay (tx : bool) (g : GPTP) (speed : Z) : Timestamp :=
  match phy_delay (port_config (prt g)) !! speed with
  | Some (t, r) => newTimestamp (if tx then t else r) 0 0
  | None => newTimestamp 0 0 0
  end.

(** [PTPMessageCommon::getTxTimestamp]: whether there is one, and what [_timestamp] becomes. *)
Definition getTxTimestamp (speed : Z) : stM GPTP (bool * Timestamp) :=
  let! r := port_timestamp env_tx in
  let! (ts_good, tx_timestamp, _) := retry_timestamp TX_TIMEOUT_ITER env_tx r in
  let! g := st_get in
  if ts_good =? 0 then
    st_ret (true, ts_plus tx_timestamp (ts_set_version (ts_version tx_timestamp) (getPhyDelay true g speed)))
  else st_ret (false, INVALID_TIMESTAMP).

(** ** Sending *)

(** [port_send]; [MCAST_NONE] is used by no caller. *)
Definition port_send (etherType : Z) (frame : list Z) (mcast : MulticastType) (event : bool) : stM GPTP bool :=
  let! ok := draw env_sent in
  (when ok do out (Sent etherType mcast frame event)) ;! st_ret ok.
(** The speed is left without a value when the frame could not be sent. *)
Definition sendEventPort (etherType : Z) (frame : list Z) (mcast : MulticastType) : stM GPTP Z :=
  let! ok := port_send etherType frame mcast true in
  let! g := st_get in
  if ok then st_ret (link_speed (prt g)) else draw env_garbage.
Definition sendGeneralPort (etherType : Z) (frame : list Z) (mcast : MulticastType) : stM GPTP unit :=
  let! ok := port_send etherType frame mcast false in st_ret tt.

(** [sendPort] of an event message and of a general message. *)
Definition send_event (m : Message) (mcast : MulticastType) (c : Counter) : stM GPTP (Message * bool) :=
  let! frame := st_lift (build_frame m.1 m.2) in
  let! speed := sendEventPort PTP_ETHERTYPE frame mcast in
  inc_counter c ;!
  let! (ok, t) := getTxTimestamp speed in
  st_ret (msg_set_timestamp t (set_messageLength (frame_length m.2) m.1), m.2, ok).
Definition send_general (m : Message) (mcast : MulticastType) : stM GPTP unit :=
  let! frame := st_lift (build_frame m.1 m.2) in
  sendGeneralPort PTP_ETHERTYPE frame mcast.

(** [APMessageTestStatus::sendPort] *)
Definition send_test_status : stM GPTP unit :=
  let! g := st_get in
  let p := prt g in
  mod_prt (set_test_status_seq (u16 (test_status_seq p + 1))) ;!
  let! (system_time, _) := getDeviceTime in
  let! frame := st_lift (
    buf ← wr (replicate 256 0) 0 [0xfb];
    buf ← wr buf 1 [1];
    buf ← wr buf 2 (be_bytes 2 148);
    buf ← wr buf 4 (local_addr (port_config p));
    buf ← wr buf 20 (le_bytes 2 (PLAT_htons (test_status_seq p)));
    buf ← wr buf 22 (be_bytes 2 (Z.lor (Z.shiftl 1 15) 0x29));
    buf ← wr buf 24 (le_bytes 2 (PLAT_htons 9));
    buf ← wr buf 26 (le_bytes 2 (PLAT_htons 0));
    buf ← wr buf 28 (le_bytes 4 (PLAT_htonl 0x07000023));
    buf ← wr buf 32 (le_bytes 4 (PLAT_htonl (linkUpCount p)));
    buf ← wr buf 36 (le_bytes 4 (PLAT_htonl (linkDownCount p)));
    buf ← wr buf 128 (le_bytes 8 (PLAT_htonll (TIMESTAMP_TO_NS system_time)));
    buf ← wr buf 136 [station_code (stationState p)];
    rd buf 0 160) in
  sendGeneralPort AVTP_ETHERTYPE frame MCAST_TEST_STATUS.
(** [if (getTestMode()) { ... testStatusMsg->sendPort(this) ... }] *)
Definition test_status_if_testing : stM GPTP unit :=
  let! g := st_get in when testMode (port_config (prt g)) do send_test_status.

(** A signalling message with three intervals, made and sent.  Its source is never set: the
    clock identity is zero and the port number has no value. *)
Definition send_signalling (link_delay sync annc : Z) : stM GPTP unit :=
  let! g := st_get in
  let seq := signal_sequence_id (prt g) in
  mod_prt (set_signal_sequence_id (u16 (seq + 1))) ;!
  let t := new_SignallingTLV in
  let tlv := mkSigTlv (sig_tlvType t) (sig_lengthField t) (sig_organizationId t) (sig_organizationSubType_ms t)
    (sig_organizationSubType_ls t) (u8 link_delay) (u8 sync) (u8 annc) (sig_flags t) (sig_reserved t) in
  let m := new_common g SIGNALLING_MESSAGE seq MESSAGE_OTHER 0 0x7F in
  let! number := draw env_garbage in
  send_general (mkCommon (versionPTP m) (messageType m) (mkPortId (replicate 8 0) (u16 number)) (sequenceId m) (control m) (flags m)
    (messageLength m) (logMeanMessageInterval m) (correctionField m) (domainNumber m) (msg_timestamp m) 0 false,
    Signalling (-1) tlv) MCAST_OTHER.

(** ** State changes *)
Definition setAsCapable (ascap : bool) : stM GPTP unit :=
  mod_peer (fun p => set_asCapable ascap (if ascap then p else set_peer_offset_init false p)).

Definition startPDelay : stM GPTP unit :=
  let! g := st_get in
  if pdelay_halted (peer (prt g)) then st_ret tt else
  if automotive g then
    if log_min_mean_pdelay_req_interval (prt g) =? sigMsgInterval_NoSend then st_ret tt
    else mod_peer (set_pdelay_started true) ;! startPDelayIntervalTimer EVENT_TIMER_GRANULARITY
  else mod_peer (set_pdelay_started true) ;! startPDelayIntervalTimer 32000000.

Definition stopPDelay : stM GPTP unit :=
  mod_peer (fun p => set_pdelay_started false (set_pdelay_halted true p)) ;!
  deleteEventTimer PDELAY_INTERVAL_TIMEOUT_EXPIRES.

Definition startSyncRateIntervalTimer : stM GPTP unit :=
  let! g := st_get in
  when automotive g do
    (mod_prt (set_sync_rate_interval_timer_started true) ;!
     addEventTimer SYNC_RATE_INTERVAL_TIMEOUT_EXPIRED (if isGM (port_config (prt g)) then 8000000000 else 4000000000)).

Definition becomeMaster (annc : bool) : stM GPTP unit :=
  mod_prt (set_port_state PTP_MASTER) ;!
  deleteEventTimer ANNOUNCE_RECEIPT_TIMEOUT_EXPIRES ;!
  stopSyncReceiptTimer ;!
  let! g := st_get in
  (when annc && negb (automotive g) do startAnnounce) ;!
  startSyncIntervalTimer 16000000 ;!
  mod_clk updateFUPInfo.

Definition becomeSlave (restart_syntonization : bool) : stM GPTP unit :=
  deleteEventTimer ANNOUNCE_INTERVAL_TIMEOUT_EXPIRES ;!
  deleteEventTimer SYNC_INTERVAL_TIMEOUT_EXPIRES ;!
  mod_prt (set_port_state PTP_SLAVE) ;!
  let! g := st_get in
  (when negb (automotive g) do
     addEventTimer ANNOUNCE_RECEIPT_TIMEOUT_EXPIRES (receipt_ns_cast_first (log_mean_announce_interval (prt g)))) ;!
  (when restart_syntonization do mod_servo (set_new_syntonization_set_point true)) ;!
  mod_clk updateFUPInfo.

Definition recommendState (state : PortState) (changed_external_master : bool) : stM GPTP unit :=
  let! g := st_get in
  let! reset_sync :=
    match state with
    | PTP_MASTER =>
      if decide (port_state (prt g) = PTP_MASTER) then st_ret false
      else mod_prt (set_port_state PTP_MASTER) ;! becomeMaster true ;! st_ret true
    | PTP_SLAVE =>
      if decide (port_state (prt g) = PTP_SLAVE) then
        if changed_external_master then
          mod_servo (set_new_syntonization_set_point true) ;! mod_clk updateFUPInfo ;! st_ret true
        else st_ret false
      else becomeSlave true ;! st_ret true
    | _ => st_ret false
    end in
  when reset_sync do mod_prt (set_sync_count 0).

(** [syncDone]; the two counters of the automotive profile count down to the status message. *)
Definition avb_sync_step : stM GPTP unit :=
  let! g := st_get in
  when 0 <? avbSyncState (prt g) do
    (mod_prt (set_avbSyncState (avbSyncState (prt g) - 1)) ;!
     when avbSyncState (prt g) - 1 =? 0 do
       (mod_prt (set_stationState STATION_STATE_AVB_SYNC) ;! test_status_if_testing)).

Definition syncDone : stM GPTP unit :=
  let! g := st_get in
  (when automotive g && bool_decide (port_state (prt g) = PTP_SLAVE) do avb_sync_step) ;!
  let! g := st_get in
  (when automotive g && negb (sync_rate_interval_timer_started (prt g))
      && negb (log_mean_sync_interval (prt g) =? operLogSyncInterval (port_config (prt g))) do startSyncRateIntervalTimer) ;!
  let! g := st_get in
  when negb (pdelay_started (peer (prt g))) do startPDelay.
End Port.
