(* ===== verification/GptpRx.v ===== *)
(** * GptpRx: what the messages do

    Model of the [processMessage] functions of [daemons/gptp/common/ptp_message.cpp] and of
    the receiving of a frame ([buildPTPMessage], [EtherPort::processMessage]).  The port is
    an [EtherPort]; the branches for other kinds of port are not taken. *)
From Stdlib Require Import SpecFloat.
From stdpp Require Import base gmap numbers list.
From Stdlib Require Import ZArith Lia.
From S2P Require Import Prelude GptpTime GptpMsg Gptp GptpClock GptpPort.

#[local] Open Scope Z_scope.

(** The states in which messages are ignored ([recoverPort] does nothing). *)
Definition ignoring (g : GPTP) : bool :=
  bool_decide (port_state (prt g) = PTP_DISABLED) || bool_decide (port_state (prt g) = PTP_FAULTY).

(** A difference of two timestamps in nanoseconds, the words of the seconds apart. *)
Definition ts_difference (a b : Timestamp) : Z :=
  Z.shiftl (seconds_ms a - seconds_ms b) 32 * 1000000000 + (seconds_ls a - seconds_ls b) * 1000000000
  + (nanoseconds a - nanoseconds b).

(** [.998] and [1.002], and [PPM_OFFSET_TO_RATIO] of the two limits. *)
Definition ratio_998 : spec_float := to_ld (dbl 8989184856231510 (-53)).
Definition ratio_1002 : spec_float := to_ld (dbl 4512606826625237 (-52)).
Definition ppm_to_ratio (p : Z) : spec_float := ldadd (lddiv (ld p) (ld 1000000)) (ld 1).

Section Rx.
Context `{GptpEnv}.
#[local] Open Scope st_scope.

(** ** Announce *)
Definition process_announce (m : PTPMessageCommon) (a : PTPMessageAnnounce) : stM GPTP unit :=
  inc_counter RxAnnounce ;!
  deleteEventTimer ANNOUNCE_RECEIPT_TIMEOUT_EXPIRES ;!
  let! g := st_get in
  let mine := clock_identity (clock_config (clk g)) in
  (when negb (255 <=? stepsRemoved a) && negb (bool_decide (clock_id (sourcePortIdentity m) = mine))
      && negb (bool_decide (mine ∈ annc_tlv a)) do
     (mod_prt (set_qualified_announce (Some a)) ;! addEventTimer STATE_CHANGE_EVENT 16000000)) ;!
  addEventTimer ANNOUNCE_RECEIPT_TIMEOUT_EXPIRES (receipt_ns (log_mean_announce_interval (prt g))).

(** ** Sync and Follow_Up *)
Definition process_sync (m : Message) : stM GPTP unit :=
  let! g := st_get in
  if ignoring g then st_ret tt else
  inc_counter RxSyncCount ;!
  mod_prt (set_last_sync (Some m)).

(** [incWrongSeqIDCounter] *)
Definition incWrongSeqIDCounter : stM GPTP bool :=
  let! g := st_get in
  (when asCapable (peer (prt g)) do mod_prt (set_wrongSeqIDCounter (u32 (wrongSeqIDCounter (prt g) + 1)))) ;!
  let! g := st_get in
  st_ret (wrongSeqIDCounter (prt g) <? sync_receipt_thresh (port_config (prt g))).

(** The time of the Follow_Up brought forward by the delay and the correction. *)
Definition corrected_origin (delay : Z) (correctionField : Z) (rate_offset : Z) (peer_rate : spec_float) (t : Timestamp) : Timestamp :=
  let r := lddiv (ldadd (lddiv (ld rate_offset) (ld (2 ^ 41))) (ld 1)) peer_rate in
  let correction := to_i64 (ldadd (ldmul (ld delay) r) (ld (Z.quot correctionField 65536))) in
  if 0 <? correction then TIMESTAMP_ADD_NS t correction else TIMESTAMP_SUB_NS t (u64 (- correction)).

(** The part of [processMessage(port, sync_arrival)] for a slave. *)
Definition slave_followup (scalar_offset : Z) (sync_arrival system_time device_time : Timestamp) (adj : spec_float) : stM GPTP unit :=
  let device_sync_time_offset := u32 (u64 (TIMESTAMP_TO_NS device_time - TIMESTAMP_TO_NS sync_arrival)) in
  mod_prt (fun p => set_sync_count (u32 (sync_count p + 1)) p) ;!
  let! lsfo := calcLocalSystemClockRateDifference device_time system_time in
  let system_time := TIMESTAMP_SUB_NS system_time (to_u64 (lddiv (ld device_sync_time_offset) lsfo)) in
  let local_system_offset := signed 64 (u64 (TIMESTAMP_TO_NS system_time - TIMESTAMP_TO_NS sync_arrival)) in
  let! g := st_get in
  setMasterOffset scalar_offset sync_arrival adj local_system_offset system_time lsfo
    (sync_count (prt g)) (pdelay_count (peer (prt g))) (port_state (prt g)) (asCapable (peer (prt g))) ;!
  syncDone ;!
  startSyncReceipt.

(** [PTPMessageFollowUp::processMessage(port, sync_arrival)] *)
Definition process_followup_at (m : PTPMessageCommon) (preciseOrigin : Timestamp) (tlv : FollowUpTLV) (sync_arrival : Timestamp) :
    stM GPTP unit :=
  inc_counter RxFollowUpCount ;!
  let! g := st_get in
  let delay := getLinkDelay (peer (prt g)) in
  if INVALID_LINKDELAY <=? delay then st_ret tt else
  let origin := corrected_origin delay (correctionField m) (cumulativeScaledRateOffset tlv) (peer_rate_offset (peer (prt g))) preciseOrigin in
  let! adj := calcMasterLocalClockRateDifference origin sync_arrival in
  if SFeqb adj NEGATIVE_TIME_JUMP then st_ret tt else
  let scalar_offset := signed 64 (u64 (TIMESTAMP_TO_NS sync_arrival - TIMESTAMP_TO_NS origin)) in
  let! (system_time, device_time) := getDeviceTime in
  let freq := to_i32 (ldmul (ldsub (lddiv (ld 1) adj) (ld 1)) (ld (2 ^ 41))) in
  mod_clk (fun c => set_fup_status (setScaledLastGmPhaseChange 0 (u64 (cumulativeScaledRateOffset tlv))
    (setScaledLastGmFreqChange freq (fup_status c))) c) ;!
  let! g := st_get in
  (when bool_decide (port_state (prt g) = PTP_SLAVE) do slave_followup scalar_offset sync_arrival system_time device_time adj) ;!
  mod_prt (set_lastGmTimeBaseIndicator (gmTimeBaseIndicator tlv)).

(** [PTPMessageFollowUp::processMessage(port)] *)
Definition process_followup (m : PTPMessageCommon) (preciseOrigin : Timestamp) (tlv : FollowUpTLV) : stM GPTP unit :=
  stopSyncReceiptTimer ;!
  let! g := st_get in
  if ignoring g then st_ret tt else
  match last_sync (prt g) with
  | None => st_ret tt
  | Some sync =>
    (if negb (sequenceId sync.1 =? sequenceId m) || bool_decide (sourcePortIdentity sync.1 <> sourcePortIdentity m) then
       let! few := incWrongSeqIDCounter in
       when negb few do (becomeMaster true ;! mod_prt (set_wrongSeqIDCounter 0))
     else
       let! v := getTimestampVersion in
       when ts_version (msg_timestamp sync.1) =? v do process_followup_at m preciseOrigin tlv (msg_timestamp sync.1)) ;!
    mod_prt (set_last_sync None)
  end.

(** ** The measurement of the link delay *)
Definition process_pdelay_req (m : PTPMessageCommon) : stM GPTP unit :=
  let! g := st_get in
  if ignoring g then st_ret tt else
  inc_counter RxPdelayRequest ;!
  let! (resp, _) := send_event (new_common g PATH_DELAY_RESP_MESSAGE (sequenceId m) MESSAGE_OTHER ASSIST 0x7F,
    PathDelayResp (sourcePortIdentity m) (msg_timestamp m)) MCAST_PDELAY TxPdelayResponse in
  send_general (new_common g PATH_DELAY_FOLLOWUP_MESSAGE (sequenceId m) MESSAGE_OTHER 0 0x7F,
    PathDelayRespFollowUp (sourcePortIdentity m) (msg_timestamp resp.1)) MCAST_PDELAY ;!
  inc_counter TxPdelayResponseFollowUp.

(** The check for responses of several peers to one request. *)
Definition check_duplicate (m : PTPMessageCommon) (old : Message) : stM GPTP unit :=
  let! g := st_get in
  let q := peer (prt g) in
  if sequenceId m =? sequenceId old.1 then
    (if negb (portNumber (sourcePortIdentity m) =? portNumber (sourcePortIdentity old.1)) &&
        ((last_invalid_seqid q + 1 =? sequenceId m) || (duplicate_resp_counter q =? 0)) then
       mod_peer (fun q => set_duplicate_resp_counter (u32 (duplicate_resp_counter q + 1)) q) ;!
       when u32 (duplicate_resp_counter q + 1) =? DUPLICATE_RESP_THRESH do
         (stopPDelay ;! addEventTimer PDELAY_RESP_PEER_MISBEHAVING_TIMEOUT_EXPIRES 300000000000)
     else mod_peer (set_duplicate_resp_counter 0)) ;!
    mod_peer (set_last_invalid_seqid (sequenceId m))
  else mod_peer (set_duplicate_resp_counter 0).

Definition process_pdelay_resp (m : Message) : stM GPTP unit :=
  let! g := st_get in
  if ignoring g then st_ret tt else
  inc_counter RxPdelayResponse ;!
  let! got := draw env_lock in
  if negb got then st_ret tt else
  (match last_pdelay_resp (peer (prt g)) with
   | None => st_ret tt
   | Some old => check_duplicate m.1 old
   end) ;!
  mod_peer (set_last_pdelay_resp (Some m)).

(** The delay of the link from the four times of an exchange. *)
Definition turn_around (rate : spec_float) (resp_tx req_rx : Timestamp) : Z :=
  let t := u64 (ts_difference resp_tx req_rx) in
  if SFltb ratio_998 rate && SFltb rate ratio_1002 then u64 (to_i64 (ldmul (ld t) rate)) else t.
Definition link_delay_of (rate : spec_float) (request_tx response_rx req_rx resp_tx : Timestamp) : Z :=
  Z.quot (signed 64 (signed 64 (ts_difference response_rx request_tx) - turn_around rate resp_tx req_rx)) 2.

(** The rate of the peer's clock, from two exchanges. *)
Definition peer_rate_step (q : Peer) (request_tx req_rx : Timestamp) (link_delay : Z) : Peer :=
  if peer_offset_init q then
    let mine_elapsed := u64 (TIMESTAMP_TO_NS request_tx - TIMESTAMP_TO_NS (peer_offset_ts_mine q)) in
    let theirs_elapsed := u64 (TIMESTAMP_TO_NS req_rx - TIMESTAMP_TO_NS (peer_offset_ts_theirs q)) in
    let theirs_elapsed := u64 (theirs_elapsed - getLinkDelay q) in
    let theirs_elapsed := u64 (theirs_elapsed + (if link_delay <? 0 then 0 else link_delay)) in
    let rate_offset := lddiv (ld mine_elapsed) (ld theirs_elapsed) in
    if SFltb rate_offset (ppm_to_ratio 250) && SFltb (ppm_to_ratio (-250)) rate_offset
    then set_peer_rate_offset rate_offset q else q
  else q.

(** The end of [PTPMessagePathDelayRespFollowUp::processMessage]: the new delay is kept, and
    the port becomes capable or not by the threshold. *)
Definition take_link_delay (request_tx response_rx req_rx resp_tx : Timestamp) : stM GPTP unit :=
  mod_peer (fun q => set_pdelay_count (u32 (pdelay_count q + 1)) q) ;!
  let! g := st_get in
  let link_delay := link_delay_of (peer_rate_offset (peer (prt g))) request_tx response_rx req_rx resp_tx in
  mod_peer (fun q => peer_rate_step q request_tx req_rx link_delay) ;!
  mod_peer (set_one_way_delay link_delay) ;!
  (when negb (automotive g) do setAsCapable (Z.abs link_delay <=? neighbor_prop_delay_thresh (port_config (prt g)))) ;!
  mod_peer (fun q => mkPeer (one_way_delay q) (peer_rate_offset q) request_tx req_rx true (asCapable q) (pdelay_count q)
    (duplicate_resp_counter q) (last_invalid_seqid q) (pdelay_sequence_id q) (last_pdelay_req q) (last_pdelay_resp q)
    (last_pdelay_resp_fwup q) (pdelay_started q) (pdelay_halted q)).

(** What the three messages of an exchange lead to. *)
Inductive exchange := Aborted | Deferred | Measured (request_tx response_rx req_rx resp_tx : Timestamp).

(** The clock identities that are compared are those of two identities just made, which are
    both zero; what remains are the sequence numbers, the requesting port number and the
    source of the response. *)
Definition match_exchange (req resp : option Message) (m : PTPMessageCommon) (requesting : PortIdentity) (resp_tx : Timestamp) : exchange :=
  match req, resp with
  | Some (rq, _), Some (rs, PathDelayResp rs_requesting req_rx) =>
    if negb (sequenceId rq =? sequenceId m) then Aborted else
    if negb (sequenceId rs =? sequenceId m) then Aborted else
    if negb (portNumber rs_requesting =? portNumber requesting) then Aborted else
    if bool_decide (sourcePortIdentity m <> sourcePortIdentity rs) then Aborted else
    if nanoseconds (msg_timestamp rq) =? nanoseconds INVALID_TIMESTAMP then Aborted else
    if nanoseconds (msg_timestamp rq) =? nanoseconds PDELAY_PENDING_TIMESTAMP then Deferred else
    if negb (ts_version (msg_timestamp rq) =? ts_version (msg_timestamp rs)) then Aborted
    else Measured (msg_timestamp rq) (msg_timestamp rs) req_rx resp_tx
  | _, _ => Aborted
  end.

(** Whether the receipt timer is stopped: after the checks on the identities. *)
Definition identities_match (req resp : option Message) (m : PTPMessageCommon) (requesting : PortIdentity) : bool :=
  match req, resp with
  | Some (rq, _), Some (rs, PathDelayResp rs_requesting _) =>
    (sequenceId rq =? sequenceId m) && (sequenceId rs =? sequenceId m) &&
    (portNumber rs_requesting =? portNumber requesting) && bool_decide (sourcePortIdentity m = sourcePortIdentity rs)
  | _, _ => false
  end.

(** [PTPMessagePathDelayRespFollowUp::processMessage]; the result is [_gc]. *)
Definition process_pdelay_fup (m : PTPMessageCommon) (requesting : PortIdentity) (resp_tx : Timestamp) : stM GPTP bool :=
  let! g := st_get in
  if ignoring g then st_ret (msg_gc m) else
  inc_counter RxPdelayResponseFollowUp ;!
  let! got := draw env_lock in
  if negb got then st_ret (msg_gc m) else
  let q := peer (prt g) in
  (when identities_match (last_pdelay_req q) (last_pdelay_resp q) m requesting do
     deleteEventTimer PDELAY_RESP_RECEIPT_TIMEOUT_EXPIRES) ;!
  match match_exchange (last_pdelay_req q) (last_pdelay_resp q) m requesting resp_tx with
  | Deferred =>
    mod_peer (set_last_pdelay_resp_fwup (Some (m, PathDelayRespFollowUp requesting resp_tx))) ;!
    addEventTimer PDELAY_DEFERRED_PROCESSING 1000000 ;!
    st_ret (msg_gc m)
  | Aborted => mod_peer (set_last_pdelay_resp None) ;! st_ret true
  | Measured t1 t4 t2 t3 =>
    take_link_delay t1 t4 t2 t3 ;!
    mod_peer (set_last_pdelay_resp None) ;! st_ret true
  end.

(** ** Signalling *)
Definition process_signalling (tlv : SignallingTLV) : stM GPTP unit :=
  let link := signed 8 (linkDelayInterval tlv) in
  let sync := signed 8 (timeSyncInterval tlv) in
  let annc := signed 8 (announceInterval tlv) in
  (if link =? sigMsgInterval_Initial then
     let! g := st_get in
     mod_prt (set_log_min_mean_pdelay_req_interval (initialLogPdelayReqInterval (port_config (prt g)))) ;!
     startPDelayIntervalTimer (interval_ns_unsigned (initialLogPdelayReqInterval (port_config (prt g))))
   else if (link =? sigMsgInterval_NoSend) || (link =? sigMsgInterval_NoChange) then st_ret tt
   else mod_prt (set_log_min_mean_pdelay_req_interval link) ;! startPDelayIntervalTimer (interval_ns_unsigned link)) ;!
  (if sync =? sigMsgInterval_Initial then
     let! g := st_get in
     mod_prt (set_log_mean_sync_interval (initialLogSyncInterval (port_config (prt g)))) ;!
     startSyncIntervalTimer (interval_ns_unsigned (initialLogSyncInterval (port_config (prt g))))
   else if (sync =? sigMsgInterval_NoSend) || (sync =? sigMsgInterval_NoChange) then st_ret tt
   else mod_prt (set_log_mean_sync_interval sync) ;! startSyncIntervalTimer (interval_ns_unsigned sync)) ;!
  let! g := st_get in
  if automotive g then st_ret tt else
  if (annc =? sigMsgInterval_Initial) || (annc =? sigMsgInterval_NoSend) || (annc =? sigMsgInterval_NoChange) then st_ret tt
  else mod_prt (set_log_mean_announce_interval annc) ;! startAnnounceIntervalTimer (interval_ns_unsigned annc).

(** ** Receiving *)

(** [buildPTPMessage]; [None] is the discarding of the frame. *)
Definition buildPTPMessage (buf : list Z) (size : Z) (remote : list Z) : stM GPTP (option Message) :=
  let! h := st_lift (read_head buf) in
  let event := Z.shiftr (h_type h) 3 =? 0 in
  let! (ts_good, timestamp, counter_value) :=
    if event then let! r := port_timestamp env_rx in retry_timestamp RX_ITER env_rx r
    else st_ret (0, newTimestamp 0 0 0, 0) in
  if negb (ts_good =? 0) then st_ret None else
  let! r := st_lift (decode_rest h buf size timestamp counter_value) in
  match r with
  | RxAbort discard => (when discard do inc_counter RxPTPPacketDiscard) ;! st_ret None
  | RxMessage m b =>
    (when event do mod_prt (fun p =>
       set_identity_map (<[(clock_id (h_source h), portNumber (h_source h)) := remote]> (identity_map p)) p)) ;!
    st_ret (Some (m, b))
  end.

(** The virtual [processMessage] *)
Definition dispatch (msg : Message) : stM GPTP unit :=
  let '(m, b) := msg in
  match b with
  | Sync _ => process_sync msg
  | FollowUp t tlv => process_followup m t tlv
  | PathDelayReq => process_pdelay_req m
  | PathDelayResp _ _ => process_pdelay_resp msg
  | PathDelayRespFollowUp r t => process_pdelay_fup m r t ;! st_ret tt
  | Announce a => process_announce m a
  | Signalling _ tlv => process_signalling tlv
  end.

(** [EtherPort::processMessage]; [link_speed] is the speed [recv] reports. *)
Definition processMessage (buf : list Z) (length : Z) (remote : list Z) (speed : Z) : stM GPTP unit :=
  let! msg := buildPTPMessage buf length remote in
  match msg with
  | None => st_ret tt
  | Some (m, b) =>
    let! g := st_get in
    let m' := if Z.land (Z.shiftr (messageType m) 3) 1 =? 0 then
        let rx := msg_timestamp m in
        msg_set_timestamp (ts_minus rx (ts_set_version (ts_version rx) (getPhyDelay false g speed))) m
      else m in
    dispatch (m', b)
  end.
End Rx.
