(* ===== verification/GptpEvent.v ===== *)
(** * GptpEvent: what the events do

    Model of [processEvent], [processStateChange] and [processSyncAnnounceTimeout] of
    [daemons/gptp/common/common_port.cpp] and of [EtherPort::_processEvent], and the daemon
    as a machine: a timer that expires, a frame, a change of the link. *)
From Stdlib Require Import SpecFloat.
From stdpp Require Import base gmap numbers list.
From Stdlib Require Import ZArith Lia.
From S2P Require Import Prelude GptpTime GptpMsg Gptp GptpClock GptpPort GptpRx.

#[local] Open Scope Z_scope.

#[global] Instance ClockQuality_eq_dec : EqDecision ClockQuality.
Proof. solve_decision. Defined.
#[global] Instance Announce_eq_dec : EqDecision PTPMessageAnnounce.
Proof. solve_decision. Defined.

(** ** The best master *)

(** The clock is its own grandmaster. *)
Definition own_grandmaster (c : ClockConfig) : Grandmaster :=
  mkGrandmaster (clock_identity c) (clock_quality c) (priority1 c) (priority2 c).
Definition announced_grandmaster (a : PTPMessageAnnounce) : Grandmaster :=
  mkGrandmaster (grandmasterIdentity a) (grandmasterClockQuality a) (grandmasterPriority1 a) (grandmasterPriority2 a).

(** The first loop of [processStateChange].  [j] is not advanced: each of the [n] rounds looks
    at the first port of the list. *)
Fixpoint find_EBest (n : nat) (g : GPTP) (EBest : option PTPMessageAnnounce) : option PTPMessageAnnounce :=
  match n with
  | O => EBest
  | S n' =>
    find_EBest n' g
      (if ignoring g then EBest else
       match EBest, qualified_announce (prt g) with
       | None, q => q
       | Some e, Some a => if announce_isBetterThan a e then Some a else Some e
       | Some e, None => Some e
       end)
  end.

Section Event.
Context `{GptpEnv}.
#[local] Open Scope st_scope.

(** The second loop. *)
Fixpoint recommend_ports (n : nat) (EBest : option PTPMessageAnnounce) (changed : bool) : stM GPTP unit :=
  match n with
  | O => st_ret tt
  | S n' =>
    let! g := st_get in
    if ignoring g then recommend_ports n' EBest changed else
    if clock_isBetterThan (clock_config (clk g)) EBest then
      recommendState PTP_MASTER changed ;! recommend_ports n' None changed
    else
      (match EBest with
       | Some a =>
         if decide (qualified_announce (prt g) = Some a) then
           recommendState PTP_SLAVE changed ;!
           mod_clk (set_grandmaster (announced_grandmaster a))
         else recommendState PTP_MASTER changed
       | None => recommendState PTP_MASTER changed
       end) ;!
      recommend_ports n' EBest changed
  end.

Definition processStateChange : stM GPTP bool :=
  let! g := st_get in
  let c := clock_config (clk g) in
  if priority1 c =? 255 then st_ret true else
  match find_EBest (number_ports c) g None with
  | None => st_ret true
  | Some EBest =>
    let changed := bool_decide (grandmasterIdentity EBest <> LastEBestIdentity (clk g)) in
    (when changed do mod_clk (set_LastEBestIdentity (grandmasterIdentity EBest))) ;!
    (when clock_isBetterThan c (Some EBest) do mod_clk (set_grandmaster (own_grandmaster c))) ;!
    recommend_ports (number_ports c) (Some EBest) changed ;!
    st_ret true
  end.

(** ** Timeouts *)
Definition processSyncAnnounceTimeout (e : Event) : stM GPTP bool :=
  let! g := st_get in
  let c := clock_config (clk g) in
  if priority1 c =? 255 then st_ret true else
  (if decide (e = ANNOUNCE_RECEIPT_TIMEOUT_EXPIRES) then
     addEventTimer ANNOUNCE_RECEIPT_TIMEOUT_EXPIRES (receipt_ns_cast_first (log_mean_announce_interval (prt g)))
   else startSyncReceipt) ;!
  if decide (port_state (prt g) = PTP_MASTER) then st_ret true else
  mod_clk (set_grandmaster (own_grandmaster c)) ;!
  mod_prt (set_port_state PTP_MASTER) ;!
  let! (system_time, device_time) := getDeviceTime in
  let! _ := calcLocalSystemClockRateDifference device_time system_time in
  mod_prt (set_qualified_announce None) ;!
  addEventTimer SYNC_INTERVAL_TIMEOUT_EXPIRES 16000000 ;!
  startAnnounce ;!
  st_ret true.

(** ** [EtherPort::_processEvent] *)

(** [ret] without a value. *)
Definition no_value : stM GPTP bool := let! z := draw env_garbage in st_ret (negb (z =? 0)).

(** The two places at which the automotive profile announces itself. *)
Definition automotive_ready : stM GPTP unit :=
  mod_prt (set_stationState STATION_STATE_ETHERNET_READY) ;! test_status_if_testing.
Definition automotive_signal : stM GPTP unit :=
  let! g := st_get in
  when negb (isGM (port_config (prt g))) do
    (send_signalling sigMsgInterval_NoSend (log_mean_sync_interval (prt g)) sigMsgInterval_NoSend ;! startSyncReceipt).

(** The same lines at power-up and when the link comes up: go on as slave or master, or wait
    for an Announce. *)
Definition resume_state : stM GPTP unit :=
  let! g := st_get in
  if (priority1 (clock_config (clk g)) =? 255) || bool_decide (port_state (prt g) = PTP_SLAVE) then becomeSlave true
  else if decide (port_state (prt g) = PTP_MASTER) then becomeMaster true
  else addEventTimer ANNOUNCE_RECEIPT_TIMEOUT_EXPIRES (receipt_ns_left (log_mean_announce_interval (prt g))).

Definition ether_powerup : stM GPTP bool :=
  let! g := st_get in
  (when automotive g || (bool_decide (port_state (prt g) <> PTP_SLAVE) && bool_decide (port_state (prt g) <> PTP_MASTER))
   do startPDelay) ;!
  let! watching := draw env_thread in
  if negb watching then st_ret false else
  let! listening := draw env_thread in
  if negb listening then st_ret false else
  (when automotive g do (automotive_ready ;! automotive_signal)) ;!
  st_ret true.

Definition initial_avbSyncState (g : GPTP) : Z := if isGM (port_config (prt g)) then 1 else 2.

Definition ether_linkup : stM GPTP bool :=
  mod_peer (set_pdelay_halted false) ;!
  startPDelay ;!
  resume_state ;!
  let! g := st_get in
  (when automotive g do
    (setAsCapable true ;!
     automotive_ready ;!
     mod_prt (fun p => set_log_min_mean_pdelay_req_interval (initialLogPdelayReqInterval (port_config p))
       (set_log_mean_announce_interval 0 (set_log_mean_sync_interval (initialLogSyncInterval (port_config p)) p))) ;!
     automotive_signal ;!
     mod_peer (set_pdelay_count 0) ;!
     mod_prt (set_sync_count 0) ;!
     mod_prt (set_avbSyncState (initial_avbSyncState g)) ;!
     when testMode (port_config (prt g)) do mod_prt (fun p => set_linkUpCount (u32 (linkUpCount p + 1)) p))) ;!
  (when hw_timestamper (port_config (prt g)) do out ResetTimestamper) ;!
  st_ret true.

(** A request for the peer's delay: the message kept has the pending timestamp until it has
    been sent, and keeps it when requests are halted. *)
Definition ether_pdelay_interval : stM GPTP unit :=
  let! g := st_get in
  let q := peer (prt g) in
  let m := new_common g PATH_DELAY_REQ_MESSAGE (pdelay_sequence_id q) MESSAGE_OTHER 0 0 in
  mod_peer (fun q => set_last_pdelay_req (Some (msg_set_timestamp PDELAY_PENDING_TIMESTAMP m, PathDelayReq))
    (set_pdelay_sequence_id (u16 (pdelay_sequence_id q + 1)) q)) ;!
  (when negb (pdelay_halted q) do
    (let! (sent, _) := send_event (m, PathDelayReq) MCAST_PDELAY TxPdelayRequest in
     mod_peer (set_last_pdelay_req (Some sent)))) ;!
  let n := log_min_mean_pdelay_req_interval (prt g) in
  addEventTimer PDELAY_RESP_RECEIPT_TIMEOUT_EXPIRES (granular (signed 64 (PDELAY_RESP_RECEIPT_TIMEOUT_MULTIPLIER * to_i64 (pow2_ns n)))) ;!
  startPDelayIntervalTimer (interval_ns n).

(** A Sync and, when its time of departure is known, the Follow_Up. *)
Definition ether_sync_interval : stM GPTP unit :=
  let! g := st_get in
  let seq := sync_sequence_id (prt g) in
  let itv := log_mean_sync_interval (prt g) in
  mod_prt (set_sync_sequence_id (u16 (seq + 1))) ;!
  let! (sync, tx_succeed) := send_event (new_common g SYNC_MESSAGE seq SYNC ASSIST itv, Sync (newTimestamp 0 0 0)) MCAST_OTHER TxSyncCount in
  (when automotive g && bool_decide (port_state (prt g) = PTP_MASTER) do avb_sync_step) ;!
  when tx_succeed do
    (let! g' := st_get in
     let i := fup_info (clk g') in
     let tlv := setScaledLastGmPhaseChange (phase_ms i) (phase_ls i)
       (setScaledLastGmFreqChange (scaledLastGmFreqChange i) (setGMTimeBaseIndicator (gmTimeBaseIndicator i) new_FollowUpTLV)) in
     inc_counter TxFollowUpCount ;!
     send_general (new_common g' FOLLOWUP_MESSAGE seq FOLLOWUP 0 itv, FollowUp (msg_timestamp sync.1) tlv) MCAST_OTHER).

(** [abort()] without a kept message. *)
Definition ether_deferred : stM GPTP unit :=
  let! g := st_get in
  match last_pdelay_resp_fwup (peer (prt g)) with
  | Some (m, PathDelayRespFollowUp r t) =>
    let! gc := process_pdelay_fup m r t in
    when gc do mod_peer (set_last_pdelay_resp_fwup None)
  | _ => st_lift (Fault Exited)
  end.

Definition ether_sync_rate : stM GPTP unit :=
  mod_prt (set_sync_rate_interval_timer_started false) ;!
  let! g := st_get in
  let c := port_config (prt g) in
  let sync_differs := negb (log_mean_sync_interval (prt g) =? operLogSyncInterval c) in
  let pdelay_differs := negb (log_min_mean_pdelay_req_interval (prt g) =? operLogPdelayReqInterval c) in
  mod_prt (fun p => set_log_min_mean_pdelay_req_interval (operLogPdelayReqInterval c)
    (set_log_mean_sync_interval (operLogSyncInterval c) p)) ;!
  when (sync_differs || pdelay_differs) && negb (isGM c) do
    (send_signalling (if automotive_profile c then sigMsgInterval_NoChange else operLogPdelayReqInterval c)
       (operLogSyncInterval c) sigMsgInterval_NoChange ;!
     startSyncReceipt).

Definition ether_processEvent (e : Event) : stM GPTP bool :=
  let! g := st_get in
  match e with
  | POWERUP | INITIALIZE => ether_powerup
  | STATE_CHANGE_EVENT => st_ret (automotive g)
  | LINKUP => ether_linkup
  | LINKDOWN =>
    stopPDelay ;!
    (when negb (automotive g) do setAsCapable false) ;!
    (when testMode (port_config (prt g)) do mod_prt (fun p => set_linkDownCount (u32 (linkDownCount p + 1)) p)) ;!
    st_ret true
  | ANNOUNCE_RECEIPT_TIMEOUT_EXPIRES => st_ret (automotive g)
  | SYNC_RECEIPT_TIMEOUT_EXPIRES =>
    if automotive g then startSyncReceipt ;! st_ret true else st_ret false
  | PDELAY_INTERVAL_TIMEOUT_EXPIRES => ether_pdelay_interval ;! no_value
  | SYNC_INTERVAL_TIMEOUT_EXPIRES => ether_sync_interval ;! no_value
  | FAULT_DETECTED => (when negb (automotive g) do setAsCapable false) ;! no_value
  | PDELAY_DEFERRED_PROCESSING => ether_deferred ;! no_value
  | PDELAY_RESP_RECEIPT_TIMEOUT_EXPIRES =>
    (when negb (automotive g) do setAsCapable false) ;! mod_peer (set_pdelay_count 0) ;! no_value
  | PDELAY_RESP_PEER_MISBEHAVING_TIMEOUT_EXPIRES =>
    mod_peer (set_pdelay_halted false) ;!
    (when bool_decide (port_state (prt g) <> PTP_SLAVE) && bool_decide (port_state (prt g) <> PTP_MASTER) do startPDelay) ;!
    no_value
  | SYNC_RATE_INTERVAL_TIMEOUT_EXPIRED => ether_sync_rate ;! no_value
  | NULL_EVENT | QUALIFICATION_TIMEOUT_EXPIRES | ANNOUNCE_INTERVAL_TIMEOUT_EXPIRES => st_ret false
  end.

(** ** [CommonPort::processEvent] *)
Definition send_announce : stM GPTP unit :=
  let! g := st_get in
  let c := clock_config (clk g) in
  let seq := announce_sequence_id (prt g) in
  mod_prt (set_announce_sequence_id (u16 (seq + 1))) ;!
  send_general (new_common g ANNOUNCE_MESSAGE seq MESSAGE_OTHER 0 (log_mean_announce_interval (prt g)),
    Announce (mkAnnounce (u16 (current_utc_offset c)) (priority1 c) (clock_quality c) (priority2 c) (gm_identity (grandmaster (clk g)))
      0 (time_source c) [clock_identity c])) MCAST_OTHER ;!
  inc_counter TxAnnounce.

(** After a Sync: the times of the device and of the system. *)
Definition local_offsets : stM GPTP unit :=
  let! (system_time, device_time) := getDeviceTime in
  let local_system_offset := signed 64 (u64 (TIMESTAMP_TO_NS system_time - TIMESTAMP_TO_NS device_time)) in
  let! lsfo := calcLocalSystemClockRateDifference device_time system_time in
  let! g := st_get in
  setMasterOffset 0 device_time (ld 1) local_system_offset system_time lsfo (sync_count (prt g)) (pdelay_count (peer (prt g)))
    (port_state (prt g)) (asCapable (peer (prt g))).

Definition processEvent (e : Event) : stM GPTP bool :=
  match e with
  | POWERUP | INITIALIZE =>
    resume_state ;!
    ether_processEvent e
  | STATE_CHANGE_EVENT =>
    let! ret := ether_processEvent e in
    if ret then st_ret true else processStateChange
  | ANNOUNCE_RECEIPT_TIMEOUT_EXPIRES | SYNC_RECEIPT_TIMEOUT_EXPIRES =>
    inc_counter (if decide (e = ANNOUNCE_RECEIPT_TIMEOUT_EXPIRES) then AnnounceReceiptTimeouts else RxSyncReceiptTimeouts) ;!
    let! ret := ether_processEvent e in
    if ret then st_ret true else processSyncAnnounceTimeout e
  | ANNOUNCE_INTERVAL_TIMEOUT_EXPIRES =>
    let! g := st_get in
    (when asCapable (peer (prt g)) do send_announce) ;!
    startAnnounceIntervalTimer (to_u64 (pow2_ns (log_mean_announce_interval (prt g)))) ;!
    st_ret true
  | SYNC_INTERVAL_TIMEOUT_EXPIRES =>
    let! g := st_get in
    let! ret := if asCapable (peer (prt g)) then ether_processEvent e else st_ret true in
    local_offsets ;!
    syncDone ;!
    let! g := st_get in
    startSyncIntervalTimer (to_u64 (pow2_ns (log_mean_sync_interval (prt g)))) ;!
    st_ret ret
  | _ => ether_processEvent e
  end.

(** ** The beginning *)

(** What the constructor of [EtherPort] puts for intervals that were not given, and the
    identity [init_port] makes from the address. *)
Definition interval_or (d v : Z) : Z := if v =? LOG2_INTERVAL_INVALID then d else v.
Definition with_defaults (c : PortConfig) : PortConfig :=
  mkPortConfig (mkPortId (ClockIdentity_of_addr (local_addr c)) 1) (local_addr c) (automotive_profile c) (testMode c) (isGM c) (neighbor_prop_delay_thresh c)
    (sync_receipt_thresh c) (interval_or (if automotive_profile c then -5 else -3) (initialLogSyncInterval c))
    (interval_or 0 (initialLogPdelayReqInterval c)) (interval_or 0 (operLogPdelayReqInterval c)) (interval_or 0 (operLogSyncInterval c))
    (phy_delay c) (hw_timestamper c).

(** [CommonPort::CommonPort], [EtherPort::EtherPort] and [init_port]; [z] is what memory holds
    where no constructor sets a member. *)
Definition new_EtherPort (c0 : PortConfig) (up : bool) (z : Z) (t : Timestamp) : EtherPort :=
  let c := with_defaults c0 in
  let q := mkPeer INVALID_LINKDELAY (ld 1) t t false (automotive_profile c) 0 0 0 0 None None None false false in
  mkPort c q PTP_INITIALIZING (initialLogSyncInterval c) 0 (initialLogPdelayReqInterval c) 0 (fun _ => z) 0 None 0 0 0 z (2 ^ 32 - 1) up
    (if automotive_profile c && testMode c then 1 else z) (if automotive_profile c && testMode c then 0 else z)
    STATION_STATE_RESERVED (if automotive_profile c then if isGM c then 1 else 2 else z) ∅ None false 0.

(** [IEEE1588Clock::IEEE1588Clock], with the identity [init_port] gives it from the address. *)
Definition new_clock (prio1 : Z) (synt ipc : bool) (addr : list Z) (z : Z) (t : Timestamp) : IEEE1588Clock :=
  mkClock (mkClockConfig (ClockIdentity_of_addr addr) (mkQuality 248 0x22 0x436A) prio1 248 0 1 z 160 synt ipc)
    (mkGrandmaster (replicate 8 0) (mkQuality z z z) z z) (replicate 8 255)
    (mkServo false (S754_zero false) 0 false t t false t t (S754_zero false) (S754_zero false)) new_FollowUpTLV new_FollowUpTLV.

Definition new_gptp (prio1 : Z) (synt ipc : bool) (c : PortConfig) (up : bool) (z : Z) (t : Timestamp) : GPTP :=
  mkGPTP (new_clock prio1 synt ipc (local_addr c) z t) (new_EtherPort c up z t) [] [] 0.

(** ** The daemon *)
Inductive Input :=
  | Expired (k : nat)                                      (** the [k]-th pending timer *)
  | Received (buf : list Z) (length : Z) (remote : list Z) (** a frame of [length] bytes in the buffer *)
  | LinkSpeed (speed : Z)
  | Link (up : bool)                                       (** the interface goes up or down *)
  | ReceiveFailed.

(** The link watcher passes on changes only. *)
Definition link_event (up : bool) : stM GPTP unit :=
  let! g := st_get in
  if decide (linkUp (prt g) = up) then st_ret tt else
  mod_prt (set_linkUp up) ;!
  processEvent (if up then LINKUP else LINKDOWN) ;! st_ret tt.

(** A timer set to zero never expires. *)
Definition gptp_do (i : Input) : stM GPTP unit :=
  let! g := st_get in
  match i with
  | Expired k =>
    match timers g !! k with
    | Some (e, us) => if us =? 0 then st_ret tt else
      st_modify (set_timers (delete k (timers g))) ;! processEvent e ;! st_ret tt
    | None => st_ret tt
    end
  | Received buf len remote => processMessage buf len remote (link_speed (prt g))
  | LinkSpeed speed => mod_prt (set_link_speed speed)
  | Link up => link_event up
  | ReceiveFailed => processEvent FAULT_DETECTED ;! st_ret tt
  end.

Fixpoint gptp_run (l : list Input) : stM GPTP unit :=
  match l with
  | [] => st_ret tt
  | i :: l' => gptp_do i ;! gptp_run l'
  end.
End Event.
