(* ===== verification/GptpInv.v ===== *)
(** * GptpInv: the invariant of the gPTP daemon

    What holds of a port between events: its data are well formed, and the timers that move
    it on are pending: a master has those of its Syncs and Announces, any other port the one
    that ends its waiting for an Announce.  The lemmas show that the handlers keep this.

    That the timers run needs a system that gives them and intervals they can keep; that the
    data are well formed does not.  A switch, [slack], tells the two readings of the invariant
    apart, so that the handlers are gone through once. *)
From Stdlib Require Import SpecFloat.
From stdpp Require Import base gmap sets numbers list.
From Stdlib Require Import ZArith Lia.
From S2P Require Import Prelude GptpTime GptpMsg GptpCodec Gptp GptpClock GptpPort GptpRx GptpEvent.

#[local] Open Scope Z_scope.
#[local] Open Scope st_scope.

(** ** Periods *)

(** Whether the timers are left out of account. *)
Class Slack := slack : bool.

(** Intervals, as powers of two of a second, for which no timer is set to zero. *)
Definition itv_range (n : Z) : Prop := -19 <= n <= 25.
Definition itv `{Slack} (n : Z) : Prop := slack = true \/ itv_range n.

(** A time in nanoseconds the timer queue does not take for zero. *)
Definition nonzero (ns : Z) : Prop := u32 (ns / 1000) <> 0.
Definition lasting `{Slack} (ns : Z) : Prop := slack = true \/ nonzero ns.

Lemma paced `{Slack} n ns : (itv_range n -> nonzero ns) -> itv n -> lasting ns.
Proof. intros Hn [?|?]; [by left|right; auto]. Qed.

Section periods.
Context `{GptpEnv}.

Lemma itv_forall (P : Z -> bool) : forallb P (seqZ (-19) 45) = true -> forall n, itv_range n -> P n = true.
Proof. intros F n Hn. rewrite forallb_forall in F. apply F, list_elem_of_In, elem_of_seqZ. unfold itv_range in Hn. lia. Qed.

(** The conversions meet no value that is undefined, so they can be computed. *)
Definition in_u64 (x : spec_float) : bool :=
  match truncated x with Some z => (0 <=? z) && (z <? 2 ^ 64) && negb (u32 (z / 1000) =? 0) | None => false end.
Lemma in_u64_nonzero x : in_u64 x = true -> nonzero (to_u64 x).
Proof.
  unfold in_u64, to_u64, to_int, nonzero. destruct (truncated x); [|done].
  destruct ((0 <=? z) && (z <? 2 ^ 64)); [|done]. cbn [andb]. rewrite negb_true_iff. lia.
Qed.

(** What the periods are: so many nanoseconds. *)
Definition period (n : Z) : Z := if 0 <=? n then 1000000000 * 2 ^ n else 1000000000 / 2 ^ (- n).
Lemma pow2_ns_period n : itv_range n -> to_u64 (pow2_ns n) = period n /\ to_i64 (pow2_ns n) = period n.
Proof.
  intros Hn. assert (match truncated (pow2_ns n) with Some z => (z =? period n) && (0 <=? z) && (z <? 2 ^ 63) | None => false end = true) as E.
  { revert n Hn. by apply itv_forall. }
  unfold to_u64, to_i64, to_int. destruct (truncated (pow2_ns n)) as [z|]; [|done].
  assert (z = period n /\ 0 <= z < 2 ^ 63) as [-> ?] by lia.
  split; [replace (_ && _) with true by lia|replace (_ && _) with true by lia]; done.
Qed.

Context `{Slack}.
Lemma pow2_ns_lasting n : itv n -> lasting (to_u64 (pow2_ns n)).
Proof. apply paced. intros Hn. apply in_u64_nonzero. revert n Hn. by apply (itv_forall (fun n => in_u64 (pow2_ns n))). Qed.
Lemma receipt_ns_lasting n : itv n -> lasting (receipt_ns n).
Proof. apply paced. intros Hn. apply in_u64_nonzero. revert n Hn. by apply (itv_forall (fun n => in_u64 (dmul (dbl 3 0) (pow2_ns n)))). Qed.
Lemma receipt_ns_left_lasting n : itv n -> lasting (receipt_ns_left n).
Proof.
  apply paced. intros Hn. apply in_u64_nonzero. revert n Hn.
  by apply (itv_forall (fun n => in_u64 (dmul (dmul (dbl 3 0) (pow2 n)) (dbl 1000000000 0)))).
Qed.
Lemma receipt_cast_lasting n : itv n -> lasting (receipt_ns_cast_first n).
Proof.
  apply paced. intros Hn. unfold receipt_ns_cast_first. rewrite (proj1 (pow2_ns_period n Hn)). unfold nonzero.
  assert (negb (u32 (u64 (3 * period n) / 1000) =? 0) = true) as E by (revert n Hn; by apply itv_forall).
  rewrite negb_true_iff in E. unfold ANNOUNCE_RECEIPT_TIMEOUT_MULTIPLIER. lia.
Qed.
Lemma interval_ns_lasting n : itv n -> lasting (interval_ns_unsigned n).
Proof.
  apply paced. intros Hn. unfold interval_ns_unsigned. rewrite (proj2 (pow2_ns_period n Hn)). unfold nonzero.
  assert (negb (u32 (granular (u64 (period n)) / 1000) =? 0) = true) as E by (revert n Hn; by apply itv_forall).
  rewrite negb_true_iff in E. lia.
Qed.
End periods.

(** ** Received messages *)
Lemma rd_length buf o n l : rd buf o n = Done l -> length l = n.
Proof.
  unfold rd. destruct (Nat.leb_spec (o + n) (length buf)); [|done]. intros [= <-]. rewrite length_take, length_drop. lia.
Qed.

(** Split a computation that succeeds into its steps. *)
Ltac osteps E :=
  repeat match type of E with
  | (_ ≫= _) = Done _ =>
    let F := fresh "F" in
    match type of E with (?m ≫= _) = _ => destruct m eqn:F end; cbn [mbind outcome_bind] in E; [|discriminate E]
  end.

Lemma read_head_sized buf h : read_head buf = Done h -> length (clock_id (h_source h)) = 8%nat.
Proof.
  unfold read_head, rd_PortIdentity. intros E. osteps E. injection E as <-. cbn [h_source].
  osteps F0. injection F0 as <-. cbn [clock_id]. by eapply rd_length.
Qed.

Lemma get_announce_sized buf size a off : get_announce buf size = Done (a, off) -> length (grandmasterIdentity a) = 8%nat.
Proof.
  unfold get_announce. intros E. osteps E. assert (length a6 = 8%nat) as L by by eapply rd_length.
  repeat case_match; osteps E; repeat case_match; osteps E; simplify_eq; done.
Qed.

(** What the handlers rely on. *)
Definition rx_sized (m : PTPMessageCommon) (b : Body) : Prop :=
  length (clock_id (sourcePortIdentity m)) = 8%nat /\ match b with Announce a => length (grandmasterIdentity a) = 8%nat | _ => True end.

Lemma decode_rest_sized h buf size ts cnt m b :
  length (clock_id (h_source h)) = 8%nat -> decode_rest h buf size ts cnt = Done (RxMessage m b) -> rx_sized m b.
Proof.
  intros Hh. unfold decode_rest. destruct (negb _); [done|]. intros E. osteps E. destruct a as [b' off| |]; [|done..]. osteps E.
  injection E as <- <-. split.
  - unfold decode_common in F0. osteps F0. by injection F0 as <-.
  - destruct b'; [done..| |done]. unfold decode_body in F.
    repeat case_match; osteps F; simplify_eq. destruct a0. simplify_eq. by eapply get_announce_sized.
Qed.

(** ** The invariant *)
Definition has_timer `{Slack} (e : Event) (l : list (Event * Z)) : Prop := slack = true \/ exists us, (e, us) ∈ l /\ us <> 0.

(** The timers a port in a state needs, but for one that has just expired. *)
Definition armed `{Slack} (x : option Event) (g : GPTP) : Prop :=
  if decide (port_state (prt g) = PTP_MASTER) then
    (x <> Some SYNC_INTERVAL_TIMEOUT_EXPIRES -> has_timer SYNC_INTERVAL_TIMEOUT_EXPIRES (timers g)) /\
    (x <> Some ANNOUNCE_INTERVAL_TIMEOUT_EXPIRES -> has_timer ANNOUNCE_INTERVAL_TIMEOUT_EXPIRES (timers g))
  else x <> Some ANNOUNCE_RECEIPT_TIMEOUT_EXPIRES -> has_timer ANNOUNCE_RECEIPT_TIMEOUT_EXPIRES (timers g).

Definition critical (e : Event) : bool :=
  match e with
  | SYNC_INTERVAL_TIMEOUT_EXPIRES | ANNOUNCE_INTERVAL_TIMEOUT_EXPIRES | ANNOUNCE_RECEIPT_TIMEOUT_EXPIRES => true
  | _ => false
  end.

Section timers.
Context `{Slack}.
Lemma armed_weaken x g : armed None g -> armed x g.
Proof. unfold armed. case_decide; [intros [? ?]; split|]; auto. Qed.
Lemma armed_slack x g : slack = true -> armed x g.
Proof. intros Hs. unfold armed. case_decide; [split|]; intros _; by left. Qed.

Lemma has_timer_app e l l' : has_timer e l -> has_timer e (l ++ l').
Proof. intros [?|(us & Hin & ?)]; [by left|]. right. exists us. split; [|done]. apply elem_of_app. by left. Qed.
Lemma has_timer_filter e e' l : e <> e' -> has_timer e l -> has_timer e (filter (fun t => t.1 <> e') l).
Proof. intros ? [?|(us & Hin & ?)]; [by left|]. right. exists us. split; [|done]. by apply list_elem_of_filter. Qed.
End timers.

Create HintDb gptp.

Section Inv.
Context `{env : GptpEnv} `{Slack}.
Context (cc : ClockConfig) (pc : PortConfig).

(** An ordinary port with a timestamper, on a clock that can be grandmaster. *)
Record setting : Prop := {
  set_profile : automotive_profile pc = false;
  set_hw : hw_timestamper pc = true;
  set_prio : priority1 cc <> 255;
  set_ports : number_ports cc = 1%nat;
  set_id : length (clock_identity cc) = 8%nat;
  set_port_id : length (clock_id (port_identity pc)) = 8%nat;
  set_itv : itv (initialLogSyncInterval pc);
  set_oper : itv (operLogSyncInterval pc) }.

(** The system has timers to give, and a lock that is tried is free. *)
Record generous : Prop := {
  gen_timer : forall n, env_timer n = true;
  gen_lock : forall n, env_lock n = true }.

Context (Hset : setting) (Hgen : slack = true \/ generous).

Record wf (g : GPTP) : Prop := {
  wf_clock : clock_config (clk g) = cc;
  wf_port : port_config (prt g) = pc;
  wf_state : port_state (prt g) ∈ [PTP_INITIALIZING; PTP_MASTER; PTP_SLAVE];
  wf_gm : length (gm_identity (grandmaster (clk g))) = 8%nat;
  wf_best : forall a, qualified_announce (prt g) = Some a -> length (grandmasterIdentity a) = 8%nat;
  wf_sync : itv (log_mean_sync_interval (prt g));
  wf_annc : itv (log_mean_announce_interval (prt g)) }.

Definition inv (x : option Event) (g : GPTP) : Prop := wf g /\ armed x g.

Definition keeps {A} (P : GPTP -> Prop) (m : stM GPTP A) : Prop := forall g, P g -> wp m (fun _ => P) g.

Section keeps.
Context (P : GPTP -> Prop).
Lemma port_keeps_ret {A} (a : A) : keeps P (st_ret a).
Proof. by intros g. Qed.
Lemma port_keeps_bind {A B} (m : stM GPTP A) (k : A -> stM GPTP B) : keeps P m -> (forall a, keeps P (k a)) -> keeps P (st_bind m k).
Proof. intros Hm Hk g Hg. apply wp_bind. eapply wp_mono; [by apply Hm|]. intros a g' Hg'. by apply Hk. Qed.
Lemma port_keeps_get {A} (k : GPTP -> stM GPTP A) : (forall g, P g -> keeps P (k g)) -> keeps P (st_bind st_get k).
Proof. intros Hk g Hg. by apply (Hk g Hg). Qed.
Lemma keeps_if {A} (b : bool) (m1 m2 : stM GPTP A) : (b = true -> keeps P m1) -> (b = false -> keeps P m2) -> keeps P (if b then m1 else m2).
Proof. destruct b; auto. Qed.
End keeps.

(** Going on after a step that keeps a property. *)
Lemma keeps_then P {A B} (m : stM GPTP A) (k : A -> stM GPTP B) Q g :
  keeps P m -> P g -> (forall a g', P g' -> wp (k a) Q g') -> wp (st_bind m k) Q g.
Proof using Type. intros Hm Hg Hk. apply wp_bind. eapply wp_mono; [by apply Hm|exact Hk]. Qed.

(** Changes of the state the invariant does not look at. *)
Definition same_clk (f : IEEE1588Clock -> IEEE1588Clock) : Prop :=
  forall c, clock_config (f c) = clock_config c /\ gm_identity (grandmaster (f c)) = gm_identity (grandmaster c).
Definition same_prt (f : EtherPort -> EtherPort) : Prop :=
  forall p, port_config (f p) = port_config p /\ port_state (f p) = port_state p /\ qualified_announce (f p) = qualified_announce p /\
    log_mean_sync_interval (f p) = log_mean_sync_interval p /\ log_mean_announce_interval (f p) = log_mean_announce_interval p.

Lemma wf_same g g' :
  clock_config (clk g') = clock_config (clk g) -> gm_identity (grandmaster (clk g')) = gm_identity (grandmaster (clk g)) ->
  port_config (prt g') = port_config (prt g) -> port_state (prt g') = port_state (prt g) ->
  qualified_announce (prt g') = qualified_announce (prt g) -> log_mean_sync_interval (prt g') = log_mean_sync_interval (prt g) ->
  log_mean_announce_interval (prt g') = log_mean_announce_interval (prt g) -> wf g -> wf g'.
Proof. intros E1 E2 E3 E4 E5 E6 E7 []. by split; rewrite ?E1, ?E2, ?E3, ?E4, ?E5, ?E6, ?E7. Qed.

(** A property of the state that depends on nothing the invariant does not look at. *)
Definition stable (P : GPTP -> Prop) : Prop :=
  forall g g', clock_config (clk g') = clock_config (clk g) -> gm_identity (grandmaster (clk g')) = gm_identity (grandmaster (clk g)) ->
  port_config (prt g') = port_config (prt g) -> port_state (prt g') = port_state (prt g) ->
  qualified_announce (prt g') = qualified_announce (prt g) -> log_mean_sync_interval (prt g') = log_mean_sync_interval (prt g) ->
  log_mean_announce_interval (prt g') = log_mean_announce_interval (prt g) -> timers g' = timers g -> P g -> P g'.

Lemma stable_inv x : stable (inv x).
Proof.
  intros g g' E1 E2 E3 E4 E5 E6 E7 E8 [Hw Ha]. split; [by eapply wf_same|]. unfold armed in *. by rewrite E4, E8.
Qed.
Lemma stable_wf : stable wf.
Proof. intros g g' E1 E2 E3 E4 E5 E6 E7 _. by apply wf_same. Qed.

Section stable.
Context (P : GPTP -> Prop) (HP : stable P).
Lemma keeps_clk f : same_clk f -> keeps P (mod_clk f).
Proof using HP. intros Hf g Hg. destruct (Hf (clk g)). by apply (HP g). Qed.
Lemma keeps_prt f : same_prt f -> keeps P (mod_prt f).
Proof using HP. intros Hf g Hg. destruct (Hf (prt g)) as (? & ? & ? & ? & ?). by apply (HP g). Qed.
Lemma keeps_servo f : keeps P (mod_servo f).
Proof using HP. by apply keeps_clk. Qed.
Lemma keeps_peer f : keeps P (mod_peer f).
Proof using HP. by apply keeps_prt. Qed.
Lemma keeps_out o : keeps P (out o).
Proof using HP. intros g Hg. by apply (HP g). Qed.
Lemma port_keeps_draw {A} (f : nat -> A) : keeps P (draw f).
Proof using HP. intros g Hg. by apply (HP g). Qed.
Lemma keeps_counter c : keeps P (inc_counter c).
Proof using HP. by apply keeps_prt. Qed.
End stable.

(** ** Timers *)
Definition new_timer (e : Event) (ns : Z) (n : nat) : list (Event * Z) := if env_timer n then [(e, u32 (ns / 1000))] else [].

Lemma add_timer e ns g : addEventTimer e ns g = Done (tt, set_timers (timers g ++ new_timer e ns (tick g)) (set_tick (S (tick g)) g)).
Proof using Type.
  unfold addEventTimer, new_timer, st_bind, draw. destruct (env_timer (tick g)); [done|]. cbn. rewrite app_nil_r. by destruct g.
Qed.

Lemma has_timer_new e l ns n : lasting ns -> has_timer e (l ++ new_timer e ns n).
Proof using Hgen.
  intros [?|Hn]; [by left|]. destruct Hgen as [?|Hg]; [by left|right]. unfold new_timer. rewrite (gen_timer Hg).
  exists (u32 (ns / 1000)). split; [|done]. apply elem_of_app. right. by apply list_elem_of_singleton.
Qed.

Lemma armed_app x g l : armed x g -> armed x (set_timers (timers g ++ l) g).
Proof using Type. unfold armed. cbn. case_decide; [intros [? ?]; split|]; eauto using has_timer_app. Qed.

Lemma keeps_add x e ns : keeps (inv x) (addEventTimer e ns).
Proof using Hgen. intros g [Hw Ha]. unfold wp. rewrite add_timer. split; [by apply (wf_same g)|]. by apply (armed_app x g). Qed.

Lemma keeps_delete x e : critical e = false -> keeps (inv x) (deleteEventTimer e).
Proof using Type.
  intros He g [Hw Ha]. split; [by apply (wf_same g)|]. unfold armed in *. cbn.
  assert (forall c, critical c = true -> c <> e) as Hne by (intros c Hc ->; congruence).
  case_decide; [destruct Ha as [H1 H2]; split; intros Hx; apply has_timer_filter; auto|intros Hx; apply has_timer_filter; auto].
Qed.

(** Stopping a timer and starting it again: it is pending, whatever was missing. *)
Definition cleared (x : option Event) (e : Event) : option Event := if decide (x = Some e) then None else x.
Lemma cleared_ne x e e' : cleared x e <> Some e' -> e = e' \/ x <> Some e'.
Proof using Type. unfold cleared. case_decide; [subst|]; [|by right]. intros _. destruct (decide (e = e')); [by left|right; congruence]. Qed.

Lemma has_timer_restart c e l ns n : lasting ns -> (c <> e -> has_timer c l) ->
  has_timer c (filter (fun t => t.1 <> e) l ++ new_timer e ns n).
Proof using Hgen.
  intros Hl Hc. destruct (decide (c = e)) as [->|Hne]; [by apply has_timer_new|].
  by apply has_timer_app, has_timer_filter, Hc.
Qed.

Lemma restart x e ns g : lasting ns -> inv x g ->
  wp (st_bind (deleteEventTimer e) (fun _ => addEventTimer e ns)) (fun _ => inv (cleared x e)) g.
Proof using Hgen.
  intros Hl [Hw Ha]. apply wp_bind. unfold wp at 1, deleteEventTimer, st_modify. unfold wp. rewrite add_timer. cbn.
  split; [by apply (wf_same g)|]. unfold armed in *. cbn.
  assert (forall c, (x <> Some c -> has_timer c (timers g)) -> cleared x e <> Some c ->
    has_timer c (filter (fun t => t.1 <> e) (timers g) ++ new_timer e ns (tick g))) as Hr.
  { intros c Hc [->|Hx]%cleared_ne; apply has_timer_restart; auto. }
  case_decide; [destruct Ha; split|]; auto.
Qed.

Lemma inv_cleared x e g : inv (cleared x e) g -> inv x g.
Proof using Type. unfold cleared, inv. case_decide; [|done]. intros [? ?]. eauto using armed_weaken. Qed.
Lemma inv_None x g : inv None g -> inv x g.
Proof using Type. intros [? ?]. split; [done|]. by apply armed_weaken. Qed.

Lemma keeps_restart x e ns : lasting ns -> keeps (inv x) (st_bind (deleteEventTimer e) (fun _ => addEventTimer e ns)).
Proof using Hgen. intros Hl g Hg. eapply wp_mono; [by apply restart|]. intros ? g'. apply inv_cleared. Qed.

Lemma keeps_startSyncIntervalTimer x ns : lasting ns -> keeps (inv x) (startSyncIntervalTimer ns).
Proof using Hgen.
  intros Hl. apply port_keeps_bind; [apply port_keeps_draw, stable_inv|]. intros b. apply keeps_if; intros _; [by apply keeps_restart|apply port_keeps_ret].
Qed.
Lemma startSyncIntervalTimer_spec ns x g : lasting ns -> inv x g ->
  wp (startSyncIntervalTimer ns) (fun _ => inv (cleared x SYNC_INTERVAL_TIMEOUT_EXPIRES)) g.
Proof using Hgen.
  intros Hl Hg. unfold startSyncIntervalTimer. apply wp_bind. unfold wp at 1, draw.
  assert (inv x (set_tick (S (tick g)) g)) as Hg' by (by apply (stable_inv x g)). destruct Hgen as [Hs|Hgen'].
  - destruct (env_lock (tick g)); [by apply restart|]. split; [apply Hg'|by apply armed_slack].
  - rewrite (gen_lock Hgen'). by apply restart.
Qed.
Lemma keeps_noncritical x e ns : critical e = false -> keeps (inv x) (st_bind (deleteEventTimer e) (fun _ => addEventTimer e ns)).
Proof using Hgen. intros. apply port_keeps_bind; [by apply keeps_delete|]. intros. apply keeps_add. Qed.

(** ** Handlers that leave the state of the port alone *)
Ltac stably := first [assumption | apply stable_inv].
Ltac same_step :=
  lazymatch goal with
  | |- keeps _ (st_ret _) => apply port_keeps_ret
  | |- keeps _ (mod_servo _) => apply keeps_servo; stably
  | |- keeps _ (mod_peer _) => apply keeps_peer; stably
  | |- keeps _ (out _) => apply keeps_out; stably
  | |- keeps _ (draw _) => apply port_keeps_draw; stably
  | |- keeps _ (inc_counter _) => apply keeps_counter; stably
  | |- keeps _ (mod_prt _) => apply keeps_prt; [stably|by intros ?; split_and!]
  | |- keeps _ (mod_clk _) => apply keeps_clk; [stably|by intros ?; split_and!]
  | |- keeps _ (addEventTimer _ _) => apply keeps_add
  | |- keeps _ (deleteEventTimer _) => apply keeps_delete; done
  end.
Ltac keep :=
  repeat lazymatch goal with
  | |- keeps _ (st_bind st_get _) => apply port_keeps_get; intros ? ?
  | |- keeps _ (st_bind (deleteEventTimer _) (fun _ => addEventTimer _ _)) => apply keeps_noncritical; done
  | |- keeps _ (st_bind _ _) => apply port_keeps_bind; [|intros ?]
  | |- keeps _ (if _ then _ else _) => apply keeps_if; intros ?
  | |- _ => first [same_step | solve [eauto with gptp]]
  end.

Lemma keeps_lift x {A} (o : outcome A) : (exists a, o = Done a) -> keeps (inv x) (st_lift o).
Proof using Type. intros [a ->] g Hg. done. Qed.

Lemma keeps_getDeviceTime P : stable P -> keeps P getDeviceTime.
Proof using Type. intros HP. unfold getDeviceTime. keep. Qed.
Lemma keeps_port_timestamp x f : keeps (inv x) (port_timestamp f).
Proof using Type. unfold port_timestamp. keep. Qed.
Lemma keeps_retry x n f r : keeps (inv x) (retry_timestamp n f r).
Proof using Type.
  revert r. induction n as [|n IH]; intros r; cbn [retry_timestamp]; [apply port_keeps_ret|].
  apply keeps_if; intros _; [apply port_keeps_ret|]. apply port_keeps_bind; [apply keeps_port_timestamp|auto].
Qed.
Lemma keeps_getTxTimestamp x s : keeps (inv x) (getTxTimestamp s).
Proof using Type.
  unfold getTxTimestamp. apply port_keeps_bind; [apply keeps_port_timestamp|]. intros r. apply port_keeps_bind; [apply keeps_retry|].
  intros [[? ?] ?]. keep.
Qed.
Lemma keeps_port_send x t f m e : keeps (inv x) (port_send t f m e).
Proof using Type. unfold port_send. keep. Qed.
Lemma keeps_sendEventPort x t f m : keeps (inv x) (sendEventPort t f m).
Proof using Type. unfold sendEventPort. apply port_keeps_bind; [apply keeps_port_send|]. intros. keep. Qed.
Lemma keeps_sendGeneralPort x t f m : keeps (inv x) (sendGeneralPort t f m).
Proof using Type. unfold sendGeneralPort. apply port_keeps_bind; [apply keeps_port_send|]. intros. keep. Qed.

Lemma build_frame_done m b : sized_common m -> sized_body b -> (frame_length b <= 256)%nat -> exists f, build_frame m b = Done f.
Proof using Type. intros. destruct (build_frame_spec m b) as (f & E & _); eauto. Qed.

Lemma keeps_send_event x m c k : sized_common m.1 -> sized_body m.2 -> (frame_length m.2 <= 256)%nat -> keeps (inv x) (send_event m c k).
Proof using Type.
  intros. unfold send_event. apply port_keeps_bind; [by apply keeps_lift, build_frame_done|]. intros.
  apply port_keeps_bind; [apply keeps_sendEventPort|]. intros. apply port_keeps_bind; [same_step|]. intros.
  apply port_keeps_bind; [apply keeps_getTxTimestamp|]. intros [? ?]. apply port_keeps_ret.
Qed.
Lemma keeps_send_general x m c : sized_common m.1 -> sized_body m.2 -> (frame_length m.2 <= 256)%nat -> keeps (inv x) (send_general m c).
Proof using Type.
  intros. unfold send_general. apply port_keeps_bind; [by apply keeps_lift, build_frame_done|]. intros. apply keeps_sendGeneralPort.
Qed.

Lemma new_common_sized g ty seq ctl a i : wf g -> sized_common (new_common g ty seq ctl a i).
Proof using Hset. intros []. split; [|done]. cbn. rewrite wf_port0. apply Hset. Qed.

Lemma wf_automotive g : wf g -> automotive g = false.
Proof using Hset. intros []. unfold automotive. rewrite wf_port0. apply Hset. Qed.

Lemma keeps_calcLocal P a b : stable P -> keeps P (calcLocalSystemClockRateDifference a b).
Proof using Type. intros HP. unfold calcLocalSystemClockRateDifference. keep. Qed.
Lemma keeps_calcMaster x a b : keeps (inv x) (calcMasterLocalClockRateDifference a b).
Proof using Type. unfold calcMasterLocalClockRateDifference. keep. Qed.
Lemma keeps_restartPDelayAll x : keeps (inv x) restartPDelayAll.
Proof using Type.
  unfold restartPDelayAll. apply port_keeps_get. intros g _. induction (number_ports _) as [|n IH]; cbn [Nat.iter]; [apply port_keeps_ret|].
  apply port_keeps_bind; [done|]. intros. same_step.
Qed.
Lemma keeps_setMasterOffset x a b c d e f i j k l : keeps (inv x) (setMasterOffset a b c d e f i j k l).
Proof using Type.
  unfold setMasterOffset. keep. apply keeps_restartPDelayAll.
Qed.
Lemma keeps_setAsCapable x b : keeps (inv x) (setAsCapable b).
Proof using Type. unfold setAsCapable. same_step. Qed.
Lemma keeps_startPDelay x : keeps (inv x) startPDelay.
Proof using Hgen. unfold startPDelay, startPDelayIntervalTimer. keep. Qed.
Lemma keeps_stopPDelay x : keeps (inv x) stopPDelay.
Proof using Type. unfold stopPDelay. keep. Qed.
Lemma keeps_startSyncReceipt x : keeps (inv x) startSyncReceipt.
Proof using Hgen. unfold startSyncReceipt, startSyncReceiptTimer. keep. Qed.
Lemma keeps_syncDone x : keeps (inv x) syncDone.
Proof using Hset Hgen.
  unfold syncDone. apply port_keeps_get. intros g [Hw _]. rewrite (wf_automotive g Hw). cbn [andb].
  apply port_keeps_bind; [apply port_keeps_ret|]. intros _. apply port_keeps_get. intros g' [Hw' _]. rewrite (wf_automotive g' Hw'). cbn [andb].
  apply port_keeps_bind; [apply port_keeps_ret|]. intros _. apply port_keeps_get. intros g'' _. apply keeps_if; intros _; [apply keeps_startPDelay|apply port_keeps_ret].
Qed.

#[local] Hint Resolve stable_inv keeps_getDeviceTime keeps_calcLocal keeps_calcMaster keeps_setMasterOffset keeps_setAsCapable
  keeps_startPDelay keeps_stopPDelay keeps_startSyncReceipt keeps_syncDone keeps_port_timestamp keeps_retry : gptp.

(** ** Becoming master and slave *)
#[local] Arguments addEventTimer : simpl never.
Lemma becomeMaster_spec g : wf g -> wp (becomeMaster true) (fun _ => inv None) g.
Proof using Hset Hgen.
  intros Hw. pose proof (wf_automotive g Hw) as Ha. pose proof Hw as []. unfold automotive in Ha.
  unfold becomeMaster, stopSyncReceiptTimer, startAnnounce, startAnnounceIntervalTimer, startSyncIntervalTimer, deleteEventTimer,
    mod_prt, mod_clk, st_modify, st_get, draw, wp, st_bind, automotive. cbn. rewrite Ha. cbn. rewrite add_timer. cbn.
  destruct (env_lock _) eqn:El; cycle 1.
  { split; [split; cbn; try done; set_solver|]. apply armed_slack. destruct Hgen as [?|Hgen']; [done|]. by rewrite (gen_lock Hgen') in El. }
  rewrite add_timer. cbn. split.
  - split; cbn; try done. set_solver.
  - unfold armed. cbn. split; intros _.
    + apply has_timer_new. by right.
    + apply has_timer_app, has_timer_filter; [done|]. apply has_timer_new. by right.
Qed.

Lemma becomeSlave_spec r g : wf g -> wp (becomeSlave r) (fun _ => inv None) g.
Proof using Hset Hgen.
  intros Hw. pose proof (wf_automotive g Hw) as Ha. pose proof Hw as []. unfold automotive in Ha.
  unfold becomeSlave, deleteEventTimer, mod_servo, mod_prt, mod_clk, st_modify, st_get, wp, st_bind, automotive. cbn. rewrite Ha. cbn.
  rewrite add_timer. cbn. destruct r; cbn; (split; [split; cbn; try done; set_solver|]); unfold armed; cbn; intros _;
    by apply has_timer_new, receipt_cast_lasting.
Qed.

Lemma keeps_becomeMaster x : keeps (inv x) (becomeMaster true).
Proof using Hset Hgen. intros g [Hw _]. eapply wp_mono; [by apply becomeMaster_spec|]. intros ? g'. apply inv_None. Qed.
Lemma keeps_becomeSlave x r : keeps (inv x) (becomeSlave r).
Proof using Hset Hgen. intros g [Hw _]. eapply wp_mono; [by apply becomeSlave_spec|]. intros ? g'. apply inv_None. Qed.
#[local] Hint Resolve keeps_becomeMaster keeps_becomeSlave : gptp.

Lemma wf_set_state s g : wf g -> s ∈ [PTP_INITIALIZING; PTP_MASTER; PTP_SLAVE] -> wf (set_prt (set_port_state s (prt g)) g).
Proof using Type. intros [] ?. by split. Qed.

Lemma keeps_recommendState s b : s = PTP_MASTER \/ s = PTP_SLAVE -> keeps (inv None) (recommendState s b).
Proof using Hset Hgen.
  intros Hs. unfold recommendState. apply port_keeps_get. intros g Hg. apply port_keeps_bind; [|intros r; keep].
  destruct Hs as [-> | ->]; case_decide.
  - apply port_keeps_ret.
  - intros g1 [Hw _]. apply wp_bind. unfold wp at 1, mod_prt, st_modify. apply wp_bind.
    eapply wp_mono; [apply becomeMaster_spec, wf_set_state; [done|set_solver]|]. done.
  - keep.
  - keep.
Qed.

Lemma keeps_recommend_ports n e b : (forall a, e = Some a -> length (grandmasterIdentity a) = 8%nat) -> keeps (inv None) (recommend_ports n e b).
Proof using Hset Hgen.
  revert e. induction n as [|n IH]; intros e He; cbn [recommend_ports]; [apply port_keeps_ret|].
  apply port_keeps_get. intros g Hg. apply keeps_if; intros _; [by apply IH|].
  apply keeps_if; intros _.
  { apply port_keeps_bind; [apply keeps_recommendState; by left|]. intros. by apply IH. }
  apply port_keeps_bind; [|intros; by apply IH].
  destruct e as [a|]; [|apply keeps_recommendState; by left].
  case_decide; [|apply keeps_recommendState; by left].
  apply port_keeps_bind; [apply keeps_recommendState; by right|]. intros _ g1 [[] Ha]. split; [|done]. split; try done. cbn. by apply He.
Qed.

Lemma find_EBest_sized n g e a :
  wf g -> (forall a, e = Some a -> length (grandmasterIdentity a) = 8%nat) -> find_EBest n g e = Some a -> length (grandmasterIdentity a) = 8%nat.
Proof using Type.
  intros Hw. revert e. induction n as [|n IH]; intros e He; cbn [find_EBest]; [apply He|]. apply IH. intros a'.
  destruct (ignoring g); [apply He|]. destruct e as [e|], (qualified_announce (prt g)) as [q|] eqn:Hq; try done; try apply He.
  - destruct (announce_isBetterThan q e); intros [= <-]; [by apply Hw|by apply He].
  - intros [= <-]. by apply Hw.
Qed.

Lemma keeps_gm gm : length (gm_identity gm) = 8%nat -> forall x, keeps (inv x) (mod_clk (set_grandmaster gm)).
Proof using Type. intros Hl x g [[] Ha]. split; [|done]. by split. Qed.

Lemma keeps_processStateChange : keeps (inv None) processStateChange.
Proof using Hset Hgen.
  unfold processStateChange. apply port_keeps_get. intros g [Hw Ha]. apply keeps_if; intros _; [apply port_keeps_ret|].
  destruct (find_EBest _ g None) as [a|] eqn:E; [|apply port_keeps_ret].
  assert (length (grandmasterIdentity a) = 8%nat) as Hl by (eapply (find_EBest_sized _ g None); [done|done|exact E]).
  apply port_keeps_bind; [keep|]. intros _. apply port_keeps_bind.
  { apply keeps_if; intros _; [|apply port_keeps_ret]. apply keeps_gm. cbn. rewrite (wf_clock g Hw). apply Hset. }
  intros _. apply port_keeps_bind; [apply keeps_recommend_ports; by intros ? [= <-]|]. intros. apply port_keeps_ret.
Qed.

(** The timeout of the Announces, or of the Syncs: the port becomes master, and its timers run. *)
Lemma processSyncAnnounceTimeout_spec e g :
  e = ANNOUNCE_RECEIPT_TIMEOUT_EXPIRES \/ e = SYNC_RECEIPT_TIMEOUT_EXPIRES ->
  inv (if decide (e = ANNOUNCE_RECEIPT_TIMEOUT_EXPIRES) then Some e else None) g ->
  wp (processSyncAnnounceTimeout e) (fun _ => inv None) g.
Proof using Hset Hgen.
  intros He Hg. unfold processSyncAnnounceTimeout. apply wp_bind, wp_get.
  pose proof Hg as [Hw _]. rewrite (wf_clock g Hw). rewrite (proj2 (Z.eqb_neq _ _) (set_prio Hset)).
  apply wp_bind. apply (wp_mono _ (fun _ g' => inv None g' /\ port_state (prt g') = port_state (prt g))).
  { case_decide as He'.
    - subst e. unfold wp. rewrite add_timer. split; [|done]. destruct Hg as [_ Ha].
      split; [by apply (wf_same g)|]. unfold armed in *. cbn. case_decide.
      + destruct Ha as [H1 H2]. split; intros _; apply has_timer_app; [apply H1|apply H2]; done.
      + intros _. apply has_timer_new, receipt_cast_lasting, Hw.
    - destruct He as [->|He]; [congruence|]. pose proof (keeps_startSyncReceipt None g Hg) as K. unfold wp in *.
      unfold startSyncReceipt, startSyncReceiptTimer, st_bind, st_get, deleteEventTimer, st_modify in *.
      rewrite add_timer in *. done. }
  intros ? g1 [Hg1 Es]. clear Hg. case_decide; [exact Hg1|].
  apply wp_bind. unfold mod_clk at 1, wp at 1, st_modify.
  apply wp_bind. unfold mod_prt at 1, wp at 1, st_modify. cbn.
  set (g2 := set_prt _ _).
  assert (wf g2 /\ port_state (prt g2) = PTP_MASTER) as Hg2.
  { split; [|done]. unfold g2. destruct Hg1 as [[] _]. split; cbn; try done; [set_solver|apply Hset]. }
  clearbody g2.
  assert (stable (fun g => wf g /\ port_state (prt g) = PTP_MASTER)) as HM.
  { intros ga gb E1 E2 E3 E4 E5 E6 E7 E8 [? ?]. split; [by eapply wf_same|congruence]. }
  apply wp_bind. eapply wp_mono; [by apply (keeps_getDeviceTime _ HM)|]. intros [st dt] g3 Hg3.
  apply wp_bind. eapply wp_mono; [by apply (keeps_calcLocal _ _ _ HM)|]. intros ? g4 [Hw4 Hm4].
  apply wp_bind. unfold mod_prt at 1, wp at 1, st_modify. apply wp_bind. unfold wp at 1. rewrite add_timer.
  unfold startAnnounce, startAnnounceIntervalTimer. apply wp_bind, wp_bind. unfold wp at 1, deleteEventTimer, st_modify.
  unfold wp at 1. rewrite add_timer. cbn. split; [destruct Hw4; by split|]. unfold armed. cbn. rewrite Hm4. cbn.
  split; intros _; [|apply has_timer_new; by right]. apply has_timer_app, has_timer_filter; [done|]. apply has_timer_new. by right.
Qed.

(** ** Messages *)
Lemma delete_spec e g : inv None g -> wp (deleteEventTimer e) (fun _ => inv (Some e)) g.
Proof using Type.
  intros [Hw Ha]. split; [by apply (wf_same g)|]. unfold armed in *. cbn. 
  case_decide; [destruct Ha as [H1 H2]; split|]; intros Hx; (apply has_timer_filter; [congruence|auto]).
Qed.
Lemma add_spec e ns g : lasting ns -> inv (Some e) g -> wp (addEventTimer e ns) (fun _ => inv None) g.
Proof using Hgen.
  intros Hl [Hw Ha]. unfold wp. rewrite add_timer. split; [by apply (wf_same g)|]. unfold armed in *. cbn.
  assert (forall c, (Some e <> Some c -> has_timer c (timers g)) -> has_timer c (timers g ++ new_timer e ns (tick g))) as Ht.
  { intros c Hc. destruct (decide (c = e)) as [->|]; [by apply has_timer_new|]. apply has_timer_app, Hc. congruence. }
  case_decide; [destruct Ha; split|]; auto.
Qed.

Lemma keeps_qualified x a : length (grandmasterIdentity a) = 8%nat -> keeps (inv x) (mod_prt (set_qualified_announce (Some a))).
Proof using Type. intros Hl g [[] Ha]. split; [|done]. split; try done. cbn. by intros ? [= <-]. Qed.

Lemma keeps_process_announce m a : rx_sized m (Announce a) -> keeps (inv None) (process_announce m a).
Proof using Hgen.
  intros [_ Hl]. unfold process_announce. apply port_keeps_bind; [keep|]. intros _ g Hg.
  apply wp_bind. eapply wp_mono; [by apply delete_spec|]. intros ? g1 Hg1. apply wp_bind, wp_get. apply wp_bind.
  eapply wp_mono.
  { apply (keeps_if (inv (Some ANNOUNCE_RECEIPT_TIMEOUT_EXPIRES))); [intros _|intros _; apply port_keeps_ret|exact Hg1].
    apply port_keeps_bind; [by apply keeps_qualified|]. intros. keep. }
  intros ? g2 Hg2. apply add_spec; [apply receipt_ns_lasting, Hg1|done].
Qed.

Lemma keeps_process_sync m : keeps (inv None) (process_sync m).
Proof using Type. unfold process_sync. keep. Qed.

Lemma keeps_getTimestampVersion x : keeps (inv x) getTimestampVersion.
Proof using Hset. unfold getTimestampVersion. apply port_keeps_get. intros g [[] _]. rewrite wf_port0, (set_hw Hset). keep. Qed.

Lemma keeps_followup_at m t tlv ts : keeps (inv None) (process_followup_at m t tlv ts).
Proof using Hset Hgen.
  unfold process_followup_at, slave_followup. keep. destruct a1 as [st dt]. keep.
Qed.

Lemma keeps_process_followup m t tlv : keeps (inv None) (process_followup m t tlv).
Proof using Hset Hgen.
  unfold process_followup, stopSyncReceiptTimer. apply port_keeps_bind; [keep|]. intros _. apply port_keeps_get. intros g _.
  apply keeps_if; intros _; [apply port_keeps_ret|]. destruct (last_sync (prt g)) as [sync|]; [|apply port_keeps_ret].
  apply port_keeps_bind; [|intros; keep]. apply keeps_if; intros _.
  - apply port_keeps_bind; [unfold incWrongSeqIDCounter; keep|]. intros. keep.
  - apply port_keeps_bind; [apply keeps_getTimestampVersion|]. intros v. apply keeps_if; intros _; [apply keeps_followup_at|apply port_keeps_ret].
Qed.

Lemma keeps_process_pdelay_req m : rx_sized m PathDelayReq -> keeps (inv None) (process_pdelay_req m).
Proof using Hset.
  intros [Hl _]. unfold process_pdelay_req. apply port_keeps_get. intros g [Hw _]. apply keeps_if; intros _; [apply port_keeps_ret|].
  apply port_keeps_bind; [same_step|]. intros _. apply port_keeps_bind.
  - apply keeps_send_event; [by apply new_common_sized|done|by apply Nat.leb_le].
  - intros [resp ok]. apply port_keeps_bind; [|intros; same_step].
    apply keeps_send_general; [by apply new_common_sized|done|by apply Nat.leb_le].
Qed.

Lemma keeps_process_pdelay_resp m : keeps (inv None) (process_pdelay_resp m).
Proof using Hgen.
  unfold process_pdelay_resp, check_duplicate. apply port_keeps_get. intros g _. apply keeps_if; intros _; [apply port_keeps_ret|].
  apply port_keeps_bind; [same_step|]. intros _. apply port_keeps_bind; [same_step|]. intros got. apply keeps_if; intros _; [apply port_keeps_ret|].
  apply port_keeps_bind; [|intros; same_step]. destruct (last_pdelay_resp (peer (prt g))); keep.
Qed.

Lemma keeps_process_pdelay_fup m r t : keeps (inv None) (process_pdelay_fup m r t).
Proof using Hgen.
  unfold process_pdelay_fup. apply port_keeps_get. intros g _. apply keeps_if; intros _; [apply port_keeps_ret|].
  apply port_keeps_bind; [same_step|]. intros _. apply port_keeps_bind; [same_step|]. intros got. apply keeps_if; intros _; [apply port_keeps_ret|].
  apply port_keeps_bind; [keep|]. intros _. destruct (match_exchange _ _ _ _ _); unfold take_link_delay; keep.
Qed.

(** A signalling message that asks for intervals a timer can keep. *)
Definition special (n : Z) : Prop := n = sigMsgInterval_Initial \/ n = sigMsgInterval_NoSend \/ n = sigMsgInterval_NoChange.
Definition moderate_signal (tlv : SignallingTLV) : Prop :=
  let sync := signed 8 (timeSyncInterval tlv) in
  let annc := signed 8 (announceInterval tlv) in
  (special sync \/ itv_range sync) /\ (special annc \/ itv_range annc).
Definition calm_signal (tlv : SignallingTLV) : Prop := slack = true \/ moderate_signal tlv.

Lemma keeps_sync_interval x n : itv n -> keeps (inv x) (mod_prt (set_log_mean_sync_interval n)).
Proof using Type. intros Hn g [[] Ha]. split; [|done]. by split. Qed.
Lemma keeps_annc_interval x n : itv n -> keeps (inv x) (mod_prt (set_log_mean_announce_interval n)).
Proof using Type. intros Hn g [[] Ha]. split; [|done]. by split. Qed.

Lemma keeps_process_signalling tlv : calm_signal tlv -> keeps (inv None) (process_signalling tlv).
Proof using Hset Hgen.
  intros Hcs. assert ((special (signed 8 (timeSyncInterval tlv)) \/ itv (signed 8 (timeSyncInterval tlv))) /\
    (special (signed 8 (announceInterval tlv)) \/ itv (signed 8 (announceInterval tlv)))) as [Hs Ha].
  { unfold itv. destruct Hcs as [Hsl|[[Hs|Hs] [Ha|Ha]]]; auto. }
  unfold process_signalling, startPDelayIntervalTimer, startAnnounceIntervalTimer.
  set (sync := signed 8 (timeSyncInterval tlv)) in *. set (annc := signed 8 (announceInterval tlv)) in *.
  apply port_keeps_bind; [keep|]. intros _. apply port_keeps_bind.
  - apply keeps_if; intros E1.
    + apply port_keeps_get. intros g [[] _]. rewrite wf_port0. pose proof (set_itv Hset).
      apply port_keeps_bind; [by apply keeps_sync_interval|]. intros _. by apply keeps_startSyncIntervalTimer, interval_ns_lasting.
    + apply keeps_if; intros E2; [apply port_keeps_ret|]. assert (itv sync) by (destruct Hs as [[|[|]]|]; [lia..|done]).
      apply port_keeps_bind; [by apply keeps_sync_interval|]. intros _. by apply keeps_startSyncIntervalTimer, interval_ns_lasting.
  - intros _. apply port_keeps_get. intros g _. apply keeps_if; intros _; [apply port_keeps_ret|].
    apply keeps_if; intros E2; [apply port_keeps_ret|]. assert (itv annc) by (destruct Ha as [[|[|]]|]; [lia..|done]).
    apply port_keeps_bind; [by apply keeps_annc_interval|]. intros _. by apply keeps_restart, interval_ns_lasting.
Qed.

Lemma keeps_dispatch m b : rx_sized m b -> (forall z tlv, b = Signalling z tlv -> calm_signal tlv) -> keeps (inv None) (dispatch (m, b)).
Proof using Hset Hgen.
  intros Hr Hs. unfold dispatch. destruct b.
  - apply keeps_process_sync.
  - apply keeps_process_followup.
  - by apply keeps_process_pdelay_req.
  - apply keeps_process_pdelay_resp.
  - apply port_keeps_bind; [apply keeps_process_pdelay_fup|]. intros. apply port_keeps_ret.
  - by apply keeps_process_announce.
  - by eapply keeps_process_signalling, Hs.
Qed.

(** An Announce that takes the decoder past the buffer. *)
Definition overlong (buf : list Z) (size : Z) : bool := traced buf size && bool_decide (7 < path_count buf size)%nat.

(** A frame in the buffer of the receiving thread that asks for intervals a timer can keep. *)
Definition moderate_frame (buf : list Z) (size : Z) : Prop :=
  forall ts cnt m z tlv, decode_message buf size ts cnt = Done (RxMessage m (Signalling z tlv)) -> moderate_signal tlv.
Definition calm_frame (buf : list Z) (size : Z) : Prop := length buf = 128%nat /\ (slack = true \/ moderate_frame buf size).

Lemma calm_frame_signal buf size ts cnt m z tlv :
  calm_frame buf size -> decode_message buf size ts cnt = Done (RxMessage m (Signalling z tlv)) -> calm_signal tlv.
Proof using Type. intros [_ [?|Hm]] E; [by left|right]. by eapply Hm. Qed.

Lemma decode_outcome buf size ts cnt : length buf = 128%nat ->
  exists h, read_head buf = Done h /\ if overlong buf size then decode_rest h buf size ts cnt = Fault OutOfBounds
    else exists r, decode_rest h buf size ts cnt = Done r.
Proof using Type.
  intros Hlen. pose proof (decode_bounds buf size ts cnt Hlen) as D. fold (overlong buf size) in D. unfold decode_message in D.
  assert (exists h, read_head buf = Done h) as [h Eh].
  { unfold read_head, rd_PortIdentity, PTP_CLOCK_IDENTITY_LENGTH. rewrite !rd_int_in, rd_slice by lia. obind. eauto. }
  rewrite Eh in D. exists h. split; [done|]. by destruct (overlong buf size).
Qed.

Lemma bind_goes {A B} (m : stM GPTP A) (k : A -> stM GPTP B) g a g' : m g = Done (a, g') -> st_bind m k g = k a g'.
Proof using Type. unfold st_bind. by intros ->. Qed.
Lemma bind_faults {A B} (m : stM GPTP A) (k : A -> stM GPTP B) g w : m g = Fault w -> st_bind m k g = Fault w.
Proof using Type. unfold st_bind. by intros ->. Qed.

Lemma processMessage_spec buf size remote speed g : calm_frame buf size -> inv None g ->
  (processMessage buf size remote speed g = Fault OutOfBounds /\ overlong buf size = true) \/
  wp (processMessage buf size remote speed) (fun _ => inv None) g.
Proof using Hset Hgen.
  intros Hcf Hg. pose proof (fun ts cnt => decode_outcome buf size ts cnt (proj1 Hcf)) as Hdec.
  destruct (Hdec (newTimestamp 0 0 0) 0) as (h & Eh & _). unfold processMessage, buildPTPMessage.
  set (stamp := if Z.shiftr (h_type h) 3 =? 0 then let! r := port_timestamp env_rx in retry_timestamp RX_ITER env_rx r
    else st_ret (0, newTimestamp 0 0 0, 0)).
  assert (wp stamp (fun _ => inv None) g) as Hst.
  { subst stamp. destruct (_ =? 0); [|done]. apply port_keeps_bind; [apply keeps_port_timestamp|intros; apply keeps_retry|done]. }
  apply wp_done in Hst as ([[ts_good ts] cnt] & g1 & E1 & Hg1).
  destruct (Hdec ts cnt) as (h' & Eh' & Er). rewrite Eh in Eh'. injection Eh' as <-.
  destruct (negb (ts_good =? 0)) eqn:En.
  { right. apply wp_bind, wp_bind. rewrite Eh. eapply wp_lift; [done|]. apply wp_bind. eapply wp_intro; [exact E1|]. cbv beta iota. rewrite En. by apply wp_ret. }
  destruct (overlong buf size).
  { left. split; [|done]. apply bind_faults. erewrite bind_goes; [|unfold st_lift; by rewrite Eh]. erewrite bind_goes; [|exact E1].
    cbv beta iota. rewrite En. apply bind_faults. unfold st_lift. by rewrite Er. }
  right. destruct Er as [r Er]. apply wp_bind. eapply (wp_mono _ (fun r g' => inv None g' /\
    forall m b, r = Some (m, b) -> rx_sized m b /\ forall z tlv, b = Signalling z tlv -> calm_signal tlv)).
  { apply wp_bind. rewrite Eh. eapply wp_lift; [done|]. apply wp_bind. eapply wp_intro; [exact E1|]. cbv beta iota. rewrite En.
    apply wp_bind. rewrite Er. eapply wp_lift; [done|]. destruct r as [m b|d]; apply wp_bind;
      (apply (wp_mono _ (fun _ => inv None)); [apply (keeps_if (inv None)); [intros _; same_step|intros _; apply port_keeps_ret|done]|]);
      [|by intros ? g2 Hg2].
    intros ? g2 Hg2. split; [done|]. intros ? ? [= <- <-]. split; [eapply decode_rest_sized; [by eapply read_head_sized|done]|].
    intros z tlv ->. eapply (calm_frame_signal buf size ts cnt m z tlv); [done|]. unfold decode_message. by rewrite Eh. }
  intros [[m b]|] g2 [Hg2 Hr]; [|done]. destruct (Hr m b eq_refl) as [Hrx Hcs].
  apply wp_bind, wp_get. apply keeps_dispatch; [|done|done]. destruct (Z.land _ 1 =? 0); exact Hrx.
Qed.

(** ** Events *)
Lemma inv_noncritical e g : critical e = false -> inv (Some e) g -> inv None g.
Proof using Type.
  intros He [Hw Ha]. split; [done|]. unfold armed in *. case_decide; [destruct Ha as [H1 H2]; split|]; intros _;
    [apply H1|apply H2|apply Ha]; intros [= ->]; done.
Qed.

Lemma keeps_send_announce x : keeps (inv x) send_announce.
Proof using Hset.
  unfold send_announce. apply port_keeps_get. intros g [Hw _]. apply port_keeps_bind; [same_step|]. intros _.
  apply port_keeps_bind; [|intros; same_step]. apply keeps_send_general; [by apply new_common_sized| |by apply Nat.leb_le].
  cbn. split; [apply Hw|]. repeat constructor. rewrite (wf_clock g Hw). apply Hset.
Qed.

Lemma keeps_send_signalling x a b c : keeps (inv x) (send_signalling a b c).
Proof using Type.
  unfold send_signalling. apply port_keeps_get. intros g _. apply port_keeps_bind; [same_step|]. intros _.
  apply port_keeps_bind; [same_step|]. intros z. apply keeps_send_general; [done|done|by apply Nat.leb_le].
Qed.

Lemma keeps_ether_sync_interval x : keeps (inv x) ether_sync_interval.
Proof using Hset.
  unfold ether_sync_interval. apply port_keeps_get. intros g [Hw _]. apply port_keeps_bind; [same_step|]. intros _.
  apply port_keeps_bind; [apply keeps_send_event; [by apply new_common_sized|done|by apply Nat.leb_le]|]. intros [s ok].
  rewrite (wf_automotive g Hw). cbn [andb]. apply port_keeps_bind; [apply port_keeps_ret|]. intros _.
  apply keeps_if; intros _; [|apply port_keeps_ret]. apply port_keeps_get. intros g' [Hw' _]. apply port_keeps_bind; [same_step|]. intros _.
  apply keeps_send_general; [by apply new_common_sized|done|by apply Nat.leb_le].
Qed.

Lemma keeps_ether_pdelay_interval x : keeps (inv x) ether_pdelay_interval.
Proof using Hset Hgen.
  unfold ether_pdelay_interval, startPDelayIntervalTimer. apply port_keeps_get. intros g [Hw _]. apply port_keeps_bind; [same_step|]. intros _.
  apply port_keeps_bind; [|intros; keep]. apply keeps_if; intros _; [|apply port_keeps_ret].
  apply port_keeps_bind; [apply keeps_send_event; [by apply new_common_sized|done|by apply Nat.leb_le]|]. intros [s ok]. same_step.
Qed.

Lemma keeps_local_offsets x : keeps (inv x) local_offsets.
Proof using Type.
  unfold local_offsets. apply port_keeps_bind; [keep|]. intros [st dt]. keep.
Qed.

Lemma keeps_sync_rate x : keeps (inv x) ether_sync_rate.
Proof using Hset Hgen.
  unfold ether_sync_rate. apply port_keeps_bind; [same_step|]. intros _. apply port_keeps_get. intros g [Hw _]. apply port_keeps_bind.
  - intros g1 [[] Ha]. split; [|done]. split; try done. cbn. rewrite (wf_port g Hw). apply Hset.
  - intros _. apply keeps_if; intros _; [|apply port_keeps_ret]. apply port_keeps_bind; [apply keeps_send_signalling|]. intros. keep.
Qed.

Lemma keeps_resume x : keeps (inv x) resume_state.
Proof using Hset Hgen. unfold resume_state. apply port_keeps_get. intros g _. apply keeps_if; intros _; [keep|]. case_decide; keep. Qed.
#[local] Hint Resolve keeps_resume : gptp.

Lemma keeps_powerup x : keeps (inv x) ether_powerup.
Proof using Hset Hgen.
  unfold ether_powerup. apply port_keeps_get. intros g [Hw _]. rewrite (wf_automotive g Hw). keep.
Qed.

Lemma keeps_linkup x : keeps (inv x) ether_linkup.
Proof using Hset Hgen.
  unfold ether_linkup. apply port_keeps_bind; [keep|]. intros _. apply port_keeps_bind; [keep|]. intros _. apply port_keeps_bind; [keep|]. intros _.
  apply port_keeps_get. intros g [Hw _]. rewrite (wf_automotive g Hw). keep.
Qed.

(** The port is told to go on with a measurement it has not kept. *)
Definition nothing_deferred (g : GPTP) : Prop :=
  match last_pdelay_resp_fwup (peer (prt g)) with Some (_, PathDelayRespFollowUp _ _) => False | _ => True end.

Lemma ether_deferred_spec g : inv None g ->
  (ether_deferred g = Fault Exited /\ nothing_deferred g) \/ wp ether_deferred (fun _ => inv None) g.
Proof using Hgen.
  intros Hg. unfold nothing_deferred. destruct (last_pdelay_resp_fwup (peer (prt g))) as [[m b]|] eqn:E.
  - destruct b; try (left; unfold ether_deferred, st_bind, st_get; rewrite E; done).
    right. unfold ether_deferred. apply wp_bind, wp_get. rewrite E. apply wp_bind.
    eapply wp_mono; [by apply keeps_process_pdelay_fup|]. intros gc g1 Hg1. by apply (keeps_if (inv None)); [intros _; same_step|intros _; apply port_keeps_ret|].
  - left. unfold ether_deferred, st_bind, st_get. rewrite E. done.
Qed.

Lemma keeps_no_value x : keeps (inv x) no_value.
Proof using Type. unfold no_value. keep. Qed.

#[local] Hint Resolve keeps_no_value keeps_powerup keeps_linkup keeps_ether_pdelay_interval keeps_sync_rate : gptp.

(** The events that are handled by the part of the port for Ethernet alone. *)
Lemma keeps_ether e :
  e <> PDELAY_DEFERRED_PROCESSING -> e <> SYNC_INTERVAL_TIMEOUT_EXPIRES -> keeps (inv None) (ether_processEvent e).
Proof using Hset Hgen.
  intros He1 He2. unfold ether_processEvent. apply port_keeps_get. intros g _. destruct e; try done; keep.
Qed.

Lemma processEvent_spec e g : inv (Some e) g ->
  (e = PDELAY_DEFERRED_PROCESSING /\ processEvent e g = Fault Exited /\ nothing_deferred g) \/
  wp (processEvent e) (fun _ => inv None) g.
Proof using Hset Hgen.
  intros Hg. destruct (critical e) eqn:Hc.
  - right. destruct e; try done; unfold processEvent.
    + apply wp_bind, wp_get. apply wp_bind. apply (wp_mono _ (fun _ => inv (Some SYNC_INTERVAL_TIMEOUT_EXPIRES))).
      { apply keeps_if; [intros _|intros _; apply port_keeps_ret|done]. apply port_keeps_get. intros g' _.
        apply port_keeps_bind; [apply keeps_ether_sync_interval|]. intros. apply keeps_no_value. }
      intros ret g1 Hg1. apply (keeps_then _ _ _ _ _ (keeps_local_offsets _) Hg1). intros ? g2 Hg2.
      apply (keeps_then _ _ _ _ _ (keeps_syncDone _) Hg2). intros ? g3 Hg3. apply wp_bind, wp_get, wp_bind.
      eapply wp_mono; [apply startSyncIntervalTimer_spec; [apply pow2_ns_lasting, Hg3|done]|]. done.
    + apply (keeps_then _ _ _ _ _ (keeps_counter _ (stable_inv _) _) Hg). intros ? g1 Hg1.
      apply wp_bind, wp_bind, wp_get. rewrite (wf_automotive g1 (proj1 Hg1)). apply wp_ret.
      apply processSyncAnnounceTimeout_spec; [by left|done].
    + apply wp_bind, wp_get. apply wp_bind. apply (wp_mono _ (fun _ => inv (Some ANNOUNCE_INTERVAL_TIMEOUT_EXPIRES))).
      { apply keeps_if; [intros _; apply keeps_send_announce|intros _; apply port_keeps_ret|done]. }
      intros ? g1 Hg1. apply wp_bind. eapply wp_mono; [apply restart; [apply pow2_ns_lasting, Hg|done]|]. done.
  - apply inv_noncritical in Hg; [|done]. destruct (decide (e = PDELAY_DEFERRED_PROCESSING)) as [->|Hne].
    + unfold processEvent, ether_processEvent. destruct (ether_deferred_spec g Hg) as [[E ?]|E].
      * left. split_and!; try done. unfold st_bind, st_get. by rewrite E.
      * right. apply wp_bind, wp_get, wp_bind. eapply wp_mono; [done|]. intros ? g1 Hg1. by apply keeps_no_value.
    + right. revert g Hg. change (keeps (inv None) (processEvent e)). destruct e; try done; unfold processEvent; try by apply keeps_ether.
      * apply port_keeps_bind; [apply keeps_resume|]. intros. by apply keeps_ether.
      * apply port_keeps_bind; [apply keeps_resume|]. intros. by apply keeps_ether.
      * apply port_keeps_bind; [by apply keeps_ether|]. intros ret. apply keeps_if; intros _; [apply port_keeps_ret|apply keeps_processStateChange].
      * apply port_keeps_bind; [same_step|]. intros _ g Hg. apply wp_bind, wp_bind, wp_get. rewrite (wf_automotive g (proj1 Hg)). apply wp_ret.
        apply processSyncAnnounceTimeout_spec; [by right|done].
Qed.

(** ** Inputs *)
Definition calm (i : Input) : Prop := match i with Received buf size _ => calm_frame buf size | _ => True end.

Lemma has_timer_delete c e us k l : l !! k = Some (e, us) -> c <> e -> has_timer c l -> has_timer c (delete k l).
Proof using Type.
  intros Hk Hne [?|(us' & Hin & ?)]; [by left|]. right. exists us'. split; [|done]. apply list_elem_of_lookup in Hin as [j Hj].
  assert (j <> k) by congruence. apply list_elem_of_lookup. destruct (decide (j < k)%nat).
  - exists j. by rewrite list_lookup_delete_lt.
  - exists (pred j). rewrite list_lookup_delete_ge by lia. by replace (S (pred j)) with j by lia.
Qed.

Lemma expired_inv g k e us : inv None g -> timers g !! k = Some (e, us) -> inv (Some e) (set_timers (delete k (timers g)) g).
Proof using Type.
  intros [Hw Ha] Hk. split; [by apply (wf_same g)|]. unfold armed in *. cbn.
  case_decide; [destruct Ha as [H1 H2]; split|]; intros Hx; (eapply has_timer_delete; [done|congruence|auto]).
Qed.

(** An expired timer finds no measurement to go on with. *)
Definition lost_measurement (i : Input) (g : GPTP) : Prop :=
  exists k us, i = Expired k /\ timers g !! k = Some (PDELAY_DEFERRED_PROCESSING, us) /\ nothing_deferred g.

(** The two ways in which an input ends the program. *)
Definition stops (i : Input) (g : GPTP) (w : fault) : Prop :=
  (w = Exited /\ lost_measurement i g) \/
  (w = OutOfBounds /\ exists buf size remote, i = Received buf size remote /\ overlong buf size = true).

Lemma gptp_do_spec i g : calm i -> inv None g ->
  (exists w, gptp_do i g = Fault w /\ stops i g w) \/ wp (gptp_do i) (fun _ => inv None) g.
Proof using Hset Hgen.
  intros Hi Hg. destruct i as [k|buf size remote|speed|up|]; unfold gptp_do.
  - destruct (timers g !! k) as [[e us]|] eqn:Hk.
    2:{ right. apply wp_bind, wp_get. by rewrite Hk. }
    destruct (us =? 0) eqn:Hus; [right; apply wp_bind, wp_get; by rewrite Hk, Hus|].
    pose proof (expired_inv g k e us Hg Hk) as Hx. destruct (processEvent_spec e _ Hx) as [(-> & E & Hn)|E].
    + left. exists Exited. split; [|left; split; [done|by exists k, us]]. unfold st_bind, st_get, st_modify. by rewrite Hk, Hus, E.
    + right. apply wp_bind, wp_get. rewrite Hk, Hus. apply wp_bind, wp_modify, wp_bind. eapply wp_mono; [exact E|]. done.
  - destruct (processMessage_spec buf size remote (link_speed (prt g)) g Hi Hg) as [[E Ho]|E]; [left|right].
    + exists OutOfBounds. split; [unfold st_bind, st_get; by rewrite E|]. right. split; [done|]. by exists buf, size, remote.
    + apply wp_bind, wp_get. exact E.
  - right. apply wp_bind, wp_get. by apply (keeps_prt _ (stable_inv None)).
  - right. apply wp_bind, wp_get. unfold link_event. apply wp_bind, wp_get. case_decide; [done|].
    apply (keeps_then _ _ _ _ _ (keeps_prt _ (stable_inv None) (set_linkUp up) ltac:(done)) Hg). intros ? g1 Hg1.
    apply wp_bind. destruct (processEvent_spec (if up then LINKUP else LINKDOWN) g1 (inv_None _ _ Hg1)) as [(E & _)|E]; [by destruct up|].
    eapply wp_mono; [exact E|]. done.
  - right. apply wp_bind, wp_get, wp_bind. destruct (processEvent_spec FAULT_DETECTED g (inv_None _ _ Hg)) as [(E & _)|E]; [done|].
    eapply wp_mono; [exact E|]. done.
Qed.

Lemma gptp_run_spec l g : Forall calm l -> inv None g ->
  (exists g', gptp_run l g = Done (tt, g') /\ inv None g') \/
  (exists w l1 i l2 g1, gptp_run l g = Fault w /\ l = l1 ++ i :: l2 /\ gptp_run l1 g = Done (tt, g1) /\ stops i g1 w).
Proof using Hset Hgen.
  intros Hl. revert g. induction Hl as [|i l Hi Hl IH]; intros g Hg; [left; by exists g|]. cbn [gptp_run].
  destruct (gptp_do_spec i g Hi Hg) as [(w & E & Hm)|E].
  - right. exists w, [], i, l, g. split; [unfold st_bind; by rewrite E|done].
  - apply wp_done in E as ([] & g1 & E & Hg1). destruct (IH g1 Hg1) as [(g' & E' & ?)|(w & l1 & j & l2 & g2 & E' & -> & E2 & ?)].
    + left. exists g'. split; [|done]. unfold st_bind. by rewrite E.
    + right. exists w, (i :: l1), j, l2, g2. split; [unfold st_bind; by rewrite E|]. split; [done|]. split; [|done].
      cbn [gptp_run]. unfold st_bind. by rewrite E.
Qed.

(** ** The beginning *)
Lemma powerup_spec g : wf g -> port_state (prt g) = PTP_INITIALIZING -> wp (processEvent POWERUP) (fun _ => inv None) g.
Proof using Hset Hgen.
  intros Hw Hs. unfold processEvent, resume_state. apply wp_bind, wp_bind, wp_get. rewrite Hs, (wf_clock g Hw).
  rewrite (proj2 (Z.eqb_neq _ _) (set_prio Hset)). cbn [orb]. rewrite bool_decide_eq_false_2, decide_False by done.
  eapply wp_mono; [apply (add_spec ANNOUNCE_RECEIPT_TIMEOUT_EXPIRES); [apply receipt_ns_left_lasting, Hw|]|].
  - split; [done|]. unfold armed. rewrite Hs, decide_False by done. congruence.
  - intros ? g1 Hg1. by apply keeps_ether.
Qed.
End Inv.
