(* ===== verification/GptpProps.v ===== *)
(** * GptpProps: what the gPTP daemon does

    The choice of the grandmaster, the measurement of the link delay, and the whole daemon:
    that it goes on, with the timers its state needs, and that a port that hears nothing
    becomes master. *)
From Stdlib Require Import SpecFloat.
From stdpp Require Import base gmap sets numbers list.
From Stdlib Require Import ZArith Lia.
From S2P Require Import Prelude GptpTime GptpMsg GptpCodec Gptp GptpClock GptpPort GptpRx GptpEvent GptpInv.

#[local] Open Scope Z_scope.

(** ** Exactness of the real arithmetic

    The delay of a link is computed with [long double]s of 64 bits.  An integer of up to 64
    bits is represented as it is, and the product with the rate one and the conversion back
    lose nothing. *)
Lemma ld_exact p : Zpos p < 2 ^ 64 -> float_is 64 (ld (Zpos p)) p.
Proof. by apply float_of_int. Qed.

Section Convert.
Context `{GptpEnv}.

(** Times one and back. *)
Lemma ld_times_one t : 0 <= t < 2 ^ 63 -> to_i64 (ldmul (ld t) (ld 1)) = t.
Proof.
  intros Ht. destruct t as [|p|p]; [done| |lia].
  destruct (float_mul 64 16384 ltac:(lia) ltac:(lia) (ld (Zpos p)) (ld 1) p 1) as (m & k & E & Hk & Hm & Hl);
    [apply ld_exact; lia|by apply ld_exact|lia|].
  unfold ldmul. rewrite E. rewrite Pos.mul_1_r in Hm.
  unfold to_i64, to_int, truncated. cbn [xorb].
  assert (Zpos m / 2 ^ k = Zpos p) as Ed by (rewrite Hm; apply Z.div_mul; lia).
  destruct (Z.leb_spec 0 (- k)).
  - assert (k = 0) as -> by lia. change (2 ^ 0) with 1 in *. change (2 ^ (- 0)) with 1.
    replace (Zpos m * 1) with (Zpos p) by lia. by replace (_ && _) with true by lia.
  - rewrite Z.opp_involutive, Ed. by replace (_ && _) with true by lia.
Qed.
End Convert.

(** ** The best master *)

(** [memcmp] of byte strings of one length compares the numbers they are in network order. *)
Lemma memcmp_be a b : length a = length b -> Forall is_byte a -> Forall is_byte b ->
  memcmp a b = (if be_val a <? be_val b then -1 else if be_val b <? be_val a then 1 else 0).
Proof.
  intros Hl Ha. revert b Hl. induction Ha as [|x a Hx Ha IH]; intros [|y b] Hl Hb; try done.
  injection Hl as Hl. apply Forall_cons in Hb as [Hy Hb]. cbn [memcmp]. rewrite !be_val_cons, Hl.
  pose proof (be_val_range a Ha) as Ra. pose proof (be_val_range b Hb) as Rb. rewrite Hl in Ra.
  unfold is_byte in Hx, Hy. set (k := 256 ^ Z.of_nat (length b)) in *.
  destruct (Z.ltb_spec x y); [|destruct (Z.ltb_spec y x)].
  - rewrite (proj2 (Z.ltb_lt _ _)) by nia. done.
  - rewrite (proj2 (Z.ltb_ge _ _)), (proj2 (Z.ltb_lt _ _)) by nia. done.
  - assert (x = y) as -> by lia. rewrite (IH b Hl Hb).
    destruct (Z.ltb_spec (be_val a) (be_val b)), (Z.ltb_spec (y * k + be_val a) (y * k + be_val b)); try lia.
    destruct (Z.ltb_spec (be_val b) (be_val a)), (Z.ltb_spec (y * k + be_val b) (y * k + be_val a)); lia.
Qed.

(** The rank of a data set: the number with priority 1, class, accuracy, variance (as 16 bits
    without sign), priority 2 and identity as its digits.  The lower, the better. *)
Definition rank (p1 : Z) (q : ClockQuality) (p2 : Z) (id : ClockIdentity) : Z :=
  ((((p1 * 2 ^ 8 + cq_class q) * 2 ^ 8 + clockAccuracy q) * 2 ^ 16 + offsetScaledLogVariance q mod 2 ^ 16) * 2 ^ 8 + p2) * 2 ^ 64 + be_val id.
Definition clock_rank (c : ClockConfig) : Z := rank (priority1 c) (clock_quality c) (priority2 c) (clock_identity c).
Definition announce_rank (a : PTPMessageAnnounce) : Z :=
  rank (grandmasterPriority1 a) (grandmasterClockQuality a) (grandmasterPriority2 a) (grandmasterIdentity a).

(** The fields have their widths. *)
Record dataset_ok (p1 : Z) (q : ClockQuality) (p2 : Z) (id : ClockIdentity) : Prop := {
  ds_p1 : is_byte p1;
  ds_class : is_byte (cq_class q);
  ds_accuracy : is_byte (clockAccuracy q);
  ds_p2 : is_byte p2;
  ds_length : length id = 8%nat;
  ds_id : Forall is_byte id }.

Lemma vector_rank p1 q p2 id : dataset_ok p1 q p2 id ->
  length (priority_vector p1 q p2 id) = 14%nat /\ Forall is_byte (priority_vector p1 q p2 id) /\
  be_val (priority_vector p1 q p2 id) = rank p1 q p2 id.
Proof.
  intros []. unfold priority_vector. rewrite be_bytes_htons. split_and!.
  - by rewrite !length_app, length_be_bytes, ds_length0.
  - apply Forall_app. split; [by repeat apply Forall_cons_2|]. apply Forall_app. split; [apply be_bytes_is_byte|]. by apply Forall_cons_2.
  - rewrite !be_val_app, !length_app, length_be_bytes, ds_length0, be_val_bytes. unfold u16, rank. cbn [length Nat.add].
    change (2 ^ (8 * Z.of_nat 2)) with (2 ^ 16). rewrite Zmod_mod. unfold be_val at 1 2. cbn [foldl]. lia.
Qed.

Lemma memcmp_rank p1 q p2 id p1' q' p2' id' : dataset_ok p1 q p2 id -> dataset_ok p1' q' p2' id' ->
  (memcmp (priority_vector p1 q p2 id) (priority_vector p1' q' p2' id') <? 0) = (rank p1 q p2 id <? rank p1' q' p2' id').
Proof.
  intros (L1 & B1 & <-)%vector_rank (L2 & B2 & <-)%vector_rank. rewrite memcmp_be by congruence.
  destruct (be_val _ <? be_val _); [done|]. by destruct (be_val _ <? be_val _).
Qed.

Section Elect.
Context `{env : GptpEnv}.

Lemma wp_add e ns (Q : unit -> GPTP -> Prop) g :
  (forall l k, Q tt (set_timers l (set_tick k g))) -> wp (addEventTimer e ns) Q g.
Proof using Type.
  intros HQ. unfold addEventTimer. apply wp_bind. unfold wp, draw. destruct (env_timer (tick g)); [apply HQ|].
  specialize (HQ (timers g) (S (tick g))). by destruct g.
Qed.
Lemma wp_delete e (Q : unit -> GPTP -> Prop) g : (forall l, Q tt (set_timers l g)) -> wp (deleteEventTimer e) Q g.
Proof using Type. intros HQ. apply HQ. Qed.
Lemma wp_draw {A} (f : nat -> A) (Q : A -> GPTP -> Prop) g : (forall a k, Q a (set_tick k g)) -> wp (draw f) Q g.
Proof using Type. intros HQ. apply HQ. Qed.

(** The state of the port has been chosen; nothing the choice depends on has changed. *)
Definition elected (s : PortState) (g g' : GPTP) : Prop :=
  port_state (prt g') = s /\ clock_config (clk g') = clock_config (clk g) /\ grandmaster (clk g') = grandmaster (clk g) /\
  LastEBestIdentity (clk g') = LastEBestIdentity (clk g) /\ qualified_announce (prt g') = qualified_announce (prt g).

Lemma becomeMaster_elected b g : wp (becomeMaster b) (fun _ => elected PTP_MASTER g) g.
Proof using Type.
  unfold becomeMaster, stopSyncReceiptTimer, startAnnounce, startAnnounceIntervalTimer, startSyncIntervalTimer.
  apply wp_bind, wp_modify, wp_bind, wp_delete. intros l1. apply wp_bind, wp_delete. intros l2. apply wp_bind, wp_get, wp_bind.
  eapply (wp_mono _ (fun _ => elected PTP_MASTER g)).
  - destruct (_ && _); [|done]. apply wp_bind, wp_delete. intros l3. by apply wp_add.
  - intros ? g1 Hg1. apply wp_bind, wp_bind, wp_draw. intros got k.
    apply (wp_mono _ (fun _ => elected PTP_MASTER g)); [|intros ? g2 Hg2; exact Hg2].
    destruct got; [|exact Hg1]. apply wp_bind, wp_delete. intros l4. apply wp_add. intros. exact Hg1.
Qed.

Lemma becomeSlave_elected b g : wp (becomeSlave b) (fun _ => elected PTP_SLAVE g) g.
Proof using Type.
  unfold becomeSlave. apply wp_bind, wp_delete. intros l1. apply wp_bind, wp_delete. intros l2.
  apply wp_bind, wp_modify, wp_bind, wp_get, wp_bind. eapply (wp_mono _ (fun _ => elected PTP_SLAVE g)).
  - destruct (negb _); [|done]. by apply wp_add.
  - intros ? g1 Hg1. apply wp_bind. by destruct b.
Qed.

Lemma recommendState_elected s b g : s = PTP_MASTER \/ s = PTP_SLAVE -> wp (recommendState s b) (fun _ => elected s g) g.
Proof using Type.
  intros Hs. unfold recommendState. apply wp_bind, wp_get, wp_bind. eapply (wp_mono _ (fun _ => elected s g)).
  - destruct Hs as [-> | ->]; case_decide; try done.
    + apply wp_bind, wp_modify, wp_bind. eapply wp_mono; [apply becomeMaster_elected|]. intros ? g1 Hg1. exact Hg1.
    + by destruct b.
    + apply wp_bind. eapply wp_mono; [apply becomeSlave_elected|]. intros ? g1 Hg1. exact Hg1.
  - intros r g1 Hg1. by destruct r.
Qed.

(** One port, with an Announce from another clock. *)
Lemma processStateChange_elects g a :
  let c := clock_config (clk g) in
  ignoring g = false -> priority1 c <> 255 -> number_ports c = 1%nat -> qualified_announce (prt g) = Some a ->
  wp processStateChange (fun ret g' => ret = true /\ clock_config (clk g') = c /\ LastEBestIdentity (clk g') = grandmasterIdentity a /\
    (if clock_isBetterThan c (Some a)
     then port_state (prt g') = PTP_MASTER /\ grandmaster (clk g') = own_grandmaster c
     else port_state (prt g') = PTP_SLAVE /\ grandmaster (clk g') = announced_grandmaster a)) g.
Proof using Type.
  intros c Hi Hp Hn Hq. unfold processStateChange. apply wp_bind, wp_get. fold c. rewrite (proj2 (Z.eqb_neq _ _) Hp), Hn.
  cbn [find_EBest]. rewrite Hi, Hq. set (ch := bool_decide _).
  apply wp_bind. apply (wp_mono _ (fun _ g1 => LastEBestIdentity (clk g1) = grandmasterIdentity a /\ clock_config (clk g1) = c /\ prt g1 = prt g)).
  { unfold ch. case_bool_decide as E; [done|]. apply wp_ret. by rewrite E. }
  intros _ g1 (E1 & E2 & E3). apply wp_bind.
  apply (wp_mono _ (fun _ g2 => LastEBestIdentity (clk g2) = grandmasterIdentity a /\ clock_config (clk g2) = c /\ prt g2 = prt g /\
    (clock_isBetterThan c (Some a) = true -> grandmaster (clk g2) = own_grandmaster c))).
  { by destruct (clock_isBetterThan c (Some a)). }
  intros _ g2 (F1 & F2 & F3 & F4). apply wp_bind. cbn [recommend_ports]. apply wp_bind, wp_get.
  assert (ignoring g2 = false) as -> by (unfold ignoring; rewrite F3; exact Hi). rewrite F2.
  destruct (clock_isBetterThan c (Some a)).
  - apply wp_bind. eapply wp_mono; [apply recommendState_elected; by left|]. intros _ g3 (G1 & G2 & G3 & G4 & G5).
    apply wp_ret. unfold wp, st_ret. rewrite G1, G2, G3, G4, F1, F2, F4 by done. done.
  - apply wp_bind. rewrite decide_True by (by rewrite F3). apply wp_bind.
    eapply wp_mono; [apply recommendState_elected; by right|]. intros _ g3 (G1 & G2 & G3 & G4 & G5).
    apply wp_modify. apply wp_ret. unfold wp, st_ret. cbn. by rewrite G1, G2, G4, F1, F2.
Qed.

Lemma process_announce_qualifies g m a :
  stepsRemoved a < 255 -> clock_id (sourcePortIdentity m) <> clock_identity (clock_config (clk g)) ->
  clock_identity (clock_config (clk g)) ∉ annc_tlv a ->
  wp (process_announce m a) (fun _ g' => clk g' = clk g /\ port_config (prt g') = port_config (prt g) /\
    port_state (prt g') = port_state (prt g) /\ qualified_announce (prt g') = Some a) g.
Proof using Type.
  intros H1 H2 H3. unfold process_announce. apply wp_bind, wp_modify, wp_bind, wp_delete. intros l. apply wp_bind, wp_get. cbn.
  rewrite (proj2 (Z.leb_gt _ _) H1), !bool_decide_eq_false_2 by done. apply wp_bind, wp_bind, wp_modify, wp_add. intros. by apply wp_add.
Qed.

(** C19. An Announce of another clock, which has come over fewer than 255 bridges and not over this
    one, and the state change it leads to, choose between the two clocks by their ranks: the
    numbers made of priority 1, class, accuracy, variance, priority 2 and identity.  With the
    lower rank the port becomes master and the clock its own
    grandmaster; otherwise the port becomes slave and the announced one is the grandmaster. *)
Theorem gptp_best_master g m a :
  let c := clock_config (clk g) in
  ignoring g = false -> automotive g = false -> priority1 c <> 255 -> number_ports c = 1%nat ->
  dataset_ok (priority1 c) (clock_quality c) (priority2 c) (clock_identity c) ->
  dataset_ok (grandmasterPriority1 a) (grandmasterClockQuality a) (grandmasterPriority2 a) (grandmasterIdentity a) ->
  stepsRemoved a < 255 -> clock_id (sourcePortIdentity m) <> clock_identity c -> clock_identity c ∉ annc_tlv a ->
  exists g', st_bind (dispatch (m, Announce a)) (fun _ => processEvent STATE_CHANGE_EVENT) g = Done (true, g') /\
    clock_config (clk g') = c /\ LastEBestIdentity (clk g') = grandmasterIdentity a /\
    (if clock_rank c <? announce_rank a
     then port_state (prt g') = PTP_MASTER /\ grandmaster (clk g') = own_grandmaster c
     else port_state (prt g') = PTP_SLAVE /\ grandmaster (clk g') = announced_grandmaster a).
Proof using Type.
  intros c Hi Hauto Hp Hn Hv Hva H1 H2 H3.
  assert (wp (st_bind (dispatch (m, Announce a)) (fun _ => processEvent STATE_CHANGE_EVENT))
    (fun ret g' => ret = true /\ clock_config (clk g') = c /\ LastEBestIdentity (clk g') = grandmasterIdentity a /\
    (if clock_isBetterThan c (Some a)
     then port_state (prt g') = PTP_MASTER /\ grandmaster (clk g') = own_grandmaster c
     else port_state (prt g') = PTP_SLAVE /\ grandmaster (clk g') = announced_grandmaster a)) g) as W.
  { apply wp_bind. cbn [dispatch]. eapply wp_mono; [by apply process_announce_qualifies|]. intros _ g1 (E1 & E2 & E3 & E4).
    unfold processEvent, ether_processEvent. apply wp_bind, wp_bind, wp_get, wp_ret.
    assert (automotive g1 = false) as -> by (unfold automotive; by rewrite E2).
    unfold c in *. rewrite <-E1 in *. apply processStateChange_elects; try done. unfold ignoring. by rewrite E3. }
  apply wp_done in W as (ret & g' & E & -> & R). exists g'. split; [exact E|].
  unfold clock_isBetterThan, clock_vector, announce_vector in R. by rewrite memcmp_rank in R.
Qed.
End Elect.

(** ** The link delay *)
Lemma ts_difference_val a b : ts_difference a b = ts_val a - ts_val b.
Proof. unfold ts_difference, ts_val, seconds. rewrite Z.shiftl_mul_pow2 by lia. lia. Qed.

Section Delay.
Context `{env : GptpEnv}.

(** With the rate one and times that differ by less than 2^62 nanoseconds (146 years), half of
    the round trip less the time the peer took. *)
Lemma link_delay_exact t1 t4 t2 t3 :
  0 <= ts_val t3 - ts_val t2 < 2 ^ 62 -> - 2 ^ 62 <= ts_val t4 - ts_val t1 < 2 ^ 62 ->
  link_delay_of (ld 1) t1 t4 t2 t3 = Z.quot ((ts_val t4 - ts_val t1) - (ts_val t3 - ts_val t2)) 2.
Proof using Type.
  intros H1 H2. unfold link_delay_of, turn_around. rewrite !ts_difference_val.
  change (SFltb ratio_998 (ld 1) && SFltb (ld 1) ratio_1002) with true. cbv iota.
  rewrite (u64_small (ts_val t3 - ts_val t2)) by (unfold U64; lia). rewrite ld_times_one, u64_small by (unfold U64; lia).
  unfold signed. rewrite (Z.mod_small (ts_val t4 - ts_val t1 + _)) by lia.
  rewrite Z.mod_small by lia. f_equal. lia.
Qed.

(** The three messages belong to one exchange, and the request has been sent. *)
Record exchanged (rq rs fup : PTPMessageCommon) : Prop := {
  ex_resp : sequenceId rs = sequenceId rq;
  ex_fup : sequenceId fup = sequenceId rq;
  ex_source : sourcePortIdentity fup = sourcePortIdentity rs;
  ex_sent : nanoseconds (msg_timestamp rq) < 1000000000;
  ex_version : ts_version (msg_timestamp rq) = ts_version (msg_timestamp rs) }.

Lemma exchanged_match rq b rs fup who t2 t3 : exchanged rq rs fup ->
  match_exchange (Some (rq, b)) (Some (rs, PathDelayResp who t2)) fup who t3 = Measured (msg_timestamp rq) (msg_timestamp rs) t2 t3 /\
  identities_match (Some (rq, b)) (Some (rs, PathDelayResp who t2)) fup who = true.
Proof using Type.
  intros [H1 H2 H3 H4 H5]. unfold match_exchange, identities_match. rewrite H1, H2, !Z.eqb_refl. cbn [negb andb].
  rewrite bool_decide_eq_false_2 by congruence. rewrite bool_decide_eq_true_2 by done.
  rewrite (proj2 (Z.eqb_neq (nanoseconds _) (nanoseconds INVALID_TIMESTAMP))) by (cbn; lia).
  rewrite (proj2 (Z.eqb_neq (nanoseconds _) (nanoseconds PDELAY_PENDING_TIMESTAMP))) by (cbn; lia).
  by rewrite H5, Z.eqb_refl.
Qed.

#[local] Arguments identities_match : simpl never.
#[local] Arguments match_exchange : simpl never.
#[local] Arguments link_delay_of : simpl never.
#[local] Arguments peer_rate_step : simpl never.

(** C20. The response of the peer and the message that follows it end the exchange the port began:
    the delay of the link is the one the four times give, it decides whether the port is
    capable, the timer that waits for the response is stopped, and the next exchange can begin.
    With the rate the port begins with, the delay is exactly half of what the round trip took
    beyond the time the peer held the request. *)
Theorem gptp_link_delay g rq b rs fup who t2 t3 :
  let q := peer (prt g) in
  ignoring g = false -> automotive g = false -> (forall n, env_lock n = true) ->
  last_pdelay_req q = Some (rq, b) -> last_pdelay_resp q = None -> exchanged rq rs fup ->
  exists g', st_bind (dispatch (rs, PathDelayResp who t2)) (fun _ => dispatch (fup, PathDelayRespFollowUp who t3)) g = Done (tt, g') /\
    let q' := peer (prt g') in
    one_way_delay q' = link_delay_of (peer_rate_offset q) (msg_timestamp rq) (msg_timestamp rs) t2 t3 /\
    (peer_rate_offset q = ld 1 -> 0 <= ts_val t3 - ts_val t2 < 2 ^ 62 ->
     - 2 ^ 62 <= ts_val (msg_timestamp rs) - ts_val (msg_timestamp rq) < 2 ^ 62 ->
     one_way_delay q' = Z.quot ((ts_val (msg_timestamp rs) - ts_val (msg_timestamp rq)) - (ts_val t3 - ts_val t2)) 2) /\
    asCapable q' = (Z.abs (one_way_delay q') <=? neighbor_prop_delay_thresh (port_config (prt g))) /\
    pdelay_count q' = u32 (pdelay_count q + 1) /\ last_pdelay_resp q' = None /\
    timers g' = filter (fun t => t.1 <> PDELAY_RESP_RECEIPT_TIMEOUT_EXPIRES) (timers g).
Proof using Type.
  intros q Hi Hauto Hlock Hreq Hresp Hex. unfold q in *. clear q. destruct (exchanged_match rq b rs fup who t2 t3 Hex) as [EM EI].
  set (d := link_delay_of (peer_rate_offset (peer (prt g))) (msg_timestamp rq) (msg_timestamp rs) t2 t3).
  assert (wp (st_bind (dispatch (rs, PathDelayResp who t2)) (fun _ => dispatch (fup, PathDelayRespFollowUp who t3)))
    (fun _ g' => one_way_delay (peer (prt g')) = d /\
      asCapable (peer (prt g')) = (Z.abs d <=? neighbor_prop_delay_thresh (port_config (prt g))) /\
      pdelay_count (peer (prt g')) = u32 (pdelay_count (peer (prt g)) + 1) /\ last_pdelay_resp (peer (prt g')) = None /\
      timers g' = filter (fun t => t.1 <> PDELAY_RESP_RECEIPT_TIMEOUT_EXPIRES) (timers g)) g) as W.
  { cbn [dispatch]. unfold process_pdelay_resp. apply wp_bind, wp_bind, wp_get. rewrite Hi, Hresp.
    apply wp_bind, wp_modify, wp_bind. unfold wp at 1, draw. rewrite Hlock. cbn [negb].
    apply wp_bind, wp_ret, wp_modify.
    unfold process_pdelay_fup. apply wp_bind, wp_bind, wp_get. unfold ignoring in *. cbn. rewrite Hi.
    apply wp_bind, wp_modify, wp_bind. unfold wp at 1, draw. rewrite Hlock. cbn [negb].
    replace (identities_match _ _ _ _) with true by (symmetry; rewrite Hreq; exact EI).
    replace (match_exchange _ _ _ _ _) with (Measured (msg_timestamp rq) (msg_timestamp rs) t2 t3) by (symmetry; rewrite Hreq; exact EM).
    apply wp_bind, wp_modify, wp_bind. unfold take_link_delay.
    apply wp_bind, wp_modify, wp_bind, wp_get. cbn.
    apply wp_bind, wp_modify, wp_bind, wp_modify, wp_bind. unfold automotive in *. cbn. rewrite Hauto. cbn [negb].
    unfold setAsCapable. apply wp_modify, wp_modify, wp_bind, wp_modify, wp_ret, wp_ret. cbn.
    unfold peer_rate_step. by repeat case_match. }
  apply wp_done in W as ([] & g' & E & H1 & H2 & H3 & H4 & H5). exists g'. split; [exact E|]. cbv zeta.
  rewrite H1. split_and!; try done. intros Hr. unfold d. rewrite Hr. apply link_delay_exact.
Qed.
End Delay.

(** ** The daemon *)

(** What the daemon is started with: no automotive profile, a timestamper, and a priority that
    lets it be grandmaster. *)
Record start_ok (prio1 : Z) (c : PortConfig) : Prop := {
  start_profile : automotive_profile c = false;
  start_hw : hw_timestamper c = true;
  start_prio : prio1 <> 255 }.

(** The intervals for Syncs are between 2^-19 and 2^25 seconds, which the timers can keep. *)
Definition start_paced (c : PortConfig) : Prop :=
  itv_range (interval_or (-3) (initialLogSyncInterval c)) /\ itv_range (interval_or 0 (operLogSyncInterval c)).

Section Daemon.
Context `{env : GptpEnv}.
Context `{Slack} (Hgen : slack = true \/ generous) (prio1 : Z) (synt ipc : bool) (c : PortConfig) (up : bool) (z : Z) (t : Timestamp).
Context (Hc : start_ok prio1 c) (Hp : slack = true \/ start_paced c).

Let g0 := new_gptp prio1 synt ipc c up z t.
Let cc := clock_config (clk g0).
Let pc := port_config (prt g0).

Lemma start_setting : setting cc pc.
Proof using Hc Hp.
  destruct Hc. assert (itv (interval_or (-3) (initialLogSyncInterval c)) /\ itv (interval_or 0 (operLogSyncInterval c))) as [Hi Ho].
  { destruct Hp as [?|[? ?]]; split; [by left..|by right|by right]. }
  split; cbn; try done; try apply length_le_mem. by rewrite start_profile0.
Qed.
Lemma start_wf : wf cc pc g0.
Proof using Hc Hp.
  pose proof (set_itv _ _ start_setting) as Hi. split; cbn; try done; [by left|right; unfold itv_range; lia].
Qed.

(** Powered up, and through inputs. *)
Definition gptp_history (l : list Input) : stM GPTP unit := st_bind (processEvent POWERUP) (fun _ => gptp_run l).

Lemma history_spec l : Forall calm l ->
  (exists g, gptp_history l g0 = Done (tt, g) /\ inv cc pc None g) \/
  (exists w l1 i l2 g1, gptp_history l g0 = Fault w /\ l = l1 ++ i :: l2 /\ gptp_history l1 g0 = Done (tt, g1) /\ stops i g1 w).
Proof using Hgen Hc Hp.
  intros Hl. pose proof (powerup_spec cc pc start_setting Hgen g0 start_wf eq_refl) as W. apply wp_done in W as (r & g & E & Hg).
  assert (forall l', gptp_history l' g0 = gptp_run l' g) as EH by (intros; unfold gptp_history, st_bind; by rewrite E).
  destruct (gptp_run_spec cc pc start_setting Hgen l g Hl Hg) as [(g' & E' & ?)|(w & l1 & i & l2 & g1 & E' & -> & E1 & ?)].
  - left. exists g'. by rewrite EH.
  - right. exists w, l1, i, l2, g1. by rewrite !EH.
Qed.

(** Without Announces the port becomes master, and the clock its own grandmaster. *)
Lemma receipt_timeout_master g : wf cc pc g -> port_state (prt g) <> PTP_MASTER ->
  wp (processEvent ANNOUNCE_RECEIPT_TIMEOUT_EXPIRES)
    (fun _ g' => port_state (prt g') = PTP_MASTER /\ gm_identity (grandmaster (clk g')) = clock_identity cc) g.
Proof using Hc Hp.
  intros Hw Hs. pose proof start_setting as Hset. unfold processEvent, ether_processEvent. apply wp_bind, wp_modify, wp_bind, wp_bind, wp_get.
  assert (automotive g = false) as Ha by (by eapply wf_automotive). unfold automotive in *. cbn. rewrite Ha. apply wp_ret.
  unfold processSyncAnnounceTimeout. apply wp_bind, wp_get. cbn.
  assert (clock_config (clk g) = cc) as -> by apply Hw. rewrite (proj2 (Z.eqb_neq _ _) (set_prio _ _ Hset)).
  apply wp_bind, wp_add. intros l k. rewrite decide_False by done. apply wp_bind, wp_modify, wp_bind, wp_modify, wp_bind.
  set (P := fun g' : GPTP => port_state (prt g') = PTP_MASTER /\ gm_identity (grandmaster (clk g')) = clock_identity cc).
  assert (stable P) as HP by (intros ga gb E1 E2 E3 E4 E5 E6 E7 E8 [? ?]; split; congruence).
  eapply wp_mono; [by apply (keeps_getDeviceTime P HP)|]. intros [st dt] g1 Hg1.
  apply wp_bind. eapply wp_mono; [by apply (keeps_calcLocal P _ _ HP)|]. intros ? g2 Hg2.
  apply wp_bind, wp_modify, wp_bind, wp_add. intros l' k'. unfold startAnnounce, startAnnounceIntervalTimer.
  apply wp_bind, wp_bind, wp_delete. intros l''. apply wp_add. intros l3 k3. exact Hg2.
Qed.
End Daemon.

(** Frames are received into an array of 128 bytes. *)
Definition buffered (i : Input) : Prop := match i with Received buf _ _ => length buf = 128%nat | _ => True end.
(** A signalling frame asks for intervals between 2^-19 and 2^25 seconds, or for one of the
    special values of the protocol. *)
Definition moderate (i : Input) : Prop := match i with Received buf size _ => moderate_frame buf size | _ => True end.

Lemma calm_slack i : buffered i -> @calm true i.
Proof. by destruct i; [|split; [|left]|..]. Qed.
Lemma calm_strict i : buffered i -> moderate i -> @calm false i.
Proof. by destruct i; [|split; [|right]|..]. Qed.

(** C18. An ordinary port (no automotive profile, with a timestamper, on a clock whose priority
    is not 255), from power-up, whatever timers expire, frames arrive in the buffer and links
    change, and whatever the system answers.  Either all is handled without a fault, the port
    being initialising, master or slave; or the program ends at one of the inputs, in one of two
    ways: [abort()], when a deferred measurement is to be taken up and none is kept, or an access
    out of bounds, at an Announce whose path trace has more than seven identities.  When the
    system gives the timers that are asked for and lets the locks be taken, and the intervals
    configured and signalled are ones the timers can keep (2^-19 to 2^25 s), the state also moves
    by itself: a master has running timers for its Syncs and its Announces, any other port one
    that ends its waiting for an Announce. *)
Theorem gptp_goes_on `{GptpEnv} prio1 synt ipc c up z t l :
  start_ok prio1 c -> Forall buffered l ->
  let g0 := new_gptp prio1 synt ipc c up z t in
  (exists g, gptp_history l g0 = Done (tt, g) /\ port_state (prt g) ∈ [PTP_INITIALIZING; PTP_MASTER; PTP_SLAVE] /\
     (generous -> start_paced c -> Forall moderate l -> @armed false None g)) \/
  (exists w l1 i l2 g1, gptp_history l g0 = Fault w /\ l = l1 ++ i :: l2 /\ gptp_history l1 g0 = Done (tt, g1) /\
     ((w = Exited /\ lost_measurement i g1) \/
      (w = OutOfBounds /\ exists buf size remote, i = Received buf size remote /\ traced buf size = true /\ (7 < path_count buf size)%nat))).
Proof.
  intros Hc Hl g0.
  assert (Forall (@calm true) l) as Hl1 by (eapply Forall_impl; [exact Hl|apply calm_slack]).
  destruct (@history_spec _ true ltac:(by left) prio1 synt ipc c up z t Hc ltac:(by left) l Hl1) as [(g & E & Hw & _)|Hx]; [left|right].
  - exists g. split; [done|]. split; [apply Hw|]. intros Hgen Hp Hm.
    assert (Forall (@calm false) l) as Hl2.
    { rewrite Forall_forall in Hl, Hm |- *. intros i Hi. apply calm_strict; auto. }
    destruct (@history_spec _ false ltac:(by right) prio1 synt ipc c up z t Hc ltac:(by right) l Hl2)
      as [(g' & E' & _ & Ha)|(w & l1 & i & l2 & g1 & E' & _)]; [|congruence].
    assert (g' = g) as -> by congruence. exact Ha.
  - destruct Hx as (w & l1 & i & l2 & g1 & E & -> & E1 & Hst). exists w, l1, i, l2, g1. split_and!; [done..|].
    destruct Hst as [?|(-> & buf & size & remote & -> & Ho)]; [by left|right]. split; [done|]. exists buf, size, remote.
    apply andb_true_iff in Ho as [? Ho]. apply bool_decide_eq_true in Ho. done.
Qed.

(** C21. An ordinary port that is not master has a running timer whose expiry makes it master and
    the clock its own grandmaster: a silent network does not leave it without.  So after any
    history the program has survived, when the system gives timers and locks and the intervals
    configured and signalled are between 2^-19 and 2^25 s (or special values of the protocol). *)
Theorem gptp_silence_makes_master `{GptpEnv} prio1 synt ipc c up z t l g :
  generous -> start_ok prio1 c -> start_paced c -> Forall buffered l -> Forall moderate l ->
  gptp_history l (new_gptp prio1 synt ipc c up z t) = Done (tt, g) -> port_state (prt g) <> PTP_MASTER ->
  exists k us g', timers g !! k = Some (ANNOUNCE_RECEIPT_TIMEOUT_EXPIRES, us) /\ us <> 0 /\
    gptp_do (Expired k) g = Done (tt, g') /\ port_state (prt g') = PTP_MASTER /\
    gm_identity (grandmaster (clk g')) = ClockIdentity_of_addr (local_addr c).
Proof.
  intros Hgen Hc Hp Hl Hm E Hs.
  assert (Forall (@calm false) l) as Hl'.
  { rewrite Forall_forall in Hl, Hm |- *. intros i Hi. apply calm_strict; auto. }
  destruct (@history_spec _ false ltac:(by right) prio1 synt ipc c up z t Hc ltac:(by right) l Hl')
    as [(g1 & E1 & Hw & Ha)|(w & l1 & i & l2 & g1 & E1 & _)]; [|congruence].
  assert (g1 = g) as -> by congruence. unfold armed in Ha. rewrite decide_False in Ha by done.
  destruct (Ha ltac:(done)) as [?|(us & Hin & Hus)]; [done|]. apply list_elem_of_lookup in Hin as [k Hk].
  pose proof (@receipt_timeout_master _ false prio1 synt ipc c up z t Hc ltac:(by right) (set_timers (delete k (timers g)) g)) as W.
  destruct (wp_done _ _ _ (W ltac:(by apply (wf_same _ _ g)) ltac:(done))) as (r & g' & E' & Hm' & Hg).
  exists k, us, g'. split; [done|]. split; [done|]. split; [|done].
  unfold gptp_do, st_bind, st_get, st_modify. rewrite Hk, (proj2 (Z.eqb_neq _ _) Hus). by rewrite E'.
Qed.
