(* ===== verification/GptpExamples.v ===== *)
(** * GptpExamples: the gPTP daemon on concrete inputs

    The theorems of [GptpProps] at a daemon and a network that can be computed, and runs that
    show where it ends. *)
From Stdlib Require Import SpecFloat.
From stdpp Require Import base gmap sets numbers list.
From Stdlib Require Import ZArith Lia.
From S2P Require Import Prelude GptpTime GptpMsg GptpCodec Gptp GptpClock GptpPort GptpRx GptpEvent GptpInv GptpProps.

#[local] Open Scope Z_scope.

(** A system in which everything succeeds: frames leave at 5 s and arrive 2500 ns later. *)
#[local] Instance calm_system : GptpEnv := {|
  env_rx := fun _ => (0, mkTs 2500 5 0 1, 0);
  env_tx := fun _ => (0, mkTs 0 5 0 1, 0);
  env_time := fun _ => (mkTs 0 7 0 1, mkTs 0 6 0 1);
  env_version := fun _ => 1;
  env_sent := fun _ => true;
  env_lock := fun _ => true;
  env_timer := fun _ => true;
  env_thread := fun _ => true;
  env_garbage := fun _ => 0;
  env_undefined := fun _ => 0 |}.

Definition a_port : PortConfig :=
  mkPortConfig (mkPortId [] 0) [2; 0; 0; 0; 0; 1] false false false 800 5 (-127) (-127) (-127) (-127) ∅ true.
Definition a_daemon : GPTP := new_gptp 248 true true a_port true 0 (newTimestamp 0 0 0).

Lemma system_generous : generous.
Proof. by split. Qed.
Lemma a_port_ok : start_ok 248 a_port.
Proof. by split. Qed.
Lemma a_port_paced : start_paced a_port.
Proof. split; vm_compute; split; congruence. Qed.

(** The daemon after inputs. *)
Definition after (l : list Input) : GPTP := match gptp_history l a_daemon with Done (_, g) => g | Fault _ => a_daemon end.

(** A frame of a peer in the buffer. *)
Definition frame_of (m : PTPMessageCommon) (b : Body) : Input :=
  match build_frame m b with
  | Done f => Received (f ++ replicate (128 - length f) 0) (Z.of_nat (length f)) [2; 0; 0; 0; 0; 2]
  | Fault _ => ReceiveFailed
  end.
Definition from_peer (ty seq port : Z) : PTPMessageCommon :=
  mkCommon 2 ty (mkPortId [2; 0; 0; 255; 254; 0; 0; 2] port) seq MESSAGE_OTHER [0; 0] 0 0 0 0 (newTimestamp 0 0 0) 0 false.
Definition me : PortIdentity := mkPortId [2; 0; 0; 255; 254; 0; 0; 1] 1.

Definition response (seq port : Z) : Input := frame_of (from_peer 3 seq port) (PathDelayResp me (newTimestamp 1000 9 0)).
Definition followed (seq port : Z) : Input := frame_of (from_peer 10 seq port) (PathDelayRespFollowUp me (newTimestamp 2000 9 0)).
Definition announced (prio : Z) : Input :=
  frame_of (from_peer 11 0 1) (Announce (mkAnnounce 37 prio (mkQuality 248 0x22 0x436A) 248 [2; 0; 0; 255; 254; 0; 0; 2] 0 160 [[2; 0; 0; 255; 254; 0; 0; 2]])).
Definition signalled (link annc : Z) : Input :=
  frame_of (from_peer 12 0 1) (Signalling (-1) (mkSigTlv (PLAT_htons 3) (PLAT_htons 12) [0; 0x80; 0xC2] 0 (PLAT_htons 2) link 128 annc 3 0)).

(** What happens next: the timer of an event expires, or something arrives. *)
Inductive Step := Timer (e : Event) | Arrives (i : Input).
Fixpoint inputs_of (l : list Step) (g : GPTP) : list Input :=
  match l with
  | [] => []
  | s :: l' =>
    let i := match s with
      | Timer e => Expired (match list_find (fun t => t.1 = e) (timers g) with Some (k, _) => k | None => 1000 end)
      | Arrives i => i
      end in
    i :: match gptp_do i g with Done (_, g') => inputs_of l' g' | Fault _ => [] end
  end.
Definition script (l : list Step) : list Input := inputs_of l (after []).

(** ** An exchange with the peer, and the choice of the master *)
Definition request_sent : GPTP := after (script [Timer PDELAY_INTERVAL_TIMEOUT_EXPIRES]).

Lemma gptp_link_delay_witness :
  exists g', st_bind (dispatch (msg_set_timestamp (mkTs 2500 5 0 1) (from_peer 3 0 1), PathDelayResp me (newTimestamp 1000 9 0)))
    (fun _ => dispatch (from_peer 10 0 1, PathDelayRespFollowUp me (newTimestamp 2000 9 0))) request_sent = Done (tt, g') /\
    one_way_delay (peer (prt g')) = 750 /\ asCapable (peer (prt g')) = true.
Proof.
  destruct (gptp_link_delay request_sent
      (msg_set_timestamp (mkTs 0 5 0 1) (set_messageLength 54 (new_common a_daemon PATH_DELAY_REQ_MESSAGE 0 MESSAGE_OTHER 0 0))) PathDelayReq
      (msg_set_timestamp (mkTs 2500 5 0 1) (from_peer 3 0 1)) (from_peer 10 0 1) me (newTimestamp 1000 9 0) (newTimestamp 2000 9 0))
    as (g' & E & _ & H2 & H3 & _); [vm_compute; reflexivity..| | ].
  - split; vm_compute; reflexivity.
  - exists g'. split; [exact E|]. cbv zeta in H2, H3.
    assert (one_way_delay (peer (prt g')) = 750) as D.
    { rewrite H2; [reflexivity|vm_compute; reflexivity|vm_compute; split; congruence..]. }
    split; [exact D|]. rewrite H3, D. vm_compute. reflexivity.
Defined.

Definition better_announce : PTPMessageAnnounce :=
  mkAnnounce 37 100 (mkQuality 248 0x22 0x436A) 248 [2; 0; 0; 255; 254; 0; 0; 2] 0 160 [[2; 0; 0; 255; 254; 0; 0; 2]].

Lemma gptp_best_master_witness :
  exists g', st_bind (dispatch (from_peer 11 0 1, Announce better_announce)) (fun _ => processEvent STATE_CHANGE_EVENT) (after []) = Done (true, g') /\
    port_state (prt g') = PTP_SLAVE /\ gm_identity (grandmaster (clk g')) = [2; 0; 0; 255; 254; 0; 0; 2].
Proof.
  destruct (gptp_best_master (after []) (from_peer 11 0 1) better_announce) as (g' & E & _ & _ & H).
  - vm_compute. reflexivity.
  - vm_compute. reflexivity.
  - vm_compute. discriminate.
  - vm_compute. reflexivity.
  - split; [vm_compute; split; congruence..|reflexivity|vm_compute; repeat constructor; congruence].
  - split; [vm_compute; split; congruence..|reflexivity|vm_compute; repeat constructor; congruence].
  - vm_compute. reflexivity.
  - vm_compute. discriminate.
  - apply (bool_decide_unpack _). vm_compute. exact I.
  - exists g'. split; [exact E|].
    replace (_ <? _) with false in H by (vm_compute; reflexivity). destruct H as [H1 H2]. rewrite H1, H2. split; reflexivity.
Defined.

(** The same with frames and timers: a better clock is followed, a worse one is not. *)
Example announce_followed :
  let g := after (script [Arrives (announced 100); Timer STATE_CHANGE_EVENT]) in
  port_state (prt g) = PTP_SLAVE /\ gm_identity (grandmaster (clk g)) = [2; 0; 0; 255; 254; 0; 0; 2].
Proof. vm_compute. split; reflexivity. Qed.
Example announce_outdone :
  let g := after (script [Arrives (announced 249); Timer STATE_CHANGE_EVENT]) in
  port_state (prt g) = PTP_MASTER /\ gm_identity (grandmaster (clk g)) = [2; 0; 0; 255; 254; 0; 0; 1].
Proof. vm_compute. split; reflexivity. Qed.

(** ** The end of the daemon *)

(** Two ports of the peer answer each request. *)
Definition two_answers (n : Z) : list Step :=
  [Timer PDELAY_INTERVAL_TIMEOUT_EXPIRES; Arrives (response n 1); Arrives (response n 2); Arrives (followed n 2)].
(** After three such exchanges the requests are halted.  A signalling message starts their timer
    again; the request that is then made is not sent, and two messages that follow a response
    to it are put off.  The next request makes the first of them void, and the second finds
    nothing kept. *)
Definition abort_run : list Input :=
  script (two_answers 0 ++ two_answers 1 ++ two_answers 2 ++
    [Arrives (signalled 0 128); Timer PDELAY_INTERVAL_TIMEOUT_EXPIRES; Arrives (response 3 1); Arrives (followed 3 1); Arrives (followed 3 1);
     Timer PDELAY_INTERVAL_TIMEOUT_EXPIRES; Timer PDELAY_DEFERRED_PROCESSING; Timer PDELAY_DEFERRED_PROCESSING]).

Lemma abort_run_buffered : Forall buffered abort_run.
Proof. let l := eval vm_compute in abort_run in change (Forall buffered l). repeat constructor. Qed.

(** The run that ends, and the beginning, where the timer for an Announce is running. *)
Lemma gptp_goes_on_witness :
  (gptp_history abort_run a_daemon = Fault Exited /\
   exists l1 i l2 g1, abort_run = l1 ++ i :: l2 /\ gptp_history l1 a_daemon = Done (tt, g1) /\ lost_measurement i g1) /\
  @armed false None (after []).
Proof.
  split.
  - destruct (gptp_goes_on 248 true true a_port true 0 (newTimestamp 0 0 0) abort_run a_port_ok abort_run_buffered)
      as [(g & E & _)|(w & l1 & i & l2 & g1 & E & El & E1 & Hs)].
    + exfalso. vm_compute in E. discriminate E.
    + assert (w = Exited) as -> by (vm_compute in E; congruence). destruct Hs as [[_ Hs]|[Hs _]]; [|discriminate Hs].
      split; [exact E|]. exists l1, i, l2, g1. split; [exact El|]. split; [exact E1|exact Hs].
  - destruct (gptp_goes_on 248 true true a_port true 0 (newTimestamp 0 0 0) [] a_port_ok (Forall_nil_2 _)) as [(g & E & _ & Ha)|(w & l1 & i & l2 & g1 & E & _)].
    + assert (g = after []) as -> by (vm_compute in E; vm_compute; congruence).
      apply Ha; [apply system_generous|apply a_port_paced|constructor].
    + exfalso. vm_compute in E. discriminate E.
Defined.

Lemma gptp_silence_makes_master_witness :
  exists k us g', timers (after []) !! k = Some (ANNOUNCE_RECEIPT_TIMEOUT_EXPIRES, us) /\ us <> 0 /\
    gptp_do (Expired k) (after []) = Done (tt, g') /\ port_state (prt g') = PTP_MASTER /\
    gm_identity (grandmaster (clk g')) = [2; 0; 0; 255; 254; 0; 0; 1].
Proof.
  refine (gptp_silence_makes_master 248 true true a_port true 0 (newTimestamp 0 0 0) [] (after []) system_generous a_port_ok a_port_paced _ _ _ _).
  - constructor.
  - constructor.
  - vm_compute. reflexivity.
  - vm_compute. discriminate.
Defined.

(** A signalling message asks for an interval below a microsecond: the master's timer for its
    Announces is set to zero and never expires. *)
Example announces_stop :
  let g := after (script [Timer ANNOUNCE_RECEIPT_TIMEOUT_EXPIRES; Arrives (signalled 128 236); Timer ANNOUNCE_INTERVAL_TIMEOUT_EXPIRES]) in
  port_state (prt g) = PTP_MASTER /\
  filter (fun t => t.1 = ANNOUNCE_INTERVAL_TIMEOUT_EXPIRES) (timers g) = [(ANNOUNCE_INTERVAL_TIMEOUT_EXPIRES, 0)].
Proof. vm_compute. split; reflexivity. Qed.
